(* ===== verification/_CoqProject ===== *)
-Q . S2P
Prelude.v
Codec.v
Utf8.v
Numbers.v
Floats.v
Jcs.v
JsonRead.v
JcsSpec.v
Marshal.v
Json.v
JsonDoc.v
Keys.v
Fqdn.v
Lifecycle.v
LogReader.v
TxtRecord.v
Merkle.v
Evidence.v
Tiles.v
Reference.v
Policy.v
Checkpoint.v
Scan.v
Event.v
EventSpec.v
Replay.v
ReplaySpec.v
AppendSpec.v
Client.v
Reader.v
ReaderSpec.v
Demo.v
ClientDemo.v
KeyRing.v
KeyRingSpec.v
Jwks.v
Domain.v
Fetch.v
Cache.v
Coalesce.v
Manager.v
ManagerSpec.v
ManagerDemo.v
NetHttp.v
NetIP.v
Netguard.v
NetguardSpec.v
DnsTtl.v
JoseUtil.v
HttpSig.v
HttpSigSpec.v
ResponseSig.v
ResponseSigSpec.v
HttpDemo.v
Token.v
Jose.v
JoseSpec.v
JoseRound.v
Oidc.v
OidcSpec.v
JoseDemo.v
OidcDemo.v
Prepared.v
PreparedSpec.v
PreparedDemo.v
LogSigning.v
LogSigningSpec.v
LogSigningDemo.v
Managed.v
ManagedRotation.v
ManagedIssuance.v
ManagedSpec.v
ManagedIssuanceSpec.v
ManagedDemo.v
Migration.v
MigrationSpec.v
MigrationDemo.v
Bundle.v
BundleSpec.v
BundleDemo.v
