(* ===== verification/Prelude.v ===== *)
(** * dnsid-go: a verification development (root file)

    dnsid-go verifies the identity of an agent behind a domain name. A TXT
    record at [_dnsid.<domain>], signed by the key of a governing entity, names
    the entity's and the agent's published key sets, a status document and a
    lifecycle log. A verification fetches all of them, replays the log, and
    yields a [VerifiedDomain], which is cached, shared between callers and used
    to check signatures of HTTP messages and of tokens. This library models that
    path from the bytes of a record, a log entry or a request up to the answer
    given to the application, and proves what the answer is evidence of.

    ** Parts, files and sources

    Shared: Prelude (errors, results and their notation, strings, lists),
    Codec, Utf8, Numbers, NetHttp, NetIP (what the sources use of Go's standard
    library: SHA-256, base64, strconv, unicode/utf8, float64 text, net/http,
    net/url, net and net/netip), Json (documents as values) and JsonDoc (the
    documents of a text).

    - Canonical JSON. Jcs, JsonRead, JcsSpec: log/c2sptlog/json.go and
      internal/jsonutil/object.go. Writing, reading, and the round trip, for which
      Floats shows that the shortest text of a float64 reads back as it; Marshal
      has the texts of json.Marshal and reads them back.
    - Keys. Keys (internal/cryptoutil; the interface [KeyOps] of a JWK), KeyRing
      and KeyRingSpec (keyprovider.go: the local key provider, its key file and
      every fault of the file system), Jwks (jwk_alg.go, jwks_wrapper.go,
      record_signature.go), JoseUtil (internal/joseutil).
    - Records. Fqdn (fqdn.go), TxtRecord (identity_record.go), Fetch
      (txt_record.go and the fetch policy of identity_manager.go).
    - Lifecycle. Lifecycle (log/log.go: the state machine of a history), Event
      and EventSpec (log/c2sptlog/event.go and the checks of prepared.go and
      client.go it uses: entries, their signed bytes), Replay, ReplaySpec and
      AppendSpec (signatures.go, check_append.go: from entries to a verified
      stream).
    - The transparency log. Merkle, Tiles, Scan, Evidence (hash_tiles.go,
      scan_source.go, resource_fetcher.go), Reference (reference.go), Policy
      (policy_parser.go, proof.go), Checkpoint (checkpoint_store.go: the shared
      trusted checkpoint and the race to advance it), Client, Reader and
      ReaderSpec (client.go: what the log client answers).
    - Writing to the log. Prepared and PreparedSpec (prepared.go: events signed
      by several parties and appended), Managed, ManagedRotation and
      ManagedIssuance with ManagedSpec and ManagedIssuanceSpec
      (managed_rotation.go, managed_issuance.go, managed_submission.go: the
      two durable operations, their recovery after a crash and the outcome of
      each submission), LogSigning and LogSigningSpec (root log.go: events and
      issuances signed by their roles and handed to a log).
    - Between logs and offline. Migration and MigrationSpec (migration.go: the
      history handed over at a signed cutoff), Bundle and BundleSpec
      (bundle.go: a stream served as one signed document).
    - Verified domains. Domain and Cache (cache.go, verification_context.go),
      Coalesce (identity_manager.go: verifications in flight), Manager and
      ManagerSpec (identity_manager.go: acquiring the evidence, the boundary of
      an invocation).
    - HTTP. HttpSig and HttpSigSpec (httpsig/http_signatures.go), ResponseSig
      and ResponseSigSpec (its signing side and httpsig/response_signatures.go).
    - Tokens. Token, Jose, JoseSpec and JoseRound (jose/: JWTs and JWSs), Oidc
      and OidcSpec (oidc/oidc.go: assertions, their exchange, tokens of an
      issuer).
    - Network. Netguard and NetguardSpec (internal/netguard: which addresses are
      dialed), DnsTtl (dns_ttl.go: the lifetimes read off DNS connections).

    Demo, ClientDemo, ManagerDemo, PreparedDemo, ManagedDemo,
    MigrationDemo, BundleDemo, LogSigningDemo, HttpDemo, JoseDemo and OidcDemo
    hold one concrete world - keys, a three-entry log with a witness, an
    identity, a signed exchange - on which the theorems are instantiated; the witnesses of the other components are in
    their own files.

    ** How the parts meet

    LogReader is the interface between a verification and a log method: the
    operations as a record and the class [LifecycleEvidence] of what a
    successful binding promises: that a history the log is known to hold for
    the domain binds the keys. ReaderSpec proves the class for the client of
    c2sp-tlog ([client_evidence]), with the histories it rebuilds as those known; Manager and ManagerSpec use nothing else of a
    log. In the same way JoseUtil takes a resolver and a key provider as their
    operations, and the HTTP theorems hold for any of them.

    Definitions keep the names of the Go functions; a loop is a [Fixpoint] named
    after what one turn does. A pointer that may be nil is an [option], a Go map
    a [gmap], an error a value of [error] in the sum [res]. Time is a number of
    nanoseconds; what the clock, the context, the network, the file system or
    randomness answers during a call is an argument or a record of answers
    ([call], [evidence_env], [response_env], [World], [disk]), so every
    interleaving with them is covered. Shared state is a step relation:
    Checkpoint (clients over one store), Cache (the gap between its two locks),
    Coalesce (callers, workers and invalidations), KeyRing (calls with faults),
    ManagedRotation and ManagedIssuance (services and a store that may fail).

    ** What the theorems show

    - A verified domain: one valid record in an allowed DNSSEC state, signed by
      the entity's current key, a distinct operational key the log binds to it,
      an ACTIVE status and evidence that is fresh at the end; no answer that
      the configured allowlist does not accept; a dropped domain is not brought
      back by older work, and callers in flight are told.
    - A replayed log: exactly the streams in which each event is authorized by
      the keys in force and names its predecessor; entries of others change
      nothing; the last event identifier determines the history, up to a
      collision of two of its events; appending and
      the timeline of log/log.go agree with the replay.
    - The log client: proofs of every entry verified, checkpoints only extended,
      no readable revocation before the time asked for overlooked, migrations
      bounded; Merkle roots, tiles, scans and proofs bind what they claim.
    - Writing: a prepared event that is appended is the one its signers signed
      and the history accepts it; a managed operation activates its key or its
      issuance only after the log's answer for one and the same entry, whatever
      fails or is retried; a written event carries the signature of every role
      its type requires over its own bytes, in whatever order they signed, and a
      generated issuance opens a stream; a cutoff hands over exactly the standing of the
      source, and a verified bundle is signed by an accepted verifier,
      replayed in full, and in every field what was signed.
    - HTTP: a verified request or negotiated response was signed over its own
      base by a current key of the verified domain; the base determines the
      value of every component it covers.
    - Tokens: a verified JWT is current and signed by its issuer, a created one
      is accepted under the stated conditions or refused as too long, failed signatures evict a
      domain at a bounded rate, and a JWS never passes for a JWT. An accepted
      OIDC token is from an allowed issuer, for the caller, and signed by the
      one key of its name that the issuer publishes; an exchange sends nothing
      elsewhere, and a created assertion reads back.
    - Network: what is dialed is an address that was checked, public or exempt
      by name, and no name is resolved twice; the lifetimes captured from DNS
      are the least of those answered, however the bytes arrive.
    - Encodings: round trips, canonical forms and their injectivity, bounds.
    - Key rotation: the provider refines an abstract protocol whatever fails,
      and loading its file gives what memory holds.

    ** Bounds and fuel

    [decode_fuel] is twice the input length plus two and is never exhausted
    ([decode_object_terminates]); rune loops take the length of the string;
    shortest float formatting tries 1 to 17 digits, which are enough for
    float64 ([shortest_reads]); [scan_loop] has the size of the checkpoint, and a turn reads at
    least one entry; [do_fuel] is the 10 requests of [http.Client]; documents
    are read with fuel that never runs out ([json_document_terminates]), and
    [drain] has the length of what is pending, of which a turn takes two bytes.
    int64 arithmetic that the code does not bound is written with its
    wrap-around ([wrap_int64]); the conversion of a float64 that is out of range
    is an argument ([int64_overflow]).

    ** Parameters

    Code outside the repository enters as a class of operations, with its
    documented behaviour as a class of laws where a theorem needs it: [KeyOps],
    [JwkLib] and [JwkSpec], [SignSpec], [JwkSetLib] and [JwkAttrSpec],
    [JwkText] and [JwkTextSpec], [CloneLib] (lestrrat-go/jwx and crypto), [TLog] and [TLogSpec],
    [NoteLib] and [NoteSpec], [ConsistencyLib] (golang.org/x/mod/sumdb,
    transparency-dev), [NetURL], [Idna] and [IdnaSpec] (parsers), [TimeText]
    (time in JSON), [Sfv] and [SfvSpec], [Digest] (web-bot-auth), [JwtLib] and
    [JwtSpec] (jwx/jwt), [RsaLib] (RSA keys of jwx and crypto/rsa), [DnsMessage]
    (golang.org/x/net/dns/dnsmessage).

    ** Not modelled

    The profile webbotauth/, publication registries
    (registry.go, registration.go; what the managed operations read of their
    answers is in Managed), configuration files (config/), cloud key
    providers (key/), registration of the log method
    (managed_verification_registry.go, verification_registry.go), the
    construction of managers, resolvers, HTTP clients and transports around
    the dialers, the buffering handler of httpsig/response_middleware.go, examples/. Checks of
    nil dependencies, adapters of functions to interfaces and deep copies of
    immutable values are left out. Goroutines appear only where they share
    state (above); closing bodies, logging and messages formatted into errors
    are left out. *)

From Stdlib Require Import ZArith Lia Ascii String.
From stdpp Require Export base list gmap sets strings sorting.

#[export] Set Warnings "-clear-no-such-hyp".

(** ** Errors and results

    The typed error taxonomy of [errors.go] and [internal/sdkerrors/errors.go].
    The message keeps the constant part of the Go format string; the values
    formatted into it are dropped. [CheckpointAdvanceError] is the typed error
    of [log/c2sptlog/checkpoint_store.go]; [ContextError] is [ctx.Err()] of a
    done context and [CanceledError] is [context.Canceled] where the code looks
    for it; [DNSError] is [net.DNSError] with its flags, [TLSPolicyError] an
    error that wraps [errTLSPolicy], [CertificateVerificationError] the one of
    crypto/tls, [HTTPStatusError] is [httpStatusError]; [PlainError] is [fmt.Errorf]/[errors.New]; [WithCause e c] is
    an error [e] whose [Unwrap] is [c], kept where the code inspects causes. *)
Inductive error :=
| ParseError (msg : string)
| ValidationError (msg : string)
| ArgumentError (msg : string)
| VerificationError (code : string) (transient : bool) (msg : string)
| CheckpointAdvanceError (kind origin : string) (old_size new_size : Z)
    (old_root new_root : string) (split_view : bool)
| ResourceFetchError (kind : string) (status : Z) (transient : bool)
| ContextError
| CanceledError
| DNSError (not_found timeout temporary : bool)
| TLSPolicyError (msg : string)
| CertificateVerificationError
| HTTPStatusError (code : Z)
| RegistryAPIError (status : Z) (code msg : string) (has_cause : bool)
| PlainError (msg : string)
| WithCause (e cause : error).

#[export] Instance error_eq_dec : EqDecision error.
Proof. solve_decision. Defined.

(** The chain that [errors.As] walks. *)
Fixpoint error_chain (e : error) : list error :=
  match e with WithCause e c => error_chain e ++ error_chain c | _ => [e] end%list.

(** [errors.As]: the first error of the chain with the given shape. *)
Fixpoint first_some {A B} (f : A -> option B) (l : list A) : option B :=
  match l with [] => None | a :: l => match f a with Some b => Some b | None => first_some f l end end.
Definition errors_as {B} (f : error -> option B) (e : error) : option B := first_some f (error_chain e).

(** Go's [(value, error)] return, where the value is meaningless on error. *)
Inductive res (A : Type) : Type :=
| Ok (a : A)
| Err (e : error).
Arguments Ok {A} a.
Arguments Err {A} e.

#[export] Instance res_eq_dec {A} `{EqDecision A} : EqDecision (res A).
Proof. solve_decision. Defined.

#[export] Instance res_ret : MRet res := fun A a => Ok a.
#[export] Instance res_bind : MBind res := fun A B f m =>
  match m with Ok a => f a | Err e => Err e end.
#[export] Instance res_fmap : FMap res := fun A B f m =>
  match m with Ok a => Ok (f a) | Err e => Err e end.

Definition is_ok {A} (r : res A) : bool :=
  match r with Ok _ => true | Err _ => false end.

Declare Scope go_scope.
Delimit Scope go_scope with go.
Open Scope go_scope.

(** [if cond { return ..., err }] followed by the rest of the function. *)
Notation "'fail_if' b 'with' e ';;' k" := (if (b : bool) then Err e else k)
  (at level 10, b at level 99, e at level 99, k at level 200,
   format "'[v' 'fail_if'  b  'with'  e  ';;' '//' k ']'") : go_scope.

(** ** Decision tactics shared by the components *)
Ltac go_step :=
  match goal with
  | H : Ok _ = Ok _ |- _ => injection H as H; subst
  | H : Err _ = Err _ |- _ => injection H as H; subst
  | H : Ok _ = Err _ |- _ => discriminate H
  | H : Err _ = Ok _ |- _ => discriminate H
  | H : Some _ = Some _ |- _ => injection H as H; subst
  | H : Some _ = None |- _ => discriminate H
  | H : None = Some _ |- _ => discriminate H
  | H : true = false |- _ => discriminate H
  | H : false = true |- _ => discriminate H
  | H : mbind _ ?m = _ |- _ => unfold mbind, res_bind in H; cbn beta in H
  | H : fmap _ ?m = Ok _ |- _ => unfold fmap, res_fmap in H; cbn beta in H
  | H : (if ?b then _ else _) = Ok _ |- _ => destruct b eqn:?
  | H : (match ?x with _ => _ end) = Ok _ |- _ => destruct x eqn:?
  end.

(** Follow the successful path of a modelled function in the hypotheses. *)
Ltac go_inv := repeat go_step.

Ltac go_bool :=
  repeat match goal with
  | H : negb _ = true |- _ => apply negb_true_iff in H
  | H : negb _ = false |- _ => apply negb_false_iff in H
  | H : _ || _ = false |- _ => apply orb_false_iff in H as [? ?]
  | H : _ && _ = true |- _ => apply andb_true_iff in H as [? ?]
  | H : bool_decide _ = true |- _ => apply bool_decide_eq_true in H
  | H : bool_decide _ = false |- _ => apply bool_decide_eq_false in H
  | H : Z.ltb _ _ = true |- _ => apply Z.ltb_lt in H
  | H : Z.ltb _ _ = false |- _ => apply Z.ltb_ge in H
  | H : Z.leb _ _ = true |- _ => apply Z.leb_le in H
  | H : Z.leb _ _ = false |- _ => apply Z.leb_gt in H
  | H : Z.eqb _ _ = true |- _ => apply Z.eqb_eq in H
  | H : Z.eqb _ _ = false |- _ => apply Z.eqb_neq in H
  end.

(** ** Go byte strings

    A Go [string] or [[]byte] is a Rocq [string]: a sequence of bytes. The
    functions below are the ones of package [strings] the sources call. *)
Definition byte_val (c : ascii) : Z := Z.of_N (N_of_ascii c).
Definition byte_of (z : Z) : ascii := ascii_of_N (Z.to_N (z mod 256)).

Definition is_empty (s : string) : bool := bool_decide (s = EmptyString).
Definition str_eqb (s t : string) : bool := bool_decide (s = t).

(** [strings.IndexByte]; [None] is [-1]. *)
Fixpoint index_byte (c : ascii) (s : string) : option nat :=
  match s with
  | EmptyString => None
  | String a s' => if Ascii.eqb a c then Some 0 else S <$> index_byte c s'
  end.

(** [strings.Cut] at the first occurrence of a single-byte separator. *)
Fixpoint cut (c : ascii) (s : string) : option (string * string) :=
  match s with
  | EmptyString => None
  | String a s' =>
      if Ascii.eqb a c then Some (EmptyString, s')
      else match cut c s' with
           | Some (l, r) => Some (String a l, r)
           | None => None
           end
  end.

(** [strings.LastIndexByte] followed by the two slices around the byte. *)
Fixpoint cut_last (c : ascii) (s : string) : option (string * string) :=
  match s with
  | EmptyString => None
  | String a s' =>
      match cut_last c s' with
      | Some (l, r) => Some (String a l, r)
      | None => if Ascii.eqb a c then Some (EmptyString, s') else None
      end
  end.

(** [strings.Split] with a single-byte separator: never the empty slice. *)
Fixpoint split (c : ascii) (s : string) : list string :=
  match s with
  | EmptyString => [EmptyString]
  | String a s' =>
      match split c s' with
      | p :: ps => if Ascii.eqb a c then EmptyString :: p :: ps else String a p :: ps
      | [] => []
      end
  end.

(** [strings.Join] with a single-byte separator. *)
Fixpoint join (c : ascii) (l : list string) : string :=
  match l with
  | [] => EmptyString
  | [s] => s
  | s :: l' => String.append s (String c (join c l'))
  end.

Fixpoint forall_byte (p : ascii -> bool) (s : string) : bool :=
  match s with
  | EmptyString => true
  | String a s' => p a && forall_byte p s'
  end.

Definition has_byte (c : ascii) (s : string) : bool :=
  negb (forall_byte (fun a => negb (Ascii.eqb a c)) s).

Definition head_byte (s : string) : option ascii :=
  match s with EmptyString => None | String a _ => Some a end.

Definition lower_byte (c : ascii) : ascii :=
  let n := byte_val c in
  if (65 <=? n)%Z && (n <=? 90)%Z then byte_of (n + 32) else c.

(** [strings.ToLower] on ASCII text. *)
Fixpoint to_lower (s : string) : string :=
  match s with
  | EmptyString => EmptyString
  | String a s' => String (lower_byte a) (to_lower s')
  end.

(** [strings.EqualFold] on ASCII text, the only text [NormalizeFQDN] yields. *)
Definition equal_fold (s t : string) : bool := str_eqb (to_lower s) (to_lower t).

(** [sort.Strings]: byte-wise order. *)
Definition sort_strings (l : list string) : list string := merge_sort String.le l.

(** ** Instants and machine integers

    A [time.Time] is its number of nanoseconds since the zero [Time]
    (0001-01-01T00:00:00Z), so [IsZero] is equality with 0. *)
Definition time := Z.
Definition time_is_zero (t : time) : bool := (t =? 0)%Z.
Definition after (t u : time) : bool := (u <? t)%Z.
Definition before (t u : time) : bool := (t <? u)%Z.
Definition second : Z := 1000000000.
(** [time.Unix(sec, 0)]. *)
Definition unix_time (sec : Z) : time := ((sec + 62135596800) * second)%Z.
(** [t.Sub(u)]: the difference saturates at the int64 range of [Duration]. *)
Definition max_int64 : Z := 9223372036854775807.
Definition min_int64 : Z := -9223372036854775808.
Definition time_sub (t u : time) : Z := Z.max min_int64 (Z.min max_int64 (t - u)).
Definition u64 (n : Z) : Z := (n mod 2 ^ 64)%Z.

(** ** Lemmas on strings *)
Section strings.
Implicit Types (s t : string) (c : ascii).

Lemma append_cons a s t : String.append (String a s) t = String a (String.append s t).
Proof. done. Qed.
Lemma append_nil_l s : String.append EmptyString s = s.
Proof. done. Qed.

Lemma append_assoc s t u :
  String.append s (String.append t u) = String.append (String.append s t) u.
Proof. induction s as [|a s IH]; [done|]. by rewrite !append_cons, IH. Qed.

Lemma append_nil_r s : String.append s EmptyString = s.
Proof. induction s as [|a s IH]; [done|]. by rewrite append_cons, IH. Qed.

Lemma forall_byte_append p s t :
  forall_byte p (String.append s t) = forall_byte p s && forall_byte p t.
Proof.
  induction s as [|a s IH]; [done|]. rewrite append_cons. cbn.
  by rewrite IH, andb_assoc.
Qed.

Lemma forall_byte_impl (p q : ascii -> bool) s :
  (forall a, p a = true -> q a = true) -> forall_byte p s = true -> forall_byte q s = true.
Proof.
  intros Hpq. induction s as [|a s IH]; cbn; [done|].
  rewrite !andb_true_iff. naive_solver.
Qed.

Lemma has_byte_false c s :
  has_byte c s = false <-> forall_byte (fun a => negb (Ascii.eqb a c)) s = true.
Proof. unfold has_byte. by rewrite negb_false_iff. Qed.

Lemma has_byte_cons c a s :
  has_byte c (String a s) = Ascii.eqb a c || has_byte c s.
Proof. unfold has_byte. cbn. destruct (Ascii.eqb a c); done. Qed.

Lemma has_byte_append c s t :
  has_byte c (String.append s t) = has_byte c s || has_byte c t.
Proof.
  induction s as [|a s IH]; [done|].
  by rewrite append_cons, !has_byte_cons, IH, orb_assoc.
Qed.

Lemma cut_append c s t :
  has_byte c s = false -> cut c (String.append s (String c t)) = Some (s, t).
Proof.
  induction s as [|a s IH]; rewrite ?append_nil_l, ?append_cons; cbn [cut].
  - by rewrite Ascii.eqb_refl.
  - rewrite has_byte_cons. intros [-> Hs]%orb_false_iff. by rewrite IH.
Qed.

Lemma cut_Some c s l r :
  cut c s = Some (l, r) -> s = String.append l (String c r) /\ has_byte c l = false.
Proof.
  revert l r. induction s as [|a s IH]; cbn; intros l r H; [done|].
  destruct (Ascii.eqb a c) eqn:E.
  - apply Ascii.eqb_eq in E. naive_solver.
  - destruct (cut c s) as [[l' r']|]; [|done]. injection H as <- <-.
    destruct (IH _ _ eq_refl) as [-> Hl]. by rewrite has_byte_cons, E, Hl.
Qed.

Lemma cut_None c s : cut c s = None <-> has_byte c s = false.
Proof.
  induction s as [|a s IH]; cbn [cut]; [done|]. rewrite has_byte_cons.
  destruct (Ascii.eqb a c); [done|]. destruct (cut c s) as [[]|]; naive_solver.
Qed.

Lemma cut_last_append c s t :
  has_byte c t = false -> cut_last c (String.append s (String c t)) = Some (s, t).
Proof.
  intros Ht.
  assert (Hn : cut_last c t = None).
  { revert Ht. induction t as [|a t IH]; [done|]. rewrite has_byte_cons. cbn.
    intros [E Ht]%orb_false_iff. by rewrite IH, E. }
  induction s as [|a s IH]; rewrite ?append_nil_l, ?append_cons; cbn;
    [by rewrite Hn, Ascii.eqb_refl|]. by rewrite IH.
Qed.

Lemma split_no_sep c s : has_byte c s = false -> split c s = [s].
Proof.
  induction s as [|a s IH]; [done|]. rewrite has_byte_cons.
  intros [E Hs]%orb_false_iff. cbn. by rewrite IH, E.
Qed.

Lemma split_append c s t :
  has_byte c s = false -> split c (String.append s (String c t)) = s :: split c t.
Proof.
  induction s as [|a s IH]; rewrite ?append_nil_l, ?append_cons; cbn [split].
  - intros _. rewrite Ascii.eqb_refl.
    assert (split c t <> []) as Ht.
    { clear. induction t as [|a t IH]; cbn; [done|].
      destruct (split c t); [done|]. by destruct (Ascii.eqb a c). }
    by destruct (split c t).
  - rewrite has_byte_cons. intros [E Hs]%orb_false_iff. by rewrite IH, E.
Qed.

Lemma split_not_nil c s : split c s <> [].
Proof.
  induction s as [|a s IH]; cbn; [done|].
  destruct (split c s); [done|]. by destruct (Ascii.eqb a c).
Qed.

(** [strings.Split] undoes [strings.Join] on separator-free parts. *)
Lemma split_join c l :
  l <> [] -> Forall (fun s => has_byte c s = false) l -> split c (join c l) = l.
Proof.
  intros Hne Hl. induction Hl as [|s l Hs Hl IH]; [done|].
  destruct l as [|s' l]; [by apply split_no_sep|].
  change (join c (s :: s' :: l)) with (String.append s (String c (join c (s' :: l)))).
  rewrite split_append by done. by rewrite IH.
Qed.

(** [strings.Join] undoes [strings.Split] always. *)
Lemma join_split c s : join c (split c s) = s.
Proof.
  induction s as [|a s IH]; cbn; [done|].
  pose proof (split_not_nil c s) as Hne.
  destruct (split c s) as [|p ps]; [done|]. destruct (Ascii.eqb a c) eqn:E.
  - apply Ascii.eqb_eq in E as ->.
    change (String.append EmptyString (String c (join c (p :: ps))) = String c s).
    rewrite append_nil_l. by f_equal.
  - destruct ps as [|q ps]; cbn in *; [by f_equal|].
    rewrite append_cons. by f_equal.
Qed.

Lemma split_parts c s : Forall (fun p => has_byte c p = false) (split c s).
Proof.
  induction s as [|a s IH]; cbn; [by repeat constructor|].
  pose proof (split_not_nil c s) as Hne.
  destruct (split c s) as [|p ps]; [done|]. destruct (Ascii.eqb a c) eqn:E.
  - by constructor.
  - inversion IH; subst. constructor; [|done]. rewrite has_byte_cons, E. done.
Qed.

Lemma str_eqb_eq s t : str_eqb s t = true <-> s = t.
Proof. apply bool_decide_eq_true. Qed.
Lemma str_eqb_neq s t : str_eqb s t = false <-> s <> t.
Proof. apply bool_decide_eq_false. Qed.
Lemma str_eqb_refl s : str_eqb s s = true.
Proof. by apply str_eqb_eq. Qed.
Lemma is_empty_true s : is_empty s = true <-> s = EmptyString.
Proof. apply bool_decide_eq_true. Qed.
Lemma is_empty_false s : is_empty s = false <-> s <> EmptyString.
Proof. apply bool_decide_eq_false. Qed.

Lemma equal_fold_refl s : equal_fold s s = true.
Proof. apply str_eqb_refl. Qed.
Lemma equal_fold_sym s t : equal_fold s t = equal_fold t s.
Proof. unfold equal_fold, str_eqb. apply bool_decide_ext. naive_solver. Qed.
Lemma equal_fold_trans s t u :
  equal_fold s t = true -> equal_fold t u = true -> equal_fold s u = true.
Proof. unfold equal_fold. rewrite !str_eqb_eq. congruence. Qed.
End strings.

Lemma sort_strings_perm l : sort_strings l ≡ₚ l.
Proof. apply merge_sort_Permutation. Qed.

Lemma sort_strings_sorted l : Sorted String.le (sort_strings l).
Proof. apply Sorted_merge_sort, _. Qed.

(** Sorting forgets the order in which a Go map was iterated. *)
Lemma sort_strings_unique l1 l2 : l1 ≡ₚ l2 -> sort_strings l1 = sort_strings l2.
Proof.
  intros H. apply (Sorted_unique String.le).
  - apply sort_strings_sorted.
  - apply sort_strings_sorted.
  - by rewrite !sort_strings_perm.
Qed.

Create HintDb go.
#[export] Hint Resolve str_eqb_refl equal_fold_refl append_nil_r : go.
Create Rewrite HintDb go_str.
#[export] Hint Rewrite str_eqb_eq str_eqb_neq is_empty_true is_empty_false : go_str.

(** ** Bounds on instants *)
Lemma time_sub_range t u : (min_int64 <= time_sub t u <= max_int64)%Z.
Proof. unfold time_sub, min_int64, max_int64. lia. Qed.

Lemma time_sub_le t u d : (0 <= d < max_int64)%Z -> (time_sub t u <= d <-> t <= u + d)%Z.
Proof. unfold time_sub, min_int64, max_int64. lia. Qed.

(** ** Lemmas on lists *)
Lemma elem_of_concat {A} (x : A) (ls : list (list A)) :
  x ∈ concat ls <-> exists l, l ∈ ls /\ x ∈ l.
Proof.
  rewrite list_elem_of_In, in_concat. split; intros (l & H1 & H2); exists l;
    by rewrite !list_elem_of_In in *.
Qed.

(** ** More of package strings *)
(** [strings.CutPrefix]. *)
Fixpoint strip_prefix (p s : string) : option string :=
  match p, s with
  | EmptyString, _ => Some s
  | String a p, String b s => if Ascii.eqb a b then strip_prefix p s else None
  | String _ _, EmptyString => None
  end.
Definition has_prefix (p s : string) : bool :=
  match strip_prefix p s with Some _ => true | None => false end.
Fixpoint contains (p s : string) : bool :=
  has_prefix p s || match s with EmptyString => false | String _ s => contains p s end.
Fixpoint has_suffix (p s : string) : bool :=
  str_eqb p s || match s with EmptyString => false | String _ s => has_suffix p s end.

(** The length in bytes of the white space rune ([unicode.IsSpace]) a UTF-8
    string starts with, 0 when it starts with none. *)
Definition space_width (s : string) : nat :=
  match s with
  | EmptyString => 0
  | String a rest =>
      let n := byte_val a in
      if ((9 <=? n) && (n <=? 13) || (n =? 32))%Z then 1
      else match rest with
      | EmptyString => 0
      | String b rest =>
          let m := byte_val b in
          if ((n =? 194) && ((m =? 133) || (m =? 160)))%Z then 2
          else match rest with
          | EmptyString => 0
          | String c _ =>
              let k := byte_val c in
              if ((n =? 225) && (m =? 154) && (k =? 128))%Z
                || ((n =? 226) && (m =? 128) &&
                    ((128 <=? k) && (k <=? 138) || (k =? 168) || (k =? 169) || (k =? 175)))%Z
                || ((n =? 226) && (m =? 129) && (k =? 159))%Z
                || ((n =? 227) && (m =? 128) && (k =? 128))%Z
              then 3 else 0
          end
      end
  end.

(** [strings.IndexFunc(s, unicode.IsSpace) >= 0]. *)
Fixpoint has_space (s : string) : bool :=
  negb (Nat.eqb (space_width s) 0) || match s with EmptyString => false | String _ s => has_space s end.

(** [strings.Fields]: [skip] counts the bytes of a white space rune still to
    pass over, [cur] is the field being read. *)
Fixpoint fields_from (skip : nat) (cur : string) (s : string) : list string :=
  match s with
  | EmptyString => if is_empty cur then [] else [cur]
  | String a rest =>
      match skip with
      | S skip => fields_from skip cur rest
      | O =>
          match space_width s with
          | O => fields_from 0 (String.append cur (String a EmptyString)) rest
          | S w => (if is_empty cur then [] else [cur]) ++ fields_from w EmptyString rest
          end
      end
  end.
Definition fields (s : string) : list string := fields_from 0 EmptyString s.

Lemma strip_prefix_append p s : strip_prefix p (String.append p s) = Some s.
Proof. induction p as [|a p IH]; [done|]. rewrite append_cons. cbn. by rewrite Ascii.eqb_refl. Qed.

Lemma strip_prefix_Some p s r : strip_prefix p s = Some r -> s = String.append p r.
Proof.
  revert s. induction p as [|a p IH]; intros s; cbn; [by intros [= ->]|].
  destruct s as [|b s]; [done|]. destruct (Ascii.eqb_spec a b); [|done].
  intros ->%IH. by subst.
Qed.

(** Slices [s[:n]] and [s[n:]], cut short at the end of the string. *)
Fixpoint str_take (n : nat) (s : string) : string :=
  match n, s with S n, String c s => String c (str_take n s) | _, _ => EmptyString end.
Fixpoint str_drop (n : nat) (s : string) : string :=
  match n, s with S n, String _ s => str_drop n s | O, s => s | S _, EmptyString => EmptyString end.

Lemma append_length s t :
  String.length (String.append s t) = (String.length s + String.length t)%nat.
Proof. induction s as [|c s IH]; [done|]. rewrite append_cons. cbn. by rewrite IH. Qed.

Lemma str_take_drop n s : String.append (str_take n s) (str_drop n s) = s.
Proof. revert s. induction n as [|n IH]; intros [|c s]; try done. cbn. by rewrite append_cons, IH. Qed.

Lemma str_take_length n s : (n <= String.length s)%nat -> String.length (str_take n s) = n.
Proof. revert s. induction n as [|n IH]; intros [|c s]; cbn; intros; try lia. rewrite IH; lia. Qed.

Lemma str_take_append s t : str_take (String.length s) (String.append s t) = s.
Proof. induction s as [|c s IH]; [done|]. cbn. by rewrite append_cons, IH. Qed.

Lemma str_drop_append s t : str_drop (String.length s) (String.append s t) = t.
Proof. induction s as [|c s IH]; [done|]. cbn. by rewrite append_cons. Qed.

Lemma str_drop_length n s : String.length (str_drop n s) = (String.length s - n)%nat.
Proof. revert s. induction n as [|n IH]; intros [|c s]; cbn; auto. Qed.

Lemma str_drop_drop n m s : str_drop m (str_drop n s) = str_drop (n + m) s.
Proof. revert s. induction n as [|n IH]; intros s; [done|]. destruct s; [by destruct m|]. cbn. apply IH. Qed.
