(* ===== verification/Codec.v ===== *)
(** * Codec: the standard-library encodings the sources rely on

    SHA-256 ([crypto/sha256]), unpadded URL-safe base64
    ([base64.RawURLEncoding], strict and not), decimal [uint64] text
    ([strconv]), and [validHash] of [log/c2sptlog/event.go] on top of them.
    Everything is executable; the round trips are proved. *)

From Stdlib Require Import PrimInt63.
From Stdlib Require Import ZArith Lia Ascii String NArith Decimal DecimalString DecimalN.
From S2P Require Import Prelude.

Open Scope Z_scope.

(** ** SHA-256 *)
Module Sha256.

(** Words are the kernel's 63-bit integers, masked to 32 bits. *)
Abbreviation word := PrimInt63.int.

Definition add (x y : word) : word := PrimInt63.add x y.
Definition mask (x : word) : word := PrimInt63.land x 4294967295%uint63.
Definition rotr (x n : word) : word :=
  PrimInt63.lor (PrimInt63.lsr x n)
    (mask (PrimInt63.lsl x (PrimInt63.sub 32%uint63 n))).
Definition xor3 (x y z : word) : word := PrimInt63.lxor (PrimInt63.lxor x y) z.
Definition ch (x y z : word) : word :=
  PrimInt63.lxor (PrimInt63.land x y) (PrimInt63.land (PrimInt63.lxor x 4294967295%uint63) z).
Definition maj (x y z : word) : word :=
  xor3 (PrimInt63.land x y) (PrimInt63.land x z) (PrimInt63.land y z).
Definition bsig0 (x : word) : word := xor3 (rotr x 2%uint63) (rotr x 13%uint63) (rotr x 22%uint63).
Definition bsig1 (x : word) : word := xor3 (rotr x 6%uint63) (rotr x 11%uint63) (rotr x 25%uint63).
Definition ssig0 (x : word) : word :=
  xor3 (rotr x 7%uint63) (rotr x 18%uint63) (PrimInt63.lsr x 3%uint63).
Definition ssig1 (x : word) : word :=
  xor3 (rotr x 17%uint63) (rotr x 19%uint63) (PrimInt63.lsr x 10%uint63).

Definition K : list word :=
  [1116352408; 1899447441; 3049323471; 3921009573; 961987163; 1508970993; 2453635748;
   2870763221; 3624381080; 310598401; 607225278; 1426881987; 1925078388; 2162078206;
   2614888103; 3248222580; 3835390401; 4022224774; 264347078; 604807628; 770255983;
   1249150122; 1555081692; 1996064986; 2554220882; 2821834349; 2952996808; 3210313671;
   3336571891; 3584528711; 113926993; 338241895; 666307205; 773529912; 1294757372;
   1396182291; 1695183700; 1986661051; 2177026350; 2456956037; 2730485921; 2820302411;
   3259730800; 3345764771; 3516065817; 3600352804; 4094571909; 275423344; 430227734;
   506948616; 659060556; 883997877; 958139571; 1322822218; 1537002063; 1747873779;
   1955562222; 2024104815; 2227730452; 2361852424; 2428436474; 2756734187; 3204031479;
   3329325298]%uint63.

Definition init : list word :=
  [1779033703; 3144134277; 1013904242; 2773480762; 1359893119; 2600822924; 528734635;
   1541459225]%uint63.

Fixpoint bytes_of (s : string) : list Z :=
  match s with EmptyString => [] | String c s' => byte_val c :: bytes_of s' end.
Fixpoint of_bytes (l : list Z) : string :=
  match l with [] => EmptyString | b :: l' => String (byte_of b) (of_bytes l') end.

(** Big-endian bytes of [x] on [n] bytes. *)
Fixpoint be_bytes (n : nat) (x : Z) : list Z :=
  match n with O => [] | S n' => (Z.shiftr x (8 * Z.of_nat n') mod 256) :: be_bytes n' x end.

(** A byte as a word, and the value of a word's low [n] bits. *)
Fixpoint of_pos (p : positive) : word :=
  match p with
  | xH => 1%uint63
  | xO p' => PrimInt63.lsl (of_pos p') 1%uint63
  | xI p' => PrimInt63.lor (PrimInt63.lsl (of_pos p') 1%uint63) 1%uint63
  end.
Definition of_Z (x : Z) : word := match x with Zpos p => of_pos p | _ => 0%uint63 end.
Fixpoint to_Z (n : nat) (x : word) : Z :=
  match n with
  | O => 0
  | S n' =>
      let r := to_Z n' (PrimInt63.lsr x 1%uint63) in
      if PrimInt63.eqb (PrimInt63.land x 1%uint63) 1%uint63 then Z.succ_double r else Z.double r
  end.

Definition pad (m : list Z) : list Z :=
  let l := Z.of_nat (List.length m) in
  m ++ [128] ++ replicate (Z.to_nat ((55 - l) mod 64)) 0 ++ be_bytes 8 (8 * l).

Fixpoint words (l : list Z) : list word :=
  match l with
  | a :: b :: c :: d :: l' =>
      PrimInt63.lor (PrimInt63.lsl (of_Z a) 24%uint63)
        (PrimInt63.lor (PrimInt63.lsl (of_Z b) 16%uint63)
          (PrimInt63.lor (PrimInt63.lsl (of_Z c) 8%uint63) (of_Z d))) :: words l'
  | _ => []
  end.

(** The message schedule, most recent word first. *)
Fixpoint schedule (n : nat) (w : list word) : list word :=
  match n with
  | O => w
  | S n' =>
      schedule n'
        (mask (add (add (ssig1 (List.nth 1 w 0%uint63)) (List.nth 6 w 0%uint63))
                   (add (ssig0 (List.nth 14 w 0%uint63)) (List.nth 15 w 0%uint63))) :: w)
  end.

Definition round (st : list word) (kw : word * word) : list word :=
  match st with
  | [a; b; c; d; e; f; g; h] =>
      let t1 := add (add h (bsig1 e)) (add (ch e f g) (add (fst kw) (snd kw))) in
      let t2 := add (bsig0 a) (maj a b c) in
      [mask (add t1 t2); a; b; c; mask (add d t1); e; f; g]
  | _ => st
  end.

Definition block (st : list word) (b : list Z) : list word :=
  let w := rev (schedule 48 (rev (words b))) in
  zip_with (fun x y => mask (add x y)) st (fold_left round (zip K w) st).

Fixpoint blocks (n : nat) (st : list word) (m : list Z) : list word :=
  match n with
  | O => st
  | S n' => blocks n' (block st (take 64 m)) (drop 64 m)
  end.

(** The four big-endian bytes of a word. *)
Definition word_bytes (x : word) : list Z :=
  [to_Z 8 (PrimInt63.lsr x 24%uint63); to_Z 8 (PrimInt63.lsr x 16%uint63);
   to_Z 8 (PrimInt63.lsr x 8%uint63); to_Z 8 x].

Definition digest (m : list Z) : list Z :=
  let p := pad m in
  mjoin (word_bytes <$> blocks (List.length p / 64) init p).

End Sha256.

(** [sha256.Sum256] on the bytes of a string. *)
Definition sha256 (s : string) : string := Sha256.of_bytes (Sha256.digest (Sha256.bytes_of s)).

(** ** Base64 *)
Module Base64.

Definition enc6 (n : Z) : ascii :=
  if n <? 26 then byte_of (65 + n)
  else if n <? 52 then byte_of (71 + n)
  else if n <? 62 then byte_of (n - 4)
  else if n =? 62 then "-"%char else "_"%char.

Definition dec6 (c : ascii) : option Z :=
  let n := byte_val c in
  if (65 <=? n) && (n <=? 90) then Some (n - 65)
  else if (97 <=? n) && (n <=? 122) then Some (n - 71)
  else if (48 <=? n) && (n <=? 57) then Some (n + 4)
  else if n =? 45 then Some 62
  else if n =? 95 then Some 63
  else None.

(** [RawURLEncoding.EncodeToString]. *)
Fixpoint encode (s : string) : string :=
  match s with
  | String a (String b (String c s')) =>
      let n := byte_val a * 65536 + byte_val b * 256 + byte_val c in
      String (enc6 (n / 262144)) (String (enc6 (n / 4096 mod 64))
        (String (enc6 (n / 64 mod 64)) (String (enc6 (n mod 64)) (encode s'))))
  | String a (String b EmptyString) =>
      let n := byte_val a * 256 + byte_val b in
      String (enc6 (n / 1024)) (String (enc6 (n / 16 mod 64))
        (String (enc6 (n mod 16 * 4)) EmptyString))
  | String a EmptyString =>
      let n := byte_val a in
      String (enc6 (n / 4)) (String (enc6 (n mod 4 * 16)) EmptyString)
  | EmptyString => EmptyString
  end.

(** The decoder skips CR and LF wherever they occur. *)
Fixpoint strip_newlines (s : string) : string :=
  match s with
  | EmptyString => EmptyString
  | String a s' =>
      if (byte_val a =? 10) || (byte_val a =? 13) then strip_newlines s'
      else String a (strip_newlines s')
  end.

Fixpoint decode_clean (strict : bool) (s : string) : option string :=
  match s with
  | EmptyString => Some EmptyString
  | String a (String b (String c (String d s'))) =>
      x ← dec6 a; y ← dec6 b; z ← dec6 c; w ← dec6 d;
      r ← decode_clean strict s';
      Some (String (byte_of (x * 4 + y / 16))
             (String (byte_of (y mod 16 * 16 + z / 4))
               (String (byte_of (z mod 4 * 64 + w)) r)))
  | String a (String b (String c EmptyString)) =>
      x ← dec6 a; y ← dec6 b; z ← dec6 c;
      if strict && negb (z mod 4 =? 0) then None
      else Some (String (byte_of (x * 4 + y / 16))
                  (String (byte_of (y mod 16 * 16 + z / 4)) EmptyString))
  | String a (String b EmptyString) =>
      x ← dec6 a; y ← dec6 b;
      if strict && negb (y mod 16 =? 0) then None
      else Some (String (byte_of (x * 4 + y / 16)) EmptyString)
  | String _ EmptyString => None
  end.

(** [RawURLEncoding.DecodeString], or its [Strict] variant. *)
Definition decode (strict : bool) (s : string) : option string :=
  decode_clean strict (strip_newlines s).

(** The standard alphabet, as the URL-safe one that [dec6] reads. *)
Fixpoint std_to_url (s : string) : option string :=
  match s with
  | EmptyString => Some EmptyString
  | String a s' =>
      let n := byte_val a in
      if (n =? 45) || (n =? 95) then None
      else r ← std_to_url s';
           Some (String (if n =? 43 then "-"%char else if n =? 47 then "_"%char else a) r)
  end.

(** At most two padding characters, at the end. *)
Fixpoint unpad (s : string) : string :=
  match s with
  | String "=" EmptyString => EmptyString
  | String "=" (String "=" EmptyString) => EmptyString
  | String a s' => String a (unpad s')
  | EmptyString => EmptyString
  end.

(** [StdEncoding.DecodeString]: padded to a multiple of four characters. *)
Definition decode_std (s : string) : option string :=
  let s := strip_newlines s in
  if Nat.eqb (String.length s mod 4) 0 then s ← std_to_url (unpad s); decode_clean false s
  else None.

End Base64.

(** [validHash] (event.go:735): canonical base64url of exactly 32 bytes. *)
Definition validHash (value : string) : bool :=
  match Base64.decode true value with
  | Some decoded =>
      (String.length decoded =? 32)%nat && str_eqb (Base64.encode decoded) value
  | None => false
  end.

(** ** Decimal text *)
(** [strconv.FormatUint(n, 10)]. *)
Definition format_uint (n : N) : string := NilEmpty.string_of_uint (N.to_uint n).

(** [strconv.ParseUint(s, 10, bits)]. *)
Definition parse_uint (bits : N) (s : string) : option N :=
  if is_empty s then None
  else u ← NilEmpty.uint_of_string s;
       let n := N.of_uint u in
       if (n <? 2 ^ bits)%N then Some n else None.

(** ** Lemmas *)
Lemma byte_val_range c : 0 <= byte_val c < 256.
Proof.
  unfold byte_val. destruct c as [[] [] [] [] [] [] [] []]; vm_compute; split; congruence.
Qed.

Lemma byte_of_val c : byte_of (byte_val c) = c.
Proof.
  unfold byte_of. rewrite Z.mod_small by apply byte_val_range.
  unfold byte_val. rewrite N2Z.id. apply ascii_N_embedding.
Qed.

Lemma byte_val_of z : 0 <= z < 256 -> byte_val (byte_of z) = z.
Proof.
  intros H. unfold byte_val, byte_of. rewrite Z.mod_small by done.
  rewrite N_ascii_embedding by lia. lia.
Qed.

Lemma forall_below (n : nat) (f : Z -> bool) :
  forallb f (Z.of_nat <$> seq 0 n) = true -> forall z, 0 <= z < Z.of_nat n -> f z = true.
Proof.
  rewrite forallb_forall. intros H z Hz. apply H. apply list_elem_of_In.
  apply list_elem_of_fmap. exists (Z.to_nat z). rewrite elem_of_seq. lia.
Qed.

Lemma dec6_enc6 n : 0 <= n < 64 -> Base64.dec6 (Base64.enc6 n) = Some n.
Proof.
  intros Hn.
  pose proof (forall_below 64 (fun n => match Base64.dec6 (Base64.enc6 n) with
    | Some m => m =? n | None => false end) eq_refl n Hn) as H. cbn beta in H.
  destruct (Base64.dec6 _); [|done]. by apply Z.eqb_eq in H as ->.
Qed.

Lemma enc6_clean n :
  0 <= n < 64 ->
  (byte_val (Base64.enc6 n) =? 10) || (byte_val (Base64.enc6 n) =? 13) = false.
Proof.
  intros Hn. apply negb_true_iff.
  exact (forall_below 64 (fun n =>
    negb ((byte_val (Base64.enc6 n) =? 10) || (byte_val (Base64.enc6 n) =? 13))) eq_refl n Hn).
Qed.

(** Induction three bytes at a time. *)
Lemma string_ind3 (P : string -> Prop) :
  P EmptyString -> (forall a, P (String a EmptyString)) ->
  (forall a b, P (String a (String b EmptyString))) ->
  (forall a b c s, P s -> P (String a (String b (String c s)))) -> forall s, P s.
Proof.
  intros H0 H1 H2 H3. fix go 1.
  intros [|a [|b [|c s]]]; [exact H0|exact (H1 a)|exact (H2 a b)|exact (H3 a b c s (go s))].
Qed.

Ltac pose_bytes :=
  repeat match goal with
  | |- context [byte_val ?c] =>
      lazymatch goal with
      | _ : 0 <= byte_val c < 256 |- _ => fail
      | _ => pose proof (byte_val_range c)
      end
  end.
Ltac divmod_lia := Z.to_euclidean_division_equations; lia.

Lemma strip_encode s : Base64.strip_newlines (Base64.encode s) = Base64.encode s.
Proof.
  induction s as [|a|a b|a b c s IH] using string_ind3; [done| | |];
    cbn [Base64.encode Base64.strip_newlines];
    rewrite !enc6_clean by (pose_bytes; divmod_lia); by rewrite ?IH.
Qed.

Lemma byte_of_eq c z : z = byte_val c -> byte_of z = c.
Proof. intros ->. apply byte_of_val. Qed.

Lemma encode_bytes (p : ascii -> bool) s :
  (forall n, 0 <= n < 64 -> p (Base64.enc6 n) = true) -> forall_byte p (Base64.encode s) = true.
Proof.
  intros Hp. induction s as [|a|a b|a b c s IH] using string_ind3; [done| | |];
    cbn [Base64.encode forall_byte]; rewrite !Hp by (pose_bytes; divmod_lia); by rewrite ?IH.
Qed.

(** Encoding then decoding, strictly or not, is the identity. *)
Lemma decode_encode b s : Base64.decode b (Base64.encode s) = Some s.
Proof.
  unfold Base64.decode. rewrite strip_encode.
  induction s as [|a0|a0 b0|a0 b0 c s IH] using string_ind3; [done| | |];
    cbn [Base64.encode Base64.decode_clean];
    rewrite !dec6_enc6 by (pose_bytes; divmod_lia); cbn [mbind option_bind andb];
    rewrite ?IH; cbn [mbind option_bind].
  - replace (_ mod 16 =? 0) with true by (symmetry; apply Z.eqb_eq; pose_bytes; divmod_lia).
    cbn [negb]. rewrite andb_false_r. do 2 f_equal. apply byte_of_eq. pose_bytes; divmod_lia.
  - replace (_ mod 4 =? 0) with true by (symmetry; apply Z.eqb_eq; pose_bytes; divmod_lia).
    cbn [negb]. rewrite andb_false_r. do 2 f_equal; [|f_equal]; apply byte_of_eq; pose_bytes; divmod_lia.
  - do 2 f_equal; [|f_equal; [|f_equal]]; apply byte_of_eq; pose_bytes; divmod_lia.
Qed.

Lemma encode_inj s t : Base64.encode s = Base64.encode t -> s = t.
Proof.
  intros H. apply (f_equal (Base64.decode true)) in H. rewrite !decode_encode in H.
  by injection H.
Qed.

(** [validHash] accepts exactly the canonical encodings of 32-byte digests. *)
Lemma validHash_spec v :
  validHash v = true <-> exists d, String.length d = 32%nat /\ v = Base64.encode d.
Proof.
  unfold validHash. split.
  - destruct (Base64.decode true v) as [d|]; [|done].
    rewrite andb_true_iff, Nat.eqb_eq, str_eqb_eq. naive_solver.
  - intros (d & Hd & ->). rewrite decode_encode, Hd, str_eqb_refl. done.
Qed.

Lemma parse_format_uint bits n :
  (n < 2 ^ bits)%N -> parse_uint bits (format_uint n) = Some n.
Proof.
  intros Hn. unfold parse_uint, format_uint.
  assert (is_empty (NilEmpty.string_of_uint (N.to_uint n)) = false) as ->.
  { apply is_empty_false. intros E.
    apply (f_equal NilEmpty.uint_of_string) in E. rewrite NilEmpty.usu in E.
    injection E as E. apply (f_equal N.of_uint) in E as E'.
    rewrite DecimalN.Unsigned.of_to in E'. cbn in E'. subst n. done. }
  rewrite NilEmpty.usu. cbn. rewrite DecimalN.Unsigned.of_to.
  by apply N.ltb_lt in Hn as ->.
Qed.

Lemma format_uint_inj n m : format_uint n = format_uint m -> n = m.
Proof.
  intros H. unfold format_uint in H. apply (f_equal NilEmpty.uint_of_string) in H.
  rewrite !NilEmpty.usu in H. injection H as H.
  apply (f_equal N.of_uint) in H. by rewrite !DecimalN.Unsigned.of_to in H.
Qed.

Lemma length_of_bytes l : String.length (Sha256.of_bytes l) = List.length l.
Proof. induction l as [|b l IH]; cbn; [done|]. by rewrite IH. Qed.

Lemma length_fold_round l st :
  List.length st = 8%nat -> List.length (fold_left Sha256.round l st) = 8%nat.
Proof.
  revert st. induction l as [|kw l IH]; intros st Hst; [done|]. cbn. apply IH.
  do 9 (destruct st as [|? st]; try discriminate Hst). done.
Qed.

Lemma length_blocks n st m :
  List.length st = 8%nat -> List.length (Sha256.blocks n st m) = 8%nat.
Proof.
  revert st m. induction n as [|n IH]; intros st m Hst; [done|]. cbn [Sha256.blocks].
  apply IH. unfold Sha256.block. rewrite length_zip_with, length_fold_round by done. lia.
Qed.

(** A digest always has 32 bytes. *)
Lemma length_sha256 s : String.length (sha256 s) = 32%nat.
Proof.
  unfold sha256. rewrite length_of_bytes. unfold Sha256.digest.
  remember (Sha256.blocks _ _ _) as st eqn:E.
  assert (Hl : List.length st = 8%nat) by (subst; by apply length_blocks).
  clear E. do 9 (destruct st as [|? st]; try discriminate Hl). done.
Qed.

Lemma validHash_sha256 s : validHash (Base64.encode (sha256 s)) = true.
Proof. apply validHash_spec. eauto using length_sha256. Qed.
#[export] Hint Resolve validHash_sha256 length_sha256 : go.

(** SHA-256("abc"), from FIPS 180-4. *)
Example sha256_abc :
  Base64.encode (sha256 "abc") = "ungWv48Bz-pBQUDeXa4iI7ADYaOWF3qctBD_YfIAFa0"%string.
Proof. vm_compute. reflexivity. Qed.
Example sha256_two_blocks :
  Base64.encode (sha256 "abcdbcdecdefdefgefghfghighijhijkijkljklmklmnlmnomnopnopq")
  = "JI1qYdIGOLjlwCaTDD5gOaM85Flk_yFn9uzt1BnbBsE"%string.
Proof. vm_compute. reflexivity. Qed.
