(* ===== verification/Utf8.v ===== *)
(** * Utf8: runes, UTF-8 and UTF-16

    What the sources use of packages [unicode/utf8] and [unicode/utf16]: the
    runes a string is ranged over, [utf8.ValidString], [WriteRune] and
    [utf16.Encode]. A rune is a [Z]; a string is its bytes. *)

From Stdlib Require Import ZArith Lia Ascii String.
From S2P Require Import Prelude Codec.

Open Scope Z_scope.

Definition RuneError : Z := 65533.
Definition surrogate (r : Z) : bool := (55296 <=? r) && (r <? 57344).
Definition valid_rune (r : Z) : bool := (0 <=? r) && (r <=? 1114111) && negb (surrogate r).

(** A continuation byte, in the range its position allows. *)
Definition cont_in (lo hi : Z) (c : ascii) : bool := (lo <=? byte_val c) && (byte_val c <=? hi).
Definition cont (c : ascii) : bool := cont_in 128 191 c.

(** [utf8.DecodeRuneInString]: the first rune and the bytes after it;
    [None] is the error rune of width 1. *)
Definition decode_rune (a : ascii) (s : string) : option (Z * string) :=
  let x := byte_val a in
  if x <? 128 then Some (x, s)
  else if x <? 194 then None
  else if x <? 224 then
    match s with
    | String b s => if cont b then Some ((x - 192) * 64 + (byte_val b - 128), s) else None
    | _ => None
    end
  else if x <? 240 then
    match s with
    | String b (String c s) =>
        if cont_in (if x =? 224 then 160 else 128) (if x =? 237 then 159 else 191) b && cont c
        then Some ((x - 224) * 4096 + (byte_val b - 128) * 64 + (byte_val c - 128), s) else None
    | _ => None
    end
  else if x <? 245 then
    match s with
    | String b (String c (String d s)) =>
        if cont_in (if x =? 240 then 144 else 128) (if x =? 244 then 143 else 191) b && cont c && cont d
        then Some ((x - 240) * 262144 + (byte_val b - 128) * 4096
                   + (byte_val c - 128) * 64 + (byte_val d - 128), s) else None
    | _ => None
    end
  else None.

(** The runes of [for _, r := range s] and [[]rune(s)]. *)
Fixpoint runes_fuel (fuel : nat) (s : string) : list Z :=
  match fuel, s with
  | S fuel, String a rest =>
      match decode_rune a rest with
      | Some (r, s') => r :: runes_fuel fuel s'
      | None => RuneError :: runes_fuel fuel rest
      end
  | _, _ => []
  end.
Definition runes (s : string) : list Z := runes_fuel (String.length s) s.

(** [utf8.ValidString]. *)
Fixpoint valid_fuel (fuel : nat) (s : string) : bool :=
  match fuel, s with
  | S fuel, String a rest =>
      match decode_rune a rest with Some (_, s') => valid_fuel fuel s' | None => false end
  | _, _ => true
  end.
Definition ValidString (s : string) : bool := valid_fuel (String.length s) s.

(** [utf8.AppendRune] to the empty slice. *)
Definition encode_rune (r : Z) : string :=
  let r := if valid_rune r then r else RuneError in
  if r <? 128 then String (byte_of r) EmptyString
  else if r <? 2048 then
    String (byte_of (192 + r / 64)) (String (byte_of (128 + r mod 64)) EmptyString)
  else if r <? 65536 then
    String (byte_of (224 + r / 4096)) (String (byte_of (128 + r / 64 mod 64))
      (String (byte_of (128 + r mod 64)) EmptyString))
  else
    String (byte_of (240 + r / 262144)) (String (byte_of (128 + r / 4096 mod 64))
      (String (byte_of (128 + r / 64 mod 64)) (String (byte_of (128 + r mod 64)) EmptyString))).

(** [utf16.Encode]. *)
Definition utf16_rune (r : Z) : list Z :=
  if negb (valid_rune r) then [RuneError]
  else if r <? 65536 then [r]
  else [55296 + (r - 65536) / 1024; 56320 + (r - 65536) mod 1024].
Definition utf16_encode (rs : list Z) : list Z := flat_map utf16_rune rs.

(** ** Lemmas *)
Lemma byte_of_sum c z : z = byte_val c -> byte_of z = c.
Proof. intros ->. apply byte_of_val. Qed.

Ltac utf8_cases :=
  repeat match goal with
  | H : (if ?b then _ else _) = Some _ |- _ => destruct b eqn:?
  | H : (match ?s with _ => _ end) = Some _ |- _ => destruct s
  | H : None = Some _ |- _ => discriminate H
  | H : Some _ = Some _ |- _ => injection H as <- <-
  end; go_bool; unfold cont, cont_in in *; go_bool.

(** What [decode_rune] reads is the encoding of a valid rune. *)
Lemma decode_rune_encode a s r s' :
  decode_rune a s = Some (r, s') ->
  valid_rune r = true /\ String a s = String.append (encode_rune r) s'.
Proof.
  unfold decode_rune. pose proof (byte_val_range a). intros Hd.
  assert (valid_rune r = true) as Hv.
  { utf8_cases; unfold valid_rune, surrogate;
    repeat match goal with H : context [if ?b then _ else _] |- _ => destruct b eqn:?; go_bool end;
    repeat match goal with b : ascii |- _ => pose proof (byte_val_range b); revert b end; intros;
    rewrite !andb_true_iff, negb_true_iff, andb_false_iff, Z.ltb_ge, !Z.leb_le, Z.leb_gt; lia. }
  split; [done|]. unfold encode_rune. rewrite Hv. clear Hv.
  utf8_cases;
    repeat match goal with b : ascii |- _ => pose proof (byte_val_range b); revert b end; intros;
    repeat match goal with H : context [if ?b then _ else _] |- _ => destruct b eqn:?; go_bool end;
    repeat match goal with |- context [if ?a <? ?b then _ else _] =>
      destruct (Z.ltb_spec a b); try (exfalso; lia) end;
    rewrite ?append_cons, ?append_nil_l; repeat f_equal; symmetry; apply byte_of_sum;
    Z.div_mod_to_equations; lia.
Qed.

Lemma encode_rune_decode r s :
  valid_rune r = true ->
  exists a t, encode_rune r = String a t /\ decode_rune a (String.append t s) = Some (r, s).
Proof.
  intros Hv. unfold encode_rune. rewrite Hv.
  unfold valid_rune, surrogate in Hv. apply andb_true_iff in Hv as [Hv Hsur].
  apply andb_true_iff in Hv as [H0 H1]. apply Z.leb_le in H0, H1.
  apply negb_true_iff, andb_false_iff in Hsur. rewrite Z.leb_gt, Z.ltb_ge in Hsur.
  repeat match goal with |- context [if ?a <? ?b then _ else _] => destruct (Z.ltb_spec a b) end;
    eexists _, _; (split; [reflexivity|]); rewrite ?append_cons, ?append_nil_l;
    unfold decode_rune, cont, cont_in;
    rewrite !byte_val_of by (Z.div_mod_to_equations; lia);
    repeat match goal with |- context [if ?a <? ?b then _ else _] =>
      destruct (Z.ltb_spec a b); try (exfalso; Z.div_mod_to_equations; lia) end;
    try (repeat f_equal; lia);
    repeat match goal with |- context [if ?a =? ?b then _ else _] =>
      destruct (Z.eqb_spec a b); try (exfalso; Z.div_mod_to_equations; lia) end;
    rewrite ?(proj2 (Z.leb_le _ _)) by (Z.div_mod_to_equations; lia); cbn [andb];
    repeat f_equal; Z.div_mod_to_equations; lia.
Qed.

Lemma decode_rune_length a s r s' :
  decode_rune a s = Some (r, s') -> (String.length s' <= String.length s)%nat.
Proof. unfold decode_rune. intros. utf8_cases; cbn; lia. Qed.

Lemma runes_fuel_enough n m s :
  (String.length s <= n)%nat -> (String.length s <= m)%nat -> runes_fuel n s = runes_fuel m s.
Proof.
  revert m s. induction n as [|n IH]; intros [|m] [|a s]; cbn; try done; try lia.
  intros. destruct (decode_rune a s) as [[r s']|] eqn:E.
  - apply decode_rune_length in E. f_equal. apply IH; lia.
  - f_equal. apply IH; lia.
Qed.

Lemma runes_cons a s r s' :
  decode_rune a s = Some (r, s') -> runes (String a s) = r :: runes s'.
Proof.
  unfold runes. cbn. intros E. rewrite E. f_equal.
  apply decode_rune_length in E. by apply runes_fuel_enough.
Qed.

Lemma valid_fuel_enough n m s :
  (String.length s <= n)%nat -> (String.length s <= m)%nat -> valid_fuel n s = valid_fuel m s.
Proof.
  revert m s. induction n as [|n IH]; intros [|m] [|a s]; cbn; try done; try lia.
  intros. destruct (decode_rune a s) as [[r s']|] eqn:E; [|done].
  apply decode_rune_length in E. apply IH; lia.
Qed.

Lemma ValidString_cons a s :
  ValidString (String a s) =
  match decode_rune a s with Some (_, s') => ValidString s' | None => false end.
Proof.
  unfold ValidString. cbn. destruct (decode_rune a s) as [[r s']|] eqn:E; [|done].
  apply decode_rune_length in E. by apply valid_fuel_enough.
Qed.

(** Induction on a valid string, rune by rune. *)
Lemma valid_string_ind (P : string -> Prop) :
  P EmptyString ->
  (forall a s r s', decode_rune a s = Some (r, s') -> ValidString s' = true -> P s' -> P (String a s)) ->
  forall s, ValidString s = true -> P s.
Proof.
  intros H0 H1 s. remember (String.length s) as n eqn:Hn.
  assert (String.length s <= n)%nat as Hle by lia. clear Hn. revert s Hle.
  induction n as [|n IH]; intros [|a s]; cbn [String.length]; try done; try lia.
  intros Hle. rewrite ValidString_cons. destruct (decode_rune a s) as [[r s']|] eqn:E; [|done].
  intros Hv. apply (H1 _ _ _ _ E); [done|]. apply IH; [|done]. apply decode_rune_length in E. lia.
Qed.

Definition encode_runes (rs : list Z) : string := fold_right (fun r => String.append (encode_rune r)) EmptyString rs.

(** Ranging over a valid string and writing its runes gives it back. *)
Lemma encode_runes_runes s : ValidString s = true -> encode_runes (runes s) = s.
Proof.
  revert s. apply valid_string_ind; [done|]. intros a s r s' E Hs IH.
  rewrite (runes_cons _ _ _ _ E). unfold encode_runes in *. cbn. rewrite IH. by apply decode_rune_encode in E as [_ <-].
Qed.

Lemma runes_valid s : ValidString s = true -> Forall (fun r => valid_rune r = true) (runes s).
Proof.
  revert s. apply valid_string_ind; [constructor|]. intros a s r s' E Hs IH.
  rewrite (runes_cons _ _ _ _ E). constructor; [by apply decode_rune_encode in E as [? _]|done].
Qed.

Lemma runes_inj s t : ValidString s = true -> ValidString t = true -> runes s = runes t -> s = t.
Proof. intros Hs Ht E. rewrite <- (encode_runes_runes s), <- (encode_runes_runes t) by done. by rewrite E. Qed.

(** [utf16.Encode] loses nothing of valid runes. *)
Lemma utf16_encode_inj rs ts :
  Forall (fun r => valid_rune r = true) rs -> Forall (fun r => valid_rune r = true) ts ->
  utf16_encode rs = utf16_encode ts -> rs = ts.
Proof.
  intros Hr. revert ts. induction Hr as [|r rs Hv Hr IH]; intros ts Ht; destruct Ht as [|t ts Hw Ht];
    cbn; [done| | |]; unfold utf16_rune; rewrite ?Hv, ?Hw; cbn [negb].
  - by destruct (t <? 65536).
  - by destruct (r <? 65536).
  - unfold valid_rune, surrogate in Hv, Hw.
    rewrite !andb_true_iff, negb_true_iff, andb_false_iff, !Z.leb_le, Z.leb_gt, Z.ltb_ge in Hv, Hw.
    destruct (Z.ltb_spec r 65536), (Z.ltb_spec t 65536); cbn [app];
      intros Heq; injection Heq; clear Heq; intros; subst;
      try (exfalso; Z.div_mod_to_equations; lia).
    + f_equal. by apply IH.
    + assert (r = t) as -> by (Z.div_mod_to_equations; lia). f_equal. by apply IH.
Qed.
