(* ===== verification/Numbers.v ===== *)
(** * Numbers: JSON number literals and float64

    What canonical JSON needs of packages [encoding/json] and [strconv]: the
    number grammar of the scanner, [ParseFloat] of a JSON literal (correctly
    rounded to nearest, ties to even), and the shortest formatting of a
    float64 with the exponent rules of encoding/json. A finite float64 other
    than zero is a sign and [m * 2^e]. *)

From Stdlib Require Import ZArith Lia Ascii String Decimal DecimalString DecimalN DecimalFacts.
From S2P Require Import Prelude Codec.

Open Scope Z_scope.

(** ** The number grammar *)
Definition digit (c : ascii) : bool := (48 <=? byte_val c) && (byte_val c <=? 57).

(** The longest prefix of digits, and the rest. *)
Fixpoint span_digits (s : string) : string * string :=
  match s with
  | String c s' =>
      if digit c then let '(d, r) := span_digits s' in (String c d, r) else (EmptyString, s)
  | EmptyString => (EmptyString, EmptyString)
  end.

(** A literal taken apart: sign, integer digits, fraction digits ([None]
    without a point), exponent sign text and digits. *)
Record number := {
  num_neg : bool;
  num_int : string;
  num_frac : option string;
  num_exp : option (string * string * string)   (* e or E, sign, digits *)
}.

Definition scan_int (s : string) : option (string * string) :=
  match s with
  | String c s' =>
      if Ascii.eqb c "0" then Some ("0"%string, s')
      else if digit c then Some (span_digits s) else None
  | EmptyString => None
  end.

Definition scan_frac (s : string) : option (option string * string) :=
  match s with
  | String c s' =>
      if Ascii.eqb c "." then
        let '(d, r) := span_digits s' in if is_empty d then None else Some (Some d, r)
      else Some (None, s)
  | EmptyString => Some (None, s)
  end.

Definition exp_sign (s : string) : string * string :=
  match s with
  | String c s' => if Ascii.eqb c "+" || Ascii.eqb c "-" then (String c EmptyString, s') else (EmptyString, s)
  | EmptyString => (EmptyString, s)
  end.

Definition scan_exp (s : string) : option (option (string * string * string) * string) :=
  match s with
  | String c s' =>
      if Ascii.eqb c "e" || Ascii.eqb c "E" then
        let '(sign, s'') := exp_sign s' in
        let '(d, r) := span_digits s'' in
        if is_empty d then None else Some (Some (String c EmptyString, sign, d), r)
      else Some (None, s)
  | EmptyString => Some (None, s)
  end.

Definition scan_sign (s : string) : bool * string :=
  match s with
  | String c s' => if Ascii.eqb c "-" then (true, s') else (false, s)
  | EmptyString => (false, s)
  end.

(** The scanner on a value that starts like a number. *)
Definition scan_number (s : string) : option (number * string) :=
  let '(neg, s) := scan_sign s in
  '(i, s) ← scan_int s;
  '(f, s) ← scan_frac s;
  '(e, s) ← scan_exp s;
  Some ({| num_neg := neg; num_int := i; num_frac := f; num_exp := e |}, s).

(** The text scanned: the [json.Number] literal. *)
Definition number_text (n : number) : string :=
  String.append (if num_neg n then "-" else "")
    (String.append (num_int n)
      (String.append (match num_frac n with Some d => String "." d | None => "" end)
        (match num_exp n with Some (e, sign, d) => String.append e (String.append sign d) | None => "" end)))%string.

(** ** float64 *)
Inductive float64 :=
| FZero (neg : bool)
| FFinite (neg : bool) (m e : Z)
| FInf (neg : bool)
| FNaN.
#[export] Instance float64_eq_dec : EqDecision float64.
Proof. solve_decision. Defined.

Fixpoint digits_val (acc : Z) (s : string) : Z :=
  match s with EmptyString => acc | String c s' => digits_val (acc * 10 + (byte_val c - 48)) s' end.

(** The quotient [num / den] scaled by a power of the base. *)
Definition scale (b : Z) (q : Z * Z) (s : Z) : Z * Z :=
  if 0 <=? s then (q.1 * b ^ s, q.2) else (q.1, q.2 * b ^ (- s)).

(** Nearest integer, ties to even. *)
Definition round_even (q : Z * Z) : Z :=
  let d := q.1 / q.2 in let r := q.1 mod q.2 in
  if 2 * r <? q.2 then d else if q.2 <? 2 * r then d + 1 else d + d mod 2.

(** The binary exponent: [2^l <= q < 2^(l+1)]. *)
Definition log2_q (q : Z * Z) : Z :=
  let l := Z.log2 q.1 - Z.log2 q.2 in
  let '(n, d) := scale 2 q (- l) in if n <? d then l - 1 else l.

(** A positive rational rounded to float64; [None] is overflow. *)
Definition round_float (q : Z * Z) : option (Z * Z) :=
  let e := Z.max (log2_q q - 52) (-1074) in
  let m := round_even (scale 2 q (- e)) in
  let '(m, e) := if m =? 2 ^ 53 then (2 ^ 52, e + 1) else (m, e) in
  if 971 <? e then None else Some (m, e).

Definition decimal (c s : Z) : Z * Z := scale 10 (c, 1) s.

Definition exponent (n : number) : Z :=
  match num_exp n with
  | Some (_, sign, d) => if str_eqb sign "-" then - digits_val 0 d else digits_val 0 d
  | None => 0
  end.
Definition frac_digits (n : number) : string := default EmptyString (num_frac n).
Definition number_mantissa (n : number) : Z := digits_val (digits_val 0 (num_int n)) (frac_digits n).
Definition number_exp10 (n : number) : Z := exponent n - Z.of_nat (String.length (frac_digits n)).

(** [strconv.ParseFloat(lit, 64)] on a scanned literal. *)
Definition float_of_number (n : number) : option float64 :=
  if number_mantissa n =? 0 then Some (FZero (num_neg n))
  else match round_float (decimal (number_mantissa n) (number_exp10 n)) with
       | None => None
       | Some (m, e) => Some (if m =? 0 then FZero (num_neg n) else FFinite (num_neg n) m e)
       end.

(** [json.Number.Float64]; literals come from a JSON scanner. *)
Definition Float64 (lit : string) : option float64 :=
  '(n, rest) ← scan_number lit;
  if is_empty rest then float_of_number n else None.

(** ** Shortest formatting *)
Definition float_ratio (m e : Z) : Z * Z := scale 2 (m, 1) e.
Definition dec_text (n : Z) : string := format_uint (Z.to_N n).

(** [10^(k-1) <= q < 10^k]. *)
Definition dec_point (q : Z * Z) : Z :=
  if q.2 <=? q.1 then Z.of_nat (String.length (dec_text (q.1 / q.2)))
  else 1 - Z.of_nat (String.length (dec_text ((q.2 - 1) / q.1))).

(** With [nd] digits: the multiples [c * 10^s] around the value that read
    back as it, the nearest one first. *)
Definition candidates (m e : Z) (nd : nat) : list (Z * Z) :=
  let q := float_ratio m e in
  let s := dec_point q - Z.of_nat nd in
  let '(n, d) := scale 10 q (- s) in
  let lo := n / d in
  let near := if 2 * (n mod d) <=? d then [lo; lo + 1] else [lo + 1; lo] in
  filter (fun cs => round_float (decimal cs.1 cs.2) = Some (m, e)) ((fun c => (c, s)) <$> near).

(** The fewest digits that read back; 17 always do. *)
Fixpoint shortest_from (m e : Z) (nd fuel : nat) : Z * Z :=
  match candidates m e nd with
  | c :: _ => c
  | [] =>
      match fuel with
      | O => let q := float_ratio m e in
             let s := dec_point q - 17 in
             (round_even (scale 10 q (- s)), s)
      | S fuel => shortest_from m e (S nd) fuel
      end
  end.
Definition shortest (m e : Z) : Z * Z := shortest_from m e 1 16.

Fixpoint strip_zeros (s : string) : string :=
  match s with
  | EmptyString => EmptyString
  | String c s' =>
      let r := strip_zeros s' in
      if Ascii.eqb c "0" && is_empty r then EmptyString else String c r
  end.

Fixpoint zero_pad (n : nat) : string := match n with O => EmptyString | S n => String "0" (zero_pad n) end.

(** [%f]: digits [d] with the decimal point after position [dp]. *)
Definition format_f (d : string) (dp : Z) : string :=
  let nd := String.length d in
  if dp <=? 0 then
    String.append "0." (String.append (zero_pad (Z.to_nat (- dp))) d)
  else if Z.of_nat nd <=? dp then String.append d (zero_pad (Z.to_nat (dp - Z.of_nat nd)))
  else String.append (str_take (Z.to_nat dp) d) (String "." (str_drop (Z.to_nat dp) d)).

(** [%e], with the two-digit exponent of strconv and the clean-up of
    encoding/json, which drops the zero of [e-0x]. *)
Definition format_e (d : string) (dp : Z) : string :=
  let x := dp - 1 in
  let digits := dec_text (Z.abs x) in
  String.append (str_take 1 d)
    (String.append (if (String.length d <=? 1)%nat then "" else String "." (str_drop 1 d))
      (String.append (if (x <? 0)%Z then "e-" else "e+") digits))%string.

Definition ratio_lt (a b : Z * Z) : bool := a.1 * b.2 <? b.1 * a.2.

(** The float64 nearest to [1e-6], below which encoding/json uses [%e]. *)
Definition micro : Z * Z := Eval vm_compute in
  match round_float (decimal 1 (-6)) with Some (m, e) => float_ratio m e | None => (0, 1) end.

Definition format_pos (m e : Z) : string :=
  let '(c, s) := shortest m e in
  let text := dec_text c in
  let dp := Z.of_nat (String.length text) + s in
  let d := strip_zeros text in
  let q := float_ratio m e in
  if ratio_lt q micro || negb (ratio_lt q (10 ^ 21, 1)) then format_e d dp else format_f d dp.

(** [json.Marshal] of a float64; [None] is the unsupported-value error. *)
Definition format_float (f : float64) : option string :=
  match f with
  | FZero neg => Some (if neg then "-0" else "0")%string
  | FFinite neg m e => Some (String.append (if neg then "-" else "") (format_pos m e))%string
  | FInf _ | FNaN => None
  end.

Example format_thresholds :
  ((fun l => Float64 l ≫= format_float) <$>
    ["1e21"; "-12.5e-1"; "0.0000001"; "0.000001"; "333333333.33333329"; "9007199254740991"])%string
  = [Some "1e+21"; Some "-1.25"; Some "1e-7"; Some "0.000001"; Some "333333333.3333333";
     Some "9007199254740991"]%string.
Proof. vm_compute. reflexivity. Qed.

(** ** Decimal text *)
Definition digits_only (s : string) : bool := forall_byte digit s.
(** A digit string without a superfluous leading zero. *)
Definition leading (s : string) : bool :=
  match s with String c _ => digit c && negb (Ascii.eqb c "0") | EmptyString => false end.

Lemma digit_byte_val c : digit c = true <-> 48 <= byte_val c <= 57.
Proof. unfold digit. rewrite andb_true_iff, !Z.leb_le. done. Qed.

Lemma span_digits_spec s d r :
  span_digits s = (d, r) ->
  s = String.append d r /\ digits_only d = true /\
  match r with String c _ => digit c = false | EmptyString => True end.
Proof.
  revert d r. induction s as [|c s IH]; cbn; intros d r H; [by injection H as <- <-|].
  destruct (digit c) eqn:Ec.
  - destruct (span_digits s) as [d' r'] eqn:E. injection H as <- <-.
    destruct (IH _ _ eq_refl) as (-> & Hd & Hr). rewrite append_cons. cbn. rewrite Ec. done.
  - injection H as <- <-. done.
Qed.

Lemma span_digits_append d r :
  digits_only d = true -> match r with String c _ => digit c = false | EmptyString => True end ->
  span_digits (String.append d r) = (d, r).
Proof.
  intros Hd Hr. induction d as [|c d IH].
  - rewrite append_nil_l. destruct r as [|c r]; cbn; [done|]. by rewrite Hr.
  - rewrite append_cons. unfold digits_only in *. cbn in *. apply andb_true_iff in Hd as [-> Hd].
    by rewrite IH.
Qed.

Lemma digits_val_bounds s acc :
  digits_only s = true -> 0 <= acc ->
  acc * 10 ^ Z.of_nat (String.length s) <= digits_val acc s
    < (acc + 1) * 10 ^ Z.of_nat (String.length s).
Proof.
  revert acc. induction s as [|c s IH]; intros acc Hs Hacc; [cbn; lia|].
  unfold digits_only in Hs. cbn [forall_byte] in Hs. apply andb_true_iff in Hs as [Hc Hs].
  apply digit_byte_val in Hc. cbn [digits_val String.length].
  rewrite Nat2Z.inj_succ, Z.pow_succ_r by lia.
  specialize (IH (acc * 10 + (byte_val c - 48)) Hs ltac:(lia)).
  assert (0 < 10 ^ Z.of_nat (String.length s)) by (apply Z.pow_pos_nonneg; lia). nia.
Qed.

Lemma digits_val_append a s t :
  digits_val a (String.append s t) = digits_val (digits_val a s) t.
Proof. revert a. induction s as [|c s IH]; intros a; [done|]. rewrite append_cons. cbn. apply IH. Qed.

Lemma digits_val_zeros a n : digits_val a (zero_pad n) = a * 10 ^ Z.of_nat n.
Proof.
  revert a. induction n as [|n IH]; intros a; [cbn; lia|].
  cbn [zero_pad digits_val]. rewrite IH, Nat2Z.inj_succ, Z.pow_succ_r by lia.
  change (byte_val "0" - 48) with 0. lia.
Qed.

Lemma digits_val_uint_acc u p :
  digits_val (Zpos p) (NilEmpty.string_of_uint u) = Zpos (Pos.of_uint_acc u p).
Proof.
  revert p. induction u; intros p; cbn -[Z.mul Z.add Z.sub]; try done.
  all: rewrite <- IHu; f_equal; unfold byte_val; cbn -[Z.mul Z.add Z.sub]; lia.
Qed.

Lemma digits_val_uint u : digits_val 0 (NilEmpty.string_of_uint u) = Z.of_N (N.of_uint u).
Proof.
  unfold N.of_uint. induction u; [done|done|..];
    cbn -[Z.mul Z.add Z.sub]; rewrite <- digits_val_uint_acc; reflexivity.
Qed.

Lemma dec_text_val n : 0 <= n -> digits_val 0 (dec_text n) = n.
Proof.
  intros. unfold dec_text, format_uint.
  rewrite digits_val_uint, DecimalN.Unsigned.of_to. lia.
Qed.

Lemma dec_text_digits n : digits_only (dec_text n) = true.
Proof.
  unfold dec_text, format_uint. generalize (N.to_uint (Z.to_N n)). intros u.
  unfold digits_only. induction u; cbn [NilEmpty.string_of_uint forall_byte]; rewrite ?IHu; done.
Qed.

Lemma leading_unorm u : leading (NilEmpty.string_of_uint u) = true -> unorm u = u.
Proof. by destruct u. Qed.

Lemma unorm_leading u : unorm u = u -> u = Decimal.D0 Decimal.Nil \/ leading (NilEmpty.string_of_uint u) = true.
Proof.
  destruct u; cbn; auto; try done. intros H.
  assert (forall v, (nb_digits (nzhead v) <= nb_digits v)%nat) as Hnz.
  { induction v; cbn; lia. }
  unfold unorm in H. cbn in H. destruct (nzhead u) eqn:E; try discriminate H; [left; by injection H as <-|].
  specialize (Hnz u). rewrite E, H in Hnz. cbn in Hnz. lia.
Qed.

Lemma dec_text_leading n : 0 < n -> leading (dec_text n) = true.
Proof.
  intros Hn. unfold dec_text, format_uint.
  assert (unorm (N.to_uint (Z.to_N n)) = N.to_uint (Z.to_N n)) as Hu.
  { rewrite <- DecimalN.Unsigned.to_of, DecimalN.Unsigned.of_to. done. }
  destruct (unorm_leading _ Hu) as [E|?]; [|done].
  apply (f_equal N.of_uint) in E. rewrite DecimalN.Unsigned.of_to in E. cbn in E. lia.
Qed.

Lemma dec_text_nonempty n : dec_text n <> EmptyString.
Proof.
  intros E. pose proof (dec_text_val (Z.max 0 n)). destruct (Z.ltb_spec 0 n) as [Hn|Hn].
  - apply dec_text_leading in Hn. by rewrite E in Hn.
  - unfold dec_text in E. replace (Z.to_N n) with 0%N in E by lia. by vm_compute in E.
Qed.

Lemma digits_uint t : digits_only t = true -> exists u, NilEmpty.string_of_uint u = t.
Proof.
  unfold digits_only. induction t as [|c t IH]; cbn [forall_byte]; [by exists Decimal.Nil|].
  intros [Hc [u <-]%IH]%andb_true_iff. clear IH.
  destruct c as [[] [] [] [] [] [] [] []]; try discriminate Hc;
  first [by exists (Decimal.D0 u)|by exists (Decimal.D1 u)|by exists (Decimal.D2 u)|by exists (Decimal.D3 u)
    |by exists (Decimal.D4 u)|by exists (Decimal.D5 u)|by exists (Decimal.D6 u)|by exists (Decimal.D7 u)
    |by exists (Decimal.D8 u)|by exists (Decimal.D9 u)].
Qed.

Lemma dec_text_unique t n :
  digits_only t = true -> leading t = true -> digits_val 0 t = n -> dec_text n = t.
Proof.
  intros [u <-]%digits_uint Hl <-. rewrite digits_val_uint. unfold dec_text, format_uint.
  rewrite N2Z.id, DecimalN.Unsigned.to_of, leading_unorm; done.
Qed.

Lemma dec_text_bounds n :
  0 < n -> let k := Z.of_nat (String.length (dec_text n)) in 1 <= k /\ 10 ^ (k - 1) <= n < 10 ^ k.
Proof.
  intros Hn k. pose proof (dec_text_leading n Hn) as Hl. pose proof (dec_text_digits n) as Hd.
  pose proof (dec_text_val n ltac:(lia)) as Hv. revert Hl Hd Hv. subst k.
  destruct (dec_text n) as [|c t]; [done|]. cbn [leading]. intros [Hc H0]%andb_true_iff Hd Hv.
  unfold digits_only in Hd. cbn [forall_byte] in Hd. apply andb_true_iff in Hd as [_ Hd].
  apply digit_byte_val in Hc. cbn [digits_val] in Hv.
  assert (byte_val c <> 48) as Hne.
  { intros E. apply negb_true_iff, Ascii.eqb_neq in H0. apply H0.
    rewrite <- (byte_of_val c), E. reflexivity. }
  pose proof (digits_val_bounds t (0 * 10 + (byte_val c - 48)) Hd ltac:(lia)) as Hb.
  cbn [String.length]. rewrite Nat2Z.inj_succ, Z.pow_succ_r by lia.
  replace (Z.succ (Z.of_nat (String.length t)) - 1) with (Z.of_nat (String.length t)) by lia.
  assert (0 < 10 ^ Z.of_nat (String.length t)) by (apply Z.pow_pos_nonneg; lia). nia.
Qed.

(** ** Literals the scanner reads back *)
Definition number_wf (n : number) : bool :=
  (str_eqb (num_int n) "0" || digits_only (num_int n) && leading (num_int n))
  && match num_frac n with Some d => digits_only d && negb (is_empty d) | None => true end
  && match num_exp n with
     | Some (e, sign, d) =>
         (str_eqb e "e" || str_eqb e "E") && (is_empty sign || str_eqb sign "+" || str_eqb sign "-")
         && digits_only d && negb (is_empty d)
     | None => true
     end.

(** A byte that cannot continue a number. *)
Definition delimiter (c : ascii) : bool :=
  negb (digit c || Ascii.eqb c "." || Ascii.eqb c "e" || Ascii.eqb c "E").
Definition delimited (r : string) : bool :=
  match r with String c _ => delimiter c | EmptyString => true end.

Lemma delimiter_spec c : delimiter c = true ->
  digit c = false /\ Ascii.eqb c "." = false /\ Ascii.eqb c "e" = false /\ Ascii.eqb c "E" = false.
Proof. unfold delimiter. rewrite negb_true_iff, !orb_false_iff. tauto. Qed.

Definition exp_text (e : option (string * string * string)) : string :=
  match e with Some (e, sign, d) => String.append e (String.append sign d) | None => EmptyString end.
Definition frac_text (f : option string) : string :=
  match f with Some d => String "." d | None => EmptyString end.

(** The rest does not start with a digit: what ends a run of digits. *)
Definition no_digit (r : string) : Prop :=
  match r with String c _ => digit c = false | EmptyString => True end.

Lemma scan_exp_text e r :
  match e with
  | Some (e, sign, d) =>
      (str_eqb e "e" || str_eqb e "E") && (is_empty sign || str_eqb sign "+" || str_eqb sign "-")
      && digits_only d && negb (is_empty d) = true
  | None => True
  end -> delimited r = true -> scan_exp (String.append (exp_text e) r) = Some (e, r).
Proof.
  assert (no_digit r \/ delimited r <> true) as Hr.
  { destruct r as [|c r]; [by left|]. cbn. destruct (delimiter c) eqn:E; [|by right].
    left. by apply delimiter_spec in E as (? & _). }
  destruct e as [[[e sign] d]|]; cbn [exp_text].
  - intros Hwf Hd. destruct Hr as [Hr|]; [|done].
    apply andb_true_iff in Hwf as [Hwf Hne]. apply andb_true_iff in Hwf as [Hwf Hdig].
    apply andb_true_iff in Hwf as [He Hs].
    assert (exists c0, e = String c0 EmptyString /\ Ascii.eqb c0 "e" || Ascii.eqb c0 "E" = true) as (c0 & -> & Hc0).
    { apply orb_true_iff in He as [->%str_eqb_eq| ->%str_eqb_eq]; eauto. }
    rewrite <- append_assoc, append_cons, append_nil_l, <- append_assoc. cbn [scan_exp]. rewrite Hc0.
    assert (exp_sign (String.append sign (String.append d r)) = (sign, String.append d r)) as ->.
    { rewrite !orb_true_iff in Hs.
      destruct Hs as [[->%is_empty_true| ->%str_eqb_eq]| ->%str_eqb_eq]; [|done|done].
      rewrite append_nil_l. destruct d as [|c d]; [done|]. rewrite append_cons. cbn.
      unfold digits_only in Hdig. cbn in Hdig. apply andb_true_iff in Hdig as [Hc _].
      destruct (Ascii.eqb_spec c "+"%char) as [->|]; [by vm_compute in Hc|].
      destruct (Ascii.eqb_spec c "-"%char) as [->|]; [by vm_compute in Hc|]. done. }
    rewrite span_digits_append by done. apply negb_true_iff in Hne. by rewrite Hne.
  - intros _ Hd. rewrite append_nil_l. unfold scan_exp.
    destruct r as [|c r]; [done|]. cbn in Hd. apply delimiter_spec in Hd as (_ & _ & -> & ->); done.
Qed.

Lemma exp_text_head e r :
  match e with Some (e, _, _) => str_eqb e "e" || str_eqb e "E" = true | None => delimited r = true end ->
  match String.append (exp_text e) r with
  | String c _ => digit c = false /\ Ascii.eqb c "." = false
  | EmptyString => True
  end.
Proof.
  destruct e as [[[e sign] d]|]; cbn [exp_text].
  - intros [->%str_eqb_eq| ->%str_eqb_eq]%orb_true_iff; done.
  - rewrite append_nil_l. destruct r as [|c r]; [done|]. cbn.
    intros H. apply delimiter_spec in H as (? & ? & _); done.
Qed.

Lemma scan_number_append n r :
  number_wf n = true -> delimited r = true ->
  scan_number (String.append (number_text n) r) = Some (n, r).
Proof.
  destruct n as [neg i f e]. unfold number_wf, number_text. cbn [num_neg num_int num_frac num_exp].
  intros [[Hi Hf]%andb_true_iff He]%andb_true_iff Hr.
  change (match e with Some (e0, sign, d) => String.append e0 (String.append sign d) | None => EmptyString end)
    with (exp_text e).
  assert (match e with Some (e, _, _) => str_eqb e "e" || str_eqb e "E" = true | None => delimited r = true end) as Hhead.
  { destruct e as [[[e sign] d]|]; [|done]. rewrite !andb_true_iff in He. tauto. }
  pose proof (scan_exp_text e r ltac:(destruct e as [[[? ?] ?]|]; [exact He|exact I]) Hr) as Hexp.
  pose proof (exp_text_head e r Hhead) as Htail.
  set (tail := String.append (exp_text e) r) in *.
  assert (scan_frac (String.append (frac_text f) tail) = Some (f, tail)) as Hfrac.
  { destruct f as [d|]; cbn [frac_text].
    - apply andb_true_iff in Hf as [Hd Hne]. apply negb_true_iff in Hne.
      rewrite append_cons. cbn [scan_frac]. rewrite Ascii.eqb_refl, span_digits_append, Hne; [done|done|].
      destruct tail; naive_solver.
    - rewrite append_nil_l. unfold scan_frac. destruct tail as [|c t]; [done|].
      destruct Htail as [_ ->]. done. }
  assert (no_digit (String.append (frac_text f) tail)) as Hnd.
  { destruct f as [d|]; cbn [frac_text]; [done|]. rewrite append_nil_l.
    unfold no_digit. destruct tail; naive_solver. }
  assert (scan_int (String.append i (String.append (frac_text f) tail))
          = Some (i, String.append (frac_text f) tail)) as Hint.
  { apply orb_true_iff in Hi as [->%str_eqb_eq|[Hi Hl]%andb_true_iff]; [done|].
    pose proof (span_digits_append i _ Hi Hnd) as Hspan. destruct i as [|c i]; [done|].
    cbn [leading] in Hl. apply andb_true_iff in Hl as [Hc H0]. apply negb_true_iff in H0.
    rewrite append_cons in *. cbn [scan_int]. by rewrite H0, Hc, Hspan. }
  unfold scan_number. rewrite <- !append_assoc. fold tail. change
    (match f with Some d => String "." d | None => EmptyString end) with (frac_text f).
  assert (scan_sign (String.append (if neg then "-" else "")%string
            (String.append i (String.append (frac_text f) tail)))
          = (neg, String.append i (String.append (frac_text f) tail))) as ->.
  { destruct neg; [done|]. rewrite append_nil_l.
    apply orb_true_iff in Hi as [->%str_eqb_eq|[Hi Hl]%andb_true_iff]; [done|].
    destruct i as [|c i]; [done|]. cbn [leading] in Hl. apply andb_true_iff in Hl as [Hc _].
    rewrite append_cons. cbn [scan_sign].
    destruct (Ascii.eqb_spec c "-"%char) as [->|]; [by vm_compute in Hc|done]. }
  cbn [mbind option_bind]. rewrite Hint. cbn [mbind option_bind]. rewrite Hfrac.
  cbn [mbind option_bind]. by rewrite Hexp.
Qed.

(** What is scanned is the text read. *)
Lemma scan_number_text s n r : scan_number s = Some (n, r) -> s = String.append (number_text n) r.
Proof.
  assert (forall s neg r, scan_sign s = (neg, r) -> s = String.append (if neg then "-" else "")%string r) as Hsign.
  { intros [|c s'] neg r'; cbn; [by intros [= <- <-]|].
    destruct (Ascii.eqb_spec c "-"%char) as [->|]; intros [= <- <-]; done. }
  assert (forall s i r, scan_int s = Some (i, r) -> s = String.append i r) as Hint.
  { intros [|c s'] i r'; cbn; [done|]. destruct (Ascii.eqb_spec c "0"%char) as [->|]; [by intros [= <- <-]|].
    destruct (digit c) eqn:Ec; [|done].
    destruct (span_digits s') as [d r0] eqn:E. intros [= <- <-].
    apply span_digits_spec in E as (-> & _ & _). done. }
  assert (forall s f r, scan_frac s = Some (f, r) -> s = String.append (frac_text f) r) as Hfrac.
  { intros [|c s'] f r'; cbn; [by intros [= <- <-]|].
    destruct (Ascii.eqb_spec c "."%char) as [->|]; [|by intros [= <- <-]].
    destruct (span_digits s') as [d r0] eqn:E. destruct (is_empty d); [done|]. intros [= <- <-].
    apply span_digits_spec in E as (-> & _ & _). done. }
  assert (forall s e r, scan_exp s = Some (e, r) -> s = String.append (exp_text e) r) as Hexp.
  { intros [|c s'] e r'; cbn [scan_exp]; [by intros [= <- <-]|].
    destruct (Ascii.eqb c "e" || Ascii.eqb c "E"); [|by intros [= <- <-]].
    destruct (exp_sign s') as [sign s''] eqn:Es.
    assert (s' = String.append sign s'') as ->.
    { destruct s' as [|c' s']; cbn in Es; [by injection Es as <- <-|].
      destruct (Ascii.eqb c' "+" || Ascii.eqb c' "-"); by injection Es as <- <-. }
    destruct (span_digits s'') as [d r0] eqn:E. destruct (is_empty d); [done|]. intros [= <- <-].
    apply span_digits_spec in E as (-> & _ & _). cbn [exp_text].
    by rewrite <- append_assoc, append_cons, append_nil_l, append_assoc. }
  unfold scan_number. destruct (scan_sign s) as [neg s1] eqn:E1. apply Hsign in E1 as ->.
  destruct (scan_int s1) as [[i s2]|] eqn:E2; [|done]. apply Hint in E2 as ->. cbn [mbind option_bind].
  destruct (scan_frac s2) as [[f s3]|] eqn:E3; [|done]. apply Hfrac in E3 as ->. cbn [mbind option_bind].
  destruct (scan_exp s3) as [[e s4]|] eqn:E4; [|done]. apply Hexp in E4 as ->. cbn [mbind option_bind].
  intros [= <- <-]. unfold number_text. cbn [num_neg num_int num_frac num_exp].
  rewrite <- !append_assoc. done.
Qed.

(** A text that is a number literal. *)
Definition is_literal (t : string) : Prop := exists n, number_wf n = true /\ number_text n = t.

Lemma literal_scan t r : is_literal t -> delimited r = true ->
  exists n, scan_number (String.append t r) = Some (n, r) /\ number_text n = t.
Proof. intros (n & Hn & <-) Hr. exists n. split; [by apply scan_number_append|done]. Qed.

Lemma is_literal_neg t (neg : bool) : is_literal t -> head_byte t <> Some "-"%char ->
  is_literal (String.append (if neg then "-" else "")%string t).
Proof.
  intros (n & Hn & <-) Hh. destruct neg; [|by exists n].
  exists {| num_neg := true; num_int := num_int n; num_frac := num_frac n; num_exp := num_exp n |}.
  split; [exact Hn|]. unfold number_text in *. cbn [num_neg num_int num_frac num_exp].
  destruct (num_neg n); [done|]. done.
Qed.

(** ** What the formatting writes *)
Lemma strip_zeros_spec s : exists n, s = String.append (strip_zeros s) (zero_pad n).
Proof.
  induction s as [|c s (n & IH)]; [by exists 0%nat|]. cbn [strip_zeros].
  destruct (Ascii.eqb_spec c "0"%char) as [->|Hc]; cbn [andb].
  - destruct (is_empty (strip_zeros s)) eqn:E.
    + apply is_empty_true in E. rewrite E, append_nil_l in IH. exists (S n). by rewrite IH.
    + exists n. rewrite append_cons. by rewrite <- IH.
  - exists n. rewrite append_cons. by rewrite <- IH.
Qed.

Lemma strip_zeros_leading s : leading s = true -> leading (strip_zeros s) = true.
Proof.
  destruct s as [|c s]; [done|]. cbn [leading strip_zeros]. intros H.
  apply andb_true_iff in H as [Hd H0]. apply negb_true_iff in H0. rewrite H0. cbn [andb leading].
  by rewrite Hd, H0.
Qed.

Lemma digits_only_append s t : digits_only (String.append s t) = digits_only s && digits_only t.
Proof. apply forall_byte_append. Qed.

Lemma zero_pad_digits n : digits_only (zero_pad n) = true.
Proof. induction n; done. Qed.
Lemma zero_pad_length n : String.length (zero_pad n) = n.
Proof. induction n; cbn; auto. Qed.

Lemma leading_append s t : leading s = true -> leading (String.append s t) = true.
Proof. by destruct s. Qed.
Lemma leading_nonempty s : leading s = true -> is_empty s = false.
Proof. intros. apply is_empty_false. by intros ->. Qed.
Lemma leading_head s : leading s = true -> head_byte s <> Some "-"%char.
Proof. destruct s as [|c s]; [done|]. cbn. intros H [= ->]. by vm_compute in H. Qed.

Lemma digits_take n s : digits_only s = true -> digits_only (str_take n s) = true.
Proof. intros H. rewrite <- (str_take_drop n s), digits_only_append in H. by apply andb_true_iff in H as [? _]. Qed.
Lemma digits_drop n s : digits_only s = true -> digits_only (str_drop n s) = true.
Proof. intros H. rewrite <- (str_take_drop n s), digits_only_append in H. by apply andb_true_iff in H as [_ ?]. Qed.
Lemma leading_take n s : (0 < n)%nat -> leading s = true -> leading (str_take n s) = true.
Proof. destruct n, s; cbn; try done; lia. Qed.
Lemma drop_nonempty n s : (n < String.length s)%nat -> is_empty (str_drop n s) = false.
Proof.
  intros H. apply is_empty_false. intros E. pose proof (str_drop_length n s) as Hl.
  rewrite E in Hl. cbn in Hl. lia.
Qed.

(** A text that is a number literal without a sign, for [c * 10^s]. *)
Definition says (t : string) (c s : Z) : Prop := exists n a,
  number_wf n = true /\ number_text n = t /\ num_neg n = false /\ 0 <= a /\ number_mantissa n = c * 10 ^ a /\ number_exp10 n = s - a.
Lemma says_literal t c s : says t c s -> is_literal t.
Proof. intros (n & _ & Hn & Ht & _). by exists n. Qed.

Lemma digits_val_take_drop k d : digits_val (digits_val 0 (str_take k d)) (str_drop k d) = digits_val 0 d.
Proof. by rewrite <- digits_val_append, str_take_drop. Qed.

Lemma format_f_says d dp : digits_only d = true -> leading d = true ->
  says (format_f d dp) (digits_val 0 d) (dp - Z.of_nat (String.length d)) /\ head_byte (format_f d dp) <> Some "-"%char.
Proof.
  intros Hd Hl. unfold format_f. destruct (Z.leb_spec dp 0) as [H0|H0].
  - split; [|done]. set (f := String.append (zero_pad (Z.to_nat (- dp))) d).
    exists {| num_neg := false; num_int := "0"; num_frac := Some f; num_exp := None |}, 0.
    unfold number_wf, number_mantissa, number_exp10, exponent, frac_digits. cbn [num_int num_frac num_exp num_neg default id]. unfold f.
    rewrite digits_only_append, zero_pad_digits, Hd, digits_val_append, digits_val_zeros, append_length, zero_pad_length. cbn [digits_val].
    split_and!; [|unfold number_text; cbn; by rewrite append_nil_r|done|done|cbn [digits_val]; rewrite Z.mul_1_r; f_equal; lia|lia].
    cbn. rewrite andb_true_r. apply negb_true_iff, is_empty_false. destruct (Z.to_nat (- dp)); [|done].
    cbn. rewrite append_nil_l. by destruct d.
  - destruct (Z.leb_spec (Z.of_nat (String.length d)) dp) as [Hn|Hn].
    + set (i := String.append d _). assert (leading i = true) as Hi by (by apply leading_append).
      assert (digits_only i = true) as Hdi by (unfold i; by rewrite digits_only_append, zero_pad_digits, Hd).
      split; [|by apply leading_head].
      exists {| num_neg := false; num_int := i; num_frac := None; num_exp := None |}, (dp - Z.of_nat (String.length d)).
      unfold number_wf, number_text, number_mantissa, number_exp10, exponent, frac_digits. cbn [num_neg num_int num_frac num_exp default id].
      rewrite Hi, Hdi, orb_true_r, append_nil_l, !append_nil_r. cbn [digits_val String.length].
      unfold i. rewrite digits_val_append, digits_val_zeros, Z2Nat.id by lia. split_and!; try done; lia.
    + split.
      * exists {| num_neg := false; num_int := str_take (Z.to_nat dp) d; num_frac := Some (str_drop (Z.to_nat dp) d); num_exp := None |}, 0.
        unfold number_wf, number_text, number_mantissa, number_exp10, exponent, frac_digits. cbn [num_neg num_int num_frac num_exp default id].
        rewrite digits_take, digits_drop, leading_take, drop_nonempty, digits_val_take_drop, str_drop_length by (done || lia).
        rewrite orb_true_r, append_nil_r. split_and!; try done; lia.
      * apply leading_head, leading_append, leading_take; [lia|done].
Qed.

Lemma format_e_says d dp : digits_only d = true -> leading d = true ->
  says (format_e d dp) (digits_val 0 d) (dp - Z.of_nat (String.length d)) /\ head_byte (format_e d dp) <> Some "-"%char.
Proof.
  intros Hd Hl. unfold format_e. split; [|apply leading_head, leading_append, leading_take; [lia|done]].
  exists {| num_neg := false; num_int := str_take 1 d;
    num_frac := if (String.length d <=? 1)%nat then None else Some (str_drop 1 d);
    num_exp := Some ("e", if (dp - 1 <? 0)%Z then "-" else "+", dec_text (Z.abs (dp - 1)))%string |}, 0.
  assert (1 <= String.length d)%nat as H1 by (destruct d; [done|cbn; lia]).
  assert (is_empty (dec_text (Z.abs (dp - 1))) = false) as Hne by (apply is_empty_false, dec_text_nonempty).
  unfold number_wf, number_text, number_mantissa, number_exp10, exponent, frac_digits. cbn [num_neg num_int num_frac num_exp].
  rewrite digits_take, leading_take, dec_text_digits, dec_text_val, Hne by (done || lia).
  assert (digits_val (digits_val 0 (str_take 1 d)) (default EmptyString (if (String.length d <=? 1)%nat then None else Some (str_drop 1 d)))
          = digits_val 0 d /\ Z.of_nat (String.length (default EmptyString (if (String.length d <=? 1)%nat then None else Some (str_drop 1 d))))
          = Z.of_nat (String.length d) - 1) as [-> ->].
  { destruct (Nat.leb_spec (String.length d) 1); cbn [default id]; [|rewrite digits_val_take_drop, str_drop_length; lia].
    destruct d as [|c [|c' d]]; [done|done|cbn in *; lia]. }
  split_and!; try done; try lia.
  - destruct (Nat.leb_spec (String.length d) 1); [|rewrite digits_drop, drop_nonempty by (done || lia)];
      destruct (dp - 1 <? 0); cbn; by rewrite orb_true_r.
  - destruct (String.length d <=? 1)%nat, (dp - 1 <? 0); done.
  - destruct (Z.ltb_spec (dp - 1) 0); [change (str_eqb "-" "-") with true|change (str_eqb "+" "-") with false]; lia.
Qed.

(** ** Rounding *)
Definition q_pos (q : Z * Z) : Prop := 0 < q.1 /\ 0 < q.2.

Lemma scale_pos b q s : 0 < b -> q_pos q -> q_pos (scale b q s).
Proof.
  intros Hb [H1 H2]. unfold scale, q_pos. assert (0 < b ^ s \/ s < 0) as Hp.
  { destruct (Z.ltb_spec s 0); [by right|left; apply Z.pow_pos_nonneg; lia]. }
  destruct (Z.leb_spec 0 s); cbn; [nia|].
  assert (0 < b ^ (- s)) by (apply Z.pow_pos_nonneg; lia). nia.
Qed.

Lemma float_ratio_pos m e : 0 < m -> q_pos (float_ratio m e).
Proof. intros. apply scale_pos; [lia|]. split; cbn; lia. Qed.

Lemma round_even_exact k d : 0 < d -> round_even (k * d, d) = k.
Proof.
  intros Hd. unfold round_even. cbn. rewrite Z.div_mul, Z.mod_mul by lia.
  by destruct (Z.ltb_spec (2 * 0) d); [|lia].
Qed.

Lemma round_even_int n : round_even (n, 1) = n.
Proof. rewrite <- (Z.mul_1_r n) at 1. by apply round_even_exact. Qed.

Lemma round_even_ge q : 0 < q.2 -> q.1 / q.2 <= round_even q.
Proof.
  intros. unfold round_even. cbv zeta. destruct (_ <? _); [lia|]. destruct (_ <? _); [lia|].
  pose proof (Z.mod_pos_bound (q.1 / q.2) 2 ltac:(lia)). lia.
Qed.

Lemma log2_q_int n : 0 < n -> log2_q (n, 1) = Z.log2 n.
Proof.
  intros Hn. unfold log2_q. cbn [fst snd]. change (Z.log2 1) with 0. rewrite Z.sub_0_r.
  pose proof (Z.log2_nonneg n). pose proof (Z.log2_spec n Hn) as [Hlo _].
  unfold scale. cbn [fst snd]. destruct (Z.leb_spec 0 (- Z.log2 n)).
  - assert (Z.log2 n = 0) as -> by lia. change (2 ^ (- 0)) with 1. destruct (Z.ltb_spec (n * 1) 1); lia.
  - rewrite Z.opp_involutive, Z.mul_1_l. destruct (Z.ltb_spec n (2 ^ Z.log2 n)); lia.
Qed.

Lemma round_float_int n :
  0 < n < 2 ^ 53 -> round_float (n, 1) = Some (n * 2 ^ (52 - Z.log2 n), Z.log2 n - 52).
Proof.
  intros [Hn Hmax]. unfold round_float. rewrite log2_q_int by done.
  pose proof (Z.log2_nonneg n). pose proof (Z.log2_spec n Hn) as [_ Hhi].
  assert (Z.log2 n < 53) by (apply Z.log2_lt_pow2; lia).
  rewrite Z.max_l by lia. unfold scale. cbn [fst snd].
  destruct (Z.leb_spec 0 (- (Z.log2 n - 52))); [|lia].
  replace (- (Z.log2 n - 52)) with (52 - Z.log2 n) by lia.
  rewrite round_even_int.
  assert (n * 2 ^ (52 - Z.log2 n) < 2 ^ 53) as Hlt.
  { replace 53 with (Z.succ (Z.log2 n) + (52 - Z.log2 n)) by lia. rewrite Z.pow_add_r by lia.
    apply Z.mul_lt_mono_pos_r; [apply Z.pow_pos_nonneg; lia|done]. }
  destruct (Z.eqb_spec (n * 2 ^ (52 - Z.log2 n)) (2 ^ 53)); [lia|].
  destruct (Z.ltb_spec 971 (Z.log2 n - 52)); [lia|done].
Qed.

Lemma round_float_big n m e : 2 ^ 53 <= n -> round_float (n, 1) = Some (m, e) -> 1 <= e.
Proof.
  intros Hn. assert (0 < n) by lia. unfold round_float. rewrite log2_q_int by done.
  assert (53 <= Z.log2 n) by (apply Z.log2_le_pow2; lia). rewrite Z.max_l by lia.
  destruct (_ =? 2 ^ 53); cbn; destruct (_ <? _); intros [= <- <-]; lia.
Qed.

Lemma round_float_zero d m e : 0 < d -> round_float (0, d) = Some (m, e) -> m = 0.
Proof.
  intros Hd. unfold round_float.
  assert (forall s, round_even (scale 2 (0, d) s) = 0) as Hz.
  { intros s. unfold scale. cbn [fst snd]. destruct (Z.leb_spec 0 s).
    - rewrite Z.mul_0_l. replace 0 with (0 * d) at 1 by lia. by apply round_even_exact.
    - assert (0 < 2 ^ (- s)) by (apply Z.pow_pos_nonneg; lia).
      replace 0 with (0 * (d * 2 ^ (- s))) at 1 by lia. apply round_even_exact. nia. }
  rewrite Hz. change (0 =? 2 ^ 53) with false. cbv iota beta zeta.
  match goal with |- context [if ?b then _ else _] => destruct b end; by intros [= <- _].
Qed.

Lemma candidates_pos m e nd c s : 0 < m -> (c, s) ∈ candidates m e nd -> 0 < c.
Proof.
  intros Hm. unfold candidates. pose proof (scale_pos 10 (float_ratio m e)
    (- (dec_point (float_ratio m e) - Z.of_nat nd)) ltac:(lia) (float_ratio_pos m e Hm)) as [Hn Hd].
  destruct (scale 10 (float_ratio m e) _) as [n d]. cbn in Hn, Hd.
  intros [Hr Hin]%list_elem_of_filter. cbn [fst snd] in Hr.
  assert (0 <= n / d) by (apply Z.div_pos; lia).
  assert (0 <= c) as Hc.
  { apply list_elem_of_fmap in Hin as (c' & [= <- _] & Hin).
    destruct (_ <=? _); rewrite !elem_of_cons, elem_of_nil in Hin; lia. }
  destruct (decide (c = 0)) as [->|]; [|lia]. exfalso.
  unfold decimal, scale in Hr. cbn [fst snd] in Hr.
  destruct (Z.leb_spec 0 s).
  - rewrite Z.mul_0_l in Hr. apply round_float_zero in Hr; lia.
  - apply round_float_zero in Hr; [lia|]. assert (0 < 10 ^ (- s)) by (apply Z.pow_pos_nonneg; lia). lia.
Qed.

(** The value has at least [dec_point] digits before its point. *)
Lemma dec_point_large q :
  q_pos q -> let s := dec_point q - 17 in (scale 10 q (- s)).2 <= (scale 10 q (- s)).1.
Proof.
  intros [H1 H2]. unfold dec_point, scale. destruct (Z.leb_spec q.2 q.1) as [Hge|Hlt].
  - assert (0 < q.1 / q.2) as Hd by (apply Z.div_str_pos; lia).
    pose proof (dec_text_bounds _ Hd) as [Hk [Hlo _]].
    set (k := Z.of_nat (String.length (dec_text (q.1 / q.2)))) in *.
    assert (q.2 * 10 ^ (k - 1) <= q.1).
    { pose proof (Z.mul_div_le q.1 q.2 H2). nia. }
    destruct (Z.leb_spec 0 (- (k - 17))); cbn [fst snd].
    + assert (0 < 10 ^ (- (k - 17))) by (apply Z.pow_pos_nonneg; lia). nia.
    + rewrite Z.opp_involutive. assert (10 ^ (k - 17) <= 10 ^ (k - 1)) by (apply Z.pow_le_mono_r; lia). nia.
  - assert (0 < (q.2 - 1) / q.1) as Hd by (apply Z.div_str_pos; lia).
    pose proof (dec_text_bounds _ Hd) as [Hk [_ Hhi]].
    set (k := Z.of_nat (String.length (dec_text ((q.2 - 1) / q.1)))) in *.
    destruct (Z.leb_spec 0 (- (1 - k - 17))); [|lia]. cbn [fst snd].
    assert (q.2 <= q.1 * 10 ^ k).
    { pose proof (Z.mul_succ_div_gt (q.2 - 1) q.1 H1). nia. }
    assert (10 ^ k <= 10 ^ (- (1 - k - 17))) by (apply Z.pow_le_mono_r; lia). nia.
Qed.

Lemma shortest_pos m e c s : 0 < m -> shortest m e = (c, s) -> 0 < c.
Proof.
  intros Hm. unfold shortest. generalize 1%nat, 16%nat. intros nd fuel. revert nd.
  induction fuel as [|fuel IH]; intros nd; cbn [shortest_from];
    destruct (candidates m e nd) as [|cs ?] eqn:E.
  - intros [= <- _]. pose proof (float_ratio_pos m e Hm) as Hq.
    pose proof (dec_point_large _ Hq) as Hl. cbv zeta in Hl.
    pose proof (scale_pos 10 _ (- (dec_point (float_ratio m e) - 17)) ltac:(lia) Hq) as [_ Hp].
    pose proof (round_even_ge _ Hp). pose proof (Z.div_str_pos _ _ (conj Hp Hl)). lia.
  - intros ->. apply (candidates_pos m e nd c s Hm). rewrite E. left.
  - apply IH.
  - intros ->. apply (candidates_pos m e nd c s Hm). rewrite E. left.
Qed.

(** The text of a positive float64 says the digits found for it. *)
Lemma format_pos_says m e c s : 0 < m -> shortest m e = (c, s) -> 
  exists c' z, c = c' * 10 ^ z /\ 0 < c' /\ 0 <= z /\ says (format_pos m e) c' (z + s) /\ head_byte (format_pos m e) <> Some "-"%char.
Proof.
  intros Hm E. unfold format_pos. rewrite E. apply shortest_pos in E; [|done].
  assert (leading (strip_zeros (dec_text c)) = true) as Hl by by apply strip_zeros_leading, dec_text_leading.
  destruct (strip_zeros_spec (dec_text c)) as [n Hn]. pose proof (dec_text_digits c) as Hd.
  assert (c = digits_val 0 (strip_zeros (dec_text c)) * 10 ^ Z.of_nat n) as Hc.
  { rewrite <- (dec_text_val c) at 1 by lia. by rewrite Hn at 1; rewrite digits_val_append, digits_val_zeros. }
  assert (Z.of_nat (String.length (dec_text c)) = Z.of_nat (String.length (strip_zeros (dec_text c))) + Z.of_nat n) as Hlen.
  { rewrite Hn at 1. rewrite append_length, zero_pad_length. lia. }
  rewrite Hn, digits_only_append in Hd. apply andb_true_iff in Hd as [Hd _].
  set (d := strip_zeros (dec_text c)) in *. exists (digits_val 0 d), (Z.of_nat n).
  split; [done|]. split; [nia|]. split; [lia|]. rewrite Hlen.
  replace (Z.of_nat n + s) with (Z.of_nat (String.length d) + Z.of_nat n + s - Z.of_nat (String.length d)) by lia.
  destruct (_ || _); [by apply format_e_says|by apply format_f_says].
Qed.
Lemma format_pos_literal m e :
  0 < m -> is_literal (format_pos m e) /\ head_byte (format_pos m e) <> Some "-"%char.
Proof.
  intros Hm. destruct (shortest m e) as [c s] eqn:E. destruct (format_pos_says m e c s Hm E) as (c' & z & _ & _ & _ & H & ?).
  split; [by eapply says_literal|done].
Qed.

(** ** Integers in the safe range *)
(** [strconv.FormatInt(z, 10)]. *)
Definition int_text (z : Z) : string :=
  if z <? 0 then String "-" (dec_text (- z)) else dec_text z.

Lemma float_ratio_int n :
  0 < n < 2 ^ 53 ->
  float_ratio (n * 2 ^ (52 - Z.log2 n)) (Z.log2 n - 52) = (n * 2 ^ (52 - Z.log2 n), 2 ^ (52 - Z.log2 n)).
Proof.
  intros [Hn Hmax]. assert (Z.log2 n < 53) by (apply Z.log2_lt_pow2; lia).
  unfold float_ratio, scale. cbn [fst snd]. replace (- (Z.log2 n - 52)) with (52 - Z.log2 n) by lia.
  destruct (Z.leb_spec 0 (Z.log2 n - 52)); [|by rewrite Z.mul_1_l].
  assert (Z.log2 n = 52) as -> by lia. rewrite Z.mul_1_r. done.
Qed.

(** Integers of the safe range are apart as float64 values. *)
Lemma round_float_inj n k :
  0 < n < 2 ^ 53 -> 0 < k -> round_float (k, 1) = round_float (n, 1) -> k = n.
Proof.
  intros Hn Hk E. rewrite (round_float_int n) in E by done.
  assert (Z.log2 n < 53) by (apply Z.log2_lt_pow2; lia).
  destruct (Z.ltb_spec k (2 ^ 53)) as [Hlt|Hge].
  - rewrite round_float_int in E by lia. injection E as E1 E2. assert (Z.log2 k = Z.log2 n) as El by lia.
    rewrite El in E1. apply Z.mul_reg_r in E1; [done|]. apply Z.pow_nonzero; lia.
  - apply round_float_big in E; lia.
Qed.

Lemma dec_point_int n q :
  0 < n -> 0 < q -> dec_point (n * q, q) = Z.of_nat (String.length (dec_text n)).
Proof.
  intros. unfold dec_point. cbn [fst snd]. destruct (Z.leb_spec q (n * q)); [|nia]. by rewrite Z.div_mul by lia.
Qed.

(** Every candidate for an integer is that integer, and with all its digits
    there is one. *)
Lemma candidates_int n m e nd :
  0 < n < 2 ^ 53 -> round_float (n, 1) = Some (m, e) ->
  (nd <= String.length (dec_text n))%nat ->
  (forall c s, (c, s) ∈ candidates m e nd -> 0 <= s /\ c * 10 ^ s = n) /\
  (nd = String.length (dec_text n) -> candidates m e nd <> []).
Proof.
  intros Hn Hm Hnd. pose proof (round_float_int n Hn) as Hr. rewrite Hm in Hr. injection Hr as -> ->.
  unfold candidates. rewrite float_ratio_int by done.
  assert (Z.log2 n < 53) by (apply Z.log2_lt_pow2; lia).
  assert (0 < 2 ^ (52 - Z.log2 n)) as Hq by (apply Z.pow_pos_nonneg; lia).
  set (q := 2 ^ (52 - Z.log2 n)) in *. rewrite dec_point_int by lia.
  set (k := String.length (dec_text n)) in *. set (s := Z.of_nat k - Z.of_nat nd).
  assert (0 <= s) as Hs by lia.
  assert (exists D, 0 < D /\ scale 10 (n * q, q) (- s) = (n * q, q * D) /\ D = 10 ^ s) as (D & HD & HE & HDs).
  { exists (10 ^ s). split; [apply Z.pow_pos_nonneg; lia|]. split; [|done]. unfold scale. cbn [fst snd].
    destruct (Z.leb_spec 0 (- s)); [|by rewrite Z.opp_involutive].
    assert (s = 0) as -> by lia. rewrite !Z.mul_1_r. done. }
  rewrite HE. assert (n * q / (q * D) = n / D) as -> by (rewrite (Z.mul_comm n q); apply Z.div_mul_cancel_l; lia).
  split.
  - intros c s' [Hr Hin]%list_elem_of_filter. cbn [fst snd] in Hr.
    apply list_elem_of_fmap in Hin as (c' & [= -> ->] & Hin). split; [done|].
    unfold decimal, scale in Hr. cbn [fst snd] in Hr. destruct (Z.leb_spec 0 s); [|lia].
    rewrite <- HDs in *. rewrite <- Hm in Hr. apply round_float_inj in Hr; [done|done|].
    assert (0 <= n / D) by (apply Z.div_pos; lia).
    assert (c' <> 0).
    { intros ->. rewrite Z.mul_0_l, Hm in Hr. apply round_float_zero in Hr; nia. }
    assert (0 <= c') by (destruct (_ <=? _); rewrite !elem_of_cons, elem_of_nil in Hin; lia). nia.
  - intros ->. assert (s = 0) as Hs0 by lia. rewrite Hs0 in *. rewrite Z.pow_0_r in HDs. subst D.
    rewrite Z.div_1_r. intros Hnil.
    assert ((n, 0) ∈ ([] : list (Z * Z))) as Hin; [|by apply elem_of_nil in Hin]. rewrite <- Hnil.
    apply list_elem_of_filter. cbn [fst snd]. split.
    + unfold decimal, scale. cbn. rewrite Z.mul_1_r. exact Hm.
    + apply list_elem_of_fmap. exists n. split; [done|]. destruct (_ <=? _); set_solver.
Qed.

Lemma dec_text_length n : 0 < n < 2 ^ 53 -> (1 <= String.length (dec_text n) <= 16)%nat.
Proof.
  intros [Hn Hmax]. destruct (dec_text_bounds n Hn) as [Hk [Hlo _]]. split; [lia|].
  destruct (decide (String.length (dec_text n) <= 16)%nat); [done|exfalso].
  assert (10 ^ 16 <= 10 ^ (Z.of_nat (String.length (dec_text n)) - 1)) by (apply Z.pow_le_mono_r; lia). lia.
Qed.

Lemma shortest_int n m e c s :
  0 < n < 2 ^ 53 -> round_float (n, 1) = Some (m, e) -> shortest m e = (c, s) -> 0 <= s /\ c * 10 ^ s = n.
Proof.
  intros Hn Hm. pose proof (dec_text_length n Hn) as Hk. unfold shortest.
  assert (1 <= String.length (dec_text n) <= 1 + 16)%nat as Hrange by lia. revert Hrange. clear Hk.
  generalize 1%nat, 16%nat. intros nd fuel. revert nd.
  induction fuel as [|fuel IH]; intros nd Hk; cbn [shortest_from];
    destruct (candidates_int n m e nd Hn Hm ltac:(lia)) as [Hall Hsome];
    destruct (candidates m e nd) as [|cs ?] eqn:E.
  - by destruct Hsome; [lia|].
  - intros ->. apply Hall. left.
  - apply IH. destruct (decide (nd = String.length (dec_text n))) as [->|]; [by destruct Hsome|lia].
  - intros ->. apply Hall. left.
Qed.

Lemma dec_text_scale c s : 0 < c -> 0 <= s ->
  dec_text (c * 10 ^ s) = String.append (dec_text c) (zero_pad (Z.to_nat s)).
Proof.
  intros Hc Hs. apply dec_text_unique.
  - by rewrite digits_only_append, dec_text_digits, zero_pad_digits.
  - by apply leading_append, dec_text_leading.
  - rewrite digits_val_append, dec_text_val, digits_val_zeros by lia. by rewrite Z2Nat.id.
Qed.

Lemma zero_pad_app n k : String.append (zero_pad n) (zero_pad k) = zero_pad (n + k).
Proof. induction n as [|n IH]; [done|]. cbn [zero_pad Nat.add]. by rewrite append_cons, IH. Qed.

Lemma format_pos_int n m e :
  0 < n < 2 ^ 53 -> round_float (n, 1) = Some (m, e) -> format_pos m e = dec_text n.
Proof.
  intros Hn Hm. pose proof (round_float_int n Hn) as Hr. rewrite Hm in Hr. injection Hr as Em Ee.
  unfold format_pos. destruct (shortest m e) as [c s] eqn:E.
  pose proof (shortest_int _ _ _ _ _ Hn Hm E) as [Hs Hc].
  assert (0 < c) as Hcp. { assert (0 < 10 ^ s) by (apply Z.pow_pos_nonneg; lia). nia. }
  rewrite Em, Ee, float_ratio_int by done.
  assert (Z.log2 n < 53) by (apply Z.log2_lt_pow2; lia).
  assert (0 < 2 ^ (52 - Z.log2 n)) as Hq by (apply Z.pow_pos_nonneg; lia).
  set (q := 2 ^ (52 - Z.log2 n)) in *.
  assert (ratio_lt (n * q, q) micro = false) as ->.
  { apply Z.ltb_ge. unfold micro. cbn [fst snd]. nia. }
  assert (ratio_lt (n * q, q) (10 ^ 21, 1) = true) as ->.
  { apply Z.ltb_lt. cbn [fst snd]. change (10 ^ 21) with 1000000000000000000000.
    change (2 ^ 53) with 9007199254740992 in Hn. nia. }
  cbn [negb orb]. rewrite <- Hc, dec_text_scale by lia.
  destruct (strip_zeros_spec (dec_text c)) as [z Hz].
  set (d := strip_zeros (dec_text c)) in *.
  assert (leading d = true) as Hl by by apply strip_zeros_leading, dec_text_leading.
  assert (String.length (dec_text c) = (String.length d + z)%nat) as Hlen
    by (rewrite Hz, append_length, zero_pad_length; done).
  unfold format_f. destruct d as [|x d0] eqn:Ed; [done|]. rewrite <- Ed in *.
  assert (0 < String.length d)%nat by (rewrite Ed; cbn; lia).
  destruct (Z.leb_spec (Z.of_nat (String.length (dec_text c)) + s) 0); [lia|].
  destruct (Z.leb_spec (Z.of_nat (String.length d)) (Z.of_nat (String.length (dec_text c)) + s)); [|lia].
  rewrite Hz at 2. rewrite <- append_assoc, zero_pad_app. repeat f_equal. lia.
Qed.

Lemma scan_number_wf s n r : scan_number s = Some (n, r) -> number_wf n = true.
Proof.
  unfold scan_number. destruct (scan_sign s) as [neg s1].
  destruct (scan_int s1) as [[i s2]|] eqn:E2; [|done]. cbn [mbind option_bind].
  destruct (scan_frac s2) as [[f s3]|] eqn:E3; [|done]. cbn [mbind option_bind].
  destruct (scan_exp s3) as [[e s4]|] eqn:E4; [|done]. cbn [mbind option_bind].
  intros [= <- <-]. unfold number_wf. cbn [num_int num_frac num_exp].
  rewrite !andb_true_iff. repeat split.
  - destruct s1 as [|c s1]; [done|]. cbn [scan_int] in E2.
    destruct (Ascii.eqb_spec c "0"%char) as [->|H0]; [by injection E2 as <- <-|].
    destruct (digit c) eqn:Ec; [|done]. cbn [span_digits] in E2. rewrite Ec in E2.
    destruct (span_digits s1) as [d r'] eqn:E. injection E2 as <- <-.
    apply span_digits_spec in E as (_ & Hd & _). apply orb_true_iff. right.
    unfold digits_only in *. cbn [forall_byte leading]. rewrite Ec, Hd.
    by apply Ascii.eqb_neq in H0 as ->.
  - destruct s2 as [|c s2]; cbn [scan_frac] in E3; [by injection E3 as <- _|].
    destruct (Ascii.eqb c "."); [|by injection E3 as <- _].
    destruct (span_digits s2) as [d r'] eqn:E. destruct (is_empty d) eqn:Ed; [done|].
    injection E3 as <- _. apply span_digits_spec in E as (_ & -> & _). by rewrite Ed.
  - destruct s3 as [|c s3]; cbn [scan_exp] in E4; [by injection E4 as <- _|].
    destruct (Ascii.eqb_spec c "e"%char) as [->|]; [|destruct (Ascii.eqb_spec c "E"%char) as [->|]; [|by injection E4 as <- _]];
    cbn [orb] in E4; destruct (exp_sign s3) as [sign s5] eqn:Es;
    destruct (span_digits s5) as [d r'] eqn:E; destruct (is_empty d) eqn:Ed; try done;
    injection E4 as <- _; apply span_digits_spec in E as (_ & -> & _); rewrite Ed;
    assert (is_empty sign || str_eqb sign "+" || str_eqb sign "-" = true) as ->
      by (destruct s3 as [|c s3]; cbn in Es; [by injection Es as <- _|];
          destruct (Ascii.eqb_spec c "+"%char) as [->|]; [by injection Es as <- _|];
          destruct (Ascii.eqb_spec c "-"%char) as [->|]; by injection Es as <- _); done.
Qed.

(** A float64 a literal can denote. *)
Definition proper (f : float64) : Prop :=
  match f with FZero _ => True | FFinite _ m _ => 0 < m | _ => False end.

Lemma digits_val_nonneg s acc : digits_only s = true -> 0 <= acc -> 0 <= digits_val acc s.
Proof.
  intros Hd Ha. pose proof (digits_val_bounds s acc Hd Ha).
  assert (0 < 10 ^ Z.of_nat (String.length s)) by (apply Z.pow_pos_nonneg; lia). nia.
Qed.

Lemma round_float_nonneg q m e : q_pos q -> round_float q = Some (m, e) -> 0 <= m.
Proof.
  intros Hq. unfold round_float. set (e0 := Z.max _ _).
  pose proof (scale_pos 2 q (- e0) ltac:(lia) Hq) as [H1 H2].
  pose proof (round_even_ge _ H2). assert (0 <= (scale 2 q (- e0)).1 / (scale 2 q (- e0)).2) by (apply Z.div_pos; lia).
  destruct (_ =? 2 ^ 53); cbv iota beta zeta;
  match goal with |- context [if ?b then _ else _] => destruct b end; intros [= <- _]; lia.
Qed.

Lemma Float64_proper lit f : Float64 lit = Some f -> proper f.
Proof.
  unfold Float64. destruct (scan_number lit) as [[n r]|] eqn:E; [|done]. cbn [mbind option_bind].
  destruct (is_empty r); [|done]. unfold float_of_number.
  destruct (Z.eqb_spec (number_mantissa n) 0) as [|Hm]; [by intros [= <-]|].
  destruct (round_float _) as [[m e]|] eqn:Er; [|done]. intros [= <-].
  destruct (Z.eqb_spec m 0); [done|]. cbn. enough (0 <= m) by lia.
  apply round_float_nonneg in Er; [done|]. apply scale_pos; [lia|]. split; cbn; [|lia].
  enough (0 <= number_mantissa n) by lia.
  apply scan_number_wf in E. unfold number_wf in E. rewrite !andb_true_iff in E. destruct E as [[Hi Hf] _].
  assert (digits_only (num_int n) = true).
  { apply orb_true_iff in Hi as [->%str_eqb_eq|[? _]%andb_true_iff]; done. }
  unfold number_mantissa, frac_digits. destruct (num_frac n) as [d|]; cbn [default].
  - apply andb_true_iff in Hf as [? _]. apply digits_val_nonneg; [done|]. apply digits_val_nonneg; [done|lia].
  - cbn. apply digits_val_nonneg; [done|lia].
Qed.

(** The literal of an integer other than zero is read exactly. *)
Lemma Float64_int_text z :
  z <> 0 -> Z.abs z < 2 ^ 53 ->
  exists m e, Float64 (int_text z) = Some (FFinite (z <? 0) m e) /\ 0 < m /\
    round_float (Z.abs z, 1) = Some (m, e).
Proof.
  intros H0 Hmax. pose proof (round_float_int (Z.abs z) ltac:(lia)) as Hr.
  set (m := Z.abs z * 2 ^ (52 - Z.log2 (Z.abs z))) in *. set (e := Z.log2 (Z.abs z) - 52) in *.
  exists m, e. split; [|split; [|done]].
  2:{ assert (Z.log2 (Z.abs z) < 53) by (apply Z.log2_lt_pow2; lia).
      apply Z.mul_pos_pos; [lia|]. apply Z.pow_pos_nonneg; lia. }
  set (n := {| num_neg := z <? 0; num_int := dec_text (Z.abs z); num_frac := None; num_exp := None |}).
  assert (int_text z = String.append (number_text n) EmptyString) as ->.
  { rewrite append_nil_r. unfold int_text, number_text. cbn [num_neg num_int num_frac num_exp n].
    destruct (Z.ltb_spec z 0).
    - rewrite !append_nil_r, append_cons, append_nil_l. do 2 f_equal. lia.
    - rewrite append_nil_l, !append_nil_r. f_equal. lia. }
  unfold Float64. rewrite scan_number_append; [|..].
  - cbn [mbind option_bind is_empty]. change (is_empty EmptyString) with true. cbv iota.
    unfold float_of_number, number_mantissa, number_exp10, exponent, frac_digits. cbn [n num_int num_frac num_exp num_neg default].
    cbn [digits_val String.length]. rewrite dec_text_val by lia.
    destruct (Z.eqb_spec (Z.abs z) 0); [lia|].
    change (decimal (Z.abs z) (0 - Z.of_nat 0)) with (Z.abs z * 1, 1). rewrite Z.mul_1_r, Hr.
    destruct (Z.eqb_spec m 0) as [E|]; [|done]. exfalso. subst m.
    assert (Z.log2 (Z.abs z) < 53) by (apply Z.log2_lt_pow2; lia).
    assert (0 < 2 ^ (52 - Z.log2 (Z.abs z))) by (apply Z.pow_pos_nonneg; lia). nia.
  - unfold number_wf. cbn [n num_int num_frac num_exp]. rewrite dec_text_digits, dec_text_leading by lia.
    by rewrite orb_true_r.
  - done.
Qed.
