(* ===== verification/Floats.v ===== *)
(** * Floats: what is written for a float64 is read as that float64

    The shortest formatting of Numbers.v against its own reader. Seventeen
    significant digits are enough for every float64, so the search for the
    shortest digits always ends with digits that read back; and the text laid
    out for them, with or without an exponent, has their value. *)

From Stdlib Require Import ZArith Lia Ascii String.
From S2P Require Import Prelude Codec Numbers.

Open Scope Z_scope.

(** ** Ratios *)
Lemma pow_pos b x : 0 < b -> 0 <= x -> 0 < b ^ x.
Proof. intros. apply Z.pow_pos_nonneg; lia. Qed.

(** [scale] with a common exponent that makes both powers integers. *)
Lemma scale_common b q s K : 0 < b -> 0 <= K -> 0 <= K + s ->
  exists f, 0 < f /\ q.1 * b ^ (K + s) = f * (scale b q s).1 /\ q.2 * b ^ K = f * (scale b q s).2.
Proof.
  intros Hb HK Hs. unfold scale. destruct (Z.leb_spec 0 s); cbn [fst snd].
  - exists (b ^ K). split; [by apply pow_pos|]. rewrite Z.pow_add_r by lia. lia.
  - exists (b ^ (K + s)). split; [by apply pow_pos|]. split; [lia|].
    replace K with ((K + s) + - s) at 1 by lia. rewrite Z.pow_add_r by lia. lia.
Qed.

(** [2^l <= q], with any common exponent. *)
Definition at_least (q : Z * Z) (l : Z) : Prop := exists K, 0 <= K /\ 0 <= K + l /\ q.2 * 2 ^ (K + l) <= q.1 * 2 ^ K.
Lemma at_least_any q l K : 0 <= K -> 0 <= K + l -> at_least q l <-> q.2 * 2 ^ (K + l) <= q.1 * 2 ^ K.
Proof.
  intros H1 H2. split; [|intros H; by exists K]. intros (K' & H3 & H4 & H).
  assert (forall a, 0 <= a -> q.2 * 2 ^ (K' + l + a) <= q.1 * 2 ^ (K' + a)) as Hup.
  { intros a Ha. rewrite (Z.pow_add_r 2 (K' + l)), (Z.pow_add_r 2 K' a) by lia. pose proof (pow_pos 2 a ltac:(lia) Ha).
    rewrite !Z.mul_assoc. apply Z.mul_le_mono_nonneg_r; lia. }
  destruct (Z.leb_spec K' K).
  - specialize (Hup (K - K') ltac:(lia)). by replace (K' + l + (K - K')) with (K + l) in Hup by lia; replace (K' + (K - K')) with K in Hup by lia.
  - replace (K' + l) with ((K + l) + (K' - K)) in H by lia. replace K' with (K + (K' - K)) in H at 2 by lia.
    rewrite (Z.pow_add_r 2 (K + l)), (Z.pow_add_r 2 K (K' - K)) in H by lia. pose proof (pow_pos 2 (K' - K) ltac:(lia) ltac:(lia)) as Hp.
    apply (Z.mul_le_mono_pos_r _ _ _ Hp). lia.
Qed.
Lemma at_least_scale q l : at_least q l <-> (scale 2 q (- l)).2 <= (scale 2 q (- l)).1.
Proof.
  rewrite (at_least_any q l (Z.abs l)) by lia. destruct (scale_common 2 q (- l) (Z.abs l + l)) as (f & Hf & E1 & E2); [lia..|].
  replace (Z.abs l + l + - l) with (Z.abs l) in E1 by lia. rewrite E1, E2. nia.
Qed.
Lemma at_least_lower q l l' : 0 < q.2 -> at_least q l -> l' <= l -> at_least q l'.
Proof.
  intros Hq H Hl. rewrite (at_least_any q l (Z.abs l + Z.abs l')) in H by lia. rewrite (at_least_any q l' (Z.abs l + Z.abs l')) by lia.
  assert (2 ^ (Z.abs l + Z.abs l' + l') <= 2 ^ (Z.abs l + Z.abs l' + l)) by (apply Z.pow_le_mono_r; lia). nia.
Qed.

Lemma at_least_not q l : 0 < q.2 -> ~ at_least q l -> forall K, 0 <= K -> 0 <= K + l -> q.1 * 2 ^ K < q.2 * 2 ^ (K + l).
Proof. intros Hq H K H1 H2. rewrite (at_least_any q l K) in H by lia. lia. Qed.

(** [log2_q] is the exponent of the largest power of two below. *)
Lemma log2_q_spec q : q_pos q -> at_least q (log2_q q) /\ ~ at_least q (log2_q q + 1).
Proof.
  intros [H1 H2]. unfold log2_q. set (l := Z.log2 q.1 - Z.log2 q.2).
  pose proof (Z.log2_spec q.1 H1) as [A1 A2]. pose proof (Z.log2_spec q.2 H2) as [B1 B2].
  pose proof (Z.log2_nonneg q.1). pose proof (Z.log2_nonneg q.2).
  assert (at_least q (l - 1)) as Hlo.
  { exists (Z.log2 q.2 + 1). split; [lia|]. split; [lia|]. replace (Z.log2 q.2 + 1 + (l - 1)) with (Z.log2 q.1) by lia.
    replace (Z.log2 q.2 + 1) with (Z.succ (Z.log2 q.2)) by lia. nia. }
  assert (~ at_least q (l + 1)) as Hhi.
  { rewrite (at_least_any q (l + 1) (Z.log2 q.2)) by lia. replace (Z.log2 q.2 + (l + 1)) with (Z.succ (Z.log2 q.1)) by lia. nia. }
  destruct (scale 2 q (- l)) as [n d] eqn:E. pose proof (at_least_scale q l) as Hs. rewrite E in Hs. cbn [fst snd] in Hs.
  destruct (Z.ltb_spec n d) as [Hlt|Hge].
  - split; [done|]. replace (l - 1 + 1) with l by lia. rewrite Hs. lia.
  - split; [by apply Hs|done].
Qed.
Lemma log2_q_unique q l : q_pos q -> at_least q l -> ~ at_least q (l + 1) -> log2_q q = l.
Proof.
  intros Hq H1 H2. destruct (log2_q_spec q Hq) as [H3 H4]. destruct Hq as [_ Hq].
  destruct (Z.lt_trichotomy (log2_q q) l) as [H|[H|H]]; [|done|].
  - destruct H4. by apply (at_least_lower q l); [| |lia].
  - destruct H2. by apply (at_least_lower q (log2_q q)); [| |lia].
Qed.

(** ** Rounding depends on the ratio alone *)
Definition same_ratio (p q : Z * Z) : Prop := p.1 * q.2 = q.1 * p.2.

Lemma at_least_ratio p q l : q_pos p -> q_pos q -> same_ratio p q -> at_least p l -> at_least q l.
Proof.
  intros [P1 P2] [Q1 Q2] E (K & H1 & H2 & H). exists K. split_and!; try done. unfold same_ratio in E.
  apply (Z.mul_le_mono_pos_l _ _ p.2 P2).
  replace (p.2 * (q.2 * 2 ^ (K + l))) with (q.2 * (p.2 * 2 ^ (K + l))) by lia.
  replace (p.2 * (q.1 * 2 ^ K)) with (q.2 * (p.1 * 2 ^ K)) by (rewrite (Z.mul_assoc q.2), (Z.mul_comm q.2 p.1), E; lia). nia.
Qed.
Lemma log2_q_ratio p q : q_pos p -> q_pos q -> same_ratio p q -> log2_q p = log2_q q.
Proof.
  intros Hp Hq E. symmetry. assert (same_ratio q p) as E' by (unfold same_ratio in *; lia).
  destruct (log2_q_spec p Hp) as [H1 H2].
  apply log2_q_unique; [done|by apply (at_least_ratio p)|]. intros H. apply H2. by apply (at_least_ratio q).
Qed.
Lemma scale_ratio b p q s : 0 < b -> q_pos p -> q_pos q -> same_ratio p q -> same_ratio (scale b p s) (scale b q s).
Proof.
  intros Hb _ _ E. unfold same_ratio in *. unfold scale. destruct (0 <=? s); cbn [fst snd]; [|by rewrite !Z.mul_assoc, E].
  transitivity (p.1 * q.2 * b ^ s); [lia|]. rewrite E. lia.
Qed.
Lemma round_even_mul k n d : 0 < k -> 0 < d -> round_even (k * n, k * d) = round_even (n, d).
Proof.
  intros Hk Hd. unfold round_even. cbn [fst snd]. rewrite Z.div_mul_cancel_l, Z.mul_mod_distr_l by lia. cbv zeta.
  replace (2 * (k * (n mod d)) <? k * d) with (2 * (n mod d) <? d) by (apply eq_true_iff_eq; rewrite !Z.ltb_lt; nia).
  by replace (k * d <? 2 * (k * (n mod d))) with (d <? 2 * (n mod d)) by (apply eq_true_iff_eq; rewrite !Z.ltb_lt; nia).
Qed.
Lemma round_even_ratio p q : q_pos p -> q_pos q -> same_ratio p q -> round_even p = round_even q.
Proof.
  intros [P1 P2] [Q1 Q2] E. destruct p as [n d], q as [n' d']. unfold same_ratio in E. cbn [fst snd] in *.
  rewrite <- (round_even_mul d' n d), <- (round_even_mul d n' d') by done. f_equal. f_equal; lia.
Qed.
Lemma round_float_ratio p q : q_pos p -> q_pos q -> same_ratio p q -> round_float p = round_float q.
Proof.
  intros Hp Hq E. unfold round_float. rewrite (log2_q_ratio p q) by done. set (e := Z.max _ _).
  rewrite (round_even_ratio (scale 2 p (- e)) (scale 2 q (- e))); [done|apply scale_pos; [lia|done]..|by apply scale_ratio].
Qed.

(** ** What rounds to a given float64 *)
(** Mantissa and exponent as [round_float] gives them: normal, or with the
    smallest exponent. *)
Definition float_wf (m e : Z) : Prop := 0 < m < 2 ^ 53 /\ -1074 <= e <= 971 /\ (2 ^ 52 <= m \/ e = -1074).

Lemma round_even_near A B m : 0 < B -> 2 * (A - m * B) < B -> 2 * (m * B - A) < B -> round_even (A, B) = m.
Proof.
  intros HB H1 H2. unfold round_even. cbn [fst snd]. destruct (Z.leb_spec (m * B) A) as [Hle|Hlt].
  - assert (A / B = m /\ A mod B = A - m * B) as [-> ->].
    { split; symmetry; [apply (Z.div_unique A B m (A - m * B))|apply (Z.mod_unique A B m (A - m * B))]; lia. }
    destruct (Z.ltb_spec (2 * (A - m * B)) B); lia.
  - assert (A / B = m - 1 /\ A mod B = A - m * B + B) as [-> ->].
    { split; symmetry; [apply (Z.div_unique A B (m - 1) (A - m * B + B))|apply (Z.mod_unique A B (m - 1) (A - m * B + B))]; lia. }
    destruct (Z.ltb_spec (2 * (A - m * B + B)) B); [lia|]. destruct (Z.ltb_spec B (2 * (A - m * B + B))); lia.
Qed.

(** The rounding at a given binary exponent, without its case distinction. *)
Lemma round_even_scale q e : q_pos q -> -1075 <= e -> round_even (scale 2 q (- e)) = round_even (q.1 * 2 ^ 1075, q.2 * 2 ^ (1075 + e)).
Proof.
  intros Hq He. destruct (scale_common 2 q (- e) (1075 + e)) as (f & Hf & E1 & E2); [lia..|].
  replace (1075 + e + - e) with 1075 in E1 by lia. rewrite E1, E2.
  destruct (scale_pos 2 q (- e) ltac:(lia) Hq) as [_ Hd]. rewrite round_even_mul by done. by destruct (scale 2 q (- e)).
Qed.

Lemma round_float_at q m e : q_pos q -> -1074 <= e <= 971 -> Z.max (log2_q q - 52) (-1074) = e ->
  round_even (scale 2 q (- e)) = m -> m <> 2 ^ 53 -> round_float q = Some (m, e).
Proof.
  intros Hq He Hl Hr Hm. unfold round_float. rewrite Hl, Hr. destruct (Z.eqb_spec m (2 ^ 53)); [done|].
  destruct (Z.ltb_spec 971 e); [lia|done].
Qed.

(** Nearer to a float64 than to its neighbours. *)
Definition near (A B m : Z) : Prop := 2 * (A - m * B) < B /\ 2 * (m * B - A) < B /\ (m = 2 ^ 52 -> 4 * (m * B - A) < B).

Lemma round_float_near q m e : q_pos q -> float_wf m e -> near (q.1 * 2 ^ 1075) (q.2 * 2 ^ (1075 + e)) m -> round_float q = Some (m, e).
Proof.
  intros Hq (Hm & He & Hn) (H1 & H2 & H3).
  assert (0 < q.2 * 2 ^ (1075 + e)) as HB by (destruct Hq; apply Z.mul_pos_pos; [done|apply pow_pos; lia]).
  pose proof (round_even_scale q e Hq ltac:(lia)) as Hs. rewrite (round_even_near _ _ m HB H1 H2) in Hs.
  assert (forall j, 0 <= 1075 + (e + j) -> at_least q (e + j) <-> q.2 * 2 ^ (1075 + (e + j)) <= q.1 * 2 ^ 1075) as Hat.
  { intros j Hj. apply at_least_any; lia. }
  assert (forall j, 0 <= j -> q.2 * 2 ^ (1075 + (e + j)) = q.2 * 2 ^ (1075 + e) * 2 ^ j) as Hp.
  { intros j Hj. rewrite Z.add_assoc, (Z.pow_add_r 2 (1075 + e)) by lia. lia. }
  set (A := q.1 * 2 ^ 1075) in *. set (B := q.2 * 2 ^ (1075 + e)) in *.
  assert (~ at_least q (e + 53)) as Hhi.
  { rewrite Hat, Hp by lia. change (2 ^ 53) with 9007199254740992 in *. nia. }
  destruct (Z.leb_spec (2 ^ 52 * B) A) as [Hge|Hlt].
  - apply round_float_at; try done; [|lia]. rewrite (log2_q_unique q (e + 52)); [lia|done|apply Hat; [lia|]; rewrite Hp by lia; lia|].
    by replace (e + 52 + 1) with (e + 53) by lia.
  - assert (~ at_least q (e + 52)) as Hlo. { rewrite Hat, Hp by lia. lia. }
    destruct (decide (e = -1074)) as [E|E].
    + apply round_float_at; try done; [|lia]. destruct (log2_q_spec q Hq) as [Hl _].
      assert (log2_q q < e + 52); [|lia]. destruct (Z.ltb_spec (log2_q q) (e + 52)); [done|]. destruct Hlo.
      by apply (at_least_lower q (log2_q q)); [apply Hq| |].
    + destruct Hn as [Hn|]; [|done]. assert (m = 2 ^ 52) as E2 by (change (2 ^ 52) with 4503599627370496 in *; nia). specialize (H3 E2).
      assert (log2_q q = e + 51) as El.
      { apply log2_q_unique; [done|apply Hat; [lia|]; rewrite Hp by lia; change (2 ^ 52) with 4503599627370496 in *; change (2 ^ 51) with 2251799813685248; nia|].
        by replace (e + 51 + 1) with (e + 52) by lia. }
      assert (round_even (scale 2 q (- (e - 1))) = 2 ^ 53) as Hc.
      { rewrite round_even_scale by (done || lia).
        assert (B = 2 * (q.2 * 2 ^ (1075 + (e - 1)))) as EB.
        { unfold B. replace (1075 + e) with (1075 + (e - 1) + 1) by lia. rewrite (Z.pow_add_r 2 (1075 + (e - 1)) 1) by lia. lia. }
        assert (0 < q.2 * 2 ^ (1075 + (e - 1))) by lia.
        apply round_even_near; [done|..]; fold A; change (2 ^ 52) with 4503599627370496 in *; change (2 ^ 53) with 9007199254740992; nia. }
      unfold round_float. rewrite El. replace (Z.max (e + 51 - 52) (-1074)) with (e - 1) by lia. rewrite Hc, Z.eqb_refl.
      destruct (Z.ltb_spec 971 (e - 1 + 1)); [lia|]. rewrite E2. do 2 f_equal. lia.
Qed.

Lemma round_even_le A B k : 0 < B -> A < k * B -> round_even (A, B) <= k.
Proof.
  intros HB H. assert (A / B < k) by (apply Z.div_lt_upper_bound; lia). unfold round_even. cbn [fst snd]. cbv zeta.
  destruct (_ <? _); [lia|]. destruct (_ <? _); [lia|]. pose proof (Z.mod_pos_bound (A / B) 2 ltac:(lia)). lia.
Qed.

Lemma round_float_wf q m e : q_pos q -> round_float q = Some (m, e) -> m <> 0 -> float_wf m e.
Proof.
  intros Hq. unfold round_float. set (e0 := Z.max _ _). assert (-1074 <= e0) as He0 by lia.
  destruct (log2_q_spec q Hq) as [L1 L2]. pose proof Hq as [Hq1 Hq2].
  assert (0 < q.2 * 2 ^ (1075 + e0)) as HB by (apply Z.mul_pos_pos; [done|apply pow_pos; lia]).
  assert (forall j, 0 <= j -> q.2 * 2 ^ (1075 + (e0 + j)) = 2 ^ j * (q.2 * 2 ^ (1075 + e0))) as Hp.
  { intros j Hj. rewrite Z.add_assoc, (Z.pow_add_r 2 (1075 + e0)) by lia. lia. }
  rewrite round_even_scale by (done || lia).
  assert (round_even (q.1 * 2 ^ 1075, q.2 * 2 ^ (1075 + e0)) <= 2 ^ 53) as Hup.
  { apply round_even_le; [done|]. rewrite <- Hp by lia. apply at_least_not; [done| |lia|lia].
    intros H. apply L2. apply (at_least_lower q (e0 + 53)); [done|done|lia]. }
  pose proof (round_even_ge (q.1 * 2 ^ 1075, q.2 * 2 ^ (1075 + e0)) HB) as Hge. cbn [fst snd] in Hge.
  assert (0 <= q.1 * 2 ^ 1075 / (q.2 * 2 ^ (1075 + e0))) as H0 by (apply Z.div_pos; [|done]; apply Z.mul_nonneg_nonneg; [lia|apply Z.pow_nonneg; lia]).
  assert (e0 = -1074 \/ 2 ^ 52 <= q.1 * 2 ^ 1075 / (q.2 * 2 ^ (1075 + e0))) as Hn.
  { destruct (decide (e0 = -1074)); [by left|right]. apply Z.div_le_lower_bound; [done|]. rewrite Z.mul_comm, <- Hp by lia.
    apply (at_least_any q (e0 + 52)); [lia..|]. by replace (e0 + 52) with (log2_q q) by lia. }
  destruct (Z.eqb_spec (round_even (q.1 * 2 ^ 1075, q.2 * 2 ^ (1075 + e0))) (2 ^ 53)) as [E|E];
    match goal with |- context [971 <? ?x] => destruct (Z.ltb_spec 971 x) end; intros [= <- <-] Hm; unfold float_wf; lia.
Qed.

(** ** Seventeen digits *)
Lemma dec_point_lower q :
  q_pos q -> let s := dec_point q - 17 in 10 ^ 16 * (scale 10 q (- s)).2 <= (scale 10 q (- s)).1.
Proof.
  intros [H1 H2]. unfold dec_point, scale. destruct (Z.leb_spec q.2 q.1) as [Hge|Hlt].
  - assert (0 < q.1 / q.2) as Hd by (apply Z.div_str_pos; lia).
    pose proof (dec_text_bounds _ Hd) as [Hk [Hlo _]].
    set (k := Z.of_nat (String.length (dec_text (q.1 / q.2)))) in *.
    assert (q.2 * 10 ^ (k - 1) <= q.1) as Hq by (pose proof (Z.mul_div_le q.1 q.2 H2); nia).
    destruct (Z.leb_spec 0 (- (k - 17))); cbn [fst snd].
    + replace 16 with ((k - 1) + (- (k - 17))) by lia. rewrite Z.pow_add_r by lia.
      pose proof (pow_pos 10 (- (k - 17)) ltac:(lia) ltac:(lia)). nia.
    + rewrite Z.opp_involutive. replace (k - 1) with (16 + (k - 17)) in Hq by lia. rewrite Z.pow_add_r in Hq by lia. lia.
  - assert (0 < (q.2 - 1) / q.1) as Hd by (apply Z.div_str_pos; lia).
    pose proof (dec_text_bounds _ Hd) as [Hk [_ Hhi]].
    set (k := Z.of_nat (String.length (dec_text ((q.2 - 1) / q.1)))) in *.
    destruct (Z.leb_spec 0 (- (1 - k - 17))); [|lia]. cbn [fst snd].
    assert (q.2 <= q.1 * 10 ^ k) by (pose proof (Z.mul_succ_div_gt (q.2 - 1) q.1 H1); nia).
    replace (- (1 - k - 17)) with (k + 16) by lia. rewrite (Z.pow_add_r 10 k 16) by lia. lia.
Qed.

(** A decimal against a float64, both over the unit of the float64. *)
Lemma decimal_unit c s m e n d : 0 < m -> -1074 <= e -> (n, d) = scale 10 (float_ratio m e) (- s) ->
  let x := decimal c s in
  x.1 * 2 ^ 1075 * n = m * (x.2 * 2 ^ (1075 + e)) * (c * d).
Proof.
  intros Hm He E x. destruct (scale_common 2 (m, 1) e 1075) as (f1 & F1 & A1 & A2); [lia..|].
  destruct (scale_common 10 (float_ratio m e) (- s) (Z.abs s)) as (f2 & F2 & B1 & B2); [lia..|]. rewrite <- E in B1, B2.
  destruct (scale_common 10 (c, 1) s (Z.abs s)) as (f3 & F3 & C1 & C2); [lia..|].
  fold (decimal c s) in C1, C2. fold x in C1, C2. fold (float_ratio m e) in A1, A2. cbn [fst snd] in *.
  pose proof (float_ratio_pos m e Hm) as [_ R2].
  assert (10 ^ (Z.abs s + - s) * 10 ^ (Z.abs s + s) = 10 ^ Z.abs s * 10 ^ Z.abs s) as EP.
  { rewrite <- !Z.pow_add_r by lia. f_equal. lia. }
  pose proof (pow_pos 10 (Z.abs s) ltac:(lia) ltac:(lia)) as HP. pose proof (pow_pos 2 1075 ltac:(lia) ltac:(lia)) as HT.
  set (P := 10 ^ Z.abs s) in *. set (U := 10 ^ (Z.abs s + - s)) in *. set (V := 10 ^ (Z.abs s + s)) in *.
  set (T := 2 ^ 1075) in *. set (T' := 2 ^ (1075 + e)) in *. set (r := float_ratio m e) in *.
  assert (x.1 * P = x.2 * (c * V)) as I3. { apply (Z.mul_reg_l _ _ f3); [lia|]. rewrite !Z.mul_assoc, <- C1, <- C2. lia. }
  assert (n * (r.2 * P) = d * (r.1 * U)) as I2. { apply (Z.mul_reg_l _ _ f2); [lia|]. rewrite !Z.mul_assoc, <- B1, <- B2. lia. }
  assert (m * T' * r.2 = r.1 * T) as I1. { apply (Z.mul_reg_l _ _ f1); [lia|]. rewrite A1. transitivity (f1 * r.1 * (f1 * r.2)); [lia|]. rewrite <- A2. lia. }
  apply (Z.mul_reg_r _ _ (r.2 * P * P)); [nia|].
  transitivity (T * (x.1 * P) * (n * (r.2 * P))); [lia|]. rewrite I3, I2.
  transitivity (x.2 * c * d * (P * P) * (r.1 * T)); [rewrite <- EP; lia|]. rewrite <- I1. lia.
Qed.

Lemma decimal_near c s m e n d : float_wf m e -> 0 < c -> (n, d) = scale 10 (float_ratio m e) (- s) ->
  10 ^ 16 * d <= n -> 2 * Z.abs (c * d - n) <= d -> round_float (decimal c s) = Some (m, e).
Proof.
  intros Hw Hc E Hn Hd. pose proof Hw as (Hm & He & _).
  pose proof (scale_pos 10 _ (- s) ltac:(lia) (float_ratio_pos m e ltac:(lia))) as [N1 N2]. rewrite <- E in N1, N2. cbn [fst snd] in N1, N2.
  assert (q_pos (decimal c s)) as Hx by (apply scale_pos; [lia|]; split; cbn; lia).
  apply round_float_near; [done|done|]. pose proof (decimal_unit c s m e n d ltac:(lia) ltac:(lia) E) as HI. cbv zeta in HI.
  assert (0 < (decimal c s).2 * 2 ^ (1075 + e)) as HB by (destruct Hx; apply Z.mul_pos_pos; [done|apply pow_pos; lia]).
  set (A := (decimal c s).1 * 2 ^ 1075) in *. set (B := (decimal c s).2 * 2 ^ (1075 + e)) in *.
  change (10 ^ 16) with 10000000000000000 in Hn. change (2 ^ 53) with 9007199254740992 in Hm.
  assert (2 * m * (c * d - n) < n /\ 2 * m * (n - c * d) < n) as [H1 H2] by nia.
  split_and!.
  - apply (Z.mul_lt_mono_pos_r n); [done|]. nia.
  - apply (Z.mul_lt_mono_pos_r n); [done|]. nia.
  - change (2 ^ 52) with 4503599627370496. intros Em. apply (Z.mul_lt_mono_pos_r n); [done|].
    assert (4 * m * (n - c * d) < n) by nia. nia.
Qed.

(** The nearest candidate with seventeen digits reads back. *)
Lemma candidates_17 m e : float_wf m e -> candidates m e 17 <> [].
Proof.
  intros Hw. pose proof Hw as (Hm & He & _). pose proof (float_ratio_pos m e ltac:(lia)) as Hq.
  pose proof (dec_point_lower _ Hq) as Hlow. cbv zeta in Hlow. unfold candidates.
  change (Z.of_nat 17) with 17. set (s := dec_point (float_ratio m e) - 17) in *.
  pose proof (scale_pos 10 _ (- s) ltac:(lia) Hq) as [Hn Hd]. destruct (scale 10 (float_ratio m e) (- s)) as [n d] eqn:E.
  cbn [fst snd] in *. pose proof (Z.mod_pos_bound n d Hd) as Hr. pose proof (Z.div_mod n d ltac:(lia)) as Hdm.
  change (10 ^ 16) with 10000000000000000 in Hlow.
  assert (10000000000000000 <= n / d) as Hc by (apply Z.div_le_lower_bound; lia).
  assert (forall c, 0 < c -> 2 * Z.abs (c * d - n) <= d -> round_float (decimal c s) = Some (m, e)) as Hback.
  { intros c Hc0 Hnear. apply (decimal_near c s m e n d); done. }
  intros Hnil. assert (exists c, (c, s) ∈ ([] : list (Z * Z))) as [c H]; [|by apply elem_of_nil in H]. rewrite <- Hnil.
  destruct (Z.leb_spec (2 * (n mod d)) d).
  - exists (n / d). apply list_elem_of_filter. split; [apply Hback; cbn [fst]; lia|]. apply list_elem_of_fmap. exists (n / d). split; [done|left].
  - exists (n / d + 1). apply list_elem_of_filter. split; [apply Hback; cbn [fst]; lia|]. apply list_elem_of_fmap. exists (n / d + 1). split; [done|left].
Qed.

(** The shortest digits read back. *)
Lemma shortest_reads m e c s : float_wf m e -> shortest m e = (c, s) -> round_float (decimal c s) = Some (m, e).
Proof.
  intros Hw. assert (forall nd cs l, candidates m e nd = cs :: l -> cs = (c, s) -> round_float (decimal c s) = Some (m, e)) as Hcand.
  { intros nd cs l E ->. assert ((c, s) ∈ candidates m e nd) as Hin by (rewrite E; left).
    unfold candidates in Hin. destruct (scale 10 _ _). by apply list_elem_of_filter in Hin as [? _]. }
  assert (forall fuel nd, (nd + fuel = 17)%nat -> shortest_from m e nd fuel = (c, s) -> round_float (decimal c s) = Some (m, e)) as Hall;
    [|by apply (Hall 16%nat 1%nat)].
  intros fuel. induction fuel as [|fuel IH]; intros nd Hn; cbn [shortest_from]; destruct (candidates m e nd) as [|cs l] eqn:E.
  - exfalso. replace nd with 17%nat in E by lia. by apply (candidates_17 m e Hw).
  - by eapply Hcand.
  - apply IH. lia.
  - by eapply Hcand.
Qed.

(** The same number: zero has two signs. *)
Definition same_number (f g : float64) : Prop :=
  match f, g with FZero _, FZero _ => True | _, _ => f = g end.

Definition writable (f : float64) : Prop :=
  match f with FZero _ => True | FFinite _ m e => float_wf m e | _ => False end.

(** A literal denotes a zero or a float64. *)
Lemma mantissa_nonneg n : number_wf n = true -> 0 <= number_mantissa n.
Proof.
  unfold number_wf. rewrite !andb_true_iff. intros [[Hi Hf] _].
  assert (digits_only (num_int n) = true).
  { apply orb_true_iff in Hi as [->%str_eqb_eq|[? _]%andb_true_iff]; done. }
  unfold number_mantissa, frac_digits. destruct (num_frac n) as [d|]; cbn [default id].
  - apply andb_true_iff in Hf as [? _]. apply digits_val_nonneg; [done|]. apply digits_val_nonneg; [done|lia].
  - cbn. apply digits_val_nonneg; [done|lia].
Qed.
Lemma Float64_writable lit f : Float64 lit = Some f -> writable f.
Proof.
  unfold Float64. destruct (scan_number lit) as [[n r]|] eqn:E; [|done]. cbn [mbind option_bind].
  apply scan_number_wf, mantissa_nonneg in E. destruct (is_empty r); [|done]. unfold float_of_number.
  destruct (Z.eqb_spec (number_mantissa n) 0) as [|Hm]; [by intros [= <-]|].
  destruct (round_float _) as [[m e]|] eqn:Er; [|done]. intros [= <-]. destruct (Z.eqb_spec m 0); [done|].
  apply round_float_wf in Er; [done| |done]. apply scale_pos; [lia|]. split; cbn; lia.
Qed.

Lemma decimal_shift c s a : 0 < c -> 0 <= a -> same_ratio (decimal (c * 10 ^ a) (s - a)) (decimal c s).
Proof.
  intros Hc Ha. destruct (scale_common 10 (c * 10 ^ a, 1) (s - a) (Z.abs s + a)) as (f & Hf & A1 & A2); [lia..|].
  destruct (scale_common 10 (c, 1) s (Z.abs s)) as (g & Hg & B1 & B2); [lia..|].
  fold (decimal (c * 10 ^ a) (s - a)) in A1, A2. fold (decimal c s) in B1, B2. cbn [fst snd] in *. unfold same_ratio.
  apply (Z.mul_reg_l _ _ (f * g)); [nia|]. transitivity (f * (decimal (c * 10 ^ a) (s - a)).1 * (g * (decimal c s).2)); [lia|].
  transitivity (g * (decimal c s).1 * (f * (decimal (c * 10 ^ a) (s - a)).2)); [|lia]. rewrite <- A1, <- A2, <- B1, <- B2.
  replace (Z.abs s + a + (s - a)) with (Z.abs s + s) by lia. rewrite (Z.pow_add_r 10 (Z.abs s) a) by lia. lia.
Qed.

(** A text that says [c * 10^s], with its sign, is read as the float64 that
    these digits round to. *)
Lemma says_Float64 t c s m e (neg : bool) : says t c s -> 0 < c -> round_float (decimal c s) = Some (m, e) -> m <> 0 ->
  Float64 (String.append (if neg then "-" else "")%string t) = Some (FFinite neg m e).
Proof.
  intros (n & a & Hwf & <- & Hneg & Ha & Hm & Hx) Hc Hr Hm0.
  set (n' := {| num_neg := neg; num_int := num_int n; num_frac := num_frac n; num_exp := num_exp n |}).
  assert (String.append (if neg then "-" else "")%string (number_text n) = String.append (number_text n') EmptyString) as ->.
  { rewrite append_nil_r. unfold number_text, n'. cbn [num_neg num_int num_frac num_exp]. rewrite Hneg, append_nil_l. done. }
  unfold Float64. rewrite scan_number_append by done. cbn [mbind option_bind]. change (is_empty EmptyString) with true. cbv iota.
  unfold float_of_number. change (number_mantissa n') with (number_mantissa n). change (number_exp10 n') with (number_exp10 n).
  pose proof (pow_pos 10 a ltac:(lia) Ha). rewrite Hm, Hx. destruct (Z.eqb_spec (c * 10 ^ a) 0); [nia|].
  rewrite (round_float_ratio _ (decimal c s)), Hr; [by destruct (Z.eqb_spec m 0)|..|by apply decimal_shift]; (apply scale_pos; [lia|split; cbn; nia]).
Qed.

(** What is written for a float64 is read as that float64. *)
Lemma formatted_reads f t : writable f -> format_float f = Some t -> Float64 t = Some f.
Proof.
  destruct f as [neg|neg m e| |]; cbn [writable format_float]; try done; [by destruct neg; intros _ [= <-]|].
  intros Hw [= <-]. pose proof Hw as (Hm & _). destruct (shortest m e) as [c s] eqn:E.
  pose proof (shortest_reads _ _ _ _ Hw E) as Hr. destruct (format_pos_says m e c s ltac:(lia) E) as (c' & z & -> & Hc & Hz & Hs & _).
  apply (says_Float64 _ c' (z + s)); [done|done| |lia]. rewrite <- Hr. symmetry.
  replace s with ((z + s) - z) at 1 by lia. apply round_float_ratio; [..|by apply decimal_shift]; (apply scale_pos; [lia|split; cbn; pose proof (pow_pos 10 z ltac:(lia) Hz); nia]).
Qed.
