(* ===== verification/Jcs.v ===== *)
(** * Jcs: canonical JSON, written and read

    log/c2sptlog/json.go ([canonicalJSON] and its parts) and
    internal/jsonutil/object.go ([DecodeObject] on the token stream of
    [json.Decoder]). A Go [map[string]any] is a [gmap]; a [json.Number] keeps
    its literal; [int], [int64] and [uint64] are one constructor. *)

From Stdlib Require Import ZArith Lia Ascii String.
From S2P Require Import Prelude Codec Utf8 Numbers.

Open Scope Z_scope.

Unset Elimination Schemes.
Inductive value :=
| VNull
| VBool (b : bool)
| VString (s : string)
| VNumber (lit : string)
| VInt (z : Z)
| VArray (l : list value)
| VObject (m : gmap string value).
Set Elimination Schemes.

#[export] Instance value_eq_dec : EqDecision value.
Proof.
  refine (fix go (a b : value) : Decision (a = b) :=
    match a, b with
    | VNull, VNull => left eq_refl
    | VBool x, VBool y => cast_if (decide (x = y))
    | VString s, VString t => cast_if (decide (s = t))
    | VNumber s, VNumber t => cast_if (decide (s = t))
    | VInt x, VInt y => cast_if (decide (x = y))
    | VArray l, VArray k => let _ : EqDecision value := go in cast_if (decide (l = k))
    | VObject l, VObject k => let _ : EqDecision value := go in cast_if (decide (l = k))
    | _, _ => right _
    end); congruence.
Defined.

Definition maxJSONInteger : Z := 9007199254740991.

(** ** Writing *)
Fixpoint all_ok (l : list (res unit)) : res unit :=
  match l with [] => Ok tt | r :: l => r ;; all_ok l end.

(** [rejectUnsupportedJSON]; the entries of a map are visited in some order,
    which only decides which error is returned. *)
Fixpoint rejectUnsupportedJSON (v : value) : res unit :=
  match v with
  | VNull | VString _ | VBool _ => Ok tt
  | VNumber lit =>
      match Float64 lit with
      | None => Err (PlainError "dnsid: invalid JSON number in c2sp-tlog event")
      | Some (FInf _ | FNaN) => Err (PlainError "dnsid: non-finite JSON number in c2sp-tlog event")
      | Some _ => Ok tt
      end
  | VInt x =>
      fail_if (x <? - maxJSONInteger) || (maxJSONInteger <? x)
        with PlainError "dnsid: JSON integer outside safe range in c2sp-tlog event" ;;
      Ok tt
  | VObject m => all_ok (snd <$> map_to_list (rejectUnsupportedJSON <$> m))
  | VArray l => all_ok (rejectUnsupportedJSON <$> l)
  end.

Definition hex_digit (n : Z) : ascii := if n <? 10 then byte_of (48 + n) else byte_of (87 + n).

Definition escape_rune (r : Z) : string :=
  if (r =? 34) || (r =? 92) then String "\" (encode_rune r)
  else if r =? 8 then "\b"
  else if r =? 9 then "\t"
  else if r =? 10 then "\n"
  else if r =? 12 then "\f"
  else if r =? 13 then "\r"
  else if r <? 32 then
    String.append "\u00" (String (hex_digit (Z.shiftr r 4)) (String (hex_digit (Z.land r 15)) EmptyString))
  else encode_rune r.

Definition quote : ascii := byte_of 34.

Definition writeCanonicalString (s : string) : res string :=
  fail_if negb (ValidString s) with PlainError "dnsid: invalid UTF-8 string in c2sp-tlog event" ;;
  Ok (String quote (String.append (fold_right (fun r => String.append (escape_rune r)) EmptyString (runes s))
                     (String quote EmptyString))).

(** The order of [sortedKeys]: UTF-16 code units, a shorter key first. *)
Fixpoint units_le (a b : list Z) : bool :=
  match a, b with
  | [], _ => true
  | _ :: _, [] => false
  | x :: a, y :: b => if x =? y then units_le a b else x <? y
  end.
Definition key_units (k : string) : list Z := utf16_encode (runes k).
Definition key_le (a b : string) : Prop := units_le (key_units a) (key_units b) = true.
#[export] Instance key_le_dec a b : Decision (key_le a b).
Proof. unfold key_le. apply _. Defined.

Definition sortedKeys {A} (m : gmap string A) : list string := merge_sort key_le (map_to_list m).*1.

(** The members of an object: [parts] holds the text of each value. *)
Fixpoint write_members (parts : gmap string (res string)) (first : bool) (keys : list string) : res string :=
  match keys with
  | [] => Ok EmptyString
  | key :: keys =>
      k ← writeCanonicalString key;
      v ← default (Err (PlainError "")) (parts !! key);
      rest ← write_members parts false keys;
      Ok (String.append (if first then "" else ",")
           (String.append k (String ":" (String.append v rest))))%string
  end.

Fixpoint write_elements (first : bool) (parts : list (res string)) : res string :=
  match parts with
  | [] => Ok EmptyString
  | v :: parts =>
      v ← v;
      rest ← write_elements false parts;
      Ok (String.append (if first then "" else ",") (String.append v rest))%string
  end.

(** [writeCanonicalJSON] on a float64. *)
Definition write_float (f : float64) : res string :=
  match f with
  | FZero _ => Ok "0"%string
  | _ => match format_float f with
         | Some t => Ok t
         | None => Err (PlainError "json: unsupported value")
         end
  end.

Fixpoint writeCanonicalJSON (v : value) : res string :=
  match v with
  | VNull => Ok "null"%string
  | VBool b => Ok (if b then "true" else "false")%string
  | VString s => writeCanonicalString s
  | VNumber lit =>
      match Float64 lit with
      | None => Err (PlainError "strconv.ParseFloat")
      | Some f => write_float f
      end
  | VInt z => Ok (int_text z)
  | VArray l =>
      t ← write_elements true (writeCanonicalJSON <$> l);
      Ok (String "[" (String.append t "]"))
  | VObject m =>
      t ← write_members (writeCanonicalJSON <$> m) true (sortedKeys m);
      Ok (String "{" (String.append t "}"))
  end.

Definition canonicalJSON (v : value) : res string :=
  rejectUnsupportedJSON v ;; writeCanonicalJSON v.

(** ** Reading: the token stream of [json.Decoder] *)
Inductive tokenState :=
| tokenTopValue | tokenArrayStart | tokenArrayValue | tokenArrayComma
| tokenObjectStart | tokenObjectKey | tokenObjectColon | tokenObjectValue | tokenObjectComma.
#[export] Instance tokenState_eq_dec : EqDecision tokenState.
Proof. solve_decision. Defined.

Record decoder := Decoder { input : string; tstate : tokenState; tstack : list tokenState }.
Inductive token := TDelim (c : ascii) | TValue (v : value).

Definition tokenValueAllowed (s : tokenState) : bool :=
  match s with tokenTopValue | tokenArrayStart | tokenArrayValue | tokenObjectValue => true | _ => false end.
Definition tokenValueEnd (s : tokenState) : tokenState :=
  match s with
  | tokenArrayStart | tokenArrayValue => tokenArrayComma
  | tokenObjectValue => tokenObjectComma
  | s => s
  end.

Definition json_space (c : ascii) : bool :=
  let n := byte_val c in (n =? 32) || (n =? 9) || (n =? 13) || (n =? 10).

Definition hex_val (c : ascii) : option Z :=
  let n := byte_val c in
  if (48 <=? n) && (n <=? 57) then Some (n - 48)
  else if (97 <=? n) && (n <=? 102) then Some (n - 87)
  else if (65 <=? n) && (n <=? 70) then Some (n - 55)
  else None.

(** Four hexadecimal digits, and the rest. *)
Definition getu4 (s : string) : option (Z * string) :=
  match s with
  | String a (String b (String c (String d s))) =>
      w ← hex_val a; x ← hex_val b; y ← hex_val c; z ← hex_val d;
      Some (w * 4096 + x * 256 + y * 16 + z, s)
  | _ => None
  end.

(** [\uXXXX\uYYYY] is one rune when it is a surrogate pair. *)
Definition utf16_pair (r : Z) (s : string) : Z * string :=
  if negb (surrogate r) then (r, s)
  else match s with
       | String a (String b s') =>
           if Ascii.eqb a "\" && Ascii.eqb b "u" then
             match getu4 s' with
             | Some (r2, s'') =>
                 if (r <? 56320) && (56320 <=? r2) && (r2 <? 57344)
                 then ((r - 55296) * 1024 + (r2 - 56320) + 65536, s'')
                 else (RuneError, s)
             | None => (RuneError, s)
             end
           else (RuneError, s)
       | _ => (RuneError, s)
       end.

(** A string literal after its opening quote, unquoted. *)
Fixpoint scan_string (fuel : nat) (s : string) : option (string * string) :=
  match fuel, s with
  | S fuel, String c s' =>
      if Ascii.eqb c quote then Some (EmptyString, s')
      else if byte_val c <? 32 then None
      else if Ascii.eqb c "\" then
        match s' with
        | EmptyString => None
        | String d s'' =>
            if Ascii.eqb d "u" then
              '(r, s3) ← getu4 s'';
              let '(r, s3) := utf16_pair r s3 in
              '(t, rest) ← scan_string fuel s3;
              Some (String.append (encode_rune r) t, rest)
            else
              e ← (if Ascii.eqb d quote || Ascii.eqb d "\" || Ascii.eqb d "/" then Some d
                   else if Ascii.eqb d "b" then Some (byte_of 8)
                   else if Ascii.eqb d "f" then Some (byte_of 12)
                   else if Ascii.eqb d "n" then Some (byte_of 10)
                   else if Ascii.eqb d "r" then Some (byte_of 13)
                   else if Ascii.eqb d "t" then Some (byte_of 9)
                   else None);
              '(t, rest) ← scan_string fuel s'';
              Some (String e t, rest)
        end
      else '(t, rest) ← scan_string fuel s'; Some (String c t, rest)
  | _, _ => None
  end.
Definition read_string (s : string) : option (string * string) := scan_string (String.length s) s.

(** [dec.Decode] of a value that is not an object or array. *)
Definition read_scalar (c : ascii) (s : string) : option (value * string) :=
  if Ascii.eqb c quote then '(t, rest) ← read_string s; Some (VString t, rest)
  else if Ascii.eqb c "n" then rest ← strip_prefix "ull" s; Some (VNull, rest)
  else if Ascii.eqb c "t" then rest ← strip_prefix "rue" s; Some (VBool true, rest)
  else if Ascii.eqb c "f" then rest ← strip_prefix "alse" s; Some (VBool false, rest)
  else '(n, rest) ← scan_number (String c s); Some (VNumber (number_text n), rest).

Definition io_EOF : error := PlainError "EOF".
Definition syntax_error : error := PlainError "invalid character".

(** [Decoder.Token]. *)
Fixpoint next_token (s : string) (st : tokenState) (stack : list tokenState) : res (token * decoder) :=
  match s with
  | EmptyString => Err io_EOF
  | String c s' =>
      if json_space c then next_token s' st stack
      else if Ascii.eqb c "[" then
        fail_if negb (tokenValueAllowed st) with syntax_error ;;
        Ok (TDelim c, Decoder s' tokenArrayStart (st :: stack))
      else if Ascii.eqb c "]" then
        match stack with
        | up :: stack =>
            fail_if negb (bool_decide (st = tokenArrayStart) || bool_decide (st = tokenArrayComma)) with syntax_error ;;
            Ok (TDelim c, Decoder s' (tokenValueEnd up) stack)
        | [] => Err syntax_error
        end
      else if Ascii.eqb c "{" then
        fail_if negb (tokenValueAllowed st) with syntax_error ;;
        Ok (TDelim c, Decoder s' tokenObjectStart (st :: stack))
      else if Ascii.eqb c "}" then
        match stack with
        | up :: stack =>
            fail_if negb (bool_decide (st = tokenObjectStart) || bool_decide (st = tokenObjectComma)) with syntax_error ;;
            Ok (TDelim c, Decoder s' (tokenValueEnd up) stack)
        | [] => Err syntax_error
        end
      else if Ascii.eqb c ":" then
        fail_if negb (bool_decide (st = tokenObjectColon)) with syntax_error ;;
        next_token s' tokenObjectValue stack
      else if Ascii.eqb c "," then
        match st with
        | tokenArrayComma => next_token s' tokenArrayValue stack
        | tokenObjectComma => next_token s' tokenObjectKey stack
        | _ => Err syntax_error
        end
      else if Ascii.eqb c quote && (bool_decide (st = tokenObjectStart) || bool_decide (st = tokenObjectKey)) then
        match read_string s' with
        | Some (t, rest) => Ok (TValue (VString t), Decoder rest tokenObjectColon stack)
        | None => Err syntax_error
        end
      else
        fail_if negb (tokenValueAllowed st) with syntax_error ;;
        match read_scalar c s' with
        | Some (v, rest) => Ok (TValue v, Decoder rest (tokenValueEnd st) stack)
        | None => Err syntax_error
        end
  end.
Definition Token (d : decoder) : res (token * decoder) := next_token (input d) (tstate d) (tstack d).

(** [Decoder.More]. *)
Fixpoint more (s : string) : bool :=
  match s with
  | EmptyString => false
  | String c s' => if json_space c then more s' else negb (Ascii.eqb c "]" || Ascii.eqb c "}")
  end.
Definition More (d : decoder) : bool := more (input d).

Definition ErrNestingLimit : error := PlainError "JSON nesting limit exceeded".
Definition out_of_fuel : error := PlainError "out of fuel".

(** [decodeValue] and its two loops. *)
Fixpoint decodeValue (fuel : nat) (d : decoder) (depth : nat) : res (value * decoder) :=
  match fuel with
  | O => Err out_of_fuel
  | S fuel =>
      fail_if (64 <? depth)%nat with ErrNestingLimit ;;
      '(t, d) ← Token d;
      match t with
      | TDelim c =>
          if Ascii.eqb c "{" then decode_members fuel ∅ d depth
          else if Ascii.eqb c "[" then decode_elements fuel [] d depth
          else Err syntax_error
      | TValue v => Ok (v, d)
      end
  end
with decode_members (fuel : nat) (obj : gmap string value) (d : decoder) (depth : nat) : res (value * decoder) :=
  match fuel with
  | O => Err out_of_fuel
  | S fuel =>
      if More d then
        '(key, d) ← Token d;
        match key with
        | TValue (VString name) =>
            fail_if bool_decide (is_Some (obj !! name)) with PlainError "duplicate JSON member" ;;
            '(v, d) ← decodeValue fuel d (S depth);
            decode_members fuel (<[name := v]> obj) d depth
        | _ => Err (PlainError "invalid member name")
        end
      else '(_, d) ← Token d; Ok (VObject obj, d)
  end
with decode_elements (fuel : nat) (values : list value) (d : decoder) (depth : nat) : res (value * decoder) :=
  match fuel with
  | O => Err out_of_fuel
  | S fuel =>
      if More d then
        '(v, d) ← decodeValue fuel d (S depth);
        decode_elements fuel (values ++ [v]) d depth
      else '(_, d) ← Token d; Ok (VArray values, d)
  end.

Definition decode_fuel (data : string) : nat := 2 * String.length data + 2.

(** [DecodeObject(data, true)]. *)
Definition DecodeObject (data : string) : res (gmap string value) :=
  fail_if negb (ValidString data) with PlainError "invalid or oversized JSON" ;;
  '(v, d) ← decodeValue (decode_fuel data) (Decoder data tokenTopValue []) 0;
  match Token d with
  | Err e => if bool_decide (e = io_EOF) then
               match v with VObject m => Ok m | _ => Err (PlainError "JSON object required") end
             else Err (PlainError "trailing JSON")
  | Ok _ => Err (PlainError "trailing JSON")
  end.
