(* ===== verification/JsonRead.v ===== *)
(** * JsonRead: reading JSON text back

    What [DecodeObject] (Jcs.v) makes of a text put together from the texts of
    its parts. [reads h t v]: a decoder that meets [t] where a value may stand
    returns [v], if the nesting limit leaves room for [h] more levels. The
    writers of the repository (canonical JSON in JcsSpec.v, encoding/json in
    Marshal.v) only have to show what their scalars and keys look like. *)

From Stdlib Require Import ZArith Lia Ascii String.
From S2P Require Import Prelude Codec Utf8 Numbers Jcs.

Open Scope Z_scope.

Ltac flatten_append :=
  repeat first [rewrite append_cons | rewrite append_nil_l | rewrite <- append_assoc].

Lemma Forall2_impl_in {A B} (P Q : A -> B -> Prop) l k :
  Forall2 P l k -> (forall x y, y ∈ k -> P x y -> Q x y) -> Forall2 Q l k.
Proof.
  induction 1 as [|x y l k Hx _ IH]; intros H; constructor; [apply H; [by left|done]|].
  apply IH. intros. apply H; [by right|done].
Qed.

Lemma decode_after_colon s stack fuel depth :
  decodeValue fuel (Decoder (String ":" s) tokenObjectColon stack) depth
  = decodeValue fuel (Decoder s tokenObjectValue stack) depth.
Proof. by destruct fuel. Qed.

Lemma decode_after_comma s stack fuel depth :
  decodeValue fuel (Decoder (String "," s) tokenArrayComma stack) depth
  = decodeValue fuel (Decoder s tokenArrayValue stack) depth.
Proof. by destruct fuel. Qed.

Definition reads (h : nat) (t : string) (v : value) : Prop :=
  (0 < String.length t)%nat /\
  forall fuel st stack rest depth,
    tokenValueAllowed st = true -> delimited rest = true ->
    (depth + h <= 64)%nat -> (2 * String.length t <= fuel)%nat ->
    more (String.append t rest) = true /\
    decodeValue fuel (Decoder (String.append t rest) st stack) depth
    = Ok (v, Decoder rest (tokenValueEnd st) stack).

Lemma reads_weaken h h' t v : reads h t v -> (h <= h')%nat -> reads h' t v.
Proof. intros [? H] ?. split; [done|]. intros. apply H; (done || lia). Qed.

(** A key with its quotes. *)
Definition reads_key (t k : string) : Prop :=
  exists body, t = String quote body /\ forall rest, read_string (String.append body rest) = Some (k, rest).

(** ** Scalars *)
Definition value_head (c : ascii) : bool :=
  negb (json_space c || Ascii.eqb c "[" || Ascii.eqb c "]" || Ascii.eqb c "{" || Ascii.eqb c "}"
        || Ascii.eqb c ":" || Ascii.eqb c ",").

Lemma next_token_scalar c s st stack v rest :
  value_head c = true -> tokenValueAllowed st = true -> read_scalar c s = Some (v, rest) ->
  next_token (String c s) st stack = Ok (TValue v, Decoder rest (tokenValueEnd st) stack).
Proof.
  unfold value_head. rewrite negb_true_iff, !orb_false_iff. intros [[[[[[Hs H1] H2] H3] H4] H5] H6] Ha Hr.
  cbn [next_token]. rewrite Hs, H1, H2, H3, H4, H5, H6, Hr.
  assert (bool_decide (st = tokenObjectStart) || bool_decide (st = tokenObjectKey) = false) as -> by by destruct st.
  by rewrite andb_false_r, Ha.
Qed.

Lemma value_head_more c s : value_head c = true -> more (String c s) = true.
Proof.
  unfold value_head. rewrite negb_true_iff, !orb_false_iff. intros [[[[[[Hs H1] H2] H3] H4] H5] H6].
  cbn [more]. by rewrite Hs, H2, H4.
Qed.

Lemma reads_scalar c s v :
  value_head c = true ->
  (forall rest, delimited rest = true -> read_scalar c (String.append s rest) = Some (v, rest)) ->
  reads 0 (String c s) v.
Proof.
  intros Hc Hs. split; [cbn; lia|]. intros fuel st stack rest depth Hst Hr Hd Hf.
  rewrite append_cons. split; [by apply value_head_more|].
  destruct fuel as [|fuel]; [cbn in Hf; lia|]. cbn [decodeValue].
  destruct (Nat.ltb_spec 64 depth); [lia|]. unfold Token. cbn [input tstate tstack].
  by rewrite (next_token_scalar c _ st stack v rest) by auto.
Qed.

Lemma reads_string t k : reads_key t k -> reads 0 t (VString k).
Proof.
  intros (body & -> & H). apply reads_scalar; [done|]. intros rest _.
  unfold read_scalar. by rewrite H.
Qed.

(** ** Arrays *)
Fixpoint elements_text (first : bool) (ts : list string) : string :=
  match ts with
  | [] => EmptyString
  | t :: ts => String.append (if first then "" else ",") (String.append t (elements_text false ts))
  end%string.

Definition fits (h : nat) (t : string) (v : value) : Prop := exists n, (S n <= h)%nat /\ reads n t v.
Definition first_state (first : bool) (start comma : tokenState) : tokenState := if first then start else comma.

Lemma elements_text_delimited ts rest :
  delimited (String.append (elements_text false ts) (String "]" rest)) = true.
Proof. by destruct ts. Qed.

Lemma decode_elements_text h ts vs : Forall2 (fits h) ts vs ->
  forall first acc fuel up stack rest depth,
    (depth + h <= 64)%nat -> (2 * String.length (elements_text first ts) + 1 <= fuel)%nat ->
    decode_elements fuel acc
      (Decoder (String.append (elements_text first ts) (String "]" rest))
         (first_state first tokenArrayStart tokenArrayComma) (up :: stack)) depth
    = Ok (VArray (acc ++ vs), Decoder rest (tokenValueEnd up) stack).
Proof.
  induction 1 as [|t v ts vs (n & Hn & Hpos & Hv) _ IH]; intros first acc fuel up stack rest depth Hh Hf.
  - destruct fuel as [|fuel]; [cbn in Hf; lia|]. cbn [elements_text]. rewrite append_nil_l, app_nil_r. by destruct first.
  - cbn [elements_text] in *. rewrite !append_length in Hf. destruct fuel as [|fuel]; [lia|].
    set (tail := String.append (elements_text false ts) (String "]" rest)).
    destruct (Hv fuel (first_state first tokenArrayStart tokenArrayValue) (up :: stack) tail (S depth))
      as (Hmore & Hdec); [by destruct first|apply elements_text_delimited|lia|destruct first; cbn in Hf; lia|].
    assert (String.append (String.append (if first then "" else ",")%string (String.append t (elements_text false ts))) (String "]" rest)
            = if first then String.append t tail else String "," (String.append t tail)) as ->.
    { unfold tail. by destruct first; flatten_append. }
    cbn [decode_elements]. unfold More. cbn [input].
    assert (more (if first then String.append t tail else String "," (String.append t tail)) = true) as ->
      by by destruct first.
    assert (decodeValue fuel (Decoder (if first then String.append t tail else String "," (String.append t tail))
              (first_state first tokenArrayStart tokenArrayComma) (up :: stack)) (S depth)
            = Ok (v, Decoder tail tokenArrayComma (up :: stack))) as ->.
    { destruct first; cbn [first_state] in *; [exact Hdec|rewrite decode_after_comma; exact Hdec]. }
    cbn [mbind res_bind]. unfold tail.
    change tokenArrayComma with (first_state false tokenArrayStart tokenArrayComma).
    rewrite IH by (lia || (destruct first; cbn in Hf; lia)). by rewrite <- app_assoc.
Qed.

Lemma reads_array h ts vs :
  Forall2 (fits h) ts vs -> reads h (String "[" (String.append (elements_text true ts) "]")) (VArray vs).
Proof.
  intros H. split; [cbn; lia|]. intros fuel st stack rest depth Hst Hr Hd Hf.
  cbn [String.length] in Hf. rewrite append_length in Hf. cbn [String.length] in Hf.
  rewrite append_cons, <- append_assoc. change (String.append "]" rest) with (String "]" rest).
  split; [done|]. destruct fuel as [|fuel]; [lia|]. cbn [decodeValue].
  destruct (Nat.ltb_spec 64 depth); [lia|]. unfold Token. cbn [input tstate tstack next_token].
  change (json_space "[") with false. cbn [Ascii.eqb Bool.eqb]. rewrite Hst. cbn [negb mbind res_bind Ascii.eqb Bool.eqb].
  change tokenArrayStart with (first_state true tokenArrayStart tokenArrayComma).
  by rewrite (decode_elements_text h ts vs H) by lia.
Qed.

(** ** Objects *)
Fixpoint members_text (first : bool) (ts : list (string * string)) : string :=
  match ts with
  | [] => EmptyString
  | (k, t) :: ts =>
      String.append (if first then "" else ",")
        (String.append k (String ":" (String.append t (members_text false ts))))
  end%string.

Definition fits_member (h : nat) (t : string * string) (kv : string * value) : Prop :=
  reads_key t.1 kv.1 /\ fits h t.2 kv.2.

Lemma members_text_delimited ts rest :
  delimited (String.append (members_text false ts) (String "}" rest)) = true.
Proof. by destruct ts as [|[k t] ts]. Qed.

(** The members one after the other into an object. *)
Definition insert_all (kvs : list (string * value)) (obj : gmap string value) : gmap string value :=
  fold_left (fun obj kv => <[kv.1 := kv.2]> obj) kvs obj.

Lemma token_key (first : bool) t k tail stack :
  reads_key t k ->
  let text := String.append (if first then "" else ",")%string (String.append t (String ":" tail)) in
  more text = true /\
  Token (Decoder text (first_state first tokenObjectStart tokenObjectComma) stack)
  = Ok (TValue (VString k), Decoder (String ":" tail) tokenObjectColon stack).
Proof.
  intros (body & -> & Hb). cbv zeta. split; [by destruct first|].
  unfold Token. destruct first; flatten_append; cbn [input tstate tstack first_state next_token];
    change (json_space quote) with false; change (json_space ",") with false; cbn [Ascii.eqb Bool.eqb quote];
    cbn -[read_string]; by rewrite Hb.
Qed.

Lemma decode_members_text h ts kvs : Forall2 (fits_member h) ts kvs -> NoDup kvs.*1 ->
  forall first obj fuel up stack rest depth,
    (forall k, k ∈ kvs.*1 -> obj !! k = None) ->
    (depth + h <= 64)%nat -> (2 * String.length (members_text first ts) + 1 <= fuel)%nat ->
    decode_members fuel obj
      (Decoder (String.append (members_text first ts) (String "}" rest))
         (first_state first tokenObjectStart tokenObjectComma) (up :: stack)) depth
    = Ok (VObject (insert_all kvs obj), Decoder rest (tokenValueEnd up) stack).
Proof.
  induction 1 as [|[q t] [k v] ts kvs [Hk (n & Hn & Hpos & Hv)] _ IH]; intros Hnd first obj fuel up stack rest depth Hobj Hh Hf.
  - destruct fuel as [|fuel]; [cbn in Hf; lia|]. by destruct first.
  - cbn [members_text fst snd fmap list_fmap] in *. rewrite !append_length in Hf. cbn [String.length] in Hf.
    rewrite append_length in Hf. destruct fuel as [|fuel]; [lia|].
    apply NoDup_cons in Hnd as [Hk' Hnd].
    set (tail := String.append (members_text false ts) (String "}" rest)).
    destruct (Hv fuel tokenObjectValue (up :: stack) tail (S depth)) as (_ & Hdec);
      [done|apply members_text_delimited|lia|lia|].
    assert (String.append (String.append (if first then "" else ",")%string
              (String.append q (String ":" (String.append t (members_text false ts))))) (String "}" rest)
            = String.append (if first then "" else ",")%string (String.append q (String ":" (String.append t tail)))) as ->.
    { unfold tail. by destruct first; flatten_append. }
    destruct (token_key first q k (String.append t tail) (up :: stack) Hk) as [Hm Ht].
    cbn [decode_members]. unfold More. cbn [input]. rewrite Hm, Ht. cbn [mbind res_bind].
    rewrite bool_decide_eq_false_2 by (rewrite (Hobj k) by constructor; by intros [? [=]]).
    rewrite decode_after_colon, Hdec. cbn [mbind res_bind].
    unfold tail. change (tokenValueEnd tokenObjectValue) with (first_state false tokenObjectStart tokenObjectComma).
    rewrite IH by (done || lia || (intros k' Hin; rewrite lookup_insert_ne by (intros ->; done); apply Hobj; by right)).
    done.
Qed.

Lemma insert_all_list_to_map kvs obj : NoDup kvs.*1 -> insert_all kvs obj = list_to_map kvs ∪ obj.
Proof.
  revert obj. induction kvs as [|[k v] kvs IH]; intros obj Hnd; [symmetry; apply map_empty_union|].
  apply NoDup_cons in Hnd as [Hk Hnd]. unfold insert_all in *. cbn [fold_left fst snd list_to_map foldr].
  rewrite IH by done. cbn [uncurry]. apply not_elem_of_list_to_map_1 in Hk. by rewrite <- insert_union_l, <- insert_union_r.
Qed.

Lemma reads_object h ts kvs :
  Forall2 (fits_member h) ts kvs -> NoDup kvs.*1 ->
  reads h (String "{" (String.append (members_text true ts) "}")) (VObject (list_to_map kvs)).
Proof.
  intros H Hnd. split; [cbn; lia|]. intros fuel st stack rest depth Hst Hr Hd Hf.
  cbn [String.length] in Hf. rewrite append_length in Hf. cbn [String.length] in Hf.
  rewrite append_cons, <- append_assoc. change (String.append "}" rest) with (String "}" rest).
  split; [done|]. destruct fuel as [|fuel]; [lia|]. cbn [decodeValue].
  destruct (Nat.ltb_spec 64 depth); [lia|]. unfold Token. cbn [input tstate tstack next_token].
  change (json_space "{") with false. cbn [Ascii.eqb Bool.eqb]. rewrite Hst. cbn [negb mbind res_bind Ascii.eqb Bool.eqb].
  change tokenObjectStart with (first_state true tokenObjectStart tokenObjectComma).
  rewrite (decode_members_text h ts kvs H Hnd) by (lia || (intros; apply lookup_empty)).
  by rewrite insert_all_list_to_map, map_union_empty.
Qed.

(** ** Whole documents *)
Lemma DecodeObject_reads h t m :
  reads h t (VObject m) -> (h <= 64)%nat -> ValidString t = true -> DecodeObject t = Ok m.
Proof.
  intros [_ H] Hh Hv. unfold DecodeObject. rewrite Hv. cbn [negb].
  destruct (H (decode_fuel t) tokenTopValue [] EmptyString 0%nat) as [_ Hd]; [done|done|lia|unfold decode_fuel; lia|].
  rewrite append_nil_r in Hd. rewrite Hd. cbn [mbind res_bind]. by cbn.
Qed.
