(* ===== verification/JcsSpec.v ===== *)
(** * JcsSpec: canonical JSON reads back

    [DecodeObject] after [canonicalJSON] is [norm], which replaces every
    number by the literal written for it, and that literal denotes the same
    number; hence canonical bytes determine the
    value up to the spelling of its numbers. Decoding always has fuel enough. *)

From Stdlib Require Import ZArith Lia Ascii String.
From S2P Require Import Prelude Codec Utf8 Numbers Floats Jcs JsonRead.

Open Scope Z_scope.

(** ** Induction on values *)
Fixpoint value_size (v : value) : nat :=
  match v with
  | VArray l => S (fold_right (fun v n => value_size v + n) 0 l)%nat
  | VObject m => S (map_fold (fun _ v n => value_size v + n) 0 m)%nat
  | _ => 0%nat
  end.

Lemma value_size_object m k v : m !! k = Some v -> (value_size v < value_size (VObject m))%nat.
Proof.
  revert k v. cbn. apply (map_fold_weak_ind
    (fun r (m : gmap string value) => forall k v, m !! k = Some v -> (value_size v < S r)%nat)).
  - intros k v. by rewrite lookup_empty.
  - intros i x m' r Hm IH k y. rewrite lookup_insert_Some. intros [[-> ->]|[_ H]]; [lia|].
    apply IH in H. lia.
Qed.

Lemma value_size_array l v : v ∈ l -> (value_size v < value_size (VArray l))%nat.
Proof.
  cbn. induction l as [|x l IH]; [by intros []%elem_of_nil|].
  intros [->|H]%elem_of_cons; cbn; [lia|]. apply IH in H. lia.
Qed.

Lemma value_ind (P : value -> Prop) :
  P VNull -> (forall b, P (VBool b)) -> (forall s, P (VString s)) -> (forall t, P (VNumber t)) ->
  (forall z, P (VInt z)) -> (forall l, (forall v, v ∈ l -> P v) -> P (VArray l)) ->
  (forall m, (forall k v, m !! k = Some v -> P v) -> P (VObject m)) -> forall v, P v.
Proof.
  intros H1 H2 H3 H4 H5 Ha Ho v. remember (value_size v) as n eqn:En.
  assert (value_size v <= n)%nat as Hle by lia. clear En. revert v Hle.
  induction n as [n IH] using lt_wf_ind. intros v Hle. destruct v; try done.
  - apply Ha. intros v Hv. apply value_size_array in Hv. apply (IH (value_size v)); lia.
  - apply Ho. intros k v Hv. apply value_size_object in Hv. apply (IH (value_size v)); lia.
Qed.

(** The levels of nesting inside a value. *)
Fixpoint height (v : value) : nat :=
  match v with
  | VArray l => fold_right (fun v n => S (height v) `max` n) 0 l
  | VObject m => map_fold (fun _ v n => S (height v) `max` n) 0 m
  | _ => 0
  end%nat.

Lemma height_object m k v : m !! k = Some v -> (S (height v) <= height (VObject m))%nat.
Proof.
  revert k v. cbn. apply (map_fold_weak_ind
    (fun r (m : gmap string value) => forall k v, m !! k = Some v -> (S (height v) <= r)%nat)).
  - intros k v. by rewrite lookup_empty.
  - intros i x m' r Hm IH k y. rewrite lookup_insert_Some. intros [[-> ->]|[_ H]]; [lia|].
    apply IH in H. lia.
Qed.

Lemma height_array l v : v ∈ l -> (S (height v) <= height (VArray l))%nat.
Proof.
  cbn. induction l as [|x l IH]; [by intros []%elem_of_nil|].
  intros [->|H]%elem_of_cons; cbn; [lia|]. apply IH in H. lia.
Qed.

(** The spelling of a number once written. *)
Definition norm_number (lit : string) : string :=
  match Float64 lit with
  | Some f => match write_float f with Ok t => t | Err _ => lit end
  | None => lit
  end.
Fixpoint norm (v : value) : value :=
  match v with
  | VNumber lit => VNumber (norm_number lit)
  | VInt z => VNumber (int_text z)
  | VArray l => VArray (norm <$> l)
  | VObject m => VObject (norm <$> m)
  | v => v
  end.

(** ** Strings *)
Definition escape_byte (c : ascii) : string :=
  let r := byte_val c in
  if (r =? 34) || (r =? 92) then String "\" (String c EmptyString)
  else if r =? 8 then "\b"
  else if r =? 9 then "\t"
  else if r =? 10 then "\n"
  else if r =? 12 then "\f"
  else if r =? 13 then "\r"
  else if r <? 32 then
    String.append "\u00" (String (hex_digit (Z.shiftr r 4)) (String (hex_digit (Z.land r 15)) EmptyString))
  else String c EmptyString.
Fixpoint escape_bytes (s : string) : string :=
  match s with EmptyString => EmptyString | String c s => String.append (escape_byte c) (escape_bytes s) end.

Lemma escape_bytes_append s t :
  escape_bytes (String.append s t) = String.append (escape_bytes s) (escape_bytes t).
Proof. induction s as [|c s IH]; [done|]. rewrite append_cons. cbn. by rewrite IH, append_assoc. Qed.

Definition ascii_only (s : string) : bool := forall_byte (fun c => byte_val c <? 128) s.

Lemma escape_byte_high c : 128 <= byte_val c -> escape_byte c = String c EmptyString.
Proof.
  intros H. unfold escape_byte. cbv zeta.
  repeat match goal with
  | |- context [?a =? ?b] => destruct (Z.eqb_spec a b); [lia|]
  | |- context [?a <? ?b] => destruct (Z.ltb_spec a b); [lia|]
  end. done.
Qed.

Lemma escape_bytes_high s :
  forall_byte (fun c => 128 <=? byte_val c) s = true -> escape_bytes s = s.
Proof.
  induction s as [|c s IH]; [done|]. cbn. intros [Hc%Z.leb_le Hs]%andb_true_iff.
  rewrite escape_byte_high, IH by done. done.
Qed.

(** Escaping runes is escaping bytes, and leaves a valid string. *)
Lemma escape_rune_low r :
  0 <= r < 128 -> escape_rune r = escape_bytes (encode_rune r) /\ ascii_only (escape_rune r) = true.
Proof.
  intros Hr. pose proof (forall_below 128 (fun r => str_eqb (escape_rune r) (escape_bytes (encode_rune r))
    && ascii_only (escape_rune r)) ltac:(vm_compute; reflexivity) r Hr) as H. cbn beta in H.
  apply andb_true_iff in H as [H%str_eqb_eq ?]. done.
Qed.

Lemma escape_rune_high r : 128 <= r -> escape_rune r = encode_rune r.
Proof.
  intros H. unfold escape_rune.
  repeat match goal with
  | |- context [?a =? ?b] => destruct (Z.eqb_spec a b); [lia|]
  | |- context [?a <? ?b] => destruct (Z.ltb_spec a b); [lia|]
  end. done.
Qed.

Lemma encode_rune_high r :
  valid_rune r = true -> 128 <= r -> forall_byte (fun c => 128 <=? byte_val c) (encode_rune r) = true.
Proof.
  intros Hv Hr. unfold encode_rune. rewrite Hv. unfold valid_rune in Hv.
  rewrite !andb_true_iff, !Z.leb_le in Hv.
  destruct (Z.ltb_spec r 128); [lia|].
  repeat match goal with |- context [if ?a <? ?b then _ else _] => destruct (Z.ltb_spec a b) end;
    cbn [forall_byte]; rewrite !byte_val_of by (Z.div_mod_to_equations; lia);
    rewrite !(proj2 (Z.leb_le _ _)) by (Z.div_mod_to_equations; lia); done.
Qed.

Lemma escape_rune_bytes r : valid_rune r = true -> escape_rune r = escape_bytes (encode_rune r).
Proof.
  intros Hv. destruct (Z.ltb_spec r 128).
  - unfold valid_rune in Hv. rewrite !andb_true_iff, !Z.leb_le in Hv. apply escape_rune_low. lia.
  - rewrite escape_rune_high by done. symmetry. by apply escape_bytes_high, encode_rune_high.
Qed.

Lemma decode_rune_append a s r s' t :
  decode_rune a s = Some (r, s') -> decode_rune a (String.append s t) = Some (r, String.append s' t).
Proof.
  unfold decode_rune. cbv zeta. intros H.
  repeat match goal with H : (if ?b then _ else _) = Some _ |- _ => destruct b; try discriminate H end;
    try (by injection H as <- <-);
    repeat match goal with
    | H : match ?s with EmptyString => _ | String _ _ => _ end = Some _ |- _ =>
        is_var s; destruct s; try discriminate H; rewrite ?append_cons
    end;
    match goal with H : (if ?b then _ else _) = Some _ |- _ => destruct b; [|discriminate H] end;
    by injection H as <- <-.
Qed.

Lemma ValidString_append s t :
  ValidString s = true -> ValidString t = true -> ValidString (String.append s t) = true.
Proof.
  intros Hs Ht. revert s Hs. apply valid_string_ind; [done|]. intros a s r s' E _ IH.
  rewrite append_cons, ValidString_cons. by rewrite (decode_rune_append _ _ _ _ _ E).
Qed.

Lemma ascii_valid s : ascii_only s = true -> ValidString s = true.
Proof.
  unfold ascii_only. induction s as [|c s IH]; [done|]. cbn [forall_byte]. intros [Hc Hs]%andb_true_iff.
  rewrite ValidString_cons. unfold decode_rune. cbv zeta. rewrite Hc. auto.
Qed.

Lemma encode_rune_valid r : valid_rune r = true -> ValidString (encode_rune r) = true.
Proof.
  intros Hv. destruct (encode_rune_decode r EmptyString Hv) as (a & t & E & Hd).
  rewrite E, ValidString_cons. rewrite append_nil_r in Hd. by rewrite Hd.
Qed.

Lemma escape_rune_valid r : valid_rune r = true -> ValidString (escape_rune r) = true.
Proof.
  intros Hv. destruct (Z.ltb_spec r 128).
  - unfold valid_rune in Hv. rewrite !andb_true_iff, !Z.leb_le in Hv.
    apply ascii_valid, escape_rune_low. lia.
  - rewrite escape_rune_high by done. by apply encode_rune_valid.
Qed.

Definition quoted (s : string) : string :=
  String quote (String.append (escape_bytes s) (String quote EmptyString)).

Lemma escape_runes s :
  ValidString s = true ->
  fold_right (fun r => String.append (escape_rune r)) EmptyString (runes s) = escape_bytes s /\
  ValidString (escape_bytes s) = true.
Proof.
  revert s. apply valid_string_ind; [done|]. intros a s r s' E _ [IH IHv].
  rewrite (runes_cons _ _ _ _ E). cbn [fold_right]. rewrite IH.
  apply decode_rune_encode in E as [Hv Hs]. rewrite Hs, escape_bytes_append.
  rewrite <- escape_rune_bytes by done. split; [done|].
  apply ValidString_append; [by apply escape_rune_valid|done].
Qed.

Lemma writeCanonicalString_ok s t :
  writeCanonicalString s = Ok t <-> ValidString s = true /\ t = quoted s.
Proof.
  unfold writeCanonicalString, quoted. destruct (ValidString s) eqn:E; cbn [negb].
  - destruct (escape_runes s E) as [-> _]. naive_solver.
  - naive_solver.
Qed.

Lemma quoted_valid s : ValidString s = true -> ValidString (quoted s) = true.
Proof.
  intros H. unfold quoted. destruct (escape_runes s H) as [_ Hv].
  change (String quote (String.append (escape_bytes s) (String quote EmptyString))) with
    (String.append (String quote EmptyString) (String.append (escape_bytes s) (String quote EmptyString))).
  apply ValidString_append; [done|]. by apply ValidString_append.
Qed.

(** One byte written is one byte read. *)
Lemma scan_escape_byte c s fuel :
  scan_string (S fuel) (String.append (escape_byte c) s)
  = '(t, rest) ← scan_string fuel s; Some (String c t, rest).
Proof. destruct c as [[] [] [] [] [] [] [] []]; reflexivity. Qed.

Lemma scan_escaped s rest fuel :
  (String.length s < fuel)%nat ->
  scan_string fuel (String.append (escape_bytes s) (String quote rest)) = Some (s, rest).
Proof.
  revert fuel. induction s as [|c s IH]; intros [|fuel] Hf; cbn [String.length] in Hf; try lia; [done|].
  cbn [escape_bytes]. rewrite <- append_assoc, scan_escape_byte, IH by lia. done.
Qed.

Lemma escape_bytes_length s : (String.length s <= String.length (escape_bytes s))%nat.
Proof.
  induction s as [|c s IH]; [done|]. cbn [escape_bytes String.length]. rewrite append_length.
  assert (1 <= String.length (escape_byte c))%nat; [|lia].
  apply Nat.leb_le. destruct c as [[] [] [] [] [] [] [] []]; reflexivity.
Qed.

Lemma read_quoted s rest :
  read_string (String.append (escape_bytes s) (String quote rest)) = Some (s, rest).
Proof.
  apply scan_escaped. rewrite append_length. cbn [String.length]. pose proof (escape_bytes_length s). lia.
Qed.

(** ** Numbers *)
Lemma literal_head t :
  is_literal t -> exists c s, t = String c s /\ (digit c = true \/ c = "-"%char) /\ ascii_only t = true.
Proof.
  intros (n & Hn & <-). unfold number_wf in Hn. rewrite !andb_true_iff in Hn. destruct Hn as [[Hi Hf] He].
  assert (digits_only (num_int n) = true /\ exists c s, num_int n = String c s /\ digit c = true) as (Hid & c & s & E & Hc).
  { apply orb_true_iff in Hi as [->%str_eqb_eq|[Hd Hl]%andb_true_iff]; [by split; [|exists "0"%char, EmptyString]|].
    split; [done|]. destruct (num_int n) as [|c s]; [done|]. cbn in Hl. apply andb_true_iff in Hl as [? _]. eauto. }
  assert (forall d, digits_only d = true -> ascii_only d = true) as Hda.
  { intros d. apply forall_byte_impl. intros a Ha%digit_byte_val. apply Z.ltb_lt. lia. }
  assert (ascii_only (number_text n) = true) as Hascii.
  { unfold number_text, ascii_only. rewrite !forall_byte_append, !andb_true_iff.
    repeat split; [by destruct (num_neg n)|by apply Hda| |].
    - destruct (num_frac n); [|done]. cbn. apply andb_true_iff in Hf as [? _]. by apply Hda.
    - destruct (num_exp n) as [[[e sign] d]|]; [|done]. rewrite !andb_true_iff in He.
      destruct He as [[[He Hs] Hd] _]. rewrite !forall_byte_append, !andb_true_iff. repeat split.
      + by apply orb_true_iff in He as [->%str_eqb_eq| ->%str_eqb_eq].
      + rewrite !orb_true_iff in Hs. by destruct Hs as [[->%is_empty_true| ->%str_eqb_eq]| ->%str_eqb_eq].
      + by apply Hda. }
  unfold number_text in *. rewrite E in *. destruct (num_neg n).
  - eexists "-"%char, _. split; [reflexivity|]. auto.
  - exists c. eexists. split; [reflexivity|]. auto.
Qed.

Lemma dec_text_literal n : 0 < n -> is_literal (dec_text n).
Proof.
  intros Hn. exists {| num_neg := false; num_int := dec_text n; num_frac := None; num_exp := None |}.
  split; [|unfold number_text; cbn; by rewrite append_nil_l, !append_nil_r].
  unfold number_wf. cbn [num_int num_frac num_exp]. rewrite dec_text_digits, dec_text_leading by done.
  by rewrite orb_true_r.
Qed.

Lemma zero_literal : is_literal "0"%string.
Proof. by exists {| num_neg := false; num_int := "0"; num_frac := None; num_exp := None |}. Qed.

Lemma int_text_literal z : is_literal (int_text z).
Proof.
  unfold int_text. destruct (Z.ltb_spec z 0).
  - apply (is_literal_neg (dec_text (- z)) true); [apply dec_text_literal; lia|].
    apply leading_head, dec_text_leading. lia.
  - destruct (decide (z = 0)) as [->|]; [apply zero_literal|apply dec_text_literal; lia].
Qed.

Lemma write_float_literal f t : proper f -> write_float f = Ok t -> is_literal t.
Proof.
  destruct f as [neg|neg m e| |]; cbn [proper write_float format_float]; try done.
  - intros _ [= <-]. apply zero_literal.
  - intros Hm [= <-]. destruct (format_pos_literal m e Hm). by apply is_literal_neg.
Qed.

(** ** Scalars and tokens *)
Definition scalar (v : value) : bool := match v with VArray _ | VObject _ => false | _ => true end.

Lemma digit_head_scalar c s n rest :
  digit c = true \/ c = "-"%char -> scan_number (String c s) = Some (n, rest) ->
  value_head c = true /\ read_scalar c s = Some (VNumber (number_text n), rest).
Proof.
  intros Hc Hs. unfold read_scalar. rewrite Hs. destruct Hc as [Hc| ->]; [|done].
  destruct c as [[] [] [] [] [] [] [] []]; try discriminate Hc; done.
Qed.

Lemma literal_scalar t rest :
  is_literal t -> delimited rest = true ->
  exists c s, t = String c s /\ value_head c = true /\
    read_scalar c (String.append s rest) = Some (VNumber t, rest).
Proof.
  intros Hl Hr. destruct (literal_head t Hl) as (c & s & E & Hc & _).
  destruct (literal_scan t rest Hl Hr) as (n & Hs & Hn). exists c, s. split; [done|].
  rewrite E, append_cons in Hs. rewrite <- Hn. by apply digit_head_scalar.
Qed.

Lemma write_scalar v t rest :
  scalar v = true -> writeCanonicalJSON v = Ok t -> delimited rest = true ->
  exists c s, t = String c s /\ value_head c = true /\
    read_scalar c (String.append s rest) = Some (norm v, rest).
Proof.
  destruct v as [|b|s|lit|z|l|m]; cbn [scalar writeCanonicalJSON norm]; try done; intros _ Ht Hr.
  - injection Ht as <-. by eexists _, _.
  - injection Ht as <-. destruct b; by eexists _, _.
  - apply writeCanonicalString_ok in Ht as [_ ->]. eexists _, _. split; [reflexivity|]. split; [done|].
    unfold read_scalar. rewrite Ascii.eqb_refl, <- append_assoc, append_cons, append_nil_l.
    by rewrite read_quoted.
  - unfold norm_number. destruct (Float64 lit) as [f|] eqn:E; [|done]. rewrite Ht.
    apply literal_scalar; [|done]. apply (write_float_literal f); [by apply Float64_proper in E|done].
  - injection Ht as <-. apply literal_scalar; [apply int_text_literal|done].
Qed.

(** ** Keys *)
Lemma sortedKeys_perm {A} (m : gmap string A) : sortedKeys m ≡ₚ (map_to_list m).*1.
Proof. apply merge_sort_Permutation. Qed.
Lemma sortedKeys_NoDup {A} (m : gmap string A) : NoDup (sortedKeys m).
Proof. rewrite sortedKeys_perm. apply NoDup_fst_map_to_list. Qed.
Lemma elem_of_sortedKeys {A} (m : gmap string A) k : k ∈ sortedKeys m <-> is_Some (m !! k).
Proof.
  rewrite sortedKeys_perm, list_elem_of_fmap. split.
  - intros ([k' v] & -> & H%elem_of_map_to_list). by exists v.
  - intros [v H]. exists (k, v). by rewrite elem_of_map_to_list.
Qed.

(** ** Written text is valid UTF-8 *)
Lemma write_members_valid parts first ks t :
  (forall k v, parts !! k = Some (Ok v) -> ValidString v = true) ->
  write_members parts first ks = Ok t -> ValidString t = true.
Proof.
  intros Hp. revert first t. induction ks as [|k ks IH]; intros first t; cbn [write_members];
    [by intros [= <-]|]. intros H.
  destruct (writeCanonicalString k) as [q|] eqn:Eq; [|done]. cbn [mbind res_bind] in H.
  destruct (parts !! k) as [[v|]|] eqn:Ev; try done. cbn [default mbind res_bind] in H.
  destruct (write_members parts false ks) as [r|] eqn:Er; [|done]. injection H as <-.
  apply writeCanonicalString_ok in Eq as [Hk ->]. apply ValidString_append; [by destruct first|].
  apply ValidString_append; [by apply quoted_valid|].
  apply (ValidString_append (String ":" EmptyString)); [done|]. apply ValidString_append; eauto.
Qed.

Lemma write_elements_valid parts first t :
  (forall v, Ok v ∈ parts -> ValidString v = true) ->
  write_elements first parts = Ok t -> ValidString t = true.
Proof.
  intros Hp. revert first t. induction parts as [|v parts IH]; intros first t; cbn [write_elements];
    [by intros [= <-]|]. intros H. destruct v as [v|]; [|done]. cbn [mbind res_bind] in H.
  destruct (write_elements false parts) as [r|] eqn:Er; [|done]. injection H as <-.
  apply ValidString_append; [by destruct first|]. apply ValidString_append; [apply Hp; left|].
  eapply IH; [|done]. intros w Hw. apply Hp. by right.
Qed.

Lemma write_valid v : forall t, writeCanonicalJSON v = Ok t -> ValidString t = true.
Proof.
  induction v as [|b|s|lit|z|l IH|m IH] using value_ind; intros t; cbn [writeCanonicalJSON].
  - by intros [= <-].
  - intros [= <-]. by destruct b.
  - intros [Hs ->]%writeCanonicalString_ok. by apply quoted_valid.
  - destruct (Float64 lit) as [f|] eqn:E; [|done]. intros H. apply Float64_proper in E.
    apply ascii_valid. apply write_float_literal in H; [|done]. by destruct (literal_head t H) as (? & ? & _ & _ & ?).
  - intros [= <-]. apply ascii_valid. by destruct (literal_head _ (int_text_literal z)) as (? & ? & _ & _ & ?).
  - destruct (write_elements true _) as [e|] eqn:E; [|done]. intros [= <-].
    apply (ValidString_append (String "[" EmptyString)); [done|]. apply ValidString_append; [|done].
    eapply write_elements_valid; [|exact E]. intros v (x & Hx & Hin)%list_elem_of_fmap. by apply (IH x).
  - destruct (write_members _ true _) as [e|] eqn:E; [|done]. intros [= <-].
    apply (ValidString_append (String "{" EmptyString)); [done|]. apply ValidString_append; [|done].
    eapply write_members_valid; [|exact E]. intros k v Hv. rewrite lookup_fmap in Hv.
    destruct (m !! k) as [x|] eqn:Ek; [|done]. injection Hv as Hv. by apply (IH k x).
Qed.

(** ** Decoding what was written *)
Definition decodes (v : value) : Prop :=
  forall t, writeCanonicalJSON v = Ok t -> reads (height v) t (norm v).

Lemma decodes_scalar v : scalar v = true -> decodes v.
Proof.
  intros Hv t Ht. destruct (write_scalar v t EmptyString Hv Ht eq_refl) as (c & s & -> & Hc & _).
  apply (reads_weaken 0); [|lia]. apply reads_scalar; [done|]. intros rest Hr.
  by destruct (write_scalar v _ rest Hv Ht Hr) as (c' & s' & [= <- <-] & _ & Hs).
Qed.

Lemma write_elements_text (w : value -> res string) l first t :
  write_elements first (w <$> l) = Ok t ->
  exists ts, t = elements_text first ts /\ Forall2 (fun t v => w v = Ok t) ts l.
Proof.
  revert first t. induction l as [|v l IH]; intros first t; cbn [fmap list_fmap write_elements].
  - intros [= <-]. by exists [].
  - destruct (w v) as [tv|] eqn:Ev; [|done]. cbn [mbind res_bind].
    destruct (write_elements false _) as [tl|] eqn:El; [|done]. cbn [mbind res_bind]. intros [= <-].
    apply IH in El as (ts & -> & Hts). exists (tv :: ts). split; [done|by constructor].
Qed.

Lemma reads_quoted k : reads_key (quoted k) k.
Proof.
  exists (String.append (escape_bytes k) (String quote EmptyString)). split; [done|].
  intros rest. rewrite <- append_assoc. apply read_quoted.
Qed.

(** The members written for the keys [ks]. *)
Lemma write_members_text (m : gmap string value) ks first t :
  write_members (writeCanonicalJSON <$> m) first ks = Ok t ->
  exists ts, t = members_text first ts /\
    Forall2 (fun kt k => kt.1 = quoted k /\ exists v, m !! k = Some v /\ writeCanonicalJSON v = Ok kt.2) ts ks.
Proof.
  revert first t. induction ks as [|k ks IH]; intros first t; cbn [write_members].
  - intros [= <-]. by exists [].
  - destruct (writeCanonicalString k) as [q|] eqn:Eq; [|done]. cbn [mbind res_bind].
    apply writeCanonicalString_ok in Eq as [_ ->].
    rewrite lookup_fmap. destruct (m !! k) as [v|] eqn:Ek; [|done]. cbn [fmap option_fmap option_map default].
    destruct (writeCanonicalJSON v) as [tv|] eqn:Ev; [|done]. cbn [mbind res_bind].
    destruct (write_members _ false ks) as [tl|] eqn:El; [|done]. cbn [mbind res_bind]. intros [= <-].
    apply IH in El as (ts & -> & Hts). exists ((quoted k, tv) :: ts). split; [done|].
    constructor; [|done]. eauto.
Qed.

(** The members of an object in the order of [ks], read back. *)
Definition members_of (m : gmap string value) (ks : list string) : list (string * value) :=
  (fun k => (k, norm (default VNull (m !! k)))) <$> ks.

Lemma members_of_keys m ks : (members_of m ks).*1 = ks.
Proof. unfold members_of. rewrite <- list_fmap_compose. induction ks as [|k ks IH]; [done|]. cbn. by rewrite IH. Qed.

Lemma members_of_all m : list_to_map (members_of m (sortedKeys m)) = norm <$> m.
Proof.
  apply map_eq. intros k. rewrite lookup_fmap. destruct (m !! k) as [v|] eqn:E.
  - cbn. apply elem_of_list_to_map_1; [rewrite members_of_keys; apply sortedKeys_NoDup|].
    apply list_elem_of_fmap. exists k. rewrite E. split; [done|]. apply elem_of_sortedKeys. eauto.
  - cbn. apply not_elem_of_list_to_map_1. rewrite members_of_keys, elem_of_sortedKeys, E. by intros [].
Qed.

Lemma decodes_all v : decodes v.
Proof.
  induction v as [|b|s|lit|z|l IH|m IH] using value_ind; try by apply decodes_scalar.
  - intros t. cbn [writeCanonicalJSON].
    destruct (write_elements true _) as [e|] eqn:E; [|done]. intros [= <-].
    apply write_elements_text in E as (ts & -> & Hts). apply reads_array.
    rewrite Forall2_fmap_r. eapply Forall2_impl_in; [exact Hts|]. cbn beta. intros x v Hv Hx.
    exists (height v). split; [by apply height_array|by apply IH].
  - intros t. cbn [writeCanonicalJSON].
    destruct (write_members _ true _) as [e|] eqn:E; [|done]. intros [= <-].
    apply write_members_text in E as (ts & -> & Hts). cbn [norm]. rewrite <- members_of_all.
    apply reads_object; [|rewrite members_of_keys; apply sortedKeys_NoDup].
    unfold members_of. rewrite Forall2_fmap_r. eapply Forall2_impl; [exact Hts|].
    intros [q x] k (Hq & v & Hk & Hx). cbn in Hq, Hx. subst q. split; [apply reads_quoted|].
    cbn [fst snd]. rewrite Hk. cbn. exists (height v). split; [by apply height_object in Hk|by apply (IH k)].
Qed.

Lemma decode_written m b :
  writeCanonicalJSON (VObject m) = Ok b -> (height (VObject m) <= 64)%nat -> DecodeObject b = Ok (norm <$> m).
Proof. intros Hw Hh. eapply DecodeObject_reads; [by apply (decodes_all (VObject m))|done|by eapply write_valid]. Qed.

Lemma canonicalJSON_write v b : canonicalJSON v = Ok b -> writeCanonicalJSON v = Ok b.
Proof. unfold canonicalJSON. by destruct (rejectUnsupportedJSON v). Qed.

(** ** The numbers keep their values *)
(** The literal is an integer, and this one. *)
Definition int_literal (t : string) (z : Z) : Prop := exists n, scan_number t = Some (n, EmptyString) /\
  num_frac n = None /\ num_exp n = None /\ (if num_neg n then - number_mantissa n else number_mantissa n) = z.

(** One value, as written and as read: literals of one float64, an integer and
    a literal that is this integer, all else alike. *)
Unset Elimination Schemes.
Inductive same_value : value -> value -> Prop :=
| same_null : same_value VNull VNull
| same_bool b : same_value (VBool b) (VBool b)
| same_string s : same_value (VString s) (VString s)
| same_literal lit lit' f g : Float64 lit = Some f -> Float64 lit' = Some g -> same_number f g -> same_value (VNumber lit) (VNumber lit')
| same_int z t : int_literal t z -> same_value (VInt z) (VNumber t)
| same_array l l' : Forall2 same_value l l' -> same_value (VArray l) (VArray l')
| same_object (m m' : gmap string value) : (forall k, m !! k = None <-> m' !! k = None) ->
    (forall k v v', m !! k = Some v -> m' !! k = Some v' -> same_value v v') -> same_value (VObject m) (VObject m').
Set Elimination Schemes.

Lemma int_text_value z : int_literal (int_text z) z.
Proof.
  destruct (decide (z = 0)) as [->|Hz]; [by eexists|].
  set (n := {| num_neg := z <? 0; num_int := dec_text (Z.abs z); num_frac := None; num_exp := None |}). exists n.
  assert (int_text z = String.append (number_text n) EmptyString) as ->.
  { rewrite append_nil_r. unfold int_text, number_text. cbn [num_neg num_int num_frac num_exp n]. rewrite !append_nil_r.
    destruct (Z.ltb_spec z 0); [rewrite append_cons, append_nil_l|rewrite append_nil_l]; repeat f_equal; lia. }
  split.
  - apply scan_number_append; [|done]. unfold number_wf. cbn [n num_int num_frac num_exp].
    rewrite dec_text_digits, dec_text_leading by lia. by rewrite orb_true_r.
  - split_and!; try done. unfold number_mantissa, frac_digits. cbn [n num_neg num_int num_frac default id digits_val].
    rewrite dec_text_val by lia. destruct (Z.ltb_spec z 0); lia.
Qed.

Lemma written_number lit f t : Float64 lit = Some f -> write_float f = Ok t -> exists g, Float64 t = Some g /\ same_number f g.
Proof.
  intros Hf%Float64_writable. destruct f as [neg|neg m e| |]; try done; cbn [write_float].
  - intros [= <-]. by exists (FZero false).
  - destruct (format_float _) as [t'|] eqn:E; [|done]. intros [= <-]. exists (FFinite neg m e).
    split; [by apply formatted_reads|done].
Qed.

Lemma member_written (m : gmap string value) t k v :
  write_members (writeCanonicalJSON <$> m) true (sortedKeys m) = Ok t -> m !! k = Some v -> exists tv, writeCanonicalJSON v = Ok tv.
Proof.
  intros (ts & _ & H)%write_members_text Hk. assert (k ∈ sortedKeys m) as Hin by (apply elem_of_sortedKeys; by exists v).
  apply list_elem_of_lookup in Hin as [i Hi]. destruct (Forall2_lookup_r _ _ _ _ _ H Hi) as ([q x] & _ & _ & v' & Hv & Hx).
  rewrite Hk in Hv. injection Hv as <-. by exists x.
Qed.

Lemma norm_keeps v t : writeCanonicalJSON v = Ok t -> same_value v (norm v).
Proof.
  revert t. induction v as [|b|s|lit|z|l IH|m IH] using value_ind; intros t; cbn [writeCanonicalJSON norm]; try by constructor.
  - unfold norm_number. destruct (Float64 lit) as [f|] eqn:E; [|done]. intros H. rewrite H.
    destruct (written_number _ _ _ E H) as (g & Hg & Hs). by eapply same_literal.
  - intros _. apply same_int, int_text_value.
  - destruct (write_elements true _) as [e|] eqn:E; [|done]. intros _. apply write_elements_text in E as (ts & _ & Hts).
    apply same_array. rewrite Forall2_fmap_r. apply Forall2_same_length_lookup. split; [done|].
    intros i x y Hx Hy. assert (x = y) as <- by congruence. destruct (Forall2_lookup_r _ _ _ _ _ Hts Hx) as (tx & _ & Hw).
    by apply (IH x (list_elem_of_lookup_2 _ _ _ Hx) tx).
  - destruct (write_members _ true _) as [e|] eqn:E; [|done]. intros _. apply same_object.
    + intros k. rewrite lookup_fmap. by destruct (m !! k).
    + intros k v v' Hv. rewrite lookup_fmap, Hv. intros [= <-]. destruct (member_written _ _ _ _ E Hv) as [tv Htv]. by apply (IH k v Hv tv).
Qed.

(** C34: what canonicalJSON writes for an object of at most 64 levels is read
    back by DecodeObject, and with the same value: the same members, elements,
    strings, booleans and nulls; for a number literal one that denotes the same
    float64 (zero without its sign), and for an integer a literal that is
    exactly this integer. *)
Theorem canonical_json_roundtrip m b :
  canonicalJSON (VObject m) = Ok b -> (height (VObject m) <= 64)%nat ->
  exists m', DecodeObject b = Ok m' /\ same_value (VObject m) (VObject m').
Proof.
  intros Hw%canonicalJSON_write Hh. exists (norm <$> m). split; [by apply decode_written|exact (norm_keeps (VObject m) b Hw)].
Qed.

(** Canonical bytes are collision free: two objects with the same
    canonical bytes are the same up to the spelling of their numbers, so a
    signature over the bytes of one is not a signature over another. *)
Theorem canonical_json_injective m1 m2 b :
  canonicalJSON (VObject m1) = Ok b -> canonicalJSON (VObject m2) = Ok b ->
  (height (VObject m1) <= 64)%nat -> (height (VObject m2) <= 64)%nat ->
  norm <$> m1 = norm <$> m2.
Proof.
  intros H1%canonicalJSON_write H2%canonicalJSON_write Hh1 Hh2.
  apply decode_written in H1, H2; [|done..]. congruence.
Qed.

Definition demo_object : gmap string value :=
  <["ts" := VInt 1700000000]> (<["ok" := VBool true]> (<["ku" := VObject (<["n" := VArray [VNumber "2.50"; VNull; VString "a"]]> ∅)]> ∅)).

Lemma canonical_json_roundtrip_witness :
  exists b m', canonicalJSON (VObject demo_object) = Ok b /\ String.length b = 53%nat /\ DecodeObject b = Ok m' /\
    same_value (VObject demo_object) (VObject m').
Proof.
  destruct (canonicalJSON (VObject demo_object)) as [b|] eqn:E; [|vm_compute in E; discriminate].
  destruct (canonical_json_roundtrip demo_object b E) as (m' & Hd & Hs); [vm_compute; lia|].
  exists b, m'. split; [reflexivity|]. split; [|exact (conj Hd Hs)]. vm_compute in E. injection E as <-. reflexivity.
Defined.

Lemma canonical_json_injective_witness :
  norm <$> (<["x" := VNumber "1e2"]> ∅ : gmap string value) = norm <$> (<["x" := VInt 100]> ∅ : gmap string value).
Proof.
  eapply (canonical_json_injective (<["x" := VNumber "1e2"]> ∅) (<["x" := VInt 100]> ∅));
    vm_compute; [reflexivity|reflexivity|lia|lia].
Defined.

(** ** Decoding terminates *)
Lemma span_digits_length s d r : span_digits s = (d, r) -> (String.length r <= String.length s)%nat.
Proof. intros H%span_digits_spec. destruct H as (-> & _ & _). rewrite append_length. lia. Qed.

Lemma getu4_length s r t : getu4 s = Some (r, t) -> (String.length t < String.length s)%nat.
Proof.
  destruct s as [|a [|b [|c [|d s]]]]; try done. cbn [getu4].
  destruct (hex_val a); [|done]. cbn [mbind option_bind].
  destruct (hex_val b); [|done]. cbn [mbind option_bind].
  destruct (hex_val c); [|done]. cbn [mbind option_bind].
  destruct (hex_val d); [|done]. intros [= _ <-]. cbn. lia.
Qed.

Lemma utf16_pair_length r s r' t : utf16_pair r s = (r', t) -> (String.length t <= String.length s)%nat.
Proof.
  unfold utf16_pair. destruct (negb (surrogate r)); [by intros [= _ <-]|].
  destruct s as [|a [|b s]]; [by intros [= _ <-]..|].
  destruct (_ && _); [|by intros [= _ <-]].
  destruct (getu4 s) as [[r2 s2]|] eqn:E; [|by intros [= _ <-]].
  destruct (_ && _); intros [= _ <-]; [apply getu4_length in E; cbn; lia|done].
Qed.

Lemma scan_string_length fuel s t r : scan_string fuel s = Some (t, r) -> (String.length r < String.length s)%nat.
Proof.
  revert s t r. induction fuel as [|fuel IH]; intros [|c s] t r; cbn [scan_string]; try done.
  destruct (Ascii.eqb c quote); [intros [= _ <-]; cbn; lia|].
  destruct (byte_val c <? 32); [done|]. destruct (Ascii.eqb c "\").
  - destruct s as [|d s]; [done|]. destruct (Ascii.eqb d "u").
    + destruct (getu4 s) as [[u s3]|] eqn:E; [|done]. cbn [mbind option_bind].
      destruct (utf16_pair u s3) as [u' s4] eqn:Eu.
      destruct (scan_string fuel s4) as [[t' r']|] eqn:Es; [|done]. intros [= _ <-].
      apply getu4_length in E. apply utf16_pair_length in Eu. apply IH in Es. cbn. lia.
    + match goal with |- (?o ≫= _) = _ -> _ => destruct o; [|done] end. cbn [mbind option_bind].
      destruct (scan_string fuel s) as [[t' r']|] eqn:Es; [|done]. intros [= _ <-]. apply IH in Es. cbn. lia.
  - destruct (scan_string fuel s) as [[t' r']|] eqn:Es; [|done]. intros [= _ <-]. apply IH in Es. cbn. lia.
Qed.

Lemma strip_prefix_length p s r : strip_prefix p s = Some r -> (String.length r <= String.length s)%nat.
Proof. intros ->%strip_prefix_Some. rewrite append_length. lia. Qed.

Lemma read_scalar_length c s v r : read_scalar c s = Some (v, r) -> (String.length r <= String.length s)%nat.
Proof.
  unfold read_scalar. destruct (Ascii.eqb c quote).
  { destruct (read_string s) as [[t r']|] eqn:E; [|done]. intros [= _ <-]. apply scan_string_length in E. lia. }
  destruct (Ascii.eqb c "n"). { destruct (strip_prefix _ s) eqn:E; [|done]. intros [= _ <-]. by eapply strip_prefix_length. }
  destruct (Ascii.eqb c "t"). { destruct (strip_prefix _ s) eqn:E; [|done]. intros [= _ <-]. by eapply strip_prefix_length. }
  destruct (Ascii.eqb c "f"). { destruct (strip_prefix _ s) eqn:E; [|done]. intros [= _ <-]. by eapply strip_prefix_length. }
  destruct (scan_number (String c s)) as [[n r']|] eqn:E; [|done]. intros [= _ <-].
  assert (is_literal (number_text n)) as Hl by (exists n; split; [by eapply scan_number_wf|done]).
  apply scan_number_text in E. destruct (literal_head _ Hl) as (c' & s' & Et & _).
  apply (f_equal String.length) in E. rewrite Et, append_length in E. cbn in E. lia.
Qed.

(** A token consumes input, and its errors are its own. *)
Lemma next_token_result s st stack :
  match next_token s st stack with
  | Ok (_, d) => (String.length (input d) < String.length s)%nat
  | Err e => e <> out_of_fuel
  end.
Proof.
  revert st stack. induction s as [|c s IH]; intros st stack; [done|]. cbn [next_token String.length].
  assert (forall st' stack', match next_token s st' stack' with
    | Ok (_, d) => (String.length (input d) < S (String.length s))%nat | Err e => e <> out_of_fuel end) as Hs.
  { intros st' stack'. specialize (IH st' stack'). destruct (next_token s st' stack') as [[? ?]|]; [lia|done]. }
  destruct (json_space c); [apply Hs|].
  destruct (Ascii.eqb c "["); [destruct (negb _); cbn; [done|lia]|].
  destruct (Ascii.eqb c "]"); [destruct stack; [done|destruct (negb _); cbn; [done|lia]]|].
  destruct (Ascii.eqb c "{"); [destruct (negb _); cbn; [done|lia]|].
  destruct (Ascii.eqb c "}"); [destruct stack; [done|destruct (negb _); cbn; [done|lia]]|].
  destruct (Ascii.eqb c ":"); [destruct (negb _); [done|apply Hs]|].
  destruct (Ascii.eqb c ","); [destruct st; done || apply Hs|].
  destruct (_ && _).
  - destruct (read_string s) as [[t r]|] eqn:E; [|done]. apply scan_string_length in E. cbn. lia.
  - destruct (negb _); [done|]. destruct (read_scalar c s) as [[v r]|] eqn:E; [|done].
    apply read_scalar_length in E. cbn. lia.
Qed.

Definition consumes (d : decoder) (r : res (value * decoder)) : Prop :=
  match r with
  | Ok (_, d') => (String.length (input d') < String.length (input d))%nat
  | Err e => e <> out_of_fuel
  end.

Lemma consumes_le d1 d2 r :
  (String.length (input d1) <= String.length (input d2))%nat -> consumes d1 r -> consumes d2 r.
Proof. unfold consumes. destruct r as [[? ?]|]; [lia|done]. Qed.

Lemma decode_consumes fuel :
  (forall d depth, 2 * String.length (input d) + 1 <= fuel -> consumes d (decodeValue fuel d depth))%nat /\
  (forall obj d depth, 2 * String.length (input d) + 2 <= fuel -> consumes d (decode_members fuel obj d depth))%nat /\
  (forall vs d depth, 2 * String.length (input d) + 2 <= fuel -> consumes d (decode_elements fuel vs d depth))%nat.
Proof.
  induction fuel as [|fuel (IHv & IHm & IHe)]; [repeat split; intros; lia|].
  split; [|split].
  - intros d depth Hf. cbn [decodeValue]. destruct (64 <? depth)%nat; [done|].
    pose proof (next_token_result (input d) (tstate d) (tstack d)) as Ht. unfold Token.
    destruct (next_token _ _ _) as [[t d']|e]; [|exact Ht]. cbn [mbind res_bind].
    destruct t as [c|v]; [|exact Ht]. destruct (Ascii.eqb c "{"); [|destruct (Ascii.eqb c "[")]; [| |done].
    + apply (consumes_le d'); [lia|]. apply IHm. lia.
    + apply (consumes_le d'); [lia|]. apply IHe. lia.
  - intros obj d depth Hf. cbn [decode_members].
    pose proof (next_token_result (input d) (tstate d) (tstack d)) as Ht. unfold Token.
    destruct (next_token _ _ _) as [[t d']|e]; cbn [mbind res_bind]; destruct (More d); try exact Ht.
    destruct t as [|[]]; try done. destruct (bool_decide _); [done|].
    pose proof (IHv d' (S depth) ltac:(lia)) as Hv.
    destruct (decodeValue fuel d' (S depth)) as [[v d'']|e]; [|exact Hv]. cbn [mbind res_bind consumes] in *.
    apply (consumes_le d''); [lia|]. apply IHm. lia.
  - intros vs d depth Hf. cbn [decode_elements]. destruct (More d).
    + pose proof (IHv d (S depth) ltac:(lia)) as Hv.
      destruct (decodeValue fuel d (S depth)) as [[v d'']|e]; [|exact Hv]. cbn [mbind res_bind consumes] in *.
      apply (consumes_le d''); [lia|]. apply IHe. lia.
    + pose proof (next_token_result (input d) (tstate d) (tstack d)) as Ht. unfold Token.
      destruct (next_token _ _ _) as [[t d']|e]; exact Ht.
Qed.

(** DecodeObject always finishes: the fuel given to its loops, twice the
    length of the input, is never used up, and every array element and object
    member consumes input. *)
Theorem decode_object_terminates data : DecodeObject data <> Err out_of_fuel.
Proof.
  unfold DecodeObject. destruct (negb (ValidString data)); [done|].
  destruct (decode_consumes (decode_fuel data)) as (Hv & _ & _).
  specialize (Hv (Decoder data tokenTopValue []) 0%nat). unfold decode_fuel in *. cbn [input] in Hv.
  specialize (Hv ltac:(lia)). destruct (decodeValue _ _ _) as [[v d]|e]; cbn [mbind res_bind consumes] in *; [|congruence].
  destruct (Token d) as [|e]; [done|]. destruct (bool_decide _); [|done]. by destruct v.
Qed.
