(* ===== verification/Marshal.v ===== *)
(** * Marshal: what encoding/json writes, and reading it back

    [json.Marshal] of the values the sources hand to it: strings with its HTML
    escaping, numbers by their literal, maps with sorted keys. [Marshalled]
    states that [DecodeObject] reads such a text back. *)

From Stdlib Require Import ZArith Lia Ascii String.
From S2P Require Import Prelude Codec Utf8 Numbers Jcs JsonRead JcsSpec.

Open Scope Z_scope.

(** ** Writing *)
Definition hex_escape (r : Z) : string :=
  String.append "\u00" (String (hex_digit (Z.shiftr r 4)) (String (hex_digit (Z.land r 15)) EmptyString)).
Definition json_escape (r : Z) : string :=
  if (r =? 34) || (r =? 92) then String "\" (encode_rune r)
  else if r =? 8 then "\b"
  else if r =? 9 then "\t"
  else if r =? 10 then "\n"
  else if r =? 12 then "\f"
  else if r =? 13 then "\r"
  else if (r <? 32) || (r =? 38) || (r =? 60) || (r =? 62) then hex_escape r
  else if (r =? 8232) || (r =? 8233) then String.append "\u202" (String (hex_digit (Z.land r 15)) EmptyString)
  else encode_rune r.

(** [appendString]: a byte that starts no rune becomes [\ufffd]. *)
Fixpoint json_text (fuel : nat) (s : string) : string :=
  match fuel, s with
  | S fuel, String a rest =>
      match decode_rune a rest with
      | Some (r, s') => String.append (json_escape r) (json_text fuel s')
      | None => String.append "\ufffd" (json_text fuel rest)
      end
  | _, _ => EmptyString
  end.
Definition json_string (s : string) : string :=
  String quote (String.append (json_text (String.length s) s) (String quote EmptyString)).

(** Keys of a map are written in byte order. *)
Definition json_keys {A} (m : gmap string A) : list string := sort_strings (map_to_list m).*1.

Fixpoint json_members (parts : gmap string (res string)) (first : bool) (keys : list string) : res string :=
  match keys with
  | [] => Ok EmptyString
  | key :: keys =>
      v ← default (Err (PlainError "")) (parts !! key);
      rest ← json_members parts false keys;
      Ok (String.append (if first then "" else ",")
           (String.append (json_string key) (String ":" (String.append v rest))))%string
  end.

(** A number is its literal ([json.Number] checks it; an empty one is 0). *)
Definition json_number (lit : string) : res string :=
  if is_empty lit then Ok "0"%string
  else match scan_number lit with
       | Some (_, rest) => fail_if negb (is_empty rest) with PlainError "json: invalid number literal" ;; Ok lit
       | None => Err (PlainError "json: invalid number literal")
       end.

Fixpoint json_Marshal (v : value) : res string :=
  match v with
  | VNull => Ok "null"%string
  | VBool b => Ok (if b then "true" else "false")%string
  | VString s => Ok (json_string s)
  | VNumber lit => json_number lit
  | VInt z => Ok (int_text z)
  | VArray l => t ← write_elements true (json_Marshal <$> l); Ok (String "[" (String.append t "]"))
  | VObject m => t ← json_members (json_Marshal <$> m) true (json_keys m); Ok (String "{" (String.append t "}"))
  end.

(** ** Reading back *)

(** The value that is read: integers and numbers have their literal. *)
Fixpoint as_read (v : value) : value :=
  match v with
  | VNumber lit => VNumber (if is_empty lit then "0" else lit)%string
  | VInt z => VNumber (int_text z)
  | VArray l => VArray (as_read <$> l)
  | VObject m => VObject (as_read <$> m)
  | v => v
  end.

(** All strings and keys are UTF-8. *)
Fixpoint utf8_only (v : value) : bool :=
  match v with
  | VString s => ValidString s
  | VArray l => forallb utf8_only l
  | VObject m => forallb (fun kv => ValidString kv.1 && kv.2) (map_to_list (utf8_only <$> m))
  | _ => true
  end.

Lemma utf8_array l v : forallb utf8_only l = true -> v ∈ l -> utf8_only v = true.
Proof. rewrite forallb_forall. intros H Hv. apply H. by apply list_elem_of_In. Qed.

Lemma utf8_object m k v :
  utf8_only (VObject m) = true -> m !! k = Some v -> ValidString k = true /\ utf8_only v = true.
Proof.
  cbn [utf8_only]. rewrite forallb_forall. intros H Hk.
  specialize (H (k, utf8_only v)). apply andb_true_iff. apply H. apply list_elem_of_In, elem_of_map_to_list.
  by rewrite lookup_fmap, Hk.
Qed.

(** *** Strings *)
Lemma scan_low r s fuel :
  0 <= r < 128 ->
  scan_string (S fuel) (String.append (json_escape r) s)
  = '(t, rest) ← scan_string fuel s; Some (String.append (encode_rune r) t, rest).
Proof.
  intros Hr.
  assert (forall n, (n < 128)%nat -> 
    scan_string (S fuel) (String.append (json_escape (Z.of_nat n)) s)
    = '(t, rest) ← scan_string fuel s; Some (String.append (encode_rune (Z.of_nat n)) t, rest)) as H.
  { intros n Hn. do 128 (destruct n as [|n]; [reflexivity|]). lia. }
  specialize (H (Z.to_nat r) ltac:(lia)). by rewrite Z2Nat.id in H by lia.
Qed.

Lemma scan_high t s fuel :
  forall_byte (fun c => 128 <=? byte_val c) t = true ->
  scan_string (String.length t + fuel) (String.append t s)
  = '(u, rest) ← scan_string fuel s; Some (String.append t u, rest).
Proof.
  induction t as [|c t IH]; cbn [forall_byte String.length]; intros Ht.
  - rewrite append_nil_l. cbn [Nat.add]. by destruct (scan_string fuel s) as [[u rest]|].
  - apply andb_true_iff in Ht as [Hc%Z.leb_le Ht]. rewrite append_cons. cbn [Nat.add scan_string].
    assert (Ascii.eqb c quote = false) as ->.
    { apply Ascii.eqb_neq. intros ->. change (byte_val quote) with 34 in Hc. lia. }
    destruct (Z.ltb_spec (byte_val c) 32); [lia|].
    assert (Ascii.eqb c "\" = false) as ->.
    { apply Ascii.eqb_neq. intros ->. change (byte_val "\") with 92 in Hc. lia. }
    rewrite IH by done. by destruct (scan_string fuel s) as [[u rest]|].
Qed.

Lemma json_escape_high r : 128 <= r -> r <> 8232 -> r <> 8233 -> json_escape r = encode_rune r.
Proof.
  intros H H1 H2. unfold json_escape.
  repeat match goal with
  | |- context [?a =? ?b] => destruct (Z.eqb_spec a b); [lia|]
  | |- context [?a <? ?b] => destruct (Z.ltb_spec a b); [lia|]
  end. done.
Qed.

Lemma scan_rune r :
  valid_rune r = true ->
  exists n, (n <= String.length (json_escape r))%nat /\ forall s fuel,
    scan_string (n + fuel) (String.append (json_escape r) s)
    = '(t, rest) ← scan_string fuel s; Some (String.append (encode_rune r) t, rest).
Proof.
  intros Hv. assert (0 <= r) as H0 by (unfold valid_rune in Hv; rewrite !andb_true_iff, !Z.leb_le in Hv; lia).
  destruct (Z.ltb_spec r 128).
  - exists 1%nat. split; [|intros; by rewrite scan_low].
    assert (Nat.leb 1 (String.length (json_escape r)) = true) as H1%Nat.leb_le; [|done].
    apply (forall_below 128 (fun r => Nat.leb 1 (String.length (json_escape r)))); [by vm_compute|lia].
  - destruct (decide (r = 8232)) as [->|]; [exists 1%nat; split; [vm_compute; lia|done]|].
    destruct (decide (r = 8233)) as [->|]; [exists 1%nat; split; [vm_compute; lia|done]|].
    rewrite json_escape_high by done. exists (String.length (encode_rune r)). split; [done|].
    intros. by apply scan_high, encode_rune_high.
Qed.

Lemma json_text_enough n m s : (String.length s <= n)%nat -> (String.length s <= m)%nat -> json_text n s = json_text m s.
Proof.
  revert m s. induction n as [|n IH]; intros [|m] [|a s]; cbn [String.length json_text]; try done; try lia. intros.
  destruct (decode_rune a s) as [[r s']|] eqn:E.
  - apply decode_rune_length in E. f_equal. apply IH; lia.
  - f_equal. apply IH; lia.
Qed.

Lemma json_text_cons a s r s' :
  decode_rune a s = Some (r, s') ->
  json_text (String.length (String a s)) (String a s) = String.append (json_escape r) (json_text (String.length s') s').
Proof.
  intros E. cbn [String.length json_text]. rewrite E. apply decode_rune_length in E.
  f_equal. apply json_text_enough; lia.
Qed.

Lemma read_json_text s :
  ValidString s = true ->
  forall fuel rest, (String.length (json_text (String.length s) s) < fuel)%nat ->
  scan_string fuel (String.append (json_text (String.length s) s) (String quote rest)) = Some (s, rest).
Proof.
  revert s. apply (valid_string_ind (fun s => forall fuel rest, (String.length (json_text (String.length s) s) < fuel)%nat ->
    scan_string fuel (String.append (json_text (String.length s) s) (String quote rest)) = Some (s, rest))).
  - intros [|fuel] rest; cbn [String.length json_text]; [lia|]. done.
  - intros a s r s' E _ IH fuel rest. rewrite (json_text_cons a s r s' E), append_length, <- append_assoc. intros Hf.
    destruct (decode_rune_encode a s r s' E) as [Hv Heq].
    destruct (scan_rune r Hv) as (n & Hn & H).
    replace fuel with (n + (fuel - n))%nat by lia. rewrite H, IH by lia. cbn [mbind option_bind]. by rewrite Heq.
Qed.

Lemma json_string_key k : ValidString k = true -> reads_key (json_string k) k.
Proof.
  intros Hk. exists (String.append (json_text (String.length k) k) (String quote EmptyString)). split; [done|].
  intros rest. rewrite <- append_assoc. apply read_json_text; [done|]. rewrite !append_length. cbn [String.length]. lia.
Qed.

(** *** Numbers, arrays and objects *)
Lemma json_number_literal lit t :
  json_number lit = Ok t -> is_literal t /\ VNumber t = as_read (VNumber lit).
Proof.
  unfold json_number. cbn [as_read]. destruct (is_empty lit) eqn:E.
  - intros [= <-]. split; [apply zero_literal|done].
  - destruct (scan_number lit) as [[n rest]|] eqn:Hs; [|done]. destruct (is_empty rest) eqn:Er; [|done].
    apply is_empty_true in Er as ->. intros [= <-]. split; [|done].
    exists n. split; [by eapply scan_number_wf|]. apply scan_number_text in Hs. by rewrite append_nil_r in Hs.
Qed.

Lemma reads_literal t : is_literal t -> reads 0 t (VNumber t).
Proof.
  intros H. destruct (literal_scalar t EmptyString H eq_refl) as (c & s & -> & Hc & _).
  apply reads_scalar; [done|]. intros rest Hr.
  by destruct (literal_scalar _ rest H Hr) as (c' & s' & [= <- <-] & _ & Hs).
Qed.

Definition marshalled (v : value) : Prop :=
  forall t, json_Marshal v = Ok t -> utf8_only v = true ->
    reads (height v) t (as_read v) /\ ValidString t = true.

Lemma json_members_text (m : gmap string value) ks first t :
  json_members (json_Marshal <$> m) first ks = Ok t ->
  exists ts, t = members_text first ts /\
    Forall2 (fun kt k => kt.1 = json_string k /\ exists v, m !! k = Some v /\ json_Marshal v = Ok kt.2) ts ks.
Proof.
  revert first t. induction ks as [|k ks IH]; intros first t; cbn [json_members].
  - intros [= <-]. by exists [].
  - rewrite lookup_fmap. destruct (m !! k) as [v|] eqn:Ek; [|done]. cbn [fmap option_fmap option_map default].
    destruct (json_Marshal v) as [tv|] eqn:Ev; [|done]. cbn [mbind res_bind].
    destruct (json_members _ false ks) as [tl|] eqn:El; [|done]. cbn [mbind res_bind]. intros [= <-].
    apply IH in El as (ts & -> & Hts). exists ((json_string k, tv) :: ts). split; [done|].
    constructor; [|done]. eauto.
Qed.

Lemma json_keys_spec {A} (m : gmap string A) : NoDup (json_keys m) /\ forall k, k ∈ json_keys m <-> is_Some (m !! k).
Proof.
  unfold json_keys. split.
  - rewrite sort_strings_perm. apply NoDup_fst_map_to_list.
  - intros k. rewrite sort_strings_perm, list_elem_of_fmap. split.
    + intros ([k' v] & -> & H%elem_of_map_to_list). by exists v.
    + intros [v H]. exists (k, v). by rewrite elem_of_map_to_list.
Qed.

(** *** The text is UTF-8 *)
Lemma json_escape_valid r : valid_rune r = true -> ValidString (json_escape r) = true.
Proof.
  intros Hv. assert (0 <= r) by (unfold valid_rune in Hv; rewrite !andb_true_iff, !Z.leb_le in Hv; lia).
  destruct (Z.ltb_spec r 128).
  - apply ascii_valid. apply (forall_below 128 (fun r => ascii_only (json_escape r))); [by vm_compute|lia].
  - destruct (decide (r = 8232)) as [->|]; [done|]. destruct (decide (r = 8233)) as [->|]; [done|].
    rewrite json_escape_high by done. by apply encode_rune_valid.
Qed.

Lemma json_string_valid s : ValidString s = true -> ValidString (json_string s) = true.
Proof.
  intros Hs. unfold json_string.
  apply (ValidString_append (String quote EmptyString)); [done|]. apply ValidString_append; [|done].
  revert s Hs. apply valid_string_ind; [done|]. intros a s r s' E _ IH. rewrite (json_text_cons a s r s' E).
  apply ValidString_append; [|done]. apply json_escape_valid. by apply decode_rune_encode in E as [? _].
Qed.

Lemma elements_text_valid first ts : Forall (fun t => ValidString t = true) ts -> ValidString (elements_text first ts) = true.
Proof.
  intros H. revert first. induction H as [|t ts Ht _ IH]; intros first; [done|]. cbn [elements_text].
  apply ValidString_append; [by destruct first|]. by apply ValidString_append.
Qed.

Lemma members_text_valid first ts :
  Forall (fun kt => ValidString kt.1 = true /\ ValidString kt.2 = true) ts -> ValidString (members_text first ts) = true.
Proof.
  intros H. revert first. induction H as [|[k t] ts [Hk Ht] _ IH]; intros first; [done|]. cbn [members_text fst snd] in *.
  apply ValidString_append; [by destruct first|]. apply ValidString_append; [done|].
  apply (ValidString_append (String ":" EmptyString)); [done|]. by apply ValidString_append.
Qed.

Lemma wrapped_valid a t b : ValidString (String a EmptyString) = true -> ValidString (String b EmptyString) = true ->
  ValidString t = true -> ValidString (String a (String.append t (String b EmptyString))) = true.
Proof. intros Ha Hb Ht. apply (ValidString_append (String a EmptyString)); [done|]. by apply ValidString_append. Qed.

(** *** Every value *)
Lemma as_read_members m : list_to_map ((fun k => (k, as_read (default VNull (m !! k)))) <$> json_keys m) = as_read <$> m.
Proof.
  destruct (json_keys_spec m) as [Hnd Hk].
  assert (((fun k => (k, as_read (default VNull (m !! k)))) <$> json_keys m).*1 = json_keys m) as Hkeys.
  { rewrite <- list_fmap_compose. clear. induction (json_keys m) as [|k l IH]; [done|]. cbn. by rewrite IH. }
  apply map_eq. intros k. rewrite lookup_fmap. destruct (m !! k) as [v|] eqn:E.
  - cbn. apply elem_of_list_to_map_1; [by rewrite Hkeys|].
    apply list_elem_of_fmap. exists k. rewrite E. split; [done|]. apply Hk. eauto.
  - cbn. apply not_elem_of_list_to_map_1. rewrite Hkeys, Hk, E. by intros [].
Qed.

Lemma marshalled_array l : (forall v, v ∈ l -> marshalled v) -> marshalled (VArray l).
Proof.
  intros IH t. cbn [json_Marshal]. destruct (write_elements true _) as [e|] eqn:E; [|done]. intros [= <-] Hu.
  apply write_elements_text in E as (ts & -> & Hts).
  assert (Forall2 (fun t v => fits (height (VArray l)) t (as_read v) /\ ValidString t = true) ts l) as H.
  { eapply Forall2_impl_in; [exact Hts|]. cbn beta. intros x v Hv Hx.
    destruct (IH v Hv x Hx (utf8_array l v Hu Hv)) as [Hr Hval]. split; [|done].
    exists (height v). split; [by apply height_array|done]. }
  split.
  - apply reads_array. rewrite Forall2_fmap_r. eapply Forall2_impl; [exact H|]. by intros ?? [].
  - apply wrapped_valid; [done|done|]. apply elements_text_valid.
    eapply Forall2_Forall_l; [exact H|]. apply Forall_true. by intros ?? [].
Qed.

Lemma marshalled_object m : (forall k v, m !! k = Some v -> marshalled v) -> marshalled (VObject m).
Proof.
  intros IH t. cbn [json_Marshal]. destruct (json_members _ true _) as [e|] eqn:E; [|done]. intros [= <-] Hu.
  apply json_members_text in E as (ts & -> & Hts).
  assert (Forall2 (fun kt k => fits_member (height (VObject m)) kt (k, as_read (default VNull (m !! k)))
            /\ ValidString kt.1 = true /\ ValidString kt.2 = true) ts (json_keys m)) as H.
  { eapply Forall2_impl; [exact Hts|]. intros [q x] k (Hq & v & Hk & Hx). cbn in Hq, Hx. subst q.
    destruct (utf8_object m k v Hu Hk) as [Huk Huv]. destruct (IH k v Hk x Hx Huv) as [Hr Hval]. cbn [fst snd].
    rewrite Hk. cbn [default]. split; [|split; [by apply json_string_valid|done]].
    split; [by apply json_string_key|]. exists (height v). split; [by apply height_object in Hk|done]. }
  split.
  - cbn [as_read]. rewrite <- as_read_members. apply reads_object.
    + rewrite Forall2_fmap_r. eapply Forall2_impl; [exact H|]. by intros ?? [].
    + rewrite <- list_fmap_compose. cbn. rewrite list_fmap_id. apply json_keys_spec.
  - apply wrapped_valid; [done|done|]. apply members_text_valid.
    eapply Forall2_Forall_l; [exact H|]. apply Forall_true. by intros ?? [].
Qed.

Lemma marshalled_all v : marshalled v.
Proof.
  induction v as [|b|s|lit|z|l IH|m IH] using value_ind; [..|by apply marshalled_array|by apply marshalled_object];
    intros t; cbn [json_Marshal utf8_only height as_read]; intros Ht Hu.
  - injection Ht as <-. split; [|done]. by apply reads_scalar.
  - injection Ht as <-. destruct b; (split; [|done]); by apply reads_scalar.
  - injection Ht as <-. split; [by apply reads_string, json_string_key|by apply json_string_valid].
  - apply json_number_literal in Ht as [Hl Hn]. cbn [as_read] in Hn. rewrite <- Hn. split; [by apply reads_literal|].
    apply ascii_valid. by destruct (literal_head t Hl) as (c & s & _ & _ & ?).
  - injection Ht as <-. pose proof (int_text_literal z) as Hl. split; [by apply reads_literal|].
    apply ascii_valid. by destruct (literal_head _ Hl) as (c & s & _ & _ & ?).
Qed.

(** What [json.Marshal] writes for a map is read back by [DecodeObject]. *)
Lemma decode_marshalled m t :
  json_Marshal (VObject m) = Ok t -> utf8_only (VObject m) = true -> (height (VObject m) <= 64)%nat ->
  DecodeObject t = Ok (as_read <$> m).
Proof.
  intros Ht Hu Hh. destruct (marshalled_all (VObject m) t Ht Hu) as [Hr Hv]. by eapply DecodeObject_reads.
Qed.
