(* ===== verification/Json.v ===== *)
(** * Json: JSON values and what encoding/json does with them

    Documents are taken at the level of values: a [json.RawMessage] is one,
    and bytes that are not a document are [Torn]. Decoding into a struct
    matches field names case-insensitively, lets the last occurrence win, and
    ignores unknown fields. *)

From Stdlib Require Import ZArith Lia Ascii String.
From S2P Require Import Prelude.

Open Scope Z_scope.

#[local] Set Warnings "-register-all".

(** Numbers keep their literal. *)
Inductive json :=
| JNull
| JBool (b : bool)
| JNumber (lit : string)
| JString (s : string)
| JArray (l : list json)
| JObject (fields : list (string * json)).

(** The bytes handed to [json.Unmarshal]: one document, or not one (an empty
    or partly written file, say). *)
Inductive content := Doc (j : json) | Torn.

(** [foldName] of encoding/json: ASCII letters are lowered, and the Kelvin
    sign (E2 84 AA) and the long s (C5 BF), whose simple foldings are ASCII
    letters, fold to [k] and [s]. *)
Fixpoint fold_special (s : string) : string :=
  match s with
  | String a s' =>
      match s' with
      | String b rest =>
          if (byte_val a =? 197) && (byte_val b =? 191) then String "s" (fold_special rest)
          else match rest with
               | String c rest' =>
                   if (byte_val a =? 226) && (byte_val b =? 132) && (byte_val c =? 170)
                   then String "k" (fold_special rest')
                   else String a (fold_special s')
               | EmptyString => String a (fold_special s')
               end
      | EmptyString => s
      end
  | EmptyString => s
  end.
Definition fold_name (s : string) : string := to_lower (fold_special s).
Definition field_match (key name : string) : bool :=
  str_eqb key name || str_eqb (fold_name key) (fold_name name).

(** The value of a string field after decoding into a zero struct: null has
    no effect, any other value that is not a string is an error ([None]). *)
Definition string_field (name : string) (fields : list (string * json)) : option string :=
  fold_left (fun acc f =>
    acc ← acc;
    if field_match f.1 name then
      match f.2 with JString s => Some s | JNull => Some acc | _ => None end
    else Some acc) fields (Some EmptyString).

(** The raw messages a slice field decodes to: null leaves it nil. *)
Definition raw_slice (j : json) : option (list json) :=
  match j with JArray l => Some l | JNull => Some [] | _ => None end.
Definition slice_field (name : string) (fields : list (string * json)) : option (list json) :=
  fold_left (fun acc f =>
    acc ← acc; if field_match f.1 name then raw_slice f.2 else Some acc) fields (Some []).

Definition object_fields (j : json) : option (list (string * json)) :=
  match j with JObject fields => Some fields | JNull => Some [] | _ => None end.
