(* ===== verification/JsonDoc.v ===== *)
(** * JsonDoc: encoding/json on the bytes of a document

    [json.Unmarshal] of a response body: the whole text must be one document
    (duplicate keys allowed, bytes that are not UTF-8 replaced), which is then
    stored into a struct of strings or a [map[string]any]. The documents are
    the values of Json.v. *)

From Stdlib Require Import ZArith Lia Ascii String.
From S2P Require Import Prelude Codec Utf8 Numbers Jcs JcsSpec Json.

Open Scope Z_scope.

(** ** Reading *)
Fixpoint skip_spaces (s : string) : string :=
  match s with String c s' => if json_space c then skip_spaces s' else s | EmptyString => s end.

(** The text of a string: what is not UTF-8 becomes U+FFFD, byte by byte. *)
Fixpoint replace_invalid (fuel : nat) (s : string) : string :=
  match fuel, s with
  | S fuel, String a rest =>
      match decode_rune a rest with
      | Some (r, s') => String.append (encode_rune r) (replace_invalid fuel s')
      | None => String.append (encode_rune RuneError) (replace_invalid fuel rest)
      end
  | _, _ => EmptyString
  end.
Definition text_of (s : string) : string := replace_invalid (String.length s) s.

Definition scalar_of (v : value) : json :=
  match v with
  | VNull => JNull | VBool b => JBool b | VString s => JString (text_of s) | VNumber lit => JNumber lit
  | VInt _ | VArray _ | VObject _ => JNull  (* not read as scalars *)
  end.

Definition maxNestingDepth : Z := 10000.
Definition depth_error : error := PlainError "exceeded max depth".

Fixpoint doc_value (fuel : nat) (depth : Z) (s : string) : res (json * string) :=
  match fuel with
  | O => Err out_of_fuel
  | S fuel =>
      match skip_spaces s with
      | EmptyString => Err syntax_error
      | String c s =>
          if Ascii.eqb c "{" then
            fail_if maxNestingDepth <? depth + 1 with depth_error ;;
            match skip_spaces s with
            | String "}" rest => Ok (JObject [], rest)
            | s => '(fields, rest) ← doc_members fuel (depth + 1) s; Ok (JObject fields, rest)
            end
          else if Ascii.eqb c "[" then
            fail_if maxNestingDepth <? depth + 1 with depth_error ;;
            match skip_spaces s with
            | String "]" rest => Ok (JArray [], rest)
            | s => '(l, rest) ← doc_elements fuel (depth + 1) s; Ok (JArray l, rest)
            end
          else match read_scalar c s with Some (v, rest) => Ok (scalar_of v, rest) | None => Err syntax_error end
      end
  end
with doc_members (fuel : nat) (depth : Z) (s : string) : res (list (string * json) * string) :=
  match fuel with
  | O => Err out_of_fuel
  | S fuel =>
      match skip_spaces s with
      | String q s =>
          if Ascii.eqb q quote then
            match read_string s with
            | None => Err syntax_error
            | Some (name, s) =>
                match skip_spaces s with
                | String ":" s =>
                    '(v, s) ← doc_value fuel depth s;
                    match skip_spaces s with
                    | String "," s => '(fields, rest) ← doc_members fuel depth s; Ok ((text_of name, v) :: fields, rest)
                    | String "}" rest => Ok ([(text_of name, v)], rest)
                    | _ => Err syntax_error
                    end
                | _ => Err syntax_error
                end
            end
          else Err syntax_error
      | EmptyString => Err syntax_error
      end
  end
with doc_elements (fuel : nat) (depth : Z) (s : string) : res (list json * string) :=
  match fuel with
  | O => Err out_of_fuel
  | S fuel =>
      '(v, s) ← doc_value fuel depth s;
      match skip_spaces s with
      | String "," s => '(l, rest) ← doc_elements fuel depth s; Ok (v :: l, rest)
      | String "]" rest => Ok ([v], rest)
      | _ => Err syntax_error
      end
  end.

Definition json_document (data : string) : res json :=
  '(v, rest) ← doc_value (2 * String.length data + 2) 0 data;
  fail_if negb (is_empty (skip_spaces rest)) with syntax_error ;;
  Ok v.

(** ** Storing *)
Definition type_error : error := PlainError "json: cannot unmarshal value".

(** The numbers of a document that becomes an [any] must be float64. *)
Fixpoint floats_only (j : json) : bool :=
  match j with
  | JNumber lit => bool_decide (is_Some (Float64 lit))
  | JArray l => forallb floats_only l
  | JObject fields => forallb (fun f => floats_only f.2) fields
  | _ => true
  end.
(** [json.Unmarshal] into a [map[string]any]; null leaves it nil. *)
Definition Unmarshal_map (data : string) : res (list (string * json)) :=
  j ← json_document data;
  match object_fields j with
  | Some fields => fail_if negb (floats_only j) with type_error ;; Ok fields
  | None => Err type_error
  end.
(** The value of a key: the last occurrence. *)
Fixpoint json_lookup (name : string) (fields : list (string * json)) : option json :=
  match fields with
  | [] => None
  | (k, v) :: fields =>
      match json_lookup name fields with
      | Some w => Some w
      | None => if str_eqb k name then Some v else None
      end
  end.
Definition json_text_of (v : option json) : string := match v with Some (JString s) => s | _ => EmptyString end.

(** A string field of a struct whose decoding error is ignored: a value of
    another type leaves the field as it is, and decoding goes on. *)
Definition lenient_field (name : string) (fields : list (string * json)) : string :=
  fold_left (fun acc f => if field_match f.1 name then match f.2 with JString s => s | _ => acc end else acc) fields EmptyString.

(** ** The fuel is never used up *)
Lemma skip_spaces_length s : (String.length (skip_spaces s) <= String.length s)%nat.
Proof. induction s as [|c s IH]; [done|]. cbn. destruct (json_space c); cbn; lia. Qed.

Definition shorter {A} (s : string) (r : res (A * string)) : Prop :=
  match r with Ok (_, rest) => (String.length rest < String.length s)%nat | Err e => e <> out_of_fuel end.

Lemma doc_shorter fuel :
  (forall depth s, 2 * String.length s + 1 <= fuel -> shorter s (doc_value fuel depth s))%nat /\
  (forall depth s, 2 * String.length s + 1 <= fuel -> shorter s (doc_members fuel depth s))%nat /\
  (forall depth s, 2 * String.length s + 2 <= fuel -> shorter s (doc_elements fuel depth s))%nat.
Proof.
  induction fuel as [|fuel (IHv & IHm & IHe)]; [split_and!; intros; lia|].
  split_and!; intros depth s Hf.
  - cbn [doc_value]. pose proof (skip_spaces_length s) as Hs. destruct (skip_spaces s) as [|c s1]; [done|]. cbn [String.length] in Hs.
    pose proof (skip_spaces_length s1) as Hs1. destruct (Ascii.eqb c "{"); [|destruct (Ascii.eqb c "[")].
    + destruct (maxNestingDepth <? depth + 1); [done|]. assert (forall s2, (String.length s2 <= String.length s1)%nat ->
        shorter s ('(fields, rest) ← doc_members fuel (depth + 1) s2; Ok (JObject fields, rest))) as H.
      { intros s2 H2. pose proof (IHm (depth + 1) s2 ltac:(lia)) as H. destruct (doc_members _ _ s2) as [[fields rest]|]; [|exact H]. cbn in *. lia. }
      destruct (skip_spaces s1) as [|d s2]; [by apply H|].
      destruct (decide (d = "}"%char)) as [->|Hd]; [cbn in *; lia|].
      specialize (H _ Hs1). by destruct d as [[] [] [] [] [] [] [] []].
    + destruct (maxNestingDepth <? depth + 1); [done|]. assert (forall s2, (String.length s2 <= String.length s1)%nat ->
        shorter s ('(l, rest) ← doc_elements fuel (depth + 1) s2; Ok (JArray l, rest))) as H.
      { intros s2 H2. pose proof (IHe (depth + 1) s2 ltac:(lia)) as H. destruct (doc_elements _ _ s2) as [[l rest]|]; [|exact H]. cbn in *. lia. }
      destruct (skip_spaces s1) as [|d s2]; [by apply H|].
      destruct (decide (d = "]"%char)) as [->|Hd]; [cbn in *; lia|].
      specialize (H _ Hs1). by destruct d as [[] [] [] [] [] [] [] []].
    + destruct (read_scalar c s1) as [[v rest]|] eqn:E; [|done]. apply read_scalar_length in E. cbn. lia.
  - cbn [doc_members]. pose proof (skip_spaces_length s) as Hs. destruct (skip_spaces s) as [|q s1]; [done|]. cbn [String.length] in Hs.
    destruct (Ascii.eqb q quote); [|done]. destruct (read_string s1) as [[name s2]|] eqn:E; [|done]. apply scan_string_length in E.
    pose proof (skip_spaces_length s2) as Hs2. destruct (skip_spaces s2) as [|c s3]; [done|]. cbn [String.length] in Hs2.
    destruct (decide (c = ":"%char)) as [->|Hc]; [|by destruct c as [[] [] [] [] [] [] [] []]].
    pose proof (IHv depth s3 ltac:(lia)) as Hv. destruct (doc_value fuel depth s3) as [[v s4]|]; [|exact Hv]. cbn [mbind res_bind shorter] in *.
    pose proof (skip_spaces_length s4) as Hs4. destruct (skip_spaces s4) as [|d s5]; [done|]. cbn [String.length] in Hs4.
    destruct (decide (d = ","%char)) as [->|Hd]; [|destruct (decide (d = "}"%char)) as [->|Hd']; [cbn; lia|by destruct d as [[] [] [] [] [] [] [] []]]].
    pose proof (IHm depth s5 ltac:(lia)) as Hm. destruct (doc_members fuel depth s5) as [[fields rest]|]; [|exact Hm]. cbn in *. lia.
  - cbn [doc_elements]. pose proof (IHv depth s ltac:(lia)) as Hv. destruct (doc_value fuel depth s) as [[v s4]|]; [|exact Hv]. cbn [mbind res_bind shorter] in *.
    pose proof (skip_spaces_length s4) as Hs4. destruct (skip_spaces s4) as [|d s5]; [done|]. cbn [String.length] in Hs4.
    destruct (decide (d = ","%char)) as [->|Hd]; [|destruct (decide (d = "]"%char)) as [->|Hd']; [cbn; lia|by destruct d as [[] [] [] [] [] [] [] []]]].
    pose proof (IHe depth s5 ltac:(lia)) as Hm. destruct (doc_elements fuel depth s5) as [[l rest]|]; [|exact Hm]. cbn in *. lia.
Qed.

(** Reading a document always ends. *)
Lemma json_document_terminates data : json_document data <> Err out_of_fuel.
Proof.
  unfold json_document. pose proof (proj1 (doc_shorter (2 * String.length data + 2)) 0 data ltac:(lia)) as H.
  destruct (doc_value _ _ _) as [[v rest]|e]; [cbn; by destruct (negb _)|]. cbn in *. by intros [= ->].
Qed.

(** Texts of examples, with apostrophes for quotation marks. *)
Fixpoint with_quotes (s : string) : string :=
  match s with String c s => String (if Ascii.eqb c "'" then quote else c) (with_quotes s) | EmptyString => EmptyString end.
Example reads_document :
  json_document (with_quotes " { 'a' : [1, {'b':null}, '\u00e9'] ,'a':true} ")
  = Ok (JObject [("a", JArray [JNumber "1"; JObject [("b", JNull)]; JString (encode_rune 233)]); ("a", JBool true)])%string.
Proof. vm_compute. reflexivity. Qed.
Example refuses_documents :
  is_ok <$> (json_document ∘ with_quotes <$> ["{'a':1,}"; "[1 2]"; "01"; "{'a' 1}"; "{} x"; ""; "nul"; "'\x'"; "{'a':-}"]%string) = replicate 9 false.
Proof. vm_compute. reflexivity. Qed.
