(* ===== verification/Keys.v ===== *)
(** * Keys: the JWK interface and the signature checks of cryptoutil

    [KeyOps] is what the sources use of a [jwk.Key] (lestrrat-go/jwx) and of
    the two public-key primitives; it is the interface every later component
    is proved against. [Cryptoutil] models internal/cryptoutil: canonical
    Ed25519 keys, raw ES256 signatures and the low-S conversion from DER. *)

From Stdlib Require Import ZArith Lia Ascii String.
From S2P Require Import Prelude Codec.

Open Scope Z_scope.

(** [key.KeyType()] and [Crv()] of a JWK. *)
Inductive KeyType := OKP | EC | OtherKeyType.
Inductive Curve := Ed25519 | P256 | OtherCurve.
#[export] Instance KeyType_eq_dec : EqDecision KeyType.
Proof. solve_decision. Defined.
#[export] Instance Curve_eq_dec : EqDecision Curve.
Proof. solve_decision. Defined.

(** The third-party and primitive operations on keys. [option] results are the
    Go [(value, ok)] or [(value, err)] pairs. *)
Class KeyOps (key : Type) := {
  key_eq_dec :: EqDecision key;
  thumbprint_sum : key -> option string;      (* key.Thumbprint(crypto.SHA256) *)
  key_id : key -> option string;              (* key.KeyID() *)
  key_type : key -> KeyType;                  (* key.KeyType() *)
  key_crv : key -> option Curve;              (* the optional Crv() accessor *)
  key_algorithm : key -> option string;       (* key.Algorithm() *)
  key_usage : key -> option string;           (* key.KeyUsage() *)
  key_is_private : key -> option bool;        (* jwk.IsPrivateKey *)
  export_ed25519 : key -> option string;      (* jwk.Export to ed25519.PublicKey *)
  export_p256 : key -> option string;         (* jwk.Export to ecdsa.PublicKey *)
  p256_valid : string -> bool;                (* ValidateP256PublicKey *)
  ed25519_verify : string -> string -> string -> bool;  (* ed25519.Verify *)
  ecdsa_verify : string -> string -> Z -> Z -> bool     (* ecdsa.Verify *)
}.

(** [keyThumbprint] (log.go:514) and [thumbprint] (event.go:740). *)
Definition keyThumbprint {key} `{KeyOps key} (k : option key) : res string :=
  match k with
  | None => Err (PlainError "missing key")
  | Some k =>
      match thumbprint_sum k with
      | None => Err (PlainError "thumbprint")
      | Some sum => Ok (Base64.encode sum)
      end
  end.

Module Cryptoutil.

Definition ES256SignatureSize : nat := 64.
Definition P256Order : Z :=
  115792089210356248762697446949407573529996955224135760342422259061068512044369.
(** [new(big.Int).Rsh(P256Order, 1)]. *)
Definition P256HalfOrder : Z := Z.shiftr P256Order 1.

(** [new(big.Int).SetBytes]. *)
Fixpoint be_value (acc : Z) (s : string) : Z :=
  match s with EmptyString => acc | String c s' => be_value (acc * 256 + byte_val c) s' end.
Definition set_bytes (s : string) : Z := be_value 0 s.

Definition ES256RawRS (sig : string) : Z * Z :=
  (set_bytes (str_take 32 sig), set_bytes (str_drop 32 sig)).

Definition ValidES256Signature (sig : string) : bool :=
  if negb (String.length sig =? ES256SignatureSize)%nat then false
  else let '(r, s) := ES256RawRS sig in
       if (r =? 0) || (s =? 0) then false
       else (r <? P256Order) && (s <? P256Order).

(** [x.FillBytes(buf)] for a 32-byte buffer. *)
Definition fill_bytes32 (x : Z) : string := Sha256.of_bytes (Sha256.be_bytes 32 x).

(** [ES256RawFromDER]: [asn1_unmarshal] is [asn1.Unmarshal] into the pair of
    integers; the leftover bytes come second. *)
Definition ES256RawFromDER (asn1_unmarshal : string -> option (Z * Z * string))
    (der : string) : res string :=
  match asn1_unmarshal der with
  | None => Err (PlainError "dnsid: invalid ES256 signer output")
  | Some (r, s, rest) =>
      fail_if negb (is_empty rest) with PlainError "dnsid: invalid ES256 signer output" ;;
      fail_if (r <=? 0) || (s <=? 0) || (P256Order <=? r) || (P256Order <=? s)
        with PlainError "dnsid: invalid ES256 signer output" ;;
      let s' := if P256HalfOrder <? s then P256Order - s else s in
      Ok (String.append (fill_bytes32 r) (fill_bytes32 s'))
  end.

Definition from_hex_digit (c : ascii) : Z :=
  let n := byte_val c in if n <=? 57 then n - 48 else n - 87.
Fixpoint from_hex (s : string) : string :=
  match s with
  | String a (String b s') =>
      String (byte_of (from_hex_digit a * 16 + from_hex_digit b)) (from_hex s')
  | _ => EmptyString
  end.

Definition ed25519SmallOrder : list string := from_hex <$>
  ["0100000000000000000000000000000000000000000000000000000000000000";
   "0100000000000000000000000000000000000000000000000000000000000080";
   "ecffffffffffffffffffffffffffffffffffffffffffffffffffffffffffff7f";
   "ecffffffffffffffffffffffffffffffffffffffffffffffffffffffffffffff";
   "0000000000000000000000000000000000000000000000000000000000000000";
   "0000000000000000000000000000000000000000000000000000000000000080";
   "26e8958fc2b227b045c3f489f2ef98f0d5dfac05d3c63339b13802886d53fc05";
   "26e8958fc2b227b045c3f489f2ef98f0d5dfac05d3c63339b13802886d53fc85";
   "c7176a703d4dd84fba3c0b760d10670f2a2053fa2c39ccc64ec7fd7792ac037a";
   "c7176a703d4dd84fba3c0b760d10670f2a2053fa2c39ccc64ec7fd7792ac03fa"]%string.

(** Canonical encoding ([y < p], sign bit ignored) of a point that is not of
    small order. *)
Definition ValidEd25519PublicKey (pub : string) : bool :=
  if negb (String.length pub =? 32)%nat then false
  else
    let y := Sha256.bytes_of pub in
    let y31 := Z.land (List.nth 31 y 0) 127 in
    if (y31 =? 127) && forallb (fun b => b =? 255) (take 30 (drop 1 y))
       && (237 <=? List.nth 0 y 0)
    then false
    else negb (existsb (str_eqb pub) ed25519SmallOrder).

Section verify.
Context {key : Type} `{KeyOps key}.

Definition VerifyEd25519 (pub payload sig : string) : bool :=
  (String.length sig =? 64)%nat && ValidEd25519PublicKey pub
  && ed25519_verify pub payload sig.

Definition VerifyES256 (pub payload sig : string) : bool :=
  if negb (p256_valid pub) then false
  else if negb (ValidES256Signature sig) then false
  else let '(r, s) := ES256RawRS sig in ecdsa_verify pub (sha256 payload) r s.
End verify.

(** The little-endian value of the point encoding without its sign bit. *)
Fixpoint le_value (l : list Z) : Z :=
  match l with [] => 0 | b :: l' => b + 256 * le_value l' end.
Definition y_coordinate (pub : string) : Z := le_value (Sha256.bytes_of pub) mod 2 ^ 255.

(** ** Lemmas *)
Lemma be_value_app acc s t : be_value acc (String.append s t) = be_value (be_value acc s) t.
Proof. revert acc. induction s as [|c s IH]; intros acc; [done|]. apply IH. Qed.

Lemma length_be_bytes n x : List.length (Sha256.be_bytes n x) = n.
Proof. induction n as [|n IH]; cbn; [done|]. by rewrite IH. Qed.
Lemma length_fill_bytes32 x : String.length (fill_bytes32 x) = 32%nat.
Proof. unfold fill_bytes32. by rewrite length_of_bytes, length_be_bytes. Qed.

Lemma be_value_be_bytes n x acc :
  0 <= x < 256 ^ Z.of_nat n ->
  be_value acc (Sha256.of_bytes (Sha256.be_bytes n x)) = acc * 256 ^ Z.of_nat n + x.
Proof.
  revert x acc. induction n as [|n IH]; intros x acc Hx; [cbn in *; lia|].
  assert (Hpow : 256 ^ Z.of_nat (S n) = 256 * 256 ^ Z.of_nat n)
    by (rewrite Nat2Z.inj_succ, Z.pow_succ_r; lia).
  assert (Hsh : Z.shiftr x (8 * Z.of_nat n) = x / 256 ^ Z.of_nat n).
  { rewrite Z.shiftr_div_pow2 by lia. by rewrite Z.pow_mul_r by lia. }
  assert (Hlow : forall y m, (m <= n)%nat ->
    Sha256.be_bytes m (y mod 256 ^ Z.of_nat n) = Sha256.be_bytes m y).
  { intros y m Hm. induction m as [|m IHm]; cbn; [done|]. rewrite IHm by lia. f_equal.
    rewrite !Z.shiftr_div_pow2 by lia.
    replace (256 ^ Z.of_nat n) with (2 ^ (8 * Z.of_nat m) * (256 * 256 ^ (Z.of_nat (n - S m)))).
    2:{ change 256 with (2 ^ 8). rewrite <- !Z.pow_mul_r, <- !Z.pow_add_r by lia. f_equal. lia. }
    rewrite Z.rem_mul_r by lia.
    rewrite (Z.add_comm (y mod _)), (Z.mul_comm (2 ^ _)), Z.div_add_l by lia.
    rewrite (Z.div_small (y mod _)) by (apply Z.mod_pos_bound; lia). rewrite Z.add_0_r.
    rewrite Z.rem_mul_r by lia.
    rewrite Z.add_comm, (Z.mul_comm 256), Z.add_comm, Z_mod_plus_full, Z.mod_mod; lia. }
  cbn [Sha256.be_bytes Sha256.of_bytes be_value].
  rewrite <- Hlow by done. rewrite IH by (apply Z.mod_pos_bound; lia).
  rewrite byte_val_of by (apply Z.mod_pos_bound; lia).
  rewrite Hsh, (Z.mod_small (_ / _)), Hpow.
  - pose proof (Z.div_mod x (256 ^ Z.of_nat n)). nia.
  - split; [apply Z.div_pos; lia|]. apply Z.div_lt_upper_bound; lia.
Qed.

Lemma set_bytes_fill x : 0 <= x < 2 ^ 256 -> set_bytes (fill_bytes32 x) = x.
Proof.
  intros Hx. unfold set_bytes, fill_bytes32. rewrite be_value_be_bytes; [lia|].
  change (256 ^ Z.of_nat 32) with (2 ^ 256). done.
Qed.

Lemma ES256RawRS_fill r s :
  0 <= r < 2 ^ 256 -> 0 <= s < 2 ^ 256 ->
  ES256RawRS (String.append (fill_bytes32 r) (fill_bytes32 s)) = (r, s).
Proof.
  intros Hr Hs. unfold ES256RawRS.
  pose proof (str_take_append (fill_bytes32 r) (fill_bytes32 s)) as Ht.
  pose proof (str_drop_append (fill_bytes32 r) (fill_bytes32 s)) as Hd.
  rewrite length_fill_bytes32 in Ht, Hd. by rewrite Ht, Hd, !set_bytes_fill.
Qed.

Lemma ES256RawFromDER_low unmarshal der r s :
  unmarshal der = Some (r, s, EmptyString) -> 0 < r < P256Order -> 0 < s < P256Order ->
  exists sig, ES256RawFromDER unmarshal der = Ok sig /\ ValidES256Signature sig = true /\
    ES256RawRS sig = (r, Z.min s (P256Order - s)) /\ snd (ES256RawRS sig) <= P256HalfOrder.
Proof.
  intros Hu Hr Hs. unfold ES256RawFromDER. rewrite Hu. cbn [is_empty].
  replace (_ || _ || _ || _) with false by lia.
  assert (HO : 2 * P256HalfOrder + 1 = P256Order) by reflexivity.
  assert (HB : P256Order < 2 ^ 256) by reflexivity.
  set (s' := if P256HalfOrder <? s then P256Order - s else s).
  assert (Hs' : s' = Z.min s (P256Order - s) /\ s' <= P256HalfOrder).
  { unfold s'. destruct (Z.ltb_spec P256HalfOrder s); lia. }
  eexists. split; [reflexivity|].
  assert (Hrs := ES256RawRS_fill r s' ltac:(lia) ltac:(lia)).
  unfold ValidES256Signature. rewrite append_length, !length_fill_bytes32, Hrs. cbn.
  destruct Hs' as [Hs' Hle]. repeat split; [|congruence|done].
  replace (r =? 0) with false by lia. replace (s' =? 0) with false by lia.
  cbn. rewrite andb_true_iff, !Z.ltb_lt. lia.
Qed.

Lemma length_bytes_of s : List.length (Sha256.bytes_of s) = String.length s.
Proof. induction s as [|c s IH]; cbn; [done|]. by rewrite IH. Qed.

Lemma bytes_of_range s : Forall (fun b => 0 <= b < 256) (Sha256.bytes_of s).
Proof. induction s; cbn; constructor; auto using byte_val_range. Qed.

Lemma le_value_bound l :
  Forall (fun b => 0 <= b < 256) l -> 0 <= le_value l < 256 ^ Z.of_nat (List.length l).
Proof.
  induction 1 as [|b l Hb _ IH]; [cbn; lia|].
  cbn [le_value List.length]. rewrite Nat2Z.inj_succ, Z.pow_succ_r by lia. nia.
Qed.

Lemma le_value_app l k :
  le_value (l ++ k) = le_value l + 256 ^ Z.of_nat (List.length l) * le_value k.
Proof.
  induction l as [|b l IH]; [cbn [app le_value List.length]; lia|].
  cbn [app le_value List.length]. rewrite IH, Nat2Z.inj_succ, Z.pow_succ_r by lia. lia.
Qed.

Lemma le_value_all_ones l :
  Forall (fun b => 0 <= b < 256) l ->
  forallb (fun b => b =? 255) l = true <->
  le_value l = 256 ^ Z.of_nat (List.length l) - 1.
Proof.
  induction 1 as [|b l Hb Hl IH]; [done|].
  cbn [le_value List.length forallb]. rewrite Nat2Z.inj_succ, Z.pow_succ_r by lia.
  pose proof (le_value_bound l Hl). rewrite andb_true_iff, Z.eqb_eq, IH.
  set (P := 256 ^ Z.of_nat (List.length l)) in *. clearbody P. lia.
Qed.

(** A 32-byte string, seen as first byte, middle and last byte. *)
Lemma y_split pub :
  String.length pub = 32%nat ->
  exists b0 mid b31,
    Sha256.bytes_of pub = b0 :: mid ++ [b31] /\ List.length mid = 30%nat /\
    0 <= b0 < 256 /\ 0 <= b31 < 256 /\ Forall (fun b => 0 <= b < 256) mid.
Proof.
  intros Hl. pose proof (bytes_of_range pub) as Hr. rewrite <- length_bytes_of in Hl.
  destruct (Sha256.bytes_of pub) as [|b0 l]; [done|].
  destruct l as [|b31 mid _] using rev_ind; [done|]. exists b0, mid, b31.
  apply Forall_cons in Hr as [H0 Hr]. apply Forall_app in Hr as [Hm H31].
  apply Forall_inv in H31. cbn [List.length] in Hl. rewrite length_app in Hl.
  cbn [List.length] in Hl. split_and!; try done; lia.
Qed.

Lemma y_coordinate_split b0 mid b31 pub :
  Sha256.bytes_of pub = b0 :: mid ++ [b31] -> List.length mid = 30%nat ->
  0 <= b0 < 256 -> 0 <= b31 < 256 -> Forall (fun b => 0 <= b < 256) mid ->
  y_coordinate pub = b0 + 256 * le_value mid + 2 ^ 248 * Z.land b31 127.
Proof.
  intros Hb Hl H0 H31 Hm. unfold y_coordinate. rewrite Hb. cbn [le_value].
  rewrite le_value_app, Hl. cbn [le_value].
  pose proof (le_value_bound mid Hm) as Hmid. rewrite Hl in Hmid.
  change (Z.land b31 127) with (Z.land b31 (Z.ones 7)). rewrite Z.land_ones by lia.
  change (256 ^ Z.of_nat 30) with (2 ^ 240) in *. change (2 ^ 7) with 128.
  symmetry. apply (Z.mod_unique_pos _ _ (b31 / 128)).
  - pose proof (Z.mod_pos_bound b31 128). lia.
  - pose proof (Z.div_mod b31 128). lia.
Qed.

End Cryptoutil.

(** ** A concrete key, used to evaluate the model

    The "signature" of a payload is a hash of the public bytes and the
    payload: enough to tell authorized from unauthorized events. *)
Record demo_key := { demo_kid : string; demo_pub : string }.
#[export] Instance demo_key_eq_dec : EqDecision demo_key.
Proof. solve_decision. Defined.

Definition demo_sign (pub payload : string) : string :=
  String.append (sha256 (String.append pub payload)) (sha256 (String.append payload pub)).

#[export] Instance demo_ops : KeyOps demo_key := {
  thumbprint_sum k := Some (sha256 (demo_pub k));
  key_id k := Some (demo_kid k);
  key_type _ := OKP;
  key_crv _ := Some Ed25519;
  key_algorithm _ := Some "EdDSA"%string;
  key_usage _ := Some "sig"%string;
  key_is_private _ := Some false;
  export_ed25519 k := Some (demo_pub k);
  export_p256 _ := None;
  p256_valid _ := false;
  ed25519_verify pub payload sig := str_eqb sig (demo_sign pub payload);
  ecdsa_verify _ _ _ _ := false
}.

(** ** Properties *)

(** [ES256RawFromDER] turns every DER signature with both integers in
    range into a 64-byte signature that [ValidES256Signature] accepts, whose
    [r] is unchanged and whose [s] is replaced by the low representative
    [min s (n - s)]; it rejects every other signer output. *)
Theorem es256_raw_from_der_low_s (unmarshal : string -> option (Z * Z * string)) der r s :
  unmarshal der = Some (r, s, EmptyString) ->
  (0 < r < Cryptoutil.P256Order /\ 0 < s < Cryptoutil.P256Order /\
   exists sig, Cryptoutil.ES256RawFromDER unmarshal der = Ok sig /\
     Cryptoutil.ValidES256Signature sig = true /\
     Cryptoutil.ES256RawRS sig = (r, Z.min s (Cryptoutil.P256Order - s)) /\
     (snd (Cryptoutil.ES256RawRS sig) <= Cryptoutil.P256HalfOrder)) \/
  (~ (0 < r < Cryptoutil.P256Order /\ 0 < s < Cryptoutil.P256Order) /\
   is_ok (Cryptoutil.ES256RawFromDER unmarshal der) = false).
Proof.
  intros Hu.
  destruct (decide (0 < r < Cryptoutil.P256Order)) as [Hr|Hr];
    [destruct (decide (0 < s < Cryptoutil.P256Order)) as [Hs|Hs]|].
  - left. destruct (Cryptoutil.ES256RawFromDER_low _ _ _ _ Hu Hr Hs) as (sig & H).
    split; [done|]. split; [done|]. by exists sig.
  - right. split; [tauto|]. unfold Cryptoutil.ES256RawFromDER. rewrite Hu. cbn [is_empty].
    by replace (_ || _ || _ || _) with true by lia.
  - right. split; [tauto|]. unfold Cryptoutil.ES256RawFromDER. rewrite Hu. cbn [is_empty].
    by replace (_ || _ || _ || _) with true by lia.
Qed.

Lemma es256_raw_from_der_low_s_witness :
  let unm := fun _ : string => Some (5, Cryptoutil.P256Order - 7, EmptyString) in
  Cryptoutil.ES256RawRS
    (match Cryptoutil.ES256RawFromDER unm "der" with Ok s => s | Err _ => EmptyString end)
  = (5, 7).
Proof.
  intros unm.
  destruct (es256_raw_from_der_low_s unm "der" 5 (Cryptoutil.P256Order - 7) eq_refl)
    as [(_ & _ & sig & Hsig & _ & Hrs & _)|[H _]].
  - rewrite Hsig, Hrs. reflexivity.
  - exfalso. apply H. vm_compute. repeat split; congruence.
Defined.

(** [ValidEd25519PublicKey] accepts exactly the 32-byte strings whose
    y-coordinate (little-endian, sign bit ignored) is below
    [p = 2^255 - 19] and that are not on the small-order list. *)
Theorem valid_ed25519_public_key_spec pub :
  Cryptoutil.ValidEd25519PublicKey pub = true <->
  String.length pub = 32%nat /\ Cryptoutil.y_coordinate pub < 2 ^ 255 - 19 /\
  pub ∉ Cryptoutil.ed25519SmallOrder.
Proof.
  unfold Cryptoutil.ValidEd25519PublicKey.
  destruct (String.length pub =? 32)%nat eqn:El; cbn [negb].
  2:{ apply Nat.eqb_neq in El. naive_solver. }
  apply Nat.eqb_eq in El.
  assert (Hso : negb (existsb (str_eqb pub) Cryptoutil.ed25519SmallOrder) = true <->
                pub ∉ Cryptoutil.ed25519SmallOrder).
  { rewrite negb_true_iff, <- not_true_iff_false, existsb_exists.
    setoid_rewrite str_eqb_eq. setoid_rewrite <- list_elem_of_In. naive_solver. }
  destruct (Cryptoutil.y_split pub El) as (b0 & mid & b31 & Hb & Hl & H0 & H31 & Hm).
  rewrite (Cryptoutil.y_coordinate_split b0 mid b31 pub) by done.
  pose proof (Cryptoutil.le_value_bound mid Hm) as Hmid.
  pose proof (Cryptoutil.le_value_all_ones mid Hm) as Hones. rewrite Hl in Hmid, Hones.
  change (256 ^ Z.of_nat 30) with (2 ^ 240) in *.
  rewrite Hb. change (drop 1 (b0 :: mid ++ [b31])) with (mid ++ [b31]).
  change (List.nth 31 (b0 :: mid ++ [b31]) 0) with (List.nth 30 (mid ++ [b31]) 0).
  change (List.nth 0 (b0 :: mid ++ [b31]) 0) with b0.
  rewrite take_app_le, take_ge, app_nth2 by lia. rewrite Hl.
  change (List.nth (30 - 30) [b31] 0) with b31.
  assert (0 <= Z.land b31 127 < 128).
  { change 127 with (Z.ones 7). rewrite Z.land_ones by lia. apply Z.mod_pos_bound. lia. }
  destruct (_ && _ && _) eqn:E.
  - split; [done|]. intros (_ & Hy & _).
    rewrite !andb_true_iff, Z.eqb_eq, Z.leb_le, Hones in E. lia.
  - rewrite Hso. split; [|tauto]. intros Hn. split_and!; try done.
    rewrite !andb_false_iff, Z.eqb_neq, Z.leb_gt, <- not_true_iff_false, Hones in E. lia.
Qed.
