(* ===== verification/Fqdn.v ===== *)
(** * Fqdn: normalized domain names (fqdn.go)

    [NormalizeFQDN] maps the IDNA dots, strips one trailing dot and hands the
    name to golang.org/x/net/idna, whose profile is the operation of class
    [Idna]; its documented behaviour is [IdnaSpec]. *)

From Stdlib Require Import ZArith Lia Ascii String.
From S2P Require Import Prelude Codec Utf8.

Open Scope Z_scope.

(** [fqdnIDNAProfile.ToASCII]. *)
Class Idna := { ToASCII : string -> option string }.

(** What the profile promises: A-labels are ASCII, mapping them again changes
    nothing, and [VerifyDNSLength] leaves no empty label at the end. *)
Class IdnaSpec (I : Idna) := {
  to_ascii_ascii : forall s t, ToASCII s = Some t -> forall_byte (fun c => byte_val c <? 128) t = true;
  to_ascii_idempotent : forall s t, ToASCII s = Some t -> ToASCII t = Some t;
  to_ascii_no_trailing_dot : forall s t, ToASCII s = Some t -> has_suffix "." t = false /\ t <> EmptyString
}.

Definition maxDNSIDFQDNLength : Z := 246.

Definition mapIDNADot (r : Z) : Z :=
  if (r =? 12290) || (r =? 65294) || (r =? 65377) then 46 else r.

(** [strings.Map]: bytes that are not UTF-8 become the error rune. *)
Definition map_runes (f : Z -> Z) (s : string) : string := encode_runes (f <$> runes s).

(** [strings.TrimSuffix(s, ".")]. *)
Fixpoint trim_dot (s : string) : string :=
  match s with
  | EmptyString => EmptyString
  | String c EmptyString => if Ascii.eqb c "." then EmptyString else s
  | String c s => String c (trim_dot s)
  end.

Definition invalidFQDNError : error := ValidationError "dnsid: invalid FQDN".

Section fqdn.
Context {I : Idna}.

Definition NormalizeFQDN (input : string) : res string :=
  fail_if is_empty input with invalidFQDNError ;;
  let mappedInput := map_runes mapIDNADot input in
  fail_if has_suffix ".." mappedInput with invalidFQDNError ;;
  let mappedInput := trim_dot mappedInput in
  fail_if is_empty mappedInput with invalidFQDNError ;;
  match ToASCII mappedInput with
  | None => Err invalidFQDNError
  | Some normalized =>
      fail_if maxDNSIDFQDNLength <? Z.of_nat (String.length normalized) with invalidFQDNError ;;
      Ok normalized
  end.

Definition isDomainOrSubdomain (name domain : string) : bool :=
  str_eqb name domain || has_suffix (String "." domain) name.
End fqdn.

(** ** Normal forms *)
Lemma runes_ascii s : forall_byte (fun c => byte_val c <? 128) s = true ->
  ValidString s = true /\ Forall (fun r => r < 128) (runes s).
Proof.
  induction s as [|c s IH]; [by split|]. cbn [forall_byte]. intros [Hc Hs]%andb_true_iff.
  destruct (IH Hs) as [Hv Hr]. assert (decode_rune c s = Some (byte_val c, s)) as Hd
    by (unfold decode_rune; cbv zeta; by rewrite Hc).
  split; [by rewrite ValidString_cons, Hd|]. rewrite (runes_cons _ _ _ _ Hd). constructor; [lia|done].
Qed.

Lemma map_dots_ascii s : forall_byte (fun c => byte_val c <? 128) s = true -> map_runes mapIDNADot s = s.
Proof.
  intros [Hv Hr]%runes_ascii. unfold map_runes.
  assert (mapIDNADot <$> runes s = runes s) as ->; [|by apply encode_runes_runes].
  clear Hv. induction Hr as [|r rs Hr _ IH]; [done|]. cbn [fmap list_fmap]. rewrite IH. f_equal.
  unfold mapIDNADot. destruct (Z.eqb_spec r 12290), (Z.eqb_spec r 65294), (Z.eqb_spec r 65377); lia || done.
Qed.

Lemma has_suffix_cons p c s : has_suffix p s = true -> has_suffix p (String c s) = true.
Proof. intros H. cbn [has_suffix]. rewrite H. apply orb_true_r. Qed.

Lemma suffix_dots s : has_suffix "." s = false -> has_suffix ".." s = false.
Proof.
  induction s as [|c s IH]; [done|]. cbn [has_suffix]. intros [H1 H2]%orb_false_iff.
  rewrite IH by done. rewrite orb_false_r. apply str_eqb_neq. intros [= <- <-]. done.
Qed.

Lemma trim_dot_none s : has_suffix "." s = false -> trim_dot s = s.
Proof.
  induction s as [|c s IH]; [done|]. intros H. pose proof H as H'. cbn [has_suffix] in H.
  apply orb_false_iff in H as [H1 H2]. destruct s as [|d s].
  - cbn [trim_dot]. destruct (Ascii.eqb_spec c "."%char) as [->|]; [|done].
    by apply str_eqb_neq in H1.
  - change (trim_dot (String c (String d s))) with (String c (trim_dot (String d s))). by rewrite IH.
Qed.

(** A normalized name is in normal form: normalizing it again changes
    nothing, and it is at most 246 bytes of ASCII. *)
Lemma normalize_fqdn_idempotent `{IdnaSpec} s t :
  NormalizeFQDN s = Ok t ->
  NormalizeFQDN t = Ok t /\ (Z.of_nat (String.length t) <= maxDNSIDFQDNLength) /\
  forall_byte (fun c => byte_val c <? 128) t = true.
Proof.
  unfold NormalizeFQDN. intros Hn. go_inv.
  match goal with H : ToASCII _ = Some t |- _ => rename H into Ha end.
  pose proof (to_ascii_ascii _ _ Ha) as Hascii. destruct (to_ascii_no_trailing_dot _ _ Ha) as [Hdot Hne].
  match goal with H : (maxDNSIDFQDNLength <? _) = false |- _ => rename H into Hlen end.
  rewrite (proj2 (is_empty_false t) Hne), map_dots_ascii, suffix_dots, trim_dot_none by done.
  rewrite (proj2 (is_empty_false t) Hne), (to_ascii_idempotent _ _ Ha), Hlen.
  apply Z.ltb_ge in Hlen. done.
Qed.
