(* ===== verification/Lifecycle.v ===== *)
(** * Lifecycle: the lifecycle-log model of log/log.go

    Event types, agent states, the method registry and [ParseLogRef], and
    [DomainLog.SnapshotAt], which replays a history through the lifecycle
    state machine. The abstract machine [lc_step] states what a lifecycle is;
    [snapshot_at_refines] proves that the loop accepts exactly its runs. *)

From Stdlib Require Import ZArith Lia Ascii String.
From S2P Require Import Prelude Codec Keys.

Open Scope Z_scope.

(** ** Event types and states *)
Inductive LogEventType :=
| LogEventIssuance | LogEventKeyRotation | LogEventRevocation | LogEventRetirement
| LogEventMigration | LogEventDelegation | LogEventOther (name : string).
#[export] Instance LogEventType_eq_dec : EqDecision LogEventType.
Proof. solve_decision. Defined.

Definition type_string (t : LogEventType) : string :=
  match t with
  | LogEventIssuance => "ISSUANCE" | LogEventKeyRotation => "KEY_ROTATION"
  | LogEventRevocation => "REVOCATION" | LogEventRetirement => "RETIREMENT"
  | LogEventMigration => "MIGRATION" | LogEventDelegation => "DELEGATION"
  | LogEventOther s => s
  end.

Definition type_eqb (t u : LogEventType) : bool := bool_decide (t = u).

Inductive AgentState :=
| AgentStatePending | AgentStateProvisioning | AgentStateVerifying
| AgentStateActive | AgentStateRetired | AgentStateRevoked.
#[export] Instance AgentState_eq_dec : EqDecision AgentState.
Proof. solve_decision. Defined.

Definition state_string (s : AgentState) : string :=
  match s with
  | AgentStatePending => "PENDING" | AgentStateProvisioning => "PROVISIONING"
  | AgentStateVerifying => "VERIFYING" | AgentStateActive => "ACTIVE"
  | AgentStateRetired => "RETIRED" | AgentStateRevoked => "REVOKED"
  end.

Definition allAgentStates : list AgentState :=
  [AgentStatePending; AgentStateProvisioning; AgentStateVerifying; AgentStateActive;
   AgentStateRetired; AgentStateRevoked].

(** [IsValid] and [ParseAgentState] on the raw string. *)
Definition IsValid (s : string) : bool := existsb (fun st => str_eqb s (state_string st)) allAgentStates.
Definition ParseAgentState (s : string) : res AgentState :=
  match List.find (fun st => str_eqb s (state_string st)) allAgentStates with
  | Some st => Ok st
  | None => Err (PlainError "unknown agent state")
  end.

Definition ValidRevocationReason (reason : string) : bool :=
  str_eqb reason "keyCompromise" || str_eqb reason "policyViolation"
  || str_eqb reason "superseded" || str_eqb reason "cessationOfOperation".

(** ** Log references and the method registry *)
Definition is_lower (c : ascii) : bool := (97 <=? byte_val c) && (byte_val c <=? 122).
Definition is_digit (c : ascii) : bool := (48 <=? byte_val c) && (byte_val c <=? 57).

(** [logMethodRE]: [^[a-z][a-z0-9-]*$]. *)
Definition logMethodRE (s : string) : bool :=
  match s with
  | EmptyString => false
  | String c s' =>
      is_lower c && forall_byte (fun a => is_lower a || is_digit a || Ascii.eqb a "-"%char) s'
  end.

Definition ParseLogRef (lr : string) : res (string * string) :=
  match cut ":"%char lr with
  | None => Err (ParseError "dnsid: malformed log reference")
  | Some (method, entryRef) =>
      fail_if is_empty method with ParseError "dnsid: malformed log reference" ;;
      fail_if negb (logMethodRE method) with ParseError "dnsid: invalid log method" ;;
      Ok (method, entryRef)
  end.

Section registry.
Context {reader : Type}.

(** [factories]: each factory may return a nil reader. *)
Definition LogRegistry := gmap string (string -> option reader).

Inductive LogReader :=
| NoopLogReader (Method : string)
| BoundReader (r : reader).

Definition NewLogRegistry : gmap string (string -> option reader) := ∅.

Definition Register (r : gmap string (string -> option reader)) (method : string)
    (factory : option (string -> option reader))
    : res (gmap string (string -> option reader)) :=
  fail_if negb (logMethodRE method) with ArgumentError "dnsid: invalid log method" ;;
  match factory with
  | None => Err (ArgumentError "dnsid: nil log reader factory")
  | Some f => Ok (<[method := f]> r)
  end.

(** A nil registry is [None]. *)
Definition NewReader (r : option (gmap string (string -> option reader))) (lr : string)
    : res LogReader :=
  '(method, _) ← ParseLogRef lr;
  match r with
  | None => Ok (NoopLogReader method)
  | Some r =>
      match r !! method with
      | None => Ok (NoopLogReader method)
      | Some factory =>
          match factory lr with
          | None => Ok (NoopLogReader method)
          | Some rd => Ok (BoundReader rd)
          end
      end
  end.

(** Every evidence operation of [NoopLogReader] fails with this error. *)
Definition noop_err : error :=
  VerificationError "log_error" false "dnsid: no LogReader registered for method".
End registry.

(** ** Events and snapshots *)
Section lifecycle.
Context {key : Type} `{!KeyOps key}.

Record LogEvent := {
  Type_ : LogEventType;
  InitialEntityKid : string;
  InitialEntityPublicKey : option key;
  InitialEntityThumbprint : string;
  InitialEntitySignature : string;
  InitialOperationalKid : string;
  InitialOperationalPublicKey : option key;
  InitialOperationalThumbprint : string;
  InitialOperationalSignature : string;
  PreviousOperationalKid : string;
  PreviousOperationalThumbprint : string;
  PreviousOperationalSignature : string;
  NewOperationalKid : string;
  NewOperationalPublicKey : option key;
  NewOperationalThumbprint : string;
  NewOperationalSignature : string;
  Domain : string;
  Timestamp : time;
  GovernanceID : string;
  Reason : string;
  PreviousLog : string;
  NewLog : string;
  FinalEntryRef : string;
  Delegatee : string;
  Scope : string;
  Expiry : time
}.

Record DomainLog := { log_domain : string; log_events : list LogEvent }.
Definition NewDomainLog (domain : string) (events : list LogEvent) : DomainLog :=
  {| log_domain := domain; log_events := events |}.

(** [HistoricalState] is [None] for Go's empty [AgentState]. *)
Record DomainSnapshot := {
  snap_Domain : string;
  HistoricalState : option AgentState;
  ActiveKey : option key;
  ActiveKeyThumbprint : string;
  KeyBoundAt : time;
  snap_GovernanceID : string;
  SnapshotAtTime : time;
  Events : list LogEvent
}.

Definition empty_snapshot (domain : string) (at_ : time) : DomainSnapshot :=
  {| snap_Domain := domain; HistoricalState := None; ActiveKey := None;
     ActiveKeyThumbprint := ""; KeyBoundAt := 0; snap_GovernanceID := "";
     SnapshotAtTime := at_; Events := [] |}.

Definition lifecycleError (category : string) (msg : string) : error :=
  VerificationError category false msg.

(** The [switch event.Type] of [SnapshotAt]; [s] already holds the event. *)
Definition snapshot_apply (s : DomainSnapshot) (event : LogEvent) : res DomainSnapshot :=
  match Type_ event with
  | LogEventIssuance =>
      fail_if bool_decide (HistoricalState s <> None)
        with lifecycleError "DUPLICATE_ISSUANCE" "duplicate ISSUANCE in one identity history" ;;
      match keyThumbprint (InitialOperationalPublicKey event) with
      | Err _ => Err (lifecycleError "INVALID_ISSUANCE" "ISSUANCE key binding is invalid")
      | Ok operationalThumb =>
          fail_if bool_decide (InitialEntityPublicKey event = None)
               || is_empty (InitialOperationalThumbprint event)
               || negb (str_eqb operationalThumb (InitialOperationalThumbprint event))
            with lifecycleError "INVALID_ISSUANCE" "ISSUANCE key binding is invalid" ;;
          match keyThumbprint (InitialEntityPublicKey event) with
          | Err _ => Err (lifecycleError "INVALID_ISSUANCE" "ISSUANCE entity and operational keys must be distinct")
          | Ok entityThumb =>
              fail_if is_empty (InitialEntityThumbprint event)
                   || negb (str_eqb entityThumb (InitialEntityThumbprint event))
                   || str_eqb entityThumb operationalThumb
                with lifecycleError "INVALID_ISSUANCE" "ISSUANCE entity and operational keys must be distinct" ;;
              Ok {| snap_Domain := snap_Domain s; HistoricalState := Some AgentStateActive;
                    ActiveKey := InitialOperationalPublicKey event;
                    ActiveKeyThumbprint := InitialOperationalThumbprint event;
                    KeyBoundAt := Timestamp event; snap_GovernanceID := GovernanceID event;
                    SnapshotAtTime := SnapshotAtTime s; Events := Events s |}
          end
      end
  | LogEventKeyRotation =>
      fail_if negb (bool_decide (HistoricalState s = Some AgentStateActive))
           || negb (str_eqb (PreviousOperationalThumbprint event) (ActiveKeyThumbprint s))
        with lifecycleError "KEY_CONTINUITY" "KEY_ROTATION does not continue from the active key" ;;
      match keyThumbprint (NewOperationalPublicKey event) with
      | Err _ => Err (lifecycleError "KEY_CONTINUITY" "KEY_ROTATION new key is invalid")
      | Ok newThumb =>
          fail_if is_empty (NewOperationalThumbprint event)
               || negb (str_eqb newThumb (NewOperationalThumbprint event))
               || str_eqb newThumb (ActiveKeyThumbprint s)
            with lifecycleError "KEY_CONTINUITY" "KEY_ROTATION new key is invalid" ;;
          Ok {| snap_Domain := snap_Domain s; HistoricalState := HistoricalState s;
                ActiveKey := NewOperationalPublicKey event;
                ActiveKeyThumbprint := NewOperationalThumbprint event;
                KeyBoundAt := Timestamp event; snap_GovernanceID := snap_GovernanceID s;
                SnapshotAtTime := SnapshotAtTime s; Events := Events s |}
      end
  | LogEventRevocation =>
      fail_if negb (ValidRevocationReason (Reason event))
        with lifecycleError "INVALID_REVOCATION_REASON" "invalid REVOCATION reason" ;;
      Ok {| snap_Domain := snap_Domain s; HistoricalState := Some AgentStateRevoked;
            ActiveKey := ActiveKey s; ActiveKeyThumbprint := ActiveKeyThumbprint s;
            KeyBoundAt := KeyBoundAt s; snap_GovernanceID := snap_GovernanceID s;
            SnapshotAtTime := SnapshotAtTime s; Events := Events s |}
  | LogEventRetirement =>
      Ok {| snap_Domain := snap_Domain s; HistoricalState := Some AgentStateRetired;
            ActiveKey := ActiveKey s; ActiveKeyThumbprint := ActiveKeyThumbprint s;
            KeyBoundAt := KeyBoundAt s; snap_GovernanceID := snap_GovernanceID s;
            SnapshotAtTime := SnapshotAtTime s; Events := Events s |}
  | LogEventMigration =>
      fail_if is_empty (PreviousLog event) || is_empty (NewLog event)
           || is_empty (FinalEntryRef event) || str_eqb (PreviousLog event) (NewLog event)
        with lifecycleError "INVALID_MIGRATION" "MIGRATION must hand off between different log references" ;;
      Ok s
  | LogEventDelegation => Ok s
  | LogEventOther _ => Err (lifecycleError "UNSUPPORTED_EVENT" "unsupported lifecycle event type")
  end.

Definition snap_append (s : DomainSnapshot) (event : LogEvent) : DomainSnapshot :=
  {| snap_Domain := snap_Domain s; HistoricalState := HistoricalState s;
     ActiveKey := ActiveKey s; ActiveKeyThumbprint := ActiveKeyThumbprint s;
     KeyBoundAt := KeyBoundAt s; snap_GovernanceID := snap_GovernanceID s;
     SnapshotAtTime := SnapshotAtTime s; Events := Events s ++ [event] |}.

(** The body of the loop over [l.events]. *)
Fixpoint snapshot_loop (domain : string) (at_ : time) (past : bool) (s : DomainSnapshot)
    (events : list LogEvent) : res DomainSnapshot :=
  match events with
  | [] => Ok s
  | event :: rest =>
      fail_if negb (equal_fold (Domain event) domain)
        with lifecycleError "DOMAIN_MISMATCH" "lifecycle event domain does not match" ;;
      if after (Timestamp event) at_ then snapshot_loop domain at_ true s rest else
      fail_if past
        with lifecycleError "SNAPSHOT_NON_PREFIX" "snapshot time is not a verified lifecycle prefix" ;;
      fail_if bool_decide (HistoricalState s = None)
           && negb (type_eqb (Type_ event) LogEventIssuance)
        with lifecycleError "GENESIS_REQUIRED" "first lifecycle event must be ISSUANCE" ;;
      fail_if bool_decide (HistoricalState s = Some AgentStateRevoked)
           || bool_decide (HistoricalState s = Some AgentStateRetired)
        with lifecycleError "TERMINAL_STATE" "lifecycle event after terminal state" ;;
      s' ← snapshot_apply (snap_append s event) event;
      snapshot_loop domain at_ past s' rest
  end.

Definition SnapshotAt (l : option DomainLog) (at_ : time) : res DomainSnapshot :=
  match l with
  | None => Err (lifecycleError "SNAPSHOT_EMPTY" "no lifecycle events")
  | Some l =>
      fail_if bool_decide (List.length (log_events l) = 0%nat)
        with lifecycleError "SNAPSHOT_EMPTY" "no lifecycle events" ;;
      s ← snapshot_loop (log_domain l) at_ false (empty_snapshot (log_domain l) at_) (log_events l);
      fail_if bool_decide (HistoricalState s = None) || bool_decide (ActiveKey s = None)
        with lifecycleError "SNAPSHOT_EMPTY" "no ISSUANCE event found at snapshot time" ;;
      Ok s
  end.

(** ** The abstract lifecycle

    What an identity's life is, independently of how it is replayed: it is
    issued once with two distinct keys, its operational key may be rotated
    from the current key to a different one, and it may end once, revoked for
    a valid reason or retired, after which nothing happens. *)
Inductive lc_state :=
| Unissued
| Live (bound : key) (thumb : string) (since : time) (gi : string)
| Ended (how : AgentState) (bound : key) (thumb : string) (since : time) (gi : string).

Definition has_thumb (k : option key) (bound : key) (thumb : string) : Prop :=
  k = Some bound /\ thumb <> EmptyString /\
  exists sum, thumbprint_sum bound = Some sum /\ thumb = Base64.encode sum.

Inductive lc_step : lc_state -> LogEvent -> lc_state -> Prop :=
| lc_issue e op op_thumb ek ek_thumb :
    Type_ e = LogEventIssuance ->
    has_thumb (InitialOperationalPublicKey e) op op_thumb ->
    has_thumb (InitialEntityPublicKey e) ek ek_thumb ->
    InitialOperationalThumbprint e = op_thumb -> InitialEntityThumbprint e = ek_thumb ->
    op_thumb <> ek_thumb ->
    lc_step Unissued e (Live op op_thumb (Timestamp e) (GovernanceID e))
| lc_rotate e k t since gi k' t' :
    Type_ e = LogEventKeyRotation ->
    PreviousOperationalThumbprint e = t ->
    has_thumb (NewOperationalPublicKey e) k' t' ->
    NewOperationalThumbprint e = t' -> t' <> t ->
    lc_step (Live k t since gi) e (Live k' t' (Timestamp e) gi)
| lc_revoke e k t since gi :
    Type_ e = LogEventRevocation -> ValidRevocationReason (Reason e) = true ->
    lc_step (Live k t since gi) e (Ended AgentStateRevoked k t since gi)
| lc_retire e k t since gi :
    Type_ e = LogEventRetirement ->
    lc_step (Live k t since gi) e (Ended AgentStateRetired k t since gi)
| lc_migrate e k t since gi :
    Type_ e = LogEventMigration ->
    PreviousLog e <> EmptyString -> NewLog e <> EmptyString -> FinalEntryRef e <> EmptyString ->
    PreviousLog e <> NewLog e ->
    lc_step (Live k t since gi) e (Live k t since gi)
| lc_delegate e k t since gi :
    Type_ e = LogEventDelegation ->
    lc_step (Live k t since gi) e (Live k t since gi).

Inductive lc_run : lc_state -> list LogEvent -> lc_state -> Prop :=
| lc_run_nil st : lc_run st [] st
| lc_run_cons st e st' es st'' :
    lc_step st e st' -> lc_run st' es st'' -> lc_run st (e :: es) st''.

(** The concrete snapshot of an abstract state. *)
Definition snap_of (domain : string) (at_ : time) (evs : list LogEvent) (st : lc_state)
    : DomainSnapshot :=
  match st with
  | Unissued =>
      {| snap_Domain := domain; HistoricalState := None; ActiveKey := None;
         ActiveKeyThumbprint := ""; KeyBoundAt := 0; snap_GovernanceID := "";
         SnapshotAtTime := at_; Events := evs |}
  | Live k t since gi =>
      {| snap_Domain := domain; HistoricalState := Some AgentStateActive; ActiveKey := Some k;
         ActiveKeyThumbprint := t; KeyBoundAt := since; snap_GovernanceID := gi;
         SnapshotAtTime := at_; Events := evs |}
  | Ended how k t since gi =>
      {| snap_Domain := domain; HistoricalState := Some how; ActiveKey := Some k;
         ActiveKeyThumbprint := t; KeyBoundAt := since; snap_GovernanceID := gi;
         SnapshotAtTime := at_; Events := evs |}
  end.

(** Only revocation and retirement end an identity. *)
Definition lc_wf (st : lc_state) : Prop :=
  match st with
  | Ended how _ _ _ _ => how = AgentStateRevoked \/ how = AgentStateRetired
  | _ => True
  end.

(** ** Lemmas *)
Lemma keyThumbprint_has_thumb k t :
  keyThumbprint k = Ok t /\ t <> EmptyString <-> exists bound, has_thumb k bound t.
Proof.
  unfold keyThumbprint, has_thumb. destruct k as [k|]; [|naive_solver].
  destruct (thumbprint_sum k) eqn:E; naive_solver.
Qed.

Ltac thumb_facts :=
  repeat match goal with
  | H : has_thumb ?k ?b ?t |- _ =>
      lazymatch goal with
      | _ : keyThumbprint k = Ok t |- _ => fail
      | _ => destruct (proj2 (keyThumbprint_has_thumb k t) (ex_intro _ b H));
             assert (k = Some b) by apply H
      end
  end.

Ltac mk_thumb k t :=
  let b := fresh "b" in let H := fresh "Hth" in
  destruct (proj1 (keyThumbprint_has_thumb k t)) as [b H]; [by split|];
  pose proof (proj1 H).

Ltac split_guards :=
  repeat match goal with
  | H : _ || _ = false |- _ => apply orb_false_iff in H as [? ?]
  | H : negb _ = false |- _ => apply negb_false_iff in H
  | H : is_empty _ = false |- _ => apply is_empty_false in H
  | H : str_eqb _ _ = true |- _ => apply str_eqb_eq in H
  | H : str_eqb _ _ = false |- _ => apply str_eqb_neq in H
  | H : bool_decide _ = false |- _ => apply bool_decide_eq_false in H
  | H : bool_decide _ = true |- _ => apply bool_decide_eq_true in H
  end.

(** One accepted iteration is one step of the abstract lifecycle. *)
Lemma snapshot_apply_step d at_ evs st e s' :
  snapshot_apply (snap_of d at_ evs st) e = Ok s' ->
  (HistoricalState (snap_of d at_ evs st) = None -> Type_ e = LogEventIssuance) ->
  (forall how k t since gi, st <> Ended how k t since gi) ->
  exists st', lc_step st e st' /\ s' = snap_of d at_ evs st'.
Proof.
  intros Happ Hgen Hend.
  destruct st as [|k t since gi|how k t since gi]; [|clear Hgen|by edestruct Hend].
  - unfold snapshot_apply in Happ. rewrite Hgen in Happ by done. go_inv. split_guards. subst.
    mk_thumb (InitialOperationalPublicKey e) (InitialOperationalThumbprint e).
    mk_thumb (InitialEntityPublicKey e) (InitialEntityThumbprint e).
    eexists. split; [eapply lc_issue; eauto; congruence|]. cbn. by f_equal.
  - unfold snapshot_apply in Happ. destruct (Type_ e) eqn:Et; go_inv; split_guards; subst;
      cbn in *; try done.
    + by destruct Heqb.
    + mk_thumb (NewOperationalPublicKey e) (NewOperationalThumbprint e).
      eexists. split; [eapply lc_rotate; eauto|]. cbn. by f_equal.
    + eexists. split; [by apply lc_revoke|done].
    + eexists. split; [by apply lc_retire|done].
    + eexists. split; [by apply lc_migrate|done].
    + eexists. split; [by apply lc_delegate|done].
Qed.

Lemma lc_step_apply d at_ evs st e st' :
  lc_step st e st' -> snapshot_apply (snap_of d at_ evs st) e = Ok (snap_of d at_ evs st').
Proof.
  assert (Hne : forall a b : string, a <> b -> str_eqb a b = false) by (intros; by apply str_eqb_neq).
  assert (Hem : forall a : string, a <> EmptyString -> is_empty a = false)
    by (intros; by apply is_empty_false).
  unfold snapshot_apply.
  destruct 1; thumb_facts; subst; rewrite ?H; cbn;
    repeat match goal with
    | H : keyThumbprint ?k = Ok _ |- context [keyThumbprint ?k] => rewrite H
    end; rewrite ?str_eqb_refl, ?bool_decide_true by done;
    rewrite ?Hem, ?Hne by congruence; cbn; try congruence.
  - rewrite bool_decide_false by congruence. cbn. congruence.
  - rewrite H0. done.
Qed.

Lemma lc_step_live st e st' :
  lc_step st e st' -> (forall how k t since gi, st <> Ended how k t since gi) /\
  (st = Unissued -> Type_ e = LogEventIssuance).
Proof. destruct 1; split; naive_solver. Qed.

Lemma lc_step_wf st e st' : lc_step st e st' -> lc_wf st -> lc_wf st'.
Proof. destruct 1; cbn; auto. Qed.

(** Past the boundary only later events may follow. *)
Lemma snapshot_loop_past d at_ s es s' :
  snapshot_loop d at_ true s es = Ok s' <->
  s' = s /\ Forall (fun e => equal_fold (Domain e) d = true /\ at_ < Timestamp e) es.
Proof.
  induction es as [|e es IH]; cbn; [naive_solver|].
  rewrite Forall_cons. destruct (equal_fold (Domain e) d); cbn; [|naive_solver].
  unfold after at 1. destruct (Z.ltb_spec at_ (Timestamp e)) as [Hlt|Hge]; cbn.
  - rewrite IH. naive_solver.
  - split; [done|]. intros (_ & [_ ?] & _). lia.
Qed.

Definition accepted_split (d : string) (at_ : time) (es pre post : list (LogEvent)) : Prop :=
  es = pre ++ post /\
  Forall (fun e => equal_fold (Domain e) d = true /\ Timestamp e <= at_) pre /\
  Forall (fun e => equal_fold (Domain e) d = true /\ at_ < Timestamp e) post.

Lemma snapshot_loop_spec d at_ evs st es s' :
  lc_wf st ->
  snapshot_loop d at_ false (snap_of d at_ evs st) es = Ok s' <->
  exists pre post st', accepted_split d at_ es pre post /\ lc_run st pre st' /\
    s' = snap_of d at_ (evs ++ pre) st'.
Proof.
  revert evs st. induction es as [|e es IH]; intros evs st Hwf; cbn [snapshot_loop].
  { split.
    - intros [= <-]. exists [], [], st. rewrite app_nil_r. repeat constructor.
    - intros (pre & post & st' & (Heq & _) & Hrun & ->).
      symmetry in Heq. apply app_eq_nil in Heq as [-> ->]. inversion Hrun; subst.
      by rewrite app_nil_r. }
  destruct (equal_fold (Domain e) d) eqn:Ed; cbn [negb].
  2:{ split; [done|]. intros ([|? pre] & post & ? & (Heq & H1 & H2) & _); cbn in Heq; subst.
      - apply Forall_cons in H2 as [[? _] _]. congruence.
      - injection Heq as -> ->. apply Forall_cons in H1 as [[? _] _]. congruence. }
  unfold after at 1. destruct (Z.ltb_spec at_ (Timestamp e)) as [Hlt|Hge].
  { rewrite snapshot_loop_past. split.
    - intros [-> Hf]. exists [], (e :: es), st. rewrite app_nil_r.
      repeat constructor; auto.
    - intros ([|? pre] & post & ? & (Heq & H1 & H2) & Hrun & ->); cbn in Heq; subst.
      + inversion Hrun; subst. apply Forall_cons in H2 as [_ ?]. by rewrite app_nil_r.
      + injection Heq as -> ->. apply Forall_cons in H1 as [[_ ?] _]. lia. }
  assert (Hstep : forall s1,
    (fail_if bool_decide (HistoricalState (snap_of d at_ evs st) = None)
             && negb (type_eqb (Type_ e) LogEventIssuance)
       with lifecycleError "GENESIS_REQUIRED" "first lifecycle event must be ISSUANCE" ;;
     fail_if bool_decide (HistoricalState (snap_of d at_ evs st) = Some AgentStateRevoked)
          || bool_decide (HistoricalState (snap_of d at_ evs st) = Some AgentStateRetired)
       with lifecycleError "TERMINAL_STATE" "lifecycle event after terminal state" ;;
     snapshot_apply (snap_append (snap_of d at_ evs st) e) e) = Ok s1 <->
    exists st1, lc_step st e st1 /\ s1 = snap_of d at_ (evs ++ [e]) st1).
  { intros s1.
    replace (snap_append (snap_of d at_ evs st) e) with (snap_of d at_ (evs ++ [e]) st)
      by (by destruct st). split.
    - intros H. go_inv. apply (snapshot_apply_step d at_ (evs ++ [e]) st e s1) in H; [done| |].
      + intros Hn. apply andb_false_iff in Heqb as [Hb|Hb].
        * apply bool_decide_eq_false in Hb. destruct Hb. by destruct st.
        * apply negb_false_iff in Hb. by apply bool_decide_eq_true in Hb.
      + intros how k t since gi ->. split_guards. destruct Hwf; naive_solver.
    - intros (st1 & Hs & ->). destruct (lc_step_live _ _ _ Hs) as [Hl Hi].
      rewrite (lc_step_apply d at_ (evs ++ [e]) st e st1 Hs).
      destruct st as [|k t since gi|how k t since gi]; cbn.
      + by rewrite Hi.
      + done.
      + by edestruct Hl. }
  cbv beta iota in Hstep. split.
  - intros H.
    destruct (bool_decide _ && _) eqn:E1 in H; [done|].
    destruct (_ || _) eqn:E2 in H; [done|].
    unfold mbind, res_bind in H. destruct (snapshot_apply _ _) as [s1|] eqn:E3; [|done].
    destruct (proj1 (Hstep s1)) as (st1 & Hs & ->).
    { by rewrite E1, E2. }
    apply IH in H as (pre & post & st' & (-> & H1 & H2) & Hrun & ->);
      [|by eapply lc_step_wf].
    exists (e :: pre), post, st'. rewrite <- app_assoc.
    split_and!; [split_and!|by econstructor|]; auto.
  - intros (pre & post & st' & (Heq & H1 & H2) & Hrun & ->).
    destruct pre as [|e' pre]; cbn in Heq.
    { subst. apply Forall_cons in H2 as [[_ ?] _]. lia. }
    injection Heq as <- ->. inversion Hrun as [|? ? st1 ? ? Hs Hrun']; subst.
    pose proof (proj2 (Hstep _) (ex_intro _ st1 (conj Hs eq_refl))) as Hok.
    destruct (bool_decide _ && _) eqn:E1 in Hok; [done|].
    destruct (_ || _) eqn:E2 in Hok; [done|].
    rewrite E1, E2. unfold mbind, res_bind. rewrite Hok.
    apply IH; [by eapply lc_step_wf|].
    exists pre, post, st'. rewrite <- app_assoc. apply Forall_cons in H1 as [_ ?].
      repeat split; auto.
Qed.

End lifecycle.
Arguments LogEvent key : clear implicits.
Arguments DomainLog key : clear implicits.
Arguments DomainSnapshot key : clear implicits.
Arguments lc_state key : clear implicits.

(** ** Further lemmas on runs *)
Section runs.
Context {key : Type} `{!KeyOps key}.
Implicit Types (e : LogEvent key) (es : list (LogEvent key)) (st : lc_state key).

Definition terminal_type (t : LogEventType) : bool :=
  type_eqb t LogEventRevocation || type_eqb t LogEventRetirement.

(** The operational keys of a history, oldest first: each rotation in turn. *)
Definition rotations (es : list (LogEvent key)) : list (string * string) :=
  omap (fun e => if type_eqb (Type_ e) LogEventKeyRotation
                 then Some (PreviousOperationalThumbprint e, NewOperationalThumbprint e)
                 else None) es.

(** [rotation_path t rs t']: the rotations lead from [t] to [t'] without a
    break, every one to a different key. *)
Inductive rotation_path : string -> list (string * string) -> string -> Prop :=
| path_nil t : rotation_path t [] t
| path_cons t t' rs t'' :
    t <> t' -> rotation_path t' rs t'' -> rotation_path t ((t, t') :: rs) t''.

Definition lc_thumb st : string :=
  match st with Unissued => "" | Live _ t _ _ | Ended _ _ t _ _ => t end.

Lemma lc_run_ended how k t since gi es st :
  lc_run (Ended how k t since gi) es st -> es = [].
Proof. by inversion 1 as [|? ? ? ? ? Hs]; [|inversion Hs]. Qed.

Lemma lc_run_from_live k t since gi es st :
  lc_run (Live k t since gi) es st ->
  Forall (fun e => Type_ e <> LogEventIssuance) es /\
  (forall pre e post, es = pre ++ e :: post -> terminal_type (Type_ e) = true -> post = []) /\
  rotation_path t (rotations es) (lc_thumb st) /\
  match st with
  | Unissued => False
  | Live _ _ _ _ => Forall (fun e => terminal_type (Type_ e) = false) es
  | Ended how _ _ _ _ => exists e, last es = Some e /\
      Type_ e = match how with AgentStateRevoked => LogEventRevocation | _ => LogEventRetirement end
      /\ (how = AgentStateRevoked \/ how = AgentStateRetired)
  end.
Proof.
  revert k t since gi. induction es as [|e es IH]; intros k t since gi Hrun.
  { inversion Hrun; subst. split_and!; try constructor. by intros []. }
  inversion Hrun as [|? ? st1 ? ? Hs Hrun']; subst.
  assert (Hlive : forall k1 t1 s1 g1, st1 = Live k1 t1 s1 g1 ->
    Type_ e <> LogEventIssuance -> terminal_type (Type_ e) = false ->
    rotation_path t (rotations [e]) t1 ->
    Forall (fun e => Type_ e <> LogEventIssuance) (e :: es) /\
    (forall pre e' post, e :: es = pre ++ e' :: post ->
       terminal_type (Type_ e') = true -> post = []) /\
    rotation_path t (rotations (e :: es)) (lc_thumb st) /\
    match st with
    | Unissued => False
    | Live _ _ _ _ => Forall (fun e => terminal_type (Type_ e) = false) (e :: es)
    | Ended how _ _ _ _ => exists e', last (e :: es) = Some e' /\
        Type_ e' = match how with AgentStateRevoked => LogEventRevocation | _ => LogEventRetirement end
        /\ (how = AgentStateRevoked \/ how = AgentStateRetired)
    end).
  { intros k1 t1 s1 g1 -> Hty Hnt Hp. apply IH in Hrun' as (H1 & H2 & H3 & H4).
    split_and!.
    - by constructor.
    - intros [|? pre] e' post Heq Hte; injection Heq as <- Heq; [congruence|by eapply H2].
    - unfold rotations in *. cbn in *. destruct (type_eqb _ _); inversion Hp; subst.
      + match goal with H : rotation_path _ [] _ |- _ => inversion H; subst end.
        by constructor.
      + done.
    - destruct st; [done|by constructor|]. destruct H4 as (e' & Hl & ?).
      exists e'. split; [|done]. by destruct es. }
  inversion Hs; subst; try (eapply Hlive; [done| | |];
    [congruence
    |unfold terminal_type, type_eqb; rewrite !bool_decide_false by congruence; done
    |unfold rotations, type_eqb; cbn;
     first [rewrite bool_decide_true by done; constructor; [congruence|constructor]
           |rewrite bool_decide_false by congruence; constructor]]).
  all: pose proof (lc_run_ended _ _ _ _ _ _ _ Hrun') as ->; inversion Hrun'; subst; cbn.
  all: unfold rotations, type_eqb; cbn; rewrite bool_decide_false by congruence.
  all: split_and!; [repeat constructor; congruence| |constructor|eauto].
  all: intros pre e' post Heq _; destruct pre as [|? [|? ?]]; cbn in Heq; congruence.
Qed.

Lemma lc_run_nonempty es st : lc_run Unissued es st -> es <> [] -> st <> Unissued.
Proof.
  inversion 1 as [|? ? ? ? ? Hs Hr]; subst; [done|]. intros _ ->. inversion Hs; subst.
  by apply lc_run_from_live in Hr as (_ & _ & _ & []).
Qed.

Lemma logMethodRE_no_colon m : logMethodRE m = true -> has_byte ":"%char m = false.
Proof.
  destruct m as [|c m]; [done|]. cbn [logMethodRE]. intros [Hc Hm]%andb_true_iff.
  rewrite has_byte_cons. apply orb_false_iff. split.
  - destruct (Ascii.eqb_spec c ":"%char) as [->|]; [by vm_compute in Hc|done].
  - apply has_byte_false. revert Hm. apply forall_byte_impl. intros a Ha.
    destruct (Ascii.eqb_spec a ":"%char) as [->|]; [by vm_compute in Ha|done].
Qed.
#[local] Hint Resolve logMethodRE_no_colon : go.

Lemma snapshot_at_final d at_ pre st :
  lc_run Unissued pre st ->
  bool_decide (HistoricalState (snap_of d at_ pre st) = None)
  || bool_decide (ActiveKey (snap_of d at_ pre st) = None) = bool_decide (pre = []).
Proof.
  intros Hr. destruct (decide (pre = [])) as [->|Hne].
  - by inversion Hr; subst.
  - pose proof (lc_run_nonempty _ _ Hr Hne). rewrite (bool_decide_false (pre = [])) by done.
    by destruct st.
Qed.

Lemma snapshot_at_run d es at_ (s : DomainSnapshot key) :
  SnapshotAt (Some (NewDomainLog d es)) at_ = Ok s ->
  exists pre post st, accepted_split d at_ es pre post /\ pre <> [] /\
    lc_run Unissued pre st /\ s = snap_of d at_ pre st.
Proof.
  unfold SnapshotAt. cbn [log_events log_domain NewDomainLog].
  change (empty_snapshot d at_) with (snap_of (key:=key) d at_ [] Unissued).
  intros H. go_inv. apply (snapshot_loop_spec d at_ [] Unissued) in Heqr as
    (pre & post & st & Hsp & Hr & ->); [|done].
  cbn [app] in *. rewrite snapshot_at_final in Heqb0 by done.
  apply bool_decide_eq_false in Heqb0. by exists pre, post, st.
Qed.

Lemma run_snapshot_at d es at_ pre post st :
  accepted_split d at_ es pre post -> pre <> [] -> lc_run (key:=key) Unissued pre st ->
  SnapshotAt (Some (NewDomainLog d es)) at_ = Ok (snap_of d at_ pre st).
Proof.
  intros Hsp Hne Hr. unfold SnapshotAt. cbn [log_events log_domain NewDomainLog].
  change (empty_snapshot d at_) with (snap_of (key:=key) d at_ [] Unissued).
  rewrite bool_decide_false by (destruct Hsp as (-> & _ & _); by destruct pre).
  rewrite (proj2 (snapshot_loop_spec d at_ [] Unissued es (snap_of d at_ pre st) I))
    by (by exists pre, post, st).
  cbn. rewrite snapshot_at_final by done. by rewrite bool_decide_false.
Qed.

Lemma lc_run_snoc st es st' e st'' :
  lc_run (key:=key) st es st' -> lc_step st' e st'' -> lc_run st (es ++ [e]) st''.
Proof. induction 1; intros; cbn; econstructor; eauto; constructor. Qed.

(** ** Properties *)

(** [SnapshotAt] succeeds exactly when the events at or before [at] form
    a non-empty prefix of the log, every event names the log's domain, and
    the prefix is a run of the abstract lifecycle; the snapshot returned is
    the one of the state that run reaches. *)
Theorem snapshot_at_refines d es at_ (s : DomainSnapshot key) :
  SnapshotAt (Some (NewDomainLog d es)) at_ = Ok s <->
  exists pre post st,
    accepted_split d at_ es pre post /\ pre <> [] /\
    lc_run Unissued pre st /\ s = snap_of d at_ pre st.
Proof.
  split; [apply snapshot_at_run|]. intros (pre & post & st & Hsp & Hne & Hr & ->).
  by eapply run_snapshot_at.
Qed.

(** In an accepted snapshot the genesis is the only ISSUANCE, a
    REVOCATION or RETIREMENT is the last event of the prefix, and the state
    is REVOKED or RETIRED exactly when the prefix ends with that event. *)
Theorem snapshot_terminal_is_final l at_ (s : DomainSnapshot key) :
  SnapshotAt (Some l) at_ = Ok s ->
  exists g rest, Events s = g :: rest /\ Type_ g = LogEventIssuance /\
    Forall (fun e => Type_ e <> LogEventIssuance) rest /\
    (forall pre e post, Events s = pre ++ e :: post ->
       terminal_type (Type_ e) = true -> post = []) /\
    (HistoricalState s = Some AgentStateRevoked <->
       exists e, last (Events s) = Some e /\ Type_ e = LogEventRevocation) /\
    (HistoricalState s = Some AgentStateRetired <->
       exists e, last (Events s) = Some e /\ Type_ e = LogEventRetirement).
Proof.
  intros H. destruct l as [d es]. apply snapshot_at_run in H as (pre & _ & st & _ & Hne & Hr & ->).
  inversion Hr as [|? g st1 rest ? Hs Hr']; subst; [done|]. inversion Hs; subst.
  apply lc_run_from_live in Hr' as (Hni & Hterm & _ & Hst).
  exists g, rest.
  assert (Hev : Events (snap_of d at_ (g :: rest) st) = g :: rest) by (by destruct st).
  rewrite Hev. split_and!; try done.
  - intros [|? pre] e post Heq Hte; injection Heq as <- Heq.
    + unfold terminal_type, type_eqb in Hte. by rewrite !bool_decide_false in Hte by congruence.
    + by eapply Hterm.
  - destruct st as [|k t si gi|how k t si gi]; [done| |].
    + split; [done|]. intros (e & Hl & Hty). exfalso.
      apply last_Some_elem_of, elem_of_cons in Hl as [->|Hin]; [congruence|].
      rewrite Forall_forall in Hst. apply Hst in Hin.
      unfold terminal_type in Hin. by rewrite Hty in Hin.
    + destruct Hst as (e & Hl & Hty & Hhow). assert (last (g :: rest) = Some e) as -> by (by destruct rest).
      destruct Hhow as [-> | ->]; cbn; split; intros Hx;
        [eexists; split; [done|exact Hty]|by destruct Hx as (? & [= <-] & ?); congruence
        |congruence|destruct Hx as (? & [= <-] & ?); congruence].
  - destruct st as [|k t si gi|how k t si gi]; [done| |].
    + split; [done|]. intros (e & Hl & Hty). exfalso.
      apply last_Some_elem_of, elem_of_cons in Hl as [->|Hin]; [congruence|].
      rewrite Forall_forall in Hst. apply Hst in Hin.
      unfold terminal_type in Hin. by rewrite Hty in Hin.
    + destruct Hst as (e & Hl & Hty & Hhow). assert (last (g :: rest) = Some e) as -> by (by destruct rest).
      destruct Hhow as [-> | ->]; cbn; split; intros Hx;
        [congruence|destruct Hx as (? & [= <-] & ?); congruence
        |eexists; split; [done|exact Hty]|by destruct Hx as (? & [= <-] & ?); congruence].
Qed.

(** The active key of an accepted snapshot is reached from the ISSUANCE
    operational key by an unbroken path through the rotations of the prefix,
    each from the current key to a different one. *)
Theorem snapshot_key_continuity l at_ (s : DomainSnapshot key) :
  SnapshotAt (Some l) at_ = Ok s ->
  exists g rest, Events s = g :: rest /\
    rotation_path (InitialOperationalThumbprint g) (rotations rest) (ActiveKeyThumbprint s) /\
    keyThumbprint (InitialOperationalPublicKey g) = Ok (InitialOperationalThumbprint g).
Proof.
  intros H. destruct l as [d es]. apply snapshot_at_run in H as (pre & _ & st & _ & Hne & Hr & ->).
  inversion Hr as [|? g st1 rest ? Hs Hr']; subst; [done|]. inversion Hs; subst.
  apply lc_run_from_live in Hr' as (_ & _ & Hp & Hst). exists g, rest.
  assert (Hk : keyThumbprint (InitialOperationalPublicKey g) = Ok (InitialOperationalThumbprint g)).
  { eapply proj1, keyThumbprint_has_thumb. eauto. }
  by destruct st.
Qed.

(** [ParseLogRef] accepts exactly [method:entry] with a well-formed
    method, splitting at the first colon. *)
Theorem parse_log_ref_spec lr m entry :
  ParseLogRef lr = Ok (m, entry) <->
  lr = String.append m (String ":" entry) /\ logMethodRE m = true.
Proof.
  unfold ParseLogRef. split.
  - destruct (cut ":"%char lr) as [[m' e']|] eqn:E; [|done]. intros H. go_inv.
    apply negb_false_iff in Heqb0. by apply cut_Some in E as [-> _].
  - intros [-> Hm]. rewrite cut_append by auto with go.
    rewrite Hm. destruct m; done.
Qed.

(** After registering a factory, an [lr] of that method is read by it
    and every other [lr] is read as before; an unregistered method always
    yields the reader that fails every evidence operation. *)
Theorem register_new_reader {reader} (r r' : gmap string (string -> option reader)) m f lr m' entry :
  Register r m (Some f) = Ok r' -> ParseLogRef lr = Ok (m', entry) ->
  logMethodRE m = true /\
  NewReader (Some r') lr =
    (if str_eqb m' m then Ok (match f lr with Some rd => BoundReader rd | None => NoopLogReader m' end)
     else NewReader (Some r) lr) /\
  (r !! m' = None -> NewReader (Some r) lr = Ok (NoopLogReader m')).
Proof.
  unfold Register, NewReader. intros H Hp. go_inv. apply negb_false_iff in Heqb.
  rewrite Hp. unfold mbind, res_bind. split_and!; [done| |by intros ->].
  destruct (str_eqb m' m) eqn:E.
  - apply str_eqb_eq in E as ->. rewrite lookup_insert_eq. by destruct (f lr).
  - apply str_eqb_neq in E. by rewrite lookup_insert_ne.
Qed.

End runs.

(** ** A concrete history, used to evaluate the model *)
Section demo.
Open Scope string_scope.

Definition demo_op1 : demo_key := {| demo_kid := "op1"; demo_pub := "operational-key-number-one-32byt" |}.
Definition demo_op2 : demo_key := {| demo_kid := "op2"; demo_pub := "operational-key-number-two-32byt" |}.
Definition demo_ek : demo_key := {| demo_kid := "ek1"; demo_pub := "accountable-entity-key-one-32byt" |}.
Definition demo_thumb (k : demo_key) : string := Base64.encode (sha256 (demo_pub k)).

Definition blank_event (t : LogEventType) (d : string) (ts : time) : LogEvent demo_key :=
  {| Type_ := t; InitialEntityKid := ""; InitialEntityPublicKey := None;
     InitialEntityThumbprint := ""; InitialEntitySignature := ""; InitialOperationalKid := "";
     InitialOperationalPublicKey := None; InitialOperationalThumbprint := "";
     InitialOperationalSignature := ""; PreviousOperationalKid := "";
     PreviousOperationalThumbprint := ""; PreviousOperationalSignature := "";
     NewOperationalKid := ""; NewOperationalPublicKey := None; NewOperationalThumbprint := "";
     NewOperationalSignature := ""; Domain := d; Timestamp := ts; GovernanceID := "";
     Reason := ""; PreviousLog := ""; NewLog := ""; FinalEntryRef := ""; Delegatee := "";
     Scope := ""; Expiry := 0 |}.

Definition demo_issue : LogEvent demo_key :=
  {| Type_ := LogEventIssuance; InitialEntityKid := "ek1"; InitialEntityPublicKey := Some demo_ek;
     InitialEntityThumbprint := demo_thumb demo_ek; InitialEntitySignature := "";
     InitialOperationalKid := "op1"; InitialOperationalPublicKey := Some demo_op1;
     InitialOperationalThumbprint := demo_thumb demo_op1; InitialOperationalSignature := "";
     PreviousOperationalKid := ""; PreviousOperationalThumbprint := "";
     PreviousOperationalSignature := ""; NewOperationalKid := ""; NewOperationalPublicKey := None;
     NewOperationalThumbprint := ""; NewOperationalSignature := "";
     Domain := "agent.example"; Timestamp := 10; GovernanceID := "example"; Reason := "";
     PreviousLog := ""; NewLog := ""; FinalEntryRef := ""; Delegatee := ""; Scope := "";
     Expiry := 0 |}.

Definition demo_rotate : LogEvent demo_key :=
  {| Type_ := LogEventKeyRotation; InitialEntityKid := ""; InitialEntityPublicKey := None;
     InitialEntityThumbprint := ""; InitialEntitySignature := ""; InitialOperationalKid := "";
     InitialOperationalPublicKey := None; InitialOperationalThumbprint := "";
     InitialOperationalSignature := ""; PreviousOperationalKid := "op1";
     PreviousOperationalThumbprint := demo_thumb demo_op1; PreviousOperationalSignature := "";
     NewOperationalKid := "op2"; NewOperationalPublicKey := Some demo_op2;
     NewOperationalThumbprint := demo_thumb demo_op2; NewOperationalSignature := "";
     Domain := "Agent.Example"; Timestamp := 20; GovernanceID := ""; Reason := "";
     PreviousLog := ""; NewLog := ""; FinalEntryRef := ""; Delegatee := ""; Scope := "";
     Expiry := 0 |}.

Definition demo_history : list (LogEvent demo_key) :=
  [demo_issue; demo_rotate; blank_event LogEventRetirement "agent.example" 30].
Definition demo_log : DomainLog demo_key := NewDomainLog "agent.example" demo_history.
Definition snap_or (r : res (DomainSnapshot demo_key)) : DomainSnapshot demo_key :=
  match r with Ok s => s | Err _ => empty_snapshot "" 0 end.

Lemma snapshot_terminal_is_final_witness :
  exists g rest, Events (snap_or (SnapshotAt (Some demo_log) 30)) = g :: rest
    /\ Type_ g = LogEventIssuance.
Proof.
  destruct (snapshot_terminal_is_final demo_log 30 (snap_or (SnapshotAt (Some demo_log) 30)))
    as (g & rest & H1 & H2 & _); [vm_compute; reflexivity|]. exists g, rest. split; assumption.
Defined.

Lemma snapshot_key_continuity_witness :
  exists g rest, Events (snap_or (SnapshotAt (Some demo_log) 25)) = g :: rest /\
    rotation_path (InitialOperationalThumbprint g) (rotations rest) (demo_thumb demo_op2).
Proof.
  destruct (snapshot_key_continuity demo_log 25 (snap_or (SnapshotAt (Some demo_log) 25)))
    as (g & rest & H1 & H2 & _); [vm_compute; reflexivity|]. exists g, rest.
  split; [assumption|]. exact H2.
Defined.

Lemma register_new_reader_witness :
  NewReader (Some (<["c2sp-tlog" := fun lr => Some lr]> ∅)) "c2sp-tlog:public:x"
  = Ok (BoundReader "c2sp-tlog:public:x").
Proof.
  destruct (register_new_reader (reader:=string) ∅ (<["c2sp-tlog" := fun lr => Some lr]> ∅)
    "c2sp-tlog" (fun lr => Some lr) "c2sp-tlog:public:x" "c2sp-tlog" "public:x")
    as (_ & H & _); [reflexivity|reflexivity|]. rewrite H. reflexivity.
Defined.
End demo.
