(* ===== verification/LogReader.v ===== *)
(** * LogReader: what the verifier needs of a lifecycle log

    The interface of log/log.go between the identity manager and a log method:
    the operations of a reader as a record, the reader of an unregistered
    method, and the class [LifecycleEvidence] of what a successful binding
    promises. ReaderSpec.v proves it for the client of c2sp-tlog; Manager.v
    uses it without knowing the client. *)

From Stdlib Require Import ZArith Lia Ascii String.
From S2P Require Import Prelude Codec Keys Lifecycle.

Open Scope Z_scope.

Record BilateralBinding := {
  bb_InitialOperationalThumbprint : string;
  bb_InitialEntityThumbprint : string;
  bb_Timestamp : time
}.

Section reader.
Context {key : Type} `{!KeyOps key}.

Record BilateralBindingInput := {
  in_Domain : string;
  in_GovernanceID : string;
  in_EntityKey : option key;
  in_OperationalKey : option key
}.

(** The operations of a reader that a verification calls; an interface the
    reader may lack ([LifecycleBindingVerifier], governance) is an option. *)
Record LogReader := {
  lr_KeyTimestamp : string -> string -> res time;
  lr_VerifyBilateralBinding : BilateralBindingInput -> res BilateralBinding;
  lr_VerifyOperationalContinuity : string -> string -> string -> res unit;
  lr_VerifyLifecycleBinding : option (BilateralBindingInput -> string -> res BilateralBinding);
  lr_VerifyGovernanceRelationship : option (string -> string -> res unit)
}.

(** [NoopLogReader]: every verification fails. *)
Definition NoopLogReader : LogReader :=
  let e := PlainError "dnsid: no log reader is registered for the log method" in
  {| lr_KeyTimestamp _ _ := Err e; lr_VerifyBilateralBinding _ := Err e; lr_VerifyOperationalContinuity _ _ _ := Err e;
     lr_VerifyLifecycleBinding := None; lr_VerifyGovernanceRelationship := None |}.

(** A history that binds the record's entity key and governance to the
    operational key in use at [now]: an ISSUANCE, the rest up to [now] with the
    rotations from its key to the current one, and what is later. *)
Definition lifecycle_bound (events : list (LogEvent key)) (input : BilateralBindingInput) (current : string) (now : time) : Prop :=
  exists (g : LogEvent key) rest post, events = g :: rest ++ post /\
    Type_ g = LogEventIssuance /\ equal_fold (Lifecycle.Domain g) (in_Domain input) = true /\
    GovernanceID g = in_GovernanceID input /\
    (exists t, keyThumbprint (InitialEntityPublicKey g) = Ok t /\ keyThumbprint (in_EntityKey input) = Ok t) /\
    keyThumbprint (InitialOperationalPublicKey g) = Ok (InitialOperationalThumbprint g) /\
    rotation_path (InitialOperationalThumbprint g) (rotations rest) current /\
    Forall (fun e => Timestamp e <= now) rest /\ Forall (fun e => now < Timestamp e) post /\
    Forall (fun e => terminal_type (Type_ e) = true -> now < Timestamp e) events.

(** What a reader promises of the bindings it accepts: they are about a
    history it knows of the domain. What it is to know one is the reader's:
    [known domain events]. *)
Class LifecycleEvidence (r : LogReader) (now : time) (known : string -> list (LogEvent key) -> Prop) : Prop := {
  lifecycle_binding_sound f input current b :
    lr_VerifyLifecycleBinding r = Some f -> f input current = Ok b ->
    exists events, known (in_Domain input) events /\ lifecycle_bound events input current now;
  separate_bindings_sound input current b :
    lr_VerifyLifecycleBinding r = None -> lr_VerifyBilateralBinding r input = Ok b ->
    lr_VerifyOperationalContinuity r (in_Domain input) (bb_InitialOperationalThumbprint b) current = Ok tt ->
    exists events, known (in_Domain input) events /\ lifecycle_bound events input current now
}.

(** A reader that never succeeds promises it trivially, and knows no history. *)
#[export] Instance noop_evidence now : LifecycleEvidence NoopLogReader now (fun _ _ => False).
Proof. by split. Qed.
End reader.
