(* ===== verification/TxtRecord.v ===== *)
(** * TxtRecord: the _dnsid TXT record of identity_record.go

    Parsing, the tag view of a record, wire serialization and the canonical
    content that is signed. Go maps are [gmap]s; iteration over a Go map is
    always followed by a sort in this file's sources, so its order does not
    show. A record pointer that may be nil is an [option]. *)

From Stdlib Require Import ZArith Lia Ascii String.
From S2P Require Import Prelude Codec.

Open Scope string_scope.
Open Scope list_scope.

(** ** Profiles and tag names *)
Definition identityRecordDraft01 : string := "dnsid-draft-01".
Definition identityRecordDNSid1 : string := "DNSid1".
Definition DefaultPublishProfile : string := identityRecordDraft01.

Definition irTagVersion : string := "v".
Definition irTagKeyURI : string := "ku".
Definition irTagLogRef : string := "lr".
Definition irTagStatusURI : string := "su".
Definition irTagSignature : string := "sg".
Definition irTagGovernanceID : string := "gi".
Definition irTagEntityKeyURI : string := "ek".
Definition irTagFlags : string := "fl".
Definition irTagKeyAge : string := "ka".
Definition irTagCapabilities : string := "cu".

Inductive identityRecordSignatureFormat := signatureFormatDraft01.

Record identityRecordProfile := {
  requiredTags : list string;
  alphabeticCanonical : bool;
  signatureFormat : identityRecordSignatureFormat
}.

Definition draft01Profile : identityRecordProfile :=
  {| requiredTags := [irTagGovernanceID; irTagEntityKeyURI; irTagKeyURI; irTagLogRef; irTagStatusURI];
     alphabeticCanonical := true; signatureFormat := signatureFormatDraft01 |}.

Definition identityRecordProfiles : gmap string identityRecordProfile :=
  {[ identityRecordDraft01 := draft01Profile; identityRecordDNSid1 := draft01Profile ]}.

Definition profileForVersion (v : string) : option identityRecordProfile :=
  identityRecordProfiles !! v.

Definition isSupportedVersion (v : string) : bool :=
  bool_decide (is_Some (profileForVersion v)).

Definition baseRequiredTagNames : list string := [irTagKeyURI; irTagStatusURI].

Definition versionSpecificRequiredTagNames (v : string) : list string :=
  match profileForVersion v with
  | None => []
  | Some profile =>
      List.filter (fun name => negb (str_eqb name irTagKeyURI) && negb (str_eqb name irTagStatusURI))
        (requiredTags profile)
  end.

Definition requiredTagNamesForVersion (v : string) : list string :=
  match profileForVersion v with None => [] | Some profile => requiredTags profile end.

Definition ValidKeyAgeValues (ka : string) : bool :=
  bool_decide (ka ∈ ["24h"; "7d"; "30d"; "90d"]).

Definition isKnownIdentityRecordTag (name : string) : bool :=
  bool_decide (name ∈ [irTagGovernanceID; irTagEntityKeyURI; irTagKeyURI; irTagLogRef;
    irTagStatusURI; irTagSignature; irTagFlags; irTagKeyAge; irTagCapabilities]).

(** ** Records and their tags *)
Record TXTRecord := {
  Version : string;
  GovernanceID : string;
  EntityKeyURI : string;
  KeyURI : string;
  LogRef : string;
  StatusURI : string;
  Signature : string;
  Flags : list string;
  KeyAge : string;
  Capabilities : string;
  UnknownTags : gmap string string;
  parsedTags : gmap string string
}.

Definition recordValueForTag (rec : TXTRecord) (name : string) : string :=
  if str_eqb name irTagVersion then Version rec
  else if str_eqb name irTagGovernanceID then GovernanceID rec
  else if str_eqb name irTagEntityKeyURI then EntityKeyURI rec
  else if str_eqb name irTagKeyURI then KeyURI rec
  else if str_eqb name irTagLogRef then LogRef rec
  else if str_eqb name irTagStatusURI then StatusURI rec
  else if str_eqb name irTagSignature then Signature rec
  else if str_eqb name irTagFlags then join "," (Flags rec)
  else if str_eqb name irTagKeyAge then KeyAge rec
  else if str_eqb name irTagCapabilities then Capabilities rec
  else "".

Definition missingRequiredRecordTag (rec : option TXTRecord) : string :=
  match rec with
  | None => irTagVersion
  | Some rec =>
      if is_empty (Version rec) then irTagVersion
      else match List.find (fun name => is_empty (recordValueForTag rec name))
                   (requiredTagNamesForVersion (Version rec)) with
           | Some name => name
           | None => ""
           end
  end.

Definition WithSignature (r : TXTRecord) (sig : string) : TXTRecord :=
  {| Version := Version r; GovernanceID := GovernanceID r; EntityKeyURI := EntityKeyURI r;
     KeyURI := KeyURI r; LogRef := LogRef r; StatusURI := StatusURI r; Signature := sig;
     Flags := Flags r; KeyAge := KeyAge r; Capabilities := Capabilities r;
     UnknownTags := UnknownTags r; parsedTags := parsedTags r |}.

(** [if value != "" { tags[name] = value }]. *)
Definition set_tag (name value : string) (tags : gmap string string) : gmap string string :=
  if is_empty value then tags else <[name := value]> tags.

Definition Tags (r : TXTRecord) : gmap string string :=
  let tags := map_imap (fun name _ =>
    if str_eqb name irTagVersion || isKnownIdentityRecordTag name
    then Some (recordValueForTag r name) else None) (parsedTags r) in
  let tags := set_tag irTagVersion (Version r) tags in
  let tags := set_tag irTagGovernanceID (GovernanceID r) tags in
  let tags := set_tag irTagEntityKeyURI (EntityKeyURI r) tags in
  let tags := set_tag irTagKeyURI (KeyURI r) tags in
  let tags := set_tag irTagLogRef (LogRef r) tags in
  let tags := set_tag irTagStatusURI (StatusURI r) tags in
  let tags := set_tag irTagSignature (Signature r) tags in
  let tags := if bool_decide (Flags r = []) then tags
              else <[irTagFlags := join "," (Flags r)]> tags in
  let tags := set_tag irTagKeyAge (KeyAge r) tags in
  let tags := set_tag irTagCapabilities (Capabilities r) tags in
  map_imap (fun name value =>
    if str_eqb name irTagVersion || isKnownIdentityRecordTag name then None else Some value)
    (UnknownTags r) ∪ tags.

Definition knownTags (r : TXTRecord) : gmap string string :=
  map_imap (fun name value =>
    if str_eqb name irTagVersion || isKnownIdentityRecordTag name then Some value else None)
    (Tags r).

(** ** Serialization *)
(** [fmt.Sprintf("%s=%s", name, value)]. *)
Definition tag_pair (name value : string) : string := String.append name (String "=" value).
Definition tag_names (tags : gmap string string) : list string := (map_to_list tags).*1.
Definition tag_value (tags : gmap string string) (name : string) : string := default "" (tags !! name).

Definition orderedNonVersionTagNames (tags : gmap string string) : list string :=
  sort_strings (List.filter (fun name => negb (str_eqb name irTagVersion)) (tag_names tags)).

Definition serializeTags (tags : gmap string string) : string :=
  join ";" (match tags !! irTagVersion with Some v => [tag_pair irTagVersion v] | None => [] end
            ++ ((fun name => tag_pair name (tag_value tags name)) <$> orderedNonVersionTagNames tags)).

Definition serializeTagsAlphabetical (tags : gmap string string) : string :=
  join ";" ((fun name => tag_pair name (tag_value tags name)) <$> sort_strings (tag_names tags)).

Definition usesFullAlphabeticCanon (v : string) : bool :=
  match profileForVersion v with Some profile => alphabeticCanonical profile | None => false end.

Definition canonical_of (v : string) (tags : gmap string string) : string :=
  if usesFullAlphabeticCanon v then serializeTagsAlphabetical tags else serializeTags tags.

Definition KnownTagsCanonical (r : TXTRecord) : string :=
  canonical_of (Version r) (delete irTagSignature (knownTags r)).

Definition CanonicalContent (r : TXTRecord) : string :=
  canonical_of (Version r) (delete irTagSignature (Tags r)).

Definition Canonical (r : option TXTRecord) : string :=
  match r with None => "" | Some r => CanonicalContent r end.

Definition isASCIIAlpha (c : ascii) : bool :=
  let n := byte_val c in
  ((65 <=? n) && (n <=? 90))%Z || ((97 <=? n) && (n <=? 122))%Z.
Definition isASCIIDigit (c : ascii) : bool :=
  let n := byte_val c in ((48 <=? n) && (n <=? 57))%Z.

Definition isValidTXTTagName (name : string) : bool :=
  match name with
  | EmptyString => false
  | String c rest =>
      isASCIIAlpha c && forall_byte (fun c => isASCIIAlpha c || isASCIIDigit c || Ascii.eqb c "_") rest
  end.

Definition valid_value_byte (c : ascii) : bool :=
  let n := byte_val c in ((33 <=? n) && (n <=? 126))%Z && negb (Ascii.eqb c ";").
Definition isValidTXTTagValue (value : string) : bool := forall_byte valid_value_byte value.

Fixpoint validate_pairs (l : list (string * string)) : res unit :=
  match l with
  | [] => Ok tt
  | (name, value) :: l' =>
      fail_if negb (isValidTXTTagName name) with ValidationError "dnsid: invalid tag name" ;;
      fail_if negb (isValidTXTTagValue value) with ValidationError "dnsid: invalid tag value" ;;
      validate_pairs l'
  end.
Definition validateTXTTagSyntax (tags : gmap string string) : res unit :=
  validate_pairs (map_to_list tags).

Definition validateRequiredTags (r : option TXTRecord) (includeSignature : bool) : res unit :=
  match r with
  | None => Err (ValidationError "dnsid: required tag v is missing")
  | Some r =>
      fail_if is_empty (Version r) with ValidationError "dnsid: required tag v is missing" ;;
      fail_if negb (isSupportedVersion (Version r)) with ValidationError "dnsid: unrecognized version" ;;
      fail_if negb (is_empty (missingRequiredRecordTag (Some r)))
        with ValidationError "dnsid: required tag is missing" ;;
      fail_if includeSignature && is_empty (Signature r)
        with ValidationError "dnsid: required tag sg is missing" ;;
      Ok tt
  end.

Definition MarshalTXT (r : TXTRecord) : res string :=
  _ ← validateRequiredTags (Some r) true;
  _ ← validateTXTTagSyntax (Tags r);
  Ok (serializeTags (Tags r)).

Definition Serialize (r : option TXTRecord) : string :=
  match r with
  | None => ""
  | Some r => match MarshalTXT r with Ok out => out | Err _ => "" end
  end.

(** ** Parsing *)
Definition trim_space (elem : string) : string :=
  match elem with String c rest => if Ascii.eqb c " " then rest else elem | EmptyString => elem end.

(** The loop over [strings.Split(txt, ";")] that both parsers share. [first]
    is [i == 0]; the last element is the one with nothing after it. The
    unsigned parser also rejects [sg] ([reject_sg]) in this loop. *)
Fixpoint parse_tags (reject_sg first : bool) (pairs : list string)
    (tags : gmap string string) (orderedNames : list string)
    : res (gmap string string * list string) :=
  match pairs with
  | [] => Ok (tags, orderedNames)
  | elem :: rest =>
      if is_empty elem then
        match rest with
        | [] => Ok (tags, orderedNames)
        | _ => Err (ParseError "dnsid: empty tag-value element")
        end
      else
        let elem := if first then elem else trim_space elem in
        match cut "=" elem with
        | None => Err (ParseError "dnsid: invalid tag-value pair")
        | Some (name, value) =>
            fail_if is_empty name with ParseError "dnsid: invalid tag-value pair" ;;
            fail_if negb (isValidTXTTagName name) with ParseError "dnsid: invalid tag name" ;;
            fail_if negb (isValidTXTTagValue value) with ParseError "dnsid: invalid tag value" ;;
            fail_if bool_decide (is_Some (tags !! name)) with ParseError "dnsid: duplicate tag" ;;
            fail_if reject_sg && str_eqb name irTagSignature
              with ParseError "dnsid: unsigned canonical content must not include sg" ;;
            parse_tags reject_sg false rest (<[name := value]> tags) (orderedNames ++ [name])
        end
  end.

(** The required-tag loops of both parsers. *)
Definition required_present (v : string) (tags : gmap string string) : bool :=
  forallb (fun name => negb (is_empty (tag_value tags name)))
    (baseRequiredTagNames ++ versionSpecificRequiredTagNames v).

Definition parse_flags (fl : string) : list string := if is_empty fl then [] else split "," fl.

Definition unknown_tags (tags : gmap string string) : gmap string string :=
  map_imap (fun name value =>
    if negb (str_eqb name irTagVersion) && negb (isKnownIdentityRecordTag name)
    then Some value else None) tags.

(** The [TXTRecord] literal the parsers return. *)
Definition record_of (signature : string) (tags : gmap string string) : TXTRecord :=
  {| Version := tag_value tags irTagVersion; GovernanceID := tag_value tags irTagGovernanceID;
     EntityKeyURI := tag_value tags irTagEntityKeyURI; KeyURI := tag_value tags irTagKeyURI;
     LogRef := tag_value tags irTagLogRef; StatusURI := tag_value tags irTagStatusURI;
     Signature := signature; Flags := parse_flags (tag_value tags irTagFlags);
     KeyAge := tag_value tags irTagKeyAge; Capabilities := tag_value tags irTagCapabilities;
     UnknownTags := unknown_tags tags; parsedTags := tags |}.

Definition parseTXTRecord (txt : string) (requireSignature : bool) : res TXTRecord :=
  fail_if is_empty txt with ParseError "dnsid: empty TXT content" ;;
  '(tags, orderedNames) ← parse_tags false true (split ";" txt) ∅ [];
  fail_if negb (bool_decide (head orderedNames = Some irTagVersion))
    with ParseError "dnsid: v= must be the first tag" ;;
  let v := tag_value tags irTagVersion in
  fail_if negb (isSupportedVersion v) with ParseError "dnsid: unsupported version" ;;
  fail_if negb (required_present v tags) with ParseError "dnsid: required tag is missing" ;;
  fail_if requireSignature && is_empty (tag_value tags irTagSignature)
    with ParseError "dnsid: required tag sg is missing" ;;
  fail_if negb requireSignature && negb (is_empty (tag_value tags irTagSignature))
    with ParseError "dnsid: unsigned canonical content must not include sg" ;;
  let ka := tag_value tags irTagKeyAge in
  fail_if negb (is_empty ka) && negb (ValidKeyAgeValues ka)
    with ValidationError "dnsid: invalid ka value" ;;
  Ok (record_of (tag_value tags irTagSignature) tags).

Definition ParseTXTRecord (txt : string) : res TXTRecord := parseTXTRecord txt true.

Definition parseUnsignedCanonicalAlpha (txt : string) : res TXTRecord :=
  fail_if is_empty txt with ParseError "dnsid: empty TXT content" ;;
  '(tags, _) ← parse_tags true true (split ";" txt) ∅ [];
  let v := tag_value tags irTagVersion in
  fail_if is_empty v with ParseError "dnsid: v= tag not found" ;;
  fail_if negb (isSupportedVersion v) with ParseError "dnsid: unsupported version" ;;
  fail_if negb (usesFullAlphabeticCanon v)
    with ParseError "dnsid: unsigned canonical content is not in canonical order" ;;
  fail_if negb (required_present v tags) with ParseError "dnsid: required tag is missing" ;;
  let ka := tag_value tags irTagKeyAge in
  fail_if negb (is_empty ka) && negb (ValidKeyAgeValues ka)
    with ValidationError "dnsid: invalid ka value" ;;
  let rec := record_of "" tags in
  fail_if negb (str_eqb (CanonicalContent rec) txt)
    with ParseError "dnsid: unsigned canonical content is not in canonical order" ;;
  Ok rec.

(** [strings.HasPrefix(txt, "v=")] and the value up to the first [;]. *)
Definition leading_version (txt : string) : option string :=
  match txt with
  | String "v" (String "=" _) =>
      match split ";" txt with
      | String "v" (String "=" value) :: _ => Some value
      | p :: _ => Some p
      | [] => Some ""
      end
  | _ => None
  end.

Definition ParseUnsignedCanonical (txt : string) : res TXTRecord :=
  match leading_version txt with
  | Some value =>
      match profileForVersion value with
      | None => Err (ParseError "dnsid: unsupported version")
      | Some profile =>
          if alphabeticCanonical profile then parseUnsignedCanonicalAlpha txt
          else rec ← parseTXTRecord txt false;
               fail_if negb (str_eqb (CanonicalContent rec) txt)
                 with ParseError "dnsid: unsigned canonical content is not in canonical order" ;;
               Ok rec
      end
  | None => parseUnsignedCanonicalAlpha txt
  end.

(** ** Lemmas: syntax *)
Definition tag_or_version (name : string) : bool :=
  str_eqb name irTagVersion || isKnownIdentityRecordTag name.

Lemma valid_name_clean name :
  isValidTXTTagName name = true ->
  has_byte "=" name = false /\ has_byte ";" name = false /\ is_empty name = false /\
  forall v, trim_space (tag_pair name v) = tag_pair name v.
Proof.
  destruct name as [|c rest]; [done|]. cbn [isValidTXTTagName]. rewrite andb_true_iff.
  intros [Hc Hr].
  assert (Hneq : forall a b, isASCIIAlpha a || isASCIIDigit a || Ascii.eqb a "_" = true ->
    isASCIIAlpha b || isASCIIDigit b || Ascii.eqb b "_" = false -> negb (Ascii.eqb a b) = true).
  { intros a b Ha Hb. destruct (Ascii.eqb_spec a b); [congruence|done]. }
  assert (Hbyte : forall b, isASCIIAlpha b || isASCIIDigit b || Ascii.eqb b "_" = false ->
    has_byte b (String c rest) = false).
  { intros b Hb. apply has_byte_false. cbn. rewrite andb_true_iff. split.
    - apply Hneq; [by rewrite Hc|done].
    - revert Hr. apply forall_byte_impl. naive_solver. }
  split_and!; [by apply Hbyte|by apply Hbyte|done|].
  intros v. unfold tag_pair. rewrite append_cons. cbn [trim_space].
  destruct (Ascii.eqb_spec c " "); [subst; done|done].
Qed.

Lemma valid_value_no_semi v : isValidTXTTagValue v = true -> has_byte ";" v = false.
Proof.
  intros H. apply has_byte_false. revert H. apply forall_byte_impl.
  intros a. unfold valid_value_byte. by intros [_ Ha]%andb_true_iff.
Qed.

Definition valid_tag (nv : string * string) : Prop :=
  isValidTXTTagName nv.1 = true /\ isValidTXTTagValue nv.2 = true.

(** The text [pairs] spells the tag list [l]: what [parse_tags] reads. *)
Inductive tag_text : bool -> list string -> list (string * string) -> Prop :=
| tt_end first : tag_text first [] []
| tt_trailing first : tag_text first [""] []
| tt_pair first n v rest l :
    valid_tag (n, v) -> tag_text false rest l ->
    tag_text first (tag_pair n v :: rest) ((n, v) :: l)
| tt_space n v rest l :
    valid_tag (n, v) -> tag_text false rest l ->
    tag_text false (String " " (tag_pair n v) :: rest) ((n, v) :: l).

Lemma cut_tag_pair n v : isValidTXTTagName n = true -> cut "=" (tag_pair n v) = Some (n, v).
Proof. intros (H & _)%valid_name_clean. by apply cut_append. Qed.

Lemma tag_pair_not_empty n v : is_empty (tag_pair n v) = false.
Proof. apply is_empty_false. by destruct n. Qed.

(** One pair of the text, read by one iteration. *)
Lemma parse_tags_pair rs (first : bool) n v e rest tags ord :
  valid_tag (n, v) -> is_empty e = false ->
  (if first then e else trim_space e) = tag_pair n v ->
  parse_tags rs first (e :: rest) tags ord =
    if bool_decide (is_Some (tags !! n)) then Err (ParseError "dnsid: duplicate tag")
    else if rs && str_eqb n irTagSignature
    then Err (ParseError "dnsid: unsigned canonical content must not include sg")
    else parse_tags rs false rest (<[n := v]> tags) (ord ++ [n]).
Proof.
  intros [Hn Hv] He Htrim. cbn [parse_tags fst snd] in *. rewrite He, Htrim.
  rewrite cut_tag_pair by done. cbn in Hn, Hv.
  destruct (valid_name_clean n Hn) as (_ & _ & -> & _). by rewrite Hn, Hv.
Qed.

Lemma tag_text_step first pairs l :
  tag_text first pairs l ->
  match l with
  | [] => pairs = [] \/ pairs = [""]
  | (n, v) :: l' => exists e rest, pairs = e :: rest /\ valid_tag (n, v) /\ is_empty e = false /\
      (if first then e else trim_space e) = tag_pair n v /\ tag_text false rest l'
  end.
Proof.
  destruct 1; auto.
  - eexists _, _. split_and!; [done|done|apply tag_pair_not_empty| |done].
    destruct first; [done|]. apply valid_name_clean, H.
  - eexists _, _. by split_and!.
Qed.

Lemma tag_text_of_step (first : bool) n v e rest l :
  valid_tag (n, v) -> (if first then e else trim_space e) = tag_pair n v ->
  tag_text false rest l -> tag_text first (e :: rest) ((n, v) :: l).
Proof.
  intros Hv He Ht. destruct first; [subst; by constructor|].
  destruct e as [|c e]; cbn in He; [by destruct n|].
  destruct (Ascii.eqb_spec c " "); subst; [by constructor|]. rewrite He. by constructor.
Qed.

Lemma parse_tags_spec rs first pairs tags ord tags' ord' :
  parse_tags rs first pairs tags ord = Ok (tags', ord') <->
  exists l, tag_text first pairs l /\ NoDup l.*1 /\ Forall (fun n => tags !! n = None) l.*1 /\
    (rs = true -> irTagSignature ∉ l.*1) /\
    tags' = list_to_map l ∪ tags /\ ord' = ord ++ l.*1.
Proof.
  revert first tags ord tags' ord'. induction pairs as [|e rest IH]; intros first tags ord tags' ord'.
  { cbn [parse_tags]. split.
    - intros [= <- <-]. exists []. cbn. rewrite map_empty_union, app_nil_r.
      split_and!; [constructor|constructor|constructor|intros _; apply not_elem_of_nil|done|done].
    - intros (l & Ht & _ & _ & _ & -> & ->). inversion Ht; subst. cbn.
      by rewrite map_empty_union, app_nil_r. }
  split.
  - destruct (is_empty e) eqn:Ee.
    { cbn [parse_tags]. rewrite Ee. destruct rest; [|done]. intros [= <- <-].
      apply is_empty_true in Ee as ->. exists []. cbn. rewrite map_empty_union, app_nil_r.
      split_and!; [constructor|constructor|constructor|intros _; apply not_elem_of_nil|done|done]. }
    intros H.
    assert (exists n v, valid_tag (n, v) /\ (if first then e else trim_space e) = tag_pair n v)
      as (n & v & Hv & He).
    { cbn [parse_tags] in H. rewrite Ee in H.
      destruct (cut "=" (if first then e else trim_space e)) as [[n v]|] eqn:Ec; [|done].
      go_inv. apply negb_false_iff in Heqb0, Heqb1. exists n, v. split; [done|].
      by apply cut_Some in Ec as [-> _]. }
    rewrite (parse_tags_pair rs first n v) in H by done. go_inv.
    apply IH in H as (l & Ht & Hnd & Hf & Hsg & -> & ->).
    apply bool_decide_eq_false in Heqb. apply eq_None_not_Some in Heqb.
    exists ((n, v) :: l). cbn [fmap list_fmap fst]. split_and!.
    + by eapply tag_text_of_step.
    + constructor; [|done]. intros Hin. rewrite Forall_forall in Hf.
      apply Hf in Hin. by rewrite lookup_insert_eq in Hin.
    + constructor; [done|]. apply (Forall_impl _ _ _ Hf). intros m.
      rewrite lookup_insert_None. naive_solver.
    + intros ->. apply andb_false_iff in Heqb0 as [?|Hne]; [done|].
      apply str_eqb_neq in Hne. rewrite not_elem_of_cons. naive_solver.
    + cbn [list_to_map foldr uncurry]. cbn. rewrite <- insert_union_l.
      symmetry. apply insert_union_r, not_elem_of_list_to_map_1. intros Hin.
      rewrite Forall_forall in Hf. apply Hf in Hin. by rewrite lookup_insert_eq in Hin.
    + by rewrite <- app_assoc.
  - intros (l & Ht & Hnd & Hf & Hsg & -> & ->).
    apply tag_text_step in Ht. destruct l as [|[n v] l].
    { destruct Ht as [?|?]; simplify_eq. cbn. by rewrite map_empty_union, app_nil_r. }
    destruct Ht as (e' & rest' & [= <- <-] & Hv & Hne & He & Ht).
    cbn [fmap list_fmap fst] in *. apply NoDup_cons in Hnd as [Hnin Hnd].
    apply Forall_cons in Hf as [Hn Hf].
    rewrite (parse_tags_pair rs first n v) by done. rewrite Hn, bool_decide_false by (by intros []).
    replace (rs && str_eqb n irTagSignature) with false.
    2:{ destruct rs; [|done]. symmetry. apply str_eqb_neq. intros ->. set_solver. }
    apply IH. exists l. split_and!; try done.
    + rewrite Forall_forall in *. intros m Hm. rewrite lookup_insert_ne; [auto|set_solver].
    + intros Hrs. specialize (Hsg Hrs). set_solver.
    + cbn. rewrite <- insert_union_l. apply insert_union_r. by apply not_elem_of_list_to_map_1.
    + by rewrite <- app_assoc.
Qed.

(** ** Lemmas: spelling a tag map out *)
Definition spell (l : list (string * string)) : list string :=
  (fun nv => tag_pair nv.1 nv.2) <$> l.

Lemma tag_text_spell first l : Forall valid_tag l -> tag_text first (spell l) l.
Proof.
  intros H. revert first. induction H as [|[n v] l Hv Hl IH]; intros first; by constructor.
Qed.

Lemma spell_no_semi l :
  Forall valid_tag l -> Forall (fun s => has_byte ";" s = false) (spell l).
Proof.
  intros H. apply Forall_fmap. apply (Forall_impl _ _ _ H). intros [n v] [Hn Hv].
  cbn in *. unfold tag_pair. rewrite has_byte_append, has_byte_cons.
  destruct (valid_name_clean n Hn) as (_ & -> & _). by rewrite valid_value_no_semi.
Qed.

Lemma parse_tags_join rs l :
  Forall valid_tag l -> l <> [] -> NoDup l.*1 -> (rs = true -> irTagSignature ∉ l.*1) ->
  parse_tags rs true (split ";" (join ";" (spell l))) ∅ [] = Ok (list_to_map l, l.*1).
Proof.
  intros Hv Hne Hnd Hsg. rewrite split_join; [|by destruct l|by apply spell_no_semi].
  apply parse_tags_spec. exists l. split_and!; auto using tag_text_spell.
  - apply Forall_true. intros. apply lookup_empty.
  - by rewrite map_union_empty.
Qed.

Lemma join_spell_not_empty l : l <> [] -> is_empty (join ";" (spell l)) = false.
Proof.
  intros Hl. apply is_empty_false. destruct l as [|[n v] [|]]; [done| |]; cbn;
    destruct n; done.
Qed.

Definition sorted_pairs (tags : gmap string string) (names : list string) : list (string * string) :=
  (fun n => (n, tag_value tags n)) <$> names.

Lemma sorted_pairs_fst tags names : (sorted_pairs tags names).*1 = names.
Proof. unfold sorted_pairs. rewrite <- list_fmap_compose. apply list_fmap_id. Qed.

Lemma list_to_map_sorted_pairs tags names :
  NoDup names -> (forall n, n ∈ names <-> is_Some (tags !! n)) ->
  list_to_map (sorted_pairs tags names) = tags.
Proof.
  intros Hnd Hdom. apply map_eq. intros n. destruct (tags !! n) as [v|] eqn:E.
  - apply elem_of_list_to_map_1; [by rewrite sorted_pairs_fst|].
    apply list_elem_of_fmap. exists n. unfold tag_value. rewrite E. cbn.
    split; [done|]. apply Hdom. by rewrite E.
  - apply not_elem_of_list_to_map_1. rewrite sorted_pairs_fst. intros H.
    apply Hdom in H as [? H]. congruence.
Qed.

Lemma elem_of_tag_names tags n : n ∈ tag_names tags <-> is_Some (tags !! n).
Proof.
  unfold tag_names. rewrite list_elem_of_fmap. split.
  - intros ([n' v] & -> & H). apply elem_of_map_to_list in H. cbn. by rewrite H.
  - intros [v Hv]. exists (n, v). by rewrite elem_of_map_to_list.
Qed.

Lemma NoDup_tag_names tags : NoDup (tag_names tags).
Proof. apply NoDup_fst_map_to_list. Qed.

Lemma NoDup_sort_strings l : NoDup l -> NoDup (sort_strings l).
Proof. by rewrite sort_strings_perm. Qed.

Definition alpha_names (tags : gmap string string) : list string := sort_strings (tag_names tags).
Definition wire_names (tags : gmap string string) : list string :=
  (if bool_decide (is_Some (tags !! irTagVersion)) then [irTagVersion] else [])
  ++ orderedNonVersionTagNames tags.

Lemma alpha_names_spec tags :
  NoDup (alpha_names tags) /\ forall n, n ∈ alpha_names tags <-> is_Some (tags !! n).
Proof.
  unfold alpha_names. split; [by apply NoDup_sort_strings, NoDup_tag_names|].
  intros n. rewrite sort_strings_perm. apply elem_of_tag_names.
Qed.

Lemma elem_of_orderedNonVersion tags n :
  n ∈ orderedNonVersionTagNames tags <-> is_Some (tags !! n) /\ n <> irTagVersion.
Proof.
  unfold orderedNonVersionTagNames.
  rewrite sort_strings_perm, list_elem_of_In, filter_In, <- list_elem_of_In, elem_of_tag_names.
  by rewrite negb_true_iff, str_eqb_neq.
Qed.

Lemma wire_names_spec tags :
  NoDup (wire_names tags) /\ forall n, n ∈ wire_names tags <-> is_Some (tags !! n).
Proof.
  assert (Hnd : NoDup (orderedNonVersionTagNames tags)).
  { apply NoDup_sort_strings, NoDup_ListNoDup, List.NoDup_filter, NoDup_ListNoDup, NoDup_tag_names. }
  unfold wire_names. split.
  - destruct (bool_decide _); [|done]. cbn. constructor; [|done].
    rewrite elem_of_orderedNonVersion. naive_solver.
  - intros n. rewrite elem_of_app, elem_of_orderedNonVersion.
    destruct (decide (n = irTagVersion)) as [->|Hn].
    + destruct (decide (is_Some (tags !! irTagVersion))).
      * rewrite bool_decide_true by done. set_solver.
      * rewrite bool_decide_false by done. set_solver.
    + destruct (bool_decide _); set_solver.
Qed.

Lemma serializeTagsAlphabetical_spell tags :
  serializeTagsAlphabetical tags = join ";" (spell (sorted_pairs tags (alpha_names tags))).
Proof.
  unfold serializeTagsAlphabetical, spell, sorted_pairs. by rewrite <- list_fmap_compose.
Qed.

Lemma serializeTags_spell tags :
  serializeTags tags = join ";" (spell (sorted_pairs tags (wire_names tags))).
Proof.
  unfold serializeTags, spell, sorted_pairs, wire_names, tag_value.
  rewrite !fmap_app, <- !list_fmap_compose. do 2 f_equal.
  destruct (tags !! irTagVersion) as [v|] eqn:E.
  - rewrite bool_decide_true by done. cbn. by rewrite E.
  - by rewrite bool_decide_false by (by intros []).
Qed.

Definition valid_tags (tags : gmap string string) : Prop :=
  forall n v, tags !! n = Some v -> valid_tag (n, v).

Lemma valid_sorted_pairs tags names :
  valid_tags tags -> (forall n, n ∈ names -> is_Some (tags !! n)) ->
  Forall valid_tag (sorted_pairs tags names).
Proof.
  intros Hv Hn. apply Forall_fmap, Forall_forall. intros n [v E]%Hn.
  cbn. unfold tag_value. rewrite E. by apply Hv.
Qed.

Lemma validate_pairs_spec l : validate_pairs l = Ok tt <-> Forall valid_tag l.
Proof.
  induction l as [|[n v] l IH]; cbn [validate_pairs]; [naive_solver|].
  rewrite Forall_cons. unfold valid_tag at 1. cbn [fst snd].
  destruct (isValidTXTTagName n), (isValidTXTTagValue v); cbn [negb]; naive_solver.
Qed.

Lemma validateTXTTagSyntax_spec tags : validateTXTTagSyntax tags = Ok tt <-> valid_tags tags.
Proof.
  unfold validateTXTTagSyntax. rewrite validate_pairs_spec, Forall_forall. split.
  - intros H n v E. apply H. by apply elem_of_map_to_list.
  - intros H [n v] Hin. apply elem_of_map_to_list in Hin. by apply H.
Qed.

(** ** Lemmas: the tag view of a record *)
(** A known tag shows when it was parsed or when its field is set. *)
Definition tag_present (r : TXTRecord) (n : string) : bool :=
  bool_decide (is_Some (parsedTags r !! n))
  || (if str_eqb n irTagFlags then negb (bool_decide (Flags r = []))
      else negb (is_empty (recordValueForTag r n))).

Lemma lookup_set_tag (n v : string) (t : gmap string string) (m : string) :
  set_tag n v t !! m = if str_eqb m n && negb (is_empty v) then Some v else t !! m.
Proof.
  unfold set_tag. destruct (is_empty v) eqn:E; cbn; [by rewrite andb_false_r|].
  rewrite andb_true_r. destruct (str_eqb m n) eqn:Em.
  - apply str_eqb_eq in Em as ->. apply lookup_insert_eq.
  - apply str_eqb_neq in Em. by rewrite lookup_insert_ne.
Qed.

Lemma lookup_flags_tag (fl : list string) (t : gmap string string) (m : string) :
  (if bool_decide (fl = []) then t else <[irTagFlags := join "," fl]> t) !! m =
  if str_eqb m irTagFlags && negb (bool_decide (fl = [])) then Some (join "," fl) else t !! m.
Proof.
  destruct (bool_decide (fl = [])); cbn; [by rewrite andb_false_r|]. rewrite andb_true_r.
  destruct (str_eqb m irTagFlags) eqn:Em.
  - apply str_eqb_eq in Em as ->. apply lookup_insert_eq.
  - apply str_eqb_neq in Em. by rewrite lookup_insert_ne.
Qed.

Lemma known_tag_cases n :
  tag_or_version n = true ->
  n ∈ [irTagVersion; irTagGovernanceID; irTagEntityKeyURI; irTagKeyURI; irTagLogRef;
       irTagStatusURI; irTagSignature; irTagFlags; irTagKeyAge; irTagCapabilities].
Proof.
  unfold tag_or_version, isKnownIdentityRecordTag.
  rewrite orb_true_iff, str_eqb_eq, bool_decide_eq_true. set_solver.
Qed.

Lemma unknown_tag_neq n m :
  tag_or_version n = false -> tag_or_version m = true -> str_eqb n m = false.
Proof. intros Hn Hm. apply str_eqb_neq. intros ->. congruence. Qed.

Lemma lookup_Tags r n :
  Tags r !! n =
    if tag_or_version n
    then (if tag_present r n then Some (recordValueForTag r n) else None)
    else UnknownTags r !! n.
Proof.
  unfold Tags. rewrite lookup_union, map_lookup_imap.
  repeat (rewrite lookup_set_tag || rewrite lookup_flags_tag). rewrite map_lookup_imap.
  fold (tag_or_version n). destruct (tag_or_version n) eqn:Ek.
  - replace (UnknownTags r !! n ≫= _) with (@None string) by (by destruct (UnknownTags r !! n)).
    rewrite option_union_left_id. unfold tag_present.
    apply known_tag_cases in Ek. rewrite !elem_of_cons, elem_of_nil in Ek.
    destruct_or!; try done; subst n;
      repeat match goal with
      | |- context [str_eqb ?a ?b] =>
          let v := eval vm_compute in (str_eqb a b) in change (str_eqb a b) with v
      end; cbn [andb orb negb mbind option_bind];
      unfold recordValueForTag;
      repeat match goal with
      | |- context [str_eqb ?a ?b] =>
          let v := eval vm_compute in (str_eqb a b) in change (str_eqb a b) with v
      end; cbn [andb];
      destruct (parsedTags r !! _); cbn [mbind option_bind];
      try (rewrite bool_decide_true by done); try (rewrite bool_decide_false by (by intros []));
      cbn [orb]; try (by destruct (is_empty _)); by destruct (bool_decide _).
  - rewrite !(unknown_tag_neq n) by done. cbn [andb].
    replace (parsedTags r !! n ≫= _) with (@None string) by (by destruct (parsedTags r !! n)).
    rewrite option_union_right_id. by destruct (UnknownTags r !! n).
Qed.

Lemma recordValueForTag_record_of sig tags n :
  tag_or_version n = true -> (n = irTagSignature -> sig = tag_value tags irTagSignature) ->
  recordValueForTag (record_of sig tags) n = tag_value tags n.
Proof.
  intros Hk Hsig. apply known_tag_cases in Hk. rewrite !elem_of_cons, elem_of_nil in Hk.
  destruct_or!; try done; subst n; try reflexivity.
  - exact (Hsig eq_refl).
  - change (join "," (parse_flags (tag_value tags irTagFlags)) = tag_value tags irTagFlags).
    unfold parse_flags. destruct (is_empty _) eqn:E.
    + apply is_empty_true in E. by rewrite E.
    + apply join_split.
Qed.

Lemma parse_flags_nil fl : parse_flags fl = [] <-> fl = "".
Proof.
  unfold parse_flags. destruct (is_empty fl) eqn:E.
  - apply is_empty_true in E as ->. done.
  - apply is_empty_false in E. split; [|done]. intros H. by apply split_not_nil in H.
Qed.

(** The tags of a parsed record are the tags of the text. *)
Lemma Tags_record_of sig tags :
  sig = tag_value tags irTagSignature -> Tags (record_of sig tags) = tags.
Proof.
  intros Hsig. apply map_eq. intros n. rewrite lookup_Tags. destruct (tag_or_version n) eqn:Ek.
  - rewrite recordValueForTag_record_of by auto.
    assert (Hp : tag_present (record_of sig tags) n = bool_decide (is_Some (tags !! n))).
    { unfold tag_present. cbn [parsedTags record_of Flags].
      destruct (decide (is_Some (tags !! n))) as [Hs|Hn].
      - by rewrite bool_decide_true.
      - rewrite bool_decide_false by done. apply eq_None_not_Some in Hn.
        assert (Hv : tag_value tags n = "") by (unfold tag_value; by rewrite Hn).
        cbn [orb]. rewrite recordValueForTag_record_of by auto. rewrite Hv.
        destruct (str_eqb n irTagFlags) eqn:Ef; [|done].
        apply str_eqb_eq in Ef as ->. change (Flags (record_of sig tags)) with
          (parse_flags (tag_value tags irTagFlags)). by rewrite Hv. }
    rewrite Hp. unfold tag_value. destruct (tags !! n); [by rewrite bool_decide_true|].
    by rewrite bool_decide_false by (by intros []).
  - cbn [record_of UnknownTags]. unfold unknown_tags. rewrite map_lookup_imap.
    destruct (tags !! n); [|done]. cbn. unfold tag_or_version in Ek.
    by apply orb_false_iff in Ek as [-> ->].
Qed.

Lemma canonical_alpha v tags :
  isSupportedVersion v = true -> canonical_of v tags = serializeTagsAlphabetical tags.
Proof.
  unfold isSupportedVersion, canonical_of, usesFullAlphabeticCanon, profileForVersion,
    identityRecordProfiles. rewrite bool_decide_eq_true.
  rewrite lookup_insert, lookup_singleton.
  by repeat case_decide.
Qed.

Lemma required_present_nonempty v tags n :
  required_present v tags = true ->
  n ∈ baseRequiredTagNames ++ versionSpecificRequiredTagNames v -> tag_value tags n <> "".
Proof.
  unfold required_present. rewrite forallb_forall. intros H Hin%list_elem_of_In%H.
  by apply negb_true_iff, is_empty_false in Hin.
Qed.

Lemma tag_value_nonempty tags n : tag_value tags n <> "" -> is_Some (tags !! n).
Proof. unfold tag_value. destruct (tags !! n); [eauto|done]. Qed.

Lemma supported_nonempty v : isSupportedVersion v = true -> is_empty v = false.
Proof. intros H. apply is_empty_false. intros ->. by vm_compute in H. Qed.

(** What is left after the tags have been read. *)
Definition record_ok (sig_ok : bool) (tags : gmap string string) : bool :=
  isSupportedVersion (tag_value tags irTagVersion)
  && required_present (tag_value tags irTagVersion) tags
  && sig_ok
  && (is_empty (tag_value tags irTagKeyAge) || ValidKeyAgeValues (tag_value tags irTagKeyAge)).

Lemma parseTXTRecord_tags txt b tags ord r :
  parse_tags false true (split ";" txt) ∅ [] = Ok (tags, ord) -> txt <> "" ->
  parseTXTRecord txt b = Ok r <->
    head ord = Some irTagVersion /\
    record_ok (Bool.eqb b (negb (is_empty (tag_value tags irTagSignature)))) tags = true /\
    r = record_of (tag_value tags irTagSignature) tags.
Proof.
  intros Hp Hne. unfold parseTXTRecord. rewrite (proj2 (is_empty_false _)) by done.
  rewrite Hp. unfold mbind, res_bind. unfold record_ok.
  destruct (bool_decide (head ord = Some irTagVersion)) eqn:Eh; cbn [negb].
  2:{ apply bool_decide_eq_false in Eh. naive_solver. }
  apply bool_decide_eq_true in Eh.
  destruct (isSupportedVersion _), (required_present _ _), b, (is_empty (tag_value tags irTagSignature)),
    (is_empty (tag_value tags irTagKeyAge)), (ValidKeyAgeValues _); cbn; naive_solver.
Qed.

Lemma tag_value_Tags r n :
  tag_or_version n = true -> tag_value (Tags r) n = recordValueForTag r n.
Proof.
  intros Hk. unfold tag_value. rewrite lookup_Tags, Hk. unfold tag_present.
  destruct (bool_decide (is_Some (parsedTags r !! n))); [done|]. cbn [orb].
  destruct (str_eqb n irTagFlags) eqn:Ef.
  - apply str_eqb_eq in Ef as ->. change (recordValueForTag r irTagFlags) with (join "," (Flags r)).
    destruct (bool_decide (Flags r = [])) eqn:E; [|done].
    apply bool_decide_eq_true in E. by rewrite E.
  - destruct (is_empty (recordValueForTag r n)) eqn:E; [|done].
    apply is_empty_true in E. by rewrite E.
Qed.

(** A record [MarshalTXT] accepts and whose [ka], if any, is a known value. *)
Definition publishable (r : TXTRecord) : Prop :=
  is_ok (MarshalTXT r) = true /\ (KeyAge r = "" \/ ValidKeyAgeValues (KeyAge r) = true).

Lemma required_for_version v n :
  isSupportedVersion v = true ->
  n ∈ baseRequiredTagNames ++ versionSpecificRequiredTagNames v <-> n ∈ requiredTagNamesForVersion v.
Proof.
  unfold isSupportedVersion, versionSpecificRequiredTagNames, requiredTagNamesForVersion.
  unfold profileForVersion, identityRecordProfiles. rewrite bool_decide_eq_true.
  rewrite lookup_insert, lookup_singleton.
  repeat case_decide; intros []; simplify_eq;
    change (List.filter _ _) with [irTagGovernanceID; irTagEntityKeyURI; irTagLogRef];
    unfold baseRequiredTagNames; cbn [requiredTags draft01Profile]; set_solver.
Qed.

Lemma required_known v n : n ∈ requiredTagNamesForVersion v -> tag_or_version n = true.
Proof.
  unfold requiredTagNamesForVersion, profileForVersion, identityRecordProfiles.
  rewrite lookup_insert, lookup_singleton.
  repeat case_decide; cbn [requiredTags draft01Profile]; rewrite ?elem_of_cons, elem_of_nil;
    naive_solver.
Qed.

(** What [publishable] says of the tags. *)
Lemma publishable_tags r :
  publishable r ->
  valid_tags (Tags r) /\ Tags r !! irTagVersion = Some (Version r) /\
  record_ok true (Tags r) = true /\ tag_value (Tags r) irTagSignature <> "" /\
  MarshalTXT r = Ok (serializeTags (Tags r)).
Proof.
  intros [Hm Hka]. unfold MarshalTXT in *.
  destruct (validateRequiredTags (Some r) true) as [[]|] eqn:Hreq; [|done].
  cbn [mbind res_bind] in *.
  destruct (validateTXTTagSyntax (Tags r)) as [[]|] eqn:Hsyn; [|done].
  apply validateTXTTagSyntax_spec in Hsyn. unfold validateRequiredTags in Hreq. go_inv. go_bool.
  assert (Hver : tag_value (Tags r) irTagVersion = Version r) by by apply tag_value_Tags.
  split_and!; try done.
  - apply is_empty_false in Heqb. rewrite <- Hver in Heqb |- *.
    apply tag_value_nonempty in Heqb as [v Hv]. unfold tag_value. by rewrite Hv.
  - unfold record_ok. rewrite Hver, Heqb0, tag_value_Tags by done.
    rewrite !andb_true_iff. split_and!; [done| |done|].
    + apply forallb_forall. intros n Hn%list_elem_of_In.
      apply required_for_version in Hn; [|done].
      rewrite tag_value_Tags by (by eapply required_known).
      apply is_empty_true in Heqb1. unfold missingRequiredRecordTag in Heqb1.
      rewrite Heqb in Heqb1. destruct (List.find _ _) eqn:Ef.
      * apply find_some in Ef as [Hin _]. subst. apply list_elem_of_In, required_known in Hin. done.
      * apply list_elem_of_In in Hn. by rewrite (find_none _ _ Ef n Hn).
    + change (recordValueForTag r irTagKeyAge) with (KeyAge r).
      destruct Hka as [->| ->]; [done|]. by rewrite orb_true_r.
  - rewrite tag_value_Tags by done. by apply is_empty_false.
Qed.

Lemma spelled_parse tags names rs :
  valid_tags tags -> NoDup names -> (forall n, n ∈ names <-> is_Some (tags !! n)) ->
  is_Some (tags !! irTagVersion) -> (rs = true -> tags !! irTagSignature = None) ->
  let s := join ";" (spell (sorted_pairs tags names)) in
  is_empty s = false /\ parse_tags rs true (split ";" s) ∅ [] = Ok (tags, names).
Proof.
  intros Hv Hnd Hdom Hver Hsg.
  assert (Hne : sorted_pairs tags names <> []).
  { intros H%(f_equal (fmap fst)). rewrite sorted_pairs_fst in H. cbn in H. subst.
    apply Hdom in Hver. by apply elem_of_nil in Hver. }
  cbn. split; [by apply join_spell_not_empty|].
  rewrite parse_tags_join; rewrite ?sorted_pairs_fst, ?list_to_map_sorted_pairs; try done.
  - apply valid_sorted_pairs; [done|]. intros n. apply Hdom.
  - intros Hrs Hin%Hdom. rewrite Hsg in Hin by done. by destruct Hin.
Qed.

Lemma wire_parse tags :
  valid_tags tags -> is_Some (tags !! irTagVersion) ->
  is_empty (serializeTags tags) = false /\
  parse_tags false true (split ";" (serializeTags tags)) ∅ [] = Ok (tags, wire_names tags) /\
  head (wire_names tags) = Some irTagVersion.
Proof.
  intros Hv Hver. rewrite serializeTags_spell. destruct (wire_names_spec tags) as [Hnd Hdom].
  destruct (spelled_parse tags (wire_names tags) false) as [H1 H2]; try done.
  split_and!; [done|done|]. unfold wire_names. by rewrite bool_decide_true.
Qed.

Lemma alpha_parse rs tags :
  valid_tags tags -> is_Some (tags !! irTagVersion) -> (rs = true -> tags !! irTagSignature = None) ->
  is_empty (serializeTagsAlphabetical tags) = false /\
  parse_tags rs true (split ";" (serializeTagsAlphabetical tags)) ∅ [] = Ok (tags, alpha_names tags).
Proof.
  intros Hv Hver Hsg. rewrite serializeTagsAlphabetical_spell.
  destruct (alpha_names_spec tags) as [Hnd Hdom]. by apply spelled_parse.
Qed.

Lemma record_ok_ka sig_ok tags :
  record_ok sig_ok tags = true ->
  isSupportedVersion (tag_value tags irTagVersion) = true /\
  required_present (tag_value tags irTagVersion) tags = true /\ sig_ok = true /\
  negb (is_empty (tag_value tags irTagKeyAge)) && negb (ValidKeyAgeValues (tag_value tags irTagKeyAge))
    = false.
Proof.
  unfold record_ok. rewrite !andb_true_iff. intros [[[-> ->] ->] H].
  split_and!; try done. by destruct (is_empty _), (ValidKeyAgeValues _).
Qed.

(** What a successful [ParseTXTRecord] says of the text. *)
Lemma parse_txt_record_tags txt r :
  ParseTXTRecord txt = Ok r <->
  exists l, tag_text true (split ";" txt) l /\ NoDup l.*1 /\ head l.*1 = Some irTagVersion /\
    record_ok (negb (is_empty (tag_value (list_to_map l) irTagSignature))) (list_to_map l) = true /\
    r = record_of (tag_value (list_to_map l) irTagSignature) (list_to_map l).
Proof.
  unfold ParseTXTRecord. split.
  - intros H. assert (Hne : txt <> "") by by intros ->.
    destruct (parse_tags false true (split ";" txt) ∅ []) as [[tags ord]|e] eqn:Hp.
    + pose proof Hp as (l & Ht & Hnd & _ & _ & -> & ->)%parse_tags_spec.
      rewrite map_union_empty in *. apply (parseTXTRecord_tags _ _ _ _ _ Hp Hne) in H as (Hh & Hr & ->).
      exists l. split_and!; try done. revert Hr. by destruct (is_empty _).
    + unfold parseTXTRecord in H. rewrite Hp in H. by destruct (is_empty txt).
  - intros (l & Ht & Hnd & Hh & Hr & ->).
    assert (Hp : parse_tags false true (split ";" txt) ∅ [] = Ok (list_to_map l, l.*1)).
    { apply parse_tags_spec. exists l. rewrite map_union_empty. split_and!; try done.
      apply Forall_true. intros. apply lookup_empty. }
    assert (Hne : txt <> "").
    { intros ->. apply tag_text_step in Ht. destruct l as [|[n v] l]; [done|].
      destruct Ht as (e & rest & [= <- <-] & _ & He & _). done. }
    apply (parseTXTRecord_tags _ _ _ _ _ Hp Hne). split_and!; try done.
    revert Hr. by destruct (is_empty _).
Qed.

Lemma tag_text_valid first pairs l : tag_text first pairs l -> Forall valid_tag l.
Proof. induction 1; by constructor. Qed.

Lemma parsed_publishable txt r : ParseTXTRecord txt = Ok r -> publishable r.
Proof.
  intros (l & Ht & Hnd & Hh & Hr & ->)%parse_txt_record_tags.
  assert (HT := Tags_record_of (tag_value (list_to_map l) irTagSignature) (list_to_map l) eq_refl).
  set (r := record_of _ _) in *. apply record_ok_ka in Hr as (Hs & Hreq & Hsig & Hka).
  assert (Hval : forall n, tag_or_version n = true ->
    recordValueForTag r n = tag_value (list_to_map l) n).
  { intros n Hn. apply recordValueForTag_record_of; auto. }
  split.
  - unfold MarshalTXT.
    assert (validateRequiredTags (Some r) true = Ok tt) as ->.
    { unfold validateRequiredTags. change (Version r) with (tag_value (list_to_map l) irTagVersion).
      change (Signature r) with (tag_value (list_to_map l) irTagSignature).
      rewrite supported_nonempty, Hs by done. apply negb_true_iff in Hsig. rewrite Hsig.
      assert (missingRequiredRecordTag (Some r) = "") as ->; [|done].
      unfold missingRequiredRecordTag.
      change (Version r) with (tag_value (list_to_map l) irTagVersion).
      rewrite supported_nonempty by done. destruct (List.find _ _) eqn:Ef; [|done].
      apply find_some in Ef as [Hin%list_elem_of_In Hem].
      rewrite Hval in Hem by (by eapply required_known). apply is_empty_true in Hem.
      apply required_for_version in Hin; [|done]. by apply (required_present_nonempty _ _ _ Hreq) in Hin. }
    cbn [mbind res_bind].
    assert (validateTXTTagSyntax (Tags r) = Ok tt) as ->; [|done].
    apply validateTXTTagSyntax_spec. rewrite HT. intros n v Hn.
    apply elem_of_list_to_map in Hn; [|done].
    apply tag_text_valid in Ht. rewrite Forall_forall in Ht. by apply Ht.
  - change (KeyAge r) with (tag_value (list_to_map l) irTagKeyAge).
    destruct (is_empty (tag_value (list_to_map l) irTagKeyAge)) eqn:E; [left; by apply is_empty_true|].
    right. by apply negb_false_iff.
Qed.

(** ** The theorems *)
(** A record whose text is in neither order of the wire, with one unknown tag. *)
Definition demo_txt : string :=
  "v=DNSid1;gi=urn:a; ek=https://e/k;ku=https://a/k;lr=c2sp:x;su=https://a/s;fl=x,y;zz=1;sg=ABC;".
Definition demo_record : TXTRecord :=
  record_of "ABC" (list_to_map [("v", "DNSid1"); ("gi", "urn:a"); ("ek", "https://e/k");
    ("ku", "https://a/k"); ("lr", "c2sp:x"); ("su", "https://a/s"); ("fl", "x,y"); ("zz", "1");
    ("sg", "ABC")]).

Lemma demo_parses : ParseTXTRecord demo_txt = Ok demo_record.
Proof. by vm_compute. Qed.

(** [ParseTXTRecord] accepts exactly the texts that spell a list of tags
    (each with a syntactically valid name and value, one optional space before
    every tag but the first, one optional trailing semicolon) without repeated
    name, starting with [v], of a supported version, with every required tag,
    a signature and a known [ka]; the record it returns carries these tags. *)
Theorem parse_txt_record_spec txt r :
  ParseTXTRecord txt = Ok r <->
  exists l, tag_text true (split ";" txt) l /\ NoDup l.*1 /\ head l.*1 = Some irTagVersion /\
    record_ok (negb (is_empty (tag_value (list_to_map l) irTagSignature))) (list_to_map l) = true /\
    r = record_of (tag_value (list_to_map l) irTagSignature) (list_to_map l) /\
    Tags r = list_to_map l.
Proof.
  rewrite parse_txt_record_tags. split; intros (l & ? & ? & ? & ? & H); exists l.
  - split_and!; try done. subst. by apply Tags_record_of.
  - destruct H as [-> _]. done.
Qed.

(** A record that [MarshalTXT] serializes, and whose [ka] is empty or a
    known value, is read back by [ParseTXTRecord] with the same tags. *)
Theorem marshal_parse_roundtrip r s :
  MarshalTXT r = Ok s -> (KeyAge r = "" \/ ValidKeyAgeValues (KeyAge r) = true) ->
  exists r', ParseTXTRecord s = Ok r' /\ Tags r' = Tags r /\ CanonicalContent r' = CanonicalContent r.
Proof.
  intros Hm Hka.
  assert (Hp : publishable r) by (split; [by rewrite Hm|done]).
  apply publishable_tags in Hp as (Hv & Hver & Hok & Hsig & Hm'). rewrite Hm in Hm'. go_inv.
  destruct (wire_parse (Tags r)) as (Hne & Hparse & Hh); [done|by rewrite Hver|].
  set (r' := record_of (tag_value (Tags r) irTagSignature) (Tags r)).
  assert (HT : Tags r' = Tags r) by by apply Tags_record_of.
  exists r'. split_and!; [|done|].
  - apply (parseTXTRecord_tags _ _ _ _ _ Hparse); [by apply is_empty_false|].
    split_and!; [done| |done]. by rewrite (proj2 (is_empty_false _) Hsig).
  - unfold CanonicalContent. rewrite HT. change (Version r') with (tag_value (Tags r) irTagVersion).
    unfold tag_value. by rewrite Hver.
Qed.

Lemma marshal_parse_roundtrip_witness :
  exists r', ParseTXTRecord (serializeTags (Tags demo_record)) = Ok r' /\
    Tags r' = Tags demo_record /\ CanonicalContent r' = CanonicalContent demo_record.
Proof.
  apply (marshal_parse_roundtrip demo_record); [by vm_compute|by left].
Defined.

Lemma canonical_publishable r :
  publishable r ->
  CanonicalContent r = serializeTagsAlphabetical (delete irTagSignature (Tags r)).
Proof.
  intros (_ & Hver & Hok & _)%publishable_tags. apply record_ok_ka in Hok as (Hs & _).
  unfold tag_value in Hs. rewrite Hver in Hs. by apply canonical_alpha.
Qed.

Lemma valid_tags_delete n tags : valid_tags tags -> valid_tags (delete n tags).
Proof. intros H m v [_ Hm]%lookup_delete_Some. by apply H. Qed.

Lemma canonical_parse rs r :
  publishable r ->
  is_empty (CanonicalContent r) = false /\
  parse_tags rs true (split ";" (CanonicalContent r)) ∅ [] =
    Ok (delete irTagSignature (Tags r), alpha_names (delete irTagSignature (Tags r))).
Proof.
  intros Hp. rewrite canonical_publishable by done.
  apply publishable_tags in Hp as (Hv & Hver & _). apply alpha_parse.
  - by apply valid_tags_delete.
  - rewrite lookup_delete_ne by done. by rewrite Hver.
  - intros _. apply lookup_delete_eq.
Qed.

(** The canonical content binds the record: two texts that parse to
    records with the same canonical content (the bytes the [sg] signature
    covers) carry the same tags and values, [sg] apart. *)
Theorem canonical_content_injective txt1 txt2 r1 r2 :
  ParseTXTRecord txt1 = Ok r1 -> ParseTXTRecord txt2 = Ok r2 ->
  CanonicalContent r1 = CanonicalContent r2 ->
  delete irTagSignature (Tags r1) = delete irTagSignature (Tags r2).
Proof.
  intros H1%parsed_publishable H2%parsed_publishable Hc.
  apply (canonical_parse false) in H1 as [_ H1], H2 as [_ H2].
  rewrite Hc in H1. rewrite H1 in H2. by go_inv.
Qed.

Definition demo_resigned : TXTRecord :=
  record_of "XYZ" (<[irTagSignature := "XYZ"]> (parsedTags demo_record)).
Lemma demo_resigned_parses : ParseTXTRecord (serializeTags (parsedTags demo_resigned)) = Ok demo_resigned.
Proof. vm_compute. reflexivity. Qed.
Lemma demo_same_canonical : CanonicalContent demo_record = CanonicalContent demo_resigned.
Proof. vm_compute. reflexivity. Qed.

Lemma canonical_content_injective_witness :
  delete irTagSignature (Tags demo_record) = delete irTagSignature (Tags demo_resigned).
Proof.
  exact (canonical_content_injective demo_txt _ demo_record demo_resigned demo_parses
    demo_resigned_parses demo_same_canonical).
Defined.

Lemma Tags_WithSignature r sig :
  delete irTagSignature (Tags (WithSignature r sig)) = delete irTagSignature (Tags r).
Proof.
  apply map_eq. intros n. destruct (decide (n = irTagSignature)) as [->|Hn].
  - by rewrite !lookup_delete_eq.
  - rewrite !lookup_delete_ne by done. rewrite !lookup_Tags.
    assert (Hv : recordValueForTag (WithSignature r sig) n = recordValueForTag r n).
    { unfold recordValueForTag. cbn [WithSignature Version GovernanceID EntityKeyURI KeyURI LogRef
        StatusURI Flags KeyAge Capabilities].
      assert (str_eqb n irTagSignature = false) as -> by by apply str_eqb_neq. done. }
    unfold tag_present. rewrite Hv. done.
Qed.

Lemma CanonicalContent_WithSignature r sig :
  CanonicalContent (WithSignature r sig) = CanonicalContent r.
Proof. unfold CanonicalContent. by rewrite Tags_WithSignature. Qed.

(** Signing does not change what is signed: replacing the signature of a
    record leaves its canonical content as it was, whatever the record. *)
Theorem canonical_ignores_signature r sig :
  CanonicalContent (WithSignature r sig) = CanonicalContent r /\
  KnownTagsCanonical (WithSignature r sig) = KnownTagsCanonical r.
Proof.
  assert (HT := Tags_WithSignature r sig).
  split; [apply CanonicalContent_WithSignature|].
  unfold KnownTagsCanonical. cbn [WithSignature Version].
  enough (delete irTagSignature (knownTags (WithSignature r sig)) =
    delete irTagSignature (knownTags r)) as -> by done.
  unfold knownTags. apply map_eq. intros n. apply (f_equal (lookup n)) in HT.
  destruct (decide (n = irTagSignature)) as [->|Hn]; [by rewrite !lookup_delete_eq|].
  rewrite !lookup_delete_ne in HT by done. rewrite !lookup_delete_ne by done.
  by rewrite !map_lookup_imap, HT.
Qed.

Lemma parseUnsignedCanonicalAlpha_canonical r :
  publishable r ->
  exists r', parseUnsignedCanonicalAlpha (CanonicalContent r) = Ok r' /\
    Tags r' = delete irTagSignature (Tags r) /\ Signature r' = "".
Proof.
  intros Hp. pose proof (canonical_publishable r Hp) as Hcan.
  destruct (canonical_parse true r Hp) as [Hne Hparse].
  apply publishable_tags in Hp as (_ & Hver & Hok & _).
  set (tags := delete irTagSignature (Tags r)) in *.
  assert (Hval : forall n, n <> irTagSignature -> tag_value tags n = tag_value (Tags r) n).
  { intros n Hn. unfold tag_value, tags. by rewrite lookup_delete_ne. }
  assert (HT : Tags (record_of "" tags) = tags).
  { apply Tags_record_of. unfold tag_value, tags. by rewrite lookup_delete_eq. }
  apply record_ok_ka in Hok as (Hs & Hreq & _ & Hka).
  exists (record_of "" tags). split_and!; [|done|done].
  unfold parseUnsignedCanonicalAlpha. rewrite Hne, Hparse. cbn [mbind res_bind].
  rewrite (Hval irTagVersion), (Hval irTagKeyAge) by done.
  rewrite supported_nonempty, Hs, Hka by done. cbn [negb].
  assert (usesFullAlphabeticCanon (tag_value (Tags r) irTagVersion) = true) as ->.
  { revert Hs. unfold usesFullAlphabeticCanon, isSupportedVersion, profileForVersion,
      identityRecordProfiles. rewrite lookup_insert, lookup_singleton.
    repeat case_decide; done. }
  assert (required_present (tag_value (Tags r) irTagVersion) tags = true) as ->.
  { apply forallb_forall. intros n Hn. unfold required_present in Hreq.
    rewrite forallb_forall in Hreq. rewrite Hval; [by apply Hreq|]. intros ->.
    apply list_elem_of_In, required_for_version in Hn; [|done].
    revert Hn. unfold requiredTagNamesForVersion, profileForVersion, identityRecordProfiles.
    rewrite lookup_insert, lookup_singleton. repeat case_decide; intros Hn;
      rewrite ?elem_of_nil in Hn; cbn [requiredTags draft01Profile] in Hn; set_solver. }
  cbn [negb]. rewrite (proj2 (str_eqb_eq _ _)); [done|].
  unfold CanonicalContent at 1. rewrite HT. change (Version (record_of "" tags)) with (tag_value tags irTagVersion).
  rewrite Hval by done. rewrite canonical_alpha by done. rewrite Hcan. unfold tags.
  by rewrite delete_delete_eq.
Qed.

(** A canonical text that starts with [v=] names the record's version there. *)
Lemma leading_version_canonical r v :
  publishable r -> leading_version (CanonicalContent r) = Some v -> v = Version r.
Proof.
  intros Hp. rewrite canonical_publishable by done.
  apply publishable_tags in Hp as (Hv & Hver & _). set (tags := delete irTagSignature (Tags r)).
  assert (Hver' : tags !! irTagVersion = Some (Version r)) by (unfold tags; by rewrite lookup_delete_ne).
  assert (Hv' : valid_tags tags) by by apply valid_tags_delete.
  rewrite serializeTagsAlphabetical_spell. destruct (alpha_names_spec tags) as [Hnd Hdom].
  assert (Hall : Forall valid_tag (sorted_pairs tags (alpha_names tags))).
  { apply valid_sorted_pairs; [done|]. intros n. apply Hdom. }
  assert (Hsp : split ";" (join ";" (spell (sorted_pairs tags (alpha_names tags)))) =
    spell (sorted_pairs tags (alpha_names tags))).
  { apply split_join; [|by apply spell_no_semi]. intros H.
    destruct (alpha_names tags) eqn:E; [|done].
    assert (irTagVersion ∈ @nil string) as Hin by (by apply Hdom; rewrite Hver').
    by apply elem_of_nil in Hin. }
  unfold leading_version. rewrite Hsp.
  destruct (alpha_names tags) as [|n ns] eqn:E; [done|].
  cbn [sorted_pairs spell fmap list_fmap fst snd] in *.
  apply Forall_cons in Hall as [[Hn _] _]. destruct (valid_name_clean n Hn) as (Hneq & _).
  set (w := join ";" _). assert (Hw : exists w', w = String.append n (String "=" w')).
  { unfold w, tag_pair. match goal with |- context [join ";" (_ :: ?l)] => destruct l as [|p ps] end;
      [by eexists|]. eexists. cbn [join]. by rewrite <- append_assoc. }
  destruct Hw as [w' ->]. intros H.
  destruct n as [|a n]; [done|]. rewrite append_cons in H.
  destruct n as [|b n]; rewrite ?append_cons, ?append_nil_l in H;
    rewrite !has_byte_cons in Hneq; apply orb_false_iff in Hneq as [_ Hneq].
  - unfold tag_pair in H. rewrite append_cons, append_nil_l in H.
    assert (a = "v"%char /\ tag_value tags (String a "") = v) as [-> <-].
    { destruct a as [[] [] [] [] [] [] [] []]; try discriminate H. by injection H. }
    unfold tag_value. change (String "v" "") with irTagVersion. by rewrite Hver'.
  - exfalso. apply orb_false_iff in Hneq as [Hb _].
    destruct a as [[] [] [] [] [] [] [] []]; try discriminate H.
    destruct b as [[] [] [] [] [] [] [] []]; try discriminate H. discriminate Hb.
Qed.

(** The canonical content of any record that [ParseTXTRecord] returns is
    accepted by [ParseUnsignedCanonical], which reads back the same tags
    without [sg]; so a record can be signed from its canonical content. *)
Theorem parse_unsigned_canonical txt r :
  ParseTXTRecord txt = Ok r ->
  exists r', ParseUnsignedCanonical (CanonicalContent r) = Ok r' /\
    Tags r' = delete irTagSignature (Tags r) /\ Signature r' = "" /\
    CanonicalContent r' = CanonicalContent r.
Proof.
  intros Hp%parsed_publishable.
  destruct (parseUnsignedCanonicalAlpha_canonical r Hp) as (r' & Hr' & HT & Hsig).
  exists r'. split_and!; try done.
  - unfold ParseUnsignedCanonical. destruct (leading_version _) as [v|] eqn:Ev; [|done].
    apply leading_version_canonical in Ev as ->; [|done].
    apply publishable_tags in Hp as (_ & Hver & Hok & _).
    apply record_ok_ka in Hok as (Hs & _). unfold tag_value in Hs. rewrite Hver in Hs.
    cbn [default from_option] in Hs. unfold id in Hs.
    revert Hs. unfold isSupportedVersion, profileForVersion, identityRecordProfiles.
    rewrite lookup_insert, lookup_singleton. by repeat case_decide.
  - unfold parseUnsignedCanonicalAlpha in Hr'. unfold mbind, res_bind in Hr'. go_inv. go_bool.
    by apply str_eqb_eq.
Qed.

Lemma parse_unsigned_canonical_witness :
  exists r', ParseUnsignedCanonical (CanonicalContent demo_record) = Ok r' /\
    Tags r' = delete irTagSignature (Tags demo_record) /\ Signature r' = "" /\
    CanonicalContent r' = CanonicalContent demo_record.
Proof. exact (parse_unsigned_canonical demo_txt demo_record demo_parses). Defined.
