(* ===== verification/Merkle.v ===== *)
(** * Merkle: the RFC 6962 tree hash, computed three ways

    [hashTileRoot] of hash_tiles.go folds a list of node hashes,
    [merkleRoot] of checkpoint_store.go recurses on entries, [merkleLevels]
    of scan_source.go builds every level bottom-up. The relation [tree] is the
    RFC's definition; the three functions compute it. [tlog.RecordHash] and
    [tlog.NodeHash] are not part of the repository: they are the operations of
    class [TLog], whose documented values are the laws of [TLogSpec]. *)

From Stdlib Require Import ZArith Lia Ascii String.
From S2P Require Import Prelude Codec.

Open Scope string_scope.
Open Scope list_scope.
Open Scope nat_scope.

(** ** The two hash functions of golang.org/x/mod/sumdb/tlog *)
Class TLog := {
  RecordHash : string -> string;
  NodeHash : string -> string -> string
}.

(** Their documentation: SHA-256 of the data with a 0x00 and a 0x01 prefix. *)
Class TLogSpec (T : TLog) := {
  RecordHash_spec data : RecordHash data = sha256 (String "000" data);
  NodeHash_spec l r : NodeHash l r = sha256 (String "001" (String.append l r))
}.

Definition rfc6962_tlog : TLog :=
  {| RecordHash data := sha256 (String "000" data);
     NodeHash l r := sha256 (String "001" (String.append l r)) |}.

Lemma rfc6962_spec : TLogSpec rfc6962_tlog.
Proof. by constructor. Qed.

(** [split := 1; for split*2 < n { split *= 2 }]. *)
Fixpoint split_loop (fuel split n : nat) : nat :=
  match fuel with
  | O => split
  | S fuel => if (split * 2 <? n)%nat then split_loop fuel (split * 2) n else split
  end.
Definition split_point (n : nat) : nat := split_loop n 1 n.

Section merkle.
Context {T : TLog}.

(** The recursion halves the list: its length is enough fuel. The empty list,
    on which the Go function would panic, is never passed. *)
Fixpoint tile_root (fuel : nat) (hashes : list string) : string :=
  match fuel, hashes with
  | S _, [h] => h
  | S fuel, _ :: _ =>
      let split := split_point (length hashes) in
      NodeHash (tile_root fuel (take split hashes)) (tile_root fuel (drop split hashes))
  | _, _ => ""
  end.
Definition hashTileRoot (hashes : list string) : string := tile_root (length hashes) hashes.

Fixpoint entries_root (fuel : nat) (entries : list string) : string :=
  match fuel, entries with
  | _, [] => sha256 ""
  | S _, [e] => RecordHash e
  | S fuel, _ =>
      let split := split_point (length entries) in
      let left := entries_root fuel (take split entries) in
      let right := entries_root fuel (drop split entries) in
      sha256 (String "001" (String.append left right))
  | O, _ => ""
  end.
Definition merkleRoot (entries : list string) : string := entries_root (length entries) entries.

Definition LeafHash (entry : string) : string := RecordHash entry.

(** One level of [merkleLevels] from the one below. *)
Fixpoint next_level (level : list string) : list string :=
  match level with
  | a :: b :: rest => sha256 (String "001" (String.append a b)) :: next_level rest
  | _ => level
  end.

(** [for len(level) > 1]: a level has at most half the length of the one
    below, rounded up, so the length of the first level is enough fuel. *)
Fixpoint levels_loop (fuel : nat) (level : list string) : list (list string) :=
  match fuel with
  | O => []
  | S fuel =>
      if (1 <? length level)%nat
      then next_level level :: levels_loop fuel (next_level level) else []
  end.

Definition merkleLevels (entries : list string) : list (list string) :=
  let level := RecordHash <$> entries in
  match level with
  | [] => [level; [merkleRoot []]]
  | _ => level :: levels_loop (length level) level
  end.

(** [levels[len(levels)-1][0]]. *)
Definition levels_root (levels : list (list string)) : option string :=
  last levels ≫= head.

(** ** RFC 6962, section 2.1

    [tree hs r ps]: [r] is the Merkle tree hash of the leaf hashes [hs], and
    [ps] are the pairs of hashes that were hashed on the way. *)
Inductive tree : list string -> string -> list (string * string) -> Prop :=
| tree_leaf h : tree [h] h []
| tree_node k xs ys l r pl pr :
    length xs = 2 ^ k -> length ys <= 2 ^ k -> tree xs l pl -> tree ys r pr ->
    tree (xs ++ ys) (NodeHash l r) ((l, r) :: pl ++ pr).

(** ** Lemmas *)
Lemma split_loop_spec fuel j n :
  2 ^ j < n -> n <= 2 ^ j * 2 ^ fuel ->
  exists k, split_loop fuel (2 ^ j) n = 2 ^ k /\ 2 ^ k < n /\ n <= 2 ^ k * 2.
Proof.
  revert j. induction fuel as [|fuel IH]; cbn [split_loop]; intros j Hj Hf.
  - exists j. cbn in Hf. lia.
  - destruct (Nat.ltb_spec (2 ^ j * 2) n) as [Hlt|Hge]; [|by exists j; lia].
    replace (2 ^ j * 2) with (2 ^ S j) in * by (cbn; lia).
    apply IH; [done|]. cbn in *. lia.
Qed.

Lemma split_point_spec n :
  2 <= n -> exists k, split_point n = 2 ^ k /\ 2 ^ k < n /\ n <= 2 ^ k * 2.
Proof.
  intros Hn. unfold split_point. change 1 with (2 ^ 0). apply split_loop_spec; cbn; [lia|].
  pose proof (Nat.pow_gt_lin_r 2 n). lia.
Qed.

Lemma tree_length hs r ps : tree hs r ps -> 0 < length hs.
Proof. induction 1; rewrite ?length_app; cbn; lia. Qed.

(** The split of an RFC tree is the power of two [split_point] finds. *)
Lemma pow2_between j k n :
  2 ^ j < n -> n <= 2 ^ j * 2 -> 2 ^ k < n -> n <= 2 ^ k * 2 -> j = k.
Proof.
  intros. destruct (Nat.lt_trichotomy j k) as [Hlt|[?|Hlt]]; [|done|].
  - assert (2 ^ S j <= 2 ^ k) by (apply Nat.pow_le_mono_r; lia). cbn in *. lia.
  - assert (2 ^ S k <= 2 ^ j) by (apply Nat.pow_le_mono_r; lia). cbn in *. lia.
Qed.

Lemma tree_fun hs r ps : tree hs r ps -> forall r' ps', tree hs r' ps' -> r = r' /\ ps = ps'.
Proof.
  induction 1 as [h|k xs ys l r pl pr Hx Hy Hl IHl Hr IHr]; intros r' ps' H'.
  - inversion H' as [|? xs ys ? ? ? ? ? ? Hx' Hy' E]; [done|].
    apply tree_length in Hx', Hy'. apply (f_equal length) in E. rewrite length_app in E. cbn in E. lia.
  - pose proof (tree_length _ _ _ Hl). pose proof (tree_length _ _ _ Hr).
    inversion H' as [h E|k' xs' ys' l' r2 pl' pr' Hx' Hy' Hl' Hr' E].
    { apply (f_equal length) in E. rewrite length_app in E. cbn in E. lia. }
    pose proof (tree_length _ _ _ Hl'). pose proof (tree_length _ _ _ Hr').
    assert (k' = k) as ->.
    { pose proof (f_equal length E) as El. rewrite !length_app in El.
      apply (pow2_between _ _ (length xs + length ys)); lia. }
    apply app_inj_1 in E as [-> ->]; [|lia].
    edestruct IHl as [-> ->]; [done|]. edestruct IHr as [-> ->]; [done|]. done.
Qed.

(** Hashing blocks of [2^k] leaves and then the block hashes is hashing the
    leaves; only the last block may be shorter. *)
Definition full_blocks (k : nat) (bs : list (list string)) : Prop :=
  forall bs1 b bs2, bs = bs1 ++ b :: bs2 ->
    length b <= 2 ^ k /\ (bs2 <> [] -> length b = 2 ^ k).

Lemma full_blocks_app k bs1 bs2 :
  full_blocks k (bs1 ++ bs2) -> bs2 <> [] ->
  full_blocks k bs1 /\ full_blocks k bs2 /\ length (concat bs1) = length bs1 * 2 ^ k.
Proof.
  intros H Hne. split_and!.
  - intros c1 b c2 ->. destruct (H c1 b (c2 ++ bs2)) as [? Hb]; [by rewrite <- app_assoc|].
    split; [done|]. intros. apply Hb. by destruct c2.
  - intros c1 b c2 ->. apply (H (bs1 ++ c1)). by rewrite <- app_assoc.
  - revert H. induction bs1 as [|b bs1 IH]; intros H; [done|].
    cbn [concat length]. rewrite length_app, IH.
    + destruct (H [] b (bs1 ++ bs2)) as [_ Hb]; [done|]. rewrite Hb; [cbn; lia|].
      by destruct bs1.
    + intros c1 b' c2 E. apply (H (b :: c1)). cbn. by rewrite E.
Qed.

Lemma full_blocks_length k bs : full_blocks k bs -> length (concat bs) <= length bs * 2 ^ k.
Proof.
  intros H. destruct (decide (bs = [])) as [->|Hne]; [done|].
  destruct (exists_last Hne) as (bs1 & b & ->).
  destruct (full_blocks_app k bs1 [b] H) as (_ & H2 & Hl); [done|].
  rewrite concat_app, !length_app, Hl. cbn. rewrite app_nil_r.
  destruct (H2 [] b []) as [? _]; [done|]. lia.
Qed.

Lemma tree_concat k bs hs pss r ps :
  full_blocks k bs -> Forall3 tree bs hs pss -> tree hs r ps ->
  exists ps', tree (concat bs) r ps' /\ forall p, p ∈ ps' <-> p ∈ ps \/ p ∈ concat pss.
Proof.
  intros Hfull Hbs Htree. revert bs pss Hfull Hbs.
  induction Htree as [h|j xs ys l r pl pr Hx Hy Hl IHl Hr IHr]; intros bs pss Hfull Hbs.
  - inversion Hbs as [|b ? p bs' ? ? Hb Hnil]; subst. inversion Hnil; subst.
    exists p. cbn. rewrite !app_nil_r. split; [done|]. set_solver.
  - apply Forall3_app_inv_m in Hbs as (bs1 & bs2 & ps1 & ps2 & -> & -> & H1 & H2).
    assert (Hne : bs2 <> []).
    { intros ->. inversion H2; subst. by apply tree_length in Hr; cbn in Hr; lia. }
    destruct (full_blocks_app k bs1 bs2 Hfull Hne) as (Hf1 & Hf2 & Hlen).
    destruct (IHl bs1 ps1 Hf1 H1) as (p1 & Ht1 & Hp1).
    destruct (IHr bs2 ps2 Hf2 H2) as (p2 & Ht2 & Hp2).
    pose proof (Forall3_length_lm _ _ _ _ H1) as Hl1.
    pose proof (Forall3_length_lm _ _ _ _ H2) as Hl2.
    pose proof (full_blocks_length k bs2 Hf2) as Hle.
    exists ((l, r) :: p1 ++ p2). rewrite concat_app. split.
    + apply (tree_node (j + k)); [| |done|done]; rewrite Nat.pow_add_r; [by rewrite Hlen, Hl1, Hx|].
      rewrite <- Hl2 in Hy. etrans; [exact Hle|]. by apply Nat.mul_le_mono_r.
    + intros p. rewrite concat_app. set_solver.
Qed.

(** The node pairs of the tree over [hs]. *)
Fixpoint root_pairs (fuel : nat) (hs : list string) : list (string * string) :=
  match fuel, hs with
  | S _, [h] => []
  | S fuel, _ :: _ =>
      let split := split_point (length hs) in
      (hashTileRoot (take split hs), hashTileRoot (drop split hs))
        :: root_pairs fuel (take split hs) ++ root_pairs fuel (drop split hs)
  | _, _ => []
  end.
Definition node_pairs (hs : list string) : list (string * string) := root_pairs (length hs) hs.

Lemma split_lengths {A} (hs : list A) :
  2 <= length hs ->
  exists k, length (take (split_point (length hs)) hs) = 2 ^ k /\
    0 < length (drop (split_point (length hs)) hs) <= 2 ^ k /\
    length (take (split_point (length hs)) hs) < length hs /\
    length (drop (split_point (length hs)) hs) < length hs.
Proof.
  intros H. destruct (split_point_spec (length hs) H) as (k & -> & Hlt & Hle).
  exists k. rewrite length_take, length_drop.
  assert (2 ^ k <> 0) by (apply Nat.pow_nonzero; lia). lia.
Qed.

Lemma tile_root_tree fuel hs :
  length hs <= fuel -> hs <> [] -> exists ps, tree hs (tile_root fuel hs) ps.
Proof.
  revert hs. induction fuel as [|fuel IH]; intros [|h [|h' hs]] Hf Hne; cbn [length] in *; try done; try lia.
  - exists []. constructor.
  - cbn [tile_root]. set (l := h :: h' :: hs).
    assert (Hlen : length l = S (S (length hs))) by done. clearbody l.
    destruct (split_lengths l) as (k & Ht & Hd & ? & ?); [lia|].
    destruct (IH (take (split_point (length l)) l)) as [p1 H1]; [lia| |].
    { intros E. rewrite E in Ht. cbn in Ht. pose proof (Nat.pow_nonzero 2 k). lia. }
    destruct (IH (drop (split_point (length l)) l)) as [p2 H2]; [lia| |].
    { intros E. rewrite E in Hd. cbn in Hd. lia. }
    eexists. rewrite <- (take_drop (split_point (length l)) l) at 1.
    by apply (tree_node k); [|lia|..].
Qed.

Lemma hashTileRoot_tree hs : hs <> [] -> exists ps, tree hs (hashTileRoot hs) ps.
Proof. by apply tile_root_tree. Qed.

Lemma root_pairs_tree fuel hs :
  length hs <= fuel -> hs <> [] -> tree hs (hashTileRoot hs) (root_pairs fuel hs).
Proof.
  revert hs. induction fuel as [|fuel IH]; intros [|h [|h' hs]] Hf Hne; cbn [length] in *; try done; try lia.
  - constructor.
  - cbn [root_pairs]. set (l := h :: h' :: hs).
    assert (Hlen : length l = S (S (length hs))) by done. clearbody l.
    destruct (split_lengths l) as (k & Ht & Hd & ? & ?); [lia|].
    assert (H1 := IH (take (split_point (length l)) l)). assert (H2 := IH (drop (split_point (length l)) l)).
    assert (Htree : tree (take (split_point (length l)) l ++ drop (split_point (length l)) l)
      (NodeHash (hashTileRoot (take (split_point (length l)) l)) (hashTileRoot (drop (split_point (length l)) l)))
      ((hashTileRoot (take (split_point (length l)) l), hashTileRoot (drop (split_point (length l)) l))
        :: root_pairs fuel (take (split_point (length l)) l) ++ root_pairs fuel (drop (split_point (length l)) l))).
    { apply (tree_node k); [done|lia| |].
      - apply H1; [lia|]. intros E. rewrite E in Ht. cbn in Ht. pose proof (Nat.pow_nonzero 2 k). lia.
      - apply H2; [lia|]. intros E. rewrite E in Hd. cbn in Hd. lia. }
    rewrite take_drop in Htree. destruct (hashTileRoot_tree l) as [ps Hps]; [by intros ->|].
    by destruct (tree_fun _ _ _ Hps _ _ Htree) as [-> _].
Qed.

Lemma node_pairs_tree hs : hs <> [] -> tree hs (hashTileRoot hs) (node_pairs hs).
Proof. by apply root_pairs_tree. Qed.

Lemma tree_root hs r ps : tree hs r ps -> r = hashTileRoot hs /\ ps = node_pairs hs.
Proof.
  intros H. apply (tree_fun _ _ _ H). apply node_pairs_tree.
  intros ->. by apply tree_length in H; cbn in H; lia.
Qed.

(** [hashTileRoot] of the blocks' roots is [hashTileRoot] of the leaves. *)
Lemma hashTileRoot_concat k bs :
  full_blocks k bs -> bs <> [] -> Forall (fun b => b <> []) bs ->
  hashTileRoot (concat bs) = hashTileRoot (hashTileRoot <$> bs) /\
  forall p, p ∈ node_pairs (concat bs) <->
    p ∈ node_pairs (hashTileRoot <$> bs) \/ exists b, b ∈ bs /\ p ∈ node_pairs b.
Proof.
  intros Hf Hne Hb.
  assert (Ht := node_pairs_tree (hashTileRoot <$> bs)).
  destruct (tree_concat k bs (hashTileRoot <$> bs) (node_pairs <$> bs)
    (hashTileRoot (hashTileRoot <$> bs)) (node_pairs (hashTileRoot <$> bs))) as (ps & Hps & Hin).
  - done.
  - clear Hf Hne Ht. induction Hb; constructor; auto using node_pairs_tree.
  - apply Ht. by destruct bs.
  - apply tree_root in Hps as [-> ->]. split; [done|]. intros p. rewrite Hin.
    rewrite elem_of_concat. split; intros [?|(l & Hl & Hp)]; auto; right.
    + apply list_elem_of_fmap in Hl as (b & -> & Hb'). eauto.
    + exists (node_pairs l). split; [|done]. apply list_elem_of_fmap. eauto.
Qed.

(** *** Binding *)
Definition pairs_collide (ps qs : list (string * string)) : Prop :=
  exists p q, p ∈ ps /\ q ∈ qs /\ p <> q /\ NodeHash p.1 p.2 = NodeHash q.1 q.2.

Lemma pairs_collide_mono ps qs ps' qs' :
  ps ⊆ ps' -> qs ⊆ qs' -> pairs_collide ps qs -> pairs_collide ps' qs'.
Proof. intros Hp Hq (p & q & ? & ? & ? & ?). exists p, q. auto. Qed.

Lemma pairs_collide_dec ps qs : Decision (pairs_collide ps qs).
Proof.
  destruct (decide (Exists (fun p : string * string =>
    Exists (fun q : string * string => p <> q /\ NodeHash p.1 p.2 = NodeHash q.1 q.2) qs) ps)) as [H|H];
    [left|right].
  - apply Exists_exists in H as (p & Hp & (q & Hq & H)%Exists_exists). exists p, q. naive_solver.
  - intros (p & q & Hp & Hq & Hpq). apply H. apply Exists_exists. exists p. split; [done|].
    apply Exists_exists. eauto.
Defined.

(** Two lists of one length with one root are equal, or a pair hashed for one
    collides with a pair hashed for the other. *)
Lemma tree_binding xs r ps :
  tree xs r ps -> forall ys qs, tree ys r qs -> length xs = length ys ->
  xs = ys \/ pairs_collide ps qs.
Proof.
  induction 1 as [h|k xs1 xs2 l r pl pr Hx Hy Hl IHl Hr IHr]; intros ys qs H' Hlen.
  - destruct ys as [|y [|]]; try discriminate Hlen. apply tree_root in H' as [-> _]. by left.
  - pose proof (tree_length _ _ _ Hl). pose proof (tree_length _ _ _ Hr).
    inversion H' as [h E|k' ys1 ys2 l' r' pl' pr' Hx' Hy' Hl' Hr' E1 E2]; subst.
    { rewrite length_app in Hlen. cbn in Hlen. lia. }
    pose proof (tree_length _ _ _ Hl'). pose proof (tree_length _ _ _ Hr').
    assert (k' = k) as ->.
    { rewrite !length_app in Hlen. apply (pow2_between _ _ (length xs1 + length xs2)); lia. }
    destruct (decide ((l, r) = (l', r'))) as [[= <- <-]|Hne].
    2:{ right. exists (l, r), (l', r'). split_and!; [by left|by left|done|done]. }
    rewrite !length_app in Hlen.
    destruct (IHl _ _ Hl') as [->|Hc]; [lia| |].
    2:{ right. eapply pairs_collide_mono; [| |exact Hc]; set_solver. }
    destruct (IHr _ _ Hr') as [->|Hc]; [lia|by left|].
    right. eapply pairs_collide_mono; [| |exact Hc]; set_solver.
Qed.

Lemma hashTileRoot_binding xs ys :
  length xs = length ys -> hashTileRoot xs = hashTileRoot ys ->
  xs = ys \/ pairs_collide (node_pairs xs) (node_pairs ys).
Proof.
  intros Hlen Hr. destruct (decide (xs = [])) as [->|Hx]; [left; by destruct ys|].
  assert (Hy : ys <> []) by (intros ->; by destruct xs).
  apply (tree_binding _ _ _ (node_pairs_tree xs Hx)); [|done]. rewrite Hr. by apply node_pairs_tree.
Qed.

Lemma hashTileRoot_one h : hashTileRoot [h] = h.
Proof. done. Qed.

(** *** [merkleRoot] *)
Context {TS : TLogSpec T}.

Lemma entries_root_tree fuel entries :
  length entries <= fuel -> entries <> [] ->
  exists ps, tree (RecordHash <$> entries) (entries_root fuel entries) ps.
Proof.
  revert entries. induction fuel as [|fuel IH]; intros [|h [|h' hs]] Hf Hne;
    cbn [length] in *; try done; try lia.
  - exists []. constructor.
  - cbn [entries_root]. set (l := h :: h' :: hs).
    assert (Hlen : length l = S (S (length hs))) by done. clearbody l.
    destruct (split_lengths l) as (k & Ht & Hd & ? & ?); [lia|].
    destruct (IH (take (split_point (length l)) l)) as [p1 H1]; [lia| |].
    { intros E. rewrite E in Ht. cbn in Ht. pose proof (Nat.pow_nonzero 2 k). lia. }
    destruct (IH (drop (split_point (length l)) l)) as [p2 H2]; [lia| |].
    { intros E. rewrite E in Hd. cbn in Hd. lia. }
    eexists. rewrite <- NodeHash_spec. rewrite <- (take_drop (split_point (length l)) l) at 1.
    rewrite fmap_app. by apply (tree_node k); rewrite ?length_fmap; [|lia|..].
Qed.

Lemma merkleRoot_tree entries :
  entries <> [] -> tree (RecordHash <$> entries) (merkleRoot entries) (node_pairs (RecordHash <$> entries)).
Proof.
  intros H. destruct (entries_root_tree (length entries) entries) as [ps Hps]; [done|done|].
  by pose proof (tree_root _ _ _ Hps) as [_ <-].
Qed.

Lemma merkleRoot_hashTileRoot entries :
  entries <> [] -> merkleRoot entries = hashTileRoot (RecordHash <$> entries).
Proof. intros H. by apply merkleRoot_tree, tree_root in H as [-> _]. Qed.

(** *** [merkleLevels] *)
Lemma next_level_tree n level r ps :
  length level <= n -> tree (next_level level) r ps -> exists ps', tree level r ps'.
Proof.
  intros Hn Ht.
  assert (H : exists bs pss, concat bs = level /\ full_blocks 1 bs /\ Forall3 tree bs (next_level level) pss).
  { clear Ht. revert level Hn. induction n as [|n IH]; intros [|a [|b level]] Hn; cbn [length] in *; try lia.
    - exists [], []. split_and!; [done| |constructor]. by intros [|??] ?? [=].
    - exists [], []. split_and!; [done| |constructor]. by intros [|??] ?? [=].
    - exists [[a]], [[]]. split_and!; [done| |repeat constructor].
      intros [|? [|??]] ?? [=]; subst. cbn. split; [lia|done].
    - destruct (IH level) as (bs & pss & <- & Hf & Hbs); [lia|].
      exists ([a; b] :: bs), ([(a, b)] :: pss). split_and!; [done| |].
      + intros [|c cs] d ds [= <- E]; subst; [cbn; split; lia|]. by apply (Hf cs d ds).
      + cbn [next_level]. constructor; [|done]. rewrite <- NodeHash_spec.
        apply (tree_node 0 [a] [b] a b [] []); [done|cbn; lia|constructor|constructor]. }
  destruct H as (bs & pss & <- & Hf & Hbs).
  destruct (tree_concat 1 bs _ pss r ps Hf Hbs Ht) as (ps' & H & _). eauto.
Qed.

Lemma next_level_length n level :
  length level <= n -> length (next_level level) <= S (length level) / 2 /\
  (level <> [] -> next_level level <> []).
Proof.
  revert level. induction n as [|n IH]; intros [|a [|b level]] Hn; cbn [length] in *; try lia; try done.
  destruct (IH level) as [Hl _]; [lia|]. cbn [next_level length]. split; [|done].
  replace (S (S (S (length level)))) with (1 * 2 + S (length level)) by lia.
  rewrite Nat.div_add_l by lia. lia.
Qed.

Lemma levels_loop_root fuel level :
  length level <= S fuel -> level <> [] ->
  exists r ps, levels_root (level :: levels_loop fuel level) = Some r /\ tree level r ps.
Proof.
  revert level. induction fuel as [|fuel IH]; intros level Hf Hne.
  - destruct level as [|h [|]]; cbn [length] in *; try lia; [done|].
    exists h, []. split; [done|constructor].
  - cbn [levels_loop]. destruct (Nat.ltb_spec 1 (length level)) as [Hlt|Hge].
    + destruct (next_level_length (length level) level) as [Hl Hn]; [done|].
      destruct (IH (next_level level)) as (r & ps & Hr & Ht).
      * assert (S (length level) / 2 < length level) by (apply Nat.Div0.div_lt_upper_bound; lia). lia.
      * auto.
      * exists r. apply (next_level_tree (length level)) in Ht as [ps' Ht]; [|done].
        exists ps'. split; [|done]. rewrite <- Hr. done.
    + destruct level as [|h [|]]; cbn [length] in *; try lia; [done|].
      exists h, []. split; [done|constructor].
Qed.

Lemma merkleLevels_root entries : levels_root (merkleLevels entries) = Some (merkleRoot entries).
Proof.
  unfold merkleLevels. destruct entries as [|e entries]; [done|].
  destruct (levels_loop_root (length (RecordHash <$> e :: entries)) (RecordHash <$> e :: entries))
    as (r & ps & Hr & Ht); [lia|done|].
  cbn [fmap list_fmap] in *. rewrite Hr. f_equal.
  assert (H := merkleRoot_tree (e :: entries)). cbn [fmap list_fmap] in H.
  by destruct (tree_fun _ _ _ Ht _ _ (H ltac:(done))) as [-> _].
Qed.
End merkle.

(** ** Audit paths (RFC 6962, section 2.1.1)

    [run_proof i n leaf q]: the root that an audit path for leaf [i] of a tree
    of [n] leaves leads to, and the pairs hashed on the way. The path [q] is
    reversed: its head is the sibling nearest to the root. *)
Section audit.
Context {T : TLog}.

Fixpoint run_proof (fuel i n : nat) (leaf : string) (q : list string)
    : option (string * list (string * string)) :=
  match fuel with
  | O => None
  | S fuel =>
      if n =? 1 then
        match i, q with 0, [] => Some (leaf, []) | _, _ => None end
      else
        let k := split_point n in
        match q with
        | [] => None
        | sibling :: q =>
            if i <? k then
              match run_proof fuel i k leaf q with
              | Some (l, ps) => Some (NodeHash l sibling, (l, sibling) :: ps)
              | None => None
              end
            else
              match run_proof fuel (i - k) (n - k) leaf q with
              | Some (r, ps) => Some (NodeHash sibling r, (sibling, r) :: ps)
              | None => None
              end
        end
  end.

Lemma tree_split hs r ps :
  tree hs r ps -> 2 <= length hs ->
  exists l rr pl pr,
    tree (take (split_point (length hs)) hs) l pl /\ tree (drop (split_point (length hs)) hs) rr pr /\
    r = NodeHash l rr /\ ps = (l, rr) :: pl ++ pr /\
    split_point (length hs) < length hs /\ 0 < split_point (length hs).
Proof.
  intros Ht Hlen. destruct (split_point_spec (length hs) Hlen) as (k & Hk & Hlt & Hle).
  inversion Ht as [|j xs ys l rr pl pr Hx Hy Hl Hr]; subst; [cbn in Hlen; lia|].
  pose proof (tree_length _ _ _ Hl). pose proof (tree_length _ _ _ Hr).
  rewrite !length_app in *.
  assert (j = k) as -> by (apply (pow2_between _ _ (length xs + length ys)); lia).
  rewrite Hk. rewrite take_app_length' by done. rewrite drop_app_length' by done.
  exists l, rr, pl, pr. split_and!; try done; try lia.
Qed.

(** A path that leads to the root of [hs] starts at the [i]-th leaf of [hs],
    or a pair hashed on the way collides with one of the tree over [hs]. *)
Lemma run_proof_sound fuel i leaf q hs r ps qs :
  tree hs r ps -> run_proof fuel i (length hs) leaf q = Some (r, qs) -> i < length hs ->
  hs !! i = Some leaf \/ pairs_collide ps qs.
Proof.
  revert i q hs r ps qs. induction fuel as [|fuel IH]; intros i q hs r ps qs Ht H Hi; [done|].
  cbn [run_proof] in H. destruct (Nat.eqb_spec (length hs) 1) as [E|E].
  - destruct i, q; try discriminate H. injection H as <- <-. destruct hs as [|h [|]]; try done.
    apply tree_root in Ht as [-> _]. by left.
  - destruct q as [|s q]; [done|].
    destruct (tree_split hs r ps Ht) as (l & rr & pl & pr & Hl & Hr & -> & -> & Hlt & Hpos); [lia|].
    set (k := split_point (length hs)) in *.
    assert (Htk : length (take k hs) = k) by (rewrite length_take; lia).
    assert (Hdk : length (drop k hs) = length hs - k) by (by rewrite length_drop).
    destruct (Nat.ltb_spec i k) as [Hik|Hik].
    + destruct (run_proof fuel i k leaf q) as [[l' qs']|] eqn:Eq; [|done]. injection H as Hn <-.
      destruct (decide ((l, rr) = (l', s))) as [[= <- <-]|Hne].
      2:{ right. exists (l, rr), (l', s). split_and!; [by left|by left|done|by cbn; rewrite Hn]. }
      rewrite <- Htk in Eq. destruct (IH _ _ _ _ _ _ Hl Eq) as [Hlk|Hc]; [lia| |].
      * left. by rewrite lookup_take_lt in Hlk.
      * right. eapply pairs_collide_mono; [| |exact Hc]; set_solver.
    + destruct (run_proof fuel (i - k) _ leaf q) as [[r' qs']|] eqn:Eq; [|done]. injection H as Hn <-.
      destruct (decide ((l, rr) = (s, r'))) as [[= <- <-]|Hne].
      2:{ right. exists (l, rr), (s, r'). split_and!; [by left|by left|done|by cbn; rewrite Hn]. }
      rewrite <- Hdk in Eq. destruct (IH _ _ _ _ _ _ Hr Eq) as [Hlk|Hc]; [lia| |].
      * left. rewrite lookup_drop in Hlk. by replace (k + (i - k)) with i in Hlk by lia.
      * right. eapply pairs_collide_mono; [| |exact Hc]; set_solver.
Qed.
End audit.

(** ** The theorems *)
(** The three computations of a log's root agree: the root of the level
    list a scan builds bottom-up is [merkleRoot] of the entries, which for a
    nonempty log is the tile fold of the leaf hashes and the tree hash that
    RFC 6962 defines. *)
Theorem merkle_roots_agree {T : TLog} {TS : TLogSpec T} entries :
  levels_root (merkleLevels entries) = Some (merkleRoot entries) /\
  (entries <> [] ->
    merkleRoot entries = hashTileRoot (RecordHash <$> entries) /\
    exists ps, tree (RecordHash <$> entries) (merkleRoot entries) ps).
Proof.
  split; [apply merkleLevels_root|]. intros H.
  split; [by apply merkleRoot_hashTileRoot|]. eexists. by apply merkleRoot_tree.
Qed.

Lemma merkle_roots_agree_witness :
  @levels_root (@merkleLevels rfc6962_tlog ["a"; "b"; "c"]) =
    Some (@merkleRoot rfc6962_tlog ["a"; "b"; "c"]).
Proof. apply (@merkle_roots_agree rfc6962_tlog rfc6962_spec ["a"; "b"; "c"]). Defined.

(** A root and a size commit to the log: two logs of one size with one
    root have the same entries, or the two computations of the root exhibit a
    collision: two entries at one position with one leaf hash, or two different
    node inputs, one of each tree, with one node hash. *)
Theorem merkle_root_binding {T : TLog} {TS : TLogSpec T} xs ys :
  length xs = length ys -> merkleRoot xs = merkleRoot ys ->
  xs = ys \/
  (exists i a b, xs !! i = Some a /\ ys !! i = Some b /\ a <> b /\ RecordHash a = RecordHash b) \/
  pairs_collide (node_pairs (RecordHash <$> xs)) (node_pairs (RecordHash <$> ys)).
Proof.
  intros Hlen Hr. destruct (decide (xs = [])) as [->|Hx].
  { clear Hr. left. by destruct ys. }
  assert (Hy : ys <> []) by (clear Hr; intros ->; by destruct xs).
  rewrite !merkleRoot_hashTileRoot in Hr by done.
  assert (Hmap : RecordHash <$> xs = RecordHash <$> ys ->
    xs = ys \/ exists i a b, xs !! i = Some a /\ ys !! i = Some b /\ a <> b /\ RecordHash a = RecordHash b).
  { clear Hx Hy Hr. revert ys Hlen. induction xs as [|x xs IH]; intros [|y ys] Hlen Hm; try done; [by left|].
    injection Hm as Hxy Hm. injection Hlen as Hlen.
    destruct (decide (x = y)) as [->|Hne]; [|right; by exists 0, x, y].
    destruct (IH ys Hlen Hm) as [->|(i & a & b & H)]; [by left|].
    right. by exists (S i), a, b. }
  apply hashTileRoot_binding in Hr as [Hm|Hc]; [|by auto|by rewrite !length_fmap].
  destruct (Hmap Hm); auto.
Qed.

Lemma merkle_root_binding_witness :
  let xs := ["a"; "b"; "c"] in let ys := ["a"; "b"; "c"] in
  xs = ys \/
  (exists i a b, xs !! i = Some a /\ ys !! i = Some b /\ a <> b /\
    @RecordHash rfc6962_tlog a = @RecordHash rfc6962_tlog b) \/
  @pairs_collide rfc6962_tlog (@node_pairs rfc6962_tlog (@RecordHash rfc6962_tlog <$> xs))
    (@node_pairs rfc6962_tlog (@RecordHash rfc6962_tlog <$> ys)).
Proof.
  exact (@merkle_root_binding rfc6962_tlog rfc6962_spec ["a"; "b"; "c"] ["a"; "b"; "c"] eq_refl eq_refl).
Defined.
