(* ===== verification/Evidence.v ===== *)
(** * Evidence: what the C2SP log packages share

    The classification of evidence errors (client.go, checkpoint_store.go), the
    bounded resource fetcher seen through [fetchBounded] (resource_fetcher.go),
    trusted checkpoints (checkpoint_store.go), tile paths and entry bundles
    (scan_source.go). The fetcher and the context are supplied by the caller:
    class [World] holds them, indexed by a clock so that a server may answer
    differently every time and a context may be cancelled at any moment. *)

From Stdlib Require Import ZArith Lia Ascii String DecimalString DecimalN.
From S2P Require Import Prelude Codec Merkle.

Open Scope string_scope.
Open Scope list_scope.
Open Scope Z_scope.

(** ** Error codes and classification *)
Definition VerificationCodeInvalidEvidence : string := "INVALID_EVIDENCE".
Definition VerificationCodeLogRollback : string := "LOG_ROLLBACK".
Definition VerificationCodeLogFork : string := "LOG_FORK".
Definition VerificationCodeLogInconsistent : string := "LOG_INCONSISTENT".
Definition VerificationCodeCheckpointStore : string := "CHECKPOINT_STORE_ERROR".
Definition VerificationCodeLogError : string := "log_error".

Definition CheckpointAdvanceRollback : string := "rollback".
Definition CheckpointAdvanceRootConflict : string := "root_conflict".
Definition CheckpointAdvanceConsistencyFailed : string := "consistency_failed".
Definition CheckpointAdvanceConsistencyUnavailable : string := "consistency_unavailable".

Definition ResourceFetchResponseLimit : string := "response_limit".
Definition ResourceFetchHTTPStatus : string := "http_status".
Definition ResourceFetchUnavailable : string := "unavailable".

Definition as_verification (e : error) : option (string * bool) :=
  match e with VerificationError code transient _ => Some (code, transient) | _ => None end.
Definition as_advance (e : error) : option string :=
  match e with CheckpointAdvanceError kind _ _ _ _ _ _ => Some kind | _ => None end.
Definition as_fetch (e : error) : option (string * Z) :=
  match e with ResourceFetchError kind status _ => Some (kind, status) | _ => None end.
Definition as_permanent (e : error) : option unit :=
  match e with ParseError _ | ValidationError _ | ArgumentError _ => Some tt | _ => None end.

(** [interface{ Transient() bool }]: the errors that say so themselves. *)
Definition as_transient (e : error) : option bool :=
  match e with
  | VerificationError _ transient _ | ResourceFetchError _ _ transient => Some transient
  | CheckpointAdvanceError _ _ _ _ _ _ _ => Some false
  | _ => None
  end.

Definition resourceFailureTransient (err : error) (fallback : bool) : bool :=
  default fallback (errors_as as_transient err).

Definition logVerificationError (err : error) (transient : bool) : error :=
  match errors_as as_verification err with
  | Some _ => err
  | None =>
    match errors_as as_advance err with
    | Some kind =>
        let code :=
          if str_eqb kind CheckpointAdvanceRollback then VerificationCodeLogRollback
          else if str_eqb kind CheckpointAdvanceRootConflict then VerificationCodeLogFork
          else if str_eqb kind CheckpointAdvanceConsistencyFailed then VerificationCodeLogInconsistent
          else VerificationCodeInvalidEvidence in
        WithCause (VerificationError code false "dnsid: c2sp-tlog checkpoint continuity failed") err
    | None =>
      match errors_as as_permanent err with
      | Some _ => err
      | None =>
          WithCause (VerificationError VerificationCodeLogError (resourceFailureTransient err transient)
            "dnsid: c2sp-tlog verification failed") err
      end
    end
  end.

(** ** Trusted checkpoints *)
Record TrustedC2spCheckpoint := {
  Origin : string;
  TreeSize : Z;
  RootHash : string;
  WitnessTime : time
}.

#[export] Instance checkpoint_eq_dec : EqDecision TrustedC2spCheckpoint.
Proof. solve_decision. Defined.

Definition checkpointAdvanceError (kind : string) (old next : TrustedC2spCheckpoint) : error :=
  CheckpointAdvanceError kind (Origin next) (TreeSize old) (TreeSize next) (RootHash old) (RootHash next)
    (str_eqb kind CheckpointAdvanceRootConflict).

Definition checkpointStoreError (message : string) : error :=
  VerificationError VerificationCodeCheckpointStore false message.

(** Years 1 and 10000 as instants. *)
Definition year_10000 : time := unix_time 253402300800.
Definition MaxInt64 : Z := max_int64.

Section checkpoints.
Context {T : TLog}.

Definition validateTrustedCheckpoint (origin : string) (checkpoint : TrustedC2spCheckpoint) : res unit :=
  fail_if is_empty origin || negb (str_eqb (Origin checkpoint) origin)
      || (MaxInt64 <? TreeSize checkpoint)
      || negb (Nat.eqb (String.length (RootHash checkpoint)) 32)
      || time_is_zero (WitnessTime checkpoint)
      || (WitnessTime checkpoint <? 0) || (year_10000 <=? WitnessTime checkpoint)
    with ArgumentError "dnsid: checkpoint requires a matching nonempty origin, int64 tree size, SHA-256 root and valid witnessed time" ;;
  fail_if (TreeSize checkpoint =? 0) && negb (str_eqb (RootHash checkpoint) (merkleRoot []))
    with ArgumentError "dnsid: empty checkpoint requires SHA-256 empty-tree root" ;;
  Ok tt.
End checkpoints.

Definition trustedCheckpointsEqual (a b : TrustedC2spCheckpoint) : bool :=
  str_eqb (Origin a) (Origin b) && (TreeSize a =? TreeSize b)
  && str_eqb (RootHash a) (RootHash b) && (WitnessTime a =? WitnessTime b).

(** ** The fetcher and the context *)
Class World := {
  ctx_err : nat -> option error;
  FetchBounded : nat -> string -> Z -> res string
}.

Definition fetchBounded `{World} (now : nat) (rawURL : string) (maximum : Z) : res string :=
  data ← FetchBounded now rawURL maximum;
  fail_if maximum <? Z.of_nat (String.length data)
    with ResourceFetchError ResourceFetchResponseLimit 0 false ;;
  Ok data.

(** ** Paths and bundles *)
Fixpoint zeros (n : nat) : string := match n with O => "" | S n => String "0" (zeros n) end.

(** The groups of three digits of [tileNumber]: all but the last get an x. *)
Fixpoint digit_groups (fuel : nat) (digits : string) : list string :=
  match fuel, digits with
  | S fuel, String a (String b (String c rest)) =>
      let group := String a (String b (String c "")) in
      if is_empty rest then [group] else String "x" group :: digit_groups fuel rest
  | _, _ => []
  end.

Definition tileNumber (number : Z) : string :=
  let digits := format_uint (Z.to_N number) in
  let remainder := (String.length digits mod 3)%nat in
  let digits := if Nat.eqb remainder 0 then digits else String.append (zeros (3 - remainder)) digits in
  join "/" (digit_groups (String.length digits) digits).

(** [binary.BigEndian.Uint16]. *)
Definition uint16_be (hi lo : ascii) : nat := Z.to_nat (byte_val hi * 256 + byte_val lo).

(** Every entry takes two bytes at least: the length of the data is enough. *)
Fixpoint parse_bundle (fuel : nat) (data : string) : res (list string) :=
  match fuel with
  | O => Err (PlainError "out of fuel")
  | S fuel =>
      match data with
      | EmptyString => Ok []
      | String hi (String lo rest) =>
          let len := uint16_be hi lo in
          fail_if (String.length rest <? len)%nat
            with PlainError "dnsid: truncated c2sp-tlog entry bundle entry" ;;
          entries ← parse_bundle fuel (str_drop len rest);
          Ok (str_take len rest :: entries)
      | String _ EmptyString => Err (PlainError "dnsid: truncated c2sp-tlog entry bundle length")
      end
  end.
Definition parseEntryBundle (data : string) : res (list string) :=
  parse_bundle (S (String.length data)) data.

(** ** Lemmas *)
Lemma uint16_be_range hi lo : Z.of_nat (uint16_be hi lo) < 65536.
Proof. unfold uint16_be. pose proof (byte_val_range hi). pose proof (byte_val_range lo). lia. Qed.

(** The encoding of an entry: its length in two bytes, then its bytes. *)
Definition bundle_entry (e : string) : string :=
  let n := Z.of_nat (String.length e) in
  String (byte_of (n / 256)) (String (byte_of n) e).
Fixpoint entry_bundle (es : list string) : string :=
  match es with [] => "" | e :: es => String.append (bundle_entry e) (entry_bundle es) end.

Lemma byte_of_mod z : byte_of (z mod 256) = byte_of z.
Proof. unfold byte_of. by rewrite Z.mod_mod. Qed.

Lemma uint16_be_byte_of n :
  Z.of_nat n < 65536 -> uint16_be (byte_of (Z.of_nat n / 256)) (byte_of (Z.of_nat n)) = n.
Proof.
  intros Hn. unfold uint16_be.
  rewrite <- (byte_of_mod (Z.of_nat n)), !byte_val_of;
    [|by apply Z.mod_pos_bound|split; [apply Z.div_pos|apply Z.div_lt_upper_bound]; lia].
  rewrite Z.mul_comm, <- Z.div_mod by lia. lia.
Qed.

Lemma byte_of_uint16 hi lo :
  let n := Z.of_nat (uint16_be hi lo) in byte_of (n / 256) = hi /\ byte_of n = lo.
Proof.
  cbn. unfold uint16_be. pose proof (byte_val_range hi). pose proof (byte_val_range lo).
  rewrite Z2Nat.id by lia. rewrite Z.div_add_l by lia. rewrite (Z.div_small (byte_val lo)) by lia.
  rewrite Z.add_0_r. split; [apply byte_of_val|].
  rewrite <- byte_of_mod, Z.add_comm, Z.mod_add, Z.mod_small by lia. apply byte_of_val.
Qed.

Lemma parse_bundle_sound fuel data es :
  parse_bundle fuel data = Ok es ->
  data = entry_bundle es /\ Forall (fun e => Z.of_nat (String.length e) < 65536) es.
Proof.
  revert data es. induction fuel as [|fuel IH]; intros data es H; [done|].
  cbn [parse_bundle] in H. destruct data as [|hi [|lo rest]]; [by go_inv|done|].
  unfold mbind, res_bind in H. destruct (Nat.ltb_spec (String.length rest) (uint16_be hi lo)) as [|Hle]; [done|].
  destruct (parse_bundle fuel _) as [es'|] eqn:E; [|done]. go_inv.
  apply IH in E as [E Hf]. pose proof (str_take_length (uint16_be hi lo) rest Hle) as Hlen.
  destruct (byte_of_uint16 hi lo) as [Hhi Hlo]. split.
  - cbn [entry_bundle]. unfold bundle_entry. rewrite Hlen, Hhi, Hlo, !append_cons.
    by rewrite <- E, str_take_drop.
  - constructor; [|done]. rewrite Hlen. apply uint16_be_range.
Qed.

Lemma parse_bundle_complete es fuel :
  Forall (fun e => Z.of_nat (String.length e) < 65536) es ->
  (String.length (entry_bundle es) < fuel)%nat ->
  parse_bundle fuel (entry_bundle es) = Ok es.
Proof.
  intros H. revert fuel. induction H as [|e es He Hes IH]; intros [|fuel] Hf; try lia; [done|].
  cbn [entry_bundle] in *. unfold bundle_entry in *.
  rewrite !append_cons in *. cbn [parse_bundle String.length] in *.
  assert (Hl : String.length (String.append e (entry_bundle es)) =
    (String.length e + String.length (entry_bundle es))%nat).
  { clear. induction e as [|c e IH]; [done|]. rewrite append_cons. cbn. by rewrite IH. }
  rewrite uint16_be_byte_of by done. rewrite Hl in Hf |- *.
  destruct (Nat.ltb_spec (String.length e + String.length (entry_bundle es)) (String.length e)); [lia|].
  by rewrite str_drop_append, str_take_append, IH by lia.
Qed.

(** [parseEntryBundle] is the inverse of the entry-bundle encoding: it
    accepts exactly the concatenations of entries of at most 65535 bytes, each
    behind its 16-bit big-endian length, and returns these entries. *)
Theorem parse_entry_bundle_spec data es :
  parseEntryBundle data = Ok es <->
  data = entry_bundle es /\ Forall (fun e => Z.of_nat (String.length e) < 65536) es.
Proof.
  split; [apply parse_bundle_sound|]. intros [-> H]. apply parse_bundle_complete; [done|lia].
Qed.

Definition demo_entries : list string := ["ab"; ""; "xyz"].

(** *** Tile paths *)
(** The digits of a path: what is left without the separators. *)
Fixpoint path_digits (s : string) : string :=
  match s with
  | EmptyString => ""
  | String c s => if Ascii.eqb c "x" || Ascii.eqb c "/" then path_digits s else String c (path_digits s)
  end.

Lemma path_digits_append s t : path_digits (String.append s t) = String.append (path_digits s) (path_digits t).
Proof.
  induction s as [|c s IH]; [done|]. rewrite append_cons. cbn [path_digits].
  destruct (_ || _); [done|]. by rewrite append_cons, IH.
Qed.

Definition is_digit (c : ascii) : bool := (48 <=? byte_val c) && (byte_val c <=? 57).

Lemma path_digits_digits s : forall_byte is_digit s = true -> path_digits s = s.
Proof.
  induction s as [|c s IH]; [done|]. cbn. intros [Hc Hs]%andb_true_iff. rewrite IH by done.
  destruct (Ascii.eqb_spec c "x"); [by subst|]. by destruct (Ascii.eqb_spec c "/"); [subst|].
Qed.

Lemma digit_groups_digits fuel s :
  forall_byte is_digit s = true -> (String.length s <= fuel)%nat -> (String.length s mod 3 = 0)%nat ->
  path_digits (join "/" (digit_groups fuel s)) = s.
Proof.
  revert s. induction fuel as [|fuel IH]; intros s Hs Hf Hm.
  - destruct s; [done|cbn in Hf; lia].
  - destruct s as [|a [|b [|c rest]]]; try done. cbn [forall_byte] in Hs.
    rewrite !andb_true_iff in Hs. destruct Hs as (Ha & Hb & Hc & Hs).
    assert (Hg : path_digits (String a (String b (String c ""))) = String a (String b (String c ""))).
    { apply path_digits_digits. cbn. by rewrite Ha, Hb, Hc. }
    cbn [digit_groups]. destruct (is_empty rest) eqn:E.
    + apply is_empty_true in E as ->. exact Hg.
    + assert (Hrest : path_digits (join "/" (digit_groups fuel rest)) = rest).
      { apply IH; [done|cbn in Hf; lia|]. cbn [String.length] in Hm.
        replace (S (S (S (String.length rest)))) with (String.length rest + 1 * 3)%nat in Hm by lia.
        by rewrite Nat.Div0.mod_add in Hm. }
      destruct (digit_groups fuel rest) as [|g gs] eqn:Eg.
      { cbn in Hrest. subst rest. done. }
      change (join "/" (String "x" (String a (String b (String c ""))) :: g :: gs)) with
        (String.append (String "x" (String a (String b (String c "")))) (String "/" (join "/" (g :: gs)))).
      rewrite path_digits_append. cbn [path_digits Ascii.eqb Bool.eqb orb] in *.
      change (path_digits (String "x" (String a (String b (String c ""))))) with
        (path_digits (String a (String b (String c "")))).
      rewrite Hg, Hrest. done.
Qed.

Lemma digits_of_uint u : forall_byte is_digit (NilEmpty.string_of_uint u) = true.
Proof. induction u; cbn [NilEmpty.string_of_uint forall_byte]; rewrite ?IHu; done. Qed.

Lemma zeros_digits n : forall_byte is_digit (zeros n) = true.
Proof. induction n; done. Qed.

Lemma zeros_length n : String.length (zeros n) = n.
Proof. induction n; cbn; auto. Qed.

Lemma parse_zeros n s u :
  NilEmpty.uint_of_string s = Some u ->
  exists u', NilEmpty.uint_of_string (String.append (zeros n) s) = Some u' /\ N.of_uint u' = N.of_uint u.
Proof.
  intros H. induction n as [|n (u' & Hu & Hn)]; [by exists u|].
  cbn [zeros]. rewrite append_cons. cbn [NilEmpty.uint_of_string]. rewrite Hu.
  exists (Decimal.D0 u'). split; [done|]. rewrite <- Hn. done.
Qed.

(** Distinct tile indices are fetched from distinct paths, since the
    index is the number the digits of its path spell. *)
Theorem tile_number_injective n m :
  0 <= n -> 0 <= m -> tileNumber n = tileNumber m -> n = m.
Proof.
  assert (Hspec : forall k, 0 <= k ->
    exists u, NilEmpty.uint_of_string (path_digits (tileNumber k)) = Some u /\ N.of_uint u = Z.to_N k).
  { intros k Hk. unfold tileNumber. set (d := format_uint (Z.to_N k)).
    assert (Hd : NilEmpty.uint_of_string d = Some (N.to_uint (Z.to_N k))) by apply NilEmpty.usu.
    assert (Hdig : forall_byte is_digit d = true) by apply digits_of_uint.
    pose proof (Nat.mod_upper_bound (String.length d) 3).
    destruct (Nat.eqb_spec (String.length d mod 3) 0) as [E|E].
    - rewrite digit_groups_digits by done. eexists. split; [exact Hd|]. apply DecimalN.Unsigned.of_to.
    - rewrite digit_groups_digits; [|by rewrite forall_byte_append, zeros_digits|done|].
      + destruct (parse_zeros (3 - String.length d mod 3) d _ Hd) as (u & Hu & Hn).
        exists u. split; [done|]. rewrite Hn. apply DecimalN.Unsigned.of_to.
      + rewrite append_length, zeros_length.
        rewrite (Nat.div_mod_eq (String.length d) 3) at 2.
        replace (3 - String.length d mod 3 + (3 * (String.length d / 3) + String.length d mod 3))%nat
          with (0 + (String.length d / 3 + 1) * 3)%nat by lia.
        by rewrite Nat.Div0.mod_add. }
  intros Hn Hm E. destruct (Hspec n Hn) as (u & Hu & Hun). destruct (Hspec m Hm) as (u' & Hu' & Hum).
  rewrite E, Hu' in Hu. injection Hu as ->. lia.
Qed.

Lemma tile_number_injective_witness :
  tileNumber 1234067 = "x001/x234/067" /\ 1234067 = 1234000 + 67.
Proof.
  split; [reflexivity|]. apply (tile_number_injective 1234067 (1234000 + 67)); [lia|lia|reflexivity].
Defined.
