(* ===== verification/Tiles.v ===== *)
(** * Tiles: checkpoint consistency from hash tiles (hash_tiles.go)

    [verifyTileConsistency] downloads tiles of up to 256 node hashes from an
    untrusted server, recomputes the candidate root, authenticates every full
    tile through its ancestors and compares the prefix root with the trusted
    one. The state is the tile cache and the clock of [World]. *)

From Stdlib Require Import ZArith Lia Ascii String.
From S2P Require Import Prelude Codec Merkle Evidence.

Open Scope string_scope.
Open Scope list_scope.
Open Scope Z_scope.

(** [hashTileKey]: level and index. *)
Abbreviation hashTileKey := (nat * Z)%type.
Abbreviation tile_map := (gmap hashTileKey (list string)).

Record checkpointTiles := { tiles : tile_map; clock : nat }.

(** A step of the computation: it may fail, and it moves the clock. *)
Definition tiles_m (A : Type) : Type := checkpointTiles -> res A * checkpointTiles.
#[export] Instance tiles_ret : MRet tiles_m := fun A a s => (Ok a, s).
#[export] Instance tiles_bind : MBind tiles_m := fun A B f m s =>
  match m s with (Ok a, s') => f a s' | (Err e, s') => (Err e, s') end.
Definition tiles_err {A} (e : error) : tiles_m A := fun s => (Err e, s).
Definition tick (s : checkpointTiles) : checkpointTiles := {| tiles := tiles s; clock := S (clock s) |}.
Definition put_tile (key : hashTileKey) (hashes : list string) : tiles_m unit :=
  fun s => (Ok tt, {| tiles := <[key := hashes]> (tiles s); clock := clock s |}).
Definition get_tile (key : hashTileKey) : tiles_m (option (list string)) :=
  fun s => (Ok (tiles s !! key), s).

Definition invalidHashTile (message : string) : error :=
  VerificationError VerificationCodeInvalidEvidence false message.

(** [hashes[i] = data[i*32:(i+1)*32]] for [i < width]. *)
Fixpoint tile_hashes (width : nat) (data : string) : list string :=
  match width with
  | O => []
  | S width => str_take 32 data :: tile_hashes width (str_drop 32 data)
  end.

Section tiles.
Context {T : TLog} {W : World}.
(** The log prefix of the reference and the tree size of the candidate. *)
Variables (LogPrefix : string) (size : Z).

(** [if err := ctx.Err(); err != nil { return err }]. *)
Definition ctx_check : tiles_m unit := fun s =>
  match ctx_err (clock s) with Some e => (Err e, tick s) | None => (Ok tt, tick s) end.

Definition read_bounded (path : string) (maximum : Z) : tiles_m (res string) := fun s =>
  (Ok (fetchBounded (clock s) path maximum), tick s).

Definition fetchExact (path : string) (width : Z) : tiles_m string :=
  _ ← ctx_check;
  if (width =? 0) || (256 <? width) then tiles_err (invalidHashTile "hash tile width outside 1..256")
  else
    r ← read_bounded path (width * 32);
    match r with
    | Err e =>
        match errors_as as_fetch e with
        | Some (kind, _) =>
            if str_eqb kind ResourceFetchResponseLimit
            then tiles_err (WithCause (invalidHashTile "hash tile exceeds requested width") e)
            else tiles_err (logVerificationError e true)
        | None => tiles_err (logVerificationError e true)
        end
    | Ok data =>
        if Z.of_nat (String.length data) =? width * 32 then mret data
        else tiles_err (invalidHashTile "hash tile has incorrect length")
    end.

Definition is_not_found (e : error) : bool :=
  match errors_as as_fetch e with
  | Some (kind, status) => str_eqb kind ResourceFetchHTTPStatus && (status =? 404)
  | None => false
  end.

(** A failed partial tile with status 404 is read from the full tile. *)
Definition fetch_data (path : string) (width : Z) : tiles_m string := fun s =>
  if width <? 256 then
    match fetchExact (String.append path (String.append ".p/" (format_uint (Z.to_N width)))) width s with
    | (Err e, s') =>
        if is_not_found e
        then (data ← fetchExact path 256; mret (str_take (Z.to_nat (width * 32)) data)) s'
        else (Err e, s')
    | ok => ok
    end
  else fetchExact path width s.

Definition tile_width (key : hashTileKey) : Z :=
  Z.min 256 (u64 (Z.shiftr size (8 * Z.of_nat key.1) - u64 (key.2 * 256))).

Definition tile_path (key : hashTileKey) : string :=
  String.append LogPrefix (String.append "/tile/"
    (String.append (format_uint (N.of_nat key.1)) (String "/" (tileNumber key.2)))).

Definition fetch (key : hashTileKey) : tiles_m (list string) :=
  _ ← ctx_check;
  cached ← get_tile key;
  match cached with
  | Some hashes => mret hashes
  | None =>
      let width := tile_width key in
      data ← fetch_data (tile_path key) width;
      let hashes := tile_hashes (Z.to_nat width) data in
      _ ← put_tile key hashes;
      mret hashes
  end.

Definition opt_list (acc : option string) : list string :=
  match acc with Some h => [h] | None => [] end.

(** [hashes[:width]] panics beyond the length of the slice. *)
Definition slice_to (width : Z) (hashes : list string) : tiles_m (list string) :=
  if Z.of_nat (length hashes) <? width then tiles_err (PlainError "panic: slice bounds out of range")
  else mret (take (Z.to_nat width) hashes).

(** [for level := 0; size > 0; level++]: a uint64 has eight base-256 digits. *)
Fixpoint root_loop (fuel level : nat) (size : Z) (root : option string) : tiles_m (option string) :=
  match fuel with
  | O => mret root
  | S fuel =>
      if 0 <? size then
        let width := size mod 256 in
        root ← (if width =? 0 then mret root
                else hashes ← fetch (level, size / 256);
                     nodes ← slice_to width hashes;
                     mret (Some (hashTileRoot (nodes ++ opt_list root))));
        root_loop fuel (S level) (size / 256) root
      else mret root
  end.

Definition zero_hash : string := String.concat "" (repeat (String "000" "") 32).

(** The zero [tlog.Hash] when no level had a remainder, that is for size 0. *)
Definition root (sz : Z) : tiles_m string :=
  root ← root_loop 9 0 sz None;
  mret (default zero_hash root).

(** The recursion climbs one level, where [available] is 256 times smaller. *)
Fixpoint authenticate (fuel : nat) (key : hashTileKey) : tiles_m unit :=
  match fuel with
  | O => tiles_err (PlainError "out of fuel")
  | S fuel =>
      _ ← ctx_check;
      let available := Z.shiftr size (8 * Z.of_nat key.1) in
      if negb (available mod 256 =? 0) && (key.2 =? available / 256) then mret tt
      else
        hashes ← fetch key;
        let parentKey := (S key.1, key.2 / 256) in
        parent ← fetch parentKey;
        match parent !! Z.to_nat (key.2 mod 256) with
        | None => tiles_err (PlainError "panic: index out of range")
        | Some h =>
            if str_eqb (hashTileRoot hashes) h then authenticate fuel parentKey
            else tiles_err (invalidHashTile "hash tile fails candidate authentication")
        end
  end.

Fixpoint authenticate_all (keys : list hashTileKey) : tiles_m unit :=
  match keys with
  | [] => mret tt
  | key :: keys => _ ← authenticate 10 key; authenticate_all keys
  end.

End tiles.

(** [size] is the tree size of the candidate; [range_keys] is the order in
    which Go ranges over the tile map, which may also visit later entries. *)
Definition verifyTileConsistency {T : TLog} {W : World} (LogPrefix : string) (maxTreeSize : Z)
    (range_keys : tile_map -> list hashTileKey) (old next : TrustedC2spCheckpoint) : tiles_m unit :=
  if maxTreeSize <? TreeSize next
  then tiles_err (invalidHashTile "checkpoint exceeds configured tree-size maximum")
  else
    let size := TreeSize next in
    r ← root LogPrefix size (TreeSize next);
    if negb (str_eqb r (RootHash next))
    then tiles_err (invalidHashTile "hash tiles do not match candidate checkpoint root")
    else
      prefix ← root LogPrefix size (TreeSize old);
      s ← (fun s => (Ok s, s)) : tiles_m checkpointTiles;
      _ ← authenticate_all LogPrefix size (range_keys (tiles s));
      if negb (str_eqb prefix (RootHash old))
      then tiles_err (checkpointAdvanceError CheckpointAdvanceConsistencyFailed old next)
      else mret tt.

Definition empty_tiles : checkpointTiles := {| tiles := ∅; clock := 0 |}.

(** ** Levels of a list of node hashes *)
Section levels.
Context {T : TLog}.
Open Scope nat_scope.
Implicit Types (xs : list string).

Definition block xs (i : nat) : list string := take 256 (drop (256 * i) xs).
Definition blocks xs : list (list string) := block xs <$> seq 0 (length xs / 256).
Definition rest256 xs : list string := drop (256 * (length xs / 256)) xs.
(** The next tile level: the roots of the full blocks. *)
Definition up xs : list string := hashTileRoot <$> blocks xs.

Lemma concat_blocks xs n :
  256 * n <= length xs -> concat (block xs <$> seq 0 n) = take (256 * n) xs.
Proof.
  induction n as [|n IH]; intros Hn; [done|].
  rewrite seq_S, fmap_app, concat_app, IH by lia. cbn [concat fmap list_fmap]. rewrite app_nil_r.
  cbn [Nat.add]. unfold block. replace (256 * S n) with (256 * n + 256) by lia.
  by rewrite take_take_drop.
Qed.

Lemma blocks_rest xs : concat (blocks xs) ++ rest256 xs = xs.
Proof.
  unfold blocks, rest256. rewrite concat_blocks; [apply take_drop|].
  apply Nat.Div0.mul_div_le.
Qed.

Lemma length_up xs : length (up xs) = length xs / 256.
Proof. unfold up, blocks. by rewrite !length_fmap, length_seq. Qed.

Lemma length_block xs i : i < length xs / 256 -> length (block xs i) = 256.
Proof.
  intros Hi. unfold block. rewrite length_take, length_drop.
  pose proof (Nat.Div0.mul_div_le (length xs) 256). lia.
Qed.

Lemma length_rest256 xs : length (rest256 xs) = length xs mod 256.
Proof. unfold rest256. rewrite length_drop. rewrite (Nat.div_mod_eq (length xs) 256) at 1. lia. Qed.

Lemma lookup_up xs i : i < length xs / 256 -> up xs !! i = Some (hashTileRoot (block xs i)).
Proof.
  intros Hi. unfold up, blocks. rewrite <- list_fmap_compose, list_lookup_fmap.
  rewrite lookup_seq_lt by done. done.
Qed.

Lemma elem_of_blocks b xs : b ∈ blocks xs <-> exists i, i < length xs / 256 /\ b = block xs i.
Proof.
  unfold blocks. rewrite list_elem_of_fmap. setoid_rewrite elem_of_seq.
  split; intros (i & ? & ?); exists i; split; try done; lia.
Qed.

(** The blocks of [xs], the remainder and the root [acc] of what is right of
    [xs]: hashing them one level up gives the same root. *)
Definition up_acc xs (acc : option string) : option string :=
  if decide (rest256 xs = []) then acc else Some (hashTileRoot (rest256 xs ++ opt_list acc)).

Lemma up_step xs acc :
  xs ++ opt_list acc <> [] ->
  up xs ++ opt_list (up_acc xs acc) <> [] /\
  hashTileRoot (xs ++ opt_list acc) = hashTileRoot (up xs ++ opt_list (up_acc xs acc)) /\
  forall p, p ∈ node_pairs (xs ++ opt_list acc) <->
    p ∈ node_pairs (up xs ++ opt_list (up_acc xs acc)) \/
    (exists i, i < length xs / 256 /\ p ∈ node_pairs (block xs i)) \/
    p ∈ node_pairs (rest256 xs ++ opt_list acc).
Proof.
  intros Hne. set (tail := rest256 xs ++ opt_list acc).
  set (bs := blocks xs ++ (if decide (tail = []) then [] else [tail])).
  assert (Hcat : concat bs = xs ++ opt_list acc).
  { unfold bs. rewrite concat_app. transitivity (concat (blocks xs) ++ tail).
    - f_equal. destruct (decide (tail = [])) as [->|]; [done|]. cbn. apply app_nil_r.
    - unfold tail. by rewrite app_assoc, blocks_rest. }
  assert (Hlt : length tail <= 256).
  { unfold tail. rewrite length_app, length_rest256.
    pose proof (Nat.mod_upper_bound (length xs) 256). destruct acc; cbn; lia. }
  assert (Hblocks : forall b, b ∈ blocks xs -> length b = 256).
  { intros b (i & Hi & ->)%elem_of_blocks. by apply length_block. }
  assert (Hfull : full_blocks 8 bs).
  { intros bs1 b bs2 E. change (2 ^ 8) with 256.
    destruct (decide (bs2 = [])) as [->|Hbs2].
    - split; [|done]. assert (Hin : b ∈ bs) by (rewrite E; set_solver).
      unfold bs in Hin. apply elem_of_app in Hin as [Hin|Hin]; [by rewrite (Hblocks _ Hin)|].
      destruct (decide (tail = [])); [by apply elem_of_nil in Hin|].
      by apply list_elem_of_singleton in Hin as ->.
    - assert (Hin : b ∈ blocks xs).
      { unfold bs in E. destruct (decide (tail = [])).
        - rewrite app_nil_r in E. rewrite E. set_solver.
        - destruct (exists_last Hbs2) as (bs3 & c & ->).
          rewrite app_comm_cons, app_assoc in E. apply app_inj_tail in E as [-> _]. set_solver. }
      rewrite (Hblocks _ Hin). done. }
  assert (Hnil : Forall (fun b => b <> []) bs).
  { apply Forall_app. split.
    - apply Forall_forall. intros b Hb%Hblocks ->. done.
    - destruct (decide (tail = [])); by repeat constructor. }
  assert (Hbs : bs <> []) by (intros E; rewrite E in Hcat; by symmetry in Hcat).
  destruct (hashTileRoot_concat 8 bs Hfull Hbs Hnil) as [Hr Hp].
  assert (Hmap : hashTileRoot <$> bs = up xs ++ opt_list (up_acc xs acc)).
  { unfold bs, up. rewrite fmap_app. f_equal. unfold up_acc. fold tail.
    destruct (decide (tail = [])) as [E|E].
    - unfold tail in E. apply app_eq_nil in E as [E1 E2]. rewrite decide_True by done. by rewrite E2.
    - destruct (decide (rest256 xs = [])) as [E1|E1]; [|done].
      unfold tail in *. rewrite E1 in *. cbn [app] in *. by destruct acc. }
  rewrite Hcat, Hmap in *. split_and!; [|done|].
  - rewrite <- Hmap. by destruct bs.
  - intros p. rewrite Hp. unfold bs. split.
    + intros [?|(b & Hb & Hpb)]; [by left|]. right. apply elem_of_app in Hb as [Hb|Hb].
      * apply elem_of_blocks in Hb as (i & Hi & ->). left. eauto.
      * right. destruct (decide (tail = [])); [by apply elem_of_nil in Hb|].
        by apply list_elem_of_singleton in Hb as ->.
    + intros [?|[(i & Hi & Hpb)|Hpt]]; [by left| |]; right.
      * exists (block xs i). split; [|done]. apply elem_of_app. left. apply elem_of_blocks. eauto.
      * exists tail. split; [|done]. apply elem_of_app. right.
        destruct (decide (tail = [])) as [E|]; [|by left]. fold tail in Hpt. rewrite E in Hpt. by apply elem_of_nil in Hpt.
Qed.

(** A prefix of the leaves has a prefix of every level. *)
Lemma up_take m xs : m <= length xs -> up (take m xs) = take (m / 256) (up xs).
Proof.
  intros Hm. pose proof (Nat.Div0.div_le_mono m (length xs) 256 Hm).
  apply list_eq. intros i. destruct (decide (i < m / 256)) as [Hi|Hi].
  - assert (Hl : length (take m xs) = m) by (rewrite length_take; lia).
    rewrite lookup_take_lt by done. rewrite lookup_up by (by rewrite Hl). rewrite lookup_up by lia.
    do 2 f_equal. unfold block. rewrite List.skipn_firstn_comm, take_take. f_equal.
    pose proof (Nat.Div0.mul_div_le m 256). lia.
  - rewrite lookup_take_ge by lia. apply lookup_ge_None_2. rewrite length_up, length_take.
    replace (m `min` length xs) with m by lia. lia.
Qed.

(** [root] as a function of the tiles: [tl level index]. *)
Section fold.
Variable tl : nat -> nat -> list string.

Definition fold_step (level sz : nat) (acc : option string) : option string :=
  if decide (sz mod 256 = 0) then acc
  else Some (hashTileRoot (take (sz mod 256) (tl level (sz / 256)) ++ opt_list acc)).

Fixpoint fold_root (fuel level sz : nat) (acc : option string) : option string :=
  match fuel with
  | O => acc
  | S fuel =>
      if decide (sz = 0) then acc else fold_root fuel (S level) (sz / 256) (fold_step level sz acc)
  end.

(** The lists of nodes it hashes. *)
Fixpoint edge_nodes (fuel level sz : nat) (acc : option string) : list (list string) :=
  match fuel with
  | O => []
  | S fuel =>
      if decide (sz = 0) then []
      else (if decide (sz mod 256 = 0) then []
            else [take (sz mod 256) (tl level (sz / 256)) ++ opt_list acc])
           ++ edge_nodes fuel (S level) (sz / 256) (fold_step level sz acc)
  end.
End fold.

Lemma rest256_nil xs : rest256 xs = [] <-> length xs mod 256 = 0.
Proof. rewrite <- length_rest256. split; [by intros ->|by destruct (rest256 xs)]. Qed.

Lemma rest256_block xs : rest256 xs = take (length xs mod 256) (block xs (length xs / 256)).
Proof.
  unfold block. rewrite take_take. fold (rest256 xs).
  pose proof (Nat.mod_upper_bound (length xs) 256). rewrite take_ge; [done|]. rewrite length_rest256. lia.
Qed.

Definition level xs (j : nat) : list string := Nat.iter j up xs.

Lemma level_S xs j : level xs (S j) = level (up xs) j.
Proof. unfold level. by rewrite Nat.iter_succ_r. Qed.

Lemma fold_step_acc tl l xs acc :
  (length xs mod 256 <> 0 -> take (length xs mod 256) (tl l (length xs / 256)) = rest256 xs) ->
  fold_step tl l (length xs) acc = up_acc xs acc.
Proof.
  intros H. unfold fold_step, up_acc. pose proof (rest256_nil xs).
  destruct (decide (length xs mod 256 = 0)); destruct (decide (rest256 xs = [])); try tauto.
  by rewrite H.
Qed.

(** With the tiles of the levels of [xs] the fold is the root of [xs]. *)
Lemma fold_root_honest tl fuel l xs acc :
  length xs < 256 ^ fuel -> xs ++ opt_list acc <> [] ->
  (forall j, length (level xs j) mod 256 <> 0 ->
    take (length (level xs j) mod 256) (tl (l + j) (length (level xs j) / 256)) = rest256 (level xs j)) ->
  fold_root tl fuel l (length xs) acc = Some (hashTileRoot (xs ++ opt_list acc)).
Proof.
  revert l xs acc. induction fuel as [|fuel IH]; intros l xs acc Hlen Hne Htl.
  - destruct xs; [|cbn in Hlen; lia]. by destruct acc.
  - cbn [fold_root]. destruct (decide (length xs = 0)) as [E|_].
    { destruct xs; [|done]. by destruct acc. }
    destruct (up_step xs acc Hne) as (Hne' & Hr & _).
    rewrite (fold_step_acc tl l xs acc).
    2:{ pose proof (Htl 0) as H0. by rewrite Nat.add_0_r in H0. }
    rewrite Hr, <- length_up. apply IH; [|done|].
    + rewrite length_up. apply Nat.Div0.div_lt_upper_bound. exact Hlen.
    + intros j. rewrite <- level_S. replace (S l + j) with (l + S j) by lia. apply Htl.
Qed.

(** A fold over any tiles that yields the root of [xs] used the levels of
    [xs], or hashed a pair that collides with one of the tree of [xs]. *)
Lemma fold_root_binding tl fuel l xs acc acc' :
  length xs < 256 ^ fuel -> xs ++ opt_list acc <> [] -> (is_Some acc <-> is_Some acc') ->
  (forall j, length (level xs j) mod 256 <> 0 ->
    length (take (length (level xs j) mod 256) (tl (l + j) (length (level xs j) / 256))) =
      length (level xs j) mod 256) ->
  fold_root tl fuel l (length xs) acc' = Some (hashTileRoot (xs ++ opt_list acc)) ->
  (acc' = acc /\ forall j, length (level xs j) mod 256 <> 0 ->
    take (length (level xs j) mod 256) (tl (l + j) (length (level xs j) / 256)) = rest256 (level xs j)) \/
  pairs_collide (node_pairs (xs ++ opt_list acc))
    (concat (node_pairs <$> edge_nodes tl fuel l (length xs) acc')).
Proof.
  assert (Hempty : forall j, length (level [] j) mod 256 = 0).
  { assert (He : forall j, level [] j = []) by (intros j; induction j as [|j IH]; [done|by rewrite level_S]).
    intros j. by rewrite He. }
  revert l xs acc acc'. induction fuel as [|fuel IH]; intros l xs acc acc' Hlen Hne Hsome Htl Hfold.
  { destruct xs; [|cbn in Hlen; lia]. left. cbn in Hfold. split; [|intros j []; apply Hempty].
    destruct acc; [|done]. by rewrite Hfold. }
  cbn [fold_root edge_nodes] in *. destruct (decide (length xs = 0)) as [E|Hxs].
  { destruct xs; [|done]. left. split; [|intros j []; apply Hempty]. destruct acc; [|done]. by rewrite Hfold. }
  destruct (up_step xs acc Hne) as (Hne' & Hr & Hpairs). rewrite Hr, <- length_up in Hfold.
  assert (Htl0 := Htl 0). rewrite Nat.add_0_r in Htl0. change (level xs 0) with xs in Htl0.
  destruct (IH (S l) (up xs) (up_acc xs acc) (fold_step tl l (length xs) acc')) as [[Hacc Hall]|Hc].
  - rewrite length_up. apply Nat.Div0.div_lt_upper_bound. exact Hlen.
  - done.
  - unfold up_acc, fold_step. pose proof (rest256_nil xs).
    destruct (decide (length xs mod 256 = 0)); destruct (decide (rest256 xs = [])); try tauto.
    split; eauto.
  - intros j. rewrite <- level_S. replace (S l + j) with (l + S j) by lia. apply Htl.
  - exact Hfold.
  - unfold up_acc, fold_step in Hacc. pose proof (rest256_nil xs) as Hnil.
    destruct (decide (length xs mod 256 = 0)) as [E|E]; destruct (decide (rest256 xs = [])) as [E'|E']; try tauto.
    + left. split; [done|]. intros [|j]; [done|]. rewrite level_S.
      replace (l + S j) with (S l + j) by lia. apply Hall.
    + apply (inj Some) in Hacc.
      assert (Hlens : length (opt_list acc) = length (opt_list acc')).
      { destruct Hsome as [H1 H2]. destruct acc, acc'; try done;
          [by destruct H1 as [? ?]; eauto|by destruct H2 as [? ?]; eauto]. }
      symmetry in Hacc. apply hashTileRoot_binding in Hacc as [Hacc|Hc].
      * apply app_inj_1 in Hacc as [Hrest Hopt]; [|by rewrite length_rest256, Htl0].
        left. split; [by destruct acc, acc'; simplify_eq|].
        intros [|j]; [rewrite Nat.add_0_r; done|]. rewrite level_S.
        replace (l + S j) with (S l + j) by lia. apply Hall.
      * right. eapply pairs_collide_mono; [| |exact Hc].
        { intros p Hp. apply Hpairs. by right; right. }
        { intros p Hp. rewrite fmap_app, concat_app. apply elem_of_app. left.
          cbn. by rewrite app_nil_r. }
      * rewrite !length_app, length_rest256, Htl0 by done. by rewrite Hlens.
  - right. eapply pairs_collide_mono; [| |exact Hc].
    + intros p Hp. apply Hpairs. by left.
    + intros p Hp. rewrite length_up in Hp. rewrite fmap_app, concat_app. apply elem_of_app. by right.
Qed.
End levels.

Section level_facts.
Context {T : TLog}.
Open Scope nat_scope.
Implicit Types (xs : list string).

Definition size_at (n j : nat) : nat := Nat.iter j (fun n => n / 256) n.

Lemma size_at_S n j : size_at n (S j) = size_at (n / 256) j.
Proof. unfold size_at. by rewrite Nat.iter_succ_r. Qed.

Lemma length_level xs j : length (level xs j) = size_at (length xs) j.
Proof.
  revert xs. induction j as [|j IH]; intros xs; [done|].
  by rewrite level_S, size_at_S, IH, length_up.
Qed.

Lemma size_at_le n m j : n <= m -> size_at n j <= size_at m j.
Proof.
  revert n m. induction j as [|j IH]; intros n m H; [done|].
  rewrite !size_at_S. apply IH. by apply Nat.Div0.div_le_mono.
Qed.

Lemma level_take m xs j : m <= length xs -> level (take m xs) j = take (size_at m j) (level xs j).
Proof.
  revert m xs. induction j as [|j IH]; intros m xs H; [done|].
  rewrite !level_S, size_at_S, up_take by done. apply IH. rewrite length_up.
  by apply Nat.Div0.div_le_mono.
Qed.

Lemma rest256_take m xs :
  m <= length xs -> rest256 (take m xs) = take (m mod 256) (block xs (m / 256)).
Proof.
  intros H. assert (Hl : length (take m xs) = m) by (rewrite length_take; lia).
  rewrite rest256_block, Hl. unfold block.
  pose proof (Nat.Div0.mul_div_le m 256). pose proof (Nat.mod_upper_bound m 256).
  pose proof (Nat.div_mod_eq m 256).
  rewrite List.skipn_firstn_comm, !take_take. f_equal. lia.
Qed.

Lemma block_level_pairs xs acc j i p :
  xs ++ opt_list acc <> [] -> i < length (level xs j) / 256 ->
  p ∈ node_pairs (block (level xs j) i) -> p ∈ node_pairs (xs ++ opt_list acc).
Proof.
  revert xs acc. induction j as [|j IH]; intros xs acc Hne Hi Hp;
    destruct (up_step xs acc Hne) as (Hne' & _ & Hpairs); apply Hpairs.
  - right; left. eauto.
  - left. rewrite level_S in Hi, Hp. by apply (IH (up xs) (up_acc xs acc)).
Qed.

Lemma lookup_block xs i k :
  k < 256 -> block xs i !! k = xs !! (256 * i + k).
Proof. intros Hk. unfold block. by rewrite lookup_take_lt, lookup_drop. Qed.
End level_facts.

(** ** What a successful run of the verifier has read *)
Section runs.
Context {T : TLog} {W : World}.
Variables (LogPrefix : string) (size : Z).
Implicit Types (s : checkpointTiles) (m : tile_map).

Definition tiles_ok m : Prop :=
  forall key hs, m !! key = Some hs -> Z.of_nat (length hs) = Z.max 0 (tile_width size key).

Definition extends s s' : Prop := tiles s ⊆ tiles s' /\ (tiles_ok (tiles s) -> tiles_ok (tiles s')).

Lemma extends_refl s : extends s s. Proof. by split. Qed.
Lemma extends_trans s1 s2 s3 : extends s1 s2 -> extends s2 s3 -> extends s1 s3.
Proof. intros [] []. split; [by etrans|auto]. Qed.
Hint Resolve extends_refl extends_trans : core.

Lemma bind_ok {A B} (m : tiles_m A) (f : A -> tiles_m B) s b s' :
  (m ≫= f) s = (Ok b, s') <-> exists a s1, m s = (Ok a, s1) /\ f a s1 = (Ok b, s').
Proof.
  unfold mbind, tiles_bind. destruct (m s) as [[a|e] s1]; [naive_solver|].
  split; [done|]. by intros (? & ? & ? & _).
Qed.

Lemma ctx_check_ok s a s' : ctx_check s = (Ok a, s') -> tiles s' = tiles s.
Proof. unfold ctx_check. destruct (ctx_err _); intros [=]; by subst. Qed.

Lemma tile_hashes_length n data : length (tile_hashes n data) = n.
Proof. revert data. induction n; intros; cbn; auto. Qed.

Lemma fetchExact_tiles path width s a s' : fetchExact path width s = (a, s') -> tiles s' = tiles s.
Proof.
  unfold fetchExact, mbind, tiles_bind. destruct (ctx_check s) as [[[]|e] s1] eqn:E.
  - apply ctx_check_ok in E. rewrite <- E. clear E. destruct (_ || _); [by intros [= _ <-]|].
    unfold read_bounded. destruct (fetchBounded _ _ _) as [data|e].
    + destruct (_ =? _); by intros [= _ <-].
    + destruct (errors_as as_fetch e) as [[kind ?]|]; [destruct (str_eqb _ _)|]; by intros [= _ <-].
  - intros [= _ <-]. unfold ctx_check in E. destruct (ctx_err _); [by injection E as _ <-|done].
Qed.

Lemma fetch_data_tiles path width s a s' : fetch_data path width s = (a, s') -> tiles s' = tiles s.
Proof.
  unfold fetch_data. destruct (_ <? _); [|apply fetchExact_tiles].
  destruct (fetchExact _ width s) as [[d|e] s1] eqn:E; apply fetchExact_tiles in E.
  - intros [= _ <-]. done.
  - destruct (is_not_found e); [|by intros [= _ <-]].
    unfold mbind, tiles_bind. destruct (fetchExact path 256 s1) as [[d|e'] s2] eqn:E2;
      apply fetchExact_tiles in E2; intros [= _ <-]; by rewrite E2.
Qed.

Lemma fetch_ok key s hs s' :
  fetch LogPrefix size key s = (Ok hs, s') -> extends s s' /\ tiles s' !! key = Some hs.
Proof.
  unfold fetch. intros (u & s1 & H1 & H)%bind_ok. apply ctx_check_ok in H1.
  apply bind_ok in H as (cached & s2 & [= <- <-] & H).
  unfold extends. destruct (tiles s1 !! key) as [hs'|] eqn:E.
  - injection H as -> ->. rewrite H1 in *. auto.
  - apply bind_ok in H as (data & s3 & Hd & H). apply fetch_data_tiles in Hd.
    apply bind_ok in H as (u' & s4 & [= <- <-] & [= <- <-]). cbn. rewrite Hd, H1 in *. split_and!.
    + by apply insert_subseteq.
    + intros Hok k l. destruct (decide (k = key)) as [->|Hne].
      * rewrite lookup_insert_eq. intros [= <-]. rewrite tile_hashes_length. lia.
      * rewrite lookup_insert_ne by done. apply Hok.
    + apply lookup_insert_eq.
Qed.

Definition tl m (l i : nat) : list string := default [] (m !! (l, Z.of_nat i)).

Lemma root_loop_ok fuel l sz acc s r s' :
  root_loop LogPrefix size fuel l sz acc s = (Ok r, s') -> 0 <= sz < 256 ^ Z.of_nat fuel ->
  extends s s' /\ forall m, tiles s' ⊆ m ->
    r = fold_root (tl m) fuel l (Z.to_nat sz) acc /\
    forall j, (size_at (Z.to_nat sz) j mod 256 <> 0)%nat ->
      exists hs, m !! ((l + j)%nat, Z.of_nat (size_at (Z.to_nat sz) j / 256)) = Some hs /\
        (size_at (Z.to_nat sz) j mod 256 <= length hs)%nat.
Proof.
  assert (Hzero : forall j, size_at 0 j = 0%nat).
  { induction j as [|j IH]; [done|]. by rewrite size_at_S. }
  revert l sz acc s. induction fuel as [|fuel IH]; intros l sz acc s H Hsz.
  { injection H as <- <-. cbn in Hsz. assert (sz = 0) as -> by lia.
    split; [auto|]. intros m _. split; [done|]. intros j. by rewrite Hzero. }
  cbn [root_loop] in H. destruct (Z.ltb_spec 0 sz) as [Hpos|Hneg].
  2:{ injection H as <- <-. assert (sz = 0) as -> by lia.
      split; [auto|]. intros m _. split; [done|]. intros j. by rewrite Hzero. }
  apply bind_ok in H as (acc' & s1 & H1 & H).
  apply IH in H as [Hext Hrest].
  2:{ rewrite Nat2Z.inj_succ, Z.pow_succ_r in Hsz by lia.
      split; [apply Z.div_pos; lia|apply Z.div_lt_upper_bound; lia]. }
  assert (Hdiv : Z.to_nat (sz / 256) = (Z.to_nat sz / 256)%nat) by (by rewrite Z2Nat.inj_div by lia).
  assert (Hmod : Z.to_nat (sz mod 256) = (Z.to_nat sz mod 256)%nat) by (by rewrite Z2Nat.inj_mod by lia).
  assert (Hidx : Z.of_nat (Z.to_nat sz / 256) = sz / 256).
  { rewrite <- Hdiv, Z2Nat.id; [done|]. apply Z.div_pos; lia. }
  pose proof (Z.mod_pos_bound sz 256).
  assert (Hstep : extends s s1 /\ forall m, tiles s1 ⊆ m ->
    acc' = fold_step (tl m) l (Z.to_nat sz) acc /\
    ((Z.to_nat sz mod 256 <> 0)%nat -> exists hs, m !! (l, sz / 256) = Some hs /\
      (Z.to_nat sz mod 256 <= length hs)%nat)).
  { unfold fold_step. destruct (Z.eqb_spec (sz mod 256) 0) as [E|E].
    - injection H1 as <- <-. split; [auto|]. intros m _.
      rewrite decide_True by lia. split; [done|]. lia.
    - apply bind_ok in H1 as (hs & s2 & Hf & H1). apply fetch_ok in Hf as [He Hl].
      apply bind_ok in H1 as (nodes & s3 & Hs & [= <- <-]). unfold slice_to in Hs.
      destruct (Z.ltb_spec (Z.of_nat (length hs)) (sz mod 256)) as [|Hle]; [done|]. injection Hs as <- <-.
      split; [done|]. intros m Hm. pose proof (lookup_weaken _ _ _ _ Hl Hm) as Hlm.
      rewrite decide_False by lia. unfold tl. rewrite Hidx, Hlm, Hmod. split; [done|].
      intros _. exists hs. split; [done|lia]. }
  destruct Hstep as [Hext1 Hstep]. split; [eauto|]. intros m Hm.
  destruct (Hrest m Hm) as [-> Hkeys].
  destruct (Hstep m) as [-> Hkey]; [by etrans; [apply Hext|]|].
  split.
  - cbn [fold_root]. rewrite decide_False by lia. by rewrite Hdiv.
  - intros [|j].
    + change (size_at (Z.to_nat sz) 0) with (Z.to_nat sz). rewrite Nat.add_0_r, Hidx. exact Hkey.
    + rewrite size_at_S, <- Hdiv. replace (l + S j)%nat with (S l + j)%nat by lia. apply Hkeys.
Qed.

(** A tile is authenticated in [m]: it is on the candidate's right edge, or
    its root is in its parent, which is authenticated. *)
Inductive authenticated m : hashTileKey -> Prop :=
| auth_edge key :
    Z.shiftr size (8 * Z.of_nat key.1) mod 256 <> 0 ->
    key.2 = Z.shiftr size (8 * Z.of_nat key.1) / 256 -> authenticated m key
| auth_parent key hs parent :
    (Z.shiftr size (8 * Z.of_nat key.1) mod 256 = 0 \/
     key.2 <> Z.shiftr size (8 * Z.of_nat key.1) / 256) ->
    m !! key = Some hs -> m !! (S key.1, key.2 / 256) = Some parent ->
    parent !! Z.to_nat (key.2 mod 256) = Some (hashTileRoot hs) ->
    authenticated m (S key.1, key.2 / 256) -> authenticated m key.

Lemma authenticate_ok fuel key s s' :
  authenticate LogPrefix size fuel key s = (Ok tt, s') ->
  extends s s' /\ forall m, tiles s' ⊆ m -> authenticated m key.
Proof.
  revert key s. induction fuel as [|fuel IH]; intros key s H; [done|].
  cbn [authenticate] in H. apply bind_ok in H as (u & s1 & H1 & H).
  apply ctx_check_ok in H1. assert (extends s s1) as Hext by (unfold extends; by rewrite H1).
  destruct (negb _ && _) eqn:Eedge.
  - injection H as <-. go_bool. split; [done|]. intros m _. by apply auth_edge.
  - apply bind_ok in H as (hs & s2 & Hf & H). apply fetch_ok in Hf as [He2 Hl2].
    apply bind_ok in H as (parent & s3 & Hp & H). apply fetch_ok in Hp as [He3 Hl3].
    destruct (parent !! _) as [h|] eqn:Eh; [|done].
    destruct (str_eqb _ _) eqn:Er; [|done]. apply str_eqb_eq in Er as <-.
    apply IH in H as [He4 Hauth]. split; [by eauto 10|]. intros m Hm.
    apply (auth_parent m key hs parent); auto; try (eapply lookup_weaken; [eassumption|]).
    + apply andb_false_iff in Eedge as [E|E]; go_bool; auto.
    + etrans; [apply He3|]. etrans; [apply He4|done].
    + etrans; [apply He4|done].
Qed.

Lemma authenticate_all_ok keys s s' :
  authenticate_all LogPrefix size keys s = (Ok tt, s') ->
  extends s s' /\ forall m, tiles s' ⊆ m -> Forall (authenticated m) keys.
Proof.
  revert s. induction keys as [|key keys IH]; intros s H; cbn [authenticate_all] in H.
  - injection H as <-. auto.
  - apply bind_ok in H as ([] & s1 & H1 & H). apply authenticate_ok in H1 as [He1 H1].
    apply IH in H as [He2 H2]. split; [eauto|]. intros m Hm. constructor; [|auto].
    apply H1. etrans; [apply He2|done].
Qed.

(** The pairs of hashes the verifier hashed in a run that ends with cache [m]. *)
Definition verifier_pairs m : list (string * string) :=
  concat (node_pairs <$> (map_to_list m).*2 ++ edge_nodes (tl m) 9 0 (Z.to_nat size) None).

Lemma shiftr_size_at j : 0 <= size -> Z.shiftr size (8 * Z.of_nat j) = Z.of_nat (size_at (Z.to_nat size) j).
Proof.
  intros Hs. rewrite Z.shiftr_div_pow2 by lia. unfold size_at.
  induction j as [|j IH]; [cbn; rewrite Z.div_1_r; lia|].
  cbn [Nat.iter nat_rect]. change (nat_rect _ _ _ j) with (Nat.iter j (fun n => n / 256)%nat (Z.to_nat size)).
  rewrite Nat2Z.inj_div, <- IH. change (Z.of_nat 256) with (2 ^ 8).
  rewrite Z.div_div by lia. rewrite <- Z.pow_add_r by lia. do 2 f_equal. lia.
Qed.

Lemma size_at_bound n j : (size_at n j <= n)%nat.
Proof.
  revert n. induction j as [|j IH]; intros n; [done|]. rewrite size_at_S.
  etrans; [apply IH|]. apply Nat.Div0.div_le_upper_bound. lia.
Qed.

Lemma size_at_0 j : size_at 0 j = 0%nat.
Proof. pose proof (size_at_bound 0 j). lia. Qed.

Lemma size_at_succ n j : size_at n (S j) = (size_at n j / 256)%nat.
Proof. done. Qed.

Lemma tile_length m l i hs :
  0 <= size < 2 ^ 64 -> tiles_ok m -> m !! (l, Z.of_nat i) = Some hs ->
  (256 * i < size_at (Z.to_nat size) l)%nat ->
  length hs = Nat.min 256 (size_at (Z.to_nat size) l - 256 * i).
Proof.
  intros Hs Hok Hm Hv. apply Hok in Hm. unfold tile_width in Hm. cbn [fst snd] in Hm.
  rewrite shiftr_size_at in Hm by lia. pose proof (size_at_bound (Z.to_nat size) l).
  unfold u64 in Hm. rewrite (Z.mod_small (Z.of_nat i * 256)) in Hm by lia.
  rewrite Z.mod_small in Hm by lia. lia.
Qed.

Lemma of_nat_mod256 n : Z.of_nat n mod 256 = Z.of_nat (n mod 256).
Proof. by rewrite Nat2Z.inj_mod. Qed.
Lemma of_nat_div256 n : Z.of_nat n / 256 = Z.of_nat (n / 256).
Proof. by rewrite Nat2Z.inj_div. Qed.

Lemma authenticated_honest m (leaves : list string) l i hs :
  0 <= size < 2 ^ 64 -> length leaves = Z.to_nat size -> tiles_ok m ->
  (forall j, (size_at (Z.to_nat size) j mod 256 <> 0)%nat ->
    take (size_at (Z.to_nat size) j mod 256) (tl m j (size_at (Z.to_nat size) j / 256)) =
      rest256 (level leaves j)) ->
  authenticated m (l, Z.of_nat i) -> (256 * i < size_at (Z.to_nat size) l)%nat ->
  m !! (l, Z.of_nat i) = Some hs ->
  hs = block (level leaves l) i \/ pairs_collide (node_pairs leaves) (verifier_pairs m).
Proof.
  intros Hs Hlen Hok Hedge Hauth. remember (l, Z.of_nat i) as key eqn:Ekey.
  revert l i hs Ekey. induction Hauth as [key Hmod Hidx|key hs' parent Hnedge Hk Hp Hroot Hauth IH];
    intros l i hs -> Hv Hm; cbn [fst snd] in *.
  - rewrite shiftr_size_at in * by lia. set (n := size_at (Z.to_nat size) l) in *.
    assert (i = n / 256)%nat as -> by (rewrite of_nat_div256 in Hidx; lia).
    assert (Hne : (n mod 256 <> 0)%nat) by (rewrite of_nat_mod256 in Hmod; lia).
    pose proof (tile_length m l (n / 256) hs Hs Hok Hm Hv) as Hl. fold n in Hl.
    pose proof (Nat.div_mod_eq n 256). pose proof (Nat.mod_upper_bound n 256).
    assert (Hhs : take (n mod 256) hs = hs) by (apply take_ge; lia).
    left. specialize (Hedge l Hne). fold n in Hedge. unfold tl in Hedge. rewrite Hm in Hedge.
    cbn [default from_option] in Hedge. unfold id in Hedge. rewrite Hhs in Hedge. rewrite Hedge.
    rewrite rest256_block, length_level, Hlen. fold n. apply take_ge.
    unfold block. rewrite length_take, length_drop, length_level, Hlen. fold n. lia.
  - rewrite Hm in Hk. injection Hk as <-.
    rewrite of_nat_div256, of_nat_mod256, Nat2Z.id in *.
    pose proof (Nat.div_mod_eq i 256). pose proof (Nat.mod_upper_bound i 256).
    set (n := size_at (Z.to_nat size) l) in *.
    assert (Hn1 : size_at (Z.to_nat size) (S l) = (n / 256)%nat) by done.
    destruct (decide (i < n / 256)%nat) as [Hi|Hi].
    + assert (Hlvl : length (level leaves l) = n) by (by rewrite length_level, Hlen).
      destruct (IH (S l) (i / 256)%nat parent) as [->|Hc]; [done|lia|done| |by right].
      rewrite lookup_block in Hroot by lia. change (level leaves (S l)) with (up (level leaves l)) in Hroot.
      replace (256 * (i / 256) + i mod 256)%nat with i in Hroot by lia.
      rewrite lookup_up in Hroot by (by rewrite Hlvl). injection Hroot as Hroot.
      apply hashTileRoot_binding in Hroot as [->|Hc]; [by left| |].
      * right. eapply pairs_collide_mono; [| |exact Hc].
        -- intros p Hpp. rewrite <- (app_nil_r leaves). apply (block_level_pairs leaves None l i).
           ++ cbn. rewrite app_nil_r. intros ->. cbn in Hlen. unfold n in Hv. rewrite <- Hlen, size_at_0 in Hv. lia.
           ++ by rewrite Hlvl.
           ++ done.
        -- intros p Hpp. apply elem_of_concat. exists (node_pairs hs). split; [|done].
           apply list_elem_of_fmap. exists hs. split; [done|]. apply elem_of_app. left.
           apply list_elem_of_fmap. exists (l, Z.of_nat i, hs). split; [done|]. by apply elem_of_map_to_list.
      * rewrite length_block by (by rewrite Hlvl).
        rewrite (tile_length m l i hs) by done. fold n. pose proof (Nat.Div0.mul_div_le n 256). lia.
    + exfalso. pose proof (Nat.div_mod_eq n 256). pose proof (Nat.mod_upper_bound n 256).
      rewrite shiftr_size_at in Hnedge by lia. fold n in Hnedge.
      rewrite of_nat_div256, of_nat_mod256 in Hnedge. lia.
Qed.
End runs.

Lemma root_ok {T : TLog} {W : World} LogPrefix size sz s r s' :
  root LogPrefix size sz s = (Ok r, s') -> 0 <= sz < 2 ^ 64 ->
  extends size s s' /\ forall m, tiles s' ⊆ m ->
    r = default zero_hash (fold_root (tl m) 9 0 (Z.to_nat sz) None) /\
    forall j, (size_at (Z.to_nat sz) j mod 256 <> 0)%nat ->
      exists hs, m !! (j, Z.of_nat (size_at (Z.to_nat sz) j / 256)) = Some hs /\
        (size_at (Z.to_nat sz) j mod 256 <= length hs)%nat.
Proof.
  intros H Hsz. unfold root in H. apply bind_ok in H as (o & s1 & H & [= <- <-]).
  apply root_loop_ok in H as [He H]; [|assert (2 ^ 64 < 256 ^ Z.of_nat 9) by reflexivity; lia].
  split; [done|]. intros m Hm. destruct (H m Hm) as [-> Hk]. split; [done|].
  intros j Hj. by destruct (Hk j Hj) as (hs & ? & ?); exists hs.
Qed.

Lemma fold_root_some {T : TLog} t fuel l sz acc :
  (sz < 256 ^ fuel)%nat -> sz <> 0%nat \/ is_Some acc -> is_Some (fold_root t fuel l sz acc).
Proof.
  revert l sz acc. induction fuel as [|fuel IH]; intros l sz acc Hsz H.
  - cbn in Hsz |- *. destruct H; [lia|done].
  - cbn [fold_root]. destruct (decide (sz = 0%nat)) as [->|Hn]; [by destruct H|].
    apply IH; [apply Nat.Div0.div_lt_upper_bound; exact Hsz|].
    unfold fold_step. destruct (decide (sz mod 256 = 0)%nat) as [E|E]; [|right; eauto].
    left. pose proof (Nat.div_mod_eq sz 256). lia.
Qed.

Lemma pow_256_9 n : Z.of_nat n < 2 ^ 64 -> (n < 256 ^ 9)%nat.
Proof.
  intros H. apply Nat2Z.inj_lt. rewrite Nat2Z.inj_pow.
  assert (2 ^ 64 < Z.of_nat 256 ^ Z.of_nat 9) by reflexivity. lia.
Qed.

(** The tiles on the edge of a tree of [n] leaves are there, with the hashes
    that the edge needs. *)
Definition edges_held (m : tile_map) (n : nat) : Prop :=
  forall j, (size_at n j mod 256 <> 0)%nat ->
    exists hs, m !! (j, Z.of_nat (size_at n j / 256)) = Some hs /\ (size_at n j mod 256 <= length hs)%nat.

Lemma root_edges {T : TLog} m (leaves : list string) :
  Z.of_nat (length leaves) < 2 ^ 64 -> leaves <> [] -> edges_held m (length leaves) ->
  hashTileRoot leaves = default zero_hash (fold_root (tl m) 9 0 (length leaves) None) ->
  (forall j, (size_at (length leaves) j mod 256 <> 0)%nat ->
    take (size_at (length leaves) j mod 256) (tl m j (size_at (length leaves) j / 256)) = rest256 (level leaves j)) \/
  pairs_collide (node_pairs leaves) (verifier_pairs (Z.of_nat (length leaves)) m).
Proof.
  intros Hlen Hne Hk Hr. apply pow_256_9 in Hlen.
  destruct (fold_root_binding (tl m) 9 0 leaves None None) as [[_ Hedge]|Hc]; try done.
  - by rewrite app_nil_r.
  - intros j. rewrite length_level. intros Hj. destruct (Hk j Hj) as (hs & Hm & Hl).
    unfold tl. cbn [Nat.add]. rewrite Hm. cbn [default from_option]. unfold id. rewrite length_take. lia.
  - cbn [opt_list]. rewrite app_nil_r, Hr. destruct (fold_root_some (tl m) 9 0 (length leaves) None) as [h ->]; [done| |done].
    left. by destruct leaves.
  - left. intros j. rewrite <- length_level. apply Hedge.
  - right. cbn [opt_list] in Hc. rewrite app_nil_r in Hc. eapply pairs_collide_mono; [done| |exact Hc]. intros p Hp.
    unfold verifier_pairs. rewrite Nat2Z.id, fmap_app, concat_app. apply elem_of_app. by right.
Qed.

(** Tiles that are as in the tree of [leaves] give the root of each prefix. *)
Lemma prefix_root {T : TLog} m (leaves : list string) o :
  Z.of_nat o < 2 ^ 64 -> (0 < o <= length leaves)%nat ->
  (forall j, (size_at o j mod 256 <> 0)%nat ->
    take (size_at o j mod 256) (tl m j (size_at o j / 256)) = take (size_at o j mod 256) (block (level leaves j) (size_at o j / 256))) ->
  default zero_hash (fold_root (tl m) 9 0 o None) = hashTileRoot (take o leaves).
Proof.
  intros Hlt%pow_256_9 Ho Hall. assert (Hl : length (take o leaves) = o) by (rewrite length_take; lia).
  rewrite <- Hl at 1. rewrite fold_root_honest; [by rewrite app_nil_r| | |].
  - by rewrite Hl.
  - rewrite app_nil_r. intros E. rewrite E in Hl. cbn in Hl. lia.
  - intros j. rewrite length_level, Hl. intros Hj. rewrite level_take by lia.
    rewrite rest256_take; [by apply Hall|]. rewrite length_level. apply size_at_le. lia.
Qed.

(** A successful run: both roots, the tiles they were read from and the chain
    of parents of every tile of the prefix. *)
Lemma verified_tiles {T : TLog} {W : World} LogPrefix maxTreeSize range_keys (old next : TrustedC2spCheckpoint) (c : nat) s' :
  (forall m key, is_Some (m !! key) -> key ∈ range_keys m) -> 0 <= TreeSize old < 2 ^ 64 -> 0 <= TreeSize next < 2 ^ 64 ->
  verifyTileConsistency LogPrefix maxTreeSize range_keys old next {| tiles := ∅; clock := c |} = (Ok tt, s') ->
  let m := tiles s' in
  tiles_ok (TreeSize next) m /\
  RootHash next = default zero_hash (fold_root (tl m) 9 0 (Z.to_nat (TreeSize next)) None) /\ edges_held m (Z.to_nat (TreeSize next)) /\
  RootHash old = default zero_hash (fold_root (tl m) 9 0 (Z.to_nat (TreeSize old)) None) /\ edges_held m (Z.to_nat (TreeSize old)) /\
  forall j, (size_at (Z.to_nat (TreeSize old)) j mod 256 <> 0)%nat ->
    authenticated (TreeSize next) m (j, Z.of_nat (size_at (Z.to_nat (TreeSize old)) j / 256)).
Proof.
  intros Hrange Hold Hnext H. unfold verifyTileConsistency in H.
  destruct (maxTreeSize <? TreeSize next); [done|].
  apply bind_ok in H as (r & s1 & H1 & H).
  destruct (negb (str_eqb r _)) eqn:Er; [done|]. apply negb_false_iff, str_eqb_eq in Er as ->.
  apply bind_ok in H as (prefix & s2 & H2 & H).
  apply bind_ok in H as (s2' & s2'' & [= <- <-] & H).
  apply bind_ok in H as ([] & s3 & H3 & H).
  destruct (negb (str_eqb prefix _)) eqn:Ep; [done|]. apply negb_false_iff, str_eqb_eq in Ep as ->.
  injection H as <-.
  apply root_ok in H1 as [He1 H1]; [|done]. apply root_ok in H2 as [He2 H2]; [|done].
  apply authenticate_all_ok in H3 as [He3 H3]. set (m := tiles s3) in *.
  destruct (H1 m) as [Hr1 Hk1]; [etrans; [apply He2|apply He3]|].
  destruct (H2 m) as [Hr2 Hk2]; [apply He3|]. destruct (H2 (tiles s2)) as [_ Hk2']; [done|].
  split_and!; try done.
  - apply He3, He2, He1. intros key hs. cbn. by rewrite lookup_empty.
  - intros j Hj. destruct (Hk2' j Hj) as (hs & Hhs & _). specialize (H3 m ltac:(done)). rewrite Forall_forall in H3.
    apply H3, Hrange. by exists hs.
Qed.

(** C33: a server cannot make the tile verifier accept a candidate checkpoint
    that rewrites history: when the candidate root is the tree hash of
    [leaves], success means that the trusted root is the tree hash of the
    first [TreeSize old] of these leaves, or that the verifier hashed a pair
    that collides with a pair of that tree. The answers of the server may
    change from request to request, and Go's iteration order is arbitrary. *)
Theorem tile_consistency_sound {T : TLog} {W : World} LogPrefix maxTreeSize range_keys
    (old next : TrustedC2spCheckpoint) (leaves : list string) (c : nat) s' :
  (forall m key, is_Some (m !! key) -> key ∈ range_keys m) ->
  0 < TreeSize old <= TreeSize next -> TreeSize next < 2 ^ 64 ->
  Z.of_nat (length leaves) = TreeSize next -> RootHash next = hashTileRoot leaves ->
  verifyTileConsistency LogPrefix maxTreeSize range_keys old next {| tiles := ∅; clock := c |}
    = (Ok tt, s') ->
  RootHash old = hashTileRoot (take (Z.to_nat (TreeSize old)) leaves) \/
  pairs_collide (node_pairs leaves) (verifier_pairs (TreeSize next) (tiles s')).
Proof.
  intros Hrange Hold Hnext Hlen Hroot H.
  apply verified_tiles in H as (Hok & Hr1 & Hk1 & Hr2 & Hk2 & Hauth); [|done|lia|lia].
  set (m := tiles s') in *. rewrite <- Hlen in *. rewrite Nat2Z.id in *. set (o := Z.to_nat (TreeSize old)) in *.
  destruct (pairs_collide_dec (node_pairs leaves) (verifier_pairs (Z.of_nat (length leaves)) m)) as [Hc|Hnc]; [by right|left].
  destruct (root_edges m leaves) as [Hedge|Hc]; try done; [by intros ->; cbn in *; lia|congruence|].
  rewrite Hr2. apply prefix_root; [lia|lia|]. intros j Hj. destruct (Hk2 j Hj) as (hs & Hm & Hl).
  assert (hs = block (level leaves j) (size_at o j / 256)) as <-; [|unfold tl; by rewrite Hm].
  assert (size_at o j <= size_at (length leaves) j)%nat by (apply size_at_le; lia). pose proof (Nat.div_mod_eq (size_at o j) 256).
  destruct (authenticated_honest (Z.of_nat (length leaves)) m leaves j (size_at o j / 256) hs); try done; rewrite ?Nat2Z.id; try done; try lia.
  by apply Hauth.
Qed.

(** A server with the one tile of a log of three leaves, read by a verifier
    that trusts its first two. *)
Definition demo_leaves : list string := [sha256 "a"; sha256 "b"; sha256 "c"].
Definition demo_world : World :=
  {| ctx_err _ := None;
     FetchBounded _ path _ :=
       if str_eqb path "log/tile/0/000.p/3" then Ok (String.concat "" demo_leaves)
       else Err (ResourceFetchError ResourceFetchHTTPStatus 404 false) |}.
Definition demo_old : TrustedC2spCheckpoint :=
  {| Origin := "o"; TreeSize := 2; WitnessTime := unix_time 0;
     RootHash := @hashTileRoot rfc6962_tlog (take 2 demo_leaves) |}.
Definition demo_next : TrustedC2spCheckpoint :=
  {| Origin := "o"; TreeSize := 3; WitnessTime := unix_time 1;
     RootHash := @hashTileRoot rfc6962_tlog demo_leaves |}.
Definition demo_range (m : tile_map) : list hashTileKey := (map_to_list m).*1.

Lemma demo_range_all m key : is_Some (m !! key) -> key ∈ demo_range m.
Proof.
  intros [hs Hm]. apply list_elem_of_fmap. exists (key, hs). split; [done|].
  by apply elem_of_map_to_list.
Qed.

Definition demo_run : res unit * checkpointTiles :=
  @verifyTileConsistency rfc6962_tlog demo_world "log" 100 demo_range demo_old demo_next
    {| tiles := ∅; clock := 0 |}.

Lemma demo_run_ok : demo_run = (Ok tt, demo_run.2).
Proof. vm_compute. reflexivity. Qed.

Lemma tile_consistency_sound_witness :
  RootHash demo_old = @hashTileRoot rfc6962_tlog (take (Z.to_nat (TreeSize demo_old)) demo_leaves) \/
  @pairs_collide rfc6962_tlog (@node_pairs rfc6962_tlog demo_leaves)
    (@verifier_pairs rfc6962_tlog (TreeSize demo_next) (tiles demo_run.2)).
Proof.
  apply (@tile_consistency_sound rfc6962_tlog demo_world "log" 100 demo_range demo_old demo_next
    demo_leaves 0%nat demo_run.2).
  - exact demo_range_all.
  - split; [reflexivity|discriminate].
  - reflexivity.
  - reflexivity.
  - reflexivity.
  - exact demo_run_ok.
Defined.
