(* ===== verification/Reference.v ===== *)
(** * Reference: log references (log/c2sptlog/reference.go)

    The [lr] value [c2sp-tlog:<scope>:<log-prefix>#<stream-id>], its
    validation and the checkpoint origin. The parser of net/url is the
    operation of class [NetURL]: its grammar of hosts depends on the release
    of Go; the accessors of the parsed URL that the code uses are modelled. *)

From Stdlib Require Import ZArith Lia Ascii String.
From S2P Require Import Prelude Codec Lifecycle Evidence.

Open Scope string_scope.
Open Scope list_scope.

(** ** The parsed URL *)
Record URL := {
  Scheme : string;
  User : bool;             (* [u.User != nil] *)
  Host : string;
  EscapedPath : string;
  Fragment : string;
  RawFragment : string
}.
Class NetURL := { url_Parse : string -> option URL }.

(** [splitHostPort] of net/url: the host without brackets, and the port. *)
Definition strip_brackets (host : string) : string :=
  match host with
  | String "[" rest =>
      match cut_last "]" rest with
      | Some (inner, "") => inner
      | _ => host
      end
  | _ => host
  end.
Definition split_host_port (hostport : string) : string * string :=
  match cut_last ":" hostport with
  | Some (host, port) =>
      if forall_byte is_digit port then (strip_brackets host, port) else (strip_brackets hostport, "")
  | None => (strip_brackets hostport, "")
  end.
Definition Hostname (u : URL) : string := (split_host_port (Host u)).1.
Definition Port (u : URL) : string := (split_host_port (Host u)).2.
Definition IsAbs (u : URL) : bool := negb (is_empty (Scheme u)).

(** [net.JoinHostPort]. *)
Definition join_host_port (host port : string) : string :=
  if has_byte ":" host then String.append "[" (String.append host (String.append "]:" port))
  else String.append host (String ":" port).

(** ** References *)
Definition Method : string := "c2sp-tlog".
Definition Kind : string := "dnsid.lifecycle".
Definition maxEntrySize : Z := 65535%Z.

Record Reference := {
  Scope : string;
  LogPrefix : string;
  StreamID : string
}.

Definition ref_String (r : Reference) : string :=
  String.append Method (String ":" (String.append (Scope r) (String ":"
    (String.append (LogPrefix r) (String "#" (StreamID r)))))).

Definition is_alnum (c : ascii) : bool :=
  let n := byte_val c in
  (((65 <=? n) && (n <=? 90)) || ((97 <=? n) && (n <=? 122)) || ((48 <=? n) && (n <=? 57)))%Z.

Definition validPrivateScope (scope : string) : bool :=
  match strip_prefix "private-" scope with
  | Some rest => negb (is_empty rest) && forall_byte (fun c => is_alnum c || Ascii.eqb c "-") rest
  | None => false
  end.

Definition isUpperHex (b : ascii) : bool :=
  let n := byte_val b in (((48 <=? n) && (n <=? 57)) || ((65 <=? n) && (n <=? 70)))%Z.
Definition isHex (b : ascii) : bool :=
  let n := byte_val b in isUpperHex b || ((97 <=? n) && (n <=? 102))%Z.
Definition fromHex (b : ascii) : Z :=
  let n := byte_val b in if (n <=? 57)%Z then (n - 48)%Z else (n - 65 + 10)%Z.
Definition isUnreserved (b : ascii) : bool :=
  is_alnum b || Ascii.eqb b "-" || Ascii.eqb b "." || Ascii.eqb b "_" || Ascii.eqb b "~".

Definition ref_error (msg : string) : error := ValidationError msg.

Fixpoint validateCanonicalEscapes (path : string) : res unit :=
  match path with
  | EmptyString => Ok tt
  | String "%" rest =>
      match rest with
      | String h (String l rest) =>
          fail_if negb (isUpperHex h) || negb (isUpperHex l)
            with PlainError "dnsid: c2sp-tlog log prefix percent-encodings must use uppercase hex" ;;
          let b := byte_of (Z.lor (Z.shiftl (fromHex h) 4) (fromHex l)) in
          fail_if Ascii.eqb b "/" || Ascii.eqb b "\"
            with PlainError "dnsid: c2sp-tlog log prefix must not percent-encode slash or backslash" ;;
          fail_if isUnreserved b
            with PlainError "dnsid: c2sp-tlog log prefix must decode unreserved percent-encodings" ;;
          validateCanonicalEscapes rest
      | _ => Err (PlainError "dnsid: c2sp-tlog log prefix percent-encodings must use uppercase hex")
      end
  | String _ rest => validateCanonicalEscapes rest
  end.

(** The loop of [Validate] over the stream identifier. *)
Fixpoint valid_stream_id (s : string) : bool :=
  match s with
  | EmptyString => true
  | String c rest =>
      if isUnreserved c then valid_stream_id rest
      else match rest with
           | String h (String l rest) => Ascii.eqb c "%" && isHex h && isHex l && valid_stream_id rest
           | _ => false
           end
  end.

Definition tag_value_byte (c : ascii) : bool :=
  let n := byte_val c in ((33 <=? n) && (n <=? 126))%Z && negb (Ascii.eqb c ";").

(** [strings.HasPrefix(r.LogPrefix, u.Scheme+"://")]. *)
Definition scheme_prefixed (u : URL) (prefix : string) : bool :=
  has_prefix (String.append (Scheme u) "://") prefix.

Definition has_dot_segment (path : string) : bool :=
  contains "/./" path || contains "/../" path || has_suffix "/." path || has_suffix "/.." path.

Section reference.
Context {U : NetURL}.

Definition ref_Origin (r : Reference) : res string :=
  match url_Parse (LogPrefix r) with
  | None => Err (ref_error "dnsid: invalid c2sp-tlog log prefix")
  | Some u =>
      fail_if is_empty (Host u) with ref_error "dnsid: invalid c2sp-tlog log prefix" ;;
      let path := if str_eqb (EscapedPath u) "/" then "" else EscapedPath u in
      let host := if has_byte ":" (Host u) && negb (is_empty (Port u))
                  then join_host_port (Hostname u) (Port u) else Host u in
      let origin := String.append host path in
      fail_if has_byte "+" origin || has_space origin
        with ref_error "dnsid: c2sp-tlog origin is not a valid signed-note key name" ;;
      Ok origin
  end.

Definition ref_Validate (r : Reference) : res unit :=
  let lr := ref_String r in
  fail_if (1024 <? Z.of_nat (String.length lr))%Z
    with ref_error "dnsid: c2sp-tlog reference exceeds 1024 bytes" ;;
  fail_if negb (forall_byte tag_value_byte lr)
    with ref_error "dnsid: c2sp-tlog reference must be a printable ASCII TXT tag value without spaces or semicolons" ;;
  fail_if negb (str_eqb (Scope r) "public" || str_eqb (Scope r) "testnet" || validPrivateScope (Scope r))
    with ref_error "dnsid: invalid c2sp-tlog scope" ;;
  match url_Parse (LogPrefix r) with
  | None => Err (ref_error "dnsid: invalid c2sp-tlog log prefix")
  | Some u =>
      fail_if negb (IsAbs u) || is_empty (Host u) with ref_error "dnsid: invalid c2sp-tlog log prefix" ;;
      fail_if User u with ref_error "dnsid: c2sp-tlog log prefix must not contain userinfo" ;;
      fail_if has_byte "?" (LogPrefix r) || has_byte "#" (LogPrefix r)
        with ref_error "dnsid: c2sp-tlog log prefix must not contain query or fragment" ;;
      fail_if negb (scheme_prefixed u (LogPrefix r))
        with ref_error "dnsid: c2sp-tlog log prefix scheme must be lowercase" ;;
      fail_if has_dot_segment (EscapedPath u)
        with ref_error "dnsid: c2sp-tlog log prefix must not contain dot segments" ;;
      fail_if has_suffix "/" (LogPrefix r)
        with ref_error "dnsid: c2sp-tlog log prefix must not end with slash" ;;
      fail_if str_eqb (Scope r) "public" && negb (str_eqb (Scheme u) "https")
        with ref_error "dnsid: public c2sp-tlog log prefix must use https" ;;
      fail_if negb (str_eqb (Scheme u) "https") && negb (str_eqb (Scheme u) "http")
        with ref_error "dnsid: c2sp-tlog log prefix must use http or https" ;;
      fail_if negb (forall_byte (fun c => byte_val c <=? 127)%Z (Hostname u))
        with ref_error "dnsid: c2sp-tlog log prefix host must be ASCII" ;;
      fail_if negb (str_eqb (Hostname u) (to_lower (Hostname u)))
        with ref_error "dnsid: c2sp-tlog log prefix host must be lowercase" ;;
      fail_if (str_eqb (Scheme u) "https" && str_eqb (Port u) "443")
          || (str_eqb (Scheme u) "http" && str_eqb (Port u) "80")
        with ref_error "dnsid: c2sp-tlog log prefix must omit default port" ;;
      match validateCanonicalEscapes (EscapedPath u) with
      | Err e => Err (ref_error "dnsid: invalid c2sp-tlog reference")
      | Ok _ =>
          fail_if is_empty (StreamID r) with ref_error "dnsid: c2sp-tlog stream id is required" ;;
          fail_if negb (valid_stream_id (StreamID r))
            with ref_error "dnsid: c2sp-tlog stream id must contain only unreserved or percent-encoded characters" ;;
          _ ← ref_Origin r;
          Ok tt
      end
  end.

(** Every error of the parsers is wrapped in a [ParseError]. *)
Definition as_parse_error {A} (msg : string) (r : res A) : res A :=
  match r with Ok a => Ok a | Err e => Err (WithCause (ParseError msg) e) end.

Definition ParseReference (lr : string) : res Reference :=
  as_parse_error "dnsid: parsing c2sp-tlog reference" (
    '(method, entryRef) ← ParseLogRef lr;
    fail_if negb (str_eqb method Method) with PlainError "dnsid: log method is not c2sp-tlog" ;;
    match cut ":" entryRef with
    | None => Err (PlainError "dnsid: malformed c2sp-tlog reference")
    | Some (scope, rest) =>
        fail_if is_empty scope || is_empty rest with PlainError "dnsid: malformed c2sp-tlog reference" ;;
        match cut_last "#" rest with
        | None => Err (PlainError "dnsid: malformed c2sp-tlog reference")
        | Some (prefix, stream) =>
            fail_if is_empty prefix || is_empty stream
              with PlainError "dnsid: malformed c2sp-tlog reference" ;;
            let ref := {| Scope := scope; LogPrefix := prefix; StreamID := stream |} in
            _ ← ref_Validate ref;
            Ok ref
        end
    end).

Definition FinalEventRef (r : Reference) (index : Z) : string :=
  String.append (ref_String r) (String "@" (format_uint (Z.to_N index))).

Definition decimalDigits (value : string) : bool := negb (is_empty value) && forall_byte is_digit value.

Definition leading_zero (s : string) : bool :=
  match s with String "0" (String _ _) => true | _ => false end.

Definition ParseFinalEventRef (s : string) : res (Reference * Z) :=
  as_parse_error "dnsid: parsing c2sp-tlog final event reference" (
    match cut_last "@" s with
    | None => Err (PlainError "dnsid: malformed c2sp-tlog final event reference")
    | Some (ref, indexText) =>
        fail_if is_empty ref || is_empty indexText
          with PlainError "dnsid: malformed c2sp-tlog final event reference" ;;
        r ← ParseReference ref;
        fail_if leading_zero indexText || negb (decimalDigits indexText)
          with PlainError "dnsid: invalid c2sp-tlog event index" ;;
        match parse_uint 64 indexText with
        | None => Err (PlainError "dnsid: invalid c2sp-tlog event index")
        | Some index => Ok (r, Z.of_N index)
        end
    end).
End reference.

(** ** Lemmas *)
Section lemmas.
Context {U : NetURL}.

Lemma cut_last_Some c s l r :
  cut_last c s = Some (l, r) -> s = String.append l (String c r) /\ has_byte c r = false.
Proof.
  revert l r. induction s as [|a s IH]; cbn; intros l r H; [done|].
  destruct (cut_last c s) as [[l' r']|] eqn:E.
  - injection H as <- <-. destruct (IH _ _ eq_refl) as [-> Hr]. by rewrite append_cons.
  - destruct (Ascii.eqb_spec a c) as [->|]; [|done]. injection H as <- <-. split; [done|].
    clear IH. induction s as [|b s IH]; [done|]. cbn in E.
    destruct (cut_last c s) as [[]|]; [done|]. destruct (Ascii.eqb b c) eqn:Eb; [done|].
    by rewrite has_byte_cons, Eb, IH.
Qed.

Lemma forall_byte_no_byte (p : ascii -> bool) c s :
  p c = false -> forall_byte p s = true -> has_byte c s = false.
Proof.
  intros Hc Hs. apply has_byte_false. revert Hs. apply forall_byte_impl.
  intros a Ha. destruct (Ascii.eqb_spec a c); [congruence|done].
Qed.

Lemma valid_scope_clean scope :
  str_eqb scope "public" || str_eqb scope "testnet" || validPrivateScope scope = true ->
  has_byte ":" scope = false /\ is_empty scope = false.
Proof.
  rewrite !orb_true_iff, !str_eqb_eq. intros [[->| ->]|H]; [done|done|].
  unfold validPrivateScope in H. destruct (strip_prefix _ _) as [rest|] eqn:E; [|done].
  apply strip_prefix_Some in E as ->. apply andb_true_iff in H as [_ H]. split; [|done].
  rewrite has_byte_append. change (has_byte ":" "private-") with false. cbn [orb].
  exact (forall_byte_no_byte _ ":" rest eq_refl H).
Qed.

Lemma valid_stream_clean n s c :
  isUnreserved c = false -> isHex c = false -> Ascii.eqb c "%" = false -> (String.length s <= n)%nat ->
  valid_stream_id s = true -> has_byte c s = false.
Proof.
  intros H1 H2 H3. revert s. induction n as [|n IH]; intros [|a s] Hn; cbn [String.length] in Hn; try done; try lia.
  cbn [valid_stream_id]. rewrite has_byte_cons.
  assert (Hneq : forall (p : ascii -> bool) a, p c = false -> p a = true -> Ascii.eqb a c = false).
  { intros p b Hp Hb. destruct (Ascii.eqb_spec b c); [congruence|done]. }
  destruct (isUnreserved a) eqn:Ea.
  - intros H. rewrite (Hneq isUnreserved a) by done. apply IH; [lia|done].
  - destruct s as [|h [|l s]]; [done|done|]. intros H. go_bool.
    rewrite !has_byte_cons, (Hneq isHex h), (Hneq isHex l), (Hneq (fun x => Ascii.eqb x "%") a) by done.
    cbn in Hn. apply IH; [lia|done].
Qed.

(** What [Validate] says of the three parts. *)
Lemma ref_Validate_parts r :
  ref_Validate r = Ok tt ->
  has_byte ":" (Scope r) = false /\ is_empty (Scope r) = false /\
  is_empty (LogPrefix r) = false /\ has_byte "#" (LogPrefix r) = false /\
  is_empty (StreamID r) = false /\ has_byte "#" (StreamID r) = false /\ has_byte "@" (StreamID r) = false.
Proof.
  unfold ref_Validate. intros H. destruct (1024 <? _)%Z; [done|].
  destruct (negb (forall_byte tag_value_byte _)); [done|].
  destruct (negb (_ || _ || _)) eqn:Escope; [done|]. apply negb_false_iff, valid_scope_clean in Escope as [Hs1 Hs2].
  destruct (url_Parse (LogPrefix r)) as [u|]; [|done].
  destruct (negb (IsAbs u) || _) eqn:Eabs; [done|]. destruct (User u); [done|].
  destruct (has_byte "?" _ || _) eqn:Eq; [done|]. apply orb_false_iff in Eq as [_ Hq].
  destruct (negb (scheme_prefixed u (LogPrefix r))) eqn:Esch; [done|].
  destruct (has_dot_segment _); [done|]. destruct (has_suffix _ _); [done|].
  destruct (str_eqb (Scope r) "public" && _); [done|]. destruct (negb _ && negb _); [done|].
  destruct (negb (forall_byte _ _)); [done|]. destruct (negb (str_eqb _ _)); [done|].
  destruct (_ && _ || _ && _); [done|]. destruct (validateCanonicalEscapes _); [|done].
  destruct (is_empty (StreamID r)) eqn:Ene; [done|].
  destruct (negb (valid_stream_id (StreamID r))) eqn:Est; [done|]. apply negb_false_iff in Est.
  split_and!; try done.
  - apply is_empty_false. intros E. rewrite E in Esch. unfold scheme_prefixed, has_prefix in Esch.
    destruct (Scheme u); done.
  - by apply (valid_stream_clean (String.length (StreamID r))).
  - by apply (valid_stream_clean (String.length (StreamID r))).
Qed.

Lemma ParseReference_String r : ref_Validate r = Ok tt -> ParseReference (ref_String r) = Ok r.
Proof.
  intros Hv. pose proof (ref_Validate_parts r Hv) as (H1 & H2 & H3 & H4 & H5 & H6 & _).
  unfold ParseReference.
  assert (ParseLogRef (ref_String r) = Ok (Method, String.append (Scope r) (String ":"
    (String.append (LogPrefix r) (String "#" (StreamID r)))))) as ->.
  { unfold ParseLogRef, ref_String. by rewrite cut_append by done. }
  cbn [mbind res_bind]. rewrite (str_eqb_refl Method). cbn [negb].
  rewrite cut_append, H2 by done. cbn [orb].
  rewrite (proj2 (is_empty_false _)) by (by destruct (LogPrefix r)).
  rewrite cut_last_append, H3, H5 by done. cbn [orb]. destruct r. cbn in *. by rewrite Hv.
Qed.

Lemma ParseReference_ok lr r : ParseReference lr = Ok r -> lr = ref_String r /\ ref_Validate r = Ok tt.
Proof.
  unfold ParseReference, as_parse_error. intros H.
  destruct (_ ≫= _) as [r'|] eqn:E; [|done]. injection H as ->. unfold mbind, res_bind in E.
  destruct (ParseLogRef lr) as [[m e]|] eqn:El; [|done].
  destruct (str_eqb m Method) eqn:Em; cbn [negb] in E; [|done]. apply str_eqb_eq in Em as ->.
  unfold ParseLogRef in El. destruct (cut ":" lr) as [[m' e']|] eqn:Ec; [|done]. go_inv.
  apply cut_Some in Ec as [-> _]. apply cut_Some in Heqo as [-> _]. apply cut_last_Some in Heqo0 as [-> _].
  split; [done|]. by match goal with H : ref_Validate _ = Ok ?u |- _ => destruct u end.
Qed.

Lemma as_parse_error_ok {A} msg (r : res A) a : as_parse_error msg r = Ok a <-> r = Ok a.
Proof. unfold as_parse_error. destruct r; [done|]. split; done. Qed.

Lemma digits_format s n :
  decimalDigits s = true -> leading_zero s = false -> parse_uint 64 s = Some n -> format_uint n = s.
Proof.
  unfold decimalDigits. rewrite andb_true_iff, negb_true_iff. intros [Hne Hd] Hz H.
  unfold parse_uint in H. rewrite Hne in H.
  destruct (DecimalString.NilEmpty.uint_of_string s) as [u|] eqn:E; [|done]. cbn in H.
  destruct (N.of_uint u <? 2 ^ 64)%N; [|done]. injection H as <-. unfold format_uint.
  rewrite DecimalN.Unsigned.to_of.
  assert (Hs : DecimalString.NilEmpty.string_of_uint u = s).
  { by apply DecimalString.NilEmpty.sus in E. }
  subst s. f_equal. destruct u; try reflexivity; [done|].
  cbn [DecimalString.NilEmpty.string_of_uint] in *. destruct u; [done|..]; discriminate Hz.
Qed.

Lemma format_uint_digits n : has_byte "@" (format_uint n) = false.
Proof. apply (forall_byte_no_byte is_digit); [done|]. apply digits_of_uint. Qed.

Lemma format_uint_decimal n : decimalDigits (format_uint n) = true /\ leading_zero (format_uint n) = false.
Proof.
  unfold decimalDigits, format_uint. rewrite digits_of_uint, andb_true_r.
  assert (H : Decimal.unorm (N.to_uint n) = N.to_uint n).
  { rewrite <- (DecimalN.Unsigned.of_to n) at 2. by rewrite DecimalN.Unsigned.to_of. }
  destruct (N.to_uint n) as [|u|u|u|u|u|u|u|u|u|u] eqn:E; try (by split).
  unfold Decimal.unorm in H. cbn [Decimal.nzhead] in H.
  destruct (Decimal.nzhead u) as [|v|v|v|v|v|v|v|v|v|v] eqn:En; try discriminate H.
  - injection H as <-. by split.
  - by apply DecimalFacts.nzhead_nonzero in En.
Qed.
End lemmas.

(** ** The theorems *)
(** [ParseReference] accepts exactly the canonical texts of the valid
    references and returns the reference that the text spells. *)
Theorem parse_reference_spec {U : NetURL} lr r :
  ParseReference lr = Ok r <-> lr = ref_String r /\ ref_Validate r = Ok tt.
Proof.
  split; [apply ParseReference_ok|]. intros [-> H]. by apply ParseReference_String.
Qed.

(** A final event reference has one spelling: [ParseFinalEventRef] accepts
    exactly the texts [FinalEventRef] produces from a valid reference and a
    64-bit index, and returns that reference and that index. *)
Theorem parse_final_event_ref_spec {U : NetURL} s r i :
  ParseFinalEventRef s = Ok (r, i) <->
  s = FinalEventRef r i /\ ref_Validate r = Ok tt /\ (0 <= i < 2 ^ 64)%Z.
Proof.
  unfold ParseFinalEventRef, FinalEventRef. rewrite as_parse_error_ok. split.
  - intros H. destruct (cut_last "@" s) as [[ref text]|] eqn:Ec; [|done].
    unfold mbind, res_bind in H. destruct (_ || _); [done|].
    destruct (ParseReference ref) as [r'|] eqn:Ep; [|done].
    destruct (leading_zero text || _) eqn:Ez; [done|]. apply orb_false_iff in Ez as [Hz Hd].
    apply negb_false_iff in Hd. destruct (parse_uint 64 text) as [n|] eqn:En; [|done]. injection H as -> <-.
    apply cut_last_Some in Ec as [-> _]. apply ParseReference_ok in Ep as [-> Hv].
    rewrite N2Z.id, (digits_format text n) by done. split_and!; [done|done|lia|].
    unfold parse_uint in En. destruct (is_empty text); [done|].
    destruct (DecimalString.NilEmpty.uint_of_string text); [|done]. cbn in En.
    destruct (N.ltb_spec (N.of_uint u) (2 ^ 64)); [|done]. injection En as <-.
    change (2 ^ 64)%Z with (Z.of_N (2 ^ 64)). lia.
  - intros (-> & Hv & Hi). rewrite cut_last_append by apply format_uint_digits.
    destruct (format_uint_decimal (Z.to_N i)) as [Hd Hz].
    rewrite (proj2 (is_empty_false (ref_String r))) by done.
    assert (is_empty (format_uint (Z.to_N i)) = false) as ->.
    { unfold decimalDigits in Hd. by apply andb_true_iff in Hd as [Hd%negb_true_iff _]. }
    cbn [orb]. rewrite ParseReference_String by done. cbn [mbind res_bind]. rewrite Hz, Hd. cbn [orb negb].
    rewrite parse_format_uint; [rewrite Z2N.id by lia; done|].
    change (2 ^ 64)%Z with (Z.of_N (2 ^ 64)) in Hi. lia.
Qed.
