(* ===== verification/Policy.v ===== *)
(** * Policy: witness policies and checkpoint proofs

    policy_parser.go: the line-oriented policy language, quorum rules and the
    number of signatures they need. proof.go: evaluating a quorum on a signed
    note, the accepted checkpoint time, checkpoint and inclusion-proof
    verification. Signed notes, cosignatures, the proof format and the audit
    path check come from golang.org/x/mod and transparency-dev/formats: they
    are the operations of class [NoteLib]. *)

From Stdlib Require Import ZArith Lia Ascii String.
From S2P Require Import Prelude Codec Merkle Evidence Reference.

Open Scope string_scope.
Open Scope list_scope.
Open Scope Z_scope.
#[export] Set Warnings "-register-all".

(** ** The note libraries *)
(** [note.Signature] and what the code reads of a [note.Verifier]. *)
Record NoteSig := { SigName : string; SigHash : Z; SigBase64 : string }.
Record Verifier := { VName : string; VKeyHash : Z; VKey : string }.
#[export] Instance verifier_eq_dec : EqDecision Verifier.
Proof. solve_decision. Defined.

Definition Note : Type := list NoteSig.
Record Checkpoint := { CpOrigin : string; CpSize : Z; CpHash : string }.
Record TLogProof := { PfIndex : Z; PfHashes : list string; PfCheckpoint : string }.

Class NoteLib := {
  NewVerifier : string -> option Verifier;
  NewVerifierForCosignatureV1 : string -> option Verifier;
  CoSigV1Timestamp : NoteSig -> option time;
  ParseCheckpoint : string -> string -> Verifier -> list Verifier -> res (Checkpoint * Note);
  UnmarshalProof : string -> res TLogProof;
  CheckRecord : list string -> Z -> string -> Z -> string -> bool
}.

(** ** Quorum rules *)
(** [checkpointQuorumRule]: the struct has one of three shapes. *)
Inductive checkpointQuorumRule :=
| RuleNone
| RuleVerifier (v : Verifier)
| RuleGroup (threshold : nat) (members : list checkpointQuorumRule).

Section rule_ind.
Variable P : checkpointQuorumRule -> Prop.
Hypothesis Hnone : P RuleNone.
Hypothesis Hver : forall v, P (RuleVerifier v).
Hypothesis Hgroup : forall k ms, Forall P ms -> P (RuleGroup k ms).
Fixpoint rule_induction (r : checkpointQuorumRule) : P r :=
  match r with
  | RuleNone => Hnone
  | RuleVerifier v => Hver v
  | RuleGroup k ms => Hgroup k ms
      ((fix go (l : list checkpointQuorumRule) : Forall P l :=
          match l with [] => Forall_nil_2 P | r :: l => Forall_cons_2 P r l (rule_induction r) (go l) end) ms)
  end.
End rule_ind.

(** The inner loop of [sortInts] moves a value left past greater ones; the
    sorted prefix is kept reversed. *)
Fixpoint insert_left (x : nat) (prefix : list nat) : list nat :=
  match prefix with
  | [] => [x]
  | y :: rest => if (x <? y)%nat then y :: insert_left x rest else x :: prefix
  end.
Definition sortInts (values : list nat) : list nat :=
  rev (fold_left (fun prefix x => insert_left x prefix) values []).

Definition sum_nat (l : list nat) : nat := foldr Nat.add 0%nat l.

Fixpoint minimumSignatures (r : checkpointQuorumRule) : nat :=
  match r with
  | RuleNone => 0
  | RuleVerifier _ => 1
  | RuleGroup threshold members => sum_nat (take threshold (sortInts (minimumSignatures <$> members)))
  end.

Section policy.
Context {N : NoteLib} {U : NetURL} {T : TLog}.

(** [sig.Name == v.Name() && sig.Hash == v.KeyHash()]. *)
Definition sig_of (v : Verifier) (sig : NoteSig) : bool :=
  str_eqb (SigName sig) (VName v) && (SigHash sig =? VKeyHash v).

(** The times of the rule, when it is satisfied: for a group, those of its
    first [threshold] satisfied members in policy order. *)
Fixpoint evaluate (r : checkpointQuorumRule) (n : Note) : option (list time) :=
  match r with
  | RuleNone => Some []
  | RuleVerifier v =>
      match List.find (sig_of v) n with
      | Some sig => ts ← CoSigV1Timestamp sig; Some [ts]
      | None => None
      end
  | RuleGroup threshold members =>
      let results := omap (fun member => evaluate member n) members in
      if (length results <? threshold)%nat then None else Some (concat (take threshold results))
  end.

(** ** Parsing policies *)
Record Policy := {
  LogVerifier : option Verifier;
  WitnessVerifiers : list Verifier;
  WitnessQuorum : Z;
  CheckpointTime : option (Checkpoint -> Note -> res time);
  Now : nat -> time;       (* the readings of the clock, in order *)
  MaxCheckpointAge : Z;
  ClockSkew : Z;
  quorumRule : option checkpointQuorumRule;
  trustedPublicKeys : list string;
  skipProofVerify : bool
}.

Definition invalidPolicyName (name : string) : bool :=
  is_empty name || bool_decide (name ∈ ["log"; "witness"; "group"; "quorum"; "any"; "all"; "none"]).

Definition parsePolicyThreshold (value : string) (memberCount : nat) : res nat :=
  threshold ← (if str_eqb value "any" then Ok 1%Z
               else if str_eqb value "all" then Ok (Z.of_nat memberCount)
               else match parse_uint 31 value with
                    | None => Err (PlainError "invalid group threshold")
                    | Some n => Ok (Z.of_N n)
                    end);
  fail_if (threshold <? 1) || (Z.of_nat memberCount <? threshold)
    with PlainError "group threshold outside member count" ;;
  Ok (Z.to_nat threshold).

(** [strings.SplitN(key, "+", 3)], then the key bytes without the algorithm. *)
Definition signedNotePublicKey (key : string) : option string :=
  '(_, rest) ← cut "+" key;
  '(_, encoded) ← cut "+" rest;
  match Base64.decode_std encoded with
  | Some (String _ (String b bytes)) => Some (String b bytes)
  | _ => None
  end.

(** The variables of [ParsePolicy]. *)
Record parser := {
  components : gmap string checkpointQuorumRule;
  p_log : option Verifier;
  p_witnesses : list Verifier;
  p_keys : list string;
  p_quorum : option checkpointQuorumRule
}.
Definition empty_parser : parser :=
  {| components := ∅; p_log := None; p_witnesses := []; p_keys := []; p_quorum := None |}.

(** [members] and [seen] of a group line. *)
Fixpoint group_members (cs : gmap string checkpointQuorumRule) (seen : list string) (names : list string)
    : res (list checkpointQuorumRule) :=
  match names with
  | [] => Ok []
  | name :: names =>
      fail_if bool_decide (name ∈ seen) with PlainError "group members must be distinct" ;;
      match cs !! name with
      | None => Err (PlainError "group references an unknown or later component")
      | Some member =>
          members ← group_members cs (name :: seen) names;
          Ok (member :: members)
      end
  end.

Definition parse_log (p : parser) (fs : list string) : res parser :=
  match fs with
  | key :: ([] | [_]) =>
      fail_if bool_decide (is_Some (p_log p))
        with PlainError "verification policy requires exactly one log key" ;;
      match NewVerifier key, signedNotePublicKey key with
      | Some v, Some publicKey =>
          Ok {| components := components p; p_log := Some v; p_witnesses := p_witnesses p;
                p_keys := p_keys p ++ [publicKey]; p_quorum := p_quorum p |}
      | _, _ => Err (PlainError "invalid log verifier key")
      end
  | _ => Err (PlainError "log requires a verifier key and optional URL")
  end.

Definition parse_witness (p : parser) (fs : list string) : res parser :=
  match fs with
  | name :: key :: ([] | [_]) =>
      fail_if invalidPolicyName name with PlainError "invalid witness name" ;;
      fail_if bool_decide (is_Some (components p !! name))
        with PlainError "duplicate witness or group name" ;;
      match NewVerifierForCosignatureV1 key, signedNotePublicKey key with
      | Some v, Some publicKey =>
          Ok {| components := <[name := RuleVerifier v]> (components p); p_log := p_log p;
                p_witnesses := p_witnesses p ++ [v]; p_keys := p_keys p ++ [publicKey];
                p_quorum := p_quorum p |}
      | _, _ => Err (PlainError "invalid witness verifier key")
      end
  | _ => Err (PlainError "witness requires name, verifier key, and optional URL")
  end.

Definition parse_group (p : parser) (fs : list string) : res parser :=
  match fs with
  | name :: threshold :: ((_ :: _) as names) =>
      fail_if invalidPolicyName name with PlainError "invalid group name" ;;
      fail_if bool_decide (is_Some (components p !! name))
        with PlainError "duplicate witness or group name" ;;
      members ← group_members (components p) [] names;
      threshold ← parsePolicyThreshold threshold (length members);
      Ok {| components := <[name := RuleGroup threshold members]> (components p); p_log := p_log p;
            p_witnesses := p_witnesses p; p_keys := p_keys p; p_quorum := p_quorum p |}
  | _ => Err (PlainError "group requires name, threshold, and members")
  end.

Definition parse_quorum (p : parser) (fs : list string) : res parser :=
  let set_quorum q :=
    {| components := components p; p_log := p_log p; p_witnesses := p_witnesses p;
       p_keys := p_keys p; p_quorum := Some q |} in
  match fs, p_quorum p with
  | [name], None =>
      if str_eqb name "none" then Ok (set_quorum RuleNone)
      else match components p !! name with
           | Some q => Ok (set_quorum q)
           | None => Err (PlainError "quorum references an unknown or later component")
           end
  | _, _ => Err (PlainError "policy requires exactly one quorum directive")
  end.

(** [line[:i]] at the first [#]. *)
Definition strip_comment (line : string) : string :=
  match cut "#" line with Some (before, _) => before | None => line end.

(** One line. [TrimSpace] removes only what [Fields] ignores. *)
Definition parse_line (p : parser) (line : string) : res parser :=
  match fields (strip_comment line) with
  | [] => Ok p
  | directive :: fs =>
      if str_eqb directive "log" then parse_log p fs
      else if str_eqb directive "witness" then parse_witness p fs
      else if str_eqb directive "group" then parse_group p fs
      else if str_eqb directive "quorum" then parse_quorum p fs
      else Err (PlainError "unknown directive")
  end.

(** [bufio.Scanner]: a line has at most 65535 bytes; the carriage return
    before the newline is white space to [Fields]. *)
Fixpoint parse_lines (p : parser) (lines : list string) : res parser :=
  match lines with
  | [] => Ok p
  | line :: lines =>
      fail_if 65535 <? Z.of_nat (String.length line)
        with PlainError "dnsid: reading c2sp-tlog policy" ;;
      p ← parse_line p line;
      parse_lines p lines
  end.

Definition newline : ascii := "010"%char.

Definition ParsePolicy (now : nat -> time) (document : string) : res Policy :=
  as_parse_error "dnsid: parsing c2sp-tlog policy" (
    p ← parse_lines empty_parser (split newline document);
    match p_log p, p_quorum p with
    | Some v, Some q =>
        Ok {| LogVerifier := Some v; WitnessVerifiers := p_witnesses p;
              WitnessQuorum := Z.of_nat (minimumSignatures q); CheckpointTime := None; Now := now;
              MaxCheckpointAge := 0; ClockSkew := 0; quorumRule := Some q;
              trustedPublicKeys := p_keys p; skipProofVerify := false |}
    | _, _ => Err (PlainError "dnsid: c2sp-tlog policy requires one log and one quorum directive")
    end).

(** ** Verifying checkpoints (proof.go) *)
Record VerifiedProof := {
  Index : Z;
  VCheckpoint : option Checkpoint;
  CheckpointNote : Note;
  CheckpointWitnessTime : time;
  CheckpointIntegrationTime : time;
  CheckpointFreshnessTime : time;
  LogTime : time
}.

(** [k] readings of the clock have been taken before. *)
Definition validateWitnessTime (p : Policy) (k : nat) (acceptedAt : time) : res time :=
  if 0 <? ClockSkew p then
    fail_if after acceptedAt (Now p k + ClockSkew p)
      with PlainError "dnsid: c2sp-tlog witness timestamp is in the future" ;;
    Ok acceptedAt
  else
    fail_if after acceptedAt (Now p k)
      with PlainError "dnsid: c2sp-tlog witness timestamp is in the future" ;;
    Ok acceptedAt.

Fixpoint validate_times (p : Policy) (k : nat) (times : list time) : res unit :=
  match times with
  | [] => Ok tt
  | t :: times => _ ← validateWitnessTime p k t; validate_times p (S k) times
  end.

Definition isAcceptedWitness (verifiers : list Verifier) (sig : NoteSig) : bool :=
  existsb (fun v => sig_of v sig) verifiers.

(** The loop over the note's signatures when there is no quorum rule. *)
Fixpoint witness_times (p : Policy) (log : Verifier) (k : nat) (sigs : list NoteSig) : res (list time) :=
  match sigs with
  | [] => Ok []
  | sig :: sigs =>
      if sig_of log sig then witness_times p log k sigs
      else if negb (isAcceptedWitness (WitnessVerifiers p) sig) then witness_times p log k sigs
      else match CoSigV1Timestamp sig with
           | None => witness_times p log k sigs
           | Some ts =>
               _ ← validateWitnessTime p k ts;
               times ← witness_times p log (S k) sigs;
               Ok (ts :: times)
           end
  end.

(** [times[0]] after sorting by [Before]. *)
Definition earliest (t : time) (times : list time) : time := foldr Z.min t times.

(** The accepted time, and the number of readings of the clock taken. The
    method value [p.LogVerifier.Name()] is read with a non-nil verifier:
    [verifyCheckpoint] has checked it. *)
Definition acceptedCheckpointTime (p : Policy) (log : Verifier) (cp : Checkpoint) (n : Note)
    : res (time * nat) :=
  match CheckpointTime p with
  | Some f => t ← f cp n; Ok (t, 0%nat)
  | None =>
      match quorumRule p with
      | Some rule =>
          match evaluate rule n with
          | None => Err (PlainError "dnsid: c2sp-tlog witness quorum not satisfied")
          | Some [] => Ok (0, 0%nat)
          | Some ((t :: rest) as times) =>
              _ ← validate_times p 0 times;
              Ok (earliest t rest, length times)
          end
      | None =>
          if WitnessQuorum p <=? 0 then Ok (0, 0%nat)
          else
            times ← witness_times p log 0 n;
            fail_if Z.of_nat (length times) <? WitnessQuorum p
              with PlainError "dnsid: c2sp-tlog witness quorum not satisfied" ;;
            match times with
            | [] => Err (PlainError "panic: index out of range")
            | t :: rest =>
                t ← validateWitnessTime p (length times) (earliest t rest);
                Ok (t, S (length times))
            end
      end
  end.

Definition invalid_checkpoint {A} (r : res A) : res A :=
  match r with
  | Ok a => Ok a
  | Err e => Err (WithCause (VerificationError VerificationCodeInvalidEvidence false
      "dnsid: invalid c2sp-tlog checkpoint") e)
  end.

Definition verifyCheckpoint (p : Policy) (ref : Reference) (rawCheckpoint : string) : res VerifiedProof :=
  invalid_checkpoint (
    match LogVerifier p with
    | None => Err (PlainError "dnsid: c2sp-tlog policy missing log verifier")
    | Some log =>
        fail_if str_eqb (Scope ref) "public" && (WitnessQuorum p <=? 0)
          with PlainError "dnsid: public c2sp-tlog policy requires independent witness quorum" ;;
        origin ← ref_Origin ref;
        '(cp, checkpointNote) ← ParseCheckpoint rawCheckpoint origin log (WitnessVerifiers p);
        fail_if MaxInt64 <? CpSize cp
          with PlainError "dnsid: c2sp-tlog checkpoint size exceeds int64 range" ;;
        fail_if negb (Nat.eqb (String.length (CpHash cp)) 32)
          with PlainError "dnsid: c2sp-tlog checkpoint root length" ;;
        fail_if (CpSize cp =? 0) && negb (str_eqb (CpHash cp) (merkleRoot []))
          with PlainError "dnsid: empty c2sp-tlog checkpoint has invalid root" ;;
        '(witnessTime, k) ← acceptedCheckpointTime p log cp checkpointNote;
        fail_if (0 <? MaxCheckpointAge p) && time_is_zero witnessTime
          with PlainError "dnsid: c2sp-tlog accepted checkpoint timestamp is required" ;;
        fail_if (0 <? MaxCheckpointAge p) && (MaxCheckpointAge p <? time_sub (Now p k) witnessTime)
          with PlainError "dnsid: c2sp-tlog checkpoint is stale" ;;
        let integrationTime :=
          if time_is_zero witnessTime then witnessTime else witnessTime + ClockSkew p in
        Ok {| Index := 0; VCheckpoint := Some cp; CheckpointNote := checkpointNote;
              CheckpointWitnessTime := witnessTime; CheckpointIntegrationTime := integrationTime;
              CheckpointFreshnessTime := witnessTime; LogTime := integrationTime |}
    end).

Definition VerifyCheckpoint (p : Policy) (ref : Reference) (rawCheckpoint : string) : res VerifiedProof :=
  verifyCheckpoint p ref rawCheckpoint.

(** The zero [VerifiedProof]: a nil checkpoint and zero times. *)
Definition zero_proof : VerifiedProof :=
  {| Index := 0; VCheckpoint := None; CheckpointNote := []; CheckpointWitnessTime := 0;
     CheckpointIntegrationTime := 0; CheckpointFreshnessTime := 0; LogTime := 0 |}.

Definition VerifyProof (p : Policy) (ref : Reference) (entry rawProof : string) : res VerifiedProof :=
  if skipProofVerify p then Ok zero_proof
  else
    match UnmarshalProof rawProof with
    | Err e => Err (WithCause (PlainError "dnsid: parsing c2sp-tlog proof") e)
    | Ok proof =>
        verified ← verifyCheckpoint p ref (PfCheckpoint proof);
        match VCheckpoint verified with
        | None => Err (PlainError "panic: nil pointer dereference")
        | Some cp =>
            fail_if CpSize cp <=? PfIndex proof
              with PlainError "dnsid: c2sp-tlog proof index outside checkpoint size" ;;
            fail_if negb (CheckRecord (PfHashes proof) (CpSize cp) (CpHash cp) (PfIndex proof) (RecordHash entry))
              with PlainError "dnsid: c2sp-tlog inclusion proof failed" ;;
            Ok {| Index := PfIndex proof; VCheckpoint := VCheckpoint verified;
                  CheckpointNote := CheckpointNote verified;
                  CheckpointWitnessTime := CheckpointWitnessTime verified;
                  CheckpointIntegrationTime := CheckpointIntegrationTime verified;
                  CheckpointFreshnessTime := CheckpointFreshnessTime verified;
                  LogTime := LogTime verified |}
        end
    end.
End policy.

(** ** Lemmas: sorting and sums *)
Section sorting.
Open Scope nat_scope.
Implicit Types (l : list nat).

Lemma insert_left_perm x l : insert_left x l ≡ₚ x :: l.
Proof.
  induction l as [|y l IH]; [done|]. cbn [insert_left]. destruct (x <? y); [|done].
  rewrite IH. constructor.
Qed.

Lemma sum_nat_perm l l' : l ≡ₚ l' -> sum_nat l = sum_nat l'.
Proof. unfold sum_nat. induction 1; cbn; lia. Qed.

Lemma insert_left_sorted x l : StronglySorted ge l -> StronglySorted ge (insert_left x l).
Proof.
  induction 1 as [|y l Hs IH Hf]; cbn [insert_left]; [by repeat constructor|].
  destruct (Nat.ltb_spec x y) as [Hlt|Hge].
  - constructor; [done|]. rewrite insert_left_perm. constructor; [lia|done].
  - constructor; [by constructor|]. constructor; [lia|].
    apply (Forall_impl _ _ _ Hf). intros; lia.
Qed.

Lemma sortInts_fold l prefix :
  fold_left (fun p x => insert_left x p) l prefix ≡ₚ l ++ prefix /\
  (StronglySorted ge prefix -> StronglySorted ge (fold_left (fun p x => insert_left x p) l prefix)).
Proof.
  revert prefix. induction l as [|x l IH]; intros prefix; [by split|]. cbn [fold_left].
  destruct (IH (insert_left x prefix)) as [Hp Hs]. split.
  - rewrite Hp, insert_left_perm. symmetry. apply Permutation_middle.
  - auto using insert_left_sorted.
Qed.

Lemma sortInts_perm l : sortInts l ≡ₚ l.
Proof.
  unfold sortInts. rewrite <- Permutation_rev. destruct (sortInts_fold l []) as [Hp _].
  rewrite Hp. by rewrite app_nil_r.
Qed.

Lemma sortInts_sorted l : StronglySorted le (sortInts l).
Proof.
  unfold sortInts. destruct (sortInts_fold l []) as [_ Hs]. specialize (Hs (SSorted_nil _)).
  revert Hs. generalize (fold_left (fun p x => insert_left x p) l []). clear l.
  intros l. induction l as [|y l IH] using rev_ind; intros Hs; [constructor|].
  rewrite rev_app_distr. cbn. apply StronglySorted_app in Hs as (Hy & H1 & _).
  constructor; [by apply IH|]. rewrite <- Permutation_rev. apply Forall_forall.
  intros x Hx. specialize (Hy x y Hx). apply Hy. by left.
Qed.

(** The [k] least elements have the least sum of all [k] elements. *)
Lemma sum_least s l :
  StronglySorted le l -> s ⊆+ l -> sum_nat (take (length s) l) <= sum_nat s.
Proof.
  intros Hl. revert s. induction Hl as [|x l Hs IH Hf]; intros s Hsub.
  - apply submseteq_nil_r in Hsub as ->. done.
  - destruct s as [|y s]; [done|].
    destruct (decide (x ∈ y :: s)) as [Hx|Hx].
    + apply elem_of_Permutation in Hx as [s' Hs'].
      assert (length (y :: s) = S (length s')) as -> by (by rewrite Hs').
      assert (Hsum : sum_nat (y :: s) = x + sum_nat s').
      { by rewrite (sum_nat_perm _ _ Hs'). }
      rewrite Hsum. cbn [take sum_nat foldr]. rewrite Hs' in Hsub.
      assert (Hs'l : s' ⊆+ l).
      { apply submseteq_cons_r in Hsub as [Hsub|(l' & Hp & Hsub)].
        - etrans; [by apply submseteq_cons; reflexivity|exact Hsub].
        - apply Permutation_cons_inv in Hp. by rewrite Hp. }
      apply IH in Hs'l. unfold sum_nat in *. lia.
    + assert (Hsub' : y :: s ⊆+ l).
      { apply submseteq_cons_r in Hsub as [?|(s' & Hp & _)]; [done|].
        exfalso. apply Hx. rewrite Hp. by left. }
      assert (Hxy : x <= y).
      { rewrite Forall_forall in Hf. apply Hf. eapply elem_of_submseteq; [|exact Hsub']. by left. }
      assert (Hss : s ⊆+ l) by (etrans; [apply submseteq_cons; reflexivity|done]).
      apply IH in Hss. cbn [length take sum_nat foldr]. unfold sum_nat in *. lia.
Qed.
End sorting.

(** ** Quorums *)
Section quorum.
Context {N : NoteLib}.

(** The time a witness has signed: of its first signature on the note. *)
Definition witness_time (n : Note) (v : Verifier) : option time :=
  List.find (sig_of v) n ≫= CoSigV1Timestamp.

(** The meaning of a rule, given the times at which witnesses have signed. *)
Fixpoint satisfied (signed : Verifier -> option time) (r : checkpointQuorumRule) : bool :=
  match r with
  | RuleNone => true
  | RuleVerifier v => bool_decide (is_Some (signed v))
  | RuleGroup k ms => (k <=? length (List.filter (satisfied signed) ms))%nat
  end.

Fixpoint rule_verifiers (r : checkpointQuorumRule) : list Verifier :=
  match r with
  | RuleNone => []
  | RuleVerifier v => [v]
  | RuleGroup _ ms => concat (rule_verifiers <$> ms)
  end.

Definition rule_wf_node (k : nat) (ms : list checkpointQuorumRule) : Prop :=
  (1 <= k <= length ms)%nat.
Fixpoint rule_wf (r : checkpointQuorumRule) : Prop :=
  match r with
  | RuleGroup k ms => rule_wf_node k ms /\ foldr (fun m acc => rule_wf m /\ acc) True ms
  | RuleVerifier _ => True
  | RuleNone => False
  end.

Lemma omap_filter_length {A B} (f : A -> option B) (p : A -> bool) l :
  Forall (fun a => is_Some (f a) <-> p a = true) l -> length (omap f l) = length (List.filter p l).
Proof.
  induction 1 as [|a l Ha Hl IH]; [done|]. cbn. destruct (f a), (p a) eqn:E; cbn; rewrite ?IH; try done.
  - destruct Ha as [Ha _]. by discriminate Ha; eauto.
  - destruct Ha as [_ Ha]. by destruct (Ha eq_refl).
Qed.

Lemma evaluate_satisfied r n : is_Some (evaluate r n) <-> satisfied (witness_time n) r = true.
Proof.
  induction r as [|v|k ms IH] using rule_induction; cbn [evaluate satisfied].
  - split; [done|by eexists].
  - rewrite bool_decide_eq_true. unfold witness_time. destruct (List.find _ n) as [sig|]; cbn; [|done].
    destruct (CoSigV1Timestamp sig); cbn; [split; by eexists|done].
  - rewrite (omap_filter_length _ _ _ IH).
    destruct (Nat.ltb_spec (length (List.filter (satisfied (witness_time n)) ms)) k).
    + rewrite Nat.leb_le. split; [by intros []|lia].
    + rewrite Nat.leb_le. split; [done|by eexists].
Qed.

Lemma evaluate_times r n ts t :
  evaluate r n = Some ts -> t ∈ ts -> exists v, v ∈ rule_verifiers r /\ witness_time n v = Some t.
Proof.
  revert ts. induction r as [|v|k ms IH] using rule_induction; intros ts; cbn [evaluate rule_verifiers].
  - intros [= <-] Ht. by apply elem_of_nil in Ht.
  - unfold witness_time. destruct (List.find _ n) as [sig|] eqn:E; [|done]. cbn.
    destruct (CoSigV1Timestamp sig) as [t'|] eqn:Et; [|done]. cbn. intros [= <-] Ht.
    apply list_elem_of_singleton in Ht as ->. exists v. split; [by left|]. by rewrite E.
  - destruct (_ <? _)%nat; [done|]. intros [= <-] (us & Hus & Ht)%elem_of_concat.
    assert (Hin : us ∈ omap (fun m => evaluate m n) ms).
    { rewrite <- (take_drop k (omap _ ms)). apply elem_of_app. by left. }
    apply list_elem_of_omap in Hin as (m & Hm & Hev). rewrite Forall_forall in IH.
    destruct (IH m Hm us Hev Ht) as (v & Hv & Hw). exists v. split; [|done].
    apply elem_of_concat. exists (rule_verifiers m). split; [|done]. apply list_elem_of_fmap. eauto.
Qed.

(** The members whose evaluation is counted, with their minima. *)
Lemma omap_minima n ms :
  Forall (fun m => forall ts, evaluate m n = Some ts -> (minimumSignatures m <= length ts)%nat) ms ->
  exists mins, Forall2 (fun k ts => (k <= length ts)%nat) mins (omap (fun m => evaluate m n) ms) /\
    sublist mins (minimumSignatures <$> ms).
Proof.
  induction 1 as [|m ms Hm Hms (mins & Hf & Hs)]; cbn.
  - exists []. split; constructor.
  - destruct (evaluate m n) as [ts|] eqn:E; cbn.
    + exists (minimumSignatures m :: mins). split; constructor; auto.
    + exists mins. split; [done|by constructor].
Qed.

Lemma sum_le_concat mins (tss : list (list time)) :
  Forall2 (fun k ts => (k <= length ts)%nat) mins tss -> (sum_nat mins <= length (concat tss))%nat.
Proof. induction 1; cbn; [done|]. rewrite length_app. unfold sum_nat in *. lia. Qed.

Lemma evaluate_minimum r n ts :
  evaluate r n = Some ts -> (minimumSignatures r <= length ts)%nat.
Proof.
  revert ts. induction r as [|v|k ms IH] using rule_induction; intros ts;
    cbn [evaluate minimumSignatures]; [lia| |].
  - destruct (List.find _ n) as [sig|]; [|done]. destruct (CoSigV1Timestamp sig); [|done].
    intros [= <-]. done.
  - destruct (Nat.ltb_spec (length (omap (fun m => evaluate m n) ms)) k) as [|Hk]; [done|]. intros [= <-].
    destruct (omap_minima n ms IH) as (mins & Hf & Hs).
    pose proof (Forall2_length _ _ _ Hf) as Hlen.
    apply (Forall2_take _ _ _ k) in Hf. apply sum_le_concat in Hf.
    etrans; [|exact Hf].
    replace k with (length (take k mins)) at 1 by (rewrite length_take; lia).
    apply sum_least; [apply sortInts_sorted|]. rewrite sortInts_perm.
    apply sublist_submseteq. etrans; [apply sublist_take|done].
Qed.

Lemma find_app {A} (f : A -> bool) l1 l2 a : List.find f l1 = Some a -> List.find f (l1 ++ l2) = Some a.
Proof. induction l1 as [|x l1 IH]; [done|]. cbn. by destruct (f x). Qed.

Lemma satisfied_mono (s1 s2 : Verifier -> option time) r :
  (forall v, is_Some (s1 v) -> is_Some (s2 v)) -> satisfied s1 r = true -> satisfied s2 r = true.
Proof.
  intros Hs. induction r as [|v|k ms IH] using rule_induction; cbn [satisfied]; [done| |].
  - rewrite !bool_decide_eq_true. apply Hs.
  - rewrite !Nat.leb_le. intros Hk. etrans; [exact Hk|].
    clear Hk. induction IH as [|m ms Hm Hms IHms]; [done|]. cbn.
    destruct (satisfied s1 m) eqn:E1; [rewrite Hm by done; cbn; lia|].
    destruct (satisfied s2 m); cbn; lia.
Qed.

(** [evaluate] decides the meaning of a quorum rule: it succeeds exactly
    when the rule is satisfied by the first cosignature of every witness; then
    it returns at least [minimumSignatures] times, each of them signed by a
    witness of the rule; and further signatures at the end of the note never
    break a satisfied quorum. *)
Theorem evaluate_quorum r n :
  (is_Some (evaluate r n) <-> satisfied (witness_time n) r = true) /\
  (forall ts, evaluate r n = Some ts ->
    (minimumSignatures r <= length ts)%nat /\
    forall t, t ∈ ts -> exists v, v ∈ rule_verifiers r /\ witness_time n v = Some t) /\
  (forall more, is_Some (evaluate r n) -> is_Some (evaluate r (n ++ more))).
Proof.
  split_and!.
  - apply evaluate_satisfied.
  - intros ts H. split; [by apply evaluate_minimum in H|]. intros t. by apply evaluate_times.
  - intros more. rewrite !evaluate_satisfied. apply satisfied_mono. intros v [t H].
    unfold witness_time in *. destruct (List.find (sig_of v) n) as [sig|] eqn:E; [|done].
    rewrite (find_app _ _ _ _ E). by exists t.
Qed.
End quorum.

(** ** Parsed policies *)
Section parsed.
Context {N : NoteLib}.

Lemma rule_wf_group k ms : rule_wf (RuleGroup k ms) <-> rule_wf_node k ms /\ Forall rule_wf ms.
Proof.
  cbn [rule_wf]. rewrite <- Forall_fold_right. done.
Qed.

Lemma minimum_positive r : rule_wf r -> (1 <= minimumSignatures r)%nat.
Proof.
  induction r as [|v|k ms IH] using rule_induction; [done|done|].
  rewrite rule_wf_group. intros [[Hk1 Hk2] Hms]. cbn [minimumSignatures].
  assert (Hall : Forall (fun x => 1 <= x)%nat (sortInts (minimumSignatures <$> ms))).
  { rewrite sortInts_perm. apply Forall_fmap. rewrite Forall_forall in *. intros m Hm. cbn. auto. }
  assert (Hl : length (sortInts (minimumSignatures <$> ms)) = length ms).
  { by rewrite sortInts_perm, length_fmap. }
  destruct (sortInts _) as [|x l]; [cbn in Hl; lia|]. destruct k as [|k]; [lia|].
  apply Forall_cons in Hall as [Hx _]. cbn. lia.
Qed.

(** A component of the policy: well formed, over known witnesses. *)
Definition known_rule (ws : list Verifier) (r : checkpointQuorumRule) : Prop :=
  rule_wf r /\ rule_verifiers r ⊆ ws.

Definition parser_inv (p : parser) : Prop :=
  (forall name r, components p !! name = Some r -> known_rule (p_witnesses p) r) /\
  (forall q, p_quorum p = Some q -> q = RuleNone \/ known_rule (p_witnesses p) q).

Lemma known_rule_mono ws ws' r : ws ⊆ ws' -> known_rule ws r -> known_rule ws' r.
Proof. intros H [? ?]. split; [done|]. by etrans. Qed.

Lemma group_members_known cs ws seen names ms :
  (forall name r, cs !! name = Some r -> known_rule ws r) ->
  group_members cs seen names = Ok ms -> Forall (known_rule ws) ms /\ length ms = length names.
Proof.
  intros Hcs. revert seen ms. induction names as [|name names IH]; intros seen ms H.
  - injection H as <-. by split.
  - cbn [group_members] in H. destruct (bool_decide _); [done|].
    destruct (cs !! name) as [m|] eqn:E; [|done]. unfold mbind, res_bind in H.
    destruct (group_members cs (name :: seen) names) as [ms'|] eqn:Eg; [|done]. injection H as <-.
    apply IH in Eg as [Hf Hl]. split; [constructor; eauto|]. cbn. by rewrite Hl.
Qed.

Lemma parsePolicyThreshold_ok value n k :
  parsePolicyThreshold value n = Ok k -> (1 <= k <= n)%nat.
Proof.
  unfold parsePolicyThreshold, mbind, res_bind.
  destruct (if str_eqb value "any" then _ else _) as [t|]; [|done].
  destruct (_ || _) eqn:E; [done|]. intros [= <-]. go_bool. lia.
Qed.

Lemma parser_inv_insert p name r ws keys :
  parser_inv p -> p_witnesses p ⊆ ws -> known_rule ws r ->
  parser_inv {| components := <[name := r]> (components p); p_log := p_log p; p_witnesses := ws;
                p_keys := keys; p_quorum := p_quorum p |}.
Proof.
  intros [Hc Hq] Hws Hr. split; cbn.
  - intros n r' H. destruct (decide (n = name)) as [->|Hne].
    + rewrite lookup_insert_eq in H. by injection H as <-.
    + rewrite lookup_insert_ne in H by done. eapply known_rule_mono; eauto.
  - intros q H. destruct (Hq q H) as [?|?]; [by left|]. right. by eapply known_rule_mono.
Qed.

Lemma parse_line_inv p line p' : parse_line p line = Ok p' -> parser_inv p -> parser_inv p'.
Proof.
  unfold parse_line. destruct (fields _) as [|d fs]; [by intros [= ->]|]. intros H Hinv.
  destruct (str_eqb d "log").
  { unfold parse_log in H. destruct fs as [|key [|? [|]]]; try done;
      (destruct (bool_decide _); [done|]; destruct (NewVerifier key) as [v|]; [|done];
       destruct (signedNotePublicKey key); [|done]; injection H as <-; exact Hinv). }
  destruct (str_eqb d "witness").
  { unfold parse_witness in H. destruct fs as [|name [|key [|? [|]]]]; try done;
      (destruct (invalidPolicyName name); [done|]; destruct (bool_decide _); [done|];
       destruct (NewVerifierForCosignatureV1 key) as [v|]; [|done];
       destruct (signedNotePublicKey key); [|done]; injection H as <-;
       apply parser_inv_insert; [done|set_solver|split; [done|cbn; set_solver]]). }
  destruct (str_eqb d "group").
  { unfold parse_group in H. destruct fs as [|name [|thr [|m ms]]]; try done.
    destruct (invalidPolicyName name); [done|]. destruct (bool_decide _); [done|].
    unfold mbind, res_bind in H. destruct (group_members _ _ _) as [members|] eqn:Eg; [|done].
    destruct (parsePolicyThreshold _ _) as [k|] eqn:Ek; [|done]. injection H as <-.
    apply (group_members_known _ (p_witnesses p)) in Eg as [Hf _]; [|apply Hinv].
    apply parsePolicyThreshold_ok in Ek. apply parser_inv_insert; [done|done|]. split.
    - apply rule_wf_group. split; [done|]. apply (Forall_impl _ _ _ Hf). by intros r [].
    - intros v (vs & Hvs & Hv)%elem_of_concat. apply list_elem_of_fmap in Hvs as (r & -> & Hr).
      rewrite Forall_forall in Hf. by apply (Hf r Hr). }
  destruct (str_eqb d "quorum"); [|done].
  unfold parse_quorum in H. destruct fs as [|name [|]]; try done.
  destruct (p_quorum p) eqn:Eq; [done|]. destruct Hinv as [Hc _].
  destruct (str_eqb name "none").
  - injection H as <-. split; cbn; [exact Hc|]. intros q [= <-]. by left.
  - destruct (components p !! name) as [q|] eqn:E; [|done]. injection H as <-.
    split; cbn; [exact Hc|]. intros q' [= <-]. right. by eapply Hc.
Qed.

Lemma parse_lines_inv p lines p' : parse_lines p lines = Ok p' -> parser_inv p -> parser_inv p'.
Proof.
  revert p. induction lines as [|line lines IH]; intros p H; cbn [parse_lines] in H; [by injection H as <-|].
  destruct (_ <? _); [done|]. unfold mbind, res_bind in H.
  destruct (parse_line p line) as [p1|] eqn:E; [|done]. intros Hi. eapply IH; [exact H|].
  by eapply parse_line_inv.
Qed.

(** A parsed policy is coherent: it has one log key and one quorum rule;
    unless the quorum is [none], every group of the rule has a threshold
    between one and its number of members and every witness it names has been
    declared; [WitnessQuorum] is the least number of signatures that satisfies
    the rule, which is positive exactly when the quorum is not [none]. *)
Theorem parse_policy_coherent now document p :
  ParsePolicy now document = Ok p ->
  exists log q, LogVerifier p = Some log /\ quorumRule p = Some q /\
    WitnessQuorum p = Z.of_nat (minimumSignatures q) /\ CheckpointTime p = None /\
    skipProofVerify p = false /\
    ((q = RuleNone /\ WitnessQuorum p = 0) \/
     (rule_wf q /\ rule_verifiers q ⊆ WitnessVerifiers p /\ 1 <= WitnessQuorum p)).
Proof.
  unfold ParsePolicy. rewrite as_parse_error_ok. unfold mbind, res_bind.
  destruct (parse_lines empty_parser _) as [s|] eqn:E; [|done].
  apply parse_lines_inv in E as [_ Hq]; [|split; [intros ??; cbn; by rewrite lookup_empty|done]].
  destruct (p_log s) as [log|]; [|done]. destruct (p_quorum s) as [q|]; [|done]. intros [= <-].
  exists log, q. cbn. split_and!; try done. destruct (Hq q eq_refl) as [->|[Hwf Hv]]; [by left|].
  right. split_and!; [done|done|]. apply minimum_positive in Hwf. lia.
Qed.
End parsed.

(** ** Verified checkpoints *)
#[local] Opaque sha256 merkleRoot.
Section verified.
Context {N : NoteLib} {U : NetURL} {T : TLog}.

Lemma validateWitnessTime_ok p k t t' :
  validateWitnessTime p k t = Ok t' -> t' = t /\ t <= Now p k + Z.max 0 (ClockSkew p).
Proof.
  unfold validateWitnessTime, after. destruct (Z.ltb_spec 0 (ClockSkew p));
    match goal with |- context [if ?b then _ else _] => destruct b eqn:E end; try done;
    intros [= <-]; go_bool; split; [done|lia|done|lia].
Qed.

Lemma validate_times_ok p k ts :
  validate_times p k ts = Ok tt ->
  forall i t, ts !! i = Some t -> t <= Now p (k + i) + Z.max 0 (ClockSkew p).
Proof.
  revert k. induction ts as [|t ts IH]; intros k H i t' Hi; [done|].
  cbn [validate_times] in H. unfold mbind, res_bind in H.
  destruct (validateWitnessTime p k t) as [u|] eqn:E; [|done]. apply validateWitnessTime_ok in E as [_ Ht].
  destruct i as [|i]; cbn in Hi.
  - injection Hi as <-. by rewrite Nat.add_0_r.
  - replace (k + S i)%nat with (S k + i)%nat by lia. by apply (IH (S k) H i).
Qed.

Lemma earliest_in t ts : earliest t ts ∈ t :: ts.
Proof.
  unfold earliest. induction ts as [|u ts IH]; cbn; [by left|].
  destruct (Z.min_spec u (foldr Z.min t ts)) as [[_ ->]|[_ ->]]; set_solver.
Qed.

Lemma earliest_le t ts u : u ∈ t :: ts -> earliest t ts <= u.
Proof.
  unfold earliest. induction ts as [|v ts IH]; cbn.
  - intros ->%list_elem_of_singleton. lia.
  - intros Hu. assert (u = v \/ u ∈ t :: ts) as [->|Hin] by set_solver; [lia|].
    apply IH in Hin. lia.
Qed.

(** What a verified checkpoint of a policy with a quorum rule guarantees:
    the note library accepted the note for the origin of the reference under
    the policy's log key and witnesses, the quorum rule is satisfied, the size
    fits an int64 and the root a hash (the empty-tree root for size 0), the
    accepted time is the earliest of the counted cosignatures, none of which
    is later than the clock plus the skew, a public log has a positive quorum,
    and with an age limit the checkpoint is not older than the limit. *)
Theorem verify_checkpoint_sound p ref raw v q :
  verifyCheckpoint p ref raw = Ok v -> CheckpointTime p = None -> quorumRule p = Some q ->
  exists log origin cp n ts,
    LogVerifier p = Some log /\ ref_Origin ref = Ok origin /\
    ParseCheckpoint raw origin log (WitnessVerifiers p) = Ok (cp, n) /\
    VCheckpoint v = Some cp /\ CheckpointNote v = n /\
    CpSize cp <= MaxInt64 /\ String.length (CpHash cp) = 32%nat /\
    (CpSize cp = 0 -> CpHash cp = merkleRoot []) /\
    satisfied (witness_time n) q = true /\ evaluate q n = Some ts /\
    (Scope ref = "public" -> 1 <= WitnessQuorum p) /\
    (ts = [] -> CheckpointWitnessTime v = 0) /\
    (ts <> [] -> CheckpointWitnessTime v ∈ ts /\ Forall (fun t => CheckpointWitnessTime v <= t) ts) /\
    (forall i t, ts !! i = Some t -> t <= Now p i + Z.max 0 (ClockSkew p)) /\
    (0 < MaxCheckpointAge p -> CheckpointWitnessTime v <> 0 /\
      time_sub (Now p (length ts)) (CheckpointWitnessTime v) <= MaxCheckpointAge p).
Proof.
  intros H Hct Hq. unfold verifyCheckpoint, invalid_checkpoint in H.
  destruct (match LogVerifier p with Some _ => _ | None => _ end) as [v'|] eqn:E; [|done].
  injection H as ->. destruct (LogVerifier p) as [log|]; [|done].
  destruct (_ && (WitnessQuorum p <=? 0)) eqn:Epub; [done|]. unfold mbind, res_bind in E.
  destruct (ref_Origin ref) as [origin|]; [|done].
  destruct (ParseCheckpoint raw origin log _) as [[cp n]|] eqn:Ep; [|done].
  destruct (Z.ltb_spec MaxInt64 (CpSize cp)) as [|Hsz]; [done|].
  destruct (Nat.eqb_spec (String.length (CpHash cp)) 32) as [Hh|]; [|done]. cbn [negb] in E.
  destruct ((CpSize cp =? 0) && _) eqn:E0; [done|].
  destruct (acceptedCheckpointTime p log cp n) as [[wt k]|] eqn:Ea; [|done].
  destruct ((0 <? MaxCheckpointAge p) && time_is_zero wt) eqn:Ez; [done|].
  destruct ((0 <? MaxCheckpointAge p) && (_ <? _)) eqn:Es; [done|]. injection E as <-.
  unfold acceptedCheckpointTime in Ea. rewrite Hct, Hq in Ea.
  destruct (evaluate q n) as [ts|] eqn:Ev; [|done].
  assert (Hsat : satisfied (witness_time n) q = true) by (apply evaluate_satisfied; by eexists).
  assert (Hzero : CpSize cp = 0 -> CpHash cp = merkleRoot []).
  { intros Hz. rewrite Hz in E0. cbn in E0. by apply negb_false_iff, str_eqb_eq in E0. }
  assert (Hpub : Scope ref = "public" -> 1 <= WitnessQuorum p).
  { intros Hs. rewrite Hs, str_eqb_refl in Epub. cbn in Epub. go_bool. lia. }
  exists log, origin, cp, n, ts. cbn [VCheckpoint CheckpointNote CheckpointWitnessTime].
  assert (Hage : 0 < MaxCheckpointAge p -> wt <> 0 /\ time_sub (Now p k) wt <= MaxCheckpointAge p).
  { intros Hpos. apply Z.ltb_lt in Hpos. rewrite Hpos, andb_true_l in Ez, Es.
    apply Z.eqb_neq in Ez. apply Z.ltb_ge in Es. by split. }
  destruct ts as [|t rest].
  - injection Ea as <- <-.
    refine (conj eq_refl (conj eq_refl (conj Ep (conj eq_refl (conj eq_refl (conj Hsz (conj Hh
      (conj Hzero (conj Hsat (conj Ev (conj Hpub _))))))))))). split; [reflexivity|].
    split; [by intros []|]. split; [|exact Hage].
    intros i t Hi. exfalso. rewrite lookup_nil in Hi. discriminate Hi.
  - unfold mbind, res_bind in Ea. destruct (validate_times p 0 (t :: rest)) as [[]|] eqn:Evt; [|discriminate Ea].
    injection Ea as <- <-. refine (conj eq_refl (conj eq_refl (conj Ep (conj eq_refl (conj eq_refl (conj Hsz (conj Hh
      (conj Hzero (conj Hsat (conj Ev (conj Hpub _))))))))))). split; [intros [=]|].
    split; [|split; [|exact Hage]].
    + intros _. split; [apply earliest_in|]. apply Forall_forall. intros u. apply earliest_le.
    + intros i u. apply (validate_times_ok p 0 _ Evt).
Qed.

(** The documented contract of [tlog.CheckRecord]: it accepts exactly the
    audit paths of RFC 6962. *)
Class NoteSpec (N' : NoteLib) := {
  CheckRecord_spec p n root i leaf :
    @CheckRecord N' p n root i leaf = true ->
    0 <= i < n /\ exists ps,
      run_proof (Z.to_nat n) (Z.to_nat i) (Z.to_nat n) leaf (rev p) = Some (root, ps)
}.

(** A verified inclusion proof proves inclusion: when the checkpoint root
    is the Merkle root of a log of [entries] of the checkpoint's size, the
    verified entry is the entry of that log at the proven index, or the entry
    has the leaf hash of a different one, or the audit path exhibits a
    collision of the node hash with the tree of the log. *)
Theorem verify_proof_inclusion `{!NoteSpec N} `{!TLogSpec T} p ref entry raw v cp entries :
  skipProofVerify p = false -> VerifyProof p ref entry raw = Ok v -> VCheckpoint v = Some cp ->
  Z.of_nat (length entries) = CpSize cp -> CpHash cp = merkleRoot entries ->
  0 <= Index v < CpSize cp /\
  (entries !! Z.to_nat (Index v) = Some entry \/
   (exists other, entries !! Z.to_nat (Index v) = Some other /\ other <> entry /\
      RecordHash other = RecordHash entry) \/
   exists pf ps,
      UnmarshalProof raw = Ok pf /\
      run_proof (length entries) (Z.to_nat (Index v)) (length entries) (RecordHash entry)
        (rev (PfHashes pf)) = Some (CpHash cp, ps) /\
      pairs_collide (node_pairs (RecordHash <$> entries)) ps).
Proof.
  intros Hskip H Hcp Hlen Hroot. unfold VerifyProof in H. rewrite Hskip in H.
  destruct (UnmarshalProof raw) as [pf|] eqn:Epf; [|done]. unfold mbind, res_bind in H.
  destruct (verifyCheckpoint p ref (PfCheckpoint pf)) as [w|]; [|done].
  destruct (VCheckpoint w) as [cp'|] eqn:Ew; [|done].
  destruct (Z.leb_spec (CpSize cp') (PfIndex pf)); [done|].
  destruct (CheckRecord _ _ _ _ _) eqn:Ec; [|done]. cbn [negb] in H. injection H as <-.
  cbn [VCheckpoint Index] in *. injection Hcp as ->.
  apply CheckRecord_spec in Ec as (Hi & ps & Hrun). split; [lia|].
  assert (Hne : entries <> []) by (intros ->; cbn in Hlen; lia).
  replace (Z.to_nat (CpSize cp)) with (length (RecordHash <$> entries)) in Hrun
    by (rewrite length_fmap; lia).
  rewrite Hroot in Hrun.
  destruct (run_proof_sound _ _ _ _ _ _ _ _ (merkleRoot_tree entries Hne) Hrun) as [Hl|Hc].
  - rewrite length_fmap. lia.
  - rewrite list_lookup_fmap in Hl. destruct (entries !! Z.to_nat (PfIndex pf)) as [e|] eqn:E; [|done].
    cbn in Hl. injection Hl as Hl. destruct (decide (e = entry)) as [->|Hn]; [by left|].
    right; left. eauto.
  - right; right. exists pf, ps. split_and!; [done| |done].
    rewrite length_fmap in Hrun. by rewrite Hroot.
Qed.
End verified.

(** ** A concrete policy, log and proof for the witnesses *)
Definition demo_verifier (key : string) : option Verifier :=
  '(name, _) ← cut "+" key; Some {| VName := name; VKeyHash := 0; VKey := key |}.
Definition demo_note : Note :=
  [{| SigName := "log.example"; SigHash := 0; SigBase64 := "" |};
   {| SigName := "w1"; SigHash := 0; SigBase64 := "100" |};
   {| SigName := "w3"; SigHash := 0; SigBase64 := "90" |}].
Definition demo_log_entries : list string := ["a"; "b"; "c"].
Definition demo_checkpoint : Checkpoint :=
  {| CpOrigin := "log.example"; CpSize := 3; CpHash := @merkleRoot rfc6962_tlog demo_log_entries |}.
Definition demo_check_record (p : list string) (n : Z) (root : string) (i : Z) (leaf : string) : bool :=
  (0 <=? i) && (i <? n) &&
  match @run_proof rfc6962_tlog (Z.to_nat n) (Z.to_nat i) (Z.to_nat n) leaf (rev p) with
  | Some (r, _) => str_eqb r root
  | None => false
  end.
Definition demo_notes : NoteLib :=
  {| NewVerifier := demo_verifier;
     NewVerifierForCosignatureV1 := demo_verifier;
     CoSigV1Timestamp sig := n ← parse_uint 63 (SigBase64 sig); Some (unix_time (Z.of_N n));
     ParseCheckpoint _ origin _ _ :=
       if str_eqb origin "log.example" then Ok (demo_checkpoint, demo_note)
       else Err (PlainError "unknown origin");
     UnmarshalProof _ :=
       Ok {| PfIndex := 1; PfCheckpoint := "cp";
             PfHashes := [@RecordHash rfc6962_tlog "a"; @RecordHash rfc6962_tlog "c"] |};
     CheckRecord := demo_check_record |}.

Lemma demo_notes_spec : @NoteSpec rfc6962_tlog demo_notes.
Proof.
  constructor. intros p n root i leaf H. cbn [CheckRecord demo_notes] in H. unfold demo_check_record in H.
  apply andb_true_iff in H as [H Hr]. go_bool. split; [lia|].
  destruct (run_proof _ _ _ _ _) as [[r ps]|]; [|discriminate Hr].
  apply str_eqb_eq in Hr as ->. by exists ps.
Qed.

Definition demo_url : NetURL :=
  {| url_Parse s := rest ← strip_prefix "https://" s;
       Some {| Scheme := "https"; User := false; Host := rest; EscapedPath := ""; Fragment := ""; RawFragment := "" |} |}.
Definition demo_ref : Reference :=
  {| Scope := "public"; LogPrefix := "https://log.example"; StreamID := "s" |}.

Definition demo_policy_text : string :=
  String.concat (String newline "")
    ["log log.example+0+AQID"; "witness w1 w1+0+BAQE"; "witness w2 w2+0+BAQF # spare";
     "witness w3 w3+0+BAQG"; "group g 2 w1 w2 w3"; "quorum g"; ""].
Definition demo_now (k : nat) : time := unix_time 120.
Definition demo_policy : Policy :=
  match @ParsePolicy demo_notes demo_now demo_policy_text with
  | Ok p => p
  | Err _ => {| LogVerifier := None; WitnessVerifiers := []; WitnessQuorum := 0; CheckpointTime := None;
                Now := demo_now; MaxCheckpointAge := 0; ClockSkew := 0; quorumRule := None;
                trustedPublicKeys := []; skipProofVerify := false |}
  end.

Lemma demo_policy_parses : @ParsePolicy demo_notes demo_now demo_policy_text = Ok demo_policy.
Proof. vm_compute. reflexivity. Qed.

Lemma parse_policy_coherent_witness :
  exists log q, LogVerifier demo_policy = Some log /\ quorumRule demo_policy = Some q /\
    WitnessQuorum demo_policy = Z.of_nat (minimumSignatures q) /\ CheckpointTime demo_policy = None /\
    skipProofVerify demo_policy = false /\
    ((q = RuleNone /\ WitnessQuorum demo_policy = 0) \/
     (rule_wf q /\ rule_verifiers q ⊆ WitnessVerifiers demo_policy /\ 1 <= WitnessQuorum demo_policy)).
Proof. exact (@parse_policy_coherent demo_notes _ _ _ demo_policy_parses). Defined.

Definition demo_rule : checkpointQuorumRule := default RuleNone (quorumRule demo_policy).
Definition demo_proof : VerifiedProof :=
  match @VerifyProof demo_notes demo_url rfc6962_tlog demo_policy demo_ref "b" "proof" with
  | Ok v => v | Err _ => zero_proof end.

Lemma demo_verifies :
  @VerifyProof demo_notes demo_url rfc6962_tlog demo_policy demo_ref "b" "proof" = Ok demo_proof.
Proof. vm_compute. reflexivity. Qed.

Definition demo_verified : VerifiedProof :=
  match @verifyCheckpoint demo_notes demo_url rfc6962_tlog demo_policy demo_ref "cp" with
  | Ok v => v | Err _ => zero_proof end.

Lemma demo_checkpoint_verifies :
  @verifyCheckpoint demo_notes demo_url rfc6962_tlog demo_policy demo_ref "cp" = Ok demo_verified.
Proof. vm_compute. reflexivity. Qed.

Lemma verify_checkpoint_sound_witness :
  exists log origin cp n ts,
    LogVerifier demo_policy = Some log /\ @ref_Origin demo_url demo_ref = Ok origin /\
    @ParseCheckpoint demo_notes "cp" origin log (WitnessVerifiers demo_policy) = Ok (cp, n) /\
    VCheckpoint demo_verified = Some cp /\ CheckpointNote demo_verified = n /\
    CpSize cp <= MaxInt64 /\ String.length (CpHash cp) = 32%nat /\
    (CpSize cp = 0 -> CpHash cp = @merkleRoot rfc6962_tlog []) /\
    satisfied (@witness_time demo_notes n) demo_rule = true /\
    @evaluate demo_notes demo_rule n = Some ts /\
    (Scope demo_ref = "public" -> 1 <= WitnessQuorum demo_policy) /\
    (ts = [] -> CheckpointWitnessTime demo_verified = 0) /\
    (ts <> [] -> CheckpointWitnessTime demo_verified ∈ ts /\
      Forall (fun t => CheckpointWitnessTime demo_verified <= t) ts) /\
    (forall i t, ts !! i = Some t -> t <= Now demo_policy i + Z.max 0 (ClockSkew demo_policy)) /\
    (0 < MaxCheckpointAge demo_policy -> CheckpointWitnessTime demo_verified <> 0 /\
      time_sub (Now demo_policy (length ts)) (CheckpointWitnessTime demo_verified)
        <= MaxCheckpointAge demo_policy).
Proof.
  apply (@verify_checkpoint_sound demo_notes demo_url rfc6962_tlog demo_policy demo_ref "cp"
    demo_verified demo_rule demo_checkpoint_verifies); vm_compute; reflexivity.
Defined.

Lemma verify_proof_inclusion_witness :
  0 <= Index demo_proof < CpSize demo_checkpoint /\
  (demo_log_entries !! Z.to_nat (Index demo_proof) = Some "b" \/
   (exists other, demo_log_entries !! Z.to_nat (Index demo_proof) = Some other /\ other <> "b" /\
      @RecordHash rfc6962_tlog other = @RecordHash rfc6962_tlog "b") \/
   exists pf ps,
      @UnmarshalProof demo_notes "proof" = Ok pf /\
      @run_proof rfc6962_tlog (length demo_log_entries) (Z.to_nat (Index demo_proof))
        (length demo_log_entries) (@RecordHash rfc6962_tlog "b") (rev (PfHashes pf))
        = Some (CpHash demo_checkpoint, ps) /\
      @pairs_collide rfc6962_tlog
        (@node_pairs rfc6962_tlog (@RecordHash rfc6962_tlog <$> demo_log_entries)) ps).
Proof.
  apply (@verify_proof_inclusion demo_notes demo_url rfc6962_tlog demo_notes_spec rfc6962_spec
    demo_policy demo_ref "b" "proof" demo_proof demo_checkpoint demo_log_entries).
  - vm_compute. reflexivity.
  - exact demo_verifies.
  - vm_compute. reflexivity.
  - reflexivity.
  - reflexivity.
Defined.
