(* ===== verification/Checkpoint.v ===== *)
(** * Checkpoint: trusted checkpoints and how they advance

    checkpoint_store.go: the in-memory store, the consistency evidence a
    source can give, and [advanceTrustedCheckpoint], which loads the trusted
    checkpoint, verifies that the candidate extends it and publishes it with a
    compare-and-swap, retrying when another writer was faster. Clients share
    the store: the system of clients is a step relation whose atomic steps are
    the locked store operations and the local checks. *)

From Stdlib Require Import ZArith Lia Ascii String.
From S2P Require Import Prelude Codec Merkle Evidence Policy.

Open Scope string_scope.
Open Scope list_scope.
Open Scope Z_scope.

(** ** The in-memory store *)
Abbreviation checkpoints := (gmap string TrustedC2spCheckpoint).

(** What a context says at the points where it is asked. *)
Definition context : Type := nat -> option error.

Definition ctx_Err (ctx : context) (k : nat) : res unit :=
  match ctx k with Some e => Err e | None => Ok tt end.

(** [proof.VerifyConsistency] of transparency-dev/merkle. *)
Class ConsistencyLib := {
  VerifyConsistency : Z -> Z -> list string -> string -> string -> bool
}.

Section store.
Context {T : TLog}.

(** Acquiring the lock: an uninitialized store or a done context fails. *)
Definition lock (s : option checkpoints) (ctx : context) (k : nat) : res checkpoints :=
  match s with
  | None => Err (checkpointStoreError "dnsid: uninitialized trusted c2sp checkpoint store")
  | Some m => _ ← ctx_Err ctx k; Ok m
  end.

Definition LoadContext (s : option checkpoints) (ctx : context) (k : nat) (origin : string)
    : res (option TrustedC2spCheckpoint) :=
  fail_if is_empty origin with ArgumentError "dnsid: checkpoint origin is required" ;;
  m ← lock s ctx k;
  match m !! origin with
  | None => Ok None
  | Some checkpoint =>
      match validateTrustedCheckpoint origin checkpoint with
      | Err e => Err (WithCause (checkpointStoreError "dnsid: invalid stored c2sp checkpoint") e)
      | Ok _ => Ok (Some checkpoint)
      end
  end.

(** The swap and the new store; [k] and [k + 1] are the two context checks. *)
Definition CompareAndSwapContext (s : option checkpoints) (ctx : context) (k : nat) (origin : string)
    (expected : option TrustedC2spCheckpoint) (candidate : TrustedC2spCheckpoint)
    : res bool * option checkpoints :=
  match validateTrustedCheckpoint origin candidate with
  | Err e => (Err e, s)
  | Ok _ =>
      match (match expected with Some x => validateTrustedCheckpoint origin x | None => Ok tt end) with
      | Err e => (Err e, s)
      | Ok _ =>
          match lock s ctx k with
          | Err e => (Err e, s)
          | Ok m =>
              let current := m !! origin in
              match (match current with Some x => validateTrustedCheckpoint origin x | None => Ok tt end) with
              | Err e => (Err (WithCause (checkpointStoreError "dnsid: invalid stored c2sp checkpoint") e), s)
              | Ok _ =>
                  let matches :=
                    match expected, current with
                    | None, None => true
                    | Some x, Some c => trustedCheckpointsEqual c x
                    | _, _ => false
                    end in
                  if negb matches then (Ok false, s)
                  else match ctx_Err ctx (S k) with
                       | Err e => (Err e, s)
                       | Ok _ => (Ok true, Some (<[origin := candidate]> m))
                       end
              end
          end
      end
  end.
End store.

(** ** Consistency evidence *)
(** A source with its optional capabilities; the scan retained by the
    verification context is the origin and the entries of a complete scan. *)
Record EvidenceSource := {
  scan : option (string * list string);
  FetchConsistencyProof : option (Z -> Z -> res (list string));
  tile_source : option (TrustedC2spCheckpoint -> TrustedC2spCheckpoint -> res unit);
  FetchEntriesThrough : option (Z -> res (list string))
}.

Definition ErrConsistencyUnavailable : error :=
  PlainError "dnsid: c2sp-tlog consistency evidence unavailable".
Definition is_unavailable (e : error) : bool := bool_decide (ErrConsistencyUnavailable ∈ error_chain e).

Section evidence.
Context {T : TLog} {C : ConsistencyLib}.

Definition verifyScanRoots (entries : list string) (old next : TrustedC2spCheckpoint) : res unit :=
  fail_if negb (Z.of_nat (length entries) =? TreeSize next)
    with VerificationError VerificationCodeInvalidEvidence false "dnsid: incomplete candidate checkpoint scan" ;;
  fail_if negb (str_eqb (merkleRoot entries) (RootHash next))
    with VerificationError VerificationCodeInvalidEvidence false
      "dnsid: complete scan does not match candidate checkpoint root" ;;
  fail_if Z.of_nat (length entries) <? TreeSize old
    with PlainError "panic: slice bounds out of range" ;;
  fail_if negb (str_eqb (merkleRoot (take (Z.to_nat (TreeSize old)) entries)) (RootHash old))
    with checkpointAdvanceError CheckpointAdvanceConsistencyFailed old next ;;
  Ok tt.

Definition verifyExplicitConsistency (fetch : Z -> Z -> res (list string))
    (old next : TrustedC2spCheckpoint) : res unit :=
  match fetch (TreeSize old) (TreeSize next) with
  | Err e =>
      if is_unavailable e
      then Err (WithCause (checkpointAdvanceError CheckpointAdvanceConsistencyUnavailable old next) e)
      else Err (logVerificationError (WithCause (PlainError "dnsid: fetching c2sp-tlog consistency proof") e) true)
  | Ok hashes =>
      fail_if negb (VerifyConsistency (TreeSize old) (TreeSize next) hashes (RootHash old) (RootHash next))
        with checkpointAdvanceError CheckpointAdvanceConsistencyFailed old next ;;
      Ok tt
  end.

Definition verifyScanConsistency (fetch : Z -> res (list string))
    (old next : TrustedC2spCheckpoint) : res unit :=
  match fetch (TreeSize next) with
  | Err e =>
      if is_unavailable e
      then Err (WithCause (checkpointAdvanceError CheckpointAdvanceConsistencyUnavailable old next) e)
      else Err (logVerificationError (WithCause (PlainError "dnsid: fetching complete c2sp-tlog scan") e) true)
  | Ok entries => verifyScanRoots entries old next
  end.

Definition verifyCheckpointConsistency (c : EvidenceSource) (old next : TrustedC2spCheckpoint) : res unit :=
  if TreeSize old =? 0 then Ok tt
  else
    match scan c with
    | Some (origin, entries) =>
        if str_eqb origin (Origin next) && (TreeSize next <=? Z.of_nat (length entries))
        then verifyScanRoots (take (Z.to_nat (TreeSize next)) entries) old next
        else
          match FetchConsistencyProof c, tile_source c, FetchEntriesThrough c with
          | Some f, _, _ => verifyExplicitConsistency f old next
          | None, Some f, _ => f old next
          | None, None, Some f => verifyScanConsistency f old next
          | None, None, None => Err (checkpointAdvanceError CheckpointAdvanceConsistencyUnavailable old next)
          end
    | None =>
        match FetchConsistencyProof c, tile_source c, FetchEntriesThrough c with
        | Some f, _, _ => verifyExplicitConsistency f old next
        | None, Some f, _ => f old next
        | None, None, Some f => verifyScanConsistency f old next
        | None, None, None => Err (checkpointAdvanceError CheckpointAdvanceConsistencyUnavailable old next)
        end
    end.

(** [fetchedStreamBundleSource.verifyTileConsistency]: what the fallback of a
    bundle source can do; a required bundle disables the full scan. *)
Definition bundle_tile_source (fallback : EvidenceSource) (requireBundle : bool)
    (old next : TrustedC2spCheckpoint) : res unit :=
  match FetchConsistencyProof fallback, tile_source fallback, FetchEntriesThrough fallback with
  | Some f, _, _ => verifyExplicitConsistency f old next
  | None, Some f, _ => f old next
  | None, None, Some f =>
      if negb requireBundle then verifyScanConsistency f old next
      else Err (WithCause (checkpointAdvanceError CheckpointAdvanceConsistencyUnavailable old next)
                  ErrConsistencyUnavailable)
  | None, None, None =>
      Err (WithCause (checkpointAdvanceError CheckpointAdvanceConsistencyUnavailable old next)
             ErrConsistencyUnavailable)
  end.

(** ** Advancing a trusted checkpoint *)
(** Where a client is in the loop of [advanceTrustedCheckpoint]. *)
Inductive adv_pc :=
| AtLoad
| AtCheck (trusted : option TrustedC2spCheckpoint)
| AtSwap (trusted : option TrustedC2spCheckpoint)
| Returned (r : res unit).

(** What the environment answers in one step: the context, the evidence. *)
Record adv_env := { adv_ctx : context; adv_source : EvidenceSource }.

Definition store_error (msg : string) (e : error) : error := WithCause (checkpointStoreError msg) e.

(** [if err := ctx.Err(); err != nil { return err }], then [pc]. *)
Definition unless_done (ctx : context) (k : nat) (pc : adv_pc) : adv_pc :=
  match ctx k with Some e => Returned (Err e) | None => pc end.

(** The steps: the load under the lock, the local checks, the swap under the
    lock. The candidate has been validated and cloned before the loop. *)
Definition adv_load (env : adv_env) (s : option checkpoints) (candidate : TrustedC2spCheckpoint) : adv_pc :=
  match adv_ctx env 0%nat with
  | Some e => Returned (Err e)
  | None =>
      match LoadContext s (adv_ctx env) 1 (Origin candidate) with
      | Err e =>
          match adv_ctx env 2%nat with
          | Some d => if bool_decide (d ∈ error_chain e) then Returned (Err e)
                      else Returned (Err (store_error "dnsid: loading trusted c2sp checkpoint" e))
          | None => Returned (Err (store_error "dnsid: loading trusted c2sp checkpoint" e))
          end
      | Ok trusted => unless_done (adv_ctx env) 2 (AtCheck trusted)
      end
  end.

Definition adv_check (env : adv_env) (trusted : option TrustedC2spCheckpoint)
    (candidate : TrustedC2spCheckpoint) : adv_pc :=
  match trusted with
  | None => unless_done (adv_ctx env) 3 (AtSwap None)
  | Some t =>
      match validateTrustedCheckpoint (Origin candidate) t with
      | Err e => Returned (Err (store_error "dnsid: invalid stored c2sp checkpoint" e))
      | Ok _ =>
          if TreeSize candidate <? TreeSize t
          then Returned (Err (checkpointAdvanceError CheckpointAdvanceRollback t candidate))
          else if TreeSize candidate =? TreeSize t then
            if negb (str_eqb (RootHash candidate) (RootHash t))
            then Returned (Err (checkpointAdvanceError CheckpointAdvanceRootConflict t candidate))
            else Returned (Ok tt)
          else
            match verifyCheckpointConsistency (adv_source env) t candidate with
            | Err e => Returned (Err e)
            | Ok _ => unless_done (adv_ctx env) 3 (AtSwap trusted)
            end
      end
  end.

Definition adv_swap (env : adv_env) (s : option checkpoints) (trusted : option TrustedC2spCheckpoint)
    (candidate : TrustedC2spCheckpoint) : adv_pc * option checkpoints :=
  match CompareAndSwapContext s (adv_ctx env) 4 (Origin candidate) trusted candidate with
  | (Err e, s') =>
      (Returned (Err (store_error
         "dnsid: advancing trusted c2sp checkpoint; reconcile stored state before recovery" e)), s')
  | (Ok true, s') => (Returned (Ok tt), s')
  | (Ok false, s') => (AtLoad, s')
  end.

Definition adv_step (env : adv_env) (s : option checkpoints) (candidate : TrustedC2spCheckpoint)
    (pc : adv_pc) : adv_pc * option checkpoints :=
  match pc with
  | AtLoad => (adv_load env s candidate, s)
  | AtCheck trusted => (adv_check env trusted candidate, s)
  | AtSwap trusted => adv_swap env s trusted candidate
  | Returned r => (Returned r, s)
  end.

(** The first lines of [advanceTrustedCheckpoint]: an invalid candidate. *)
Definition adv_start (candidate : TrustedC2spCheckpoint) : adv_pc :=
  match validateTrustedCheckpoint (Origin candidate) candidate with
  | Err e => Returned (Err (WithCause (VerificationError VerificationCodeInvalidEvidence false
      "dnsid: invalid accepted c2sp checkpoint tuple") e))
  | Ok _ => AtLoad
  end.

(** The whole loop without other writers: three steps are enough. *)
Definition advanceTrustedCheckpoint (env : adv_env) (s : option checkpoints)
    (candidate : TrustedC2spCheckpoint) : adv_pc * option checkpoints :=
  let '(pc, s) := adv_step env s candidate (adv_start candidate) in
  let '(pc, s) := adv_step env s candidate pc in
  adv_step env s candidate pc.

Definition checkpoint_candidate (v : VerifiedProof) : option TrustedC2spCheckpoint :=
  cp ← VCheckpoint v;
  Some {| Origin := CpOrigin cp; TreeSize := CpSize cp; RootHash := CpHash cp;
          WitnessTime := CheckpointWitnessTime v |}.

Fixpoint advance_each (env : adv_env) (s : option checkpoints) (vs : list VerifiedProof)
    : res unit * option checkpoints :=
  match vs with
  | [] => (Ok tt, s)
  | v :: vs =>
      match checkpoint_candidate v with
      | None => (Err (PlainError "panic: nil pointer dereference"), s)
      | Some candidate =>
          match advanceTrustedCheckpoint env s candidate with
          | (Returned (Ok _), s') => advance_each env s' vs
          | (Returned (Err e), s') => (Err e, s')
          | (_, s') => (Err (PlainError "not finished"), s')
          end
      end
  end.

(** A client without a store ([configured = false]) accepts everything. *)
Definition advanceTrustedCheckpoints (configured : bool) (env : adv_env) (s : option checkpoints)
    (vs : list VerifiedProof) : res unit * option checkpoints :=
  if negb configured then (Ok tt, s) else advance_each env s vs.

(** ** Clients that share a store *)
Record client := { candidate : TrustedC2spCheckpoint; pc : adv_pc }.
Record system := { shared : option checkpoints; clients : list client }.

(** What happens: a client, as it was, does one step with the answers it
    gets; or a new client starts. *)
Inductive moment :=
| Stepped (i : nat) (c : client) (env : adv_env)
| Joined (cand : TrustedC2spCheckpoint).

Inductive sys_step : moment -> system -> system -> Prop :=
| sys_client s cs i c env pc' s' :
    cs !! i = Some c -> adv_step env s (candidate c) (pc c) = (pc', s') ->
    sys_step (Stepped i c env) {| shared := s; clients := cs |}
             {| shared := s'; clients := <[i := {| candidate := candidate c; pc := pc' |}]> cs |}
| sys_new s cs cand :
    sys_step (Joined cand) {| shared := s; clients := cs |}
             {| shared := s; clients := cs ++ [{| candidate := cand; pc := adv_start cand |}] |}.

(** A run with its trace. *)
Inductive sys_run : list moment -> system -> system -> Prop :=
| sys_done y : sys_run [] y y
| sys_more tr l y1 y2 y3 : sys_run tr y1 y2 -> sys_step l y2 y3 -> sys_run (tr ++ [l]) y1 y3.
End evidence.

(** ** Lemmas *)
Section invariant.
Context {T : TLog} {C : ConsistencyLib}.
Implicit Types (m : checkpoints) (a b t : TrustedC2spCheckpoint).

Definition valid origin c : Prop := validateTrustedCheckpoint origin c = Ok tt.

Lemma valid_origin origin c : valid origin c -> Origin c = origin.
Proof.
  unfold valid, validateTrustedCheckpoint. intros H.
  destruct (str_eqb (Origin c) origin) eqn:E; [by apply str_eqb_eq in E|].
  by rewrite orb_true_r in H.
Qed.

Lemma validate_ok origin c u : validateTrustedCheckpoint origin c = Ok u -> valid origin c.
Proof. by destruct u. Qed.

Lemma trustedCheckpointsEqual_eq a b : trustedCheckpointsEqual a b = true <-> a = b.
Proof.
  unfold trustedCheckpointsEqual. rewrite !andb_true_iff, !str_eqb_eq, !Z.eqb_eq.
  destruct a, b; cbn. naive_solver.
Qed.

Definition store_valid (s : option checkpoints) : Prop :=
  forall m origin c, s = Some m -> m !! origin = Some c -> valid origin c.

Section traced.
Variable tr : list moment.

(** In the trace, a client with candidate [b] that had loaded [a] checked it
    against the evidence of its own source, which showed that [b] extends [a]. *)
Definition verified a b : Prop := exists i c env,
  Stepped i c env ∈ tr /\ candidate c = b /\ pc c = AtCheck (Some a) /\
  verifyCheckpointConsistency (adv_source env) a b = Ok tt.
Definition advance a b : Prop := TreeSize a < TreeSize b /\ verified a b.
(** [b] was reached from [a] by verified advances. *)
Definition extends : relation TrustedC2spCheckpoint := rtc advance.

Lemma extends_size a b : extends a b -> a = b \/ TreeSize a < TreeSize b.
Proof. induction 1 as [|a b c [Hab _] _ [->|IH]]; [by left|right; lia|right; lia]. Qed.

(** The stored checkpoints of [s'] extend those of [s]. *)
Definition store_extends (s s' : option checkpoints) : Prop :=
  forall m origin c, s = Some m -> m !! origin = Some c ->
    exists m' c', s' = Some m' /\ m' !! origin = Some c' /\ extends c c'.

Lemma store_extends_refl s : store_extends s s.
Proof. intros m origin c -> H. exists m, c. split_and!; [done|done|apply rtc_refl]. Qed.

Lemma store_extends_trans s1 s2 s3 : store_extends s1 s2 -> store_extends s2 s3 -> store_extends s1 s3.
Proof.
  intros H12 H23 m origin c E Hc. destruct (H12 m origin c E Hc) as (m2 & c2 & E2 & Hc2 & He).
  destruct (H23 m2 origin c2 E2 Hc2) as (m3 & c3 & E3 & Hc3 & He').
  exists m3, c3. split_and!; [done|done|by etrans].
Qed.

(** The store holds an extension of [t]. *)
Definition holds (s : option checkpoints) origin t : Prop :=
  exists m c, s = Some m /\ m !! origin = Some c /\ extends t c.

Lemma holds_extends s s' origin t : store_extends s s' -> holds s origin t -> holds s' origin t.
Proof.
  intros Hs (m & c & E & Hc & He). destruct (Hs m origin c E Hc) as (m' & c' & E' & Hc' & He').
  exists m', c'. split_and!; [done|done|by etrans].
Qed.

(** What is known of a client at each point of its loop. *)
Definition client_inv (s : option checkpoints) (c : client) : Prop :=
  let cand := candidate c in
  match pc c with
  | AtLoad => valid (Origin cand) cand
  | AtCheck None | AtSwap None => valid (Origin cand) cand
  | AtCheck (Some t) => valid (Origin cand) cand /\ holds s (Origin cand) t
  | AtSwap (Some t) => valid (Origin cand) cand /\ holds s (Origin cand) t /\ advance t cand
  | Returned (Ok _) =>
      exists t, holds s (Origin cand) t /\ TreeSize t = TreeSize cand /\ RootHash t = RootHash cand
  | Returned (Err _) => True
  end.

Lemma client_inv_extends s s' c : store_extends s s' -> client_inv s c -> client_inv s' c.
Proof.
  intros Hs. unfold client_inv. pose proof (holds_extends s s' (Origin (candidate c))) as Hh.
  destruct (pc c) as [|[t|]|[t|]|[[]|]]; try done.
  - intros [? ?]. auto.
  - intros (? & ? & ?). auto.
  - intros (t & ? & ? & ?). exists t. auto.
Qed.

Lemma LoadContext_ok s ctx k origin r :
  LoadContext s ctx k origin = Ok r -> exists m, s = Some m /\ m !! origin = r.
Proof.
  unfold LoadContext, lock, mbind, res_bind. destruct (is_empty origin); [done|].
  destruct s as [m|]; [|done]. destruct (ctx_Err ctx k); [|done].
  destruct (m !! origin) as [c|] eqn:E; [|intros [= <-]; eauto].
  destruct (validateTrustedCheckpoint origin c); [|done]. intros [= <-]. eauto.
Qed.

Lemma unless_done_cases ctx k p p' :
  unless_done ctx k p = p' -> p' = p \/ exists e, p' = Returned (Err e).
Proof. unfold unless_done. destruct (ctx k); intros <-; eauto. Qed.

Lemma adv_load_inv env s cand pc' :
  adv_load env s cand = pc' -> valid (Origin cand) cand -> client_inv s {| candidate := cand; pc := pc' |}.
Proof.
  unfold adv_load. intros H Hv. destruct (adv_ctx env 0%nat); [by subst|].
  destruct (LoadContext s (adv_ctx env) 1 (Origin cand)) as [trusted|e] eqn:El.
  - apply LoadContext_ok in El as (m & -> & Hm).
    apply unless_done_cases in H as [->|[e ->]]; [|done].
    unfold client_inv. cbn. destruct trusted as [t|]; [|done]. split; [done|].
    exists m, t. split_and!; [done|done|apply rtc_refl].
  - destruct (adv_ctx env 2%nat); [destruct (bool_decide _)|]; by subst.
Qed.

Lemma adv_check_inv i env s trusted cand pc' :
  adv_check env trusted cand = pc' -> Stepped i {| candidate := cand; pc := AtCheck trusted |} env ∈ tr ->
  client_inv s {| candidate := cand; pc := AtCheck trusted |} ->
  client_inv s {| candidate := cand; pc := pc' |}.
Proof.
  unfold adv_check, client_inv. cbn. intros H Htr Hi. destruct trusted as [t|].
  2:{ apply unless_done_cases in H as [->|[e ->]]; done. }
  destruct Hi as [Hv Hh]. destruct (validateTrustedCheckpoint (Origin cand) t); [|by subst].
  destruct (Z.ltb_spec (TreeSize cand) (TreeSize t)) as [|Hge]; [by subst|].
  destruct (Z.eqb_spec (TreeSize cand) (TreeSize t)) as [Heq|Hne].
  - destruct (str_eqb (RootHash cand) (RootHash t)) eqn:Er; subst pc'; [|done]. cbn.
    apply str_eqb_eq in Er. by exists t.
  - destruct (verifyCheckpointConsistency (adv_source env) t cand) as [[]|] eqn:Ev; [|by subst].
    apply unless_done_cases in H as [->|[e ->]]; [|done]. split_and!; [done|done|].
    split; [lia|]. by exists i, {| candidate := cand; pc := AtCheck (Some t) |}, env.
Qed.

Lemma CompareAndSwap_cases s ctx k origin expected cand r s' :
  CompareAndSwapContext s ctx k origin expected cand = (r, s') ->
  s' = s /\ r <> Ok true \/
  exists m, s = Some m /\ m !! origin = expected /\ r = Ok true /\ s' = Some (<[origin := cand]> m).
Proof.
  unfold CompareAndSwapContext. destruct (validateTrustedCheckpoint origin cand); [|intros [= <- <-]; by left].
  destruct (match expected with Some _ => _ | None => _ end); [|intros [= <- <-]; by left].
  unfold lock, mbind, res_bind. destruct s as [m|]; [|intros [= <- <-]; by left].
  destruct (ctx_Err ctx k); [|intros [= <- <-]; by left].
  destruct (match m !! origin with Some _ => _ | None => _ end); [|intros [= <- <-]; by left].
  destruct expected as [x|], (m !! origin) as [c|] eqn:Em; try (intros [= <- <-]; by left).
  - destruct (trustedCheckpointsEqual c x) eqn:E; [|intros [= <- <-]; by left].
    apply trustedCheckpointsEqual_eq in E as ->. cbn [negb].
    destruct (ctx_Err ctx (S k)); intros [= <- <-]; [right; eauto 10|by left].
  - cbn [negb]. destruct (ctx_Err ctx (S k)); intros [= <- <-]; [right; eauto 10|by left].
Qed.

Lemma adv_swap_inv env s trusted cand pc' s' :
  adv_swap env s trusted cand = (pc', s') -> store_valid s ->
  client_inv s {| candidate := cand; pc := AtSwap trusted |} ->
  client_inv s' {| candidate := cand; pc := pc' |} /\ store_extends s s' /\ store_valid s'.
Proof.
  unfold adv_swap. intros H Hsv Hi.
  assert (Hcv : valid (Origin cand) cand) by (unfold client_inv in Hi; cbn in Hi; destruct trusted; tauto).
  destruct (CompareAndSwapContext _ _ _ _ _ _) as [r s1] eqn:Ecas.
  destruct (CompareAndSwap_cases _ _ _ _ _ _ _ _ Ecas) as [[-> Hr]|(m & -> & Hm & -> & ->)].
  - destruct r as [[]|e]; [done| |]; injection H as <- <-;
      (split_and!; [first [exact Hcv|exact I]|apply store_extends_refl|exact Hsv]).
  - injection H as <- <-. unfold client_inv in Hi. cbn in Hi. cbn. split_and!.
    + exists cand. split_and!; [|done|done]. exists (<[Origin cand := cand]> m), cand.
      split_and!; [done|apply lookup_insert_eq|apply rtc_refl].
    + intros m0 origin c [= <-] Hc. destruct (decide (origin = Origin cand)) as [->|Hne].
      * rewrite Hc in Hm. subst trusted. destruct Hi as (_ & _ & Hadv).
        exists (<[Origin cand := cand]> m), cand.
        split_and!; [done|apply lookup_insert_eq|by apply rtc_once].
      * exists (<[Origin cand := cand]> m), c. rewrite lookup_insert_ne by done.
        split_and!; [done|done|apply rtc_refl].
    + intros m0 origin c [= <-] Hc. destruct (decide (origin = Origin cand)) as [->|Hne].
      * rewrite lookup_insert_eq in Hc. by injection Hc as <-.
      * rewrite lookup_insert_ne in Hc by done. by eapply Hsv.
Qed.

Lemma adv_step_inv i env s c pc' s' :
  adv_step env s (candidate c) (pc c) = (pc', s') -> Stepped i c env ∈ tr -> store_valid s -> client_inv s c ->
  client_inv s' {| candidate := candidate c; pc := pc' |} /\ store_extends s s' /\ store_valid s'.
Proof.
  destruct c as [cand p]. cbn. intros H Htr Hsv Hi. destruct p as [|trusted|trusted|r]; cbn in H.
  - injection H as H <-. split_and!; [by eapply adv_load_inv|apply store_extends_refl|done].
  - injection H as H <-. split_and!; [by eapply adv_check_inv|apply store_extends_refl|done].
  - by eapply adv_swap_inv.
  - injection H as <- <-. split_and!; [done|apply store_extends_refl|done].
Qed.

Lemma adv_start_inv s cand : client_inv s {| candidate := cand; pc := adv_start cand |}.
Proof.
  unfold adv_start, client_inv. cbn. by destruct (validateTrustedCheckpoint (Origin cand) cand) as [[]|] eqn:E.
Qed.

Definition sys_inv (y : system) : Prop :=
  store_valid (shared y) /\ Forall (client_inv (shared y)) (clients y).

End traced.

(** What a trace shows, a longer one shows too. *)
Lemma advance_longer tr tr' a b : advance tr a b -> advance (tr ++ tr') a b.
Proof.
  intros (? & i & c & env & Hin & Hc). split; [done|]. exists i, c, env. split; [|done]. apply elem_of_app. by left.
Qed.
Lemma extends_longer tr tr' a b : extends tr a b -> extends (tr ++ tr') a b.
Proof. apply rtc_subrel, advance_longer. Qed.
Lemma store_extends_longer tr tr' s s' : store_extends tr s s' -> store_extends (tr ++ tr') s s'.
Proof.
  intros H m origin c E Hc. destruct (H m origin c E Hc) as (m' & c' & E' & Hc' & He). exists m', c'. eauto using extends_longer.
Qed.
Lemma holds_longer tr tr' s origin t : holds tr s origin t -> holds (tr ++ tr') s origin t.
Proof. intros (m & c & E & Hc & He). exists m, c. eauto using extends_longer. Qed.
Lemma client_inv_longer tr tr' s c : client_inv tr s c -> client_inv (tr ++ tr') s c.
Proof.
  unfold client_inv. destruct (pc c) as [|[t|]|[t|]|[[]|]]; try done.
  - intros [? ?]. eauto using holds_longer.
  - intros (? & ? & ?). eauto using holds_longer, advance_longer.
  - intros (t & ? & ?). exists t. eauto using holds_longer.
Qed.

Lemma sys_step_inv tr l y y' :
  sys_step l y y' -> sys_inv tr y -> sys_inv (tr ++ [l]) y' /\ store_extends (tr ++ [l]) (shared y) (shared y').
Proof.
  intros H [Hsv Hc]. eapply Forall_impl in Hc; [|intros x; apply (client_inv_longer tr [l])].
  assert (l ∈ tr ++ [l]) as Hl by (rewrite elem_of_app, list_elem_of_singleton; by right).
  destruct H as [s cs i c env pc' s' Hi Hstep|s cs cand]; unfold sys_inv; cbn in *.
  - rewrite Forall_lookup in Hc.
    destruct (adv_step_inv _ _ _ _ _ _ _ Hstep Hl Hsv (Hc i c Hi)) as (Hci & He & Hsv').
    split_and!; [done| |done]. apply Forall_lookup. intros j d Hd.
    destruct (decide (j = i)) as [->|Hne].
    + rewrite list_lookup_insert_eq in Hd by (by eapply lookup_lt_Some). by injection Hd as <-.
    + rewrite list_lookup_insert_ne in Hd by done. eapply client_inv_extends; eauto.
  - split_and!; [done| |apply store_extends_refl]. apply Forall_app. split; [done|].
    constructor; [apply adv_start_inv|done].
Qed.
End invariant.

(** ** The theorems *)
Section theorems.
Context {T : TLog} {C : ConsistencyLib}.

Lemma sys_reach_inv tr0 tr y y' :
  sys_run tr y y' -> sys_inv tr0 y -> sys_inv (tr0 ++ tr) y' /\ store_extends (tr0 ++ tr) (shared y) (shared y').
Proof.
  induction 1 as [y|tr l y1 y2 y3 _ IH H]; intros Hi; [rewrite app_nil_r; split; [done|apply store_extends_refl]|].
  destruct (IH Hi) as [Hi2 He]. rewrite app_assoc. destruct (sys_step_inv _ _ _ _ H Hi2) as [? ?].
  split; [done|]. eapply store_extends_trans; [by apply store_extends_longer|done].
Qed.

Lemma sys_initial_inv s : store_valid s -> sys_inv [] {| shared := s; clients := [] |}.
Proof. intros H. split; [done|constructor]. Qed.

(** C32: whatever the interleaving of any number of clients, and whatever the
    contexts and the sources of evidence answer, trusted history is append
    only: between any two states of a run the checkpoint of an origin is
    replaced only by a chain of strictly larger checkpoints, each of them the
    candidate of a client of this run that had loaded the one before and to
    which its own source, in this run, gave the evidence that the candidate
    extends it; a size never has two checkpoints; and a client that returned success has its candidate's size
    and root in the history of the store. *)
Theorem trusted_history_append_only s tr tr' y y' :
  store_valid s -> sys_run tr {| shared := s; clients := [] |} y -> sys_run tr' y y' ->
  (forall m origin c, shared y = Some m -> m !! origin = Some c ->
    exists m' c', shared y' = Some m' /\ m' !! origin = Some c' /\ extends (tr ++ tr') c c' /\
      TreeSize c <= TreeSize c' /\ (TreeSize c' = TreeSize c -> c' = c)) /\
  (forall i c, clients y' !! i = Some c -> pc c = Returned (Ok tt) ->
    exists t, holds (tr ++ tr') (shared y') (Origin (candidate c)) t /\
      TreeSize t = TreeSize (candidate c) /\ RootHash t = RootHash (candidate c)).
Proof.
  intros Hs H1 H2. destruct (sys_reach_inv _ _ _ _ H1 (sys_initial_inv s Hs)) as [Hi _]. cbn [app] in Hi.
  destruct (sys_reach_inv _ _ _ _ H2 Hi) as [[_ Hc] He]. split.
  - intros m origin c Hm Hl. destruct (He m origin c Hm Hl) as (m' & c' & ? & ? & Hext).
    exists m', c'. destruct (extends_size _ _ _ Hext) as [->|Hlt]; split_and!; try done; lia.
  - intros i c Hi' Hpc. rewrite Forall_lookup in Hc. specialize (Hc i c Hi').
    unfold client_inv in Hc. by rewrite Hpc in Hc.
Qed.

(** A compare-and-swap that fails and sends a client back to the load
    lost to real progress: the store is unchanged by it and now holds, for the
    origin, a checkpoint strictly larger than the one the client had loaded
    (or one where there was none). As sizes fit an int64 the loop ends. *)
Theorem retry_means_progress s0 tr y i c env trusted s' :
  store_valid s0 -> sys_run tr {| shared := s0; clients := [] |} y ->
  clients y !! i = Some c -> pc c = AtSwap trusted ->
  adv_step env (shared y) (candidate c) (pc c) = (AtLoad, s') ->
  s' = shared y /\
  exists m now, shared y = Some m /\ m !! Origin (candidate c) = Some now /\
    TreeSize now <= MaxInt64 /\
    match trusted with Some t => TreeSize t < TreeSize now | None => True end.
Proof.
  intros Hs H1 Hi Hpc Hstep. destruct (sys_reach_inv _ _ _ _ H1 (sys_initial_inv s0 Hs)) as [[Hsv Hc] _].
  rewrite Forall_lookup in Hc. specialize (Hc i c Hi). unfold client_inv in Hc. rewrite Hpc in Hc, Hstep.
  cbn in Hstep. unfold adv_swap in Hstep.
  destruct (CompareAndSwapContext _ _ _ _ _ _) as [r s1] eqn:Ecas. pose proof Ecas as Hcas.
  destruct r as [[]|e]; try discriminate Hstep. injection Hstep as <-.
  apply CompareAndSwap_cases in Hcas as [[-> _]|(? & _ & _ & [=] & _)]. split; [done|].
  assert (Hsize : forall m o x, shared y = Some m -> m !! o = Some x -> TreeSize x <= MaxInt64).
  { intros m o x Em Hx. specialize (Hsv m o x Em Hx). unfold valid, validateTrustedCheckpoint in Hsv.
    destruct (Z.ltb_spec MaxInt64 (TreeSize x)); [|done]. rewrite !orb_true_r in Hsv. discriminate Hsv. }
  unfold CompareAndSwapContext, lock, mbind, res_bind in Ecas.
  destruct (validateTrustedCheckpoint _ (candidate c)); [|discriminate Ecas].
  destruct (match trusted with Some _ => _ | None => _ end); [|discriminate Ecas].
  destruct (shared y) as [m|] eqn:Em; [|discriminate Ecas]. exists m.
  destruct (ctx_Err (adv_ctx env) 4); [|discriminate Ecas].
  destruct trusted as [t|].
  - destruct Hc as (_ & (m' & now & [= <-] & Hnow & Hext) & _). exists now.
    split_and!; [done|done|by eapply Hsize|]. rewrite Hnow in Ecas.
    destruct (validateTrustedCheckpoint _ now); [|discriminate Ecas].
    destruct (trustedCheckpointsEqual now t) eqn:E; cbn [negb] in Ecas.
    + destruct (ctx_Err (adv_ctx env) 5); discriminate Ecas.
    + destruct (extends_size _ _ _ Hext) as [->|]; [|done].
      rewrite (proj2 (trustedCheckpointsEqual_eq now now) eq_refl) in E. done.
  - destruct (m !! Origin (candidate c)) as [now|] eqn:Hnow.
    + exists now. split_and!; [done|done|by eapply Hsize|done].
    + cbn [negb] in Ecas. destruct (ctx_Err (adv_ctx env) 5); discriminate Ecas.
Qed.

(** Without contention and cancellation [advanceTrustedCheckpoint]
    returns after one pass, with exactly this outcome: the first checkpoint of
    an origin is trusted on first use; a smaller candidate is a rollback, one
    of equal size with another root a conflict, with the same root a success
    without a write; a larger one is stored exactly when the evidence shows
    that it extends the trusted one. Every failure leaves the store as it was. *)
Theorem advance_alone env m cand :
  (forall k, adv_ctx env k = None) -> store_valid (Some m) -> valid (Origin cand) cand ->
  Origin cand <> "" ->
  advanceTrustedCheckpoint env (Some m) cand =
    match m !! Origin cand with
    | None => (Returned (Ok tt), Some (<[Origin cand := cand]> m))
    | Some t =>
        if TreeSize cand <? TreeSize t
        then (Returned (Err (checkpointAdvanceError CheckpointAdvanceRollback t cand)), Some m)
        else if TreeSize cand =? TreeSize t then
          if str_eqb (RootHash cand) (RootHash t) then (Returned (Ok tt), Some m)
          else (Returned (Err (checkpointAdvanceError CheckpointAdvanceRootConflict t cand)), Some m)
        else match verifyCheckpointConsistency (adv_source env) t cand with
             | Ok _ => (Returned (Ok tt), Some (<[Origin cand := cand]> m))
             | Err e => (Returned (Err e), Some m)
             end
    end.
Proof.
  intros Hctx Hs Hv Hne. unfold advanceTrustedCheckpoint, adv_start.
  unfold valid in Hv. rewrite Hv. cbn [adv_step].
  assert (Hload : adv_load env (Some m) cand = AtCheck (m !! Origin cand)).
  { unfold adv_load, LoadContext, lock, ctx_Err, unless_done, mbind, res_bind. rewrite !Hctx.
    rewrite (proj2 (is_empty_false _)) by done.
    destruct (m !! Origin cand) as [t|] eqn:Et; [|done].
    pose proof (Hs m _ t eq_refl Et) as Ht. unfold valid in Ht. by rewrite Ht. }
  rewrite Hload. cbn [adv_step]. unfold adv_check, unless_done. rewrite !Hctx.
  assert (Hswap : adv_swap env (Some m) (m !! Origin cand) cand =
    (Returned (Ok tt), Some (<[Origin cand := cand]> m))).
  { unfold adv_swap, CompareAndSwapContext, lock, ctx_Err, mbind, res_bind. rewrite Hv, !Hctx.
    destruct (m !! Origin cand) as [t|] eqn:Et; [|done].
    pose proof (Hs m _ t eq_refl Et) as Ht. unfold valid in Ht. rewrite Ht.
    by rewrite (proj2 (trustedCheckpointsEqual_eq t t) eq_refl). }
  destruct (m !! Origin cand) as [t|] eqn:Et; [|exact Hswap].
  pose proof (Hs m _ t eq_refl Et) as Ht. unfold valid in Ht. rewrite Ht.
  destruct (TreeSize cand <? TreeSize t); [done|].
  destruct (TreeSize cand =? TreeSize t); [by destruct (str_eqb _ _)|].
  destruct (verifyCheckpointConsistency _ t cand); [exact Hswap|done].
Qed.

(** [verifyScanRoots] accepts exactly the entries that are the log of the
    candidate and whose prefix is the log of the trusted checkpoint. *)
Theorem verify_scan_roots_spec entries old next :
  verifyScanRoots entries old next = Ok tt <->
  Z.of_nat (length entries) = TreeSize next /\ merkleRoot entries = RootHash next /\
  TreeSize old <= TreeSize next /\
  merkleRoot (take (Z.to_nat (TreeSize old)) entries) = RootHash old.
Proof.
  unfold verifyScanRoots. destruct (Z.eqb_spec (Z.of_nat (length entries)) (TreeSize next)) as [E|E];
    cbn [negb]; [|naive_solver].
  destruct (str_eqb (merkleRoot entries) (RootHash next)) eqn:E1; cbn [negb];
    [apply str_eqb_eq in E1|apply str_eqb_neq in E1; naive_solver].
  destruct (Z.ltb_spec (Z.of_nat (length entries)) (TreeSize old)); [split; [done|lia]|].
  destruct (str_eqb (merkleRoot (take _ _)) (RootHash old)) eqn:E2; cbn [negb];
    [apply str_eqb_eq in E2|apply str_eqb_neq in E2]; split; intros; try done; try tauto.
  split_and!; try done; lia.
Qed.
End theorems.

(** ** Concrete runs for the witnesses *)
Section runs.
Context {T : TLog} {C : ConsistencyLib}.

Definition run_client (env : adv_env) (i : nat) (y : system) : system :=
  match clients y !! i with
  | Some c =>
      let '(p, s') := adv_step env (shared y) (candidate c) (pc c) in
      {| shared := s'; clients := <[i := {| candidate := candidate c; pc := p |}]> (clients y) |}
  | None => y
  end.
Definition add_client (cand : TrustedC2spCheckpoint) (y : system) : system :=
  {| shared := shared y; clients := clients y ++ [{| candidate := cand; pc := adv_start cand |}] |}.

(** Some run leads from [y0] to [y]. *)
Definition reached y0 y : Prop := exists tr, sys_run tr y0 y.

Lemma run_client_reached env i y0 y : reached y0 y -> reached y0 (run_client env i y).
Proof.
  intros [tr H]. unfold run_client. destruct (clients y !! i) as [c|] eqn:E; [|by exists tr].
  destruct (adv_step env (shared y) (candidate c) (pc c)) as [p s'] eqn:Es.
  eexists. eapply sys_more; [exact H|]. destruct y. by eapply sys_client.
Qed.

Lemma add_client_reached cand y0 y : reached y0 y -> reached y0 (add_client cand y).
Proof. intros [tr H]. eexists. eapply sys_more; [exact H|]. destruct y. apply sys_new. Qed.

Lemma start_reached y0 : reached y0 y0.
Proof. exists []. apply sys_done. Qed.

Lemma store_valid_empty : store_valid (Some ∅).
Proof. intros m origin c [= <-] H. by rewrite lookup_empty in H. Qed.
End runs.

Definition demo_lib : ConsistencyLib := {| VerifyConsistency _ _ _ _ _ := false |}.
Definition demo_source : EvidenceSource :=
  {| scan := Some ("o", demo_log_entries); FetchConsistencyProof := None; tile_source := None;
     FetchEntriesThrough := None |}.
Definition demo_env : adv_env := {| adv_ctx _ := None; adv_source := demo_source |}.
Definition demo_small : TrustedC2spCheckpoint :=
  {| Origin := "o"; TreeSize := 2; RootHash := @merkleRoot rfc6962_tlog (take 2 demo_log_entries);
     WitnessTime := unix_time 10 |}.
Definition demo_large : TrustedC2spCheckpoint :=
  {| Origin := "o"; TreeSize := 3; RootHash := @merkleRoot rfc6962_tlog demo_log_entries;
     WitnessTime := unix_time 20 |}.
Definition demo_run1 : system :=
  @run_client rfc6962_tlog demo_lib demo_env 0 (@run_client rfc6962_tlog demo_lib demo_env 0
    (@run_client rfc6962_tlog demo_lib demo_env 0
      (@add_client rfc6962_tlog demo_small {| shared := Some ∅; clients := [] |}))).
(** A second client loads before the first one swaps. *)
Definition demo_run2 : system :=
  let step i y := @run_client rfc6962_tlog demo_lib demo_env i y in
  step 0%nat (step 1%nat (step 1%nat (step 0%nat (step 0%nat
    (@add_client rfc6962_tlog demo_large
      (@add_client rfc6962_tlog demo_small {| shared := Some ∅; clients := [] |})))))).

(** A client that trusts its first checkpoint, and another that replaces it
    with a larger one, by a scan. *)
Definition demo_run3 : system :=
  @run_client rfc6962_tlog demo_lib demo_env 1 (@run_client rfc6962_tlog demo_lib demo_env 1
    (@run_client rfc6962_tlog demo_lib demo_env 1 (@add_client rfc6962_tlog demo_large demo_run1))).

Lemma demo_run1_reached : @reached rfc6962_tlog demo_lib {| shared := Some ∅; clients := [] |} demo_run1.
Proof. unfold demo_run1. do 3 apply run_client_reached. apply add_client_reached, start_reached. Qed.
Lemma demo_run3_continues : @reached rfc6962_tlog demo_lib demo_run1 demo_run3.
Proof. unfold demo_run3. do 3 apply run_client_reached. apply add_client_reached, start_reached. Qed.

Lemma trusted_history_append_only_witness : exists tr,
  demo_small <> demo_large /\ shared demo_run1 = Some {["o" := demo_small]} /\ shared demo_run3 = Some {["o" := demo_large]} /\
  @extends rfc6962_tlog demo_lib tr demo_small demo_large.
Proof.
  destruct demo_run1_reached as [tr1 H1]. destruct demo_run3_continues as [tr3 H3].
  destruct (proj1 (@trusted_history_append_only rfc6962_tlog demo_lib (Some ∅) tr1 tr3 demo_run1 demo_run3 store_valid_empty H1 H3)
    {["o" := demo_small]} "o" demo_small) as (m' & c' & Em & Ec & He & _); [by vm_compute|by vm_compute|].
  exists (tr1 ++ tr3). split; [by intros [=]|]. split; [by vm_compute|]. split; [by vm_compute|].
  assert (shared demo_run3 = Some {["o" := demo_large]}) as E by by vm_compute. rewrite E in Em. injection Em as <-.
  rewrite lookup_singleton_eq in Ec. injection Ec as <-. exact He.
Defined.

Lemma retry_means_progress_witness :
  shared demo_run2 = shared demo_run2 /\
  exists m now, shared demo_run2 = Some m /\ m !! "o" = Some now /\ TreeSize now <= MaxInt64 /\ True.
Proof.
  assert (@reached rfc6962_tlog demo_lib {| shared := Some ∅; clients := [] |} demo_run2) as [tr H].
  { unfold demo_run2. do 5 apply run_client_reached. do 2 apply add_client_reached. apply start_reached. }
  apply (@retry_means_progress rfc6962_tlog demo_lib (Some ∅) tr demo_run2 1
    {| candidate := demo_large; pc := AtSwap None |} demo_env None (shared demo_run2)).
  - apply store_valid_empty.
  - exact H.
  - vm_compute. reflexivity.
  - reflexivity.
  - vm_compute. reflexivity.
Defined.

Lemma demo_store_valid : @store_valid rfc6962_tlog (Some {["o" := demo_small]}).
Proof.
  intros m origin c [= <-] H. apply lookup_singleton_Some in H as [<- <-]. vm_compute. reflexivity.
Qed.

Lemma advance_alone_witness :
  @advanceTrustedCheckpoint rfc6962_tlog demo_lib demo_env (Some {["o" := demo_small]}) demo_large =
  (Returned (Ok tt), Some {["o" := demo_large]}).
Proof.
  rewrite (@advance_alone rfc6962_tlog demo_lib demo_env {["o" := demo_small]} demo_large).
  - vm_compute. reflexivity.
  - reflexivity.
  - exact demo_store_valid.
  - vm_compute. reflexivity.
  - discriminate.
Defined.
