(* ===== verification/Scan.v ===== *)
(** * Scan: the complete-log scan of scan_source.go

    [scan] downloads a checkpoint, every entry bundle and every level-zero
    tile, and authenticates the entries against the checkpoint root;
    [provenEntry] derives the inclusion proof of an entry from the levels of
    the tree. The fetcher and the clock are those of class [World]. *)

From Stdlib Require Import ZArith Lia Ascii String.
From S2P Require Import Prelude Codec Merkle Evidence Reference Policy Checkpoint.

Open Scope string_scope.
Open Scope list_scope.
Open Scope Z_scope.

Definition entriesPerC2spBundle : Z := 256.
Definition defaultScanMaxTreeSize : Z := 1000000.
Definition defaultScanMaxCheckpointBytes : Z := Z.shiftl 1 20.
Definition defaultScanMaxBundleBytes : Z := entriesPerC2spBundle * (2 + maxEntrySize).
Definition defaultScanMaxTotalEntryBytes : Z := Z.shiftl 256 20.

(** The limits of a [ScanSource]; its fetcher is in [World]. *)
Record ScanSource := {
  policy : Policy;
  maxTreeSize : Z;
  maxCheckpointBytes : Z;
  maxEntryBundleBytes : Z;
  maxTotalEntryBytes : Z
}.
(** [ScanSourceConfig]: whether a fetcher and an HTTP client or transport are
    given, and the limits, 0 for the defaults. *)
Record ScanSourceConfig := {
  has_fetcher : bool;
  has_http : bool;
  MaxTreeSize : Z;
  MaxCheckpointBytes : Z;
  MaxEntryBundleBytes : Z;
  MaxTotalEntryBytes : Z
}.

Definition configuredScanLimit (value fallback : Z) : Z := if value =? 0 then fallback else value.

Definition NewScanSource (p : Policy) (config : ScanSourceConfig) : res ScanSource :=
  fail_if bool_decide (LogVerifier p = None)
    with PlainError "dnsid: c2sp-tlog scan policy missing log verifier" ;;
  fail_if has_fetcher config && has_http config
    with PlainError "dnsid: c2sp-tlog resource fetcher is mutually exclusive with HTTP client and transport" ;;
  let tree := if MaxTreeSize config =? 0 then defaultScanMaxTreeSize else MaxTreeSize config in
  let checkpoint := configuredScanLimit (MaxCheckpointBytes config) defaultScanMaxCheckpointBytes in
  let bundle := configuredScanLimit (MaxEntryBundleBytes config) defaultScanMaxBundleBytes in
  let total := configuredScanLimit (MaxTotalEntryBytes config) defaultScanMaxTotalEntryBytes in
  fail_if (checkpoint <? 1) || (bundle <? 1) || (total <? 1)
    with PlainError "dnsid: c2sp-tlog scan byte limits must be positive" ;;
  fail_if defaultScanMaxBundleBytes <? bundle
    with PlainError "dnsid: c2sp-tlog entry bundle byte limit exceeds fixed maximum" ;;
  Ok {| policy := p; maxTreeSize := tree; maxCheckpointBytes := checkpoint;
        maxEntryBundleBytes := bundle; maxTotalEntryBytes := total |}.

(** [completeScan]. *)
Record completeScan := {
  scan_checkpoint : string;
  scan_verified : VerifiedProof;
  scan_entries : list string;
  scan_levels : list (list string)
}.

Section scan.
Context {T : TLog} {N : NoteLib} {U : NetURL} {W : World}.

(** [ScanSource.fetch] at a given reading of the clock. *)
Definition scan_fetch (now : nat) (rawURL : string) (maximum : Z) : res string :=
  match fetchBounded now rawURL maximum with
  | Ok data => Ok data
  | Err e => Err (logVerificationError e true)
  end.

Definition bundle_width (treeSize : Z) (have : nat) : Z :=
  Z.min entriesPerC2spBundle (treeSize - Z.of_nat have).

Definition bundle_suffix (bundle width : Z) : string :=
  if width <? entriesPerC2spBundle
  then String.append (tileNumber bundle) (String.append ".p/" (format_uint (Z.to_N width)))
  else tileNumber bundle.

(** The tile must hold the leaf hashes of the bundle, in order. *)
Fixpoint tile_matches (tile : string) (decoded : list string) : bool :=
  match decoded with
  | [] => true
  | entry :: decoded =>
      str_eqb (str_take 32 tile) (RecordHash entry) && tile_matches (str_drop 32 tile) decoded
  end.

(** [for bundle := 0; len(entries) < treeSize; bundle++]. A bundle that is
    accepted is not empty, so the tree size is enough fuel. *)
Fixpoint scan_loop (fuel : nat) (s : ScanSource) (prefix : string) (treeSize : Z) (now : nat)
    (bundle : Z) (total : Z) (entries : list string) : res (list string) :=
  if Z.of_nat (length entries) <? treeSize then
    match fuel with
    | O => Err (PlainError "out of fuel")
    | S fuel =>
        let width := bundle_width treeSize (length entries) in
        let suffix := bundle_suffix bundle width in
        bundleBytes ← scan_fetch now (String.append prefix (String.append "/tile/entries/" suffix))
          (maxEntryBundleBytes s);
        let total := total + Z.of_nat (String.length bundleBytes) in
        fail_if maxTotalEntryBytes s <? total
          with PlainError "dnsid: c2sp-tlog entry bundles exceed configured total byte maximum" ;;
        decoded ← parseEntryBundle bundleBytes;
        fail_if negb (Z.of_nat (length decoded) =? width)
          with PlainError "dnsid: c2sp-tlog entry bundle width" ;;
        tile ← scan_fetch (S now) (String.append prefix (String.append "/tile/0/" suffix)) (width * 32);
        fail_if negb (Z.of_nat (String.length tile) =? width * 32)
          with PlainError "dnsid: c2sp-tlog level-zero tile length" ;;
        fail_if negb (tile_matches tile decoded)
          with PlainError "dnsid: c2sp-tlog entry bundle does not match level-zero tile" ;;
        scan_loop fuel s prefix treeSize (S (S now)) (bundle + 1) total (entries ++ decoded)
    end
  else Ok entries.

(** An error without a verification code becomes invalid evidence. *)
Definition classify_scan {A} (r : res A) : res A :=
  match r with
  | Ok a => Ok a
  | Err e =>
      match errors_as as_verification e with
      | Some _ => Err e
      | None => Err (WithCause (VerificationError VerificationCodeInvalidEvidence false
                  "dnsid: invalid complete c2sp-tlog scan") e)
      end
  end.

Definition scan_source (s : ScanSource) (reference : Reference) (now : nat) : res completeScan :=
  _ ← ref_Validate reference;
  classify_scan (
    checkpoint ← scan_fetch now (String.append (LogPrefix reference) "/checkpoint") (maxCheckpointBytes s);
    verified ← verifyCheckpoint (policy s) reference checkpoint;
    match VCheckpoint verified with
    | None => Err (PlainError "panic: nil pointer dereference")
    | Some cp =>
        fail_if maxTreeSize s <? CpSize cp
          with PlainError "dnsid: c2sp-tlog checkpoint tree size exceeds configured maximum" ;;
        fail_if max_int64 <? CpSize cp
          with PlainError "dnsid: c2sp-tlog checkpoint tree size exceeds int range" ;;
        entries ← scan_loop (Z.to_nat (CpSize cp)) s (LogPrefix reference) (CpSize cp) (S now) 0 0 [];
        let levels := merkleLevels entries in
        match levels_root levels with
        | None => Err (PlainError "panic: index out of range")
        | Some root =>
            fail_if negb (str_eqb root (CpHash cp))
              with PlainError "dnsid: complete c2sp-tlog scan does not match checkpoint root" ;;
            Ok {| scan_checkpoint := checkpoint; scan_verified := verified;
                  scan_entries := entries; scan_levels := levels |}
        end
    end).

Definition scan_fetch_entries_through (s : ScanSource) (reference : Reference) (treeSize : Z) (now : nat)
    : res (list string) :=
  scan ← scan_source s reference now;
  fail_if Z.of_nat (length (scan_entries scan)) <? treeSize
    with VerificationError VerificationCodeInvalidEvidence false
      "dnsid: c2sp-tlog scan does not cover requested candidate prefix" ;;
  Ok (take (Z.to_nat treeSize) (scan_entries scan)).

(** The proof hashes of [provenEntry]: the sibling at every level below the
    root, where there is one. *)
Fixpoint proof_hashes (position : nat) (levels : list (list string)) : list string :=
  match levels with
  | [] | [_] => []
  | level :: rest =>
      (if (position mod 2 =? 1)%nat then option_list (level !! (position - 1)%nat)
       else option_list (level !! (position + 1)%nat))
      ++ proof_hashes (position / 2)%nat rest
  end.

(** [provenEntry]: the index, the entry and the proof, before the proof is
    marshalled by transparency-dev/formats. *)
Definition provenEntry (s : completeScan) (index : nat) : option (nat * string * TLogProof) :=
  entry ← scan_entries s !! index;
  Some (index, entry, {| PfIndex := Z.of_nat index; PfHashes := proof_hashes index (scan_levels s);
                         PfCheckpoint := scan_checkpoint s |}).
End scan.

(** ** Inclusion paths

    [path hs i p]: [p] is the audit path of leaf [i] of the tree over [hs],
    from the leaf to the root (RFC 6962, section 2.1.1). *)
Section paths.
Context {T : TLog}.
Open Scope nat_scope.

Inductive path : list string -> nat -> list string -> Prop :=
| path_leaf h : path [h] 0 []
| path_left k xs ys i p r pr :
    length xs = 2 ^ k -> length ys <= 2 ^ k -> tree ys r pr -> path xs i p ->
    path (xs ++ ys) i (p ++ [r])
| path_right k xs ys i p l pl :
    length xs = 2 ^ k -> length ys <= 2 ^ k -> tree xs l pl -> path ys i p ->
    path (xs ++ ys) (2 ^ k + i) (p ++ [l]).

Lemma path_index hs i p : path hs i p -> i < length hs.
Proof. induction 1; rewrite ?length_app; cbn; lia. Qed.

Lemma split_point_eq k n : 2 ^ k < n -> n <= 2 ^ k * 2 -> split_point n = 2 ^ k.
Proof.
  intros H1 H2. assert (2 <= n) by (pose proof (Nat.pow_nonzero 2 k); lia).
  destruct (split_point_spec n) as (j & -> & ? & ?); [done|]. f_equal. by apply (pow2_between _ _ n).
Qed.

(** The path of a leaf is accepted and leads to the root. *)
Lemma run_proof_path hs i p :
  path hs i p -> forall leaf r ps fuel, hs !! i = Some leaf -> tree hs r ps -> length hs <= fuel ->
  exists qs, run_proof fuel i (length hs) leaf (rev p) = Some (r, qs).
Proof.
  induction 1 as [h|k xs ys i p r pr Hx Hy Hr Hp IH|k xs ys i p l pl Hx Hy Hl Hp IH];
    intros leaf rt ps fuel Hleaf Ht Hfuel.
  - destruct fuel as [|fuel]; [cbn in Hfuel; lia|]. cbn. injection Hleaf as <-.
    apply tree_root in Ht as [-> _]. eauto.
  - pose proof (tree_length _ _ _ Hr). pose proof (path_index _ _ _ Hp).
    rewrite length_app in *. assert (Hsp : split_point (length xs + length ys) = 2 ^ k) by (apply split_point_eq; lia).
    destruct fuel as [|fuel]; [lia|]. cbn [run_proof].
    destruct (Nat.eqb_spec (length xs + length ys) 1); [lia|]. rewrite rev_app_distr. cbn [rev app].
    rewrite Hsp, <- Hx. destruct (Nat.ltb_spec i (length xs)); [|lia].
    destruct (tree_split (xs ++ ys) rt ps Ht) as (l' & r' & pl' & pr' & Hl' & Hr' & -> & _); [rewrite length_app; lia|].
    rewrite length_app, Hsp, <- Hx, take_app_length in Hl'.
    rewrite length_app, Hsp, <- Hx, drop_app_length in Hr'.
    rewrite lookup_app_l in Hleaf by done.
    destruct (IH leaf l' pl' fuel Hleaf Hl') as [qs ->]; [lia|].
    destruct (tree_fun _ _ _ Hr _ _ Hr') as [-> _]. eauto.
  - pose proof (tree_length _ _ _ Hl). pose proof (path_index _ _ _ Hp).
    rewrite length_app in *. assert (Hsp : split_point (length xs + length ys) = 2 ^ k) by (apply split_point_eq; lia).
    destruct fuel as [|fuel]; [lia|]. cbn [run_proof].
    destruct (Nat.eqb_spec (length xs + length ys) 1); [lia|]. rewrite rev_app_distr. cbn [rev app].
    rewrite Hsp, <- Hx. destruct (Nat.ltb_spec (length xs + i) (length xs)); [lia|].
    replace (length xs + i - length xs) with i by lia.
    replace (length xs + length ys - length xs) with (length ys) by lia.
    destruct (tree_split (xs ++ ys) rt ps Ht) as (l' & r' & pl' & pr' & Hl' & Hr' & -> & _); [rewrite length_app; lia|].
    rewrite length_app, Hsp, <- Hx, take_app_length in Hl'.
    rewrite length_app, Hsp, <- Hx, drop_app_length in Hr'.
    rewrite <- Hx in Hleaf. rewrite lookup_app_r in Hleaf by lia.
    replace (length xs + i - length xs) with i in Hleaf by lia.
    destruct (IH leaf r' pr' fuel Hleaf Hr') as [qs ->]; [lia|].
    destruct (tree_fun _ _ _ Hl _ _ Hl') as [-> _]. eauto.
Qed.

Lemma path_concat k hs j p :
  path hs j p -> forall bs pss b i q,
  full_blocks k bs -> Forall3 tree bs hs pss -> bs !! j = Some b -> path b i q ->
  path (concat bs) (2 ^ k * j + i) (q ++ p).
Proof.
  induction 1 as [h|K xs ys j p r pr Hx Hy Hr Hp IH|K xs ys j p l pl Hx Hy Hl Hp IH];
    intros bs pss b i q Hfull Hbs Hb Hq.
  - inversion Hbs as [|b' ? ? bs' ? ? ? Hnil]; subst. inversion Hnil; subst. injection Hb as ->.
    cbn [concat]. rewrite !app_nil_r, Nat.mul_0_r. exact Hq.
  - apply Forall3_app_inv_m in Hbs as (bs1 & bs2 & ps1 & ps2 & -> & -> & H1 & H2).
    assert (Hne : bs2 <> []).
    { intros ->. inversion H2; subst. by apply tree_length in Hr; cbn in Hr; lia. }
    destruct (full_blocks_app k bs1 bs2 Hfull Hne) as (Hf1 & Hf2 & Hlen).
    pose proof (Forall3_length_lm _ _ _ _ H1) as Hl1. pose proof (Forall3_length_lm _ _ _ _ H2) as Hl2.
    pose proof (full_blocks_length k bs2 Hf2) as Hle. pose proof (path_index _ _ _ Hp).
    destruct (tree_concat k bs2 ys ps2 r pr Hf2 H2 Hr) as (pr' & Hr' & _).
    rewrite lookup_app_l in Hb by lia. rewrite concat_app, app_assoc.
    apply (path_left (K + k) _ _ _ _ r pr'); [| |done|by eapply IH].
    + rewrite Hlen, Hl1, Hx, Nat.pow_add_r. done.
    + rewrite Nat.pow_add_r. etrans; [exact Hle|]. apply Nat.mul_le_mono_r. lia.
  - apply Forall3_app_inv_m in Hbs as (bs1 & bs2 & ps1 & ps2 & -> & -> & H1 & H2).
    pose proof (path_index _ _ _ Hp).
    assert (Hne : bs2 <> []).
    { intros ->. inversion H2; subst. cbn in *. lia. }
    destruct (full_blocks_app k bs1 bs2 Hfull Hne) as (Hf1 & Hf2 & Hlen).
    pose proof (Forall3_length_lm _ _ _ _ H1) as Hl1. pose proof (Forall3_length_lm _ _ _ _ H2) as Hl2.
    pose proof (full_blocks_length k bs2 Hf2) as Hle.
    destruct (tree_concat k bs1 xs ps1 l pl Hf1 H1 Hl) as (pl' & Hl' & _).
    rewrite lookup_app_r in Hb by lia. replace (2 ^ K + j - length bs1) with j in Hb by lia.
    rewrite concat_app, app_assoc.
    replace (2 ^ k * (2 ^ K + j) + i) with (2 ^ (K + k) + (2 ^ k * j + i)) by (rewrite Nat.pow_add_r; lia).
    apply (path_right (K + k) _ _ _ _ l pl'); [| |done|by eapply IH].
    + rewrite Hlen, Hl1, Hx, Nat.pow_add_r. done.
    + rewrite Nat.pow_add_r. etrans; [exact Hle|]. apply Nat.mul_le_mono_r. lia.
Qed.

(** The pairs of neighbours that one level of [merkleLevels] hashes. *)
Fixpoint neighbours (level : list string) : list (list string) :=
  match level with
  | a :: b :: rest => [a; b] :: neighbours rest
  | [a] => [[a]]
  | [] => []
  end.

Context {TS : TLogSpec T}.

Lemma neighbours_spec n level :
  length level <= n ->
  concat (neighbours level) = level /\ full_blocks 1 (neighbours level) /\
  (exists pss, Forall3 tree (neighbours level) (next_level level) pss) /\
  forall pos, pos < length level -> exists b,
    neighbours level !! (pos / 2) = Some b /\
    path b (pos mod 2) (if pos mod 2 =? 1 then option_list (level !! (pos - 1))
                        else option_list (level !! (pos + 1))).
Proof.
  revert level. induction n as [|n IH]; intros [|a [|b level]] Hn; cbn [length] in *; try lia.
  - split_and!; [done|by intros [|??] ?? [=]|by exists []; constructor|lia].
  - split_and!; [done|by intros [|??] ?? [=]|by exists []; constructor|lia].
  - split_and!; [done| |by exists [[]]; repeat constructor|].
    + intros [|? [|??]] ?? [=]; subst. cbn. split; [lia|done].
    + intros pos Hpos. assert (pos = 0) as -> by lia. exists [a]. split; [done|constructor].
  - destruct (IH level) as (Hc & Hf & (pss & Hb) & Hp); [lia|]. cbn [neighbours next_level]. split_and!.
    + cbn. by rewrite Hc.
    + intros [|c cs] d ds [= <- E]; subst; [cbn; split; lia|]. by apply (Hf cs d ds).
    + exists ([(a, b)] :: pss). constructor; [|done]. rewrite <- NodeHash_spec.
      apply (tree_node 0 [a] [b] a b [] []); [done|cbn; lia|constructor|constructor].
    + intros [|[|pos]] Hpos.
      * exists [a; b]. split; [done|]. apply (path_left 0 [a] [b] 0 [] b []); [done|cbn; lia|constructor|constructor].
      * exists [a; b]. split; [done|]. apply (path_right 0 [a] [b] 0 [] a []); [done|cbn; lia|constructor|constructor].
      * destruct (Hp pos) as (d & Hd & Hpath); [lia|].
        replace (S (S pos)) with (1 * 2 + pos) by lia. rewrite Nat.div_add_l by lia.
        rewrite (Nat.add_comm (1 * 2)), Nat.Div0.mod_add. exists d. split; [exact Hd|].
        destruct (pos mod 2 =? 1) eqn:E.
        { apply Nat.eqb_eq in E. replace (pos + 1 * 2 - 1) with (S (S (pos - 1))); [exact Hpath|].
          destruct pos; [done|lia]. }
        { by replace (pos + 1 * 2 + 1) with (S (S (pos + 1))) by lia. }
Qed.

Lemma levels_path fuel level pos :
  length level <= S fuel -> pos < length level ->
  path level pos (proof_hashes pos (level :: levels_loop fuel level)).
Proof.
  revert level pos. induction fuel as [|fuel IH]; intros level pos Hf Hpos.
  - destruct level as [|h [|]]; cbn [length] in *; try lia. assert (pos = 0) as -> by lia. constructor.
  - cbn [levels_loop]. destruct (Nat.ltb_spec 1 (length level)) as [Hlt|Hge].
    2:{ destruct level as [|h [|]]; cbn [length] in *; try lia. assert (pos = 0) as -> by lia. constructor. }
    destruct (neighbours_spec (length level) level) as (Hc & Hfull & (pss & Hb) & Hp); [done|].
    destruct (Hp pos Hpos) as (b & Hbp & Hpath).
    destruct (next_level_length (length level) level) as [Hl Hn]; [done|].
    assert (Hnl : length (next_level level) = length (neighbours level)) by (by apply Forall3_length_lm in Hb).
    assert (Hpos2 : pos / 2 < length (next_level level)) by (rewrite Hnl; by eapply lookup_lt_Some).
    assert (Hrec := IH (next_level level) (pos / 2)).
    assert (S (length level) / 2 < length level) by (apply Nat.Div0.div_lt_upper_bound; lia).
    specialize (Hrec ltac:(lia) Hpos2).
    pose proof (path_concat 1 _ _ _ Hrec _ _ _ _ _ Hfull Hb Hbp Hpath) as H'.
    rewrite Hc in H'. replace (2 ^ 1 * (pos / 2) + pos mod 2) with pos in H'
      by (pose proof (Nat.div_mod_eq pos 2); cbn [Nat.pow]; lia).
    cbn [proof_hashes]. exact H'.
Qed.
End paths.

(** ** What a scan has authenticated *)
#[local] Opaque sha256 merkleRoot.
Section scans.
Context {T : TLog} {N : NoteLib} {U : NetURL} {W : World}.

Definition entry_bytes (es : list string) : Z :=
  foldr (fun e acc => 2 + Z.of_nat (String.length e) + acc) 0 es.

Lemma entry_bytes_app es es' : entry_bytes (es ++ es') = entry_bytes es + entry_bytes es'.
Proof. induction es as [|e es IH]; cbn; [done|]. unfold entry_bytes in *. lia. Qed.

Lemma entry_bundle_length es : Z.of_nat (String.length (entry_bundle es)) = entry_bytes es.
Proof.
  induction es as [|e es IH]; [done|]. cbn [entry_bundle entry_bytes foldr].
  rewrite append_length. cbn [bundle_entry String.length]. unfold entry_bytes in *. lia.
Qed.

Lemma tile_matches_spec tile es :
  tile_matches tile es = true -> forall i e, es !! i = Some e -> str_take 32 (str_drop (32 * i) tile) = RecordHash e.
Proof.
  revert tile. induction es as [|e es IH]; intros tile H i e' Hi; [done|].
  cbn [tile_matches] in H. apply andb_true_iff in H as [H1%str_eqb_eq H2]. destruct i as [|i].
  - injection Hi as <-. exact H1.
  - rewrite <- (IH _ H2 i e' Hi). f_equal.
    rewrite str_drop_drop. f_equal. lia.
Qed.

Lemma scan_loop_ok fuel s prefix treeSize now bundle total entries es :
  scan_loop fuel s prefix treeSize now bundle total entries = Ok es ->
  Z.of_nat (length entries) <= treeSize ->
  entry_bytes entries = total -> (total <= maxTotalEntryBytes s \/ entries = []) ->
  Forall (fun e => Z.of_nat (String.length e) < 65536) entries ->
  Z.of_nat (length es) = treeSize /\ Forall (fun e => Z.of_nat (String.length e) < 65536) es /\
  (entry_bytes es <= maxTotalEntryBytes s \/ es = []) /\ exists more, es = entries ++ more.
Proof.
  revert now bundle total entries. induction fuel as [|fuel IH]; intros now bundle total entries H Hle Htot Hmax Hf;
    cbn [scan_loop] in H;
    (destruct (Z.ltb_spec (Z.of_nat (length entries)) treeSize) as [Hlt|Hge];
     [|injection H as <-; split_and!; [lia|done|by rewrite Htot|exists []; by rewrite app_nil_r]]); [done|].
  unfold mbind, res_bind in H. destruct (scan_fetch now _ _) as [bytes|]; [|done].
  destruct (Z.ltb_spec (maxTotalEntryBytes s) (total + Z.of_nat (String.length bytes))) as [|Hm]; [done|].
  destruct (parseEntryBundle bytes) as [decoded|] eqn:Ep; [|done].
  destruct (Z.eqb_spec (Z.of_nat (length decoded)) (bundle_width treeSize (length entries))) as [Ew|]; [|done].
  cbn [negb] in H. destruct (scan_fetch (S now) _ _) as [tile|]; [|done].
  destruct (negb (Z.of_nat (String.length tile) =? _)); [done|]. destruct (tile_matches tile decoded); [|done].
  cbn [negb] in H. apply parse_bundle_sound in Ep as [-> Hd]. rewrite entry_bundle_length in *.
  unfold bundle_width, entriesPerC2spBundle in Ew.
  apply IH in H as (Hlen & Hf' & Hm' & (more & ->)).
  - split_and!; try done. exists (decoded ++ more). by rewrite app_assoc.
  - rewrite length_app. lia.
  - rewrite entry_bytes_app. lia.
  - left. lia.
  - by apply Forall_app.
Qed.

(** The loop does not run out of fuel: every bundle that passes is not empty. *)
Lemma scan_loop_fuel fuel s prefix treeSize now bundle total entries :
  treeSize <= Z.of_nat (length entries + fuel) ->
  scan_loop fuel s prefix treeSize now bundle total entries <> Err (PlainError "out of fuel").
Proof.
  revert now bundle total entries. induction fuel as [|fuel IH]; intros now bundle total entries Hf; cbn [scan_loop].
  - destruct (Z.ltb_spec (Z.of_nat (length entries)) treeSize); [lia|done].
  - destruct (Z.ltb_spec (Z.of_nat (length entries)) treeSize) as [Hlt|]; [|done].
    assert (Hfetch : forall k p m, scan_fetch k p m <> Err (PlainError "out of fuel")).
    { intros k p m. unfold scan_fetch. destruct (fetchBounded k p m) as [|e]; [done|].
      unfold logVerificationError. destruct (errors_as as_verification e) eqn:E1; [intros [= ->]; discriminate E1|].
      destruct (errors_as as_advance e) eqn:E2; [done|].
      destruct (errors_as as_permanent e) eqn:E3; [intros [= ->]; discriminate E3|done]. }
    unfold mbind, res_bind. destruct (scan_fetch now _ _) as [bytes|e] eqn:E1; [|intros [= ->]; by apply (Hfetch _ _ _ E1)].
    destruct (maxTotalEntryBytes s <? _); [done|].
    destruct (parseEntryBundle bytes) as [decoded|e] eqn:Ep.
    + destruct (Z.eqb_spec (Z.of_nat (length decoded)) (bundle_width treeSize (length entries))) as [Ew|]; [|done].
      cbn [negb]. destruct (scan_fetch (S now) _ _) as [tile|e] eqn:E2; [|intros [= ->]; by apply (Hfetch _ _ _ E2)].
      destruct (negb (Z.of_nat (String.length tile) =? _)); [done|]. destruct (negb (tile_matches _ _)); [done|].
      apply IH. unfold bundle_width, entriesPerC2spBundle in Ew. rewrite length_app. lia.
    + unfold parseEntryBundle in Ep.
      assert (Hgen : forall f d, (String.length d < f)%nat -> parse_bundle f d <> Err (PlainError "out of fuel")).
      { induction f as [|f IHf]; intros d Hd; [lia|]. cbn [parse_bundle].
        destruct d as [|hi [|lo rest]]; [done|done|]. cbn [String.length] in Hd.
        destruct (Nat.ltb_spec (String.length rest) (uint16_be hi lo)); [done|].
        unfold mbind, res_bind. specialize (IHf (str_drop (uint16_be hi lo) rest)).
        rewrite str_drop_length in IHf. destruct (parse_bundle f _) as [|e']; [done|].
        apply IHf. lia. }
      intros [= ->]. exact (Hgen _ _ (Nat.lt_succ_diag_r (String.length bytes)) Ep).
Qed.

(** A successful scan is the complete log of the checkpoint: as many
    entries as the checkpoint's size, at most the configured maximum, each of
    at most 65535 bytes, whose Merkle root is the checkpoint's root and whose
    levels are the returned levels, under a checkpoint the policy verified. *)
Theorem scan_complete s ref now sc :
  scan_source s ref now = Ok sc ->
  exists cp, verifyCheckpoint (policy s) ref (scan_checkpoint sc) = Ok (scan_verified sc) /\
    VCheckpoint (scan_verified sc) = Some cp /\
    Z.of_nat (length (scan_entries sc)) = Z.max 0 (CpSize cp) /\ CpSize cp <= maxTreeSize s /\
    Forall (fun e => Z.of_nat (String.length e) < 65536) (scan_entries sc) /\
    (entry_bytes (scan_entries sc) <= maxTotalEntryBytes s \/ scan_entries sc = []) /\
    scan_levels sc = merkleLevels (scan_entries sc) /\
    levels_root (scan_levels sc) = Some (CpHash cp).
Proof.
  unfold scan_source. intros H. unfold mbind, res_bind in H. destruct (ref_Validate ref); [|done].
  unfold classify_scan in H.
  destruct (scan_fetch now _ _) as [checkpoint|e] eqn:Ef.
  2:{ cbv beta iota in H. by destruct (errors_as as_verification e). }
  destruct (verifyCheckpoint (policy s) ref checkpoint) as [v|e] eqn:Ev.
  2:{ cbv beta iota in H. by destruct (errors_as as_verification e). }
  destruct (VCheckpoint v) as [cp|] eqn:Ecp; [|done].
  destruct (Z.ltb_spec (maxTreeSize s) (CpSize cp)) as [|Hmax]; [done|].
  destruct (max_int64 <? CpSize cp); [done|].
  destruct (scan_loop _ s _ _ _ _ _ _) as [es|e] eqn:El.
  2:{ cbv beta iota in H. by destruct (errors_as as_verification e). }
  destruct (levels_root (merkleLevels es)) as [root|] eqn:Er; [|done].
  destruct (str_eqb root (CpHash cp)) eqn:Eh; [|done]. apply str_eqb_eq in Eh as ->. cbn [negb] in H.
  injection H as <-. exists cp. cbn [scan_checkpoint scan_verified scan_entries scan_levels].
  destruct (Z.le_gt_cases 0 (CpSize cp)) as [Hpos|Hneg].
  - apply scan_loop_ok in El as (Hlen & Hf & Hb & _); [|cbn; lia|done|by right|constructor].
    rewrite Z.max_r by done. exact (conj Ev (conj Ecp (conj Hlen (conj Hmax (conj Hf (conj Hb (conj eq_refl Er))))))).
  - destruct (Z.to_nat (CpSize cp)) eqn:En; [|lia]. cbn [scan_loop length] in El.
    destruct (Z.ltb_spec (Z.of_nat 0) (CpSize cp)); [lia|]. injection El as <-.
    rewrite Z.max_l by lia.
    exact (conj Ev (conj Ecp (conj eq_refl (conj Hmax (conj (Forall_nil_2 _) (conj (or_intror eq_refl) (conj eq_refl Er))))))).
Qed.

(** The inclusion proof that [provenEntry] derives from a scan is the
    audit path of its entry: checked against the number of entries, the path
    leads from the entry's leaf hash to the Merkle root of the log. *)
Theorem proven_entry_verifies `{!TLogSpec T} (sc : completeScan) index entry proof :
  scan_levels sc = merkleLevels (scan_entries sc) ->
  provenEntry sc index = Some (index, entry, proof) ->
  PfIndex proof = Z.of_nat index /\ scan_entries sc !! index = Some entry /\
  exists ps, run_proof (length (scan_entries sc)) index (length (scan_entries sc)) (RecordHash entry)
    (rev (PfHashes proof)) = Some (merkleRoot (scan_entries sc), ps).
Proof.
  intros Hlev H. unfold provenEntry in H. destruct (scan_entries sc !! index) as [e|] eqn:E; [|done].
  cbn in H. injection H as <- <-. cbn [PfIndex PfHashes]. split_and!; [done|done|].
  assert (Hne : scan_entries sc <> []) by (intros Hn; by rewrite Hn in E).
  pose proof (lookup_lt_Some _ _ _ E) as Hlt. rewrite Hlev.
  set (es := scan_entries sc) in *. set (hs := RecordHash <$> es).
  assert (Hlen : length hs = length es) by apply length_fmap.
  assert (Hml : merkleLevels es = hs :: levels_loop (length hs) hs).
  { unfold merkleLevels. fold hs. destruct hs eqn:Eh; [|done]. destruct es; [done|discriminate Eh]. }
  rewrite Hml. rewrite <- Hlen.
  apply (run_proof_path hs index _ (levels_path (length hs) hs index ltac:(lia) ltac:(lia))
    (RecordHash e) (merkleRoot es) (node_pairs hs)).
  - unfold hs. by rewrite list_lookup_fmap, E.
  - by apply merkleRoot_tree.
  - done.
Qed.
End scans.

(** ** A concrete scan *)
#[local] Transparent sha256 merkleRoot.
Definition demo_tile : string :=
  String.concat "" ((fun e => @RecordHash rfc6962_tlog e) <$> demo_log_entries).
Definition demo_scan_world : World :=
  {| ctx_err _ := None;
     FetchBounded _ path _ :=
       if str_eqb path "https://log.example/checkpoint" then Ok "cp"
       else if str_eqb path "https://log.example/tile/entries/000.p/3"
       then Ok (entry_bundle demo_log_entries)
       else if str_eqb path "https://log.example/tile/0/000.p/3" then Ok demo_tile
       else Err (ResourceFetchError ResourceFetchHTTPStatus 404 false) |}.
Definition demo_config : ScanSourceConfig :=
  {| has_fetcher := true; has_http := false; MaxTreeSize := 0; MaxCheckpointBytes := 0;
     MaxEntryBundleBytes := 0; MaxTotalEntryBytes := 0 |}.
Definition demo_scan_source : ScanSource :=
  match NewScanSource demo_policy demo_config with
  | Ok s => s
  | Err _ => {| policy := demo_policy; maxTreeSize := 0; maxCheckpointBytes := 0;
                maxEntryBundleBytes := 0; maxTotalEntryBytes := 0 |}
  end.
Definition demo_scan : completeScan :=
  match @scan_source rfc6962_tlog demo_notes demo_url demo_scan_world demo_scan_source demo_ref 0 with
  | Ok sc => sc
  | Err _ => {| scan_checkpoint := ""; scan_verified := zero_proof; scan_entries := []; scan_levels := [] |}
  end.

Lemma demo_scan_ok :
  @scan_source rfc6962_tlog demo_notes demo_url demo_scan_world demo_scan_source demo_ref 0 = Ok demo_scan.
Proof. vm_compute. reflexivity. Qed.

Lemma scan_complete_witness :
  exists cp, @verifyCheckpoint demo_notes demo_url rfc6962_tlog (policy demo_scan_source) demo_ref
      (scan_checkpoint demo_scan) = Ok (scan_verified demo_scan) /\
    VCheckpoint (scan_verified demo_scan) = Some cp /\
    Z.of_nat (length (scan_entries demo_scan)) = Z.max 0 (CpSize cp) /\
    CpSize cp <= maxTreeSize demo_scan_source /\
    Forall (fun e => Z.of_nat (String.length e) < 65536) (scan_entries demo_scan) /\
    (entry_bytes (scan_entries demo_scan) <= maxTotalEntryBytes demo_scan_source \/ scan_entries demo_scan = []) /\
    scan_levels demo_scan = @merkleLevels rfc6962_tlog (scan_entries demo_scan) /\
    levels_root (scan_levels demo_scan) = Some (CpHash cp).
Proof.
  exact (@scan_complete rfc6962_tlog demo_notes demo_url demo_scan_world demo_scan_source demo_ref 0%nat
    demo_scan demo_scan_ok).
Defined.

Definition demo_proven : TLogProof :=
  match provenEntry demo_scan 1 with
  | Some (_, _, p) => p
  | None => {| PfIndex := 0; PfHashes := []; PfCheckpoint := "" |}
  end.

Lemma proven_entry_verifies_witness :
  PfIndex demo_proven = 1 /\ scan_entries demo_scan !! 1%nat = Some "b" /\
  exists ps, @run_proof rfc6962_tlog (length (scan_entries demo_scan)) 1 (length (scan_entries demo_scan))
    (@RecordHash rfc6962_tlog "b") (rev (PfHashes demo_proven))
    = Some (@merkleRoot rfc6962_tlog (scan_entries demo_scan), ps).
Proof.
  apply (@proven_entry_verifies rfc6962_tlog rfc6962_spec demo_scan 1 "b" demo_proven).
  - vm_compute. reflexivity.
  - vm_compute. reflexivity.
Defined.
