(* ===== verification/Event.v ===== *)
(** * Event: lifecycle events as log entries

    log/c2sptlog/event.go and the envelope checks of prepared.go and client.go
    it relies on: the payload of an event, its canonical signed bytes, the
    parser of stored entries and the identity of an event. JWKs cross as JSON
    text: class [JwkText] holds [json.Marshal] and [jwk.ParseKey]. *)

From Stdlib Require Import ZArith Lia Ascii String.
From S2P Require Import Prelude Codec Utf8 Numbers Jcs JcsSpec Keys Fqdn Lifecycle Evidence Reference.

Open Scope Z_scope.

Class JwkText (key : Type) := {
  jwk_marshal : key -> option string;      (* json.Marshal(key) *)
  jwk_parse : string -> option key         (* jwk.ParseKey(data) *)
}.

(** ** Chain metadata *)
Record Chain := { Sequence : Z; PreviousEventID : string; PreviousStateHash : string }.
Record chainFields := {
  sequence : option Z;
  previousEventID : string;
  chain_invalid : bool;
  previousStateHash : string
}.
#[export] Instance chainFields_eq_dec : EqDecision chainFields.
Proof. solve_decision. Defined.

Abbreviation payload := (gmap string value).

(** [EventID]. *)
Definition EventID (signedBytes : string) : string :=
  Base64.encode (sha256 (String.append "dnsid-c2sp-event-v1" (String "000" signedBytes))).

(** ** Instants *)
Definition wrap_int64 (x : Z) : Z := (x + 2 ^ 63) mod 2 ^ 64 - 2 ^ 63.
(** [time.Unix(sec, 0)], whose seconds since year 1 wrap, and [t.Unix()]. *)
Definition time_Unix (sec : Z) : time := wrap_int64 (sec + 62135596800) * second.
Definition Unix (t : time) : Z := t / second - 62135596800.

(** [json.Number.Int64]: [strconv.ParseInt(lit, 10, 64)]. *)
Definition parse_int64 (s : string) : option Z :=
  let '(neg, digits) := match s with
    | String "-" r => (true, r) | String "+" r => (false, r) | _ => (false, s) end in
  if is_empty digits || negb (digits_only digits) then None
  else let n := digits_val 0 digits in
       let z := if (neg : bool) then - n else n in
       if (min_int64 <=? z) && (z <=? max_int64) then Some z else None.

(** ** Fields of a payload *)
Definition stringField (p : payload) (k : string) : res string :=
  match p !! k with
  | Some (VString s) => fail_if is_empty s with PlainError "dnsid: c2sp-tlog event missing string field" ;; Ok s
  | _ => Err (PlainError "dnsid: c2sp-tlog event missing string field")
  end.
(** [optionalString] without its second result. *)
Definition optionalString (p : payload) (k : string) : string :=
  match p !! k with Some (VString s) => s | _ => EmptyString end.

(** [None] is an absent field. *)
Definition optionalInt64 (p : payload) (k : string) : res (option Z) :=
  match p !! k with
  | None | Some VNull => Ok None
  | Some (VNumber lit) =>
      match parse_int64 lit with
      | Some i => Ok (Some i)
      | None => Err (PlainError "dnsid: c2sp-tlog field is not an integer")
      end
  | Some _ => Err (PlainError "dnsid: c2sp-tlog field is not an integer")
  end.
Definition int64Field (p : payload) (k : string) : res Z :=
  i ← optionalInt64 p k;
  match i with Some z => Ok z | None => Err (PlainError "dnsid: c2sp-tlog event missing integer field") end.
Definition optionalUint64 (p : payload) (k : string) : res (option Z) :=
  i ← optionalInt64 p k;
  match i with
  | None => Ok None
  | Some z =>
      fail_if z <? 0 with PlainError "dnsid: c2sp-tlog field is negative" ;;
      fail_if maxJSONInteger <? z with PlainError "dnsid: c2sp-tlog field exceeds maximum JSON integer" ;;
      Ok (Some z)
  end.

Record signatureValue := { sig_Kid : string; sig_Sig : string }.
Definition parseSig (v : option value) : option signatureValue :=
  match v with
  | Some (VObject obj) =>
      match obj !! "kid"%string, obj !! "sig"%string with
      | Some (VString kid), Some (VString sig) => Some {| sig_Kid := kid; sig_Sig := sig |}
      | _, _ => None
      end
  | _ => None
  end.
Definition sig_object (kid sig : string) : value :=
  VObject (<["kid" := VString kid]> (<["sig" := VString sig]> ∅)).

(** ** Envelopes: the JSON rules and the signature roles *)
Inductive SignerRole :=
| SignerEntity | SignerOperationalCountersignature | SignerPreviousOperational | SignerNewOperational.
#[export] Instance SignerRole_eq_dec : EqDecision SignerRole.
Proof. solve_decision. Defined.

Definition signatureName (role : SignerRole) : string :=
  match role with
  | SignerEntity => "ae" | SignerOperationalCountersignature => "op"
  | SignerPreviousOperational => "prev_op" | SignerNewOperational => "new_op"
  end.

Definition requiredSignerRoles (t : LogEventType) : res (list SignerRole) :=
  match t with
  | LogEventIssuance => Ok [SignerEntity; SignerOperationalCountersignature]
  | LogEventKeyRotation => Ok [SignerPreviousOperational; SignerNewOperational]
  | LogEventRevocation | LogEventRetirement | LogEventMigration | LogEventDelegation => Ok [SignerEntity]
  | LogEventOther _ => Err (PlainError "dnsid: unsupported c2sp-tlog event type")
  end.

Definition containsRole (roles : list SignerRole) (role : SignerRole) : bool := existsb (fun r => bool_decide (r = role)) roles.

(** One signature of [validateSignatureShape]: its role is allowed, both
    members are set and the value is unpadded base64url. *)
Definition signature_ok (allowed : list string) (nv : string * value) : res unit :=
  let '(name, v) := nv in
  fail_if negb (existsb (str_eqb name) allowed) with PlainError "dnsid: unexpected c2sp-tlog signature role" ;;
  match parseSig (Some v) with
  | Some sv =>
      fail_if is_empty (sig_Kid sv) || is_empty (sig_Sig sv) with PlainError "dnsid: malformed c2sp-tlog signature role" ;;
      match Base64.decode false (sig_Sig sv) with
      | Some decoded =>
          fail_if negb (str_eqb (Base64.encode decoded) (sig_Sig sv))
            with PlainError "dnsid: c2sp-tlog signature role is not unpadded base64url" ;;
          Ok tt
      | None => Err (PlainError "dnsid: c2sp-tlog signature role is not unpadded base64url")
      end
  | None => Err (PlainError "dnsid: malformed c2sp-tlog signature role")
  end.

Definition validateSignatureShape (envelope : payload) (required : list SignerRole) (complete : bool) : res unit :=
  match envelope !! "sigs"%string with
  | None => fail_if complete with PlainError "dnsid: c2sp-tlog event missing signatures" ;; Ok tt
  | Some (VObject obj) =>
      let allowed := signatureName <$> required in
      all_ok (signature_ok allowed <$> map_to_list obj) ;;
      fail_if complete && existsb (fun name => bool_decide (obj !! name = None)) allowed
        with PlainError "dnsid: c2sp-tlog event missing signature role" ;;
      Ok tt
  | Some _ => Err (PlainError "dnsid: c2sp-tlog sigs field must be an object")
  end.

(** [rejectUnknownSigFields]. *)
Definition sig_names : list string := ["ae"; "op"; "prev_op"; "new_op"].
Definition reject_sig (nv : string * value) : res unit :=
  let '(name, raw) := nv in
  fail_if negb (existsb (str_eqb name) sig_names) with PlainError "dnsid: unsupported c2sp-tlog signature field" ;;
  match raw with
  | VObject sig =>
      all_ok ((fun kv : string * value =>
        fail_if negb (str_eqb kv.1 "kid" || str_eqb kv.1 "sig") with PlainError "dnsid: unsupported c2sp-tlog signature member" ;;
        match kv.2 with VString _ => Ok tt | _ => Err (PlainError "dnsid: c2sp-tlog signature member must be a string") end)
        <$> map_to_list sig)
  | _ => Err (PlainError "dnsid: c2sp-tlog signature must be an object")
  end.
Definition rejectUnknownSigFields (v : value) : res unit :=
  match v with
  | VObject sigs => all_ok (reject_sig <$> map_to_list sigs)
  | _ => Err (PlainError "dnsid: c2sp-tlog sigs field must be an object")
  end.

Definition validatePayloadJSON (obj : payload) : res unit :=
  all_ok ((fun kv : string * value =>
    if str_eqb kv.1 "sigs" then rejectUnknownSigFields kv.2 else rejectUnsupportedJSON kv.2) <$> map_to_list obj).

(** [payloadObjectFromEntry]. *)
Definition payloadObjectFromEntry (entry : string) : res payload :=
  fail_if is_empty entry with PlainError "dnsid: c2sp-tlog entry must be between 1 and 65535 bytes" ;;
  fail_if maxEntrySize <? Z.of_nat (String.length entry) with PlainError "dnsid: c2sp-tlog entry exceeds the maximum" ;;
  p ← DecodeObject entry;
  validatePayloadJSON p ;;
  canonical ← canonicalJSON (VObject p);
  fail_if negb (str_eqb entry canonical) with PlainError "dnsid: c2sp-tlog entry has non-canonical JCS encoding" ;;
  Ok p.

(** [CanonicalFromEntry]: the signed bytes of a stored entry. *)
Definition CanonicalFromEntry (entry : string) : res string :=
  match (p ← payloadObjectFromEntry entry; canonicalJSON (VObject (delete "sigs"%string p))) with
  | Ok b => Ok b
  | Err e => Err (WithCause (ParseError "dnsid: parsing c2sp-tlog entry") e)
  end.

(** ** Keys of an event *)
Section events.
Context {key : Type} `{!KeyOps key} `{!JwkText key} {U : NetURL} {I : Idna}.
Abbreviation LogEvent := (LogEvent key).

(** [thumbprint(key)]; its error is ignored where the empty string stands in. *)
Definition thumb_or_empty (k : option key) : string :=
  match keyThumbprint k with Ok t => t | Err _ => EmptyString end.

Definition kid_or_empty (k : key) : string := default EmptyString (key_id k).

(** [validateSigningJWK(key, field)]. *)
Definition validateSigningJWK (k : option key) (field : string) : res unit :=
  let bad := PlainError (String.append "dnsid: invalid JWK " field) in
  match k with
  | None => Err bad
  | Some k =>
      fail_if negb (bool_decide (key_is_private k = Some false)) with bad ;;
      fail_if match key_usage k with Some use => negb (str_eqb use "sig") | None => false end with bad ;;
      fail_if is_empty (kid_or_empty k) with bad ;;
      match key_algorithm k with
      | None => Err bad
      | Some alg =>
          fail_if is_empty alg with bad ;;
          match key_type k with
          | OKP =>
              fail_if negb (str_eqb alg "EdDSA") || negb (bool_decide (key_crv k = Some Ed25519)) with bad ;;
              Ok tt
          | EC =>
              fail_if negb (str_eqb alg "ES256") || negb (bool_decide (key_crv k = Some P256)) with bad ;;
              Ok tt
          | OtherKeyType => Err bad
          end
      end
  end.

Definition is_nil (k : option key) : bool := bool_decide (k = None).

Definition lifecycle_err (msg : string) : error := PlainError msg.

Definition validateLifecycleFields (event : LogEvent) : res unit :=
  fail_if match NormalizeFQDN (Lifecycle.Domain event) with
          | Ok n => negb (str_eqb n (Lifecycle.Domain event)) | Err _ => true end
    with lifecycle_err "dnsid: c2sp-tlog fqdn must be normalized" ;;
  match Type_ event with
  | LogEventIssuance =>
      fail_if is_empty (GovernanceID event) || is_nil (InitialOperationalPublicKey event)
           || is_nil (InitialEntityPublicKey event)
        with lifecycle_err "dnsid: c2sp-tlog ISSUANCE requires gi, ek, and ku" ;;
      validateSigningJWK (InitialEntityPublicKey event) "ek" ;;
      validateSigningJWK (InitialOperationalPublicKey event) "ku" ;;
      entityThumb ← keyThumbprint (InitialEntityPublicKey event);
      operationalThumb ← keyThumbprint (InitialOperationalPublicKey event);
      fail_if str_eqb entityThumb operationalThumb
        with lifecycle_err "dnsid: c2sp-tlog ek and ku must be distinct" ;;
      Ok tt
  | LogEventKeyRotation =>
      fail_if is_empty (PreviousOperationalThumbprint event) || is_empty (NewOperationalThumbprint event)
           || is_nil (NewOperationalPublicKey event)
        with lifecycle_err "dnsid: c2sp-tlog KEY_ROTATION requires prev_thumb, new_thumb, and new_ku" ;;
      validateSigningJWK (NewOperationalPublicKey event) "new_ku" ;;
      fail_if match keyThumbprint (NewOperationalPublicKey event) with
              | Ok thumb => negb (str_eqb thumb (NewOperationalThumbprint event)) | Err _ => true end
        with lifecycle_err "dnsid: c2sp-tlog new_thumb does not match new_ku" ;;
      Ok tt
  | LogEventRevocation =>
      fail_if negb (ValidRevocationReason (Reason event))
        with lifecycle_err "dnsid: invalid c2sp-tlog REVOCATION reason" ;;
      Ok tt
  | LogEventRetirement => Ok tt
  | LogEventMigration =>
      fail_if is_empty (PreviousLog event) || is_empty (NewLog event) || is_empty (FinalEntryRef event)
        with lifecycle_err "dnsid: c2sp-tlog MIGRATION requires prev_lr, new_lr, and prev_ref" ;;
      fail_if str_eqb (PreviousLog event) (NewLog event)
        with lifecycle_err "dnsid: c2sp-tlog MIGRATION must change log reference" ;;
      Ok tt
  | LogEventDelegation =>
      fail_if is_empty (Delegatee event) || is_empty (Lifecycle.Scope event) || time_is_zero (Lifecycle.Expiry event)
        with lifecycle_err "dnsid: c2sp-tlog DELEGATION requires delegatee, scope, and expiry" ;;
      fail_if negb (Lifecycle.Expiry event mod second =? 0)
        with lifecycle_err "dnsid: c2sp-tlog DELEGATION expiry must have whole-second precision" ;;
      Ok tt
  | LogEventOther _ => Err (lifecycle_err "dnsid: unsupported c2sp-tlog event type")
  end.

Definition validateEmbeddedSignatureKids (event : LogEvent) : res unit :=
  match Type_ event with
  | LogEventIssuance =>
      match InitialEntityPublicKey event, InitialOperationalPublicKey event with
      | Some ek, Some ku =>
          fail_if negb (str_eqb (InitialEntityKid event) (kid_or_empty ek))
               || negb (str_eqb (InitialOperationalKid event) (kid_or_empty ku))
            with PlainError "dnsid: c2sp-tlog ISSUANCE signature kid does not match recorded key" ;;
          Ok tt
      | _, _ => Err (PlainError "dnsid: ISSUANCE requires entity and operational keys")
      end
  | LogEventKeyRotation =>
      match NewOperationalPublicKey event with
      | Some nk =>
          fail_if negb (str_eqb (NewOperationalKid event) (kid_or_empty nk))
            with PlainError "dnsid: c2sp-tlog KEY_ROTATION new_op kid does not match new_ku" ;;
          Ok tt
      | None => Err (PlainError "dnsid: KEY_ROTATION requires new operational key")
      end
  | _ => Ok tt
  end.

(** ** Payloads *)
Definition keyAsJSON (k : key) : res value :=
  match jwk_marshal k with
  | None => Err (PlainError "dnsid: marshal JWK")
  | Some data => obj ← DecodeObject data; Ok (VObject obj)
  end.

(** [if v != "" { payload[k] = v }]. *)
Definition put_string (k v : string) (p : payload) : payload :=
  if is_empty v then p else <[k := VString v]> p.
Definition put_key (name : string) (k : option key) (p : payload) : res payload :=
  match k with None => Ok p | Some k => v ← keyAsJSON k; Ok (<[name := v]> p) end.

Definition put_sig (name kid sig : string) (sigs : payload) : payload :=
  if is_empty kid || is_empty sig then sigs else <[name := sig_object kid sig]> sigs.
Definition signaturesFromEvent (event : LogEvent) : payload :=
  match Type_ event with
  | LogEventIssuance =>
      put_sig "op" (InitialOperationalKid event) (InitialOperationalSignature event)
        (put_sig "ae" (InitialEntityKid event) (InitialEntitySignature event) ∅)
  | LogEventKeyRotation =>
      put_sig "new_op" (NewOperationalKid event) (NewOperationalSignature event)
        (put_sig "prev_op" (PreviousOperationalKid event) (PreviousOperationalSignature event) ∅)
  | _ => put_sig "ae" (InitialEntityKid event) (InitialEntitySignature event) ∅
  end.

Definition put_context (ref : option Reference) (p : payload) : res payload :=
  match ref with
  | None => Ok p
  | Some ref =>
      origin ← ref_Origin ref;
      Ok (<["lr" := VString (ref_String ref)]> (<["stream_id" := VString (StreamID ref)]>
           (<["log_origin" := VString origin]> (<["method" := VString Method]> p))))
  end.
Definition put_chain (chain : option chainFields) (p : payload) : payload :=
  match chain with
  | None => p
  | Some c =>
      put_string "prev_state_hash" (previousStateHash c) (put_string "prev_event_id" (previousEventID c)
        (match sequence c with Some n => <["seq" := VInt n]> p | None => p end))
  end.

(** The [switch event.Type] of [payloadFromEventWithChain]. *)
Definition put_fields (event : LogEvent) (p : payload) : res payload :=
  match Type_ event with
  | LogEventIssuance =>
      p ← put_key "ku" (InitialOperationalPublicKey event) (put_string "gi" (GovernanceID event) p);
      put_key "ek" (InitialEntityPublicKey event) p
  | LogEventKeyRotation =>
      put_key "new_ku" (NewOperationalPublicKey event)
        (put_string "new_thumb" (NewOperationalThumbprint event)
          (put_string "prev_thumb" (PreviousOperationalThumbprint event) p))
  | LogEventRevocation => Ok (put_string "reason" (Reason event) p)
  | LogEventRetirement => Ok p
  | LogEventMigration =>
      Ok (put_string "prev_ref" (FinalEntryRef event) (put_string "new_lr" (NewLog event)
           (put_string "prev_lr" (PreviousLog event) p)))
  | LogEventDelegation =>
      let p := put_string "scope" (Lifecycle.Scope event) (put_string "delegatee" (Delegatee event) p) in
      Ok (if time_is_zero (Lifecycle.Expiry event) then p
          else <["expiry" := VInt (Unix (Lifecycle.Expiry event))]> p)
  | LogEventOther _ => Err (PlainError "dnsid: unsupported c2sp-tlog event type")
  end.

Definition payloadFromEventWithChain (event : LogEvent) (includeSigs : bool)
    (ref : option Reference) (chain : option chainFields) : res payload :=
  fail_if is_empty (type_string (Type_ event)) with PlainError "dnsid: c2sp-tlog event type is required" ;;
  fail_if is_empty (Lifecycle.Domain event) with PlainError "dnsid: c2sp-tlog event domain is required" ;;
  fail_if time_is_zero (Timestamp event) with PlainError "dnsid: c2sp-tlog event timestamp is required" ;;
  validateLifecycleFields event ;;
  let ts := Unix (Timestamp event) in
  fail_if (ts <? 0) || (maxJSONInteger <? ts) with PlainError "dnsid: c2sp-tlog event timestamp out of range" ;;
  p ← put_context ref (<["ts" := VInt ts]> (<["fqdn" := VString (Lifecycle.Domain event)]>
        (<["type" := VString (type_string (Type_ event))]> (<["kind" := VString Kind]> (<["v" := VInt 1]> ∅)))));
  p ← put_fields event (put_chain chain p);
  if negb includeSigs then Ok p
  else
    let sigs := signaturesFromEvent event in
    fail_if bool_decide (sigs = ∅) with PlainError "dnsid: c2sp-tlog event has no signatures" ;;
    Ok (<["sigs" := VObject sigs]> p).

Definition payloadFromEvent (event : LogEvent) (includeSigs : bool) (ref : option Reference) : res payload :=
  payloadFromEventWithChain event includeSigs ref None.

(** The package functions [Canonical] and [EntryBytes]. *)
Definition Canonical (event : LogEvent) : res string :=
  p ← payloadFromEvent event false None; canonicalJSON (VObject p).

Definition entryBytesWithChain (event : LogEvent) (ref : option Reference) (chain : option chainFields) : res string :=
  p ← payloadFromEventWithChain event true ref chain;
  body ← canonicalJSON (VObject p);
  fail_if maxEntrySize <? Z.of_nat (String.length body) with PlainError "dnsid: c2sp-tlog entry exceeds the maximum" ;;
  Ok body.
Definition EntryBytes (event : LogEvent) : res string := entryBytesWithChain event None None.

Definition chainFieldsFromChain (event : LogEvent) (chain : Chain) : chainFields :=
  if negb (Sequence chain =? 0) || negb (type_eqb (Type_ event) LogEventIssuance)
  then {| sequence := Some (Sequence chain); previousEventID := PreviousEventID chain; chain_invalid := false;
          previousStateHash := PreviousStateHash chain |}
  else {| sequence := Some (Sequence chain); previousEventID := ""; chain_invalid := false; previousStateHash := "" |}.

(** ** Reading a payload *)
Definition type_of_string (s : string) : LogEventType :=
  if str_eqb s "ISSUANCE" then LogEventIssuance
  else if str_eqb s "KEY_ROTATION" then LogEventKeyRotation
  else if str_eqb s "REVOCATION" then LogEventRevocation
  else if str_eqb s "RETIREMENT" then LogEventRetirement
  else if str_eqb s "MIGRATION" then LogEventMigration
  else if str_eqb s "DELEGATION" then LogEventDelegation
  else LogEventOther s.

Record parsedEvent := {
  p_event : LogEvent;
  p_chain : chainFields;
  p_validationError : option error
}.

(** [optionalJWK]. *)
Definition optionalJWK (p : payload) (k : string) : res (option key) :=
  match p !! k with
  | None => Ok None
  | Some v =>
      data ← canonicalJSON v;
      match jwk_parse data with
      | Some parsed => Ok (Some parsed)
      | None => Err (PlainError "dnsid: parsing JWK")
      end
  end.

(** [errors.Join]. *)
Definition join_errors (a b : option error) : option error :=
  match a, b with
  | Some e, Some f => Some (WithCause e f)
  | Some e, None | None, Some e => Some e
  | None, None => None
  end.
Definition error_of {A} (r : res A) : option error := match r with Ok _ => None | Err e => Some e end.
Definition value_of {A} (d : A) (r : res A) : A := match r with Ok a => a | Err _ => d end.

Definition read_chain (p : payload) : chainFields :=
  let seq := optionalUint64 p "seq" in
  let present k := negb (bool_decide (p !! k = None)) in
  let bad_hash k := match p !! k with
    | None => false
    | Some (VString s) => negb (validHash s)
    | Some _ => true
    end in
  {| sequence := value_of None seq;
     previousEventID := optionalString p "prev_event_id";
     chain_invalid := negb (is_ok seq) || present "prev_index" || present "prev_leaf_hash" || present "event_id"
                      || bad_hash "prev_event_id" || bad_hash "prev_state_hash";
     previousStateHash := optionalString p "prev_state_hash" |}.

(** [applySignatures]: a signature that does not parse leaves its fields unset. *)
Definition read_sig (p : payload) (name : string) : signatureValue :=
  match p !! "sigs"%string with
  | Some (VObject sigs) => default {| sig_Kid := ""; sig_Sig := "" |} (parseSig (sigs !! name))
  | _ => {| sig_Kid := ""; sig_Sig := "" |}
  end.

(** The event of a payload: each type reads its own fields, signatures are
    read whatever the type. *)
Definition read_event (t : LogEventType) (fqdn : string) (ts : Z) (p : payload) : LogEvent :=
  let only (u : LogEventType) k := if type_eqb t u then optionalString p k else EmptyString in
  let key_of (u : LogEventType) k := if type_eqb t u then value_of None (optionalJWK p k) else None in
  let ku := key_of LogEventIssuance "ku"%string in
  let ek := key_of LogEventIssuance "ek"%string in
  {| Type_ := t;
     InitialEntityKid := sig_Kid (read_sig p "ae");
     InitialEntityPublicKey := ek;
     InitialEntityThumbprint := thumb_or_empty ek;
     InitialEntitySignature := sig_Sig (read_sig p "ae");
     InitialOperationalKid := sig_Kid (read_sig p "op");
     InitialOperationalPublicKey := ku;
     InitialOperationalThumbprint := thumb_or_empty ku;
     InitialOperationalSignature := sig_Sig (read_sig p "op");
     PreviousOperationalKid := sig_Kid (read_sig p "prev_op");
     PreviousOperationalThumbprint := only LogEventKeyRotation "prev_thumb"%string;
     PreviousOperationalSignature := sig_Sig (read_sig p "prev_op");
     NewOperationalKid := sig_Kid (read_sig p "new_op");
     NewOperationalPublicKey := key_of LogEventKeyRotation "new_ku"%string;
     NewOperationalThumbprint := only LogEventKeyRotation "new_thumb"%string;
     NewOperationalSignature := sig_Sig (read_sig p "new_op");
     Lifecycle.Domain := fqdn;
     Timestamp := time_Unix ts;
     GovernanceID := only LogEventIssuance "gi"%string;
     Reason := only LogEventRevocation "reason"%string;
     PreviousLog := only LogEventMigration "prev_lr"%string;
     NewLog := only LogEventMigration "new_lr"%string;
     FinalEntryRef := only LogEventMigration "prev_ref"%string;
     Delegatee := only LogEventDelegation "delegatee"%string;
     Lifecycle.Scope := only LogEventDelegation "scope"%string;
     Lifecycle.Expiry := if type_eqb t LogEventDelegation
       then match optionalInt64 p "expiry" with Ok (Some exp) => time_Unix exp | _ => 0 end else 0 |}.

(** The errors of the type's own fields join those before them in the order
    they are read. *)
Definition field_errors (t : LogEventType) (before : option error) (p : payload) : option error :=
  match t with
  | LogEventIssuance => join_errors (join_errors before (error_of (optionalJWK p "ku"))) (error_of (optionalJWK p "ek"))
  | LogEventKeyRotation => join_errors before (error_of (optionalJWK p "new_ku"))
  | LogEventDelegation => join_errors before (error_of (optionalInt64 p "expiry"))
  | _ => before
  end.

Definition eventFromPayload (p : payload) : res parsedEvent :=
  version ← int64Field p "v";
  fail_if negb (version =? 1) with PlainError "dnsid: unsupported c2sp-tlog event version" ;;
  kind ← stringField p "kind";
  fail_if negb (str_eqb kind Kind) with PlainError "dnsid: unsupported c2sp-tlog event kind" ;;
  typeStr ← stringField p "type";
  fqdn ← stringField p "fqdn";
  let ts := value_of 0 (int64Field p "ts") in
  let tsErr := if (ts <? 0) || (maxJSONInteger <? ts)
               then Some (PlainError "dnsid: c2sp-tlog event timestamp out of range")
               else error_of (int64Field p "ts") in
  let t := type_of_string typeStr in
  match t with
  | LogEventOther _ => Err (PlainError "dnsid: unsupported c2sp-tlog event type")
  | _ =>
      let event := read_event t fqdn ts p in
      Ok {| p_event := event; p_chain := read_chain p;
            p_validationError := join_errors (field_errors t tsErr p)
                                   (error_of (validateLifecycleFields event)) |}
  end.

(** [parseEventFromEntry]. *)
Definition parseEventFromEntry (entry : string) : res parsedEvent :=
  p ← payloadObjectFromEntry entry;
  parsed ← eventFromPayload p;
  required ← requiredSignerRoles (Type_ (p_event parsed));
  validateSignatureShape p required true ;;
  Ok {| p_event := p_event parsed; p_chain := p_chain parsed;
        p_validationError := join_errors (p_validationError parsed)
                               (error_of (validateEmbeddedSignatureKids (p_event parsed))) |}.

(** [LogEventFromEntry]. *)
Definition invalid_entry (e : error) : error :=
  WithCause (ValidationError "dnsid: validating c2sp-tlog lifecycle entry") e.
Definition LogEventFromEntry (entry : string) : res LogEvent :=
  match payloadObjectFromEntry entry with
  | Err e => Err (WithCause (ParseError "dnsid: parsing c2sp-tlog lifecycle entry") e)
  | Ok p =>
      match eventFromPayload p with
      | Err e => Err (invalid_entry e)
      | Ok parsed =>
          match p_validationError parsed with
          | Some e => Err (WithCause (ValidationError "dnsid: invalid lifecycle event") e)
          | None =>
              match (required ← requiredSignerRoles (Type_ (p_event parsed));
                     validateSignatureShape p required true ;;
                     validateEmbeddedSignatureKids (p_event parsed)) with
              | Err e => Err (invalid_entry e)
              | Ok _ => Ok (p_event parsed)
              end
          end
      end
  end.

(** [validateResolvedKeyIDs]: one kid names one key. *)
Fixpoint resolve_kids (resolved : gmap string string) (keys : list (option key)) : res unit :=
  match keys with
  | [] => Ok tt
  | None :: keys => resolve_kids resolved keys
  | Some k :: keys =>
      thumb ← keyThumbprint (Some k);
      fail_if match resolved !! kid_or_empty k with Some prior => negb (str_eqb prior thumb) | None => false end
        with PlainError "dnsid: duplicate c2sp-tlog kid maps to different keys" ;;
      resolve_kids (<[kid_or_empty k := thumb]> resolved) keys
  end.
Definition validateResolvedKeyIDs (keys : list (option key)) : res unit := resolve_kids ∅ keys.

(** ** The client's stream: [Client] as far as entries need it *)
Definition stream_err (msg : string) : error := PlainError msg.

(** One check of [validateEntryMetadata]. *)
Definition metadata_check (p : payload) (k want : string) : res unit :=
  match p !! k with
  | Some (VString got) =>
      fail_if is_empty got with stream_err "dnsid: c2sp-tlog event is missing a context field" ;;
      fail_if negb (str_eqb got want) with stream_err "dnsid: c2sp-tlog event is for another stream" ;;
      Ok tt
  | _ => Err (stream_err "dnsid: c2sp-tlog event is missing a context field")
  end.

Definition validateEntryMetadata (ref : Reference) (entry : string) : res unit :=
  p ← payloadObjectFromEntry entry;
  origin ← ref_Origin ref;
  fail_if str_eqb (optionalString p "fqdn") (StreamID ref)
    with stream_err "dnsid: stream ID must identify an identity instance" ;;
  metadata_check p "method" Method ;;
  metadata_check p "log_origin" origin ;;
  metadata_check p "stream_id" (StreamID ref) ;;
  metadata_check p "lr" (ref_String ref).

Definition parseCandidateEntry (ref : Reference) (entry : string) : res parsedEvent :=
  validateEntryMetadata ref entry ;; parseEventFromEntry entry.

Definition validateWritableStream (ref : Reference) (event : LogEvent) : res unit :=
  normalizedDomain ← NormalizeFQDN (Lifecycle.Domain event);
  fail_if str_eqb (StreamID ref) normalizedDomain
    with stream_err "dnsid: c2sp-tlog stream ID must identify an identity instance and must not equal the normalized event fqdn" ;;
  Ok tt.

Definition isInboundMigration (ref : Reference) (event : LogEvent) : bool :=
  type_eqb (Type_ event) LogEventMigration && str_eqb (NewLog event) (ref_String ref).

Definition chainForWrite (ref : Reference) (event : LogEvent) : res chainFields :=
  if type_eqb (Type_ event) LogEventIssuance || isInboundMigration ref event
  then Ok {| sequence := Some 0; previousEventID := ""; chain_invalid := false; previousStateHash := "" |}
  else Err (PlainError "dnsid: c2sp-tlog write requires chain fields via WriteEventWithChain").

Definition validateChain (ref : Reference) (event : LogEvent) (chain : Chain) : res unit :=
  if type_eqb (Type_ event) LogEventIssuance || isInboundMigration ref event then
    fail_if negb (Sequence chain =? 0) || negb (is_empty (PreviousEventID chain)) || negb (is_empty (PreviousStateHash chain))
      with PlainError "dnsid: c2sp-tlog genesis requires seq 0" ;;
    Ok tt
  else
    fail_if (Sequence chain =? 0) || negb (validHash (PreviousEventID chain)) || negb (validHash (PreviousStateHash chain))
      with PlainError "dnsid: c2sp-tlog write requires lifecycle chain fields" ;;
    Ok tt.

Definition canonicalWithChain (ref : Reference) (event : LogEvent) (chain : chainFields) : res string :=
  validateWritableStream ref event ;;
  p ← payloadFromEventWithChain event false (Some ref) (Some chain);
  canonicalJSON (VObject p).
Definition client_Canonical (ref : Reference) (event : LogEvent) : res string :=
  chain ← chainForWrite ref event; canonicalWithChain ref event chain.
Definition CanonicalWithChain (ref : Reference) (event : LogEvent) (chain : Chain) : res string :=
  validateChain ref event chain ;; canonicalWithChain ref event (chainFieldsFromChain event chain).

Definition client_EntryBytes (ref : Reference) (event : LogEvent) : res string :=
  validateWritableStream ref event ;;
  chain ← chainForWrite ref event;
  entryBytesWithChain event (Some ref) (Some chain).
Definition EntryBytesWithChain (ref : Reference) (event : LogEvent) (chain : Chain) : res string :=
  validateWritableStream ref event ;;
  validateChain ref event chain ;;
  entryBytesWithChain event (Some ref) (Some (chainFieldsFromChain event chain)).
End events.
Arguments parsedEvent : clear implicits.
