(* ===== verification/EventSpec.v ===== *)
(** * EventSpec: what an entry's signed bytes mean

    Stored entries are the canonical bytes of their payload, and the signed
    bytes determine everything of the payload but the signatures. *)

From Stdlib Require Import ZArith Lia Ascii String.
From S2P Require Import Prelude Codec Utf8 Numbers Jcs JcsSpec Keys Fqdn Lifecycle Evidence Reference Event.

Open Scope Z_scope.

(** ** Decoded values are shallow *)
Lemma height_object_le m n :
  (forall k v, m !! k = Some v -> (S (height v) <= n)%nat) -> (height (VObject m) <= n)%nat.
Proof.
  cbn. apply (map_fold_weak_ind (fun r (m : gmap string value) =>
    (forall k v, m !! k = Some v -> (S (height v) <= n)%nat) -> (r <= n)%nat)); [lia|].
  intros i x m' r Hm IH Hall. pose proof (Hall i x (lookup_insert_eq _ _ _)) as Hx.
  assert (r <= n)%nat; [|lia]. apply IH. intros k v Hk. apply (Hall k). rewrite lookup_insert_ne; [done|].
  intros ->. by rewrite Hm in Hk.
Qed.

Lemma height_array_le l n : (forall v, v ∈ l -> (S (height v) <= n)%nat) -> (height (VArray l) <= n)%nat.
Proof.
  induction l as [|x l IH]; intros Hall; [cbn; lia|].
  assert (height (VArray (x :: l)) = S (height x) `max` height (VArray l))%nat as -> by done.
  pose proof (Hall x ltac:(left)). assert (height (VArray l) <= n)%nat; [|lia]. apply IH. intros v Hv. apply Hall. by right.
Qed.

(** A scalar is flat. *)
Lemma read_scalar_height c s v r : read_scalar c s = Some (v, r) -> height v = 0%nat.
Proof.
  unfold read_scalar. intros H.
  repeat match goal with
  | H : (if ?b then _ else _) = Some _ |- _ => destruct b
  | H : mbind _ ?o = Some _ |- _ => destruct o as [?|]; [cbn [mbind option_bind] in H|done]
  | H : (let '(_, _) := ?p in _) = Some _ |- _ => destruct p
  | H : Some _ = Some _ |- _ => by injection H as <- _
  end.
Qed.

Lemma next_token_height s st stack v d : next_token s st stack = Ok (TValue v, d) -> height v = 0%nat.
Proof.
  revert st stack. induction s as [|c s IH]; intros st stack; [done|]. cbn [next_token].
  destruct (json_space c); [apply IH|].
  destruct (Ascii.eqb c "["); [by destruct (negb _)|].
  destruct (Ascii.eqb c "]"); [destruct stack; [done|by destruct (negb _)]|].
  destruct (Ascii.eqb c "{"); [by destruct (negb _)|].
  destruct (Ascii.eqb c "}"); [destruct stack; [done|by destruct (negb _)]|].
  destruct (Ascii.eqb c ":"); [destruct (negb _); [done|apply IH]|].
  destruct (Ascii.eqb c ","); [destruct st; done || apply IH|].
  destruct (_ && _).
  - destruct (read_string s) as [[t r]|]; [|done]. by intros [= <- _].
  - destruct (negb _); [done|]. destruct (read_scalar c s) as [[w r]|] eqn:E; [|done].
    intros [= <- _]. by eapply read_scalar_height.
Qed.

Definition shallow (depth : nat) (r : res (value * decoder)) : Prop :=
  match r with Ok (v, _) => (depth + height v <= 64)%nat | Err _ => True end.

Lemma decode_shallow fuel :
  (forall d depth, shallow depth (decodeValue fuel d depth)) /\
  (forall obj d depth, (depth <= 64)%nat -> (forall k v, obj !! k = Some v -> depth + S (height v) <= 64)%nat ->
     shallow depth (decode_members fuel obj d depth)) /\
  (forall vs d depth, (depth <= 64)%nat -> (forall v, v ∈ vs -> depth + S (height v) <= 64)%nat ->
     shallow depth (decode_elements fuel vs d depth)).
Proof.
  induction fuel as [|fuel (IHv & IHm & IHe)]; [done|]. split; [|split].
  - intros d depth. cbn [decodeValue]. destruct (Nat.ltb_spec 64 depth) as [|Hd]; [done|].
    destruct (Token d) as [[t d']|] eqn:Et; [|done]. cbn [mbind res_bind]. destruct t as [c|v].
    + destruct (Ascii.eqb c "{"); [apply IHm; [lia|]; intros k v; by rewrite lookup_empty|].
      destruct (Ascii.eqb c "["); [|done]. apply IHe; [lia|]. by intros v Hv%elem_of_nil.
    + apply next_token_height in Et. cbn. lia.
  - intros obj d depth Hd Hobj. cbn [decode_members]. destruct (More d).
    + destruct (Token d) as [[t d']|]; [|done]. cbn [mbind res_bind]. destruct t as [|[]]; try done.
      destruct (bool_decide _); [done|]. pose proof (IHv d' (S depth)) as Hv.
      destruct (decodeValue fuel d' (S depth)) as [[v d'']|]; [|done]. cbn [mbind res_bind shallow] in *.
      apply IHm; [done|]. intros k w. rewrite lookup_insert_Some. intros [[_ <-]|[_ H]]; [lia|by eapply Hobj].
    + destruct (Token d) as [[t d']|]; [|done]. cbn [mbind res_bind shallow].
      assert (height (VObject obj) <= 64 - depth)%nat; [|lia]. apply height_object_le. intros k v Hk. apply Hobj in Hk. lia.
  - intros vs d depth Hd Hvs. cbn [decode_elements]. destruct (More d).
    + pose proof (IHv d (S depth)) as Hv.
      destruct (decodeValue fuel d (S depth)) as [[v d'']|]; [|done]. cbn [mbind res_bind shallow] in *.
      apply IHe; [done|]. intros w [Hw| ->%list_elem_of_singleton]%elem_of_app; [by apply Hvs|lia].
    + destruct (Token d) as [[t d']|]; [|done]. cbn [mbind res_bind shallow].
      assert (height (VArray vs) <= 64 - depth)%nat; [|lia]. apply height_array_le. intros v Hv. apply Hvs in Hv. lia.
Qed.

Lemma DecodeObject_shallow data m : DecodeObject data = Ok m -> (height (VObject m) <= 64)%nat.
Proof.
  unfold DecodeObject. destruct (negb _); [done|]. destruct (decode_shallow (decode_fuel data)) as (Hv & _ & _).
  specialize (Hv (Decoder data tokenTopValue []) 0%nat).
  destruct (decodeValue _ _ _) as [[v d]|]; [|done]. cbn [mbind res_bind shallow] in *.
  destruct (Token d) as [|e]; [done|]. destruct (bool_decide _); [|done]. destruct v; try done. by intros [= <-].
Qed.

(** ** Entries are canonical *)
Lemma payload_from_entry entry p :
  payloadObjectFromEntry entry = Ok p ->
  canonicalJSON (VObject p) = Ok entry /\ DecodeObject entry = Ok p /\ norm <$> p = p /\ (height (VObject p) <= 64)%nat.
Proof.
  unfold payloadObjectFromEntry. destruct (is_empty entry); [done|]. destruct (_ <? _); [done|].
  destruct (DecodeObject entry) as [q|] eqn:Ed; [|done]. unfold mbind, res_bind.
  destruct (validatePayloadJSON q); [|done]. destruct (canonicalJSON (VObject q)) as [c|] eqn:Ec; [|done].
  destruct (str_eqb entry c) eqn:E; [|done]. apply str_eqb_eq in E as <-. intros [= <-].
  pose proof (DecodeObject_shallow _ _ Ed) as Hh. split; [done|]. split; [done|]. split; [|done].
  pose proof (decode_written q entry (canonicalJSON_write _ _ Ec) Hh). congruence.
Qed.

Lemma height_delete m k : (height (VObject (delete k m)) <= height (VObject m))%nat.
Proof.
  apply height_object_le. intros k' v [_ H]%lookup_delete_Some. by eapply height_object.
Qed.

(** Entries with the same signed bytes have the same payload but for the
    signatures. *)
Lemma signed_bytes_payload e1 e2 p1 p2 b :
  payloadObjectFromEntry e1 = Ok p1 -> payloadObjectFromEntry e2 = Ok p2 ->
  CanonicalFromEntry e1 = Ok b -> CanonicalFromEntry e2 = Ok b ->
  delete "sigs"%string p1 = delete "sigs"%string p2.
Proof.
  unfold CanonicalFromEntry. intros H1 H2. rewrite H1, H2. unfold mbind, res_bind.
  destruct (canonicalJSON (VObject (delete "sigs"%string p1))) as [b1|] eqn:E1; [|done]. intros [= ->].
  destruct (canonicalJSON (VObject (delete "sigs"%string p2))) as [b2|] eqn:E2; [|done]. intros [= ->].
  apply payload_from_entry in H1 as (_ & _ & Hn1 & Hh1), H2 as (_ & _ & Hn2 & Hh2).
  pose proof (height_delete p1 "sigs"). pose proof (height_delete p2 "sigs").
  pose proof (decode_written _ _ (canonicalJSON_write _ _ E1) ltac:(lia)) as D1.
  pose proof (decode_written _ _ (canonicalJSON_write _ _ E2) ltac:(lia)) as D2.
  rewrite D1 in D2. injection D2 as D2. rewrite !fmap_delete, Hn1, Hn2 in D2. done.
Qed.

Section events.
Context {key : Type} `{!KeyOps key} `{!JwkText key} {U : NetURL} {I : Idna}.
Abbreviation LogEvent := (LogEvent key).

(** The event without what its signatures say. *)
Definition unsigned (e : LogEvent) : LogEvent :=
  {| Type_ := Type_ e; InitialEntityKid := ""; InitialEntityPublicKey := InitialEntityPublicKey e;
     InitialEntityThumbprint := InitialEntityThumbprint e; InitialEntitySignature := "";
     InitialOperationalKid := ""; InitialOperationalPublicKey := InitialOperationalPublicKey e;
     InitialOperationalThumbprint := InitialOperationalThumbprint e; InitialOperationalSignature := "";
     PreviousOperationalKid := ""; PreviousOperationalThumbprint := PreviousOperationalThumbprint e;
     PreviousOperationalSignature := ""; NewOperationalKid := "";
     NewOperationalPublicKey := NewOperationalPublicKey e; NewOperationalThumbprint := NewOperationalThumbprint e;
     NewOperationalSignature := ""; Lifecycle.Domain := Lifecycle.Domain e; Timestamp := Timestamp e;
     GovernanceID := GovernanceID e; Reason := Reason e; PreviousLog := PreviousLog e; NewLog := NewLog e;
     FinalEntryRef := FinalEntryRef e; Delegatee := Delegatee e; Lifecycle.Scope := Lifecycle.Scope e;
     Lifecycle.Expiry := Lifecycle.Expiry e |}.

Definition agree (p1 p2 : payload) : Prop := forall k, k <> "sigs"%string -> p1 !! k = p2 !! k.

Lemma agree_delete p1 p2 : delete "sigs"%string p1 = delete "sigs"%string p2 -> agree p1 p2.
Proof. intros E k Hk. by rewrite <- (lookup_delete_ne p1 "sigs" k), E, lookup_delete_ne by done. Qed.

Lemma agree_event p1 p2 q1 q2 :
  agree p1 p2 -> eventFromPayload p1 = Ok q1 -> eventFromPayload p2 = Ok q2 ->
  unsigned (p_event q1) = unsigned (p_event q2) /\ p_chain q1 = p_chain q2.
Proof.
  intros Hag. assert (forall k, k <> "sigs"%string ->
    optionalString p1 k = optionalString p2 k /\ stringField p1 k = stringField p2 k /\
    int64Field p1 k = int64Field p2 k /\ optionalInt64 p1 k = optionalInt64 p2 k /\
    optionalUint64 p1 k = optionalUint64 p2 k /\ optionalJWK (key:=key) p1 k = optionalJWK p2 k) as Hf.
  { intros k Hk. unfold int64Field, optionalUint64, optionalString, stringField, optionalInt64, optionalJWK.
    by rewrite (Hag k Hk). }
  assert (read_chain p1 = read_chain p2) as Hc.
  { unfold read_chain. rewrite !Hag by done.
    destruct (Hf "seq"%string ltac:(done)) as (_ & _ & _ & _ & -> & _).
    destruct (Hf "prev_event_id"%string ltac:(done)) as (-> & _).
    destruct (Hf "prev_state_hash"%string ltac:(done)) as (-> & _). done. }
  assert (forall t f ts, unsigned (read_event t f ts p1) = unsigned (read_event t f ts p2)) as Hr.
  { intros t f ts. unfold unsigned, read_event. cbn.
    repeat match goal with |- context [optionalString p1 ?k] =>
      destruct (Hf k ltac:(done)) as (-> & _) end.
    repeat match goal with |- context [optionalJWK p1 ?k] =>
      destruct (Hf k ltac:(done)) as (_ & _ & _ & _ & _ & ->) end.
    destruct (Hf "expiry"%string ltac:(done)) as (_ & _ & _ & -> & _). done. }
  unfold eventFromPayload.
  destruct (Hf "v"%string ltac:(done)) as (_ & _ & -> & _). destruct (Hf "kind"%string ltac:(done)) as (_ & -> & _).
  destruct (Hf "type"%string ltac:(done)) as (_ & -> & _). destruct (Hf "fqdn"%string ltac:(done)) as (_ & -> & _).
  destruct (Hf "ts"%string ltac:(done)) as (_ & _ & -> & _).
  intros H1 H2. go_inv; cbn [p_event p_chain]; split; done || apply Hr.
Qed.

Lemma payload_of_parse entry q :
  parseEventFromEntry entry = Ok q ->
  exists p r, payloadObjectFromEntry entry = Ok p /\ eventFromPayload p = Ok r /\
    p_chain q = p_chain r /\ p_event q = p_event r /\
    p_validationError q = join_errors (p_validationError r) (error_of (validateEmbeddedSignatureKids (p_event r))).
Proof.
  unfold parseEventFromEntry. destruct (payloadObjectFromEntry entry) as [p|] eqn:E; [|done].
  unfold mbind, res_bind. destruct (eventFromPayload p) as [r|] eqn:P; [|done].
  destruct (requiredSignerRoles _); [|done]. destruct (validateSignatureShape _ _ _); [|done].
  intros [= <-]. by exists p, r.
Qed.

Lemma same_signed_bytes e1 e2 q1 q2 b :
  parseEventFromEntry (key:=key) e1 = Ok q1 -> parseEventFromEntry e2 = Ok q2 ->
  CanonicalFromEntry e1 = Ok b -> CanonicalFromEntry e2 = Ok b ->
  unsigned (p_event q1) = unsigned (p_event q2) /\ p_chain q1 = p_chain q2.
Proof.
  intros H1 H2 C1 C2.
  destruct (payload_of_parse _ _ H1) as (p1 & r1 & D1 & R1 & -> & -> & _).
  destruct (payload_of_parse _ _ H2) as (p2 & r2 & D2 & R2 & -> & -> & _).
  pose proof (agree_delete _ _ (signed_bytes_payload _ _ _ _ _ D1 D2 C1 C2)) as Hag.
  by apply (agree_event p1 p2).
Qed.

(** The signed bytes of a stored entry bind its meaning: two entries with
    the same signed bytes carry the same event, up to the signatures, and the
    same place in the chain; no second reading of signed bytes exists. *)
Theorem signed_bytes_bind_event e1 e2 q1 q2 b :
  parseEventFromEntry (key:=key) e1 = Ok q1 -> parseEventFromEntry e2 = Ok q2 ->
  CanonicalFromEntry e1 = Ok b -> CanonicalFromEntry e2 = Ok b ->
  unsigned (p_event q1) = unsigned (p_event q2) /\ p_chain q1 = p_chain q2.
Proof. apply same_signed_bytes. Qed.
End events.
