(* ===== verification/Replay.v ===== *)
(** * Replay: from log entries to a verified lifecycle

    log/c2sptlog/signatures.go: [verifyLifecycleVerifiedWithMigration] replays
    the entries of a stream in log order and keeps those that the identity's
    own keys authorize, as one hash-linked chain; prepared.go:
    [lifecycleStateFromVerified]; check_append.go: [CheckAppend]. The state of
    the loop is the record [replay]; the context is a function of the number
    of entries seen, so that it may be cancelled between any two of them. *)

From Stdlib Require Import ZArith Lia Ascii String.
From S2P Require Import Prelude Codec Utf8 Numbers Jcs JcsSpec Keys Fqdn Lifecycle Merkle Evidence Reference Policy Checkpoint Scan Event.

Open Scope Z_scope.

Definition verr (code msg : string) : error := VerificationError code false msg.
Definition invalidMigration (msg : string) (cause : option error) : error :=
  match cause with
  | None => verr "INVALID_MIGRATION" msg
  | Some c => WithCause (verr "INVALID_MIGRATION" msg) c
  end.

(** [LoggedStateEvidence] of log/log.go. *)
Inductive LoggedStateEvidence := mkEvidence {
  LogReference : string;
  LoggedState : option AgentState;
  HistoryStart : string;
  HistoryEnd : string;
  CompleteThrough : string;
  CompletenessMode : string;
  ev_Checkpoint : string;
  FreshnessTime : time;
  PriorEvidence : list LoggedStateEvidence
}.

(** A log entry with its index and inclusion proof, as a source supplies it. *)
Record ProvenEntry := { pe_Index : Z; Entry : string; Proof_ : string }.

Section replay.
Context {key : Type} `{!KeyOps key} `{!JwkText key} {U : NetURL} {I : Idna}.
Abbreviation LogEvent := (LogEvent key).

Record MigrationVerificationResult := {
  EntityKey : option key;
  ActiveOperationalKey : option key;
  PriorHistory : list LogEvent;
  mig_PriorEvidence : option LoggedStateEvidence;
  PriorHistoryReferences : list string;
  FinalOccurrence : option ProvenEntry
}.

Record verifiedEvent := {
  v_event : LogEvent;
  v_chain : chainFields;
  v_index : Z;
  v_signed : string;
  v_parseError : option error;
  v_migration : option MigrationVerificationResult;
  v_authorityEntity : option key;
  v_authorityOperational : option key
}.

(** ** Signatures *)
Definition sig_error : error := PlainError "dnsid: invalid c2sp-tlog signature".

Definition verifyEventSignature (k : option key) (payload sigValue : string) : res unit :=
  match k with
  | None => Err (PlainError "dnsid: missing c2sp-tlog signature key")
  | Some k =>
      fail_if is_empty sigValue with PlainError "dnsid: missing c2sp-tlog signature" ;;
      match Base64.decode false sigValue with
      | None => Err (PlainError "dnsid: invalid c2sp-tlog signature encoding")
      | Some sig =>
          match key_type k with
          | OKP =>
              fail_if negb (bool_decide (key_crv k = Some Ed25519)) with sig_error ;;
              match export_ed25519 k with
              | None => Err sig_error
              | Some pub =>
                  fail_if negb (Cryptoutil.VerifyEd25519 (key:=key) pub payload sig) with sig_error ;; Ok tt
              end
          | EC =>
              fail_if negb (bool_decide (key_crv k = Some P256)) with sig_error ;;
              match export_p256 k with
              | None => Err sig_error
              | Some pub =>
                  fail_if negb (String.length sig =? Cryptoutil.ES256SignatureSize)%nat || negb (p256_valid (key:=key) pub)
                    with sig_error ;;
                  let '(r, s) := Cryptoutil.ES256RawRS sig in
                  fail_if negb (ecdsa_verify (key:=key) pub (sha256 payload) r s) with sig_error ;; Ok tt
              end
          | OtherKeyType => Err sig_error
          end
      end
  end.

(** The kid a signature must name, and the signature itself. *)
Definition signed_by (k : option key) (kid signature canonical : string) : bool :=
  match k with
  | None => false
  | Some k' => negb (is_empty kid) && str_eqb kid (kid_or_empty k')
               && is_ok (verifyEventSignature k canonical signature)
  end.

Definition candidateAuthorizedByCurrentHistory (event : LogEvent) (canonical : string)
    (entityKey operationalKey : option key) : bool :=
  match Type_ event with
  | LogEventIssuance =>
      signed_by entityKey (InitialEntityKid event) (InitialEntitySignature event) canonical
      && signed_by (InitialOperationalPublicKey event) (InitialOperationalKid event)
           (InitialOperationalSignature event) canonical
  | LogEventKeyRotation =>
      signed_by operationalKey (PreviousOperationalKid event) (PreviousOperationalSignature event) canonical
      && signed_by (NewOperationalPublicKey event) (NewOperationalKid event)
           (NewOperationalSignature event) canonical
  | LogEventRevocation | LogEventRetirement | LogEventMigration | LogEventDelegation =>
      signed_by entityKey (InitialEntityKid event) (InitialEntitySignature event) canonical
  | LogEventOther _ => false
  end.

(** ** The chain of states *)
Definition activeLifecycleState (domain entityThumb operationalThumb : string) : payload :=
  <["fqdn" := VString domain]> (<["status" := VString "ACTIVE"]>
    (<["entity_thumb" := VString entityThumb]> (<["operational_thumb" := VString operationalThumb]> ∅))).

Definition lifecycleStateHash (state : payload) : string :=
  match canonicalJSON (VObject state) with
  | Err _ => EmptyString
  | Ok canonical => Base64.encode (sha256 (String.append "dnsid-c2sp-state-v1" canonical))
  end.

Definition validGenesisChain (chain : chainFields) : bool :=
  negb (chain_invalid chain) && bool_decide (sequence chain = Some 0)
  && is_empty (previousEventID chain) && is_empty (previousStateHash chain).

Definition validChainFields (chain : chainFields) (seq : Z) (previousEvent : string) (previousState : payload) : bool :=
  negb (chain_invalid chain) && bool_decide (sequence chain = Some seq)
  && validHash (previousEventID chain)
  && str_eqb (previousEventID chain) previousEvent
  && str_eqb (previousStateHash chain) (lifecycleStateHash previousState).

(** ** Inbound migrations *)
Definition latest_time (history : list LogEvent) : time :=
  match history with
  | [] => 0
  | h :: rest => fold_left (fun latest prior => if after (Timestamp prior) latest then Timestamp prior else latest) rest (Timestamp h)
  end.

Definition validateMigrationResult (event : LogEvent) (migration : MigrationVerificationResult) : res unit :=
  fail_if is_nil (EntityKey migration) || is_nil (ActiveOperationalKey migration)
       || bool_decide (PriorHistory migration = [])
    with invalidMigration "dnsid: inbound MIGRATION prior history and keys are required" None ;;
  match keyThumbprint (EntityKey migration) with
  | Err e => Err (invalidMigration "dnsid: inbound MIGRATION entity key is invalid" (Some e))
  | Ok entityThumb =>
      match keyThumbprint (ActiveOperationalKey migration) with
      | Err e => Err (invalidMigration "dnsid: inbound MIGRATION operational key is invalid" (Some e))
      | Ok operationalThumb =>
          fail_if str_eqb entityThumb operationalThumb
            with invalidMigration "dnsid: inbound MIGRATION operational key is invalid" None ;;
          fail_if existsb (fun prior => type_eqb (Type_ prior) LogEventMigration
                     && str_eqb (PreviousLog prior) (PreviousLog event) && str_eqb (NewLog prior) (NewLog event)
                     && str_eqb (FinalEntryRef prior) (FinalEntryRef event)) (PriorHistory migration)
            with invalidMigration "dnsid: inbound MIGRATION must appear exactly once in stitched history" None ;;
          let latest := latest_time (PriorHistory migration) in
          fail_if before (Timestamp event) latest
            with invalidMigration "dnsid: migration timestamp precedes imported history" None ;;
          match SnapshotAt (Some (NewDomainLog (Lifecycle.Domain event) (PriorHistory migration))) latest with
          | Err e => Err (invalidMigration "dnsid: inbound MIGRATION prior history does not establish the active operational key" (Some e))
          | Ok snapshot =>
              fail_if negb (bool_decide (HistoricalState snapshot = Some AgentStateActive))
                   || negb (str_eqb (ActiveKeyThumbprint snapshot) operationalThumb)
                with invalidMigration "dnsid: inbound MIGRATION prior history does not establish the active operational key" None ;;
              let priorEntityKey := match List.find (fun prior => type_eqb (Type_ prior) LogEventIssuance) (PriorHistory migration) with
                | Some prior => InitialEntityPublicKey prior | None => None end in
              fail_if match keyThumbprint priorEntityKey with Ok t => negb (str_eqb t entityThumb) | Err _ => true end
                with invalidMigration "dnsid: inbound MIGRATION prior history does not establish the entity key" None ;;
              Ok tt
          end
      end
  end.

(** ** The replay loop *)
Record replay := {
  out : list verifiedEvent;
  priorHistory : list LogEvent;
  entityKey : option key;
  currentOperationalKey : option key;
  currentOperationalThumb : string;
  started : bool;
  terminal : bool;
  sawMigration : bool;
  seen : gmap string string;
  postStates : gmap string (option key * option key);
  lastEventID : string;
  nextSeq : Z;
  previousState : payload
}.

Definition replay_start : replay :=
  {| out := []; priorHistory := []; entityKey := None; currentOperationalKey := None;
     currentOperationalThumb := ""; started := false; terminal := false; sawMigration := false;
     seen := ∅; postStates := ∅; lastEventID := ""; nextSeq := 0; previousState := ∅ |}.

(** [postStates[lastEventID] = authority{...}] at the head of the loop. *)
Definition note_authority (s : replay) : replay :=
  {| out := out s; priorHistory := priorHistory s; entityKey := entityKey s;
     currentOperationalKey := currentOperationalKey s; currentOperationalThumb := currentOperationalThumb s;
     started := started s; terminal := terminal s; sawMigration := sawMigration s; seen := seen s;
     postStates := if is_empty (lastEventID s) then postStates s
                   else <[lastEventID s := (entityKey s, currentOperationalKey s)]> (postStates s);
     lastEventID := lastEventID s; nextSeq := nextSeq s; previousState := previousState s |}.

Definition with_initial_keys (e : LogEvent) (ek : option key) (ekt : string) (ok : option key) (okt : string) : LogEvent :=
  {| Type_ := Type_ e; InitialEntityKid := InitialEntityKid e; InitialEntityPublicKey := ek;
     InitialEntityThumbprint := ekt; InitialEntitySignature := InitialEntitySignature e;
     InitialOperationalKid := InitialOperationalKid e; InitialOperationalPublicKey := ok;
     InitialOperationalThumbprint := okt; InitialOperationalSignature := InitialOperationalSignature e;
     PreviousOperationalKid := PreviousOperationalKid e; PreviousOperationalThumbprint := PreviousOperationalThumbprint e;
     PreviousOperationalSignature := PreviousOperationalSignature e; NewOperationalKid := NewOperationalKid e;
     NewOperationalPublicKey := NewOperationalPublicKey e; NewOperationalThumbprint := NewOperationalThumbprint e;
     NewOperationalSignature := NewOperationalSignature e; Lifecycle.Domain := Lifecycle.Domain e;
     Timestamp := Timestamp e; GovernanceID := GovernanceID e; Reason := Reason e; PreviousLog := PreviousLog e;
     NewLog := NewLog e; FinalEntryRef := FinalEntryRef e; Delegatee := Delegatee e;
     Lifecycle.Scope := Lifecycle.Scope e; Lifecycle.Expiry := Lifecycle.Expiry e |}.

Definition with_event (item : verifiedEvent) (e : LogEvent) : verifiedEvent :=
  {| v_event := e; v_chain := v_chain item; v_index := v_index item; v_signed := v_signed item;
     v_parseError := v_parseError item; v_migration := v_migration item;
     v_authorityEntity := v_authorityEntity item; v_authorityOperational := v_authorityOperational item |}.
Definition with_authority (item : verifiedEvent) (ek ok : option key) : verifiedEvent :=
  {| v_event := v_event item; v_chain := v_chain item; v_index := v_index item; v_signed := v_signed item;
     v_parseError := v_parseError item; v_migration := v_migration item;
     v_authorityEntity := ek; v_authorityOperational := ok |}.
Definition with_migration (item : verifiedEvent) (m : MigrationVerificationResult) : verifiedEvent :=
  {| v_event := v_event item; v_chain := v_chain item; v_index := v_index item; v_signed := v_signed item;
     v_parseError := v_parseError item; v_migration := Some m;
     v_authorityEntity := v_authorityEntity item; v_authorityOperational := v_authorityOperational item |}.

(** The genesis leaves this state: [out] is the one event. *)
Definition begin_stream (s : replay) (id canonical : string) (item : verifiedEvent) (ek ok : option key)
    (okt : string) (state : payload) (prior : list LogEvent) : replay :=
  {| out := out s ++ [with_authority item ek ok]; priorHistory := prior; entityKey := ek;
     currentOperationalKey := ok; currentOperationalThumb := okt; started := true; terminal := terminal s;
     sawMigration := sawMigration s; seen := <[id := canonical]> (seen s); postStates := postStates s;
     lastEventID := id; nextSeq := 1; previousState := state |}.

Definition note_migration (s : replay) : replay :=
  {| out := out s; priorHistory := priorHistory s; entityKey := entityKey s;
     currentOperationalKey := currentOperationalKey s; currentOperationalThumb := currentOperationalThumb s;
     started := started s; terminal := terminal s; sawMigration := true; seen := seen s;
     postStates := postStates s; lastEventID := lastEventID s; nextSeq := nextSeq s; previousState := previousState s |}.
Definition note_genesis_keys (s : replay) (ek ok : option key) (okt : string) : replay :=
  {| out := out s; priorHistory := priorHistory s; entityKey := ek; currentOperationalKey := ok;
     currentOperationalThumb := okt; started := started s; terminal := terminal s; sawMigration := sawMigration s;
     seen := seen s; postStates := postStates s; lastEventID := lastEventID s; nextSeq := 1;
     previousState := previousState s |}.

(** [KeyID]s of an inbound migration's claims. *)
Definition migration_reference_ok (event : LogEvent) : bool :=
  match ParseLogRef (PreviousLog event) with
  | Err _ => false
  | Ok (method, _) =>
      if str_eqb method Method then
        match ParseFinalEventRef (FinalEntryRef event) with
        | Err _ => false
        | Ok (previous, _) => str_eqb (ref_String previous) (PreviousLog event)
        end
      else true
  end.

(** An inbound MIGRATION as the first event: the imported history re-anchors
    the keys. [Ok None] is [continue]. *)
Definition migration_genesis (currentLog : string) (verifyMigration : option (LogEvent -> res MigrationVerificationResult))
    (s : replay) (item : verifiedEvent) (id canonical : string) : res (option replay) :=
  let event := v_event item in
  match verifyMigration with
  | None => Ok None
  | Some verify =>
      if is_empty (PreviousLog event) || is_empty (NewLog event) || is_empty (FinalEntryRef event)
         || str_eqb (PreviousLog event) (NewLog event)
         || negb (is_empty currentLog) && negb (str_eqb (NewLog event) currentLog)
      then Ok None
      else if negb (migration_reference_ok event) then Ok None
      else match verify event with
      | Err e => Err (invalidMigration "dnsid: inbound MIGRATION prior history verification failed" (Some e))
      | Ok migration =>
          match EntityKey migration with
          | None => Err (invalidMigration "dnsid: verified migration entity key is required" None)
          | Some ek =>
              if is_empty (InitialEntityKid event) || negb (str_eqb (InitialEntityKid event) (kid_or_empty ek))
                 || negb (is_ok (verifyEventSignature (Some ek) canonical (InitialEntitySignature event)))
              then Ok None
              else
                validateMigrationResult event migration ;;
                let operational := ActiveOperationalKey migration in
                let operationalThumb := thumb_or_empty operational in
                let entityThumb := thumb_or_empty (Some ek) in
                let event := with_initial_keys event (Some ek) entityThumb operational operationalThumb in
                match v_parseError item with
                | Some e => Err (invalidMigration "dnsid: invalid authenticated migration payload" (Some e))
                | None =>
                    fail_if negb (validGenesisChain (v_chain item))
                      with verr "CHAIN_CONTINUITY" "dnsid: invalid c2sp-tlog migration genesis chain" ;;
                    Ok (Some (begin_stream s id canonical (with_migration (with_event item event) migration) (Some ek) operational
                      operationalThumb (activeLifecycleState (Lifecycle.Domain event) entityThumb operationalThumb)
                      (PriorHistory migration)))
                end
          end
      end
  end.

(** An ISSUANCE as the first event. *)
Definition issuance_genesis (s : replay) (item : verifiedEvent) (id canonical : string) : res replay :=
  let event := v_event item in
  if negb (candidateAuthorizedByCurrentHistory event canonical (InitialEntityPublicKey event) (InitialOperationalPublicKey event))
  then Ok s
  else
    match (if is_empty (InitialOperationalThumbprint event) then keyThumbprint (InitialOperationalPublicKey event)
           else Ok (InitialOperationalThumbprint event)) with
    | Err _ => Ok s
    | Ok okt =>
        let event := with_initial_keys event (InitialEntityPublicKey event) (InitialEntityThumbprint event)
                       (InitialOperationalPublicKey event) okt in
        match v_parseError item with
        | Some e => Err (WithCause (verr "INVALID_EVIDENCE" "dnsid: invalid authenticated genesis") e)
        | None =>
            fail_if negb (validGenesisChain (v_chain item))
              with verr "CHAIN_CONTINUITY" "dnsid: invalid c2sp-tlog genesis chain" ;;
            let ek := InitialEntityPublicKey event in
            let ok := InitialOperationalPublicKey event in
            match keyThumbprint ek with
            | Err _ => Ok (note_genesis_keys s ek ok okt)
            | Ok entityThumb =>
                if is_empty (InitialEntityThumbprint event) || negb (str_eqb entityThumb (InitialEntityThumbprint event))
                   || str_eqb entityThumb okt
                then Ok (note_genesis_keys s ek ok okt)
                else Ok (begin_stream (note_genesis_keys s ek ok okt) id canonical (with_event item event) ek ok okt
                  (activeLifecycleState (Lifecycle.Domain event) entityThumb okt) (priorHistory s))
            end
        end
    end.

(** The end of the loop body: the event is applied. *)
Definition apply_event (s : replay) (item : verifiedEvent) (id canonical : string)
    (ok : option key) (okt : string) (state : payload) (ends : bool) : replay :=
  {| out := out s ++ [item]; priorHistory := priorHistory s; entityKey := entityKey s;
     currentOperationalKey := ok; currentOperationalThumb := okt; started := started s;
     terminal := terminal s || ends; sawMigration := sawMigration s;
     seen := <[id := canonical]> (seen s); postStates := postStates s; lastEventID := id;
     nextSeq := u64 (nextSeq s + 1); previousState := state |}.

(** The [switch event.Type] of the started stream. *)
Definition transition (s : replay) (item : verifiedEvent) (id canonical : string) : res replay :=
  let event := v_event item in
  let active := fun et okt => activeLifecycleState (Lifecycle.Domain event) et okt in
  match Type_ event with
  | LogEventKeyRotation =>
      fail_if negb (str_eqb (PreviousOperationalThumbprint event) (currentOperationalThumb s))
           || is_nil (NewOperationalPublicKey event) || is_empty (NewOperationalThumbprint event)
        with verr "KEY_CONTINUITY" "dnsid: authenticated KEY_ROTATION does not continue from the active key" ;;
      match keyThumbprint (NewOperationalPublicKey event) with
      | Err e => Err (WithCause (verr "KEY_CONTINUITY" "dnsid: authenticated KEY_ROTATION new key binding is invalid") e)
      | Ok newThumb =>
          fail_if negb (str_eqb newThumb (NewOperationalThumbprint event))
               || str_eqb newThumb (currentOperationalThumb s)
               || bool_decide (previousState s !! "entity_thumb"%string = Some (VString newThumb))
            with verr "KEY_CONTINUITY" "dnsid: authenticated KEY_ROTATION new key binding is invalid" ;;
          let ok := NewOperationalPublicKey event in
          let okt := NewOperationalThumbprint event in
          match keyThumbprint (entityKey s) with
          | Err _ => (* the keys change but the event is not applied *)
              Ok {| out := out s; priorHistory := priorHistory s; entityKey := entityKey s;
              currentOperationalKey := ok; currentOperationalThumb := okt; started := started s;
              terminal := terminal s; sawMigration := sawMigration s; seen := seen s; postStates := postStates s;
              lastEventID := lastEventID s; nextSeq := nextSeq s; previousState := previousState s |}
          | Ok entityThumb => Ok (apply_event s item id canonical ok okt (active entityThumb okt) false)
          end
      end
  | LogEventRevocation =>
      fail_if negb (ValidRevocationReason (Reason event))
        with verr "INVALID_EVIDENCE" "dnsid: authenticated REVOCATION reason is invalid" ;;
      match keyThumbprint (entityKey s) with
      | Err _ => Ok s
      | Ok entityThumb =>
          Ok (apply_event s item id canonical (currentOperationalKey s) (currentOperationalThumb s)
            (<["status"%string := VString "REVOKED"]> (active entityThumb (currentOperationalThumb s))) true)
      end
  | LogEventRetirement =>
      match keyThumbprint (entityKey s) with
      | Err _ => Ok s
      | Ok entityThumb =>
          Ok (apply_event s item id canonical (currentOperationalKey s) (currentOperationalThumb s)
            (<["status"%string := VString "RETIRED"]> (active entityThumb (currentOperationalThumb s))) true)
      end
  | LogEventMigration => Err (invalidMigration "dnsid: c2sp-tlog MIGRATION must be destination genesis" None)
  | LogEventDelegation =>
      fail_if is_empty (Delegatee event) || is_empty (Lifecycle.Scope event) || time_is_zero (Lifecycle.Expiry event)
        with verr "INVALID_EVIDENCE" "dnsid: authenticated DELEGATION is invalid" ;;
      Ok (apply_event s item id canonical (currentOperationalKey s) (currentOperationalThumb s) (previousState s) false)
  | LogEventIssuance | LogEventOther _ => Ok s
  end.

Definition last_event (l : list verifiedEvent) : option LogEvent := v_event <$> last l.

(** The checks of a candidate of a started stream, once authorized. *)
Definition check_candidate (s : replay) (item : verifiedEvent) : res unit :=
  let event := v_event item in
  fail_if terminal s with verr "TERMINAL_STATE" "dnsid: authenticated c2sp-tlog lifecycle event after terminal state" ;;
  fail_if type_eqb (Type_ event) LogEventIssuance with verr "DUPLICATE_ISSUANCE" "dnsid: authenticated additional ISSUANCE" ;;
  fail_if negb (validChainFields (v_chain item) (nextSeq s) (lastEventID s) (previousState s))
    with verr "CHAIN_CONTINUITY" "dnsid: authenticated logical chain conflict" ;;
  fail_if match last_event (out s) with Some prev => before (Timestamp event) (Timestamp prev) | None => false end
    with verr "CHAIN_CONTINUITY" "dnsid: lifecycle timestamps regress" ;;
  match v_parseError item with
  | Some e => Err (WithCause (verr "INVALID_EVIDENCE" "dnsid: authenticated invalid lifecycle payload") e)
  | None => Ok tt
  end.

(** The authority a candidate is checked against: the keys after the event it
    names as its predecessor, or else the current ones. *)
Definition authority_for (s : replay) (item : verifiedEvent) : option key * option key :=
  default (entityKey s, currentOperationalKey s) (postStates s !! previousEventID (v_chain item)).

(** One iteration. *)
Definition replay_item (currentLog : string) (verifyMigration : option (LogEvent -> res MigrationVerificationResult))
    (s : replay) (item : verifiedEvent) : res replay :=
  let s := note_authority s in
  let event := v_event item in
  let canonical := v_signed item in
  if is_empty canonical then Ok s
  else
    let id := EventID canonical in
    match seen s !! id with
    | Some signed =>
        fail_if negb (str_eqb signed canonical) with verr "INVALID_EVIDENCE" "dnsid: logical event ID collision" ;;
        Ok s
    | None =>
        if started s then
          let '(ek, ok) := authority_for s item in
          if negb (candidateAuthorizedByCurrentHistory event canonical ek ok) then Ok s
          else
            check_candidate s item ;;
            transition s (with_authority item ek ok) id canonical
        else
          match Type_ event with
          | LogEventMigration =>
              r ← migration_genesis currentLog verifyMigration (note_migration s) item id canonical;
              Ok (default (note_migration s) r)
          | LogEventIssuance => issuance_genesis s item id canonical
          | _ => Ok s
          end
    end.

(** The loop; [ctx n] is [ctx.Err()] before entry [n]. *)
Fixpoint replay_loop (ctx : nat -> bool) (n : nat) (currentLog : string)
    (verifyMigration : option (LogEvent -> res MigrationVerificationResult))
    (s : replay) (items : list verifiedEvent) : res replay :=
  match items with
  | [] => fail_if ctx n && negb (bool_decide (out s = [])) with ContextError ;; Ok s
  | item :: items =>
      fail_if ctx n with ContextError ;;
      s ← replay_item currentLog verifyMigration s item;
      replay_loop ctx (S n) currentLog verifyMigration s items
  end.

Definition verifyLifecycleVerifiedWithMigration (ctx : nat -> bool) (indexed : list verifiedEvent)
    (verifyMigration : option (LogEvent -> res MigrationVerificationResult)) (currentLog : string)
    : res (list verifiedEvent * list LogEvent) :=
  s ← replay_loop ctx 0 currentLog verifyMigration replay_start indexed;
  if bool_decide (out s = []) then
    if sawMigration s then Err (invalidMigration "dnsid: no authenticated c2sp-tlog migration genesis" None)
    else Err (PlainError "dnsid: no valid c2sp-tlog lifecycle events")
  else Ok (out s, priorHistory s).

(** ** The state after a verified history (prepared.go) *)
Fixpoint state_loop (domain entityThumb : string) (operational : option key) (operationalThumb : string)
    (state : payload) (items : list verifiedEvent) : option key * payload :=
  match items with
  | [] => (operational, state)
  | item :: items =>
      let active := activeLifecycleState domain entityThumb operationalThumb in
      match Type_ (v_event item) with
      | LogEventKeyRotation =>
          let ok := NewOperationalPublicKey (v_event item) in
          let okt := NewOperationalThumbprint (v_event item) in
          state_loop domain entityThumb ok okt (activeLifecycleState domain entityThumb okt) items
      | LogEventRevocation =>
          state_loop domain entityThumb operational operationalThumb (<["status"%string := VString "REVOKED"]> active) items
      | LogEventRetirement =>
          state_loop domain entityThumb operational operationalThumb (<["status"%string := VString "RETIRED"]> active) items
      | LogEventDelegation => state_loop domain entityThumb operational operationalThumb state items
      | _ => state_loop domain entityThumb operational operationalThumb active items
      end
  end.

Definition lifecycleStateFromVerified (verified : list verifiedEvent) (domain : string)
    : res (option key * option key * payload) :=
  match verified with
  | [] => Err (PlainError "dnsid: c2sp-tlog lifecycle history is empty")
  | first :: rest =>
      let entity := InitialEntityPublicKey (v_event first) in
      let operational := InitialOperationalPublicKey (v_event first) in
      entityThumb ← keyThumbprint entity;
      operationalThumb ← keyThumbprint operational;
      let '(operational, state) := state_loop domain entityThumb operational operationalThumb
        (activeLifecycleState domain entityThumb operationalThumb) rest in
      Ok (entity, operational, state)
  end.

(** ** CheckAppend (check_append.go) *)
Record LifecycleState := { FQDN : string; Status : string; EntityThumb : string; OperationalThumb : string }.
Definition state_object (s : LifecycleState) : payload :=
  <["fqdn" := VString (FQDN s)]> (<["status" := VString (Status s)]>
    (<["entity_thumb" := VString (EntityThumb s)]> (<["operational_thumb" := VString (OperationalThumb s)]> ∅))).
Definition state_Hash (s : LifecycleState) : string := lifecycleStateHash (state_object s).

Record StreamHead := {
  Seq : Z; head_EventID : string; head_Type : LogEventType; State : LifecycleState; head_GovernanceID : string
}.

(** [validateHistorySize] (client.go), on pairs of an entry and its proof. *)
Fixpoint history_bytes (total : Z) (entries : list (string * string)) : res unit :=
  match entries with
  | [] => Ok tt
  | (entry, proof) :: entries =>
      let total := total + Z.of_nat (String.length entry) + Z.of_nat (String.length proof) in
      fail_if defaultScanMaxTotalEntryBytes <? total with PlainError "dnsid: history exceeds byte limit" ;;
      history_bytes total entries
  end.
Definition validateHistorySize (entries : list (string * string)) : res unit :=
  fail_if defaultScanMaxTreeSize <? Z.of_nat (List.length entries) with PlainError "dnsid: history exceeds entry limit" ;;
  history_bytes 0 entries.

Definition in_validation {A} (msg : string) (r : res A) : res A :=
  match r with Ok a => Ok a | Err e => Err (WithCause (ValidationError msg) e) end.
Definition in_parse {A} (msg : string) (r : res A) : res A :=
  match r with Ok a => Ok a | Err e => Err (WithCause (ParseError msg) e) end.

(** One entry of [CheckAppend]: [domain] is the stream's, once known. *)
Definition check_entry (ref : Reference) (domain : option string) (index : Z) (entry : string) : res verifiedEvent :=
  in_validation "dnsid: c2sp-tlog context" (validateEntryMetadata ref entry) ;;
  parsed ← in_parse "dnsid: parsing c2sp-tlog" (parseEventFromEntry (key:=key) entry);
  match p_validationError parsed with
  | Some e => Err (WithCause (ValidationError "dnsid: invalid c2sp-tlog") e)
  | None =>
      fail_if match domain with Some d => negb (str_eqb (Lifecycle.Domain (p_event parsed)) d) | None => false end
        with ValidationError "dnsid: c2sp-tlog fqdn differs from the stream's" ;;
      signed ← CanonicalFromEntry entry;
      Ok {| v_event := p_event parsed; v_chain := p_chain parsed; v_index := index; v_signed := signed;
            v_parseError := None; v_migration := None; v_authorityEntity := None; v_authorityOperational := None |}
  end.

Fixpoint check_entries (ref : Reference) (domain : option string) (index : Z) (entries : list string)
    : res (list verifiedEvent) :=
  match entries with
  | [] => Ok []
  | entry :: entries =>
      v ← check_entry ref domain index entry;
      vs ← check_entries ref (Some (default (Lifecycle.Domain (v_event v)) domain)) (index + 1) entries;
      Ok (v :: vs)
  end.

(** [notApplied]. *)
Definition notApplied (candidate : verifiedEvent) (applied : list verifiedEvent) : error :=
  let event := v_event candidate in
  match applied with
  | [] =>
      match Type_ event with
      | LogEventIssuance =>
          if negb (candidateAuthorizedByCurrentHistory event (v_signed candidate) (InitialEntityPublicKey event)
                     (InitialOperationalPublicKey event))
          then verr "signature_invalid" "dnsid: c2sp-tlog ISSUANCE signatures do not verify"
          else verr "INVALID_EVIDENCE" "dnsid: c2sp-tlog ISSUANCE key bindings are invalid"
      | LogEventMigration => verr "INVALID_MIGRATION" "dnsid: inbound c2sp-tlog MIGRATION is not supported"
      | _ => verr "CHAIN_CONTINUITY" "dnsid: c2sp-tlog stream has no genesis"
      end
  | _ =>
      match lifecycleStateFromVerified applied (Lifecycle.Domain event) with
      | Err e => e
      | Ok (entity, operational, _) =>
          if negb (candidateAuthorizedByCurrentHistory event (v_signed candidate) entity operational)
          then verr "signature_invalid" "dnsid: c2sp-tlog candidate is not authorized by the stream's keys"
          else verr "INVALID_EVIDENCE" "dnsid: c2sp-tlog candidate is not applied"
      end
  end.

Definition state_string_field (state : payload) (k : string) : option string :=
  match state !! k with Some (VString s) => Some s | _ => None end.

(** [CheckAppend]; the errors that are not verification errors fall through
    to the length test, with nothing applied. *)
Definition CheckAppend (ctx : nat -> bool) (ref : Reference) (history : list string) (candidate : string) : res StreamHead :=
  let entries := history ++ [candidate] in
  in_validation "dnsid: c2sp-tlog stream" (validateHistorySize ((fun e => (e, EmptyString)) <$> entries)) ;;
  verified ← check_entries ref None 0 entries;
  let r := verifyLifecycleVerifiedWithMigration ctx verified None (ref_String ref) in
  match r with
  | Err e =>
      if negb (bool_decide (errors_as as_verification e = None)) then Err e
      else if bool_decide (e = ContextError) || ctx (S (List.length verified)) then Err e
      else match history, last verified with
           | [], Some c => Err (notApplied c [])
           | _, _ => Err (PlainError "dnsid: c2sp-tlog history does not replay")
           end
  | Ok (applied, _) =>
      fail_if (List.length applied <? List.length history)%nat
        with PlainError "dnsid: c2sp-tlog history does not replay" ;;
      match last verified, last applied, applied with
      | Some c, Some l, first :: _ =>
          if (List.length applied =? List.length history)%nat then Err (notApplied c applied)
          else
            let domain := match verified with v :: _ => Lifecycle.Domain (v_event v) | [] => EmptyString end in
            '(_, _, state) ← lifecycleStateFromVerified applied domain;
            match state_string_field state "fqdn", state_string_field state "status",
                  state_string_field state "entity_thumb", state_string_field state "operational_thumb" with
            | Some fqdn, Some status, Some entityThumb, Some operationalThumb =>
                Ok {| Seq := default 0 (sequence (v_chain l)); head_EventID := EventID (v_signed l);
                      head_Type := Type_ (v_event l);
                      State := {| FQDN := fqdn; Status := status; EntityThumb := entityThumb;
                                  OperationalThumb := operationalThumb |};
                      head_GovernanceID := GovernanceID (v_event first) |}
            | _, _, _, _ => Err (PlainError "dnsid: c2sp-tlog computed lifecycle state has invalid field types")
            end
      | _, _, _ => Err (PlainError "dnsid: c2sp-tlog history does not replay")
      end
  end.
End replay.
