(* ===== verification/ReplaySpec.v ===== *)
(** * ReplaySpec: what a replayed stream is

    [verified_stream] states, without the loop and its bookkeeping, what an
    accepted history is: a genesis and then events each authorized by the keys
    in force, each naming its predecessor and the state it leaves. The replay
    returns such streams, ignores noise, and the hash chain makes the last
    event determine the whole stream. *)

From Stdlib Require Import ZArith Lia Ascii String.
From S2P Require Import Prelude Codec Utf8 Numbers Jcs JcsSpec Keys Fqdn Lifecycle Merkle Evidence Reference Policy Checkpoint Scan Event EventSpec Replay.

Open Scope Z_scope.

Section stream.
Context {key : Type} `{!KeyOps key} `{!JwkText key} {U : NetURL} {I : Idna}.
Abbreviation LogEvent := (LogEvent key).
Abbreviation verifiedEvent := (verifiedEvent (key:=key)).
Abbreviation MigrationVerificationResult := (MigrationVerificationResult (key:=key)).

(** What an event leaves behind: the keys in force, the names the next event
    must give, and whether the stream has ended. *)
Record standing := {
  st_entity : option key;
  st_operational : option key;
  st_thumb : string;
  st_ended : bool;
  st_id : string;
  st_seq : Z;
  st_state : payload;
  st_last : LogEvent
}.

(** The chain fields name the standing the event continues from. *)
Definition names (h : standing) (c : chainFields) : Prop :=
  chain_invalid c = false /\ sequence c = Some (st_seq h) /\ previousEventID c = st_id h /\
  validHash (st_id h) = true /\ previousStateHash c = lifecycleStateHash (st_state h).

Definition genesis_chain (c : chainFields) : Prop :=
  chain_invalid c = false /\ sequence c = Some 0 /\ previousEventID c = EmptyString /\ previousStateHash c = EmptyString.

Definition next (h : standing) (x : verifiedEvent) (ok : option key) (okt : string) (state : payload) (ended : bool) : standing :=
  {| st_entity := st_entity h; st_operational := ok; st_thumb := okt; st_ended := ended;
     st_id := EventID (v_signed x); st_seq := u64 (st_seq h + 1); st_state := state; st_last := v_event x |}.

(** The keys an event was checked against, kept with it. *)
Definition authority (x : verifiedEvent) : option key * option key := (v_authorityEntity x, v_authorityOperational x).

(** How an authorized event changes the standing. *)
Inductive effect (h : standing) (x : verifiedEvent) : standing -> Prop :=
| effect_rotation et t :
    Type_ (v_event x) = LogEventKeyRotation ->
    PreviousOperationalThumbprint (v_event x) = st_thumb h ->
    keyThumbprint (NewOperationalPublicKey (v_event x)) = Ok t ->
    NewOperationalThumbprint (v_event x) = t -> t <> EmptyString -> t <> st_thumb h ->
    keyThumbprint (st_entity h) = Ok et -> t <> et ->
    effect h x (next h x (NewOperationalPublicKey (v_event x)) t
      (activeLifecycleState (Lifecycle.Domain (v_event x)) et t) false)
| effect_revocation et :
    Type_ (v_event x) = LogEventRevocation -> ValidRevocationReason (Reason (v_event x)) = true ->
    keyThumbprint (st_entity h) = Ok et ->
    effect h x (next h x (st_operational h) (st_thumb h)
      (<["status"%string := VString "REVOKED"]> (activeLifecycleState (Lifecycle.Domain (v_event x)) et (st_thumb h))) true)
| effect_retirement et :
    Type_ (v_event x) = LogEventRetirement -> keyThumbprint (st_entity h) = Ok et ->
    effect h x (next h x (st_operational h) (st_thumb h)
      (<["status"%string := VString "RETIRED"]> (activeLifecycleState (Lifecycle.Domain (v_event x)) et (st_thumb h))) true)
| effect_delegation :
    Type_ (v_event x) = LogEventDelegation ->
    Delegatee (v_event x) <> EmptyString -> Lifecycle.Scope (v_event x) <> EmptyString -> Lifecycle.Expiry (v_event x) <> 0 ->
    effect h x (next h x (st_operational h) (st_thumb h) (st_state h) false).

Inductive verified_stream (verify : option (LogEvent -> res MigrationVerificationResult))
    : list verifiedEvent -> standing -> Prop :=
| stream_issuance x et :
    Type_ (v_event x) = LogEventIssuance ->
    candidateAuthorizedByCurrentHistory (v_event x) (v_signed x)
      (InitialEntityPublicKey (v_event x)) (InitialOperationalPublicKey (v_event x)) = true ->
    genesis_chain (v_chain x) -> v_parseError x = None -> v_signed x <> EmptyString ->
    keyThumbprint (InitialEntityPublicKey (v_event x)) = Ok et -> et <> EmptyString ->
    InitialEntityThumbprint (v_event x) = et -> InitialOperationalThumbprint (v_event x) <> et ->
    authority x = (InitialEntityPublicKey (v_event x), InitialOperationalPublicKey (v_event x)) ->
    verified_stream verify [x]
      {| st_entity := InitialEntityPublicKey (v_event x);
         st_operational := InitialOperationalPublicKey (v_event x);
         st_thumb := InitialOperationalThumbprint (v_event x); st_ended := false;
         st_id := EventID (v_signed x); st_seq := 1;
         st_state := activeLifecycleState (Lifecycle.Domain (v_event x)) et (InitialOperationalThumbprint (v_event x));
         st_last := v_event x |}
| stream_migration x e f m et ot :
    verify = Some f -> f e = Ok m -> v_migration x = Some m ->
    v_event x = with_initial_keys e (EntityKey m) et (ActiveOperationalKey m) ot ->
    Type_ e = LogEventMigration -> validateMigrationResult e m = Ok tt ->
    signed_by (EntityKey m) (InitialEntityKid e) (InitialEntitySignature e) (v_signed x) = true ->
    genesis_chain (v_chain x) -> v_parseError x = None -> v_signed x <> EmptyString ->
    keyThumbprint (EntityKey m) = Ok et -> keyThumbprint (ActiveOperationalKey m) = Ok ot ->
    authority x = (EntityKey m, ActiveOperationalKey m) ->
    verified_stream verify [x]
      {| st_entity := EntityKey m; st_operational := ActiveOperationalKey m; st_thumb := ot; st_ended := false;
         st_id := EventID (v_signed x); st_seq := 1;
         st_state := activeLifecycleState (Lifecycle.Domain e) et ot; st_last := v_event x |}
| stream_next l h x h' :
    verified_stream verify l h -> st_ended h = false ->
    v_signed x <> EmptyString -> v_parseError x = None -> names h (v_chain x) ->
    candidateAuthorizedByCurrentHistory (v_event x) (v_signed x) (st_entity h) (st_operational h) = true ->
    Timestamp (st_last h) <= Timestamp (v_event x) -> authority x = (st_entity h, st_operational h) ->
    effect h x h' -> verified_stream verify (l ++ [x]) h'.

(** ** The loop keeps a verified stream *)
Definition standing_of (s : replay (key:=key)) (e : LogEvent) : standing :=
  {| st_entity := entityKey s; st_operational := currentOperationalKey s; st_thumb := currentOperationalThumb s;
     st_ended := terminal s; st_id := lastEventID s; st_seq := nextSeq s; st_state := previousState s; st_last := e |}.

Definition replaying verify (s : replay (key:=key)) : Prop :=
  if started s then
    exists e et, last_event (out s) = Some e /\ verified_stream verify (out s) (standing_of s e) /\
      keyThumbprint (entityKey s) = Ok et /\ previousState s !! "entity_thumb"%string = Some (VString et) /\
      lastEventID s <> EmptyString
  else out s = [] /\ priorHistory s = [] /\ terminal s = false.

Lemma EventID_nonempty s : EventID s <> EmptyString.
Proof.
  intros E. pose proof (validHash_sha256 (String.append "dnsid-c2sp-event-v1" (String "000" s))) as H.
  fold (EventID s) in H. by rewrite E in H.
Qed.

Lemma validHash_EventID s : validHash (EventID s) = true.
Proof. apply validHash_sha256. Qed.

Lemma validGenesisChain_spec c : validGenesisChain c = true <-> genesis_chain c.
Proof.
  unfold validGenesisChain, genesis_chain.
  rewrite !andb_true_iff, negb_true_iff, bool_decide_eq_true, !is_empty_true. tauto.
Qed.

Lemma validChainFields_spec h c :
  validChainFields c (st_seq h) (st_id h) (st_state h) = true <-> names h c.
Proof.
  unfold validChainFields, names.
  rewrite !andb_true_iff, negb_true_iff, bool_decide_eq_true, !str_eqb_eq. split; [|intuition congruence].
  intros [[[[? ?] Hv] Hp] ?]. rewrite Hp in Hv. tauto.
Qed.

Lemma started_note (s : replay (key:=key)) : started (note_authority s) = started s.
Proof. done. Qed.

Lemma replaying_note verify s : replaying verify s -> replaying verify (note_authority s).
Proof. done. Qed.

Lemma thumb_or_empty_Ok k t : keyThumbprint k = Ok t -> thumb_or_empty (key:=key) k = t.
Proof. unfold thumb_or_empty. by intros ->. Qed.

(** A transition appends the event with the effect of its type, or leaves the
    stream as it was. *)
Lemma transition_effect s item id canonical s' e et :
  let h := standing_of s e in
  keyThumbprint (entityKey s) = Ok et -> previousState s !! "entity_thumb"%string = Some (VString et) ->
  id = EventID (v_signed item) -> terminal s = false ->
  transition s item id canonical = Ok s' ->
  s' = s \/
  (exists h', effect h item h' /\ out s' = out s ++ [item] /\ h' = standing_of s' (v_event item) /\
     started s' = started s /\ entityKey s' = entityKey s /\
     previousState s' !! "entity_thumb"%string = Some (VString et)).
Proof.
  intros h Het Hps -> Hterm. unfold transition. destruct (Type_ (v_event item)) eqn:Ety;
    try (intros [= <-]; by left); try discriminate; rewrite ?Het.
  - intros H. go_inv. right. rewrite !orb_false_iff, !negb_false_iff in *. destruct_and!.
    rewrite ?str_eqb_eq, ?str_eqb_neq, ?is_empty_false, ?bool_decide_eq_false in *. subst a. eexists. split.
    { eapply (effect_rotation h item et); try done. intros E. by subst et. }
    unfold next, standing_of, apply_event. cbn. rewrite Hterm. cbn. done.
  - intros H. go_inv. right. apply negb_false_iff in Heqb. eexists. split.
    { by eapply (effect_revocation h item et). }
    unfold next, standing_of, apply_event. cbn. rewrite Hterm. done.
  - intros H. go_inv. right. eexists. split.
    { by eapply (effect_retirement h item et). }
    unfold next, standing_of, apply_event. cbn. rewrite Hterm. done.
  - intros H. go_inv. right. rewrite !orb_false_iff in Heqb. destruct Heqb as [[Hd Hs] Hx]. eexists. split.
    { apply (effect_delegation h item); try done; [by apply is_empty_false|by apply is_empty_false|].
      unfold time_is_zero in Hx. by apply Z.eqb_neq. }
    unfold next, standing_of, apply_event. cbn. rewrite Hterm. done.
Qed.

Lemma effect_id h x h' : effect h x h' -> st_id h' = EventID (v_signed x).
Proof. by destruct 1. Qed.

Lemma active_entity_thumb d et okt : activeLifecycleState d et okt !! "entity_thumb"%string = Some (VString et).
Proof. done. Qed.

Lemma issuance_genesis_replaying verify s item s' :
  replaying verify s -> started s = false -> Type_ (v_event item) = LogEventIssuance ->
  v_signed item <> EmptyString ->
  issuance_genesis s item (EventID (v_signed item)) (v_signed item) = Ok s' -> replaying verify s'.
Proof.
  unfold replaying. intros Hs Hst Ety Hsig. rewrite Hst in Hs. destruct Hs as (Hout & Hprior & Hterm).
  assert (started s = false /\ (if started s then False else out s = [] /\ priorHistory s = [] /\ terminal s = false)) as Hidle
    by (rewrite Hst; done).
  unfold issuance_genesis. destruct (candidateAuthorizedByCurrentHistory _ _ _ _) eqn:Hauth; cbn [negb];
    [|intros [= <-]; by rewrite Hst].
  destruct (if is_empty _ then _ else _) as [okt|] eqn:Eokt; [|intros [= <-]; by rewrite Hst].
  destruct (v_parseError item) eqn:Epe; [done|].
  destruct (validGenesisChain (v_chain item)) eqn:Egc; cbn [negb]; [|done].
  cbn [with_initial_keys InitialEntityPublicKey InitialOperationalPublicKey InitialEntityThumbprint Lifecycle.Domain].
  destruct (keyThumbprint (InitialEntityPublicKey (v_event item))) as [et|] eqn:Eet;
    [|intros [= <-]; cbn; by rewrite Hst].
  destruct (_ || _) eqn:Ebad; intros [= <-]; [cbn; by rewrite Hst|].
  rewrite !orb_false_iff, negb_false_iff in Ebad. destruct Ebad as [[Hne Heq] Hdist].
  apply is_empty_false in Hne. apply str_eqb_eq in Heq. apply str_eqb_neq in Hdist.
  cbn. rewrite Hout. eexists _, et. split; [reflexivity|]. split; [|split; [exact Eet|split; [done|apply EventID_nonempty]]].
  set (x := with_authority _ _ _).
  assert (candidateAuthorizedByCurrentHistory (v_event x) (v_signed x)
    (InitialEntityPublicKey (v_event x)) (InitialOperationalPublicKey (v_event x)) = true) as Hx.
  { unfold candidateAuthorizedByCurrentHistory in *. cbn. rewrite Ety in *. exact Hauth. }
  pose proof (stream_issuance verify x et Ety Hx) as Hstream. cbn in Hstream.
  unfold standing_of. cbn. rewrite Hterm. apply Hstream; try done; [by apply validGenesisChain_spec|by rewrite Heq].
Qed.

Lemma validateMigrationResult_keys (e : LogEvent) m :
  validateMigrationResult e m = Ok tt ->
  exists et ot, keyThumbprint (EntityKey m) = Ok et /\ keyThumbprint (ActiveOperationalKey m) = Ok ot.
Proof.
  unfold validateMigrationResult. intros H. destruct (_ || _) in H; [done|].
  destruct (keyThumbprint (EntityKey m)) as [et|]; [|done].
  destruct (keyThumbprint (ActiveOperationalKey m)) as [ot|]; [|done]. by exists et, ot.
Qed.

Lemma migration_genesis_replaying verify cur s item s' :
  replaying verify s -> started s = false -> Type_ (v_event item) = LogEventMigration ->
  v_signed item <> EmptyString ->
  migration_genesis cur verify s item (EventID (v_signed item)) (v_signed item) = Ok (Some s') -> replaying verify s'.
Proof.
  unfold replaying. intros Hs Hst Ety Hsig. rewrite Hst in Hs. destruct Hs as (Hout & Hprior & Hterm).
  unfold migration_genesis. destruct verify as [f|] eqn:Ef; [|done].
  destruct (_ || _); [done|]. destruct (negb (migration_reference_ok _)); [done|].
  destruct (f (v_event item)) as [m|] eqn:Em; [|done].
  destruct (EntityKey m) as [ek|] eqn:Eek; [|done].
  destruct (is_empty _ || _ || _) eqn:Esig; [done|].
  destruct (validateMigrationResult (v_event item) m) as [[]|] eqn:Evm; [|done].
  unfold mbind, res_bind. destruct (v_parseError item) eqn:Epe; [done|].
  destruct (validGenesisChain (v_chain item)) eqn:Egc; cbn [negb]; [|done]. intros [= <-].
  rewrite !orb_false_iff, !negb_false_iff in Esig. destruct Esig as [[Hk1 Hk2] Hk3].
  destruct (validateMigrationResult_keys _ _ Evm) as (et & ot & Het & Hot). rewrite Eek in Het.
  rewrite (thumb_or_empty_Ok _ _ Het), (thumb_or_empty_Ok _ _ Hot).
  cbn. rewrite Hout. eexists _, et. split; [reflexivity|]. split; [|split; [exact Het|split; [done|apply EventID_nonempty]]].
  set (x := with_authority _ _ _). rewrite <- Eek in Het |- *.
  assert (signed_by (EntityKey m) (InitialEntityKid (v_event item)) (InitialEntitySignature (v_event item)) (v_signed item) = true) as Hsb.
  { rewrite Eek. unfold signed_by. rewrite Hk1, Hk2, Hk3. done. }
  assert (v_event x = with_initial_keys (v_event item) (EntityKey m) et (ActiveOperationalKey m) ot) as Hx by (cbn; by rewrite Eek).
  apply validGenesisChain_spec in Egc.
  pose proof (stream_migration (Some f) x (v_event item) f m et ot eq_refl Em eq_refl Hx Ety Evm Hsb Egc Epe Hsig Het Hot) as Hstream.
  rewrite Hx in Hstream. unfold standing_of. cbn. rewrite Hterm. rewrite Eek in *. by apply Hstream.
Qed.

Lemma check_candidate_ok s item e :
  last_event (out s) = Some e -> check_candidate s item = Ok tt ->
  terminal s = false /\ names (standing_of s e) (v_chain item) /\
  Timestamp e <= Timestamp (v_event item) /\ v_parseError item = None.
Proof.
  unfold check_candidate. intros -> H. destruct (terminal s); [done|].
  destruct (type_eqb _ _); [done|]. destruct (validChainFields _ _ _ _) eqn:Ec; [|done]. cbn [negb] in H.
  destruct (before _ _) eqn:Eb; [done|]. destruct (v_parseError item); [done|].
  split; [done|]. split; [by apply (validChainFields_spec (standing_of s e))|].
  unfold before in Eb. apply Z.ltb_ge in Eb. done.
Qed.

(** The named predecessor is the last event, so the authority is the keys in
    force. *)
Lemma authority_current s item e :
  lastEventID s <> EmptyString -> names (standing_of s e) (v_chain item) ->
  authority_for (note_authority s) item = (entityKey s, currentOperationalKey s).
Proof.
  intros Hne (_ & _ & Hp & _). unfold authority_for. cbn. rewrite Hp. cbn.
  apply is_empty_false in Hne as ->. by rewrite lookup_insert_eq.
Qed.

Lemma replay_item_replaying cur verify s item s' :
  replaying verify s -> replay_item cur verify s item = Ok s' -> replaying verify s'.
Proof.
  intros Hs. unfold replay_item. destruct (is_empty (v_signed item)) eqn:Esig; [by intros [= <-]|].
  apply is_empty_false in Esig. destruct (seen (note_authority s) !! _) as [signed|].
  { destruct (negb _); [done|by intros [= <-]]. }
  rewrite started_note. destruct (started s) eqn:Est.
  - unfold replaying in Hs. rewrite Est in Hs. destruct Hs as (e & et & Hlast & Hstream & Het & Hps & Hid).
    destruct (authority_for (note_authority s) item) as [ek ok] eqn:Eauth.
    destruct (candidateAuthorizedByCurrentHistory _ _ ek ok) eqn:Ha; cbn [negb];
      [|intros [= <-]; unfold replaying; cbn; rewrite Est; eauto 10].
    destruct (check_candidate (note_authority s) item) as [[]|] eqn:Ec; [|done]. unfold mbind, res_bind. intros Ht.
    apply (check_candidate_ok (note_authority s) item e Hlast) in Ec as (Hterm & Hnames & Hts & Hpe).
    pose proof (authority_current s item e Hid Hnames) as Hcur. rewrite Eauth in Hcur. injection Hcur as -> ->.
    apply (transition_effect (note_authority s) _ _ _ _ e et Het Hps) in Ht
      as [->|(h' & Heff & Hout & -> & Hst' & Hek' & Hps')]; [| |done|exact Hterm].
    { unfold replaying. cbn. rewrite Est. eauto 10. }
    unfold replaying. rewrite Hst', started_note, Est. eexists _, et. split; [|split; [|split; [|split; [exact Hps'|]]]].
    + rewrite Hout. unfold last_event. by rewrite last_snoc.
    + rewrite Hout. eapply stream_next; [exact Hstream|exact Hterm|exact Esig|exact Hpe|exact Hnames|exact Ha|exact Hts|done|exact Heff].
    + by rewrite Hek'.
    + pose proof (effect_id _ _ _ Heff) as Hi. cbn in Hi. rewrite Hi. apply EventID_nonempty.
  - assert (started (note_migration (note_authority s)) = false) as Hst' by exact Est.
    assert (replaying verify (note_authority s) /\ replaying verify (note_migration (note_authority s))) as [Hn Hm].
    { unfold replaying in *. cbn. by rewrite Est in *. }
    destruct (Type_ (v_event item)) eqn:Ety; try (by intros [= <-]).
    + apply (issuance_genesis_replaying verify (note_authority s) item); [exact Hn|exact Est|done|done].
    + destruct (migration_genesis cur verify _ item _ _) as [[s2|]|] eqn:Eg; [| |done]; unfold mbind, res_bind; intros [= <-].
      * by apply (migration_genesis_replaying verify cur (note_migration (note_authority s)) item).
      * exact Hm.
Qed.

Lemma replay_loop_replaying ctx n cur verify s items s' :
  replaying verify s -> replay_loop ctx n cur verify s items = Ok s' -> replaying verify s'.
Proof.
  revert n s. induction items as [|item items IH]; intros n s Hs; cbn [replay_loop].
  - destruct (_ && _); [done|]. by intros [= <-].
  - destruct (ctx n); [done|]. destruct (replay_item cur verify s item) as [s1|] eqn:E; [|done].
    unfold mbind, res_bind. apply IH. by eapply replay_item_replaying.
Qed.


(** ** Streams read from entries *)
(** What [verifyHistoryEntries] and [CheckAppend] build from a stored entry. *)
Definition entry_item (x : verifiedEvent) : Prop :=
  exists entry q, parseEventFromEntry entry = Ok q /\ CanonicalFromEntry entry = Ok (v_signed x) /\
    v_chain x = p_chain q /\ v_event x = p_event q /\
    (v_parseError x = None -> p_validationError q = None).
(** As far as the chain goes. *)
Definition entry_chain (x : verifiedEvent) : Prop :=
  exists entry q, parseEventFromEntry (key:=key) entry = Ok q /\ CanonicalFromEntry entry = Ok (v_signed x) /\
    v_chain x = p_chain q.

Lemma entry_chain_signed x y :
  entry_chain x -> entry_chain y -> v_signed x = v_signed y -> v_chain x = v_chain y.
Proof.
  intros (e1 & q1 & P1 & C1 & ->) (e2 & q2 & P2 & C2 & ->) E. rewrite E in C1.
  by destruct (same_signed_bytes e1 e2 q1 q2 (v_signed y)).
Qed.

(** Two different signed texts of the two histories with one SHA-256 sum behind
    their identifiers. *)
Definition event_preimage (signed : string) : string := String.append "dnsid-c2sp-event-v1" (String "000" signed).
Definition event_collision (l1 l2 : list verifiedEvent) : Prop :=
  exists x y, x ∈ l1 /\ y ∈ l2 /\ v_signed x <> v_signed y /\
    sha256 (event_preimage (v_signed x)) = sha256 (event_preimage (v_signed y)).

Lemma EventID_binding x y (l1 l2 : list verifiedEvent) :
  x ∈ l1 -> y ∈ l2 -> EventID (v_signed x) = EventID (v_signed y) -> v_signed x = v_signed y \/ event_collision l1 l2.
Proof.
  intros Hx Hy. unfold EventID. intros E%encode_inj. destruct (decide (v_signed x = v_signed y)) as [|Hne]; [by left|right].
  by exists x, y.
Qed.
Lemma event_collision_mono l1 l2 l1' l2' : l1 ⊆ l1' -> l2 ⊆ l2' -> event_collision l1 l2 -> event_collision l1' l2'.
Proof. intros H1 H2 (x & y & Hx & Hy & H). exists x, y. split_and!; [by apply H1|by apply H2|apply H..]. Qed.

Lemma stream_last verify l h :
  verified_stream verify l h -> exists x, last l = Some x /\ st_id h = EventID (v_signed x) /\ x ∈ l.
Proof.
  destruct 1 as [x|x|l h x h' _ _ _ _ _ _ _ _ Heff]; [exists x; by repeat constructor..|].
  exists x. rewrite last_snoc, (effect_id _ _ _ Heff). split; [done|]. split; [done|]. apply elem_of_app. right. left.
Qed.

(** A stream ends with its genesis or with an event that names the standing
    before it. *)
Lemma stream_cases verify l h :
  verified_stream verify l h ->
  (exists x, l = [x] /\ genesis_chain (v_chain x)) \/
  (exists l' h' x, l = l' ++ [x] /\ verified_stream verify l' h' /\ names h' (v_chain x)).
Proof. destruct 1; [left; eauto..|right; eauto 10]. Qed.

Lemma names_id h c : names h c -> previousEventID c <> EmptyString.
Proof. intros (_ & _ & -> & Hv & _) E. by rewrite E in Hv. Qed.

Lemma streams_with_one_end verify1 verify2 l1 h1 l2 h2 :
  verified_stream verify1 l1 h1 -> verified_stream verify2 l2 h2 ->
  Forall entry_chain l1 -> Forall entry_chain l2 -> st_id h1 = st_id h2 ->
  v_signed <$> l1 = v_signed <$> l2 \/ event_collision l1 l2.
Proof.
  remember (List.length l1) as n eqn:En. revert l1 h1 l2 h2 En.
  induction n as [n IH] using lt_wf_ind. intros l1 h1 l2 h2 En S1 S2 F1 F2 Eid.
  destruct (stream_last _ _ _ S1) as (x1 & L1 & I1 & In1), (stream_last _ _ _ S2) as (x2 & L2 & I2 & In2).
  rewrite I1, I2 in Eid. destruct (EventID_binding _ _ _ _ In1 In2 Eid) as [Esig|]; [|by right].
  assert (v_chain x1 = v_chain x2) as Ec
    by (rewrite Forall_forall in F1, F2; apply entry_chain_signed; auto).
  destruct (stream_cases _ _ _ S1) as [(y1 & -> & G1)|(m1 & k1 & y1 & -> & T1 & N1)];
    destruct (stream_cases _ _ _ S2) as [(y2 & -> & G2)|(m2 & k2 & y2 & -> & T2 & N2)];
    rewrite ?last_snoc in L1; rewrite ?last_snoc in L2; injection L1 as ->; injection L2 as ->.
  - left. cbn. by rewrite Esig.
  - exfalso. apply names_id in N2. destruct G1 as (_ & _ & G & _). by rewrite <- Ec, G in N2.
  - exfalso. apply names_id in N1. destruct G2 as (_ & _ & G & _). by rewrite Ec, G in N1.
  - rewrite Forall_app in F1, F2. destruct F1 as [F1 _], F2 as [F2 _].
    assert (st_id k1 = st_id k2) as Ek.
    { destruct N1 as (_ & _ & <- & _), N2 as (_ & _ & <- & _). by rewrite Ec. }
    rewrite length_app in En. cbn in En.
    destruct (IH (List.length m1) ltac:(lia) m1 k1 m2 k2 eq_refl T1 T2 F1 F2 Ek) as [E|Hc].
    2:{ right. eapply event_collision_mono; [| |exact Hc]; set_solver. }
    left. rewrite !fmap_app, E. cbn. by rewrite Esig.
Qed.

(** What an accepted item carries of the event [e0] of an entry: the entry's own
    event, except that a genesis records the keys it establishes; those of a
    MIGRATION are what the verifier of migrations answered for the entry. *)
Definition kept_event (verify : option (LogEvent -> res MigrationVerificationResult)) (e0 : LogEvent) (x : verifiedEvent) : Prop :=
  (Type_ e0 <> LogEventIssuance /\ v_event x = e0) \/
  (Type_ e0 = LogEventIssuance /\ exists okt,
     (if is_empty (InitialOperationalThumbprint e0) then keyThumbprint (InitialOperationalPublicKey e0)
      else Ok (InitialOperationalThumbprint e0)) = Ok okt /\
     v_event x = with_initial_keys e0 (InitialEntityPublicKey e0) (InitialEntityThumbprint e0) (InitialOperationalPublicKey e0) okt) \/
  (Type_ e0 = LogEventMigration /\ exists f m ekt okt,
     verify = Some f /\ f e0 = Ok m /\ v_migration x = Some m /\
     v_event x = with_initial_keys e0 (EntityKey m) ekt (ActiveOperationalKey m) okt).

Definition comes_from verify (x0 x : verifiedEvent) : Prop :=
  v_chain x = v_chain x0 /\ v_signed x = v_signed x0 /\ v_parseError x = v_parseError x0 /\ kept_event verify (v_event x0) x /\
  v_index x = v_index x0.

Definition out_step verify (s s' : replay (key:=key)) (item : verifiedEvent) : Prop :=
  out s' = out s \/ exists x, out s' = out s ++ [x] /\ comes_from verify item x.

Lemma transition_out s item id canonical s' :
  transition s item id canonical = Ok s' -> out s' = out s \/ out s' = out s ++ [item].
Proof.
  unfold transition. destruct (Type_ (v_event item)); intros H; go_inv; auto.
Qed.

Lemma check_candidate_type (s : replay (key:=key)) item : check_candidate s item = Ok tt -> Type_ (v_event item) <> LogEventIssuance.
Proof. unfold check_candidate. intros H E. rewrite E in H. by destruct (terminal s). Qed.

Lemma replay_item_out cur verify s item s' :
  replay_item cur verify s item = Ok s' -> out_step verify s s' item.
Proof.
  unfold replay_item, out_step. destruct (is_empty (v_signed item)); [intros [= <-]; by left|].
  destruct (seen (note_authority s) !! _); [destruct (negb _); [done|intros [= <-]; by left]|].
  destruct (started (note_authority s)).
  - destruct (authority_for (note_authority s) item) as [ek ok].
    destruct (negb _); [intros [= <-]; by left|].
    destruct (check_candidate _ _) as [[]|] eqn:Ec; [|done]. unfold mbind, res_bind.
    apply check_candidate_type in Ec.
    intros [H|H]%transition_out; [by left|right]. exists (with_authority item ek ok). split; [done|].
    repeat split; try done. by left.
  - destruct (Type_ (v_event item)) eqn:Ety; try (intros [= <-]; by left).
    + unfold issuance_genesis. destruct (negb _); [intros [= <-]; by left|].
      destruct (if is_empty _ then _ else _) as [okt|] eqn:Eokt; [|intros [= <-]; by left].
      destruct (v_parseError item); [done|]. destruct (validGenesisChain _); cbn [negb]; [|done].
      cbn [with_initial_keys InitialEntityPublicKey InitialOperationalPublicKey InitialEntityThumbprint
        InitialOperationalThumbprint Lifecycle.Domain].
      destruct (keyThumbprint (InitialEntityPublicKey (v_event item))) as [et|]; [|intros [= <-]; by left].
      match goal with |- (if ?b then _ else _) = _ -> _ => destruct b end; intros [= <-]; [by left|right].
      eexists. split; [reflexivity|]. repeat split; try done. right. left. split; [done|]. by exists okt.
    + unfold mbind, res_bind, migration_genesis. destruct verify as [f|]; [|intros [= <-]; by left].
      destruct (_ || _); [intros [= <-]; by left|]. destruct (negb (migration_reference_ok _)); [intros [= <-]; by left|].
      destruct (f (v_event item)) as [m|] eqn:Em; [|done]. destruct (EntityKey m) as [ek|] eqn:Eek; [|done].
      destruct (is_empty _ || _ || _); [intros [= <-]; by left|].
      destruct (validateMigrationResult _ _); [|done]. unfold mbind, res_bind. destruct (v_parseError item); [done|].
      destruct (validGenesisChain _); cbn [negb]; [|done]. intros [= <-]. right.
      eexists. split; [reflexivity|]. repeat split; try done. right. right. split; [done|].
      exists f, m. eexists _, _. split_and!; [done|done|done|]. cbn. by rewrite Eek.
Qed.

(** The output keeps the order of the input. *)
Definition keeps_order verify (s s' : replay (key:=key)) (items : list verifiedEvent) : Prop :=
  exists kept l, out s' = out s ++ l /\ sublist kept items /\ Forall2 (comes_from verify) kept l.

Lemma replay_loop_out ctx n cur verify s items s' :
  replay_loop ctx n cur verify s items = Ok s' -> keeps_order verify s s' items.
Proof.
  unfold keeps_order. revert n s. induction items as [|item items IH]; intros n s; cbn [replay_loop].
  - destruct (_ && _); [done|]. intros [= <-]. exists [], []. rewrite app_nil_r. repeat constructor.
  - destruct (ctx n); [done|]. destruct (replay_item cur verify s item) as [s1|] eqn:E; [|done].
    unfold mbind, res_bind. intros H. destruct (IH _ _ H) as (kept & l & Eo & Hk & Hl).
    destruct (replay_item_out _ _ _ _ _ E) as [E1|(y & E1 & Hy)]; rewrite E1 in Eo.
    + exists kept, l. split; [done|]. split; [by constructor|done].
    + exists (item :: kept), (y :: l). rewrite <- (assoc app) in Eo. split; [done|]. by split; constructor.
Qed.

Lemma replay_outputs ctx indexed verify cur l prior :
  verifyLifecycleVerifiedWithMigration ctx indexed verify cur = Ok (l, prior) ->
  (exists h, verified_stream verify l h) /\
  (exists kept, sublist kept indexed /\ Forall2 (comes_from verify) kept l).
Proof.
  unfold verifyLifecycleVerifiedWithMigration.
  destruct (replay_loop ctx 0 cur verify replay_start indexed) as [s|] eqn:E; [|done]. unfold mbind, res_bind.
  destruct (replay_loop_out _ _ _ _ _ _ _ E) as (kept & l' & Eo' & Hk & Hl).
  apply replay_loop_replaying in E; [|done]. destruct (bool_decide (out s = [])) eqn:Eo; [by destruct (sawMigration s)|].
  intros [= <- <-]. split.
  - unfold replaying in E. destruct (started s); [destruct E as (e & et & _ & Hs & _); eauto|].
    destruct E as [E _]. by rewrite E in Eo.
  - cbn in Eo'. rewrite Eo'. eauto.
Qed.

Lemma outputs_from_entries verify items kept l :
  Forall entry_chain items -> sublist kept items -> Forall2 (comes_from verify) kept l -> Forall entry_chain l.
Proof.
  intros F Hs C. assert (Forall entry_chain kept) as Fk.
  { rewrite Forall_forall in F |- *. intros x Hx. apply F. by eapply elem_of_sublist. }
  clear F Hs. induction C as [|x0 x kept l (Hc & Hs & _) C IH]; [done|]. apply Forall_cons in Fk as [(entry & q & P & Q & R) Fk].
  constructor; [|by apply IH]. exists entry, q. by rewrite Hc, Hs.
Qed.

(** C2: whatever the replay accepts is a verified stream: it starts with one
    authenticated genesis, every later event is signed by the keys in force at
    its place, names its predecessor and the state before it, does not go back
    in time, and nothing follows a revocation or retirement. *)
Theorem replay_accepts_verified_streams ctx indexed verify cur l prior :
  verifyLifecycleVerifiedWithMigration ctx indexed verify cur = Ok (l, prior) ->
  exists h, verified_stream verify l h.
Proof. intros H. by apply replay_outputs in H as [H _]. Qed.

(** C10: the hash chain binds the whole history: two accepted streams, however
    the sources interleaved or repeated their entries, that end in the same
    event ID consist of the same signed events in the same order, unless an
    event of the one and an event of the other have different signed texts
    under one SHA-256 sum. *)
Theorem one_end_one_history ctx1 ctx2 items1 items2 verify1 verify2 cur1 cur2 l1 l2 p1 p2 x1 x2 :
  Forall entry_chain items1 -> Forall entry_chain items2 ->
  verifyLifecycleVerifiedWithMigration ctx1 items1 verify1 cur1 = Ok (l1, p1) ->
  verifyLifecycleVerifiedWithMigration ctx2 items2 verify2 cur2 = Ok (l2, p2) ->
  last l1 = Some x1 -> last l2 = Some x2 -> EventID (v_signed x1) = EventID (v_signed x2) ->
  v_signed <$> l1 = v_signed <$> l2 \/ event_collision l1 l2.
Proof.
  intros F1 F2 R1 R2 L1 L2 E.
  destruct (replay_outputs _ _ _ _ _ _ R1) as [(h1 & S1) (k1 & K1 & C1)], (replay_outputs _ _ _ _ _ _ R2) as [(h2 & S2) (k2 & K2 & C2)].
  destruct (stream_last _ _ _ S1) as (y1 & M1 & I1 & _), (stream_last _ _ _ S2) as (y2 & M2 & I2 & _).
  rewrite L1 in M1. rewrite L2 in M2. injection M1 as <-. injection M2 as <-.
  eapply streams_with_one_end; [exact S1|exact S2|by eapply (outputs_from_entries verify1 items1)|by eapply (outputs_from_entries verify2 items2)|congruence].
Qed.
End stream.
