(* ===== verification/AppendSpec.v ===== *)
(** * AppendSpec: replays in full, and appending

    The converse of ReplaySpec: a verified stream is replayed as it stands.
    From it, what the lifecycle state after a stream is, that the timeline of
    log/log.go accepts the stream's events, and what [CheckAppend] returns. *)

From Stdlib Require Import ZArith Lia Ascii String.
From S2P Require Import Prelude Codec Utf8 Numbers Jcs JcsSpec Keys Fqdn Lifecycle Merkle Evidence Reference Policy Checkpoint Scan Event EventSpec Replay ReplaySpec.

Open Scope Z_scope.

Section append.
Context {key : Type} `{!KeyOps key} `{!JwkText key} {U : NetURL} {I : Idna}.
Abbreviation LogEvent := (LogEvent key).
Abbreviation verifiedEvent := (verifiedEvent (key:=key)).

Definition ids (l : list verifiedEvent) : list string := (fun x => EventID (v_signed x)) <$> l.

(** ** A verified stream is replayed as it stands *)
Lemma replay_loop_app n cur verify s l1 l2 :
  replay_loop (key:=key) (fun _ => false) n cur verify s (l1 ++ l2) =
  (s1 ← replay_loop (fun _ => false) n cur verify s l1;
   replay_loop (fun _ => false) (n + List.length l1) cur verify s1 l2).
Proof.
  revert n s. induction l1 as [|x l1 IH]; intros n s; cbn [app replay_loop List.length andb].
  - cbn [mbind res_bind]. by rewrite Nat.add_0_r.
  - destruct (replay_item cur verify s x) as [s1|]; [|done]. cbn [mbind res_bind].
    rewrite IH. by rewrite Nat.add_succ_r.
Qed.

Lemma replay_loop_one n cur verify s x :
  replay_loop (key:=key) (fun _ => false) n cur verify s [x] = replay_item cur verify s x.
Proof. cbn. by destruct (replay_item cur verify s x). Qed.

Lemma effect_transition (s : replay) x e h' id canonical et0 :
  effect (standing_of s e) x h' -> keyThumbprint (entityKey s) = Ok et0 ->
  previousState s !! "entity_thumb"%string = Some (VString et0) ->
  transition s x id canonical =
    Ok (apply_event s x id canonical (st_operational h') (st_thumb h') (st_state h') (st_ended h')).
Proof.
  intros Heff Het0 Hps. unfold transition.
  destruct Heff as [et t Ety Ep Et En Hne Hnt Het Hte|et Ety Er Het|et Ety Het|Ety Hd Hs Hx];
    cbn [standing_of next st_entity st_operational st_thumb st_state st_ended] in *; rewrite Ety.
  - rewrite Ep, str_eqb_refl, Et, En. cbn [negb orb].
    assert (is_nil (NewOperationalPublicKey (v_event x)) = false) as ->.
    { apply bool_decide_eq_false. intros E. by rewrite E in Et. }
    rewrite (proj2 (is_empty_false t) Hne), str_eqb_refl, (proj2 (str_eqb_neq t _) Hnt). cbn [negb orb].
    rewrite Hps, Het. rewrite Het0 in Het. injection Het as ->. by rewrite bool_decide_eq_false_2 by congruence.
  - by rewrite Er, Het.
  - by rewrite Het.
  - rewrite (proj2 (is_empty_false _) Hd), (proj2 (is_empty_false _) Hs).
    unfold time_is_zero. by rewrite (proj2 (Z.eqb_neq _ 0) Hx).
Qed.

(** What the loop holds after it replayed a stream. *)
Definition replayed (s : replay) (l : list verifiedEvent) (h : standing) : Prop :=
  started s = true /\ out s = l /\ standing_of s (st_last h) = h /\ last_event l = Some (st_last h) /\
  priorHistory s = [] /\ (forall id, id ∉ ids l -> seen s !! id = None).

Lemma candidate_accepted (s : replay) (x : verifiedEvent) e :
  terminal s = false -> Type_ (v_event x) <> LogEventIssuance -> names (standing_of s e) (v_chain x) ->
  last_event (out s) = Some e -> Timestamp e <= Timestamp (v_event x) -> v_parseError x = None ->
  check_candidate s x = Ok tt.
Proof.
  intros Ht Hty Hn Hl Hts Hp. unfold check_candidate. rewrite Ht, Hl, Hp.
  destruct (type_eqb _ _) eqn:E; [by apply bool_decide_eq_true in E|].
  apply (validChainFields_spec (standing_of s e)) in Hn. cbn in Hn. rewrite Hn. cbn.
  unfold before. by rewrite (proj2 (Z.ltb_ge _ _)).
Qed.

Lemma effect_not_issuance h (x : verifiedEvent) h' : effect h x h' -> Type_ (v_event x) <> LogEventIssuance.
Proof. destruct 1; congruence. Qed.

Lemma replay_item_next cur s l h (x : verifiedEvent) h' :
  replaying None s -> replayed s l h -> EventID (v_signed x) ∉ ids l ->
  st_ended h = false -> v_signed x <> EmptyString -> v_parseError x = None -> names h (v_chain x) ->
  candidateAuthorizedByCurrentHistory (v_event x) (v_signed x) (st_entity h) (st_operational h) = true ->
  Timestamp (st_last h) <= Timestamp (v_event x) -> authority x = (st_entity h, st_operational h) ->
  effect h x h' ->
  exists s', replay_item cur None s x = Ok s' /\ replayed s' (l ++ [x]) h'.
Proof.
  intros Hr (Hst & Hout & Hh & Hlast & Hprior & Hseen) Hid Hend Hsig Hp Hn Ha Hts Hauth Heff.
  unfold replaying in Hr. rewrite Hst in Hr. destruct Hr as (e0 & et & Hl0 & _ & Het & Hps & Hne).
  unfold replay_item. rewrite (proj2 (is_empty_false _) Hsig). cbn [seen note_authority]. rewrite Hseen by done.
  rewrite started_note, Hst. rewrite <- Hh in Hn. rewrite (authority_current s x _ Hne Hn).
  rewrite <- Hh in Ha, Hauth, Hend. cbn in Ha, Hauth, Hend. rewrite Ha. cbn [negb].
  rewrite (candidate_accepted _ x (st_last h)); [|exact Hend|by eapply effect_not_issuance|exact Hn|change (last_event (out s) = Some (st_last h)); by rewrite Hout|done|done].
  assert (with_authority x (entityKey s) (currentOperationalKey s) = x) as ->.
  { destruct x. unfold authority in Hauth. cbn in Hauth. injection Hauth as -> ->. done. }
  cbn [mbind res_bind]. rewrite (effect_transition (note_authority s) x (st_last h) h' _ _ et); [|by rewrite <- Hh in Heff|done|done].
  eexists. split; [reflexivity|]. unfold replayed, last_event, ids. rewrite last_snoc, fmap_app.
  assert (st_last h' = v_event x) as Hlast' by (by destruct Heff).
  rewrite Hlast'. split_and!; [exact Hst|cbn; by rewrite Hout| |done|exact Hprior|].
  - rewrite <- Hh in Heff. destruct Heff; unfold standing_of, next, apply_event; cbn -[EventID]; by rewrite Hend.
  - intros id Hnot. cbn -[EventID]. rewrite lookup_insert_ne by set_solver. apply Hseen. set_solver.
Qed.

Lemma replay_item_issuance cur (x : verifiedEvent) et :
  Type_ (v_event x) = LogEventIssuance ->
  candidateAuthorizedByCurrentHistory (v_event x) (v_signed x)
    (InitialEntityPublicKey (v_event x)) (InitialOperationalPublicKey (v_event x)) = true ->
  genesis_chain (v_chain x) -> v_parseError x = None -> v_signed x <> EmptyString ->
  keyThumbprint (InitialEntityPublicKey (v_event x)) = Ok et -> et <> EmptyString ->
  InitialEntityThumbprint (v_event x) = et -> InitialOperationalThumbprint (v_event x) <> et ->
  InitialOperationalThumbprint (v_event x) <> EmptyString ->
  authority x = (InitialEntityPublicKey (v_event x), InitialOperationalPublicKey (v_event x)) ->
  replay_item cur None replay_start x =
    Ok (begin_stream (note_genesis_keys (note_authority replay_start) (InitialEntityPublicKey (v_event x))
          (InitialOperationalPublicKey (v_event x)) (InitialOperationalThumbprint (v_event x)))
      (EventID (v_signed x)) (v_signed x) x
      (InitialEntityPublicKey (v_event x)) (InitialOperationalPublicKey (v_event x)) (InitialOperationalThumbprint (v_event x))
      (activeLifecycleState (Lifecycle.Domain (v_event x)) et (InitialOperationalThumbprint (v_event x))) []).
Proof.
  intros Ety Ha Hg Hp Hsig Het Hne Hte Hdist Hokt Hauth. unfold replay_item.
  rewrite (proj2 (is_empty_false _) Hsig). cbn [note_authority replay_start seen started lastEventID]. rewrite lookup_empty, Ety.
  unfold issuance_genesis. rewrite Ha. cbn [negb]. rewrite (proj2 (is_empty_false _) Hokt), Hp.
  apply validGenesisChain_spec in Hg as ->.
  cbn [negb with_initial_keys InitialEntityPublicKey InitialOperationalPublicKey InitialEntityThumbprint Lifecycle.Domain].
  rewrite Het, Hte, (proj2 (is_empty_false _) Hne), str_eqb_refl, (proj2 (str_eqb_neq et _)) by congruence. cbn [negb orb].
  do 2 f_equal. destruct x as [e ? ? ? ? ? ? ?]. destruct e. cbn in *. subst. done.
Qed.

Lemma stream_replays cur l h :
  verified_stream (None : option (LogEvent -> res (MigrationVerificationResult (key:=key)))) l h ->
  NoDup (ids l) -> Forall (fun x => InitialOperationalThumbprint (v_event x) <> EmptyString \/ Type_ (v_event x) <> LogEventIssuance) l ->
  exists s, replay_loop (fun _ => false) 0 cur None replay_start l = Ok s /\ replayed s l h.
Proof.
  induction 1 as [x et Ety Ha Hg Hp Hsig Het Hne Hte Hdist Hauth|x e f m et ot Ev|l h x h' Hs IH Hend Hsig Hp Hn Ha Hts Hauth Heff];
    intros Hnd Hth; [|done|].
  - apply Forall_cons in Hth as [[Hth|Hth] _]; [|done]. rewrite replay_loop_one.
    rewrite (replay_item_issuance cur x et) by done. eexists. split; [reflexivity|].
    assert (with_authority x (InitialEntityPublicKey (v_event x)) (InitialOperationalPublicKey (v_event x)) = x) as Hx.
    { destruct x. unfold authority in Hauth. cbn in *. by injection Hauth as -> ->. }
    unfold replayed, begin_stream. cbn -[EventID with_authority]. rewrite Hx. split_and!; try done.
    intros id Hid. rewrite lookup_insert_ne by set_solver. apply lookup_empty.
  - unfold ids in Hnd. rewrite fmap_app in Hnd. apply NoDup_app in Hnd as (Hnd & Hdis & _). apply Forall_app in Hth as [Hth _].
    destruct (IH Hnd Hth) as (s & Es & Hrep). rewrite replay_loop_app, Es. cbn [mbind res_bind]. rewrite replay_loop_one.
    assert (replaying None s) as Hrs by (by eapply replay_loop_replaying; [|exact Es]).
    destruct (replay_item_next cur s l h x h') as (s' & Es' & Hrep'); eauto.
    intros Hin. apply (Hdis _ Hin). cbn. left.
Qed.

(** ** Noise *)
(** What the loop skips at a state: empty signed bytes, an event it holds
    already, and whatever the keys in force where it claims to stand did not
    sign. *)
Definition inert (s : replay (key:=key)) (x : verifiedEvent) : Prop :=
  v_signed x = EmptyString \/ seen s !! EventID (v_signed x) = Some (v_signed x) \/
  (seen s !! EventID (v_signed x) = None /\
   if started s then
     let '(ek, ok) := authority_for (note_authority s) x in
     candidateAuthorizedByCurrentHistory (v_event x) (v_signed x) ek ok = false
   else Type_ (v_event x) <> LogEventMigration /\
     candidateAuthorizedByCurrentHistory (v_event x) (v_signed x)
       (InitialEntityPublicKey (v_event x)) (InitialOperationalPublicKey (v_event x)) = false).

Lemma inert_skipped cur verify s x : inert s x -> replay_item cur verify s x = Ok (note_authority s).
Proof.
  unfold replay_item. cbn [seen note_authority]. intros [->|[E|[E H]]]; [done| |].
  - rewrite E, str_eqb_refl. by destruct (is_empty _).
  - rewrite E. destruct (is_empty _); [done|]. rewrite started_note. destruct (started s).
    + destruct (authority_for _ _) as [ek ok]. by rewrite H.
    + destruct H as [Hm Ha]. destruct (Type_ (v_event x)) eqn:Ety; try done. unfold issuance_genesis. by rewrite Ha.
Qed.

Lemma note_authority_idem (s : replay (key:=key)) : note_authority (note_authority s) = note_authority s.
Proof. unfold note_authority. cbn. destruct (is_empty _); [done|]. by rewrite insert_insert_eq. Qed.

Lemma replay_item_note cur verify (s : replay (key:=key)) x :
  replay_item cur verify (note_authority s) x = replay_item cur verify s x.
Proof. unfold replay_item. by rewrite note_authority_idem. Qed.

Lemma replay_loop_count n n' cur verify s l :
  replay_loop (key:=key) (fun _ => false) n cur verify s l = replay_loop (fun _ => false) n' cur verify s l.
Proof. revert n n' s. induction l as [|x l IH]; intros n n' s; [done|]. cbn. by destruct (replay_item _ _ _ _); [apply IH|]. Qed.

(** Noise does not matter: in a log anyone can write to, an entry that the
    identity's keys did not sign, or a copy of one already seen, can be
    inserted anywhere or removed without changing the replay's answer. *)
Theorem unauthorized_entries_are_inert cur verify pre x post s :
  replay_loop (fun _ => false) 0 cur verify replay_start pre = Ok s -> inert s x ->
  verifyLifecycleVerifiedWithMigration (fun _ => false) (pre ++ x :: post) verify cur =
  verifyLifecycleVerifiedWithMigration (fun _ => false) (pre ++ post) verify cur.
Proof.
  intros Es Hx. unfold verifyLifecycleVerifiedWithMigration. rewrite !replay_loop_app, Es. cbn [mbind res_bind].
  cbn [replay_loop]. rewrite (inert_skipped cur verify s x Hx). cbn [mbind res_bind].
  destruct post as [|y post]; [done|]. cbn [replay_loop]. rewrite replay_item_note.
  destruct (replay_item cur verify s y) as [s'|]; [|done]. cbn [mbind res_bind].
  by rewrite (replay_loop_count _ (S (0 + List.length pre))).
Qed.

(** The replay misses nothing: a verified stream with distinct event IDs
    is returned whole and as it stands. *)
Theorem verified_streams_are_replayed cur l h :
  verified_stream None l h -> NoDup (ids l) ->
  Forall (fun x => InitialOperationalThumbprint (v_event x) <> EmptyString \/ Type_ (v_event x) <> LogEventIssuance) l ->
  verifyLifecycleVerifiedWithMigration (fun _ => false) l None cur = Ok (l, []).
Proof.
  intros Hs Hnd Hth. destruct (stream_replays cur l h Hs Hnd Hth) as (s & Es & _ & Hout & _ & Hlast & Hp & _).
  unfold verifyLifecycleVerifiedWithMigration. rewrite Es. cbn [mbind res_bind].
  rewrite bool_decide_eq_false_2, Hout, Hp; [done|]. rewrite Hout. intros ->. done.
Qed.

(** ** The state a stream leaves *)
(** What a stream read from entries of one domain satisfies besides: its
    genesis records the thumbprint of its operational key. *)
Definition of_domain (d : string) (x : verifiedEvent) : Prop :=
  Lifecycle.Domain (v_event x) = d /\
  (Type_ (v_event x) = LogEventIssuance ->
   keyThumbprint (InitialOperationalPublicKey (v_event x)) = Ok (InitialOperationalThumbprint (v_event x))).

(** One step of the loop of [lifecycleStateFromVerified]. *)
Definition state_step (d et : string) (st : option key * string * payload) (item : verifiedEvent) : option key * string * payload :=
  let '(ok, okt, state) := st in
  match Type_ (v_event item) with
  | LogEventKeyRotation =>
      (NewOperationalPublicKey (v_event item), NewOperationalThumbprint (v_event item),
       activeLifecycleState d et (NewOperationalThumbprint (v_event item)))
  | LogEventRevocation => (ok, okt, <["status"%string := VString "REVOKED"]> (activeLifecycleState d et okt))
  | LogEventRetirement => (ok, okt, <["status"%string := VString "RETIRED"]> (activeLifecycleState d et okt))
  | LogEventDelegation => (ok, okt, state)
  | _ => (ok, okt, activeLifecycleState d et okt)
  end.

Lemma state_loop_fold d et ok okt state items :
  state_loop d et ok okt state items =
  ((fold_left (state_step d et) items (ok, okt, state)).1.1, (fold_left (state_step d et) items (ok, okt, state)).2).
Proof.
  revert ok okt state. induction items as [|x items IH]; intros ok okt state; [done|].
  cbn [state_loop fold_left state_step]. by destruct (Type_ (v_event x)); rewrite IH.
Qed.

Lemma effect_state_step d et h (x : verifiedEvent) h' :
  effect h x h' -> Lifecycle.Domain (v_event x) = d -> keyThumbprint (st_entity h) = Ok et ->
  st_entity h' = st_entity h /\
  state_step d et (st_operational h, st_thumb h, st_state h) x = (st_operational h', st_thumb h', st_state h').
Proof.
  intros Heff <- Het. unfold state_step. destruct Heff as [et' t Ety _ _ En _ _ Het' _|et' Ety _ Het'|et' Ety Het'|Ety _ _ _]; rewrite Ety;
    try (rewrite Het in Het'; injection Het' as <-); cbn; rewrite ?En; done.
Qed.

Lemma stream_state (verify : option (LogEvent -> res (MigrationVerificationResult (key:=key)))) d l h :
  verified_stream verify l h -> Forall (of_domain d) l ->
  exists first rest et okt, l = first :: rest /\ st_entity h = InitialEntityPublicKey (v_event first) /\
    keyThumbprint (st_entity h) = Ok et /\ keyThumbprint (InitialOperationalPublicKey (v_event first)) = Ok okt /\
    fold_left (state_step d et) rest (InitialOperationalPublicKey (v_event first), okt, activeLifecycleState d et okt)
      = (st_operational h, st_thumb h, st_state h).
Proof.
  induction 1 as [x et Ety|x e f m et ot Ev _ _ Hx _ _ _ _ _ _ Het Hot|l h x h' Hs IH _ _ _ _ _ _ _ Heff]; intros Hd.
  - apply Forall_cons in Hd as [[<- Hk] _]. exists x, [], et, (InitialOperationalThumbprint (v_event x)). split_and!; try done. by apply Hk.
  - apply Forall_cons in Hd as [[<- _] _]. exists x, [], et, ot. by rewrite Hx.
  - apply Forall_app in Hd as [Hd [[Hx _] _]%Forall_cons].
    destruct (IH Hd) as (first & rest & et & okt & -> & He & Het & Hok & Hf).
    destruct (effect_state_step d et h x h' Heff Hx Het) as [He' Hstep].
    exists first, (rest ++ [x]), et, okt. rewrite fold_left_app, Hf. cbn [fold_left]. rewrite Hstep, He'. auto 10.
Qed.

Lemma lifecycle_state_of_stream (verify : option (LogEvent -> res (MigrationVerificationResult (key:=key)))) d l h :
  verified_stream verify l h -> Forall (of_domain d) l ->
  lifecycleStateFromVerified l d = Ok (st_entity h, st_operational h, st_state h).
Proof.
  intros Hs Hd. destruct (stream_state verify d l h Hs Hd) as (first & rest & et & okt & -> & He & Het & Hok & Hf).
  unfold lifecycleStateFromVerified. rewrite <- He, Het, Hok. cbn [mbind res_bind].
  by rewrite state_loop_fold, Hf.
Qed.

(** The state is an object of four strings. *)
Lemma stream_state_object (verify : option (LogEvent -> res (MigrationVerificationResult (key:=key)))) l h :
  verified_stream verify l h -> exists st, st_state h = state_object st /\ OperationalThumb st = st_thumb h.
Proof.
  induction 1 as [x et|x e f m et ot|l h x h' Hs (st & E & Et) _ _ _ _ _ _ _ Heff].
  - by eexists {| FQDN := _; Status := "ACTIVE"; EntityThumb := _; OperationalThumb := _ |}.
  - by eexists {| FQDN := _; Status := "ACTIVE"; EntityThumb := _; OperationalThumb := _ |}.
  - destruct Heff; cbn.
    + by eexists {| FQDN := _; Status := "ACTIVE"; EntityThumb := _; OperationalThumb := _ |}.
    + by eexists {| FQDN := _; Status := "REVOKED"; EntityThumb := _; OperationalThumb := _ |}.
    + by eexists {| FQDN := _; Status := "RETIRED"; EntityThumb := _; OperationalThumb := _ |}.
    + eauto.
Qed.

Lemma stream_length (verify : option (LogEvent -> res (MigrationVerificationResult (key:=key)))) l h :
  verified_stream verify l h -> st_seq h = u64 (Z.of_nat (List.length l)).
Proof.
  induction 1 as [| |l h x h' Hs IH _ _ _ _ _ _ _ Heff]; [done..|].
  assert (st_seq h' = u64 (st_seq h + 1)) as -> by (by destruct Heff).
  rewrite IH, length_app. unfold u64. rewrite Z.add_mod_idemp_l by lia. f_equal. cbn. lia.
Qed.

(** ** The timeline of log/log.go accepts the stream *)
Definition stands (h : standing) (st : lc_state key) : Prop :=
  let says how := st_state h !! "status"%string = Some (VString (state_string how)) in
  match st with
  | Unissued => False
  | Live k t _ _ => st_ended h = false /\ st_operational h = Some k /\ st_thumb h = t /\ says AgentStateActive
  | Ended how k t _ _ => st_ended h = true /\ st_operational h = Some k /\ st_thumb h = t /\ says how
  end.

(** Thumbprints are hashes, so never empty. *)
Definition thumbprints_nonempty : Prop := forall (k : key) s, thumbprint_sum k = Some s -> s <> EmptyString.

Lemma keyThumbprint_nonempty k t : thumbprints_nonempty -> keyThumbprint (key:=key) k = Ok t -> t <> EmptyString.
Proof.
  intros Hne. unfold keyThumbprint. destruct k as [k|]; [|done]. destruct (thumbprint_sum k) eqn:E; [|done].
  intros [= <-] H. apply (Hne _ _ E). by apply (encode_inj s EmptyString).
Qed.

Lemma keyThumbprint_bound k t :
  thumbprints_nonempty -> keyThumbprint k = Ok t -> exists bound, has_thumb k bound t.
Proof. intros Hne Ht. apply keyThumbprint_has_thumb. split; [done|]. by eapply keyThumbprint_nonempty. Qed.

Lemma effect_step h x h' st :
  thumbprints_nonempty -> st_ended h = false -> effect h x h' -> stands h st ->
  exists st', lc_step st (v_event x) st' /\ stands h' st'.
Proof.
  intros Hne Hend Heff Hst. destruct st as [|k t since gi|how k t since gi]; cbn in Hst; [done| |destruct Hst; congruence].
  destruct Hst as (_ & Hop & Ht & Hs).
  destruct Heff as [et t' Ety Ep Et En Hn1 Hn2 Het Hn3|et Ety Er Het|et Ety Het|Ety Hd Hsc Hx].
  - destruct (keyThumbprint_bound _ _ Hne Et) as [bound Hb]. eexists. split; [eapply lc_rotate; eauto; congruence|].
    destruct Hb as [Hb _]. cbn. done.
  - eexists. split; [by eapply lc_revoke|]. cbn. done.
  - eexists. split; [by eapply lc_retire|]. cbn. done.
  - eexists. split; [by eapply lc_delegate|]. cbn. done.
Qed.

Lemma stream_run (verify : option (LogEvent -> res (MigrationVerificationResult (key:=key)))) d l h :
  thumbprints_nonempty -> verify = None -> verified_stream verify l h -> Forall (of_domain d) l ->
  exists st, lc_run Unissued (v_event <$> l) st /\ stands h st.
Proof.
  intros Hne Hv. induction 1 as [x et Ety Ha Hg Hp Hsig Het Hne' Hte Hdist|x e f m et ot Ev|l h x h' Hs IH Hend _ _ _ _ _ _ Heff];
    intros Hd; [|congruence|].
  - apply Forall_cons in Hd as [[_ Hk] _]. specialize (Hk Ety).
    destruct (keyThumbprint_bound _ _ Hne Hk) as [op Hop], (keyThumbprint_bound _ _ Hne Het) as [ek Hek].
    eexists. split.
    + eapply lc_run_cons, lc_run_nil. by eapply lc_issue.
    + cbn. by destruct Hop.
  - apply Forall_app in Hd as [Hd _]. destruct (IH Hd) as (st & Hr & Hst).
    destruct (effect_step h x h' st Hne Hend Heff Hst) as (st' & Hstep & Hst'). exists st'. split; [|done].
    rewrite fmap_app. by eapply lc_run_snoc.
Qed.

Lemma stream_times (verify : option (LogEvent -> res (MigrationVerificationResult (key:=key)))) l h :
  verified_stream verify l h -> Forall (fun x => Timestamp (v_event x) <= Timestamp (st_last h)) l.
Proof.
  induction 1 as [| |l h x h' Hs IH _ _ _ _ _ Hts _ Heff]; [by repeat constructor..|].
  assert (st_last h' = v_event x) as -> by (by destruct Heff). apply Forall_app. split; [|by repeat constructor].
  eapply Forall_impl; [exact IH|]. cbn. lia.
Qed.

Lemma snapshot_of_stream d l h at_ :
  thumbprints_nonempty -> verified_stream None l h -> Forall (of_domain d) l -> Timestamp (st_last h) <= at_ ->
  exists s st, SnapshotAt (Some (NewDomainLog d (v_event <$> l))) at_ = Ok s /\ s = snap_of d at_ (v_event <$> l) st /\ stands h st.
Proof.
  intros Hne Hs Hd Hat. destruct (stream_run None d l h Hne eq_refl Hs Hd) as (st & Hr & Hst).
  exists (snap_of d at_ (v_event <$> l) st), st. split; [|done]. apply (run_snapshot_at d _ at_ _ []); [|intros E|done].
  2:{ destruct (stream_last _ _ _ Hs) as (x & Hx & _). by apply fmap_nil_inv in E as ->. }
  split; [by rewrite app_nil_r|]. split; [|by constructor]. pose proof (stream_times _ _ _ Hs) as Ht.
  apply Forall_fmap. rewrite Forall_forall in *. intros x Hx. cbn. destruct (Hd x Hx) as [-> _]. split; [apply equal_fold_refl|].
  specialize (Ht x Hx). cbn in Ht. lia.
Qed.

(** ** Appending *)
(** What [check_entry] keeps of an entry. *)
Definition item_of (d : string) (entry : string) (x : verifiedEvent) : Prop :=
  CanonicalFromEntry entry = Ok (v_signed x) /\ Lifecycle.Domain (v_event x) = d /\
  InitialOperationalThumbprint (v_event x) = thumb_or_empty (InitialOperationalPublicKey (v_event x)) /\
  entry_chain x /\ exists q, parseEventFromEntry entry = Ok q /\ v_event x = p_event q.

Lemma eventFromPayload_thumb p q :
  eventFromPayload (key:=key) p = Ok q ->
  InitialOperationalThumbprint (p_event q) = thumb_or_empty (InitialOperationalPublicKey (p_event q)).
Proof. unfold eventFromPayload. intros H. go_inv; done. Qed.

Lemma check_entry_item ref domain i entry x :
  check_entry (key:=key) ref domain i entry = Ok x ->
  item_of (default (Lifecycle.Domain (v_event x)) domain) entry x.
Proof.
  unfold check_entry. intros H. destruct (in_validation _ _); [|done]. unfold mbind, res_bind, in_parse in H.
  destruct (parseEventFromEntry entry) as [q|] eqn:Eq; [|done].
  destruct (p_validationError q); [done|]. destruct (match domain with Some _ => _ | None => _ end) eqn:Ed; [done|].
  destruct (CanonicalFromEntry entry) as [b|] eqn:Eb; [|done]. injection H as <-. cbn.
  unfold item_of. cbn. split_and!; try done.
  - destruct domain as [d|]; [|done]. by apply negb_false_iff, str_eqb_eq in Ed.
  - destruct (payload_of_parse _ _ Eq) as (p & r & _ & Er & _ & -> & _). by eapply eventFromPayload_thumb.
  - by exists entry, q.
  - by exists q.
Qed.

Lemma check_entries_items ref d i entries vs :
  check_entries (key:=key) ref (Some d) i entries = Ok vs -> Forall2 (item_of d) entries vs.
Proof.
  revert i vs. induction entries as [|entry entries IH]; intros i vs; cbn [check_entries]; [by intros [= <-]|].
  destruct (check_entry ref (Some d) i entry) as [x|] eqn:Ex; [|done]. cbn [mbind res_bind default].
  destruct (check_entries _ _ _ entries) as [xs|] eqn:Exs; [|done]. intros [= <-].
  constructor; [by apply check_entry_item in Ex|by eapply IH].
Qed.

Lemma check_entries_first ref i entry entries vs :
  check_entries (key:=key) ref None i (entry :: entries) = Ok vs ->
  exists x xs, vs = x :: xs /\ Forall2 (item_of (Lifecycle.Domain (v_event x))) (entry :: entries) vs.
Proof.
  cbn [check_entries]. destruct (check_entry ref None i entry) as [x|] eqn:Ex; [|done]. cbn [mbind res_bind default].
  destruct (check_entries _ _ _ entries) as [xs|] eqn:Exs; [|done]. intros [= <-]. exists x, xs. split; [done|].
  constructor; [by apply check_entry_item in Ex|by eapply check_entries_items].
Qed.

Lemma kept_of_domain verify d entry x0 x :
  item_of d entry x0 -> comes_from verify x0 x -> of_domain d x /\ CanonicalFromEntry entry = Ok (v_signed x).
Proof.
  intros (Hc & Hd & Ht & _) (_ & -> & _ & Hk & _). split; [|done]. unfold of_domain.
  destruct Hk as [[Hty ->]|[(Hty & okt & Hokt & ->)|(Hty & f & m & ekt & okt & _ & _ & _ & ->)]];
    (split; [exact Hd|]); cbn; [done| |congruence].
  intros _. rewrite Ht in Hokt. unfold thumb_or_empty in Hokt.
  destruct (keyThumbprint (InitialOperationalPublicKey (v_event x0))) as [t|]; [|done].
  destruct (is_empty t); congruence.
Qed.

(** Without migrations the events of the stream are those of the entries. *)
Lemma kept_exact d entry x0 x :
  thumbprints_nonempty -> item_of d entry x0 -> comes_from None x0 x ->
  exists q, parseEventFromEntry entry = Ok q /\ p_event q = v_event x.
Proof.
  intros Hne (_ & _ & Ht & _ & q & Hq & He) (_ & _ & _ & Hk & _). exists q. split; [done|]. rewrite <- He.
  destruct Hk as [[_ ->]|[(_ & okt & Hokt & ->)|(_ & f & m & ekt & okt & [=] & _)]]; [done|].
  assert (InitialOperationalThumbprint (v_event x0) = okt) as <-.
  { rewrite Ht in Hokt |- *. unfold thumb_or_empty in *.
    destruct (keyThumbprint (InitialOperationalPublicKey (v_event x0))) as [t|] eqn:Et; [|done].
    pose proof (keyThumbprint_nonempty _ _ Hne Et) as Hn. apply is_empty_false in Hn. rewrite Hn in Hokt. congruence. }
  by destruct (v_event x0).
Qed.

Lemma all_kept {A} (kept l : list A) : sublist kept l -> (List.length l <= List.length kept)%nat -> kept = l.
Proof.
  induction 1 as [|x k l Hs IH|x k l Hs IH]; cbn; intros Hle; [done|f_equal; apply IH; lia|].
  apply sublist_length in Hs. lia.
Qed.

Lemma stream_last_seq (verify : option (LogEvent -> res (MigrationVerificationResult (key:=key)))) l h x :
  verified_stream verify l h -> last l = Some x ->
  sequence (v_chain x) = Some (u64 (Z.of_nat (List.length l) - 1)) /\ v_event x = st_last h.
Proof.
  destruct 1 as [y et _ _ (_ & Hq & _)|y e f m et ot _ _ _ _ _ _ _ (_ & Hq & _)|l h y h' Hs _ _ _ (_ & Hq & _) _ _ _ Heff].
  - by intros [= <-].
  - by intros [= <-].
  - rewrite last_snoc, length_app. intros [= <-]. rewrite Hq, (stream_length _ _ _ Hs).
    split; [do 2 f_equal; cbn; lia|by destruct Heff].
Qed.

(** The four fields [CheckAppend] reads from a state object. *)
Lemma state_fields st a b c e :
  state_string_field (state_object st) "fqdn" = Some a -> state_string_field (state_object st) "status" = Some b ->
  state_string_field (state_object st) "entity_thumb" = Some c ->
  state_string_field (state_object st) "operational_thumb" = Some e ->
  st = {| FQDN := a; Status := b; EntityThumb := c; OperationalThumb := e |}.
Proof. cbn. intros [= <-] [= <-] [= <-] [= <-]. by destruct st. Qed.

(** The result of a successful [CheckAppend]. *)
Definition head_of (h : standing (key:=key)) (l : list verifiedEvent) (head : StreamHead) : Prop :=
  Seq head = u64 (Z.of_nat (List.length l) - 1) /\ head_EventID head = st_id h /\ head_Type head = Type_ (st_last h) /\
  state_object (State head) = st_state h /\ OperationalThumb (State head) = st_thumb h /\
  exists g, l !! 0%nat = Some g /\ head_GovernanceID head = GovernanceID (v_event g).

Lemma head_of_stream d l h x first (head : StreamHead) rest :
  verified_stream None l h -> Forall (of_domain d) l -> last l = Some x -> l = first :: rest ->
  ('(_, _, state) ← lifecycleStateFromVerified l d;
   match state_string_field state "fqdn", state_string_field state "status",
         state_string_field state "entity_thumb", state_string_field state "operational_thumb" with
   | Some fqdn, Some status, Some entityThumb, Some operationalThumb =>
       Ok {| Seq := default 0 (sequence (v_chain x)); head_EventID := EventID (v_signed x);
             head_Type := Type_ (v_event x);
             State := {| FQDN := fqdn; Status := status; EntityThumb := entityThumb; OperationalThumb := operationalThumb |};
             head_GovernanceID := GovernanceID (v_event first) |}
   | _, _, _, _ => Err (PlainError "dnsid: c2sp-tlog computed lifecycle state has invalid field types")
   end) = Ok head -> head_of h l head.
Proof.
  intros Hs Hd Hx Hl. rewrite (lifecycle_state_of_stream None d l h Hs Hd). cbn [mbind res_bind].
  destruct (stream_state_object _ _ _ Hs) as (st & Est & Hop). rewrite Est.
  destruct (stream_last_seq _ _ _ _ Hs Hx) as [Hq He]. destruct (stream_last _ _ _ Hs) as (y & Hy & Hid & _).
  rewrite Hx in Hy. injection Hy as <-.
  destruct (state_string_field _ "fqdn") eqn:E1; [|done]. destruct (state_string_field _ "status") eqn:E2; [|done].
  destruct (state_string_field _ "entity_thumb") eqn:E3; [|done].
  destruct (state_string_field _ "operational_thumb") eqn:E4; [|done]. intros [= <-].
  pose proof (state_fields _ _ _ _ _ E1 E2 E3 E4) as E. unfold head_of. cbn -[EventID]. rewrite Hq, He, <- E, <- Hop.
  split_and!; try done; [by rewrite E|]. exists first. by rewrite Hl.
Qed.

Lemma Forall2_compose {A B C} (P : A -> B -> Prop) (Q : B -> C -> Prop) (R : A -> C -> Prop) l1 l2 l3 :
  (forall a b c, P a b -> Q b c -> R a c) -> Forall2 P l1 l2 -> Forall2 Q l2 l3 -> Forall2 R l1 l3.
Proof.
  intros H H1. revert l3. induction H1; intros l3 H2; inversion H2; subst; constructor; eauto.
Qed.
Lemma Forall2_right {A B} (P : A -> B -> Prop) (Q : B -> Prop) l1 l2 :
  (forall a b, P a b -> Q b) -> Forall2 P l1 l2 -> Forall Q l2.
Proof. intros H. induction 1; constructor; eauto. Qed.

Lemma check_append_stream ctx ref history candidate head :
  CheckAppend (key:=key) ctx ref history candidate = Ok head ->
  exists l h d, verified_stream None l h /\ Forall (of_domain d) l /\
    Forall2 (fun entry x => CanonicalFromEntry entry = Ok (v_signed x)) (history ++ [candidate]) l /\
    (thumbprints_nonempty -> Forall2 (fun entry x => exists q, parseEventFromEntry entry = Ok q /\ p_event q = v_event x) (history ++ [candidate]) l) /\
    Forall entry_chain l /\ Z.of_nat (List.length l) <= defaultScanMaxTreeSize /\ head_of h l head.
Proof.
  unfold CheckAppend. intros H. destruct (in_validation _ (validateHistorySize _)) as [[]|] eqn:Esz; [|done]. cbn [mbind res_bind] in H.
  destruct (check_entries ref None 0 (history ++ [candidate])) as [vs|] eqn:Evs; [|done]. cbn [mbind res_bind] in H.
  assert (exists d, Forall2 (item_of d) (history ++ [candidate]) vs /\
    d = match vs with v :: _ => Lifecycle.Domain (v_event v) | [] => EmptyString end) as (d & Hvs & Ed).
  { destruct (history ++ [candidate]) as [|e es] eqn:El; [by destruct history|].
    apply check_entries_first in Evs as (x & xs & -> & Hf). eauto. }
  destruct (verifyLifecycleVerifiedWithMigration ctx vs None (ref_String ref)) as [[l prior]|e] eqn:Er.
  2:{ destruct (negb _); [done|]. destruct (_ || _); [done|]. destruct history, (last vs); done. }
  destruct (_ <? _)%nat eqn:E1 in H; [done|]. destruct (last vs) as [c|]; [|done].
  destruct (last l) as [x|] eqn:Ex; [|done]. destruct l as [|first rest] eqn:El; [done|].
  destruct (_ =? _)%nat eqn:E2 in H; [done|]. rewrite <- Ed in H. rewrite <- El in *.
  apply Nat.ltb_ge in E1. apply Nat.eqb_neq in E2.
  destruct (replay_outputs _ _ _ _ _ _ Er) as ((h & Hs) & kept & Hk & Hc).
  pose proof (Forall2_length _ _ _ Hvs) as Hlen. rewrite length_app in Hlen. cbn in Hlen.
  rewrite (all_kept kept vs) in Hc; [|done|rewrite (Forall2_length _ _ _ Hc); lia].
  assert (Forall2 (fun entry x => of_domain d x /\ CanonicalFromEntry entry = Ok (v_signed x)) (history ++ [candidate]) l) as Hall.
  { eapply Forall2_compose; [|exact Hvs|exact Hc]. intros entry x0 y. apply kept_of_domain. }
  assert (Forall (of_domain d) l) as Hd.
  { eapply Forall2_right; [|exact Hall]. by intros ? ? [? _]. }
  exists l, h, d. split_and!; try done.
  - eapply Forall2_impl; [exact Hall|]. by intros ? ? [_ ?].
  - intros Hne. eapply Forall2_compose; [|exact Hvs|exact Hc]. intros entry x0 y. by apply kept_exact.
  - eapply outputs_from_entries; [|reflexivity|exact Hc]. eapply Forall2_right; [|exact Hvs]. by intros ? ? (_ & _ & _ & ? & _).
  - unfold validateHistorySize, in_validation in Esz. destruct (defaultScanMaxTreeSize <? _) eqn:E; [done|].
    apply Z.ltb_ge in E. rewrite length_fmap, length_app in E. cbn in E.
    rewrite <- (Forall2_length _ _ _ Hc). lia.
  - by eapply head_of_stream.
Qed.

(** ** Forks *)
Lemma fork_rejected cur verify (s : replay) x ek ok e :
  replaying verify s -> started s = true -> v_signed x <> EmptyString -> seen s !! EventID (v_signed x) = None ->
  authority_for (note_authority s) x = (ek, ok) ->
  candidateAuthorizedByCurrentHistory (v_event x) (v_signed x) ek ok = true ->
  ~ names (standing_of s e) (v_chain x) ->
  exists code msg, replay_item cur verify s x = Err (VerificationError code false msg) /\
    code ∈ ["TERMINAL_STATE"; "DUPLICATE_ISSUANCE"; "CHAIN_CONTINUITY"]%string.
Proof.
  intros Hr Hst Hsig Hseen Hauth Ha Hn. unfold replay_item. rewrite (proj2 (is_empty_false _) Hsig).
  cbn [seen note_authority]. rewrite Hseen, started_note, Hst, Hauth, Ha. cbn [negb]. unfold check_candidate.
  cbn [terminal note_authority nextSeq lastEventID previousState].
  destruct (terminal s); [do 2 eexists; split; [reflexivity|set_solver]|].
  destruct (type_eqb _ _); [do 2 eexists; split; [reflexivity|set_solver]|].
  destruct (validChainFields _ _ _ _) eqn:E; [|do 2 eexists; split; [reflexivity|set_solver]].
  by apply (validChainFields_spec (standing_of s e)) in E.
Qed.

(** Equivocation is an error, not noise: an entry that is signed with the
    keys in force at the event it names, but does not continue the stream
    from where it stands, makes every replay that reaches it fail with a
    permanent TERMINAL_STATE, DUPLICATE_ISSUANCE or CHAIN_CONTINUITY error,
    whatever follows. *)
Theorem authenticated_fork_is_rejected cur verify pre x post s ek ok e :
  replay_loop (fun _ => false) 0 cur verify replay_start pre = Ok s -> started s = true ->
  v_signed x <> EmptyString -> seen s !! EventID (v_signed x) = None ->
  authority_for (note_authority s) x = (ek, ok) ->
  candidateAuthorizedByCurrentHistory (v_event x) (v_signed x) ek ok = true ->
  ~ names (standing_of s e) (v_chain x) ->
  exists code msg,
    verifyLifecycleVerifiedWithMigration (fun _ => false) (pre ++ x :: post) verify cur = Err (VerificationError code false msg) /\
    code ∈ ["TERMINAL_STATE"; "DUPLICATE_ISSUANCE"; "CHAIN_CONTINUITY"]%string.
Proof.
  intros Es Hst Hsig Hseen Hauth Ha Hn.
  assert (replaying verify s) as Hr by (by eapply replay_loop_replaying; [|exact Es]).
  destruct (fork_rejected cur verify s x ek ok e Hr Hst Hsig Hseen Hauth Ha Hn) as (code & msg & E & Hc).
  exists code, msg. split; [|done]. unfold verifyLifecycleVerifiedWithMigration.
  rewrite replay_loop_app, Es. cbn [mbind res_bind replay_loop]. by rewrite E.
Qed.

(** What a successful CheckAppend says: the entries and the candidate,
    all of them and in their order, are one verified stream, and the head it
    returns is where that stream stands: the sequence number is the number
    of the entries before the candidate, the ID and type are the
    candidate's, the state is the stream's, field by field, and the
    governance ID is the genesis's. *)
Theorem check_append_head ctx ref history candidate head :
  CheckAppend (key:=key) ctx ref history candidate = Ok head ->
  exists l h, verified_stream None l h /\
    Forall2 (fun entry x => CanonicalFromEntry entry = Ok (v_signed x)) (history ++ [candidate]) l /\
    Seq head = Z.of_nat (List.length history) /\ head_EventID head = st_id h /\
    head_Type head = Type_ (st_last h) /\ state_object (State head) = st_state h /\
    OperationalThumb (State head) = st_thumb h /\
    exists g, l !! 0%nat = Some g /\ head_GovernanceID head = GovernanceID (v_event g).
Proof.
  intros H. destruct (check_append_stream _ _ _ _ _ H) as (l & h & d & Hs & _ & Hall & _ & _ & Hmax & Hq & Hid & Hty & Hst & Hop & Hg).
  exists l, h. pose proof (Forall2_length _ _ _ Hall) as Hlen. rewrite length_app in Hlen. cbn in Hlen.
  split_and!; try done. rewrite Hq. unfold u64. change defaultScanMaxTreeSize with 1000000 in Hmax.
  rewrite Z.mod_small; lia.
Qed.

(** C31: the log client and the timeline agree: the very events that the
    entries and the candidate of a successful CheckAppend parse to, all of one
    domain and in their order, are a history that [SnapshotAt] accepts at any
    time from the last event on, and the snapshot has the operational
    thumbprint and the status of the returned head. *)
Theorem check_append_agrees_with_timeline ctx ref history candidate head :
  thumbprints_nonempty -> CheckAppend (key:=key) ctx ref history candidate = Ok head ->
  exists events d,
    Forall2 (fun entry e => exists q, parseEventFromEntry entry = Ok q /\ p_event q = e) (history ++ [candidate]) events /\
    Forall (fun e => Lifecycle.Domain e = d) events /\
    forall at_, Forall (fun e => Timestamp e <= at_) events ->
    exists s, SnapshotAt (Some (NewDomainLog d events)) at_ = Ok s /\
      ActiveKeyThumbprint s = OperationalThumb (State head) /\
      state_string <$> HistoricalState s = Some (Status (State head)).
Proof.
  intros Hne H. destruct (check_append_stream _ _ _ _ _ H) as (l & h & d & Hs & Hd & _ & Hall & _ & _ & _ & _ & _ & Hst & Hop & _).
  exists (v_event <$> l), d. split; [|split].
  { rewrite Forall2_fmap_r. by apply Hall. }
  { rewrite Forall_fmap. eapply Forall_impl; [exact Hd|]. by intros x [Hx _]. }
  intros at_ Hat. rewrite Forall_fmap in Hat.
  destruct (stream_last _ _ _ Hs) as (x & Hx & _ & Hin). destruct (stream_last_seq _ _ _ _ Hs Hx) as [_ He].
  rewrite Forall_forall in Hat. specialize (Hat x Hin). cbn in Hat. rewrite He in Hat.
  destruct (snapshot_of_stream d l h at_ Hne Hs Hd Hat) as (s & st & Es & -> & Hstands). eexists. split; [exact Es|].
  assert (st_state h !! "status"%string = Some (VString (Status (State head)))) as Hstat by (by rewrite <- Hst).
  destruct st as [|k t since gi|how k t since gi]; cbn in Hstands; [done| |];
    destruct Hstands as (_ & _ & Ht & Hs'); rewrite Hstat in Hs'; injection Hs' as Hs'; cbn; rewrite Hs'; (split; [congruence|done]).
Qed.
End append.
