(* ===== verification/Client.v ===== *)
(** * Client: the log client's reads

    log/c2sptlog/client.go: [verifyHistoryEntries] takes what a source supplies,
    verifies every proof, advances the trusted checkpoints and replays the
    entries; the operations of the reader are decisions over the result.
    What surrounds a call is the record [call]: the readings of the clock, the
    context at each place where it is looked at, the evidence for checkpoint
    advances. The trusted store is threaded through. *)

From Stdlib Require Import ZArith Lia Ascii String.
From S2P Require Import Prelude Codec Utf8 Numbers Jcs JcsSpec Keys Fqdn Lifecycle Merkle Evidence Reference Policy Checkpoint Scan Event EventSpec Replay ReplaySpec.

Open Scope Z_scope.

(** [sort.SliceStable] by an integer key. *)
Fixpoint insert_by {A} (k : A -> Z) (x : A) (l : list A) : list A :=
  match l with
  | [] => [x]
  | y :: l => if k x <=? k y then x :: y :: l else y :: insert_by k x l
  end.
Definition sort_by {A} (k : A -> Z) (l : list A) : list A := foldr (insert_by k) [] l.

(** ** Migration limits *)
Record MigrationVerificationLimits := { MaxDepth : Z; MaxHistoryEvents : Z; MaxResponseBytes : Z }.

Definition defaultMigrationVerificationLimits : MigrationVerificationLimits :=
  {| MaxDepth := 8; MaxHistoryEvents := 10000; MaxResponseBytes := Z.shiftl 8 20 |}.

Definition withDefaults (l : MigrationVerificationLimits) : MigrationVerificationLimits :=
  let or_default v d := if v =? 0 then d else v in
  {| MaxDepth := or_default (MaxDepth l) (MaxDepth defaultMigrationVerificationLimits);
     MaxHistoryEvents := or_default (MaxHistoryEvents l) (MaxHistoryEvents defaultMigrationVerificationLimits);
     MaxResponseBytes := or_default (MaxResponseBytes l) (MaxResponseBytes defaultMigrationVerificationLimits) |}.

(** The value a migration verifier finds in its context. *)
Record migrationPath := { nextLog : string; depth : Z; path_seen : gset string; path_limits : MigrationVerificationLimits }.

Definition migrationLimitsForContext (path : option migrationPath) (local : MigrationVerificationLimits)
    : MigrationVerificationLimits :=
  match path with Some p => path_limits p | None => withDefaults local end.

(** A result with the completeness boundary it was read at. *)
Record CompleteHistoryResult := {
  Entries : list ProvenEntry;
  ch_Checkpoint : string;
  ch_CompleteThrough : Z;
  ch_CompletenessMode : string;
  ch_FreshnessTime : time
}.

Section client.
Context {key : Type} `{!KeyOps key} `{!JwkText key} {N : NoteLib} {U : NetURL} {T : TLog} {I : Idna} {C : ConsistencyLib}.
Abbreviation LogEvent := (LogEvent key).
Abbreviation verifiedEvent := (verifiedEvent (key:=key)).
Abbreviation MigrationVerificationResult := (MigrationVerificationResult (key:=key)).

Definition enterMigration (path : option migrationPath) (event : LogEvent) (currentLog : string)
    (local : MigrationVerificationLimits) : res (migrationPath * MigrationVerificationLimits) :=
  let limits := migrationLimitsForContext path local in
  fail_if match path with Some p => negb (str_eqb (nextLog p) currentLog) | None => false end
    with PlainError "dnsid: c2sp-tlog migration history is not contiguous" ;;
  fail_if match path with Some p => MaxDepth limits <=? depth p | None => false end
    with PlainError "dnsid: c2sp-tlog migration recursion exceeds configured maximum" ;;
  let seen := match path with Some p => path_seen p | None => {[currentLog]} end in
  let d := match path with Some p => depth p | None => 0 end in
  fail_if bool_decide (PreviousLog event ∈ seen) with PlainError "dnsid: c2sp-tlog migration cycle" ;;
  Ok ({| nextLog := PreviousLog event; depth := d + 1; path_seen := {[PreviousLog event]} ∪ seen;
         path_limits := limits |}, limits).

(** The loop of [validateMigrationResources] over the prior history: the
    number of migrations, the logs seen and the last log. *)
Fixpoint migration_chain (migrations : Z) (seen : gset string) (lastLog : string) (history : list LogEvent)
    : res (Z * gset string * string) :=
  match history with
  | [] => Ok (migrations, seen, lastLog)
  | prior :: history =>
      if negb (type_eqb (Type_ prior) LogEventMigration) then migration_chain migrations seen lastLog history
      else
        fail_if negb (is_empty lastLog) && negb (str_eqb (PreviousLog prior) lastLog)
          with PlainError "dnsid: c2sp-tlog migration history is not contiguous" ;;
        let seen := if is_empty lastLog then {[PreviousLog prior]} ∪ seen else seen in
        fail_if bool_decide (NewLog prior ∈ seen) with PlainError "dnsid: c2sp-tlog migration history contains a cycle" ;;
        migration_chain (migrations + 1) ({[NewLog prior]} ∪ seen) (NewLog prior) history
  end.

(** [json_size] is the length of [json.Marshal(result)]. *)
Definition validateMigrationResources (json_size : MigrationVerificationResult -> res Z) (event : LogEvent)
    (result : MigrationVerificationResult) (limits : MigrationVerificationLimits) : res unit :=
  let limits := withDefaults limits in
  fail_if MaxHistoryEvents limits <? Z.of_nat (List.length (PriorHistory result))
    with PlainError "dnsid: c2sp-tlog migration history exceeds configured maximum" ;;
  '(migrations, seen, lastLog) ← migration_chain 1 ∅ EmptyString (PriorHistory result);
  fail_if MaxDepth limits <? migrations with PlainError "dnsid: c2sp-tlog migration recursion exceeds configured maximum" ;;
  fail_if negb (is_empty lastLog) && negb (str_eqb lastLog (PreviousLog event))
    with PlainError "dnsid: c2sp-tlog migration history does not end at previous log" ;;
  let seen := if is_empty lastLog then {[PreviousLog event]} ∪ seen else seen in
  fail_if bool_decide (NewLog event ∈ seen) with PlainError "dnsid: c2sp-tlog migration history contains a cycle" ;;
  match json_size result with
  | Err e => Err (WithCause (PlainError "dnsid: encoding c2sp-tlog migration response") e)
  | Ok size =>
      fail_if MaxResponseBytes limits <? size
        with PlainError "dnsid: c2sp-tlog migration response exceeds configured byte maximum" ;;
      Ok tt
  end.

(** ** The client *)
Record preloadedHistory := {
  pre_domain : string;
  pre_entries : list ProvenEntry;
  pre_expires : time;
  pre_scan : option (string * list string)
}.

Record Client := {
  client_ref : Reference;
  client_policy : Policy;
  store_configured : bool;                  (* checkpointStore != nil *)
  verifyMigration : option (migrationPath -> LogEvent -> res MigrationVerificationResult);
  migrationLimits : MigrationVerificationLimits;
  trustedScope : string;
  trustedLogPrefix : string;
  preloaded : option preloadedHistory;
  (* the source, when there is one, by what it returns during a call *)
  source_configured : bool;
  source_ReadEvent : string -> res ProvenEntry;
  source_RebuildHistory : string -> res (list ProvenEntry);
  source_RebuildCompleteHistory : option (string -> res CompleteHistoryResult);
  GlobalCandidates : bool;
  migration_json_size : MigrationVerificationResult -> res Z
}.

(** What a call meets: the clock of the [i]-th proof verification, the clock
    of the checkpoint verification and of [policy.now()], whether the context
    is done before entry [i], during the replay and at the end, whether the
    context of a preload is still alive and the clock of its expiry checks,
    the migration path of the context, and the advance's own environment. *)
Record call := {
  proof_clock : nat -> nat -> time;
  checkpoint_clock : nat -> time;
  now : time;
  done_entry : nat -> bool;
  done_replay : nat -> bool;
  done_end : bool;
  preload_live : bool;
  expiry_clock : nat -> time;
  path : option migrationPath;
  adv : adv_env
}.

Definition with_clock (p : Policy) (clock : nat -> time) : Policy :=
  {| LogVerifier := LogVerifier p; WitnessVerifiers := WitnessVerifiers p; WitnessQuorum := WitnessQuorum p;
     CheckpointTime := CheckpointTime p; Now := clock; MaxCheckpointAge := MaxCheckpointAge p;
     ClockSkew := ClockSkew p; quorumRule := quorumRule p; trustedPublicKeys := trustedPublicKeys p;
     skipProofVerify := skipProofVerify p |}.

(** [New], given the options' effect as a client. *)
Definition New (lr : string) (opts : Reference -> Client) : res Client :=
  ref ← ParseReference lr;
  let c := opts ref in
  let l := migrationLimits c in
  fail_if (MaxDepth l <? 0) || (MaxHistoryEvents l <? 0) || (MaxResponseBytes l <? 0)
    with PlainError "dnsid: c2sp-tlog migration verification limits must be non-negative" ;;
  fail_if negb (is_empty (trustedLogPrefix c))
       && (negb (str_eqb (Scope ref) (trustedScope c)) || negb (str_eqb (LogPrefix ref) (trustedLogPrefix c)))
    with PlainError "dnsid: c2sp-tlog reference is not accepted by the trust profile" ;;
  Ok {| client_ref := ref; client_policy := client_policy c; store_configured := store_configured c;
        verifyMigration := verifyMigration c; migrationLimits := withDefaults l; trustedScope := trustedScope c;
        trustedLogPrefix := trustedLogPrefix c; preloaded := preloaded c; source_configured := source_configured c;
        source_ReadEvent := source_ReadEvent c; source_RebuildHistory := source_RebuildHistory c;
        source_RebuildCompleteHistory := source_RebuildCompleteHistory c; GlobalCandidates := GlobalCandidates c;
        migration_json_size := migration_json_size c |}.

Definition verifyBoundedMigration (c : Client) (w : call)
    (verify : migrationPath -> LogEvent -> res MigrationVerificationResult) (event : LogEvent) : res MigrationVerificationResult :=
  '(p, limits) ← enterMigration (path w) event (ref_String (client_ref c)) (migrationLimits c);
  result ← verify p event;
  validateMigrationResources (migration_json_size c) event result limits ;;
  Ok result.

(** The verifier the replay is given. *)
Definition migration_verifier (c : Client) (w : call) : option (LogEvent -> res MigrationVerificationResult) :=
  match verifyMigration c with Some verify => Some (verifyBoundedMigration c w verify) | None => None end.

(** ** Verifying the entries of a history *)
Definition sameCheckpoint (a b : option Checkpoint) : bool :=
  match a, b with
  | Some a, Some b => str_eqb (CpOrigin a) (CpOrigin b) && (CpSize a =? CpSize b) && str_eqb (CpHash a) (CpHash b)
  | _, _ => false
  end.

Definition set_index (v : VerifiedProof) (i : Z) (cp : option Checkpoint) : VerifiedProof :=
  {| Index := i; VCheckpoint := cp; CheckpointNote := CheckpointNote v; CheckpointWitnessTime := CheckpointWitnessTime v;
     CheckpointIntegrationTime := CheckpointIntegrationTime v; CheckpointFreshnessTime := CheckpointFreshnessTime v;
     LogTime := LogTime v |}.

(** A test build's proof is taken at its word. *)
Definition proof_of_entry (p : Policy) (required : option VerifiedProof) (entry : ProvenEntry) (v : VerifiedProof) : VerifiedProof :=
  if skipProofVerify p
  then set_index v (pe_Index entry) (match required with Some r => VCheckpoint r | None => VCheckpoint v end)
  else v.

Definition invalid_evidence (msg : string) : error := VerificationError VerificationCodeInvalidEvidence false msg.

(** The lifecycle half of the loop body: the event of the entry, if it has one. *)
Definition verify_payload (c : Client) (domain : string) (entry : ProvenEntry) (proof : VerifiedProof)
    : res (option verifiedEvent) :=
  match validateEntryMetadata (client_ref c) (Entry entry) with
  | Err e =>
      if bool_decide (ErrNestingLimit ∈ error_chain e)
      then Err (WithCause (invalid_evidence "dnsid: c2sp-tlog verification resource limit exceeded") e)
      else if negb (GlobalCandidates c) then Err e else Ok None
  | Ok _ =>
      match parseEventFromEntry (key:=key) (Entry entry) with
      | Err _ => Ok None
      | Ok parsed =>
          if negb (str_eqb (Lifecycle.Domain (p_event parsed)) domain)
          then if negb (GlobalCandidates c) then Err (PlainError "dnsid: supplied bundle event is for another domain") else Ok None
          else
            fail_if time_is_zero (LogTime proof) && negb (skipProofVerify (client_policy c))
              with invalid_evidence "dnsid: lifecycle verification requires an accepted checkpoint timestamp" ;;
            let parseError :=
              if negb (time_is_zero (LogTime proof)) && after (Timestamp (p_event parsed)) (LogTime proof)
              then Some (PlainError "dnsid: event timestamp is after accepted log timestamp")
              else p_validationError parsed in
            match CanonicalFromEntry (Entry entry) with
            | Err e => if negb (GlobalCandidates c) then Err e else Ok None
            | Ok signed =>
                Ok (Some {| v_event := p_event parsed; v_chain := p_chain parsed; v_index := Index proof; v_signed := signed;
                            v_parseError := parseError; v_migration := None; v_authorityEntity := None;
                            v_authorityOperational := None |})
            end
      end
  end.

(** The loop body: the verified proof and the event the entry contributes. *)
Definition verify_entry (c : Client) (w : call) (domain : string) (required : option VerifiedProof) (i : nat)
    (entry : ProvenEntry) : res (option VerifiedProof * option verifiedEvent) :=
  match VerifyProof (with_clock (client_policy c) (proof_clock w i)) (client_ref c) (Entry entry) (Proof_ entry) with
  | Err e =>
      if negb (GlobalCandidates c) || negb (bool_decide (errors_as as_verification e = None))
      then Err (WithCause (invalid_evidence "dnsid: invalid c2sp-tlog inclusion or checkpoint evidence") e)
      else Ok (None, None)
  | Ok v =>
      let proof := proof_of_entry (client_policy c) required entry v in
      fail_if match required with Some r => negb (sameCheckpoint (VCheckpoint proof) (VCheckpoint r)) | None => false end
        with PlainError "dnsid: c2sp-tlog entry proof is not bound to the complete checkpoint" ;;
      fail_if negb (Index proof =? pe_Index entry)
        with invalid_evidence "dnsid: supplied occurrence index does not match its proof" ;;
      event ← verify_payload c domain entry proof;
      Ok (if bool_decide (VCheckpoint proof = None) then None else Some proof, event)
  end.

Fixpoint verify_entries (c : Client) (w : call) (domain : string) (required : option VerifiedProof) (i : nat)
    (entries : list ProvenEntry) : res (list VerifiedProof * list verifiedEvent) :=
  match entries with
  | [] => Ok ([], [])
  | entry :: entries =>
      fail_if done_entry w i with ContextError ;;
      '(proof, event) ← verify_entry c w domain required i entry;
      '(proofs, events) ← verify_entries c w domain required (S i) entries;
      Ok (option_list proof ++ proofs, option_list event ++ events)
  end.

Definition checkpoint_size (v : VerifiedProof) : Z := match VCheckpoint v with Some cp => CpSize cp | None => 0 end.

(** The end of [verifyHistoryEntries]: the replay and the stitched history. *)
Definition replay_entries (c : Client) (w : call) (verified : list verifiedEvent) : res (list verifiedEvent * list LogEvent) :=
  '(accepted, priorHistory) ← verifyLifecycleVerifiedWithMigration (done_replay w) (sort_by v_index verified)
     (migration_verifier c w) (ref_String (client_ref c));
  let maximum := MaxHistoryEvents (migrationLimitsForContext (path w) (migrationLimits c)) in
  fail_if negb (bool_decide (priorHistory = []))
       && ((maximum <? Z.of_nat (List.length accepted))
           || (maximum - Z.of_nat (List.length accepted) <? Z.of_nat (List.length priorHistory)))
    with invalidMigration "dnsid: c2sp-tlog stitched migration history exceeds configured maximum" None ;;
  Ok (accepted, priorHistory ++ (v_event <$> accepted)).

Definition verifyHistoryEntries (c : Client) (w : call) (s : option checkpoints) (domain : string)
    (entries : list ProvenEntry) (required : option VerifiedProof)
    : res (list verifiedEvent * list LogEvent) * option checkpoints :=
  match validateHistorySize ((fun e => (Entry e, Proof_ e)) <$> entries) with
  | Err e => (Err e, s)
  | Ok _ =>
      match verify_entries c w domain required 0 entries with
      | Err e => (Err e, s)
      | Ok (proofs, verified) =>
          match advanceTrustedCheckpoints (store_configured c) (adv w) s (sort_by checkpoint_size (option_list required ++ proofs)) with
          | (Err e, s') => (Err (logVerificationError e false), s')
          | (Ok _, s') => (replay_entries c w verified, s')
          end
      end
  end.

(** [defer func() { err = logVerificationError(err, false) }()]. *)
Definition log_error {A} (r : res A) : res A :=
  match r with Ok a => Ok a | Err e => Err (logVerificationError e false) end.
(** The deferred [if err == nil { err = ctx.Err() }]. *)
Definition unless_cancelled {A} (w : call) (r : res A) : res A :=
  a ← r; fail_if done_end w with ContextError ;; Ok a.

Definition checkExpiry (h : preloadedHistory) (w : call) (k : nat) : res unit :=
  fail_if negb (time_is_zero (pre_expires h)) && negb (before (expiry_clock w k) (pre_expires h))
    with PlainError "dnsid: preloaded c2sp stream bundle expired" ;;
  Ok tt.

Definition argument_source : error := ArgumentError "dnsid: c2sp-tlog source is required".

(** The advance sees the scan of the preload in place of the call's own. *)
Definition with_scan (w : call) (sc : option (string * list string)) : call :=
  let src := adv_source (adv w) in
  {| proof_clock := proof_clock w; checkpoint_clock := checkpoint_clock w; now := now w; done_entry := done_entry w;
     done_replay := done_replay w; done_end := done_end w; preload_live := preload_live w; expiry_clock := expiry_clock w;
     path := path w;
     adv := {| adv_ctx := adv_ctx (adv w);
               adv_source := {| scan := sc; FetchConsistencyProof := FetchConsistencyProof src;
                                tile_source := tile_source src; FetchEntriesThrough := FetchEntriesThrough src |} |} |}.

(** The preload that applies to a domain. *)
Definition usable_preload (c : Client) (w : call) (domain : string) : option preloadedHistory :=
  match preloaded c with
  | Some h => if str_eqb (pre_domain h) domain && preload_live w then Some h else None
  | None => None
  end.

Definition rebuildVerifiedHistory (c : Client) (w : call) (s : option checkpoints) (domain : string)
    : res (list verifiedEvent * list LogEvent) * option checkpoints :=
  if negb (source_configured c) then (log_error (Err argument_source), s)
  else
    match usable_preload c w domain with
    | Some h =>
        match checkExpiry h w 0 with
        | Err e => (log_error (Err e), s)
        | Ok _ =>
            let '(r, s') := verifyHistoryEntries c (with_scan w (pre_scan h)) s domain (pre_entries h) None in
            (log_error (a ← r; checkExpiry h w 1 ;; Ok a), s')
        end
    | None =>
        match source_RebuildHistory c domain with
        | Err e => (log_error (Err (logVerificationError e true)), s)
        | Ok entries =>
            let '(r, s') := verifyHistoryEntries c w s domain entries None in (log_error r, s')
        end
    end.

Definition RebuildHistory (c : Client) (w : call) (s : option checkpoints) (domain : string)
    : res (list LogEvent) * option checkpoints :=
  let '(r, s') := rebuildVerifiedHistory c w s domain in ('(_, events) ← r; Ok events, s').
End client.
