(* ===== verification/Reader.v ===== *)
(** * Reader: what the log client answers

    The operations of the [LogReader] of log/c2sptlog/client.go over a
    verified history: key timestamps, the bilateral binding, operational
    continuity, governance, non-revocation and single events. *)

From Stdlib Require Import ZArith Lia Ascii String.
From S2P Require Import Prelude Codec Utf8 Numbers Jcs JcsSpec Keys Fqdn Lifecycle LogReader Merkle Evidence Reference Policy Checkpoint Scan Event EventSpec Replay ReplaySpec Client.

Open Scope Z_scope.

Section reader.
Context {key : Type} `{!KeyOps key} `{!JwkText key} {N : NoteLib} {U : NetURL} {T : TLog} {I : Idna} {C : ConsistencyLib}.
Abbreviation LogEvent := (LogEvent key).
Abbreviation verifiedEvent := (verifiedEvent (key:=key)).
Abbreviation MigrationVerificationResult := (MigrationVerificationResult (key:=key)).
Abbreviation Client := (Client (key:=key)).

Abbreviation BilateralBindingInput := (BilateralBindingInput (key:=key)).

Definition terminal_state_error : error :=
  VerificationError "TERMINAL_STATE" false "dnsid: c2sp-tlog identity has terminal logged state".

(** A result over the history of a domain; the trusted store moves on. *)
Definition over_history {A} (c : Client) (w : call) (s : option checkpoints) (domain : string)
    (f : list verifiedEvent -> list LogEvent -> res A) : res A * option checkpoints :=
  let '(r, s') := rebuildVerifiedHistory c w s domain in
  ('(verified, events) ← r; f verified events, s').

Definition activeHistoricalSnapshot (events : list LogEvent) (domain : string) (at_ : time) : res (DomainSnapshot key) :=
  snapshot ← SnapshotAt (Some (NewDomainLog domain events)) at_;
  fail_if negb (bool_decide (HistoricalState snapshot = Some AgentStateActive)) with terminal_state_error ;;
  Ok snapshot.

Definition KeyTimestamp (c : Client) (w : call) (s : option checkpoints) (domain keyThumbprint : string)
    : res time * option checkpoints :=
  let '(r, s') := over_history c w s domain (fun _ events =>
    snapshot ← SnapshotAt (Some (NewDomainLog domain events)) (now w);
    fail_if negb (bool_decide (HistoricalState snapshot = Some AgentStateActive)) with terminal_state_error ;;
    fail_if negb (str_eqb (ActiveKeyThumbprint snapshot) keyThumbprint) with PlainError "dnsid: no active c2sp-tlog key binding" ;;
    fail_if time_is_zero (KeyBoundAt snapshot) with PlainError "dnsid: no c2sp-tlog key binding" ;;
    Ok (KeyBoundAt snapshot)) in
  (log_error (unless_cancelled w r), s').

Definition issuanceEvent (events : list LogEvent) : res LogEvent :=
  match List.find (fun event => type_eqb (Type_ event) LogEventIssuance) events with
  | Some event => Ok event
  | None => Err (PlainError "dnsid: c2sp-tlog history has no ISSUANCE genesis")
  end.

Definition thumb_or (msg : string) (k : option key) : res string :=
  match keyThumbprint k with Ok t => Ok t | Err e => Err (WithCause (PlainError msg) e) end.

Definition verifyBilateralBinding (events : list LogEvent) (input : BilateralBindingInput) : res BilateralBinding :=
  genesis ← issuanceEvent events;
  fail_if negb (equal_fold (Lifecycle.Domain genesis) (in_Domain input))
    with PlainError "dnsid: c2sp-tlog ISSUANCE fqdn does not match" ;;
  entityThumb ← thumb_or "dnsid: c2sp-tlog ISSUANCE entity key thumbprint failed" (InitialEntityPublicKey genesis);
  recordEntityThumb ← thumb_or "dnsid: c2sp-tlog record entity key thumbprint failed" (in_EntityKey input);
  fail_if negb (str_eqb entityThumb recordEntityThumb)
    with PlainError "dnsid: c2sp-tlog ISSUANCE entity key does not match record ek" ;;
  fail_if negb (str_eqb (GovernanceID genesis) (in_GovernanceID input))
    with PlainError "dnsid: c2sp-tlog ISSUANCE gi does not match record gi" ;;
  operationalThumb ← thumb_or "dnsid: c2sp-tlog ISSUANCE operational key thumbprint failed" (InitialOperationalPublicKey genesis);
  Ok {| bb_InitialOperationalThumbprint := operationalThumb; bb_InitialEntityThumbprint := entityThumb;
        bb_Timestamp := Timestamp genesis |}.

Definition VerifyBilateralBinding (c : Client) (w : call) (s : option checkpoints) (input : BilateralBindingInput)
    : res BilateralBinding * option checkpoints :=
  let '(r, s') := over_history c w s (in_Domain input) (fun _ events =>
    log_error (activeHistoricalSnapshot events (in_Domain input) (now w)) ;;
    log_error (verifyBilateralBinding events input)) in
  (unless_cancelled w r, s').

Definition verifyOperationalContinuity (events : list LogEvent)
    (domain initialOperationalThumbprint currentOperationalThumbprint : string) (at_ : time) : res unit :=
  genesis ← issuanceEvent events;
  initialThumbprint ← thumb_or "dnsid: c2sp-tlog ISSUANCE operational key thumbprint failed" (InitialOperationalPublicKey genesis);
  fail_if negb (str_eqb initialThumbprint initialOperationalThumbprint)
    with PlainError "dnsid: c2sp-tlog ISSUANCE operational key does not match continuity anchor" ;;
  snapshot ← activeHistoricalSnapshot events domain at_;
  fail_if negb (str_eqb (ActiveKeyThumbprint snapshot) currentOperationalThumbprint)
    with PlainError "dnsid: no active c2sp-tlog key binding" ;;
  Ok tt.

Definition VerifyOperationalContinuity (c : Client) (w : call) (s : option checkpoints)
    (domain initialOperationalThumbprint currentOperationalThumbprint : string) : res unit * option checkpoints :=
  let '(r, s') := over_history c w s domain (fun _ events =>
    log_error (verifyOperationalContinuity events domain initialOperationalThumbprint currentOperationalThumbprint (now w))) in
  (unless_cancelled w r, s').

Definition VerifyLifecycleBinding (c : Client) (w : call) (s : option checkpoints) (input : BilateralBindingInput)
    (currentOperationalThumbprint : string) : res BilateralBinding * option checkpoints :=
  let '(r, s') := over_history c w s (in_Domain input) (fun _ events =>
    binding ← log_error (verifyBilateralBinding events input);
    log_error (verifyOperationalContinuity events (in_Domain input) (bb_InitialOperationalThumbprint binding)
      currentOperationalThumbprint (now w)) ;;
    Ok binding) in
  (unless_cancelled w r, s').

Definition VerifyGovernanceRelationship (c : Client) (w : call) (s : option checkpoints) (domain governanceID : string)
    : res unit * option checkpoints :=
  let '(r, s') := over_history c w s domain (fun _ events =>
    fail_if negb (existsb (fun event => type_eqb (Type_ event) LogEventIssuance && str_eqb (GovernanceID event) governanceID) events)
      with logVerificationError (PlainError "dnsid: no c2sp-tlog governance relationship") false ;;
    Ok tt) in
  (unless_cancelled w r, s').

(** ** Evidence imported by a migration *)
Definition missing_evidence (msg : string) : error := invalid_evidence msg.

Definition clear_prior (e : LoggedStateEvidence) : LoggedStateEvidence :=
  {| LogReference := LogReference e; LoggedState := LoggedState e; HistoryStart := HistoryStart e;
     HistoryEnd := HistoryEnd e; CompleteThrough := CompleteThrough e; CompletenessMode := CompletenessMode e;
     ev_Checkpoint := ev_Checkpoint e; FreshnessTime := FreshnessTime e; PriorEvidence := [] |}.

(** The loop over the stitched history: [prev] is the reference before. *)
Fixpoint stitched (all : list LoggedStateEvidence) (migrationIndex : nat) (prev : option string)
    (history : list LogEvent) (references : list string) : res unit :=
  match history, references with
  | [], _ => Ok tt
  | _ :: _, [] => Err (PlainError "panic: index out of range")
  | prior :: history, r :: references =>
      fail_if is_empty r with missing_evidence "dnsid: c2sp-tlog prior history contains an empty event reference" ;;
      if negb (type_eqb (Type_ prior) LogEventMigration) then stitched all migrationIndex (Some r) history references
      else
        match prev, all !! migrationIndex, all !! S migrationIndex with
        | Some p, Some a, Some b =>
            fail_if negb (str_eqb (LogReference a) (PreviousLog prior)) || negb (str_eqb (HistoryEnd a) p)
                 || negb (str_eqb p (FinalEntryRef prior)) || negb (str_eqb (LogReference b) (NewLog prior))
                 || negb (str_eqb (HistoryStart b) r)
              with missing_evidence "dnsid: c2sp-tlog prior evidence does not match stitched migration history" ;;
            stitched all (S migrationIndex) (Some r) history references
        | _, _, _ => Err (missing_evidence "dnsid: c2sp-tlog prior evidence does not match stitched migration history")
        end
  end.

(** The loop over the evidence of the earlier logs. *)
Fixpoint check_prior (seen : gset string) (all : list LoggedStateEvidence) : res (list LoggedStateEvidence) :=
  match all with
  | [] => Ok []
  | item :: all =>
      fail_if is_empty (LogReference item) || is_empty (HistoryStart item) || is_empty (HistoryEnd item)
           || is_empty (CompleteThrough item) || is_empty (CompletenessMode item) || is_empty (ev_Checkpoint item)
           || time_is_zero (FreshnessTime item) || negb (bool_decide (LoggedState item = Some AgentStateActive))
        with missing_evidence "dnsid: c2sp-tlog prior migration evidence is incomplete or terminal" ;;
      fail_if bool_decide (LogReference item ∈ seen)
        with invalidMigration "dnsid: c2sp-tlog prior evidence contains a migration cycle" None ;;
      rest ← check_prior ({[LogReference item]} ∪ seen) all;
      Ok (clear_prior item :: rest)
  end.

Definition validatedPriorEvidence (event : LogEvent) (migration : option MigrationVerificationResult)
    : res (list LoggedStateEvidence * list string) :=
  match migration with
  | None => Err (missing_evidence "dnsid: c2sp-tlog migrated history is missing prior complete evidence")
  | Some migration =>
      match mig_PriorEvidence migration with
      | None => Err (missing_evidence "dnsid: c2sp-tlog migrated history is missing prior complete evidence")
      | Some current =>
          let refs := PriorHistoryReferences migration in
          fail_if bool_decide (refs = []) || negb (Nat.eqb (List.length refs) (List.length (PriorHistory migration)))
               || negb (bool_decide (last refs = Some (FinalEntryRef event)))
            with missing_evidence "dnsid: c2sp-tlog prior history references do not end at the signed migration cutoff" ;;
          fail_if negb (str_eqb (LogReference current) (PreviousLog event)) || negb (str_eqb (HistoryEnd current) (FinalEntryRef event))
            with missing_evidence "dnsid: c2sp-tlog prior evidence does not match the signed migration cutoff" ;;
          let all := PriorEvidence current ++ [current] in
          fail_if negb (bool_decide (HistoryStart <$> head all = head refs))
            with missing_evidence "dnsid: c2sp-tlog prior evidence does not start at the verified history genesis" ;;
          let migrations := List.filter (fun prior => type_eqb (Type_ prior) LogEventMigration) (PriorHistory migration) in
          fail_if negb (Nat.eqb (List.length all) (S (List.length migrations)))
            with missing_evidence "dnsid: c2sp-tlog prior evidence does not cover every migrated proof boundary" ;;
          stitched all 0 None (PriorHistory migration) refs ;;
          all ← check_prior ∅ all;
          Ok (all, refs)
      end
  end.

(** ** Non-revocation *)
Definition verifyCompleteCheckpoint (c : Client) (w : call) (history : CompleteHistoryResult) : res VerifiedProof :=
  fail_if is_empty (ch_CompletenessMode history) with PlainError "dnsid: c2sp-tlog completeness mode is required" ;;
  if skipProofVerify (client_policy c) then
    fail_if time_is_zero (ch_FreshnessTime history) with PlainError "dnsid: c2sp-tlog checkpoint freshness time is required" ;;
    fail_if MaxCheckpointAge (client_policy c) <? time_sub (checkpoint_clock w 0) (ch_FreshnessTime history)
      with PlainError "dnsid: c2sp-tlog checkpoint is stale" ;;
    Ok {| Index := 0; VCheckpoint := Some {| CpOrigin := ""; CpSize := ch_CompleteThrough history; CpHash := "" |};
          CheckpointNote := []; CheckpointWitnessTime := 0; CheckpointIntegrationTime := 0;
          CheckpointFreshnessTime := ch_FreshnessTime history; LogTime := 0 |}
  else
    fail_if is_empty (ch_Checkpoint history) with PlainError "dnsid: c2sp-tlog complete checkpoint is required" ;;
    verified ← verifyCheckpoint (with_clock (client_policy c) (checkpoint_clock w)) (client_ref c) (ch_Checkpoint history);
    fail_if negb (checkpoint_size verified =? ch_CompleteThrough history)
      with PlainError "dnsid: c2sp-tlog completeness bound does not match checkpoint size" ;;
    fail_if time_is_zero (CheckpointFreshnessTime verified) with PlainError "dnsid: c2sp-tlog checkpoint freshness time is required" ;;
    Ok verified.

(** The last item before the first one after [at_]. *)
Fixpoint history_end (r : Reference) (at_ : time) (end_ : string) (verified : list verifiedEvent) : string :=
  match verified with
  | [] => end_
  | item :: verified =>
      if after (Timestamp (v_event item)) at_ then end_
      else history_end r at_ (FinalEventRef r (v_index item)) verified
  end.

Definition history_bounds (c : Client) (at_ : time) (first : verifiedEvent) (verified : list verifiedEvent) (snapshot : DomainSnapshot key)
    (priorReferences : list string) : string * string :=
  let ref := client_ref c in
  match priorReferences with
  | p :: _ =>
      let n := List.length (Events snapshot) in
      (p, if (n <=? List.length priorReferences)%nat then default EmptyString (priorReferences !! pred n)
          else match verified !! (n - List.length priorReferences - 1)%nat with
               | Some item => FinalEventRef ref (v_index item) | None => EmptyString end)
  | [] => (FinalEventRef ref (v_index first), history_end ref at_ EmptyString verified)
  end.

(** The decision over a verified complete history. *)
Definition non_revocation (c : Client) (domain : string) (at_ : time) (complete : CompleteHistoryResult)
    (checkpoint : VerifiedProof) (verified : list verifiedEvent) (events : list LogEvent) : res LoggedStateEvidence :=
  match verified with
  | [] => Err (VerificationError "INCOMPLETE_STREAM" false "dnsid: c2sp-tlog complete history contains no verified stream genesis")
  | first :: _ =>
      '(priorEvidence, priorReferences) ←
        (if type_eqb (Type_ (v_event first)) LogEventMigration
         then validatedPriorEvidence (v_event first) (v_migration first)
         else fail_if after (Timestamp (v_event first)) at_
                with invalid_evidence "dnsid: c2sp-tlog requested time predates the bound stream genesis" ;;
              Ok ([], []));
      snapshot ← SnapshotAt (Some (NewDomainLog domain events)) at_;
      fail_if bool_decide (HistoricalState snapshot = Some AgentStateRevoked)
           || bool_decide (HistoricalState snapshot = Some AgentStateRetired) with terminal_state_error ;;
      let '(start, end_) := history_bounds c at_ first verified snapshot priorReferences in
      Ok {| LogReference := ref_String (client_ref c); LoggedState := HistoricalState snapshot;
            HistoryStart := start; HistoryEnd := end_;
            CompleteThrough := format_uint (Z.to_N (ch_CompleteThrough complete));
            CompletenessMode := ch_CompletenessMode complete; ev_Checkpoint := ch_Checkpoint complete;
            FreshnessTime := CheckpointFreshnessTime checkpoint; PriorEvidence := priorEvidence |}
  end.

Definition VerifyNonRevocation (c : Client) (w : call) (s : option checkpoints) (domain : string) (at_ : time)
    : res LoggedStateEvidence * option checkpoints :=
  let '(r, s') :=
    match source_RebuildCompleteHistory c with
    | None => (Err (VerificationError "INCOMPLETE_STREAM" false "dnsid: c2sp-tlog complete history source is required for non-revocation"), s)
    | Some read =>
        if MaxCheckpointAge (client_policy c) <=? 0
        then (Err (invalid_evidence "dnsid: c2sp-tlog non-revocation requires a positive maximum checkpoint age"), s)
        else
          match read domain with
          | Err e =>
              (Err (match errors_as as_verification e with
                    | Some _ => e
                    | None => WithCause (VerificationError "INCOMPLETE_STREAM" (resourceFailureTransient e true)
                                "dnsid: c2sp-tlog history is incomplete") e
                    end), s)
          | Ok complete =>
              match verifyCompleteCheckpoint c w complete with
              | Err e => (Err (WithCause (invalid_evidence "dnsid: invalid complete c2sp-tlog checkpoint evidence") e), s)
              | Ok checkpoint =>
                  let '(r, s') := verifyHistoryEntries c w s domain (Entries complete) (Some checkpoint) in
                  ('(verified, events) ← r; non_revocation c domain at_ complete checkpoint verified events, s')
              end
          end
    end in
  (log_error (unless_cancelled w r), s').

(** ** One event *)
Definition verifyProvenEntry (c : Client) (w : call) (proven : ProvenEntry) : res (parsedEvent key * VerifiedProof) :=
  v ← VerifyProof (with_clock (client_policy c) (proof_clock w 0)) (client_ref c) (Entry proven) (Proof_ proven);
  let proof := proof_of_entry (client_policy c) None proven v in
  parsed ← parseCandidateEntry (key:=key) (client_ref c) (Entry proven);
  Ok (parsed, proof).

Definition ReadEvent (c : Client) (w : call) (s : option checkpoints) (ref : string)
    : res LogEvent * option checkpoints :=
  let '(r, s') :=
    if negb (source_configured c) then (Err argument_source, s)
    else
      match (
        '(wantRef, wantIndex) ← ParseFinalEventRef ref;
        fail_if negb (str_eqb (ref_String wantRef) (ref_String (client_ref c)))
          with ArgumentError "dnsid: c2sp-tlog final ref does not match client reference" ;;
        proven ← match source_ReadEvent c ref with Ok p => Ok p | Err e => Err (logVerificationError e true) end;
        fail_if negb (pe_Index proven =? wantIndex) with PlainError "dnsid: c2sp-tlog proof index does not match final ref index" ;;
        '(parsed, proof) ← verifyProvenEntry c w proven;
        fail_if negb (Index proof =? wantIndex) with PlainError "dnsid: c2sp-tlog proof index does not match final ref index" ;;
        fail_if time_is_zero (LogTime proof) && negb (skipProofVerify (client_policy c))
          with PlainError "dnsid: lifecycle verification requires an accepted checkpoint timestamp" ;;
        fail_if negb (time_is_zero (LogTime proof)) && after (Timestamp (p_event parsed)) (LogTime proof)
          with PlainError "dnsid: c2sp-tlog event timestamp is after accepted log timestamp" ;;
        signed ← CanonicalFromEntry (Entry proven);
        Ok (wantIndex, proof, parsed, signed)) with
      | Err e => (Err e, s)
      | Ok (wantIndex, proof, parsed, signed) =>
          match advanceTrustedCheckpoints (store_configured c) (adv w) s [proof] with
          | (Err e, s1) => (Err e, s1)
          | (Ok _, s1) =>
              over_history c w s1 (Lifecycle.Domain (p_event parsed)) (fun verified _ =>
                if existsb (fun item => (v_index item <=? wantIndex) && str_eqb (v_signed item) signed
                     && candidateAuthorizedByCurrentHistory (p_event parsed) signed (v_authorityEntity item) (v_authorityOperational item)) verified
                then Ok (p_event parsed)
                else Err (PlainError "dnsid: c2sp-tlog final event is not in verified lifecycle"))
          end
      end in
  (log_error (unless_cancelled w r), s').
End reader.
