(* ===== verification/ReaderSpec.v ===== *)
(** * ReaderSpec: what the log client's answers mean

    A verified history is an authentic one: a verified stream of entries whose
    inclusion proofs verified, in index order. A non-revocation answer speaks
    about all entries the source supplied: no event of the identity's own that
    ends it before the time asked for is among them. Migrations are followed
    to a bounded depth and never in a circle. *)

From Stdlib Require Import ZArith Lia Ascii String.
From S2P Require Import Prelude Codec Utf8 Numbers Jcs JcsSpec Keys Fqdn Lifecycle LogReader Merkle Evidence Reference Policy Checkpoint Scan Event EventSpec Replay ReplaySpec AppendSpec Client Reader.

Open Scope Z_scope.

(** ** Stable sorting *)
Lemma insert_by_perm {A} (k : A -> Z) x l : insert_by k x l ≡ₚ x :: l.
Proof. induction l as [|y l IH]; cbn; [done|]. destruct (k x <=? k y); [done|]. by rewrite IH, Permutation_swap. Qed.
Lemma sort_by_perm {A} (k : A -> Z) l : sort_by k l ≡ₚ l.
Proof. induction l as [|x l IH]; cbn; [done|]. by rewrite insert_by_perm, IH. Qed.

Definition ascending {A} (k : A -> Z) : list A -> Prop := StronglySorted (fun x y => k x <= k y).

Lemma insert_by_ascending {A} (k : A -> Z) x l : ascending k l -> ascending k (insert_by k x l).
Proof.
  induction 1 as [|y l Hs IH Hy]; cbn; [repeat constructor|]. destruct (Z.leb_spec (k x) (k y)) as [Hle|Hgt].
  - constructor; [by constructor|]. constructor; [done|]. eapply Forall_impl; [exact Hy|]. cbn. lia.
  - constructor; [done|]. rewrite insert_by_perm. constructor; [lia|done].
Qed.
Lemma sort_by_ascending {A} (k : A -> Z) l : ascending k (sort_by k l).
Proof. induction l; cbn; [constructor|by apply insert_by_ascending]. Qed.

(** What comes after an element of smaller key. *)
Lemma ascending_split {A} (k : A -> Z) pre (g : A) post x :
  ascending k (pre ++ g :: post) -> x ∈ pre ++ g :: post -> k g < k x -> x ∈ post.
Proof.
  intros Hs [Hx|[->|Hx]%elem_of_cons]%elem_of_app Hlt; [|lia|done].
  exfalso. induction pre as [|y pre IH]; [by apply elem_of_nil in Hx|].
  apply StronglySorted_inv in Hs as [Hs Hy]. apply elem_of_cons in Hx as [->|Hx]; [|by apply IH].
  rewrite Forall_forall in Hy. specialize (Hy g). cbn in Hy. specialize (Hy ltac:(set_solver)). lia.
Qed.

Section settled.
Context {key : Type} `{!KeyOps key} `{!JwkText key} {U : NetURL} {I : Idna}.
Abbreviation LogEvent := (LogEvent key).
Abbreviation verifiedEvent := (verifiedEvent (key:=key)).
Abbreviation MigrationVerificationResult := (MigrationVerificationResult (key:=key)).

(** ** Nothing the entity signed is dropped *)
(** The entity key never changes, and what is remembered was returned. *)
Definition settled (s : replay (key:=key)) : Prop :=
  (forall id a, postStates s !! id = Some a -> started s = true /\ a.1 = entityKey s) /\
  (forall id b, seen s !! id = Some b -> b ∈ v_signed <$> out s) /\
  (started s = false -> lastEventID s = EmptyString).

Definition ends_or_delegates (t : LogEventType) : Prop :=
  t = LogEventRevocation \/ t = LogEventRetirement \/ t = LogEventDelegation.

Definition entity_signed (k : option key) (x : verifiedEvent) : Prop :=
  v_signed x <> EmptyString /\
  signed_by k (InitialEntityKid (v_event x)) (InitialEntitySignature (v_event x)) (v_signed x) = true.

Lemma settled_start : settled replay_start.
Proof. split; [intros id a Ha; cbn in Ha; by rewrite lookup_empty in Ha|];
  split; [intros id b Hb; cbn in Hb; by rewrite lookup_empty in Hb|done]. Qed.

Lemma settled_note (s : replay) : settled s -> settled (note_authority s).
Proof.
  intros (Hp & Hs & Hl). split_and!; [|exact Hs|exact Hl]. intros id a. cbn.
  destruct (is_empty (lastEventID s)) eqn:E; [apply Hp|]. apply is_empty_false in E.
  assert (started s = true) by (destruct (started s); [done|by rewrite Hl in E]).
  intros [[<- <-]|[_ Ha]]%lookup_insert_Some; [done|by apply Hp in Ha].
Qed.

Lemma transition_fields (s : replay) item id canonical s' :
  transition s item id canonical = Ok s' ->
  entityKey s' = entityKey s /\ started s' = started s /\ postStates s' = postStates s /\
  ((seen s' = seen s /\ out s' = out s /\ lastEventID s' = lastEventID s) \/
   (seen s' = <[id := canonical]> (seen s) /\ out s' = out s ++ [item] /\ lastEventID s' = id)).
Proof.
  unfold transition. destruct (Type_ (v_event item)); intros H; go_inv; cbn; split_and!; try done; auto.
Qed.

Lemma begin_stream_settled (s : replay) item ek ok okt state prior :
  settled s -> started s = false ->
  settled (begin_stream s (EventID (v_signed item)) (v_signed item) item ek ok okt state prior).
Proof.
  intros (Hp & Hs & Hl) Hst. split_and!; cbn -[EventID]; [| |done].
  - intros id a H. apply Hp in H as [H _]. congruence.
  - intros id b. rewrite fmap_app. intros [[<- <-]|[_ H]]%lookup_insert_Some; [set_solver|].
    apply Hs in H. set_solver.
Qed.

Lemma note_genesis_settled (s : replay (key:=key)) ek ok okt :
  settled s -> started s = false -> settled (note_genesis_keys s ek ok okt).
Proof.
  intros (Hp & Hse & Hl) Hst. split; [|split; [exact Hse|exact Hl]].
  intros id a Ha. cbn in Ha. apply Hp in Ha as [Ha _]. congruence.
Qed.

Lemma issuance_settled (s : replay) item s' :
  settled s -> started s = false ->
  issuance_genesis s item (EventID (v_signed item)) (v_signed item) = Ok s' -> settled s'.
Proof.
  intros Hs Hst H. unfold issuance_genesis in H.
  destruct (negb _); [by injection H as <-|]. destruct (if is_empty _ then _ else _) as [okt|]; [|by injection H as <-].
  destruct (v_parseError item); [done|]. destruct (negb _); [done|].
  destruct (keyThumbprint _) as [et|]; [|injection H as <-; by apply note_genesis_settled].
  match type of H with (if ?b then _ else _) = _ => destruct b end; injection H as <-; [by apply note_genesis_settled|].
  apply (begin_stream_settled (note_genesis_keys s _ _ _) (with_event item _)); [by apply note_genesis_settled|done].
Qed.

Lemma migration_settled cur verify (s : replay) item s' :
  settled s -> started s = false ->
  migration_genesis cur verify s item (EventID (v_signed item)) (v_signed item) = Ok (Some s') -> settled s'.
Proof.
  intros Hs Hst H. unfold migration_genesis in H. destruct verify as [f|]; [|done].
  destruct (_ || _); [done|]. destruct (negb (migration_reference_ok _)); [done|].
  destruct (f (v_event item)) as [m|]; [|done]. destruct (EntityKey m) as [ek|]; [|done].
  destruct (is_empty _ || _ || _); [done|]. destruct (validateMigrationResult _ m) as [[]|]; [|done].
  cbn [mbind res_bind] in H. destruct (v_parseError item); [done|]. destruct (negb _); [done|]. injection H as <-.
  by apply (begin_stream_settled s (with_migration (with_event item _) m)).
Qed.

Lemma authority_entity (s : replay) (x : verifiedEvent) ek ok :
  settled s -> authority_for (note_authority s) x = (ek, ok) -> ek = entityKey s.
Proof.
  intros Hs%settled_note E. destruct Hs as (Hp & _). unfold authority_for in E.
  destruct (postStates (note_authority s) !! _) as [a|] eqn:Ea; cbn in E; [|by injection E as <- _].
  apply Hp in Ea as [_ Ea]. by rewrite E in Ea.
Qed.

Lemma replay_item_settled cur verify (s : replay) x s' :
  settled s -> replay_item cur verify s x = Ok s' ->
  settled s' /\ (started s = true -> started s' = true /\ entityKey s' = entityKey s) /\ exists l, out s' = out s ++ l.
Proof.
  intros Hs H. pose proof (settled_note _ Hs) as Hn.
  assert (exists l, out s = out s ++ l) as Hrefl by (exists []; by rewrite app_nil_r).
  assert (settled (note_migration (note_authority s))) as Hm by exact Hn.
  assert (exists l, out s' = out s ++ l) as Hout.
  { destruct (replay_item_out _ _ _ _ _ H) as [->|(y & -> & _)]; [done|by eexists]. }
  unfold replay_item in H. destruct (is_empty (v_signed x)); [by injection H as <-|].
  destruct (seen _ !! _); [destruct (negb _); [done|by injection H as <-]|].
  rewrite started_note in H. destruct (started s) eqn:Est.
  - destruct (authority_for (note_authority s) x) as [ek ok] eqn:Ea. destruct (negb _); [by injection H as <-|].
    destruct (check_candidate _ _) as [[]|]; [|done]. cbn [mbind res_bind] in H.
    apply transition_fields in H as (He & Hst & Hp & Hso). split; [|split; [|done]].
    + destruct Hn as (Hnp & Hns & Hnl). split; [|split].
      * intros id a Ha. rewrite Hp in Ha. apply Hnp in Ha. by rewrite Hst, He.
      * intros id b Hb. destruct Hso as [(E & Eo & _)|(E & Eo & _)]; rewrite E in Hb; rewrite Eo; [by apply Hns in Hb|].
        rewrite fmap_app. apply lookup_insert_Some in Hb as [[<- <-]|[_ Hb]]; [set_solver|].
        apply Hns in Hb. set_solver.
      * intros Hf. rewrite Hst, started_note in Hf. congruence.
    + intros _. by rewrite Hst, He.
  - split; [|done]. destruct (Type_ (v_event x)); try (by injection H as <-).
    + by apply (issuance_settled (note_authority s) x).
    + destruct (migration_genesis _ _ _ _ _ _) as [[s1|]|] eqn:Em; [| |done]; cbn [mbind res_bind default] in H; injection H as <-; [|done].
      by apply (migration_settled cur verify (note_migration (note_authority s)) x).
Qed.

Lemma entity_event_applied cur verify (s : replay) x s' :
  replaying verify s -> settled s -> started s = true -> replay_item cur verify s x = Ok s' ->
  ends_or_delegates (Type_ (v_event x)) -> entity_signed (entityKey s) x -> v_signed x ∈ v_signed <$> out s'.
Proof.
  intros Hr Hs Hst H Hty [Hsig Hsb]. unfold replaying in Hr. rewrite Hst in Hr. destruct Hr as (e & et & _ & _ & Het & _).
  unfold replay_item in H. rewrite (proj2 (is_empty_false _) Hsig) in H. cbn [seen note_authority] in H.
  destruct (seen s !! _) as [b|] eqn:Eb.
  - destruct (str_eqb b (v_signed x)) eqn:E; cbn [negb] in H; [|done]. injection H as <-. cbn.
    apply str_eqb_eq in E as <-. destruct Hs as (_ & Hse & _). by apply Hse in Eb.
  - rewrite started_note, Hst in H. destruct (authority_for (note_authority s) x) as [ek ok] eqn:Ea.
    apply (authority_entity s x ek ok Hs) in Ea as ->.
    assert (candidateAuthorizedByCurrentHistory (v_event x) (v_signed x) (entityKey s) ok = true) as Hauth.
    { unfold candidateAuthorizedByCurrentHistory. by destruct Hty as [-> | [-> | ->]]. }
    rewrite Hauth in H. cbn [negb] in H. destruct (check_candidate _ _) as [[]|]; [|done]. cbn [mbind res_bind] in H.
    unfold transition in H. cbn [v_event with_authority entityKey note_authority] in H. rewrite Het in H.
    destruct Hty as [Ety|[Ety|Ety]]; rewrite Ety in H; go_inv; cbn; rewrite fmap_app; set_solver.
Qed.

(** What follows the genesis: every event the entity key signed to end the
    identity or to delegate is in the result. *)
Lemma replay_keeps_entity_events ctx n cur verify items (s s' : replay) :
  replaying verify s -> settled s -> started s = true -> replay_loop ctx n cur verify s items = Ok s' ->
  entityKey s' = entityKey s /\ (exists l, out s' = out s ++ l) /\
  Forall (fun x => ends_or_delegates (Type_ (v_event x)) -> entity_signed (entityKey s) x -> v_signed x ∈ v_signed <$> out s') items.
Proof.
  revert n s. induction items as [|x items IH]; intros n s Hr Hs Hst; cbn [replay_loop].
  - destruct (_ && _); [done|]. intros [= <-]. split; [done|]. split; [exists []; by rewrite app_nil_r|constructor].
  - destruct (ctx n); [done|]. destruct (replay_item cur verify s x) as [s1|] eqn:E; [|done]. cbn [mbind res_bind]. intros H.
    destruct (replay_item_settled _ _ _ _ _ Hs E) as (Hs1 & Hk & (l1 & Hl1)). destruct (Hk Hst) as [Hst1 Hek].
    pose proof (replay_item_replaying _ _ _ _ _ Hr E) as Hr1.
    destruct (IH (S n) s1 Hr1 Hs1 Hst1 H) as (He & (l & Hl) & Hf). split; [congruence|].
    split; [exists (l1 ++ l); by rewrite Hl, Hl1, <- (assoc app)|]. rewrite Hek in Hf. constructor; [|done].
    intros Hty Hsb. pose proof (entity_event_applied _ _ _ _ _ Hr Hs Hst E Hty Hsb) as Hin.
    rewrite Hl, fmap_app. set_solver.
Qed.

(** ** Where the stream begins *)
Lemma stream_one verify x h :
  verified_stream verify [x] h -> authority x = (st_entity h, st_operational h).
Proof.
  intros H. inversion H as [| |l h' y h'' Hl _ _ _ _ _ _ _ _ E]; subst; try done.
  destruct l as [|z [|]]; cbn in E; [|done..]. by inversion Hl; destruct l.
Qed.

(** The entity key of a stream is that of its genesis. *)
Lemma stream_entity verify l h g rest : verified_stream verify l h -> l = g :: rest -> v_authorityEntity g = st_entity h.
Proof.
  intros Hs. revert rest. induction Hs as [x et _ _ _ _ _ _ _ _ _ Ha|x e f m et ot _ _ _ _ _ _ _ _ _ _ _ _ Ha|l h x h' Hs IH _ _ _ _ _ _ _ Heff]; intros rest E.
  - injection E as <- <-. cbn. by injection Ha.
  - injection E as <- <-. cbn. by injection Ha.
  - assert (st_entity h' = st_entity h) as -> by (by destruct Heff). destruct l as [|y l]; [by inversion Hs as [| |[|]]|].
    injection E as -> _. by apply (IH l).
Qed.

(** What a history imports: the history that the verifier of migrations
    answered for its genesis. *)
Definition imports_of (l : list verifiedEvent) : list LogEvent :=
  match l with
  | g :: _ =>
      if type_eqb (Type_ (v_event g)) LogEventMigration
      then match v_migration g with Some m => PriorHistory m | None => [] end else []
  | [] => []
  end.
Lemma imports_of_app l l' : l <> [] -> imports_of (l ++ l') = imports_of l.
Proof. by destruct l. Qed.
Definition importing (s : replay (key:=key)) : Prop :=
  priorHistory s = imports_of (out s) /\ (started s = true -> out s <> []) /\ (started s = false -> out s = []).

Lemma transition_prior_out (s : replay) item id canonical s' :
  transition s item id canonical = Ok s' -> priorHistory s' = priorHistory s /\ started s' = started s /\ (out s' = out s \/ out s' = out s ++ [item]).
Proof. unfold transition. destruct (Type_ (v_event item)); intros H; go_inv; cbn; auto. Qed.

Lemma replay_item_importing cur verify (s : replay) x s' : importing s -> replay_item cur verify s x = Ok s' -> importing s'.
Proof.
  intros (Hp & Hs & Hn) H. unfold replay_item in H. destruct (is_empty (v_signed x)); [by injection H as <-|].
  destruct (seen _ !! _); [destruct (negb _); [done|by injection H as <-]|]. rewrite started_note in H.
  destruct (started s) eqn:Est.
  - destruct (authority_for (note_authority s) x) as [ek ok]. destruct (negb _); [injection H as <-; unfold importing; cbn; rewrite Est; auto|].
    destruct (check_candidate _ _) as [[]|]; [|done]. cbn [mbind res_bind] in H.
    apply transition_prior_out in H as (E1 & E2 & E3). cbn in E1, E2, E3. unfold importing. rewrite E1, E2, Est, Hp.
    specialize (Hs eq_refl). destruct E3 as [-> | ->]; [by split_and!|]. rewrite imports_of_app by done.
    split_and!; [done| |done]. intros _ ?%app_nil. tauto.
  - specialize (Hn eq_refl).
    assert (importing (note_authority s) /\ importing (note_migration (note_authority s))) as [Hi Him].
    { unfold importing. cbn. rewrite Est. auto. }
    destruct (Type_ (v_event x)) eqn:Ety; try (by injection H as <-).
    + unfold issuance_genesis in H. destruct (negb _); [by injection H as <-|].
      destruct (if is_empty _ then _ else _) as [okt|]; [|by injection H as <-]. destruct (v_parseError x); [done|].
      destruct (negb _); [done|]. destruct (keyThumbprint _) as [et|]; [|injection H as <-; exact Hi].
      match type of H with (if ?b then _ else _) = _ => destruct b end; injection H as <-; [exact Hi|].
      unfold importing. cbn. rewrite Hn. cbn. unfold type_eqb. cbn. rewrite Ety, bool_decide_false by done. cbn. by rewrite Hp, Hn.
    + destruct (migration_genesis _ _ _ _ _ _) as [[s1|]|] eqn:Em; [| |done]; cbn [mbind res_bind default] in H; injection H as <-; [|exact Him].
      unfold migration_genesis in Em. destruct verify as [f|]; [|done]. destruct (_ || _); [done|]. destruct (negb (migration_reference_ok _)); [done|].
      destruct (f (v_event x)) as [m|]; [|done]. destruct (EntityKey m) as [ek|]; [|done].
      destruct (is_empty _ || _ || _); [done|]. destruct (validateMigrationResult _ m) as [[]|]; [|done].
      cbn [mbind res_bind] in Em. destruct (v_parseError x); [done|]. destruct (negb _); [done|]. injection Em as <-.
      unfold importing. cbn. rewrite Hn. cbn. unfold type_eqb. cbn. by rewrite Ety, bool_decide_true by done.
Qed.

Lemma replay_loop_importing ctx n cur verify items (s s' : replay) : importing s -> replay_loop ctx n cur verify s items = Ok s' -> importing s'.
Proof.
  revert n s. induction items as [|x items IH]; intros n s Hs; cbn [replay_loop]; [destruct (_ && _); [done|]; by intros [= <-]|].
  destruct (ctx n); [done|]. destruct (replay_item cur verify s x) as [s1|] eqn:E; [|done]. cbn [mbind res_bind].
  apply IH. by eapply replay_item_importing.
Qed.

Lemma replay_prior ctx items verify cur (l : list verifiedEvent) prior :
  verifyLifecycleVerifiedWithMigration ctx items verify cur = Ok (l, prior) -> prior = imports_of l.
Proof.
  unfold verifyLifecycleVerifiedWithMigration. destruct (replay_loop _ _ _ _ _ _) as [s|] eqn:E; [|done]. cbn [mbind res_bind].
  destruct (bool_decide _); [by destruct (sawMigration s)|]. intros [= <- <-].
  by eapply (replay_loop_importing _ _ _ _ _ replay_start) in E as [? _].
Qed.

(** The replay starts at one entry; what came before it left nothing. *)
Lemma replay_genesis ctx n cur verify items (s s' : replay) :
  replaying verify s -> settled s -> started s = false -> replay_loop ctx n cur verify s items = Ok s' -> out s' <> [] ->
  exists pre g post s1 m y, items = pre ++ g :: post /\ replay_loop ctx m cur verify s1 post = Ok s' /\
    replaying verify s1 /\ settled s1 /\ started s1 = true /\ out s1 = [y] /\ comes_from verify g y /\ v_authorityEntity y = entityKey s1.
Proof.
  revert n s. induction items as [|x items IH]; intros n s Hr Hs Hst; cbn [replay_loop].
  - destruct (_ && _); [done|]. intros [= <-] Ho. unfold replaying in Hr. rewrite Hst in Hr. by destruct Hr as [? _].
  - destruct (ctx n); [done|]. destruct (replay_item cur verify s x) as [s1|] eqn:E; [|done]. cbn [mbind res_bind]. intros H Ho.
    destruct (replay_item_settled _ _ _ _ _ Hs E) as (Hs1 & _ & _). pose proof (replay_item_replaying _ _ _ _ _ Hr E) as Hr1.
    destruct (started s1) eqn:Est1.
    + pose proof (replay_item_out _ _ _ _ _ E) as Hstep. pose proof Hr1 as Hr1'. unfold replaying in Hr, Hr1'.
      rewrite Hst in Hr. rewrite Est1 in Hr1'. destruct Hr as (Ho0 & _), Hr1' as (e & et & He & Hv & _).
      unfold out_step in Hstep. rewrite Ho0 in Hstep.
      destruct Hstep as [E1|(y & E1 & Hy)]; cbn in E1; [by rewrite E1 in He|]. rewrite E1 in Hv. apply stream_one in Hv.
      exists [], x, items, s1, (S n), y. split_and!; try done. by injection Hv.
    + destruct (IH (S n) s1 Hr1 Hs1 Est1 H Ho) as (pre & g & post & s2 & m & y & -> & Hrest). exists (x :: pre), g, post, s2, m, y. done.
Qed.
End settled.

(** ** Timelines *)
Section timelines.
Context {key : Type} `{!KeyOps key}.
Implicit Types (s : DomainSnapshot key).

(** An active snapshot has no ending event at or before its time. *)
Lemma active_snapshot_no_end d es at_ s e :
  SnapshotAt (Some (NewDomainLog d es)) at_ = Ok s -> HistoricalState s = Some AgentStateActive ->
  e ∈ es -> terminal_type (Type_ e) = true -> at_ < Timestamp e.
Proof.
  intros H Hact Hin Hty. apply snapshot_at_run in H as (pre & post & st & (-> & _ & Hpost) & Hne & Hr & ->).
  apply elem_of_app in Hin as [Hin|Hin]; [|rewrite Forall_forall in Hpost; by apply Hpost].
  exfalso. inversion Hr as [|? g st1 rest ? Hs Hr']; subst; [done|]. inversion Hs; subst.
  apply lc_run_from_live in Hr' as (_ & _ & _ & Hst).
  destruct st as [|k t since gi|how k t since gi]; [done| |].
  - apply elem_of_cons in Hin as [->|Hin].
    + unfold terminal_type, type_eqb in Hty. by rewrite !bool_decide_false in Hty by congruence.
    + rewrite Forall_forall in Hst. apply Hst in Hin. congruence.
  - cbn in Hact. injection Hact as ->. destruct Hst as (? & _ & _ & [|]); done.
Qed.

(** The rotations that led to the active key. *)
Lemma snapshot_rotations d es at_ s :
  SnapshotAt (Some (NewDomainLog d es)) at_ = Ok s ->
  exists g rest post, es = g :: rest ++ post /\ Type_ g = LogEventIssuance /\ Events s = g :: rest /\
    rotation_path (InitialOperationalThumbprint g) (rotations rest) (ActiveKeyThumbprint s) /\
    keyThumbprint (InitialOperationalPublicKey g) = Ok (InitialOperationalThumbprint g) /\
    Forall (fun e => Timestamp e <= at_) rest /\ Forall (fun e => at_ < Timestamp e) post.
Proof.
  intros H. apply snapshot_at_run in H as (pre & post & st & (-> & Hpre & Hpost) & Hne & Hr & ->).
  inversion Hr as [|? g st1 rest ? Hs Hr']; subst; [done|]. inversion Hs; subst.
  apply lc_run_from_live in Hr' as (_ & _ & Hp & Hst). exists g, rest, post.
  assert (Hk : keyThumbprint (InitialOperationalPublicKey g) = Ok (InitialOperationalThumbprint g))
    by (eapply proj1, keyThumbprint_has_thumb; eauto).
  apply Forall_cons in Hpre as [_ Hpre].
  assert (Forall (fun e : LogEvent key => Timestamp e <= at_) rest) by (eapply Forall_impl; [exact Hpre|]; by intros e []).
  assert (Forall (fun e : LogEvent key => at_ < Timestamp e) post) by (eapply Forall_impl; [exact Hpost|]; by intros e []).
  by destruct st.
Qed.
End timelines.

Section client.
Context {key : Type} `{!KeyOps key} `{!JwkText key} {N : NoteLib} {U : NetURL} {T : TLog} {I : Idna} {C : ConsistencyLib}.
Abbreviation LogEvent := (LogEvent key).
Abbreviation verifiedEvent := (verifiedEvent (key:=key)).
Abbreviation MigrationVerificationResult := (MigrationVerificationResult (key:=key)).
Abbreviation Client := (Client (key:=key)).

(** ** Entries *)
(** What is known of the event an entry contributes. *)
Definition authentic (c : Client) (w : call) (domain : string) (required : option VerifiedProof)
    (i : nat) (entry : ProvenEntry) (x : verifiedEvent) : Prop :=
  exists v q, VerifyProof (with_clock (client_policy c) (proof_clock w i)) (client_ref c) (Entry entry) (Proof_ entry) = Ok v /\
    validateEntryMetadata (client_ref c) (Entry entry) = Ok tt /\
    parseEventFromEntry (key:=key) (Entry entry) = Ok q /\ CanonicalFromEntry (Entry entry) = Ok (v_signed x) /\
    v_event x = p_event q /\ v_chain x = p_chain q /\ Lifecycle.Domain (v_event x) = domain /\
    Index v = pe_Index entry /\ v_index x = pe_Index entry /\
    (forall r, required = Some r -> sameCheckpoint (VCheckpoint v) (VCheckpoint r) = true) /\
    (v_parseError x = None -> Timestamp (v_event x) <= LogTime v /\ p_validationError q = None).

Lemma verify_payload_authentic c domain entry proof x :
  skipProofVerify (client_policy c) = false -> verify_payload c domain entry proof = Ok (Some x) ->
  exists q, validateEntryMetadata (client_ref c) (Entry entry) = Ok tt /\
    parseEventFromEntry (key:=key) (Entry entry) = Ok q /\ CanonicalFromEntry (Entry entry) = Ok (v_signed x) /\
    v_event x = p_event q /\ v_chain x = p_chain q /\ Lifecycle.Domain (v_event x) = domain /\ v_index x = Index proof /\
    (v_parseError x = None -> Timestamp (v_event x) <= LogTime proof /\ p_validationError q = None).
Proof.
  intros Hskip. unfold verify_payload. rewrite Hskip. cbn [negb]. rewrite andb_true_r.
  destruct (validateEntryMetadata _ _) as [[]|e]; [|destruct (bool_decide _); [done|destruct (negb _); done]].
  destruct (parseEventFromEntry (Entry entry)) as [q|] eqn:Eq; [|done].
  destruct (str_eqb _ domain) eqn:Ed; cbn [negb]; [|destruct (negb _); done]. apply str_eqb_eq in Ed.
  destruct (time_is_zero (LogTime proof)) eqn:Ez; [done|]. cbn [negb andb].
  destruct (CanonicalFromEntry (Entry entry)) as [b|] eqn:Eb; [|destruct (negb _); done].
  intros [= <-]. exists q. cbn. split_and!; try done.
  destruct (after _ _) eqn:Ea; [done|]. intros ->. unfold after in Ea. apply Z.ltb_ge in Ea. done.
Qed.

Lemma proof_of_entry_real p required entry v : skipProofVerify p = false -> proof_of_entry p required entry v = v.
Proof. unfold proof_of_entry. by intros ->. Qed.

Lemma verify_entry_authentic c w domain required i entry p x :
  skipProofVerify (client_policy c) = false -> verify_entry c w domain required i entry = Ok (p, Some x) ->
  authentic c w domain required i entry x.
Proof.
  intros Hskip. unfold verify_entry. destruct (VerifyProof _ _ _ _) as [v|] eqn:Ev; [|destruct (_ || _); done].
  rewrite proof_of_entry_real by done. destruct (match required with Some _ => _ | None => _ end) eqn:Er; [done|].
  destruct (Index v =? pe_Index entry) eqn:Ei; cbn [negb]; [|done]. apply Z.eqb_eq in Ei.
  destruct (verify_payload c domain entry v) as [o|] eqn:Ep; [|done]. cbn [mbind res_bind]. intros [= _ ->].
  destruct (verify_payload_authentic c domain entry v x Hskip Ep) as (q & Hm & Hq & Hb & He & Hc & Hd & Hi & Ht).
  exists v, q. split_and!; try done; [congruence|]. intros r ->. by apply negb_false_iff in Er.
Qed.

(** A readable entry of the domain contributes its event. *)
Lemma verify_entry_readable c w domain required i entry o v q b :
  skipProofVerify (client_policy c) = false -> verify_entry c w domain required i entry = Ok o ->
  VerifyProof (with_clock (client_policy c) (proof_clock w i)) (client_ref c) (Entry entry) (Proof_ entry) = Ok v ->
  validateEntryMetadata (client_ref c) (Entry entry) = Ok tt -> parseEventFromEntry (Entry entry) = Ok q ->
  Lifecycle.Domain (p_event q) = domain -> CanonicalFromEntry (Entry entry) = Ok b ->
  exists x, o.2 = Some x /\ v_event x = p_event q /\ v_signed x = b /\ v_index x = Index v.
Proof.
  intros Hskip H Hv Hm Hq Hd Hb. unfold verify_entry in H. rewrite Hv, proof_of_entry_real in H by done.
  destruct (match required with Some _ => _ | None => _ end); [done|]. destruct (negb _); [done|].
  unfold verify_payload in H. rewrite Hm, Hq, Hb, Hskip in H. rewrite (proj2 (str_eqb_eq _ _) Hd) in H. cbn [negb] in H.
  destruct (_ && true); [done|]. cbn [mbind res_bind] in H. injection H as <-. cbn. by eexists.
Qed.

Lemma verify_entries_items c w domain required i entries proofs events :
  verify_entries c w domain required i entries = Ok (proofs, events) ->
  (forall x, x ∈ events -> exists j entry p, entries !! j = Some entry /\ verify_entry c w domain required (i + j) entry = Ok (p, Some x)) /\
  (forall j entry, entries !! j = Some entry -> exists o, verify_entry c w domain required (i + j) entry = Ok o /\
     forall x, o.2 = Some x -> x ∈ events).
Proof.
  revert i proofs events. induction entries as [|entry entries IH]; intros i proofs events; cbn [verify_entries].
  { intros [= <- <-]. split; [by intros x ?%elem_of_nil|done]. }
  destruct (done_entry w i); [done|]. destruct (verify_entry c w domain required i entry) as [[p e]|] eqn:Ee; [|done].
  cbn [mbind res_bind]. destruct (verify_entries c w domain required (S i) entries) as [[ps es]|] eqn:Es; [|done].
  cbn [mbind res_bind]. intros [= <- <-]. destruct (IH _ _ _ Es) as [IH1 IH2]. split.
  - intros x [Hx|Hx]%elem_of_app.
    + exists 0%nat, entry, p. rewrite Nat.add_0_r. split; [done|]. destruct e as [y|]; [|by apply elem_of_nil in Hx].
      cbn in Hx. apply list_elem_of_singleton in Hx as ->. done.
    + destruct (IH1 x Hx) as (j & y & p' & Hj & Hy). exists (S j), y, p'. by rewrite Nat.add_succ_r.
  - intros [|j] y Hj; cbn in Hj.
    + injection Hj as <-. rewrite Nat.add_0_r. exists (p, e). split; [done|]. cbn. intros x ->. cbn. left.
    + destruct (IH2 j y Hj) as (o & Ho & Hin). exists o. rewrite Nat.add_succ_r. split; [done|]. set_solver.
Qed.

(** ** The verified history *)
Lemma StronglySorted_of_sublist {A} (R : A -> A -> Prop) l1 l2 : sublist l1 l2 -> StronglySorted R l2 -> StronglySorted R l1.
Proof.
  induction 1 as [|x l1 l2 Hs IH|x l1 l2 Hs IH]; intros H; [done| |].
  - apply StronglySorted_inv in H as [H Hf]. constructor; [by apply IH|].
    rewrite Forall_forall in Hf |- *. intros y Hy. apply Hf. by eapply elem_of_sublist.
  - apply StronglySorted_inv in H as [H _]. by apply IH.
Qed.

Lemma comes_from_ascending (verify : option (LogEvent -> res MigrationVerificationResult)) (kept l : list verifiedEvent) :
  Forall2 (comes_from verify) kept l -> ascending v_index kept -> ascending v_index l.
Proof.
  induction 1 as [|x y kept l Hxy Hl IH]; intros H; [constructor|]. apply StronglySorted_inv in H as [H Hf].
  constructor; [by apply IH|]. destruct Hxy as (_ & _ & _ & _ & ->). clear -Hl Hf.
  induction Hl as [|x' y' kept l (_ & _ & _ & _ & E) Hl IH]; [constructor|]. apply Forall_cons in Hf as [Hx Hf].
  constructor; [by rewrite E|by apply IH].
Qed.

Lemma kept_event_same (verify : option (LogEvent -> res MigrationVerificationResult)) e0 x :
  kept_event verify e0 x -> Type_ (v_event x) = Type_ e0 /\ Timestamp (v_event x) = Timestamp e0 /\
    Lifecycle.Domain (v_event x) = Lifecycle.Domain e0.
Proof. intros [[_ ->]|[(_ & okt & _ & ->)|(_ & f & m & ekt & okt & _ & _ & _ & ->)]]; done. Qed.

Lemma stream_parsed (verify : option (LogEvent -> res MigrationVerificationResult)) l h x :
  verified_stream verify l h -> x ∈ l -> v_parseError x = None.
Proof.
  induction 1 as [y|y|l h y h' Hl IH]; intros Hx; [by apply list_elem_of_singleton in Hx as ->..|].
  apply elem_of_app in Hx as [Hx|Hx]; [by apply IH|]. by apply list_elem_of_singleton in Hx as ->.
Qed.

(** An event of the history with the entry that proves it. *)
Definition proven_event (c : Client) (w : call) (domain : string) (required : option VerifiedProof)
    (entries : list ProvenEntry) (y : verifiedEvent) : Prop :=
  exists i entry v q, entries !! i = Some entry /\
    VerifyProof (with_clock (client_policy c) (proof_clock w i)) (client_ref c) (Entry entry) (Proof_ entry) = Ok v /\
    validateEntryMetadata (client_ref c) (Entry entry) = Ok tt /\
    (forall r, required = Some r -> sameCheckpoint (VCheckpoint v) (VCheckpoint r) = true) /\
    parseEventFromEntry (key:=key) (Entry entry) = Ok q /\ p_validationError q = None /\
    CanonicalFromEntry (Entry entry) = Ok (v_signed y) /\
    kept_event (migration_verifier c w) (p_event q) y /\
    v_index y = Index v /\ v_chain y = p_chain q /\ Type_ (v_event y) = Type_ (p_event q) /\
    Lifecycle.Domain (v_event y) = domain /\ Timestamp (v_event y) = Timestamp (p_event q) /\
    Timestamp (v_event y) <= LogTime v /\ of_domain domain y.

Lemma proven_of_domain c w domain required entries y : proven_event c w domain required entries y -> of_domain domain y.
Proof. intros (i & entry & v & q & H). apply H. Qed.

(** A genesis keeps the thumbprint it was read with. *)
Lemma kept_genesis_thumb (verify : option (LogEvent -> res MigrationVerificationResult)) e0 x :
  InitialOperationalThumbprint e0 = thumb_or_empty (InitialOperationalPublicKey e0) ->
  kept_event verify e0 x -> Type_ (v_event x) = LogEventIssuance ->
  keyThumbprint (InitialOperationalPublicKey (v_event x)) = Ok (InitialOperationalThumbprint (v_event x)).
Proof.
  intros Ht [[Hty ->]|[(Hty & okt & Hokt & ->)|(Hty & f & m & ekt & okt & _ & _ & _ & ->)]]; cbn; [done| |congruence].
  intros _. rewrite Ht in Hokt. unfold thumb_or_empty in Hokt.
  destruct (keyThumbprint (InitialOperationalPublicKey e0)) as [t|]; [|done]. destruct (is_empty t); congruence.
Qed.

Lemma verified_history_parts c w s domain entries required accepted events s' :
  verifyHistoryEntries c w s domain entries required = (Ok (accepted, events), s') ->
  exists proofs verified prior, verify_entries c w domain required 0 entries = Ok (proofs, verified) /\
    verifyLifecycleVerifiedWithMigration (done_replay w) (sort_by v_index verified) (migration_verifier c w)
      (ref_String (client_ref c)) = Ok (accepted, prior) /\
    events = prior ++ (v_event <$> accepted).
Proof.
  unfold verifyHistoryEntries. destruct (validateHistorySize _); [|done].
  destruct (verify_entries _ _ _ _ _ _) as [[proofs verified]|] eqn:Ev; [|done].
  destruct (advanceTrustedCheckpoints _ _ _ _) as [[|] s1]; [|done]. intros [= H _]. unfold replay_entries in H.
  destruct (verifyLifecycleVerifiedWithMigration _ _ _ _) as [[acc prior]|] eqn:El; [|done]. cbn [mbind res_bind] in H.
  destruct (_ && _); [done|]. injection H as <- <-. by exists proofs, verified, prior.
Qed.

Lemma accepted_proven c w domain required entries proofs verified accepted prior :
  skipProofVerify (client_policy c) = false -> verify_entries c w domain required 0 entries = Ok (proofs, verified) ->
  verifyLifecycleVerifiedWithMigration (done_replay w) (sort_by v_index verified) (migration_verifier c w)
    (ref_String (client_ref c)) = Ok (accepted, prior) ->
  Forall (proven_event c w domain required entries) accepted.
Proof.
  intros Hskip He Hl. destruct (replay_outputs _ _ _ _ _ _ Hl) as [(h & Hs) (kept & Hk & Hc)].
  apply Forall_forall. intros y Hy. pose proof (stream_parsed _ _ _ _ Hs Hy) as Hp.
  apply list_elem_of_lookup in Hy as (i & Hi). destruct (Forall2_lookup_r _ _ _ _ _ Hc Hi) as (x & Hx & Hxy).
  assert (x ∈ verified) as Hv.
  { rewrite <- (sort_by_perm v_index). eapply elem_of_sublist; [|exact Hk]. by eapply list_elem_of_lookup_2. }
  destruct (proj1 (verify_entries_items _ _ _ _ _ _ _ _ He) x Hv) as (j & entry & p & Hj & Ee).
  destruct (verify_entry_authentic _ _ _ _ _ _ _ _ Hskip Ee) as (v & q & Hv1 & Hm & Hq & Hb & Hev & Hch & Hd & Hi1 & Hi2 & Hr & Ht).
  destruct Hxy as (C1 & C2 & C3 & C4 & C5).
  assert (InitialOperationalThumbprint (v_event x) = thumb_or_empty (InitialOperationalPublicKey (v_event x))) as Hth.
  { rewrite Hev. destruct (payload_of_parse _ _ Hq) as (p' & r' & _ & Er & _ & -> & _). by eapply eventFromPayload_thumb. }
  pose proof (kept_genesis_thumb _ _ _ Hth C4) as Hok. pose proof C4 as Hkept.
  apply kept_event_same in C4 as (T1 & T2 & T3).
  rewrite C3 in Hp. destruct (Ht Hp) as [Ht1 Ht2]. exists j, entry, v, q. rewrite C1, C2, C5, T1, T2, T3, Hch, <- Hev. cbn.
  split_and!; try done; [congruence|]. split; [congruence|]. intros E. apply Hok. congruence.
Qed.

Lemma kept_order (verify : option (LogEvent -> res MigrationVerificationResult)) ctx verified cur accepted prior :
  verifyLifecycleVerifiedWithMigration ctx (sort_by v_index verified) verify cur = Ok (accepted, prior) ->
  ascending v_index accepted.
Proof.
  intros H. destruct (replay_outputs _ _ _ _ _ _ H) as [_ (kept & Hk & Hc)]. apply (comes_from_ascending verify kept); [done|].
  eapply StronglySorted_of_sublist; [exact Hk|apply sort_by_ascending].
Qed.

Lemma verified_history_facts c w s domain entries required accepted events s' :
  skipProofVerify (client_policy c) = false ->
  verifyHistoryEntries c w s domain entries required = (Ok (accepted, events), s') ->
  (exists h, verified_stream (migration_verifier c w) accepted h) /\
  ascending v_index accepted /\
  events = imports_of accepted ++ (v_event <$> accepted) /\
  Forall (proven_event c w domain required entries) accepted.
Proof.
  intros Hskip H. apply verified_history_parts in H as (proofs & verified & prior & He & Hl & ->).
  split; [by apply replay_outputs in Hl as [? _]|]. split; [by eapply kept_order|].
  split; [by rewrite (replay_prior _ _ _ _ _ _ Hl)|]. by eapply accepted_proven.
Qed.

(** C17: a history the client accepts is authentic: its events are a verified
    stream in the order of their log indices, each read from an entry whose
    inclusion proof verified at that index under the client's policy, is of the
    domain asked for and of this log, and is not newer than the checkpoint that
    vouches for it; under a required checkpoint every proof is to that one. The
    events returned are these, after those that the verifier of migrations
    answered for a MIGRATION at the beginning. *)
Theorem verified_history_is_authentic c w s domain entries required accepted events s' :
  skipProofVerify (client_policy c) = false ->
  verifyHistoryEntries c w s domain entries required = (Ok (accepted, events), s') ->
  (exists h, verified_stream (migration_verifier c w) accepted h) /\
  ascending v_index accepted /\
  events = imports_of accepted ++ (v_event <$> accepted) /\
  Forall (proven_event c w domain required entries) accepted.
Proof. apply verified_history_facts. Qed.

(** ** Non-revocation *)
Lemma canonical_nonempty entry b : CanonicalFromEntry entry = Ok b -> b <> EmptyString.
Proof.
  unfold CanonicalFromEntry. destruct (payloadObjectFromEntry entry) as [p|]; [|done]. cbn [mbind res_bind].
  destruct (canonicalJSON _) as [t|] eqn:E; [|done]. intros [= <-] ->. apply canonicalJSON_write in E.
  cbn -[write_members] in E. by destruct (write_members _ _ _).
Qed.

Lemma later_entry_in_replay (verify : option (LogEvent -> res MigrationVerificationResult)) ctx verified cur accepted prior g rest x :
  verifyLifecycleVerifiedWithMigration ctx (sort_by v_index verified) verify cur = Ok (accepted, prior) ->
  accepted = g :: rest -> x ∈ verified -> v_index g < v_index x -> ends_or_delegates (Type_ (v_event x)) ->
  entity_signed (v_authorityEntity g) x -> v_signed x ∈ v_signed <$> accepted.
Proof.
  unfold verifyLifecycleVerifiedWithMigration.
  destruct (replay_loop _ _ _ _ _ _) as [s|] eqn:E; [|done]. cbn [mbind res_bind].
  destruct (bool_decide (out s = [])) eqn:Eo; [by destruct (sawMigration s)|]. apply bool_decide_eq_false in Eo.
  intros [= Ho _] -> Hx Hlt Hty Hes.
  assert (Hr0 : replaying verify replay_start) by done.
  destruct (replay_genesis ctx 0 cur verify _ _ _ Hr0 settled_start eq_refl E Eo)
    as (pre & g0 & post & s1 & m & y & Ei & H1 & Hr1 & Hs1 & Hst1 & Ho1 & Hgy & Hek).
  destruct (replay_keeps_entity_events _ _ _ _ _ _ _ Hr1 Hs1 Hst1 H1) as (_ & (l & Hl) & Hf).
  rewrite Ho1, Ho in Hl. injection Hl as -> _. rewrite <- Ho. rewrite <- Hek in Hf. rewrite Forall_forall in Hf.
  apply Hf; [|done|done]. destruct Hgy as (_ & _ & _ & _ & Hi). rewrite Hi in Hlt. apply (ascending_split v_index pre g0); [..|done].
  - rewrite <- Ei. apply sort_by_ascending.
  - by rewrite <- Ei, sort_by_perm.
Qed.

(** An entry of the domain the client can read. *)
Definition readable (c : Client) (w : call) (domain : string) (i : nat) (entry : ProvenEntry) (v : VerifiedProof)
    (q : parsedEvent key) (b : string) : Prop :=
  VerifyProof (with_clock (client_policy c) (proof_clock w i)) (client_ref c) (Entry entry) (Proof_ entry) = Ok v /\
  validateEntryMetadata (client_ref c) (Entry entry) = Ok tt /\ parseEventFromEntry (Entry entry) = Ok q /\
  Lifecycle.Domain (p_event q) = domain /\ CanonicalFromEntry (Entry entry) = Ok b.

(** The entity's own events cannot be dropped from a verified history. *)
Lemma entity_event_in_history c w s domain entries required accepted events s' g rest i entry v q b :
  skipProofVerify (client_policy c) = false ->
  verifyHistoryEntries c w s domain entries required = (Ok (accepted, events), s') -> accepted = g :: rest ->
  entries !! i = Some entry -> readable c w domain i entry v q b -> v_index g < Index v ->
  ends_or_delegates (Type_ (p_event q)) ->
  signed_by (v_authorityEntity g) (InitialEntityKid (p_event q)) (InitialEntitySignature (p_event q)) b = true ->
  exists e, e ∈ events /\ Type_ e = Type_ (p_event q) /\ Timestamp e = Timestamp (p_event q).
Proof.
  intros Hskip H Ha Hi (Hv & Hm & Hq & Hd & Hb) Hlt Hty Hsig.
  apply verified_history_parts in H as (proofs & verified & prior & He & Hl & ->).
  destruct (proj2 (verify_entries_items _ _ _ _ _ _ _ _ He) i entry Hi) as (o & Ho & Hin).
  destruct (verify_entry_readable _ _ _ _ _ _ _ _ _ _ Hskip Ho Hv Hm Hq Hd Hb) as (x & Hx & Hxe & Hxs & Hxi).
  apply Hin in Hx. assert (Hmem : v_signed x ∈ v_signed <$> accepted).
  { apply (later_entry_in_replay _ _ _ _ _ _ _ _ _ Hl Ha Hx); [by rewrite Hxi|by rewrite Hxe|].
    unfold entity_signed. rewrite Hxs, Hxe. split; [by eapply canonical_nonempty|done]. }
  apply list_elem_of_fmap in Hmem as (z & Hz & Hza). rewrite Hxs in Hz.
  pose proof (accepted_proven _ _ _ _ _ _ _ _ _ Hskip He Hl) as Hf. rewrite Forall_forall in Hf.
  destruct (Hf z Hza) as (j & e1 & v1 & q1 & _ & _ & _ & _ & Hq1 & _ & Hc1 & _ & _ & _ & Ht1 & _ & Hts1 & _).
  rewrite <- Hz in Hc1. destruct (same_signed_bytes _ _ _ _ _ Hq1 Hq Hc1 Hb) as [Eu _].
  exists (v_event z). split; [set_solver|]. rewrite Ht1, Hts1.
  split; [apply (f_equal Type_) in Eu|apply (f_equal Timestamp) in Eu]; exact Eu.
Qed.

(** What an answer of [VerifyNonRevocation] was read from. *)
Lemma non_revocation_parts c w s domain at_ ev s' :
  skipProofVerify (client_policy c) = false -> VerifyNonRevocation c w s domain at_ = (Ok ev, s') ->
  exists read complete v accepted events s1 g rest snapshot,
    source_RebuildCompleteHistory c = Some read /\ read domain = Ok complete /\
    verifyCheckpoint (with_clock (client_policy c) (checkpoint_clock w)) (client_ref c) (ch_Checkpoint complete) = Ok v /\
    checkpoint_size v = ch_CompleteThrough complete /\
    verifyHistoryEntries c w s domain (Entries complete) (Some v) = (Ok (accepted, events), s1) /\
    accepted = g :: rest /\ SnapshotAt (Some (NewDomainLog domain events)) at_ = Ok snapshot /\
    HistoricalState snapshot <> Some AgentStateRevoked /\ HistoricalState snapshot <> Some AgentStateRetired /\
    LoggedState ev = HistoricalState snapshot /\
    CompleteThrough ev = format_uint (Z.to_N (ch_CompleteThrough complete)) /\ ev_Checkpoint ev = ch_Checkpoint complete.
Proof.
  intros Hskip H. unfold VerifyNonRevocation in H.
  destruct (source_RebuildCompleteHistory c) as [read|]; [|done].
  destruct (_ <=? 0); [done|]. destruct (read domain) as [complete|] eqn:Er; [|done].
  destruct (verifyCompleteCheckpoint c w complete) as [v|] eqn:Ec; [|done].
  destruct (verifyHistoryEntries c w s domain (Entries complete) (Some v)) as [[[accepted events]|] s1] eqn:Eh; [|done].
  cbn [mbind res_bind] in H. destruct (non_revocation c domain at_ complete v accepted events) as [e|] eqn:En; [|done].
  cbn in H. destruct (done_end w); [done|]. injection H as -> _.
  unfold verifyCompleteCheckpoint in Ec. rewrite Hskip in Ec. destruct (is_empty _); [done|]. destruct (is_empty _); [done|].
  destruct (verifyCheckpoint _ _ _) as [v'|] eqn:Ev; [|done]. cbn [mbind res_bind] in Ec.
  destruct (checkpoint_size v' =? _) eqn:Esz; cbn [negb] in Ec; [|done]. apply Z.eqb_eq in Esz.
  destruct (time_is_zero _); [done|]. injection Ec as ->.
  unfold non_revocation in En. destruct accepted as [|g rest]; [done|].
  match type of En with mbind _ ?r = _ => destruct r as [[pe pr]|]; [|done] end. cbn [mbind res_bind] in En.
  destruct (SnapshotAt _ _) as [snapshot|] eqn:Es; [|done]. cbn [mbind res_bind] in En.
  destruct (_ || _) eqn:Est; [done|]. apply orb_false_iff in Est as [E1 E2]. apply bool_decide_eq_false in E1, E2.
  destruct (history_bounds _ _ _ _ _ _) as [a b]. injection En as <-.
  by exists read, complete, v, (g :: rest), events, s1, g, rest, snapshot.
Qed.

(** A non-terminal state in a timeline is the active one. *)
Lemma snapshot_state_active d (es : list LogEvent) at_ snapshot :
  SnapshotAt (Some (NewDomainLog d es)) at_ = Ok snapshot ->
  HistoricalState snapshot <> Some AgentStateRevoked -> HistoricalState snapshot <> Some AgentStateRetired ->
  HistoricalState snapshot = Some AgentStateActive.
Proof.
  intros H H1 H2. apply snapshot_at_run in H as (pre & post & st & _ & Hne & Hr & ->).
  inversion Hr as [|? g st1 rest ? Hs Hr']; subst; [done|]. inversion Hs; subst.
  apply lc_run_from_live in Hr' as (_ & _ & _ & Hst). destruct st as [|k t since gi|how k t since gi]; [done|done|].
  destruct Hst as (? & _ & _ & [-> | ->]); done.
Qed.

(** C3: a non-revocation answer overlooks nothing the source supplied. It is
    about a complete history under one verified checkpoint of the size it
    states. The stream that the client verifies from the entries of that
    history, all of them proven to this checkpoint, begins at a genesis and is
    under one entity key, the genesis's. The identity is active at the time
    asked for, and every revocation or retirement of the domain that is
    readable at a later index and signed by that entity key, among whatever
    other entries, is later than that time; so is each one in the stream or in
    the history it imports. *)
Theorem non_revocation_overlooks_nothing c w s domain at_ ev s' :
  skipProofVerify (client_policy c) = false ->
  VerifyNonRevocation c w s domain at_ = (Ok ev, s') ->
  exists read complete v accepted h genesis rest s1,
    source_RebuildCompleteHistory c = Some read /\ read domain = Ok complete /\
    verifyCheckpoint (with_clock (client_policy c) (checkpoint_clock w)) (client_ref c) (ch_Checkpoint complete) = Ok v /\
    checkpoint_size v = ch_CompleteThrough complete /\
    LoggedState ev = Some AgentStateActive /\ ev_Checkpoint ev = ch_Checkpoint complete /\
    CompleteThrough ev = format_uint (Z.to_N (ch_CompleteThrough complete)) /\
    verifyHistoryEntries c w s domain (Entries complete) (Some v)
      = (Ok (accepted, imports_of accepted ++ (v_event <$> accepted)), s1) /\
    verified_stream (migration_verifier c w) accepted h /\ Forall (proven_event c w domain (Some v) (Entries complete)) accepted /\
    accepted = genesis :: rest /\
    (forall e, e ∈ imports_of accepted ++ (v_event <$> accepted) -> terminal_type (Type_ e) = true -> at_ < Timestamp e) /\
    forall i entry u q b, Entries complete !! i = Some entry -> readable c w domain i entry u q b ->
      v_index genesis < Index u -> Type_ (p_event q) = LogEventRevocation \/ Type_ (p_event q) = LogEventRetirement ->
      signed_by (st_entity h) (InitialEntityKid (p_event q)) (InitialEntitySignature (p_event q)) b = true ->
      at_ < Timestamp (p_event q).
Proof.
  intros Hskip H. destruct (non_revocation_parts _ _ _ _ _ _ _ Hskip H)
    as (read & complete & v & accepted & events & s1 & g & rest & snapshot & H1 & H2 & H3 & H4 & Hh & Ha & Hs & N1 & N2 & L1 & L2 & L3).
  pose proof (snapshot_state_active _ _ _ _ Hs N1 N2) as Hact.
  destruct (verified_history_facts _ _ _ _ _ _ _ _ _ Hskip Hh) as ((h & Hst) & _ & -> & Hf).
  exists read, complete, v, accepted, h, g, rest, s1. split_and!; try done; [congruence| |].
  - intros e He Hty. by apply (active_snapshot_no_end _ _ _ _ e Hs Hact He).
  - intros i entry u q b Hi Hr Hlt Hty Hsig. rewrite <- (stream_entity _ _ _ _ _ Hst Ha) in Hsig.
    destruct (entity_event_in_history _ _ _ _ _ _ _ _ _ _ _ _ _ _ _ _ Hskip Hh Ha Hi Hr Hlt) as (e & He & Hte & Hts); [|done|].
    { destruct Hty; [by left|right; by left]. }
    rewrite <- Hts. apply (active_snapshot_no_end _ _ _ _ e Hs Hact He). rewrite Hte. by destruct Hty as [-> | ->].
Qed.

(** ** The lifecycle binding *)
Lemma log_error_Ok {A} (r : res A) a : log_error r = Ok a -> r = Ok a.
Proof. by destruct r. Qed.
Lemma unless_cancelled_Ok {A} w (r : res A) a : unless_cancelled w r = Ok a -> r = Ok a.
Proof. unfold unless_cancelled. destruct r as [x|]; [|done]. cbn [mbind res_bind]. by destruct (done_end w). Qed.

(** The entries a history is rebuilt from: those of a usable preload, or the
    answer of the source. *)
Definition history_entries (c : Client) (w : call) (domain : string) : res (list ProvenEntry) :=
  match usable_preload c w domain with Some h => Ok (pre_entries h) | None => source_RebuildHistory c domain end.

Lemma rebuilt_history_authentic c w s domain accepted events s' :
  skipProofVerify (client_policy c) = false ->
  rebuildVerifiedHistory c w s domain = (Ok (accepted, events), s') ->
  exists entries, history_entries c w domain = Ok entries /\ events = imports_of accepted ++ (v_event <$> accepted) /\
    (exists h, verified_stream (migration_verifier c w) accepted h) /\
    Forall (proven_event c w domain None entries) accepted.
Proof.
  intros Hskip. unfold rebuildVerifiedHistory, history_entries. destruct (negb (source_configured c)); [done|].
  assert (forall w' entries r s1, migration_verifier c w' = migration_verifier c w -> proof_clock w' = proof_clock w ->
    verifyHistoryEntries c w' s domain entries None = (r, s1) -> r = Ok (accepted, events) ->
    events = imports_of accepted ++ (v_event <$> accepted) /\
      (exists h, verified_stream (migration_verifier c w) accepted h) /\
      Forall (proven_event c w domain None entries) accepted) as Hv.
  { intros w' entries r s1 Hm Hc H ->. apply verified_history_facts in H as (Hs & _ & -> & Hf); [|done].
    unfold proven_event in *. rewrite Hm, ?Hc in Hf. by rewrite Hm in Hs. }
  destruct (usable_preload c w domain) as [h|].
  - destruct (checkExpiry h w 0); [|done].
    destruct (verifyHistoryEntries c (with_scan w (pre_scan h)) s domain (pre_entries h) None) as [r s1] eqn:E.
    intros [= H _]. apply log_error_Ok in H. destruct r as [acc_ev|]; [|done]. cbn [mbind res_bind] in H.
    destruct (checkExpiry h w 1); [|done]. injection H as ->. exists (pre_entries h). split; [done|]. eapply Hv; [..|exact E|done]; done.
  - destruct (source_RebuildHistory c domain) as [entries|]; [|done].
    destruct (verifyHistoryEntries c w s domain entries None) as [r s1] eqn:E. intros [= H _]. apply log_error_Ok in H.
    exists entries. split; [done|]. eapply Hv; [..|exact E|done]; done.
Qed.

Lemma issuance_first (g : LogEvent) es : Type_ g = LogEventIssuance -> issuanceEvent (g :: es) = Ok g.
Proof. intros E. unfold issuanceEvent. cbn. unfold type_eqb. by rewrite E, bool_decide_true. Qed.

(** What a bilateral binding says of the genesis. *)
Lemma bilateral_binding_facts events input b g :
  verifyBilateralBinding events input = Ok b -> issuanceEvent events = Ok g ->
  equal_fold (Lifecycle.Domain g) (in_Domain input) = true /\ GovernanceID g = in_GovernanceID input /\
  Timestamp g = bb_Timestamp b /\
  keyThumbprint (InitialEntityPublicKey g) = Ok (bb_InitialEntityThumbprint b) /\
  keyThumbprint (in_EntityKey input) = Ok (bb_InitialEntityThumbprint b) /\
  keyThumbprint (InitialOperationalPublicKey g) = Ok (bb_InitialOperationalThumbprint b).
Proof.
  unfold verifyBilateralBinding, thumb_or. intros H Eg. rewrite Eg in H. cbn [mbind res_bind] in H.
  destruct (equal_fold _ _); [|done]. cbn [negb] in H.
  destruct (keyThumbprint (InitialEntityPublicKey g)) as [et|]; [|done]. cbn [mbind res_bind] in H.
  destruct (keyThumbprint (in_EntityKey input)) as [rt|]; [|done]. cbn [mbind res_bind] in H.
  destruct (str_eqb et rt) eqn:E1; [|done]. cbn [negb] in H. apply str_eqb_eq in E1 as ->.
  destruct (str_eqb (GovernanceID g) _) eqn:E2; [|done]. cbn [negb] in H. apply str_eqb_eq in E2.
  destruct (keyThumbprint (InitialOperationalPublicKey g)) as [ot|]; [|done]. by injection H as <-.
Qed.

Lemma operational_continuity_facts events domain initial current at_ g :
  verifyOperationalContinuity events domain initial current at_ = Ok tt -> issuanceEvent events = Ok g ->
  keyThumbprint (InitialOperationalPublicKey g) = Ok initial /\
  exists snapshot, SnapshotAt (Some (NewDomainLog domain events)) at_ = Ok snapshot /\
    HistoricalState snapshot = Some AgentStateActive /\ ActiveKeyThumbprint snapshot = current.
Proof.
  unfold verifyOperationalContinuity, thumb_or. intros H Eg. rewrite Eg in H. cbn [mbind res_bind] in H.
  destruct (keyThumbprint (InitialOperationalPublicKey g)) as [ot|]; [|done]. cbn [mbind res_bind] in H.
  destruct (str_eqb ot initial) eqn:E1; [|done]. cbn [negb] in H. apply str_eqb_eq in E1 as ->.
  unfold activeHistoricalSnapshot in H. destruct (SnapshotAt _ _) as [snapshot|]; [|done]. cbn [mbind res_bind] in H.
  destruct (bool_decide (HistoricalState snapshot = Some AgentStateActive)) eqn:E2; [|done]. cbn [negb] in H.
  apply bool_decide_eq_true in E2. cbn [mbind res_bind] in H.
  destruct (str_eqb (ActiveKeyThumbprint snapshot) current) eqn:E3; [|done]. apply str_eqb_eq in E3.
  split; [done|]. by exists snapshot.
Qed.

(** What a successful binding says of the events it was checked against. *)
Lemma binding_of_events events input b current at_ :
  verifyBilateralBinding events input = Ok b ->
  verifyOperationalContinuity events (in_Domain input) (bb_InitialOperationalThumbprint b) current at_ = Ok tt ->
  exists g rest post, events = g :: rest ++ post /\
    Type_ g = LogEventIssuance /\ equal_fold (Lifecycle.Domain g) (in_Domain input) = true /\
    GovernanceID g = in_GovernanceID input /\ Timestamp g = bb_Timestamp b /\
    keyThumbprint (InitialEntityPublicKey g) = Ok (bb_InitialEntityThumbprint b) /\
    keyThumbprint (in_EntityKey input) = Ok (bb_InitialEntityThumbprint b) /\
    keyThumbprint (InitialOperationalPublicKey g) = Ok (bb_InitialOperationalThumbprint b) /\
    rotation_path (InitialOperationalThumbprint g) (rotations rest) current /\
    InitialOperationalThumbprint g = bb_InitialOperationalThumbprint b /\
    Forall (fun e => Timestamp e <= at_) rest /\ Forall (fun e => at_ < Timestamp e) post /\
    Forall (fun e => terminal_type (Type_ e) = true -> at_ < Timestamp e) events.
Proof.
  intros Eb Ec.
  destruct (issuanceEvent events) as [g'|] eqn:Eg; [|by unfold verifyBilateralBinding in Eb; rewrite Eg in Eb].
  destruct (operational_continuity_facts _ _ _ _ _ _ Ec Eg) as (_ & snapshot & Esn & Hact & Hcur).
  destruct (snapshot_rotations _ _ _ _ Esn) as (g & rest & post & Ee & Hg & _ & Hp & Hk & Hle & Hlt).
  rewrite Ee, (issuance_first g _ Hg) in Eg. injection Eg as <-.
  assert (issuanceEvent events = Ok g) as Eg by (by rewrite Ee; apply issuance_first).
  destruct (bilateral_binding_facts _ _ _ _ Eb Eg) as (B1 & B2 & B3 & B4 & B5 & B6).
  exists g, rest, post. rewrite Hcur in Hp. split_and!; try done; [congruence|].
  apply Forall_forall. intros e He Ht. by eapply active_snapshot_no_end.
Qed.

Lemma lifecycle_binding_run c w s input current b s' :
  VerifyLifecycleBinding c w s input current = (Ok b, s') ->
  exists accepted events, rebuildVerifiedHistory c w s (in_Domain input) = (Ok (accepted, events), s') /\
    verifyBilateralBinding events input = Ok b /\
    verifyOperationalContinuity events (in_Domain input) (bb_InitialOperationalThumbprint b) current (now w) = Ok tt.
Proof.
  unfold VerifyLifecycleBinding, over_history.
  destruct (rebuildVerifiedHistory c w s (in_Domain input)) as [[[accepted events]|] s1]; [|done].
  cbn [mbind res_bind]. intros [= H <-]. apply unless_cancelled_Ok in H. exists accepted, events.
  destruct (verifyBilateralBinding events input) as [b'|] eqn:Eb; [|done]. cbn [log_error mbind res_bind] in H.
  destruct (verifyOperationalContinuity _ _ _ _ _) as [[]|] eqn:Ec; [|done]. by injection H as ->.
Qed.

(** C19: a lifecycle binding ties the record to the current key. The history
    that the client rebuilds for the domain - a verified stream of proven
    entries of its source or of the preload, after what its genesis imports -
    begins with an ISSUANCE that names the record's entity key and governance,
    and from its operational key an unbroken path of the rotations in that
    history leads to the key in use; no revocation or retirement in it lies
    before now. *)
Theorem lifecycle_binding_is_a_rotation_path c w s input current b s' :
  skipProofVerify (client_policy c) = false ->
  VerifyLifecycleBinding c w s input current = (Ok b, s') ->
  exists accepted entries g rest post,
    rebuildVerifiedHistory c w s (in_Domain input) = (Ok (accepted, g :: rest ++ post), s') /\
    history_entries c w (in_Domain input) = Ok entries /\
    (exists h, verified_stream (migration_verifier c w) accepted h) /\
    Forall (proven_event c w (in_Domain input) None entries) accepted /\
    g :: rest ++ post = imports_of accepted ++ (v_event <$> accepted) /\
    Type_ g = LogEventIssuance /\ equal_fold (Lifecycle.Domain g) (in_Domain input) = true /\
    GovernanceID g = in_GovernanceID input /\ Timestamp g = bb_Timestamp b /\
    keyThumbprint (InitialEntityPublicKey g) = Ok (bb_InitialEntityThumbprint b) /\
    keyThumbprint (in_EntityKey input) = Ok (bb_InitialEntityThumbprint b) /\
    keyThumbprint (InitialOperationalPublicKey g) = Ok (bb_InitialOperationalThumbprint b) /\
    rotation_path (InitialOperationalThumbprint g) (rotations rest) current /\
    InitialOperationalThumbprint g = bb_InitialOperationalThumbprint b /\
    Forall (fun e => Timestamp e <= now w) rest /\ Forall (fun e => now w < Timestamp e) post /\
    Forall (fun e => terminal_type (Type_ e) = true -> now w < Timestamp e) (g :: rest ++ post).
Proof.
  intros Hskip (accepted & events & Eh & Eb & Ec)%lifecycle_binding_run.
  destruct (rebuilt_history_authentic _ _ _ _ _ _ _ Hskip Eh) as (entries & Hen & Hev & Hs & Hf).
  destruct (binding_of_events _ _ _ _ _ Eb Ec) as (g & rest & post & Ee & B1 & B2 & B3 & B4 & B5 & B6 & B7 & B8 & B9 & B10 & B11 & B12).
  exists accepted, entries, g, rest, post. rewrite <- Ee. split_and!; done.
Qed.

(** *** The client as a reader *)
(** The reader interface over a client: the calls it receives one after the
    other may meet different worlds and checkpoint states. *)
Definition client_reader (c : Client) (wk wb wo wl wg : call) (sk sb so sl sg : option checkpoints) : LogReader :=
  {| lr_KeyTimestamp d t := (KeyTimestamp c wk sk d t).1;
     lr_VerifyBilateralBinding input := (VerifyBilateralBinding c wb sb input).1;
     lr_VerifyOperationalContinuity d i cur := (VerifyOperationalContinuity c wo so d i cur).1;
     lr_VerifyLifecycleBinding := Some (fun input cur => (VerifyLifecycleBinding c wl sl input cur).1);
     lr_VerifyGovernanceRelationship := Some (fun d g => (VerifyGovernanceRelationship c wg sg d g).1) |}.

(** The events of the history that the client rebuilds for a domain. *)
Definition rebuilt (c : Client) (w : call) (s : option checkpoints) (domain : string) (events : list LogEvent) : Prop :=
  exists accepted s', rebuildVerifiedHistory c w s domain = (Ok (accepted, events), s').

(** The client keeps what the interface promises, of the history it rebuilds
    at the time of its binding check. *)
#[export] Instance client_evidence c wk wb wo wl wg sk sb so sl sg :
  LifecycleEvidence (client_reader c wk wb wo wl wg sk sb so sl sg) (now wl) (rebuilt c wl sl).
Proof.
  split; [|done]. intros f input current b [= <-] H.
  destruct (VerifyLifecycleBinding c wl sl input current) as [r s'] eqn:E. cbn in H. subst r.
  apply lifecycle_binding_run in E as (accepted & events & Eh & Eb & Ec).
  destruct (binding_of_events _ _ _ _ _ Eb Ec) as (g & rest & post & Ee & B1 & B2 & B3 & B4 & B5 & B6 & B7 & B8 & B9 & B10 & B11 & B12).
  exists events. split; [by exists accepted, s'|]. exists g, rest, post. rewrite <- Ee.
  split_and!; try done; [by exists (bb_InitialEntityThumbprint b)|by rewrite B9].
Qed.

(** ** Migrations *)
(** Nested calls of the migration verifier, each with the path before it. *)
Inductive migrating (local : MigrationVerificationLimits) (root : string) : nat -> migrationPath -> Prop :=
| migrating_first (event : LogEvent) p l :
    enterMigration None event root local = Ok (p, l) -> migrating local root 1 p
| migrating_next n p (event : LogEvent) current local' p' l :
    migrating local root n p -> enterMigration (Some p) event current local' = Ok (p', l) ->
    migrating local root (S n) p'.

(** C38: migrations are followed to the configured depth at most and no log
    twice: after [n] nested calls the path holds [n + 1] different logs and
    [n] is at most the maximum depth of the outermost client, whatever limits
    the clients of the earlier logs have. *)
Theorem migrations_are_bounded local root n p :
  migrating local root n p ->
  depth p = Z.of_nat n /\ Z.of_nat n <= Z.max 1 (MaxDepth (withDefaults local)) /\
  size (path_seen p) = S n /\ root ∈ path_seen p /\ nextLog p ∈ path_seen p /\ path_limits p = withDefaults local.
Proof.
  induction 1 as [event p l H|n p event current local' p' l Hm IH H]; unfold enterMigration in H; cbn [mbind res_bind] in H.
  - destruct (bool_decide _) eqn:E; [done|]. apply bool_decide_eq_false in E. injection H as <- _. cbn.
    rewrite size_union by set_solver. rewrite !size_singleton. split_and!; try done; try set_solver; lia.
  - destruct IH as (Hd & Hn & Hs & Hr & Hx & Hl). destruct (negb _); [done|]. cbn [migrationLimitsForContext] in H.
    rewrite Hl in H. destruct (Z.leb_spec (MaxDepth (withDefaults local)) (depth p)); [done|].
    destruct (bool_decide _) eqn:E; [done|]. apply bool_decide_eq_false in E. injection H as <- _. cbn [depth path_seen nextLog path_limits].
    rewrite size_union by set_solver. rewrite size_singleton, Hs. split_and!; try done; try set_solver; lia.
Qed.
End client.
