(* ===== verification/Demo.v ===== *)
(** * Demo: a concrete stream

    Keys, a URL reader and an IDNA profile simple enough to evaluate, and the
    entries the writer of Event.v makes with them: the inputs on which the
    theorems about events and replays are instantiated. *)

From Stdlib Require Import ZArith Lia Ascii String.
From S2P Require Import Prelude Codec Utf8 Numbers Jcs JcsSpec Keys Fqdn Lifecycle Merkle Evidence Reference Policy Checkpoint Scan Event EventSpec Replay ReplaySpec AppendSpec.

Open Scope Z_scope.

(** Names that are ASCII already. *)
#[export] Instance demo_idna : Idna := {
  ToASCII s := if forall_byte (fun c => byte_val c <? 128) s && negb (is_empty s) && negb (has_suffix "." s)
               then Some s else None
}.
#[export] Instance demo_idna_spec : IdnaSpec demo_idna.
Proof.
  assert (H : forall s t, ToASCII s = Some t ->
    s = t /\ forall_byte (fun c => byte_val c <? 128) t = true /\ has_suffix "." t = false /\ t <> EmptyString).
  { cbn. intros s t. destruct (_ && _ && _) eqn:E; [|done]. intros [= <-].
    rewrite !andb_true_iff, !negb_true_iff, is_empty_false in E. tauto. }
  split; intros s t Hs; destruct (H _ _ Hs) as (<- & ? & ? & ?); auto.
Qed.
#[export] Instance demo_net_url : NetURL := demo_url.

(** A key's JSON text: its two members. *)
#[export] Instance demo_jwk_text : JwkText demo_key := {
  jwk_marshal k := match canonicalJSON (VObject (<["kid" := VString (demo_kid k)]> (<["x" := VString (demo_pub k)]> ∅))) with
                   | Ok b => Some b | Err _ => None end;
  jwk_parse s := match DecodeObject s with
                 | Ok p => Some {| demo_kid := optionalString p "kid"; demo_pub := optionalString p "x" |}
                 | Err _ => None end
}.

Definition demo_entity : demo_key := {| demo_kid := "ek1"; demo_pub := "entity-key-bytes-entity-key-byte" |}.
Definition demo_ku1 : demo_key := {| demo_kid := "op1"; demo_pub := "first-operational-key-bytes-1234" |}.
Definition demo_ku2 : demo_key := {| demo_kid := "op2"; demo_pub := "second-operational-key-bytes-123" |}.

Definition thumb_of (k : demo_key) : string := thumb_or_empty (Some k).
Definition demo_sig (k : demo_key) (b : string) : string := Base64.encode (demo_sign (demo_pub k) b).

(** An event with every optional field unset. *)
Definition bare_event (t : LogEventType) (sec : Z) : LogEvent demo_key :=
  {| Type_ := t; InitialEntityKid := ""; InitialEntityPublicKey := None; InitialEntityThumbprint := "";
     InitialEntitySignature := ""; InitialOperationalKid := ""; InitialOperationalPublicKey := None;
     InitialOperationalThumbprint := ""; InitialOperationalSignature := ""; PreviousOperationalKid := "";
     PreviousOperationalThumbprint := ""; PreviousOperationalSignature := ""; NewOperationalKid := "";
     NewOperationalPublicKey := None; NewOperationalThumbprint := ""; NewOperationalSignature := "";
     Lifecycle.Domain := "agent.example.com"; Timestamp := time_Unix sec; GovernanceID := ""; Reason := "";
     PreviousLog := ""; NewLog := ""; FinalEntryRef := ""; Delegatee := ""; Lifecycle.Scope := "";
     Lifecycle.Expiry := 0 |}.

Definition with_sigs (e : LogEvent demo_key) (ae op prev_op new_op : string * string) : LogEvent demo_key :=
  {| Type_ := Type_ e; InitialEntityKid := ae.1; InitialEntityPublicKey := InitialEntityPublicKey e;
     InitialEntityThumbprint := InitialEntityThumbprint e; InitialEntitySignature := ae.2;
     InitialOperationalKid := op.1; InitialOperationalPublicKey := InitialOperationalPublicKey e;
     InitialOperationalThumbprint := InitialOperationalThumbprint e; InitialOperationalSignature := op.2;
     PreviousOperationalKid := prev_op.1; PreviousOperationalThumbprint := PreviousOperationalThumbprint e;
     PreviousOperationalSignature := prev_op.2; NewOperationalKid := new_op.1;
     NewOperationalPublicKey := NewOperationalPublicKey e; NewOperationalThumbprint := NewOperationalThumbprint e;
     NewOperationalSignature := new_op.2; Lifecycle.Domain := Lifecycle.Domain e; Timestamp := Timestamp e;
     GovernanceID := GovernanceID e; Reason := Reason e; PreviousLog := PreviousLog e; NewLog := NewLog e;
     FinalEntryRef := FinalEntryRef e; Delegatee := Delegatee e; Lifecycle.Scope := Lifecycle.Scope e;
     Lifecycle.Expiry := Lifecycle.Expiry e |}.

Definition with_rotation (e : LogEvent demo_key) (prev : string) (k : demo_key) : LogEvent demo_key :=
  {| Type_ := Type_ e; InitialEntityKid := InitialEntityKid e; InitialEntityPublicKey := InitialEntityPublicKey e;
     InitialEntityThumbprint := InitialEntityThumbprint e; InitialEntitySignature := InitialEntitySignature e;
     InitialOperationalKid := InitialOperationalKid e; InitialOperationalPublicKey := InitialOperationalPublicKey e;
     InitialOperationalThumbprint := InitialOperationalThumbprint e;
     InitialOperationalSignature := InitialOperationalSignature e; PreviousOperationalKid := PreviousOperationalKid e;
     PreviousOperationalThumbprint := prev; PreviousOperationalSignature := PreviousOperationalSignature e;
     NewOperationalKid := NewOperationalKid e; NewOperationalPublicKey := Some k;
     NewOperationalThumbprint := thumb_of k; NewOperationalSignature := NewOperationalSignature e;
     Lifecycle.Domain := Lifecycle.Domain e; Timestamp := Timestamp e; GovernanceID := GovernanceID e;
     Reason := Reason e; PreviousLog := PreviousLog e; NewLog := NewLog e; FinalEntryRef := FinalEntryRef e;
     Delegatee := Delegatee e; Lifecycle.Scope := Lifecycle.Scope e; Lifecycle.Expiry := Lifecycle.Expiry e |}.

Definition with_issuance (e : LogEvent demo_key) (ek ok : demo_key) : LogEvent demo_key :=
  {| Type_ := Type_ e; InitialEntityKid := InitialEntityKid e; InitialEntityPublicKey := Some ek;
     InitialEntityThumbprint := thumb_of ek; InitialEntitySignature := InitialEntitySignature e;
     InitialOperationalKid := InitialOperationalKid e; InitialOperationalPublicKey := Some ok;
     InitialOperationalThumbprint := thumb_of ok; InitialOperationalSignature := InitialOperationalSignature e;
     PreviousOperationalKid := PreviousOperationalKid e; PreviousOperationalThumbprint := PreviousOperationalThumbprint e;
     PreviousOperationalSignature := PreviousOperationalSignature e; NewOperationalKid := NewOperationalKid e;
     NewOperationalPublicKey := NewOperationalPublicKey e; NewOperationalThumbprint := NewOperationalThumbprint e;
     NewOperationalSignature := NewOperationalSignature e; Lifecycle.Domain := Lifecycle.Domain e;
     Timestamp := Timestamp e; GovernanceID := "operator.example"; Reason := Reason e; PreviousLog := PreviousLog e;
     NewLog := NewLog e; FinalEntryRef := FinalEntryRef e; Delegatee := Delegatee e;
     Lifecycle.Scope := Lifecycle.Scope e; Lifecycle.Expiry := Lifecycle.Expiry e |}.

Definition demo_chain (seq : Z) (prev state : string) : chainFields :=
  {| sequence := Some seq; previousEventID := prev; chain_invalid := false; previousStateHash := state |}.

Definition demo_signed (e : LogEvent demo_key) (c : chainFields) : string :=
  value_of "" (canonicalWithChain demo_ref e c).
Definition entry_of (e : LogEvent demo_key) (c : chainFields) : string :=
  value_of "" (entryBytesWithChain e (Some demo_ref) (Some c)).

Definition no_sig : string * string := ("", "").

(** An issuance, a rotation of the operational key and a retirement. *)
Definition demo_issuance0 := with_issuance (bare_event LogEventIssuance 1000) demo_entity demo_ku1.
Definition demo_c0 := demo_chain 0 "" "".
Definition demo_b0 : string := Eval vm_compute in demo_signed demo_issuance0 demo_c0.
Definition demo_issuance := with_sigs demo_issuance0 ("ek1", demo_sig demo_entity demo_b0)
  ("op1", demo_sig demo_ku1 demo_b0) no_sig no_sig.
Definition demo_state0 := activeLifecycleState "agent.example.com" (thumb_of demo_entity) (thumb_of demo_ku1).

Definition demo_rotation0 := with_rotation (bare_event LogEventKeyRotation 2000) (thumb_of demo_ku1) demo_ku2.
Definition demo_c1 := Eval vm_compute in demo_chain 1 (EventID demo_b0) (lifecycleStateHash demo_state0).
Definition demo_b1 : string := Eval vm_compute in demo_signed demo_rotation0 demo_c1.
Definition demo_rotation := with_sigs demo_rotation0 no_sig no_sig ("op1", demo_sig demo_ku1 demo_b1)
  ("op2", demo_sig demo_ku2 demo_b1).
Definition demo_state1 := activeLifecycleState "agent.example.com" (thumb_of demo_entity) (thumb_of demo_ku2).

Definition demo_retirement0 := bare_event LogEventRetirement 3000.
Definition demo_c2 := Eval vm_compute in demo_chain 2 (EventID demo_b1) (lifecycleStateHash demo_state1).
Definition demo_b2 : string := Eval vm_compute in demo_signed demo_retirement0 demo_c2.
Definition demo_retirement := with_sigs demo_retirement0 ("ek1", demo_sig demo_entity demo_b2) no_sig no_sig no_sig.

Definition demo_e0 : string := Eval vm_compute in entry_of demo_issuance demo_c0.
Definition demo_e1 : string := Eval vm_compute in entry_of demo_rotation demo_c1.
Definition demo_e2 : string := Eval vm_compute in entry_of demo_retirement demo_c2.
(** Another signer's retirement over the same bytes. *)
Definition demo_e2' : string := Eval vm_compute in
  entry_of (with_sigs demo_retirement0 ("op2", demo_sig demo_ku2 demo_b2) no_sig no_sig no_sig) demo_c2.

(** The items of the three entries, of the unauthorized retirement and of a
    retirement signed by the entity that forks off after the issuance. *)
Definition demo_items_of (entries : list string) : list (verifiedEvent (key:=demo_key)) :=
  value_of [] (check_entries demo_ref None 0 entries).
Definition first_item (l : list (verifiedEvent (key:=demo_key))) : verifiedEvent :=
  match l with
  | x :: _ => x
  | [] => {| v_event := bare_event LogEventRetirement 0; v_chain := demo_chain 0 "" ""; v_index := 0; v_signed := "";
             v_parseError := None; v_migration := None; v_authorityEntity := None; v_authorityOperational := None |}
  end.
Definition demo_items := Eval vm_compute in demo_items_of [demo_e0; demo_e1; demo_e2].
Definition demo_noise := Eval vm_compute in first_item (demo_items_of [demo_e2']).
Definition demo_fork := Eval vm_compute in
  let b := demo_signed demo_retirement0 demo_c1 in
  first_item (demo_items_of [entry_of (with_sigs demo_retirement0 ("ek1", demo_sig demo_entity b) no_sig no_sig no_sig) demo_c1]).
Definition never : nat -> bool := fun _ => false.
Definition demo_out := Eval vm_compute in
  (value_of ([], []) (verifyLifecycleVerifiedWithMigration never demo_items None (ref_String demo_ref))).1.
Definition demo_head := Eval vm_compute in
  match CheckAppend (key:=demo_key) never demo_ref [demo_e0; demo_e1] demo_e2 with Ok h => Some h | Err _ => None end.

Lemma demo_check_append :
  match demo_head with Some h => CheckAppend (key:=demo_key) never demo_ref [demo_e0; demo_e1] demo_e2 = Ok h | None => False end.
Proof. vm_compute. reflexivity. Qed.

Lemma demo_items_chain : Forall entry_chain (demo_items ++ [demo_noise]).
Proof.
  assert (H : forall entry entries vs, check_entries demo_ref None 0 (entry :: entries) = Ok vs -> Forall entry_chain vs).
  { intros entry entries vs Hc. apply check_entries_first in Hc as (x & xs & -> & Hf).
    eapply Forall2_right; [|exact Hf]. by intros ? ? (_ & _ & _ & ? & _). }
  apply Forall_app. split; [apply (H demo_e0 [demo_e1; demo_e2])|apply (H demo_e2' [])]; vm_compute; reflexivity.
Qed.

Lemma demo_replay : verifyLifecycleVerifiedWithMigration never demo_items None (ref_String demo_ref) = Ok (demo_out, []).
Proof. vm_compute. reflexivity. Qed.
(** The same entries, with a copy and an unauthorized one among them. *)
Definition demo_noisy : list (verifiedEvent (key:=demo_key)) :=
  take 1 demo_items ++ [demo_noise] ++ take 2 demo_items ++ [demo_noise] ++ drop 2 demo_items.
Lemma demo_noisy_replay : verifyLifecycleVerifiedWithMigration never demo_noisy None (ref_String demo_ref) = Ok (demo_out, []).
Proof. vm_compute. reflexivity. Qed.

(** The loop after the issuance and the rotation. *)
Definition demo_s2 := Eval vm_compute in
  value_of replay_start (replay_loop never 0 (ref_String demo_ref) None replay_start (take 2 demo_items)).
Lemma demo_s2_reached : replay_loop never 0 (ref_String demo_ref) None replay_start (take 2 demo_items) = Ok demo_s2.
Proof. vm_compute. reflexivity. Qed.

(** ** Witnesses *)
Lemma signed_bytes_bind_event_witness :
  exists q1 q2, parseEventFromEntry (key:=demo_key) demo_e2 = Ok q1 /\ parseEventFromEntry (key:=demo_key) demo_e2' = Ok q2 /\
    p_event q1 <> p_event q2 /\ unsigned (p_event q1) = unsigned (p_event q2) /\ p_chain q1 = p_chain q2.
Proof.
  destruct (parseEventFromEntry (key:=demo_key) demo_e2) as [q1|] eqn:E1; [|by vm_compute in E1].
  destruct (parseEventFromEntry (key:=demo_key) demo_e2') as [q2|] eqn:E2; [|by vm_compute in E2].
  exists q1, q2. split; [done|]. split; [done|]. split.
  - assert (Hs : InitialEntityKid (value_of (bare_event LogEventRetirement 0) (fmap (M:=res) p_event (Ok q1))) <>
               InitialEntityKid (value_of (bare_event LogEventRetirement 0) (fmap (M:=res) p_event (Ok q2))))
      by (rewrite <- E1, <- E2; vm_compute; discriminate).
    cbn in Hs. congruence.
  - apply (signed_bytes_bind_event demo_e2 demo_e2' q1 q2 demo_b2 E1 E2); vm_compute; reflexivity.
Defined.

Lemma replay_accepts_verified_streams_witness : exists h, verified_stream None demo_out h.
Proof.
  apply (replay_accepts_verified_streams never demo_items None (ref_String demo_ref) demo_out []). exact demo_replay.
Defined.

Lemma one_end_one_history_witness :
  v_signed <$> demo_out = v_signed <$> demo_out \/ event_collision demo_out demo_out.
Proof.
  assert (H : exists x, last demo_out = Some x) by (by eexists; vm_compute). destruct H as [x Hx].
  pose proof demo_items_chain as Hc. apply Forall_app in Hc as [Hc1 Hc2].
  assert (Hc : Forall entry_chain demo_noisy).
  { unfold demo_noisy. rewrite !Forall_app. split_and!; try apply Forall_take; try apply Forall_drop; assumption. }
  exact (one_end_one_history never never demo_items demo_noisy None None (ref_String demo_ref) (ref_String demo_ref)
    demo_out demo_out [] [] x x Hc1 Hc demo_replay demo_noisy_replay Hx Hx eq_refl).
Defined.

Lemma unauthorized_entries_are_inert_witness :
  verifyLifecycleVerifiedWithMigration never (take 2 demo_items ++ demo_noise :: drop 2 demo_items) None (ref_String demo_ref)
  = verifyLifecycleVerifiedWithMigration never (take 2 demo_items ++ drop 2 demo_items) None (ref_String demo_ref).
Proof.
  assert (Hn : inert demo_s2 demo_noise) by (right; right; split; vm_compute; reflexivity).
  exact (unauthorized_entries_are_inert (ref_String demo_ref) None (take 2 demo_items) demo_noise (drop 2 demo_items) demo_s2
    demo_s2_reached Hn).
Defined.

Lemma authenticated_fork_is_rejected_witness :
  exists code msg,
    verifyLifecycleVerifiedWithMigration never (take 2 demo_items ++ demo_fork :: drop 2 demo_items) None (ref_String demo_ref)
      = Err (VerificationError code false msg) /\ code ∈ ["TERMINAL_STATE"; "DUPLICATE_ISSUANCE"; "CHAIN_CONTINUITY"]%string.
Proof.
  assert (H1 : v_signed demo_fork <> EmptyString) by (vm_compute; discriminate).
  assert (H2 : seen demo_s2 !! EventID (v_signed demo_fork) = None) by (vm_compute; reflexivity).
  assert (H3 : authority_for (note_authority demo_s2) demo_fork = (Some demo_entity, Some demo_ku1)) by (vm_compute; reflexivity).
  assert (H4 : candidateAuthorizedByCurrentHistory (v_event demo_fork) (v_signed demo_fork) (Some demo_entity) (Some demo_ku1) = true)
    by (vm_compute; reflexivity).
  assert (H5 : ~ names (standing_of demo_s2 (v_event demo_noise)) (v_chain demo_fork)).
  { intros (_ & H & _). vm_compute in H. discriminate. }
  exact (authenticated_fork_is_rejected (ref_String demo_ref) None (take 2 demo_items) demo_fork (drop 2 demo_items) demo_s2
    (Some demo_entity) (Some demo_ku1) (v_event demo_noise) demo_s2_reached eq_refl H1 H2 H3 H4 H5).
Defined.

Lemma verified_streams_are_replayed_witness :
  verifyLifecycleVerifiedWithMigration never demo_out None (ref_String demo_ref) = Ok (demo_out, []).
Proof.
  destruct (replay_outputs never demo_items None (ref_String demo_ref) demo_out [] demo_replay) as [(h & Hs) _].
  assert (H1 : NoDup (ids demo_out)) by (apply (bool_decide_unpack _); vm_compute; exact I).
  assert (H2 : Forall (fun x => InitialOperationalThumbprint (v_event x) <> EmptyString \/ Type_ (v_event x) <> LogEventIssuance) demo_out)
    by (apply Forall_cons; split; [left; vm_compute; discriminate|];
      apply Forall_cons; split; [right; discriminate|]; apply Forall_cons; split; [right; discriminate|]; apply Forall_nil; exact I).
  exact (verified_streams_are_replayed (ref_String demo_ref) demo_out h Hs H1 H2).
Defined.

Lemma demo_thumbprints : thumbprints_nonempty (key:=demo_key).
Proof.
  intros k s [= <-] H. pose proof (validHash_sha256 (demo_pub k)) as Hv. by rewrite H in Hv.
Qed.

Lemma demo_appended : exists head, CheckAppend (key:=demo_key) never demo_ref [demo_e0; demo_e1] demo_e2 = Ok head.
Proof. pose proof demo_check_append as H. unfold demo_head in H. eexists. exact H. Qed.

Lemma check_append_head_witness :
  exists head l h, CheckAppend (key:=demo_key) never demo_ref [demo_e0; demo_e1] demo_e2 = Ok head /\
    verified_stream None l h /\ Seq head = 2 /\ OperationalThumb (State head) = st_thumb h.
Proof.
  destruct demo_appended as [head H]. exists head.
  destruct (check_append_head never demo_ref [demo_e0; demo_e1] demo_e2 head H) as (l & h & Hs & _ & Hq & _ & _ & _ & Ht & _).
  exists l, h. exact (conj H (conj Hs (conj Hq Ht))).
Defined.

Lemma check_append_agrees_with_timeline_witness :
  exists head events d, CheckAppend (key:=demo_key) never demo_ref [demo_e0; demo_e1] demo_e2 = Ok head /\
    forall at_, Forall (fun e => Timestamp e <= at_) events ->
    exists s, SnapshotAt (Some (NewDomainLog d events)) at_ = Ok s /\
      ActiveKeyThumbprint s = OperationalThumb (State head).
Proof.
  destruct demo_appended as [head H].
  destruct (check_append_agrees_with_timeline never demo_ref [demo_e0; demo_e1] demo_e2 head demo_thumbprints H) as (l & d & _ & _ & Hl).
  exists head, l, d. split; [exact H|]. intros at_ Hat. destruct (Hl at_ Hat) as (s & Es & Ht & _). exists s. exact (conj Es Ht).
Defined.
