(* ===== verification/ClientDemo.v ===== *)
(** * ClientDemo: a concrete log and a client that reads it

    The three entries of Demo.v in one log with one witness, and a client over
    a source that supplies them: the inputs of the theorems about the client. *)

From Stdlib Require Import ZArith Lia Ascii String.
From S2P Require Import Prelude Codec Utf8 Numbers Jcs JcsSpec Keys Fqdn Lifecycle LogReader Merkle Evidence Reference Policy Checkpoint Scan Event EventSpec Replay ReplaySpec AppendSpec Client Reader ReaderSpec Demo.

Open Scope Z_scope.

Definition log_entries : list string := [demo_e0; demo_e1; demo_e2].
Definition log_hashes : list string := Eval vm_compute in @RecordHash rfc6962_tlog <$> log_entries.
Definition log_checkpoint : Checkpoint := Eval vm_compute in
  {| CpOrigin := "log.example"; CpSize := 3; CpHash := @merkleRoot rfc6962_tlog log_entries |}.
(** The audit paths, named by their leaf. *)
Definition log_proof (i : Z) : TLogProof :=
  let h k := default EmptyString (log_hashes !! k) in
  {| PfIndex := i; PfCheckpoint := "cp";
     PfHashes := if i =? 0 then [h 1%nat; h 2%nat] else if i =? 1 then [h 0%nat; h 2%nat]
                 else [@NodeHash rfc6962_tlog (h 0%nat) (h 1%nat)] |}.
Definition log_witness : NoteSig := {| SigName := "w1"; SigHash := 0; SigBase64 := "4000" |}.

Definition log_notes : NoteLib :=
  {| NewVerifier := demo_verifier; NewVerifierForCosignatureV1 := demo_verifier;
     CoSigV1Timestamp sig := n ← parse_uint 63 (SigBase64 sig); Some (unix_time (Z.of_N n));
     ParseCheckpoint _ origin _ _ :=
       if str_eqb origin "log.example" then Ok (log_checkpoint, [log_witness]) else Err (PlainError "unknown origin");
     UnmarshalProof raw := match parse_uint 63 raw with Some n => Ok (log_proof (Z.of_N n)) | None => Err (PlainError "proof") end;
     CheckRecord := demo_check_record |}.
#[local] Existing Instance log_notes.
#[local] Existing Instance rfc6962_tlog.
#[local] Existing Instance demo_lib.

Definition log_policy : Policy :=
  {| LogVerifier := demo_verifier "log.example+0+AQID";
     WitnessVerifiers := option_list (demo_verifier "w1+0+BAQE"); WitnessQuorum := 1; CheckpointTime := None;
     Now _ := unix_time 4001; MaxCheckpointAge := 3600 * second; ClockSkew := 0; quorumRule := None;
     trustedPublicKeys := []; skipProofVerify := false |}.

Definition log_proven : list ProvenEntry :=
  [{| pe_Index := 0; Entry := demo_e0; Proof_ := "0" |}; {| pe_Index := 1; Entry := demo_e1; Proof_ := "1" |};
   {| pe_Index := 2; Entry := demo_e2; Proof_ := "2" |}].
Definition log_complete : CompleteHistoryResult :=
  {| Entries := log_proven; ch_Checkpoint := "cp"; ch_CompleteThrough := 3; ch_CompletenessMode := "scan";
     ch_FreshnessTime := unix_time 4000 |}.

(** A client whose source supplies the first [n] entries, or the whole log. *)
Definition log_client (n : nat) : Client (key:=demo_key) :=
  {| client_ref := demo_ref; client_policy := log_policy; store_configured := false; verifyMigration := None;
     migrationLimits := defaultMigrationVerificationLimits; trustedScope := ""; trustedLogPrefix := ""; preloaded := None;
     source_configured := true; source_ReadEvent _ := Err (PlainError "unused");
     source_RebuildHistory _ := Ok (take n log_proven);
     source_RebuildCompleteHistory := Some (fun _ => Ok log_complete);
     GlobalCandidates := true; migration_json_size _ := Ok 0 |}.
Definition log_call (at_ : time) : call :=
  {| proof_clock _ _ := unix_time 4001; checkpoint_clock _ := unix_time 4001; now := at_; done_entry _ := false;
     done_replay _ := false; done_end := false; preload_live := false; expiry_clock _ := 0; path := None; adv := demo_env |}.

Definition log_domain : string := "agent.example.com".
Definition log_at : time := Eval vm_compute in time_Unix 2500.

Definition log_answer := Eval vm_compute in VerifyNonRevocation (log_client 3) (log_call log_at) None log_domain log_at.
Definition log_evidence : option LoggedStateEvidence := Eval vm_compute in match log_answer with (Ok e, _) => Some e | _ => None end.
Lemma log_answered : exists ev s', VerifyNonRevocation (log_client 3) (log_call log_at) None log_domain log_at = (Ok ev, s').
Proof. do 2 eexists. vm_compute. reflexivity. Qed.

Definition log_history := Eval vm_compute in
  match verifyHistoryEntries (log_client 3) (log_call log_at) None log_domain log_proven None with
  | (Ok (accepted, events), _) => (accepted, events) | _ => ([], []) end.
Lemma log_history_verified :
  verifyHistoryEntries (log_client 3) (log_call log_at) None log_domain log_proven None
  = (Ok (log_history.1, log_history.2), None).
Proof. vm_compute. reflexivity. Qed.

(** The binding of the demo record to the rotated key, over the first two
    entries. *)
Definition log_input : BilateralBindingInput (key:=demo_key) :=
  {| in_Domain := log_domain; in_GovernanceID := "operator.example"; in_EntityKey := Some demo_entity; in_OperationalKey := Some demo_ku2 |}.
Definition log_current : string := Eval vm_compute in thumb_of demo_ku2.
Lemma log_bound : exists b s', VerifyLifecycleBinding (log_client 2) (log_call log_at) None log_input log_current = (Ok b, s').
Proof. do 2 eexists. vm_compute. reflexivity. Qed.

(** ** Witnesses *)
Lemma verified_history_is_authentic_witness :
  (exists h, verified_stream (migration_verifier (log_client 3) (log_call log_at)) log_history.1 h) /\
  ascending v_index log_history.1 /\ List.length log_history.1 = 3%nat.
Proof.
  destruct (verified_history_is_authentic (log_client 3) (log_call log_at) None log_domain log_proven None
    log_history.1 log_history.2 None eq_refl log_history_verified) as (H1 & H2 & _).
  exact (conj H1 (conj H2 eq_refl)).
Defined.

Lemma non_revocation_overlooks_nothing_witness :
  exists ev s', VerifyNonRevocation (log_client 3) (log_call log_at) None log_domain log_at = (Ok ev, s') /\
    LoggedState ev = Some AgentStateActive.
Proof.
  destruct log_answered as (ev & s' & H). exists ev, s'.
  destruct (non_revocation_overlooks_nothing (log_client 3) (log_call log_at) None log_domain log_at ev s' eq_refl H)
    as (_ & _ & _ & _ & _ & _ & _ & _ & _ & _ & _ & _ & Hs & _).
  exact (conj H Hs).
Defined.

Lemma lifecycle_binding_is_a_rotation_path_witness :
  exists b s' (g : LogEvent demo_key) (rest : list (LogEvent demo_key)), VerifyLifecycleBinding (log_client 2) (log_call log_at) None log_input log_current = (Ok b, s') /\
    Type_ g = LogEventIssuance /\ rotation_path (InitialOperationalThumbprint g) (rotations rest) log_current.
Proof.
  destruct log_bound as (b & s' & H).
  destruct (lifecycle_binding_is_a_rotation_path (log_client 2) (log_call log_at) None log_input log_current b s' eq_refl H)
    as (_ & _ & g & rest & _ & _ & _ & _ & _ & _ & Hg & _ & _ & _ & _ & _ & _ & Hp & _).
  exists b, s', g, rest. exact (conj H (conj Hg Hp)).
Defined.

(** Two nested migrations under a maximum depth of two. *)
Definition migration_to (previous : string) : LogEvent demo_key :=
  let e := bare_event LogEventMigration 1000 in
  {| Type_ := Type_ e; InitialEntityKid := ""; InitialEntityPublicKey := None; InitialEntityThumbprint := "";
     InitialEntitySignature := ""; InitialOperationalKid := ""; InitialOperationalPublicKey := None;
     InitialOperationalThumbprint := ""; InitialOperationalSignature := ""; PreviousOperationalKid := "";
     PreviousOperationalThumbprint := ""; PreviousOperationalSignature := ""; NewOperationalKid := "";
     NewOperationalPublicKey := None; NewOperationalThumbprint := ""; NewOperationalSignature := "";
     Lifecycle.Domain := Lifecycle.Domain e; Timestamp := Timestamp e; GovernanceID := ""; Reason := "";
     PreviousLog := previous; NewLog := ""; FinalEntryRef := ""; Delegatee := ""; Lifecycle.Scope := "";
     Lifecycle.Expiry := 0 |}.
Definition two_deep : MigrationVerificationLimits := {| MaxDepth := 2; MaxHistoryEvents := 0; MaxResponseBytes := 0 |}.
Definition path_after (previous root : string) (p : option migrationPath) : migrationPath :=
  match enterMigration p (migration_to previous) root two_deep with
  | Ok (p, _) => p
  | Err _ => {| nextLog := ""; depth := 0; path_seen := ∅; path_limits := two_deep |}
  end.
Definition demo_path1 : migrationPath := path_after "b" "a" None.
Definition demo_path2 : migrationPath := path_after "c" "b" (Some demo_path1).

Lemma migrations_are_bounded_witness : depth demo_path2 = 2 /\ size (path_seen demo_path2) = 3%nat.
Proof.
  assert (E1 : enterMigration None (migration_to "b") "a" two_deep = Ok (demo_path1, path_limits demo_path1)) by reflexivity.
  assert (E2 : enterMigration (Some demo_path1) (migration_to "c") "b" two_deep = Ok (demo_path2, path_limits demo_path2))
    by (vm_compute; reflexivity).
  pose proof (migrating_next two_deep "a" 1 demo_path1 (migration_to "c") "b" two_deep demo_path2 (path_limits demo_path2)
    (migrating_first two_deep "a" (migration_to "b") demo_path1 (path_limits demo_path1) E1) E2) as Hm.
  destruct (migrations_are_bounded two_deep "a" 2 demo_path2 Hm) as (H1 & _ & H3 & _).
  exact (conj H1 H3).
Defined.
