(* ===== verification/KeyRing.v ===== *)
(** * KeyRing: the local key provider of keyprovider.go

    [LocalKeyProvider] keeps named signing keys in the states pending, active
    and retained, and mirrors them in one key-store file. The file system is
    explicit ([disk], with one fault per system call), so the atomic
    replacement of the file, the rollback of a failed update and the
    durability error that is not rolled back are all visible. Keys are
    lestrrat-go/jwx values behind [KeyOps] and [JwkLib]; JSON documents are
    taken at the level of values (file Json). *)

From Stdlib Require Import ZArith Lia Ascii String.
From S2P Require Import Prelude Codec Json Keys.

Open Scope Z_scope.

(** ** The file system: what each file holds *)
Abbreviation disk := (gmap string content).

(** The errors of package os the sources tell apart. *)
Inductive os_error := ErrNotExist | ErrExist | ErrOther.
#[export] Instance os_error_eq_dec : EqDecision os_error.
Proof. solve_decision. Defined.
Definition os_err (e : os_error) : error :=
  PlainError match e with
             | ErrNotExist => "file does not exist" | ErrExist => "file already exists"
             | ErrOther => "input/output error" end.

(** [errors.Is] against an error compared by identity. *)
Definition errors_Is (e target : error) : bool :=
  existsb (fun e' => bool_decide (e' = target)) (error_chain e).

(** The outcome of each system call of an update; [None] is success. [io_tmp]
    is the name [os.CreateTemp] picks. *)
Record io := {
  io_tmp : string;
  io_CreateTemp : option os_error;
  io_Chmod : option os_error;
  io_Write : option os_error;
  io_Sync : option os_error;
  io_Close : option os_error;
  io_Rename : option os_error;
  io_OpenDir : option os_error;
  io_SyncDir : option os_error;
  io_CloseDir : option os_error
}.

(** [os.ReadFile]. *)
Definition ReadFile (d : disk) (path : string) (fault : option os_error) : os_error + content :=
  match fault with
  | Some e => inl e
  | None => match d !! path with Some c => inr c | None => inl ErrNotExist end
  end.

Definition ErrKeyStoreDurability : error :=
  PlainError "dnsid: key store published but durability uncertain".

(** [errors.Join] of two possibly nil errors. *)
Definition errors_Join (a b : option os_error) : option error :=
  match a, b with
  | None, None => None
  | Some a, None => Some (os_err a)
  | None, Some b => Some (os_err b)
  | Some a, Some b => Some (WithCause (os_err a) (os_err b))
  end.

Definition syncKeyDirectory (w : io) : option error :=
  let err := match io_OpenDir w with
             | None => errors_Join (io_SyncDir w) (io_CloseDir w)
             | Some e => Some (os_err e)
             end in
  match err with
  | Some e => Some (WithCause ErrKeyStoreDurability e)
  | None => None
  end.

(** Every early return runs the deferred [os.Remove(tmp)]. *)
Definition writeFileAtomic (d : disk) (path : string) (data : json) (w : io)
    : disk * option error :=
  match io_CreateTemp w with
  | Some e => (d, Some (os_err e))
  | None =>
      let tmp := io_tmp w in
      let d := <[tmp := Torn]> d in
      match io_Chmod w with
      | Some e => (delete tmp d, Some (os_err e))
      | None =>
          match io_Write w with
          | Some e => (delete tmp (<[tmp := Torn]> d), Some (os_err e))
          | None =>
              let d := <[tmp := Doc data]> d in
              match io_Sync w with
              | Some e => (delete tmp d, Some (os_err e))
              | None =>
                  match io_Close w with
                  | Some e => (delete tmp d, Some (os_err e))
                  | None =>
                      match io_Rename w with
                      | Some e => (delete tmp d, Some (os_err e))
                      | None =>
                          let d := <[path := Doc data]> (delete tmp d) in
                          (delete tmp d, syncKeyDirectory w)
                      end
                  end
              end
          end
      end
  end.

(** ** Algorithms (alg.go) *)
Definition JoseAlg := string.
Definition JoseAlgEdDSA : JoseAlg := "EdDSA".
Definition JoseAlgES256 : JoseAlg := "ES256".
Definition alg_Valid (a : JoseAlg) : bool := str_eqb a JoseAlgEdDSA || str_eqb a JoseAlgES256.
(** [jwa()]: the jwx algorithm, named by its string. *)
Definition alg_jwa (a : JoseAlg) : option string :=
  if str_eqb a JoseAlgEdDSA then Some "EdDSA"
  else if str_eqb a JoseAlgES256 then Some "ES256" else None.

(** ** Signers and the third-party JWK operations *)

(** [crypto.PublicKey] and [crypto.Signer] values the sources distinguish; an
    ECDSA key is named by its encoding. *)
Inductive PublicKey :=
| Ed25519Public (pub : string)
| ECDSAPublic (pub : string)
| OtherPublic.
Inductive Signer :=
| Ed25519Private (priv : string)
| ECDSAPrivate (priv : string)
| OtherSigner (pub : PublicKey).
#[export] Instance PublicKey_eq_dec : EqDecision PublicKey.
Proof. solve_decision. Defined.
#[export] Instance Signer_eq_dec : EqDecision Signer.
Proof. solve_decision. Defined.

(** The operations of jwx/v3 and of the Go crypto packages. A [jwk.Key] is a
    value here: each key the sources mutate with [Set] is one they created. *)
Class JwkLib (key : Type) := {
  jwk_ParseKey : json -> option key;
  is_OKPPrivateKey : key -> bool;             (* parsed.(jwk.OKPPrivateKey) *)
  is_ECDSAPrivateKey : key -> bool;           (* parsed.(jwk.ECDSAPrivateKey) *)
  Export_ed25519 : key -> option string;      (* jwk.Export to ed25519.PrivateKey *)
  Export_ecdsa : key -> option string;        (* jwk.Export to ecdsa.PrivateKey *)
  Import_public : PublicKey -> option key;    (* jwk.Import *)
  Import_private : Signer -> option key;      (* jwk.Import *)
  Set_kid : string -> key -> option key;      (* key.Set(jwk.KeyIDKey, _) *)
  Set_alg : string -> key -> option key;      (* key.Set(jwk.AlgorithmKey, _) *)
  Set_use : string -> key -> option key;      (* key.Set(jwk.KeyUsageKey, _) *)
  Marshal_key : key -> option json;           (* json.Marshal(key) *)
  ed25519_NewKeyFromSeed : string -> string;
  ed25519_Sign : string -> string -> string;
  ecdsa_Public : string -> string;            (* priv.Public() *)
  p256_private_valid : string -> bool;        (* priv.Bytes() of a P-256 key *)
  ecdsa_SignASN1 : string -> string -> option string; (* priv.Sign(nil, _, SHA256) *)
  asn1_Unmarshal : string -> option (Z * Z * string);
  Signer_Sign : Signer -> string -> option string     (* signer.Sign(rand, _, Hash(0)) *)
}.

Section keyring.
Context {key : Type} `{!KeyOps key} `{!JwkLib key}.

(** [signer.Public()]: an Ed25519 private key ends with its public key. *)
Definition Signer_Public (s : Signer) : PublicKey :=
  match s with
  | Ed25519Private priv => Ed25519Public (str_drop 32 priv)
  | ECDSAPrivate priv => ECDSAPublic (ecdsa_Public priv)
  | OtherSigner pub => pub
  end.

Definition ValidateP256PrivateKey (priv : string) : bool :=
  p256_private_valid priv && p256_valid (ecdsa_Public priv).

Definition SignES256 (priv payload : string) : res string :=
  fail_if negb (ValidateP256PrivateKey priv) with PlainError "invalid P-256 key" ;;
  match ecdsa_SignASN1 priv (sha256 payload) with
  | None => Err (PlainError "ecdsa: signing failed")
  | Some der => Cryptoutil.ES256RawFromDER asn1_Unmarshal der
  end.

Definition joseAlgForPublicKey (pub : PublicKey) : res JoseAlg :=
  match pub with
  | Ed25519Public p =>
      fail_if negb (String.length p =? 32)%nat
        with PlainError "dnsid: invalid Ed25519 public key size" ;; Ok JoseAlgEdDSA
  | ECDSAPublic p =>
      fail_if negb (p256_valid p) with
        WithCause (PlainError "dnsid: invalid ES256 public key") (PlainError "invalid P-256 key") ;;
      Ok JoseAlgES256
  | OtherPublic => Err (PlainError "dnsid: unsupported public key type")
  end.

(** [if err := key.Set(...); err != nil]. *)
Definition set_or (k : option key) (msg : string) : res key :=
  match k with Some k => Ok k | None => Err (PlainError msg) end.

Definition publicJWKForSignerWithKid (s : Signer) (alg : JoseAlg) (kid : string)
    : res (key * string) :=
  k ← set_or (Import_public (Signer_Public s)) "dnsid: importing public key to JWK";
  match alg_jwa alg with
  | None => Err (PlainError "dnsid: unsupported JOSE alg")
  | Some jwaAlg =>
      k ← set_or (Set_kid kid k) "dnsid: setting kid";
      k ← set_or (Set_alg jwaAlg k) "dnsid: setting alg";
      k ← set_or (Set_use "sig" k) "dnsid: setting use";
      Ok (k, kid)
  end.

Definition publicJWKForSigner (s : Signer) (alg : JoseAlg) : res (key * string) :=
  k ← set_or (Import_public (Signer_Public s)) "dnsid: importing public key to JWK";
  match thumbprint_sum k with
  | None => Err (PlainError "dnsid: computing JWK thumbprint")
  | Some thumb => publicJWKForSignerWithKid s alg (Base64.encode thumb)
  end.

Definition privateJWKForSigner (s : Signer) (alg : JoseAlg) (kid : string) : res key :=
  k ← set_or (Import_private s) "dnsid: importing private key to JWK";
  kid ← (if is_empty kid then '(_, computed) ← publicJWKForSigner s alg; Ok computed
         else Ok kid);
  match alg_jwa alg with
  | None => Err (PlainError "dnsid: unsupported JOSE alg")
  | Some jwaAlg =>
      k ← set_or (Set_kid kid k) "dnsid: setting kid";
      k ← set_or (Set_alg jwaAlg k) "dnsid: setting alg";
      set_or (Set_use "sig" k) "dnsid: setting use"
  end.

Definition rawJWK (k : key) : res json :=
  match Marshal_key k with
  | Some j => Ok j
  | None => Err (PlainError "dnsid: marshaling JWK")
  end.

(** ** Entries and the provider *)
Inductive localKeyState := localKeyPending | localKeyActive | localKeyRetained.
#[export] Instance localKeyState_eq_dec : EqDecision localKeyState.
Proof. solve_decision. Defined.

Record localKeyEntry := Entry {
  kid : string;
  alg : JoseAlg;
  signer : Signer;
  state : localKeyState
}.
#[export] Instance localKeyEntry_eq_dec : EqDecision localKeyEntry.
Proof. solve_decision. Defined.

Definition set_state (st : localKeyState) (e : localKeyEntry) : localKeyEntry :=
  Entry (kid e) (alg e) (signer e) st.

(** [keys] maps a kid to the entry its pointer refers to: an assignment
    through [p.keys[k]] is [alter] at [k]. *)
Record LocalKeyProvider := Provider {
  keys : gmap string localKeyEntry;
  order : list string;
  activeKid : string;
  path : string
}.

Definition emptyProvider (pth : string) : LocalKeyProvider := Provider ∅ [] "" pth.

Definition newLocalKeyEntry (s : Signer) (st : localKeyState) : res localKeyEntry :=
  a ← joseAlgForPublicKey (Signer_Public s);
  '(_, k) ← publicJWKForSigner s a;
  Ok (Entry k a s st).

(** [rng] is what the random source yields: an Ed25519 seed or a P-256
    private key, [None] when generation fails. *)
Definition generateSigner (a : JoseAlg) (rng : option string) : res Signer :=
  if str_eqb a JoseAlgEdDSA then
    match rng with
    | None => Err (PlainError "dnsid: generating Ed25519 key")
    | Some seed => Ok (Ed25519Private (ed25519_NewKeyFromSeed seed))
    end
  else if str_eqb a JoseAlgES256 then
    match rng with
    | None => Err (PlainError "dnsid: generating P-256 key")
    | Some priv => Ok (ECDSAPrivate priv)
    end
  else Err (PlainError "dnsid: unsupported JOSE alg").

Definition jwk_signer (parsed : key) : res Signer :=
  match key_type parsed with
  | OKP =>
      fail_if negb (is_OKPPrivateKey parsed)
        with ValidationError "dnsid: key must be Ed25519 private key (OKP/crv=Ed25519)" ;;
      fail_if negb (bool_decide (key_crv parsed = Some Ed25519))
        with ValidationError "dnsid: key must be Ed25519 (OKP/crv=Ed25519)" ;;
      match Export_ed25519 parsed with
      | None => Err (PlainError "dnsid: extracting Ed25519 private key")
      | Some priv => Ok (Ed25519Private priv)
      end
  | EC =>
      fail_if negb (is_ECDSAPrivateKey parsed)
        with ValidationError "dnsid: key must be EC private key (crv=P-256)" ;;
      fail_if negb (bool_decide (key_crv parsed = Some P256))
        with ValidationError "dnsid: key must be ES256 (EC/crv=P-256)" ;;
      match Export_ecdsa parsed with
      | None => Err (PlainError "dnsid: extracting P-256 private key")
      | Some priv => Ok (ECDSAPrivate priv)
      end
  | OtherKeyType => Err (ValidationError "dnsid: unsupported key type")
  end.

Definition localKeyEntryFromJWK (data : content) (st : localKeyState) : res localKeyEntry :=
  match data with
  | Torn => Err (WithCause (ParseError "dnsid: parsing JWK") (PlainError "jwk.ParseKey"))
  | Doc j =>
      match jwk_ParseKey j with
      | None => Err (WithCause (ParseError "dnsid: parsing JWK") (PlainError "jwk.ParseKey"))
      | Some parsed =>
          s ← jwk_signer parsed;
          e ← newLocalKeyEntry s st;
          match key_id parsed with
          | Some k => if is_empty k then Ok e else Ok (Entry k (alg e) (signer e) (state e))
          | None => Ok e
          end
      end
  end.

Definition addEntry (p : LocalKeyProvider) (e : localKeyEntry) : LocalKeyProvider :=
  Provider (<[kid e := e]> (keys p)) (order p ++ [kid e])
    (if bool_decide (state e = localKeyActive) then kid e else activeKid p) (path p).

Definition addKeyJSON (p : LocalKeyProvider) (data : content) (st : localKeyState)
    : res LocalKeyProvider :=
  e ← localKeyEntryFromJWK data st;
  match keys p !! kid e with
  | Some _ => Err (ValidationError "dnsid: duplicate kid in key store")
  | None => Ok (addEntry p e)
  end.

(** One [for _, raw := range] loop of [NewLocalKeyProvider]. *)
Fixpoint add_raws (p : LocalKeyProvider) (raws : list json) (st : localKeyState) (msg : string)
    : res LocalKeyProvider :=
  match raws with
  | [] => Ok p
  | raw :: raws =>
      match addKeyJSON p (Doc raw) st with
      | Err e => Err (WithCause (ParseError msg) e)
      | Ok p => add_raws p raws st msg
      end
  end.

Record localKeyStoreFile := StoreFile {
  Active : option json;
  Retained : list json;
  Pending : list json
}.

(** [json.Unmarshal(data, &store)]: fields match case-insensitively, the last
    one wins, unknown fields are ignored. [None] is a non-nil error. *)
Definition unmarshal_field (s : option localKeyStoreFile) (f : string * json)
    : option localKeyStoreFile :=
  s ← s;
  if field_match f.1 "active" then Some (StoreFile (Some f.2) (Retained s) (Pending s))
  else if field_match f.1 "retained" then
    l ← raw_slice f.2; Some (StoreFile (Active s) l (Pending s))
  else if field_match f.1 "pending" then
    l ← raw_slice f.2; Some (StoreFile (Active s) (Retained s) l)
  else Some s.
Definition unmarshal_store (data : content) : option localKeyStoreFile :=
  match data with
  | Doc JNull => Some (StoreFile None [] [])
  | Doc (JObject fields) => fold_left unmarshal_field fields (Some (StoreFile None [] []))
  | _ => None
  end.

(** [json.MarshalIndent(store, ...)]: a nil [Active] is written as null. *)
Definition marshal_store (s : localKeyStoreFile) : json :=
  JObject [("active"%string, default JNull (Active s)); ("retained"%string, JArray (Retained s));
           ("pending"%string, JArray (Pending s))].

Definition NewLocalKeyProvider (d : disk) (pth : string) (fault : option os_error)
    : res LocalKeyProvider :=
  match ReadFile d pth fault with
  | inl e => Err (WithCause (ParseError "dnsid: reading key file") (os_err e))
  | inr data =>
      let kp := emptyProvider pth in
      match unmarshal_store data with
      | Some (StoreFile (Some active) retained pending) =>
          match addKeyJSON kp (Doc active) localKeyActive with
          | Err e => Err (WithCause (ParseError "dnsid: parsing active key") e)
          | Ok kp =>
              kp ← add_raws kp retained localKeyRetained "dnsid: parsing retained key";
              add_raws kp pending localKeyPending "dnsid: parsing pending key"
          end
      | _ =>
          match addKeyJSON kp data localKeyActive with
          | Err e => Err (WithCause (ParseError "dnsid: parsing key file") e)
          | Ok kp => Ok kp
          end
      end
  end.

Definition privateJWKForEntry (e : localKeyEntry) : res key :=
  privateJWKForSigner (signer e) (alg e) (kid e).
End keyring.

(** ** Operations *)
Section operations.
Context {key : Type} `{!KeyOps key} `{!JwkLib key}.

(** The loop of [persistLocked] over [p.order]. *)
Fixpoint persist_entries (p : LocalKeyProvider) (kids : list string) (s : localKeyStoreFile)
    : res localKeyStoreFile :=
  match kids with
  | [] => Ok s
  | k :: kids =>
      match keys p !! k with
      | None => persist_entries p kids s
      | Some e =>
          pk ← privateJWKForEntry e;
          raw ← rawJWK pk;
          persist_entries p kids
            match state e with
            | localKeyActive => StoreFile (Some raw) (Retained s) (Pending s)
            | localKeyRetained => StoreFile (Active s) (Retained s ++ [raw]) (Pending s)
            | localKeyPending => StoreFile (Active s) (Retained s) (Pending s ++ [raw])
            end
      end
  end.

(** [persistLocked]; an error is [Some]. *)
Definition persistLocked (p : LocalKeyProvider) (d : disk) (w : io) : disk * option error :=
  if is_empty (path p) then (d, None)
  else match persist_entries p (order p) (StoreFile None [] []) with
       | Err e => (d, Some e)
       | Ok s => writeFileAtomic d (path p) (marshal_store s) w
       end.

(** [(string, error)]: the kid is returned beside a durability error. *)
Definition GenerateKey (a : JoseAlg) (rng : option string) (w : io)
    (p : LocalKeyProvider) (d : disk) : LocalKeyProvider * disk * (string * option error) :=
  if negb (alg_Valid a) then
    (p, d, (EmptyString, Some (ArgumentError "dnsid: unsupported JOSE alg")))
  else match s ← generateSigner a rng; newLocalKeyEntry s localKeyPending with
  | Err e => (p, d, (EmptyString, Some e))
  | Ok e =>
      match keys p !! kid e with
      | Some _ => (p, d, (EmptyString, Some (PlainError "dnsid: generated duplicate kid")))
      | None =>
          let p1 := Provider (<[kid e := e]> (keys p)) (order p ++ [kid e])
                      (activeKid p) (path p) in
          match persistLocked p1 d w with
          | (d, None) => (p1, d, (kid e, None))
          | (d, Some err) =>
              if errors_Is err ErrKeyStoreDurability then (p1, d, (kid e, Some err))
              else (Provider (delete (kid e) (keys p1)) (removelast (order p1))
                      (activeKid p1) (path p1), d, (EmptyString, Some err))
          end
      end
  end.

(** [entry.state = st] through the pointer stored at [k]. *)
Definition assign_state (k : string) (st : localKeyState) (m : gmap string localKeyEntry)
    : gmap string localKeyEntry := alter (set_state st) k m.

Definition Activate (k : string) (w : io) (p : LocalKeyProvider) (d : disk)
    : LocalKeyProvider * disk * option error :=
  match keys p !! k with
  | None => (p, d, Some (ArgumentError "dnsid: unknown kid"))
  | Some entry =>
      if str_eqb (activeKid p) k then
        let '(d, err) := persistLocked p d w in (p, d, err)
      else
        let oldActiveKid := activeKid p in
        let oldState := state entry in
        let current := keys p !! activeKid p in
        let set_current st m := match current with
                                | Some _ => assign_state oldActiveKid st m | None => m end in
        let p1 := Provider (assign_state k localKeyActive
                              (set_current localKeyRetained (keys p)))
                    (order p) k (path p) in
        match persistLocked p1 d w with
        | (d, None) => (p1, d, None)
        | (d, Some err) =>
            if errors_Is err ErrKeyStoreDurability then (p1, d, Some err)
            else (Provider (assign_state k oldState (set_current localKeyActive (keys p1)))
                    (order p1) oldActiveKid (path p1), d, Some err)
        end
  end.

(** [append(p.order[:i], p.order[i+1:]...)] at the first [i] with the kid. *)
Fixpoint remove_kid (k : string) (l : list string) : list string :=
  match l with
  | [] => []
  | id :: l => if str_eqb id k then l else id :: remove_kid k l
  end.

Definition Purge (k : string) (w : io) (p : LocalKeyProvider) (d : disk)
    : LocalKeyProvider * disk * option error :=
  match keys p !! k with
  | None => (p, d, Some (ArgumentError "dnsid: unknown kid"))
  | Some entry =>
      if bool_decide (state entry = localKeyActive) then
        (p, d, Some (ArgumentError "dnsid: cannot purge active key"))
      else
        let oldOrder := order p in
        let p1 := Provider (delete k (keys p)) (remove_kid k (order p)) (activeKid p) (path p) in
        match persistLocked p1 d w with
        | (d, None) => (p1, d, None)
        | (d, Some err) =>
            if errors_Is err ErrKeyStoreDurability then (p1, d, Some err)
            else (Provider (<[k := entry]> (keys p1)) oldOrder (activeKid p1) (path p1),
                  d, Some err)
        end
  end.

(** [Supersede] looks the key up under the read lock, releases it and calls
    [Purge]: [p0] is the provider at the lookup, [p] the one [Purge] locks. *)
Definition Supersede (k : string) (w : io) (p0 p : LocalKeyProvider) (d : disk)
    : LocalKeyProvider * disk * option error :=
  match keys p0 !! k with
  | Some entry =>
      if bool_decide (state entry = localKeyRetained) then Purge k w p d
      else (p, d, Some (ArgumentError "dnsid: no retained key"))
  | None => (p, d, Some (ArgumentError "dnsid: no retained key"))
  end.

(** [JWK(kid ...string)]. *)
Definition JWK (p : LocalKeyProvider) (kidOpt : list string) : option key :=
  let selected := match kidOpt with k :: _ => k | [] => activeKid p end in
  match keys p !! selected with
  | None => None
  | Some e =>
      match publicJWKForSignerWithKid (signer e) (alg e) (kid e) with
      | Ok (k, keyID) => if str_eqb keyID (kid e) then Some k else None
      | Err _ => None
      end
  end.

Definition is_retained (p : LocalKeyProvider) (k : string) : bool :=
  match keys p !! k with
  | Some e => bool_decide (state e = localKeyRetained)
  | None => false
  end.
Definition ListKeyIds (p : LocalKeyProvider) : list string :=
  (if is_empty (activeKid p) then [] else [activeKid p]) ++
  base.filter (is_retained p) (order p).

Record KeySignature := Sig { Kid : string; Alg : JoseAlg; Signature : string }.

Definition is_ecdsa (s : Signer) : bool :=
  match s with ECDSAPrivate _ => true | _ => false end.

(** The [switch alg] of [SignKey]. *)
Definition sign_with (a : JoseAlg) (s : Signer) (payload : string) : res string :=
  if str_eqb a JoseAlgEdDSA then
    match s with
    | Ed25519Private priv => Ok (ed25519_Sign priv payload)
    | _ => match Signer_Sign s payload with
           | Some sig => Ok sig
           | None => Err (PlainError "signer.Sign")
           end
    end
  else if str_eqb a JoseAlgES256 then
    match s with
    | ECDSAPrivate priv => SignES256 priv payload
    | _ => Err (ArgumentError "dnsid: ES256 signing requires *ecdsa.PrivateKey")
    end
  else Err (ArgumentError "dnsid: unsupported signing alg").

(** An ES256 entry without an ECDSA key returns its error directly; every
    other failure is wrapped. *)
Definition SignKey (p : LocalKeyProvider) (k payload : string) : res KeySignature :=
  let not_signing := Err (ArgumentError "dnsid: key is not active or pending for signing") in
  match keys p !! k with
  | None => not_signing
  | Some e =>
      if bool_decide (state e ≠ localKeyActive) && bool_decide (state e ≠ localKeyPending)
      then not_signing
      else if str_eqb (alg e) JoseAlgES256 && negb (is_ecdsa (signer e)) then
        Err (ArgumentError "dnsid: ES256 signing requires *ecdsa.PrivateKey")
      else match sign_with (alg e) (signer e) payload with
           | Ok sig => Ok (Sig k (alg e) sig)
           | Err err => Err (WithCause (PlainError "dnsid: key provider signing failed") err)
           end
  end.

(** [Sign] reads [activeKid] under one read lock and signs under another:
    [p0] and [p] are the provider at each. *)
Definition Sign (p0 p : LocalKeyProvider) (payload : string) : res KeySignature :=
  fail_if is_empty (activeKid p0) with ArgumentError "dnsid: no active signing key" ;;
  SignKey p (activeKid p0) payload.

(** ** Creation *)

(** The system calls of an initial creation. *)
Record create_io := {
  c_Read : option os_error;         (* the first os.ReadFile *)
  c_Open : option os_error;         (* os.OpenFile with O_EXCL *)
  c_Reread : option os_error;       (* os.ReadFile after losing the race *)
  c_Write : option os_error;
  c_Sync : option os_error;
  c_Close : option os_error;
  c_Dir : io                        (* the calls of syncKeyDirectory *)
}.

(** [f.Write], [f.Sync] and [f.Close] on the newly created file. *)
Definition create_file (d : disk) (pth : string) (data : json) (c : create_io)
    : disk * option error :=
  let d := <[pth := Torn]> d in
  let '(d, writeErr) :=
    match c_Write c with
    | Some e => (d, Some (os_err e))
    | None =>
        let d := <[pth := Doc data]> d in
        (d, match c_Sync c with Some e => Some (os_err e) | None => None end)
    end in
  match writeErr with
  | Some e => (delete pth d, Some (WithCause (PlainError "dnsid: writing key file") e))
  | None =>
      match c_Close c with
      | Some e => (delete pth d, Some (WithCause (PlainError "dnsid: closing key file") (os_err e)))
      | None => (d, syncKeyDirectory (c_Dir c))
      end
  end.

(** [loadOrCreateLocalKeyProvider]; another process may write the file
    between the first read, of [d0], and the exclusive open, on [d]. *)
Definition loadOrCreateLocalKeyProvider (pth : string) (a : JoseAlg) (rng : option string)
    (c : create_io) (d0 d : disk) : disk * res LocalKeyProvider :=
  if negb (alg_Valid a) then (d, Err (ArgumentError "dnsid: unsupported JOSE alg"))
  else match NewLocalKeyProvider d0 pth (c_Read c) with
  | Ok kp => (d, Ok kp)
  | Err err =>
      if negb (errors_Is err (os_err ErrNotExist)) then (d, Err err)
      else match s ← generateSigner a rng;
                 entry ← newLocalKeyEntry s localKeyActive;
                 k ← privateJWKForEntry entry;
                 active ← rawJWK k;
                 Ok (entry, marshal_store (StoreFile (Some active) [] [])) with
      | Err e => (d, Err e)
      | Ok (entry, data) =>
          let open_err := match c_Open c with
                          | Some e => Some e
                          | None => match d !! pth with Some _ => Some ErrExist | None => None end
                          end in
          match open_err with
          | Some ErrExist => (d, NewLocalKeyProvider d pth (c_Reread c))
          | Some e => (d, Err (WithCause (PlainError "dnsid: writing key file") (os_err e)))
          | None =>
              match create_file d pth data c with
              | (d, Some e) => (d, Err e)
              | (d, None) => (d, Ok (addEntry (emptyProvider pth) entry))
              end
          end
      end
  end.

(** [newLocalKeyProviderFromSigner] and the two ephemeral constructors; a
    failure is a panic there, an error here. *)
Definition newLocalKeyProviderFromSigner (s : Signer) (st : localKeyState)
    : res LocalKeyProvider :=
  e ← newLocalKeyEntry s st; Ok (addEntry (emptyProvider "") e).
Definition GenerateEd25519KeyProvider (rng : option string) : res LocalKeyProvider :=
  s ← generateSigner JoseAlgEdDSA rng; newLocalKeyProviderFromSigner s localKeyActive.
Definition GenerateES256KeyProvider (rng : option string) : res LocalKeyProvider :=
  s ← generateSigner JoseAlgES256 rng; newLocalKeyProviderFromSigner s localKeyActive.

Definition activeEntryLocked (p : LocalKeyProvider) : option localKeyEntry :=
  if is_empty (activeKid p) then None else keys p !! activeKid p.

(** [activeSigningKid] on a non-nil provider. *)
Definition activeSigningKid (p : LocalKeyProvider) : res string :=
  match JWK p [] with
  | None => Err (ArgumentError "dnsid: KeyProvider has no active key")
  | Some k =>
      match key_id k with
      | Some kid => fail_if is_empty kid with
          ArgumentError "dnsid: active signing key missing kid" ;; Ok kid
      | None => Err (ArgumentError "dnsid: active signing key missing kid")
      end
  end.
End operations.
