(* ===== verification/KeyRingSpec.v ===== *)
(** * KeyRingSpec: the theory of the local key provider

    The laws of the JWK library ([JwkSpec]), the invariant [WF], the abstract
    rotation protocol [rotation] that every call of the provider implements
    atomically, the agreement of memory and key file along runs, and the
    properties of creation, rotation and signing. *)

From Stdlib Require Import ZArith Lia Ascii String.
From S2P Require Import Prelude Codec Json Keys KeyRing.

Open Scope Z_scope.

(** ** What the model relies on of the JWK library *)

(** Everything a [Set] of kid, alg or use leaves alone. *)
Definition material {key} `{!KeyOps key} `{!JwkLib key} (k : key) :=
  (key_type k, key_crv k, is_OKPPrivateKey k, is_ECDSAPrivateKey k,
   Export_ed25519 k, Export_ecdsa k, export_ed25519 k, export_p256 k).

Class JwkSpec (key : Type) `{!KeyOps key} `{!JwkLib key} := {
  thumbprint_nonempty (k : key) s : thumbprint_sum k = Some s -> s <> EmptyString;
  export_is_key (k : key) p : Export_ed25519 k = Some p -> exists seed, p = ed25519_NewKeyFromSeed seed;
  marshal_parse (k : key) j : Marshal_key k = Some j -> jwk_ParseKey j = Some k;
  set_kid_spec kd (k k' : key) :
    Set_kid kd k = Some k' -> key_id k' = Some kd /\ material k' = material k;
  set_alg_spec a (k k' : key) :
    Set_alg a k = Some k' -> key_id k' = key_id k /\ material k' = material k;
  set_use_spec u (k k' : key) :
    Set_use u k = Some k' -> key_id k' = key_id k /\ material k' = material k;
  import_ed25519_spec seed (k : key) :
    Import_private (Ed25519Private (ed25519_NewKeyFromSeed seed)) = Some k ->
    key_type k = OKP /\ is_OKPPrivateKey k = true /\ key_crv k = Some Ed25519 /\
    Export_ed25519 k = Some (ed25519_NewKeyFromSeed seed);
  import_ecdsa_spec priv (k : key) :
    p256_valid (ecdsa_Public priv) = true -> Import_private (ECDSAPrivate priv) = Some k ->
    key_type k = EC /\ is_ECDSAPrivateKey k = true /\ key_crv k = Some P256 /\
    Export_ecdsa k = Some priv;
  import_public_spec pub (k : key) :
    Import_public pub = Some k ->
    match pub with
    | Ed25519Public p => export_ed25519 k = Some p
    | ECDSAPublic p => export_p256 k = Some p
    | OtherPublic => True
    end
}.

(** ** Invariants *)
Section invariants.
Context {key : Type} `{!KeyOps key} `{!JwkLib key} `{!JwkSpec key}.

(** A signer this code builds: generated, or exported from a JWK. *)
Definition genuine (s : Signer) : Prop :=
  match s with
  | Ed25519Private p => exists seed, p = ed25519_NewKeyFromSeed seed
  | ECDSAPrivate p => p256_valid (ecdsa_Public p) = true
  | OtherSigner _ => False
  end.

Definition entry_ok (e : localKeyEntry) : Prop :=
  kid e <> EmptyString /\ genuine (signer e) /\
  exists k0, forall st, newLocalKeyEntry (signer e) st = Ok (Entry k0 (alg e) (signer e) st).

(** The well-formed providers: [order] lists the kids once each, entries sit
    under their own kid, and exactly one entry, [activeKid], is active. *)
Record WF (p : LocalKeyProvider) : Prop := {
  wf_nodup : NoDup (order p);
  wf_dom k : k ∈ order p <-> is_Some (keys p !! k);
  wf_entry k e : keys p !! k = Some e -> kid e = k /\ entry_ok e;
  wf_active : exists e, keys p !! activeKid p = Some e /\ state e = localKeyActive;
  wf_unique k e : keys p !! k = Some e -> state e = localKeyActive -> k = activeKid p
}.

Lemma wf_active_nonempty p : WF p -> activeKid p <> EmptyString.
Proof.
  intros Hp. destruct (wf_active p Hp) as (e & He & _).
  destruct (wf_entry p Hp _ _ He) as [<- [Hk _]]. exact Hk.
Qed.

(** ** Entries *)
Lemma set_or_ok (k : option key) m r : set_or k m = Ok r <-> k = Some r.
Proof. destruct k; cbn; split; congruence. Qed.

Lemma publicJWKForSignerWithKid_inv s a kd k kd' :
  publicJWKForSignerWithKid s a kd = Ok (k, kd') ->
  kd' = kd /\ key_id k = Some kd /\ exists k0, Import_public (Signer_Public s) = Some k0 /\
  material k = material k0.
Proof.
  unfold publicJWKForSignerWithKid. intros H. go_inv.
  repeat match goal with Hx : set_or _ _ = Ok _ |- _ => apply set_or_ok in Hx end.
  match goal with
  | H1 : Set_kid _ _ = _, H2 : Set_alg _ _ = _, H3 : Set_use _ _ = _ |- _ =>
      apply set_kid_spec in H1 as [? E1]; apply set_alg_spec in H2 as [? E2];
      apply set_use_spec in H3 as [? E3]
  end.
  split; [done|]. split; [congruence|]. eexists. split; [eassumption|].
  exact (eq_trans E3 (eq_trans E2 E1)).
Qed.

Lemma newLocalKeyEntry_inv s st e :
  newLocalKeyEntry s st = Ok e -> genuine s ->
  entry_ok e /\ signer e = s /\ state e = st /\
  forall st', newLocalKeyEntry s st' = Ok (set_state st' e).
Proof.
  unfold newLocalKeyEntry, mbind, res_bind. intros H Hg.
  destruct (joseAlgForPublicKey (Signer_Public s)) as [a|] eqn:Ha; [|discriminate H].
  destruct (publicJWKForSigner s a) as [[k kd]|] eqn:Hpub; [|discriminate H].
  injection H as <-. split; [|done]. split; [|split; [done|]]; cbn.
  2:{ exists kd. intros st'. unfold newLocalKeyEntry, mbind, res_bind. by rewrite Ha, Hpub. }
  unfold publicJWKForSigner in Hpub. go_inv.
  apply publicJWKForSignerWithKid_inv in Hpub as [-> _].
  match goal with Ht : thumbprint_sum _ = Some ?t |- _ => apply thumbprint_nonempty in Ht end.
  intros Hb. by apply (encode_inj _ EmptyString) in Hb.
Qed.

(** Building the entry validates an ECDSA key. *)
Definition plausible (s : Signer) : Prop :=
  match s with ECDSAPrivate _ => True | _ => genuine s end.

Lemma newLocalKeyEntry_plausible s st e :
  newLocalKeyEntry s st = Ok e -> plausible s ->
  entry_ok e /\ signer e = s /\ state e = st /\
  forall st', newLocalKeyEntry s st' = Ok (set_state st' e).
Proof.
  intros H Hs. apply (newLocalKeyEntry_inv s st e H). destruct s as [|q|]; try done.
  unfold newLocalKeyEntry, joseAlgForPublicKey in H. cbn in H |- *.
  by destruct (p256_valid (ecdsa_Public q)).
Qed.

Lemma jwk_signer_plausible k s : jwk_signer k = Ok s -> plausible s.
Proof.
  unfold jwk_signer. intros H. go_inv; cbn; [|done]. by eapply export_is_key.
Qed.

Lemma localKeyEntryFromJWK_ok data st e :
  localKeyEntryFromJWK data st = Ok e -> entry_ok e /\ state e = st.
Proof.
  unfold localKeyEntryFromJWK, mbind, res_bind. intros H.
  destruct data as [j|]; [|discriminate H]. destruct (jwk_ParseKey j) as [k|]; [|discriminate H].
  destruct (jwk_signer k) as [s|] eqn:Hs; [|discriminate H].
  apply jwk_signer_plausible in Hs.
  destruct (newLocalKeyEntry s st) as [e0|] eqn:He; [|discriminate H].
  apply newLocalKeyEntry_plausible in He as (Hok & _ & Hst & _); [|done].
  destruct (key_id k) as [kd|]; [|by injection H as <-].
  destruct (is_empty kd) eqn:Hk; injection H as <-; [done|].
  apply is_empty_false in Hk. destruct Hok as (_ & Hg & Hn). done.
Qed.

(** ** A saved entry is read back as it was *)
Definition saved (e : localKeyEntry) (raw : json) : Prop :=
  exists pk, privateJWKForEntry e = Ok pk /\ rawJWK pk = Ok raw.

Lemma privateJWK_inv e pk :
  entry_ok e -> privateJWKForEntry e = Ok pk ->
  key_id pk = Some (kid e) /\ jwk_signer pk = Ok (signer e).
Proof.
  intros (Hk & Hg & _) H. unfold privateJWKForEntry, privateJWKForSigner in H.
  rewrite (proj2 (is_empty_false _) Hk) in H. go_inv.
  match goal with Hx : Ok (kid e) = Ok ?a |- _ => injection Hx as <- | _ => idtac end.
  repeat match goal with Hx : set_or _ _ = Ok _ |- _ => apply set_or_ok in Hx end.
  match goal with
  | H1 : Set_kid _ _ = _, H2 : Set_alg _ _ = _, H3 : Set_use _ _ = _ |- _ =>
      apply set_kid_spec in H1 as [? E1]; apply set_alg_spec in H2 as [? E2];
      apply set_use_spec in H3 as [? E3]
  end.
  split; [congruence|].
  pose proof (eq_trans E3 (eq_trans E2 E1)) as Hm. unfold material in Hm.
  injection Hm as M1 M2 M3 M4 M5 M6 _ _. unfold jwk_signer. rewrite M1, M2, M3, M4, M5, M6.
  destruct (signer e) as [p|p|]; cbn in Hg; [|clear M1 M2 M3 M4 M5 M6|done].
  - destruct Hg as [seed ->].
    match goal with Hi : Import_private _ = Some _ |- _ =>
      apply import_ed25519_spec in Hi as (-> & -> & -> & ->) end. reflexivity.
  - match goal with Hi : Import_private _ = Some _ |- _ =>
      apply (import_ecdsa_spec _ _ Hg) in Hi as (-> & -> & -> & ->) end. reflexivity.
Qed.

Lemma reload_entry e raw st :
  entry_ok e -> saved e raw -> localKeyEntryFromJWK (Doc raw) st = Ok (set_state st e).
Proof.
  intros He (pk & Hpk & Hraw). destruct (privateJWK_inv e pk He Hpk) as [Hid Hs].
  unfold rawJWK in Hraw. destruct (Marshal_key pk) as [j|] eqn:Hj; [|discriminate Hraw].
  injection Hraw as ->. unfold localKeyEntryFromJWK. rewrite (marshal_parse _ _ Hj).
  destruct He as (Hk & _ & k0 & Hnew). unfold mbind, res_bind. rewrite Hs, (Hnew st), Hid.
  by rewrite (proj2 (is_empty_false _) Hk).
Qed.

(** ** What [persistLocked] writes *)
Definition has_state (p : LocalKeyProvider) (st : localKeyState) (k : string) : bool :=
  match keys p !! k with Some e => bool_decide (state e = st) | None => false end.
Definition kids_in (p : LocalKeyProvider) (st : localKeyState) (l : list string) : list string :=
  base.filter (has_state p st) l.
Definition saves (p : LocalKeyProvider) : list string -> list json -> Prop :=
  Forall2 (fun k raw => exists e, keys p !! k = Some e /\ saved e raw).

Lemma kids_in_cons p st k l :
  kids_in p st (k :: l) = (if has_state p st k then [k] else []) ++ kids_in p st l.
Proof. unfold kids_in. rewrite filter_cons. by destruct (has_state p st k). Qed.

Lemma persist_entries_spec p l s s' :
  persist_entries p l s = Ok s' ->
  exists acts rets pends,
    saves p (kids_in p localKeyActive l) acts /\ saves p (kids_in p localKeyRetained l) rets /\
    saves p (kids_in p localKeyPending l) pends /\
    s' = StoreFile (match last acts with Some a => Some a | None => Active s end)
           (Retained s ++ rets) (Pending s ++ pends).
Proof.
  revert s. induction l as [|k l IH]; intros s H.
  { injection H as <-. exists [], [], []. rewrite !app_nil_r.
    repeat split; try constructor. by destruct s. }
  cbn [persist_entries] in H. rewrite !kids_in_cons. unfold has_state.
  destruct (keys p !! k) as [e|] eqn:Hk; [|exact (IH _ H)].
  unfold mbind, res_bind in H.
  destruct (privateJWKForEntry e) as [pk|] eqn:Hpk; [|discriminate H].
  destruct (rawJWK pk) as [raw|] eqn:Hraw; [|discriminate H].
  assert (Hs : exists e, keys p !! k = Some e /\ saved e raw) by (exists e; split; [done|by exists pk]).
  destruct (IH _ H) as (acts & rets & pends & Ha & Hr & Hp & ->).
  destruct (state e); cbn.
  - exists acts, rets, (raw :: pends). split; [done|]. split; [done|]. split; [by constructor|].
    by rewrite <- app_assoc.
  - exists (raw :: acts), rets, pends. split; [by constructor|]. do 2 (split; [done|]).
    rewrite last_cons. cbn. by destruct (last acts).
  - exists acts, (raw :: rets), pends. split; [done|]. split; [by constructor|]. split; [done|].
    by rewrite <- app_assoc.
Qed.

(** ** Reading a saved store *)

(** The provider a saved store loads as: same entries and active kid, listed
    as active, retained, pending. *)
Definition canonical (p : LocalKeyProvider) : LocalKeyProvider :=
  Provider (keys p)
    (activeKid p :: kids_in p localKeyRetained (order p) ++ kids_in p localKeyPending (order p))
    (activeKid p) (path p).

Lemma has_state_true p st k :
  has_state p st k = true <-> exists e, keys p !! k = Some e /\ state e = st.
Proof.
  unfold has_state. destruct (keys p !! k) as [e|]; [|naive_solver].
  rewrite bool_decide_eq_true. naive_solver.
Qed.

Lemma has_state_fun p st st' k : has_state p st k = true -> has_state p st' k = true -> st = st'.
Proof. rewrite !has_state_true. intros (e & ? & <-) (e' & ? & <-). congruence. Qed.

Lemma elem_of_kids_in p st k l : k ∈ kids_in p st l <-> has_state p st k = true /\ k ∈ l.
Proof. unfold kids_in. rewrite list_elem_of_filter. by rewrite Is_true_true. Qed.

Lemma kids_in_active p : WF p -> kids_in p localKeyActive (order p) = [activeKid p].
Proof.
  intros Hp. destruct (wf_active p Hp) as (e & He & Hs).
  apply Permutation_singleton_r, NoDup_Permutation;
    [apply list.NoDup_filter, (wf_nodup p Hp)|apply NoDup_singleton|].
  intros k. rewrite elem_of_kids_in, has_state_true, list_elem_of_singleton, (wf_dom p Hp).
  split; [intros [(e' & He' & Hs') _]; by apply (wf_unique p Hp _ e')|].
  intros ->. rewrite He. eauto.
Qed.

(** [m] is the part of the provider's map below the kids of [l]. *)
Definition restricted (p : LocalKeyProvider) (l : list string) (m : gmap string localKeyEntry) : Prop :=
  forall k, m !! k = if decide (k ∈ l) then keys p !! k else None.

Lemma restricted_snoc p l m k e :
  restricted p l m -> keys p !! k = Some e -> restricted p (l ++ [k]) (<[k := e]> m).
Proof.
  intros Hm Hk k'. rewrite lookup_insert, Hm.
  destruct (decide (k = k')) as [->|Hne]; repeat case_decide; set_solver.
Qed.

Lemma addKeyJSON_saved p l p0 k e raw st :
  keys p !! k = Some e -> kid e = k -> entry_ok e -> state e = st -> saved e raw ->
  restricted p l (keys p0) -> k ∉ l -> addKeyJSON p0 (Doc raw) st = Ok (addEntry p0 e).
Proof.
  intros Hk Hkid He Hst Hsv Hr Hl. unfold addKeyJSON, mbind, res_bind.
  rewrite (reload_entry e raw st He Hsv).
  replace (set_state st e) with e by (destruct e; cbn in *; by subst).
  rewrite (Hr (kid e)), decide_False; [done|by subst k].
Qed.

Lemma add_raws_saved p kids raws st msg p0 l :
  WF p -> st <> localKeyActive ->
  saves p kids raws -> (forall k, k ∈ kids -> has_state p st k = true) -> NoDup (l ++ kids) ->
  restricted p l (keys p0) -> order p0 = l ->
  exists p1, add_raws p0 raws st msg = Ok p1 /\ restricted p (l ++ kids) (keys p1) /\
    order p1 = l ++ kids /\ activeKid p1 = activeKid p0 /\ path p1 = path p0.
Proof.
  intros Hp Hst Hs. revert p0 l. induction Hs as [|k raw kids raws (e & Hk & Hsv) _ IH];
    intros p0 l Hst' Hnd Hr Ho.
  { exists p0. by rewrite app_nil_r. }
  destruct (wf_entry p Hp k e Hk) as [Hkid He].
  destruct (proj1 (has_state_true p st k) (Hst' k ltac:(left))) as (e' & He' & Hse).
  assert (e' = e) as -> by congruence.
  assert (Hkl : k ∉ l).
  { intros Hin. apply NoDup_app in Hnd as (_ & Hd & _). apply (Hd k Hin). left. }
  rewrite (cons_middle k l kids), app_assoc in Hnd |- *.
  destruct (IH (addEntry p0 e) (l ++ [k])) as (p1 & H1 & H2 & H3 & H4 & H5).
  - intros k' Hk'. apply Hst'. by right.
  - done.
  - cbn. rewrite Hkid. by apply restricted_snoc.
  - cbn. by rewrite Hkid, Ho.
  - exists p1. cbn [add_raws].
    rewrite (addKeyJSON_saved p l p0 k e raw st) by done. split; [done|].
    split; [done|]. split; [done|]. cbn in H4, H5. by rewrite bool_decide_false in H4 by congruence.
Qed.

Lemma reload_store p d s :
  WF p -> persist_entries p (order p) (StoreFile None [] []) = Ok s ->
  d !! path p = Some (Doc (marshal_store s)) ->
  NewLocalKeyProvider d (path p) None = Ok (canonical p).
Proof.
  intros Hp H Hd. apply persist_entries_spec in H as (acts & rets & pends & Ha & Hr & Hpe & ->).
  rewrite kids_in_active in Ha by done. cbn [Retained Pending Active app] in *.
  apply Forall2_cons_inv_l in Ha as (raw & acts' & (e & He & Hsv) & Hnil & ->).
  apply Forall2_nil_inv_l in Hnil as ->.
  destruct (wf_active p Hp) as (e' & He' & Hse). assert (e' = e) as -> by congruence.
  destruct (wf_entry p Hp _ _ He) as [Hkid Hok].
  unfold NewLocalKeyProvider, ReadFile. rewrite Hd.
  change (unmarshal_store _) with (Some (StoreFile (Some raw) rets pends)). cbn iota.
  rewrite (addKeyJSON_saved p [] _ (activeKid p) e raw localKeyActive) by
    (done || (intros k; cbn; by rewrite lookup_empty, decide_False by apply not_elem_of_nil)
     || apply not_elem_of_nil).
  set (rs := kids_in p localKeyRetained (order p)) in *.
  set (ps := kids_in p localKeyPending (order p)) in *.
  assert (Hact : has_state p localKeyActive (activeKid p) = true)
    by (apply has_state_true; eauto).
  assert (Hnd : NoDup ((activeKid p :: rs) ++ ps)).
  { cbn. rewrite NoDup_cons, NoDup_app, not_elem_of_app. unfold rs, ps.
    pose proof (wf_nodup p Hp). repeat split; try by apply list.NoDup_filter.
    - intros [Hx _]%elem_of_kids_in. by pose proof (has_state_fun _ _ _ _ Hact Hx).
    - intros [Hx _]%elem_of_kids_in. by pose proof (has_state_fun _ _ _ _ Hact Hx).
    - intros k [Hx _]%elem_of_kids_in [Hy _]%elem_of_kids_in.
      by pose proof (has_state_fun _ _ _ _ Hx Hy). }
  destruct (add_raws_saved p rs rets localKeyRetained "dnsid: parsing retained key"
              (addEntry (emptyProvider (path p)) e) [activeKid p])
    as (p1 & H1 & H2 & H3 & H4 & H5); try done.
  { intros k Hk. by apply elem_of_kids_in in Hk as [? _]. }
  { by apply NoDup_app in Hnd as [? _]. }
  { cbn. rewrite Hkid. apply (restricted_snoc p [] ∅); [|done]. intros k.
    by rewrite lookup_empty, decide_False by apply not_elem_of_nil. }
  { cbn. by rewrite Hkid. }
  destruct (add_raws_saved p ps pends localKeyPending "dnsid: parsing pending key" p1
              (activeKid p :: rs)) as (p2 & G1 & G2 & G3 & G4 & G5); try done.
  { intros k Hk. by apply elem_of_kids_in in Hk as [? _]. }
  unfold mbind, res_bind. rewrite H1, G1. f_equal. destruct p2 as [m o a pt]. cbn in *. subst.
  unfold canonical. f_equal.
  - apply map_eq. intros k. rewrite (G2 k).
    destruct (decide (k ∈ _)) as [Hk|Hk]; [reflexivity|]. symmetry.
    apply eq_None_not_Some. intros [e' He2]. apply Hk.
    destruct (state e') eqn:Hst'; rewrite elem_of_cons, elem_of_app; unfold rs, ps;
      rewrite !elem_of_kids_in, !has_state_true, (wf_dom p Hp);
      [right; right|left; by apply (wf_unique p Hp _ e')|right; left]; eauto.
  - by rewrite H4, Hse, bool_decide_true.
  - exact H5.
Qed.

(** ** Persistence: all or nothing, except for the durability error *)

(** What [os.CreateTemp] guarantees of the name it picks. *)
Definition fresh_tmp (w : io) (p : LocalKeyProvider) (d : disk) : Prop :=
  d !! io_tmp w = None /\ io_tmp w <> path p.

Definition not_durability (err : option error) : Prop :=
  exists e, err = Some e /\ errors_Is e ErrKeyStoreDurability = false.
(** Success, or the durability error: the new store is visible. *)
Definition visible (err : option error) : Prop :=
  err = None \/ exists e, err = Some e /\ errors_Is e ErrKeyStoreDurability = true.

(** [d'] is [d] with the store of [p] in its file. *)
Definition persisted (p : LocalKeyProvider) (d d' : disk) : Prop :=
  if is_empty (path p) then d' = d
  else exists s, persist_entries p (order p) (StoreFile None [] []) = Ok s /\
         d' = <[path p := Doc (marshal_store s)]> d.

Ltac go_err := repeat
  match goal with
  | H : Err _ = Err _ |- _ => injection H as H; subst
  | H : Ok _ = Err _ |- _ => discriminate H
  | H : mbind _ ?m = _ |- _ => unfold mbind, res_bind in H; cbn beta in H
  | H : (if ?b then _ else _) = Err _ |- _ => destruct b eqn:?
  | H : (match ?x with _ => _ end) = Err _ |- _ => destruct x eqn:?
  end.

Lemma set_or_err (k : option key) m e : set_or k m = Err e -> e = PlainError m.
Proof. destruct k; cbn; congruence. Qed.

Lemma publicJWK_err s a e :
  publicJWKForSigner s a = Err e -> errors_Is e ErrKeyStoreDurability = false.
Proof.
  unfold publicJWKForSigner, publicJWKForSignerWithKid. intros H. go_err; try reflexivity.
  all: match goal with Hx : set_or _ _ = Err _ |- _ => apply set_or_err in Hx as -> end; reflexivity.
Qed.

Lemma newLocalKeyEntry_err s st e :
  newLocalKeyEntry s st = Err e -> errors_Is e ErrKeyStoreDurability = false.
Proof.
  unfold newLocalKeyEntry, joseAlgForPublicKey. intros H. go_err; try reflexivity.
  eapply publicJWK_err; eassumption.
Qed.

Lemma privateJWK_err e err :
  privateJWKForEntry e = Err err -> errors_Is err ErrKeyStoreDurability = false.
Proof.
  unfold privateJWKForEntry, privateJWKForSigner. intros H. go_err; try reflexivity.
  all: try (eapply publicJWK_err; eassumption).
  all: match goal with Hx : set_or _ _ = Err _ |- _ => apply set_or_err in Hx as -> end; reflexivity.
Qed.

Lemma persist_entries_err p l s e :
  persist_entries p l s = Err e -> errors_Is e ErrKeyStoreDurability = false.
Proof.
  revert s. induction l as [|k l IH]; cbn; intros s H; [discriminate H|].
  unfold rawJWK in H. go_err; try reflexivity; try (eapply IH; eassumption).
  eapply privateJWK_err; eassumption.
Qed.

Lemma os_err_not_durability e : not_durability (Some (os_err e)).
Proof. exists (os_err e). split; [done|]. by destruct e. Qed.

Lemma syncKeyDirectory_visible w : visible (syncKeyDirectory w).
Proof.
  unfold syncKeyDirectory. destruct (match io_OpenDir w with None => _ | _ => _ end) as [e|];
    [right|by left]. eexists. split; [done|]. unfold errors_Is. cbn. done.
Qed.

Lemma writeFileAtomic_spec d pth data w d' err :
  d !! io_tmp w = None -> io_tmp w <> pth -> writeFileAtomic d pth data w = (d', err) ->
  (d' = d /\ not_durability err) \/ (d' = <[pth := Doc data]> d /\ visible err).
Proof.
  intros Hf Hne H. unfold writeFileAtomic in H.
  assert (Hid : forall c, delete (io_tmp w) (<[io_tmp w := c]> d) = d)
    by (intros c; by apply delete_insert_id).
  repeat match type of H with
  | context [match ?f w with Some _ => _ | None => _ end] => destruct (f w) eqn:?
  end; injection H as <- <-;
    try (left; split; [|apply os_err_not_durability]; rewrite ?insert_insert_eq; auto; fail).
  right. split; [|apply syncKeyDirectory_visible].
  rewrite insert_insert_eq, Hid, delete_insert_ne by done.
  by rewrite delete_id.
Qed.

Lemma persistLocked_spec p d w d' err :
  fresh_tmp w p d -> persistLocked p d w = (d', err) ->
  (d' = d /\ not_durability err) \/ (persisted p d d' /\ visible err).
Proof.
  intros [Hf Hne] H. unfold persistLocked, persisted in *.
  destruct (is_empty (path p)); [injection H as <- <-; right; split; [done|by left]|].
  destruct (persist_entries p (order p) _) as [s|e] eqn:Hs.
  - destruct (writeFileAtomic_spec _ _ _ _ _ _ Hf Hne H) as [?|[-> ?]]; [by left|].
    right. split; [by exists s|done].
  - injection H as <- <-. left. split; [done|]. exists e. split; [done|].
    eapply persist_entries_err, Hs.
Qed.

Lemma reload_persisted p d d' :
  WF p -> path p <> EmptyString -> persisted p d d' ->
  NewLocalKeyProvider d' (path p) None = Ok (canonical p).
Proof.
  intros Hp Hne H. unfold persisted in H. rewrite (proj2 (is_empty_false _) Hne) in H.
  destruct H as (s & Hs & ->). eapply reload_store; [done..|]. by rewrite lookup_insert_eq.
Qed.

(** ** The abstract rotation protocol *)

(** One call of the provider: with the outcomes of its system calls, and for
    [Supersede] the provider its unlocked lookup saw. *)
Inductive op :=
| GenerateOp (a : JoseAlg) (rng : option string) (w : io)
| ActivateOp (k : string) (w : io)
| SupersedeOp (k : string) (w : io) (p0 : LocalKeyProvider)
| PurgeOp (k : string) (w : io).

Definition op_io (o : op) : io :=
  match o with GenerateOp _ _ w | ActivateOp _ w | SupersedeOp _ w _ | PurgeOp _ w => w end.

(** The returned kid is empty for the calls that return only an error. *)
Definition run_op (o : op) (p : LocalKeyProvider) (d : disk)
    : LocalKeyProvider * disk * (string * option error) :=
  let no_kid r := match r with (p, d, err) => (p, d, (EmptyString, err)) end in
  match o with
  | GenerateOp a rng w => GenerateKey a rng w p d
  | ActivateOp k w => no_kid (Activate k w p d)
  | SupersedeOp k w p0 => no_kid (Supersede k w p0 p d)
  | PurgeOp k w => no_kid (Purge k w p d)
  end.

(** The states of the keys, and the moves each call may make. *)
Definition states (p : LocalKeyProvider) : gmap string localKeyState := state <$> keys p.

Inductive rotation : op -> string -> gmap string localKeyState -> gmap string localKeyState -> Prop :=
| rot_generate a rng w k m :
    m !! k = None -> rotation (GenerateOp a rng w) k m (<[k := localKeyPending]> m)
| rot_activate k w m old st :
    m !! old = Some localKeyActive -> m !! k = Some st -> st <> localKeyActive ->
    rotation (ActivateOp k w) EmptyString m (<[k := localKeyActive]> (<[old := localKeyRetained]> m))
| rot_persist_again k w m :
    m !! k = Some localKeyActive -> rotation (ActivateOp k w) EmptyString m m
| rot_supersede k w p0 m st :
    is_retained p0 k = true -> m !! k = Some st -> st <> localKeyActive ->
    rotation (SupersedeOp k w p0) EmptyString m (delete k m)
| rot_purge k w m st :
    m !! k = Some st -> st <> localKeyActive -> rotation (PurgeOp k w) EmptyString m (delete k m).

(** No call changes the key behind a kid. *)
Definition same_material (p p' : LocalKeyProvider) : Prop :=
  forall k e e', keys p !! k = Some e -> keys p' !! k = Some e' ->
    signer e' = signer e /\ alg e' = alg e.

Lemma entry_ok_state e st : entry_ok e -> entry_ok (set_state st e).
Proof. intros (? & ? & k0 & H). repeat split; [done|done|]. by exists k0. Qed.

Lemma lookup_assign k st m k' :
  assign_state k st m !! k' = if decide (k = k') then set_state st <$> m !! k' else m !! k'.
Proof.
  unfold assign_state. destruct (decide (k = k')) as [->|Hne];
    [by rewrite lookup_alter_eq|by rewrite lookup_alter_ne].
Qed.

Lemma states_assign k st m : is_Some (m !! k) -> state <$> assign_state k st m = <[k := st]> (state <$> m).
Proof.
  intros [e He]. apply map_eq. intros k'. rewrite lookup_fmap, lookup_assign, lookup_insert.
  rewrite lookup_fmap. destruct (decide (k = k')) as [->|]; [by rewrite He|done].
Qed.

(** *** Generation *)
Definition generated (p : LocalKeyProvider) (e : localKeyEntry) : LocalKeyProvider :=
  Provider (<[kid e := e]> (keys p)) (order p ++ [kid e]) (activeKid p) (path p).

Lemma generated_wf p e :
  WF p -> keys p !! kid e = None -> entry_ok e -> state e = localKeyPending -> WF (generated p e).
Proof.
  intros Hp Hn He Hst. constructor; cbn.
  - apply NoDup_app. split; [apply (wf_nodup p Hp)|]. split; [|apply NoDup_singleton].
    intros k Hk. rewrite list_elem_of_singleton. intros ->.
    apply (wf_dom p Hp) in Hk as [e' He']. congruence.
  - intros k. rewrite elem_of_app, list_elem_of_singleton, lookup_insert, (wf_dom p Hp).
    case_decide; [subst; split; eauto|]. naive_solver.
  - intros k e'. rewrite lookup_insert. case_decide as Hk; [|apply (wf_entry p Hp)].
    intros [= <-]. done.
  - destruct (wf_active p Hp) as (e' & He' & Hs). exists e'. rewrite lookup_insert_ne; [done|].
    congruence.
  - intros k e'. rewrite lookup_insert. case_decide; [|apply (wf_unique p Hp)].
    intros [= <-]. congruence.
Qed.

Lemma generated_rollback p e :
  keys p !! kid e = None ->
  Provider (delete (kid e) (keys (generated p e))) (removelast (order (generated p e)))
    (activeKid (generated p e)) (path (generated p e)) = p.
Proof.
  intros Hn. destruct p as [m o a pt]. cbn in *.
  by rewrite delete_insert_id, removelast_last.
Qed.

(** *** Activation *)
Definition activated (p : LocalKeyProvider) (k : string) : LocalKeyProvider :=
  Provider (assign_state k localKeyActive (assign_state (activeKid p) localKeyRetained (keys p)))
    (order p) k (path p).

Lemma activated_lookup p k k' :
  k <> activeKid p ->
  keys (activated p k) !! k' =
    if decide (k = k') then set_state localKeyActive <$> keys p !! k'
    else if decide (activeKid p = k') then set_state localKeyRetained <$> keys p !! k'
    else keys p !! k'.
Proof.
  intros Hne. cbn. rewrite !lookup_assign. repeat case_decide; subst; done.
Qed.

Lemma activated_wf p k e :
  WF p -> keys p !! k = Some e -> k <> activeKid p -> WF (activated p k).
Proof.
  intros Hp Hk Hne. constructor; try (intros k'; rewrite activated_lookup by done).
  - apply (wf_nodup p Hp).
  - cbn. rewrite (wf_dom p Hp). repeat case_decide; [..|done]; by rewrite fmap_is_Some.
  - intros e'. repeat case_decide; [| |apply (wf_entry p Hp)];
      intros (e0 & He0 & ->)%fmap_Some; destruct (wf_entry p Hp _ _ He0);
      split; auto using entry_ok_state.
  - exists (set_state localKeyActive e). rewrite activated_lookup, decide_True by done. cbn.
    by rewrite Hk.
  - intros e'. cbn. repeat case_decide; [done| |].
    + intros (e0 & He0 & ->)%fmap_Some. done.
    + intros He' Hs. by pose proof (wf_unique p Hp _ _ He' Hs).
Qed.

Lemma activated_rollback p k e :
  WF p -> keys p !! k = Some e -> k <> activeKid p ->
  Provider (assign_state k (state e) (assign_state (activeKid p) localKeyActive (keys (activated p k))))
    (order (activated p k)) (activeKid p) (path (activated p k)) = p.
Proof.
  intros Hp Hk Hne. destruct (wf_active p Hp) as (ea & Hea & Hsa).
  assert (Hm : assign_state k (state e)
                 (assign_state (activeKid p) localKeyActive (keys (activated p k))) = keys p).
  { apply map_eq. intros k'. rewrite !lookup_assign, activated_lookup by done.
    repeat case_decide; subst; try done.
    - rewrite Hk. cbn. by destruct e.
    - rewrite Hea. cbn. rewrite <- Hsa. by destruct ea. }
  rewrite Hm. by destruct p.
Qed.

(** *** Removal *)
Definition purged (p : LocalKeyProvider) (k : string) : LocalKeyProvider :=
  Provider (delete k (keys p)) (remove_kid k (order p)) (activeKid p) (path p).

Lemma elem_of_remove_kid k l k' : NoDup l -> k' ∈ remove_kid k l <-> k' ∈ l /\ k' <> k.
Proof.
  induction 1 as [|id l Hid Hl IH]; cbn; [set_solver|].
  destruct (str_eqb id k) eqn:E.
  - apply str_eqb_eq in E as ->. set_solver.
  - apply str_eqb_neq in E. rewrite !elem_of_cons, IH. naive_solver.
Qed.

Lemma NoDup_remove_kid k l : NoDup l -> NoDup (remove_kid k l).
Proof.
  induction 1 as [|id l Hid Hl IH]; cbn; [constructor|].
  destruct (str_eqb id k); [done|]. constructor; [|done].
  rewrite elem_of_remove_kid by done. naive_solver.
Qed.

Lemma purged_wf p k e :
  WF p -> keys p !! k = Some e -> state e <> localKeyActive -> WF (purged p k).
Proof.
  intros Hp Hk Hst. assert (Hka : activeKid p <> k).
  { intros <-. destruct (wf_active p Hp) as (e' & He' & Hs). congruence. }
  constructor; cbn.
  - apply NoDup_remove_kid, (wf_nodup p Hp).
  - intros k'. rewrite elem_of_remove_kid by apply (wf_nodup p Hp). rewrite lookup_delete.
    rewrite (wf_dom p Hp). case_decide; [subst; split; [naive_solver|by intros [? ?]]|naive_solver].
  - intros k' e' [_ He']%lookup_delete_Some. by apply (wf_entry p Hp).
  - destruct (wf_active p Hp) as (e' & He' & Hs). exists e'. by rewrite lookup_delete_ne.
  - intros k' e' [_ He']%lookup_delete_Some. by apply (wf_unique p Hp).
Qed.

Lemma purged_rollback p k e :
  keys p !! k = Some e ->
  Provider (<[k := e]> (keys (purged p k))) (order p) (activeKid (purged p k)) (path (purged p k)) = p.
Proof. intros Hk. destruct p. cbn in *. by rewrite insert_delete_id. Qed.

(** ** Each call is one move of the protocol, or nothing *)
Definition outcome (o : op) (p : LocalKeyProvider) (d : disk)
    (r : LocalKeyProvider * disk * (string * option error)) : Prop :=
  let '(p', d', (kd, err)) := r in
  WF p' /\ path p' = path p /\ same_material p p' /\
  ((p' = p /\ d' = d /\ kd = EmptyString /\ not_durability err) \/
   (rotation o kd (states p) (states p') /\ persisted p' d d' /\ visible err)).

Lemma same_material_refl p : same_material p p.
Proof. intros k e e' H H'. by simplify_eq. Qed.

Lemma outcome_rejected o p d err :
  WF p -> errors_Is err ErrKeyStoreDurability = false ->
  outcome o p d (p, d, (EmptyString, Some err)).
Proof.
  intros Hp He. split; [done|]. split; [done|]. split; [apply same_material_refl|]. left.
  repeat split. by exists err.
Qed.

Lemma outcome_visible o p d kd p' d' err :
  WF p' -> path p' = path p -> same_material p p' -> rotation o kd (states p) (states p') ->
  persisted p' d d' -> visible err -> outcome o p d (p', d', (kd, err)).
Proof. intros. split; [done|]. split; [done|]. split; [done|]. by right. Qed.

(** [persistLocked] followed by the test of [errors.Is]: the three cases the
    callers distinguish. *)
Lemma persist_cases p d w :
  fresh_tmp w p d ->
  let r := persistLocked p d w in
  (persisted p d (fst r) /\ snd r = None) \/
  (exists e, persisted p d (fst r) /\ snd r = Some e /\ errors_Is e ErrKeyStoreDurability = true) \/
  (exists e, fst r = d /\ snd r = Some e /\ errors_Is e ErrKeyStoreDurability = false).
Proof.
  intros Hf r. destruct r as [d' err] eqn:Hr. unfold r in Hr.
  destruct (persistLocked_spec _ _ _ _ _ Hf Hr) as [[-> (e & -> & He)]|[Hd [->|(e & -> & He)]]];
    cbn; eauto 10.
Qed.

Ltac persist_case H :=
  match goal with
  | |- context [persistLocked ?p ?d ?w] =>
      destruct (persist_cases p d w H) as [(Hd & He)|[(err & Hd & He & Hi)|(err & Hd & He & Hi)]];
      destruct (persistLocked p d w) as [d1 err1]; cbn [fst snd] in Hd, He; subst err1;
      try rewrite Hi
  end.

Lemma visible_some e : errors_Is e ErrKeyStoreDurability = true -> visible (Some e).
Proof. right. by exists e. Qed.
Lemma visible_none : visible None.
Proof. by left. Qed.

Lemma generateSigner_spec a rng :
  match generateSigner a rng with
  | Ok s => plausible s
  | Err e => errors_Is e ErrKeyStoreDurability = false
  end.
Proof.
  unfold generateSigner. destruct (str_eqb a JoseAlgEdDSA), rng; cbn; eauto;
    destruct (str_eqb a JoseAlgES256); cbn; eauto.
Qed.

Lemma generated_entry a rng st e :
  (s ← generateSigner a rng; newLocalKeyEntry s st) = Ok e -> entry_ok e /\ state e = st.
Proof.
  unfold mbind, res_bind. intros H. pose proof (generateSigner_spec a rng) as Hg.
  destruct (generateSigner a rng) as [s|]; [|discriminate H].
  by destruct (newLocalKeyEntry_plausible s st e H Hg) as (? & _ & ? & _).
Qed.

Lemma generated_entry_err a rng st e :
  (s ← generateSigner a rng; newLocalKeyEntry s st) = Err e ->
  errors_Is e ErrKeyStoreDurability = false.
Proof.
  unfold mbind, res_bind. intros H. pose proof (generateSigner_spec a rng) as Hg.
  destruct (generateSigner a rng) as [s|]; [eapply newLocalKeyEntry_err, H|]. by injection H as <-.
Qed.

Lemma generate_outcome a rng w p d :
  WF p -> fresh_tmp w p d -> outcome (GenerateOp a rng w) p d (GenerateKey a rng w p d).
Proof.
  intros Hp Hf. unfold GenerateKey. destruct (alg_Valid a); cbn [negb].
  2:{ by apply outcome_rejected. }
  destruct (generateSigner a rng ≫= _) as [e|e] eqn:He.
  2:{ apply outcome_rejected; [done|]. eapply generated_entry_err, He. }
  apply generated_entry in He as [Hok Hst].
  destruct (keys p !! kid e) eqn:Hk; [by apply outcome_rejected|].
  assert (Hwf : WF (generated p e)) by by apply generated_wf.
  assert (Hsm : same_material p (generated p e)).
  { intros k e1 e2 H1. cbn. rewrite lookup_insert_ne by congruence. intros H2. by simplify_eq. }
  assert (Hrot : rotation (GenerateOp a rng w) (kid e) (states p) (states (generated p e))).
  { unfold states. cbn. rewrite fmap_insert, Hst. apply rot_generate. by rewrite lookup_fmap, Hk. }
  fold (generated p e).
  assert (Hf' : fresh_tmp w (generated p e) d) by done. persist_case Hf'.
  - apply outcome_visible; auto using visible_none.
  - apply outcome_visible; auto using visible_some.
  - rewrite generated_rollback by done. subst d1. by apply outcome_rejected.
Qed.

Lemma activate_outcome k w p d :
  WF p -> fresh_tmp w p d ->
  outcome (ActivateOp k w) p d (run_op (ActivateOp k w) p d).
Proof.
  intros Hp Hf. cbn [run_op]. unfold Activate.
  destruct (keys p !! k) as [e|] eqn:Hk; [|by apply outcome_rejected].
  destruct (wf_active p Hp) as (ea & Hea & Hsa).
  destruct (str_eqb (activeKid p) k) eqn:Eq.
  - apply str_eqb_eq in Eq as <-.
    assert (Hrot : rotation (ActivateOp (activeKid p) w) EmptyString (states p) (states p)).
    { apply rot_persist_again. unfold states. by rewrite lookup_fmap, Hea, <- Hsa. }
    persist_case Hf.
    + apply outcome_visible; auto using visible_none, same_material_refl.
    + apply outcome_visible; auto using visible_some, same_material_refl.
    + subst d1. by apply outcome_rejected.
  - apply str_eqb_neq in Eq. rewrite Hea. fold (activated p k).
    assert (Hne : k <> activeKid p) by congruence.
    assert (Hwf : WF (activated p k)) by by eapply activated_wf.
    assert (Hsm : same_material p (activated p k)).
    { intros k' e1 e2 H1. rewrite activated_lookup by done. rewrite H1.
      repeat case_decide; cbn; intros [= <-]; done. }
    assert (Hst : state e <> localKeyActive).
    { intros Hs. apply Hne. by eapply wf_unique. }
    assert (Hrot : rotation (ActivateOp k w) EmptyString (states p) (states (activated p k))).
    { unfold states. cbn. rewrite !states_assign.
      - eapply (rot_activate k w _ _ (state e)); rewrite ?lookup_fmap, ?Hea, ?Hk; cbn; congruence.
      - by rewrite Hea.
      - rewrite lookup_assign, Hk. by case_decide. }
    assert (Hf' : fresh_tmp w (activated p k) d) by done. persist_case Hf'.
    + apply outcome_visible; auto using visible_none.
    + apply outcome_visible; auto using visible_some.
    + rewrite (activated_rollback p k e) by done. subst d1. by apply outcome_rejected.
Qed.

Lemma purge_outcome o k w p d :
  WF p -> fresh_tmp w p d ->
  (forall e, keys p !! k = Some e -> state e <> localKeyActive ->
     rotation o EmptyString (states p) (delete k (states p))) ->
  outcome o p d (let '(p, d, err) := Purge k w p d in (p, d, (EmptyString, err))).
Proof.
  intros Hp Hf Hrot. unfold Purge.
  destruct (keys p !! k) as [e|] eqn:Hk; [|by apply outcome_rejected].
  case_bool_decide as Hst; [by apply outcome_rejected|].
  fold (purged p k).
  assert (Hwf : WF (purged p k)) by by eapply purged_wf.
  assert (Hsm : same_material p (purged p k)).
  { intros k' e1 e2 H1 H2. cbn in H2. apply lookup_delete_Some in H2 as [_ H2]. by simplify_eq. }
  specialize (Hrot e eq_refl Hst).
  assert (Hs : states (purged p k) = delete k (states p)) by (apply fmap_delete).
  rewrite <- Hs in Hrot.
  assert (Hf' : fresh_tmp w (purged p k) d) by done. persist_case Hf'.
  - apply outcome_visible; auto using visible_none.
  - apply outcome_visible; auto using visible_some.
  - rewrite (purged_rollback p k e) by done. subst d1. by apply outcome_rejected.
Qed.

Lemma run_op_outcome o p d :
  WF p -> fresh_tmp (op_io o) p d -> outcome o p d (run_op o p d).
Proof.
  intros Hp Hf. destruct o as [a rng w|k w|k w p0|k w].
  - by apply generate_outcome.
  - by apply activate_outcome.
  - cbn [run_op]. unfold Supersede.
    destruct (keys p0 !! k) as [e0|] eqn:H0; [|by apply outcome_rejected].
    case_bool_decide as Hr; [|by apply outcome_rejected].
    apply purge_outcome; [done..|]. intros e He Hst. apply (rot_supersede _ _ _ _ (state e));
      [|unfold states; by rewrite lookup_fmap, He|done].
    unfold is_retained. by rewrite H0, bool_decide_true.
  - apply purge_outcome; [done..|]. intros e He Hst. apply (rot_purge _ _ _ (state e));
      [unfold states; by rewrite lookup_fmap, He|done].
Qed.

(** ** Loading establishes the invariant *)

(** [WF] without an active key, for the providers under construction. *)
Record WF0 (p : LocalKeyProvider) : Prop := {
  wf0_nodup : NoDup (order p);
  wf0_dom k : k ∈ order p <-> is_Some (keys p !! k);
  wf0_entry k e : keys p !! k = Some e -> kid e = k /\ entry_ok e;
  wf0_unique k e : keys p !! k = Some e -> state e = localKeyActive -> k = activeKid p
}.

Lemma empty_wf0 pth : WF0 (emptyProvider pth).
Proof.
  constructor; cbn; [constructor|intros k; rewrite lookup_empty|intros k e; by rewrite lookup_empty..].
  split; [by intros ?%elem_of_nil|by intros [? ?]].
Qed.

Definition has_active (p : LocalKeyProvider) : Prop :=
  exists e, keys p !! activeKid p = Some e /\ state e = localKeyActive.

Lemma wf_of_wf0 p : WF0 p -> has_active p -> WF p.
Proof. intros [] Ha. by constructor. Qed.

(** A second active key is never added. *)
Lemma addEntry_wf0 p e :
  WF0 p -> entry_ok e -> keys p !! kid e = None ->
  (state e = localKeyActive -> keys p = ∅) ->
  WF0 (addEntry p e) /\ (has_active p \/ state e = localKeyActive -> has_active (addEntry p e)).
Proof.
  intros Hp He Hn Hact. split; [constructor; cbn|].
  - apply NoDup_app. split; [apply (wf0_nodup p Hp)|]. split; [|apply NoDup_singleton].
    intros k Hk. rewrite list_elem_of_singleton. intros ->.
    apply (wf0_dom p Hp) in Hk as [e' He']. congruence.
  - intros k. rewrite elem_of_app, list_elem_of_singleton, lookup_insert, (wf0_dom p Hp).
    case_decide; [subst; split; eauto|]. naive_solver.
  - intros k e'. rewrite lookup_insert. case_decide as Hk; [|apply (wf0_entry p Hp)].
    by intros [= <-].
  - intros k e'. rewrite lookup_insert. case_decide as Hk.
    + intros [= <-] Hs. by rewrite bool_decide_true.
    + intros He' Hs. case_bool_decide as Hse; [|by apply (wf0_unique p Hp _ e')].
      rewrite (Hact Hse), lookup_empty in He'. done.
  - unfold has_active. cbn. intros Ha. case_bool_decide as Hse.
    + exists e. by rewrite lookup_insert_eq.
    + destruct Ha as [(ea & Hea & Hs)|]; [|done]. exists ea.
      rewrite lookup_insert_ne; [done|]. congruence.
Qed.

Lemma addKeyJSON_wf0 p data st p' :
  WF0 p -> (st = localKeyActive -> keys p = ∅) -> addKeyJSON p data st = Ok p' ->
  WF0 p' /\ (has_active p \/ st = localKeyActive -> has_active p') /\ path p' = path p.
Proof.
  unfold addKeyJSON, mbind, res_bind. intros Hp Hst H.
  destruct (localKeyEntryFromJWK data st) as [e|] eqn:He; [|discriminate H].
  apply localKeyEntryFromJWK_ok in He as [Hok Hs].
  destruct (keys p !! kid e) eqn:Hk; [discriminate H|]. injection H as <-. subst st.
  destruct (addEntry_wf0 p e Hp Hok Hk Hst). done.
Qed.

Lemma add_raws_wf0 raws st msg p p' :
  WF0 p -> st <> localKeyActive -> add_raws p raws st msg = Ok p' ->
  WF0 p' /\ (has_active p -> has_active p') /\ path p' = path p.
Proof.
  intros Hp Hst. revert p Hp. induction raws as [|raw raws IH]; cbn [add_raws]; intros p Hp H.
  { by injection H as <-. }
  destruct (addKeyJSON p (Doc raw) st) as [p1|] eqn:H1; [|discriminate H].
  apply addKeyJSON_wf0 in H1 as (Hp1 & Ha & Hpath); [|done..].
  destruct (IH p1 Hp1 H) as (? & Ha' & Hpath'). split; [done|]. split; [|congruence]. auto.
Qed.

Lemma new_provider_wf d pth f p :
  NewLocalKeyProvider d pth f = Ok p -> WF p /\ path p = pth.
Proof.
  unfold NewLocalKeyProvider. intros H.
  destruct (ReadFile d pth f) as [|data]; [discriminate H|].
  assert (Hflat : match addKeyJSON (emptyProvider pth) data localKeyActive with
                  | Ok kp => Ok kp
                  | Err e => Err (WithCause (ParseError "dnsid: parsing key file") e)
                  end = Ok p -> WF p /\ path p = pth).
  { intros H'. destruct (addKeyJSON _ _ _) eqn:Ha; [|discriminate H']. injection H' as ->.
    apply addKeyJSON_wf0 in Ha as (? & Ha & ?); [|apply empty_wf0|done].
    split; [apply wf_of_wf0; auto|done]. }
  destruct (unmarshal_store data) as [[[active|] rets pends]|]; [|by apply Hflat..].
  destruct (addKeyJSON _ _ _) as [p1|] eqn:H1; [|discriminate H].
  apply addKeyJSON_wf0 in H1 as (Hp1 & Ha1 & Hpath1); [|apply empty_wf0|done].
  unfold mbind, res_bind in H.
  destruct (add_raws p1 _ _ _) as [p2|] eqn:H2; [|discriminate H].
  apply add_raws_wf0 in H2 as (Hp2 & Ha2 & Hpath2); [|done..].
  apply add_raws_wf0 in H as (Hp3 & Ha3 & Hpath3); [|done..].
  split; [apply wf_of_wf0; auto|]. by rewrite Hpath3, Hpath2, Hpath1.
Qed.

(** ** Runs of one writer *)

(** [b] holds the same keys as [a], possibly listed in another order of the
    pending keys. *)
Definition same_store (a b : LocalKeyProvider) : Prop :=
  keys a = keys b /\ activeKid a = activeKid b /\ ListKeyIds a = ListKeyIds b.

Lemma is_retained_has_state p k : is_retained p k = has_state p localKeyRetained k.
Proof. done. Qed.

Lemma canonical_same p : WF p -> same_store (canonical p) p.
Proof.
  intros Hp. split; [done|]. split; [done|]. unfold ListKeyIds. f_equal. cbn [order canonical].
  change (is_retained (canonical p)) with (has_state p localKeyRetained).
  change (is_retained p) with (has_state p localKeyRetained).
  rewrite filter_cons, filter_app. rewrite decide_False.
  2:{ rewrite Is_true_true, has_state_true. intros (e & He & Hs).
      destruct (wf_active p Hp) as (e' & ? & ?). congruence. }
  unfold kids_in. rewrite !list_filter_filter.
  rewrite (list_filter_iff _ (fun k => has_state p localKeyRetained k)) by naive_solver.
  rewrite (list_filter_iff (fun k => has_state p localKeyRetained k /\ _) (fun _ => False)).
  - rewrite <- (app_nil_r (base.filter _ _)) at 2. f_equal. induction (order p); done.
  - intros k. rewrite !Is_true_true. split; [|done]. intros [H1 H2].
    by pose proof (has_state_fun _ _ _ _ H1 H2).
Qed.

(** The steps of a system in which this provider is the file's only writer:
    its calls, and other processes' writes elsewhere. *)
Inductive sys_step : LocalKeyProvider * disk -> LocalKeyProvider * disk -> Prop :=
| step_call o p d p' d' r :
    fresh_tmp (op_io o) p d -> run_op o p d = (p', d', r) -> sys_step (p, d) (p', d')
| step_elsewhere p d d' :
    d' !! path p = d !! path p -> sys_step (p, d) (p, d').

Definition tracks (pth : string) (s : LocalKeyProvider * disk) : Prop :=
  WF (fst s) /\ path (fst s) = pth /\
  exists p', NewLocalKeyProvider (snd s) pth None = Ok p' /\ same_store p' (fst s).

Lemma tracks_step pth s s' : pth <> EmptyString -> tracks pth s -> sys_step s s' -> tracks pth s'.
Proof.
  intros Hne (Hp & Hpath & p1 & Hp1 & Hs) Hstep.
  destruct Hstep as [o p d p' d' [kd err] Hf Hrun|p d d' Hd]; cbn in *.
  - pose proof (run_op_outcome o p d Hp Hf) as Ho. rewrite Hrun in Ho.
    destruct Ho as (Hp' & Hpath' & _ & [(-> & -> & _)|(_ & Hper & _)]).
    + split; [done|]. split; [done|]. by exists p1.
    + split; [done|]. split; [cbn; congruence|]. exists (canonical p').
      split; [|by apply canonical_same]. cbn. rewrite <- Hpath, <- Hpath'. apply (reload_persisted p' d d'); [done|congruence|done].
  - split; [done|]. split; [done|]. exists p1. split; [|done].
    cbn. unfold NewLocalKeyProvider, ReadFile in *. subst pth. by rewrite Hd.
Qed.
End invariants.

(** ** What the model relies on of the signature primitives *)
Class SignSpec (key : Type) `{!KeyOps key} `{!JwkLib key} := {
  ed25519_correct seed payload :
    let priv := ed25519_NewKeyFromSeed seed in
    String.length (ed25519_Sign priv payload) = 64%nat /\
    ed25519_verify (str_drop 32 priv) payload (ed25519_Sign priv payload) = true;
  ecdsa_correct priv hash der :
    ecdsa_SignASN1 priv hash = Some der ->
    exists r s, asn1_Unmarshal der = Some (r, s, EmptyString) /\
      0 < r < Cryptoutil.P256Order /\ 0 < s < Cryptoutil.P256Order /\
      ecdsa_verify (ecdsa_Public priv) hash r s = true;
  (* (r, n - s) is a signature whenever (r, s) is *)
  ecdsa_malleable pub hash r s :
    ecdsa_verify pub hash r s = true ->
    ecdsa_verify pub hash r (Cryptoutil.P256Order - s) = true
}.

Section signing.
Context {key : Type} `{!KeyOps key} `{!JwkLib key} `{!JwkSpec key} `{!SignSpec key}.

(** [sig] verifies under the published key [pk], with the check that the
    verifier uses for its algorithm. *)
Definition verifies (pk : key) (payload : string) (sg : KeySignature) : Prop :=
  (Alg sg = JoseAlgEdDSA /\ exists pub, export_ed25519 pk = Some pub /\
     (Cryptoutil.ValidEd25519PublicKey pub = true ->
      Cryptoutil.VerifyEd25519 pub payload (Signature sg) = true)) \/
  (Alg sg = JoseAlgES256 /\ exists pub, export_p256 pk = Some pub /\
     Cryptoutil.VerifyES256 pub payload (Signature sg) = true /\
     snd (Cryptoutil.ES256RawRS (Signature sg)) <= Cryptoutil.P256HalfOrder).

Lemma JWK_inv p k pk e :
  WF p -> keys p !! k = Some e -> JWK p [k] = Some pk ->
  key_id pk = Some k /\
  match Signer_Public (signer e) with
  | Ed25519Public q => export_ed25519 pk = Some q
  | ECDSAPublic q => export_p256 pk = Some q
  | OtherPublic => True
  end.
Proof.
  intros Hp Hk H. unfold JWK in H. rewrite Hk in H. destruct (wf_entry p Hp k e Hk) as [Hkid _].
  destruct (publicJWKForSignerWithKid _ _ _) as [[k0 id0]|] eqn:Hpub; [|discriminate H].
  destruct (str_eqb id0 (kid e)); [|discriminate H]. injection H as ->.
  apply publicJWKForSignerWithKid_inv in Hpub as (_ & Hid & k1 & Hi & Hm). split; [congruence|].
  apply import_public_spec in Hi. unfold material in Hm. injection Hm as _ _ _ _ _ _ M1 M2.
  destruct (Signer_Public (signer e)); congruence.
Qed.

Lemma SignES256_verifies priv payload sig :
  SignES256 priv payload = Ok sig ->
  Cryptoutil.VerifyES256 (ecdsa_Public priv) payload sig = true /\
  snd (Cryptoutil.ES256RawRS sig) <= Cryptoutil.P256HalfOrder.
Proof.
  unfold SignES256, ValidateP256PrivateKey. intros H.
  destruct (_ && _) eqn:Hv; cbn [negb] in H; [|discriminate H].
  apply andb_true_iff in Hv as [_ Hv].
  destruct (ecdsa_SignASN1 priv (sha256 payload)) as [der|] eqn:Hder; [|discriminate H].
  destruct (ecdsa_correct _ _ _ Hder) as (r & s & Hu & Hr & Hs & Hver).
  destruct (Cryptoutil.ES256RawFromDER_low _ _ _ _ Hu Hr Hs) as (sig' & H' & Hval & Hrs & Hlow).
  rewrite H' in H. injection H as <-. split; [|done].
  unfold Cryptoutil.VerifyES256. rewrite Hv, Hval, Hrs. cbn [negb].
  destruct (Z.min_spec s (Cryptoutil.P256Order - s)) as [[_ ->]|[_ ->]]; [done|].
  by apply ecdsa_malleable.
Qed.

Lemma entry_alg e :
  entry_ok e -> joseAlgForPublicKey (Signer_Public (signer e)) = Ok (alg e).
Proof.
  intros (_ & _ & k0 & H). specialize (H localKeyActive).
  unfold newLocalKeyEntry, mbind, res_bind in H.
  destruct (joseAlgForPublicKey _) as [a|]; [|discriminate H].
  destruct (publicJWKForSigner _ _) as [[? ?]|]; [|discriminate H]. by injection H as _ ->.
Qed.

Lemma sign_with_verifies p k e payload sig pk :
  WF p -> keys p !! k = Some e -> sign_with (alg e) (signer e) payload = Ok sig ->
  JWK p [k] = Some pk -> verifies pk payload (Sig k (alg e) sig).
Proof.
  intros Hp Hk Hsig Hpk. destruct (JWK_inv p k pk e Hp Hk Hpk) as [_ Hexp].
  destruct (wf_entry p Hp k e Hk) as [_ Hok]. pose proof (entry_alg e Hok) as Ha.
  destruct Hok as (_ & Hg & _). unfold sign_with in Hsig.
  destruct (signer e) as [q|q|pub]; 
    cbn [Signer_Public joseAlgForPublicKey genuine] in Ha, Hg, Hexp; cbn iota in Hsig; [| |done].
  - destruct (String.length (str_drop 32 q) =? 32)%nat; [|discriminate Ha].
    injection Ha as Ha. rewrite <- Ha in Hsig |- *. left. split; [done|]. exists (str_drop 32 q). split; [done|].
    intros Hv. rewrite str_eqb_refl in Hsig. injection Hsig as <-. destruct Hg as [seed ->].
    destruct (ed25519_correct seed payload) as [Hl Hver].
    unfold Cryptoutil.VerifyEd25519. cbn [Signature]. by rewrite Hl, Hv, Hver.
  - rewrite Hg in Ha. injection Ha as Ha. rewrite <- Ha in Hsig |- *. right. split; [done|]. exists (ecdsa_Public q).
    split; [done|]. exact (SignES256_verifies q payload sig Hsig).
Qed.
End signing.

(** ** Progress of a rotation *)
Section progress.
Context {key : Type} `{!KeyOps key} `{!JwkLib key} `{!JwkSpec key}.

Definition faultless (w : io) : Prop :=
  io_CreateTemp w = None /\ io_Chmod w = None /\ io_Write w = None /\ io_Sync w = None /\
  io_Close w = None /\ io_Rename w = None /\ io_OpenDir w = None /\ io_SyncDir w = None /\
  io_CloseDir w = None.

(** Every key of the provider can be exported. *)
Definition storable (p : LocalKeyProvider) : Prop :=
  forall k e, keys p !! k = Some e -> exists raw, saved e raw.

Lemma persist_entries_storable p l s : storable p -> is_ok (persist_entries p l s) = true.
Proof.
  intros Hs. revert s. induction l as [|k l IH]; intros s; cbn; [done|].
  destruct (keys p !! k) as [e|] eqn:Hk; [|done]. destruct (Hs k e Hk) as (raw & pk & Hpk & Hraw).
  unfold mbind, res_bind. by rewrite Hpk, Hraw.
Qed.

Lemma persistLocked_progress p d w :
  storable p -> faultless w -> fresh_tmp w p d ->
  exists d', persistLocked p d w = (d', None) /\ persisted p d d' /\
    forall x, x <> path p -> d' !! x = d !! x.
Proof.
  intros Hs (W1 & W2 & W3 & W4 & W5 & W6 & W7 & W8 & W9) Hf.
  destruct (persistLocked p d w) as [d' err] eqn:Hr.
  assert (err = None) as ->.
  { unfold persistLocked in Hr. destruct (is_empty (path p)); [by injection Hr|].
    pose proof (persist_entries_storable p (order p) (StoreFile None [] []) Hs) as Hok.
    destruct (persist_entries _ _ _); [|done]. unfold writeFileAtomic in Hr.
    rewrite W1, W2, W3, W4, W5, W6 in Hr. injection Hr as _ <-.
    unfold syncKeyDirectory. by rewrite W7, W8, W9. }
  destruct (persistLocked_spec _ _ _ _ _ Hf Hr) as [[_ (e & He & _)]|[Hp _]]; [done|].
  exists d'. split; [done|]. split; [done|]. intros x Hx. unfold persisted in Hp.
  destruct (is_empty (path p)); [by subst|]. destruct Hp as (s & _ & ->).
  by rewrite lookup_insert_ne.
Qed.

Lemma storable_insert p e : storable p -> (exists raw, saved e raw) -> storable (generated p e).
Proof.
  intros Hs He k e'. cbn. rewrite lookup_insert. case_decide; [|apply Hs]. by intros [= <-].
Qed.

Lemma storable_activated p k : storable p -> k <> activeKid p -> storable (activated p k).
Proof.
  intros Hs Hne k' e'. rewrite activated_lookup by done.
  repeat case_decide; [| |apply Hs]; intros (e0 & He0 & ->)%fmap_Some;
    destruct (Hs _ _ He0) as [raw Hraw]; by exists raw.
Qed.

Lemma storable_purged p k : storable p -> storable (purged p k).
Proof.
  intros Hs k' e' He'. cbn in He'. apply lookup_delete_Some in He' as [_ He']. by apply Hs in He'.
Qed.

(** The three steps of a rotation on a provider that can be saved. *)
Lemma GenerateKey_progress a rng w p d e :
  storable p -> faultless w -> fresh_tmp w p d -> alg_Valid a = true ->
  (s ← generateSigner a rng; newLocalKeyEntry s localKeyPending) = Ok e ->
  keys p !! kid e = None -> (exists raw, saved e raw) ->
  exists d', GenerateKey a rng w p d = (generated p e, d', (kid e, None)) /\
    persisted (generated p e) d d' /\ forall x, x <> path p -> d' !! x = d !! x.
Proof.
  intros Hs Hw Hf Ha He Hk Hsv. unfold GenerateKey. rewrite Ha, He, Hk. cbn [negb].
  fold (generated p e).
  destruct (persistLocked_progress (generated p e) d w) as (d' & Hr & Hp & Hd);
    [by apply storable_insert|done|done|]. rewrite Hr. by exists d'.
Qed.

Lemma Activate_progress k w p d e :
  WF p -> storable p -> faultless w -> fresh_tmp w p d ->
  keys p !! k = Some e -> k <> activeKid p ->
  exists d', Activate k w p d = (activated p k, d', None) /\
    persisted (activated p k) d d' /\ forall x, x <> path p -> d' !! x = d !! x.
Proof.
  intros Hp Hs Hw Hf Hk Hne. unfold Activate. rewrite Hk.
  rewrite (proj2 (str_eqb_neq _ _)) by congruence.
  destruct (wf_active p Hp) as (ea & -> & _). fold (activated p k).
  destruct (persistLocked_progress (activated p k) d w) as (d' & Hr & Hpe & Hd);
    [by apply storable_activated|done|done|]. rewrite Hr. by exists d'.
Qed.

Lemma Supersede_progress k w p d e :
  storable p -> faultless w -> fresh_tmp w p d ->
  keys p !! k = Some e -> state e = localKeyRetained ->
  exists d', Supersede k w p p d = (purged p k, d', None) /\
    persisted (purged p k) d d' /\ forall x, x <> path p -> d' !! x = d !! x.
Proof.
  intros Hs Hw Hf Hk Hst. unfold Supersede, Purge. rewrite Hk, Hst.
  rewrite bool_decide_true, bool_decide_false by done. fold (purged p k).
  destruct (persistLocked_progress (purged p k) d w) as (d' & Hr & Hp & Hd);
    [by apply storable_purged|done|done|]. rewrite Hr. by exists d'.
Qed.
End progress.

(** ** Initial creation *)
Section creation.
Context {key : Type} `{!KeyOps key} `{!JwkLib key} `{!JwkSpec key}.

Lemma creation_data a rng entry data :
  (s ← generateSigner a rng;
   entry ← newLocalKeyEntry s localKeyActive;
   k ← privateJWKForEntry entry;
   active ← rawJWK k;
   Ok (entry, marshal_store (StoreFile (Some active) [] []))) = Ok (entry, data) ->
  entry_ok entry /\ state entry = localKeyActive /\
  exists raw, saved entry raw /\ data = marshal_store (StoreFile (Some raw) [] []).
Proof.
  unfold mbind, res_bind. intros H. pose proof (generateSigner_spec a rng) as Hg.
  destruct (generateSigner a rng) as [s|]; [|discriminate H].
  destruct (newLocalKeyEntry s localKeyActive) as [e|] eqn:He; [|discriminate H].
  destruct (newLocalKeyEntry_plausible s _ e He Hg) as (Hok & _ & Hst & _).
  destruct (privateJWKForEntry e) as [k|] eqn:Hk; [|discriminate H].
  destruct (rawJWK k) as [raw|] eqn:Hraw; [|discriminate H].
  injection H as <- <-. split; [done|]. split; [done|]. exists raw. split; [by exists k|done].
Qed.

Lemma create_file_spec d pth data c d' err :
  d !! pth = None -> create_file d pth data c = (d', err) ->
  (d' = d /\ not_durability err) \/ (d' = <[pth := Doc data]> d /\ visible err).
Proof.
  intros Hn H. unfold create_file in H.
  assert (Hid : forall ct, delete pth (<[pth := ct]> d) = d) by (intros ct; by apply delete_insert_id).
  assert (Hnot : forall m e, not_durability (Some (WithCause (PlainError m) (os_err e))) \/
                   errors_Is (PlainError m) ErrKeyStoreDurability = true).
  { intros m e. destruct (errors_Is (PlainError m) ErrKeyStoreDurability) eqn:Hm; [by right|].
    left. eexists. split; [done|]. unfold errors_Is in *. cbn in Hm |- *.
    rewrite orb_false_r in Hm. rewrite Hm. by destruct e. }
  destruct (c_Write c) as [e|]; [|destruct (c_Sync c) as [e|]; [|destruct (c_Close c) as [e|]]];
    injection H as <- <-; rewrite ?insert_insert_eq.
  1-3: left; split; [apply Hid|]; edestruct Hnot as [?|Hx]; [eassumption|discriminate Hx].
  right. split; [done|apply syncKeyDirectory_visible].
Qed.

(** A one-key store loads as the provider that was written. *)
Lemma created_provider d pth entry raw :
  entry_ok entry -> state entry = localKeyActive -> saved entry raw ->
  d !! pth = Some (Doc (marshal_store (StoreFile (Some raw) [] []))) ->
  let p := addEntry (emptyProvider pth) entry in
  WF p /\ NewLocalKeyProvider d pth None = Ok p.
Proof.
  intros Hok Hst (pk & Hpk & Hraw) Hd p.
  assert (Hp : WF p).
  { destruct (addEntry_wf0 (emptyProvider pth) entry (empty_wf0 pth) Hok) as [H1 H2];
      [apply lookup_empty|done|]. apply wf_of_wf0; auto. }
  assert (Hk : keys p !! kid entry = Some entry) by apply lookup_insert_eq.
  split; [done|]. replace p with (canonical p) at 1.
  - apply (reload_store p d (StoreFile (Some raw) [] [])); [done| |exact Hd].
    cbn [order p addEntry emptyProvider app persist_entries]. rewrite Hk.
    unfold mbind, res_bind. by rewrite Hpk, Hraw, Hst.
  - assert (Hs : forall st, st <> localKeyActive -> has_state p st (kid entry) = false).
    { intros st Hne. unfold has_state. rewrite Hk, Hst. by apply bool_decide_eq_false. }
    assert (Ha : activeKid p = kid entry) by (cbn; by rewrite Hst).
    unfold canonical. change (order p) with [kid entry]. rewrite !kids_in_cons, !Hs by done.
    rewrite Ha. change (kids_in p ?st []) with (@nil string). cbn [app].
    destruct p eqn:Hpe. cbn in Ha |- *. subst. unfold p in Hpe. by injection Hpe as <- <- _ <-.
Qed.
End creation.

(** ** Properties *)
Section properties.
Context {key : Type} `{!KeyOps key} `{!JwkLib key} `{!JwkSpec key}.

(** C27: every call of a well-formed provider — [GenerateKey], [Activate],
    [Supersede], [Purge], with any outcome of its system calls — either makes
    exactly one move of the rotation protocol, the new store being visible in
    the file and the returned error nil or [ErrKeyStoreDurability], or fails
    with another error and leaves both the provider and every file exactly as
    they were. Exactly one key stays active and no call changes the key
    material behind a kid. *)
Theorem keyring_refines_rotation o p d p' d' kd err :
  WF p -> fresh_tmp (op_io o) p d -> run_op o p d = (p', d', (kd, err)) ->
  WF p' /\ path p' = path p /\ same_material p p' /\
  ((p' = p /\ d' = d /\ kd = EmptyString /\ not_durability err) \/
   (rotation o kd (states p) (states p') /\ persisted p' d d' /\ visible err)).
Proof. intros Hp Hf Hr. pose proof (run_op_outcome o p d Hp Hf) as Ho. by rewrite Hr in Ho. Qed.

(** Memory and file never diverge. From any loaded provider, along any
    run of calls (with any faults, durability errors included) and of writes
    to other files, loading the key file gives the keys, states, active kid
    and listed kids the provider holds in memory, and the provider stays
    well-formed. *)
Theorem key_file_tracks_memory d0 pth f p0 p d :
  pth <> EmptyString -> NewLocalKeyProvider d0 pth f = Ok p0 -> rtc sys_step (p0, d0) (p, d) ->
  WF p /\ exists p', NewLocalKeyProvider d pth None = Ok p' /\ same_store p' p.
Proof.
  intros Hne Hload Hrun.
  assert (Ht : tracks pth (p0, d0)).
  { destruct (new_provider_wf _ _ _ _ Hload) as [Hp Hpath]. split; [done|]. split; [done|].
    exists p0. split; [|done]. destruct f; [discriminate Hload|exact Hload]. }
  assert (Hall : forall s s', rtc sys_step s s' -> tracks pth s -> tracks pth s').
  { induction 1; eauto using tracks_step. }
  destruct (Hall _ _ Hrun Ht) as (Hp & _ & H). done.
Qed.

(** C35: a rotation completes. On a provider whose keys can be exported, with
    no system-call fault, generating a key, activating it and superseding the
    old active key all succeed, and end with the new key active, the old one
    gone and every other key as it was, in memory and in the key file. *)
Theorem rotation_completes a rng w1 w2 w3 p d e :
  WF p -> path p <> EmptyString -> storable p ->
  (s ← generateSigner a rng; newLocalKeyEntry s localKeyPending) = Ok e ->
  alg_Valid a = true -> keys p !! kid e = None -> (exists raw, saved e raw) ->
  faultless w1 -> faultless w2 -> faultless w3 ->
  fresh_tmp w1 p d -> fresh_tmp w2 p d -> fresh_tmp w3 p d ->
  exists p1 d1 p2 d2 p3 d3,
    GenerateKey a rng w1 p d = (p1, d1, (kid e, None)) /\
    Activate (kid e) w2 p1 d1 = (p2, d2, None) /\
    Supersede (activeKid p) w3 p2 p2 d2 = (p3, d3, None) /\
    WF p3 /\ activeKid p3 = kid e /\
    keys p3 = <[kid e := set_state localKeyActive e]> (delete (activeKid p) (keys p)) /\
    exists p', NewLocalKeyProvider d3 (path p) None = Ok p' /\ same_store p' p3.
Proof.
  intros Hp Hne Hs He Ha Hk Hsv W1 W2 W3 [F1 N1] [F2 N2] [F3 N3].
  destruct (generated_entry _ _ _ _ He) as [Hok Hst].
  destruct (wf_active p Hp) as (ea & Hea & Hsa).
  assert (Hka : kid e <> activeKid p) by congruence.
  destruct (GenerateKey_progress a rng w1 p d e) as (d1 & R1 & _ & D1); [done..|].
  assert (Hp1 : WF (generated p e)) by by apply generated_wf.
  assert (Hk1 : keys (generated p e) !! kid e = Some e) by apply lookup_insert_eq.
  assert (Hs1 : storable (generated p e)) by by apply storable_insert.
  destruct (Activate_progress (kid e) w2 (generated p e) d1 e) as (d2 & R2 & _ & D2);
    [done..|split; [by rewrite D1|done]|done|done|].
  assert (Hp2 : WF (activated (generated p e) (kid e))) by by eapply activated_wf.
  assert (Hs2 : storable (activated (generated p e) (kid e))) by by apply storable_activated.
  assert (Hk2 : keys (activated (generated p e) (kid e)) !! activeKid p
                = Some (set_state localKeyRetained ea)).
  { rewrite activated_lookup, decide_False, decide_True by done. cbn.
    by rewrite lookup_insert_ne, Hea by done. }
  destruct (Supersede_progress (activeKid p) w3 (activated (generated p e) (kid e)) d2
              (set_state localKeyRetained ea)) as (d3 & R3 & P3 & _);
    [done|done|split; [by rewrite D2, D1 by done|done]|done|done|].
  assert (Hp3 : WF (purged (activated (generated p e) (kid e)) (activeKid p)))
    by by eapply purged_wf.
  do 6 eexists. split; [exact R1|]. split; [exact R2|]. split; [exact R3|].
  split; [exact Hp3|]. split; [reflexivity|]. split.
  - apply map_eq. intros k. change (keys (purged ?q ?x)) with (delete x (keys q)).
    rewrite lookup_delete, lookup_insert, lookup_delete, activated_lookup by done. cbn [keys generated activeKid].
    rewrite lookup_insert. repeat case_decide; subst; try done.
  - eexists. split; [|apply canonical_same, Hp3].
    exact (reload_persisted _ d2 d3 Hp3 Hne P3).
Qed.

(** [loadOrCreateLocalKeyProvider] never overwrites or removes a key file
    it did not create and touches no other file; a provider it returns is
    well-formed and is what its key file holds; and when it fails, either no
    key file is left behind or the error is [ErrKeyStoreDurability] and the
    new file stays. *)
Theorem load_or_create_safe pth a rng c d0 d d' r :
  loadOrCreateLocalKeyProvider pth a rng c d0 d = (d', r) ->
  (forall x, x <> pth -> d' !! x = d !! x) /\
  (d !! pth <> None -> d' = d) /\
  match r with
  | Ok p => WF p /\ path p = pth /\
      (NewLocalKeyProvider d0 pth None = Ok p \/ NewLocalKeyProvider d' pth None = Ok p)
  | Err e => d' = d \/ errors_Is e ErrKeyStoreDurability = true
  end.
Proof.
  assert (Hload : forall dd f p, NewLocalKeyProvider dd pth f = Ok p ->
            WF p /\ path p = pth /\ NewLocalKeyProvider dd pth None = Ok p).
  { intros dd f p H. destruct (new_provider_wf _ _ _ _ H). split; [done|]. split; [done|].
    destruct f; [discriminate H|done]. }
  unfold loadOrCreateLocalKeyProvider. intros H.
  destruct (alg_Valid a); cbn [negb] in H; [|injection H as <- <-; auto].
  destruct (NewLocalKeyProvider d0 pth (c_Read c)) as [p|err] eqn:Hn.
  { injection H as <- <-. apply Hload in Hn as (? & ? & ?). auto 6. }
  destruct (negb _); [injection H as <- <-; auto|].
  destruct (s ← _; _) as [[entry data]|] eqn:Hentry; [|injection H as <- <-; auto].
  pose proof (creation_data _ _ _ _ Hentry) as (Hok & Hst & raw & Hsv & ->).
  assert (Hrace : (d, NewLocalKeyProvider d pth (c_Reread c)) = (d', r) ->
            d' = d /\ match r with
                      | Ok p => WF p /\ path p = pth /\ NewLocalKeyProvider d' pth None = Ok p
                      | Err _ => True end).
  { intros Hr. injection Hr as <- <-. split; [done|].
    destruct (NewLocalKeyProvider d pth (c_Reread c)) as [p|] eqn:Hre; [|done].
    by apply Hload in Hre. }
  destruct (match c_Open c with Some e => Some e | None => _ end) as [[]|] eqn:Hopen;
    try (injection H as <- <-; auto; fail).
  { destruct (Hrace H) as [-> Hr]. destruct r; [|auto]. destruct Hr as (? & ? & ?). auto 6. }
  assert (Hfree : d !! pth = None) by (destruct (c_Open c), (d !! pth); done).
  destruct (create_file d pth _ c) as [d1 err1] eqn:Hc.
  destruct (create_file_spec _ _ _ _ _ _ Hfree Hc) as [[-> (e & -> & He)]|[-> Hv]].
  { injection H as <- <-. auto. }
  assert (Hout : forall x, x <> pth ->
            <[pth := Doc (marshal_store (StoreFile (Some raw) [] []))]> d !! x = d !! x)
    by (intros x Hx; by rewrite lookup_insert_ne).
  destruct Hv as [->|(e & -> & He)]; injection H as <- <-.
  - destruct (created_provider _ pth entry raw Hok Hst Hsv
                (lookup_insert_eq d pth (Doc (marshal_store (StoreFile (Some raw) [] []))))).
    split; [done|]. split; [done|]. auto.
  - split; [done|]. split; [done|]. auto.
Qed.

(** Signatures are made only by active and pending keys, and verify. For
    a well-formed provider, [SignKey] fails with an [ArgumentError] exactly
    when the kid names no active or pending key ([OtherSigner]s aside, which
    no constructor produces); a signature it returns carries the kid and
    algorithm of its key and is accepted by the verifier under the public key
    that [JWK] publishes for that kid. *)
Theorem sign_key_verifies `{!SignSpec key} p k payload :
  WF p ->
  match SignKey p k payload with
  | Ok sg => exists e, keys p !! k = Some e /\ state e <> localKeyRetained /\
      Kid sg = k /\ Alg sg = alg e /\
      forall pk, JWK p [k] = Some pk -> key_id pk = Some k /\ verifies pk payload sg
  | Err e =>
      (exists m, e = ArgumentError m) <->
      ~ exists e, keys p !! k = Some e /\ (state e = localKeyActive \/ state e = localKeyPending)
  end.
Proof.
  intros Hp. unfold SignKey. destruct (keys p !! k) as [e|] eqn:Hk; [|naive_solver].
  destruct (_ && _) eqn:Hst.
  - apply andb_true_iff in Hst as [H1%bool_decide_eq_true H2%bool_decide_eq_true].
    naive_solver.
  - assert (Hsig : state e = localKeyActive \/ state e = localKeyPending)
      by (destruct (state e); auto; discriminate Hst).
    destruct (wf_entry p Hp k e Hk) as [_ Hok]. pose proof (entry_alg e Hok) as Ha.
    assert (Hno : str_eqb (alg e) JoseAlgES256 && negb (is_ecdsa (signer e)) = false).
    { destruct Hok as (_ & Hg & _). destruct (signer e) as [q|q|]; [|by rewrite andb_false_r|done].
      unfold joseAlgForPublicKey, Signer_Public in Ha. destruct (_ =? _)%nat; [|done].
      by injection Ha as <-. }
    rewrite Hno. destruct (sign_with (alg e) (signer e) payload) as [sig|err] eqn:Hs.
    + exists e. split; [done|]. split; [by destruct Hsig as [->| ->]|]. split; [done|].
      split; [done|]. intros pk Hpk. split; [by eapply JWK_inv|].
      by eapply sign_with_verifies.
    + naive_solver.
Qed.
End properties.

(** ** A concrete library, used to evaluate the model

    A key is its public part, its private part and its kid; Ed25519 private
    keys are a 32-byte seed followed by the hash of the seed, and signatures
    are hashes of the public key and the payload. *)
Record demo_jwk := DemoJwk {
  dj_kid : option string;
  dj_alg : option string;
  dj_use : option string;
  dj_pub : PublicKey;
  dj_priv : option Signer
}.
#[export] Instance demo_jwk_eq_dec : EqDecision demo_jwk.
Proof. solve_decision. Defined.

Definition demo_zeros : string := "00000000000000000000000000000000".
Definition demo_seed (seed : string) : string :=
  str_take 32 (String.append seed demo_zeros).
Definition demo_new_key (seed : string) : string :=
  String.append (demo_seed seed) (sha256 (demo_seed seed)).
Definition demo_is_key (p : string) : bool :=
  str_eqb p (demo_new_key (str_take 32 p)).

#[export] Instance demo_jwk_ops : KeyOps demo_jwk := {
  thumbprint_sum k := Some match dj_pub k with
                           | Ed25519Public p => String "e" p
                           | ECDSAPublic p => String "p" p
                           | OtherPublic => "o"%string end;
  key_id := dj_kid;
  key_type k := match dj_pub k with Ed25519Public _ => OKP | ECDSAPublic _ => EC
                | OtherPublic => OtherKeyType end;
  key_crv k := match dj_pub k with Ed25519Public _ => Some Ed25519 | ECDSAPublic _ => Some P256
               | OtherPublic => None end;
  key_algorithm := dj_alg;
  key_usage := dj_use;
  key_is_private k := Some (bool_decide (dj_priv k <> None));
  export_ed25519 k := match dj_pub k with Ed25519Public p => Some p | _ => None end;
  export_p256 k := match dj_pub k with ECDSAPublic p => Some p | _ => None end;
  p256_valid p := negb (is_empty p);
  ed25519_verify pub payload sig := str_eqb sig (demo_sign pub payload);
  ecdsa_verify pub hash r s := (r =? 5) && ((s =? 7) || (s =? Cryptoutil.P256Order - 7))
}.

#[export] Instance demo_jwk_lib : JwkLib demo_jwk := {
  jwk_ParseKey j := match j with
    | JObject [("kid"%string, JString k); ("alg"%string, JString a); ("use"%string, JString u);
               ("d"%string, JString p)] =>
        Some (DemoJwk (Some k) (Some a) (Some u) (Ed25519Public (str_drop 32 p)) (Some (Ed25519Private p)))
    | _ => None end;
  is_OKPPrivateKey k := match dj_priv k with Some (Ed25519Private _) => true | _ => false end;
  is_ECDSAPrivateKey k := match dj_priv k with Some (ECDSAPrivate _) => true | _ => false end;
  Export_ed25519 k := match dj_priv k with
    | Some (Ed25519Private p) => if demo_is_key p then Some p else None | _ => None end;
  Export_ecdsa k := match dj_priv k with Some (ECDSAPrivate p) => Some p | _ => None end;
  Import_public p := Some (DemoJwk None None None p None);
  Import_private s := match s with
    | Ed25519Private p =>
        if demo_is_key p then Some (DemoJwk None None None (Ed25519Public (str_drop 32 p)) (Some s)) else None
    | ECDSAPrivate p => Some (DemoJwk None None None (ECDSAPublic p) (Some s))
    | OtherSigner _ => None end;
  Set_kid k key := Some (DemoJwk (Some k) (dj_alg key) (dj_use key) (dj_pub key) (dj_priv key));
  Set_alg a key := Some (DemoJwk (dj_kid key) (Some a) (dj_use key) (dj_pub key) (dj_priv key));
  Set_use u key := Some (DemoJwk (dj_kid key) (dj_alg key) (Some u) (dj_pub key) (dj_priv key));
  Marshal_key key := match key with
    | DemoJwk (Some k) (Some a) (Some u) pub (Some (Ed25519Private p)) =>
        if bool_decide (pub = Ed25519Public (str_drop 32 p))
        then Some (JObject [("kid"%string, JString k); ("alg"%string, JString a);
                            ("use"%string, JString u); ("d"%string, JString p)])
        else None
    | _ => None end;
  ed25519_NewKeyFromSeed := demo_new_key;
  ed25519_Sign p payload := demo_sign (str_drop 32 p) payload;
  ecdsa_Public p := p;
  p256_private_valid p := true;
  ecdsa_SignASN1 _ _ := Some "der"%string;
  asn1_Unmarshal _ := Some (5, 7, EmptyString);
  Signer_Sign _ _ := None
}.

#[export] Instance demo_jwk_spec : JwkSpec demo_jwk.
Proof.
  constructor.
  - intros k s. cbn. intros [= <-]. by destruct (dj_pub k).
  - intros k p. cbn. destruct (dj_priv k) as [[q|q|]|]; try done.
    destruct (demo_is_key q) eqn:Hq; [|done]. intros [= <-]. apply str_eqb_eq in Hq.
    by exists (str_take 32 q).
  - intros [[k|] [a|] [u|] pub [[p|p|]|]] j; cbn; try done. case_bool_decide as Hp; [|done].
    intros [= <-]. by rewrite Hp.
  - intros kd k k'. cbn. intros [= <-]. done.
  - intros kd k k'. cbn. intros [= <-]. done.
  - intros kd k k'. cbn. intros [= <-]. done.
  - intros seed k. cbn -[demo_is_key]. destruct (demo_is_key (demo_new_key seed)) eqn:Hk; [|done].
    intros [= <-]. cbn -[demo_is_key demo_new_key]. by rewrite Hk.
  - intros p k _. cbn. intros [= <-]. done.
  - intros p k. cbn. intros [= <-]. by destruct p.
Qed.

#[export] Instance demo_sign_spec : SignSpec demo_jwk.
Proof.
  constructor.
  - intros seed payload priv. split; [|cbn; apply str_eqb_refl].
    unfold priv. cbn -[demo_sign demo_new_key str_drop]. unfold demo_sign.
    by rewrite append_length, !length_sha256.
  - intros priv hash der _. exists 5, 7. done.
  - intros pub hash r s. cbn -[Cryptoutil.P256Order]. rewrite !andb_true_iff, !orb_true_iff, !Z.eqb_eq.
    lia.
Qed.

Definition demo_io (tmp : string) : io :=
  {| io_tmp := tmp; io_CreateTemp := None; io_Chmod := None; io_Write := None; io_Sync := None;
     io_Close := None; io_Rename := None; io_OpenDir := None; io_SyncDir := None;
     io_CloseDir := None |}.
Definition demo_io_dirsync (tmp : string) : io :=
  {| io_tmp := tmp; io_CreateTemp := None; io_Chmod := None; io_Write := None; io_Sync := None;
     io_Close := None; io_Rename := None; io_OpenDir := None; io_SyncDir := Some ErrOther;
     io_CloseDir := None |}.
Definition demo_create : create_io :=
  {| c_Read := None; c_Open := None; c_Reread := None; c_Write := None; c_Sync := None;
     c_Close := None; c_Dir := demo_io "t" |}.
Definition demo_start : disk * res LocalKeyProvider :=
  loadOrCreateLocalKeyProvider "keys.json" JoseAlgEdDSA (Some "seed-0"%string) demo_create ∅ ∅.
Definition demo_disk : disk := fst demo_start.
Definition demo_provider : LocalKeyProvider :=
  match snd demo_start with Ok p => p | Err _ => emptyProvider "" end.

#[local] Opaque sha256.

Lemma demo_load : NewLocalKeyProvider demo_disk "keys.json" None = Ok demo_provider.
Proof. vm_compute. reflexivity. Qed.
Lemma demo_wf : WF demo_provider.
Proof. exact (proj1 (new_provider_wf _ _ _ _ demo_load)). Qed.

Definition demo_entry : localKeyEntry :=
  match s ← generateSigner (key := demo_jwk) JoseAlgEdDSA (Some "seed-1"%string);
        newLocalKeyEntry s localKeyPending with
  | Ok e => e | Err _ => Entry "" "" (OtherSigner OtherPublic) localKeyPending end.
Definition demo_save (e : localKeyEntry) : json :=
  match k ← privateJWKForEntry (key := demo_jwk) e; rawJWK k with Ok j => j | Err _ => JNull end.

Lemma demo_fresh w : io_tmp w = "t"%string -> fresh_tmp w demo_provider demo_disk.
Proof. unfold fresh_tmp. intros ->. split; vm_compute; [reflexivity|discriminate]. Qed.

Definition demo_generate : op :=
  GenerateOp JoseAlgEdDSA (Some "seed-1"%string) (demo_io_dirsync "t").
Lemma demo_generate_fresh : fresh_tmp (op_io demo_generate) demo_provider demo_disk.
Proof. apply demo_fresh. reflexivity. Qed.

(** A directory sync that fails while a key is generated: the key stays. *)
Lemma keyring_refines_rotation_witness :
  let '(p', d', (kd, err)) := run_op demo_generate demo_provider demo_disk in
  rotation demo_generate kd (states demo_provider) (states p') /\ visible err /\ err <> None.
Proof.
  destruct (run_op demo_generate demo_provider demo_disk) as [[p' d'] [kd err]] eqn:Hrun.
  assert (He : err <> None /\ errors_Is (default ContextError err) ErrKeyStoreDurability = true).
  { assert (Hs : snd (snd (run_op demo_generate demo_provider demo_disk)) = err)
      by (rewrite Hrun; reflexivity).
    rewrite <- Hs. split; [vm_compute; discriminate|vm_compute; reflexivity]. }
  pose proof (keyring_refines_rotation demo_generate demo_provider demo_disk p' d' kd err
                demo_wf demo_generate_fresh Hrun) as H.
  clear Hrun. destruct H as (_ & _ & _ & [(_ & _ & _ & e & -> & Hno)|(Hrot & _ & Hvis)]).
  - exfalso. destruct He as [_ He]. change (errors_Is e ErrKeyStoreDurability = true) in He.
    rewrite Hno in He. discriminate He.
  - destruct He as [He _]. exact (conj Hrot (conj Hvis He)).
Defined.

Lemma key_file_tracks_memory_witness :
  exists p d, rtc sys_step (demo_provider, demo_disk) (p, d) /\ size (keys p) = 2%nat /\
    WF p /\ exists p', NewLocalKeyProvider d "keys.json" None = Ok p' /\ same_store p' p.
Proof.
  destruct (run_op demo_generate demo_provider demo_disk) as [[p d] r] eqn:Hrun.
  assert (Hstep : rtc sys_step (demo_provider, demo_disk) (p, d)).
  { apply rtc_once. exact (step_call demo_generate _ _ _ _ _ demo_generate_fresh Hrun). }
  assert (Hsize : size (keys p) = 2%nat).
  { assert (Hs : fst (fst (run_op demo_generate demo_provider demo_disk)) = p)
      by (rewrite Hrun; reflexivity).
    rewrite <- Hs. vm_compute. reflexivity. }
  clear Hrun. exists p, d. split; [exact Hstep|]. split; [exact Hsize|].
  apply (key_file_tracks_memory demo_disk "keys.json" None demo_provider p d);
    [discriminate|exact demo_load|exact Hstep].
Defined.

Definition demo_can_save (e : localKeyEntry) : bool :=
  match demo_save e with JNull => false | _ => true end.

Lemma demo_saved e : demo_can_save e = true -> saved e (demo_save e).
Proof.
  unfold demo_can_save, demo_save, saved, mbind, res_bind. intros H.
  destruct (privateJWKForEntry e) as [k|] eqn:Hk; [|done]. exists k. split; [done|].
  by destruct (rawJWK k).
Qed.

Lemma demo_storable : storable demo_provider.
Proof.
  assert (Hall : map_Forall (fun _ e => demo_can_save e = true) (keys demo_provider)).
  { apply (bool_decide_unpack _). vm_compute. exact I. }
  intros k e He. exists (demo_save e). apply demo_saved. exact (Hall k e He).
Qed.

Lemma demo_entry_ok :
  (s ← generateSigner (key := demo_jwk) JoseAlgEdDSA (Some "seed-1"%string);
   newLocalKeyEntry s localKeyPending) = Ok demo_entry.
Proof. vm_compute. reflexivity. Qed.

Lemma rotation_completes_witness :
  exists p3 d3, activeKid p3 = kid demo_entry /\
    keys p3 = <[kid demo_entry := set_state localKeyActive demo_entry]>
                (delete (activeKid demo_provider) (keys demo_provider)) /\
    exists p', NewLocalKeyProvider d3 (path demo_provider) None = Ok p' /\ same_store p' p3.
Proof.
  assert (H1 : path demo_provider <> EmptyString) by (vm_compute; discriminate).
  assert (H2 : keys demo_provider !! kid demo_entry = None) by (vm_compute; reflexivity).
  assert (H3 : exists raw, saved demo_entry raw).
  { exists (demo_save demo_entry). apply demo_saved. vm_compute. reflexivity. }
  assert (H4 : forall t, faultless (demo_io t)) by (intros t; repeat split).
  assert (H5 : fresh_tmp (demo_io "t") demo_provider demo_disk) by (apply demo_fresh; reflexivity).
  pose proof (rotation_completes JoseAlgEdDSA (Some "seed-1"%string) (demo_io "t") (demo_io "t")
    (demo_io "t") demo_provider demo_disk demo_entry demo_wf H1 demo_storable demo_entry_ok
    eq_refl H2 H3 (H4 _) (H4 _) (H4 _) H5 H5 H5) as H.
  clear -H. destruct H as (p1 & d1 & p2 & d2 & p3 & d3 & _ & _ & _ & _ & Ha & Hk & Hr).
  exists p3, d3. split; [exact Ha|]. split; [exact Hk|exact Hr].
Defined.

Lemma demo_created :
  loadOrCreateLocalKeyProvider "keys.json" JoseAlgEdDSA (Some "seed-0"%string) demo_create ∅ ∅
  = (demo_disk, Ok demo_provider).
Proof. vm_compute. reflexivity. Qed.

Lemma load_or_create_safe_witness :
  WF demo_provider /\ path demo_provider = "keys.json"%string /\
  (NewLocalKeyProvider ∅ "keys.json" None = Ok demo_provider \/
   NewLocalKeyProvider demo_disk "keys.json" None = Ok demo_provider).
Proof.
  apply (load_or_create_safe "keys.json" JoseAlgEdDSA (Some "seed-0"%string) demo_create ∅ ∅
           demo_disk (Ok demo_provider) demo_created).
Defined.

Lemma sign_key_verifies_witness :
  exists sg pk, SignKey demo_provider (activeKid demo_provider) "payload" = Ok sg /\
    JWK demo_provider [activeKid demo_provider] = Some pk /\ verifies pk "payload" sg.
Proof.
  pose proof (sign_key_verifies demo_provider (activeKid demo_provider) "payload" demo_wf) as H.
  destruct (SignKey demo_provider (activeKid demo_provider) "payload") as [sg|] eqn:Hs;
    [|vm_compute in Hs; discriminate Hs].
  destruct H as (e & _ & _ & _ & _ & Hv).
  destruct (JWK demo_provider [activeKid demo_provider]) as [pk|] eqn:Hpk;
    [|vm_compute in Hpk; discriminate Hpk].
  exists sg, pk. split; [reflexivity|]. split; [reflexivity|]. apply Hv. reflexivity.
Defined.

(** [Sign] takes the lock twice: when [Activate] of another key runs between
    the two, it fails although a key is active before, between and after. *)
Lemma sign_can_fail_during_activation :
  let p1 := fst (fst (run_op (GenerateOp JoseAlgEdDSA (Some "seed-1"%string) (demo_io "t"))
                        demo_provider demo_disk)) in
  let p2 := fst (fst (run_op (ActivateOp (kid demo_entry) (demo_io "t")) p1 demo_disk)) in
  is_ok (Sign p1 p1 "payload") = true /\ is_ok (Sign p2 p2 "payload") = true /\
  is_ok (Sign p1 p2 "payload") = false.
Proof. vm_compute. repeat split. Qed.
