(* ===== verification/Jwks.v ===== *)
(** * Jwks: key sets and the owner signature of an identity record

    The JWKS admission rules of jwk_alg.go, the [JWKS]/[JWK] wrappers of
    jwks_wrapper.go, and record_signature.go: which served key signs a record
    and whether its signature verifies over the record's canonical content. *)

From Stdlib Require Import ZArith Lia Ascii String.
From S2P Require Import Prelude Codec Json Keys TxtRecord KeyRing KeyRingSpec.

Open Scope Z_scope.

(** What jwk.Set and jwk.Key offer beyond [KeyOps]: the optional [KeyOps()]
    accessor and [jwk.Parse]. *)
Class JwkSetLib (key : Type) := {
  key_operations : key -> option (list string);
  jwk_Parse : json -> option (list key)
}.

Section jwks.
Context {key : Type} `{!KeyOps key} `{!JwkSetLib key}.

(** ** Raw admission of a JWKS document (jwk_alg.go) *)

Definition decodeFixedJWKCoordinate (value : string) : res string :=
  fail_if is_empty value with PlainError "missing" ;;
  fail_if has_byte "="%char value with PlainError "must be unpadded base64url" ;;
  match Base64.decode false value with
  | None => Err (PlainError "illegal base64 data")
  | Some decoded =>
      fail_if negb (String.length decoded =? 32)%nat with PlainError "length, want 32" ;;
      Ok decoded
  end.

(** The struct each key is first decoded into. *)
Record rawKey := RawKey {
  Kty : string; Crv : string; X : string; Y : string;
  rAlg : string; rUse : string; rKid : string
}.

Definition unmarshal_raw_key (raw : json) : option rawKey :=
  f ← object_fields raw;
  kty ← string_field "kty" f; crv ← string_field "crv" f;
  x ← string_field "x" f; y ← string_field "y" f;
  alg ← string_field "alg" f; use ← string_field "use" f; kid ← string_field "kid" f;
  Some (RawKey kty crv x y alg use kid).

Definition bad_coordinate (value : string) : bool := negb (is_ok (decodeFixedJWKCoordinate value)).

(** The [switch] over key kinds: whether the key is kept. The cause of a
    coordinate error is dropped. *)
Definition admit_raw_key (k : rawKey) : res bool :=
  if str_eqb (Kty k) "OKP" && str_eqb (Crv k) "Ed25519" then
    fail_if negb (is_empty (rAlg k)) && negb (str_eqb (rAlg k) JoseAlgEdDSA)
      with ValidationError "dnsid: Ed25519 key has inconsistent alg" ;;
    if str_eqb (rUse k) "enc" then Ok true
    else
      fail_if negb (is_empty (rUse k)) && negb (str_eqb (rUse k) "sig")
        with ValidationError "dnsid: Ed25519 key has unsupported use" ;;
      fail_if bad_coordinate (X k)
        with ValidationError "dnsid: Ed25519 key invalid x coordinate" ;;
      Ok true
  else if str_eqb (Kty k) "EC" && str_eqb (Crv k) "P-256" then
    if str_eqb (rUse k) "enc" then Ok true
    else
      fail_if is_empty (rKid k) with ValidationError "dnsid: ES256 key missing kid" ;;
      fail_if negb (is_empty (rAlg k)) && negb (str_eqb (rAlg k) JoseAlgES256)
        with ValidationError "dnsid: ES256 key has inconsistent alg" ;;
      fail_if negb (is_empty (rUse k)) && negb (str_eqb (rUse k) "sig")
        with ValidationError "dnsid: ES256 key has unsupported use" ;;
      fail_if bad_coordinate (X k) with ValidationError "dnsid: ES256 key invalid x coordinate" ;;
      fail_if bad_coordinate (Y k) with ValidationError "dnsid: ES256 key invalid y coordinate" ;;
      Ok true
  else Ok false.

(** The loop over [doc.Keys]; [seen] is [seenKids]. *)
Fixpoint filter_raw_keys (raws : list json) (seen : list string) : res (list json) :=
  match raws with
  | [] => Ok []
  | raw :: raws =>
      match unmarshal_raw_key raw with
      | None => Err (ParseError "dnsid: parsing JWKS key")
      | Some k =>
          fail_if negb (is_empty (rKid k)) && bool_decide (rKid k ∈ seen)
            with ValidationError "dnsid: duplicate kid in JWKS" ;;
          let seen := if is_empty (rKid k) then seen else rKid k :: seen in
          keep ← admit_raw_key k;
          rest ← filter_raw_keys raws seen;
          Ok (if keep : bool then raw :: rest else rest)
      end
  end.

Definition validateJWKSJSON (data : content) : res json :=
  match data with
  | Torn => Err (ParseError "dnsid: parsing JWKS")
  | Doc j =>
      match f ← object_fields j; slice_field "keys" f with
      | None => Err (ParseError "dnsid: parsing JWKS")
      | Some keys =>
          filtered ← filter_raw_keys keys [];
          Ok (JObject [("keys"%string, JArray filtered)])
      end
  end.

(** ** Admission of parsed keys *)

Definition keyUse (k : key) : string := default EmptyString (key_usage k).
Definition jwkAlg (k : key) : option JoseAlg := key_algorithm k.
Definition jwkKid (k : key) : string := default EmptyString (key_id k).

Definition algForJWK (k : key) : option JoseAlg :=
  match key_type k with
  | OKP => if bool_decide (key_crv k = Some Ed25519) then Some JoseAlgEdDSA else None
  | EC => if bool_decide (key_crv k = Some P256) then Some JoseAlgES256 else None
  | OtherKeyType => None
  end.

Definition validateES256JWK (k : key) : res unit :=
  match export_p256 k with
  | None => Err (PlainError "dnsid: exporting ES256 public key")
  | Some raw => fail_if negb (p256_valid raw) with PlainError "invalid P-256 key" ;; Ok tt
  end.

Definition validateJWKUse (k : key) : res unit :=
  match algForJWK k with
  | None => Ok tt
  | Some _ =>
      if is_empty (keyUse k) || str_eqb (keyUse k) "sig" || str_eqb (keyUse k) "enc" then Ok tt
      else Err (PlainError "dnsid: JWK has unsupported use")
  end.

Definition validateJWKAlgConsistency (k : key) : res unit :=
  if str_eqb (keyUse k) "enc" then Ok tt
  else match algForJWK k with
  | Some binding =>
      fail_if match jwkAlg k with Some a => negb (str_eqb a binding) | None => false end
        with PlainError "dnsid: JWK alg inconsistent with key type" ;;
      if str_eqb binding JoseAlgES256 then
        fail_if is_empty (jwkKid k) with PlainError "dnsid: ES256 key missing kid" ;;
        validateES256JWK k
      else Ok tt
  | None =>
      fail_if match jwkAlg k with Some a => alg_Valid a | None => false end
        with PlainError "dnsid: JWK alg inconsistent with key type" ;;
      Ok tt
  end.

(** The loop of [validateJWKSet]; a set holds no nil key. *)
Fixpoint validate_keys (set : list key) (seen : list string) : res unit :=
  match set with
  | [] => Ok tt
  | k :: set =>
      fail_if negb (is_empty (jwkKid k)) && bool_decide (jwkKid k ∈ seen)
        with PlainError "dnsid: duplicate kid in JWKS" ;;
      let seen := if is_empty (jwkKid k) then seen else jwkKid k :: seen in
      _ ← validateJWKUse k;
      _ ← validateJWKAlgConsistency k;
      validate_keys set seen
  end.

Definition validateJWKSet (set : option (list key)) : res unit :=
  match set with
  | None => Err (PlainError "dnsid: nil JWKS")
  | Some set => validate_keys set []
  end.

Definition parseValidatedJWKS (data : content) : res (list key) :=
  filtered ← validateJWKSJSON data;
  match jwk_Parse filtered with
  | None => Err (WithCause (ParseError "dnsid: parsing JWKS") (PlainError "jwk.Parse"))
  | Some set =>
      match validateJWKSet (Some set) with
      | Err e => Err (WithCause (ValidationError "dnsid: invalid JWKS") e)
      | Ok _ => Ok set
      end
  end.

Definition signingKeyEligible (k : key) : bool :=
  if negb (is_empty (keyUse k)) && negb (str_eqb (keyUse k) "sig") then false
  else match key_operations k with
       | Some ops => bool_decide ("verify"%string ∈ ops)
       | None => true
       end.

Definition exportEd25519PublicKey (k : key) : res string :=
  match export_ed25519 k with
  | None => Err (PlainError "jwk.Export")
  | Some raw =>
      fail_if negb (String.length raw =? 32)%nat
        with PlainError "invalid Ed25519 public key size" ;; Ok raw
  end.

Definition exportES256PublicKey (k : key) : res string :=
  match export_p256 k with
  | None => Err (PlainError "jwk.Export")
  | Some raw => fail_if negb (p256_valid raw) with PlainError "invalid P-256 key" ;; Ok raw
  end.

(** ** The wrappers of jwks_wrapper.go: a nil [*JWKS] or a nil set is [None] *)

Definition is_validation (e : error) : option unit :=
  match e with ValidationError _ => Some tt | _ => None end.

Definition ParseJWKSet (data : content) : res (list key) :=
  match parseValidatedJWKS data with
  | Ok set => Ok set
  | Err err =>
      match errors_as is_validation err with
      | Some _ => Err (WithCause (ValidationError "jwks: parsing JWKS") err)
      | None => Err (WithCause (ParseError "jwks: parsing JWKS") err)
      end
  end.

Definition ParseJWKS (data : content) : res (option (list key)) :=
  set ← ParseJWKSet data; Ok (Some set).

Definition isSigningKey (k : key) : bool := is_empty (keyUse k) || str_eqb (keyUse k) "sig".

Definition SigningKeys (j : option (list key)) : list key :=
  match j with None => [] | Some set => base.filter isSigningKey set end.

Definition KeyByID (j : option (list key)) (kid : string) : option key :=
  match j with
  | None => None
  | Some set =>
      if is_empty kid then None
      else List.find (fun k => bool_decide (key_id k = Some kid)) set
  end.

(** The loop of [Validate]: how many usable signing keys there are. *)
Fixpoint count_signing (set : list key) (usable : nat) : res nat :=
  match set with
  | [] => Ok usable
  | k :: set =>
      if negb (isSigningKey k) then count_signing set usable
      else
        fail_if is_empty (jwkKid k) with ValidationError "jwks: signing key missing kid" ;;
        match algForJWK k with
        | None => Err (ValidationError "jwks: signing key has unsupported key type")
        | Some _ => count_signing set (S usable)
        end
  end.

Definition jwks_Validate (j : option (list key)) : res unit :=
  match j with
  | None => Err (ValidationError "jwks: no usable signing key")
  | Some set =>
      match validateJWKSet (Some set) with
      | Err e => Err (WithCause (ValidationError "jwks") e)
      | Ok _ =>
          usable ← count_signing set 0;
          fail_if (usable =? 0)%nat with ValidationError "jwks: no usable signing key" ;; Ok tt
      end
  end.

(** ** Current signing keys (record_signature.go) *)

Definition singleCurrentSigningKey (set : option (list key)) : res key :=
  match set with
  | None => Err (PlainError "dnsid: nil JWKS")
  | Some set =>
      match base.filter signingKeyEligible set with
      | [k] => Ok k
      | _ => Err (PlainError "JWKS must serve exactly one current signing key")
      end
  end.

Definition singleDraft01SigningKey (set : option (list key)) : res key :=
  k ← singleCurrentSigningKey set;
  fail_if is_empty (jwkKid k) with PlainError "draft 01 signing key must include kid" ;;
  fail_if existsb (fun c => bool_decide (key_algorithm c = None)) (default [] set)
    with PlainError "draft 01 JWKS key must include alg" ;;
  match jwkAlg k with
  | None => Err (PlainError "draft 01 signing key must include alg")
  | Some a =>
      fail_if negb (alg_Valid a) with PlainError "draft 01 signing key must include alg" ;;
      fail_if negb (bool_decide (algForJWK k = Some a))
        with PlainError "draft 01 signing key alg is inconsistent with key type" ;;
      Ok k
  end.

Definition currentProfileSigningKey (j : option (list key)) (profile : string) : res key :=
  let profile := if is_empty profile then DefaultPublishProfile else profile in
  match profileForVersion profile with
  | None => Err (ArgumentError "jwks: unsupported identity-record profile")
  | Some _ =>
      let invalid e := Err (WithCause (ValidationError "jwks: invalid key set") e) in
      match validateJWKSet j with
      | Err e => invalid e
      | Ok _ => match singleDraft01SigningKey j with Err e => invalid e | Ok k => Ok k end
      end
  end.
Definition CurrentRecordSigningKey := currentProfileSigningKey.
Definition CurrentOperationalSigningKey := currentProfileSigningKey.
Definition ValidateRecordSigning (j : option (list key)) (profile : string) : res unit :=
  _ ← currentProfileSigningKey j profile; Ok tt.
Definition ValidateOperational (j : option (list key)) (profile : string) : res unit :=
  _ ← currentProfileSigningKey j profile; Ok tt.

(** A nil [*JWK] or a nil key is [None]. *)
Definition jwk_Thumbprint (k : option key) : res string :=
  match k with
  | None => Err (PlainError "jwks: nil JWK")
  | Some k =>
      match thumbprint_sum k with
      | None => Err (PlainError "jwks: computing JWK thumbprint")
      | Some sum => Ok (Base64.encode sum)
      end
  end.
Definition jwk_Kid (k : option key) : string :=
  match k with None => EmptyString | Some k => jwkKid k end.
Definition jwk_Alg (k : option key) : JoseAlg :=
  match k with
  | None => EmptyString
  | Some k => match jwkAlg k with
              | Some a => a
              | None => match algForJWK k with Some a => a | None => EmptyString end
              end
  end.
Definition jwk_Use (k : option key) : string :=
  match k with None => EmptyString | Some k => keyUse k end.

Definition SignatureAlg (k : option key) (profile : string) : res JoseAlg :=
  let profile := if is_empty profile then DefaultPublishProfile else profile in
  let invalid m := Err (WithCause (ValidationError "jwks: invalid signing key") (PlainError m)) in
  match profileForVersion profile with
  | None => Err (ArgumentError "jwks: unsupported identity-record profile")
  | Some _ =>
      match k with
      | None => invalid "dnsid: nil JWK"
      | Some k =>
          if negb (signingKeyEligible k) then invalid "key is not eligible for signing"
          else match jwkAlg k with
          | None => invalid "draft 01 signing key must include alg"
          | Some a =>
              if negb (alg_Valid a) then invalid "draft 01 signing key must include alg"
              else if negb (bool_decide (algForJWK k = Some a))
                then invalid "draft 01 signing key alg is inconsistent with key type"
              else Ok a
          end
      end
  end.

(** ** The owner signature of a record *)

(** The three sentinels differ by identity only; their names stand for them. *)
Definition ErrOwnerSignatureMalformed : error := PlainError "ErrOwnerSignatureMalformed".
Definition ErrOwnerSignatureInvalidJWKS : error := PlainError "ErrOwnerSignatureInvalidJWKS".
Definition ErrOwnerSignatureNoMatchingKey : error := PlainError "ErrOwnerSignatureNoMatchingKey".

Definition ownerSignatureError (reason : error) : error :=
  WithCause (VerificationError "signature_invalid" false
               "dnsid: _dnsid owner signature verification failed") reason.

Definition encodeRecordSignatureForProfile (version : string) (a : JoseAlg) (sig : string) : res string :=
  match profileForVersion version with
  | None => Err (PlainError "dnsid: unsupported signature profile")
  | Some profile =>
      match signatureFormat profile with
      | signatureFormatDraft01 =>
          fail_if negb (alg_Valid a) with PlainError "dnsid: unsupported JOSE alg" ;;
          Ok (Base64.encode sig)
      end
  end.

Definition verifyRecordSignatureWithKey (r : TXTRecord) (a : JoseAlg) (sig : string) (k : key) : bool :=
  if str_eqb a JoseAlgEdDSA then
    match exportEd25519PublicKey k with
    | Ok pub => Cryptoutil.VerifyEd25519 pub (CanonicalContent r) sig
    | Err _ => false
    end
  else if str_eqb a JoseAlgES256 then
    match exportES256PublicKey k with
    | Ok pub => Cryptoutil.VerifyES256 pub (CanonicalContent r) sig
    | Err _ => false
    end
  else false.

Definition verifiedDraft01RecordSigningKey (r : TXTRecord) (set : option (list key)) : res key :=
  match singleDraft01SigningKey set with
  | Err _ => Err (ownerSignatureError ErrOwnerSignatureInvalidJWKS)
  | Ok k =>
      let a := default EmptyString (jwkAlg k) in
      fail_if has_byte ":"%char (TxtRecord.Signature r) || has_byte "="%char (TxtRecord.Signature r)
        with ownerSignatureError ErrOwnerSignatureMalformed ;;
      match Base64.decode false (TxtRecord.Signature r) with
      | None => Err (ownerSignatureError ErrOwnerSignatureMalformed)
      | Some sig =>
          if str_eqb a JoseAlgEdDSA then
            fail_if negb (String.length sig =? 64)%nat
              with ownerSignatureError ErrOwnerSignatureMalformed ;;
            fail_if negb (verifyRecordSignatureWithKey r a sig k)
              with ownerSignatureError ErrOwnerSignatureNoMatchingKey ;;
            Ok k
          else if str_eqb a JoseAlgES256 then
            fail_if negb (Cryptoutil.ValidES256Signature sig)
              with ownerSignatureError ErrOwnerSignatureMalformed ;;
            fail_if negb (verifyRecordSignatureWithKey r a sig k)
              with ownerSignatureError ErrOwnerSignatureNoMatchingKey ;;
            Ok k
          else Err (ownerSignatureError ErrOwnerSignatureInvalidJWKS)
      end
  end.

Definition verifiedRecordSigningKey (r : option TXTRecord) (set : option (list key)) : res key :=
  match r with
  | None => Err (ownerSignatureError ErrOwnerSignatureMalformed)
  | Some r =>
      fail_if is_empty (TxtRecord.Signature r) with ownerSignatureError ErrOwnerSignatureMalformed ;;
      fail_if negb (is_ok (validateJWKSet set))
        with ownerSignatureError ErrOwnerSignatureInvalidJWKS ;;
      match profileForVersion (TxtRecord.Version r) with
      | None => Err (ownerSignatureError ErrOwnerSignatureMalformed)
      | Some profile =>
          match signatureFormat profile with
          | signatureFormatDraft01 => verifiedDraft01RecordSigningKey r set
          end
      end
  end.

Definition verifyRecordSignatureWithJWKS (r : option TXTRecord) (set : option (list key)) : res unit :=
  _ ← verifiedRecordSigningKey r set; Ok tt.
End jwks.

(** ** What the checks mean *)
Section admission.
Context {key : Type} `{!KeyOps key} `{!JwkSetLib key}.

Definition nonempty (l : list string) : list string :=
  base.filter (fun s => negb (is_empty s)) l.

(** A key that DNSid can verify with is consistent about it: a known use,
    and unless it is an encryption key, the algorithm of its type and, for
    ES256, a kid and a valid point. Any other key claims no DNSid algorithm. *)
Definition key_ok (k : key) : Prop :=
  match algForJWK k with
  | Some b =>
      keyUse k ∈ [EmptyString; "sig"; "enc"]%string /\
      (keyUse k <> "enc"%string ->
       (forall a, key_algorithm k = Some a -> a = b) /\
       (b = JoseAlgES256 -> jwkKid k <> EmptyString /\
          exists raw, export_p256 k = Some raw /\ p256_valid raw = true))
  | None => keyUse k = "enc"%string \/ forall a, key_algorithm k = Some a -> alg_Valid a = false
  end.

Definition valid_set (set : list key) : Prop :=
  NoDup (nonempty (jwkKid <$> set)) /\ Forall key_ok set.

Lemma is_ok_Ok {A} (r : res A) : is_ok r = true <-> exists a, r = Ok a.
Proof. destruct r; cbn; split; eauto; [discriminate|by intros [? ?]]. Qed.

Lemma validateES256JWK_spec (k : key) :
  validateES256JWK k = Ok tt <-> exists raw, export_p256 k = Some raw /\ p256_valid raw = true.
Proof.
  unfold validateES256JWK. destruct (export_p256 k) as [raw|].
  - split.
    + destruct (p256_valid raw) eqn:E; [by exists raw|done].
    + intros (r & [= <-] & ->). done.
  - split; [done|by intros (r & ? & _)].
Qed.

Lemma key_checks_spec (k : key) :
  (validateJWKUse k = Ok tt /\ validateJWKAlgConsistency k = Ok tt) <-> key_ok k.
Proof.
  unfold validateJWKUse, validateJWKAlgConsistency, key_ok, jwkAlg.
  destruct (algForJWK k) as [b|].
  - rewrite !elem_of_cons, elem_of_nil.
    destruct (decide (keyUse k = "enc"%string)) as [Hu|Hu]; [rewrite Hu; cbn; naive_solver|].
    rewrite (proj2 (str_eqb_neq _ _) Hu), orb_false_r.
    destruct (is_empty (keyUse k) || str_eqb (keyUse k) "sig") eqn:Euse.
    2:{ apply orb_false_iff in Euse as [H1%is_empty_false H2%str_eqb_neq]. naive_solver. }
    rewrite orb_true_iff, is_empty_true, str_eqb_eq in Euse.
    assert (Halg : (match key_algorithm k with Some a => negb (str_eqb a b) | None => false end)
                   = false <-> forall a, key_algorithm k = Some a -> a = b).
    { destruct (key_algorithm k) as [a|]; [|naive_solver].
      rewrite negb_false_iff, str_eqb_eq. naive_solver. }
    assert (Hes : (if str_eqb b JoseAlgES256
                   then if is_empty (jwkKid k) then Err (PlainError "dnsid: ES256 key missing kid")
                        else validateES256JWK k
                   else Ok tt) = Ok tt <->
                  (b = JoseAlgES256 -> jwkKid k <> EmptyString /\
                   exists raw, export_p256 k = Some raw /\ p256_valid raw = true)).
    { destruct (str_eqb b JoseAlgES256) eqn:Eb;
        [apply str_eqb_eq in Eb|apply str_eqb_neq in Eb; naive_solver].
      destruct (is_empty (jwkKid k)) eqn:Ek;
        [apply is_empty_true in Ek|apply is_empty_false in Ek; rewrite validateES256JWK_spec];
        naive_solver. }
    destruct (match key_algorithm k with Some a => _ | None => _ end);
      rewrite ?Hes; naive_solver.
  - destruct (decide (keyUse k = "enc"%string)) as [Hu|Hu]; [rewrite Hu; cbn; naive_solver|].
    rewrite (proj2 (str_eqb_neq _ _) Hu).
    destruct (key_algorithm k) as [a|]; [|split; [intros _; by right|done]].
    destruct (alg_Valid a) eqn:Ea; split.
    + by intros [_ ?].
    + intros [?|H]; [done|]. specialize (H a eq_refl). congruence.
    + intros _. right. by intros a0 [= <-].
    + done.
Qed.

Lemma validate_keys_spec (set : list key) seen :
  validate_keys set seen = Ok tt <->
  NoDup (nonempty (jwkKid <$> set)) /\ Forall key_ok set /\
  (forall s, s ∈ nonempty (jwkKid <$> set) -> s ∉ seen).
Proof.
  revert seen. induction set as [|k set IH]; intros seen; cbn [validate_keys].
  { cbn. split; [intros _|done]. split; [constructor|]. split; [constructor|]. set_solver. }
  rewrite fmap_cons. unfold nonempty in *. rewrite filter_cons, Forall_cons, <- key_checks_spec.
  unfold mbind, res_bind. destruct (is_empty (jwkKid k)) eqn:Ek; cbn [negb andb].
  - rewrite decide_False by (cbn; tauto).
    destruct (validateJWKUse k) as [[]|]; [|naive_solver].
    destruct (validateJWKAlgConsistency k) as [[]|]; [|naive_solver]. rewrite IH. naive_solver.
  - rewrite decide_True by done. rewrite NoDup_cons. case_bool_decide as Hseen.
    { split; [done|]. intros (_ & _ & H). exfalso. apply (H (jwkKid k)); [left|done]. }
    destruct (validateJWKUse k) as [[]|]; [|naive_solver].
    destruct (validateJWKAlgConsistency k) as [[]|]; [|naive_solver].
    rewrite IH. set_solver.
Qed.

Lemma validateJWKSet_spec (set : list key) : is_ok (validateJWKSet (Some set)) = true <-> valid_set set.
Proof.
  rewrite is_ok_Ok. unfold valid_set. cbn. split.
  - intros [[] H]. apply validate_keys_spec in H. tauto.
  - intros [H1 H2]. exists tt. apply validate_keys_spec. split; [done|]. split; [done|]. set_solver.
Qed.

(** The sole current signing key of a set. *)
Definition current_key (set : list key) (k : key) : Prop :=
  base.filter signingKeyEligible set = [k] /\ jwkKid k <> EmptyString /\
  Forall (fun c => key_algorithm c <> None) set /\
  exists a, alg_Valid a = true /\ key_algorithm k = Some a /\ algForJWK k = Some a.

Lemma singleDraft01SigningKey_spec (set : list key) k :
  singleDraft01SigningKey (Some set) = Ok k <-> current_key set k.
Proof.
  unfold singleDraft01SigningKey, singleCurrentSigningKey, current_key, mbind, res_bind, jwkAlg.
  destruct (base.filter signingKeyEligible set) as [|k0 [|]]; [naive_solver| |naive_solver].
  change (default [] (Some set)) with set.
  assert (Hall : existsb (fun c => bool_decide (key_algorithm c = None)) set = false <->
                 Forall (fun c => key_algorithm c <> None) set).
  { rewrite <- not_true_iff_false, existsb_exists, Forall_forall.
    setoid_rewrite bool_decide_eq_true. setoid_rewrite <- list_elem_of_In. naive_solver. }
  rewrite <- Hall. destruct (is_empty (jwkKid k0)) eqn:Ek.
  { apply is_empty_true in Ek. naive_solver. }
  apply is_empty_false in Ek.
  destruct (existsb _ set); [split; [done|by intros (_ & _ & ? & _)]|].
  destruct (key_algorithm k0) as [a|] eqn:Ha; [|naive_solver].
  destruct (alg_Valid a) eqn:Hv; cbn [negb].
  2:{ split; [done|]. intros ([= ->] & _ & _ & a' & Hv' & Ha' & _). congruence. }
  case_bool_decide as Hb; cbn [negb]; split; [| |done|].
  - intros [= ->]. split; [done|]. split; [done|]. split; [done|]. by exists a.
  - by intros ([= ->] & _).
  - intros ([= ->] & _ & _ & a' & _ & Ha' & Hb'). congruence.
Qed.

Lemma alg_Valid_cases a : alg_Valid a = true <-> a = JoseAlgEdDSA \/ a = JoseAlgES256.
Proof. unfold alg_Valid. by rewrite orb_true_iff, !str_eqb_eq. Qed.
End admission.

(** ** Raw keys *)
Section raw_admission.

(** What the coordinate of an admitted key looks like. *)
Definition coordinate (value : string) : Prop :=
  has_byte "="%char value = false /\
  exists d, Base64.decode false value = Some d /\ String.length d = 32%nat.

Lemma bad_coordinate_spec v : bad_coordinate v = false <-> coordinate v.
Proof.
  unfold bad_coordinate, decodeFixedJWKCoordinate, coordinate.
  destruct (is_empty v) eqn:Ee.
  { apply is_empty_true in Ee as ->. split; [done|]. by intros (_ & d & [= <-] & ?). }
  destruct (has_byte "=" v); [split; [done|by intros [? _]]|].
  destruct (Base64.decode false v) as [d|]; [|split; [done|by intros (_ & d & ? & _)]].
  destruct (String.length d =? 32)%nat eqn:El; cbn; split; try done.
  - intros _. split; [done|]. exists d. by apply Nat.eqb_eq in El.
  - intros (_ & d' & [= <-] & Hl). by rewrite Hl in El.
Qed.

Definition is_ed25519 (k : rawKey) : Prop := Kty k = "OKP"%string /\ Crv k = "Ed25519"%string.
Definition is_p256 (k : rawKey) : Prop := Kty k = "EC"%string /\ Crv k = "P-256"%string.

(** The keys a document may contain: Ed25519 and P-256 signing keys must be
    complete and consistent, everything else is let through or ignored. *)
Definition admissible (k : rawKey) : Prop :=
  (is_ed25519 k -> rAlg k = EmptyString \/ rAlg k = JoseAlgEdDSA) /\
  (is_ed25519 k \/ is_p256 k -> rUse k <> "enc"%string ->
     (rUse k = EmptyString \/ rUse k = "sig"%string) /\ coordinate (X k)) /\
  (is_p256 k -> rUse k <> "enc"%string ->
     rKid k <> EmptyString /\ (rAlg k = EmptyString \/ rAlg k = JoseAlgES256) /\ coordinate (Y k)).

Definition kept (k : rawKey) : bool := bool_decide (is_ed25519 k \/ is_p256 k).

Lemma set_or_default a b : negb (is_empty a) && negb (str_eqb a b) = false <-> a = EmptyString \/ a = b.
Proof.
  rewrite <- negb_orb, negb_false_iff, orb_true_iff, is_empty_true, str_eqb_eq. done.
Qed.

Lemma fail_if_ok {A} (b : bool) e (m : res A) r : (fail_if b with e ;; m) = Ok r <-> b = false /\ m = Ok r.
Proof. destruct b; split; [done|by intros [? _]|done|by intros [_ ?]]. Qed.

Lemma pair_eqb a b c d : str_eqb a b && str_eqb c d = true <-> a = b /\ c = d.
Proof. by rewrite andb_true_iff, !str_eqb_eq. Qed.

Lemma not_both k : is_ed25519 k -> is_p256 k -> False.
Proof. intros [H _] [H' _]. congruence. Qed.

Lemma Ok_iff {A} (a b : A) : Ok a = Ok b <-> a = b.
Proof. split; congruence. Qed.

Lemma admit_raw_key_spec k b : admit_raw_key k = Ok b <-> admissible k /\ b = kept k.
Proof.
  unfold admit_raw_key, admissible, kept. rewrite bool_decide_decide.
  destruct (str_eqb (Kty k) "OKP" && str_eqb (Crv k) "Ed25519") eqn:E1.
  - apply pair_eqb in E1. change (_ /\ _) with (is_ed25519 k) in E1.
    pose proof (not_both k E1) as Hn. rewrite decide_True by (by left).
    rewrite fail_if_ok, set_or_default. destruct (str_eqb (rUse k) "enc") eqn:Eu.
    + apply str_eqb_eq in Eu. rewrite Ok_iff. clear -E1 Hn Eu. naive_solver.
    + apply str_eqb_neq in Eu. rewrite !fail_if_ok, set_or_default, bad_coordinate_spec, Ok_iff.
      clear -E1 Hn Eu. naive_solver.
  - assert (H1 : ~ is_ed25519 k) by (intros H; apply pair_eqb in H; congruence).
    destruct (str_eqb (Kty k) "EC" && str_eqb (Crv k) "P-256") eqn:E2.
    + apply pair_eqb in E2. change (_ /\ _) with (is_p256 k) in E2.
      rewrite decide_True by (by right). destruct (str_eqb (rUse k) "enc") eqn:Eu.
      * apply str_eqb_eq in Eu. rewrite Ok_iff. clear -E2 H1 Eu. naive_solver.
      * apply str_eqb_neq in Eu.
        rewrite !fail_if_ok, !set_or_default, !bad_coordinate_spec, Ok_iff, is_empty_false.
        clear -E2 H1 Eu. naive_solver.
    + assert (H2 : ~ is_p256 k) by (intros H; apply pair_eqb in H; congruence).
      rewrite decide_False by tauto. rewrite Ok_iff. clear -H1 H2. naive_solver.
Qed.

(** The raw messages of the keys that are kept. *)
Fixpoint keep_raws (raws : list json) (ks : list rawKey) : list json :=
  match raws, ks with
  | raw :: raws, k :: ks => (if kept k then [raw] else []) ++ keep_raws raws ks
  | _, _ => []
  end.

Lemma filter_raw_keys_spec raws seen out :
  filter_raw_keys raws seen = Ok out <->
  exists ks, Forall2 (fun raw k => unmarshal_raw_key raw = Some k) raws ks /\
    Forall admissible ks /\ NoDup (nonempty (rKid <$> ks)) /\
    (forall s, s ∈ nonempty (rKid <$> ks) -> s ∉ seen) /\ out = keep_raws raws ks.
Proof.
  revert seen out. induction raws as [|raw raws IH]; intros seen out; cbn [filter_raw_keys].
  { rewrite Ok_iff. split.
    - intros <-. exists []. split; [constructor|]. split; [constructor|].
      split; [constructor|]. split; [set_solver|done].
    - intros (ks & H%Forall2_nil_inv_l & _ & _ & _ & ->). by subst. }
  destruct (unmarshal_raw_key raw) as [k|] eqn:Hk.
  2:{ split; [done|]. intros (ks & H & _).
      apply Forall2_cons_inv_l in H as (k & ? & H & _). congruence. }
  rewrite fail_if_ok. unfold mbind, res_bind.
  assert (Hstep : forall seen',
    (match admit_raw_key k with
     | Ok keep => match filter_raw_keys raws seen' with
                  | Ok rest => Ok (if keep : bool then raw :: rest else rest)
                  | Err e => Err e end
     | Err e => Err e end) = Ok out <->
    admissible k /\ exists rest, filter_raw_keys raws seen' = Ok rest /\
      out = (if kept k then [raw] else []) ++ rest).
  { intros seen'. pose proof (admit_raw_key_spec k) as Ha. destruct (admit_raw_key k) as [b|].
    - destruct (proj1 (Ha b) eq_refl) as [Hadm ->].
      destruct (filter_raw_keys raws seen') as [rest|]; [rewrite Ok_iff|]; destruct (kept k); naive_solver.
    - split; [done|]. intros [Hadm _]. by pose proof (proj2 (Ha _) (conj Hadm eq_refl)). }
  rewrite Hstep. clear Hstep. setoid_rewrite IH.
  assert (Hne : forall ks, nonempty (rKid <$> k :: ks) =
            (if is_empty (rKid k) then [] else [rKid k]) ++ nonempty (rKid <$> ks)).
  { intros ks. unfold nonempty. rewrite fmap_cons, filter_cons. by destruct (is_empty (rKid k)). }
  split.
  - intros (Hs & Hadm & rest & (ks & H1 & H2 & H3 & H4 & ->) & ->). exists (k :: ks).
    split; [by constructor|]. split; [by constructor|]. rewrite Hne.
    destruct (is_empty (rKid k)); cbn [app negb andb] in Hs, H4 |- *; [done|].
    apply bool_decide_eq_false in Hs. split; [|split; [set_solver|done]].
    constructor; [set_solver|done].
  - intros (ks0 & H1 & H2 & H3 & H4 & ->).
    apply Forall2_cons_inv_l in H1 as (k' & ks & Hk' & H1 & ->). assert (k' = k) as -> by congruence.
    apply Forall_cons in H2 as [Hadm H2]. rewrite Hne in H3, H4.
    split; [|split; [done|exists (keep_raws raws ks); split; [exists ks|done]]].
    + destruct (is_empty (rKid k)); cbn; [done|]. apply bool_decide_eq_false, H4. left.
    + split; [done|]. split; [done|].
      destruct (is_empty (rKid k)); cbn [app] in H3, H4; [done|].
      apply NoDup_cons in H3 as [Hnin H3]. split; [done|]. split; [|done].
      intros s Hs. rewrite elem_of_cons. intros [->|Hin]; [done|]. apply (H4 s); [by right|done].
Qed.
End raw_admission.

(** ** What the library must satisfy for a published key to be accepted *)
Class JwkAttrSpec (key : Type) `{!KeyOps key} `{!JwkLib key} `{!JwkSetLib key} := {
  set_kid_attr kd (k k' : key) : Set_kid kd k = Some k' ->
    key_algorithm k' = key_algorithm k /\ key_usage k' = key_usage k /\
    key_operations k' = key_operations k;
  set_alg_attr a (k k' : key) : Set_alg a k = Some k' ->
    key_algorithm k' = Some a /\ key_usage k' = key_usage k /\
    key_operations k' = key_operations k;
  set_use_attr u (k k' : key) : Set_use u k = Some k' ->
    key_algorithm k' = key_algorithm k /\ key_usage k' = Some u /\
    key_operations k' = key_operations k;
  import_public_attr pub (k : key) : Import_public pub = Some k ->
    key_operations k = None /\
    match pub with
    | Ed25519Public _ => key_type k = OKP /\ key_crv k = Some Ed25519
    | ECDSAPublic p => p256_valid p = true -> key_type k = EC /\ key_crv k = Some P256
    | OtherPublic => True
    end
}.

Section properties.
Context {key : Type} `{!KeyOps key} `{!JwkLib key} `{!JwkSetLib key}.

(** [sig] is a signature of the canonical content of [r] that verifies under
    [k], by the algorithm of the type of [k]. *)
Definition signs_record (k : key) (r : TXTRecord) (sig : string) : Prop :=
  (algForJWK k = Some JoseAlgEdDSA /\ exists pub, export_ed25519 k = Some pub /\
     Cryptoutil.VerifyEd25519 pub (CanonicalContent r) sig = true) \/
  (algForJWK k = Some JoseAlgES256 /\ exists pub, export_p256 k = Some pub /\
     Cryptoutil.VerifyES256 pub (CanonicalContent r) sig = true).

Lemma VerifyEd25519_length pub m sig :
  Cryptoutil.VerifyEd25519 pub m sig = true ->
  String.length sig = 64%nat /\ String.length pub = 32%nat.
Proof.
  unfold Cryptoutil.VerifyEd25519, Cryptoutil.ValidEd25519PublicKey.
  destruct (String.length sig =? 64)%nat eqn:E1; [|done].
  destruct (String.length pub =? 32)%nat eqn:E2; [|done]. by apply Nat.eqb_eq in E1, E2.
Qed.

Lemma VerifyES256_valid pub m sig :
  Cryptoutil.VerifyES256 pub m sig = true ->
  p256_valid pub = true /\ Cryptoutil.ValidES256Signature sig = true.
Proof.
  unfold Cryptoutil.VerifyES256. destruct (p256_valid pub); [|done].
  by destruct (Cryptoutil.ValidES256Signature sig).
Qed.

Lemma verifyRecordSignatureWithKey_ed (r : TXTRecord) sig k :
  (String.length sig =? 64)%nat && verifyRecordSignatureWithKey r JoseAlgEdDSA sig k = true <->
  exists pub, export_ed25519 k = Some pub /\
    Cryptoutil.VerifyEd25519 pub (CanonicalContent r) sig = true.
Proof.
  change (verifyRecordSignatureWithKey r JoseAlgEdDSA sig k) with
    (match exportEd25519PublicKey k with
     | Ok pub => Cryptoutil.VerifyEd25519 pub (CanonicalContent r) sig | Err _ => false end).
  unfold exportEd25519PublicKey. rewrite andb_true_iff, Nat.eqb_eq.
  destruct (export_ed25519 k) as [pub|]; [|split; [by intros [_ ?]|by intros (? & ? & _)]].
  destruct (String.length pub =? 32)%nat eqn:El; cbn [negb]; split.
  - intros [_ H]. by exists pub.
  - intros (p' & [= <-] & H). split; [by eapply VerifyEd25519_length|done].
  - by intros [_ ?].
  - intros (p' & [= <-] & H). apply VerifyEd25519_length in H as [_ H]. by rewrite H in El.
Qed.

Lemma verifyRecordSignatureWithKey_es (r : TXTRecord) sig k :
  Cryptoutil.ValidES256Signature sig && verifyRecordSignatureWithKey r JoseAlgES256 sig k = true <->
  exists pub, export_p256 k = Some pub /\
    Cryptoutil.VerifyES256 pub (CanonicalContent r) sig = true.
Proof.
  change (verifyRecordSignatureWithKey r JoseAlgES256 sig k) with
    (match exportES256PublicKey k with
     | Ok pub => Cryptoutil.VerifyES256 pub (CanonicalContent r) sig | Err _ => false end).
  unfold exportES256PublicKey. rewrite andb_true_iff.
  destruct (export_p256 k) as [pub|]; [|split; [by intros [_ ?]|by intros (? & ? & _)]].
  destruct (p256_valid pub) eqn:El; cbn [negb]; split.
  - intros [_ H]. by exists pub.
  - intros (p' & [= <-] & H). split; [by eapply VerifyES256_valid|done].
  - by intros [_ ?].
  - intros (p' & [= <-] & H). apply VerifyES256_valid in H as [H _]. congruence.
Qed.

Lemma two_checks {A} (b c : bool) e e' (x y : A) :
  (fail_if negb b with e ;; fail_if negb c with e' ;; Ok x) = Ok y <-> b && c = true /\ x = y.
Proof. destruct b, c; cbn; rewrite ?Ok_iff; naive_solver. Qed.

(** The verdict on a decoded signature. *)
Lemma draft01_verdict (r : TXTRecord) (set : list key) k :
  verifiedDraft01RecordSigningKey r (Some set) = Ok k <->
  current_key set k /\
  has_byte ":"%char (TxtRecord.Signature r) = false /\ has_byte "="%char (TxtRecord.Signature r) = false /\
  exists sig, Base64.decode false (TxtRecord.Signature r) = Some sig /\ signs_record k r sig.
Proof.
  unfold verifiedDraft01RecordSigningKey, signs_record, jwkAlg.
  destruct (singleDraft01SigningKey (Some set)) as [k0|] eqn:Hk.
  2:{ split; [done|]. intros (Hc & _). apply singleDraft01SigningKey_spec in Hc. congruence. }
  apply singleDraft01SigningKey_spec in Hk as Hc.
  assert (Hk0 : forall k, current_key set k <-> k0 = k).
  { intros k'. rewrite <- singleDraft01SigningKey_spec, Hk, Ok_iff. done. }
  rewrite Hk0, fail_if_ok, orb_false_iff. clear Hk Hk0.
  destruct Hc as (_ & _ & _ & a & Hv & -> & Hb).
  destruct (Base64.decode false _) as [sig|]; [|split; [by intros [_ ?]|by intros (_ & _ & _ & ? & ? & _)]].
  change (default EmptyString (Some a)) with a. apply alg_Valid_cases in Hv as [->| ->].
  - change (str_eqb JoseAlgEdDSA JoseAlgEdDSA) with true. cbn iota.
    rewrite two_checks, verifyRecordSignatureWithKey_ed. split.
    + intros [[? ?] [Hv ->]]. split; [done|]. split; [done|]. split; [done|]. exists sig. auto.
    + intros (<- & ? & ? & sg & [= <-] & [[_ Hv]|[Hv _]]); [auto|by rewrite Hv in Hb].
  - change (str_eqb JoseAlgES256 JoseAlgEdDSA) with false.
    change (str_eqb JoseAlgES256 JoseAlgES256) with true. cbn iota.
    rewrite two_checks, verifyRecordSignatureWithKey_es. split.
    + intros [[? ?] [Hv ->]]. split; [done|]. split; [done|]. split; [done|]. exists sig. auto.
    + intros (<- & ? & ? & sg & [= <-] & [[Hv _]|[_ Hv]]); [by rewrite Hv in Hb|auto].
Qed.

Lemma draft01_errors (r : TXTRecord) (set : option (list key)) e :
  verifiedDraft01RecordSigningKey r set = Err e ->
  exists c, e = ownerSignatureError c /\
    c ∈ [ErrOwnerSignatureMalformed; ErrOwnerSignatureInvalidJWKS; ErrOwnerSignatureNoMatchingKey].
Proof.
  unfold verifiedDraft01RecordSigningKey. intros H.
  assert (Hc : e ∈ ownerSignatureError <$> [ErrOwnerSignatureMalformed; ErrOwnerSignatureInvalidJWKS;
                 ErrOwnerSignatureNoMatchingKey]).
  { repeat match type of H with
    | (if ?b then _ else _) = _ => destruct b
    | (match ?x with _ => _ end) = _ => destruct x
    end; try discriminate H; injection H as <-; cbn; rewrite !elem_of_cons; auto. }
  apply list_elem_of_fmap in Hc as (c & -> & Hc). by exists c.
Qed.

Lemma verified_key_spec (r : TXTRecord) (set : list key) k :
  verifiedRecordSigningKey (Some r) (Some set) = Ok k <->
  isSupportedVersion (TxtRecord.Version r) = true /\ valid_set set /\ current_key set k /\
  has_byte ":"%char (TxtRecord.Signature r) = false /\
  has_byte "="%char (TxtRecord.Signature r) = false /\
  exists sig, Base64.decode false (TxtRecord.Signature r) = Some sig /\ signs_record k r sig.
Proof.
  unfold verifiedRecordSigningKey. pose proof (validateJWKSet_spec set) as Hset.
  assert (Hver : isSupportedVersion (TxtRecord.Version r) = true <->
                 profileForVersion (TxtRecord.Version r) <> None).
  { unfold isSupportedVersion. destruct (profileForVersion _); naive_solver. }
  destruct (is_empty (TxtRecord.Signature r)) eqn:Es.
  - split; [done|]. apply is_empty_true in Es. rewrite Es.
    intros (_ & _ & _ & _ & _ & sig & [= <-] & [(_ & pub & _ & Hv)|(_ & pub & _ & Hv)]).
    + apply VerifyEd25519_length in Hv as [Hv _]. done.
    + by apply VerifyES256_valid in Hv as [_ Hv].
  - destruct (is_ok (validateJWKSet (Some set))) eqn:Eset; cbn [negb].
    2:{ split; [done|]. intros (_ & Hv & _). by apply Hset in Hv. }
    pose proof (proj1 Hset eq_refl). destruct (profileForVersion _) as [[? ? []]|].
    + cbn [signatureFormat]. rewrite draft01_verdict. naive_solver.
    + naive_solver.
Qed.

(** [verifiedRecordSigningKey] returns a key exactly when the record is of
    a supported version, the served set is well formed (distinct kids,
    consistent keys), the key is its sole signing-eligible key, carries a kid
    and the allowed algorithm of its type, every key of the set names an
    algorithm, and the [sg] value is unpadded base64url of a signature that
    verifies over the record's canonical content under that key. Otherwise it
    returns a permanent [signature_invalid] error with one of three causes. *)
Theorem owner_signature_spec (r : TXTRecord) (set : list key) :
  (forall k, verifiedRecordSigningKey (Some r) (Some set) = Ok k <->
     isSupportedVersion (TxtRecord.Version r) = true /\ valid_set set /\ current_key set k /\
     has_byte ":"%char (TxtRecord.Signature r) = false /\
     has_byte "="%char (TxtRecord.Signature r) = false /\
     exists sig, Base64.decode false (TxtRecord.Signature r) = Some sig /\ signs_record k r sig) /\
  (forall e, verifiedRecordSigningKey (Some r) (Some set) = Err e ->
     exists c, e = ownerSignatureError c /\
       c ∈ [ErrOwnerSignatureMalformed; ErrOwnerSignatureInvalidJWKS; ErrOwnerSignatureNoMatchingKey]).
Proof.
  split; [intros k; apply verified_key_spec|]. intros e H. unfold verifiedRecordSigningKey in H.
  destruct (is_empty _); [injection H as <-; eexists; split; [done|left]|].
  destruct (is_ok _); cbn [negb] in H; [|injection H as <-; eexists; split; [done|right; left]].
  destruct (profileForVersion _) as [[? ? []]|]; [by apply draft01_errors in H|].
  injection H as <-. eexists. split; [done|left].
Qed.

(** C36: [ParseJWKSet] accepts exactly the documents whose keys all decode and
    are admissible, with distinct kids — Ed25519 and P-256 keys complete and
    consistent, other kinds ignored — and whose kept keys, parsed by the JWK
    library, form a well-formed set; a rejection is classified as a
    validation error exactly when a validation rule failed. *)
Theorem parse_jwks_spec data :
  (forall set : list key, ParseJWKSet data = Ok set <->
     exists j f raws ks, data = Doc j /\ object_fields j = Some f /\ slice_field "keys" f = Some raws /\
       Forall2 (fun raw k => unmarshal_raw_key raw = Some k) raws ks /\ Forall admissible ks /\
       NoDup (nonempty (rKid <$> ks)) /\
       jwk_Parse (JObject [("keys"%string, JArray (keep_raws raws ks))]) = Some set /\
       valid_set set) /\
  (forall e, ParseJWKSet data = Err e ->
     exists m err, parseValidatedJWKS (key := key) data = Err err /\
       e = WithCause (if bool_decide (errors_as is_validation err = Some tt)
                      then ValidationError m else ParseError m) err).
Proof.
  unfold ParseJWKSet. split.
  - intros set. transitivity (parseValidatedJWKS data = Ok set).
    { destruct (parseValidatedJWKS data) as [s|err]; [done|].
      destruct (errors_as is_validation err); split; done. }
    unfold parseValidatedJWKS, validateJWKSJSON, mbind, res_bind, option_bind.
    destruct data as [j|]; [|split; [done|by intros (? & ? & ? & ? & ? & _)]].
    destruct (object_fields j) as [f|] eqn:Hf; [|split; [done|naive_solver]].
    destruct (slice_field "keys" f) as [raws|] eqn:Hr; [|split; [done|naive_solver]].
    pose proof (fun out => filter_raw_keys_spec raws [] out) as Hfilter.
    destruct (filter_raw_keys raws []) as [out|e].
    + destruct (proj1 (Hfilter out) eq_refl) as (ks & H1 & H2 & H3 & _ & ->).
      assert (Hval := fun s : list key => validateJWKSet_spec s).
      split.
      * intros H. destruct (jwk_Parse _) as [s|] eqn:Hp; [|done].
        specialize (Hval s). destruct (validateJWKSet (Some s)) eqn:Hv; [|done].
        injection H as ->. exists j, f, raws, ks. repeat (split; [done|]).
        by apply Hval.
      * intros (j' & f' & raws' & ks' & [= <-] & Hf' & Hr' & H1' & _ & _ & Hp & Hv).
        assert (f' = f) as -> by congruence. assert (raws' = raws) as -> by congruence.
        assert (ks' = ks) as ->.
        { clear -H1 H1'. revert ks' H1'. induction H1; intros ks' H1';
            [by apply Forall2_nil_inv_l in H1'|].
          apply Forall2_cons_inv_l in H1' as (? & ? & ? & ? & ->). f_equal; [congruence|auto]. }
        rewrite Hp. apply Hval in Hv. by destruct (validateJWKSet (Some set)).
    + split; [done|]. intros (j' & f' & raws' & ks & [= <-] & Hf' & Hr' & H1 & H2 & H3 & _).
      assert (f' = f) as -> by congruence. assert (raws' = raws) as -> by congruence.
      assert (Hout : Err e = Ok (keep_raws raws ks)); [|done].
      apply Hfilter. exists ks. repeat (split; [done|]). split; [set_solver|done].
  - intros e H. destruct (parseValidatedJWKS data) as [s|err]; [done|].
    exists "jwks: parsing JWKS"%string, err. split; [done|].
    destruct (errors_as is_validation err) as [[]|]; by injection H as <-.
Qed.

(** ** A published key *)
Section published.
Context `{!JwkSpec key} `{!JwkAttrSpec key} `{!SignSpec key}.

Lemma entry_alg_cases e :
  entry_ok e ->
  alg_Valid (alg e) = true /\ alg_jwa (alg e) = Some (alg e) /\
  match Signer_Public (signer e) with
  | Ed25519Public _ => alg e = JoseAlgEdDSA
  | ECDSAPublic p => alg e = JoseAlgES256 /\ p256_valid p = true
  | OtherPublic => False
  end.
Proof.
  intros Hok. pose proof (entry_alg e Hok) as Ha. unfold joseAlgForPublicKey in Ha.
  destruct (Signer_Public (signer e)) as [q|q|]; [| |done].
  - apply fail_if_ok in Ha as [_ Ha]. injection Ha as <-. done.
  - apply fail_if_ok in Ha as [Hv Ha]. injection Ha as <-. apply negb_false_iff in Hv. done.
Qed.

(** The attributes of a key the provider publishes. *)
Lemma JWK_attrs p k e pk :
  WF p -> keys p !! k = Some e -> JWK p [k] = Some pk ->
  key_algorithm pk = Some (alg e) /\ keyUse pk = "sig"%string /\ key_operations pk = None /\
  algForJWK pk = Some (alg e) /\ alg_Valid (alg e) = true.
Proof.
  intros Hp Hk H. destruct (wf_entry p Hp k e Hk) as [Hkid Hok].
  destruct (entry_alg_cases e Hok) as (Hv & Hjwa & Hpub). unfold JWK in H. rewrite Hk in H.
  destruct (publicJWKForSignerWithKid _ _ _) as [[k0 id0]|] eqn:Hw; [|done].
  destruct (str_eqb id0 (kid e)); [injection H as ->|done].
  unfold publicJWKForSignerWithKid in Hw. rewrite Hjwa in Hw. go_inv.
  repeat match goal with Hx : set_or _ _ = Ok _ |- _ => apply set_or_ok in Hx end.
  match goal with
  | H0 : Import_public _ = _, H1 : Set_kid _ _ = _, H2 : Set_alg _ _ = _, H3 : Set_use _ _ = _ |- _ =>
      pose proof (set_kid_spec _ _ _ H1) as [_ M1]; pose proof (set_alg_spec _ _ _ H2) as [_ M2];
      pose proof (set_use_spec _ _ _ H3) as [_ M3];
      apply set_kid_attr in H1 as (_ & _ & O1); apply set_alg_attr in H2 as (A2 & _ & O2);
      apply set_use_attr in H3 as (A3 & U3 & O3); apply import_public_attr in H0 as [O0 T0]
  end.
  split; [by rewrite A3|]. split; [unfold keyUse; by rewrite U3|]. split; [congruence|].
  split; [|done]. pose proof (eq_trans M3 (eq_trans M2 M1)) as Hm. unfold material in Hm.
  injection Hm as T1 C1 _ _ _ _ _ _. unfold algForJWK. rewrite T1, C1.
  destruct (Signer_Public (signer e)) as [q|q|]; [| |done].
  - destruct T0 as [-> ->]. rewrite bool_decide_true by done. by rewrite Hpub.
  - destruct Hpub as [-> Hvq]. destruct (T0 Hvq) as [-> ->]. by rewrite bool_decide_true.
Qed.

Lemma published_set_ok p k e pk :
  WF p -> keys p !! k = Some e -> JWK p [k] = Some pk ->
  valid_set [pk] /\ current_key [pk] pk.
Proof.
  intros Hp Hk Hpk. destruct (JWK_attrs p k e pk Hp Hk Hpk) as (Ha & Hu & Ho & Ht & Hv).
  destruct (JWK_inv p k pk e Hp Hk Hpk) as [Hid Hexp].
  destruct (wf_entry p Hp k e Hk) as [Hkid Hok]. pose proof Hok as (Hne & _ & _).
  destruct (entry_alg_cases e Hok) as (_ & _ & Hpub).
  assert (Hkk : jwkKid pk = k) by (unfold jwkKid; by rewrite Hid).
  assert (Hk0 : jwkKid pk <> EmptyString) by congruence.
  split; [split|].
  - unfold nonempty. cbn [fmap list_fmap]. rewrite filter_cons.
    case_decide; [apply NoDup_singleton|constructor].
  - apply Forall_singleton. unfold key_ok. rewrite Ht, Hu. split; [right; left|].
    intros _. split; [congruence|]. intros Hes. split; [done|].
    destruct (Signer_Public (signer e)) as [q|q|]; [by rewrite Hpub in Hes| |done].
    exists q. split; [done|apply Hpub].
  - split; [|split; [done|split; [|by exists (alg e)]]].
    + rewrite filter_cons, decide_True; [done|]. unfold signingKeyEligible. by rewrite Hu, Ho.
    + apply Forall_singleton. congruence.
Qed.

(** What the key provider signs, the verifier accepts: sign a record's
    canonical content with an active or pending key, put the encoded signature
    into the record's [sg] tag and serve the key's published JWK as the whole
    set; then [verifiedRecordSigningKey] returns that JWK (for Ed25519,
    provided the public key is a canonical point of full order). *)
Theorem published_key_signs_record p k r sg pk s :
  WF p -> SignKey p k (CanonicalContent r) = Ok sg -> JWK p [k] = Some pk ->
  encodeRecordSignatureForProfile (TxtRecord.Version r) (Alg sg) (KeyRing.Signature sg) = Ok s ->
  (forall pub, export_ed25519 pk = Some pub -> algForJWK pk = Some JoseAlgEdDSA ->
     Cryptoutil.ValidEd25519PublicKey pub = true) ->
  verifiedRecordSigningKey (Some (WithSignature r s)) (Some [pk]) = Ok pk.
Proof.
  intros Hp Hsg Hpk Henc Hvalid. unfold SignKey in Hsg.
  destruct (keys p !! k) as [e|] eqn:Hk; [|done].
  destruct (_ && _); [done|]. destruct (str_eqb _ _ && _); [done|].
  destruct (sign_with (alg e) (signer e) _) as [sig|] eqn:Hsign; [injection Hsg as <-|done].
  destruct (published_set_ok p k e pk Hp Hk Hpk) as [Hset Hcur].
  pose proof (sign_with_verifies p k e _ _ pk Hp Hk Hsign Hpk) as Hver.
  destruct (JWK_attrs p k e pk Hp Hk Hpk) as (_ & _ & _ & Ht & _).
  unfold encodeRecordSignatureForProfile in Henc.
  destruct (profileForVersion _) as [[? ? []]|] eqn:Hprof; [|done].
  apply fail_if_ok in Henc as [_ Henc]. injection Henc as <-.
  apply verified_key_spec. cbn [WithSignature TxtRecord.Version TxtRecord.Signature].
  split; [unfold isSupportedVersion; by rewrite Hprof|]. split; [done|]. split; [done|].
  split; [apply has_byte_false, encode_bytes;
          exact (forall_below 64 (fun n => negb (Ascii.eqb (Base64.enc6 n) ":"%char)) eq_refl)|].
  split; [apply has_byte_false, encode_bytes;
          exact (forall_below 64 (fun n => negb (Ascii.eqb (Base64.enc6 n) "="%char)) eq_refl)|].
  exists sig. split; [apply decode_encode|]. unfold signs_record. rewrite CanonicalContent_WithSignature.
  cbn [Alg KeyRing.Signature] in Hver.
  destruct Hver as [(Ha & pub & He & Hv)|(Ha & pub & He & Hv & _)]; cbn [Alg] in Ha; rewrite Ha in Ht.
  - left. split; [done|]. exists pub. split; [done|]. apply Hv. by apply Hvalid.
  - right. split; [done|]. by exists pub.
Qed.
End published.
End properties.

(** ** The concrete library of KeyRingSpec, with sets *)
#[export] Instance demo_jwk_set_lib : JwkSetLib demo_jwk := {
  key_operations _ := None;
  jwk_Parse j := match j with
    | JObject [("keys"%string, JArray raws)] => Some (omap jwk_ParseKey raws) | _ => None end
}.
#[export] Instance demo_jwk_attr : JwkAttrSpec demo_jwk.
Proof.
  constructor; cbn.
  1-3: by intros ? k k' [= <-].
  intros pub k [= <-]. by destruct pub.
Qed.

#[local] Opaque sha256.

Definition demo_jwk_key : demo_jwk :=
  default (DemoJwk None None None OtherPublic None) (JWK demo_provider [activeKid demo_provider]).
Definition demo_sg : KeySignature :=
  match SignKey demo_provider (activeKid demo_provider) (CanonicalContent demo_record) with
  | Ok sg => sg | Err _ => Sig "" "" "" end.
Definition demo_sg_text : string := Base64.encode (KeyRing.Signature demo_sg).

Lemma published_key_signs_record_witness :
  verifiedRecordSigningKey (Some (WithSignature demo_record demo_sg_text)) (Some [demo_jwk_key])
  = Ok demo_jwk_key.
Proof.
  apply (published_key_signs_record demo_provider (activeKid demo_provider) demo_record demo_sg).
  - exact demo_wf.
  - vm_compute. reflexivity.
  - vm_compute. reflexivity.
  - vm_compute. reflexivity.
  - assert (Hv : match export_ed25519 demo_jwk_key with
                 | Some pub => Cryptoutil.ValidEd25519PublicKey pub | None => true end = true)
      by (vm_compute; reflexivity).
    intros pub Hpub _. rewrite Hpub in Hv. exact Hv.
Defined.
