(* ===== verification/Domain.v ===== *)
(** * Domain: verified domains, their status and their freshness

    The result of a verification ([VerifiedDomain] of cache.go) with its
    accessors and its deep copy, the status document rules of cache.go and
    [fetchAgentStatus], and the evidence deadlines: [verifiedDomainExpiry] of
    identity_manager.go against [requireFreshIdentityEvidence] of
    verification_context.go. *)

From Stdlib Require Import ZArith Lia Ascii String.
From S2P Require Import Prelude Codec Json Keys Lifecycle TxtRecord KeyRing KeyRingSpec Jwks.

Open Scope Z_scope.

(** ** Strings: [strings.TrimSpace] *)
Fixpoint trim_left_from (skip : nat) (s : string) : string :=
  match s with
  | EmptyString => EmptyString
  | String a rest =>
      match skip with
      | S skip => trim_left_from skip rest
      | O => match space_width s with O => s | S w => trim_left_from w rest end
      end
  end.
Fixpoint all_space_from (skip : nat) (s : string) : bool :=
  match s with
  | EmptyString => true
  | String a rest =>
      match skip with
      | S skip => all_space_from skip rest
      | O => match space_width s with O => false | S w => all_space_from w rest end
      end
  end.
Fixpoint trim_right (s : string) : string :=
  match s with
  | EmptyString => EmptyString
  | String a rest => if all_space_from 0 s then EmptyString else String a (trim_right rest)
  end.
Definition TrimSpace (s : string) : string := trim_right (trim_left_from 0 s).

(** ** Certificates *)
Record X509Certificate := Cert { Raw : string; NotBefore : time; NotAfter : time }.
Record TLSCertificate := TLSCert {
  Certificate : list string;
  Leaf : option X509Certificate;
  OCSPStaple : string;
  SignedCertificateTimestamps : list string;
  SupportedSignatureAlgorithms : list Z
}.

(** crypto/x509 parsing, and [json.Marshal] of a jwk.Set. *)
Class CloneLib (key : Type) := {
  x509_ParseCertificate : string -> option X509Certificate;
  Marshal_set : list key -> option json
}.

Definition certificateNotAfter (cert : option TLSCertificate) : time :=
  match cert with
  | None => 0
  | Some c => match Leaf c with None => 0 | Some l => NotAfter l end
  end.

(** ** Status documents *)
Record AgentStatus := Status {
  State : string;
  LastTransitionAt : time;
  RevocationReason : string
}.

Definition status_Validate (s : option AgentStatus) : res unit :=
  match s with
  | None => Err (ValidationError "dnsid: nil agent status")
  | Some s =>
      fail_if negb (IsValid (State s)) && is_empty (State s)
        with ValidationError "dnsid: agent status missing state" ;;
      fail_if negb (IsValid (State s))
        with ValidationError "dnsid: unknown agent status state" ;;
      fail_if time_is_zero (LastTransitionAt s)
        with ValidationError "dnsid: agent status missing lastTransitionAt" ;;
      fail_if str_eqb (State s) (state_string AgentStateRevoked)
              && negb (ValidRevocationReason (RevocationReason s))
        with ValidationError "dnsid: valid revocationReason is required when state is REVOKED" ;;
      Ok tt
  end.

(** The verdict of [fetchAgentStatus] on a decoded document. *)
Definition activeStatus (status : AgentStatus) (now : time) : res AgentStatus :=
  match status_Validate (Some status) with
  | Err e => Err (WithCause (VerificationError "record_invalid" false
                               "dnsid: invalid agent status profile") e)
  | Ok _ =>
      fail_if negb (str_eqb (State status) (state_string AgentStateActive))
        with VerificationError "status_not_active" false "dnsid: agent status is not ACTIVE" ;;
      fail_if after (LastTransitionAt status) now
        with VerificationError "status_not_active" false
               "dnsid: agent status lastTransitionAt is in the future" ;;
      Ok status
  end.

Section domain.
Context {key : Type} `{!KeyOps key} `{!JwkLib key} `{!JwkSetLib key} `{!CloneLib key}
  {reader : Type}.

(** [cacheInvalidated] is a pointer to an atomic flag, shared by every copy;
    it is named by a number. [nil] pointers are [None]. *)
Record VerifiedDomain := VD {
  domain : string;
  record : option TXTRecord;
  keySet : option (list key);
  recordSigningKeySet : option (list key);
  kuKey : option key;
  signingKey : option key;
  signingKeyThumbprint : string;
  status : option AgentStatus;
  dnssecState : string;
  verifiedAt : time;
  acquiredAt : time;
  lastStatusCheckAt : time;
  dnsTTL : Z;
  dnsExpiresAt : time;
  jwksTLSCertificate : option TLSCertificate;
  ekTLSCertificate : option TLSCertificate;
  statusTLSCertificate : option TLSCertificate;
  keyBoundAt : time;
  operationalKeyThumbprint : string;
  logReader : option reader;
  expiry : time;
  cachedState : string;
  cacheInvalidated : option nat
}.

(** ** Deep copies: immutable values copy to themselves, except where the code
    serialises and parses again *)
Definition cloneX509Certificate (c : option X509Certificate) : option X509Certificate :=
  c ← c;
  if is_empty (Raw c) then Some c
  else match x509_ParseCertificate (Raw c) with Some c' => Some c' | None => Some c end.
Definition cloneTLSCertificate (c : option TLSCertificate) : option TLSCertificate :=
  c ← c;
  Some (TLSCert (Certificate c) (cloneX509Certificate (Leaf c)) (OCSPStaple c)
          (SignedCertificateTimestamps c) (SupportedSignatureAlgorithms c)).
Definition cloneTXTRecord (r : option TXTRecord) : option TXTRecord := r.
Definition cloneAgentStatus (s : option AgentStatus) : option AgentStatus := s.
Definition cloneJWKKey (k : option key) : option key := k ← k; j ← Marshal_key k; jwk_ParseKey j.
Definition cloneJWK : option key -> option key := cloneJWKKey.
Definition cloneJWKSet (set : list key) : option (list key) :=
  j ← Marshal_set set;
  match ParseJWKSet (Doc j) with Ok set => Some set | Err _ => None end.
Definition cloneJWKS (j : option (list key)) : option (list key) := set ← j; cloneJWKSet set.

Definition cloneVerifiedDomain (v : VerifiedDomain) : VerifiedDomain :=
  VD (domain v) (cloneTXTRecord (record v)) (cloneJWKS (keySet v))
    (cloneJWKS (recordSigningKeySet v)) (cloneJWKKey (kuKey v)) (cloneJWK (signingKey v))
    (signingKeyThumbprint v) (cloneAgentStatus (status v)) (dnssecState v) (verifiedAt v)
    (acquiredAt v) (lastStatusCheckAt v) (dnsTTL v) (dnsExpiresAt v)
    (cloneTLSCertificate (jwksTLSCertificate v)) (cloneTLSCertificate (ekTLSCertificate v))
    (cloneTLSCertificate (statusTLSCertificate v)) (keyBoundAt v) (operationalKeyThumbprint v)
    (logReader v) (expiry v) (cachedState v) (cacheInvalidated v).

(** ** Accessors, on a possibly nil receiver *)
Definition Domain (v : option VerifiedDomain) : string :=
  match v with None => EmptyString | Some v => domain v end.
Definition vd_Record (v : option VerifiedDomain) : option TXTRecord :=
  v ← v; cloneTXTRecord (record v).
Definition KeySet (v : option VerifiedDomain) : option (list key) := v ← v; cloneJWKS (keySet v).
Definition RecordSigningKeySet (v : option VerifiedDomain) : option (list key) :=
  v ← v; cloneJWKS (recordSigningKeySet v).
Definition SigningKey (v : option VerifiedDomain) : option key := v ← v; cloneJWK (signingKey v).
Definition vd_Status (v : option VerifiedDomain) : option AgentStatus :=
  v ← v; cloneAgentStatus (status v).
Definition vd_DNSSECState (v : option VerifiedDomain) : string :=
  match v with None => "UNKNOWN" | Some v => dnssecState v end.
Definition VerifiedAt (v : option VerifiedDomain) : time :=
  match v with None => 0 | Some v => verifiedAt v end.
Definition LastStatusCheckAt (v : option VerifiedDomain) : time :=
  match v with None => 0 | Some v => lastStatusCheckAt v end.
Definition DNSTTL (v : option VerifiedDomain) : Z :=
  match v with None => 0 | Some v => dnsTTL v end.
Definition JWKSCertificate (v : option VerifiedDomain) : option TLSCertificate :=
  v ← v; cloneTLSCertificate (jwksTLSCertificate v).
Definition JWKSLeafCertificate (v : option VerifiedDomain) : option X509Certificate :=
  v ← v; c ← jwksTLSCertificate v; cloneX509Certificate (Leaf c).
Definition StatusCertificate (v : option VerifiedDomain) : option TLSCertificate :=
  v ← v; cloneTLSCertificate (statusTLSCertificate v).
Definition StatusLeafCertificate (v : option VerifiedDomain) : option X509Certificate :=
  v ← v; c ← statusTLSCertificate v; cloneX509Certificate (Leaf c).
Definition KeyBoundAt (v : option VerifiedDomain) : time :=
  match v with None => 0 | Some v => keyBoundAt v end.
Definition vd_LogReader (v : option VerifiedDomain) : option reader := v ← v; logReader v.
Definition Expiry (v : option VerifiedDomain) : time :=
  match v with None => 0 | Some v => expiry v end.
Definition CachedState (v : option VerifiedDomain) : string :=
  match v with None => EmptyString | Some v => cachedState v end.

Definition PolicyFlagMTLS : string := "mtls".
Definition PolicyFlagLogCheck : string := "logchk".
Definition hasPolicyFlag (rec : option TXTRecord) (want : string) : bool :=
  match rec with
  | None => false
  | Some rec => existsb (fun flag => str_eqb (TrimSpace flag) want) (Flags rec)
  end.
Definition RequiresLogCheck (v : option VerifiedDomain) : bool :=
  match v with None => false | Some v => hasPolicyFlag (record v) PolicyFlagLogCheck end.

(** ** Deadlines *)
Definition hour : Z := 3600 * second.

Definition parseKeyAgeDuration (value : string) : res Z :=
  if str_eqb value "24h" then Ok (24 * hour)
  else if str_eqb value "7d" then Ok (7 * 24 * hour)
  else if str_eqb value "30d" then Ok (30 * 24 * hour)
  else if str_eqb value "90d" then Ok (90 * 24 * hour)
  else Err (PlainError "dnsid: invalid key age").

(** [if expiry.IsZero() || t.Before(expiry) { expiry = t }]. *)
Definition earlier (expiry t : time) : time :=
  if time_is_zero expiry || before t expiry then t else expiry.

Definition verifiedDomainExpiry (verifiedAt : time) (dnsTTL : Z) (keyAge : string)
    (keyBoundAt : time) (runtimeCert recordSigningCert : option TLSCertificate) : time :=
  let expiry := if (0 <=? dnsTTL) && negb (time_is_zero verifiedAt) then verifiedAt + dnsTTL else 0 in
  let expiry :=
    if negb (is_empty keyAge) && negb (time_is_zero keyBoundAt) then
      match parseKeyAgeDuration keyAge with
      | Ok d => earlier expiry (keyBoundAt + d)
      | Err _ => expiry
      end
    else expiry in
  fold_left (fun expiry cert =>
    let certExpiry := certificateNotAfter cert in
    if time_is_zero certExpiry then expiry else earlier expiry certExpiry)
    [runtimeCert; recordSigningCert] expiry.

(** One certificate of the loop: expired or not yet valid. *)
Definition cert_stale (now : time) (cert : option TLSCertificate) : bool :=
  match cert with
  | Some c => match Leaf c with
              | Some l => before now (NotBefore l) || negb (before now (NotAfter l))
              | None => false
              end
  | None => false
  end.

Definition requireFreshIdentityEvidence (vd : option VerifiedDomain) (freshDNS : bool) (now : time)
    : res unit :=
  match vd with
  | None => Err (VerificationError "dns_resolution" true "dnsid: missing identity evidence")
  | Some vd =>
      fail_if existsb (cert_stale now) [jwksTLSCertificate vd; ekTLSCertificate vd]
        with VerificationError "tls_error" false
               "dnsid: identity TLS evidence expired or not yet valid" ;;
      let exceeded := VerificationError "key_age_exceeded" false "dnsid: operational key age exceeded" in
      _ ← match record vd with
          | Some r =>
              if negb (is_empty (KeyAge r)) && negb (time_is_zero (keyBoundAt vd)) then
                match parseKeyAgeDuration (KeyAge r) with
                | Err parseErr => Err (WithCause exceeded parseErr)
                | Ok age => fail_if negb (before now (keyBoundAt vd + age)) with exceeded ;; Ok tt
                end
              else Ok tt
          | None => Ok tt
          end;
      fail_if (0 <? dnsTTL vd) && negb (before now (dnsExpiresAt vd))
              || (dnsTTL vd <=? 0) && negb freshDNS
        with VerificationError "dns_resolution" true "dnsid: DNS identity evidence expired" ;;
      Ok tt
  end.

Definition CheckFreshness (v : option VerifiedDomain) (acquiredAfter now : time) : res unit :=
  let freshDNS := match v with
    | Some v => str_eqb (cachedState v) "fresh" && negb (time_is_zero acquiredAfter)
                && negb (before (verifiedAt v) acquiredAfter)
    | None => false end in
  requireFreshIdentityEvidence v freshDNS now.

(** [cachedStatusNeedsRefresh], with the configured interval. *)
Definition cachedStatusNeedsRefresh (interval : Z) (vd : option VerifiedDomain) (now : time) : bool :=
  match vd with
  | None => false
  | Some vd =>
      match record vd with
      | None => false
      | Some _ =>
          bool_decide (status vd = None) || (interval <=? 0) || time_is_zero (lastStatusCheckAt vd)
          || (interval <=? time_sub now (lastStatusCheckAt vd))
      end
  end.
End domain.
Arguments VerifiedDomain : clear implicits.

(** ** The deadlines agree *)
Section deadlines.
Context {key reader : Type}.

Lemma earlier_min e t : 0 < e -> earlier e t = Z.min e t.
Proof.
  unfold earlier, time_is_zero, before. intros He. replace (e =? 0) with false by lia.
  cbn [orb]. destruct (Z.ltb_spec t e); lia.
Qed.

(** The deadline a certificate adds, if any. *)
Definition cert_deadline (cert : option TLSCertificate) : option time :=
  c ← cert; l ← Leaf c; Some (NotAfter l).

Lemma certificateNotAfter_deadline cert :
  certificateNotAfter cert = default 0 (cert_deadline cert).
Proof. destruct cert as [c|]; [|done]. cbn. by destruct (Leaf c). Qed.

Definition key_deadline (keyAge : string) (keyBoundAt : time) : option time :=
  if is_empty keyAge || time_is_zero keyBoundAt then None
  else match parseKeyAgeDuration keyAge with Ok d => Some (keyBoundAt + d) | Err _ => None end.

Definition min_with (e : time) (d : option time) : time :=
  match d with Some t => Z.min e t | None => e end.

Lemma parseKeyAgeDuration_valid s :
  ValidKeyAgeValues s = true -> exists d, parseKeyAgeDuration s = Ok d /\ 0 < d.
Proof.
  unfold ValidKeyAgeValues, parseKeyAgeDuration. rewrite bool_decide_eq_true, !elem_of_cons.
  intros [->|[->|[->|[->|Hn]]]]; [..|by apply elem_of_nil in Hn]; eexists; (split; [reflexivity|done]).
Qed.

Lemma expiry_min acq ttl ka kb c1 c2 :
  0 < acq -> 0 <= ttl -> 0 <= kb ->
  (forall c t, c ∈ [c1; c2] -> cert_deadline c = Some t -> 0 < t) ->
  verifiedDomainExpiry acq ttl ka kb c1 c2 =
    min_with (min_with (min_with (acq + ttl) (key_deadline ka kb)) (cert_deadline c1))
      (cert_deadline c2).
Proof.
  intros Ha Ht Hk Hc. unfold verifiedDomainExpiry, key_deadline, time_is_zero.
  replace (0 <=? ttl) with true by lia. replace (acq =? 0) with false by lia. cbn [andb negb].
  assert (Hstep : forall (e : time) c, c ∈ [c1; c2] -> 0 < e ->
    (let t := certificateNotAfter c in if t =? 0 then e else earlier e t) =
      min_with e (cert_deadline c) /\ 0 < min_with e (cert_deadline c)).
  { intros e c Hin He. rewrite certificateNotAfter_deadline.
    destruct (cert_deadline c) as [t|] eqn:Hd; cbn; [|split; [done|lia]].
    specialize (Hc c t Hin Hd). replace (t =? 0) with false by lia. rewrite earlier_min by done. lia. }
  set (e1 := if negb (is_empty ka) && negb (kb =? 0) then _ else _).
  assert (He1 : e1 = min_with (acq + ttl) (if is_empty ka || (kb =? 0) then None
                  else match parseKeyAgeDuration ka with Ok d => Some (kb + d) | Err _ => None end)
                /\ 0 < e1).
  { unfold e1. destruct (is_empty ka); cbn [negb andb orb]; [cbn; lia|].
    destruct (Z.eqb_spec kb 0); cbn [negb]; [cbn; lia|].
    destruct (parseKeyAgeDuration ka) as [d|] eqn:Hd; cbn; [|lia].
    rewrite earlier_min by lia. assert (0 < d); [|lia].
    unfold parseKeyAgeDuration, hour, second in Hd. go_inv; lia. }
  clearbody e1. destruct He1 as [<- He1]. cbn [fold_left]. cbn zeta in Hstep |- *.
  destruct (Hstep e1 c1) as [E1 P1]; [left|done|]. rewrite E1.
  destruct (Hstep _ c2 ltac:(right; left) P1) as [E2 _]. exact E2.
Qed.

(** The deadlines beside that of DNS, for those pieces that have one. *)
Definition evidence_deadlines (vd : VerifiedDomain key reader) (r : TXTRecord) : list time :=
  omap id [key_deadline (KeyAge r) (keyBoundAt vd); cert_deadline (jwksTLSCertificate vd); cert_deadline (ekTLSCertificate vd)].
Definition least (e : time) (l : list time) : Prop := e ∈ l /\ Forall (fun t => e <= t) l.
(** No certificate of the evidence is still to become valid. *)
Definition certificates_started (vd : VerifiedDomain key reader) (now : time) : Prop :=
  Forall (fun c => forall l, (c0 ← c; Leaf c0) = Some l -> NotBefore l <= now) [jwksTLSCertificate vd; ekTLSCertificate vd].

Lemma least_min e k c1 c2 :
  least (min_with (min_with (min_with e k) c1) c2) (e :: omap id [k; c1; c2]).
Proof.
  destruct k as [k|], c1 as [c1|], c2 as [c2|]; cbn; (split; [rewrite !elem_of_cons; lia|repeat constructor; lia]).
Qed.
Lemma before_least now e l : least e l -> now < e <-> Forall (fun t => now < t) l.
Proof.
  intros [Hin Hle]. split; [intros H; eapply Forall_impl; [exact Hle|]; cbn; lia|].
  rewrite Forall_forall. intros H. by apply H.
Qed.
Lemma before_omap now l : Forall (fun t : time => now < t) (omap id l) <-> Forall (fun d => forall t, d = Some t -> now < t) l.
Proof.
  induction l as [|[t|] l IH]; cbn; [by split; constructor| |]; rewrite !Forall_cons, <- IH; [|naive_solver].
  split; [intros [? ?]; split; [by intros ? [= <-]|done]|intros [H ?]; split; [by apply H|done]].
Qed.

Lemma cert_stale_spec now cert :
  cert_stale now cert = false <->
  (forall l, (c0 ← cert; Leaf c0) = Some l -> NotBefore l <= now) /\ (forall t, cert_deadline cert = Some t -> now < t).
Proof.
  destruct cert as [c|]; [|cbn; naive_solver]. cbn. destruct (Leaf c) as [l|]; [|cbn; naive_solver].
  cbn. unfold before. rewrite orb_false_iff, negb_false_iff, Z.ltb_ge, Z.ltb_lt. naive_solver.
Qed.

(** The key-age check in front of the rest of the checks. *)
Lemma key_age_check (r : TXTRecord) bound now (e1 : error -> error) (e2 : error) (k : res unit) :
  KeyAge r = EmptyString \/ ValidKeyAgeValues (KeyAge r) = true ->
  (_ ← (if negb (is_empty (KeyAge r)) && negb (time_is_zero bound) then
          match parseKeyAgeDuration (KeyAge r) with
          | Err parseErr => Err (e1 parseErr)
          | Ok age => fail_if negb (before now (bound + age)) with e2 ;; Ok tt
          end else Ok tt); k) = Ok tt <->
  (forall t, key_deadline (KeyAge r) bound = Some t -> now < t) /\ k = Ok tt.
Proof.
  intros Hka. unfold key_deadline, mbind, res_bind.
  destruct (is_empty (KeyAge r)) eqn:Ee; [cbn; naive_solver|].
  destruct (time_is_zero bound); [cbn; naive_solver|]. cbn [negb andb orb].
  destruct Hka as [Hka|Hka]; [apply is_empty_false in Ee; done|].
  destruct (parseKeyAgeDuration_valid _ Hka) as (d & -> & _). unfold before.
  destruct (Z.ltb_spec now (bound + d)); cbn [negb]; split.
  - intros Hk. split; [by intros t [= <-]|done].
  - by intros [_ Hk].
  - done.
  - intros [Hk _]. specialize (Hk _ eq_refl). lia.
Qed.

(** C37: the stored expiry is the deadline of the evidence. For a domain as
    the verifier builds it (a TTL of at least zero counted from the
    acquisition, a [ka] that is absent or well formed, times after the epoch),
    [verifiedDomainExpiry] is the least of the deadlines of DNS, of the key age
    and of the two certificates, as far as they exist. The freshness check
    passes exactly when both certificates have become valid and, with a
    positive TTL, that expiry lies ahead, whether or not DNS was looked up
    afresh; with a TTL of zero, when DNS was looked up afresh and the other
    deadlines lie ahead. *)
Theorem expiry_is_evidence_deadline (vd : VerifiedDomain key reader) r fresh now :
  record vd = Some r -> KeyAge r = EmptyString \/ ValidKeyAgeValues (KeyAge r) = true ->
  0 < acquiredAt vd -> 0 <= dnsTTL vd -> dnsExpiresAt vd = acquiredAt vd + dnsTTL vd -> 0 <= keyBoundAt vd ->
  (forall c t, c ∈ [jwksTLSCertificate vd; ekTLSCertificate vd] -> cert_deadline c = Some t -> 0 < t) ->
  let expiry := verifiedDomainExpiry (acquiredAt vd) (dnsTTL vd) (KeyAge r) (keyBoundAt vd)
                  (jwksTLSCertificate vd) (ekTLSCertificate vd) in
  least expiry ((acquiredAt vd + dnsTTL vd) :: evidence_deadlines vd r) /\
  (requireFreshIdentityEvidence (Some vd) fresh now = Ok tt <->
   certificates_started vd now /\
   if 0 <? dnsTTL vd then now < expiry else fresh = true /\ Forall (fun t => now < t) (evidence_deadlines vd r)).
Proof.
  intros Hr Hka Hacq Httl Hdns Hkb Hcert expiry. subst expiry. rewrite expiry_min by done.
  pose proof (least_min (acquiredAt vd + dnsTTL vd) (key_deadline (KeyAge r) (keyBoundAt vd))
    (cert_deadline (jwksTLSCertificate vd)) (cert_deadline (ekTLSCertificate vd))) as Hleast.
  split; [exact Hleast|]. unfold certificates_started, requireFreshIdentityEvidence. rewrite Hr, Forall_cons, Forall_singleton, fail_if_ok. cbn [existsb].
  rewrite orb_false_r, orb_false_iff, !cert_stale_spec, key_age_check, Hdns by done. unfold before.
  destruct (Z.ltb_spec 0 (dnsTTL vd)).
  - rewrite (before_least _ _ _ Hleast), Forall_cons, before_omap, !Forall_cons, Forall_nil.
    replace (dnsTTL vd <=? 0) with false by lia. cbn [andb]. rewrite orb_false_r.
    destruct (Z.ltb_spec now (acquiredAt vd + dnsTTL vd)); cbn [negb]; naive_solver lia.
  - unfold evidence_deadlines. rewrite before_omap, !Forall_cons, Forall_nil.
    replace (dnsTTL vd <=? 0) with true by lia. cbn [andb orb]. destruct fresh; cbn [negb]; naive_solver.
Qed.
End deadlines.

Definition demo_ka_record : TXTRecord :=
  {| Version := "dnsid-draft-01"; GovernanceID := "example.com"; EntityKeyURI := ""; KeyURI := "";
     LogRef := ""; StatusURI := ""; TxtRecord.Signature := ""; Flags := []; KeyAge := "7d";
     Capabilities := ""; UnknownTags := ∅; parsedTags := ∅ |}.
Definition demo_cert : TLSCertificate := TLSCert [] (Some (Cert "" 1 1000)) "" [] [].
Definition demo_vd (flag : option nat) : VerifiedDomain demo_jwk unit :=
  VD "agent.example.com" (Some demo_ka_record) None None None None "" None "VALID"
    10 10 10 500 510 (Some demo_cert) None None 5 "" None 510 "fresh" flag.

Lemma expiry_is_evidence_deadline_witness :
  requireFreshIdentityEvidence (Some (demo_vd None)) false 509 = Ok tt /\
  requireFreshIdentityEvidence (Some (demo_vd None)) false 510 <> Ok tt.
Proof.
  assert (H : forall now, requireFreshIdentityEvidence (Some (demo_vd None)) false now = Ok tt <->
            certificates_started (demo_vd None) now /\ now < verifiedDomainExpiry 10 500 "7d" 5 (Some demo_cert) None).
  { intros now.
    apply (expiry_is_evidence_deadline (demo_vd None) demo_ka_record false now);
      [reflexivity|right; reflexivity|reflexivity|discriminate|reflexivity|discriminate|].
    intros c t Hc Ht. apply elem_of_cons in Hc as [->|Hc].
    - injection Ht as <-. reflexivity.
    - apply list_elem_of_singleton in Hc as ->. discriminate Ht. }
  split; rewrite H.
  - split; [|reflexivity]. repeat constructor; [intros l [= <-]; vm_compute; discriminate|intros l [=]].
  - intros [_ Hx]. vm_compute in Hx. discriminate Hx.
Defined.
