(* ===== verification/Fetch.v ===== *)
(** * Fetch: which URLs a verification may read

    identity_manager.go and txt_record.go: the semantic checks of a record
    ([TXTRecord.Validate]), the checks of a URL before it is fetched and of
    every redirect after it ([validateManagerFetchURL],
    [clientWithRedirectPolicy]), and the redirect loop of [http.Client.Do]
    they are hooked into. The peer is the function [serve]. *)

From Stdlib Require Import ZArith Lia Ascii String.
From S2P Require Import Prelude Codec Utf8 Evidence Json Keys Fqdn Lifecycle TxtRecord Reference KeyRing KeyRingSpec Jwks Domain.

Open Scope Z_scope.

(** ** Letters

    [strings.ToLower] maps rune by rune; two runes outside ASCII lower to
    ASCII letters, U+0130 to [i] and U+212A to [k]. Here the result is
    compared with ASCII names: what other runes become does not matter, and
    they are left as they are. *)
Fixpoint lower_special (s : string) : string :=
  match s with
  | String a s' =>
      match s' with
      | String b rest =>
          if (byte_val a =? 196) && (byte_val b =? 176) then String "i" (lower_special rest)
          else match rest with
               | String c rest' =>
                   if (byte_val a =? 226) && (byte_val b =? 132) && (byte_val c =? 170)
                   then String "k" (lower_special rest')
                   else String a (lower_special s')
               | EmptyString => String a (lower_special s')
               end
      | EmptyString => s
      end
  | EmptyString => s
  end.
Definition ToLower (s : string) : string := to_lower (lower_special s).
(** [strings.EqualFold] with an ASCII name: the folding of Json.v. *)
Definition EqualFold (s ascii_name : string) : bool := str_eqb (fold_name s) (fold_name ascii_name).

(** ** Domain names *)
Definition alnum (c : ascii) : bool :=
  let n := byte_val c in
  (48 <=? n) && (n <=? 57) || (65 <=? n) && (n <=? 90) || (97 <=? n) && (n <=? 122).
Fixpoint ends_alnum (s : string) : bool :=
  match s with
  | EmptyString => false
  | String c EmptyString => alnum c
  | String _ s => ends_alnum s
  end.
(** One label of [hostnameRegex]. *)
Definition hostname_label (l : string) : bool :=
  match l with String c _ => alnum c | EmptyString => false end && ends_alnum l
  && forall_byte (fun c => alnum c || Ascii.eqb c "-") l && (String.length l <=? 63)%nat.
Definition hostnameRegex (s : string) : bool :=
  (2 <=? List.length (split "." s))%nat && forallb hostname_label (split "." s).

Definition isDomainName (value : string) : bool :=
  negb (is_empty value) && negb (has_byte ":" value) && negb (has_byte "/" value)
  && negb (forall_byte is_digit (match cut_last "." value with Some (_, top) => top | None => value end))
  && hostnameRegex value.

Section fetch.
Context {I : Idna} {U : NetURL}.

(** ** Record semantics (txt_record.go) *)
Definition dnsid_ParseLogRef (lr : string) : res (string * string) :=
  match Lifecycle.ParseLogRef lr with
  | Ok r => Ok r
  | Err _ => Err (ParseError "dnsid: invalid log reference")
  end.

Definition validateRecordHTTPSURL (raw tag : string) : res unit :=
  match url_Parse raw with
  | None => Err (ValidationError "dnsid: record URL must be an HTTPS URL")
  | Some u =>
      fail_if negb (str_eqb (Scheme u) "https") || is_empty (Hostname u)
        with ValidationError "dnsid: record URL must be an HTTPS URL" ;;
      fail_if User u with ValidationError "dnsid: record URL must not include userinfo" ;;
      Ok tt
  end.

(** [u, _ := url.Parse(raw)] with [u] known to parse. *)
Definition hostname_of (raw : string) : string :=
  match url_Parse raw with Some u => Hostname u | None => EmptyString end.

Definition validateWithSignatureRequirement (r : option TXTRecord) (identityFQDN : string) (includeSignature : bool) : res unit :=
  match r with
  | None => Err (ValidationError "dnsid: nil TXTRecord")
  | Some r =>
      validateRequiredTags (Some r) includeSignature ;;
      match NormalizeFQDN identityFQDN with
      | Err e => Err (WithCause (ValidationError "") e)
      | Ok fqdn =>
          validateRecordHTTPSURL (KeyURI r) "ku" ;;
          validateRecordHTTPSURL (StatusURI r) "su" ;;
          match dnsid_ParseLogRef (LogRef r) with
          | Err _ => Err (ValidationError "dnsid: invalid log reference")
          | Ok _ =>
              (if negb (is_empty (Capabilities r)) then validateRecordHTTPSURL (Capabilities r) "cu" else Ok tt) ;;
              fail_if negb (EqualFold (hostname_of (KeyURI r)) fqdn)
                with ValidationError "dnsid: ku host must equal identity FQDN" ;;
              validateRecordHTTPSURL (EntityKeyURI r) "ek" ;;
              let gi := TrimSpace (GovernanceID r) in
              fail_if negb (isDomainName gi) with ValidationError "dnsid: gi must be a domain name" ;;
              match NormalizeFQDN gi with
              | Err e => Err (WithCause (ValidationError "") e)
              | Ok giDomain =>
                  fail_if negb (str_eqb gi giDomain) with ValidationError "dnsid: gi must be lowercase ASCII in A-label form" ;;
                  fail_if negb (isDomainOrSubdomain (ToLower (hostname_of (EntityKeyURI r))) giDomain)
                    with ValidationError "dnsid: ek host must be at or under gi domain" ;;
                  fail_if negb (is_empty (KeyAge r)) && negb (ValidKeyAgeValues (KeyAge r))
                    with ValidationError "dnsid: invalid ka value" ;;
                  Ok tt
              end
          end
      end
  end.
Definition txt_Validate (r : option TXTRecord) (identityFQDN : string) : res unit :=
  validateWithSignatureRequirement r identityFQDN true.
Definition validateUnsigned (r : option TXTRecord) (identityFQDN : string) : res unit :=
  validateWithSignatureRequirement r identityFQDN false.

(** ** URLs of a fetch *)
Definition fetchHostAllowed (host allowed : string) (domainBoundary : bool) : bool :=
  let host := ToLower host in
  let allowed := ToLower allowed in
  str_eqb host allowed || domainBoundary && has_suffix (String "." allowed) host.

Definition validateManagerFetchURL (raw allowedHost : string) (domainBoundary : bool) : res unit :=
  match url_Parse raw with
  | None => Err (TLSPolicyError "invalid URL")
  | Some u =>
      fail_if negb (str_eqb (Scheme u) "https") with TLSPolicyError "URL must use https" ;;
      fail_if User u with TLSPolicyError "URL must not include userinfo" ;;
      fail_if negb (is_empty (Fragment u)) || negb (is_empty (RawFragment u))
        with TLSPolicyError "URL must not include a fragment" ;;
      fail_if negb (is_empty allowedHost) && negb (fetchHostAllowed (Hostname u) allowedHost domainBoundary)
        with TLSPolicyError "URL host does not match allowed host" ;;
      Ok tt
  end.

Definition RedirectPolicyNone : string := "none".
Definition RedirectPolicySameHost : string := "sameHost".
Definition RedirectPolicyHTTPS : string := "https".

Record FetchOptions := {
  AllowedHost : string;
  DomainBoundary : bool;
  MaxResponseBytes : Z;
  RedirectPolicy : string;
  Revalidate : bool
}.

(** [http.Client.CheckRedirect]: [None] is [http.ErrUseLastResponse]. *)
Definition check_redirect (opts : FetchOptions) (originalHost : string) (via : nat) (u : URL) : option (res unit) :=
  let policy := if is_empty (RedirectPolicy opts) then RedirectPolicyNone else RedirectPolicy opts in
  if str_eqb policy RedirectPolicyNone then None
  else Some (
    fail_if (10 <=? via)%nat with TLSPolicyError "too many HTTPS redirects" ;;
    fail_if negb (str_eqb (Scheme u) "https") with TLSPolicyError "redirect URL must use https" ;;
    fail_if User u with TLSPolicyError "redirect URL must not include userinfo" ;;
    fail_if negb (is_empty (Fragment u)) || negb (is_empty (RawFragment u))
      with TLSPolicyError "redirect URL must not include a fragment" ;;
    if str_eqb policy RedirectPolicySameHost then
      let allowed := if is_empty (AllowedHost opts) then originalHost else AllowedHost opts in
      fail_if negb (is_empty allowed) && negb (fetchHostAllowed (Hostname u) allowed (DomainBoundary opts))
        with TLSPolicyError "redirect host does not match allowed host" ;;
      Ok tt
    else if str_eqb policy RedirectPolicyHTTPS then Ok tt
    else Err (TLSPolicyError "unsupported redirect policy")).

(** A response: its status, its [Location] ([Some None] does not parse), its
    body and the leaf certificate of the peer. *)
Record response := {
  StatusCode : Z;
  Location : option (option URL);
  Body : string;
  PeerCertificate : option TLSCertificate
}.
Definition is_redirect (status : Z) : bool := existsb (Z.eqb status) [301; 302; 303; 307; 308].

(** The loop of [http.Client.Do] for a GET: the URLs asked for, in order, and
    the response. [via] requests have been made before. *)
Fixpoint do_redirects (fuel : nat) (serve : URL -> res response) (opts : FetchOptions) (originalHost : string)
    (via : nat) (u : URL) : list URL * res response :=
  match fuel with
  | O => ([], Err (PlainError "out of fuel"))
  | S fuel =>
      match serve u with
      | Err e => ([u], Err e)
      | Ok r =>
          if negb (is_redirect (StatusCode r)) then ([u], Ok r)
          else match Location r with
               | None => ([u], Ok r)
               | Some None => ([u], Err (PlainError "failed to parse Location header"))
               | Some (Some u') =>
                   match check_redirect opts originalHost (S via) u' with
                   | None => ([u], Ok r)
                   | Some (Err e) => ([u], Err e)
                   | Some (Ok _) =>
                       let '(asked, r) := do_redirects fuel serve opts originalHost (S via) u' in (u :: asked, r)
                   end
               end
      end
  end.

(** Ten requests: the eleventh is refused by [CheckRedirect]. *)
Definition do_fuel : nat := 10.

Definition FetchJSON (serve : URL -> res response) (rawURL : string) (opts : FetchOptions)
    : list URL * res (string * option TLSCertificate) :=
  match validateManagerFetchURL rawURL (AllowedHost opts) (DomainBoundary opts) with
  | Err e => ([], Err e)
  | Ok _ =>
      match url_Parse rawURL with
      | None => ([], Err (PlainError "invalid request URL"))
      | Some u =>
          let '(asked, r) := do_redirects do_fuel serve opts (Hostname u) 0 u in
          (asked,
            r ← r;
            fail_if negb (StatusCode r =? 200) with HTTPStatusError (StatusCode r) ;;
            let limit := if MaxResponseBytes opts <=? 0 then Z.shiftl 1 20 else MaxResponseBytes opts in
            fail_if limit <? Z.of_nat (String.length (Body r)) with PlainError "response body exceeds limit" ;;
            Ok (Body r, PeerCertificate r))
      end
  end.

(** ** What a fetch may ask for *)
Definition host_allowed (opts : FetchOptions) (u : URL) : Prop :=
  AllowedHost opts <> EmptyString -> fetchHostAllowed (Hostname u) (AllowedHost opts) (DomainBoundary opts) = true.
Definition url_allowed (opts : FetchOptions) (u : URL) : Prop :=
  Scheme u = "https"%string /\ User u = false /\ Fragment u = EmptyString /\ RawFragment u = EmptyString /\
  (RedirectPolicy opts = RedirectPolicySameHost -> host_allowed opts u).

Lemma no_fragment u : negb (is_empty (Fragment u)) || negb (is_empty (RawFragment u)) = false ->
  Fragment u = EmptyString /\ RawFragment u = EmptyString.
Proof. rewrite orb_false_iff, !negb_false_iff, !is_empty_true. done. Qed.

Lemma host_check opts u :
  negb (is_empty (AllowedHost opts)) && negb (fetchHostAllowed (Hostname u) (AllowedHost opts) (DomainBoundary opts)) = false ->
  host_allowed opts u.
Proof.
  rewrite andb_false_iff, !negb_false_iff, is_empty_true. intros [H|H] Hne; [done|exact H].
Qed.

Lemma check_redirect_allowed opts host via u :
  check_redirect opts host via u = Some (Ok tt) -> (via < 10)%nat /\ url_allowed opts u.
Proof.
  unfold check_redirect. destruct (str_eqb _ RedirectPolicyNone) eqn:E0; [done|]. intros H%(inj Some).
  destruct (Nat.leb_spec 10 via); [done|]. destruct (str_eqb (Scheme u) _) eqn:E1; [|done]. cbn [negb] in H.
  destruct (User u) eqn:E2; [done|]. destruct (_ || _) eqn:E3; [done|]. apply no_fragment in E3 as [Hf Hr].
  apply str_eqb_eq in E1. split; [lia|]. split_and!; try done. intros Hp Hne. rewrite Hp in H.
  change (str_eqb (if is_empty RedirectPolicySameHost then RedirectPolicyNone else RedirectPolicySameHost) RedirectPolicySameHost)
    with true in H. cbv iota zeta in H.
  pose proof (proj2 (is_empty_false _) Hne) as He. rewrite He in H. cbv iota in H.
  match type of H with (if ?b then _ else _) = _ => destruct b eqn:E4; [done|] end. by apply host_check in E4; [apply E4|..].
Qed.

Lemma do_redirects_allowed fuel serve opts host via u asked r :
  (via < 10)%nat -> (10 - via <= fuel)%nat -> url_allowed opts u ->
  do_redirects fuel serve opts host via u = (asked, r) ->
  Forall (url_allowed opts) asked /\ (List.length asked <= 10 - via)%nat /\
  forall n, do_redirects (fuel + n) serve opts host via u = (asked, r).
Proof.
  revert via u asked r. induction fuel as [|fuel IH]; intros via u asked r Hv Hf Hu; [lia|]. cbn [do_redirects Nat.add].
  assert (forall x, ([u], x) = (asked, r) -> Forall (url_allowed opts) asked /\ (List.length asked <= 10 - via)%nat /\
    forall n : nat, ([u], x) = (asked, r)) as Hone.
  { intros x [= <- <-]. split; [by constructor|]. split; [cbn; lia|done]. }
  destruct (serve u) as [resp|]; [|apply Hone]. destruct (negb _); [apply Hone|].
  destruct (Location resp) as [[u'|]|]; [|apply Hone..].
  destruct (check_redirect opts host (S via) u') as [[[]|]|] eqn:Ec; [|apply Hone..].
  apply check_redirect_allowed in Ec as [Hv' Hu'].
  destruct (do_redirects fuel serve opts host (S via) u') as [asked' r'] eqn:Ed. intros [= <- <-].
  destruct (IH _ _ _ _ Hv' ltac:(lia) Hu' Ed) as (H1 & H2 & H3). split; [by constructor|]. split; [cbn; lia|].
  intros n. by rewrite H3.
Qed.

Lemma do_redirects_head fuel serve opts host via u asked r u1 :
  do_redirects fuel serve opts host via u = (asked, r) -> head asked = Some u1 -> u1 = u.
Proof.
  destruct fuel as [|fuel]; cbn [do_redirects]; [by intros [= <- _]|]. intros H Hh.
  repeat match type of H with
  | (match ?x with _ => _ end) = _ => destruct x
  | (let '(_, _) := ?x in _) = _ => destruct x
  end; injection H as <- _; by injection Hh.
Qed.

Lemma do_redirects_answer fuel serve opts host via u asked resp :
  do_redirects fuel serve opts host via u = (asked, Ok resp) -> exists u1, last asked = Some u1 /\ serve u1 = Ok resp.
Proof.
  revert via u asked. induction fuel as [|fuel IH]; intros via u asked; cbn [do_redirects]; [done|].
  destruct (serve u) as [r|] eqn:Es; [|done].
  assert (([u], Ok r) = (asked, Ok resp) -> exists u1, last asked = Some u1 /\ serve u1 = Ok resp) as Hone
    by (intros [= <- <-]; by exists u).
  destruct (negb _); [exact Hone|]. destruct (Location r) as [[u'|]|]; [|done|exact Hone].
  destruct (check_redirect _ _ _ _) as [[[]|]|]; [|done|exact Hone].
  destruct (do_redirects fuel serve opts host (S via) u') as [asked' r'] eqn:Ed. intros [= <- ->].
  destruct (IH _ _ _ Ed) as (u1 & Hl & H1). exists u1. split; [|done]. destruct asked'; [done|exact Hl].
Qed.

Lemma validated_url raw opts u :
  validateManagerFetchURL raw (AllowedHost opts) (DomainBoundary opts) = Ok tt -> url_Parse raw = Some u ->
  url_allowed opts u /\ host_allowed opts u.
Proof.
  unfold validateManagerFetchURL. intros H Hu. rewrite Hu in H. destruct (str_eqb (Scheme u) _) eqn:E1; [|done]. cbn [negb] in H.
  destruct (User u) eqn:E2; [done|]. destruct (negb (is_empty (Fragment u)) || _) eqn:E3; [done|]. apply no_fragment in E3 as [Hf Hr].
  apply str_eqb_eq in E1. destruct (_ && _) eqn:E4; [done|]. apply host_check in E4. by repeat split.
Qed.

(** C30: a fetch only asks for URLs its options allow: https, no userinfo, no
    fragment, and under [sameHost] a host at (or, for key sets of the
    governance domain, under) the allowed one, on every redirect; it asks at
    most ten times, so the redirect loop ends whatever the peers answer; and a
    result is a complete body within the limit, of a response with status 200. *)
Theorem fetches_stay_allowed serve raw opts asked r :
  FetchJSON serve raw opts = (asked, r) ->
  Forall (url_allowed opts) asked /\ (List.length asked <= 10)%nat /\
  (forall n u, url_Parse raw = Some u -> asked <> [] ->
     do_redirects (do_fuel + n) serve opts (Hostname u) 0 u = do_redirects do_fuel serve opts (Hostname u) 0 u) /\
  (forall u, head asked = Some u -> host_allowed opts u) /\
  (forall body cert, r = Ok (body, cert) -> exists u resp, last asked = Some u /\ serve u = Ok resp /\ StatusCode resp = 200 /\
     Body resp = body /\ PeerCertificate resp = cert /\
     Z.of_nat (String.length body) <= (if MaxResponseBytes opts <=? 0 then Z.shiftl 1 20 else MaxResponseBytes opts)).
Proof.
  unfold FetchJSON. destruct (validateManagerFetchURL _ _ _) as [[]|] eqn:Ev.
  2: { intros [= <- <-]. split; [constructor|]. split; [cbn; lia|]. split; [by intros ? ? _ []|]. by split. }
  destruct (url_Parse raw) as [u|] eqn:Eu.
  2: { intros [= <- <-]. split; [constructor|]. split; [cbn; lia|]. split; [by intros ? ? _ []|]. by split. }
  destruct (validated_url _ _ _ Ev Eu) as [Hu Hh].
  destruct (do_redirects do_fuel serve opts (Hostname u) 0 u) as [asked' r'] eqn:Ed. intros [= <- <-].
  destruct (do_redirects_allowed do_fuel _ _ _ 0 _ _ _ ltac:(lia) ltac:(done) Hu Ed) as (H1 & H2 & H3).
  split; [done|]. split; [done|]. split.
  - intros n u' [= <-] _. by rewrite H3.
  - split; [intros u1 H4; by rewrite (do_redirects_head _ _ _ _ _ _ _ _ u1 Ed H4)|].
    intros body cert H. destruct r' as [resp|]; [|done]. cbn [mbind res_bind] in H.
    destruct (do_redirects_answer _ _ _ _ _ _ _ _ Ed) as (u1 & Hl & Hs).
    destruct (StatusCode resp =? 200) eqn:E1; [|done]. apply Z.eqb_eq in E1. cbv beta iota zeta delta [negb] in H.
    match type of H with (if ?b then _ else _) = _ => destruct b eqn:E2; [done|] end. apply Z.ltb_ge in E2.
    injection H as <- <-. by exists u1, resp.
Qed.
End fetch.

(** ** A letter outside ASCII in the host of [ek]

    The host of [ek] is compared with [gi] after [strings.ToLower], which
    makes the letter U+0130 an ASCII [i]; the connection is made to the IDNA
    form of the host, which keeps the two apart. So a record passes with a key
    set that is not at or under its governance domain. *)
Definition dotted_host : string := String "196" (String "176" "dentity.example").
Lemma dotted_host_mapped : map_runes mapIDNADot dotted_host = dotted_host.
Proof. vm_compute. reflexivity. Qed.
Theorem ek_host_check_takes_other_host {I : Idna} {U : NetURL} :
  isDomainOrSubdomain (ToLower dotted_host) "identity.example" = true /\
  fetchHostAllowed dotted_host "identity.example" true = true /\
  (forall name, ToASCII dotted_host = Some name -> name <> "identity.example"%string ->
     NormalizeFQDN dotted_host <> Ok "identity.example"%string).
Proof.
  split; [vm_compute; reflexivity|]. split; [vm_compute; reflexivity|].
  intros name H Hne. unfold NormalizeFQDN. rewrite dotted_host_mapped.
  change (is_empty dotted_host) with false. change (has_suffix ".." dotted_host) with false.
  change (trim_dot dotted_host) with dotted_host. change (is_empty dotted_host) with false. cbv iota.
  rewrite H. destruct (_ <? _); congruence.
Qed.

(** A key set behind one redirect within the governance domain. *)
Definition https_url (host : string) : URL :=
  {| Scheme := "https"; User := false; Host := host; EscapedPath := "/jwks.json"; Fragment := ""; RawFragment := "" |}.
Definition fetch_url : NetURL := {| url_Parse s := rest ← strip_prefix "https://" s; Some (https_url rest) |}.
Definition fetch_serve (u : URL) : res response :=
  if str_eqb (Host u) "example.com"
  then Ok {| StatusCode := 302; Location := Some (Some (https_url "keys.example.com")); Body := ""; PeerCertificate := None |}
  else Ok {| StatusCode := 200; Location := None; Body := "{}"; PeerCertificate := None |}.
Definition fetch_options : FetchOptions :=
  {| AllowedHost := "example.com"; DomainBoundary := true; MaxResponseBytes := Z.shiftl 1 20;
     RedirectPolicy := RedirectPolicySameHost; Revalidate := false |}.
Lemma fetches_stay_allowed_witness :
  @FetchJSON fetch_url fetch_serve "https://example.com" fetch_options
    = ([https_url "example.com"; https_url "keys.example.com"], Ok ("{}"%string, None)) /\
  Forall (url_allowed fetch_options) [https_url "example.com"; https_url "keys.example.com"].
Proof.
  assert (E : @FetchJSON fetch_url fetch_serve "https://example.com" fetch_options
    = ([https_url "example.com"; https_url "keys.example.com"], Ok ("{}"%string, None))) by (vm_compute; reflexivity).
  split; [exact E|].
  exact (proj1 (@fetches_stay_allowed fetch_url fetch_serve "https://example.com" fetch_options _ _ E)).
Defined.
