(* ===== verification/Cache.v ===== *)
(** * Cache: the verified-domain cache of cache.go

    [IdentityCache] maps a domain and a manager's private namespace to a
    verified domain. Every stored entry points to an invalidation flag that
    its snapshots share ([flags] is the heap of those flags), so that a
    removed entry cannot be put back by a worker still holding a snapshot. *)

From Stdlib Require Import ZArith Lia Ascii String.
From S2P Require Import Prelude Codec Json Keys KeyRing KeyRingSpec Jwks Domain.

Open Scope Z_scope.

(** [identityCacheKey]: the domain, and the manager ([None] is the standalone
    namespace; managers are named by numbers, as pointers). *)
Abbreviation identityCacheKey := (string * option nat)%type.

Section cache.
Context {key : Type} `{!KeyOps key} `{!JwkLib key} `{!JwkSetLib key} `{!CloneLib key}
  {reader : Type}.
Abbreviation VD := (VerifiedDomain key reader).

(** The entries, the heap of flags, and the next free flag name. *)
Record IdentityCache := Cache {
  entries : gmap identityCacheKey (VerifiedDomain key reader);
  flags : gmap nat bool;
  next_flag : nat
}.

Definition NewIdentityCache : IdentityCache := Cache ∅ ∅ 0.

(** [if p != nil { p.Store(true) }] and [p != nil && p.Load()]. *)
Definition store_true (p : option nat) (m : gmap nat bool) : gmap nat bool :=
  match p with Some l => <[l := true]> m | None => m end.
Definition load (p : option nat) (m : gmap nat bool) : bool :=
  match p with Some l => default false (m !! l) | None => false end.

Definition with_state (st : string) (v : VD) : VD :=
  Domain.VD (domain v) (record v) (keySet v) (recordSigningKeySet v) (kuKey v) (signingKey v)
    (signingKeyThumbprint v) (status v) (dnssecState v) (verifiedAt v) (acquiredAt v)
    (lastStatusCheckAt v) (dnsTTL v) (dnsExpiresAt v) (jwksTLSCertificate v) (ekTLSCertificate v)
    (statusTLSCertificate v) (keyBoundAt v) (operationalKeyThumbprint v) (logReader v) (expiry v)
    st (cacheInvalidated v).
Definition with_flag (p : option nat) (v : VD) : VD :=
  Domain.VD (domain v) (record v) (keySet v) (recordSigningKeySet v) (kuKey v) (signingKey v)
    (signingKeyThumbprint v) (status v) (dnssecState v) (verifiedAt v) (acquiredAt v)
    (lastStatusCheckAt v) (dnsTTL v) (dnsExpiresAt v) (jwksTLSCertificate v) (ekTLSCertificate v)
    (statusTLSCertificate v) (keyBoundAt v) (operationalKeyThumbprint v) (logReader v) (expiry v)
    (cachedState v) p.

(** [!vd.expiry.IsZero() && !time.Now().Before(vd.expiry)]. *)
Definition expired (v : VD) (now : time) : bool :=
  negb (time_is_zero (expiry v)) && negb (before now (expiry v)).

(** Remove the entry at [k] and set its flag. *)
Definition remove_entry (k : identityCacheKey) (c : IdentityCache) : IdentityCache :=
  match entries c !! k with
  | Some cur => Cache (delete k (entries c)) (store_true (cacheInvalidated cur) (flags c)) (next_flag c)
  | None => Cache (delete k (entries c)) (flags c) (next_flag c)
  end.

(** [get] under the read lock: [None] goes on to the write lock. *)
Definition get_read (now : time) (k : identityCacheKey) (c : IdentityCache) : option (option VD) :=
  match entries c !! k with
  | None => Some None
  | Some vd => if expired vd now then None else Some (Some (with_state "cached" vd))
  end.

(** [get] under the write lock, on an entry that had expired: another
    goroutine may have refreshed it in the gap. *)
Definition get_write (now : time) (k : identityCacheKey) (c : IdentityCache)
    : IdentityCache * option VD :=
  match entries c !! k with
  | Some existing =>
      if time_is_zero (expiry existing) || before now (expiry existing)
      then (c, Some (with_state "cached" existing))
      else (remove_entry k c, None)
  | None => (remove_entry k c, None)
  end.

(** [get]: [c0] is the cache at the read lock, [c] at the write lock; [now0]
    and [now] are the two readings of the clock. *)
Definition get (now0 now : time) (k : identityCacheKey) (c0 c : IdentityCache)
    : IdentityCache * option VD :=
  match get_read now0 k c0 with
  | Some r => (c, r)
  | None => get_write now k c
  end.

Definition max_entries : nat := 1024.

(** [put]; [victim] is the entry the iteration over the map yields first. *)
Definition put (now : time) (victim : identityCacheKey) (vd : VD) (context : option nat)
    (c : IdentityCache) : IdentityCache :=
  if is_empty (domain vd) then c
  else
    let copy := cloneVerifiedDomain vd in
    let k := (domain copy, context) in
    let current := entries c !! k in
    if load (cacheInvalidated copy) (flags c) then c
    else if match current with
            | Some cur => negb (time_is_zero (acquiredAt copy)) && before (acquiredAt copy) (acquiredAt cur)
            | None => false end then c
    else if time_is_zero (expiry copy) || negb (before now (expiry copy)) || (dnsTTL copy <=? 0) then
      if bool_decide (context <> None) && negb (time_is_zero (acquiredAt copy))
      then remove_entry k c else c
    else
      let '(copy, c) := match cacheInvalidated copy with
        | None => (with_flag (Some (next_flag c)) copy,
                   Cache (entries c) (<[next_flag c := false]> (flags c)) (S (next_flag c)))
        | Some _ => (copy, c)
        end in
      let c := match current with
        | Some cur =>
            if bool_decide (cacheInvalidated cur <> cacheInvalidated copy)
            then Cache (entries c) (store_true (cacheInvalidated cur) (flags c)) (next_flag c)
            else c
        | None => c
        end in
      let c := if bool_decide (current = None) && (max_entries <=? size (entries c))%nat
               then remove_entry victim c else c in
      Cache (<[k := copy]> (entries c)) (flags c) (next_flag c).

Definition evict (k : identityCacheKey) (c : IdentityCache) : IdentityCache := remove_entry k c.

(** The exported operations use the standalone namespace. *)
Definition Get (now0 now : time) (d : string) := get now0 now (d, None).
Definition Put (now : time) (victim : identityCacheKey) (vd : VD) := put now victim vd None.
Definition Evict (d : string) := evict (d, None).

(** ** Runs: any interleaving of the critical sections, at any times

    The victim is an entry of the map, and a flag pointer is one that was
    allocated. *)
Inductive cache_step : IdentityCache -> IdentityCache -> Prop :=
| step_get now k c c' r : get_write now k c = (c', r) -> cache_step c c'
| step_put now victim vd context c :
    (entries c <> ∅ -> is_Some (entries c !! victim)) ->
    (forall l, cacheInvalidated vd = Some l -> (l < next_flag c)%nat) ->
    cache_step c (put now victim vd context c)
| step_evict k c : cache_step c (evict k c).
End cache.

(** ** Invariants *)
Section invariants.
Context {key : Type} `{!KeyOps key} `{!JwkLib key} `{!JwkSetLib key} `{!CloneLib key}
  {reader : Type}.
Implicit Types (c : @IdentityCache key reader) (v vd : VerifiedDomain key reader) (k : identityCacheKey).

Definition entry_inv c k v : Prop :=
  domain v = k.1 /\ k.1 <> EmptyString /\ 0 < dnsTTL v /\ expiry v <> 0 /\
  exists l, cacheInvalidated v = Some l /\ (l < next_flag c)%nat.

Record cache_inv c : Prop := {
  inv_size : (size (entries c) <= max_entries)%nat;
  inv_entry k v : entries c !! k = Some v -> entry_inv c k v;
  inv_flags l b : flags c !! l = Some b -> (l < next_flag c)%nat
}.

(** Either the entry of [k] keeps its flag, or the flag is set. *)
Definition fenced c c' k v : Prop :=
  (exists v', entries c' !! k = Some v' /\ cacheInvalidated v' = cacheInvalidated v) \/
  load (cacheInvalidated v) (flags c') = true.

(** Flags are never reset, and names never reused. *)
Definition flags_grow c c' : Prop :=
  (next_flag c <= next_flag c')%nat /\
  forall p, load p (flags c) = true -> load p (flags c') = true.

Definition newest c c' : Prop :=
  forall k v v', entries c !! k = Some v -> entries c' !! k = Some v' ->
    acquiredAt v' = 0 \/ acquiredAt v <= acquiredAt v'.

Lemma load_store_same l m : load (Some l) (store_true (Some l) m) = true.
Proof. cbn. by rewrite lookup_insert_eq. Qed.

Lemma load_store_mono p q m : load p m = true -> load p (store_true q m) = true.
Proof.
  destruct p as [l|], q as [l'|]; cbn; try done. rewrite lookup_insert. by case_decide.
Qed.

Lemma store_true_dom q m l b :
  store_true q m !! l = Some b -> q = Some l \/ is_Some (m !! l).
Proof.
  destruct q as [l'|]; cbn; [|eauto]. rewrite lookup_insert. case_decide; [subst; auto|eauto].
Qed.

(** *** Removal *)
Lemma remove_entry_next k c : next_flag (remove_entry k c) = next_flag c.
Proof. unfold remove_entry. by destruct (entries c !! k). Qed.
Lemma remove_entry_entries k c : entries (remove_entry k c) = delete k (entries c).
Proof. unfold remove_entry. by destruct (entries c !! k). Qed.
Lemma remove_entry_flags k c p : load p (flags c) = true -> load p (flags (remove_entry k c)) = true.
Proof. unfold remove_entry. destruct (entries c !! k); [apply load_store_mono|done]. Qed.

Lemma remove_entry_inv k c : cache_inv c -> cache_inv (remove_entry k c).
Proof.
  intros Hc. constructor.
  - rewrite remove_entry_entries. pose proof (inv_size c Hc).
    rewrite map_size_delete. unfold id. destruct (entries c !! k); lia.
  - intros k' v. rewrite remove_entry_entries. intros [_ Hv]%lookup_delete_Some.
    unfold entry_inv. rewrite remove_entry_next. exact (inv_entry c Hc k' v Hv).
  - intros l b. rewrite remove_entry_next. unfold remove_entry.
    destruct (entries c !! k) as [cur|] eqn:Hk; [|apply (inv_flags c Hc)].
    intros [Hl|[b' Hl]]%store_true_dom; [|exact (inv_flags c Hc l b' Hl)].
    destruct (inv_entry c Hc k cur Hk) as (_ & _ & _ & _ & l' & Hl' & Hlt). congruence.
Qed.

Lemma remove_entry_fenced k c k' v : entries c !! k' = Some v -> entry_inv c k' v -> fenced c (remove_entry k c) k' v.
Proof.
  intros Hv (_ & _ & _ & _ & l & Hl & _). unfold fenced. rewrite remove_entry_entries, lookup_delete.
  destruct (decide (k = k')) as [->|Hne]; [right|left; by exists v].
  unfold remove_entry. rewrite Hv, Hl. apply load_store_same.
Qed.

Lemma remove_entry_grow k c : flags_grow c (remove_entry k c).
Proof. split; [by rewrite remove_entry_next|]. intros p. apply remove_entry_flags. Qed.

Lemma remove_entry_newest k c : newest c (remove_entry k c).
Proof.
  intros k' v v' Hv. rewrite remove_entry_entries. intros [_ Hv']%lookup_delete_Some.
  assert (v' = v) as -> by congruence. right. lia.
Qed.

(** What every step guarantees. *)
Definition step_ok c c' : Prop :=
  cache_inv c' /\ flags_grow c c' /\ newest c c' /\
  forall k v, entries c !! k = Some v -> fenced c c' k v.

Lemma step_ok_refl c : cache_inv c -> step_ok c c.
Proof.
  intros Hc. split; [done|]. split; [by split|]. split.
  - intros k v v' Hv Hv'. assert (v' = v) as -> by congruence. right. lia.
  - intros k v Hv. left. by exists v.
Qed.

Lemma remove_entry_ok k c : cache_inv c -> step_ok c (remove_entry k c).
Proof.
  intros Hc. split; [by apply remove_entry_inv|]. split; [apply remove_entry_grow|].
  split; [apply remove_entry_newest|]. intros k' v Hv. apply remove_entry_fenced; [done|].
  by apply (inv_entry c Hc).
Qed.

(** *** Insertion, split into the three updates of [put] *)
Definition put_alloc (copy : VerifiedDomain key reader) c :=
  match cacheInvalidated copy with
  | None => (with_flag (Some (next_flag c)) copy,
             Cache (entries c) (<[next_flag c := false]> (flags c)) (S (next_flag c)))
  | Some _ => (copy, c)
  end.
Definition put_fence (current : option (VerifiedDomain key reader)) (copy : VerifiedDomain key reader) c :=
  match current with
  | Some cur =>
      if bool_decide (cacheInvalidated cur <> cacheInvalidated copy)
      then Cache (entries c) (store_true (cacheInvalidated cur) (flags c)) (next_flag c) else c
  | None => c
  end.
Definition put_make_room (current : option (VerifiedDomain key reader)) victim c :=
  if bool_decide (current = None) && (max_entries <=? size (entries c))%nat
  then remove_entry victim c else c.
Definition put_insert k (copy : VerifiedDomain key reader) c :=
  Cache (<[k := copy]> (entries c)) (flags c) (next_flag c).

Lemma put_eq now victim vd context c :
  let copy := cloneVerifiedDomain vd in
  let k := (domain copy, context) in
  put now victim vd context c =
  if is_empty (domain vd) || load (cacheInvalidated copy) (flags c)
     || match entries c !! k with
        | Some cur => negb (time_is_zero (acquiredAt copy)) && before (acquiredAt copy) (acquiredAt cur)
        | None => false end then c
  else if time_is_zero (expiry copy) || negb (before now (expiry copy)) || (dnsTTL copy <=? 0) then
    if bool_decide (context <> None) && negb (time_is_zero (acquiredAt copy))
    then remove_entry k c else c
  else let '(copy, c1) := put_alloc copy c in
       put_insert k copy (put_make_room (entries c !! k) victim (put_fence (entries c !! k) copy c1)).
Proof.
  intros copy k. unfold put, put_alloc, put_insert, put_make_room, put_fence. fold copy. fold k.
  destruct (is_empty (domain vd)); [done|]. destruct (load _ _); [done|].
  destruct (match entries c !! k with Some _ => _ | None => false end); [done|].
  destruct (_ || _ || _); [done|]. destruct (cacheInvalidated copy); reflexivity.
Qed.

(** [c1] is [c] with at most one more flag and some flags set. *)
Definition extends c c1 : Prop :=
  entries c1 = entries c /\ flags_grow c c1 /\
  forall l b, flags c1 !! l = Some b -> (l < next_flag c1)%nat.

Lemma put_alloc_spec copy c copy' c1 :
  cache_inv c -> (forall l, cacheInvalidated copy = Some l -> (l < next_flag c)%nat) ->
  put_alloc copy c = (copy', c1) ->
  extends c c1 /\ (exists l, cacheInvalidated copy' = Some l /\ (l < next_flag c1)%nat) /\
  domain copy' = domain copy /\ dnsTTL copy' = dnsTTL copy /\ expiry copy' = expiry copy /\
  acquiredAt copy' = acquiredAt copy /\
  (cacheInvalidated copy <> None -> copy' = copy).
Proof.
  unfold put_alloc. intros Hc Hl H. destruct (cacheInvalidated copy) as [l|] eqn:Hf; injection H as <- <-.
  - split; [|split; [exists l; eauto|done]]. split; [done|]. split; [by split|apply (inv_flags c Hc)].
  - split; [|split; [exists (next_flag c); split; [done|cbn; lia]|done]]. split; [done|].
    split; [split; [cbn; lia|]|].
    + intros [l|]; cbn; [|done]. rewrite lookup_insert. case_decide as Hd; [|done]. subst l.
      destruct (flags c !! next_flag c) as [b|] eqn:Hb; [|done].
      pose proof (inv_flags c Hc _ _ Hb). lia.
    + intros l b. cbn. rewrite lookup_insert. case_decide; [subst; lia|].
      intros Hb. pose proof (inv_flags c Hc l b Hb). lia.
Qed.

Lemma put_fence_spec k copy c c1 cur :
  cache_inv c -> extends c c1 -> cur = entries c !! k ->
  extends c (put_fence cur copy c1) /\ next_flag (put_fence cur copy c1) = next_flag c1 /\
  forall v, cur = Some v -> cacheInvalidated v = cacheInvalidated copy \/
    load (cacheInvalidated v) (flags (put_fence cur copy c1)) = true.
Proof.
  intros Hc (He & [Hn Hm] & Hb) Hcur. unfold put_fence.
  destruct cur as [v|]; [|done]. case_bool_decide as Hd.
  2:{ split; [done|]. split; [done|]. intros v' [= <-]. left.
      destruct (decide (cacheInvalidated v = cacheInvalidated copy)); [done|by destruct Hd]. }
  destruct (inv_entry c Hc k v (eq_sym Hcur)) as (_ & _ & _ & _ & l & Hl & Hlt).
  split; [|split; [done|]].
  - split; [done|]. split; [split; [done|]|].
    + intros p Hp. apply load_store_mono. auto.
    + intros l' b [Heq|[b' Hb']]%store_true_dom; [|exact (Hb l' b' Hb')]. cbn.
      assert (l' = l) by congruence. lia.
  - intros v' [= <-]. right. cbn. rewrite Hl. apply load_store_same.
Qed.

Lemma extends_inv c c1 : cache_inv c -> extends c c1 -> cache_inv c1.
Proof.
  intros Hc (He & [Hn _] & Hb). constructor; [rewrite He; apply (inv_size c Hc)| |done].
  intros k v. rewrite He. intros Hv. destruct (inv_entry c Hc k v Hv) as (? & ? & ? & ? & l & ? & ?).
  do 4 (split; [done|]). exists l. split; [done|lia].
Qed.

Lemma put_insert_ok k copy c c1 victim cur :
  cache_inv c -> cur = entries c !! k -> extends c c1 ->
  domain copy = k.1 -> k.1 <> EmptyString -> 0 < dnsTTL copy -> expiry copy <> 0 ->
  (exists l, cacheInvalidated copy = Some l /\ (l < next_flag c1)%nat) ->
  (forall v, cur = Some v -> acquiredAt copy = 0 \/ acquiredAt v <= acquiredAt copy) ->
  (forall v, cur = Some v -> cacheInvalidated v = cacheInvalidated copy \/
     load (cacheInvalidated v) (flags c1) = true) ->
  (entries c <> ∅ -> is_Some (entries c !! victim)) ->
  step_ok c (put_insert k copy (put_make_room cur victim c1)).
Proof.
  intros Hc Hcur Hext Hd Hd0 Httl Hexp Hflag Hnew Hfen Hvic.
  pose proof (extends_inv c c1 Hc Hext) as Hc1. destruct Hext as (He & Hgrow & _).
  unfold put_make_room. rewrite He.
  set (room := bool_decide (cur = None) && (max_entries <=? size (entries c))%nat).
  set (c2 := if room then remove_entry victim c1 else c1).
  assert (H2 : step_ok c1 c2).
  { unfold c2. destruct room; [by apply remove_entry_ok|by apply step_ok_refl]. }
  assert (Hn2 : next_flag c2 = next_flag c1).
  { unfold c2. destruct room; [apply remove_entry_next|done]. }
  destruct H2 as (Hc2 & [Hg2 Hm2] & Hnew2 & Hfen2). destruct Hgrow as [Hg Hm].
  assert (Hk2 : forall v, cur = Some v -> entries c2 = entries c).
  { intros v ->. unfold c2, room. by rewrite bool_decide_false. }
  assert (Hsize : (size (<[k:=copy]> (entries c2)) <= max_entries)%nat).
  { pose proof (inv_size c Hc) as Hs. rewrite map_size_insert. unfold id.
    destruct (entries c2 !! k) as [v2|] eqn:Hv2; [apply (inv_size c2 Hc2)|].
    destruct cur as [v|]; [rewrite (Hk2 v eq_refl) in Hv2; congruence|].
    unfold c2, room. rewrite bool_decide_true by done. cbn [andb].
    destruct (Nat.leb_spec max_entries (size (entries c))); [|rewrite He; lia].
    rewrite remove_entry_entries, map_size_delete. rewrite He. unfold id.
    destruct Hvic as [v Hv]; [|rewrite Hv; unfold max_entries in *; lia].
    intros Hemp. rewrite Hemp, map_size_empty in *. unfold max_entries in *. lia. }
  split; [|split; [|split]].
  - constructor; [exact Hsize| |exact (inv_flags c2 Hc2)].
    intros k' v. cbn. rewrite lookup_insert. case_decide as Hkk; [|apply (inv_entry c2 Hc2)].
    intros [= <-]. subst k'. do 4 (split; [done|]). destruct Hflag as (l & Hl & Hlt).
    exists l. split; [done|]. cbn. lia.
  - split; [cbn; lia|]. intros p Hp. cbn. auto.
  - intros k' v v' Hv. cbn. rewrite lookup_insert. case_decide as Hkk.
    + intros [= <-]. subst k'. apply Hnew. congruence.
    + intros Hv'. apply (Hnew2 k'); [by rewrite He|done].
  - intros k' v Hv. unfold fenced. cbn. rewrite lookup_insert. case_decide as Hkk.
    + subst k'. rewrite Hv in Hcur. destruct (Hfen v Hcur) as [Hf|Hf]; [|right; auto].
      left. exists copy. by split.
    + apply Hfen2. by rewrite He.
Qed.

Lemma put_ok now victim vd context c :
  cache_inv c -> (forall l, cacheInvalidated vd = Some l -> (l < next_flag c)%nat) ->
  (entries c <> ∅ -> is_Some (entries c !! victim)) ->
  step_ok c (put now victim vd context c).
Proof.
  intros Hc Hl Hvic. rewrite put_eq. set (copy := cloneVerifiedDomain vd).
  set (k := (domain copy, context)).
  destruct (_ || _ || _) eqn:Hguard; [by apply step_ok_refl|].
  apply orb_false_iff in Hguard as [[Hdom _]%orb_false_iff Hold]. apply is_empty_false in Hdom.
  destruct (_ || _ || _) eqn:Hstale.
  { destruct (_ && _); [by apply remove_entry_ok|by apply step_ok_refl]. }
  apply orb_false_iff in Hstale as [[Hexp _]%orb_false_iff Httl].
  unfold time_is_zero in Hexp. apply Z.eqb_neq in Hexp. apply Z.leb_gt in Httl.
  destruct (put_alloc copy c) as [copy' c1] eqn:Halloc.
  destruct (put_alloc_spec copy c copy' c1 Hc Hl Halloc) as (Hext & Hflag & Hd & Ht & He & Ha & _).
  destruct (put_fence_spec k copy' c c1 _ Hc Hext eq_refl) as (Hext2 & Hn2 & Hfen).
  apply put_insert_ok; try done; try congruence.
  - rewrite Hn2. exact Hflag.
  - intros v Hv. rewrite Hv in Hold. rewrite Ha. unfold time_is_zero, before in Hold.
    apply andb_false_iff in Hold as [Hz|Hz].
    + left. apply negb_false_iff, Z.eqb_eq in Hz. exact Hz.
    + right. by apply Z.ltb_ge in Hz.
Qed.

Lemma get_write_ok now k c c' r : cache_inv c -> get_write now k c = (c', r) -> step_ok c c'.
Proof.
  intros Hc. unfold get_write. destruct (entries c !! k); [destruct (_ || _)|];
    intros [= <- <-]; auto using step_ok_refl, remove_entry_ok.
Qed.

Lemma cache_step_ok c c' : cache_inv c -> cache_step c c' -> step_ok c c'.
Proof.
  intros Hc Hs. revert Hc. destruct Hs as [now k c0 c1 r H|now victim vd context c0 Hv Hl|k c0]; intros Hc.
  - by eapply get_write_ok.
  - by apply put_ok.
  - by apply remove_entry_ok.
Qed.

Lemma new_cache_inv : cache_inv NewIdentityCache.
Proof.
  constructor; cbn; [rewrite map_size_empty; unfold max_entries; lia|..]; intros ? ?;
    by rewrite lookup_empty.
Qed.

Lemma run_inv c c' : cache_inv c -> rtc cache_step c c' -> cache_inv c' /\ flags_grow c c'.
Proof.
  intros Hc Hrun. revert Hc. induction Hrun as [c|c1 c2 c3 H12 _ IH]; intros Hc;
    [split; [done|by split]|].
  destruct (cache_step_ok _ _ Hc H12) as (Hc2 & [Hn1 Hm1] & _).
  destruct (IH Hc2) as (Hc3 & Hn2 & Hm2). split; [done|]. split; [lia|auto].
Qed.

Lemma run_fenced c c' k v :
  cache_inv c -> rtc cache_step c c' -> entries c !! k = Some v -> fenced c c' k v.
Proof.
  intros Hc Hrun. revert v Hc. induction Hrun as [c|c1 c2 c3 H12 Hrest IH]; intros v Hc Hv.
  { left. by exists v. }
  destruct (cache_step_ok _ _ Hc H12) as (Hc2 & _ & _ & Hfen).
  destruct (Hfen k v Hv) as [(v2 & Hv2 & Hf)|Hl].
  - destruct (IH v2 Hc2 Hv2) as [(v3 & Hv3 & Hf3)|Hl3]; [left|right].
    + exists v3. split; [done|congruence].
    + by rewrite <- Hf.
  - right. by apply (run_inv c2 c3 Hc2 Hrest).
Qed.
End invariants.

(** ** Properties *)
Section properties.
Context {key : Type} `{!KeyOps key} `{!JwkLib key} `{!JwkSetLib key} `{!CloneLib key}
  {reader : Type}.
Implicit Types (c : @IdentityCache key reader) (v vd : VerifiedDomain key reader).

(** In every reachable cache there are at most 1024 entries, each under
    its own normalized domain, with a positive DNS TTL, an absolute expiry and
    an allocated invalidation flag; and no step replaces an entry by one
    acquired earlier (unless the new acquisition time is unknown). *)
Theorem cache_invariant c c' :
  rtc cache_step NewIdentityCache c -> cache_step c c' ->
  (size (entries c) <= 1024)%nat /\
  (forall k v, entries c !! k = Some v ->
     domain v = k.1 /\ k.1 <> EmptyString /\ 0 < dnsTTL v /\ expiry v <> 0 /\
     exists l, cacheInvalidated v = Some l /\ (l < next_flag c)%nat) /\
  (forall k v v', entries c !! k = Some v -> entries c' !! k = Some v' ->
     acquiredAt v' = 0 \/ acquiredAt v <= acquiredAt v').
Proof.
  intros Hrun Hstep. destruct (run_inv _ _ new_cache_inv Hrun) as [Hc _].
  destruct (cache_step_ok _ _ Hc Hstep) as (_ & _ & Hnew & _).
  split; [exact (inv_size c Hc)|]. split; [exact (inv_entry c Hc)|exact Hnew].
Qed.

(** A removed entry never comes back. If an entry that was stored at some
    point has left its place (evicted, expired, pushed out or replaced by
    another verification), then ever after every snapshot of it is
    invalidated, and putting one back changes nothing. *)
Theorem removed_entry_stays_out c1 c2 c3 k v :
  rtc cache_step NewIdentityCache c1 -> entries c1 !! k = Some v ->
  rtc cache_step c1 c2 ->
  (forall v', entries c2 !! k = Some v' -> cacheInvalidated v' <> cacheInvalidated v) ->
  rtc cache_step c2 c3 ->
  load (cacheInvalidated v) (flags c3) = true /\
  forall now victim vd context, cacheInvalidated vd = cacheInvalidated v ->
    put now victim vd context c3 = c3.
Proof.
  intros H01 Hv H12 Hgone H23. destruct (run_inv _ _ new_cache_inv H01) as [Hc1 _].
  destruct (run_fenced _ _ _ _ Hc1 H12 Hv) as [(v' & Hv' & Hf)|Hl]; [by destruct (Hgone v' Hv')|].
  destruct (run_inv _ _ Hc1 H12) as [Hc2 _]. destruct (run_inv _ _ Hc2 H23) as [_ [_ Hm]].
  assert (Hl3 : load (cacheInvalidated v) (flags c3) = true) by auto. split; [done|].
  intros now victim vd context Hvd. rewrite put_eq.
  change (cacheInvalidated (cloneVerifiedDomain vd)) with (cacheInvalidated vd).
  by rewrite Hvd, Hl3, orb_true_r.
Qed.

(** What [get] returns. A hit is the entry stored under exactly this
    domain and namespace, labelled [cached], and unexpired at one of the two
    clock readings, whatever ran between the two locks; a miss after the
    write lock leaves no expired entry behind. After a [put] of a valid
    result that is not invalidated and not older than the current one, [get]
    in the same namespace returns its copy at every time before the expiry,
    and other keys keep their entries unless the cache was full. *)
Theorem get_after_put c0 c :
  rtc cache_step NewIdentityCache c0 -> rtc cache_step c0 c ->
  (forall now0 now k c' r, get now0 now k c0 c = (c', r) ->
     match r with
     | Some v' => c' = c /\ exists v, v' = with_state "cached" v /\ domain v = k.1 /\
         (entries c0 !! k = Some v /\ now0 < expiry v \/ entries c !! k = Some v /\ now < expiry v)
     | None => entries c0 !! k = None \/ entries c' !! k = None
     end) /\
  (forall now victim vd context now' k,
     k = (domain vd, context) -> domain vd <> EmptyString ->
     load (cacheInvalidated vd) (flags c) = false ->
     (forall cur, entries c !! k = Some cur -> acquiredAt vd = 0 \/ acquiredAt cur <= acquiredAt vd) ->
     expiry vd <> 0 -> now < expiry vd -> 0 < dnsTTL vd -> now' < expiry vd ->
     let c' := put now victim vd context c in
     (exists l, snd (get now' now' k c' c') =
        Some (with_state "cached" (with_flag l (cloneVerifiedDomain vd)))) /\
     forall k', k' <> k -> entries c' !! k' = entries c !! k' \/
       (k' = victim /\ size (entries c) = 1024%nat)).
Proof.
  intros H0 H1. destruct (run_inv _ _ new_cache_inv H0) as [Hc0 _].
  destruct (run_inv _ _ Hc0 H1) as [Hc _]. split.
  - intros now0 now k c' r. unfold get, get_read, get_write.
    destruct (entries c0 !! k) as [v0|] eqn:E0; [|intros [= <- <-]; auto].
    destruct (expired v0 now0) eqn:Ex.
    + destruct (entries c !! k) as [v|] eqn:E1.
      * destruct (inv_entry c Hc k v E1) as (Hd & _ & _ & Hexp & _).
        unfold time_is_zero, before. replace (expiry v =? 0) with false by lia. cbn [orb].
        destruct (Z.ltb_spec now (expiry v)); intros [= <- <-].
        -- split; [done|]. exists v. auto.
        -- right. rewrite remove_entry_entries. apply lookup_delete_eq.
      * intros [= <- <-]. right. rewrite remove_entry_entries. apply lookup_delete_eq.
    + intros [= <- <-]. split; [done|]. destruct (inv_entry c0 Hc0 k v0 E0) as (Hd & _ & _ & Hexp & _).
      exists v0. split; [done|]. split; [done|]. left. split; [done|].
      unfold expired, time_is_zero, before in Ex. lia.
  - intros now victim vd context now' k -> Hd Hl Hold Hexp Hnow Httl Hnow' c'.
    unfold c'. rewrite put_eq. set (copy := cloneVerifiedDomain vd).
    change (cacheInvalidated copy) with (cacheInvalidated vd).
    change (domain copy) with (domain vd). change (acquiredAt copy) with (acquiredAt vd).
    change (expiry copy) with (expiry vd). change (dnsTTL copy) with (dnsTTL vd).
    rewrite (proj2 (is_empty_false _) Hd), Hl. cbn [orb].
    assert (Hcur : match entries c !! (domain vd, context) with
              | Some cur => negb (time_is_zero (acquiredAt vd)) && before (acquiredAt vd) (acquiredAt cur)
              | None => false end = false).
    { destruct (entries c !! _) as [cur|]; [|done]. specialize (Hold cur eq_refl).
      unfold time_is_zero, before. lia. }
    assert (Hfresh : time_is_zero (expiry vd) || negb (before now (expiry vd)) || (dnsTTL vd <=? 0) = false)
      by (unfold time_is_zero, before; lia).
    rewrite Hcur, Hfresh.
    destruct (put_alloc copy c) as [copy' c1] eqn:Halloc.
    assert (Hcopy : exists l, copy' = with_flag l copy /\ entries c1 = entries c).
    { unfold put_alloc in Halloc. destruct (cacheInvalidated copy) as [l|] eqn:Hf;
        injection Halloc as <- <-; [exists (Some l)|eexists]; split; try done.
      unfold with_flag. rewrite <- Hf. by destruct copy. }
    destruct Hcopy as (l & -> & He1). split.
    + exists l. unfold get, get_read. cbn [put_insert entries]. rewrite lookup_insert_eq.
      unfold expired, time_is_zero, before. change (expiry (with_flag l copy)) with (expiry vd).
      replace (now' <? expiry vd) with true by lia. by rewrite andb_false_r.
    + intros k' Hne. cbn [put_insert entries]. rewrite lookup_insert_ne by done.
      assert (He2 : forall cur, entries (put_fence cur (with_flag l copy) c1) = entries c).
      { intros cur. unfold put_fence. destruct cur; [|done]. by case_bool_decide. }
      unfold put_make_room. rewrite He2. destruct (bool_decide _ && _) eqn:Hroom; [|rewrite He2; auto].
      apply andb_true_iff in Hroom as [_ Hroom]. apply Nat.leb_le in Hroom.
      pose proof (inv_size c Hc) as Hs. rewrite remove_entry_entries, He2, lookup_delete.
      case_decide as Hv; [right|auto]. split; [done|]. unfold max_entries in *. lia.
Qed.
End properties.

#[export] Instance demo_clone_lib : CloneLib demo_jwk := {
  x509_ParseCertificate _ := None;
  Marshal_set _ := None
}.
Definition demo_key : identityCacheKey := ("agent.example.com"%string, None).
Definition demo_cache0 : @IdentityCache demo_jwk unit := NewIdentityCache.
Definition demo_cache : @IdentityCache demo_jwk unit :=
  put 100 demo_key (demo_vd None) None demo_cache0.
Definition demo_stored : VerifiedDomain demo_jwk unit :=
  with_flag (Some 0%nat) (demo_vd None).

Lemma demo_put_step : rtc cache_step demo_cache0 demo_cache.
Proof. apply rtc_once, step_put; [intros H; destruct H; reflexivity|intros l Hl; discriminate Hl]. Qed.

Lemma cache_invariant_witness : (size (entries demo_cache) <= 1024)%nat.
Proof.
  apply (cache_invariant demo_cache (evict demo_key demo_cache) demo_put_step (step_evict _ _)).
Defined.

(** A worker holding the stored snapshot puts it back after an eviction. *)
Lemma removed_entry_stays_out_witness :
  put 200 demo_key demo_stored None (evict demo_key demo_cache) = evict demo_key demo_cache.
Proof.
  apply (removed_entry_stays_out demo_cache (evict demo_key demo_cache) (evict demo_key demo_cache)
           demo_key demo_stored).
  - exact demo_put_step.
  - vm_compute. reflexivity.
  - apply rtc_once, step_evict.
  - intros v' Hv'. vm_compute in Hv'. discriminate Hv'.
  - apply rtc_refl.
  - reflexivity.
Defined.

Lemma get_after_put_witness :
  exists l, snd (get 500 500 demo_key demo_cache demo_cache) =
    Some (with_state "cached" (with_flag l (cloneVerifiedDomain (demo_vd None)))).
Proof.
  destruct (get_after_put demo_cache0 demo_cache0 (rtc_refl _ _) (rtc_refl _ _)) as [_ H].
  destruct (H 100 demo_key (demo_vd None) None 500 demo_key) as [Hget _].
  - reflexivity.
  - discriminate.
  - reflexivity.
  - intros cur Hcur. vm_compute in Hcur. discriminate Hcur.
  - discriminate.
  - reflexivity.
  - reflexivity.
  - reflexivity.
  - exact Hget.
Defined.
