(* ===== verification/Coalesce.v ===== *)
(** * Coalesce: shared verifications and what reaches the cache

    identity_manager.go: [coalesceVerification] lets the callers for one domain
    share one verification in flight, [invalidateNonActiveDomain] and
    [EvictDomain] drop a domain from the cache together with the work in
    flight. [inFlightMu] makes each of these one step of [Manager]; what a
    worker does before it takes the lock is a step of its own. Calls are named
    by their place in [calls], as the code names them by pointer; the worker's
    function [work] is whatever result its step brings. *)

From Stdlib Require Import ZArith Lia Ascii String.
From S2P Require Import Prelude Codec Evidence Json Keys KeyRing KeyRingSpec Jwks Domain Cache.

Open Scope Z_scope.

Inductive verificationWork := identityLookup | statusRefresh | identityRefresh.
#[export] Instance verificationWork_eq_dec : EqDecision verificationWork.
Proof. solve_decision. Defined.
#[export] Instance verificationWork_countable : Countable verificationWork.
Proof.
  refine (inj_countable' (fun k => match k with identityLookup => 0 | statusRefresh => 1 | identityRefresh => 2 end)
    (fun n => if n =? 0 then identityLookup else if n =? 1 then statusRefresh else identityRefresh) _).
  by intros [].
Defined.

Section coalesce.
Context {key : Type} `{!KeyOps key} `{!JwkLib key} `{!JwkSetLib key} `{!CloneLib key}
  {reader : Type}.
Abbreviation VD := (VerifiedDomain key reader).

Record inFlightVerification := {
  call_domain : string;
  call_kind : verificationWork;
  startedAt : time;
  acquisitionFloor : time;
  superseded : bool;
  invalidated : option error;
  cancelled : bool;                  (* [call.cancel()] by the last waiter *)
  waiters : Z;
  checked : option (res VD);         (* what [work] returned, after [sharedCtx.Err()] *)
  done : option (res VD)             (* [call.result, call.err] once [done] is closed *)
}.

Record Manager := {
  cache : IdentityCache (key:=key) (reader:=reader);
  verifying : gmap (string * verificationWork) nat;
  calls : list inFlightVerification
}.

Definition call_key (c : inFlightVerification) : string * verificationWork := (call_domain c, call_kind c).
Definition with_waiters (n : Z) (c : inFlightVerification) : inFlightVerification :=
  {| call_domain := call_domain c; call_kind := call_kind c; startedAt := startedAt c; acquisitionFloor := acquisitionFloor c;
     superseded := superseded c; invalidated := invalidated c; cancelled := cancelled c; waiters := n;
     checked := checked c; done := done c |}.
Definition with_floor (t : time) (c : inFlightVerification) : inFlightVerification :=
  {| call_domain := call_domain c; call_kind := call_kind c; startedAt := startedAt c; acquisitionFloor := t;
     superseded := superseded c; invalidated := invalidated c; cancelled := cancelled c; waiters := waiters c;
     checked := checked c; done := done c |}.
Definition with_superseded (e : option error) (c : inFlightVerification) : inFlightVerification :=
  {| call_domain := call_domain c; call_kind := call_kind c; startedAt := startedAt c; acquisitionFloor := acquisitionFloor c;
     superseded := true; invalidated := match e with Some _ => e | None => invalidated c end; cancelled := cancelled c;
     waiters := waiters c; checked := checked c; done := done c |}.
Definition with_cancelled (c : inFlightVerification) : inFlightVerification :=
  {| call_domain := call_domain c; call_kind := call_kind c; startedAt := startedAt c; acquisitionFloor := acquisitionFloor c;
     superseded := superseded c; invalidated := invalidated c; cancelled := true; waiters := waiters c;
     checked := checked c; done := done c |}.
Definition with_checked (r : res VD) (c : inFlightVerification) : inFlightVerification :=
  {| call_domain := call_domain c; call_kind := call_kind c; startedAt := startedAt c; acquisitionFloor := acquisitionFloor c;
     superseded := superseded c; invalidated := invalidated c; cancelled := cancelled c; waiters := waiters c;
     checked := Some r; done := done c |}.
Definition with_done (r : res VD) (c : inFlightVerification) : inFlightVerification :=
  {| call_domain := call_domain c; call_kind := call_kind c; startedAt := startedAt c; acquisitionFloor := acquisitionFloor c;
     superseded := superseded c; invalidated := invalidated c; cancelled := cancelled c; waiters := waiters c;
     checked := checked c; done := Some r |}.

Definition new_call (domain : string) (kind : verificationWork) (now : time) : inFlightVerification :=
  {| call_domain := domain; call_kind := kind; startedAt := now; acquisitionFloor := 0; superseded := false;
     invalidated := None; cancelled := false; waiters := 0; checked := None; done := None |}.

(** The head of [coalesceVerification]: find or start the call and join it. *)
Definition join (now : time) (domain : string) (kind : verificationWork) (m : Manager) : Manager * nat :=
  let '(m, id) := match verifying m !! (domain, kind) with
    | Some id => (m, id)
    | None => let id := List.length (calls m) in
              ({| cache := cache m; verifying := <[(domain, kind) := id]> (verifying m);
                  calls := calls m ++ [new_call domain kind now] |}, id)
    end in
  ({| cache := cache m; verifying := verifying m; calls := alter (fun c => with_waiters (waiters c + 1) c) id (calls m) |}, id).

(** The worker after [work]: [late] is the deadline of the shared context. *)
Definition check_context (id : nat) (late : bool) (r : res VD) (m : Manager) : Manager :=
  {| cache := cache m; verifying := verifying m;
     calls := alter (fun c => with_checked (match r with Ok _ => if cancelled c || late then Err ContextError else r | Err _ => r end) c)
                id (calls m) |}.

(** Change the calls of a domain that the map still holds. *)
Definition update_active (d : string) (f : inFlightVerification -> inFlightVerification) (m : Manager) : list inFlightVerification :=
  imap (fun i c => if bool_decide (verifying m !! call_key c = Some i) && str_eqb (call_domain c) d then f c else c) (calls m).

Definition with_calls (m : Manager) (cs : list inFlightVerification) : Manager :=
  {| cache := cache m; verifying := verifying m; calls := cs |}.

(** [if calls[key] == call { delete(calls, key) }]. *)
Definition forget (id : nat) (c : inFlightVerification) (v : gmap (string * verificationWork) nat) :=
  if bool_decide (v !! call_key c = Some id) then delete (call_key c) v else v.

(** The publication of a result under the lock. *)
Definition publish (manager : nat) (now : time) (victim : identityCacheKey) (call : inFlightVerification) (result : VD)
    (m : Manager) : Manager :=
  let d := call_domain call in
  let m := with_calls m (update_active d (fun o => if after (acquiredAt result) (acquisitionFloor o)
             then with_floor (acquiredAt result) o else o) m) in
  let m := if bool_decide (call_kind call = statusRefresh) then m
           else with_calls m (update_active d (fun o => if before (startedAt o) (startedAt call)
             then with_superseded None o else o) m) in
  {| cache := put now victim result (Some manager) (cache m); verifying := verifying m; calls := calls m |}.

(** The worker's critical section. *)
Definition commit (manager : nat) (now : time) (victim : identityCacheKey) (id : nat) (m : Manager) : Manager :=
  match calls m !! id with
  | Some call =>
      match checked call, done call with
      | Some r, None =>
          let r := match r, invalidated call with Ok _, Some e => Err e | _, _ => r end in
          let m := match r with
            | Ok result => if negb (superseded call) && negb (before (acquiredAt result) (acquisitionFloor call))
                           then publish manager now victim call result m else m
            | Err _ => m
            end in
          {| cache := cache m; verifying := forget id call (verifying m); calls := alter (with_done r) id (calls m) |}
      | _, _ => m
      end
  | None => m
  end.

(** A waiter whose context is done. *)
Definition leave (id : nat) (m : Manager) : Manager :=
  match calls m !! id with
  | Some call =>
      let n := waiters call - 1 in
      if n =? 0
      then {| cache := cache m; verifying := forget id call (verifying m);
              calls := alter (fun c => with_cancelled (with_waiters n c)) id (calls m) |}
      else with_calls m (alter (with_waiters n) id (calls m))
  | None => m
  end.

(** [delete(m.verifying, key)] for the keys of a domain. *)
Definition drop_domain (d : string) (v : gmap (string * verificationWork) nat) :=
  filter (fun '(k, _) => k.1 <> d) v.

Definition drop_with (manager : nat) (d : string) (e : option error) (m : Manager) : Manager :=
  {| cache := evict (d, Some manager) (cache m); verifying := drop_domain d (verifying m);
     calls := update_active d (with_superseded e) m |}.

Definition VerificationCodeStatusNotActive : string := "status_not_active".
Definition invalidateNonActiveDomain (manager : nat) (d : string) (err : error) (m : Manager) : Manager :=
  match errors_as as_verification err with
  | Some (code, _) => if str_eqb code VerificationCodeStatusNotActive then drop_with manager d (Some err) m else m
  | None => m
  end.

(** [EvictDomain], for a domain that normalizes to [d]. *)
Definition EvictDomain (manager : nat) (d : string) (m : Manager) : Manager := drop_with manager d None m.

(** What a waiter returns once the call is done. *)
Definition answer (id : nat) (m : Manager) : option (res VD) :=
  call ← calls m !! id; r ← done call;
  Some (match r with Ok vd => Ok (cloneVerifiedDomain vd) | Err e => Err e end).

(** ** Runs *)
Inductive label := Commit (id : nat) | Tau.

Inductive manager_step (manager : nat) : Manager -> label -> Manager -> Prop :=
| step_join now d kind m m' id : join now d kind m = (m', id) -> manager_step manager m Tau m'
| step_check id late r m call :
    calls m !! id = Some call -> checked call = None ->
    (forall vd, r = Ok vd -> domain vd = call_domain call) ->
    manager_step manager m Tau (check_context id late r m)
| step_commit now victim id m : manager_step manager m (Commit id) (commit manager now victim id m)
| step_leave id m call : calls m !! id = Some call -> 0 < waiters call -> manager_step manager m Tau (leave id m)
| step_evict d m : manager_step manager m Tau (EvictDomain manager d m)
| step_invalidate d err m : manager_step manager m Tau (invalidateNonActiveDomain manager d err m)
| step_cache m c' :
    (* an expired entry is removed by a lookup, other managers share the cache *)
    (forall d v, entries c' !! (d, Some manager) = Some v -> entries (cache m) !! (d, Some manager) = Some v) ->
    manager_step manager m Tau {| cache := c'; verifying := verifying m; calls := calls m |}.

Inductive runs (manager : nat) : Manager -> list label -> Manager -> Prop :=
| runs_nil m : runs manager m [] m
| runs_cons m l m1 ls m2 : manager_step manager m l m1 -> runs manager m1 ls m2 -> runs manager m (l :: ls) m2.

Definition idle (c : IdentityCache) : Manager := {| cache := c; verifying := ∅; calls := [] |}.
End coalesce.

(** ** Invariants *)
Section coalesce_spec.
Context {key : Type} `{!KeyOps key} `{!JwkLib key} `{!JwkSetLib key} `{!CloneLib key}
  {reader : Type} (manager : nat).
Abbreviation Mgr := (Manager (key:=key) (reader:=reader)).
Abbreviation Call := (inFlightVerification (key:=key) (reader:=reader)).
Implicit Types (m : Mgr) (c call : Call).

(** What the other critical sections do to a call: the worker's own fields
    stay, nothing is undone. *)
Record touched c c' : Prop := {
  to_domain : call_domain c' = call_domain c;
  to_kind : call_kind c' = call_kind c;
  to_superseded : superseded c = true -> superseded c' = true;
  to_cancelled : cancelled c' = cancelled c;
  to_waiters : waiters c' = waiters c;
  to_checked : checked c' = checked c;
  to_invalidated : invalidated c' = invalidated c;
  to_done : done c' = done c
}.
(** What any step does. *)
Record evolves c c' : Prop := {
  ev_domain : call_domain c' = call_domain c;
  ev_kind : call_kind c' = call_kind c;
  ev_superseded : superseded c = true -> superseded c' = true;
  ev_cancelled : cancelled c = true -> cancelled c' = true;
  ev_checked r : checked c = Some r -> checked c' = Some r;
  ev_invalidated : invalidated c <> None -> invalidated c' <> None;
  ev_done r : done c = Some r -> done c' = Some r
}.
#[local] Instance touched_refl : Reflexive touched.
Proof. by constructor. Qed.
#[local] Instance touched_trans : Transitive touched.
Proof. intros c1 c2 c3 [] []. constructor; naive_solver congruence. Qed.
#[local] Instance evolves_refl : Reflexive evolves.
Proof. by constructor. Qed.
#[local] Instance evolves_trans : Transitive evolves.
Proof. intros c1 c2 c3 [] []. constructor; naive_solver congruence. Qed.
Lemma touched_evolves c c' : touched c c' -> evolves c c'.
Proof. intros []. constructor; naive_solver congruence. Qed.

(** Every call stays where it is, and changes as [R] allows. *)
Definition calls_rel (R : Call -> Call -> Prop) m m' : Prop :=
  forall id c, calls m !! id = Some c -> exists c', calls m' !! id = Some c' /\ R c c'.
#[local] Instance calls_rel_refl R `{!Reflexive R} : Reflexive (calls_rel R).
Proof. intros m id c Hc. by exists c. Qed.
#[local] Instance calls_rel_trans R `{!Transitive R} : Transitive (calls_rel R).
Proof.
  intros m1 m2 m3 H1 H2 id c Hc. destruct (H1 _ _ Hc) as (c2 & Hc2 & E1). destruct (H2 _ _ Hc2) as (c3 & Hc3 & E2).
  exists c3. split; [done|by etrans].
Qed.
Lemma calls_rel_impl (R S : Call -> Call -> Prop) m m' : (forall c c', R c c' -> S c c') -> calls_rel R m m' -> calls_rel S m m'.
Proof. intros H HR id c Hc. destruct (HR _ _ Hc) as (c' & ? & ?). eauto. Qed.

Lemma calls_rel_alter R `{!Reflexive R} m m' f i :
  calls m' = alter f i (calls m) -> (forall c, calls m !! i = Some c -> R c (f c)) -> calls_rel R m m'.
Proof.
  intros E Hf id c Hc. rewrite E. destruct (decide (id = i)) as [->|Hne].
  - rewrite list_lookup_alter_eq, Hc. exists (f c). split; [done|by apply Hf].
  - rewrite list_lookup_alter_ne by done. by exists c.
Qed.

Lemma alter_lookup_Some {A} (f : A -> A) i j (l : list A) x :
  alter f i l !! j = Some x <-> (j = i /\ exists y, l !! i = Some y /\ x = f y) \/ (j <> i /\ l !! j = Some x).
Proof.
  destruct (decide (j = i)) as [->|Hne].
  - rewrite list_lookup_alter_eq, fmap_Some. naive_solver.
  - rewrite list_lookup_alter_ne by done. naive_solver.
Qed.

(** The calls [update_active] reaches. *)
Definition active m d id c : Prop := verifying m !! call_key c = Some id /\ call_domain c = d.

Lemma update_active_lookup m d f id c' :
  update_active d f m !! id = Some c' <->
  exists c, calls m !! id = Some c /\ ((active m d id c /\ c' = f c) \/ (~ active m d id c /\ c' = c)).
Proof.
  unfold update_active, active. rewrite list_lookup_imap. destruct (calls m !! id) as [c|]; cbn; [|naive_solver].
  destruct (bool_decide (verifying m !! call_key c = Some id)) eqn:E1; cbn [andb].
  - apply bool_decide_eq_true in E1. destruct (str_eqb (call_domain c) d) eqn:E2.
    + apply str_eqb_eq in E2. naive_solver.
    + apply str_eqb_neq in E2. naive_solver.
  - apply bool_decide_eq_false in E1. naive_solver.
Qed.

Lemma calls_rel_active R `{!Reflexive R} m m' d f :
  calls m' = update_active d f m -> (forall c, R c (f c)) -> calls_rel R m m'.
Proof.
  intros E Hf id c Hc. destruct (decide (active m d id c)) as [Ha|Ha].
  - exists (f c). split; [|done]. rewrite E. apply update_active_lookup. eauto.
  - exists c. split; [|done]. rewrite E. apply update_active_lookup. eauto.
Qed.

Lemma publish_touched now victim call r m : calls_rel touched m (publish manager now victim call r m).
Proof.
  unfold publish. set (m1 := with_calls m _).
  assert (calls_rel touched m m1) as H1.
  { eapply calls_rel_active; [apply _|reflexivity|]. intros c. cbn. destruct (after _ _); by constructor. }
  destruct (bool_decide _); [exact H1|]. etrans; [exact H1|]. eapply calls_rel_active; [apply _|reflexivity|].
  intros c. cbn. destruct (before _ _); by constructor.
Qed.
Lemma publish_verifying now victim call r m : verifying (publish manager now victim call r m) = verifying m.
Proof. unfold publish. by destruct (bool_decide _). Qed.
Lemma publish_length now victim call r m : List.length (calls (publish manager now victim call r m)) = List.length (calls m).
Proof. unfold publish. destruct (bool_decide _); cbn; unfold update_active; by rewrite !length_imap. Qed.

(** A commit with an effect: the result the call ends with, and the state
    after a possible publication. *)
Definition final (call : Call) (r : res (VerifiedDomain key reader)) : res (VerifiedDomain key reader) :=
  match r, invalidated call with Ok _, Some e => Err e | _, _ => r end.
Definition published now victim call (r : res (VerifiedDomain key reader)) m : Mgr :=
  match r with
  | Ok result => if negb (superseded call) && negb (before (acquiredAt result) (acquisitionFloor call))
                 then publish manager now victim call result m else m
  | Err _ => m
  end.
Lemma commit_cases now victim id m :
  commit manager now victim id m = m \/
  exists call r, calls m !! id = Some call /\ checked call = Some r /\ done call = None /\
    let m1 := published now victim call (final call r) m in
    commit manager now victim id m =
      {| cache := cache m1; verifying := forget id call (verifying m1); calls := alter (with_done (final call r)) id (calls m1) |}.
Proof.
  unfold commit. destruct (calls m !! id) as [call|] eqn:Hc; [|by left].
  destruct (checked call) as [r|] eqn:Hr; [|by left]. destruct (done call) eqn:Hd; [by left|].
  right. by exists call, r.
Qed.
Lemma published_touched now victim call r m : calls_rel touched m (published now victim call r m).
Proof. unfold published. destruct r; [destruct (_ && _); [apply publish_touched|done]|done]. Qed.
Lemma published_verifying now victim call r m : verifying (published now victim call r m) = verifying m.
Proof. unfold published. destruct r; [destruct (_ && _); [apply publish_verifying|done]|done]. Qed.
Lemma published_length now victim call r m : List.length (calls (published now victim call r m)) = List.length (calls m).
Proof. unfold published. destruct r; [destruct (_ && _); [apply publish_length|done]|done]. Qed.

Lemma invalidate_cases d err m :
  invalidateNonActiveDomain manager d err m = m \/
  invalidateNonActiveDomain manager d err m = drop_with manager d (Some err) m.
Proof.
  unfold invalidateNonActiveDomain. destruct (errors_as _ _) as [[code t]|]; [|by left].
  destruct (str_eqb _ _); [by right|by left].
Qed.
Lemma drop_evolves d e m : calls_rel evolves m (drop_with manager d e m).
Proof.
  eapply calls_rel_active; [apply _|reflexivity|]. intros c. constructor; try done. cbn. by destruct e.
Qed.

Lemma step_evolves m l m' : manager_step manager m l m' -> calls_rel evolves m m'.
Proof.
  destruct 1 as [now d kind m m' id H|id late r m call Hc Hn _|now victim id m|id m call Hc _|d m|d err m|m c' _].
  - unfold join in H. destruct (verifying m !! _) as [i|]; injection H as <- <-.
    + eapply calls_rel_alter; [apply _|reflexivity|]. by constructor.
    + intros j c Hj. pose proof (lookup_lt_Some _ _ _ Hj). cbn. rewrite list_lookup_alter_ne by lia.
      rewrite lookup_app_l by done. by exists c.
  - eapply calls_rel_alter; [apply _|reflexivity|]. intros c Hc'. rewrite Hc in Hc'. injection Hc' as <-.
    constructor; try done. intros r'. by rewrite Hn.
  - destruct (commit_cases now victim id m) as [->|(call & r & Hc & Hr & Hd & E)]; [done|]. rewrite E.
    pose proof (published_touched now victim call (final call r) m) as H1. cbn in E.
    etrans; [eapply calls_rel_impl; [apply touched_evolves|exact H1]|]. eapply calls_rel_alter; [apply _|reflexivity|].
    intros c1 Hc1. destruct (H1 _ _ Hc) as (c1' & Hc1' & Et). rewrite Hc1 in Hc1'. injection Hc1' as <-.
    constructor; try done. cbn. intros r0. by rewrite (to_done _ _ Et), Hd.
  - unfold leave. rewrite Hc. destruct (_ =? 0); (eapply calls_rel_alter; [apply _|reflexivity|by constructor]).
  - apply drop_evolves.
  - destruct (invalidate_cases d err m) as [-> | ->]; [done|apply drop_evolves].
  - intros id c Hc. by exists c.
Qed.

(** *** The map holds exactly the calls that still count *)
Record coherent m : Prop := {
  co_map k id : verifying m !! k = Some id -> exists c, calls m !! id = Some c /\ call_key c = k /\
    done c = None /\ cancelled c = false /\ 0 < waiters c;
  co_left id c : calls m !! id = Some c -> done c = None ->
    verifying m !! call_key c = Some id \/ superseded c = true \/ cancelled c = true;
  co_invalid id c : calls m !! id = Some c -> invalidated c <> None ->
    superseded c = true /\ forall r, done c = Some r -> exists e, r = Err e;
  co_domain id c vd : calls m !! id = Some c -> checked c = Some (Ok vd) -> domain vd = call_domain c
}.

Lemma forget_lookup id c v k j :
  forget id c v !! k = Some j <-> v !! k = Some j /\ ~ (k = call_key c /\ j = id).
Proof.
  unfold forget. destruct (bool_decide _) eqn:E.
  - apply bool_decide_eq_true in E. rewrite lookup_delete_Some. split; [naive_solver|].
    intros [H1 H2]. split; [|done]. intros <-. apply H2. split; [done|congruence].
  - apply bool_decide_eq_false in E. split; [|naive_solver]. intros H. split; [done|]. intros [-> ->]. done.
Qed.

Lemma calls_rel_back R m m' id c' :
  calls_rel R m m' -> List.length (calls m') = List.length (calls m) -> calls m' !! id = Some c' ->
  exists c, calls m !! id = Some c /\ R c c'.
Proof.
  intros HR Hl Hc'. pose proof (lookup_lt_Some _ _ _ Hc') as Hlt. rewrite Hl in Hlt.
  apply lookup_lt_is_Some in Hlt as [c Hc]. destruct (HR _ _ Hc) as (c2 & Hc2 & E). exists c. split; [done|congruence].
Qed.

Lemma coherent_touched m m' :
  coherent m -> calls_rel touched m m' -> List.length (calls m') = List.length (calls m) -> verifying m' = verifying m -> coherent m'.
Proof.
  intros [Ha Hb Hc Ho] HR Hl Hv. assert (forall c c', touched c c' -> call_key c' = call_key c) as Hk.
  { intros c c' []. unfold call_key. congruence. }
  constructor.
  - intros k id H. rewrite Hv in H. destruct (Ha _ _ H) as (c & Hc1 & <- & Hd & Hx & Hw).
    destruct (HR _ _ Hc1) as (c' & Hc' & E). exists c'. rewrite (Hk _ _ E). destruct E. split_and!; try done; congruence.
  - intros id c' Hc' Hd. destruct (calls_rel_back _ _ _ _ _ HR Hl Hc') as (c & Hc1 & E). rewrite Hv, (Hk _ _ E).
    destruct E. rewrite to_done0 in Hd. destruct (Hb _ _ Hc1 Hd) as [?|[?|?]]; [by left|right; left; auto|right; right; congruence].
  - intros id c' Hc' Hi. destruct (calls_rel_back _ _ _ _ _ HR Hl Hc') as (c & Hc1 & []). rewrite to_invalidated0 in Hi.
    destruct (Hc _ _ Hc1 Hi) as [H1 H2]. rewrite to_done0. auto.
  - intros id c' vd Hc' Hck. destruct (calls_rel_back _ _ _ _ _ HR Hl Hc') as (c & Hc1 & E).
    rewrite (to_checked _ _ E) in Hck. rewrite (to_domain _ _ E). by eapply Ho.
Qed.

Lemma join_coherent now d kind m m' id : coherent m -> join now d kind m = (m', id) -> coherent m'.
Proof.
  intros [Ha Hb Hc Ho]. unfold join.
  assert (forall m0 j, coherent m0 -> coherent {| cache := cache m0; verifying := verifying m0;
    calls := alter (fun c : Call => with_waiters (waiters c + 1) c) j (calls m0) |}) as Hw.
  { intros m0 j [Ha0 Hb0 Hc0 Ho0]. constructor; cbn.
    - intros k i H. destruct (Ha0 _ _ H) as (c & H1 & H2 & H3 & H4 & H5). destruct (decide (i = j)) as [->|Hne].
      + exists (with_waiters (waiters c + 1) c). rewrite list_lookup_alter_eq, H1. cbn. split_and!; try done. lia.
      + exists c. by rewrite list_lookup_alter_ne.
    - intros i c H. apply alter_lookup_Some in H as [(-> & c0 & H & ->)|[_ H]]; [exact (Hb0 _ _ H)|by apply Hb0].
    - intros i c H. apply alter_lookup_Some in H as [(-> & c0 & H & ->)|[_ H]]; [exact (Hc0 _ _ H)|by apply (Hc0 i)].
    - intros i c vd H. apply alter_lookup_Some in H as [(-> & c0 & H & ->)|[_ H]]; [exact (Ho0 _ _ _ H)|by apply (Ho0 i)]. }
  destruct (verifying m !! (d, kind)) as [i|] eqn:Ev; intros [= <- <-]; [by apply Hw; constructor|].
  constructor; cbn.
  - intros k i. intros [[<- <-]|[Hne H]]%lookup_insert_Some.
    + exists (with_waiters (0 + 1) (new_call d kind now)). rewrite list_lookup_alter_eq, lookup_app_r, Nat.sub_diag by done. done.
    + destruct (Ha _ _ H) as (c & H1 & H2 & H3). exists c. pose proof (lookup_lt_Some _ _ _ H1).
      rewrite list_lookup_alter_ne by lia. by rewrite lookup_app_l by done.
  - intros i c H Hd. apply alter_lookup_Some in H as [(-> & c0 & H & ->)|[Hne H]].
    + rewrite lookup_app_r, Nat.sub_diag in H by done. injection H as <-. left. cbn. by rewrite lookup_insert_eq.
    + apply lookup_app_Some in H as [H|[Hle H]]; [|by apply lookup_lt_Some in H as Hlt; cbn in Hlt; lia].
      destruct (Hb _ _ H Hd) as [H1|H1]; [|by right]. left. rewrite lookup_insert_ne; [done|]. intros E. congruence.
  - intros i c H Hi. apply alter_lookup_Some in H as [(-> & c0 & H & ->)|[Hne H]].
    + rewrite lookup_app_r, Nat.sub_diag in H by done. by injection H as <-.
    + apply lookup_app_Some in H as [H|[Hle H]]; [by apply (Hc i)|]. by apply lookup_lt_Some in H as Hlt; cbn in Hlt; lia.
  - intros i c vd H Hi. apply alter_lookup_Some in H as [(-> & c0 & H & ->)|[Hne H]].
    + rewrite lookup_app_r, Nat.sub_diag in H by done. by injection H as <-.
    + apply lookup_app_Some in H as [H|[Hle H]]; [by apply (Ho i)|]. by apply lookup_lt_Some in H as Hlt; cbn in Hlt; lia.
Qed.

Lemma check_coherent id late r m call :
  coherent m -> calls m !! id = Some call -> checked call = None -> (forall vd, r = Ok vd -> domain vd = call_domain call) ->
  coherent (check_context id late r m).
Proof.
  intros [Ha Hb Hc Ho] H Hn Hr. constructor; cbn.
  - intros k i Hk. destruct (Ha _ _ Hk) as (c & H1 & H2 & H3). destruct (decide (i = id)) as [->|Hne].
    + rewrite list_lookup_alter_eq, H1. cbn. eexists. split; [done|]. by destruct H3 as (? & ? & ?).
    + exists c. by rewrite list_lookup_alter_ne.
  - intros i c Hi. apply alter_lookup_Some in Hi as [(-> & c0 & Hi & ->)|[_ Hi]]; [exact (Hb _ _ Hi)|by apply Hb].
  - intros i c Hi. apply alter_lookup_Some in Hi as [(-> & c0 & Hi & ->)|[_ Hi]]; [exact (Hc _ _ Hi)|by apply (Hc i)].
  - intros i c vd Hi. apply alter_lookup_Some in Hi as [(-> & c0 & Hi & ->)|[_ Hi]]; [|by apply (Ho i)].
    rewrite H in Hi. injection Hi as <-. cbn. intros [= Hk]. destruct r as [x|]; [|done]. destruct (_ || _); [done|].
    injection Hk as ->. by apply Hr.
Qed.

Lemma commit_coherent now victim id m : coherent m -> coherent (commit manager now victim id m).
Proof.
  intros Hco. destruct (commit_cases now victim id m) as [->|(call & r & Hc & Hr & Hd & ->)]; [done|].
  pose proof (published_touched now victim call (final call r) m) as Ht.
  pose proof (published_verifying now victim call (final call r) m) as Hv.
  pose proof (published_length now victim call (final call r) m) as Hl.
  set (m1 := published now victim call (final call r) m) in *. cbn.
  assert (coherent m1) as [Ha Hb Hi Ho] by (by apply (coherent_touched m)).
  destruct (Ht _ _ Hc) as (call1 & Hc1 & E). assert (call_key call1 = call_key call) as Ek by (destruct E; unfold call_key; congruence).
  constructor; cbn.
  - intros k j [H Hne]%forget_lookup. destruct (Ha _ _ H) as (c & H1 & H2 & H3). exists c.
    rewrite list_lookup_alter_ne; [done|]. intros <-. apply Hne. rewrite Hc1 in H1. injection H1 as <-. by rewrite <- Ek.
  - intros j c H Hn. apply alter_lookup_Some in H as [(-> & c0 & H & ->)|[Hne H]]; [done|].
    destruct (Hb _ _ H Hn) as [H1|H1]; [left|by right]. apply forget_lookup. split; [done|]. by intros [_ ->].
  - intros j c H Hn. apply alter_lookup_Some in H as [(-> & c0 & H & ->)|[Hne H]]; [|by apply (Hi j)].
    rewrite Hc1 in H. injection H as <-. cbn in *. destruct (Hi _ _ Hc1 Hn) as [H1 _]. split; [done|]. intros r0 [= <-].
    unfold final. rewrite <- (to_invalidated _ _ E). destruct (invalidated call1) as [e|]; [|done]. destruct r; eauto.
  - intros j c vd H. apply alter_lookup_Some in H as [(-> & c0 & H & ->)|[_ H]]; [exact (Ho _ _ _ H)|by apply (Ho j)].
Qed.

Lemma leave_coherent id m call : coherent m -> calls m !! id = Some call -> 0 < waiters call -> coherent (leave id m).
Proof.
  intros [Ha Hb Hc Ho] H Hw. unfold leave. rewrite H. destruct (Z.eqb_spec (waiters call - 1) 0) as [E|E]; constructor; cbn.
  - intros k j [Hk Hne]%forget_lookup. destruct (Ha _ _ Hk) as (c & H1 & H2 & H3). exists c.
    rewrite list_lookup_alter_ne; [done|]. intros <-. apply Hne. rewrite H in H1. by injection H1 as <-.
  - intros j c Hj Hd. apply alter_lookup_Some in Hj as [(-> & c0 & Hj & ->)|[Hne Hj]]; [by right; right|].
    destruct (Hb _ _ Hj Hd) as [H1|H1]; [left|by right]. apply forget_lookup. split; [done|]. by intros [_ ->].
  - intros j c Hj. apply alter_lookup_Some in Hj as [(-> & c0 & Hj & ->)|[_ Hj]]; [exact (Hc _ _ Hj)|by apply (Hc j)].
  - intros j c vd Hj. apply alter_lookup_Some in Hj as [(-> & c0 & Hj & ->)|[_ Hj]]; [exact (Ho _ _ _ Hj)|by apply (Ho j)].
  - intros k j Hk. destruct (Ha _ _ Hk) as (c & H1 & H2 & H3 & H4 & H5). destruct (decide (j = id)) as [->|Hne].
    + rewrite list_lookup_alter_eq, H1. cbn. eexists. split; [done|]. rewrite H in H1. injection H1 as <-. cbn. split_and!; try done. lia.
    + exists c. by rewrite list_lookup_alter_ne.
  - intros j c Hj. apply alter_lookup_Some in Hj as [(-> & c0 & Hj & ->)|[_ Hj]]; [exact (Hb _ _ Hj)|by apply Hb].
  - intros j c Hj. apply alter_lookup_Some in Hj as [(-> & c0 & Hj & ->)|[_ Hj]]; [exact (Hc _ _ Hj)|by apply (Hc j)].
  - intros j c vd Hj. apply alter_lookup_Some in Hj as [(-> & c0 & Hj & ->)|[_ Hj]]; [exact (Ho _ _ _ Hj)|by apply (Ho j)].
Qed.

Lemma drop_coherent d e m : coherent m -> coherent (drop_with manager d e m).
Proof.
  intros [Ha Hb Hc Ho]. constructor; cbn.
  - intros k j [H Hd]%map_lookup_filter_Some. cbn in Hd. destruct (Ha _ _ H) as (c & H1 & <- & H3). exists c.
    split; [|by split]. apply update_active_lookup. exists c. split; [done|]. right. split; [|done]. intros [_ ?]. done.
  - intros j c Hj Hd. apply update_active_lookup in Hj as (c0 & Hj & [[Hact ->]|[Hact ->]]); [by right; left|].
    destruct (Hb _ _ Hj Hd) as [H1|H1]; [left|by right]. apply map_lookup_filter_Some. split; [done|]. cbn. intros E. by apply Hact.
  - intros j c Hj Hi. apply update_active_lookup in Hj as (c0 & Hj & [[[Hm _] ->]|[Hact ->]]); [|by apply (Hc j)].
    split; [done|]. destruct (Ha _ _ Hm) as (c1 & H1 & _ & H3 & _). rewrite Hj in H1. injection H1 as <-. cbn. intros r. by rewrite H3.
  - intros j c vd Hj. apply update_active_lookup in Hj as (c0 & Hj & [[_ ->]|[_ ->]]); [exact (Ho _ _ _ Hj)|by apply (Ho j)].
Qed.

Lemma step_coherent m l m' : coherent m -> manager_step manager m l m' -> coherent m'.
Proof.
  intros Hco. destruct 1 as [now d kind m m' id H|id late r m call Hc Hn Hr|now victim id m|id m call Hc Hw|d m|d err m|m c' _].
  - by eapply join_coherent.
  - by eapply check_coherent.
  - by apply commit_coherent.
  - by eapply leave_coherent.
  - by apply drop_coherent.
  - destruct (invalidate_cases d err m) as [-> | ->]; [done|by apply drop_coherent].
  - by destruct Hco.
Qed.

Lemma runs_coherent m ls m' : coherent m -> runs manager m ls m' -> coherent m'.
Proof. intros Hc H. induction H; [done|]. apply IHruns. by eapply step_coherent. Qed.
Lemma idle_coherent (ca : IdentityCache) : coherent (idle ca).
Proof. constructor; cbn; [intros k id; by rewrite lookup_empty|done..]. Qed.
Lemma runs_evolves m ls m' : runs manager m ls m' -> calls_rel evolves m m'.
Proof. induction 1; [done|]. etrans; [by eapply step_evolves|done]. Qed.

(** ** Eviction and invalidation *)
Lemma put_entries now victim (vd : VerifiedDomain key reader) ctx (ca : IdentityCache) k v :
  entries (put now victim vd ctx ca) !! k = Some v -> k = (domain vd, ctx) \/ entries ca !! k = Some v.
Proof.
  rewrite put_eq. destruct (_ || _ || _); [by right|]. destruct (_ || _ || _).
  { destruct (_ && _); [|by right]. rewrite remove_entry_entries. intros [_ H]%lookup_delete_Some. by right. }
  destruct (put_alloc _ ca) as [copy ca1] eqn:Ea. cbn. intros [[<- _]|[_ H]]%lookup_insert_Some; [by left|right].
  assert (entries ca1 = entries ca) as E1 by (unfold put_alloc in Ea; destruct (cacheInvalidated _); injection Ea as _ <-; done).
  assert (forall cur cp (ca2 : IdentityCache (key:=key) (reader:=reader)), entries (put_fence cur cp ca2) = entries ca2) as Ef.
  { intros cur cp ca2. unfold put_fence. destruct cur as [x|]; [|done]. by destruct (bool_decide _). }
  unfold put_make_room in H. destruct (_ && _); [|by rewrite Ef, E1 in H].
  rewrite remove_entry_entries in H. apply lookup_delete_Some in H as [_ H]. by rewrite Ef, E1 in H.
Qed.

(** [n] calls existed when the domain was dropped; none of them may still
    reach the cache, unless its context check is behind it. *)
Definition outdated n d m : Prop :=
  (n <= List.length (calls m))%nat /\
  forall id c, (id < n)%nat -> calls m !! id = Some c -> call_domain c = d ->
    superseded c = true \/ done c <> None \/ cancelled c = true.

(** The commit that cached something after a drop of the domain: of a call
    that began later, or of one that all its callers had left when its context
    check had already passed. *)
Definition refilled n d (ls : list label) m : Prop :=
  exists id c, Commit id ∈ ls /\ calls m !! id = Some c /\ call_domain c = d /\
    ((n <= id)%nat \/ (cancelled c = true /\ exists vd, checked c = Some (Ok vd))).

Lemma evolves_outdated n d m m' : calls_rel evolves m m' -> outdated n d m -> outdated n d m'.
Proof.
  intros HR [Hn Ho]. split.
  - destruct n as [|n]; [lia|]. destruct (lookup_lt_is_Some_2 (calls m) n ltac:(lia)) as [c Hc].
    destruct (HR _ _ Hc) as (c' & Hc' & _). apply lookup_lt_Some in Hc'. lia.
  - intros id c' Hid Hc' Hd. destruct (lookup_lt_is_Some_2 (calls m) id ltac:(lia)) as [c Hc].
    destruct (HR _ _ Hc) as (c2 & Hc2 & []). rewrite Hc' in Hc2. injection Hc2 as <-.
    destruct (Ho _ _ Hid Hc) as [?|[Hx|?]]; [congruence|by left; auto| |by right; right; auto].
    right; left. destruct (done c) as [r|]; [|done]. by rewrite (ev_done0 r).
Qed.


Lemma outdated_drop d e m : coherent m -> outdated (List.length (calls m)) d (drop_with manager d e m).
Proof.
  intros [_ Hb _ _]. split; [cbn; unfold update_active; by rewrite length_imap|].
  intros id c _ Hc Hd. cbn in Hc. apply update_active_lookup in Hc as (c0 & Hc & [[_ ->]|[Ha ->]]); [by left|].
  destruct (done c0) as [r|] eqn:Ed; [by right; left|]. destruct (Hb _ _ Hc Ed) as [H|[H|H]]; [|by left|by right; right].
  by destruct Ha.
Qed.

(** Only a commit puts something in the manager's part of the cache. *)
Lemma step_entries m l m' d v :
  coherent m -> manager_step manager m l m' ->
  entries (cache m') !! (d, Some manager) = Some v ->
  entries (cache m) !! (d, Some manager) = Some v \/
  exists id c vd, l = Commit id /\ calls m !! id = Some c /\ call_domain c = d /\ done c = None /\ superseded c = false /\
    checked c = Some (Ok vd).
Proof.
  intros Hco Hs. destruct Hs as [now d' kind m m' id H|id late r m call Hc Hn Hr|now victim id m|id m call Hc Hw|d' m|d' err m|m c' Hx];
    intros Hv.
  - left. unfold join in H. destruct (verifying m !! _); injection H as <- _; exact Hv.
  - by left.
  - destruct (commit_cases now victim id m) as [E|(call & r & Hc & Hr & Hd & E)]; rewrite E in Hv; [by left|]. cbn in Hv.
    unfold published, final in Hv. destruct r as [vd|e]; [|by left]. destruct (invalidated call); [by left|].
    destruct (superseded call) eqn:Es; [by left|]. cbn [negb andb] in Hv. destruct (before _ _); [by left|].
    assert (cache (publish manager now victim call vd m) = put now victim vd (Some manager) (cache m)) as Ep
      by (unfold publish; by destruct (bool_decide _)).
    cbn [negb] in Hv. rewrite Ep in Hv. apply put_entries in Hv as [[= -> ]|Hv]; [right|by left].
    exists id, call, vd. split_and!; try done. symmetry. by eapply co_domain.
  - left. unfold leave in Hv. rewrite Hc in Hv. by destruct (_ =? 0).
  - left. cbn in Hv. unfold evict in Hv. rewrite remove_entry_entries in Hv. by apply lookup_delete_Some in Hv as [_ Hv].
  - left. destruct (invalidate_cases d' err m) as [E|E]; rewrite E in Hv; [done|]. cbn in Hv. unfold evict in Hv.
    rewrite remove_entry_entries in Hv. by apply lookup_delete_Some in Hv as [_ Hv].
  - left. by apply Hx.
Qed.

Lemma runs_refill n d m ls m' :
  coherent m -> runs manager m ls m' -> outdated n d m ->
  is_Some (entries (cache m') !! (d, Some manager)) ->
  is_Some (entries (cache m) !! (d, Some manager)) \/ refilled n d ls m'.
Proof.
  intros Hco H. induction H as [m|m l m1 ls m2 Hs Hr IH]; intros Ho Hv; [by left|].
  pose proof (step_evolves _ _ _ Hs) as HR. pose proof (evolves_outdated _ _ _ _ HR Ho) as Ho1.
  destruct (IH (step_coherent _ _ _ Hco Hs) Ho1 Hv) as [[v Hv1]|(id & c & Hin & Hc & Hd & Hx)].
  - destruct (step_entries _ _ _ _ _ Hco Hs Hv1) as [H1|(id & c & vd & -> & Hc & Hd & Hn & Hsup & Hk)]; [by left; exists v|right].
    pose proof (calls_rel_trans evolves _ _ _ HR (runs_evolves _ _ _ Hr)) as HR2.
    destruct (HR2 _ _ Hc) as (c2 & Hc2 & []). exists id, c2. split; [left|]. split; [done|]. split; [congruence|].
    destruct (decide (n <= id)%nat) as [Hle|Hlt]; [by left|right].
    destruct (proj2 Ho id c ltac:(lia) Hc Hd) as [?|[?|?]]; [congruence|done|]. split; [auto|]. exists vd. auto.
  - right. exists id, c. split; [by right|done].
Qed.

(** C25: eviction and the observation of a non-ACTIVE status are final: from
    then on the manager's cache holds something for the domain only if a worker
    started later has put it there, or one that had been abandoned by all its
    callers between the check of its context and its critical section. *)
Theorem dropped_domains_stay_out ca ls0 m d e ls m' :
  runs manager (idle ca) ls0 m -> runs manager (drop_with manager d e m) ls m' ->
  is_Some (entries (cache m') !! (d, Some manager)) -> refilled (List.length (calls m)) d ls m'.
Proof.
  intros H0 H Hv. pose proof (runs_coherent _ _ _ (idle_coherent ca) H0) as Hco.
  destruct (runs_refill _ d _ _ _ (drop_coherent d e _ Hco) H (outdated_drop d e m Hco) Hv) as [Hx|Hx]; [|done].
  exfalso. cbn in Hx. unfold evict in Hx. rewrite remove_entry_entries, lookup_delete_eq in Hx. by destruct Hx.
Qed.

(** A caller never gets evidence of a domain whose status was seen not to be
    ACTIVE while the work was in flight: every call of the domain that was
    running, not replaced by newer evidence and not abandoned, ends in the
    status error, whatever its worker brings. *)
Theorem invalidated_callers_fail ca ls0 m d err ls m' id c c' r :
  runs manager (idle ca) ls0 m ->
  invalidateNonActiveDomain manager d err m = drop_with manager d (Some err) m ->
  calls m !! id = Some c -> call_domain c = d -> done c = None -> superseded c = false -> cancelled c = false ->
  runs manager (invalidateNonActiveDomain manager d err m) ls m' -> calls m' !! id = Some c' -> done c' = Some r ->
  answer id m' = Some r /\ exists e, r = Err e.
Proof.
  intros H0 Hi Hc Hd Hn Hs Hx H Hc' Hr. rewrite Hi in H. pose proof (runs_coherent _ _ _ (idle_coherent ca) H0) as Hco.
  destruct (co_left _ Hco _ _ Hc Hn) as [Hm|[?|?]]; [|congruence..].
  assert (calls (drop_with manager d (Some err) m) !! id = Some (with_superseded (Some err) c)) as Hc1.
  { cbn. apply update_active_lookup. exists c. split; [done|]. left. by split. }
  pose proof (drop_coherent d (Some err) _ Hco) as Hco1.
  destruct (runs_evolves _ _ _ H _ _ Hc1) as (c2 & Hc2 & []). rewrite Hc' in Hc2. injection Hc2 as <-.
  assert (invalidated c' <> None) as Hinv by (by apply ev_invalidated0).
  destruct (proj2 (co_invalid _ (runs_coherent _ _ _ Hco1 H) _ _ Hc' Hinv) r Hr) as [e ->].
  split; [|by exists e]. unfold answer. rewrite Hc'. cbn. by rewrite Hr.
Qed.
End coalesce_spec.

(** ** Concrete runs *)
Definition demo_manager : nat := 7.
Definition demo_name : string := "agent.example.com".
Abbreviation demo_Mgr := (Manager (key:=demo_jwk) (reader:=unit)).
Definition demo_idle : demo_Mgr := idle NewIdentityCache.
Definition demo_call (m : demo_Mgr) : demo_Mgr := (join 1 demo_name identityLookup m).1.
Definition demo_check (id : nat) (m : demo_Mgr) : demo_Mgr := check_context id false (Ok (demo_vd None)) m.
Definition demo_commit (id : nat) (m : demo_Mgr) : demo_Mgr := commit demo_manager 100 (demo_name, None) id m.
Definition demo_in_cache (m : demo_Mgr) : bool := bool_decide (is_Some (entries (cache m) !! (demo_name, Some demo_manager))).

Lemma demo_call_step m : manager_step demo_manager m Tau (demo_call m).
Proof. unfold demo_call. destruct (join 1 demo_name identityLookup m) as [m' id] eqn:E. by eapply step_join. Qed.
Lemma demo_check_step id m call :
  calls m !! id = Some call -> checked call = None -> call_domain call = demo_name -> manager_step demo_manager m Tau (demo_check id m).
Proof. intros H1 H2 H3. eapply step_check; [exact H1|exact H2|]. intros vd [= <-]. by rewrite H3. Qed.

(** A worker that all its callers left after its context check still fills the
    cache, although the domain was evicted, or its status was seen not to be
    ACTIVE, before it commits: the eviction does not reach it. *)
Definition demo_abandoned : demo_Mgr := leave 0 (demo_check 0 (demo_call demo_idle)).
Lemma demo_abandoned_runs : runs demo_manager demo_idle [Tau; Tau; Tau] demo_abandoned.
Proof.
  eapply runs_cons; [apply demo_call_step|]. eapply runs_cons.
  { eapply (demo_check_step 0); [vm_compute; reflexivity|reflexivity|reflexivity]. }
  eapply runs_cons; [|apply runs_nil]. eapply (step_leave _ 0); [vm_compute; reflexivity|reflexivity].
Qed.
Theorem abandoned_worker_refills_the_cache :
  exists m e, runs demo_manager demo_idle [Tau; Tau; Tau] m /\
    invalidateNonActiveDomain demo_manager demo_name e m = drop_with demo_manager demo_name (Some e) m /\
    demo_in_cache (demo_commit 0 (EvictDomain demo_manager demo_name m)) = true /\
    demo_in_cache (demo_commit 0 (invalidateNonActiveDomain demo_manager demo_name e m)) = true.
Proof.
  exists demo_abandoned, (VerificationError VerificationCodeStatusNotActive false ""). split; [exact demo_abandoned_runs|].
  split; [reflexivity|]. split; vm_compute; reflexivity.
Qed.

(** Verified, evicted, verified again. *)
Definition demo_filled : demo_Mgr := demo_commit 0 (demo_check 0 (demo_call demo_idle)).
Definition demo_refilled : demo_Mgr := demo_commit 1 (demo_check 1 (demo_call (EvictDomain demo_manager demo_name demo_filled))).
Lemma demo_fill (m : demo_Mgr) id call :
  calls (demo_call m) !! id = Some call -> checked call = None -> call_domain call = demo_name ->
  runs demo_manager m [Tau; Tau; Commit id] (demo_commit id (demo_check id (demo_call m))).
Proof.
  intros H1 H2 H3. eapply runs_cons; [apply demo_call_step|]. eapply runs_cons; [by eapply demo_check_step|].
  eapply runs_cons; [apply step_commit|apply runs_nil].
Qed.

Lemma dropped_domains_stay_out_witness :
  refilled 1 demo_name [Tau; Tau; Commit 1] demo_refilled /\ demo_in_cache (EvictDomain demo_manager demo_name demo_filled) = false.
Proof.
  split; [|vm_compute; reflexivity].
  apply (dropped_domains_stay_out demo_manager NewIdentityCache [Tau; Tau; Commit 0%nat] demo_filled demo_name None
    [Tau; Tau; Commit 1%nat] demo_refilled).
  - eapply demo_fill; [vm_compute; reflexivity|reflexivity|reflexivity].
  - eapply (demo_fill (EvictDomain demo_manager demo_name demo_filled)); [vm_compute; reflexivity|reflexivity|reflexivity].
  - apply (bool_decide_unpack _). vm_compute. exact I.
Defined.

(** The status is seen not to be ACTIVE while the only worker runs. *)
Definition demo_gone : error := VerificationError VerificationCodeStatusNotActive false "dnsid: agent status is not ACTIVE".
Definition demo_running : demo_Mgr := demo_check 0 (demo_call demo_idle).
Definition demo_hit : demo_Mgr := demo_commit 0 (invalidateNonActiveDomain demo_manager demo_name demo_gone demo_running).
Lemma demo_running_runs : runs demo_manager demo_idle [Tau; Tau] demo_running.
Proof.
  apply (runs_cons _ _ _ (demo_call demo_idle)); [apply demo_call_step|].
  apply (runs_cons _ _ _ demo_running); [|apply runs_nil].
  eapply (demo_check_step 0); [vm_compute; reflexivity|reflexivity|reflexivity].
Qed.
Lemma demo_hit_runs :
  runs demo_manager (invalidateNonActiveDomain demo_manager demo_name demo_gone demo_running) [Commit 0%nat] demo_hit.
Proof. apply (runs_cons _ _ _ demo_hit); [apply step_commit|apply runs_nil]. Qed.
Lemma invalidated_callers_fail_witness : exists r, answer 0 demo_hit = Some r /\ exists e, r = Err e.
Proof.
  assert (Hc : exists c, calls demo_running !! 0%nat = Some c /\ call_domain c = demo_name /\ done c = None /\
    superseded c = false /\ cancelled c = false) by (eexists; split; [vm_compute; reflexivity|done]).
  assert (Hd : exists c' r, calls demo_hit !! 0%nat = Some c' /\ done c' = Some r)
    by (do 2 eexists; split; [vm_compute; reflexivity|reflexivity]).
  destruct Hc as (c & Hc & Hdom & Hn & Hs & Hx). destruct Hd as (c' & r & Hc' & Hr). exists r.
  exact (invalidated_callers_fail demo_manager NewIdentityCache [Tau; Tau] demo_running demo_name demo_gone
    [Commit 0%nat] demo_hit 0 c c' r demo_running_runs eq_refl Hc Hdom Hn Hs Hx demo_hit_runs Hc' Hr).
Defined.
