(* ===== verification/Manager.v ===== *)
(** * Manager: the verification of a domain (identity_manager.go)

    [verifyReusableDomain] gathers the evidence of an identity: the TXT record
    and its DNSSEC state, the entity and operational key sets, the lifecycle
    log and the status document. What the network, the log and the clock answer
    during one verification is the record [evidence_env]; a fetch that another
    part's failure cancels answers with [CanceledError]. [verifyDomain] is the
    boundary of an invocation: cache hits, shared work (Coalesce.v), the
    connection's own policy and the acceptance of the counterparty. *)

From Stdlib Require Import ZArith Lia Ascii String.
From S2P Require Import Prelude Codec Evidence Json Keys Fqdn Lifecycle LogReader TxtRecord Reference KeyRing KeyRingSpec Jwks Domain Fetch Cache.

Open Scope Z_scope.

(** ** Configuration *)
Definition DNSSECModeAuto : string := "auto".
Definition DNSSECModeValidated : string := "validated".
Definition DNSSECModeRequired : string := "required".
Definition DNSSECStateUnknown : string := "UNKNOWN".
Definition DNSSECStateValid : string := "VALID".
Definition DNSSECStateUnsigned : string := "UNSIGNED".
Definition DNSSECStateFailed : string := "FAILED".

(** [EntityKeyThumbprints]: [None] is nil. *)
Record TrustedEntity := { te_GovernanceID : string; EntityKeyThumbprints : option (list string) }.
Record VerificationConfig := {
  StatusCheckInterval : Z;
  DNSSECMode : string;
  TrustedEntities : option (list TrustedEntity)
}.

Record TXTRecordRData := { rd_Value : string; rd_TTL : Z }.

(** [time.Time.UnmarshalJSON]: its leniency depends on the release of Go. *)
Class TimeText := { time_UnmarshalJSON : json -> option time }.

Definition as_dns (e : error) : option (bool * bool * bool) :=
  match e with DNSError nf t tmp => Some (nf, t, tmp) | _ => None end.
Definition isDNSNotFound (e : error) : bool :=
  match errors_as as_dns e with
  | Some (nf, timeout, temporary) => nf && negb timeout && negb temporary
  | None => false
  end.
Definition is_canceled (e : error) : bool := bool_decide (CanceledError ∈ error_chain e).

Definition as_tls_policy (e : error) : option unit := match e with TLSPolicyError _ => Some tt | _ => None end.
Definition as_certificate (e : error) : option unit := match e with CertificateVerificationError => Some tt | _ => None end.
Definition isTLSError (e : error) : bool :=
  bool_decide (errors_as as_tls_policy e <> None) || bool_decide (errors_as as_certificate e <> None).
Definition as_http_status (e : error) : option Z := match e with HTTPStatusError c => Some c | _ => None end.
Definition fetchErrorTransient (e : error) : bool :=
  match errors_as as_http_status e with Some c => (500 <=? c) && (c <=? 599) | None => true end.

Definition as_parse_or_validation (e : error) : option unit :=
  match e with ParseError _ | ValidationError _ => Some tt | _ => None end.
Definition as_validation (e : error) : option unit := match e with ValidationError _ => Some tt | _ => None end.

(** [NewVerificationError(code, transient, msg, cause)]. *)
Definition caused (code : string) (transient : bool) (msg : string) (cause : error) : error :=
  WithCause (VerificationError code transient msg) cause.

Definition jwksVerificationError (msg : string) (e : error) : error :=
  if bool_decide (errors_as as_parse_or_validation e <> None) then caused "record_invalid" false msg e
  else if isTLSError e then caused "tls_error" false msg e
  else caused "jwks_unavailable" (fetchErrorTransient e) msg e.

(** [logVerificationError] of log.go. *)
Definition dnsid_logVerificationError (e : error) : error :=
  if bool_decide (errors_as as_verification e <> None) then e
  else caused "log_error" (default false (errors_as as_transient e)) "dnsid: lifecycle log verification failed" e.

(** ** Policy decisions *)
Definition enforceDNSSECPolicy (mode state : string) : res unit :=
  let state := if is_empty state then DNSSECStateUnknown else state in
  fail_if negb (bool_decide (state ∈ [DNSSECStateValid; DNSSECStateUnsigned; DNSSECStateUnknown; DNSSECStateFailed]))
    with VerificationError "dnssec_failed" false "dnsid: resolver reported invalid DNSSEC state" ;;
  fail_if str_eqb state DNSSECStateFailed with VerificationError "dnssec_failed" false "dnsid: DNSSEC validation failed" ;;
  let mode := if is_empty mode then DNSSECModeAuto else mode in
  if str_eqb mode DNSSECModeAuto then Ok tt
  else if str_eqb mode DNSSECModeValidated then
    fail_if str_eqb state DNSSECStateUnknown
      with VerificationError "dnssec_failed" false "dnsid: DNSSEC validation state is required but resolver reported UNKNOWN" ;; Ok tt
  else if str_eqb mode DNSSECModeRequired then
    fail_if negb (str_eqb state DNSSECStateValid)
      with VerificationError "dnssec_failed" false "dnsid: DNSSEC required but resolver state is not VALID" ;; Ok tt
  else Err (VerificationError "dnssec_failed" false "dnsid: unsupported DNSSEC mode").

Definition rejectIfEKKUCollide (ekThumbprint kuThumbprint : string) : res unit :=
  fail_if str_eqb ekThumbprint kuThumbprint
    with VerificationError "record_invalid" false "dnsid: ek and ku keys must be distinct key material (RFC 7638 thumbprints match)" ;;
  Ok tt.

(** A certificate chain by what [VerifyHostname] says of its leaf; [None] is a
    chain without a leaf. *)
Definition verifyMTLSPeerChains (domain : string) (chains : list (option (string -> bool))) : res unit :=
  fail_if bool_decide (List.length chains = 0%nat)
    with VerificationError "tls_error" false "dnsid: fl=mtls requires an already-verified peer certificate chain" ;;
  if existsb (fun chain => match chain with Some verifyHostname => verifyHostname domain | None => false end) chains
  then Ok tt
  else Err (VerificationError "tls_error" false "dnsid: verified peer certificate chain is not valid for the domain").

Definition enforcePerCallPolicy (rec : option TXTRecord) (domain : string) (chains : list (option (string -> bool))) : res unit :=
  if hasPolicyFlag rec PolicyFlagMTLS then verifyMTLSPeerChains domain chains else Ok tt.

Section manager.
Context {key : Type} `{!KeyOps key} `{!JwkLib key} `{!JwkSetLib key} `{!CloneLib key}
  {I : Idna} {U : NetURL} {TT : TimeText}.
Abbreviation LogReader := (LogReader (key:=key)).
Abbreviation VerifiedDomain := (VerifiedDomain key LogReader).

(** The loop of [enforceCounterpartyAcceptance]. *)
Fixpoint accepted_entity (gi thumbprint : string) (entities : list TrustedEntity) : res unit :=
  match entities with
  | [] => Err (VerificationError "counterparty_not_accepted" false "dnsid: counterparty not accepted: governance ID is not in the configured allowlist")
  | e :: entities =>
      if negb (str_eqb (te_GovernanceID e) gi) then accepted_entity gi thumbprint entities
      else match EntityKeyThumbprints e with
           | None => Ok tt
           | Some pins =>
               if existsb (fun pin => str_eqb pin thumbprint && negb (is_empty thumbprint)) pins then Ok tt
               else Err (VerificationError "counterparty_not_accepted" false "dnsid: counterparty not accepted: entity key does not match a configured pin")
           end
  end.
Definition enforceCounterpartyAcceptance (cfg : VerificationConfig) (vd : option VerifiedDomain) : res unit :=
  match TrustedEntities cfg with
  | None => Ok tt
  | Some entities =>
      match vd with
      | Some vd =>
          match record vd with
          | Some rec => accepted_entity (GovernanceID rec) (signingKeyThumbprint vd) entities
          | None => Err (VerificationError "counterparty_not_accepted" false "dnsid: counterparty not accepted: no verified record")
          end
      | None => Err (VerificationError "counterparty_not_accepted" false "dnsid: counterparty not accepted: no verified record")
      end
  end.

(** ** The evidence of one verification *)
Inductive fetch_slot := AtEntityKeys | AtOperationalKeys | AtStatus.

Record evidence_env := {
  FetchTXT : string -> list TXTRecordRData * string * option error;
  env_FetchJSON : fetch_slot -> string -> FetchOptions -> res (content * option TLSCertificate);
  logReaderFor : string -> res LogReader;
  PreloadHistory : LogReader -> option (string -> res LogReader);
  env_revalidate : bool;
  dnsAcquiredAt : time;             (* [time.Now()] before the lookup *)
  now_age : time;                   (* at [time.Since(keyBoundAt)] *)
  now_status : time;                (* at the check of [lastTransitionAt] *)
  now_done : time;                  (* [verifiedAt] *)
  now_fresh : time;                 (* in [requireFreshIdentityEvidence] *)
  done_waiting : bool;              (* [ctx.Done()] wins the [select] *)
  status_seen : bool;               (* then: had the status result been received? *)
  done_at_end : bool
}.

Definition dnsName (normalized : string) : string := String.append "_dnsid." normalized.

(** *** Status *)
Definition time_field (name : string) (fields : list (string * json)) : option time :=
  fold_left (fun acc f =>
    acc ← acc;
    if field_match f.1 name then
      match f.2 with JNull => Some acc | j => time_UnmarshalJSON j end
    else Some acc) fields (Some 0).
(** [json.Unmarshal(msg, &status)]. *)
Definition unmarshal_status (msg : content) : option AgentStatus :=
  match msg with
  | Torn => None
  | Doc JNull => Some (Status "" 0 "")
  | Doc (JObject fields) =>
      state ← string_field "state" fields;
      at_ ← time_field "lastTransitionAt" fields;
      reason ← string_field "revocationReason" fields;
      Some (Status state at_ reason)
  | Doc _ => None
  end.

Definition fetchAgentStatus (env : evidence_env) (statusURL : string) : res (AgentStatus * option TLSCertificate) :=
  match env_FetchJSON env AtStatus statusURL
          {| AllowedHost := hostname_of statusURL; DomainBoundary := false; MaxResponseBytes := Z.shiftl 64 10;
             RedirectPolicy := RedirectPolicyHTTPS; Revalidate := env_revalidate env |} with
  | Err e =>
      if isTLSError e then Err (caused "tls_error" false "dnsid: fetching agent status" e)
      else Err (caused "status_unavailable" (fetchErrorTransient e) "dnsid: fetching agent status" e)
  | Ok (msg, cert) =>
      match unmarshal_status msg with
      | None => Err (caused "record_invalid" false "dnsid: parsing agent status" (ParseError "dnsid: invalid agent status JSON"))
      | Some status => status ← activeStatus status (now_status env); Ok (status, cert)
      end
  end.

(** *** Key sets *)
Definition fetchJWKS (env : evidence_env) (slot : fetch_slot) (keyURL domain : string) (domainBoundary : bool)
    : res (list key * option TLSCertificate) :=
  '(msg, cert) ← env_FetchJSON env slot keyURL
    {| AllowedHost := domain; DomainBoundary := domainBoundary; MaxResponseBytes := Z.shiftl 1 20;
       RedirectPolicy := RedirectPolicySameHost; Revalidate := env_revalidate env |};
  set ← ParseJWKSet msg;
  Ok (set, cert).

(** *** The log *)
(** [giDomain, _ := NormalizeFQDN(govID)]. *)
Definition gi_domain (govID : string) : string := match NormalizeFQDN govID with Ok d => d | Err _ => EmptyString end.

Definition enforceRecordPolicy (env : evidence_env) (reader : LogReader) (rec : TXTRecord)
    (domain signingKeyThumbprint operationalKeyThumbprint : string) (signingKey kuKey : option key) : res time :=
  let govID := GovernanceID rec in
  let giDomain := gi_domain govID in
  (if negb (is_empty giDomain) && negb (isDomainOrSubdomain domain giDomain) then
     match lr_VerifyGovernanceRelationship reader with
     | None => Err (VerificationError "log_error" false "dnsid: delegated governance requires log relationship verification")
     | Some verify => match verify domain govID with Ok _ => Ok tt | Err e => Err (dnsid_logVerificationError e) end
     end
   else Ok tt) ;;
  keyBoundAt ← (if negb (is_empty (KeyAge rec)) then
      let kaThumbprint := if is_empty operationalKeyThumbprint then signingKeyThumbprint else operationalKeyThumbprint in
      match lr_KeyTimestamp reader domain kaThumbprint with
      | Err e => Err (dnsid_logVerificationError e)
      | Ok keyBoundAt =>
          match parseKeyAgeDuration (KeyAge rec) with
          | Err e => Err (caused "record_invalid" false "dnsid: invalid ka value" e)
          | Ok maxAge =>
              fail_if maxAge <? time_sub (now_age env) keyBoundAt
                with VerificationError "key_age_exceeded" false "dnsid: signing key exceeds maximum key age" ;;
              Ok keyBoundAt
          end
      end
    else Ok 0);
  match signingKey with
  | None => Err (VerificationError "log_error" false "dnsid: verified record key is unavailable for lifecycle binding")
  | Some _ =>
      let input := {| in_Domain := domain; in_GovernanceID := govID; in_EntityKey := signingKey; in_OperationalKey := kuKey |} in
      match lr_VerifyLifecycleBinding reader with
      | Some verify =>
          match verify input operationalKeyThumbprint with Ok _ => Ok keyBoundAt | Err e => Err (dnsid_logVerificationError e) end
      | None =>
          match lr_VerifyBilateralBinding reader input with
          | Err e => Err (dnsid_logVerificationError e)
          | Ok binding =>
              match lr_VerifyOperationalContinuity reader domain (bb_InitialOperationalThumbprint binding) operationalKeyThumbprint with
              | Err e => Err (dnsid_logVerificationError e)
              | Ok _ => Ok keyBoundAt
              end
          end
      end
  end.

(** *** DNS *)
Definition only_record (rdatas : list TXTRecordRData) (normalized : string) : res (TXTRecordRData * TXTRecord) :=
  match rdatas with
  | [] => Err (VerificationError "record_not_found" false "dnsid: _dnsid TXT record not found")
  | [rd] =>
      fail_if (rd_TTL rd <? 0) || (65535 <? Z.of_nat (String.length (rd_Value rd)))
        with VerificationError "dns_resolution" false "dnsid: invalid DNS TTL or oversized TXT response" ;;
      match ParseTXTRecord (rd_Value rd) with
      | Err e => Err (caused "record_invalid" false "dnsid: invalid _dnsid TXT record" e)
      | Ok rec =>
          match txt_Validate (Some rec) normalized with
          | Err e =>
              let cause := if bool_decide (errors_as as_validation e <> None) then e
                           else WithCause (ValidationError "dnsid: TXT record validation failed") e in
              Err (caused "record_invalid" false "dnsid: invalid _dnsid TXT record semantics" cause)
          | Ok _ => Ok (rd, rec)
          end
      end
  | _ => Err (VerificationError "record_invalid" false "dnsid: multiple _dnsid TXT records (expected exactly one)")
  end.
Definition dns_evidence (env : evidence_env) (cfg : VerificationConfig) (normalized : string)
    : res (TXTRecordRData * string * TXTRecord) :=
  let '(rdatas, dnssec, err) := FetchTXT env (dnsName normalized) in
  let '(rdatas, err) := match err with
    | Some e => if isDNSNotFound e then ([], None) else (rdatas, err)
    | None => (rdatas, err)
    end in
  match err with
  | Some e =>
      fail_if negb (str_eqb dnssec DNSSECStateFailed) with caused "dns_resolution" true "dnsid: DNS lookup failed" e ;;
      (* a failed validation takes precedence *)
      enforceDNSSECPolicy (DNSSECMode cfg) dnssec ;; Err e
  | None =>
      enforceDNSSECPolicy (DNSSECMode cfg) dnssec ;;
      '(rd, rec) ← only_record rdatas normalized;
      Ok (rd, dnssec, rec)
  end.

(** The entity key set and the key that signed the record. *)
Definition entity_evidence (env : evidence_env) (rec : TXTRecord)
    : res (list key * option TLSCertificate * key * string) :=
  match fetchJWKS env AtEntityKeys (EntityKeyURI rec) (GovernanceID rec) true with
  | Err e => Err (jwksVerificationError "dnsid: fetching JWKS" e)
  | Ok (set, jwksCert) =>
      match singleDraft01SigningKey (Some set) with
      | Err _ => Err (VerificationError "record_invalid" false "dnsid: ek endpoint must serve exactly one current usable key")
      | Ok _ =>
          signingKey ← verifiedRecordSigningKey (Some rec) (Some set);
          match jwk_Thumbprint (Some signingKey) with
          | Err e => Err (caused "record_invalid" false "dnsid: record signing key thumbprint failed" e)
          | Ok thumb => Ok (set, jwksCert, signingKey, thumb)
          end
      end
  end.

(** The operational key set: its one current key, distinct from the entity's. *)
Definition operational_evidence (env : evidence_env) (rec : TXTRecord) (normalized signingKeyThumbprint : string)
    : res (list key * option TLSCertificate * key * string) :=
  match fetchJWKS env AtOperationalKeys (KeyURI rec) normalized false with
  | Err e => Err (jwksVerificationError "dnsid: fetching ku JWKS" e)
  | Ok (kuSet, runtimeCert) =>
      match singleDraft01SigningKey (Some kuSet) with
      | Err _ => Err (VerificationError "record_invalid" false "dnsid: ku endpoint must serve exactly one current key")
      | Ok kuOpKey =>
          match jwk_Thumbprint (Some kuOpKey) with
          | Err e => Err (caused "record_invalid" false "dnsid: ku key thumbprint failed" e)
          | Ok thumb => rejectIfEKKUCollide signingKeyThumbprint thumb ;; Ok (kuSet, runtimeCert, kuOpKey, thumb)
          end
      end
  end.

(** The reader of the verification, with its history loaded ahead where the
    reader can, and the reader the result keeps. *)
Definition preload_done (env : evidence_env) (rec : TXTRecord) (normalized : string) : res (LogReader * LogReader) :=
  original ← logReaderFor env (LogRef rec);
  match PreloadHistory env original with
  | None => Ok (original, original)
  | Some preload =>
      match preload normalized with Ok reader => Ok (reader, original) | Err e => Err (dnsid_logVerificationError e) end
  end.

(** The identity goroutine. Its deferred function lets the error of the
    preload stand for a cancellation it caused. *)
Definition identity_work (env : evidence_env) (normalized : string) (rd : TXTRecordRData) (dnssec : string) (rec : TXTRecord)
    (entity : list key * option TLSCertificate * key * string) : res VerifiedDomain :=
  let '(set, jwksCert, signingKey, signingKeyThumbprint) := entity in
  let preload := preload_done env rec normalized in
  match operational_evidence env rec normalized signingKeyThumbprint with
  | Err e =>
      match preload with
      | Err pe => if is_canceled e then Err pe else Err e
      | Ok _ => Err e
      end
  | Ok (kuSet, runtimeCert, kuOpKey, operationalKeyThumbprint) =>
      '(reader, original) ← preload;
      keyBoundAt ← enforceRecordPolicy env reader rec normalized signingKeyThumbprint operationalKeyThumbprint
        (Some signingKey) (Some kuOpKey);
      Ok {| Domain.domain := normalized; record := Some rec; keySet := Some kuSet; recordSigningKeySet := Some set;
            Domain.kuKey := Some kuOpKey; Domain.signingKey := Some signingKey;
            Domain.signingKeyThumbprint := signingKeyThumbprint; status := None; dnssecState := dnssec;
            verifiedAt := 0; acquiredAt := 0; lastStatusCheckAt := 0; dnsTTL := rd_TTL rd; dnsExpiresAt := 0;
            jwksTLSCertificate := runtimeCert; ekTLSCertificate := jwksCert; statusTLSCertificate := None;
            Domain.keyBoundAt := keyBoundAt; Domain.operationalKeyThumbprint := operationalKeyThumbprint;
            logReader := Some original; expiry := 0; cachedState := ""; cacheInvalidated := None |}
  end.

(** What the verifier records once everything is in. *)
Definition completed (env : evidence_env) (rd : TXTRecordRData) (rec : TXTRecord) (jwksCert : option TLSCertificate)
    (v : VerifiedDomain) (status : AgentStatus) (statusCert : option TLSCertificate) : VerifiedDomain :=
  {| Domain.domain := Domain.domain v; record := record v; keySet := keySet v; recordSigningKeySet := recordSigningKeySet v;
     Domain.kuKey := Domain.kuKey v; Domain.signingKey := Domain.signingKey v;
     Domain.signingKeyThumbprint := Domain.signingKeyThumbprint v; Domain.status := Some status; dnssecState := dnssecState v;
     verifiedAt := now_done env; acquiredAt := dnsAcquiredAt env; lastStatusCheckAt := now_done env; dnsTTL := dnsTTL v;
     dnsExpiresAt := dnsAcquiredAt env + rd_TTL rd; jwksTLSCertificate := jwksTLSCertificate v;
     ekTLSCertificate := ekTLSCertificate v; statusTLSCertificate := statusCert; Domain.keyBoundAt := Domain.keyBoundAt v;
     Domain.operationalKeyThumbprint := Domain.operationalKeyThumbprint v; logReader := logReader v;
     expiry := verifiedDomainExpiry (dnsAcquiredAt env) (rd_TTL rd) (KeyAge rec) (Domain.keyBoundAt v) (jwksTLSCertificate v) jwksCert;
     cachedState := "fresh"; cacheInvalidated := cacheInvalidated v |}.

(** The precedence of the two results. *)
Definition join_results (identity : res VerifiedDomain) (statusCheck : res (AgentStatus * option TLSCertificate))
    : res (VerifiedDomain * (AgentStatus * option TLSCertificate)) :=
  match identity, statusCheck with
  | Ok vd, Ok st => Ok (vd, st)
  | Err ie, Err se => if negb (is_canceled ie) then Err ie else if negb (is_canceled se) then Err se else Err ie
  | Err ie, Ok _ => Err ie
  | Ok _, Err se => Err se
  end.

(** The verification past the cache: the result, the error it reports to
    [invalidateNonActiveDomain], and whether the freshness check evicted the
    domain from the cache. *)
Definition acquire (env : evidence_env) (cfg : VerificationConfig) (normalized : string)
    : res VerifiedDomain * option error * bool :=
  match dns_evidence env cfg normalized with
  | Err e => (Err e, None, false)
  | Ok (rd, dnssec, rec) =>
      match entity_evidence env rec with
      | Err e => (Err e, None, false)
      | Ok entity =>
          let identity := identity_work env normalized rd dnssec rec entity in
          let statusCheck := fetchAgentStatus env (StatusURI rec) in
          let reported := match statusCheck with Err e => Some e | Ok _ => None end in
          if done_waiting env then (Err ContextError, (if status_seen env then reported else None), false)
          else match join_results identity statusCheck with
               | Err e => (Err e, reported, false)
               | Ok (v, (st, statusCert)) =>
                   let vd := completed env rd rec (ekTLSCertificate v) v st statusCert in
                   if done_at_end env then (Err ContextError, None, false)
                   else match requireFreshIdentityEvidence (Some vd) true (now_fresh env) with
                        | Err e => (Err e, None, true)
                        | Ok _ => (Ok vd, None, false)
                        end
               end
      end
  end.

(** [verifyReusableDomain]: a cached result serves unless revalidating. *)
Definition verifyReusableDomain (env : evidence_env) (cfg : VerificationConfig) (normalized : string)
    (cachedDomain : option VerifiedDomain) : res VerifiedDomain * option error * bool :=
  match cachedDomain with
  | Some vd => if negb (env_revalidate env) then (Ok vd, None, false) else acquire env cfg normalized
  | None => acquire env cfg normalized
  end.

(** ** One invocation: cache hits, shared work, per-call policy *)

(** The work of a status refresh: on the entry the cache holds by then, or on
    the one the caller started from. The error is reported to
    [invalidateNonActiveDomain]. *)
Record refresh_env := {
  current : option VerifiedDomain;       (* [m.cachedDomain(domain)] *)
  now_needs : time;                      (* in [cachedStatusNeedsRefresh] *)
  now_refreshed : time;                  (* [lastStatusCheckAt] *)
  refresh_done : bool;                   (* [sharedCtx.Err()] *)
  now_refresh_fresh : time
}.
Definition with_status (st : AgentStatus) (cert : option TLSCertificate) (now : time) (v : VerifiedDomain) : VerifiedDomain :=
  {| Domain.domain := Domain.domain v; record := record v; keySet := keySet v; recordSigningKeySet := recordSigningKeySet v;
     Domain.kuKey := Domain.kuKey v; Domain.signingKey := Domain.signingKey v;
     Domain.signingKeyThumbprint := Domain.signingKeyThumbprint v; Domain.status := Some st; dnssecState := dnssecState v;
     verifiedAt := verifiedAt v; acquiredAt := acquiredAt v; lastStatusCheckAt := now; dnsTTL := dnsTTL v;
     dnsExpiresAt := dnsExpiresAt v; jwksTLSCertificate := jwksTLSCertificate v;
     ekTLSCertificate := ekTLSCertificate v; statusTLSCertificate := cert; Domain.keyBoundAt := Domain.keyBoundAt v;
     Domain.operationalKeyThumbprint := Domain.operationalKeyThumbprint v; logReader := logReader v; expiry := expiry v;
     cachedState := "refreshed"; cacheInvalidated := cacheInvalidated v |}.

(** A nil [record] would be dereferenced; every cached entry has one, and here
    the fetch then has no URL. *)
Definition status_url (v : VerifiedDomain) : string := match record v with Some rec => StatusURI rec | None => EmptyString end.

Definition status_work (env : evidence_env) (renv : refresh_env) (cfg : VerificationConfig) (vd : VerifiedDomain)
    : res VerifiedDomain * option error :=
  let refresh base :=
    match fetchAgentStatus env (status_url base) with
    | Err e => (Err e, Some e)
    | Ok (st, cert) =>
        let updated := with_status st cert (now_refreshed renv) base in
        if refresh_done renv then (Err ContextError, None)
        else match requireFreshIdentityEvidence (Some updated) false (now_refresh_fresh renv) with
             | Err e => (Err e, None)
             | Ok _ => (Ok updated, None)
             end
    end in
  match current renv with
  | Some cur =>
      if (0 <? StatusCheckInterval cfg) && negb (cachedStatusNeedsRefresh (StatusCheckInterval cfg) (Some cur) (now_needs renv))
      then (Ok cur, None) else refresh cur
  | None => refresh vd
  end.

(** What one invocation meets: the cache, the shared work's answer to this
    caller ([Coalesce.answer], or its own cancelled context), and its clock. *)
Record invocation := {
  inv_cached : option VerifiedDomain;
  inv_shared : res VerifiedDomain;
  inv_refreshed : res VerifiedDomain;
  inv_chains : list (option (string -> bool));
  inv_now_needs : time;
  inv_done : bool;                       (* [ctx.Err()] in the deferred checks *)
  inv_now_final : time
}.

Definition refreshCachedStatusIfNeeded (cfg : VerificationConfig) (inv : invocation) (vd : VerifiedDomain) : res VerifiedDomain :=
  if negb (cachedStatusNeedsRefresh (StatusCheckInterval cfg) (Some vd) (inv_now_needs inv)) then Ok vd
  else match NormalizeFQDN (Domain.domain vd) with
       | Err e => Err (WithCause (ArgumentError "dnsid: invalid cached domain") e)
       | Ok _ => inv_refreshed inv
       end.

Definition verifyCachedDomain (cfg : VerificationConfig) (inv : invocation) (domain : string) (vd : VerifiedDomain)
    (acceptance : bool) : res VerifiedDomain :=
  (if acceptance then enforcePerCallPolicy (record vd) domain (inv_chains inv) else Ok tt) ;;
  refreshCachedStatusIfNeeded cfg inv vd.

Definition verify_body (cfg : VerificationConfig) (inv : invocation) (domain : string) (acceptance refresh : bool)
    : res VerifiedDomain :=
  match NormalizeFQDN domain with
  | Err e => Err (WithCause (ArgumentError "dnsid: invalid domain") e)
  | Ok normalized =>
      let shared :=
        vd ← inv_shared inv;
        if str_eqb (cachedState vd) "cached" then verifyCachedDomain cfg inv normalized vd acceptance
        else (if acceptance then enforcePerCallPolicy (record vd) normalized (inv_chains inv) else Ok tt) ;; Ok vd in
      match (if refresh then None else inv_cached inv) with
      | Some vd => verifyCachedDomain cfg inv normalized vd acceptance
      | None => shared
      end
  end.

(** The body, then the deferred checks. *)
Definition verifyDomain (cfg : VerificationConfig) (inv : invocation) (domain : string) (acceptance refresh : bool)
    : res VerifiedDomain :=
  vd ← verify_body cfg inv domain acceptance refresh;
  fail_if inv_done inv with ContextError ;;
  (if acceptance then enforceCounterpartyAcceptance cfg (Some vd) else Ok tt) ;;
  requireFreshIdentityEvidence (Some vd) (str_eqb (cachedState vd) "fresh") (inv_now_final inv) ;;
  Ok vd.

Definition VerifyDomainWithOptions cfg inv domain := verifyDomain cfg inv domain true false.
Definition without_chains (inv : invocation) : invocation :=
  {| inv_cached := inv_cached inv; inv_shared := inv_shared inv; inv_refreshed := inv_refreshed inv; inv_chains := [];
     inv_now_needs := inv_now_needs inv; inv_done := inv_done inv; inv_now_final := inv_now_final inv |}.
Definition VerifyDomain cfg inv domain := VerifyDomainWithOptions cfg (without_chains inv) domain.
Definition RefreshDomain cfg inv domain := verifyDomain cfg inv domain true true.
Definition VerifyLocalPublication cfg inv (identity_Domain : string) : res VerifiedDomain :=
  fail_if is_empty identity_Domain with ArgumentError "dnsid: local publication verification requires a local identity" ;;
  verifyDomain cfg (without_chains inv) identity_Domain false true.
End manager.
