(* ===== verification/ManagerSpec.v ===== *)
(** * ManagerSpec: what a verified domain is evidence of

    [verified] is the specification of a full verification: the parts of the
    evidence and how they fit together. [acquire] refines it with any reader
    of the log that keeps [LifecycleEvidence]; the client of c2sp-tlog is one
    (ReaderSpec.v). The invocation boundary [verifyDomain] adds the acceptance
    of the counterparty, the peer chains of [fl=mtls] and freshness. *)

From Stdlib Require Import ZArith Lia Ascii String.
From S2P Require Import Prelude Codec Evidence Json Keys Fqdn Lifecycle LogReader TxtRecord Reference KeyRing KeyRingSpec Jwks Domain Fetch Cache Manager.

Open Scope Z_scope.

(** The DNSSEC states a mode lets pass. *)
Definition dnssec_allowed (mode state : string) : Prop :=
  state ∈ [EmptyString; DNSSECStateUnknown; DNSSECStateUnsigned; DNSSECStateValid] /\
  (mode = DNSSECModeValidated -> state ∈ [DNSSECStateUnsigned; DNSSECStateValid]) /\
  (mode = DNSSECModeRequired -> state = DNSSECStateValid) /\
  mode ∈ [EmptyString; DNSSECModeAuto; DNSSECModeValidated; DNSSECModeRequired].

Section spec.
Context {key : Type} `{!KeyOps key} `{!JwkLib key} `{!JwkSetLib key} `{!CloneLib key}
  {I : Idna} {U : NetURL} {TT : TimeText}.
Abbreviation LogReader := (LogReader (key:=key)).
Abbreviation VerifiedDomain := (VerifiedDomain key LogReader).
Abbreviation evidence_env := (evidence_env (key:=key)).
Implicit Types (env : evidence_env) (cfg : VerificationConfig) (vd : VerifiedDomain) (rec : TXTRecord).

(** The evidence behind [vd], of the domain [d], the log consulted at [t]:
    [known ref] are the histories that the log [ref] vouches for. *)
Record verified env cfg d (t : time) (known : string -> string -> list (LogEvent key) -> Prop) vd rec (signing ku : key) : Prop := {
  ev_shape : Domain.domain vd = d /\ record vd = Some rec /\ Domain.signingKey vd = Some signing /\ Domain.kuKey vd = Some ku;
  (* one TXT record, acceptably resolved, well formed and valid for the name *)
  ev_dns : exists rd, FetchTXT env (dnsName d) = ([rd], dnssecState vd, None) /\
    dnssec_allowed (DNSSECMode cfg) (dnssecState vd) /\ 0 <= rd_TTL rd /\
    ParseTXTRecord (rd_Value rd) = Ok rec /\ txt_Validate (Some rec) d = Ok tt /\
    dnsTTL vd = rd_TTL rd /\ dnsExpiresAt vd = acquiredAt vd + rd_TTL rd;
  (* signed by the one current key served under the governance identifier *)
  ev_entity : exists set cert, fetchJWKS env AtEntityKeys (EntityKeyURI rec) (GovernanceID rec) true = Ok (set, cert) /\
    valid_set set /\ current_key set signing /\
    (exists sig, Base64.decode false (TxtRecord.Signature rec) = Some sig /\ signs_record signing rec sig) /\
    jwk_Thumbprint (Some signing) = Ok (Domain.signingKeyThumbprint vd);
  (* one current operational key, served by the domain, another key *)
  ev_operational : exists set cert, fetchJWKS env AtOperationalKeys (KeyURI rec) d false = Ok (set, cert) /\
    current_key set ku /\ jwk_Thumbprint (Some ku) = Ok (Domain.operationalKeyThumbprint vd) /\
    Domain.signingKeyThumbprint vd <> Domain.operationalKeyThumbprint vd;
  (* a history known to the record's log binds the record's key and governance to it *)
  ev_log : exists events, known (LogRef rec) d events /\
    lifecycle_bound events {| in_Domain := d; in_GovernanceID := GovernanceID rec; in_EntityKey := Some signing;
      in_OperationalKey := Some ku |} (Domain.operationalKeyThumbprint vd) t;
  ev_age : KeyAge rec = EmptyString \/
    exists age, parseKeyAgeDuration (KeyAge rec) = Ok age /\ time_sub (now_age env) (Domain.keyBoundAt vd) <= age;
  (* the status document says ACTIVE *)
  ev_status : exists st cert, env_FetchJSON env AtStatus (StatusURI rec)
      {| AllowedHost := hostname_of (StatusURI rec); DomainBoundary := false; MaxResponseBytes := 65536;
         RedirectPolicy := RedirectPolicyHTTPS; Revalidate := env_revalidate env |} = Ok cert /\
    Domain.status vd = Some st /\ unmarshal_status cert.1 = Some st /\
    State st = state_string AgentStateActive /\ 0 <> LastTransitionAt st /\ LastTransitionAt st <= now_status env;
  ev_fresh : requireFreshIdentityEvidence (Some vd) true (now_fresh env) = Ok tt
}.

(** ** The parts *)
Lemma dnssec_policy_spec mode state : enforceDNSSECPolicy mode state = Ok tt -> dnssec_allowed mode state.
Proof.
  unfold enforceDNSSECPolicy, dnssec_allowed. intros H.
  set (st := if is_empty state then DNSSECStateUnknown else state) in H.
  assert (state = EmptyString /\ st = DNSSECStateUnknown \/ state = st) as Hst.
  { unfold st, is_empty. destruct (bool_decide_reflect (state = EmptyString)); auto. }
  destruct (bool_decide (st ∈ _)) eqn:Ein; [|done]. cbn [negb] in H.
  destruct (str_eqb st DNSSECStateFailed) eqn:Ef; [done|].
  apply bool_decide_eq_true in Ein. apply str_eqb_neq in Ef.
  set (md := if is_empty mode then DNSSECModeAuto else mode) in H.
  assert (mode = EmptyString /\ md = DNSSECModeAuto \/ mode = md) as Hmd.
  { unfold md, is_empty. destruct (bool_decide_reflect (mode = EmptyString)); auto. }
  clearbody st md. rewrite !elem_of_cons in Ein.
  destruct (str_eqb md DNSSECModeAuto) eqn:E1; [apply str_eqb_eq in E1 as ->; rewrite !elem_of_cons; naive_solver|].
  destruct (str_eqb md DNSSECModeValidated) eqn:E2.
  { apply str_eqb_eq in E2 as ->. destruct (str_eqb st DNSSECStateUnknown) eqn:E3; [done|].
    apply str_eqb_neq in E3. rewrite !elem_of_cons. naive_solver. }
  destruct (str_eqb md DNSSECModeRequired) eqn:E3; [|done]. apply str_eqb_eq in E3 as ->.
  destruct (str_eqb st DNSSECStateValid) eqn:E4; [|done]. apply str_eqb_eq in E4 as ->.
  rewrite !elem_of_cons. naive_solver.
Qed.

Lemma only_record_facts rdatas d rd rec :
  only_record rdatas d = Ok (rd, rec) ->
  rdatas = [rd] /\ 0 <= rd_TTL rd /\ ParseTXTRecord (rd_Value rd) = Ok rec /\ txt_Validate (Some rec) d = Ok tt.
Proof.
  unfold only_record. destruct rdatas as [|x [|]]; [done| |done].
  destruct (rd_TTL x <? 0) eqn:Et; [done|]. destruct (65535 <? _); [done|]. cbn [orb].
  destruct (ParseTXTRecord _) as [r|] eqn:Er; [|done]. destruct (txt_Validate _ d) as [[]|] eqn:Ev; [|done].
  intros [= -> ->]. by apply Z.ltb_ge in Et.
Qed.

Lemma dns_evidence_facts env cfg d rd dnssec rec :
  dns_evidence env cfg d = Ok (rd, dnssec, rec) ->
  FetchTXT env (dnsName d) = ([rd], dnssec, None) /\ dnssec_allowed (DNSSECMode cfg) dnssec /\ 0 <= rd_TTL rd /\
  ParseTXTRecord (rd_Value rd) = Ok rec /\ txt_Validate (Some rec) d = Ok tt.
Proof.
  unfold dns_evidence. destruct (FetchTXT env (dnsName d)) as [[rdatas st] err].
  assert (forall rds, (enforceDNSSECPolicy (DNSSECMode cfg) st ;; '(rd, rec) ← only_record rds d; Ok (rd, st, rec)) = Ok (rd, dnssec, rec) ->
    rds = [rd] /\ st = dnssec /\ dnssec_allowed (DNSSECMode cfg) dnssec /\ 0 <= rd_TTL rd /\
        ParseTXTRecord (rd_Value rd) = Ok rec /\ txt_Validate (Some rec) d = Ok tt) as Hrun.
  { intros rds H. destruct (enforceDNSSECPolicy _ _) as [[]|] eqn:Ep; [|done]. apply dnssec_policy_spec in Ep.
    cbn [mbind res_bind] in H. destruct (only_record rds d) as [[x r]|] eqn:Eo; [|done].
    apply only_record_facts in Eo as (-> & ? & ? & ?). by injection H as -> -> ->. }
  destruct err as [e|].
  - destruct (isDNSNotFound e); intros H.
    + by apply Hrun in H as (? & _).
    + destruct (negb _); [done|]. by destruct (enforceDNSSECPolicy _ _).
  - by intros (-> & -> & H)%Hrun.
Qed.

Lemma entity_evidence_facts env rec set cert signing thumb :
  entity_evidence env rec = Ok (set, cert, signing, thumb) ->
  fetchJWKS env AtEntityKeys (EntityKeyURI rec) (GovernanceID rec) true = Ok (set, cert) /\
  valid_set set /\ current_key set signing /\
  (exists sig, Base64.decode false (TxtRecord.Signature rec) = Some sig /\ signs_record signing rec sig) /\
  jwk_Thumbprint (Some signing) = Ok thumb.
Proof.
  unfold entity_evidence. destruct (fetchJWKS _ _ _ _ _) as [[s c]|]; [|done].
  destruct (singleDraft01SigningKey _); [|done].
  destruct (verifiedRecordSigningKey _ _) as [k|] eqn:Ek; [|done]. cbn [mbind res_bind].
  destruct (jwk_Thumbprint _) as [t|] eqn:Et; [|done]. intros [= -> -> -> ->].
  apply verified_key_spec in Ek as (_ & Hset & Hk & _ & _ & Hsig). done.
Qed.

Lemma operational_evidence_facts env rec d ek set cert ku thumb :
  operational_evidence env rec d ek = Ok (set, cert, ku, thumb) ->
  fetchJWKS env AtOperationalKeys (KeyURI rec) d false = Ok (set, cert) /\
  current_key set ku /\ jwk_Thumbprint (Some ku) = Ok thumb /\ ek <> thumb.
Proof.
  unfold operational_evidence. destruct (fetchJWKS _ _ _ _ _) as [[s c]|]; [|done].
  destruct (singleDraft01SigningKey _) as [k|] eqn:Ek; [|done].
  destruct (jwk_Thumbprint _) as [t|] eqn:Et; [|done]. unfold rejectIfEKKUCollide.
  destruct (str_eqb ek t) eqn:E; [done|]. cbn [mbind res_bind]. intros [= -> -> -> ->].
  apply singleDraft01SigningKey_spec in Ek. by apply str_eqb_neq in E.
Qed.

(** The record policy: the binding by either interface, and the key's age. *)
Lemma record_policy_facts env (reader : LogReader) rec d ek ku signing kuKey t known bound :
  LifecycleEvidence reader t known ->
  enforceRecordPolicy env reader rec d ek ku signing kuKey = Ok bound ->
  (exists events, known d events /\
    lifecycle_bound events {| in_Domain := d; in_GovernanceID := GovernanceID rec; in_EntityKey := signing; in_OperationalKey := kuKey |} ku t) /\
  (KeyAge rec = EmptyString \/
   exists age, parseKeyAgeDuration (KeyAge rec) = Ok age /\ time_sub (now_age env) bound <= age).
Proof.
  intros Hev. unfold enforceRecordPolicy. destruct (if negb (is_empty (gi_domain _)) && _ then _ else _); [|done].
  cbn [mbind res_bind]. unfold mbind at 1, res_bind.
  match goal with |- match ?m with _ => _ end = _ -> _ => destruct m as [b|] eqn:Ea end; [|done].
  destruct signing as [k|]; [|done]. intros H.
  assert (KeyAge rec = EmptyString \/
    exists age, parseKeyAgeDuration (KeyAge rec) = Ok age /\ time_sub (now_age env) b <= age) as Hage.
  { destruct (is_empty (KeyAge rec)) eqn:Ee; [left; by apply is_empty_true|]. right. cbn [negb] in Ea.
    destruct (lr_KeyTimestamp _ _ _) as [kb|]; [|done].
    destruct (parseKeyAgeDuration _) as [age|]; [|done]. destruct (age <? _) eqn:El; [done|].
    injection Ea as <-. exists age. by apply Z.ltb_ge in El. }
  destruct (lr_VerifyLifecycleBinding reader) as [f|] eqn:Ef.
  - destruct (f _ ku) as [x|] eqn:Eb; [|done]. injection H as <-. split; [|done].
    by eapply (lifecycle_binding_sound (r := reader) f {| in_Domain := d |}).
  - destruct (lr_VerifyBilateralBinding reader _) as [x|] eqn:Eb; [|done].
    destruct (lr_VerifyOperationalContinuity _ _ _ _) as [[]|] eqn:Ec; [|done]. injection H as <-. split; [|done].
    by eapply (separate_bindings_sound (r := reader) {| in_Domain := d |}).
Qed.

Lemma status_facts env url st cert :
  fetchAgentStatus env url = Ok (st, cert) ->
  exists msg, env_FetchJSON env AtStatus url
      {| AllowedHost := hostname_of url; DomainBoundary := false; MaxResponseBytes := 65536;
         RedirectPolicy := RedirectPolicyHTTPS; Revalidate := env_revalidate env |} = Ok (msg, cert) /\
    unmarshal_status msg = Some st /\ State st = state_string AgentStateActive /\
    0 <> LastTransitionAt st /\ LastTransitionAt st <= now_status env.
Proof.
  unfold fetchAgentStatus. change (Z.shiftl 64 10) with 65536.
  destruct (env_FetchJSON _ _ _ _) as [[msg c]|e]; [|by destruct (isTLSError e)].
  destruct (unmarshal_status msg) as [s|] eqn:Eu; [|done].
  destruct (activeStatus s (now_status env)) as [s'|] eqn:Ea; [|done]. cbn [mbind res_bind]. intros [= <- <-].
  exists msg. unfold activeStatus in Ea.
  destruct (status_Validate (Some s)) as [[]|] eqn:Ev; [|done].
  destruct (str_eqb (State s) _) eqn:Es; [|done]. cbn [negb] in Ea.
  destruct (after _ _) eqn:El; [done|]. injection Ea as <-. apply str_eqb_eq in Es.
  assert (time_is_zero (LastTransitionAt s) = false) as Hz.
  { unfold status_Validate in Ev. rewrite !fail_if_ok in Ev. by destruct Ev as (_ & _ & ? & _). }
  unfold time_is_zero, after in *. split_and!; try done; lia.
Qed.
(** Every reader the registry hands out for the log of a record keeps the
    evidence at [t], preloaded or not. *)
Definition readers_sound env d t (known : string -> string -> list (LogEvent key) -> Prop) : Prop :=
  forall ref r, logReaderFor env ref = Ok r ->
    LifecycleEvidence r t (known ref) /\
    forall preload r', PreloadHistory env r = Some preload -> preload d = Ok r' -> LifecycleEvidence r' t (known ref).

Lemma identity_work_facts env d t known rd dnssec rec set cert signing thumb v :
  readers_sound env d t known ->
  identity_work env d rd dnssec rec (set, cert, signing, thumb) = Ok v ->
  exists kuSet kuCert ku kuThumb,
    operational_evidence env rec d thumb = Ok (kuSet, kuCert, ku, kuThumb) /\
    (exists events, known (LogRef rec) d events /\
      lifecycle_bound events {| in_Domain := d; in_GovernanceID := GovernanceID rec; in_EntityKey := Some signing;
        in_OperationalKey := Some ku |} kuThumb t) /\
    (KeyAge rec = EmptyString \/
     exists age, parseKeyAgeDuration (KeyAge rec) = Ok age /\ time_sub (now_age env) (Domain.keyBoundAt v) <= age) /\
    Domain.domain v = d /\ record v = Some rec /\ Domain.signingKey v = Some signing /\ Domain.kuKey v = Some ku /\
    Domain.signingKeyThumbprint v = thumb /\ Domain.operationalKeyThumbprint v = kuThumb /\
    dnssecState v = dnssec /\ dnsTTL v = rd_TTL rd.
Proof.
  intros Hr. unfold identity_work.
  destruct (operational_evidence _ _ _ _) as [[[[kuSet kuCert] ku] kuThumb]|e].
  2:{ destruct (preload_done _ _ _); [done|]. by destruct (is_canceled e). }
  unfold preload_done. destruct (logReaderFor env (LogRef rec)) as [r0|] eqn:El; [|done]. cbn [mbind res_bind].
  destruct (Hr _ _ El) as [H0 Hp].
  assert (exists r r1, match PreloadHistory env r0 with
      | None => Ok (r0, r0)
      | Some preload => match preload d with Ok reader => Ok (reader, r0) | Err e => Err (dnsid_logVerificationError e) end
      end = Ok (r, r1) /\ LifecycleEvidence r t (known (LogRef rec)) \/
      exists e, match PreloadHistory env r0 with
      | None => Ok (r0, r0)
      | Some preload => match preload d with Ok reader => Ok (reader, r0) | Err e => Err (dnsid_logVerificationError e) end
      end = Err (A := LogReader * LogReader) e) as (r & r1 & [[-> Hl]|[e ->]]); [| |done].
  { destruct (PreloadHistory env r0) as [preload|]; [|by exists r0, r0; left].
    destruct (preload d) as [r'|e] eqn:E; [exists r', r0; left; by split; [|by eapply Hp]|exists r0, r0; right; by eexists]. }
  cbn [mbind res_bind].
  destruct (enforceRecordPolicy _ _ _ _ _ _ _ _) as [bound|] eqn:E; [|done]. cbn [mbind res_bind]. intros [= <-].
  apply (record_policy_facts _ _ _ _ _ _ _ _ t (known (LogRef rec))) in E as [Hb Ha]; [|done].
  exists kuSet, kuCert, ku, kuThumb. cbn. done.
Qed.

(** C1: a domain that passes a full verification is what the protocol
    requires. Exactly one TXT record was found, in a DNSSEC state the
    configured mode allows; it parses and is valid for the name, and its
    signature verifies under the one current key of the set served under its
    governance identifier. The domain serves one current operational key,
    different from that key; a history of the domain known to the log that the
    record names begins with an ISSUANCE of the record's entity key and
    governance, and its rotations lead from there to this key, with no
    revocation or retirement in it before the check; the key is within the age the record allows; the
    status document says ACTIVE since a time not in the future; and the
    evidence is still fresh at the end. Any readers of the log will do that
    promise to accept bindings of histories they know only, whatever it takes
    for a history to be known. *)
Theorem verified_domain_evidence env cfg d t known vd reported evicted :
  readers_sound env d t known ->
  acquire env cfg d = (Ok vd, reported, evicted) ->
  exists rec signing ku, verified env cfg d t known vd rec signing ku.
Proof.
  intros Hr. unfold acquire.
  destruct (dns_evidence env cfg d) as [[[rd dnssec] rec]|] eqn:Ed; [|done].
  destruct (entity_evidence env rec) as [[[[set cert] signing] thumb]|] eqn:Ee; [|done].
  destruct (done_waiting env); [done|].
  destruct (identity_work env d rd dnssec rec _) as [v|ie] eqn:Ei.
  2:{ cbn [join_results]. destruct (fetchAgentStatus _ _) as [|se]; [done|].
      destruct (negb _); [done|]. by destruct (negb _). }
  destruct (fetchAgentStatus env (StatusURI rec)) as [[st statusCert]|] eqn:Es; [|done]. cbn [join_results].
  destruct (done_at_end env); [done|].
  destruct (requireFreshIdentityEvidence _ true _) as [[]|] eqn:Ef; [|done].
  intros H. assert (completed env rd rec (ekTLSCertificate v) v st statusCert = vd) as <- by congruence. clear H.
  apply dns_evidence_facts in Ed as (D1 & D2 & D3 & D4 & D5).
  apply entity_evidence_facts in Ee as (E1 & E2 & E3 & E4 & E5).
  apply (identity_work_facts _ _ t known) in Ei as (kuSet & kuCert & ku & kuThumb & Eo & Hb & Ha & V1 & V2 & V3 & V4 & V5 & V6 & V7 & V8); [|done].
  apply operational_evidence_facts in Eo as (O1 & O2 & O3 & O4).
  apply status_facts in Es as (msg & S1 & S2 & S3 & S4 & S5).
  exists rec, signing, ku. split; [..|exact Ef]; cbn; rewrite ?V1, ?V2, ?V3, ?V4, ?V5, ?V6, ?V7, ?V8; try done.
  - exists rd. by rewrite D1.
  - by exists set, cert.
  - by exists kuSet, kuCert.
  - by exists st, (msg, statusCert).
Qed.

(** ** The invocation *)
(** What a configured allowlist asks of a verified domain: the first entry for
    its governance identifier has no pins, or pins its signing key. *)
Definition accepted (entities : list TrustedEntity) (gi thumbprint : string) : Prop :=
  exists pre e post, entities = pre ++ e :: post /\ Forall (fun e => te_GovernanceID e <> gi) pre /\ te_GovernanceID e = gi /\
    (EntityKeyThumbprints e = None \/
     exists pins, EntityKeyThumbprints e = Some pins /\ thumbprint ∈ pins /\ thumbprint <> EmptyString).

Lemma accepted_entity_spec gi thumb entities : accepted_entity gi thumb entities = Ok tt <-> accepted entities gi thumb.
Proof.
  induction entities as [|e entities IH]; cbn [accepted_entity].
  - split; [done|]. by intros ([|] & ? & ? & ? & _).
  - destruct (str_eqb (te_GovernanceID e) gi) eqn:E; cbn [negb].
    + apply str_eqb_eq in E. split.
      * intros H. exists [], e, entities. split_and!; try done.
        destruct (EntityKeyThumbprints e) as [pins|]; [|by left]. right. exists pins.
        destruct (existsb _ pins) eqn:Ex; [|done]. apply existsb_exists in Ex as (pin & Hin & Hb).
        apply andb_true_iff in Hb as [Hb1 Hb2]. apply str_eqb_eq in Hb1 as ->. apply negb_true_iff, is_empty_false in Hb2.
        by rewrite list_elem_of_In.
      * intros ([|x pre] & e' & post & Heq & Hpre & He & Hp); injection Heq as -> ->.
        2:{ by inversion Hpre. }
        destruct Hp as [->|(pins & -> & Hin & Hne)]; [done|].
        replace (existsb _ pins) with true; [done|]. symmetry. apply existsb_exists. exists thumb.
        rewrite <- list_elem_of_In. split; [done|]. apply andb_true_iff. rewrite str_eqb_eq, negb_true_iff.
        by split; [|apply is_empty_false].
    + apply str_eqb_neq in E. rewrite IH. split.
      * intros (pre & x & post & -> & Hpre & H). exists (e :: pre), x, post. split; [done|]. split; [by constructor|done].
      * intros ([|x pre] & y & post & [= -> ->] & Hpre & He & Hp); [done|]. exists pre, y, post.
        by inversion Hpre.
Qed.

End spec.
