(* ===== verification/ManagerDemo.v ===== *)
(** * ManagerDemo: one identity verified from end to end

    The record of [agent.example.com], signed by the entity key of the
    lifecycle history of ClientDemo.v and published with the rotated
    operational key; the log is read by the client of c2sp-tlog. *)

From Stdlib Require Import ZArith Lia Ascii String.
From S2P Require Import Cache.
From S2P Require Import Prelude Codec Utf8 Numbers Jcs JcsSpec Keys Fqdn Lifecycle LogReader TxtRecord Merkle Evidence Reference Policy Checkpoint Scan Event EventSpec Replay ReplaySpec AppendSpec Client Reader ReaderSpec Demo ClientDemo Json KeyRing KeyRingSpec Jwks Domain Fetch Manager ManagerSpec.

Open Scope Z_scope.

#[local] Existing Instance log_notes.
#[local] Existing Instance rfc6962_tlog.
#[local] Existing Instance demo_lib.

(** Key sets of raw JSON keys. *)
Definition json_string (name : string) (fields : list (string * json)) : string :=
  match first_some (fun f => if str_eqb f.1 name then Some f.2 else None) fields with
  | Some (JString s) => s | _ => EmptyString end.
Definition key_of_json (j : json) : option demo_key :=
  match j with
  | JObject fields => x ← Base64.decode false (json_string "x" fields); Some {| demo_kid := json_string "kid" fields; demo_pub := x |}
  | _ => None
  end.
#[export] Instance demo_key_set_lib : JwkSetLib demo_key := {
  key_operations _ := None;
  jwk_Parse j := match j with JObject [("keys"%string, JArray raws)] => Some (omap key_of_json raws) | _ => None end
}.
#[export] Instance demo_time_text : TimeText := {
  time_UnmarshalJSON j := match j with JString s => n ← parse_uint 63 s; Some (time_Unix (Z.of_N n)) | _ => None end
}.

Definition key_set (k : demo_key) : content :=
  Doc (JObject [("keys"%string, JArray [JObject
    [("kty"%string, JString "OKP"); ("crv"%string, JString "Ed25519"); ("kid"%string, JString (demo_kid k));
     ("alg"%string, JString "EdDSA"); ("use"%string, JString "sig"); ("x"%string, JString (Base64.encode (demo_pub k)))]])]).
Definition status_doc : content :=
  Doc (JObject [("state"%string, JString "ACTIVE"); ("lastTransitionAt"%string, JString "1000")]).

(** The record without its signature, then with it. *)
Definition unsigned_text (flags : string) : string :=
  String.append "v=DNSid1;gi=operator.example;ek=https://operator.example;ku=https://agent.example.com;lr=c2sp-tlog:x;su=https://agent.example.com;ka=90d;"
    (String.append flags "sg=").
Definition signed_text (flags : string) : string :=
  match ParseTXTRecord (String.append (unsigned_text flags) "AA") with
  | Ok rec => String.append (unsigned_text flags) (demo_sig demo_entity (CanonicalContent rec))
  | Err _ => ""
  end.

Definition log_reader : LogReader (key:=demo_key) :=
  let w := log_call log_at in client_reader (log_client 2) w w w w w None None None None None.

Definition identity_env (flags : string) : evidence_env (key:=demo_key) :=
  {| FetchTXT name := if str_eqb name "_dnsid.agent.example.com" then ([{| rd_Value := signed_text flags; rd_TTL := 300 * second |}], "UNSIGNED"%string, None)
                      else ([], "UNSIGNED"%string, Some (DNSError true false false));
     env_FetchJSON slot _ _ := Ok (match slot with AtEntityKeys => key_set demo_entity
       | AtOperationalKeys => key_set demo_ku2 | AtStatus => status_doc end, None);
     logReaderFor _ := Ok log_reader; PreloadHistory _ := None; env_revalidate := false;
     dnsAcquiredAt := log_at; now_age := log_at; now_status := log_at; now_done := log_at; now_fresh := log_at;
     done_waiting := false; status_seen := true; done_at_end := false |}.
Definition identity_config : VerificationConfig :=
  {| StatusCheckInterval := 0; DNSSECMode := "validated";
     TrustedEntities := Some [{| te_GovernanceID := "operator.example"; EntityKeyThumbprints := Some [thumb_of demo_entity] |}] |}.

Definition identity_name : string := "agent.example.com".
Definition identity_result (flags : string) : option (VerifiedDomain demo_key LogReader) :=
  match acquire (identity_env flags) identity_config identity_name with (Ok vd, None, false) => Some vd | _ => None end.

Lemma identity_result_Some flags vd :
  identity_result flags = Some vd -> acquire (identity_env flags) identity_config identity_name = (Ok vd, None, false).
Proof.
  unfold identity_result. destruct (acquire _ _ _) as [[[v|e] [e'|]] []]; intros H; try discriminate H.
  by injection H as ->.
Qed.
Lemma identity_found : exists vd, identity_result "" = Some vd.
Proof.
  assert (bool_decide (is_Some (identity_result "")) = true) as H by (vm_compute; reflexivity).
  by apply bool_decide_eq_true in H as [vd H]; exists vd.
Qed.
(** The histories that the client of this log rebuilds, under any reference. *)
Definition identity_known (ref : string) : string -> list (LogEvent demo_key) -> Prop :=
  rebuilt (log_client 2) (log_call log_at) None.
Lemma identity_readers flags : readers_sound (identity_env flags) identity_name log_at identity_known.
Proof. intros ref r [= <-]. split; [exact (client_evidence _ _ _ _ _ _ _ _ _ _ _)|done]. Qed.

Lemma verified_domain_evidence_witness :
  exists vd rec signing ku, acquire (identity_env "") identity_config identity_name = (Ok vd, None, false) /\
    verified (identity_env "") identity_config identity_name log_at identity_known vd rec signing ku.
Proof.
  destruct identity_found as [vd H]. apply identity_result_Some in H.
  destruct (verified_domain_evidence (identity_env "") identity_config identity_name log_at identity_known vd None false (identity_readers "") H)
    as (rec & signing & ku & Hv).
  exists vd, rec, signing, ku. exact (conj H Hv).
Defined.

(** A first lookup by a caller whose verification is shared with no one. *)
Definition first_call (vd : VerifiedDomain demo_key LogReader) : invocation :=
  {| inv_cached := None; inv_shared := Ok vd; inv_refreshed := Err ContextError; inv_chains := []; inv_now_needs := log_at;
     inv_done := false; inv_now_final := log_at |}.
Definition first_answer : option (VerifiedDomain demo_key LogReader) :=
  vd ← identity_result "";
  match VerifyDomainWithOptions identity_config (first_call vd) identity_name with Ok vd => Some vd | Err _ => None end.
Lemma first_answered : exists vd vd', identity_result "" = Some vd /\
  VerifyDomainWithOptions identity_config (first_call vd) identity_name = Ok vd'.
Proof.
  assert (bool_decide (is_Some first_answer) = true) as H by (vm_compute; reflexivity).
  apply bool_decide_eq_true in H as [v H]. unfold first_answer in H.
  destruct (identity_result "") as [vd|]; [|done]. cbn [mbind option_bind] in H. exists vd.
  destruct (VerifyDomainWithOptions _ _ _) as [vd'|]; [|done]. by exists vd'.
Qed.

(** ** A policy flag that arrives with a status refresh

    The peer's chains are checked against the record the caller found in the
    cache; the status refresh works on the record the cache holds by then. So
    a caller without any verified chain receives a record with [fl=mtls] that
    was published in between. *)
Definition refresh_of (cached : VerifiedDomain demo_key LogReader) : refresh_env :=
  {| current := Some cached; now_needs := log_at; now_refreshed := log_at; refresh_done := false; now_refresh_fresh := log_at |}.
Definition second_call (cached : VerifiedDomain demo_key LogReader) (refreshed : res (VerifiedDomain demo_key LogReader)) : invocation :=
  {| inv_cached := Some cached; inv_shared := Err ContextError; inv_refreshed := refreshed; inv_chains := [];
     inv_now_needs := log_at; inv_done := false; inv_now_final := log_at |}.
Definition overtaken : option (VerifiedDomain demo_key LogReader) :=
  old ← identity_result ""; new ← identity_result "fl=mtls;";
  let cached := with_state "cached" in
  match VerifyDomainWithOptions identity_config
          (second_call (cached old) (status_work (identity_env "fl=mtls;") (refresh_of (cached new)) identity_config (cached old)).1)
          identity_name with
  | Ok vd => if hasPolicyFlag (record vd) PolicyFlagMTLS then Some vd else None
  | Err _ => None
  end.
Theorem refreshed_record_skips_mtls :
  exists old new vd, identity_result "" = Some old /\ identity_result "fl=mtls;" = Some new /\
    let cached := with_state "cached" in
    VerifyDomainWithOptions identity_config
      (second_call (cached old) (status_work (identity_env "fl=mtls;") (refresh_of (cached new)) identity_config (cached old)).1)
      identity_name = Ok vd /\
    hasPolicyFlag (record vd) PolicyFlagMTLS = true /\
    is_ok (enforcePerCallPolicy (record vd) identity_name []) = false.
Proof.
  assert (bool_decide (is_Some overtaken) = true) as H by (vm_compute; reflexivity).
  apply bool_decide_eq_true in H as [v H]. unfold overtaken in H.
  destruct (identity_result "") as [old|]; [|done]. destruct (identity_result "fl=mtls;") as [new|]; [|done].
  cbn [mbind option_bind] in H. cbv zeta in H.
  destruct (VerifyDomainWithOptions _ _ _) as [vd|] eqn:E; [|done].
  destruct (hasPolicyFlag (record vd) PolicyFlagMTLS) eqn:Em; [|done].
  exists old, new, vd. split_and!; try done. unfold enforcePerCallPolicy. by rewrite Em.
Qed.
