(* ===== verification/NetHttp.v ===== *)
(** * NetHttp: what the sources use of net/http and net/url

    Headers, requests and responses as the HTTP signature profile sees them,
    and the functions of the Go standard library it calls on them: canonical
    header keys, [url.URL.EscapedPath], [RequestURI] and [String],
    [url.QueryUnescape], [net.SplitHostPort] and [strings.Trim]. *)

From Stdlib Require Import ZArith Lia Ascii String.
From S2P Require Import Prelude Codec Reference Fetch Domain.

Open Scope Z_scope.

(** ** strings *)
Fixpoint trim_start (p : ascii -> bool) (s : string) : string :=
  match s with
  | EmptyString => EmptyString
  | String a rest => if p a then trim_start p rest else s
  end.
Fixpoint trim_end (p : ascii -> bool) (s : string) : string :=
  match s with
  | EmptyString => EmptyString
  | String a rest => if forall_byte p s then EmptyString else String a (trim_end p rest)
  end.
(** [strings.Trim] with a cutset of ASCII bytes. *)
Definition Trim (p : ascii -> bool) (s : string) : string := trim_end p (trim_start p s).
Definition is_ows (c : ascii) : bool := Ascii.eqb c " " || Ascii.eqb c "009".
Definition TrimOWS : string -> string := Trim is_ows.

(** [strings.Join] with the separator [", "]. *)
Fixpoint join_comma (l : list string) : string :=
  match l with
  | [] => EmptyString
  | [s] => s
  | s :: l => String.append s (String "," (String " " (join_comma l)))
  end.

Definition has_prefix (p s : string) : bool := bool_decide (is_Some (strip_prefix p s)).

(** ** Headers: a map from keys to lists of values; [None] is a nil map *)
Definition is_token_byte (c : ascii) : bool :=
  let n := byte_val c in
  (65 <=? n) && (n <=? 90) || (97 <=? n) && (n <=? 122) || (48 <=? n) && (n <=? 57)
  || bool_decide (c ∈ (["!"; "#"; "$"; "%"; "&"; "'"; "*"; "+"; "-"; "."; "^"; "_"; "`"; "|"; "~"]%char : list ascii)).
Definition upper_byte (c : ascii) : ascii :=
  let n := byte_val c in if (97 <=? n) && (n <=? 122) then byte_of (n - 32) else c.
Fixpoint canonical_key (upper : bool) (s : string) : string :=
  match s with
  | EmptyString => EmptyString
  | String a s => String (if upper then upper_byte a else lower_byte a) (canonical_key (Ascii.eqb a "-") s)
  end.
(** [http.CanonicalHeaderKey]. *)
Definition CanonicalHeaderKey (s : string) : string :=
  if forall_byte is_token_byte s then canonical_key true s else s.

Definition Header := option (gmap string (list string)).
Definition header_map (h : Header) : gmap string (list string) := default ∅ h.
Definition Values (h : Header) (name : string) : list string := default [] (header_map h !! CanonicalHeaderKey name).
Definition Header_Get (h : Header) (name : string) : string := default EmptyString (head (Values h name)).
(** [Header.Set]; on a nil map it panics, and the callers make the map first. *)
Definition Set_header (h : Header) (name value : string) : Header := Some (<[CanonicalHeaderKey name := [value]]> (header_map h)).

(** ** URLs of requests *)
Record RequestURL := {
  u_Scheme : string; u_Opaque : string; u_User : bool; u_Host : string; u_Path : string; u_RawPath : string;
  u_ForceQuery : bool; u_RawQuery : string; u_OmitHost : bool
}.

Inductive encoding := encodePath | encodeHost.
#[export] Instance encoding_eq_dec : EqDecision encoding.
Proof. solve_decision. Defined.
Definition in_set (cs : string) (c : ascii) : bool := has_byte c cs.
Definition shouldEscape (c : ascii) (mode : encoding) : bool :=
  if is_alnum c then false
  else if bool_decide (mode = encodeHost) && (in_set "!$&'()*+,;=:[]<>" c || Ascii.eqb c "034") then false
  else if in_set "-_.~" c then false
  else if in_set "$&+,/:;=?@" c then
    match mode with encodePath => Ascii.eqb c "?" | encodeHost => true end
  else true.
Definition hex_digit (n : Z) : ascii := byte_of (if n <? 10 then 48 + n else 55 + n).
Definition percent (c : ascii) : string :=
  String "%" (String (hex_digit (byte_val c / 16)) (String (hex_digit (byte_val c mod 16)) EmptyString)).
Fixpoint escape (s : string) (mode : encoding) : string :=
  match s with
  | EmptyString => EmptyString
  | String c s => if shouldEscape c mode then String.append (percent c) (escape s mode) else String c (escape s mode)
  end.
Definition hex_value (c : ascii) : option Z :=
  let n := byte_val c in
  if (48 <=? n) && (n <=? 57) then Some (n - 48)
  else if (65 <=? n) && (n <=? 70) then Some (n - 55)
  else if (97 <=? n) && (n <=? 102) then Some (n - 87) else None.
(** [unescape]: of a path, or with [plus] of a query component. *)
Fixpoint unescape (plus : bool) (s : string) : option string :=
  match s with
  | EmptyString => Some EmptyString
  | String "%" (String a (String b s)) =>
      x ← hex_value a; y ← hex_value b; r ← unescape plus s; Some (String (byte_of (16 * x + y)) r)
  | String "%" _ => None
  | String c s => r ← unescape plus s; Some (String (if plus && Ascii.eqb c "+" then " "%char else c) r)
  end.
Definition QueryUnescape : string -> option string := unescape true.

Definition validEncoded (s : string) (mode : encoding) : bool :=
  forall_byte (fun c => in_set "!$&'()*+,;=:@[]%" c || negb (shouldEscape c mode)) s.
Definition url_EscapedPath (u : RequestURL) : string :=
  if negb (is_empty (u_RawPath u)) && validEncoded (u_RawPath u) encodePath
     && bool_decide (unescape false (u_RawPath u) = Some (u_Path u)) then u_RawPath u
  else if str_eqb (u_Path u) "*" then "*"%string else escape (u_Path u) encodePath.

Definition query_suffix (u : RequestURL) : string :=
  if u_ForceQuery u || negb (is_empty (u_RawQuery u)) then String "?" (u_RawQuery u) else EmptyString.
Definition RequestURI (u : RequestURL) : string :=
  let result := if is_empty (u_Opaque u) then let p := url_EscapedPath u in if is_empty p then "/"%string else p
    else if has_prefix "//" (u_Opaque u) then String.append (u_Scheme u) (String ":" (u_Opaque u)) else u_Opaque u in
  String.append result (query_suffix u).

(** [URL.String] of a URL without userinfo and fragment. *)
Definition url_String (u : RequestURL) : string :=
  let scheme := if is_empty (u_Scheme u) then EmptyString else String.append (u_Scheme u) ":" in
  let rest := if negb (is_empty (u_Opaque u)) then u_Opaque u
    else
      let slashes := if negb (is_empty (u_Scheme u)) || negb (is_empty (u_Host u))
        then if u_OmitHost u && is_empty (u_Host u) then EmptyString
             else String.append (if negb (is_empty (u_Host u)) || negb (is_empty (u_Path u)) then "//" else "") (escape (u_Host u) encodeHost)
        else EmptyString in
      let path := url_EscapedPath u in
      let sep := match path with
        | String c _ => if negb (Ascii.eqb c "/") && negb (is_empty (u_Host u)) then "/"%string else EmptyString
        | EmptyString => EmptyString
        end in
      let dot := if is_empty (String.append scheme (String.append slashes sep))
                    && has_byte ":" (match cut "/" path with Some (segment, _) => segment | None => path end)
                 then "./"%string else EmptyString in
      String.append slashes (String.append sep (String.append dot path)) in
  String.append scheme (String.append rest (query_suffix u)).

(** [net.SplitHostPort]. *)
Definition SplitHostPort (hostport : string) : option (string * string) :=
  match cut_last ":" hostport with
  | None => None
  | Some (before, port) =>
      match hostport with
      | String "[" inner =>
          match cut "]" inner with
          | Some (host, after) =>
              (* the colon follows the bracket *)
              match after with
              | String ":" p => if has_byte ":" p || has_byte "[" inner || has_byte "]" after then None else Some (host, p)
              | _ => None
              end
          | None => None
          end
      | _ => if has_byte ":" before || has_byte "[" hostport || has_byte "]" hostport then None else Some (before, port)
      end
  end.

(** ** Messages *)
(** A body by what reading it yields: its bytes, then the end or an error.
    [None] is a nil body. *)
Inductive body := NoBody | Stream (content : string) (failure : option error).
Record Request := {
  r_Method : string;
  r_URL : option RequestURL;
  r_Header : Header;
  r_Host : string;
  r_RequestURI : string;
  r_Body : option body;
  r_TLS : option (list (option (string -> bool)))   (* [TLS.VerifiedChains], leaves by [VerifyHostname] *)
}.
Record Response := {
  s_StatusCode : Z;
  s_Header : Header;
  s_Body : option body;
  s_Uncompressed : bool;
  s_TLS : option (list (option (string -> bool)));
  s_Request : option Request
}.
Definition with_req_body (b : option body) (r : Request) : Request :=
  {| r_Method := r_Method r; r_URL := r_URL r; r_Header := r_Header r; r_Host := r_Host r; r_RequestURI := r_RequestURI r;
     r_Body := b; r_TLS := r_TLS r |}.
Definition with_req_header (h : Header) (r : Request) : Request :=
  {| r_Method := r_Method r; r_URL := r_URL r; r_Header := h; r_Host := r_Host r; r_RequestURI := r_RequestURI r;
     r_Body := r_Body r; r_TLS := r_TLS r |}.
Definition with_res_body (b : option body) (r : Response) : Response :=
  {| s_StatusCode := s_StatusCode r; s_Header := s_Header r; s_Body := b; s_Uncompressed := s_Uncompressed r;
     s_TLS := s_TLS r; s_Request := s_Request r |}.
Definition with_res_header (h : Header) (r : Response) : Response :=
  {| s_StatusCode := s_StatusCode r; s_Header := h; s_Body := s_Body r; s_Uncompressed := s_Uncompressed r;
     s_TLS := s_TLS r; s_Request := s_Request r |}.
Definition with_request (req : option Request) (r : Response) : Response :=
  {| s_StatusCode := s_StatusCode r; s_Header := s_Header r; s_Body := s_Body r; s_Uncompressed := s_Uncompressed r;
     s_TLS := s_TLS r; s_Request := req |}.

Definition maximum_body : nat := Z.to_nat (Z.shiftl 8 20).
#[global] Opaque maximum_body.
(** [readBoundedBody]: the result, and what is left to read. *)
Definition readBoundedBody (b : body) : res string * body :=
  match b with
  | NoBody => (Ok EmptyString, NoBody)
  | Stream content failure =>
      if Z.shiftl 8 20 <? Z.of_nat (String.length content)
      then (Err (VerificationError "malformed_token" false "dnsid: HTTP content exceeds 8 MiB limit"),
            Stream (str_drop (S maximum_body) content) failure)
      else match failure with
           | Some e => (Err e, Stream EmptyString failure)
           | None => (Ok content, Stream EmptyString None)
           end
  end.
(** [httputil.ReplayBody]. *)
Definition ReplayBody (content : string) : body := Stream content None.
