(* ===== verification/NetIP.v ===== *)
(** * NetIP: IP addresses

    What the sources use of net and net/netip: parsing and printing of
    addresses, the classes of addresses, prefixes. A [net.IP] is its bytes, 4
    or 16 of them. *)

From Stdlib Require Import ZArith Lia Ascii String DecimalString.
From S2P Require Import Prelude Codec Lifecycle Reference NetHttp.

Open Scope Z_scope.

Definition IP := list Z.
Definition bytes_ok (ip : IP) : Prop := Forall (fun b => 0 <= b < 256) ip.

(** ** Parsing *)

(** One decimal field of [parseIPv4Fields]: no leading zero, at most 255. *)
Definition ipv4_field (s : string) : option Z :=
  if is_empty s || negb (forall_byte is_digit s) then None
  else if bool_decide (head_byte s = Some "0"%char) && (1 <? String.length s)%nat then None
  else match parse_uint 8 s with Some n => Some (Z.of_N n) | None => None end.
Definition parseIPv4Fields (s : string) : option (list Z) :=
  match split "." s with
  | [a; b; c; d] => a ← ipv4_field a; b ← ipv4_field b; c ← ipv4_field c; d ← ipv4_field d; Some [a; b; c; d]
  | _ => None
  end.

Fixpoint span_hex (s : string) : string * string :=
  match s with
  | EmptyString => (EmptyString, EmptyString)
  | String c rest =>
      match hex_value c with
      | Some _ => let '(d, r) := span_hex rest in (String c d, r)
      | None => (EmptyString, s)
      end
  end.
Fixpoint hex_number (acc : Z) (s : string) : Z :=
  match s with EmptyString => acc | String c s => hex_number (16 * acc + default 0 (hex_value c)) s end.

(** The loop of [parseIPv6]: the bytes so far, and where the ellipsis stood. *)
Fixpoint parse6_loop (fuel : nat) (s : string) (out : list Z) (ellipsis : option nat) : option (string * list Z * option nat) :=
  if (16 <=? List.length out)%nat then Some (s, out, ellipsis) else
  match fuel with
  | O => None
  | S fuel =>
      let '(d, rest) := span_hex s in
      if is_empty d || (4 <? String.length d)%nat then None
      else match rest with
      | String "." _ =>
          if bool_decide (ellipsis = None) && negb (List.length out =? 12)%nat || (12 <? List.length out)%nat then None
          else b ← parseIPv4Fields s; Some (EmptyString, out ++ b, ellipsis)
      | _ =>
          let v := hex_number 0 d in
          let out := out ++ [v / 256; v mod 256] in
          match rest with
          | EmptyString => Some (EmptyString, out, ellipsis)
          | String ":" EmptyString => None
          | String ":" (String ":" s) =>
              match ellipsis with
              | Some _ => None
              | None => if is_empty s then Some (EmptyString, out, Some (List.length out))
                        else parse6_loop fuel s out (Some (List.length out))
              end
          | String ":" s => parse6_loop fuel s out ellipsis
          | _ => None
          end
      end
  end.

(** An ellipsis stands for at least one group of zeros. *)
Definition expand_ellipsis (out : list Z) (ellipsis : option nat) : option (list Z) :=
  match ellipsis, (16 - List.length out)%nat with
  | None, O => Some out
  | Some e, S n => Some (take e out ++ replicate (S n) 0 ++ drop e out)
  | _, _ => None
  end.
Definition parseIPv6 (s : string) : option IP :=
  let r :=
    match s with
    | String ":" (String ":" s) =>
        if is_empty s then Some (EmptyString, [], Some 0%nat) else parse6_loop 8 s [] (Some 0%nat)
    | _ => parse6_loop 8 s [] None
    end in
  '(rest, out, ellipsis) ← r;
  if is_empty rest then expand_ellipsis out ellipsis else None.

Definition v4_in_v6 : list Z := replicate 10 0 ++ [255; 255].
(** The first of a dot and a colon tells the kind of the address. *)
Fixpoint addr_kind (s : string) : option bool :=
  match s with
  | String c s => if Ascii.eqb c "." then Some true else if Ascii.eqb c ":" then Some false else addr_kind s
  | EmptyString => None
  end.
(** [net.ParseIP]: 16 bytes; zones are refused. *)
Definition ParseIP (s : string) : option IP :=
  if has_byte "%" s then None
  else match addr_kind s with
  | Some true => b ← parseIPv4Fields s; Some (v4_in_v6 ++ b)
  | Some false => parseIPv6 s
  | None => None
  end.

(** ** Printing *)
Definition To4 (ip : IP) : option (list Z) :=
  if (List.length ip =? 4)%nat then Some ip
  else if (List.length ip =? 16)%nat && bool_decide (take 12 ip = v4_in_v6) then Some (drop 12 ip)
  else None.
Definition ipv4_text (b : list Z) : string := join "." ((fun x => format_uint (Z.to_N x)) <$> b).

Definition hex_lower (n : Z) : ascii := byte_of (if n <? 10 then 48 + n else 87 + n).
Definition append_hex (x : Z) : string :=
  let tail := String (hex_lower (x mod 16)) EmptyString in
  if x <? 16 then tail
  else let tail := String (hex_lower (x / 16 mod 16)) tail in
  if x <? 256 then tail
  else let tail := String (hex_lower (x / 256 mod 16)) tail in
  if x <? 4096 then tail else String (hex_lower (x / 4096)) tail.

Fixpoint groups (ip : list Z) : list Z :=
  match ip with a :: b :: ip => 256 * a + b :: groups ip | _ => [] end.
Fixpoint zero_run (gs : list Z) : nat :=
  match gs with g :: gs => if g =? 0 then S (zero_run gs) else 0%nat | [] => 0%nat end.
(** The first of the longest runs of at least two zero groups, as its start
    and its length; the length is 0 if there is none. *)
Fixpoint longest_run (i : nat) (gs : list Z) (best : nat * nat) : nat * nat :=
  match gs with
  | [] => best
  | g :: gs' =>
      let l := zero_run gs in
      longest_run (S i) gs' (if (2 <=? l)%nat && (best.2 <? l)%nat then (i, l) else best)
  end.
Definition ipv6_text (gs : list Z) : string :=
  let '(start, len) := longest_run 0 gs (0, 0)%nat in
  if (len =? 0)%nat then join ":" (append_hex <$> gs)
  else String.append (join ":" (append_hex <$> take start gs))
         (String.append "::" (join ":" (append_hex <$> drop (start + len) gs))).

(** [net.IP.String]. *)
Definition ip_String (ip : IP) : string :=
  match ip with
  | [] => "<nil>"%string
  | _ =>
      match To4 ip with
      | Some b => ipv4_text b
      | None =>
          if (List.length ip =? 16)%nat then ipv6_text (groups ip)
          else String "?" (fold_right (fun b => String.append (String (hex_lower (b / 16)) (String (hex_lower (b mod 16)) EmptyString))) EmptyString ip)
      end
  end.

(** ** Classes of addresses (net/netip) *)
Record Addr := { is4 : bool; addr_bits : Z }.
Definition addr_width (four : bool) : Z := if four then 32 else 128.
Definition addr_value (b : list Z) : Z := fold_left (fun acc x => 256 * acc + x) b 0.
(** [netip.AddrFromSlice] and [Unmap]. *)
Definition AddrFromSlice (ip : IP) : option Addr :=
  if (List.length ip =? 4)%nat then Some {| is4 := true; addr_bits := addr_value ip |}
  else if (List.length ip =? 16)%nat then Some {| is4 := false; addr_bits := addr_value ip |}
  else None.
Definition Unmap (a : Addr) : Addr :=
  if negb (is4 a) && (Z.shiftr (addr_bits a) 32 =? 65535) then {| is4 := true; addr_bits := addr_bits a mod 2 ^ 32 |} else a.

(** The first [n] bits of an address equal those of a value of as many bits. *)
Definition in_prefix (four : bool) (value n : Z) (a : Addr) : bool :=
  Bool.eqb (is4 a) four && (Z.shiftr (addr_bits a) (addr_width four - n) =? value).

Record Prefix := { p_four : bool; p_value : Z; p_bits : Z }.
(** [netip.MustParsePrefix] of a constant, given as its address and length. *)
Definition MustParsePrefix (s : string) (n : Z) : Prefix :=
  match option_map Unmap (mbind AddrFromSlice (ParseIP s)) with
  | Some a => {| p_four := is4 a; p_value := Z.shiftr (addr_bits a) (addr_width (is4 a) - n); p_bits := n |}
  | None => {| p_four := true; p_value := 0; p_bits := 0 |}
  end.
Definition Contains (p : Prefix) (a : Addr) : bool := in_prefix (p_four p) (p_value p) (p_bits p) a.

Definition addr_IsLoopback (a : Addr) : bool := in_prefix true 127 8 a || in_prefix false 1 128 a.
Definition addr_IsPrivate (a : Addr) : bool :=
  in_prefix true 10 8 a || in_prefix true (172 * 16 + 1) 12 a || in_prefix true (192 * 256 + 168) 16 a || in_prefix false 126 7 a.
Definition addr_IsMulticast (a : Addr) : bool := in_prefix true 14 4 a || in_prefix false 255 8 a.
Definition addr_IsLinkLocalUnicast (a : Addr) : bool := in_prefix true (169 * 256 + 254) 16 a || in_prefix false 1018 10 a.
Definition addr_IsUnspecified (a : Addr) : bool := addr_bits a =? 0.
Definition addr_IsBroadcast (a : Addr) : bool := in_prefix true (2 ^ 32 - 1) 32 a.
Definition addr_IsGlobalUnicast (a : Addr) : bool :=
  negb (addr_IsUnspecified a) && negb (addr_IsBroadcast a) && negb (addr_IsLoopback a)
  && negb (addr_IsMulticast a) && negb (addr_IsLinkLocalUnicast a).

(** [net.IP.IsLoopback]. *)
Definition ip_IsLoopback (ip : IP) : bool :=
  match To4 ip with
  | Some b => bool_decide (head b = Some 127)
  | None => bool_decide (ip = replicate 15 0 ++ [1])
  end.

Example parses : ParseIP "2001:db8::1" = Some (groups [] ++ [32; 1; 13; 184] ++ replicate 11 0 ++ [1]).
Proof. reflexivity. Qed.
Example prints :
  ip_String <$> omap ParseIP ["::"; "::1"; "1:0:0:2:0:0:0:3"; "::ffff:1.2.3.4"; "1:2:3:4:5:6:7::"; "fe80::0:abcd"; "0:0:1::"]%string
  = ["::"; "::1"; "1:0:0:2::3"; "1.2.3.4"; "1:2:3:4:5:6:7:0"; "fe80::abcd"; "0:0:1::"]%string.
Proof. vm_compute. reflexivity. Qed.
Example refused : ParseIP <$> ["1.2.3"; "01.2.3.4"; "1.2.3.256"; ":1"; "1:2:3:4:5:6:7:8:9"; "1::2::3"; "fe80::1%eth0"; "12345::"; "1:2:3:4:5:6:7:8::"; ""]%string
  = replicate 10 None.
Proof. vm_compute. reflexivity. Qed.

(** ** What is printed parses back *)
Definition hexes (s : string) : bool := forall_byte (fun c => bool_decide (is_Some (hex_value c))) s.
Definition starts_hex (s : string) : bool :=
  match s with String c _ => bool_decide (is_Some (hex_value c)) | EmptyString => false end.

Lemma span_hex_append d rest : hexes d = true -> starts_hex rest = false -> span_hex (String.append d rest) = (d, rest).
Proof.
  intros Hd Hr. induction d as [|c d IH]; rewrite ?append_nil_l, ?append_cons; cbn [span_hex].
  - destruct rest as [|c rest]; [done|]. cbn [starts_hex span_hex] in *. apply bool_decide_eq_false in Hr.
    destruct (hex_value c); [|done]. exfalso. by apply Hr.
  - cbn [hexes forall_byte] in Hd. apply andb_true_iff in Hd as [[x ->]%bool_decide_eq_true Hd]. by rewrite IH.
Qed.

Definition group_ok (g : Z) : Prop := 0 <= g < 65536.

Lemma hex_value_lower n : 0 <= n < 16 -> hex_value (hex_lower n) = Some n.
Proof.
  intros Hn.
  pose proof (forall_below 16 (fun n => match hex_value (hex_lower n) with Some m => m =? n | None => false end) eq_refl n Hn) as H.
  cbn beta in H. destruct (hex_value (hex_lower n)); [|done]. by apply Z.eqb_eq in H as ->.
Qed.

Lemma append_hex_spec g :
  group_ok g ->
  hexes (append_hex g) = true /\ (1 <= String.length (append_hex g) <= 4)%nat /\ hex_number 0 (append_hex g) = g.
Proof.
  unfold group_ok. intros Hg.
  assert (0 <= g mod 16 < 16 /\ 0 <= g / 16 mod 16 < 16 /\ 0 <= g / 256 mod 16 < 16) as (H0 & H1 & H2)
    by (split_and!; apply Z.mod_pos_bound; lia).
  assert (0 <= g / 4096 < 16) as H3 by (split; [apply Z.div_pos; lia|apply Z.div_lt_upper_bound; lia]).
  unfold append_hex. destruct (Z.ltb_spec g 16); [|destruct (Z.ltb_spec g 256); [|destruct (Z.ltb_spec g 4096)]];
    unfold hexes; cbn [forall_byte hex_number String.length]; rewrite !hex_value_lower by done;
    (split; [done|split; [lia|]]); change (default 0 (Some ?x)) with x; Z.to_euclidean_division_equations; lia.
Qed.

Lemma hexes_clean c s : hex_value c = None -> hexes s = true -> has_byte c s = false.
Proof.
  intros Hc Hs. apply has_byte_false. eapply forall_byte_impl; [|exact Hs]. cbn beta.
  intros a [x Ha]%bool_decide_eq_true. apply negb_true_iff, Ascii.eqb_neq. by intros ->; rewrite Hc in Ha.
Qed.

(** One turn of the loop reads one printed group. *)
Definition group_bytes (g : Z) : list Z := [g / 256; g mod 256].
Lemma loop_group fuel g rest out ellipsis :
  group_ok g -> (List.length out < 16)%nat -> starts_hex rest = false -> head_byte rest <> Some "."%char ->
  parse6_loop (S fuel) (String.append (append_hex g) rest) out ellipsis =
    match rest with
    | EmptyString => Some (EmptyString, out ++ group_bytes g, ellipsis)
    | String ":" EmptyString => None
    | String ":" (String ":" s) =>
        match ellipsis with
        | Some _ => None
        | None => if is_empty s then Some (EmptyString, out ++ group_bytes g, Some (List.length (out ++ group_bytes g)))
                  else parse6_loop fuel s (out ++ group_bytes g) (Some (List.length (out ++ group_bytes g)))
        end
    | String ":" s => parse6_loop fuel s (out ++ group_bytes g) ellipsis
    | _ => None
    end.
Proof.
  intros Hg Ho Hs Hd. destruct (append_hex_spec g Hg) as (Hh & Hl & Hv). cbn [parse6_loop].
  rewrite (proj2 (Nat.leb_gt 16 _)) by done. rewrite span_hex_append by done.
  assert (is_empty (append_hex g) = false) as -> by (apply is_empty_false; intros E; rewrite E in Hl; cbn in Hl; lia).
  rewrite (proj2 (Nat.ltb_ge 4 _)) by lia. cbn [orb]. rewrite Hv. change [g / 256; g mod 256] with (group_bytes g).
  destruct rest as [|c rest]; [done|]. cbn [head_byte] in Hd.
  destruct (decide (c = "."%char)) as [->|Hne]; [done|]. clear -Hne.
  by destruct c as [[] [] [] [] [] [] [] []].
Qed.

Definition hex_text (gs : list Z) : string := join ":" (append_hex <$> gs).
Definition group_list (gs : list Z) : list Z := gs ≫= group_bytes.

Lemma group_list_length gs : List.length (group_list gs) = (2 * List.length gs)%nat.
Proof. induction gs as [|g gs IH]; [done|]. cbn [group_list mbind list_bind List.length] in *. rewrite length_app. unfold group_list in IH. rewrite IH. cbn. lia. Qed.

Lemma hex_text_cons g gs :
  hex_text (g :: gs) = String.append (append_hex g) (match gs with [] => EmptyString | _ => String ":" (hex_text gs) end).
Proof. unfold hex_text. cbn. destruct gs; [by rewrite append_nil_r|done]. Qed.

Lemma hex_text_head g gs : group_ok g -> exists c s, hex_text (g :: gs) = String c s /\ is_Some (hex_value c).
Proof.
  intros (Hh & Hl & _)%append_hex_spec. rewrite hex_text_cons.
  destruct (append_hex g) as [|c s]; [cbn in Hl; lia|]. rewrite append_cons. exists c. eexists. split; [done|].
  cbn in Hh. apply andb_true_iff in Hh as [Hc _]. by apply bool_decide_eq_true in Hc.
Qed.

(** The groups after the ellipsis, or all of them. *)
Lemma loop_groups gs fuel out ellipsis :
  gs <> [] -> Forall group_ok gs -> (List.length gs <= fuel)%nat -> (List.length out + 2 * List.length gs <= 16)%nat ->
  parse6_loop fuel (hex_text gs) out ellipsis = Some (EmptyString, out ++ group_list gs, ellipsis).
Proof.
  revert fuel out. induction gs as [|g gs IH]; intros [|fuel] out Hne Hg Hf Ho; [done|done|cbn in Hf; lia|].
  apply Forall_cons in Hg as [Hg Hgs]. cbn [List.length] in Hf, Ho. rewrite hex_text_cons.
  assert (group_list (g :: gs) = group_bytes g ++ group_list gs) as -> by done. rewrite app_assoc.
  destruct gs as [|g' gs].
  - rewrite loop_group by (done || lia). by rewrite app_nil_r.
  - rewrite loop_group by (done || lia). apply Forall_cons in Hgs as Hg'. destruct Hg' as [Hg' _].
    destruct (hex_text_head g' gs Hg') as (c & s & E & Hc). rewrite E.
    assert (c <> ":"%char) by (intros ->; by destruct Hc).
    transitivity (parse6_loop fuel (String c s) (out ++ group_bytes g) ellipsis); [|rewrite <- E; apply IH; [done|done|lia|rewrite length_app; cbn [List.length group_bytes] in *; lia]].
    by destruct c as [[] [] [] [] [] [] [] []].
Qed.

(** The groups before the ellipsis. *)
Lemma loop_before gs fuel rest out :
  gs <> [] -> Forall group_ok gs -> (List.length gs <= fuel)%nat -> (List.length out + 2 * List.length gs <= 16)%nat ->
  parse6_loop fuel (String.append (hex_text gs) (String ":" (String ":" rest))) out None =
    let out := out ++ group_list gs in
    if is_empty rest then Some (EmptyString, out, Some (List.length out))
    else parse6_loop (fuel - List.length gs) rest out (Some (List.length out)).
Proof.
  cbv zeta. revert fuel out. induction gs as [|g gs IH]; intros [|fuel] out Hne Hg Hf Ho; [done|done|cbn in Hf; lia|].
  apply Forall_cons in Hg as [Hg Hgs]. cbn [List.length] in Hf, Ho. rewrite hex_text_cons, <- append_assoc.
  assert (group_list (g :: gs) = group_bytes g ++ group_list gs) as -> by done. rewrite app_assoc.
  destruct gs as [|g' gs].
  - rewrite append_nil_l, loop_group by (done || lia). rewrite app_nil_r. cbn [List.length]. by replace (S fuel - 1)%nat with fuel by lia.
  - rewrite append_cons, loop_group by (done || lia). apply Forall_cons in Hgs as Hg'. destruct Hg' as [Hg' _].
    destruct (hex_text_head g' gs Hg') as (c & s & E & Hc).
    assert (c <> ":"%char) by (intros ->; by destruct Hc).
    change (S fuel - List.length (g :: g' :: gs))%nat with (fuel - List.length (g' :: gs))%nat.
    rewrite <- IH; [|done|done|lia|rewrite length_app; cbn [List.length group_bytes] in *; lia].
    rewrite E, append_cons. by destruct c as [[] [] [] [] [] [] [] []].
Qed.

(** The run that the ellipsis stands for. *)
Definition run_in (gs : list Z) (run : nat * nat) : Prop :=
  run.2 = 0%nat \/
  (2 <= run.2)%nat /\ gs = take run.1 gs ++ replicate run.2 0 ++ drop (run.1 + run.2) gs /\ (run.1 + run.2 <= List.length gs)%nat.

Lemma zero_run_zeros gs : gs = replicate (zero_run gs) 0 ++ drop (zero_run gs) gs /\ (zero_run gs <= List.length gs)%nat.
Proof.
  induction gs as [|g gs [IH IHl]]; cbn [zero_run]; [done|]. destruct (Z.eqb_spec g 0) as [->|]; [|cbn; split; [done|lia]].
  cbn. split; [by f_equal|lia].
Qed.

Lemma longest_run_in all gs i best :
  (i <= List.length all)%nat -> gs = drop i all -> run_in all best -> run_in all (longest_run i gs best).
Proof.
  revert i best. induction gs as [|g gs IH]; intros i best Hi Hgs Hb; [done|]. cbn [longest_run].
  assert (i < List.length all)%nat as Hlt.
  { destruct (decide (i = List.length all)) as [->|]; [by rewrite drop_all in Hgs|lia]. }
  apply IH; [lia|by rewrite <- Nat.add_1_r, <- drop_drop, <- Hgs|].
  destruct (Nat.leb_spec 2 (zero_run (g :: gs))); [|done]. destruct (_ <? _)%nat; [|done]. cbn [andb]. right. cbn [fst snd].
  destruct (zero_run_zeros (g :: gs)) as [Hz Hl]. split; [done|]. rewrite Hgs in Hz, Hl |- *. rewrite length_drop in Hl.
  split; [|lia]. rewrite <- drop_drop, <- Hz. symmetry. apply take_drop.
Qed.

Lemma group_list_app gs hs : group_list (gs ++ hs) = group_list gs ++ group_list hs.
Proof. apply bind_app. Qed.
Lemma group_list_zeros n : group_list (replicate n 0) = replicate (2 * n) 0.
Proof.
  induction n as [|n IH]; [done|]. cbn [replicate]. change (group_list (0 :: replicate n 0)) with ([0; 0] ++ group_list (replicate n 0)).
  rewrite IH. by replace (2 * S n)%nat with (S (S (2 * n))) by lia.
Qed.

Lemma group_list_groups ip : bytes_ok ip -> Nat.Even (List.length ip) -> group_list (groups ip) = ip /\ Forall group_ok (groups ip).
Proof.
  remember (List.length ip) as n eqn:Hn. revert ip Hn. induction n as [n IH] using lt_wf_ind. intros [|a [|b ip]] -> Hip He.
  - done.
  - by destruct He as [[|k] Hk]; cbn in Hk; lia.
  - apply Forall_cons in Hip as [Ha [Hb Hip]%Forall_cons]. cbn [groups].
    destruct (IH (List.length ip) ltac:(cbn; lia) ip eq_refl Hip) as [E Hg].
    { destruct He as [k Hk]. exists (k - 1)%nat. cbn in Hk. lia. }
    split; [|constructor; [unfold group_ok; lia|done]].
    change (group_list (256 * a + b :: groups ip)) with (group_bytes (256 * a + b) ++ group_list (groups ip)).
    rewrite E. unfold group_bytes. rewrite (Z.mul_comm 256 a), Z.div_add_l, Z.div_small, Z.add_0_r by lia.
    by rewrite Z.add_comm, Z.mod_add, Z.mod_small by lia.
Qed.

Lemma groups_length ip n : List.length ip = (2 * n)%nat -> List.length (groups ip) = n.
Proof.
  revert ip. induction n as [|n IH]; intros [|a [|b ip]] H; cbn in *; try lia. f_equal. apply IH. lia.
Qed.

Lemma colon_head c s : is_Some (hex_value c) ->
  match String c s with
  | String ":" (String ":" s') => if is_empty s' then Some (EmptyString, [], Some 0%nat) else parse6_loop 8 s' [] (Some 0%nat)
  | _ => parse6_loop 8 (String c s) [] None
  end = parse6_loop 8 (String c s) [] None.
Proof. intros Hc. assert (c <> ":"%char) by (intros ->; by destruct Hc). by destruct c as [[] [] [] [] [] [] [] []]. Qed.

Lemma hex_text_nil gs : Forall group_ok gs -> is_empty (hex_text gs) = bool_decide (gs = []).
Proof.
  intros Hg. destruct gs as [|g gs]; [done|]. apply Forall_cons in Hg as [Hg _].
  by destruct (hex_text_head g gs Hg) as (c & s & -> & _).
Qed.

Lemma expand_groups pre post :
  (List.length pre + List.length post < 8)%nat ->
  expand_ellipsis (group_list pre ++ group_list post) (Some (List.length (group_list pre)))
  = Some (group_list (pre ++ replicate (8 - List.length pre - List.length post) 0 ++ post)).
Proof.
  intros Hl. unfold expand_ellipsis. rewrite length_app, !group_list_length.
  destruct (16 - (2 * List.length pre + 2 * List.length post))%nat as [|n] eqn:En; [lia|]. rewrite <- group_list_length.
  rewrite take_app_length, drop_app_length, !group_list_app, group_list_zeros.
  by replace (2 * (8 - List.length pre - List.length post))%nat with (S n) by lia.
Qed.

Lemma parse_elided pre post :
  Forall group_ok pre -> Forall group_ok post -> (List.length pre + List.length post <= 6)%nat ->
  parseIPv6 (String.append (hex_text pre) (String.append "::" (hex_text post)))
  = Some (group_list (pre ++ replicate (8 - List.length pre - List.length post) 0 ++ post)).
Proof.
  intros Hpre Hpost Hl. rewrite <- expand_groups by lia.
  change (String.append "::" (hex_text post)) with (String ":" (String ":" (hex_text post))).
  assert (forall fuel out, (List.length post <= fuel)%nat -> List.length out = (2 * List.length pre)%nat ->
    (if is_empty (hex_text post) then Some (EmptyString, out, Some (List.length out)) else parse6_loop fuel (hex_text post) out (Some (List.length out)))
    = Some (EmptyString, out ++ group_list post, Some (List.length out))) as Hafter.
  { intros fuel out Hf Ho. rewrite hex_text_nil by done. destruct post as [|g post]; [by rewrite app_nil_r|].
    rewrite bool_decide_eq_false_2 by done. by apply loop_groups; [..|lia]. }
  destruct pre as [|g pre].
  - cbn [hex_text fmap list_fmap join]. rewrite append_nil_l. unfold parseIPv6. specialize (Hafter 8%nat []). cbn [List.length app] in Hafter.
    rewrite Hafter by (cbn in Hl; lia). done.
  - pose proof Hpre as Hpre'. apply Forall_cons in Hpre' as [Hg _]. destruct (hex_text_head g pre Hg) as (c & s & E & Hc).
    unfold parseIPv6. rewrite E, append_cons. cbv zeta. rewrite colon_head by done. rewrite <- append_cons, <- E.
    rewrite (loop_before (g :: pre)) by (done || cbn in *; lia). cbv zeta. rewrite Hafter; [done|lia|].
    by rewrite app_nil_l, group_list_length.
Qed.

Lemma parse_ipv6_text gs :
  List.length gs = 8%nat -> Forall group_ok gs -> parseIPv6 (ipv6_text gs) = Some (group_list gs).
Proof.
  intros Hl Hg. unfold ipv6_text.
  pose proof (longest_run_in gs gs 0 (0, 0)%nat ltac:(lia) eq_refl (or_introl eq_refl)) as Hrun.
  destruct (longest_run 0 gs (0, 0)%nat) as [start len]. cbn [fst snd] in Hrun. change (join ":" (append_hex <$> ?l)) with (hex_text l).
  destruct Hrun as [Hz|(H2 & Hgs & Hle)]; cbn [fst snd] in *.
  - rewrite Hz. cbn [Nat.eqb]. destruct gs as [|g gs]; [done|]. apply Forall_cons in Hg as Hg'. destruct Hg' as [Hg' _].
    destruct (hex_text_head g gs Hg') as (c & s & E & Hc). change (join ":" (append_hex <$> ?l)) with (hex_text l).
    unfold parseIPv6. rewrite E. cbv zeta. rewrite colon_head by done.
    rewrite <- E, (loop_groups (g :: gs)) by (done || cbn in *; lia). cbn [mbind option_bind app].
    change (is_empty "") with true. unfold expand_ellipsis. by rewrite group_list_length, Hl.
  - rewrite (proj2 (Nat.eqb_neq _ _)) by lia.
    rewrite parse_elided; [|by apply Forall_take|by apply Forall_drop|rewrite length_take, length_drop; lia].
    rewrite length_take, length_drop. replace (8 - start `min` List.length gs - (List.length gs - (start + len)))%nat with len by lia.
    by rewrite <- Hgs.
Qed.

Lemma has_byte_join c sep (l : list string) :
  has_byte c (join sep l) = existsb (has_byte c) l || (Ascii.eqb sep c && (2 <=? List.length l)%nat).
Proof.
  induction l as [|s l IH]; [by rewrite andb_false_r|]. destruct l as [|t l].
  - cbn. by rewrite andb_false_r, !orb_false_r.
  - change (join sep (s :: t :: l)) with (String.append s (String sep (join sep (t :: l)))).
    rewrite has_byte_append, has_byte_cons, IH. cbn [existsb List.length Nat.leb].
    destruct (has_byte c s), (has_byte c t), (existsb (has_byte c) l), (Ascii.eqb sep c); done.
Qed.

Lemma hex_text_clean c gs : hex_value c = None -> Ascii.eqb ":" c = false -> Forall group_ok gs -> has_byte c (hex_text gs) = false.
Proof.
  intros Hc Hs Hg. unfold hex_text. rewrite has_byte_join, Hs, andb_false_l, orb_false_r.
  induction Hg as [|g gs Hg _ IH]; [done|]. cbn [fmap list_fmap existsb]. fold (append_hex <$> gs).
  apply append_hex_spec in Hg as (Hh & _ & _). by rewrite (hexes_clean c) by done.
Qed.

Lemma ipv6_text_bytes gs :
  List.length gs = 8%nat -> Forall group_ok gs ->
  has_byte "%" (ipv6_text gs) = false /\ has_byte "." (ipv6_text gs) = false /\ has_byte ":" (ipv6_text gs) = true.
Proof.
  intros Hl Hg. unfold ipv6_text. destruct (longest_run 0 gs (0, 0)%nat) as [start len].
  change (join ":" (append_hex <$> ?l)) with (hex_text l). destruct (len =? 0)%nat.
  - change (join ":" (append_hex <$> ?l)) with (hex_text l). rewrite !hex_text_clean by done. split; [done|]. split; [done|].
    unfold hex_text. rewrite has_byte_join, length_fmap, Hl. by rewrite orb_true_r.
  - change (join ":" (append_hex <$> ?l)) with (hex_text l).
    assert (Forall group_ok (take start gs) /\ Forall group_ok (drop (start + len) gs)) as [H1 H2] by (split; [by apply Forall_take|by apply Forall_drop]).
    rewrite !has_byte_append, !hex_text_clean by done. by rewrite orb_true_r.
Qed.

Lemma addr_kind_colon s : has_byte "." s = false -> has_byte ":" s = true -> addr_kind s = Some false.
Proof.
  induction s as [|c s IH]; [done|]. rewrite !has_byte_cons. intros [Hd Hs]%orb_false_iff. cbn [addr_kind]. rewrite Hd.
  destruct (Ascii.eqb c ":"); [done|]. by apply IH.
Qed.
Lemma addr_kind_dot s : has_byte ":" s = false -> has_byte "." s = true -> addr_kind s = Some true.
Proof.
  induction s as [|c s IH]; [done|]. rewrite !has_byte_cons. intros [Hd Hs]%orb_false_iff. cbn [addr_kind].
  destruct (Ascii.eqb c "."); [done|]. rewrite Hd. by apply IH.
Qed.

Lemma ipv4_field_spec x :
  0 <= x < 256 ->
  ipv4_field (format_uint (Z.to_N x)) = Some x /\ forall_byte is_digit (format_uint (Z.to_N x)) = true.
Proof.
  intros Hx.
  pose proof (forall_below 256 (fun x => match ipv4_field (format_uint (Z.to_N x)) with Some y => y =? x | None => false end
    && forall_byte is_digit (format_uint (Z.to_N x))) ltac:(by vm_compute) x Hx) as H. cbn beta in H.
  apply andb_true_iff in H as [H ?]. destruct (ipv4_field _); [|done]. by apply Z.eqb_eq in H as ->.
Qed.

Lemma digits_clean c s : is_digit c = false -> forall_byte is_digit s = true -> has_byte c s = false.
Proof.
  intros Hc Hs. apply has_byte_false. eapply forall_byte_impl; [|exact Hs]. cbn beta. intros a Ha.
  apply negb_true_iff, Ascii.eqb_neq. by intros ->; rewrite Hc in Ha.
Qed.

Lemma ipv4_text_clean c b : bytes_ok b -> is_digit c = false -> Ascii.eqb "." c = false -> has_byte c (ipv4_text b) = false.
Proof.
  intros Hb Hc Hd. unfold ipv4_text. rewrite has_byte_join, Hd, andb_false_l, orb_false_r.
  induction Hb as [|x b Hx _ IH]; [done|]. cbn [fmap list_fmap existsb].
  apply ipv4_field_spec in Hx as [_ Hx]. rewrite (digits_clean c) by done. exact IH.
Qed.

Lemma parse_ipv4_text b : bytes_ok b -> List.length b = 4%nat -> parseIPv4Fields (ipv4_text b) = Some b.
Proof.
  intros Hb Hl. unfold parseIPv4Fields, ipv4_text. rewrite split_join.
  - destruct b as [|b0 [|b1 [|b2 [|b3 [|]]]]]; try done. cbn [fmap list_fmap].
    unfold bytes_ok in Hb. rewrite !Forall_cons in Hb. destruct Hb as (H0 & H1 & H2 & H3 & _).
    rewrite !(fun x Hx => proj1 (ipv4_field_spec x Hx)) by done. done.
  - by destruct b.
  - apply Forall_fmap. eapply Forall_impl; [exact Hb|]. intros x [_ Hx]%ipv4_field_spec. by apply digits_clean.
Qed.

(** The 16 bytes of an address. *)
Definition To16 (ip : IP) : IP := if (List.length ip =? 4)%nat then v4_in_v6 ++ ip else ip.

Lemma To4_16 ip b : To4 ip = Some b -> To16 ip = v4_in_v6 ++ b /\ List.length b = 4%nat /\ (bytes_ok ip -> bytes_ok b).
Proof.
  unfold To4, To16. destruct (Nat.eqb_spec (List.length ip) 4) as [H4|]; [by intros [= <-]|].
  destruct (Nat.eqb_spec (List.length ip) 16) as [H16|]; [|done]. destruct (bool_decide _) eqn:E; [|done]. intros [= <-].
  apply bool_decide_eq_true in E. split; [by rewrite <- E, take_drop|]. rewrite length_drop. split; [lia|]. by apply Forall_drop.
Qed.

(** [net.ParseIP] inverts [net.IP.String]. *)
Lemma parse_printed ip :
  bytes_ok ip -> List.length ip = 4%nat \/ List.length ip = 16%nat -> ParseIP (ip_String ip) = Some (To16 ip).
Proof.
  intros Hb Hl. unfold ip_String. destruct ip as [|x ip']; [by destruct Hl|]. set (ip := x :: ip') in *.
  destruct (To4 ip) as [b|] eqn:E4.
  - apply To4_16 in E4 as (-> & Lb & Hb4). specialize (Hb4 Hb). unfold ParseIP. rewrite ipv4_text_clean by done.
    rewrite addr_kind_dot; [|by apply ipv4_text_clean|].
    + by rewrite parse_ipv4_text.
    + unfold ipv4_text. rewrite has_byte_join, length_fmap, Lb. by rewrite orb_true_r.
  - assert (List.length ip = 16%nat) as L16.
    { destruct Hl as [Hl|]; [|done]. unfold To4 in E4. by rewrite Hl in E4. }
    rewrite L16. cbn [Nat.eqb]. destruct (group_list_groups ip Hb) as [Hgl Hg]; [by exists 8%nat|].
    pose proof (groups_length ip 8 L16) as H8. destruct (ipv6_text_bytes (groups ip) H8 Hg) as (H1 & H2 & H3).
    unfold ParseIP. rewrite H1, addr_kind_colon by done. rewrite parse_ipv6_text by done. rewrite Hgl. unfold To16. by rewrite L16.
Qed.

(** What is parsed is 16 bytes. *)
Lemma ipv4_field_range s x : ipv4_field s = Some x -> 0 <= x < 256.
Proof.
  unfold ipv4_field, parse_uint. destruct (is_empty s); [done|]. cbn [orb]. destruct (negb _); [done|]. destruct (_ && _); [done|].
  destruct (NilEmpty.uint_of_string s) as [u|]; [|done]. cbn [mbind option_bind].
  destruct (N.ltb_spec (N.of_uint u) (2 ^ 8)); [|done]. intros [= <-]. lia.
Qed.

Lemma parseIPv4Fields_ok s b : parseIPv4Fields s = Some b -> List.length b = 4%nat /\ bytes_ok b.
Proof.
  unfold parseIPv4Fields. destruct (split "." s) as [|w [|x [|y [|z [|]]]]]; try done.
  destruct (ipv4_field w) as [a|] eqn:E1; [|done]. destruct (ipv4_field x) as [b'|] eqn:E2; [|done].
  destruct (ipv4_field y) as [c|] eqn:E3; [|done]. destruct (ipv4_field z) as [d|] eqn:E4; [|done]. intros [= <-].
  apply ipv4_field_range in E1, E2, E3, E4. split; [done|]. repeat (constructor; [lia|]). constructor.
Qed.

Lemma hex_value_range c x : hex_value c = Some x -> 0 <= x < 16.
Proof.
  unfold hex_value.
  repeat match goal with
  | |- (if ?b then _ else _) = _ -> _ => destruct b eqn:?; [go_bool; let E := fresh in intros E; injection E as E; lia|]
  end. done.
Qed.
Lemma hex_number_range s acc n :
  0 <= acc < 16 ^ n -> 0 <= n -> 0 <= hex_number acc s < 16 ^ (n + Z.of_nat (String.length s)).
Proof.
  revert acc n. induction s as [|c s IH]; intros acc n Ha Hn; cbn [hex_number String.length]; [by rewrite Z.add_0_r|].
  replace (n + Z.of_nat (S (String.length s))) with ((n + 1) + Z.of_nat (String.length s)) by lia.
  apply IH; [|lia]. rewrite Z.pow_add_r, Z.pow_1_r by lia. unfold default.
  destruct (hex_value c) as [x|] eqn:E; [apply hex_value_range in E|]; unfold id; lia.
Qed.
Lemma group_bytes_ok d : (String.length d <= 4)%nat -> bytes_ok (group_bytes (hex_number 0 d)).
Proof.
  intros Hd. pose proof (hex_number_range d 0 0 ltac:(lia) ltac:(lia)) as [H0 H].
  assert (16 ^ (0 + Z.of_nat (String.length d)) <= 16 ^ 4) by (apply Z.pow_le_mono_r; lia). change (16 ^ 4) with 65536 in *.
  set (v := hex_number 0 d) in *. pose proof (Z.mod_pos_bound v 256 ltac:(lia)).
  assert (0 <= v / 256 < 256) by (split; [apply Z.div_pos; lia|apply Z.div_lt_upper_bound; lia]). unfold group_bytes. repeat (constructor; [lia|]). constructor.
Qed.

Definition loop_state_ok (out : list Z) (ellipsis : option nat) : Prop :=
  bytes_ok out /\ (List.length out <= 16)%nat /\ Nat.Even (List.length out) /\ (forall e, ellipsis = Some e -> (e <= List.length out)%nat).

Lemma loop_state_group out ellipsis d :
  loop_state_ok out ellipsis -> (List.length out < 16)%nat -> (String.length d <= 4)%nat ->
  loop_state_ok (out ++ group_bytes (hex_number 0 d)) ellipsis /\
  loop_state_ok (out ++ group_bytes (hex_number 0 d)) (Some (List.length (out ++ group_bytes (hex_number 0 d)))).
Proof.
  intros (H1 & H2 & [k H3] & H4) Hlt Hd. pose proof (group_bytes_ok d Hd).
  assert (List.length (out ++ group_bytes (hex_number 0 d)) = (List.length out + 2)%nat) as L by by rewrite length_app.
  unfold loop_state_ok. rewrite L. split_and!; try (by apply Forall_app); try lia; try (exists (S k); lia); intros e He.
  - apply H4 in He. lia.
  - injection He as <-. lia.
Qed.

Lemma parse6_loop_ok fuel s out ellipsis rest out' ellipsis' :
  loop_state_ok out ellipsis -> parse6_loop fuel s out ellipsis = Some (rest, out', ellipsis') -> loop_state_ok out' ellipsis'.
Proof.
  revert s out ellipsis. induction fuel as [|fuel IH]; intros s out ellipsis Hok; cbn [parse6_loop];
    (destruct (Nat.leb_spec 16 (List.length out)); [by intros [= _ <- <-]|]); [done|].
  destruct (span_hex s) as [d r]. destruct (is_empty d || _) eqn:Ed; [done|]. apply orb_false_iff in Ed as [_ Ed%Nat.ltb_ge].
  destruct (loop_state_group out ellipsis d Hok) as [Hg Hge]; [lia|done|].
  change [hex_number 0 d / 256; hex_number 0 d mod 256] with (group_bytes (hex_number 0 d)).
  destruct r as [|c r]; [by intros [= _ <- <-]|].
  destruct (decide (c = "."%char)) as [->|Hd].
  { destruct (bool_decide _ && _ || _) eqn:E12; [done|]. apply orb_false_iff in E12 as [_ E12%Nat.ltb_ge].
    destruct (parseIPv4Fields s) as [b|] eqn:Eb; [|done]. intros [= _ <- <-]. apply parseIPv4Fields_ok in Eb as [Lb Hb].
    destruct Hok as (H1 & H2 & [k H3] & H4). unfold loop_state_ok. rewrite length_app, Lb.
    split_and!; [by apply Forall_app|lia|exists (S (S k)); lia|]. intros e He. apply H4 in He. lia. }
  destruct (decide (c = ":"%char)) as [->|Hc]; [|by destruct c as [[] [] [] [] [] [] [] []]].
  destruct r as [|c r]; [done|]. destruct (decide (c = ":"%char)) as [->|Hc].
  - destruct ellipsis as [e|]; [done|]. destruct (is_empty r); [by intros [= _ <- <-]|]. by apply IH.
  - intros H'. apply (IH (String c r) _ _ Hg). by destruct c as [[] [] [] [] [] [] [] []].
Qed.

Lemma parseIPv6_ok s ip : parseIPv6 s = Some ip -> List.length ip = 16%nat /\ bytes_ok ip.
Proof.
  unfold parseIPv6. set (r := match s with String ":" (String ":" t) => _ | _ => _ end).
  assert (forall rest out ell, r = Some (rest, out, ell) -> loop_state_ok out ell) as Hr.
  { assert (loop_state_ok [] None /\ loop_state_ok [] (Some 0%nat)) as [H0 H1].
    { split; (split_and!; [constructor|cbn; lia|by exists 0%nat|]); [done|]. intros e [= <-]. lia. }
    intros rest out ell. unfold r. destruct s as [|c s]; [by apply parse6_loop_ok|].
    destruct (decide (c = ":"%char)) as [->|Hc].
    - destruct s as [|c s]; [by apply parse6_loop_ok|]. destruct (decide (c = ":"%char)) as [->|Hc].
      + destruct (is_empty s); [by intros [= _ <- <-]|]. by apply parse6_loop_ok.
      + intros H. apply (parse6_loop_ok 8 (String ":" (String c s)) [] None rest out ell H0). by destruct c as [[] [] [] [] [] [] [] []].
    - intros H. apply (parse6_loop_ok 8 (String c s) [] None rest out ell H0). by destruct c as [[] [] [] [] [] [] [] []]. }
  destruct r as [[[rest out] ell]|]; [|done]. destruct (Hr _ _ _ eq_refl) as (H1 & H2 & _ & H4). cbn [mbind option_bind].
  destruct (is_empty rest); [|done]. unfold expand_ellipsis.
  destruct ell as [e|], (16 - List.length out)%nat as [|n] eqn:En; try done; intros [= <-]; [|split; [lia|done]].
  specialize (H4 e eq_refl). split.
  - rewrite length_app, length_take. cbn [replicate app List.length]. rewrite length_app, length_replicate, length_drop. lia.
  - apply Forall_app. split; [by apply Forall_take|]. cbn [replicate app]. constructor; [lia|].
    apply Forall_app. split; [|by apply Forall_drop]. apply Forall_replicate. lia.
Qed.

Lemma ParseIP_ok s ip : ParseIP s = Some ip -> List.length ip = 16%nat /\ bytes_ok ip.
Proof.
  unfold ParseIP. destruct (has_byte "%" s); [done|]. destruct (addr_kind s) as [[]|]; [|by apply parseIPv6_ok|done].
  destruct (parseIPv4Fields s) as [b|] eqn:E; [|done]. intros <-%(inj Some). apply parseIPv4Fields_ok in E as [Lb Hb].
  rewrite length_app, Lb. split; [done|]. apply Forall_app. split; [|done]. unfold v4_in_v6. by apply Forall_app; split; [apply Forall_replicate; lia|repeat (constructor; [lia|]); constructor].
Qed.

(** [net.SplitHostPort] inverts [net.JoinHostPort] on printed addresses. *)
Lemma printed_clean ip :
  bytes_ok ip -> List.length ip = 4%nat \/ List.length ip = 16%nat ->
  has_byte "[" (ip_String ip) = false /\ has_byte "]" (ip_String ip) = false.
Proof.
  intros Hb Hl. unfold ip_String. destruct ip as [|x ip']; [by destruct Hl|]. set (ip := x :: ip') in *.
  destruct (To4 ip) as [b|] eqn:E4.
  - apply To4_16 in E4 as (_ & _ & Hb4). specialize (Hb4 Hb). by rewrite !ipv4_text_clean.
  - assert (List.length ip = 16%nat) as L16.
    { destruct Hl as [Hl|]; [|done]. unfold To4 in E4. by rewrite Hl in E4. }
    rewrite L16. cbn [Nat.eqb]. destruct (group_list_groups ip Hb) as [_ Hg]; [by exists 8%nat|]. unfold ipv6_text.
    destruct (longest_run 0 (groups ip) (0, 0)%nat) as [start len]. destruct (len =? 0)%nat;
      change (join ":" (append_hex <$> ?l)) with (hex_text l); [by rewrite !hex_text_clean|].
    change (join ":" (append_hex <$> ?l)) with (hex_text l). rewrite !has_byte_append.
    by rewrite !hex_text_clean by first [by apply Forall_take|by apply Forall_drop|done].
Qed.

Lemma split_joined host port :
  has_byte "[" host = false -> has_byte "]" host = false -> has_byte ":" port = false -> has_byte "[" port = false -> has_byte "]" port = false ->
  SplitHostPort (join_host_port host port) = Some (host, port).
Proof.
  intros H1 H2 P0 P1 P2. unfold join_host_port. destruct (has_byte ":" host) eqn:Ec; unfold SplitHostPort.
  - assert (String.append "[" (String.append host (String.append "]:" port))
            = String.append (String "[" (String.append host "]")) (String ":" port)) as ->.
    { rewrite !append_cons, !append_nil_l. f_equal. rewrite <- append_assoc. done. }
    rewrite cut_last_append by done. rewrite append_cons, <- append_assoc.
    change (String.append "]" (String ":" port)) with (String "]" (String ":" port)). rewrite cut_append by done.
    rewrite has_byte_append, has_byte_cons, H1, P0, has_byte_cons, P1, has_byte_cons, P2. done.
  - rewrite cut_last_append by done. rewrite Ec. rewrite !has_byte_append, H1, H2, !has_byte_cons, P1, P2.
    destruct host as [|c host]; [done|]. rewrite has_byte_cons in H1. apply orb_false_iff in H1 as [H1 _].
    rewrite append_cons. assert (c <> "["%char) by (intros ->; done). by destruct c as [[] [] [] [] [] [] [] []].
Qed.
