(* ===== verification/Netguard.v ===== *)
(** * Netguard: which addresses are dialed

    internal/netguard: the destinations that the HTTP clients of the library
    may connect to. A dial resolves the name once, checks every address it
    resolves to, and connects to one of the checked addresses by its literal.
    What is dialed is returned beside the answer of each function, in order. *)

From Stdlib Require Import ZArith Lia Ascii String.
From S2P Require Import Prelude Codec Reference NetHttp NetIP.

Open Scope Z_scope.

(** [UnsafeDestinationError], or what the resolver or the dialer failed with. *)
Inductive dial_failure := UnsafeDestinationError (Message : string) | DialFailed (e : error).
Definition blocked (what : string) : dial_failure := UnsafeDestinationError (String.append "dial blocked: " what).

(** ** Policy. Names are ASCII, as net/http hands them to a dialer. *)
Definition trim_dot (s : string) : string :=
  match cut_last "." s with Some (host, EmptyString) => host | _ => s end.
Definition has_suffix (suffix s : string) : bool :=
  (String.length suffix <=? String.length s)%nat && str_eqb (str_drop (String.length s - String.length suffix) s) suffix.

Record Policy := { PrivateAddressHosts : list string }.
Definition policy_entry (host entry : string) : bool :=
  let entry := trim_dot (to_lower entry) in
  if is_empty entry || str_eqb entry "." then false
  else match entry with
  | String "." suffix => str_eqb host suffix || has_suffix entry host
  | _ => str_eqb host entry
  end.
Definition AllowsPrivateAddresses (p : Policy) (host : string) : bool :=
  let host := trim_dot (to_lower host) in
  if is_empty host || bool_decide (is_Some (ParseIP host)) then false
  else existsb (policy_entry host) (PrivateAddressHosts p).

(** ** Classes of addresses *)
Definition globallyRoutableSpecialPrefixes : list Prefix :=
  [ MustParsePrefix "192.0.0.9" 32; MustParsePrefix "192.0.0.10" 32; MustParsePrefix "2001:1::1" 128;
    MustParsePrefix "2001:1::2" 128; MustParsePrefix "2001:1::3" 128; MustParsePrefix "2001:3::" 32;
    MustParsePrefix "2001:4:112::" 48; MustParsePrefix "2001:20::" 28; MustParsePrefix "2001:30::" 28 ].
Definition nonRoutableSpecialPrefixes : list Prefix :=
  [ MustParsePrefix "0.0.0.0" 8; MustParsePrefix "100.64.0.0" 10; MustParsePrefix "192.0.0.0" 24;
    MustParsePrefix "192.0.2.0" 24; MustParsePrefix "192.88.99.0" 24; MustParsePrefix "198.18.0.0" 15;
    MustParsePrefix "198.51.100.0" 24; MustParsePrefix "203.0.113.0" 24; MustParsePrefix "240.0.0.0" 4;
    MustParsePrefix "2001::" 23; MustParsePrefix "2001:db8::" 32; MustParsePrefix "2002::" 16; MustParsePrefix "3fff::" 20 ].
Definition allocatedIPv6GlobalUnicast : Prefix := MustParsePrefix "2000::" 3.

Definition IsPrivateOrLoopbackIP (ip : IP) : bool :=
  match AddrFromSlice ip with
  | Some addr => let addr := Unmap addr in addr_IsLoopback addr || addr_IsPrivate addr
  | None => false
  end.
Definition IsNonPublicIP (ip : IP) : bool :=
  match AddrFromSlice ip with
  | None => true
  | Some addr =>
      let addr := Unmap addr in
      if existsb (fun prefix => Contains prefix addr) globallyRoutableSpecialPrefixes then false
      else if negb (is4 addr) && negb (Contains allocatedIPv6GlobalUnicast addr) then true
      else if existsb (fun prefix => Contains prefix addr) nonRoutableSpecialPrefixes then true
      else negb (addr_IsGlobalUnicast addr) || addr_IsPrivate addr
  end.

(** ** Dialing

    The resolver answers with addresses ([None] is a nil [IP]); the dialer and
    the context answer by what has been dialed so far. *)
Section dial.
Context {Conn : Type}.
Variable resolve : string -> res (list (option IP)).
Variable dial : list string -> string -> res Conn.
Variable ctx_Err : list string -> option error.

Definition address_of (ip : IP) (port : string) : string := join_host_port (ip_String ip) port.

(** The checks on one resolved address: whether a public and whether a
    private one was seen. *)
Fixpoint check_addresses (allowPrivate : bool) (ips : list (option IP)) (saw : bool * bool) : (bool * bool) + dial_failure :=
  match ips with
  | [] => inl saw
  | None :: _ => inr (blocked "resolved to invalid address")
  | Some ip :: ips =>
      if negb (IsNonPublicIP ip) then check_addresses allowPrivate ips (true, saw.2)
      else if negb allowPrivate || negb (IsPrivateOrLoopbackIP ip) then inr (blocked "resolves to non-public")
      else check_addresses allowPrivate ips (saw.1, true)
  end.

(** One address after the other until one answers. [stop] is whether a done
    context ends the attempts, as it does in [DialValidatedIP] only. *)
Fixpoint dial_each (stop : bool) (port : string) (ips : list IP) (tried : list string) (lastErr : error) : res Conn * list string :=
  match ips with
  | [] => (Err lastErr, tried)
  | ip :: ips =>
      let target := address_of ip port in
      let r := dial tried target in
      let tried := tried ++ [target] in
      match r with
      | Ok conn => (Ok conn, tried)
      | Err e =>
          match (if stop then ctx_Err tried else None) with
          | Some e => (Err e, tried)
          | None => dial_each stop port ips tried e
          end
      end
  end.

Definition or_failed {A} (r : res A) : A + dial_failure := match r with Ok a => inl a | Err e => inr (DialFailed e) end.
Definition missing_port : dial_failure := DialFailed (PlainError "missing port in address").

(** [DialValidatedIP]: the connection with the name for TLS, and what was dialed. *)
Definition DialValidatedIP (addr : string) (policy : Policy) : (Conn * string + dial_failure) * list string :=
  match SplitHostPort addr with
  | None => (inr missing_port, [])
  | Some (host, port) =>
      match ParseIP host with
      | Some ip =>
          if IsNonPublicIP ip then (inr (blocked "is non-public"), [])
          else (match or_failed (dial [] (address_of ip port)) with inl conn => inl (conn, host) | inr e => inr e end, [address_of ip port])
      | None =>
          match resolve host with
          | Err e => (inr (DialFailed e), [])
          | Ok [] => (inr (blocked "resolved to no addresses"), [])
          | Ok ips =>
              match check_addresses (AllowsPrivateAddresses policy host) ips (false, false) with
              | inr e => (inr e, [])
              | inl (true, true) => (inr (blocked "resolves to both public and private addresses"), [])
              | inl _ =>
                  let '(r, tried) := dial_each true port (omap id ips) [] (PlainError "") in
                  (match or_failed r with inl conn => inl (conn, host) | inr e => inr e end, tried)
              end
          end
      end
  end.

(** The dialer of [LoopbackOnlyTransport]; its refusals are plain errors. *)
Definition DialLoopback (addr : string) : res Conn * list string :=
  match SplitHostPort addr with
  | None => (Err (PlainError "missing port in address"), [])
  | Some (host, port) =>
      match ParseIP host with
      | Some ip =>
          if negb (ip_IsLoopback ip) then (Err (PlainError "dial blocked: is not loopback"), [])
          else (dial [] (address_of ip port), [address_of ip port])
      | None =>
          match resolve host with
          | Err e => (Err e, [])
          | Ok ips =>
              if existsb (fun ip => match ip with Some ip => negb (ip_IsLoopback ip) | None => true end) ips
              then (Err (PlainError "dial blocked: resolves outside loopback"), [])
              else if (List.length ips =? 0)%nat then (Err (PlainError "dial blocked: resolved to no addresses"), [])
              else dial_each false port (omap id ips) [] (PlainError "")
          end
      end
  end.

(** ** TLS over a checked connection *)
Record TLSConfig := { MinVersion : Z; ServerName : string; InsecureSkipVerify : bool }.
Definition VersionTLS12 : Z := 771.
Definition CloneTLSConfig (cfg : option TLSConfig) : TLSConfig :=
  match cfg with
  | None => {| MinVersion := VersionTLS12; ServerName := EmptyString; InsecureSkipVerify := false |}
  | Some c => {| MinVersion := if MinVersion c =? 0 then VersionTLS12 else MinVersion c;
                 ServerName := ServerName c; InsecureSkipVerify := InsecureSkipVerify c |}
  end.
Variable handshake : Conn -> TLSConfig -> res unit.
(** [DialTLSContext] of [SafeDialerTransportFrom]: the configuration of the
    handshake it makes comes second. *)
Definition DialTLS (tls : option TLSConfig) (addr : string) (policy : Policy)
    : (Conn + dial_failure) * option TLSConfig * list string :=
  let '(r, tried) := DialValidatedIP addr policy in
  match r with
  | inr e => (inr e, None, tried)
  | inl (conn, serverName) =>
      let cfg := CloneTLSConfig tls in
      let cfg := if is_empty (ServerName cfg)
                 then {| MinVersion := MinVersion cfg; ServerName := serverName; InsecureSkipVerify := InsecureSkipVerify cfg |}
                 else cfg in
      (match handshake conn cfg with Ok _ => inl conn | Err e => inr (DialFailed e) end, Some cfg, tried)
  end.
End dial.

Definition ip_text (s : string) : IP := default [] (ParseIP s).
Example classified :
  (fun s => (IsNonPublicIP (ip_text s), IsPrivateOrLoopbackIP (ip_text s))) <$>
    ["8.8.8.8"; "10.0.0.1"; "::ffff:127.0.0.1"; "169.254.169.254"; "64:ff9b::a00:1"; "2606:4700::1111"; "fd00::1"; "192.0.0.9"; "192.0.0.8"]%string
  = [(false, false); (true, true); (true, true); (true, false); (true, false); (false, false); (true, true); (false, false); (true, false)].
Proof. vm_compute. reflexivity. Qed.
Example allows :
  AllowsPrivateAddresses {| PrivateAddressHosts := [".test"; "Local.example."]%string |} <$> ["a.test"; "test"; "evil-test"; "LOCAL.example"; "127.0.0.1"; "a.test."]%string
  = [true; true; false; true; false; true].
Proof. vm_compute. reflexivity. Qed.
