(* ===== verification/NetguardSpec.v ===== *)
(** * NetguardSpec: nothing inside is dialed

    Every address that a guarded client connects to parses back, from the text
    handed to the dialer, to an address that is public, or private where the
    policy names the host; a public address is in none of the classes of
    net/netip that are not for public hosts. *)

From Stdlib Require Import ZArith Lia Ascii String.
From S2P Require Import Prelude Codec Reference NetHttp NetIP Netguard.

Open Scope Z_scope.

(** ** Prefixes *)
Definition prefix_ok (p : Prefix) : bool := (0 <=? p_bits p) && (p_bits p <=? addr_width (p_four p)).
(** Two prefixes of which neither contains the other. *)
Definition disjoint_prefixes (p q : Prefix) : bool :=
  negb (Bool.eqb (p_four p) (p_four q))
  || (let m := Z.min (p_bits p) (p_bits q) in
      negb (Z.shiftr (p_value p) (p_bits p - m) =? Z.shiftr (p_value q) (p_bits q - m))).

Lemma contains_shorter p a m :
  Contains p a = true -> prefix_ok p = true -> 0 <= m <= p_bits p ->
  is4 a = p_four p /\ Z.shiftr (addr_bits a) (addr_width (p_four p) - m) = Z.shiftr (p_value p) (p_bits p - m).
Proof.
  unfold Contains, in_prefix, prefix_ok. rewrite !andb_true_iff, Z.eqb_eq, !Z.leb_le. intros [->%Bool.eqb_prop E] [H1 H2] Hm.
  split; [done|]. rewrite <- E, Z.shiftr_shiftr by lia. f_equal. lia.
Qed.

Lemma disjoint_sound p q a :
  disjoint_prefixes p q = true -> prefix_ok p = true -> prefix_ok q = true -> Contains p a = true -> Contains q a = false.
Proof.
  intros Hd Hp Hq Hpa. destruct (Contains q a) eqn:Hqa; [|done]. exfalso.
  assert (0 <= Z.min (p_bits p) (p_bits q)) as Hm.
  { unfold prefix_ok in *. rewrite !andb_true_iff, !Z.leb_le in *. lia. }
  destruct (contains_shorter p a (Z.min (p_bits p) (p_bits q)) Hpa Hp) as [Ep Sp]; [lia|].
  destruct (contains_shorter q a (Z.min (p_bits p) (p_bits q)) Hqa Hq) as [Eq Sq]; [lia|].
  unfold disjoint_prefixes in Hd. rewrite Ep in Eq. rewrite Eq, Bool.eqb_reflx in Hd. cbn [negb orb] in Hd.
  apply negb_true_iff, Z.eqb_neq in Hd. apply Hd. rewrite <- Sp, <- Sq. by rewrite Eq.
Qed.

(** The classes of net/netip as prefixes. *)
Definition pfx (four : bool) (v n : Z) : Prefix := {| p_four := four; p_value := v; p_bits := n |}.
Definition inside_prefixes : list Prefix :=
  [ pfx true 127 8; pfx false 1 128; pfx true 10 8; pfx true (172 * 16 + 1) 12; pfx true (192 * 256 + 168) 16; pfx false 126 7;
    pfx true (169 * 256 + 254) 16; pfx false 1018 10; pfx true 14 4; pfx false 255 8; pfx true (2 ^ 32 - 1) 32;
    pfx true 0 32; pfx false 0 128 ].

(** Loopback, private, link-local, multicast, broadcast or unspecified. *)
Definition inside (a : Addr) : bool :=
  addr_IsLoopback a || addr_IsPrivate a || addr_IsLinkLocalUnicast a || addr_IsMulticast a || addr_IsBroadcast a || addr_IsUnspecified a.

Lemma inside_in_prefix a : inside a = true -> exists p, p ∈ inside_prefixes /\ Contains p a = true.
Proof.
  unfold inside, addr_IsLoopback, addr_IsPrivate, addr_IsLinkLocalUnicast, addr_IsMulticast, addr_IsBroadcast.
  assert (addr_IsUnspecified a = in_prefix true 0 32 a || in_prefix false 0 128 a) as ->.
  { unfold addr_IsUnspecified, in_prefix, addr_width. rewrite !Z.sub_diag, !Z.shiftr_0_r. by destruct (is4 a), (addr_bits a =? 0). }
  rewrite !orb_true_iff. intros H.
  assert (existsb (fun p => Contains p a) inside_prefixes = true) as (p & Hp & Hc)%existsb_exists.
  { unfold inside_prefixes, Contains. cbn [existsb p_four p_value p_bits pfx]. rewrite !orb_true_iff. tauto. }
  exists p. by split; [apply list_elem_of_In|].
Qed.

Lemma exceptions_outside p a : p ∈ globallyRoutableSpecialPrefixes -> Contains p a = true -> inside a = false.
Proof.
  intros Hp Hc. destruct (inside a) eqn:E; [|done]. apply inside_in_prefix in E as (q & Hq & Hqa).
  assert (forallb (fun p => prefix_ok p && forallb (fun q => prefix_ok q && disjoint_prefixes p q) inside_prefixes) globallyRoutableSpecialPrefixes = true) as H
    by (vm_compute; reflexivity).
  rewrite forallb_forall in H. specialize (H p). apply list_elem_of_In in Hp. specialize (H Hp). apply andb_true_iff in H as [Hpo H].
  rewrite forallb_forall in H. apply list_elem_of_In in Hq. specialize (H q Hq). apply andb_true_iff in H as [Hqo H].
  by rewrite (disjoint_sound p q a) in Hqa.
Qed.

(** A public address is in no inside class, IPv4 in IPv6 included. *)
Lemma public_is_outside ip :
  IsNonPublicIP ip = false -> exists a, AddrFromSlice ip = Some a /\ inside (Unmap a) = false.
Proof.
  unfold IsNonPublicIP. destruct (AddrFromSlice ip) as [a|]; [|done]. intros H. exists a. split; [done|]. revert H.
  generalize (Unmap a). clear a. intros a. destruct (existsb _ globallyRoutableSpecialPrefixes) eqn:Ex.
  { intros _. apply existsb_exists in Ex as (p & Hp & Hc). apply list_elem_of_In in Hp. by eapply exceptions_outside. }
  destruct (_ && _); [done|]. destruct (existsb _ nonRoutableSpecialPrefixes); [done|].
  intros [H1 H2]%orb_false_iff. apply negb_false_iff in H1. unfold addr_IsGlobalUnicast in H1. rewrite !andb_true_iff, !negb_true_iff in H1.
  unfold inside. by destruct H1 as ((((-> & ->) & ->) & ->) & ->); rewrite H2.
Qed.

(** ** The text that is dialed *)
Lemma addr_value_acc b acc : fold_left (fun acc x => 256 * acc + x) b acc = acc * 256 ^ Z.of_nat (List.length b) + addr_value b.
Proof.
  unfold addr_value. revert acc. induction b as [|x b IH]; intros acc; [cbn; lia|]. cbn [fold_left List.length].
  rewrite (IH (256 * acc + x)), (IH (256 * 0 + x)). rewrite Nat2Z.inj_succ, Z.pow_succ_r by lia. lia.
Qed.

Lemma addr_value_range b : bytes_ok b -> 0 <= addr_value b < 256 ^ Z.of_nat (List.length b).
Proof.
  induction 1 as [|x b Hx _ IH]; [done|]. unfold addr_value. cbn [fold_left List.length]. rewrite addr_value_acc.
  rewrite Nat2Z.inj_succ, Z.pow_succ_r by lia. nia.
Qed.

(** The 16 bytes of an IPv4 address stand for the same address. *)
Lemma to16_same ip a :
  bytes_ok ip -> AddrFromSlice ip = Some a -> exists a', AddrFromSlice (To16 ip) = Some a' /\ Unmap a' = Unmap a.
Proof.
  intros Hb Ha. unfold To16. destruct (Nat.eqb_spec (List.length ip) 4) as [H4|]; [|by exists a].
  unfold AddrFromSlice in *. rewrite H4 in Ha. injection Ha as <-. rewrite length_app, H4. change (List.length v4_in_v6 + 4)%nat with 16%nat. cbn [Nat.eqb]. eexists. split; [done|].
  unfold Unmap. cbn [is4 addr_bits negb andb].
  assert (addr_value (v4_in_v6 ++ ip) = 65535 * 2 ^ 32 + addr_value ip) as ->.
  { unfold addr_value. rewrite fold_left_app, addr_value_acc, H4. done. }
  pose proof (addr_value_range ip Hb) as Hr. rewrite H4 in Hr. change (256 ^ Z.of_nat 4) with (2 ^ 32) in Hr.
  rewrite Z.shiftr_div_pow2, Z.div_add_l, Z.div_small by lia. change (65535 + 0 =? 65535) with true. cbv iota.
  by rewrite (Z.add_comm (65535 * 2 ^ 32)), Z.mod_add, Z.mod_small by lia.
Qed.

Lemma to16_classes ip :
  bytes_ok ip -> IsNonPublicIP (To16 ip) = IsNonPublicIP ip /\ IsPrivateOrLoopbackIP (To16 ip) = IsPrivateOrLoopbackIP ip.
Proof.
  intros Hb. unfold IsNonPublicIP, IsPrivateOrLoopbackIP. destruct (AddrFromSlice ip) as [a|] eqn:E.
  - destruct (to16_same ip a Hb E) as (a' & -> & ->). done.
  - assert (To16 ip = ip) as ->; [|by rewrite E]. unfold To16. destruct (Nat.eqb_spec (List.length ip) 4) as [H4|]; [|done].
    unfold AddrFromSlice in E. by rewrite H4 in E.
Qed.

Lemma slice_length ip a : AddrFromSlice ip = Some a -> List.length ip = 4%nat \/ List.length ip = 16%nat.
Proof.
  unfold AddrFromSlice. destruct (Nat.eqb_spec (List.length ip) 4); [by left|].
  destruct (Nat.eqb_spec (List.length ip) 16); [by right|done].
Qed.

Definition clean_port (port : string) : Prop := has_byte ":" port = false /\ has_byte "[" port = false /\ has_byte "]" port = false.
Lemma split_port_clean addr host port : SplitHostPort addr = Some (host, port) -> clean_port port.
Proof.
  unfold SplitHostPort, clean_port. destruct (cut_last ":" addr) as [[before p]|] eqn:E; [|done].
  apply cut_last_Some in E as [-> Hp]. set (addr := String.append before (String ":" p)).
  assert ((if has_byte ":" before || has_byte "[" addr || has_byte "]" addr then None else Some (before, p)) = Some (host, port) -> clean_port port) as Hplain.
  { destruct (_ || _) eqn:E; [done|]. rewrite !orb_false_iff in E. intros [= _ <-]. destruct E as [[_ E1] E2]. unfold addr in E1, E2.
    rewrite has_byte_append, has_byte_cons, !orb_false_iff in E1, E2. unfold clean_port. tauto. }
  destruct addr as [|c rest] eqn:Ea; [done|]. destruct (decide (c = "["%char)) as [->|Hc].
  - destruct (cut "]" rest) as [[h after]|] eqn:Ec; [|done]. destruct after as [|d q]; [done|].
    destruct (decide (d = ":"%char)) as [->|Hd]; [|by destruct d as [[] [] [] [] [] [] [] []]].
    destruct (has_byte ":" q || _ || _) eqn:E; [done|]. intros [= _ <-].
    apply cut_Some in Ec as [-> _]. rewrite has_byte_append, !has_byte_cons, !orb_false_iff in E. tauto.
  - intros H. apply Hplain. by destruct c as [[] [] [] [] [] [] [] []].
Qed.

(** Reading a dialed text gives the address it was printed from. *)
Lemma dialed_text ip port :
  bytes_ok ip -> List.length ip = 4%nat \/ List.length ip = 16%nat -> clean_port port ->
  exists text, SplitHostPort (address_of ip port) = Some (text, port) /\ ParseIP text = Some (To16 ip).
Proof.
  intros Hb Hl (P0 & P1 & P2). exists (ip_String ip). destruct (printed_clean ip Hb Hl) as [H1 H2].
  split; [by apply split_joined|by apply parse_printed].
Qed.

(** ** Dialing *)
Section dialing.
Context {Conn : Type}.
Variable resolve : string -> res (list (option IP)).
Variable dial : list string -> string -> res Conn.
Variable ctx_Err : list string -> option error.

(** The resolver's answers are bytes. *)
Definition answers_bytes : Prop := forall host ips ip, resolve host = Ok ips -> Some ip ∈ ips -> bytes_ok ip.

Lemma dial_each_targets stop port ips tried e r dialed :
  dial_each dial ctx_Err stop port ips tried e = (r, dialed) ->
  exists more, dialed = tried ++ more /\ more `prefix_of` ((fun ip => address_of ip port) <$> ips).
Proof.
  revert tried e. induction ips as [|ip ips IH]; intros tried e; cbn [dial_each].
  - intros [= _ <-]. exists []. by rewrite app_nil_r.
  - assert (forall more, more `prefix_of` ((fun ip => address_of ip port) <$> ips) ->
      address_of ip port :: more `prefix_of` ((fun ip => address_of ip port) <$> ip :: ips)) as Hcons by (intros; by apply prefix_cons).
    destruct (dial tried (address_of ip port)) as [conn|e'].
    + intros [= _ <-]. exists [address_of ip port]. split; [done|]. apply Hcons, prefix_nil.
    + destruct (if stop then _ else None) as [e''|].
      * intros [= _ <-]. exists [address_of ip port]. split; [done|]. apply Hcons, prefix_nil.
      * intros (more & -> & Hm)%IH. exists (address_of ip port :: more). rewrite <- app_assoc. split; [done|]. by apply Hcons.
Qed.

Lemma check_addresses_ok allow ips saw saw' :
  check_addresses allow ips saw = inl saw' ->
  (forall ip, ip ∈ ips -> exists ip', ip = Some ip' /\
    (IsNonPublicIP ip' = false /\ saw'.1 = true \/ IsNonPublicIP ip' = true /\ allow = true /\ IsPrivateOrLoopbackIP ip' = true /\ saw'.2 = true)) /\
  (saw.1 = true -> saw'.1 = true) /\ (saw.2 = true -> saw'.2 = true).
Proof.
  revert saw. induction ips as [|[ip|] ips IH]; intros saw; cbn [check_addresses]; [|..|done].
  - intros [= <-]. split; [|done]. by intros ip Hip%not_elem_of_nil.
  - destruct (IsNonPublicIP ip) eqn:En; cbn [negb].
    + destruct allow eqn:Eal, (IsPrivateOrLoopbackIP ip) eqn:Ep; try done. cbn [negb orb].
      intros (H1 & H2 & H3)%IH. cbn [fst snd] in *. split; [|by split; [done|intros; by apply H3]].
      intros ip' [->|Hip]%elem_of_cons; [|by apply H1]. exists ip. split; [done|]. right. split_and!; auto.
    + intros (H1 & H2 & H3)%IH. cbn [fst snd] in *. split; [|split; [by intros; apply H2|done]].
      intros ip' [->|Hip]%elem_of_cons; [|by apply H1]. exists ip. split; [done|]. left. auto.
Qed.

(** The addresses of a host that a guarded client may connect to. *)
Definition reachable (policy : Policy) (host : string) (ip : IP) : Prop :=
  (IsNonPublicIP ip = false /\ exists a, AddrFromSlice ip = Some a /\ inside (Unmap a) = false) \/
  (AllowsPrivateAddresses policy host = true /\ IsPrivateOrLoopbackIP ip = true).

Lemma reachable_16 policy host ip :
  bytes_ok ip -> IsNonPublicIP ip = false \/ AllowsPrivateAddresses policy host = true /\ IsPrivateOrLoopbackIP ip = true ->
  reachable policy host (To16 ip) /\ (List.length ip = 4%nat \/ List.length ip = 16%nat).
Proof.
  intros Hb H. destruct (to16_classes ip Hb) as [En Ep]. split.
  - destruct H as [H|[H1 H2]]; [left|right; by rewrite Ep]. rewrite En. split; [done|]. apply public_is_outside. by rewrite En.
  - destruct (AddrFromSlice ip) as [a|] eqn:Ea; [by eapply slice_length|].
    destruct H as [H|[_ H]]; [unfold IsNonPublicIP in H|unfold IsPrivateOrLoopbackIP in H]; by rewrite Ea in H.
Qed.

(** What is dialed belongs to a checked address. *)
Lemma dialed_checked addr policy r dialed target :
  DialValidatedIP resolve dial ctx_Err addr policy = (r, dialed) -> target ∈ dialed ->
  exists host port ip, SplitHostPort addr = Some (host, port) /\ target = address_of ip port /\
    (ParseIP host = Some ip \/ exists ips, resolve host = Ok ips /\ Some ip ∈ ips) /\
    (IsNonPublicIP ip = false \/ AllowsPrivateAddresses policy host = true /\ IsPrivateOrLoopbackIP ip = true).
Proof.
  unfold DialValidatedIP. destruct (SplitHostPort addr) as [[host port]|]; [|by intros [= _ <-] ?%not_elem_of_nil].
  destruct (ParseIP host) as [ip|] eqn:Ep.
  { destruct (IsNonPublicIP ip) eqn:En; [by intros [= _ <-] ?%not_elem_of_nil|]. intros [= _ <-] ->%list_elem_of_singleton.
    exists host, port, ip. split_and!; auto. }
  destruct (resolve host) as [ips|] eqn:Er; [|by intros [= _ <-] ?%not_elem_of_nil].
  destruct ips as [|ip0 ips0] eqn:Eips; [by intros [= _ <-] ?%not_elem_of_nil|]. rewrite <- Eips in *. clear Eips.
  destruct (check_addresses _ ips _) as [[sp sv]|e] eqn:Ec; [|by intros [= _ <-] ?%not_elem_of_nil].
  destruct (dial_each dial ctx_Err true port (omap id ips) [] (PlainError "")) as [r' tried] eqn:Ed.
  assert (forall r'', (r'', tried) = (r, dialed) -> target ∈ dialed -> exists host' port' ip, Some (host, port) = Some (host', port') /\ target = address_of ip port' /\
    (ParseIP host' = Some ip \/ exists ips', resolve host' = Ok ips' /\ Some ip ∈ ips') /\
    (IsNonPublicIP ip = false \/ AllowsPrivateAddresses policy host' = true /\ IsPrivateOrLoopbackIP ip = true)) as Hmain.
  { intros r'' [= _ <-] Ht. apply dial_each_targets in Ed as (more & -> & Hm). rewrite app_nil_l in Ht.
    apply (elem_of_prefix _ _ _ Ht), list_elem_of_fmap in Hm as (ip & -> & (oip & Hin & Hid)%list_elem_of_omap). cbn in Hid. subst oip.
    exists host, port, ip. split_and!; [done..|right; by exists ips|].
    apply check_addresses_ok in Ec as (Hc & _ & _). destruct (Hc _ Hin) as (ip' & [= <-] & [[H _]|(_ & H1 & H2 & _)]); auto. }
  destruct sp, sv; first [by intros [= _ <-] ?%not_elem_of_nil|intros H; by eapply Hmain].
Qed.

(** C14: a guarded client connects only where it may. Each text handed to the
    dialer splits into an address and the port asked for, and parses to an
    address that is public - not loopback, private, link-local, multicast,
    broadcast or unspecified, in IPv4, IPv6 or IPv4 inside IPv6 - or that is
    private while the policy names the host. And no name is resolved twice:
    the address is the literal asked for or one of the resolver's answer. *)
Theorem dials_stay_outside addr policy r dialed target :
  answers_bytes -> DialValidatedIP resolve dial ctx_Err addr policy = (r, dialed) -> target ∈ dialed ->
  exists host port text ip,
    SplitHostPort addr = Some (host, port) /\ SplitHostPort target = Some (text, port) /\ ParseIP text = Some (To16 ip) /\
    (ParseIP host = Some ip \/ exists ips, resolve host = Ok ips /\ Some ip ∈ ips) /\
    reachable policy host (To16 ip).
Proof.
  intros Hbytes Hdial (host & port & ip & Hs & -> & Hsrc & Hok)%(dialed_checked _ _ _ _ _ Hdial).
  assert (bytes_ok ip) as Hb by (destruct Hsrc as [[_ ?]%ParseIP_ok|(ips & Hr & Hin)]; [done|by eapply Hbytes]).
  destruct (reachable_16 policy host ip Hb Hok) as [Hre Hl].
  destruct (dialed_text ip port Hb Hl) as (text & H1 & H2); [by eapply split_port_clean|]. exists host, port, text, ip. auto.
Qed.

(** *** The first address that answers *)
Definition targets (port : string) (ips : list IP) : list string := (fun ip => address_of ip port) <$> ips.

Lemma dial_each_first stop port before ip after conn tried e :
  (forall before1 x before2, before = before1 ++ x :: before2 ->
    (exists e, dial (tried ++ targets port before1) (address_of x port) = Err e) /\ ctx_Err (tried ++ targets port (before1 ++ [x])) = None) ->
  dial (tried ++ targets port before) (address_of ip port) = Ok conn ->
  dial_each dial ctx_Err stop port (before ++ ip :: after) tried e = (Ok conn, tried ++ targets port (before ++ [ip])).
Proof.
  revert tried e. induction before as [|x before IH]; intros tried e Hf Hd; cbn [dial_each app].
  - cbn [targets fmap list_fmap] in Hd. rewrite app_nil_r in Hd. by rewrite Hd.
  - destruct (Hf [] x before eq_refl) as [[e' Hx] Hc]. cbn [targets fmap list_fmap app] in Hx, Hc. rewrite app_nil_r in Hx.
    rewrite Hx, Hc. assert ((if stop then None else None) = @None error) as -> by by destruct stop.
    rewrite (IH (tried ++ [address_of x port])).
    + by rewrite <- app_assoc.
    + intros before1 y before2 ->. rewrite <- !app_assoc. apply (Hf (x :: before1) y before2). done.
    + rewrite <- app_assoc. exact Hd.
Qed.

Lemma check_addresses_public allow ips saw :
  (forall ip, ip ∈ ips -> IsNonPublicIP ip = false) ->
  check_addresses allow (Some <$> ips) saw = inl (saw.1 || bool_decide (ips <> []), saw.2).
Proof.
  revert saw. induction ips as [|ip ips IH]; intros saw H; cbn [fmap list_fmap check_addresses].
  - rewrite orb_false_r. by destruct saw.
  - rewrite (H ip) by by left. cbn [negb]. fold (Some <$> ips). rewrite IH by (intros; apply H; by right). cbn [fst snd].
    rewrite (bool_decide_eq_true_2 (ip :: ips <> [])) by done. by rewrite orb_true_r.
Qed.

(** A host that resolves to public addresses only is connected to, at the
    first of them that answers, in the order of the resolver, as long as the
    context is not done; nothing is dialed after it. *)
Theorem first_public_answer_connects addr policy host port before ip after conn :
  SplitHostPort addr = Some (host, port) -> ParseIP host = None ->
  resolve host = Ok (Some <$> before ++ ip :: after) -> (forall x, x ∈ before ++ ip :: after -> IsNonPublicIP x = false) ->
  (forall before1 x before2, before = before1 ++ x :: before2 ->
    (exists e, dial (targets port before1) (address_of x port) = Err e) /\ ctx_Err (targets port (before1 ++ [x])) = None) ->
  dial (targets port before) (address_of ip port) = Ok conn ->
  DialValidatedIP resolve dial ctx_Err addr policy = (inl (conn, host), targets port (before ++ [ip])).
Proof.
  intros Hs Hp Hr Hpub Hfail Hd. unfold DialValidatedIP. rewrite Hs, Hp, Hr.
  set (ips := before ++ ip :: after) in *. assert (ips <> []) as Hne by by destruct before.
  pose proof (check_addresses_public (AllowsPrivateAddresses policy host) ips (false, false) Hpub) as Hc.
  assert (omap id (Some <$> ips) = ips) as Ho.
  { generalize ips as l. induction l as [|x l IH]; [done|]. cbn. f_equal. exact IH. }
  pose proof (dial_each_first true port before ip after conn [] (PlainError "") Hfail Hd) as He. fold ips in He. rewrite <- Ho in He.
  destruct (Some <$> ips) as [|o l] eqn:El; [by destruct ips|]. rewrite Hc. cbn [fst snd orb].
  rewrite bool_decide_eq_true_2 by done. by rewrite He.
Qed.

(** *** The loopback transport *)
Lemma loopback_16 ip : ip_IsLoopback (To16 ip) = ip_IsLoopback ip.
Proof.
  unfold To16, ip_IsLoopback. destruct (Nat.eqb_spec (List.length ip) 4) as [H4|]; [|done].
  unfold To4. rewrite length_app, H4. cbn [v4_in_v6 List.length app replicate Nat.add Nat.eqb].
  change (255 :: 255 :: ip) with ([255; 255] ++ ip). change (drop 12 (v4_in_v6 ++ ip)) with ip. done.
Qed.

Lemma loopback_length ip : ip_IsLoopback ip = true -> List.length ip = 4%nat \/ List.length ip = 16%nat.
Proof.
  unfold ip_IsLoopback, To4. destruct (Nat.eqb_spec (List.length ip) 4); [by left|].
  destruct (Nat.eqb_spec (List.length ip) 16); [by right|]. cbn [andb]. intros ->%bool_decide_eq_true. done.
Qed.

(** The transport for local services connects to loopback addresses only,
    whatever a name resolves to: each text it hands to the dialer parses to one. *)
Theorem loopback_dials_stay_home addr r dialed target :
  answers_bytes -> DialLoopback resolve dial ctx_Err addr = (r, dialed) -> target ∈ dialed ->
  exists text port ip, SplitHostPort target = Some (text, port) /\ ParseIP text = Some ip /\ ip_IsLoopback ip = true.
Proof.
  intros Hbytes. unfold DialLoopback. destruct (SplitHostPort addr) as [[host port]|] eqn:Es; [|by intros [= _ <-] ?%not_elem_of_nil].
  apply split_port_clean in Es.
  assert (forall ip, bytes_ok ip -> ip_IsLoopback ip = true -> target = address_of ip port ->
    exists text port ip, SplitHostPort target = Some (text, port) /\ ParseIP text = Some ip /\ ip_IsLoopback ip = true) as Hmain.
  { intros ip Hb Hl ->. destruct (dialed_text ip port Hb (loopback_length ip Hl) Es) as (text & H1 & H2).
    exists text, port, (To16 ip). by rewrite loopback_16. }
  destruct (ParseIP host) as [ip|] eqn:Ep.
  { destruct (ip_IsLoopback ip) eqn:El; cbn [negb]; [|by intros [= _ <-] ?%not_elem_of_nil].
    intros [= _ <-] ->%list_elem_of_singleton. apply ParseIP_ok in Ep as [_ Hb]. by apply (Hmain ip). }
  destruct (resolve host) as [ips|] eqn:Er; [|by intros [= _ <-] ?%not_elem_of_nil].
  destruct (existsb _ ips) eqn:Ex; [by intros [= _ <-] ?%not_elem_of_nil|].
  destruct (_ =? _)%nat; [by intros [= _ <-] ?%not_elem_of_nil|]. intros (more & -> & Hm)%dial_each_targets Ht. rewrite app_nil_l in Ht.
  apply (elem_of_prefix _ _ _ Ht), list_elem_of_fmap in Hm as (ip & Heq & (oip & Hin & Hid)%list_elem_of_omap). cbn in Hid. subst oip.
  apply (Hmain ip); [by eapply Hbytes| |done]. destruct (ip_IsLoopback ip) eqn:El; [done|]. exfalso.
  apply not_true_iff_false in Ex. apply Ex, existsb_exists. exists (Some ip). rewrite El. split; [by apply list_elem_of_In|done].
Qed.

(** *** The TLS configuration over a checked connection *)
Lemma tls_over_checked (handshake : Conn -> TLSConfig -> res unit) tls addr policy r cfg dialed :
  DialTLS resolve dial ctx_Err handshake tls addr policy = (r, Some cfg, dialed) ->
  (exists conn host, DialValidatedIP resolve dial ctx_Err addr policy = (inl (conn, host), dialed) /\
    ServerName cfg = match tls with Some c => if is_empty (ServerName c) then host else ServerName c | None => host end) /\
  MinVersion cfg = match tls with Some c => if MinVersion c =? 0 then VersionTLS12 else MinVersion c | None => VersionTLS12 end.
Proof.
  unfold DialTLS. destruct (DialValidatedIP _ _ _ addr policy) as [[[conn host]|e] tried]; [|done]. intros [= _ <- <-].
  split; [exists conn, host; split; [done|]|]; destruct tls as [c|]; try done; cbn [CloneTLSConfig MinVersion ServerName];
    by destruct (is_empty (ServerName c)).
Qed.
End dialing.

(** ** A resolver and a dialer *)
Definition demo_resolve (host : string) : res (list (option IP)) :=
  if str_eqb host "a.example" then Ok (Some <$> [ip_text "93.184.216.34"; ip_text "2606:2800:220:1::248"])
  else if str_eqb host "rebound.example" then Ok [Some (ip_text "93.184.216.34"); Some (ip_text "::ffff:10.0.0.5")]
  else if str_eqb host "db.test" then Ok [Some [10; 0; 0; 5]] else if str_eqb host "localhost" then Ok [Some (ip_text "::1")]
  else Err (DNSError true false false).
(** Only IPv6 and private addresses answer. *)
Definition demo_dial (tried : list string) (target : string) : res string :=
  if str_eqb target "93.184.216.34:443" then Err (PlainError "refused") else Ok target.
Definition demo_ctx (tried : list string) : option error := None.
Definition demo_policy : Policy := {| PrivateAddressHosts := [".test"]%string |}.

Example demo_dials :
  (fun addr => (DialValidatedIP demo_resolve demo_dial demo_ctx addr demo_policy).2) <$>
    ["a.example:443"; "rebound.example:443"; "db.test:5432"; "[::1]:80"; "169.254.169.254:80"; "[2606:2800:220:1::248]:443"]%string
  = [["93.184.216.34:443"; "[2606:2800:220:1::248]:443"]; []; ["10.0.0.5:5432"]; []; []; ["[2606:2800:220:1::248]:443"]]%string.
Proof. vm_compute. reflexivity. Qed.

Lemma demo_bytes : answers_bytes demo_resolve.
Proof.
  intros host ips ip. unfold demo_resolve.
  assert (forall ips, forallb (fun o : option IP => match o with Some ip => forallb (fun b => (0 <=? b) && (b <? 256)) ip | None => true end) ips = true ->
    Some ip ∈ ips -> bytes_ok ip) as H.
  { clear. intros ips H Hin. rewrite forallb_forall in H. apply list_elem_of_In in Hin. specialize (H _ Hin). cbn beta iota in H.
    rewrite forallb_forall in H. apply Forall_forall. intros b Hb%list_elem_of_In. specialize (H b Hb). rewrite andb_true_iff in H. lia. }
  repeat match goal with |- (if ?c then _ else _) = _ -> _ => destruct c; [intros [= <-]; apply H; vm_compute; reflexivity|] end. done.
Qed.

Lemma dials_stay_outside_witness :
  exists host port text ip,
    SplitHostPort "db.test:5432" = Some (host, port) /\ SplitHostPort "10.0.0.5:5432" = Some (text, port) /\ ParseIP text = Some (To16 ip) /\
    (ParseIP host = Some ip \/ exists ips, demo_resolve host = Ok ips /\ Some ip ∈ ips) /\ reachable demo_policy host (To16 ip).
Proof.
  apply (dials_stay_outside demo_resolve demo_dial demo_ctx "db.test:5432" demo_policy (inl ("10.0.0.5:5432"%string, "db.test"%string)) ["10.0.0.5:5432"%string] "10.0.0.5:5432").
  - exact demo_bytes.
  - vm_compute; reflexivity.
  - left.
Defined.

Lemma loopback_dials_stay_home_witness :
  exists text port ip, SplitHostPort "[::1]:8080" = Some (text, port) /\ ParseIP text = Some ip /\ ip_IsLoopback ip = true.
Proof.
  apply (loopback_dials_stay_home demo_resolve demo_dial demo_ctx "localhost:8080" (Ok "[::1]:8080"%string) ["[::1]:8080"%string] "[::1]:8080").
  - exact demo_bytes.
  - vm_compute; reflexivity.
  - left.
Defined.

Lemma first_public_answer_connects_witness :
  DialValidatedIP demo_resolve demo_dial demo_ctx "a.example:443" demo_policy
  = (inl ("[2606:2800:220:1::248]:443", "a.example"), targets "443" [ip_text "93.184.216.34"; ip_text "2606:2800:220:1::248"])%string.
Proof.
  apply (first_public_answer_connects demo_resolve demo_dial demo_ctx "a.example:443" demo_policy "a.example" "443"
    [ip_text "93.184.216.34"] (ip_text "2606:2800:220:1::248") []).
  - vm_compute; reflexivity.
  - vm_compute; reflexivity.
  - vm_compute; reflexivity.
  - assert (forallb (fun x => negb (IsNonPublicIP x)) [ip_text "93.184.216.34"; ip_text "2606:2800:220:1::248"] = true) as H by (vm_compute; reflexivity).
    rewrite forallb_forall in H. intros x Hx. apply negb_true_iff, H. by apply list_elem_of_In.
  - intros [|y [|]] x before2 E; [|discriminate E|discriminate E]. injection E as <- <-. split; [|reflexivity].
    exists (PlainError "refused"). vm_compute; reflexivity.
  - vm_compute; reflexivity.
Defined.
