(* ===== verification/DnsTtl.v ===== *)
(** * DnsTtl: the lifetimes of TXT records

    dns_ttl.go: the resolver of the Go library does not tell the TTL of a
    record, so the connections it reads are watched. Datagrams are messages; a
    stream carries messages behind a two-byte length and arrives in pieces.
    The parser of messages (golang.org/x/net/dns/dnsmessage) is the operation
    of [DnsMessage]. *)

From Stdlib Require Import ZArith Lia Ascii String.
From S2P Require Import Prelude Codec.

Open Scope Z_scope.

Inductive dns_type := TypeTXT | TypeCNAME | OtherType (code : Z).
#[export] Instance dns_type_eq_dec : EqDecision dns_type.
Proof. solve_decision. Defined.

Record Resource := { a_Type : dns_type; a_ClassINET : bool; a_TTL : Z; a_TXT : option (list string) }.
Record Message := {
  Response : bool;
  Truncated : bool;
  RCodeSuccess : bool;
  Questions : list dns_type;
  Answers : list Resource
}.
Class DnsMessage := { Unpack : string -> option Message }.

Section capture.
Context {D : DnsMessage}.

(** [c.ttls]: from the text of a record to its duration in nanoseconds. *)
Abbreviation ttls := (gmap string Z).

Definition max_uint32 : Z := 2 ^ 32 - 1.
Definition usable (msg : Message) : bool :=
  Response msg && negb (Truncated msg) && RCodeSuccess msg && bool_decide (Questions msg = [TypeTXT]).
(** Aliases cannot be trusted longer than the CNAME that led to the TXT. *)
Fixpoint alias_ttl (answers : list Resource) (aliasTTL : Z) : Z :=
  match answers with
  | [] => aliasTTL
  | a :: answers => alias_ttl answers (if bool_decide (a_Type a = TypeCNAME) && (a_TTL a <? aliasTTL) then a_TTL a else aliasTTL)
  end.
Fixpoint joined (l : list string) : string := match l with [] => EmptyString | s :: l => String.append s (joined l) end.
Definition observe_answer (aliasTTL : Z) (answer : Resource) (m : ttls) : ttls :=
  if negb (bool_decide (a_Type answer = TypeTXT)) || negb (a_ClassINET answer) then m
  else match a_TXT answer with
  | None => m
  | Some txt =>
      let value := joined txt in
      let duration := Z.min (a_TTL answer) aliasTTL * second in
      match m !! value with
      | Some old => if duration <? old then <[value := duration]> m else m
      | None => <[value := duration]> m
      end
  end.
(** [observe]. *)
Definition observe (data : string) (m : ttls) : ttls :=
  match Unpack data with
  | None => m
  | Some msg =>
      if negb (usable msg) then m
      else fold_left (fun m a => observe_answer (alias_ttl (Answers msg) max_uint32) a m) (Answers msg) m
  end.

(** [Read] of a datagram connection: [n] bytes of the buffer. *)
Definition datagram_read (data : string) (m : ttls) : ttls := if is_empty data then m else observe data m.

(** [Read] of a stream: the bytes it read are appended to those pending, and
    the whole messages among them observed. *)
Fixpoint drain (fuel : nat) (pending : string) (m : ttls) : string * ttls :=
  match fuel with
  | O => (pending, m)
  | S fuel =>
      match pending with
      | String a (String b rest) =>
          let length := Z.to_nat (256 * byte_val a + byte_val b) in
          if (String.length rest <? length)%nat then (pending, m)
          else drain fuel (str_drop length rest) (observe (str_take length rest) m)
      | _ => (pending, m)
      end
  end.
Definition stream_read (chunk : string) (st : string * ttls) : string * ttls :=
  let pending := String.append st.1 chunk in drain (String.length pending) pending st.2.

(** ** Pieces do not matter *)
Lemma str_take_within n s t : (n <= String.length s)%nat -> str_take n (String.append s t) = str_take n s.
Proof. revert s. induction n as [|n IH]; intros [|c s] H; cbn in H; try done; try lia. rewrite append_cons. cbn. rewrite IH by lia. done. Qed.
Lemma str_drop_within n s t : (n <= String.length s)%nat -> str_drop n (String.append s t) = String.append (str_drop n s) t.
Proof. revert s. induction n as [|n IH]; intros [|c s] H; cbn in H; try done; try lia. rewrite append_cons. cbn. apply IH. lia. Qed.

Lemma drain_enough n n' pending m :
  (String.length pending <= n)%nat -> (String.length pending <= n')%nat -> drain n pending m = drain n' pending m.
Proof.
  revert n' pending m. induction n as [|n IH]; intros [|n'] pending m H H'; destruct pending as [|a [|b rest]]; try done; cbn in H, H'; try lia.
  cbn [drain]. destruct (Nat.ltb_spec (String.length rest) (Z.to_nat (256 * byte_val a + byte_val b))); [done|].
  apply IH; rewrite str_drop_length; lia.
Qed.

Lemma drain_append n pending m more :
  (String.length pending <= n)%nat ->
  let '(rest, m') := drain n pending m in
  drain (n + String.length more) (String.append pending more) m = drain (String.length rest + String.length more) (String.append rest more) m'.
Proof.
  revert pending m. induction n as [|n IH]; intros pending m Hn.
  - destruct pending; [done|cbn in Hn; lia].
  - cbn [drain]. destruct pending as [|a [|b rest]]; [apply drain_enough; rewrite append_length; cbn [String.length] in *; lia..|].
    destruct (Nat.ltb_spec (String.length rest) (Z.to_nat (256 * byte_val a + byte_val b))) as [Hlt|Hge].
    + apply drain_enough; rewrite append_length; cbn [String.length] in *; lia.
    + rewrite !append_cons. cbn [Nat.add drain String.length] in *.
      rewrite (proj2 (Nat.ltb_ge _ _)) by (rewrite append_length; lia).
      specialize (IH (str_drop (Z.to_nat (256 * byte_val a + byte_val b)) rest) (observe (str_take (Z.to_nat (256 * byte_val a + byte_val b)) rest) m)).
      rewrite str_take_within, str_drop_within by lia. apply IH. rewrite str_drop_length. lia.
Qed.

Lemma stream_read_append a b st : stream_read b (stream_read a st) = stream_read (String.append a b) st.
Proof.
  destruct st as [p m]. unfold stream_read. cbn [fst snd]. rewrite append_assoc.
  pose proof (drain_append (String.length (String.append p a)) (String.append p a) m b (Nat.le_refl _)) as H.
  destruct (drain _ (String.append p a) m) as [rest m']. cbn [fst snd]. rewrite (append_length (String.append p a)), H.
  by rewrite append_length.
Qed.

Lemma drain_idle p m : drain (String.length p) p m = drain (String.length p + 0) p m.
Proof. by rewrite Nat.add_0_r. Qed.

(** The reads of a stream, one after the other. *)
Definition reads_of (chunks : list string) (st : string * ttls) : string * ttls := fold_left (fun st c => stream_read c st) chunks st.
Lemma chunks_joined c chunks st : reads_of (c :: chunks) st = stream_read (joined (c :: chunks)) st.
Proof.
  revert c st. induction chunks as [|d chunks IH]; intros c st.
  - cbn. by rewrite append_nil_r.
  - change (reads_of (c :: d :: chunks) st) with (reads_of (d :: chunks) (stream_read c st)). rewrite IH, stream_read_append. done.
Qed.

(** A message with its length before it. *)
Definition frame (msg : string) : string :=
  String (byte_of (Z.of_nat (String.length msg) / 256)) (String (byte_of (Z.of_nat (String.length msg))) msg).
Lemma frame_length msg : Z.of_nat (String.length msg) < 65536 ->
  256 * byte_val (byte_of (Z.of_nat (String.length msg) / 256)) + byte_val (byte_of (Z.of_nat (String.length msg))) = Z.of_nat (String.length msg).
Proof.
  intros H. set (n := Z.of_nat (String.length msg)). assert (0 <= n < 65536) as Hn by lia.
  rewrite byte_val_of by (split; [apply Z.div_pos; lia|apply Z.div_lt_upper_bound; lia]).
  assert (byte_of n = byte_of (n mod 256)) as -> by (unfold byte_of; by rewrite Z.mod_mod).
  rewrite byte_val_of by (apply Z.mod_pos_bound; lia). pose proof (Z.div_mod n 256). lia.
Qed.

Lemma drain_frames msgs m n :
  Forall (fun msg => Z.of_nat (String.length msg) < 65536) msgs -> (String.length (joined (frame <$> msgs)) <= n)%nat ->
  drain n (joined (frame <$> msgs)) m = (EmptyString, fold_left (fun m msg => observe msg m) msgs m).
Proof.
  intros H. revert m n. induction H as [|msg msgs Hm _ IH]; intros m n Hn; [by destruct n|].
  cbn [fmap list_fmap joined fold_left] in *. fold (frame <$> msgs) in *. rewrite append_length in Hn. unfold frame at 1 in Hn. cbn [String.length] in Hn.
  destruct n as [|n]; [lia|]. unfold frame at 1. rewrite !append_cons. cbn [drain]. rewrite frame_length, Nat2Z.id by done.
  rewrite (proj2 (Nat.ltb_ge _ _)) by (rewrite append_length; lia). rewrite str_take_append, str_drop_append. apply IH. lia.
Qed.

(** ** What is remembered *)

(** The records of a message with their lifetimes. *)
Definition answer_lifetime (aliasTTL : Z) (a : Resource) : list (string * Z) :=
  if bool_decide (a_Type a = TypeTXT) && a_ClassINET a then
    match a_TXT a with Some txt => [(joined txt, Z.min (a_TTL a) aliasTTL * second)] | None => [] end
  else [].
Definition lifetimes (data : string) : list (string * Z) :=
  match Unpack data with
  | Some msg => if usable msg then Answers msg ≫= answer_lifetime (alias_ttl (Answers msg) max_uint32) else []
  | None => []
  end.

(** The map holds the least lifetime of each text. *)
Definition least_of (l : list (string * Z)) (m : ttls) : Prop :=
  forall v, match m !! v with
            | Some d => (v, d) ∈ l /\ forall d', (v, d') ∈ l -> d <= d'
            | None => forall d', (v, d') ∉ l
            end.

Lemma least_snoc l m v d :
  least_of l m ->
  least_of (l ++ [(v, d)]) (match m !! v with Some old => if d <? old then <[v := d]> m else m | None => <[v := d]> m end).
Proof.
  intros Hm w. pose proof (Hm w) as Hw. destruct (decide (v = w)) as [->|Hne].
  - destruct (m !! w) as [old|] eqn:E.
    + destruct Hw as [Hin Hle]. destruct (Z.ltb_spec d old); [rewrite lookup_insert_eq|rewrite E]; (split; [set_solver|]);
        intros d' [H'|[= <-]%list_elem_of_singleton]%elem_of_app; try apply Hle in H'; lia.
    + rewrite lookup_insert_eq. split; [set_solver|]. intros d' [H'|[= <-]%list_elem_of_singleton]%elem_of_app; [by apply Hw in H'|lia].
  - assert (match m !! v with Some old => if d <? old then <[v := d]> m else m | None => <[v := d]> m end !! w = m !! w) as ->.
    { destruct (m !! v) as [old|]; [destruct (d <? old)|]; [by rewrite lookup_insert_ne|done|by rewrite lookup_insert_ne]. }
    assert (forall d', (w, d') ∈ l ++ [(v, d)] <-> (w, d') ∈ l) as Hl.
    { intros d'. rewrite elem_of_app, list_elem_of_singleton. naive_solver. }
    destruct (m !! w); [rewrite Hl; split; [tauto|intros d' ?%Hl; by apply Hw]|intros d'; by rewrite Hl].
Qed.

Lemma least_answer l m alias a : least_of l m -> least_of (l ++ answer_lifetime alias a) (observe_answer alias a m).
Proof.
  intros Hm. unfold answer_lifetime, observe_answer. destruct (bool_decide (a_Type a = TypeTXT)), (a_ClassINET a); cbn [negb andb orb];
    try by rewrite app_nil_r.
  destruct (a_TXT a) as [txt|]; [by apply least_snoc|by rewrite app_nil_r].
Qed.

Lemma least_observe l m data : least_of l m -> least_of (l ++ lifetimes data) (observe data m).
Proof.
  unfold lifetimes, observe. destruct (Unpack data) as [msg|]; [|by rewrite app_nil_r]. destruct (usable msg); cbn [negb]; [|by rewrite app_nil_r].
  generalize (alias_ttl (Answers msg) max_uint32) as alias. intros alias. revert l m. induction (Answers msg) as [|a answers IH]; intros l m Hm; [by rewrite app_nil_r|].
  cbn [fold_left mbind list_bind]. rewrite app_assoc. by apply IH, least_answer.
Qed.

Lemma least_observed msgs l m : least_of l m -> least_of (l ++ (msgs ≫= lifetimes)) (fold_left (fun m msg => observe msg m) msgs m).
Proof.
  revert l m. induction msgs as [|msg msgs IH]; intros l m Hm; [by rewrite app_nil_r|].
  cbn [fold_left mbind list_bind]. rewrite app_assoc. by apply IH, least_observe.
Qed.

(** C23: the lifetimes captured from a stream depend on its messages only: in
    whatever pieces the bytes arrive, nothing is pending at the end, and each
    text that a usable answer carried has the least of its lifetimes, none
    longer than the CNAME before it. *)
Theorem captured_lifetimes_are_least chunks msgs :
  Forall (fun msg => Z.of_nat (String.length msg) < 65536) msgs -> joined chunks = joined (frame <$> msgs) ->
  exists m, reads_of chunks (EmptyString, ∅) = (EmptyString, m) /\ least_of (msgs ≫= lifetimes) m.
Proof.
  intros Hm Hj. exists (fold_left (fun m msg => observe msg m) msgs ∅). split.
  - destruct chunks as [|c chunks].
    + destruct msgs as [|msg msgs]; [done|]. by cbn in Hj.
    + rewrite chunks_joined, Hj. unfold stream_read. cbn [fst snd]. rewrite append_nil_l. by apply drain_frames.
  - apply (least_observed msgs []). intros v. rewrite lookup_empty. intros d. apply not_elem_of_nil.
Qed.

(** The alias bound is at most every CNAME's TTL. *)
Lemma alias_ttl_least answers ttl :
  alias_ttl answers ttl <= ttl /\ forall a, a ∈ answers -> a_Type a = TypeCNAME -> alias_ttl answers ttl <= a_TTL a.
Proof.
  revert ttl. induction answers as [|b answers IH]; intros ttl; cbn [alias_ttl]; [split; [lia|by intros a ?%not_elem_of_nil]|].
  destruct (IH (if bool_decide (a_Type b = TypeCNAME) && (a_TTL b <? ttl) then a_TTL b else ttl)) as [H1 H2]. split.
  - etrans; [exact H1|]. destruct (_ && _) eqn:E; [go_bool; lia|lia].
  - intros a [->|Ha]%elem_of_cons Ht; [|by apply H2]. etrans; [exact H1|]. rewrite bool_decide_eq_true_2 by done. cbn [andb].
    destruct (Z.ltb_spec (a_TTL b) ttl); lia.
Qed.
End capture.

(** ** A concrete stream *)
#[local] Instance demo_dns : DnsMessage := {
  Unpack data := match data with
    | String "A" v => Some {| Response := true; Truncated := false; RCodeSuccess := true; Questions := [TypeTXT];
        Answers := [{| a_Type := TypeCNAME; a_ClassINET := true; a_TTL := 60; a_TXT := None |};
                    {| a_Type := TypeTXT; a_ClassINET := true; a_TTL := 300; a_TXT := Some [v; v] |}] |}
    | String "B" v => Some {| Response := true; Truncated := false; RCodeSuccess := true; Questions := [TypeTXT];
        Answers := [{| a_Type := TypeTXT; a_ClassINET := true; a_TTL := 30; a_TXT := Some [v] |}] |}
    | _ => None
    end
}.
Lemma captured_lifetimes_are_least_witness :
  exists m, reads_of [String "000" EmptyString; String "002" "Ax"; String "000" (String "003" "B"); "xx"]%string (EmptyString, ∅) = (EmptyString, m) /\
  least_of (["Ax"; "Bxx"]%string ≫= lifetimes) m.
Proof. apply captured_lifetimes_are_least; [repeat (constructor; [reflexivity|]); constructor|reflexivity]. Defined.
Example demo_captured :
  map_to_list (reads_of [String "000" EmptyString; String "002" "Ax"; String "000" (String "003" "B"); "xx"]%string (EmptyString, ∅)).2 = [("xx"%string, 30 * second)].
Proof. vm_compute. reflexivity. Qed.
