(* ===== verification/JoseUtil.v ===== *)
(** * JoseUtil: keys and signatures of the token and HTTP profiles

    internal/joseutil, and the application's view of a verification:
    [VerifyIdentity] of verification_context.go over a resolver. A key
    provider is the operations its users call. *)

From Stdlib Require Import ZArith Lia Ascii String.
From S2P Require Import Prelude Codec Json Keys Fqdn TxtRecord KeyRing Jwks Domain LogReader Manager.

Open Scope Z_scope.

Section joseutil.
Context {key : Type} `{!KeyOps key} {I : Idna}.

Definition LookupJWKByKid (set : option (list key)) (kid : string) : option key :=
  if is_empty kid then None
  else set ← set; head (base.filter (fun k => bool_decide (key_id k = Some kid)) set).

Definition AlgForJWK (k : key) : option JoseAlg :=
  match key_type k with
  | OKP => if bool_decide (key_crv k = Some Ed25519) then Some JoseAlgEdDSA else None
  | EC => if bool_decide (key_crv k = Some P256) then Some JoseAlgES256 else None
  | OtherKeyType => None
  end.
Definition JWKAlg (k : key) : option JoseAlg := key_algorithm k.
Definition KeyUse (k : key) : string := default EmptyString (key_usage k).

Definition JWKMatchesAlg (k : key) (alg : JoseAlg) : bool :=
  match AlgForJWK k with
  | Some binding =>
      str_eqb binding alg && negb (str_eqb (KeyUse k) "enc")
      && match JWKAlg k with Some fieldAlg => str_eqb fieldAlg alg | None => true end
  | None => false
  end.
Definition SigningKeyEligible (k : key) : bool := is_empty (KeyUse k) || str_eqb (KeyUse k) "sig".

(** [KeyProvider]: its keys as they are during a call. [JWK()] without a kid
    is the active key; [Sign] and [SignKey] may return no signature at all. *)
Record KeyProvider := {
  kp_ListKeyIds : list string;
  kp_Active : option key;
  kp_JWK : string -> option key;
  kp_Sign : string -> res (option KeySignature);
  kp_SignKey : string -> string -> res (option KeySignature)
}.
(** Using a missing signature is a run-time panic where it is not checked. *)
Definition nil_signature : error := PlainError "invalid memory address or nil pointer dereference".
Definition signature_of (r : res (option KeySignature)) : res KeySignature :=
  sig ← r; match sig with Some s => Ok s | None => Err nil_signature end.

Definition ActiveSigningMetadata (kp : option KeyProvider) : res (string * JoseAlg) :=
  match kp with
  | None => Err (PlainError "dnsid: nil KeyProvider")
  | Some kp =>
      match kp_ListKeyIds kp with
      | [] => Err (PlainError "dnsid: KeyProvider has no active key")
      | kid :: _ =>
          match kp_JWK kp kid with
          | None => Err (PlainError "dnsid: KeyProvider returned no JWK for active kid")
          | Some k =>
              match (match JWKAlg k with Some a => Some a | None => AlgForJWK k end) with
              | None => Err (PlainError "dnsid: active key has unsupported alg")
              | Some alg =>
                  fail_if negb (alg_Valid alg) with PlainError "dnsid: active key has unsupported alg" ;;
                  fail_if negb (JWKMatchesAlg k alg) with PlainError "dnsid: active key does not match alg" ;;
                  Ok (kid, alg)
              end
          end
      end
  end.

Fixpoint VerifySignature (alg : JoseAlg) (signingInput signature : string) (keys : list key) : bool :=
  match keys with
  | [] => false
  | k :: keys =>
      if str_eqb alg JoseAlgEdDSA then
        if negb (Nat.eqb (String.length signature) 64) then false
        else match export_ed25519 k with
             | Some pub => Cryptoutil.VerifyEd25519 pub signingInput signature || VerifySignature alg signingInput signature keys
             | None => VerifySignature alg signingInput signature keys
             end
      else if str_eqb alg JoseAlgES256 then
        match export_p256 k with
        | Some pub => Cryptoutil.VerifyES256 pub signingInput signature || VerifySignature alg signingInput signature keys
        | None => VerifySignature alg signingInput signature keys
        end
      else VerifySignature alg signingInput signature keys
  end.

Definition SplitDNSIDKid (raw : string) : res (string * string) :=
  let malformed := Err (PlainError "kid must be {domain}#{kid}") in
  match cut "#" raw with
  | None => malformed
  | Some (domainPart, kidPart) =>
      if is_empty domainPart || is_empty kidPart || has_byte "#" kidPart then malformed
      else domain ← NormalizeFQDN domainPart; Ok (domain, kidPart)
  end.

(** ** Resolvers *)
Abbreviation VerifiedDomain := (VerifiedDomain key (LogReader (key:=key))).
Abbreviation chains := (list (option (string -> bool))).
Inductive IdentityResolver :=
| WithOptions (VerifyDomainWithOptions : string -> chains -> res VerifiedDomain)
| WithoutOptions (VerifyDomain : string -> res VerifiedDomain).

Definition VerifyIdentity (resolver : option IdentityResolver) (domain : string) (peer : chains) : res VerifiedDomain :=
  match resolver with
  | None => Err (ArgumentError "dnsid: IdentityResolver is required")
  | Some (WithOptions f) => f domain peer
  | Some (WithoutOptions f) =>
      vd ← f domain;
      (if hasPolicyFlag (record vd) PolicyFlagMTLS then verifyMTLSPeerChains domain peer else Ok tt) ;;
      Ok vd
  end.
End joseutil.

(** ** Compact serialisations (parsing.go) *)
Definition MaxTokenBytes : Z := Z.shiftl 1 20.
Definition MaxHeaderBytes : Z := Z.shiftl 16 10.
Definition MaxPayloadBytes : Z := Z.shiftl 768 10.

Definition jose_DecodeBase64URL (s : string) : res string :=
  fail_if has_byte "013" s || has_byte "010" s with PlainError "invalid base64url" ;;
  match Base64.decode true s with Some b => Ok b | None => Err (PlainError "illegal base64 data") end.

Definition str_len (s : string) : Z := Z.of_nat (String.length s).
Definition Compact (token : string) : res (list string * string * string) :=
  fail_if MaxTokenBytes <? str_len token with PlainError "token exceeds size limit" ;;
  match split "." token with
  | [p0; p1; p2] =>
      fail_if ((MaxHeaderBytes + 2) / 3 * 4 <? str_len p0) || is_empty p0 || is_empty p2
        with PlainError "invalid compact serialization" ;;
      header ← jose_DecodeBase64URL p0;
      payload ← jose_DecodeBase64URL p1;
      fail_if (MaxHeaderBytes <? str_len header) || (MaxPayloadBytes <? str_len payload)
        with PlainError "decoded token exceeds size limit" ;;
      _ ← jose_DecodeBase64URL p2;
      Ok ([p0; p1; p2], header, payload)
  | _ => Err (PlainError "invalid compact serialization")
  end.
