(* ===== verification/HttpSig.v ===== *)
(** * HttpSig: HTTP message signatures (httpsig/http_signatures.go)

    Covered components and their values, the signature base, the parsing of
    the signature headers and the verification of a request. Structured fields
    (parser, serialiser, their limits) and content digests come from libraries
    and are the parameters [Sfv] and [Digest]. A map that the code ranges over
    in no particular order is a list whose order is the caller's to choose. *)

From Stdlib Require Import ZArith Lia Ascii String.
From S2P Require Import Prelude Codec Json Keys Fqdn TxtRecord KeyRing Jwks Domain LogReader Fetch Manager Event NetHttp JoseUtil.

Open Scope Z_scope.

(** ** Structured fields (RFC 8941) *)
Inductive bare :=
| SfvBool (b : bool) | SfvInt (n : Z) | SfvString (s : string) | SfvBytes (s : string)
| SfvToken (s : string) | SfvDecimal (s : string).
#[export] Instance bare_eq_dec : EqDecision bare.
Proof. solve_decision. Defined.
Record SignatureParameter := Param { p_Name : string; p_Value : bare }.
Record sfv_Item := Item { i_Value : bare; i_Parameters : list SignatureParameter }.
Record InnerList := Inner { l_Items : list sfv_Item; l_Parameters : list SignatureParameter }.
Inductive member := MItem (i : sfv_Item) | MInner (l : InnerList).
(** [Keys] with the value of each in [Values]. *)
Definition Dictionary := list (string * member).

Class Sfv := {
  ParseItem : string -> option sfv_Item;
  ParseDictionary : string -> option Dictionary;
  SerializeItem : sfv_Item -> option string;
  SerializeInnerList : InnerList -> option string;
  SerializeDictionary : Dictionary -> option string;
  MaxInputLength : Z; MaxDictionaryMembers : Z; MaxStringLength : Z; MaxParameters : Z;
  (* [ParseDictionaryHeader] of web-bot-auth: the keys of the members *)
  ParseDictionaryHeader : string -> option (list string)
}.
Class Digest := {
  contentDigest : string -> string;
  VerifyContentDigestBytes : string -> string -> bool   (* under sha-256 *)
}.

Definition dict_get {A} (key : string) (d : list (string * A)) : option A :=
  first_some (fun m => if str_eqb m.1 key then Some m.2 else None) d.
Fixpoint dict_set {A} (key : string) (v : A) (d : list (string * A)) : list (string * A) :=
  match d with
  | [] => [(key, v)]
  | m :: d => if str_eqb m.1 key then (key, v) :: d else m :: dict_set key v d
  end.

Definition malformed (msg : string) : error := VerificationError "malformed_token" false msg.
Definition invalid_signature (msg : string) : error := VerificationError "signature_invalid" false msg.
Definition of_option {A} (e : error) (o : option A) : res A := match o with Some a => Ok a | None => Err e end.

(** ** Components *)
Record ComponentIdentifier := Component {
  c_Name : string;
  Params : gmap string bare;
  ParamOrder : list string
}.
Definition plain (name : string) : ComponentIdentifier := Component name ∅ [].
Definition component_name (c : ComponentIdentifier) : string := ToLower (TrimSpace (c_Name c)).
Definition has_req (c : ComponentIdentifier) : bool := bool_decide (Params c !! "req"%string = Some (SfvBool true)).
Definition param_string (k : string) (c : ComponentIdentifier) : option string :=
  match Params c !! k with Some (SfvString s) => Some s | _ => None end.

Definition isHTTPSignatureComponentName (component : string) : bool :=
  if bool_decide (component ∈ ["@method"; "@authority"; "@target-uri"; "@path"; "@query"; "@query-param"; "@request-target";
       "@scheme"; "@status"; "content-digest"]%string) then true
  else if has_prefix "@" component then false
  else forall_byte (fun c => let n := byte_val c in
         (97 <=? n) && (n <=? 122) || (48 <=? n) && (n <=? 57) || Ascii.eqb c "-") component && negb (is_empty component).

(** One entry of the loop over [component.Params]. *)
Definition validate_param (kv : string * bare) : res unit :=
  let '(k, v) := kv in
  if str_eqb k "req" then
    fail_if negb (bool_decide (v = SfvBool true)) with malformed "dnsid: malformed HTTP signature req parameter" ;; Ok tt
  else if str_eqb k "key" || str_eqb k "name" then
    match v with
    | SfvString s => fail_if is_empty s with malformed "dnsid: malformed HTTP signature component parameter" ;; Ok tt
    | _ => Err (malformed "dnsid: malformed HTTP signature component parameter")
    end
  else Err (malformed "dnsid: unsupported HTTP signature component parameter").
Fixpoint validate_params (l : list (string * bare)) : res unit :=
  match l with [] => Ok tt | kv :: l => validate_param kv ;; validate_params l end.

Definition has_param (k : string) (c : ComponentIdentifier) : bool := bool_decide (is_Some (Params c !! k)).
Definition validateComponentIdentifier (c : ComponentIdentifier) : res unit :=
  let originalName := TrimSpace (c_Name c) in
  let name := ToLower originalName in
  fail_if is_empty name || negb (isHTTPSignatureComponentName name) with malformed "dnsid: unsupported HTTP signature component" ;;
  fail_if negb (str_eqb originalName name) with malformed "dnsid: HTTP signature component names must be lowercase" ;;
  validate_params (map_to_list (Params c)) ;;
  let unsupported := malformed "dnsid: unsupported HTTP signature component parameter" in
  if str_eqb name "@query-param" then
    fail_if negb (has_param "name" c) || has_param "key" c with malformed "dnsid: @query-param requires name parameter" ;; Ok tt
  else if str_eqb name "@status" then
    fail_if has_param "req" c || has_param "key" c || has_param "name" c with unsupported ;; Ok tt
  else if bool_decide (name ∈ ["@method"; "@authority"; "@target-uri"; "@path"; "@query"; "@request-target"; "@scheme"]%string) then
    fail_if has_param "key" c || has_param "name" c with unsupported ;; Ok tt
  else fail_if has_prefix "@" name || has_param "name" c with unsupported ;; Ok tt.

Definition componentEqual (a b : ComponentIdentifier) : bool :=
  str_eqb (component_name a) (component_name b) && Nat.eqb (size (Params a)) (size (Params b))
  && forallb (fun kv => bool_decide (Params b !! kv.1 = Some kv.2)) (map_to_list (Params a)).
Definition containsComponent (values : list ComponentIdentifier) (want : ComponentIdentifier) : bool :=
  existsb (fun v => componentEqual v want) values.

Definition AppendComponent (components : list ComponentIdentifier) (c : ComponentIdentifier) : res (list ComponentIdentifier) :=
  let c := Component (component_name c) (Params c) (ParamOrder c) in
  match validateComponentIdentifier c with
  | Err e => Err (WithCause (ArgumentError "") e)
  | Ok _ =>
      fail_if containsComponent components c with ArgumentError "dnsid: duplicate HTTP signature component" ;;
      Ok (components ++ [c])
  end.

(** The parameters of [componentItem], each key once. *)
Fixpoint item_params (seen order : list string) (params : gmap string bare) : res (list SignatureParameter) :=
  match order with
  | [] => Ok []
  | k :: order =>
      if bool_decide (k ∈ seen) then item_params seen order params
      else match params !! k with
           | None => item_params (k :: seen) order params
           | Some v =>
               match v with
               | SfvBool _ | SfvString _ => rest ← item_params (k :: seen) order params; Ok (Param k v :: rest)
               | _ => Err (PlainError "dnsid: unsupported HTTP signature component parameter")
               end
           end
  end.
Definition componentItem (c : ComponentIdentifier) : res sfv_Item :=
  validateComponentIdentifier c ;;
  ps ← item_params [] (ParamOrder c ++ ["req"; "key"; "name"]%string) (Params c);
  Ok (Item (SfvString (component_name c)) ps).

(** ** Signature parameters *)
Record SignatureParams := {
  Label : string;
  Components : list ComponentIdentifier;
  KeyID : string; Alg : string;
  Created : Z; Expires : Z;
  Nonce : string; Tag : string;
  Parameters : option (list SignatureParameter);
  ExpectedSignerKid : string; ExpectedSignerAlg : string
}.
Definition no_params (label : string) (components : list ComponentIdentifier) (parameters : option (list SignatureParameter)) : SignatureParams :=
  {| Label := label; Components := components; KeyID := ""; Alg := ""; Created := 0; Expires := 0; Nonce := ""; Tag := "";
     Parameters := parameters; ExpectedSignerKid := ""; ExpectedSignerAlg := "" |}.
Definition with_components (cs : list ComponentIdentifier) (p : SignatureParams) : SignatureParams :=
  {| Label := Label p; Components := cs; KeyID := KeyID p; Alg := Alg p; Created := Created p; Expires := Expires p; Nonce := Nonce p;
     Tag := Tag p; Parameters := Parameters p; ExpectedSignerKid := ExpectedSignerKid p; ExpectedSignerAlg := ExpectedSignerAlg p |}.

Definition isKnownSignatureParameter (name : string) : bool :=
  bool_decide (name ∈ ["keyid"; "alg"; "created"; "expires"; "nonce"; "tag"]%string).
Definition hasSignatureParameter (p : SignatureParams) (name : string) : bool :=
  match Parameters p with
  | Some ps => existsb (fun q => str_eqb (p_Name q) name) ps
  | None =>
      if str_eqb name "created" then negb (Created p =? 0)
      else if str_eqb name "expires" then negb (Expires p =? 0)
      else if str_eqb name "keyid" then negb (is_empty (KeyID p))
      else if str_eqb name "alg" then negb (is_empty (Alg p))
      else if str_eqb name "nonce" then negb (is_empty (Nonce p))
      else if str_eqb name "tag" then negb (is_empty (Tag p))
      else false
  end.

Definition set_known (p : SignatureParams) (keyid alg : string) (created expires : Z) (nonce tag : string) : SignatureParams :=
  {| Label := Label p; Components := Components p; KeyID := keyid; Alg := alg; Created := created; Expires := expires;
     Nonce := nonce; Tag := tag; Parameters := Parameters p; ExpectedSignerKid := ExpectedSignerKid p;
     ExpectedSignerAlg := ExpectedSignerAlg p |}.
Definition assignKnownSignatureParameter (p : SignatureParams) (name : string) (v : bare) : res SignatureParams :=
  let bad := Err (malformed "dnsid: malformed HTTP signature parameter") in
  let str f := match v with SfvString s => Ok (f s) | _ => bad end in
  let int f := match v with SfvInt n => Ok (f n) | _ => bad end in
  if str_eqb name "keyid" then str (fun s => set_known p s (Alg p) (Created p) (Expires p) (Nonce p) (Tag p))
  else if str_eqb name "alg" then str (fun s => set_known p (KeyID p) s (Created p) (Expires p) (Nonce p) (Tag p))
  else if str_eqb name "created" then int (fun n => set_known p (KeyID p) (Alg p) n (Expires p) (Nonce p) (Tag p))
  else if str_eqb name "expires" then int (fun n => set_known p (KeyID p) (Alg p) (Created p) n (Nonce p) (Tag p))
  else if str_eqb name "nonce" then str (fun s => set_known p (KeyID p) (Alg p) (Created p) (Expires p) s (Tag p))
  else if str_eqb name "tag" then str (fun s => set_known p (KeyID p) (Alg p) (Created p) (Expires p) (Nonce p) s)
  else Ok p.

Fixpoint component_items (cs : list ComponentIdentifier) : res (list sfv_Item) :=
  match cs with [] => Ok [] | c :: cs => i ← componentItem c; rest ← component_items cs; Ok (i :: rest) end.
Fixpoint check_parameters (seen : list string) (ps : list SignatureParameter) : res unit :=
  match ps with
  | [] => Ok tt
  | q :: ps =>
      fail_if isKnownSignatureParameter (p_Name q) && bool_decide (p_Name q ∈ seen)
        with PlainError "dnsid: duplicate HTTP signature parameter" ;;
      _ ← assignKnownSignatureParameter (no_params "" [] None) (p_Name q) (p_Value q);
      check_parameters (p_Name q :: seen) ps
  end.
Definition typed_parameters (p : SignatureParams) : list SignatureParameter :=
  (if negb (Created p =? 0) then [Param "created" (SfvInt (Created p))] else []) ++
  (if negb (Expires p =? 0) then [Param "expires" (SfvInt (Expires p))] else []) ++
  (if negb (is_empty (KeyID p)) then [Param "keyid" (SfvString (KeyID p))] else []) ++
  (if negb (is_empty (Alg p)) then [Param "alg" (SfvString (Alg p))] else []) ++
  (if negb (is_empty (Nonce p)) then [Param "nonce" (SfvString (Nonce p))] else []) ++
  (if negb (is_empty (Tag p)) then [Param "tag" (SfvString (Tag p))] else []).
Definition signatureParamsInnerList (p : SignatureParams) : res InnerList :=
  items ← component_items (Components p);
  match Parameters p with
  | Some ps => check_parameters [] ps ;; Ok (Inner items ps)
  | None => Ok (Inner items (typed_parameters p))
  end.

(** ** The authority and the target of a request *)
Definition httpScheme (r : Request) : res string :=
  let scheme := match r_URL r with Some u => u_Scheme u | None => EmptyString end in
  if negb (is_empty scheme) then Ok (ToLower scheme)
  else match r_TLS r with
       | Some _ => Ok "https"%string
       | None => Err (malformed "dnsid: missing request scheme")
       end.
Definition is_bracket (c : ascii) : bool := Ascii.eqb c "[" || Ascii.eqb c "]".
Definition normalizeHTTPAuthority (host scheme : string) : string :=
  if is_empty host then EmptyString
  else
    let scheme := ToLower scheme in
    let '(hostname, port) := Reference.split_host_port host in
    let '(hostname, port) :=
      if is_empty hostname then match SplitHostPort host with Some hp => hp | None => (host, port) end else (hostname, port) in
    let hostname := ToLower hostname in
    let hostname := if has_byte ":" hostname then String "[" (String.append (Trim is_bracket hostname) "]") else hostname in
    if is_empty port || str_eqb scheme "https" && str_eqb port "443" || str_eqb scheme "http" && str_eqb port "80" then hostname
    else Reference.join_host_port (Trim is_bracket hostname) port.
Definition request_host (r : Request) : string :=
  if is_empty (r_Host r) then match r_URL r with Some u => u_Host u | None => EmptyString end else r_Host r.
Definition httpAuthority (r : Request) : string :=
  normalizeHTTPAuthority (request_host r) (match httpScheme r with Ok s => s | Err _ => EmptyString end).
Definition httpTargetURI (r : Request) : res string :=
  match r_URL r with
  | None => Err (malformed "dnsid: missing request URL")
  | Some u =>
      scheme ← httpScheme r;
      let authority := normalizeHTTPAuthority (request_host r) scheme in
      fail_if is_empty authority with malformed "dnsid: missing request authority" ;;
      Ok (url_String {| u_Scheme := scheme; u_Opaque := u_Opaque u; u_User := false; u_Host := authority;
                        u_Path := if is_empty (u_Path u) then "/" else u_Path u; u_RawPath := u_RawPath u;
                        u_ForceQuery := u_ForceQuery u; u_RawQuery := u_RawQuery u; u_OmitHost := u_OmitHost u |})
  end.

(** [formURLEncode] and [rawQueryParam]. *)
Definition form_byte (c : ascii) : bool :=
  let n := byte_val c in
  (97 <=? n) && (n <=? 122) || (65 <=? n) && (n <=? 90) || (48 <=? n) && (n <=? 57)
  || Ascii.eqb c "*" || Ascii.eqb c "-" || Ascii.eqb c "." || Ascii.eqb c "_".
Fixpoint formURLEncode (s : string) : string :=
  match s with
  | EmptyString => EmptyString
  | String c s => if form_byte c then String c (formURLEncode s) else String.append (percent c) (formURLEncode s)
  end.
Definition unescape_error : error := PlainError "invalid URL escape".
Fixpoint query_params (want : string) (value : option string) (parts : list string) : res (option string) :=
  match parts with
  | [] => Ok value
  | part :: parts =>
      let '(rawName, rawValue) := match cut "=" part with Some nv => nv | None => (part, EmptyString) end in
      match QueryUnescape rawName with
      | None => query_params want value parts
      | Some decodedName =>
          if negb (str_eqb (formURLEncode decodedName) want) then query_params want value parts
          else match value with
               | Some _ => Err (malformed "dnsid: duplicate @query-param")
               | None =>
                   match QueryUnescape rawValue with
                   | None => Err unescape_error
                   | Some decodedValue => query_params want (Some (formURLEncode decodedValue)) parts
                   end
               end
      end
  end.
Definition rawQueryParam (rawQuery name : string) : res string :=
  match QueryUnescape name with
  | None => Err unescape_error
  | Some decodedWant =>
      v ← query_params (formURLEncode decodedWant) None (split "&" rawQuery);
      of_option (malformed "dnsid: missing @query-param") v
  end.

(** ** Component values *)
Inductive message := MReq (r : Request) | MRes (r : Response).

Definition headerFieldValue (h : Header) (name : string) : option string :=
  match Values h name with
  | [] => None
  | values =>
      if forallb (forall_byte (fun c => let n := byte_val c in negb ((n <? 32) && negb (n =? 9) || (n =? 127)))) values
      then Some (join_comma (TrimOWS <$> values)) else None
  end.
Definition format_int (n : Z) : string :=
  if n <? 0 then String "-" (format_uint (Z.to_N (- n))) else format_uint (Z.to_N n).

Section messages.
Context {S : Sfv}.

Definition dictionaryMember (value key : string) : option string :=
  dict ← ParseDictionary value; m ← dict_get key dict;
  match m with MItem i => SerializeItem i | MInner l => SerializeInnerList l end.

Definition componentParties (msg : message) (c : ComponentIdentifier) : res (option Request * option Response) :=
  if has_req c then
    match msg with
    | MReq _ => Err (malformed "dnsid: req parameter is invalid for request signatures")
    | MRes r => match s_Request r with
                | None => Err (malformed "dnsid: req parameter requires associated request")
                | Some q => Ok (Some q, None)
                end
    end
  else Ok match msg with MReq q => (Some q, None) | MRes r => (None, Some r) end.

Definition request_component (q : Request) (c : ComponentIdentifier) (name : string) : option (res string) :=
  let with_url f := match r_URL q with Some u => Some (f u) | None => None end in
  if str_eqb name "@method" then Some (Ok (r_Method q))
  else if str_eqb name "@authority" then
    Some (let a := httpAuthority q in if is_empty a then Err (malformed "dnsid: missing request authority") else Ok a)
  else if str_eqb name "@target-uri" then Some (httpTargetURI q)
  else if str_eqb name "@path" then with_url (fun u => let p := url_EscapedPath u in Ok (if is_empty p then "/"%string else p))
  else if str_eqb name "@query" then with_url (fun u => Ok (String "?" (u_RawQuery u)))
  else if str_eqb name "@query-param" then with_url (fun u =>
    match param_string "name" c with
    | Some n => if is_empty n then Err (malformed "dnsid: @query-param requires name parameter") else rawQueryParam (u_RawQuery u) n
    | None => Err (malformed "dnsid: @query-param requires name parameter")
    end)
  else if str_eqb name "@request-target" then with_url (fun u => Ok (RequestURI u))
  else if str_eqb name "@scheme" then Some (httpScheme q)
  else if str_eqb name "@status" then Some (Err (malformed "dnsid: @status is invalid for request signatures"))
  else None.
Definition derived_names : list string :=
  ["@method"; "@authority"; "@target-uri"; "@path"; "@query"; "@query-param"; "@request-target"; "@scheme"; "@status"].

Definition field_component (h : Header) (c : ComponentIdentifier) (name : string) : res string :=
  fail_if has_prefix "@" name with malformed "dnsid: unsupported HTTP signature derived component" ;;
  value ← of_option (malformed "dnsid: missing HTTP signature field") (headerFieldValue h name);
  match param_string "key" c with
  | Some k => if is_empty k then Ok value
              else of_option (malformed "dnsid: missing HTTP signature dictionary member") (dictionaryMember value k)
  | None => Ok value
  end.

Definition httpSignatureComponentValue (msg : message) (c : ComponentIdentifier) : res string :=
  let c := Component (component_name c) (Params c) (ParamOrder c) in
  let name := c_Name c in
  validateComponentIdentifier c ;;
  '(req, response) ← componentParties msg c;
  let unsupported := Err (malformed "dnsid: unsupported HTTP signature component") in
  if bool_decide (name ∈ derived_names) then
    match req with
    | Some q => match request_component q c name with Some v => v | None => unsupported end
    | None =>
        match response with
        | Some r => if str_eqb name "@status" then Ok (format_int (s_StatusCode r)) else unsupported
        | None => unsupported
        end
    end
  else
    let h := match req, response with Some q, _ => r_Header q | None, Some r => s_Header r | None, None => None end in
    field_component h c name.

(** ** The signature base *)
Fixpoint base_lines (msg : message) (seen cs : list ComponentIdentifier) : res (list string) :=
  match cs with
  | [] => Ok []
  | c :: cs =>
      validateComponentIdentifier c ;;
      fail_if containsComponent seen c with malformed "dnsid: duplicate HTTP signature component" ;;
      value ← httpSignatureComponentValue msg c;
      item ← componentItem c;
      identifier ← of_option (PlainError "sfv: serialization failed") (SerializeItem item);
      rest ← base_lines msg (seen ++ [c]) cs;
      Ok (String.append identifier (String ":" (String " " value)) :: rest)
  end.
Definition params_identifier : string := String "034" (String.append "@signature-params" (String "034" ": ")).
Definition BuildSignatureInput (msg : message) (p : SignatureParams) : res string :=
  inner ← signatureParamsInnerList p;
  mem ← of_option (PlainError "sfv: serialization failed") (SerializeInnerList inner);
  lines ← base_lines msg [] (Components p);
  Ok (Prelude.join "010" (lines ++ [String.append params_identifier mem])).
End messages.

(** ** The signature headers *)
Section headers.
Context {S : Sfv}.

Definition validateUniqueDictionaryLabels (input : string) : res unit :=
  fail_if (0 <? MaxInputLength) && (MaxInputLength <? str_len input) with malformed "dnsid: malformed header: input exceeds limit" ;;
  match ParseDictionaryHeader input with
  | None => Err (malformed "dnsid: malformed header")
  | Some members =>
      fail_if (0 <? MaxDictionaryMembers) && (MaxDictionaryMembers <? Z.of_nat (List.length members))
        with malformed "dnsid: malformed header: dictionary exceeds member limit" ;;
      fail_if negb (bool_decide (NoDup members)) with malformed "dnsid: duplicate label" ;;
      Ok tt
  end.

(** [ParseSignature]. *)
Fixpoint signature_members (d : Dictionary) : res (list (string * string)) :=
  match d with
  | [] => Ok []
  | (label, MItem (Item (SfvBytes sig) _)) :: d => rest ← signature_members d; Ok ((label, sig) :: rest)
  | _ => Err (malformed "dnsid: malformed Signature header")
  end.
Definition ParseSignature (input : string) : res (list (string * string)) :=
  validateUniqueDictionaryLabels input ;;
  dict ← of_option (malformed "dnsid: malformed Signature header") (ParseDictionary input);
  signature_members dict.

(** One component of an inner list: its parameters, each once. *)
Fixpoint component_params (ps : list SignatureParameter) (c : ComponentIdentifier) : res ComponentIdentifier :=
  match ps with
  | [] => Ok c
  | q :: ps =>
      fail_if has_param (p_Name q) c with malformed "dnsid: duplicate HTTP signature component parameter" ;;
      component_params ps (Component (c_Name c) (<[p_Name q := p_Value q]> (Params c)) (ParamOrder c ++ [p_Name q]))
  end.
Definition parse_component (i : sfv_Item) : res ComponentIdentifier :=
  match i_Value i with
  | SfvString name =>
      c ← component_params (i_Parameters i) (plain (TrimSpace name));
      validateComponentIdentifier c ;;
      Ok (Component (ToLower (c_Name c)) (Params c) (ParamOrder c))
  | _ => Err (malformed "dnsid: malformed HTTP signature component")
  end.
Fixpoint parse_components (items : list sfv_Item) (acc : list ComponentIdentifier) : res (list ComponentIdentifier) :=
  match items with
  | [] => Ok acc
  | i :: items =>
      c ← parse_component i;
      fail_if containsComponent acc c with malformed "dnsid: duplicate HTTP signature component" ;;
      parse_components items (acc ++ [c])
  end.
Fixpoint parse_parameters (seen : list string) (ps : list SignatureParameter) (p : SignatureParams) : res SignatureParams :=
  match ps with
  | [] => Ok p
  | q :: ps =>
      fail_if isKnownSignatureParameter (p_Name q) && bool_decide (p_Name q ∈ seen)
        with malformed "dnsid: duplicate HTTP signature parameter" ;;
      p' ← assignKnownSignatureParameter p (p_Name q) (p_Value q);
      parse_parameters (p_Name q :: seen) ps p'
  end.
Definition input_member (label : string) (l : InnerList) : res SignatureParams :=
  components ← parse_components (l_Items l) [];
  parse_parameters [] (l_Parameters l) (no_params label components (Some (l_Parameters l))).
Fixpoint input_members (d : Dictionary) : res (list (string * SignatureParams)) :=
  match d with
  | [] => Ok []
  | (label, MInner l) :: d => p ← input_member label l; rest ← input_members d; Ok ((label, p) :: rest)
  | _ => Err (malformed "dnsid: Signature-Input member must be an inner list")
  end.
Definition ParseSignatureInput (input : string) : res (list (string * SignatureParams)) :=
  fail_if is_empty input with malformed "dnsid: missing Signature-Input header" ;;
  validateUniqueDictionaryLabels input ;;
  dict ← of_option (malformed "dnsid: malformed Signature-Input header") (ParseDictionary input);
  input_members dict.

(** [parseComponentIdentifier]. *)
Fixpoint identifier_params (ps : list SignatureParameter) (c : ComponentIdentifier) : res ComponentIdentifier :=
  match ps with
  | [] => Ok c
  | q :: ps =>
      let k := p_Name q in
      fail_if negb (bool_decide (k ∈ ["req"; "key"; "name"]%string))
        with malformed "dnsid: unsupported HTTP signature component parameter" ;;
      fail_if negb (if str_eqb k "req" then bool_decide (p_Value q = SfvBool true)
                    else match p_Value q with SfvString _ => true | _ => false end)
        with malformed "dnsid: malformed HTTP signature component parameter" ;;
      identifier_params ps (Component (c_Name c) (<[k := p_Value q]> (Params c)) (ParamOrder c ++ [k]))
  end.
Definition parseComponentIdentifier (s : string) : res ComponentIdentifier :=
  item ← of_option (malformed "dnsid: malformed HTTP signature component") (ParseItem s);
  match i_Value item with
  | SfvString name =>
      fail_if is_empty (TrimSpace name) with malformed "dnsid: empty HTTP signature component" ;;
      c ← identifier_params (i_Parameters item) (plain (TrimSpace name));
      validateComponentIdentifier c ;;
      Ok (Component (ToLower (c_Name c)) (Params c) (ParamOrder c))
  | _ => Err (malformed "dnsid: malformed HTTP signature component")
  end.

(** [setStructuredDictionaryMember]. *)
Definition setStructuredDictionaryMember (h : Header) (name label : string) (value : member) : res Header :=
  let existing := join_comma (Values h name) in
  dict ← (if is_empty existing then Ok []
          else (if str_eqb (CanonicalHeaderKey name) "Signature-Input" then _ ← ParseSignatureInput existing; Ok tt
                else if str_eqb (CanonicalHeaderKey name) "Signature" then _ ← ParseSignature existing; Ok tt
                else Ok tt) ;;
               of_option (PlainError "sfv: parsing failed") (ParseDictionary existing));
  out ← of_option (PlainError "sfv: serialization failed") (SerializeDictionary (dict_set label value dict));
  Ok (Set_header h name out).
End headers.

(** ** Algorithms *)
Definition JoseAlgToHTTPSigAlg (alg : JoseAlg) : res string :=
  if str_eqb alg JoseAlgEdDSA then Ok "ed25519"%string
  else if str_eqb alg JoseAlgES256 then Ok "ecdsa-p256-sha256"%string
  else Err (ArgumentError "dnsid: JOSE alg has no HTTP Message Signatures mapping").
Definition httpSigAlgToJoseAlg (alg : string) : JoseAlg :=
  if str_eqb (ToLower alg) "ed25519" then JoseAlgEdDSA
  else if str_eqb (ToLower alg) "ecdsa-p256-sha256" then JoseAlgES256 else alg.

(** ** Configuration and freshness *)
Definition minute : Z := 60 * second.
Record Config := { MaxAge : Z; ClockSkew : Z; clockSkewSet : bool }.
Definition WithClockSkew (c : Config) (skew : Z) : Config := {| MaxAge := MaxAge c; ClockSkew := skew; clockSkewSet := true |}.
Definition httpSignatureConfig (c : Config) : res Config :=
  fail_if MaxAge c <? 0 with ArgumentError "dnsid: HTTP signature max age must be positive" ;;
  fail_if ClockSkew c <? 0 with ArgumentError "dnsid: HTTP signature clock skew must not be negative" ;;
  Ok {| MaxAge := if MaxAge c =? 0 then 5 * minute else MaxAge c;
        ClockSkew := if (ClockSkew c =? 0) && negb (clockSkewSet c) then 5 * second else ClockSkew c;
        clockSkewSet := clockSkewSet c |}.

Definition checkHTTPSignatureFreshness (created expires : Z) (hasExpires : bool) (cfg : Config) (now : time) : res unit :=
  let start := time_Unix created in
  fail_if after start (now + ClockSkew cfg) || (MaxAge cfg <? time_sub now start)
    with VerificationError "token_expired" false "dnsid: HTTP signature is outside freshness window" ;;
  fail_if hasExpires && ((expires <? created) || (Z.quot (MaxAge cfg) second <? wrap_int64 (expires - created))
                         || after now (time_Unix expires + ClockSkew cfg))
    with VerificationError "token_expired" false "dnsid: HTTP signature has invalid or expired lifetime" ;;
  Ok tt.

(** ** Verification of a request *)
Record parsedHTTPSignature := {
  ph_label : string;
  ph_components : list ComponentIdentifier;
  ph_created : Z; ph_expires : Z; ph_hasExpires : bool;
  ph_keyID : string; ph_httpAlg : string;
  ph_parameters : option (list SignatureParameter);
  ph_signature : string
}.

Definition httpRequestHasBody (r : Request) : bool := match r_Body r with Some (Stream _ _) => true | _ => false end.
Definition header_size (h : Header) : Z :=
  foldr (fun kv n => str_len kv.1 + foldr (fun v n => str_len v + n) 0 kv.2 + n) 0 (map_to_list (header_map h)).
Definition values_size (vs : list string) : Z := foldr (fun v n => str_len v + 2 + n) 0 vs.

Section verification.
Context {key : Type} `{!KeyOps key} `{!JwkSetLib key} `{!CloneLib key} {I : Idna} {S : Sfv} {G : Digest}.
Abbreviation VerifiedDomain := (VerifiedDomain key (LogReader (key:=key))).
Abbreviation IdentityResolver := (IdentityResolver (key:=key)).

(** The size limits before anything is parsed. *)
Definition header_limits (r : Request) : res unit :=
  fail_if Z.shiftl 1 20 <? header_size (r_Header r) with malformed "dnsid: HTTP headers exceed 1 MiB limit" ;;
  fail_if match r_URL r with
          | Some u => Z.shiftl 64 10 <? str_len (r_RequestURI r) + str_len (u_Path u) + str_len (u_RawQuery u)
                                        + str_len (r_Host r) + str_len (r_Method r)
          | None => false end
    with malformed "dnsid: HTTP target exceeds size limit" ;;
  fail_if existsb (fun name => Z.shiftl 16 10 <? values_size (Values (r_Header r) name)) ["Signature"; "Signature-Input"]%string
    with malformed "dnsid: signature headers exceed size limit" ;;
  Ok tt.

(** One label of the loop: [None] is skipped. *)
Definition candidate_of (sigs : list (string * string)) (input : string * SignatureParams) : option parsedHTTPSignature :=
  let '(label, p) := input in
  sig ← dict_get label sigs;
  if negb (forallb (fun name => containsComponent (Components p) (plain name)) ["@method"; "@authority"; "@target-uri"]%string)
     || negb (hasSignatureParameter p "created") || is_empty (KeyID p) then None
  else if negb (is_empty (Alg p)) && negb (alg_Valid (httpSigAlgToJoseAlg (Alg p))) then None
  else Some {| ph_label := label; ph_components := Components p; ph_created := Created p; ph_expires := Expires p;
               ph_hasExpires := hasSignatureParameter p "expires"; ph_keyID := KeyID p; ph_httpAlg := Alg p;
               ph_parameters := Parameters p; ph_signature := sig |}.

(** [parseHTTPSignatureHeaders]; [range] is the order of the map. *)
Definition parseHTTPSignatureHeaders (range : list (string * SignatureParams) -> list (string * SignatureParams)) (r : Request)
    : res (list parsedHTTPSignature) :=
  header_limits r ;;
  inputs ← ParseSignatureInput (join_comma (Values (r_Header r) "Signature-Input"));
  let sigHeader := join_comma (Values (r_Header r) "Signature") in
  fail_if is_empty sigHeader with malformed "dnsid: missing Signature header" ;;
  sigs ← ParseSignature sigHeader;
  let candidates := omap (candidate_of sigs) (range inputs) in
  fail_if (2 <? Z.of_nat (List.length candidates)) with malformed "dnsid: too many acceptable HTTP signatures" ;;
  fail_if bool_decide (candidates = []) with malformed "dnsid: no acceptable HTTP signature input" ;;
  Ok candidates.

(** [requireHTTPComponents] reads the body and puts it back. *)
Definition requireHTTPComponents (r : Request) (components : list ComponentIdentifier) : res unit * Request :=
  if httpRequestHasBody r && negb (containsComponent components (plain "content-digest"))
  then (Err (invalid_signature "dnsid: request body is present but content-digest is not covered"), r)
  else if existsb (fun c => str_eqb (c_Name c) "content-digest") components then
    match r_Body r with
    | None => (Err (invalid_signature "dnsid: content-digest covered but request has no body"), r)
    | Some b =>
        match readBoundedBody b with
        | (Err e, rest) => (Err (WithCause (PlainError "dnsid: reading request body") e), with_req_body (Some rest) r)
        | (Ok content, _) =>
            let r := with_req_body (Some (ReplayBody content)) r in
            if VerifyContentDigestBytes content (Header_Get (r_Header r) "Content-Digest") then (Ok tt, r)
            else (Err (invalid_signature "dnsid: content-digest mismatch"), r)
        end
    end
  else (Ok tt, r).

Definition base_params (parsed : parsedHTTPSignature) : SignatureParams :=
  {| Label := ph_label parsed; Components := ph_components parsed; KeyID := ph_keyID parsed; Alg := ph_httpAlg parsed;
     Created := ph_created parsed; Expires := ph_expires parsed; Nonce := ""; Tag := ""; Parameters := ph_parameters parsed;
     ExpectedSignerKid := ""; ExpectedSignerAlg := "" |}.

(** The signer's key and algorithm for a [keyid] and [alg]. *)
Definition signer_key (vd : VerifiedDomain) (kid httpAlg : string) : res (key * JoseAlg) :=
  match LookupJWKByKid (KeySet (Some vd)) kid with
  | None => Err (VerificationError "key_not_found" false "dnsid: HTTP signature kid not found")
  | Some k =>
      fail_if negb (SigningKeyEligible k) with VerificationError "key_not_found" false "dnsid: HTTP signature kid not found" ;;
      match AlgForJWK k with
      | None => Err (invalid_signature "dnsid: HTTP signature key alg mismatch")
      | Some keyAlg =>
          fail_if negb (JWKMatchesAlg k keyAlg) with invalid_signature "dnsid: HTTP signature key alg mismatch" ;;
          match JoseAlgToHTTPSigAlg keyAlg with
          | Err e => Err (WithCause (invalid_signature "dnsid: HTTP signature alg mismatch") e)
          | Ok expectedAlg =>
              fail_if negb (is_empty httpAlg) && negb (str_eqb httpAlg expectedAlg)
                with invalid_signature "dnsid: HTTP signature alg mismatch" ;;
              Ok (k, keyAlg)
          end
      end
  end.

Definition peer_chains (r : Request) : list (option (string -> bool)) := default [] (r_TLS r).

Definition verify_candidate (config : Config) (resolver : option IdentityResolver) (r : Request) (parsed : parsedHTTPSignature)
    : res VerifiedDomain :=
  match SplitDNSIDKid (ph_keyID parsed) with
  | Err _ => Err (malformed "dnsid: malformed HTTP signature keyid")
  | Ok (domain, kid) =>
      vd ← VerifyIdentity resolver domain (peer_chains r);
      '(k, keyAlg) ← signer_key vd kid (ph_httpAlg parsed);
      base ← BuildSignatureInput (MReq r) (base_params parsed);
      fail_if negb (VerifySignature keyAlg base (ph_signature parsed) [k]) with invalid_signature "dnsid: invalid HTTP signature" ;;
      Ok vd
  end.
Definition verifyParsedHTTPRequest (config : Config) (resolver : option IdentityResolver) (now : time) (r : Request)
    (parsed : parsedHTTPSignature) : res VerifiedDomain * Request :=
  match httpSignatureConfig config with
  | Err e => (Err e, r)
  | Ok cfg =>
      match checkHTTPSignatureFreshness (ph_created parsed) (ph_expires parsed) (ph_hasExpires parsed) cfg now with
      | Err e => (Err e, r)
      | Ok _ =>
          let '(checked, r) := requireHTTPComponents r (ph_components parsed) in
          (checked ;; verify_candidate config resolver r parsed, r)
      end
  end.

(** The loop over the candidates; [now] by label. *)
Fixpoint verify_candidates (config : Config) (resolver : option IdentityResolver) (now : string -> time) (r : Request)
    (verified : option VerifiedDomain) (lastErr : option error) (candidates : list parsedHTTPSignature)
    : res (option VerifiedDomain * option error) * Request :=
  match candidates with
  | [] => (Ok (verified, lastErr), r)
  | parsed :: candidates =>
      let '(result, r) := verifyParsedHTTPRequest config resolver (now (ph_label parsed)) r parsed in
      match result with
      | Err e => verify_candidates config resolver now r verified (Some e) candidates
      | Ok vd =>
          match verified with
          | Some _ => (Err (malformed "dnsid: multiple valid HTTP signatures"), r)
          | None => verify_candidates config resolver now r (Some vd) lastErr candidates
          end
      end
  end.

Definition VerifyHTTPRequest (config : Config) (resolver : option IdentityResolver)
    (range : list (string * SignatureParams) -> list (string * SignatureParams)) (now : string -> time) (done : bool)
    (r : Request) : res VerifiedDomain * Request :=
  match parseHTTPSignatureHeaders range r with
  | Err e => (Err e, r)
  | Ok candidates =>
      let '(result, r) := verify_candidates config resolver now r None None candidates in
      (match result with
       | Err e => Err e
       | Ok (verified, lastErr) =>
           if done then Err ContextError
           else match verified, lastErr with
                | Some vd, _ => Ok vd
                | None, Some e => Err e
                | None, None => Err (invalid_signature "dnsid: invalid HTTP signature")
                end
       end, r)
  end.
End verification.
