(* ===== verification/HttpSigSpec.v ===== *)
(** * HttpSigSpec: what a verified HTTP signature means

    The signature base determines the covered components and their values, and
    a request that verifies was signed, over its own base, by the current key
    of the domain its [keyid] names. *)

From Stdlib Require Import ZArith Lia Ascii String.
From S2P Require Import Prelude Codec Evidence Json Keys Fqdn TxtRecord Reference KeyRing Jwks Domain LogReader Fetch Manager NetHttp JoseUtil HttpSig.

Open Scope Z_scope.

(** Serialised structured fields are one line and determine the value. *)
Class SfvSpec (S : Sfv) : Prop := {
  serialize_inner_inj l1 l2 t : SerializeInnerList l1 = Some t -> SerializeInnerList l2 = Some t -> l1 = l2;
  serialize_inner_line l t : SerializeInnerList l = Some t -> has_byte "010" t = false;
  serialize_item_line i t : SerializeItem i = Some t -> has_byte "010" t = false
}.

Lemma append_inj_l s t u : String.append s t = String.append s u -> t = u.
Proof. induction s as [|a s IH]; [done|]. rewrite !append_cons. intros [= H]. by apply IH. Qed.

(** ** Strings without a byte *)
Section without.
Variable b : ascii.
Abbreviation clean s := (has_byte b s = false).

Lemma clean_cons a s : clean (String a s) <-> Ascii.eqb a b = false /\ clean s.
Proof. by rewrite has_byte_cons, orb_false_iff. Qed.
Lemma clean_append s t : clean (String.append s t) <-> clean s /\ clean t.
Proof. by rewrite has_byte_append, orb_false_iff. Qed.
Lemma clean_trim_start p s : clean s -> clean (trim_start p s).
Proof. induction s as [|a s IH]; [done|]. rewrite clean_cons. intros [Ha Hs]. cbn. destruct (p a); [auto|by apply clean_cons]. Qed.
Lemma clean_trim_end p s : clean s -> clean (trim_end p s).
Proof.
  induction s as [|a s IH]; [done|]. rewrite clean_cons. intros [Ha Hs]. cbn [trim_end].
  destruct (forall_byte p (String a s)); [done|]. apply clean_cons. auto.
Qed.
Lemma clean_Trim p s : clean s -> clean (Trim p s).
Proof. intros. by apply clean_trim_end, clean_trim_start. Qed.
Lemma clean_join_comma l : Ascii.eqb "," b = false -> Ascii.eqb " " b = false -> Forall (fun s => clean s) l -> clean (join_comma l).
Proof.
  intros H1 H2 Hl. induction Hl as [|s l Hs Hl IH]; [done|]. destruct l as [|s' l]; [done|].
  change (join_comma (s :: s' :: l)) with (String.append s (String "," (String " " (join_comma (s' :: l))))).
  by rewrite clean_append, !clean_cons.
Qed.
Lemma clean_cut c s l r : clean s -> cut c s = Some (l, r) -> clean l /\ clean r.
Proof. intros Hs (-> & _)%cut_Some. apply clean_append in Hs as [? Hs]. apply clean_cons in Hs as [_ ?]. done. Qed.
Lemma clean_cut_last c s l r : clean s -> cut_last c s = Some (l, r) -> clean l /\ clean r.
Proof. intros Hs (-> & _)%cut_last_Some. apply clean_append in Hs as [? Hs]. apply clean_cons in Hs as [_ ?]. done. Qed.
End without.

Abbreviation one_line s := (has_byte "010" s = false).

Lemma byte_below (P : ascii -> bool) : forallb (fun n => P (ascii_of_nat n)) (seq 0 256) = true -> forall a, P a = true.
Proof.
  intros H a. rewrite forallb_forall in H. rewrite <- (ascii_nat_embedding a). apply H, in_seq.
  pose proof (nat_ascii_bounded a). lia.
Qed.
Lemma one_line_percent c : one_line (percent c).
Proof.
  cut (negb (has_byte "010" (percent c)) = true); [by rewrite negb_true_iff|]. revert c.
  apply (byte_below (fun c => negb (has_byte "010" (percent c)))). vm_compute. reflexivity.
Qed.
Lemma newline_escaped m : shouldEscape "010" m = true.
Proof. by destruct m. Qed.
Lemma one_line_escape s m : one_line (escape s m).
Proof.
  induction s as [|a s IH]; [done|]. cbn [escape]. destruct (shouldEscape a m) eqn:E.
  - apply clean_append. split; [apply one_line_percent|done].
  - apply clean_cons. split; [|done]. destruct (Ascii.eqb_spec a "010"); [|done]. subst. by rewrite newline_escaped in E.
Qed.
Lemma one_line_formURLEncode s : one_line (formURLEncode s).
Proof.
  induction s as [|a s IH]; [done|]. cbn [formURLEncode]. destruct (form_byte a) eqn:E.
  - apply clean_cons. split; [|done]. destruct (Ascii.eqb_spec a "010"); [|done]. by subst.
  - apply clean_append. split; [apply one_line_percent|done].
Qed.
Lemma lower_byte_newline a : Ascii.eqb a "010" = false -> Ascii.eqb (lower_byte a) "010" = false.
Proof.
  cut (implb (negb (Ascii.eqb a "010")) (negb (Ascii.eqb (lower_byte a) "010")) = true).
  { destruct (Ascii.eqb a "010"), (Ascii.eqb (lower_byte a) "010"); done. }
  revert a. apply (byte_below (fun a => implb (negb (Ascii.eqb a "010")) (negb (Ascii.eqb (lower_byte a) "010")))).
  vm_compute. reflexivity.
Qed.
Lemma one_line_to_lower s : one_line s -> one_line (to_lower s).
Proof.
  induction s as [|a s IH]; [done|]. rewrite clean_cons. intros [Ha Hs]. cbn [to_lower]. apply clean_cons.
  split; [by apply lower_byte_newline|auto].
Qed.
Lemma one_line_lower_special n s : (String.length s <= n)%nat -> one_line s -> one_line (lower_special s).
Proof.
  revert s. induction n as [|n IH]; intros [|a s] Hn; cbn [String.length] in Hn; try done; [lia|].
  rewrite clean_cons. intros [Ha Hs]. cbn [lower_special]. destruct s as [|b s]; [by apply clean_cons|].
  cbn [String.length] in Hn. pose proof (IH (String b s) ltac:(cbn; lia) Hs) as Hbs. apply clean_cons in Hs as [Hb Hs].
  destruct (_ && _); [apply clean_cons; split; [done|apply IH; [lia|done]]|].
  destruct s as [|c s]; [by apply clean_cons|]. cbn [String.length] in Hn.
  destruct (_ && _ && _); [|by apply clean_cons]. apply clean_cons in Hs as [_ Hs].
  apply clean_cons. split; [done|]. apply IH; [lia|done].
Qed.
Lemma one_line_ToLower s : one_line s -> one_line (ToLower s).
Proof. intros. by apply one_line_to_lower, (one_line_lower_special (String.length s)). Qed.

(** ** Lines of a message

    What the message hands to the base as it stands is one line: net/http sees
    to that for messages from the wire. *)
Definition url_line (u : RequestURL) : Prop :=
  one_line (u_Scheme u) /\ one_line (u_Opaque u) /\ one_line (u_Host u) /\ one_line (u_RawQuery u).
Definition request_line (r : Request) : Prop :=
  one_line (r_Method r) /\ one_line (r_Host r) /\ (forall u, r_URL r = Some u -> url_line u).
Definition message_line (m : message) : Prop :=
  match m with MReq r => request_line r | MRes r => forall q, s_Request r = Some q -> request_line q end.

Lemma one_line_strip_brackets h : one_line h -> one_line (strip_brackets h).
Proof.
  unfold strip_brackets. intros H. destruct h as [|a h]; [done|].
  apply clean_cons in H as [Ha H].
  assert (one_line (String a h)) as Hs by by apply clean_cons.
  repeat match goal with |- context [match ?x with _ => _ end] => destruct x eqn:?; try exact Hs end.
  all: match goal with E : cut_last _ _ = Some _ |- _ => by apply (clean_cut_last "010") in E as [? _] end.
Qed.
Lemma one_line_split_host_port h a p : one_line h -> split_host_port h = (a, p) -> one_line a /\ one_line p.
Proof.
  unfold split_host_port. intros H. destruct (cut_last ":" h) as [[b q]|] eqn:E.
  - apply (clean_cut_last "010") in E as [Hb Hq]; [|done].
    destruct (forall_byte _ q); intros [= <- <-]; (split; [by apply one_line_strip_brackets|done]).
  - intros [= <- <-]. split; [by apply one_line_strip_brackets|done].
Qed.
Lemma one_line_SplitHostPort h a p : one_line h -> SplitHostPort h = Some (a, p) -> one_line a /\ one_line p.
Proof.
  unfold SplitHostPort. intros H. destruct (cut_last ":" h) as [[b q]|] eqn:E; [|done].
  apply (clean_cut_last "010") in E as [Hb Hq]; [|done].
  destruct h as [|c inner]; [by destruct (_ || _ || _); intros [= <- <-]|].
  apply clean_cons in H as [_ Hi].
  assert (forall x : option (string * string), (if has_byte ":" b || has_byte "[" (String c inner) || has_byte "]" (String c inner)
    then None else Some (b, q)) = Some (a, p) -> one_line a /\ one_line p) as Hplain.
  { intros _. destruct (_ || _ || _); [done|]. by intros [= <- <-]. }
  repeat match goal with |- (match ?x with _ => _ end) = _ -> _ => destruct x eqn:?; try exact (Hplain None) end; try done.
  all: intros [= <- <-].
  all: match goal with E : cut _ _ = Some _ |- _ => apply (clean_cut "010") in E as [? Ha]; [|done] end.
  all: by apply clean_cons in Ha as [_ Ha].
Qed.
Lemma one_line_join_host_port h p : one_line h -> one_line p -> one_line (join_host_port h p).
Proof.
  intros Hh Hp. unfold join_host_port. destruct (has_byte ":" h).
  - by rewrite !clean_append, ?clean_cons.
  - by rewrite clean_append, clean_cons.
Qed.
Lemma one_line_authority host scheme : one_line host -> one_line (normalizeHTTPAuthority host scheme).
Proof.
  intros H. unfold normalizeHTTPAuthority. destruct (is_empty host); [done|].
  destruct (split_host_port host) as [a p] eqn:E1. apply one_line_split_host_port in E1 as [Ha Hp]; [|done].
  match goal with |- context [let '(_, _) := ?x in _] => assert (one_line x.1 /\ one_line x.2) as [Hx1 Hx2]; [|destruct x as [a' p']] end.
  { destruct (is_empty a); [|done]. destruct (SplitHostPort host) as [[a' p']|] eqn:E2; [|done].
    by apply one_line_SplitHostPort in E2. }
  cbn [fst snd] in Hx1, Hx2. apply one_line_ToLower in Hx1. cbv zeta.
  match goal with |- context [if has_byte ":" ?h then ?x else ?y] => assert (one_line (if has_byte ":" h then x else y)) as Hn end.
  { destruct (has_byte ":" _); [|done]. apply clean_cons. split; [done|]. apply clean_append. split; [by apply clean_Trim|done]. }
  destruct (_ || _); [done|]. by apply one_line_join_host_port; [apply clean_Trim|].
Qed.
Lemma one_line_host r : request_line r -> one_line (request_host r).
Proof.
  intros (_ & Hh & Hu). unfold request_host. destruct (is_empty _); [|done]. destruct (r_URL r) as [u|]; [|done].
  by destruct (Hu u eq_refl) as (_ & _ & ? & _).
Qed.
Lemma one_line_scheme r s : request_line r -> httpScheme r = Ok s -> one_line s.
Proof.
  intros (_ & _ & Hu). unfold httpScheme. destruct (r_URL r) as [u|]; cbn.
  - destruct (is_empty (u_Scheme u)); cbn; [destruct (r_TLS r); [by intros [= <-]|done]|].
    intros [= <-]. apply one_line_ToLower. by destruct (Hu u eq_refl) as (? & _).
  - destruct (r_TLS r); [by intros [= <-]|done].
Qed.
Lemma one_line_validEncoded s m : validEncoded s m = true -> one_line s.
Proof.
  unfold validEncoded. intros H. apply has_byte_false. revert H. apply forall_byte_impl. intros a Ha.
  destruct (Ascii.eqb_spec a "010"); [|done]. subst. by destruct m.
Qed.
Lemma one_line_EscapedPath u : one_line (url_EscapedPath u).
Proof.
  unfold url_EscapedPath. destruct (_ && _ && _) eqn:E.
  - go_bool. by eapply one_line_validEncoded.
  - destruct (str_eqb _ _); [done|]. apply one_line_escape.
Qed.
Lemma one_line_query u : one_line (u_RawQuery u) -> one_line (query_suffix u).
Proof. intros. unfold query_suffix. destruct (_ || _); [|done]. by apply clean_cons. Qed.
Lemma one_line_RequestURI u : url_line u -> one_line (RequestURI u).
Proof.
  intros (Hs & Ho & Hh & Hq). unfold RequestURI. apply clean_append. split; [|by apply one_line_query].
  destruct (is_empty (u_Opaque u)); [destruct (is_empty _); [done|apply one_line_EscapedPath]|].
  destruct (has_prefix _ _); [|done]. by rewrite clean_append, clean_cons.
Qed.
Lemma one_line_url_String u : one_line (u_Scheme u) -> one_line (u_Opaque u) -> one_line (u_RawQuery u) -> one_line (url_String u).
Proof.
  intros Hs Ho Hq. unfold url_String. rewrite !clean_append.
  split; [destruct (is_empty (u_Scheme u)); [done|by rewrite clean_append]|]. split; [|by apply one_line_query].
  destruct (negb (is_empty (u_Opaque u))); [done|]. rewrite !clean_append. split_and!.
  - destruct (_ || _); [|done]. destruct (_ && _); [done|]. rewrite clean_append. split; [by destruct (_ || _)|apply one_line_escape].
  - destruct (url_EscapedPath u); [done|]. by destruct (_ && _).
  - by destruct (_ && _).
  - apply one_line_EscapedPath.
Qed.
Lemma one_line_target r s : request_line r -> httpTargetURI r = Ok s -> one_line s.
Proof.
  intros Hr. unfold httpTargetURI. pose proof Hr as (_ & _ & Hu). destruct (r_URL r) as [u|]; [|done].
  destruct (httpScheme r) as [scheme|] eqn:Es; [|done]. cbn [mbind res_bind].
  destruct (is_empty _); [done|]. intros [= <-]. destruct (Hu u eq_refl) as (H1 & H2 & H3 & H4).
  apply one_line_url_String; cbn; [by eapply one_line_scheme|done|done].
Qed.

Lemma one_line_query_params want value parts v :
  (forall w, value = Some w -> one_line w) -> query_params want value parts = Ok (Some v) -> one_line v.
Proof.
  revert value. induction parts as [|part parts IH]; intros value Hv; cbn [query_params].
  - intros [= ->]. by apply Hv.
  - destruct (match cut "=" part with Some nv => nv | None => (part, EmptyString) end) as [n w].
    destruct (QueryUnescape n); [|by apply IH]. destruct (negb _); [by apply IH|].
    destruct value; [done|]. destruct (QueryUnescape w); [|done]. apply IH. intros ? [= <-]. apply one_line_formURLEncode.
Qed.
Lemma one_line_rawQueryParam q n v : rawQueryParam q n = Ok v -> one_line v.
Proof.
  unfold rawQueryParam. destruct (QueryUnescape n); [|done].
  destruct (query_params _ _ _) as [[w|]|] eqn:E; [|done|done]. cbn [mbind res_bind of_option]. intros [= ->].
  by apply one_line_query_params in E.
Qed.
Lemma one_line_headerFieldValue h n v : headerFieldValue h n = Some v -> one_line v.
Proof.
  unfold headerFieldValue. destruct (Values h n) as [|x l] eqn:Ev; [done|]. rewrite <- Ev. clear Ev.
  destruct (forallb _ _) eqn:E; [|done]. intros [= <-]. rewrite forallb_forall in E. apply clean_join_comma; [done..|]. apply Forall_fmap, Forall_forall.
  intros s Hs. apply clean_Trim. apply list_elem_of_In, E in Hs. apply has_byte_false. revert Hs. apply forall_byte_impl.
  intros a Ha. destruct (Ascii.eqb_spec a "010"); [|done]. by subst.
Qed.
Lemma one_line_format_uint n : one_line (format_uint n).
Proof.
  apply (forall_byte_no_byte Evidence.is_digit); [done|]. apply digits_of_uint.
Qed.

Section values.
Context {S : Sfv} `{!SfvSpec S}.

Lemma one_line_member value k t : dictionaryMember value k = Some t -> one_line t.
Proof.
  unfold dictionaryMember. destruct (ParseDictionary value) as [d|]; [|done]. cbn [mbind option_bind].
  destruct (dict_get k d) as [[i|l]|]; [| |done]; cbn; [apply serialize_item_line|apply serialize_inner_line].
Qed.
Lemma one_line_request_component q c name v : request_line q -> request_component q c name = Some (Ok v) -> one_line v.
Proof.
  intros Hq. unfold request_component. pose proof Hq as (Hm & _ & Hu).
  assert (forall f : RequestURL -> res string, (forall u v, url_line u -> f u = Ok v -> one_line v) ->
    (match r_URL q with Some u => Some (f u) | None => None end) = Some (Ok v) -> one_line v) as Hurl.
  { intros f Hf. destruct (r_URL q) as [u|]; [|done]. intros [= H]. eapply Hf; [by apply Hu|done]. }
  repeat match goal with |- (if ?b then _ else _) = _ -> _ => destruct b end; try done.
  - by intros [= <-].
  - destruct (is_empty _); [done|]. intros [= <-]. by apply one_line_authority, one_line_host.
  - intros [= H]. by eapply one_line_target.
  - apply Hurl. intros u w _ [= <-]. destruct (is_empty _); [done|apply one_line_EscapedPath].
  - apply Hurl. intros u w (_ & _ & _ & ?) [= <-]. by apply clean_cons.
  - apply Hurl. intros u w _. destruct (param_string _ _) as [n|]; [|done]. destruct (is_empty n); [done|]. apply one_line_rawQueryParam.
  - apply Hurl. intros u w ? [= <-]. by apply one_line_RequestURI.
  - intros [= H]. by eapply one_line_scheme.
Qed.
Lemma one_line_component msg c v : message_line msg -> httpSignatureComponentValue msg c = Ok v -> one_line v.
Proof.
  intros Hm. unfold httpSignatureComponentValue. cbv zeta. destruct (validateComponentIdentifier _); [|done]. cbn [mbind res_bind].
  destruct (componentParties msg _) as [[req response]|] eqn:Ep; [|done]. cbn [mbind res_bind].
  assert (forall q, req = Some q -> request_line q) as Hreq.
  { intros q ->. revert Ep. unfold componentParties. destruct (has_req _), msg as [r|r]; try done; [|by intros [= ->]].
    destruct (s_Request r) as [q'|] eqn:E; [|done]. intros [= -> _]. by apply Hm. }
  destruct (bool_decide _).
  - destruct req as [q|].
    + destruct (request_component q _ _) as [[w|]|] eqn:E; try done. intros [= ->]. by eapply one_line_request_component, E; apply Hreq.
    + destruct response as [r|]; [|done]. destruct (str_eqb _ _); [|done]. intros [= <-]. unfold format_int.
      destruct (_ <? 0); [apply clean_cons; split; [done|]|]; apply one_line_format_uint.
  - unfold field_component. destruct (has_prefix _ _); [done|].
    match goal with |- context [headerFieldValue ?h ?n] => destruct (headerFieldValue h n) as [w|] eqn:E end; [|done].
    cbn [of_option mbind res_bind]. apply one_line_headerFieldValue in E.
    destruct (param_string _ _) as [k|]; [|by intros [= <-]]. destruct (is_empty k); [by intros [= <-]|].
    destruct (dictionaryMember w k) as [t|] eqn:Ed; [|done]. intros [= <-]. by eapply one_line_member.
Qed.
End values.

(** ** The base *)
Section base.
Context {S : Sfv} `{!SfvSpec S}.

(** A line of the base and the component it is for. *)
Definition line_of (m : message) (c : ComponentIdentifier) (line : string) : Prop :=
  exists item identifier v, componentItem c = Ok item /\ SerializeItem item = Some identifier /\
    httpSignatureComponentValue m c = Ok v /\ line = String.append identifier (String ":" (String " " v)).

Lemma base_lines_spec m seen cs lines : base_lines m seen cs = Ok lines -> Forall2 (line_of m) cs lines.
Proof.
  revert seen lines. induction cs as [|c cs IH]; intros seen lines; cbn [base_lines]; [by intros [= <-]|].
  destruct (validateComponentIdentifier c); [|done]. cbn [mbind res_bind]. destruct (containsComponent seen c); [done|].
  destruct (httpSignatureComponentValue m c) as [v|] eqn:Ev; [|done]. cbn [mbind res_bind].
  destruct (componentItem c) as [item|] eqn:Ei; [|done]. cbn [mbind res_bind].
  destruct (SerializeItem item) as [identifier|] eqn:Es; [|done]. cbn [mbind res_bind of_option].
  destruct (base_lines m _ cs) as [rest|] eqn:Er; [|done]. intros [= <-].
  constructor; [by exists item, identifier, v|by eapply IH].
Qed.
Lemma base_parts m p b : BuildSignatureInput m p = Ok b ->
  exists inner mem lines, signatureParamsInnerList p = Ok inner /\ SerializeInnerList inner = Some mem /\
    Forall2 (line_of m) (Components p) lines /\ b = Prelude.join "010" (lines ++ [String.append params_identifier mem]).
Proof.
  unfold BuildSignatureInput. destruct (signatureParamsInnerList p) as [inner|]; [|done]. cbn [mbind res_bind].
  destruct (SerializeInnerList inner) as [mem|] eqn:Em; [|done]. cbn [mbind res_bind of_option].
  destruct (base_lines m [] (Components p)) as [lines|] eqn:El; [|done]. intros [= <-].
  exists inner, mem, lines. by apply base_lines_spec in El.
Qed.
Lemma lines_clean m cs lines : message_line m -> Forall2 (line_of m) cs lines -> Forall (fun s => one_line s) lines.
Proof.
  intros Hm H. induction H as [|c line cs lines (item & identifier & v & _ & Hi & Hv & ->) _ IH]; [done|]. constructor; [|done].
  apply clean_append. split; [by eapply serialize_item_line|]. rewrite !clean_cons. split_and!; try done.
  by eapply one_line_component.
Qed.
Lemma inner_list_items p inner : signatureParamsInnerList p = Ok inner ->
  Forall2 (fun c i => componentItem c = Ok i) (Components p) (l_Items inner).
Proof.
  unfold signatureParamsInnerList. destruct (component_items (Components p)) as [items|] eqn:E; [|done]. cbn [mbind res_bind].
  intros H. assert (l_Items inner = items) as ->.
  { destruct (Parameters p); [destruct (check_parameters _ _); [|done]|]; by injection H as <-. }
  clear H. revert items E. induction (Components p) as [|c cs IH]; intros items; cbn [component_items]; [by intros [= <-]|].
  destruct (componentItem c) as [i|] eqn:Ei; [|done]. cbn [mbind res_bind].
  destruct (component_items cs) as [rest|]; [|done]. intros [= <-]. constructor; auto.
Qed.

(** The values two messages give to the same items, if they make the same
    lines. *)
Lemma same_lines_same_values m1 m2 items cs1 cs2 lines :
  Forall2 (fun c i => componentItem c = Ok i) cs1 items -> Forall2 (fun c i => componentItem c = Ok i) cs2 items ->
  Forall2 (line_of m1) cs1 lines -> Forall2 (line_of m2) cs2 lines ->
  exists values, Forall2 (fun c v => httpSignatureComponentValue m1 c = Ok v) cs1 values /\
    Forall2 (fun c v => httpSignatureComponentValue m2 c = Ok v) cs2 values.
Proof.
  intros H1. revert cs2 lines. induction H1 as [|c1 i cs1 items Hi1 H1 IH]; intros cs2 lines H2 L1 L2.
  - inversion H2; subst. exists []. by split.
  - inversion H2 as [|c2 ? cs2' ? Hi2 H2' ]; subst. inversion L1 as [|? line ? lines' Hl1 L1']; subst.
    inversion L2 as [|? ? ? ? Hl2 L2']; subst. destruct (IH _ _ H2' L1' L2') as (values & V1 & V2).
    destruct Hl1 as (i1 & id1 & v1 & E1 & S1 & V1' & ->). destruct Hl2 as (i2 & id2 & v2 & E2 & S2 & V2' & He).
    assert (i1 = i) as -> by congruence. assert (i2 = i) as -> by congruence. assert (id2 = id1) as -> by congruence.
    apply append_inj_l in He. injection He as ->. exists (v2 :: values). by split; constructor.
Qed.

(** The signature base determines what it covers: two messages with the
    same base, under whatever parameters, have the same covered components and
    signature parameters, and every covered component has the same value in
    both, so a signature cannot be carried over to a message that differs in
    one of them. Messages from the wire are made of lines. *)
Lemma signature_base_facts m1 m2 p1 p2 b :
  message_line m1 -> message_line m2 ->
  BuildSignatureInput m1 p1 = Ok b -> BuildSignatureInput m2 p2 = Ok b ->
  exists inner values, signatureParamsInnerList p1 = Ok inner /\ signatureParamsInnerList p2 = Ok inner /\
    Forall2 (fun c v => httpSignatureComponentValue m1 c = Ok v) (Components p1) values /\
    Forall2 (fun c v => httpSignatureComponentValue m2 c = Ok v) (Components p2) values.
Proof.
  intros Hm1 Hm2 (inner & mem & lines & I1 & S1 & L1 & ->)%base_parts (inner2 & mem2 & lines2 & I2 & S2 & L2 & He)%base_parts.
  assert (lines ++ [String.append params_identifier mem] = lines2 ++ [String.append params_identifier mem2]) as Hl.
  { assert (forall ls t, Forall (fun s => one_line s) ls -> one_line t ->
      Prelude.split "010" (Prelude.join "010" (ls ++ [String.append params_identifier t])) = ls ++ [String.append params_identifier t]) as Hs.
    { intros ls t Hls Ht. apply split_join; [by destruct ls|]. apply Forall_app. split; [done|]. constructor; [|done].
      apply clean_append. by split. }
    rewrite <- (Hs lines mem) by first [by apply (lines_clean m1 (Components p1))|by eapply serialize_inner_line].
    rewrite <- (Hs lines2 mem2) by first [by apply (lines_clean m2 (Components p2))|by eapply serialize_inner_line].
    by rewrite He. }
  apply app_inj_tail in Hl as [<- Hmem]. apply append_inj_l in Hmem as <-.
  assert (inner2 = inner) as -> by (by eapply serialize_inner_inj).
  exists inner. destruct (same_lines_same_values m1 m2 (l_Items inner) (Components p1) (Components p2) lines) as (values & V1 & V2);
    [by apply inner_list_items..|done|done|]. by exists values.
Qed.
End base.

(** ** [strings.TrimSpace] is idempotent *)
Lemma space_width_mono p t w : space_width p = S w -> space_width (String.append p t) = S w.
Proof.
  destruct p as [|a [|b [|c p]]]; rewrite ?append_cons; cbn [space_width]; intros H; try exact H; [done|..];
    repeat match type of H with (if ?b then _ else _) = _ => destruct b; [exact H|] end; done.
Qed.
Lemma space_width_length p w : space_width p = w -> (w <= String.length p)%nat.
Proof.
  intros <-. destruct p as [|a [|b [|c p]]]; cbn [space_width String.length];
    repeat match goal with |- ((if ?b then _ else _) <= _)%nat => destruct b end; lia.
Qed.
Lemma all_space_append p t k :
  (k <= String.length p)%nat -> all_space_from k p = true -> all_space_from 0 t = true -> all_space_from k (String.append p t) = true.
Proof.
  revert k. induction p as [|a p IH]; intros k Hk Hp Ht; cbn [String.length] in Hk.
  - by replace k with 0%nat by lia.
  - rewrite append_cons. cbn [all_space_from] in *. destruct k as [|k]; [|apply IH; [lia|done..]].
    destruct (space_width (String a p)) as [|w] eqn:Ew; [done|].
    assert (space_width (String a (String.append p t)) = S w) as -> by (by rewrite <- append_cons; apply space_width_mono).
    apply IH; [|done..]. apply space_width_length in Ew. cbn [String.length] in Ew. lia.
Qed.
Lemma trim_right_prefix s : exists t, s = String.append (trim_right s) t /\ all_space_from 0 t = true.
Proof.
  induction s as [|a s (t & Hs & Ht)]; [by exists EmptyString|]. cbn [trim_right].
  destruct (all_space_from 0 (String a s)) eqn:E; [by exists (String a s)|]. exists t. by rewrite append_cons, <- Hs.
Qed.
Lemma trim_right_idem s : trim_right (trim_right s) = trim_right s.
Proof.
  induction s as [|a s IH]; [done|]. cbn [trim_right]. destruct (all_space_from 0 (String a s)) eqn:E; [done|].
  cbn [trim_right]. destruct (all_space_from 0 (String a (trim_right s))) eqn:E2; [|by rewrite IH].
  exfalso. destruct (trim_right_prefix s) as (t & Hs & Ht).
  rewrite Hs, <- append_cons, all_space_append in E; [done|cbn; lia|done..].
Qed.
Lemma trim_left_start k s : trim_left_from k s = EmptyString \/ space_width (trim_left_from k s) = 0%nat.
Proof.
  revert k. induction s as [|a s IH]; intros k; [by left|]. cbn [trim_left_from]. destruct k as [|k]; [|done].
  destruct (space_width (String a s)) eqn:E; [by right|done].
Qed.
Lemma TrimSpace_idem s : TrimSpace (TrimSpace s) = TrimSpace s.
Proof.
  unfold TrimSpace. set (l := trim_left_from 0 s).
  assert (trim_left_from 0 (trim_right l) = trim_right l) as ->; [|apply trim_right_idem].
  destruct (trim_right_prefix l) as (t & Hl & _). destruct (trim_left_start 0 s) as [H|H]; fold l in H; [by rewrite H|].
  destruct (trim_right l) as [|a r]; [done|]. cbn [trim_left_from].
  destruct (space_width (String a r)) as [|w] eqn:Ew; [done|]. apply (space_width_mono _ t) in Ew. rewrite <- Hl in Ew. congruence.
Qed.

(** ** Verified requests *)
Section requests.
Context {key : Type} `{!KeyOps key} `{!JwkSetLib key} `{!CloneLib key} {I : Idna} {S : Sfv} {G : Digest}.
Abbreviation VerifiedDomain := (VerifiedDomain key (LogReader (key:=key))).
Abbreviation IdentityResolver := (IdentityResolver (key:=key)).
Implicit Types (r : Request) (vd : VerifiedDomain) (parsed : parsedHTTPSignature).

(** The parts of a request other than its body. *)
Definition same_head r r' : Prop :=
  r_Method r' = r_Method r /\ r_URL r' = r_URL r /\ r_Header r' = r_Header r /\ r_Host r' = r_Host r /\
  r_RequestURI r' = r_RequestURI r /\ r_TLS r' = r_TLS r.
#[local] Instance same_head_po : PreOrder same_head.
Proof. split; [by intros r|]. unfold same_head. intros r1 r2 r3 H1 H2. intuition congruence. Qed.

(** What the handler will read of a request that carries a body. *)
Definition body_checked r r' : Prop :=
  httpRequestHasBody r = true ->
  exists content, r_Body r' = Some (Stream content None) /\ Z.of_nat (String.length content) <= 8388608 /\
    VerifyContentDigestBytes content (Header_Get (r_Header r) "Content-Digest") = true.

(** The signature of one candidate over the head of a request. *)
Definition signed_by_current_key (resolver : option IdentityResolver) r parsed vd : Prop :=
  exists domain kid k alg base,
    SplitDNSIDKid (ph_keyID parsed) = Ok (domain, kid) /\
    VerifyIdentity resolver domain (peer_chains r) = Ok vd /\
    LookupJWKByKid (KeySet (Some vd)) kid = Some k /\ SigningKeyEligible k = true /\
    AlgForJWK k = Some alg /\ JWKMatchesAlg k alg = true /\
    (ph_httpAlg parsed = EmptyString \/ JoseAlgToHTTPSigAlg alg = Ok (ph_httpAlg parsed)) /\
    BuildSignatureInput (MReq r) (base_params parsed) = Ok base /\
    VerifySignature alg base (ph_signature parsed) [k] = true.

Lemma signer_key_facts vd kid httpAlg k alg :
  signer_key vd kid httpAlg = Ok (k, alg) ->
  LookupJWKByKid (KeySet (Some vd)) kid = Some k /\ SigningKeyEligible k = true /\
  AlgForJWK k = Some alg /\ JWKMatchesAlg k alg = true /\ (httpAlg = EmptyString \/ JoseAlgToHTTPSigAlg alg = Ok httpAlg).
Proof.
  unfold signer_key. destruct (LookupJWKByKid _ kid) as [k'|]; [|done].
  destruct (SigningKeyEligible k') eqn:E1; [|done]. cbn [negb]. destruct (AlgForJWK k') as [a|] eqn:E2; [|done].
  destruct (JWKMatchesAlg k' a) eqn:E3; [|done]. cbn [negb]. destruct (JoseAlgToHTTPSigAlg a) as [ea|] eqn:E4; [|done].
  destruct (is_empty httpAlg) eqn:E5; cbn [negb andb].
  - intros [= <- <-]. apply is_empty_true in E5. auto 6.
  - destruct (str_eqb httpAlg ea) eqn:E6; [|done]. cbn [negb]. intros [= <- <-]. apply str_eqb_eq in E6 as ->. auto 6.
Qed.
Lemma verify_candidate_facts config resolver r parsed vd :
  verify_candidate config resolver r parsed = Ok vd -> signed_by_current_key resolver r parsed vd.
Proof.
  unfold verify_candidate. destruct (SplitDNSIDKid _) as [[domain kid]|] eqn:Es; [|done].
  destruct (VerifyIdentity _ _ _) as [v|] eqn:Ev; [|done]. cbn [mbind res_bind].
  destruct (signer_key v kid _) as [[k alg]|] eqn:Ek; [|done]. cbn [mbind res_bind].
  destruct (BuildSignatureInput _ _) as [base|] eqn:Eb; [|done]. cbn [mbind res_bind].
  destruct (VerifySignature alg base _ [k]) eqn:E; [|done]. intros [= <-].
  apply signer_key_facts in Ek as (? & ? & ? & ? & ?). exists domain, kid, k, alg, base. auto 12.
Qed.

(** The body is not part of the base. *)
Lemma component_value_head r r' c : same_head r r' -> httpSignatureComponentValue (MReq r') c = httpSignatureComponentValue (MReq r) c.
Proof.
  destruct r as [m1 u1 h1 o1 q1 b1 t1], r' as [m2 u2 h2 o2 q2 b2 t2]. unfold same_head.
  cbn [r_Method r_URL r_Header r_Host r_RequestURI r_TLS]. intros (-> & -> & -> & -> & -> & ->).
  unfold httpSignatureComponentValue, componentParties. cbv zeta.
  destruct (validateComponentIdentifier _); [|reflexivity]. cbn [mbind res_bind].
  destruct (has_req _); reflexivity.
Qed.
Lemma base_head r r' p : same_head r r' -> BuildSignatureInput (MReq r') p = BuildSignatureInput (MReq r) p.
Proof.
  intros H. unfold BuildSignatureInput. assert (forall seen cs, base_lines (MReq r') seen cs = base_lines (MReq r) seen cs) as ->; [|done].
  intros seen cs. revert seen. induction cs as [|c cs IH]; intros seen; [done|]. cbn [base_lines].
  by rewrite (component_value_head _ _ _ H), IH.
Qed.
Lemma signed_head resolver r r' parsed vd :
  same_head r r' -> signed_by_current_key resolver r' parsed vd -> signed_by_current_key resolver r parsed vd.
Proof.
  intros H (domain & kid & k & alg & base & H1 & H2 & H3 & H4 & H5 & H6 & H7 & H8 & H9). exists domain, kid, k, alg, base.
  rewrite (base_head _ _ _ H) in H8. unfold peer_chains in *. destruct H as (_ & _ & _ & _ & _ & <-). auto 12.
Qed.

(** *** The body *)
Lemma read_bounded b content rest : readBoundedBody b = (Ok content, rest) -> Z.of_nat (String.length content) <= 8388608.
Proof.
  destruct b as [|c f]; cbn [readBoundedBody]; [intros [= <- _]; cbn; lia|]. change (Z.shiftl 8 20) with 8388608.
  destruct (8388608 <? _) eqn:E; [done|]. apply Z.ltb_ge in E. destruct f; [done|]. by intros [= <- _].
Qed.
Lemma read_again content : Z.of_nat (String.length content) <= 8388608 -> (readBoundedBody (Stream content None)).1 = Ok content.
Proof.
  intros H. cbn [readBoundedBody]. change (Z.shiftl 8 20) with 8388608. apply Z.ltb_ge in H. by rewrite H.
Qed.
Lemma require_facts r cs result r' :
  requireHTTPComponents r cs = (result, r') ->
  same_head r r' /\ (httpRequestHasBody r = true -> httpRequestHasBody r' = true) /\
  (forall content, Z.of_nat (String.length content) <= 8388608 -> r_Body r = Some (Stream content None) -> r_Body r' = r_Body r) /\
  (result = Ok tt -> Forall (fun c => component_name c = c_Name c) cs -> body_checked r r').
Proof.
  unfold requireHTTPComponents, body_checked.
  destruct (httpRequestHasBody r && negb (containsComponent cs (plain "content-digest"))) eqn:Eb.
  { intros [= <- <-]. by split_and!. }
  destruct (existsb _ cs) eqn:Ec.
  2:{ intros [= <- <-]. split_and!; [done..|]. intros _ Hn Hb. exfalso. rewrite Hb in Eb. cbn [andb] in Eb.
    apply negb_false_iff, existsb_exists in Eb as (c & Hc & He). unfold componentEqual in He. go_bool.
    rewrite <- not_true_iff_false in Ec. apply Ec, existsb_exists. exists c. split; [done|].
    rewrite Forall_forall in Hn. rewrite <- Hn by by apply list_elem_of_In. done. }
  destruct (r_Body r) as [b|] eqn:Er.
  2:{ intros [= <- <-]. by split_and!. }
  destruct (readBoundedBody b) as [[content|e] rest] eqn:Ed.
  - assert (Hl := read_bounded _ _ _ Ed).
    assert (same_head r (with_req_body (Some (ReplayBody content)) r)) as Hh by by repeat split.
    assert (forall x, Z.of_nat (String.length x) <= 8388608 -> Some b = Some (Stream x None) -> Some (ReplayBody content) = Some b) as Hr.
    { intros x Hx [= ->]. pose proof (read_again x Hx) as Hx'. rewrite Ed in Hx'. by injection Hx' as ->. }
    destruct (VerifyContentDigestBytes _ _) eqn:Ev; intros [= <- <-]; (split; [done|]); (split; [done|]); (split; [by apply Hr|]); [|done].
    intros _ _ _. exists content. split_and!; done.
  - intros [= <- <-]. split; [by repeat split|]. split.
    { unfold httpRequestHasBody. cbn. rewrite Er. destruct b as [|x f]; [done|]. cbn [readBoundedBody] in Ed.
      assert (exists y, rest = Stream y f) as [y ->]; [|done].
      destruct (_ <? _); [injection Ed as _ <-; by eexists|]. destruct f; injection Ed as _ <-; by eexists. }
    split; [|done]. intros x Hx [= ->].
    by rewrite (surjective_pairing (readBoundedBody _)), read_again in Ed.
Qed.
(** *** The parsed components are in lower case *)
Lemma component_params_name ps c c' : component_params ps c = Ok c' -> c_Name c' = c_Name c.
Proof.
  revert c. induction ps as [|q ps IH]; intros c; cbn [component_params]; [by intros [= <-]|].
  destruct (has_param _ c); [done|]. by intros ->%IH.
Qed.
Lemma validated_name c : validateComponentIdentifier c = Ok tt -> ToLower (TrimSpace (c_Name c)) = TrimSpace (c_Name c).
Proof.
  unfold validateComponentIdentifier. destruct (_ || _); [done|]. destruct (negb (str_eqb _ _)) eqn:E; [done|]. intros _.
  by apply negb_false_iff, str_eqb_eq in E.
Qed.
Lemma parse_component_name i c : parse_component i = Ok c -> component_name c = c_Name c.
Proof.
  unfold parse_component. destruct (i_Value i) as [| |name| | |]; try done.
  destruct (component_params _ _) as [c0|] eqn:E; [|done]. cbn [mbind res_bind]. apply component_params_name in E. cbn in E.
  destruct (validateComponentIdentifier c0) as [[]|] eqn:Ev; [|done]. intros [= <-]. apply validated_name in Ev.
  unfold component_name. cbn [c_Name]. rewrite E, TrimSpace_idem in Ev. by rewrite E, Ev, TrimSpace_idem, Ev.
Qed.
Lemma parse_components_name items acc cs :
  parse_components items acc = Ok cs -> Forall (fun c => component_name c = c_Name c) acc -> Forall (fun c => component_name c = c_Name c) cs.
Proof.
  revert acc. induction items as [|i items IH]; intros acc; cbn [parse_components]; [by intros [= <-]|].
  destruct (parse_component i) as [c|] eqn:E; [|done]. cbn [mbind res_bind]. destruct (containsComponent acc c); [done|].
  intros H Ha. eapply IH; [exact H|]. apply Forall_app. split; [done|]. constructor; [by eapply parse_component_name|done].
Qed.
Lemma parse_parameters_keeps seen ps p p' : parse_parameters seen ps p = Ok p' ->
  Components p' = Components p /\ Parameters p' = Parameters p.
Proof.
  revert seen p. induction ps as [|q ps IH]; intros seen p; cbn [parse_parameters]; [by intros [= <-]|].
  destruct (_ && _); [done|]. destruct (assignKnownSignatureParameter p _ _) as [p1|] eqn:E; [|done].
  cbn [mbind res_bind]. intros (H1 & H2)%IH. unfold assignKnownSignatureParameter in E.
  rewrite H1, H2. repeat match type of E with
  | (if ?b then _ else _) = _ => destruct b
  | (match ?v with _ => _ end) = _ => destruct v
  end; try discriminate E; by injection E as <-.
Qed.
Lemma input_member_components label l p : input_member label l = Ok p ->
  Forall (fun c => component_name c = c_Name c) (Components p).
Proof.
  unfold input_member. destruct (parse_components _ _) as [cs|] eqn:E; [|done]. cbn [mbind res_bind].
  intros [-> _]%parse_parameters_keeps. cbn. by eapply parse_components_name.
Qed.
Lemma input_members_components d inputs : input_members d = Ok inputs ->
  Forall (fun ip => Forall (fun c => component_name c = c_Name c) (Components ip.2)) inputs.
Proof.
  revert inputs. induction d as [|[label [i|l]] d IH]; intros inputs; cbn [input_members]; [by intros [= <-]|done|].
  destruct (input_member label l) as [p|] eqn:E; [|done]. cbn [mbind res_bind].
  destruct (input_members d) as [rest|]; [|done]. intros [= <-]. constructor; [by eapply input_member_components|auto].
Qed.

(** *** The candidates *)
(** A candidate comes from one label of both headers and covers the request
    line. *)
Definition candidate_for r parsed : Prop :=
  exists inputs sigs p,
    ParseSignatureInput (join_comma (Values (r_Header r) "Signature-Input")) = Ok inputs /\
    ParseSignature (join_comma (Values (r_Header r) "Signature")) = Ok sigs /\
    (ph_label parsed, p) ∈ inputs /\ dict_get (ph_label parsed) sigs = Some (ph_signature parsed) /\
    Components p = ph_components parsed /\ Created p = ph_created parsed /\ KeyID p = ph_keyID parsed /\
    ph_hasExpires parsed = hasSignatureParameter p "expires" /\ Expires p = ph_expires parsed /\
    hasSignatureParameter p "created" = true /\
    Forall (fun name => containsComponent (Components p) (plain name) = true) ["@method"; "@authority"; "@target-uri"]%string.
Lemma headers_facts range r candidates :
  (forall l, range l ≡ₚ l) -> parseHTTPSignatureHeaders range r = Ok candidates ->
  (List.length candidates <= 2)%nat /\
  Forall (fun parsed => candidate_for r parsed /\ Forall (fun c => component_name c = c_Name c) (ph_components parsed)) candidates.
Proof.
  intros Hrange. unfold parseHTTPSignatureHeaders. destruct (header_limits r); [|done]. cbn [mbind res_bind].
  destruct (ParseSignatureInput _) as [inputs|] eqn:Ei; [|done]. cbn [mbind res_bind].
  destruct (is_empty _); [done|]. destruct (ParseSignature _) as [sigs|] eqn:Es; [|done]. cbn [mbind res_bind].
  destruct (2 <? _) eqn:E2; [done|]. apply Z.ltb_ge in E2. destruct (bool_decide _); [done|]. intros [= <-].
  split; [lia|]. apply Forall_forall. intros parsed Hp. apply list_elem_of_omap in Hp as ([label p] & Hin & Hc).
  rewrite Hrange in Hin. unfold candidate_of in Hc. destruct (dict_get label sigs) as [sig|] eqn:Ed; [|done].
  cbn [mbind option_bind] in Hc. destruct (negb (forallb _ _) || _ || _) eqn:E; [done|].
  destruct (negb (is_empty (Alg p)) && _); [done|]. injection Hc as <-. apply orb_false_iff in E as [[E1 E3]%orb_false_iff _].
  apply negb_false_iff in E1, E3. split.
  - exists inputs, sigs, p. cbn. split_and!; try done. apply Forall_forall. intros n Hn. rewrite forallb_forall in E1.
    by apply E1, list_elem_of_In.
  - cbn. unfold ParseSignatureInput in Ei. destruct (is_empty _); [done|].
    destruct (validateUniqueDictionaryLabels _); [|done]. cbn [mbind res_bind] in Ei.
    destruct (ParseDictionary _) as [d|]; [|done]. cbn [of_option mbind res_bind] in Ei.
    apply input_members_components in Ei. rewrite Forall_forall in Ei. by apply (Ei (label, p)).
Qed.

(** What a candidate that verifies has shown, with the request as it is left. *)
Definition fresh_signature (config : Config) (now : time) parsed : Prop :=
  exists cfg, httpSignatureConfig config = Ok cfg /\
    checkHTTPSignatureFreshness (ph_created parsed) (ph_expires parsed) (ph_hasExpires parsed) cfg now = Ok tt.
Lemma parsed_facts config resolver now r parsed result r' :
  Forall (fun c => component_name c = c_Name c) (ph_components parsed) ->
  verifyParsedHTTPRequest config resolver now r parsed = (result, r') ->
  same_head r r' /\ (httpRequestHasBody r = true -> httpRequestHasBody r' = true) /\
  (forall content, Z.of_nat (String.length content) <= 8388608 -> r_Body r = Some (Stream content None) -> r_Body r' = r_Body r) /\
  (forall vd, result = Ok vd -> fresh_signature config now parsed /\ body_checked r r' /\ signed_by_current_key resolver r parsed vd).
Proof.
  intros Hn. unfold verifyParsedHTTPRequest.
  destruct (httpSignatureConfig config) as [cfg|] eqn:Ec; [|intros [= <- <-]; by split_and!].
  destruct (checkHTTPSignatureFreshness _ _ _ _ _) as [[]|] eqn:Ef; [|intros [= <- <-]; by split_and!].
  destruct (requireHTTPComponents r _) as [checked r1] eqn:Er. intros [= <- <-].
  apply require_facts in Er as (H1 & H2 & H3 & H4). split_and!; try done. intros vd H.
  destruct checked as [[]|]; [|done]. cbn [mbind res_bind] in H. split_and!.
  - by exists cfg.
  - by apply H4.
  - apply verify_candidate_facts in H. by eapply signed_head.
Qed.

(** What the candidates say one after the other, each of the request that the
    ones before it left: a check may read the body and put it back. *)
Fixpoint outcomes (config : Config) (resolver : option IdentityResolver) (now : string -> time) (r : Request)
    (cands : list parsedHTTPSignature) : list (res VerifiedDomain) * Request :=
  match cands with
  | [] => ([], r)
  | parsed :: cands =>
      let '(result, r) := verifyParsedHTTPRequest config resolver (now (ph_label parsed)) r parsed in
      let '(results, r) := outcomes config resolver now r cands in
      (result :: results, r)
  end.
Definition refused (results : list (res VerifiedDomain)) : Prop := Forall (fun result => exists e, result = Err e) results.

Lemma candidates_keep config resolver now r v le cands vd le' r' :
  Forall (fun parsed => Forall (fun c => component_name c = c_Name c) (ph_components parsed)) cands ->
  verify_candidates config resolver now r (Some v) le cands = (Ok (Some vd, le'), r') ->
  v = vd /\ same_head r r' /\
  (forall content, Z.of_nat (String.length content) <= 8388608 -> r_Body r = Some (Stream content None) -> r_Body r' = r_Body r) /\
  exists results, outcomes config resolver now r cands = (results, r') /\ refused results.
Proof.
  intros Hn. revert r le. induction Hn as [|parsed cands Hp Hn IH]; intros r le; cbn [verify_candidates outcomes].
  - intros [= -> -> ->]. split_and!; try done. exists []. by split; [|constructor].
  - destruct (verifyParsedHTTPRequest _ _ _ r parsed) as [result r1] eqn:E.
    destruct (parsed_facts _ _ _ _ _ _ _ Hp E) as (H1 & _ & H3 & _).
    destruct result as [|e]; [done|]. intros (-> & K1 & K2 & results & K3 & K4)%IH. split_and!; [done|by etrans| |].
    + intros content Hc Hb. rewrite <- (H3 content Hc Hb). apply (K2 content Hc). by rewrite (H3 content).
    + exists (Err e :: results). rewrite K3. split; [done|]. constructor; [by exists e|exact K4].
Qed.
Lemma candidates_facts config resolver now r le cands vd le' r' :
  Forall (fun parsed => Forall (fun c => component_name c = c_Name c) (ph_components parsed)) cands ->
  verify_candidates config resolver now r None le cands = (Ok (Some vd, le'), r') ->
  same_head r r' /\ exists pre parsed post before after, cands = pre ++ parsed :: post /\
    fresh_signature config (now (ph_label parsed)) parsed /\ body_checked r r' /\ signed_by_current_key resolver r parsed vd /\
    outcomes config resolver now r cands = (before ++ Ok vd :: after, r') /\
    List.length before = List.length pre /\ refused (before ++ after).
Proof.
  intros Hn. revert r le. induction Hn as [|parsed cands Hp Hn IH]; intros r le; cbn [verify_candidates outcomes]; [done|].
  destruct (verifyParsedHTTPRequest _ _ _ r parsed) as [result r1] eqn:E.
  destruct (parsed_facts _ _ _ _ _ _ _ Hp E) as (H1 & H2 & H3 & H4). destruct result as [v|e].
  - intros (-> & K1 & K2 & results & K3 & K4)%candidates_keep; [|done]. destruct (H4 vd eq_refl) as (F1 & F2 & F3).
    split; [by etrans|]. exists [], parsed, cands, [], results. rewrite K3. split_and!; try done.
    intros Hb. destruct (F2 Hb) as (content & Hc & Hl & Hv). exists content. by rewrite (K2 content).
  - intros (K1 & pre & p & post & before & after & -> & F1 & F2 & F3 & F4 & F5 & F6)%IH. split; [by etrans|].
    exists (parsed :: pre), p, post, (Err e :: before), after. rewrite F4. split_and!; try done.
    + intros Hb. destruct (F2 (H2 Hb)) as (content & Hc & Hl & Hv). exists content. split_and!; try done.
      by destruct H1 as (_ & _ & <- & _).
    + by eapply signed_head.
    + cbn. by rewrite F5.
    + constructor; [by exists e|exact F6].
Qed.

(** C4: a request that verifies was signed by the verified domain. One label of
    both signature headers covers the method, the authority and the target;
    its [keyid] names a domain that the resolver verifies, with the peer's
    chains, and a key of that domain's published set which is eligible, has
    the allowed algorithm of its type and verifies the signature over the base
    of this very request; the signature is within its freshness window; a body
    is covered by a digest that the bytes left for the handler match. The
    labels are checked one after the other, in whatever order the map is read,
    each on the request as the one before left it, the first on this one; all
    of them but this one fail. *)
Theorem verified_request_is_signed config resolver range now done r vd r' :
  (forall l, range l ≡ₚ l) -> VerifyHTTPRequest config resolver range now done r = (Ok vd, r') ->
  same_head r r' /\ body_checked r r' /\ exists pre parsed post before after,
    parseHTTPSignatureHeaders range r = Ok (pre ++ parsed :: post) /\ (List.length (pre ++ post) <= 1)%nat /\
    candidate_for r parsed /\ fresh_signature config (now (ph_label parsed)) parsed /\
    signed_by_current_key resolver r parsed vd /\
    outcomes config resolver now r (pre ++ parsed :: post) = (before ++ Ok vd :: after, r') /\
    List.length before = List.length pre /\ refused (before ++ after).
Proof.
  intros Hrange. unfold VerifyHTTPRequest. destruct (parseHTTPSignatureHeaders range r) as [cands|] eqn:Ec; [|done].
  destruct (headers_facts _ _ _ Hrange Ec) as (Hlen & Hc). rewrite Forall_and in Hc. destruct Hc as [Hc Hn].
  destruct (verify_candidates _ _ _ _ _ _ _) as [[[[v|] le]|] r1] eqn:Ev; [| |done].
  - destruct done; [discriminate|]. intros [= -> ->].
    destruct (candidates_facts _ _ _ _ _ _ _ _ _ Hn Ev) as (H1 & pre & parsed & post & before & after & -> & F1 & F2 & F3 & F4).
    split; [exact H1|]. split; [exact F2|]. exists pre, parsed, post, before, after. rewrite !length_app in *. cbn in Hlen.
    apply Forall_app in Hc as [_ Hc]. apply Forall_cons in Hc as [Hc _]. destruct F4 as (? & ? & ?).
    split_and!; try assumption; [reflexivity|lia].
  - destruct done; [discriminate|]. by destruct le.
Qed.
End requests.
