(* ===== verification/ResponseSig.v ===== *)
(** * ResponseSig: signing requests and negotiated responses

    The signing side of httpsig/http_signatures.go and the negotiated
    response authentication of httpsig/response_signatures.go. A request asks
    for a signed response through its Accept-Signature field; the response
    covers that field, the request's own signature and the content. *)

From Stdlib Require Import ZArith Lia Ascii String.
From S2P Require Import Prelude Codec Json Keys Fqdn TxtRecord Evidence KeyRing Jwks Domain LogReader Fetch Manager Event NetHttp JoseUtil HttpSig.

Open Scope Z_scope.

Definition dnsidHTTPSigLabel : string := "sig1".
Definition maximumResponseNonceLength : Z := 1024.
Definition maximumResponseComponents : Z := 64.
Definition responseSignatureLifetime : Z := 60.

Record ResponseSignatureOptions := {
  ExpectedDomain : string;
  ro_AdditionalComponents : list ComponentIdentifier
}.
Record SigningOptions := {
  so_Label : string;
  ExpiresIn : Z;
  so_Tag : string;
  AdditionalComponents : list string;
  AdditionalComponentIDs : list ComponentIdentifier;
  ResponseSignature : option ResponseSignatureOptions
}.

Definition with_param (k : string) (v : bare) (c : ComponentIdentifier) : ComponentIdentifier :=
  Component (c_Name c) (<[k := v]> (Params c)) (ParamOrder c).
Definition of_request (name : string) : ComponentIdentifier := with_param "req" (SfvBool true) (plain name).
Definition requiredResponseComponents (requestLabel : string) : list ComponentIdentifier :=
  [plain "@status"; of_request "@method"; of_request "@authority"; of_request "@target-uri"; of_request "accept-signature";
   with_param "key" (SfvString requestLabel) (of_request "signature-input");
   with_param "key" (SfvString requestLabel) (of_request "signature");
   plain "content-digest"; plain "cache-control"].

Definition responseVerificationError (msg : string) : error := invalid_signature msg.
Definition caused_by (msg : string) (cause : error) : error := WithCause (responseVerificationError msg) cause.

(** [err.Error()] of what [checkResponseComponent] returns. *)
Definition plain_message (e : error) : string := match e with PlainError msg => msg | _ => EmptyString end.
Definition checkResponseComponent (c : ComponentIdentifier) : res unit :=
  fail_if has_prefix "@" (c_Name c) && negb (str_eqb (c_Name c) "@status") && negb (has_req c)
    with PlainError "response request-derived components require req" ;;
  fail_if (str_eqb (c_Name c) "signature" || str_eqb (c_Name c) "signature-input") && negb (has_req c)
    with PlainError "response components cannot cover response signature fields" ;;
  Ok tt.

Section responses.
Context {I : Idna} {S : Sfv}.

Fixpoint policy_components (additional components : list ComponentIdentifier) : res (list ComponentIdentifier) :=
  match additional with
  | [] => Ok components
  | c :: additional =>
      fail_if (MaxStringLength <? str_len (c_Name c)) || (MaxParameters <? Z.of_nat (List.length (ParamOrder c)))
        with ArgumentError "dnsid: response component exceeds limits" ;;
      fail_if existsb (fun kv => match kv.2 with SfvString text => MaxStringLength <? str_len text | _ => false end) (map_to_list (Params c))
        with ArgumentError "dnsid: response component parameter exceeds limits" ;;
      components ← AppendComponent components c;
      match checkResponseComponent (List.last components c) with
      | Err e => Err (ArgumentError (plain_message e))
      | Ok _ => policy_components additional components
      end
  end.
(** The normalised domain and the components the local policy requires. *)
Definition responsePolicy (opts : ResponseSignatureOptions) (requestLabel : string) : res (string * list ComponentIdentifier) :=
  match NormalizeFQDN (ExpectedDomain opts) with
  | Err e => Err (WithCause (ArgumentError "dnsid: invalid expected response domain") e)
  | Ok domain =>
      let components := requiredResponseComponents requestLabel in
      fail_if maximumResponseComponents - Z.of_nat (List.length components) <? Z.of_nat (List.length (ro_AdditionalComponents opts))
        with ArgumentError "dnsid: too many response components" ;;
      components ← policy_components (ro_AdditionalComponents opts) components;
      Ok (domain, components)
  end.

Definition hasResponseHeader (h : Header) (name : string) : bool :=
  existsb (fun kv => EqualFold kv.1 name) (map_to_list (header_map h)).

(** The running total only grows, so the order of the map does not matter. *)
Definition boundedResponseHeaders (h : Header) : res unit :=
  let fields := map_to_list (header_map h) in
  fail_if (Z.shiftl 1 20 <? foldr (fun kv n => str_len kv.1 + values_size kv.2 + n) 0 fields)
          || existsb (fun kv => (EqualFold kv.1 "accept-signature" || EqualFold kv.1 "signature-input" || EqualFold kv.1 "signature")
                                && (Z.shiftl 16 10 <? values_size kv.2)) fields
    with responseVerificationError "response authentication headers exceed limits" ;;
  Ok tt.
Definition boundedResponseRequest (r : Request) : res unit :=
  boundedResponseHeaders (r_Header r) ;;
  fail_if match r_URL r with
          | None => true
          | Some u => Z.shiftl 64 10 <? str_len (r_RequestURI r) + str_len (u_Path u) + str_len (u_RawPath u) + str_len (u_RawQuery u)
                        + str_len (u_Host u) + str_len (u_Opaque u) + str_len (r_Host r) + str_len (r_Method r)
          end
    with responseVerificationError "invalid originating request target" ;;
  Ok tt.

(** [random] is the challenge, in base64url. *)
Definition prepareResponseNegotiation (r : Request) (opts : ResponseSignatureOptions) (requestLabel : string) (random : res string) : res Request :=
  fail_if hasResponseHeader (r_Header r) "accept-signature" with ArgumentError "dnsid: Accept-Signature is already present" ;;
  fail_if match r_URL r with Some u => negb (str_eqb (u_Scheme u) "https") || is_empty (u_Host u) | None => true end
    with ArgumentError "dnsid: negotiated responses require an HTTPS target" ;;
  match boundedResponseRequest r with
  | Err e => Err (WithCause (ArgumentError "dnsid: response request exceeds input limits") e)
  | Ok _ =>
      '(_, components) ← responsePolicy opts requestLabel;
      nonce ← random;
      match signatureParamsInnerList (no_params "" components None) with
      | Err e => Err (WithCause (ArgumentError "dnsid: invalid response components") e)
      | Ok inner =>
          let inner := Inner (l_Items inner) [Param "created" (SfvBool true); Param "expires" (SfvBool true); Param "nonce" (SfvString nonce)] in
          match SerializeDictionary [(dnsidHTTPSigLabel, MInner inner)] with
          | None => Err (ArgumentError "dnsid: invalid response negotiation")
          | Some value =>
              fail_if Z.shiftl 16 10 <? str_len value with ArgumentError "dnsid: response negotiation exceeds limits" ;;
              Ok (with_req_header (Set_header (r_Header r) "Accept-Signature" value) r)
          end
      end
  end.

(** *** The negotiation of a request *)
Fixpoint negotiation_params (ps : list SignatureParameter) (seen : list string) (nonce : string) : res (list string * string) :=
  match ps with
  | [] => Ok (seen, nonce)
  | q :: ps =>
      let k := p_Name q in
      fail_if bool_decide (k ∈ seen) with responseVerificationError "duplicate response request parameter" ;;
      if str_eqb k "created" || str_eqb k "expires" then
        fail_if negb (bool_decide (p_Value q = SfvBool true)) with responseVerificationError "response timestamp requests must be true" ;;
        negotiation_params ps (k :: seen) nonce
      else if str_eqb k "nonce" then
        match p_Value q with
        | SfvString n =>
            fail_if maximumResponseNonceLength <? str_len n with responseVerificationError "invalid response challenge" ;;
            fail_if match Base64.decode true n with
                    | Some decoded => (str_len decoded <? 32) || negb (str_eqb (Base64.encode decoded) n)
                    | None => true end
              with responseVerificationError "response challenge must be canonical base64url of at least 32 bytes" ;;
            negotiation_params ps (k :: seen) n
        | _ => Err (responseVerificationError "invalid response challenge")
        end
      else Err (responseVerificationError "unsupported response request constraint")
  end.
Definition negotiated_component (i : sfv_Item) : res ComponentIdentifier :=
  fail_if negb (bool_decide (NoDup (p_Name <$> i_Parameters i))) with responseVerificationError "duplicate response component parameter" ;;
  fail_if match i_Value i with SfvString name => negb (str_eqb name (TrimSpace name)) | _ => false end
    with responseVerificationError "invalid response component" ;;
  wire ← of_option (responseVerificationError "invalid response component") (SerializeItem i);
  parseComponentIdentifier wire.
Fixpoint negotiated_components (items : list sfv_Item) (acc : list ComponentIdentifier) : res (list ComponentIdentifier) :=
  match items with
  | [] => Ok acc
  | i :: items =>
      c ← negotiated_component i;
      fail_if containsComponent acc c with responseVerificationError "duplicate response component" ;;
      match checkResponseComponent c with
      | Err e => Err (responseVerificationError (plain_message e))
      | Ok _ => negotiated_components items (acc ++ [c])
      end
  end.

(** [requestedSignatureMember]. *)
Definition keyed_members (name : string) (cs : list ComponentIdentifier) : list string :=
  omap (fun c => if has_req c && str_eqb (c_Name c) name then param_string "key" c else None) cs.
Definition requestedSignatureMember (cs : list ComponentIdentifier) : res string :=
  match keyed_members "signature-input" cs, keyed_members "signature" cs with
  | [a], [b] => if str_eqb a b then Ok b
                else Err (responseVerificationError "response negotiation must bind one request signature member")
  | _, _ => Err (responseVerificationError "response negotiation must bind one request signature member")
  end.

Definition parseResponseNegotiation (r : Request) : res SignatureParams :=
  boundedResponseRequest r ;;
  let value := join_comma (Values (r_Header r) "Accept-Signature") in
  match validateUniqueDictionaryLabels value with
  | Err e => Err (caused_by "malformed response signature request" e)
  | Ok _ =>
      match ParseDictionary value with
      | Some [(label, MInner inner)] =>
          fail_if negb (Nat.eqb (List.length (l_Parameters inner)) 3) with responseVerificationError "invalid response signature request" ;;
          '(seen, nonce) ← negotiation_params (l_Parameters inner) [] "";
          fail_if negb (forallb (fun k => bool_decide (k ∈ seen)) ["created"; "expires"; "nonce"]%string)
            with responseVerificationError "missing response request parameter" ;;
          components ← negotiated_components (l_Items inner) [];
          fail_if maximumResponseComponents <? Z.of_nat (List.length components)
            with responseVerificationError "too many requested response components" ;;
          requestLabel ← requestedSignatureMember components;
          fail_if negb (forallb (containsComponent components) (requiredResponseComponents requestLabel))
            with responseVerificationError "missing required response component" ;;
          Ok {| Label := label; Components := components; KeyID := ""; Alg := ""; Created := 0; Expires := 0; Nonce := nonce; Tag := "";
                Parameters := None; ExpectedSignerKid := ""; ExpectedSignerAlg := "" |}
      | Some [(_, MItem _)] => Err (responseVerificationError "invalid response signature request")
      | _ => Err (responseVerificationError "expected one response signature request")
      end
  end.
End responses.

(** ** Checks of a response *)
Definition checkResponseFreshness (p : SignatureParams) (cfg : Config) (now : time) : res unit :=
  let lifetime := wrap_int64 (Expires p - Created p) in
  fail_if (lifetime <=? 0) || (responseSignatureLifetime <? lifetime)
    with VerificationError "token_expired" false "dnsid: response signature lifetime must be 1 to 60 seconds" ;;
  checkHTTPSignatureFreshness (Created p) 0 false cfg now ;;
  fail_if after now (time_Unix (Expires p) + ClockSkew cfg)
    with VerificationError "token_expired" false "dnsid: response signature has expired" ;;
  Ok tt.
Definition finalResponse (r : Request) (s : Response) : res unit :=
  fail_if (s_StatusCode s <? 200) || (599 <? s_StatusCode s) || str_eqb (r_Method r) "CONNECT" && (s_StatusCode s <? 300)
    with responseVerificationError "response is not an ordinary final HTTP response" ;;
  fail_if s_Uncompressed s with responseVerificationError "response content was transparently decoded" ;;
  boundedResponseHeaders (s_Header s).
Definition noResponseContent (status : Z) : bool := (status =? 204) || (status =? 205) || (status =? 304).

(** [responseContent]: the result and the body left; [done] before and after. *)
Definition responseContent (done done' : bool) (r : Request) (s : Response) : res string * option body :=
  if done then (Err ContextError, s_Body s)
  else if str_eqb (r_Method r) "HEAD" || noResponseContent (s_StatusCode s) then (Ok EmptyString, s_Body s)
  else match s_Body s with
       | None => (Err (responseVerificationError "ordinary response content is unavailable"), None)
       | Some b => let '(result, rest) := readBoundedBody b in
                   (if done' then Err ContextError else result, Some rest)
       end.

(** [hasNoStore]: the directive so far, outside quotes. *)
Definition is_no_store (segment : string) : bool := str_eqb (ToLower (TrimOWS segment)) "no-store".
Fixpoint no_store_scan (quoted escaped : bool) (segment s : string) : bool :=
  match s with
  | EmptyString => is_no_store segment
  | String c s =>
      if Ascii.eqb c "," && negb quoted then is_no_store segment || no_store_scan quoted escaped EmptyString s
      else
        let segment := String.append segment (String c EmptyString) in
        if escaped then no_store_scan quoted false segment s
        else if quoted && Ascii.eqb c "\" then no_store_scan quoted true segment s
        else if Ascii.eqb c "034" then no_store_scan (negb quoted) false segment s
        else no_store_scan quoted false segment s
  end.
Definition hasNoStore (value : string) : bool := no_store_scan false false EmptyString value.

Section profile.
Context {key : Type} `{!KeyOps key} `{!JwkSetLib key} `{!CloneLib key} {I : Idna} {S : Sfv} {G : Digest}.
Abbreviation VerifiedDomain := (VerifiedDomain key (LogReader (key:=key))).
Abbreviation IdentityResolver := (IdentityResolver (key:=key)).
Abbreviation KeyProvider := (KeyProvider (key:=key)).

Record Profile := {
  resolver : option IdentityResolver;
  localDomain : string;
  profile_keys : option KeyProvider;
  cfg : Config
}.
Definition New (r : option IdentityResolver) (local : string) (kp : option KeyProvider) (c : Config) : Profile :=
  {| resolver := r;
     localDomain := if is_empty local then local else match NormalizeFQDN local with Ok d => d | Err _ => local end;
     profile_keys := kp; cfg := c |}.
Definition requireLocalIdentity (p : Profile) : res unit :=
  fail_if bool_decide (profile_keys p = None) || is_empty (localDomain p)
    with ArgumentError "dnsid: local identity and KeyProvider are required" ;; Ok tt.

(** ** Signing *)
(** Sign a base and set both signature fields; [expected] is the signer the
    metadata named. *)
Definition sign_fields (kp : KeyProvider) (p : SignatureParams) (base : string) (h : Header) (wrong_signer : KeySignature -> bool)
    (wrong : error) : res Header :=
  sig ← signature_of (kp_Sign kp base);
  fail_if wrong_signer sig with wrong ;;
  inner ← signatureParamsInnerList p;
  h ← setStructuredDictionaryMember h "Signature-Input" (Label p) (MInner inner);
  setStructuredDictionaryMember h "Signature" (Label p) (MItem (Item (SfvBytes (KeyRing.Signature sig)) [])).

Definition with_label (l : string) (p : SignatureParams) : SignatureParams :=
  {| Label := l; Components := Components p; KeyID := KeyID p; Alg := Alg p; Created := Created p; Expires := Expires p; Nonce := Nonce p;
     Tag := Tag p; Parameters := Parameters p; ExpectedSignerKid := ExpectedSignerKid p; ExpectedSignerAlg := ExpectedSignerAlg p |}.
(** [SignHTTPMessage]: the message with its new header. *)
Definition message_header (m : message) : Header := match m with MReq r => r_Header r | MRes s => s_Header s end.
Definition SignHTTPMessage (m : message) (p : SignatureParams) (kp : KeyProvider) : res Header :=
  let p := with_label (if is_empty (Label p) then dnsidHTTPSigLabel else Label p) p in
  base ← BuildSignatureInput m p;
  sig ← signature_of (kp_Sign kp base);
  fail_if negb (is_empty (ExpectedSignerKid p)) && negb (str_eqb (KeyRing.Kid sig) (ExpectedSignerKid p))
          || negb (is_empty (ExpectedSignerAlg p)) && negb (str_eqb (KeyRing.Alg sig) (ExpectedSignerAlg p))
    with PlainError "dnsid: active signing key did not match HTTP signature metadata" ;;
  fail_if bool_decide (message_header m = None) with PlainError "dnsid: unsupported HTTP message" ;;
  inner ← signatureParamsInnerList p;
  h ← setStructuredDictionaryMember (message_header m) "Signature-Input" (Label p) (MInner inner);
  setStructuredDictionaryMember h "Signature" (Label p) (MItem (Item (SfvBytes (KeyRing.Signature sig)) [])).

Fixpoint append_all (components : list ComponentIdentifier) (cs : list ComponentIdentifier) : res (list ComponentIdentifier) :=
  match cs with [] => Ok components | c :: cs => components ← AppendComponent components c; append_all components cs end.

(** What the signer reads from its environment. *)
Record signing_env := {
  sg_now : time;
  sg_nonce : res string;             (* [randomHTTPSignatureNonce] *)
  sg_challenge : res string          (* the 32 random bytes of a negotiation, in base64url *)
}.

(** [CreateSignedHTTPRequest]: the signed clone, and the caller's request with
    its body put back. *)
Definition label_or_default (l : string) : string := if is_empty l then dnsidHTTPSigLabel else l.
Definition sign_request (p : Profile) (env : signing_env) (opts : SigningOptions) (kp : KeyProvider) (kid : string) (alg : JoseAlg)
    (httpAlg : string) (components : list ComponentIdentifier) (signed : Request) : res Request :=
  components ← append_all components (plain <$> AdditionalComponents opts);
  components ← append_all components (AdditionalComponentIDs opts);
  fail_if ExpiresIn opts <? 0 with ArgumentError "dnsid: HTTP signature expiry must not be negative" ;;
  let created := Unix (sg_now env) in
  let expires := if 0 <? ExpiresIn opts then Unix (time_Unix created + ExpiresIn opts) else 0 in
  nonce ← sg_nonce env;
  let params := {| Label := label_or_default (so_Label opts); Components := components;
                   KeyID := String.append (localDomain p) (String "#" kid); Alg := httpAlg; Created := created; Expires := expires;
                   Nonce := nonce; Tag := so_Tag opts; Parameters := None; ExpectedSignerKid := ""; ExpectedSignerAlg := "" |} in
  base ← BuildSignatureInput (MReq signed) params;
  h ← sign_fields kp params base (r_Header signed)
    (fun sig => negb (str_eqb (KeyRing.Kid sig) kid) || negb (str_eqb (KeyRing.Alg sig) alg))
    (PlainError "active signing key did not match HTTP signature metadata");
  let signed := with_req_header h signed in
  (match ResponseSignature opts with Some _ => boundedResponseRequest signed | None => Ok tt end) ;;
  Ok signed.

Definition CreateSignedHTTPRequest (p : Profile) (env : signing_env) (r : Request) (opts : SigningOptions) : res Request * Request :=
  let prepared :=
    requireLocalIdentity p ;;
    _ ← httpSignatureConfig (cfg p);
    signed ← (match ResponseSignature opts with
              | Some ro => prepareResponseNegotiation r ro (label_or_default (so_Label opts)) (sg_challenge env)
              | None => Ok r
              end);
    '(kid, alg) ← ActiveSigningMetadata (profile_keys p);
    httpAlg ← JoseAlgToHTTPSigAlg alg;
    fail_if has_byte "#" kid with ArgumentError "dnsid: signing key kid must not contain '#'" ;;
    Ok (signed, kid, alg, httpAlg) in
  match prepared, profile_keys p with
  | Err e, _ => (Err e, r)
  | Ok _, None => (Err (PlainError "dnsid: nil KeyProvider"), r)
  | Ok (signed, kid, alg, httpAlg), Some kp =>
      let components := [plain "@method"; plain "@authority"; plain "@target-uri"]
        ++ (match ResponseSignature opts with Some _ => [plain "accept-signature"] | None => [] end) in
      if httpRequestHasBody r then
        match r_Body r with
        | None => (Err (PlainError "unreachable"), r)
        | Some b =>
            match readBoundedBody b with
            | (Err e, rest) => (Err (WithCause (PlainError "dnsid: reading request body") e), with_req_body (Some rest) r)
            | (Ok content, _) =>
                let r := with_req_body (Some (ReplayBody content)) r in
                let signed := with_req_header (Set_header (r_Header signed) "Content-Digest" (contentDigest content))
                                (with_req_body (Some (ReplayBody content)) signed) in
                (sign_request p env opts kp kid alg httpAlg (components ++ [plain "content-digest"]) signed, r)
            end
        end
      else (sign_request p env opts kp kid alg httpAlg components signed, r)
  end.

(** [SignRequestedHTTPResponse]: the signed copy, and the caller's response. *)
Definition label_collides (label : string) (h : Header) : res unit :=
  let inputs := join_comma (Values h "Signature-Input") in
  (if is_empty inputs then Ok tt
   else members ← ParseSignatureInput inputs;
        fail_if bool_decide (is_Some (dict_get label members)) with responseVerificationError "requested response label already exists" ;; Ok tt) ;;
  let sigs := join_comma (Values h "Signature") in
  if is_empty sigs then Ok tt
  else members ← ParseSignature sigs;
       fail_if bool_decide (is_Some (dict_get label members)) with responseVerificationError "requested response label already exists" ;; Ok tt.

Definition no_store_cache (cache : string) : string :=
  if hasNoStore cache then cache
  else if is_empty cache then "no-store"%string else String.append cache ", no-store".

Definition response_params (p : Profile) (now : time) (requested : SignatureParams) (kid : string) (alg : JoseAlg) (httpAlg : string) : SignatureParams :=
  {| Label := Label requested; Components := Components requested; KeyID := String.append (localDomain p) (String "#" kid); Alg := httpAlg;
     Created := Unix now; Expires := wrap_int64 (Unix now + responseSignatureLifetime); Nonce := Nonce requested; Tag := "";
     Parameters := None; ExpectedSignerKid := kid; ExpectedSignerAlg := alg |}.

Definition SignRequestedHTTPResponse (p : Profile) (now : time) (done done' done_end : bool) (r : Request) (s : Response) : res Response * Response :=
  if negb (hasResponseHeader (r_Header r) "accept-signature") then (Ok s, s)
  else
    let prepared :=
      requested ← parseResponseNegotiation r;
      finalResponse r s ;;
      requireLocalIdentity p ;;
      _ ← httpSignatureConfig (cfg p);
      label_collides (Label requested) (s_Header s) ;;
      '(kid, alg) ← ActiveSigningMetadata (profile_keys p);
      fail_if has_byte "#" kid with ArgumentError "dnsid: signing key kid must not contain '#'" ;;
      httpAlg ← JoseAlgToHTTPSigAlg alg;
      Ok (response_params p now requested kid alg httpAlg) in
    match prepared, profile_keys p with
    | Err e, _ => (Err e, s)
    | Ok _, None => (Err (PlainError "dnsid: nil KeyProvider"), s)
    | Ok params, Some kp =>
        match responseContent done done' r s with
        | (Err e, rest) => (Err e, with_res_body rest s)
        | (Ok content, _) =>
            let s := with_res_body (Some (ReplayBody content)) s in
            let h := Set_header (s_Header s) "Content-Digest" (contentDigest content) in
            let cache := no_store_cache (join_comma (Values h "Cache-Control")) in
            (fail_if negb (hasNoStore cache) with responseVerificationError "cannot append no-store to malformed cache policy" ;;
             let signed := with_request (Some r) (with_res_header (Set_header h "Cache-Control" cache) s) in
             match BuildSignatureInput (MRes signed) params with
             | Err e => Err (caused_by "cannot resolve requested response components" e)
             | Ok _ =>
                 h ← SignHTTPMessage (MRes signed) params kp;
                 fail_if done_end with ContextError ;;
                 boundedResponseHeaders h ;;
                 Ok (with_res_header h signed)
             end, s)
        end
    end.

(** ** Verification of a response *)
Definition verifyResponseContentDigest (content value : string) : res unit :=
  validateUniqueDictionaryLabels value ;;
  dict ← of_option (PlainError "sfv: parsing failed") (ParseDictionary value);
  fail_if negb (forallb (fun m => match m.2 with MItem (Item (SfvBytes _) _) => true | _ => false end) dict)
    with PlainError "content digest member must be a byte sequence" ;;
  match dict_get "sha-256" dict with
  | Some (MItem i) =>
      selected ← of_option (PlainError "sfv: serialization failed") (SerializeItem (Item (i_Value i) []));
      if VerifyContentDigestBytes content (String.append "sha-256=" selected) then Ok tt else Err (PlainError "digest mismatch")
  | _ => Err (PlainError "missing SHA-256 content digest")
  end.

Record response_env := {
  re_now : time;                     (* first freshness check *)
  re_acquiredAfter : time;
  re_now_end : time;                 (* second freshness check *)
  re_now_identity : time;            (* in [vd.CheckFreshness] *)
  re_done : bool; re_done' : bool; re_done_end : bool;
  re_peer : list (list (option (string -> bool)))   (* the optional peer arguments *)
}.

(** The part before the identity is looked up: what the response claims. *)
Definition response_claims (p : Profile) (env : response_env) (r : Request) (s : Response) (opts : ResponseSignatureOptions)
    : res (string * SignatureParams * string * Config * string) :=
  _ ← responsePolicy opts dnsidHTTPSigLabel;
  requested ← parseResponseNegotiation r;
  requestLabel ← requestedSignatureMember (Components requested);
  '(expected, required) ← responsePolicy opts requestLabel;
  fail_if negb (str_eqb (match httpScheme r with Ok scheme => scheme | Err _ => EmptyString end) "https")
    with ArgumentError "dnsid: negotiated responses require HTTPS" ;;
  fail_if negb (forallb (containsComponent (Components requested)) required)
    with responseVerificationError "saved negotiation omits local response policy" ;;
  finalResponse r s ;;
  inputs ← ParseSignatureInput (join_comma (Values (s_Header s) "Signature-Input"));
  signatures ← ParseSignature (join_comma (Values (s_Header s) "Signature"));
  let mismatch := Err (responseVerificationError "response label, components, or challenge do not match") in
  match dict_get (Label requested) inputs, dict_get (Label requested) signatures with
  | Some params, Some signature =>
      if negb (Nat.eqb (List.length (Components params)) (List.length (Components requested)))
         || negb (forallb (fun ab => componentEqual ab.1 ab.2) (zip (Components params) (Components requested)))
         || negb (str_eqb (Nonce params) (Nonce requested)) then mismatch
      else
        config ← httpSignatureConfig (cfg p);
        fail_if negb (hasSignatureParameter params "created") || negb (hasSignatureParameter params "expires")
                || negb (str_eqb (Alg params) "ed25519" || str_eqb (Alg params) "ecdsa-p256-sha256")
          with responseVerificationError "response requires timestamps and a supported algorithm" ;;
        checkResponseFreshness params config (re_now env) ;;
        match SplitDNSIDKid (KeyID params) with
        | Err e => Err (caused_by "unexpected response signer domain" e)
        | Ok (domain, kid) =>
            fail_if negb (str_eqb domain expected) with responseVerificationError "unexpected response signer domain" ;;
            Ok (expected, params, signature, config, kid)
        end
  | _, _ => mismatch
  end.

Definition response_peer (env : response_env) (s : Response) : res (list (option (string -> bool))) :=
  match re_peer env with
  | [] => Ok (default [] (s_TLS s))
  | [chains] => Ok chains
  | _ => Err (ArgumentError "dnsid: at most one current-peer context is supported")
  end.

Definition response_signed (p : Profile) (r : Request) (s : Response) (vd : VerifiedDomain) (params : SignatureParams) (signature kid : string) : res unit :=
  match LookupJWKByKid (KeySet (Some vd)) kid with
  | None => Err (VerificationError "key_not_found" false "dnsid: response operational key not found")
  | Some k =>
      fail_if negb (SigningKeyEligible k) with VerificationError "key_not_found" false "dnsid: response operational key not found" ;;
      match AlgForJWK k with
      | None => Err (responseVerificationError "response key algorithm mismatch")
      | Some keyAlg =>
          match JoseAlgToHTTPSigAlg keyAlg with
          | Err e => Err (caused_by "response key algorithm mismatch" e)
          | Ok httpAlg =>
              fail_if negb (JWKMatchesAlg k keyAlg) || negb (str_eqb (Alg params) httpAlg)
                with responseVerificationError "response key algorithm mismatch" ;;
              match BuildSignatureInput (MRes (with_request (Some r) s)) params with
              | Err e => Err (caused_by "cannot resolve response components" e)
              | Ok base =>
                  fail_if negb (VerifySignature keyAlg base signature [k]) with responseVerificationError "invalid response signature" ;;
                  Ok tt
              end
          end
      end
  end.

Definition VerifySignedHTTPResponse (p : Profile) (env : response_env) (r : Request) (s : Response) (opts : ResponseSignatureOptions)
    : res (VerifiedDomain * Response) :=
  '(expected, params, signature, config, kid) ← response_claims p env r s opts;
  peer ← response_peer env s;
  vd ← VerifyIdentity (resolver p) expected peer;
  response_signed p r s vd params signature kid ;;
  match responseContent (re_done env) (re_done' env) r s with
  | (Err e, _) =>
      if re_done env || re_done' env then Err ContextError
      else if bool_decide (errors_as as_verification e <> None) then Err e
      else Err (caused_by "cannot read response content" e)
  | (Ok content, _) =>
      match verifyResponseContentDigest content (join_comma (Values (s_Header s) "Content-Digest")) with
      | Err e => Err (caused_by "response content-digest mismatch" e)
      | Ok _ =>
          fail_if negb (hasNoStore (join_comma (Values (s_Header s) "Cache-Control")))
            with responseVerificationError "response requires signed Cache-Control: no-store" ;;
          checkResponseFreshness params config (re_now_end env) ;;
          CheckFreshness (Some vd) (re_acquiredAfter env) (re_now_identity env) ;;
          fail_if re_done_end env with ContextError ;;
          Ok (vd, with_res_body (Some (ReplayBody content)) s)
      end
  end.

(** ** The negotiated client: one round trip *)
Definition negotiated_round_trip (p : Profile) (senv : signing_env) (env : response_env) (RoundTrip : Request -> res Response)
    (opts : SigningOptions) (policy : ResponseSignatureOptions) (signing_done : bool) (close_error : option error) (r : Request) : res Response :=
  fail_if bool_decide (resolver p = None) with ArgumentError "dnsid: IdentityResolver is required for negotiated clients" ;;
  let opts := {| so_Label := so_Label opts; ExpiresIn := ExpiresIn opts; so_Tag := so_Tag opts;
                 AdditionalComponents := AdditionalComponents opts; AdditionalComponentIDs := AdditionalComponentIDs opts;
                 ResponseSignature := Some policy |} in
  let '(signed, _) := CreateSignedHTTPRequest p senv r opts in
  fail_if signing_done with ContextError ;;
  signed ← signed;
  s ← RoundTrip signed;
  match VerifySignedHTTPResponse p env (with_req_body None signed) s policy with
  | Err e => Err (WithCause (PlainError "dnsid: negotiated response rejected") e)
  | Ok (_, verified) =>
      match s_Body verified with
      | None => Err (PlainError "unreachable")
      | Some b => content ← (readBoundedBody b).1;
          match close_error with Some e => Err e | None => Ok tt end ;;
          Ok (with_res_body (Some (ReplayBody content)) verified)
      end
  end.
End profile.
