(* ===== verification/ResponseSigSpec.v ===== *)
(** * ResponseSigSpec: what a verified response is bound to

    A response that verifies covers the request it answers, through the
    components the local policy requires, and its own status, content and
    cache policy; with HttpSigSpec.v, a signature made for one exchange does
    not verify for another. *)

From Stdlib Require Import ZArith Lia Ascii String.
From S2P Require Import Prelude Codec Json Keys Fqdn TxtRecord Evidence KeyRing Jwks Domain LogReader Fetch Manager Event NetHttp JoseUtil HttpSig HttpSigSpec ResponseSig.

Open Scope Z_scope.

(** ** Components *)
Lemma componentEqual_spec a b : componentEqual a b = true <-> component_name a = component_name b /\ Params a = Params b.
Proof.
  unfold componentEqual. rewrite !andb_true_iff, str_eqb_eq, Nat.eqb_eq, forallb_forall. split.
  - intros [[Hn Hs] Hp]. split; [done|]. apply map_subseteq_size_eq; [|lia]. apply map_subseteq_spec. intros k v Hk.
    specialize (Hp (k, v)). cbn in Hp. apply bool_decide_eq_true in Hp; [done|]. by apply list_elem_of_In, elem_of_map_to_list.
  - intros [-> ->]. split; [done|]. intros [k v] Hk. apply list_elem_of_In, elem_of_map_to_list in Hk. by apply bool_decide_eq_true.
Qed.
Lemma containsComponent_spec cs c :
  containsComponent cs c = true <-> exists c', c' ∈ cs /\ component_name c' = component_name c /\ Params c' = Params c.
Proof.
  unfold containsComponent. rewrite existsb_exists. split.
  - intros (c' & Hin & [? ?]%componentEqual_spec). exists c'. by rewrite list_elem_of_In.
  - intros (c' & Hin & ? & ?). exists c'. rewrite <- list_elem_of_In. split; [done|]. by apply componentEqual_spec.
Qed.
(** A list of components that equal others one by one contains what they do. *)
Lemma equal_components_contain cs ds c :
  List.length cs = List.length ds -> forallb (fun ab => componentEqual ab.1 ab.2) (zip cs ds) = true ->
  containsComponent ds c = true -> containsComponent cs c = true.
Proof.
  rewrite !containsComponent_spec. intros Hlen Hz (d & Hd & Hn & Hp). revert cs Hlen Hz.
  induction ds as [|d' ds IH]; intros [|c' cs] Hlen Hz; try done; [by apply elem_of_nil in Hd|].
  cbn in Hz. apply andb_true_iff in Hz as [[Hn' Hp']%componentEqual_spec Hz]. apply elem_of_cons in Hd as [->|Hd].
  - exists c'. rewrite Hn', Hp'. split; [by left|done].
  - destruct (IH Hd cs) as (x & Hx & Hxx); [by injection Hlen|done|]. exists x. by split; [right|].
Qed.

Section policy.
Context {I : Idna} {S : Sfv}.

(** The value of a component depends on its name and parameters. *)
Lemma component_value_equal m a b :
  component_name a = component_name b -> Params a = Params b ->
  httpSignatureComponentValue m a = httpSignatureComponentValue m b.
Proof.
  destruct a as [na pa oa], b as [nb pb ob]. unfold httpSignatureComponentValue. cbn [Params ParamOrder]. intros -> ->. cbn zeta.
  set (c1 := Component _ pb oa). set (c2 := Component _ pb ob).
  assert (validateComponentIdentifier c1 = validateComponentIdentifier c2) as -> by done.
  destruct (validateComponentIdentifier c2); [|done]. cbn [mbind res_bind].
  assert (componentParties m c1 = componentParties m c2) as -> by done.
  destruct (componentParties m c2) as [[req response]|]; [|done]. cbn [mbind res_bind].
  change (c_Name c1) with (c_Name c2). destruct (bool_decide _); [|done]. by destruct req.
Qed.

(** An item spells out its component. *)
Lemma validate_params_keys l : validate_params l = Ok tt -> Forall (fun kv => kv.1 ∈ ["req"; "key"; "name"]%string) l.
Proof.
  induction l as [|[k v] l IH]; [done|]. cbn [validate_params]. destruct (validate_param (k, v)) as [[]|] eqn:E; [|done].
  cbn [mbind res_bind]. intros H. constructor; [|by apply IH]. cbn. unfold validate_param in E.
  destruct (str_eqb k "req") eqn:E1; [apply str_eqb_eq in E1 as ->; rewrite !elem_of_cons; auto|].
  destruct (str_eqb k "key" || str_eqb k "name") eqn:E2; [|done].
  rewrite !elem_of_cons. apply orb_true_iff in E2 as [E2|E2]; apply str_eqb_eq in E2; auto.
Qed.
Lemma validated_keys c k v : validateComponentIdentifier c = Ok tt -> Params c !! k = Some v -> k ∈ ["req"; "key"; "name"]%string.
Proof.
  unfold validateComponentIdentifier. destruct (_ || _); [done|]. destruct (negb _); [done|].
  destruct (validate_params _) as [[]|] eqn:E; [|done]. intros _ Hk. apply validate_params_keys in E. rewrite Forall_forall in E.
  apply (E (k, v)). by apply elem_of_map_to_list.
Qed.
Lemma item_params_spec seen order params ps : item_params seen order params = Ok ps ->
  forall k v, Param k v ∈ ps <-> k ∈ order /\ k ∉ seen /\ params !! k = Some v.
Proof.
  revert seen ps. induction order as [|k0 order IH]; intros seen ps; cbn [item_params].
  - intros [= <-] k v. rewrite !elem_of_nil. tauto.
  - destruct (bool_decide (k0 ∈ seen)) eqn:Es.
    { apply bool_decide_eq_true in Es. intros H k v. rewrite (IH _ _ H), elem_of_cons. naive_solver. }
    apply bool_decide_eq_false in Es. destruct (params !! k0) as [v0|] eqn:E0.
    2:{ intros H k v. rewrite (IH _ _ H), !elem_of_cons. naive_solver. }
    intros H. assert (exists rest, item_params (k0 :: seen) order params = Ok rest /\ ps = Param k0 v0 :: rest) as (rest & Hr & ->).
    { destruct v0; try done; (destruct (item_params (k0 :: seen) order params) as [rest|]; [|done]);
        cbn [mbind res_bind] in H; injection H as <-; by exists rest. }
    intros k v. rewrite elem_of_cons, (IH _ _ Hr), !elem_of_cons. destruct (decide (k = k0)) as [->|]; [|naive_solver].
    split; [intros [[= ->]|?]; naive_solver|]. intros (_ & _ & Hv). left. congruence.
Qed.
Lemma componentItem_inj a b i : componentItem a = Ok i -> componentItem b = Ok i ->
  component_name a = component_name b /\ Params a = Params b.
Proof.
  assert (forall c, componentItem c = Ok i -> i_Value i = SfvString (component_name c) /\
    forall k v, Params c !! k = Some v <-> Param k v ∈ i_Parameters i) as H.
  { intros c. unfold componentItem. destruct (validateComponentIdentifier c) as [[]|] eqn:Ev; [|done]. cbn [mbind res_bind].
    destruct (item_params _ _ _) as [ps|] eqn:Ep; [|done]. intros [= <-]. split; [done|]. intros k v. cbn.
    rewrite (item_params_spec _ _ _ _ Ep). split; [|naive_solver]. intros Hk. split; [|split; [apply not_elem_of_nil|done]].
    apply elem_of_app. right. by eapply validated_keys. }
  intros [Ha Pa]%H [Hb Pb]%H. split; [congruence|]. apply map_eq. intros k. apply option_eq. intros v. by rewrite Pa, Pb.
Qed.

Lemma AppendComponent_app cs c cs' : AppendComponent cs c = Ok cs' -> exists c', cs' = cs ++ [c'].
Proof.
  unfold AppendComponent. destruct (validateComponentIdentifier _); [|done]. destruct (containsComponent _ _); [done|].
  intros [= <-]. by eexists.
Qed.
Lemma policy_components_app additional cs cs' : policy_components additional cs = Ok cs' -> exists more, cs' = cs ++ more.
Proof.
  revert cs. induction additional as [|c additional IH]; intros cs; cbn [policy_components].
  - intros [= <-]. exists []. by rewrite app_nil_r.
  - destruct (_ || _); [done|]. destruct (existsb _ _); [done|].
    destruct (AppendComponent cs c) as [cs1|] eqn:E; [|done]. cbn [mbind res_bind].
    apply AppendComponent_app in E as [c' ->]. destruct (checkResponseComponent _); [|done].
    intros [more ->]%IH. exists (c' :: more). by rewrite <- app_assoc.
Qed.
Lemma responsePolicy_required opts label domain required :
  responsePolicy opts label = Ok (domain, required) ->
  NormalizeFQDN (ExpectedDomain opts) = Ok domain /\ exists more, required = requiredResponseComponents label ++ more.
Proof.
  unfold responsePolicy. destruct (NormalizeFQDN _) as [d|]; [|done]. destruct (_ <? _); [done|].
  destruct (policy_components _ _) as [cs|] eqn:E; [|done]. cbn [mbind res_bind]. intros [= -> ->].
  by apply policy_components_app in E.
Qed.
End policy.

Section responses.
Context {key : Type} `{!KeyOps key} `{!JwkSetLib key} `{!CloneLib key} {I : Idna} {S : Sfv} {G : Digest}.
Abbreviation VerifiedDomain := (VerifiedDomain key (LogReader (key:=key))).
Abbreviation Profile := (Profile (key:=key)).
Implicit Types (p : Profile) (r : Request) (s : Response) (vd : VerifiedDomain).

(** The exchange as the signer's base sees it. *)
Definition exchange r s : message := MRes (with_request (Some r) s).

(** [params] answer the request that [requested] negotiates, within the local
    policy. *)
Record answers (config : Config) (now : time) r (opts : ResponseSignatureOptions) expected (requested params : SignatureParams) : Prop := {
  an_domain : NormalizeFQDN (ExpectedDomain opts) = Ok expected;
  an_negotiated : parseResponseNegotiation r = Ok requested;
  an_https : httpScheme r = Ok "https"%string;
  an_covers : exists label required, requestedSignatureMember (Components requested) = Ok label /\
    responsePolicy opts label = Ok (expected, required) /\
    Forall (fun c => containsComponent (Components params) c = true) (requiredResponseComponents label) /\
    Forall (fun c => containsComponent (Components params) c = true) required;
  an_nonce : Nonce params = Nonce requested;
  an_lifetime : 1 <= wrap_int64 (Expires params - Created params) <= 60;
  an_fresh : checkResponseFreshness params config now = Ok tt
}.
(** The headers of the response carry the parameters and the signature. *)
Definition labelled (s : Response) (label : string) (params : SignatureParams) (signature : string) : Prop :=
  exists inputs sigs, ParseSignatureInput (join_comma (Values (s_Header s) "Signature-Input")) = Ok inputs /\
    ParseSignature (join_comma (Values (s_Header s) "Signature")) = Ok sigs /\
    dict_get label inputs = Some params /\ dict_get label sigs = Some signature.
(** When a response with these parameters counts as fresh. *)
Definition fresh_at (config : Config) (params : SignatureParams) (now : time) : Prop :=
  time_Unix (Created params) <= now + ClockSkew config /\ time_sub now (time_Unix (Created params)) <= MaxAge config /\
  now <= time_Unix (Expires params) + ClockSkew config.
Lemma fresh_at_spec config params now : checkResponseFreshness params config now = Ok tt -> fresh_at config params now.
Proof.
  unfold checkResponseFreshness, checkHTTPSignatureFreshness, fresh_at, after. destruct (_ || _); [done|].
  destruct (_ || _) eqn:E; [done|]. apply orb_false_iff in E as [E1 E2]. cbn [andb mbind res_bind].
  destruct (_ <? now) eqn:E3; [done|]. intros _. split_and!; lia.
Qed.
Lemma response_claims_facts p env r s opts expected params signature config kid :
  response_claims p env r s opts = Ok (expected, params, signature, config, kid) ->
  finalResponse r s = Ok tt /\ httpSignatureConfig (cfg p) = Ok config /\ SplitDNSIDKid (KeyID params) = Ok (expected, kid) /\
  exists requested, answers config (re_now env) r opts expected requested params /\ labelled s (Label requested) params signature.
Proof.
  unfold response_claims. destruct (responsePolicy opts dnsidHTTPSigLabel); [|done]. cbn [mbind res_bind].
  destruct (parseResponseNegotiation r) as [requested|] eqn:En; [|done]. cbn [mbind res_bind].
  destruct (requestedSignatureMember _) as [label|] eqn:El; [|done]. cbn [mbind res_bind].
  destruct (responsePolicy opts label) as [[domain required]|] eqn:Ep; [|done]. cbn [mbind res_bind].
  destruct (str_eqb _ "https") eqn:Eh; [|done]. cbn [negb].
  destruct (forallb (containsComponent _) required) eqn:Ec; [|done]. cbn [negb].
  destruct (finalResponse r s) as [[]|] eqn:Ef; [|done]. cbn [mbind res_bind].
  destruct (ParseSignatureInput _) as [inputs|] eqn:Esi; [|done]. cbn [mbind res_bind].
  destruct (ParseSignature _) as [sigs|] eqn:Es; [|done]. cbn [mbind res_bind].
  destruct (dict_get _ inputs) as [ps|] eqn:Egi; [|done]. destruct (dict_get _ sigs) as [sig|] eqn:Eg; [|done].
  destruct (Nat.eqb _ _) eqn:Elen; [|done]. destruct (forallb _ (zip _ _)) eqn:Ez; [|done].
  destruct (str_eqb (Nonce ps) _) eqn:Eno; [|done]. cbn [negb orb].
  destruct (httpSignatureConfig (cfg p)) as [conf|]; [|done]. cbn [mbind res_bind].
  destruct (_ || _ || _); [done|]. destruct (checkResponseFreshness ps conf _) as [[]|] eqn:Efr; [|done]. cbn [mbind res_bind].
  destruct (SplitDNSIDKid _) as [[d k]|] eqn:Ek; [|done]. destruct (str_eqb d domain) eqn:Ed; [|done]. cbn [negb].
  intros H. injection H as -> -> -> -> ->. apply str_eqb_eq in Ed as ->. apply str_eqb_eq in Eno, Eh. apply Nat.eqb_eq in Elen.
  split_and!; try done. exists requested. split; [|by exists inputs, sigs].
  destruct (responsePolicy_required _ _ _ _ Ep) as (Hd & more & Hm).
  assert (Forall (fun c => containsComponent (Components params) c = true) required) as Hreq.
  { apply Forall_forall. intros c Hc. rewrite forallb_forall in Ec. eapply equal_components_contain; [exact Elen|exact Ez|].
    by apply Ec, list_elem_of_In. }
  split; try done.
  - destruct (httpScheme r); [by subst|done].
  - exists label, required. split_and!; try done. rewrite Hm in Hreq. by apply Forall_app in Hreq as [? _].
  - unfold checkResponseFreshness in Efr. destruct (_ || _) eqn:E; [done|]. apply orb_false_iff in E as [E1 E2].
    unfold responseSignatureLifetime in E2. lia.
Qed.

(** C5: a response that verifies was made by the expected domain for this very
    request. The parameters and the signature are those its headers carry under
    the label the request asks for. The signature verifies, under an eligible
    key of the domain the local policy names, over the base of the exchange;
    that base covers the status, the content digest and the cache policy of the
    response and, of the request, the method, the authority, the target, the
    challenge and the client's own signature, and whatever else the policy asks
    for; the nonce is the request's; the lifetime is at most a minute, and by
    the age and skew of the profile the signature is fresh at the first reading
    of the clock and still after the content has been read; the content handed
    back is the one read, it matches the signed digest, and may not be stored;
    and the evidence of the domain is fresh. *)
Theorem negotiated_response_is_bound p env r s opts vd s' :
  VerifySignedHTTPResponse p env r s opts = Ok (vd, s') ->
  exists config expected requested params signature kid peer k alg base content,
    httpSignatureConfig (cfg p) = Ok config /\
    answers config (re_now env) r opts expected requested params /\ labelled s (Label requested) params signature /\
    fresh_at config params (re_now env) /\ fresh_at config params (re_now_end env) /\
    response_peer env s = Ok peer /\ VerifyIdentity (resolver p) expected peer = Ok vd /\
    SplitDNSIDKid (KeyID params) = Ok (expected, kid) /\
    LookupJWKByKid (KeySet (Some vd)) kid = Some k /\ SigningKeyEligible k = true /\ AlgForJWK k = Some alg /\ JWKMatchesAlg k alg = true /\
    BuildSignatureInput (exchange r s) params = Ok base /\ VerifySignature alg base signature [k] = true /\
    (responseContent (re_done env) (re_done' env) r s).1 = Ok content /\ s' = with_res_body (Some (ReplayBody content)) s /\
    verifyResponseContentDigest content (join_comma (Values (s_Header s) "Content-Digest")) = Ok tt /\
    hasNoStore (join_comma (Values (s_Header s) "Cache-Control")) = true /\
    CheckFreshness (Some vd) (re_acquiredAfter env) (re_now_identity env) = Ok tt /\ re_done_end env = false.
Proof.
  unfold VerifySignedHTTPResponse. destruct (response_claims p env r s opts) as [[[[[expected params] signature] config] kid]|] eqn:Ec; [|done].
  cbn [mbind res_bind]. destruct (response_peer env s) as [peer|] eqn:Ep; [|done]. cbn [mbind res_bind].
  destruct (VerifyIdentity _ _ _) as [v|] eqn:Ev; [|done]. cbn [mbind res_bind].
  destruct (response_signed _ _ _ _ _ _ _) as [[]|] eqn:Es; [|done]. cbn [mbind res_bind].
  destruct (responseContent _ _ r s) as [[content|e] rest] eqn:Erc; [|by destruct (_ || _); [|destruct (bool_decide _)]].
  destruct (verifyResponseContentDigest _ _) as [[]|] eqn:Ed; [|done].
  destruct (hasNoStore _) eqn:En; [|done]. cbn [negb].
  destruct (checkResponseFreshness params config _) as [[]|] eqn:Ef; [|done]. cbn [mbind res_bind].
  destruct (CheckFreshness _ _ _) as [[]|] eqn:Ecf; [|done]. cbn [mbind res_bind]. destruct (re_done_end env) eqn:Ede; [done|]. intros [= -> <-].
  apply response_claims_facts in Ec as (_ & Hcfg & Hk & requested & Ha & Hlab). unfold response_signed in Es.
  destruct (LookupJWKByKid _ kid) as [k|] eqn:El; [|done]. destruct (SigningKeyEligible k) eqn:Ee; [|done]. cbn [negb] in Es.
  destruct (AlgForJWK k) as [alg|] eqn:Ea; [|done]. destruct (JoseAlgToHTTPSigAlg alg) as [httpAlg|]; [|done].
  destruct (JWKMatchesAlg k alg) eqn:Em; [|done]. destruct (str_eqb (Alg params) httpAlg); [|done]. cbn [negb orb] in Es.
  destruct (BuildSignatureInput _ params) as [base|] eqn:Eb; [|done].
  destruct (VerifySignature alg base signature [k]) eqn:Esig; [|done].
  exists config, expected, requested, params, signature, kid, peer, k, alg, base, content. split_and!; try done; apply fresh_at_spec; [apply Ha|exact Ef].
Qed.

(** What an exchange says under a component. *)
Definition says r s c : res string := httpSignatureComponentValue (exchange r s) c.

(** A component one base covers has one value. *)
Lemma covered_value m1 m2 cs1 cs2 items values c :
  Forall2 (fun c i => componentItem c = Ok i) cs1 items -> Forall2 (fun c i => componentItem c = Ok i) cs2 items ->
  Forall2 (fun c v => httpSignatureComponentValue m1 c = Ok v) cs1 values ->
  Forall2 (fun c v => httpSignatureComponentValue m2 c = Ok v) cs2 values ->
  containsComponent cs1 c = true ->
  exists v, httpSignatureComponentValue m1 c = Ok v /\ httpSignatureComponentValue m2 c = Ok v.
Proof.
  rewrite containsComponent_spec. intros I1 I2 V1 V2 (c1 & Hin & Hn & Hp). apply list_elem_of_lookup in Hin as [n H1].
  destruct (Forall2_lookup_l _ _ _ _ _ I1 H1) as (i & Hi & Ei1). destruct (Forall2_lookup_r _ _ _ _ _ I2 Hi) as (c2 & H2 & Ei2).
  destruct (Forall2_lookup_l _ _ _ _ _ V1 H1) as (v & Hv & Ev1). destruct (Forall2_lookup_l _ _ _ _ _ V2 H2) as (v' & Hv' & Ev2).
  assert (v' = v) as -> by congruence. destruct (componentItem_inj _ _ _ Ei1 Ei2) as [En Ep].
  exists v. rewrite <- (component_value_equal m1 c1 c), <- (component_value_equal m2 c2 c); [done|congruence..].
Qed.

(** A signed response belongs to one exchange. If the base of an exchange
    that answers its request is also the base of another exchange, under
    whatever parameters, the two agree on everything the policy requires to be
    covered: the status, the content digest and the cache policy of the
    responses, and the method, the authority, the target, the challenge and
    the client's signature of the requests. *)
Theorem response_answers_one_request `{!SfvSpec S} config now r s opts expected requested params base r2 s2 params2 :
  answers config now r opts expected requested params -> request_line r -> request_line r2 ->
  BuildSignatureInput (exchange r s) params = Ok base -> BuildSignatureInput (exchange r2 s2) params2 = Ok base ->
  exists label, requestedSignatureMember (Components requested) = Ok label /\
    Forall (fun c => exists v, says r s c = Ok v /\ says r2 s2 c = Ok v) (requiredResponseComponents label).
Proof.
  intros Ha Hr Hr2 Hb Hb2. destruct (an_covers _ _ _ _ _ _ _ Ha) as (label & required & Hl & _ & Hreq & _).
  exists label. split; [done|].
  destruct (signature_base_facts (exchange r s) (exchange r2 s2) params params2 base) as (inner & values & I1 & I2 & V1 & V2);
    [by intros ? [= <-]|by intros ? [= <-]|done|done|].
  apply inner_list_items in I1, I2. eapply Forall_impl; [exact Hreq|]. intros c Hc.
  by apply (covered_value _ _ (Components params) (Components params2) (l_Items inner) values).
Qed.
End responses.
