(* ===== verification/HttpDemo.v ===== *)
(** * HttpDemo: one negotiated exchange

    The structured-field library, the digest and the identities of one signed
    request and its signed response, for the theorems of HttpSigSpec.v and
    ResponseSigSpec.v. The concrete structured fields are length-prefixed. *)

From Stdlib Require Import ZArith Lia Ascii String.
From S2P Require Import Prelude Codec Json Keys Fqdn Lifecycle LogReader TxtRecord Evidence KeyRing Jwks Domain Fetch Manager Event Demo ClientDemo ManagerDemo NetHttp JoseUtil HttpSig HttpSigSpec ResponseSig ResponseSigSpec.

Open Scope Z_scope.

(** ** A parser and a printer for structured fields

    [print x k] writes [x] before [k]; [parse] reads one [x] off a string. *)
Record codec (A : Type) := Codec { print : A -> string -> string; parse : string -> option (A * string) }.
Arguments print {A}.
Arguments parse {A}.
Definition lawful {A} (c : codec A) : Prop := forall a k, parse c (print c a k) = Some (a, k).

Fixpoint print_pos (p : positive) (k : string) : string :=
  match p with
  | xH => String "." k
  | xO p => String "0" (print_pos p k)
  | xI p => String "1" (print_pos p k)
  end.
Fixpoint parse_pos (s : string) : option (positive * string) :=
  match s with
  | String "." s => Some (xH, s)
  | String "0" s => '(p, k) ← parse_pos s; Some (xO p, k)
  | String "1" s => '(p, k) ← parse_pos s; Some (xI p, k)
  | _ => None
  end.
Lemma pos_lawful : lawful (Codec _ print_pos parse_pos).
Proof. intros p k. induction p as [p IH|p IH|]; cbn in *; [by rewrite IH..|done]. Qed.

(** A codec along an injection with a partial inverse. *)
Definition along {A B} (f : A -> B) (g : B -> option A) (c : codec B) : codec A :=
  Codec _ (fun a => print c (f a)) (fun s => '(b, k) ← parse c s; a ← g b; Some (a, k)).
Lemma along_lawful {A B} (f : A -> B) g c : (forall a, g (f a) = Some a) -> lawful c -> lawful (along f g c).
Proof. intros Hg Hc a k. cbn. rewrite (Hc (f a) k). cbn [mbind option_bind]. by rewrite Hg. Qed.

Definition both {A B} (a : codec A) (b : codec B) : codec (A * B) :=
  Codec _ (fun p k => print a p.1 (print b p.2 k))
    (fun s => '(x, k) ← parse a s; '(y, k) ← parse b k; Some ((x, y), k)).
Lemma both_lawful {A B} (a : codec A) (b : codec B) : lawful a -> lawful b -> lawful (both a b).
Proof. intros Ha Hb [x y] k. cbn. rewrite (Ha x). cbn [mbind option_bind]. by rewrite (Hb y). Qed.

Definition either {A B} (a : codec A) (b : codec B) : codec (A + B) :=
  Codec _ (fun x k => match x with inl x => String "l" (print a x k) | inr y => String "r" (print b y k) end)
    (fun s => match s with
              | String "l" s => '(x, k) ← parse a s; Some (inl x, k)
              | String "r" s => '(y, k) ← parse b s; Some (inr y, k)
              | _ => None
              end).
Lemma either_lawful {A B} (a : codec A) (b : codec B) : lawful a -> lawful b -> lawful (either a b).
Proof. intros Ha Hb [x|y] k; cbn; [by rewrite (Ha x)|by rewrite (Hb y)]. Qed.

Definition nat_codec : codec nat := along Pos.of_succ_nat (fun p => Some (Nat.pred (Pos.to_nat p))) (Codec _ print_pos parse_pos).
Lemma nat_lawful : lawful nat_codec.
Proof. apply along_lawful; [intros n; rewrite SuccNat2Pos.id_succ; done|apply pos_lawful]. Qed.

Definition string_codec : codec string :=
  Codec _ (fun s k => print nat_codec (String.length s) (String.append s k))
    (fun t => '(n, k) ← parse nat_codec t; Some (str_take n k, str_drop n k)).
Lemma string_lawful : lawful string_codec.
Proof. intros s k. cbn -[nat_codec]. rewrite nat_lawful. cbn [mbind option_bind]. by rewrite str_take_append, str_drop_append. Qed.

Fixpoint parse_many {A} (c : codec A) (n : nat) (s : string) : option (list A * string) :=
  match n with
  | O => Some ([], s)
  | S n => '(x, s) ← parse c s; '(l, s) ← parse_many c n s; Some (x :: l, s)
  end.
Definition list_codec {A} (c : codec A) : codec (list A) :=
  Codec _ (fun l k => print nat_codec (List.length l) (foldr (print c) k l))
    (fun t => '(n, k) ← parse nat_codec t; parse_many c n k).
Lemma list_lawful {A} (c : codec A) : lawful c -> lawful (list_codec c).
Proof.
  intros Hc l k. cbn -[nat_codec]. rewrite nat_lawful. cbn [mbind option_bind].
  induction l as [|x l IH]; [done|]. cbn [List.length foldr parse_many]. rewrite (Hc x). cbn [mbind option_bind]. by rewrite IH.
Qed.

Definition int_codec : codec Z :=
  along (fun n => match n with Z0 => inl tt | Zpos p => inr (inl p) | Zneg p => inr (inr p) end)
    (fun x => Some match x with inl _ => Z0 | inr (inl p) => Zpos p | inr (inr p) => Zneg p end)
    (either (along (fun _ => xH) (fun _ => Some tt) (Codec _ print_pos parse_pos))
       (either (Codec _ print_pos parse_pos) (Codec _ print_pos parse_pos))).
Definition bytes_codec : codec string := along Base64.encode (Base64.decode false) string_codec.
Definition bare_codec : codec bare :=
  along (fun b => match b with
      | SfvBool b => inl (inl b) | SfvInt n => inl (inr n) | SfvString s => inr (inl s)
      | SfvBytes s => inr (inr (inl s)) | SfvToken s => inr (inr (inr (inl s))) | SfvDecimal s => inr (inr (inr (inr s))) end)
    (fun x => Some match x with
      | inl (inl b) => SfvBool b | inl (inr n) => SfvInt n | inr (inl s) => SfvString s
      | inr (inr (inl s)) => SfvBytes s | inr (inr (inr (inl s))) => SfvToken s | inr (inr (inr (inr s))) => SfvDecimal s end)
    (either (either (along (fun b : bool => if b then 1 else 0) (fun n => Some (n =? 1)) int_codec) int_codec)
       (either string_codec (either bytes_codec (either string_codec string_codec)))).
Definition param_codec : codec SignatureParameter :=
  along (fun p => (p_Name p, p_Value p)) (fun p => Some (Param p.1 p.2)) (both string_codec bare_codec).
Definition item_codec : codec sfv_Item :=
  along (fun i => (i_Value i, i_Parameters i)) (fun i => Some (Item i.1 i.2)) (both bare_codec (list_codec param_codec)).
Definition inner_codec : codec InnerList :=
  along (fun l => (l_Items l, l_Parameters l)) (fun l => Some (Inner l.1 l.2)) (both (list_codec item_codec) (list_codec param_codec)).
Definition dictionary_codec : codec Dictionary :=
  list_codec (both string_codec (along (fun m => match m with MItem i => inl i | MInner l => inr l end)
    (fun x => Some match x with inl i => MItem i | inr l => MInner l end) (either item_codec inner_codec))).

Lemma int_lawful : lawful int_codec.
Proof.
  apply along_lawful; [by intros [|p|p]|]. apply either_lawful; [|apply either_lawful; apply pos_lawful].
  apply along_lawful; [by intros []|apply pos_lawful].
Qed.
Lemma bare_lawful : lawful bare_codec.
Proof.
  apply along_lawful; [by intros []|]. apply either_lawful.
  - apply either_lawful; [|apply int_lawful]. apply along_lawful; [by intros []|apply int_lawful].
  - apply either_lawful; [apply string_lawful|]. apply either_lawful; [|apply either_lawful; apply string_lawful].
    apply along_lawful; [apply decode_encode|apply string_lawful].
Qed.
Lemma param_lawful : lawful param_codec.
Proof. apply along_lawful; [by intros []|]. apply both_lawful; [apply string_lawful|apply bare_lawful]. Qed.
Lemma inner_lawful : lawful inner_codec.
Proof.
  apply along_lawful; [by intros []|]. apply both_lawful; apply list_lawful; [|apply param_lawful].
  apply along_lawful; [by intros []|]. apply both_lawful; [apply bare_lawful|]. apply list_lawful, param_lawful.
Qed.

Definition print_line {A} (c : codec A) (a : A) : option string :=
  let t := print c a "" in if has_byte "010" t then None else Some t.
Definition parse_all {A} (c : codec A) (s : string) : option A :=
  match parse c s with Some (a, EmptyString) => Some a | _ => None end.

#[export] Instance demo_sfv : Sfv := {
  ParseItem := parse_all item_codec;
  ParseDictionary := parse_all dictionary_codec;
  SerializeItem := print_line item_codec;
  SerializeInnerList := print_line inner_codec;
  SerializeDictionary := print_line dictionary_codec;
  MaxInputLength := 65536; MaxDictionaryMembers := 64; MaxStringLength := 1024; MaxParameters := 16;
  ParseDictionaryHeader s := match parse_all dictionary_codec s with Some d => Some (List.map fst d) | None => None end
}.
Lemma print_line_clean {A} (c : codec A) a t : print_line c a = Some t -> has_byte "010" t = false.
Proof. unfold print_line. destruct (has_byte _ _) eqn:E; [done|]. by intros [= <-]. Qed.
Lemma print_line_inj {A} (c : codec A) a b t : lawful c -> print_line c a = Some t -> print_line c b = Some t -> a = b.
Proof.
  intros Hc. unfold print_line. destruct (has_byte _ (print c a "")); [done|]. destruct (has_byte _ (print c b "")); [done|].
  intros [= <-] [= H]. pose proof (Hc a "") as P1. pose proof (Hc b "") as P2. rewrite H, P1 in P2. by injection P2.
Qed.
#[export] Instance demo_sfv_spec : SfvSpec demo_sfv.
Proof.
  split.
  - intros l1 l2 t. exact (print_line_inj inner_codec l1 l2 t inner_lawful).
  - intros l t. exact (print_line_clean inner_codec l t).
  - intros i t. exact (print_line_clean item_codec i t).
Qed.

#[export] Instance demo_digest : Digest := {
  contentDigest content := print dictionary_codec [("sha-256"%string, MItem (Item (SfvBytes (sha256 content)) []))] "";
  VerifyContentDigestBytes content value :=
    let expected := Item (SfvBytes (sha256 content)) [] in
    str_eqb value (print dictionary_codec [("sha-256"%string, MItem expected)] "")
    || str_eqb value (String.append "sha-256=" (print item_codec expected ""))
}.

(** ** Two domains that verify each other *)
#[export] Instance demo_key_clone_lib : CloneLib demo_key := {
  x509_ParseCertificate _ := None;
  Marshal_set keys := Some (JObject [("keys"%string, JArray ((fun k => JObject
    [("kty"%string, JString "OKP"); ("crv"%string, JString "Ed25519"); ("kid"%string, JString (demo_kid k));
     ("alg"%string, JString "EdDSA"); ("use"%string, JString "sig"); ("x"%string, JString (Base64.encode (demo_pub k)))]) <$> keys))])
}.
Definition identity_of (name : string) (k : demo_key) : VerifiedDomain demo_key (LogReader (key:=demo_key)) :=
  {| domain := name; record := None; keySet := Some [k]; recordSigningKeySet := None; kuKey := Some k; signingKey := None;
     signingKeyThumbprint := ""; Domain.status := None; dnssecState := "SECURE"; verifiedAt := log_at; acquiredAt := log_at;
     lastStatusCheckAt := log_at; dnsTTL := 300 * second; dnsExpiresAt := log_at + 300 * second; jwksTLSCertificate := None;
     ekTLSCertificate := None; statusTLSCertificate := None; keyBoundAt := 0; operationalKeyThumbprint := ""; logReader := None;
     expiry := log_at + 300 * second; cachedState := "fresh"; cacheInvalidated := None |}.
Definition directory : option (IdentityResolver (key:=demo_key)) :=
  Some (WithOptions (fun name _ =>
    if str_eqb name "client.example" then Ok (identity_of name demo_ku1)
    else if str_eqb name "agent.example.com" then Ok (identity_of name demo_ku2)
    else Err (VerificationError "dns_resolution" false "no such domain"))).
Definition provider (k : demo_key) : KeyProvider (key:=demo_key) :=
  let sign payload := Ok (Some (Sig (demo_kid k) "EdDSA" (demo_sign (demo_pub k) payload))) in
  {| kp_ListKeyIds := [demo_kid k]; kp_Active := Some k; kp_JWK kid := if str_eqb kid (demo_kid k) then Some k else None;
     kp_Sign := sign; kp_SignKey _ := sign |}.
Definition http_config : Config := {| MaxAge := 0; ClockSkew := 0; clockSkewSet := false |}.
Definition client_profile : Profile (key:=demo_key) := New directory "client.example" (Some (provider demo_ku1)) http_config.
Definition agent_profile : Profile (key:=demo_key) := New directory "agent.example.com" (Some (provider demo_ku2)) http_config.

(** ** The exchange *)
Definition post : Request :=
  {| r_Method := "POST";
     r_URL := Some {| u_Scheme := "https"; u_Opaque := ""; u_User := false; u_Host := "agent.example.com"; u_Path := "/tasks"; u_RawPath := "";
                      u_ForceQuery := false; u_RawQuery := "id=7"; u_OmitHost := false |};
     r_Header := Some ∅; r_Host := ""; r_RequestURI := ""; r_Body := Some (Stream "run" None); r_TLS := None |}.
Definition policy : ResponseSignatureOptions := {| ExpectedDomain := "agent.example.com"; ro_AdditionalComponents := [] |}.
Definition signing : SigningOptions :=
  {| so_Label := ""; ExpiresIn := 60 * second; so_Tag := ""; AdditionalComponents := []; AdditionalComponentIDs := [];
     ResponseSignature := Some policy |}.
Definition signer_env : signing_env :=
  {| sg_now := log_at; sg_nonce := Ok "n1"%string; sg_challenge := Ok (Base64.encode "0123456789abcdef0123456789abcdef") |}.
Definition signed_post : res Request := (CreateSignedHTTPRequest client_profile signer_env post signing).1.
Definition reply : Response :=
  {| s_StatusCode := 200; s_Header := Some ∅; s_Body := Some (Stream "done" None); s_Uncompressed := false; s_TLS := None; s_Request := None |}.
Definition signed_reply : res Response := r ← signed_post; (SignRequestedHTTPResponse agent_profile log_at false false false r reply).1.
Definition now_of (_ : string) : time := log_at.
Definition to_option {A} (x : res A) : option A := match x with Ok a => Some a | Err _ => None end.
Definition agent_accepts (r : Request) : option (VerifiedDomain demo_key (LogReader (key:=demo_key)) * Request) :=
  let out := VerifyHTTPRequest http_config directory (fun l => l) now_of false r in
  vd ← to_option out.1; Some (vd, out.2).
Definition agent_verifies : option (VerifiedDomain demo_key (LogReader (key:=demo_key)) * Request) :=
  r ← to_option signed_post; agent_accepts r.
Definition verifier_env : response_env :=
  {| re_now := log_at; re_acquiredAfter := log_at; re_now_end := log_at; re_now_identity := log_at; re_done := false; re_done' := false;
     re_done_end := false; re_peer := [] |}.
Definition client_accepts (r : Request) (s : Response) : option (VerifiedDomain demo_key (LogReader (key:=demo_key)) * Response) :=
  to_option (VerifySignedHTTPResponse client_profile verifier_env (with_req_body None r) s policy).
Definition client_verifies : option (VerifiedDomain demo_key (LogReader (key:=demo_key)) * Response) :=
  r ← to_option signed_post; s ← to_option signed_reply; client_accepts r s.

Lemma to_option_Some {A} (x : res A) a : to_option x = Some a -> x = Ok a.
Proof. destruct x; [by intros [= ->]|done]. Qed.
Lemma bind_Some {A B} (o : option A) (f : A -> option B) b : o ≫= f = Some b -> exists a, o = Some a /\ f a = Some b.
Proof. destruct o as [a|]; [|done]. intros H. by exists a. Qed.

Lemma agent_verified : exists r vd r', VerifyHTTPRequest http_config directory (fun l => l) now_of false r = (Ok vd, r').
Proof.
  assert (bool_decide (is_Some agent_verifies) = true) as H by (vm_compute; reflexivity).
  apply bool_decide_eq_true in H as [[vd r'] H]. unfold agent_verifies in H. apply bind_Some in H as (r & _ & H).
  unfold agent_accepts in H. cbv zeta in H. apply bind_Some in H as (v & Hv%to_option_Some & H).
  exists r, v, (VerifyHTTPRequest http_config directory (fun l => l) now_of false r).2. by rewrite <- Hv, <- surjective_pairing.
Qed.
Lemma verified_request_is_signed_witness :
  exists r vd r' parsed, VerifyHTTPRequest http_config directory (fun l => l) now_of false r = (Ok vd, r') /\
    same_head r r' /\ body_checked r r' /\ candidate_for r parsed /\ signed_by_current_key directory r parsed vd.
Proof.
  destruct agent_verified as (r & vd & r' & H).
  destruct (verified_request_is_signed http_config directory (fun l => l) now_of false r vd r' (fun l => Permutation_refl l) H)
    as (Hh & Hb & pre & parsed & post & before & after & _ & _ & Hc & _ & Hs & _).
  exists r, vd, r', parsed. exact (conj H (conj Hh (conj Hb (conj Hc Hs)))).
Defined.

Lemma client_verified : exists r s vd s', VerifySignedHTTPResponse client_profile verifier_env r s policy = Ok (vd, s').
Proof.
  assert (bool_decide (is_Some client_verifies) = true) as H by (vm_compute; reflexivity).
  apply bool_decide_eq_true in H as [[vd s'] H]. unfold client_verifies in H. apply bind_Some in H as (r & _ & H).
  apply bind_Some in H as (s & _ & H). apply to_option_Some in H. exists (with_req_body None r), s, vd, s'. exact H.
Qed.
Lemma negotiated_response_is_bound_witness :
  exists r s vd s' base alg signature k, VerifySignedHTTPResponse client_profile verifier_env r s policy = Ok (vd, s') /\
    VerifySignature alg base signature [k] = true /\ hasNoStore (join_comma (Values (s_Header s) "Cache-Control")) = true.
Proof.
  destruct client_verified as (r & s & vd & s' & H).
  destruct (negotiated_response_is_bound client_profile verifier_env r s policy vd s' H)
    as (config & expected & requested & params & signature & kid & peer & k & alg & base & content & _ & _ & _ & _ & _ & _ & _ & _ & _ & _ & _ & _ & _ & Hs & _ & _ & _ & Hn & _).
  exists r, s, vd, s', base, alg, signature, k. exact (conj H (conj Hs Hn)).
Defined.

(** The exchange again, and the same request as the server sees it: without
    the body it has read, with a field no one covers. *)
Definition clean_string (s : string) : bool := negb (has_byte "010" s).
Definition clean_request (r : Request) : bool :=
  clean_string (r_Method r) && clean_string (r_Host r)
  && match r_URL r with
     | Some u => clean_string (u_Scheme u) && clean_string (u_Opaque u) && clean_string (u_Host u) && clean_string (u_RawQuery u)
     | None => true
     end.
Lemma clean_request_line r : clean_request r = true -> request_line r.
Proof.
  unfold clean_request, clean_string. rewrite !andb_true_iff, !negb_true_iff. intros [[Hm Hh] Hu]. split; [done|]. split; [done|].
  intros u Eu. rewrite Eu, !andb_true_iff, !negb_true_iff in Hu. unfold url_line. tauto.
Qed.
Definition as_received (r : Request) : Request := with_req_header (Set_header (r_Header r) "Via" "1.1 proxy") (with_req_body None r).
Definition same_base : option (Request * Response * string * SignatureParams * Config * string) :=
  r ← to_option signed_post; s ← to_option signed_reply;
  claims ← to_option (response_claims client_profile verifier_env r s policy);
  let '(expected, params, _, config, _) := claims in
  base ← to_option (BuildSignatureInput (exchange r s) params);
  base2 ← to_option (BuildSignatureInput (exchange (as_received r) s) params);
  if clean_request r && clean_request (as_received r) && str_eqb base base2 then Some (r, s, expected, params, config, base) else None.
Lemma same_base_holds : exists r s expected requested params config base,
  answers config log_at r policy expected requested params /\ request_line r /\ request_line (as_received r) /\
  BuildSignatureInput (exchange r s) params = Ok base /\ BuildSignatureInput (exchange (as_received r) s) params = Ok base.
Proof.
  assert (bool_decide (is_Some same_base) = true) as H by (vm_compute; reflexivity).
  apply bool_decide_eq_true in H as [x H]. unfold same_base in H. apply bind_Some in H as (r & _ & H).
  apply bind_Some in H as (s & _ & H). apply bind_Some in H as ([[[[expected params] sig] config] kid] & Hc%to_option_Some & H).
  apply bind_Some in H as (base & Hb%to_option_Some & H). apply bind_Some in H as (base2 & Hb2%to_option_Some & H).
  destruct (_ && _ && _) eqn:E; [|done]. apply andb_true_iff in E as [[E1 E2]%andb_true_iff E3]. apply str_eqb_eq in E3 as <-.
  apply response_claims_facts in Hc as (_ & _ & _ & requested & Ha & _).
  exists r, s, expected, requested, params, config, base. split_and!; [exact Ha|by apply clean_request_line..|done|done].
Qed.
Lemma response_answers_one_request_witness :
  exists r s label, request_line r /\ Forall (fun c => exists v, says r s c = Ok v /\ says (as_received r) s c = Ok v) (requiredResponseComponents label).
Proof.
  destruct same_base_holds as (r & s & expected & requested & params & config & base & Ha & Hr & Hr2 & Hb & Hb2).
  destruct (response_answers_one_request config log_at r s policy expected requested params base (as_received r) s params Ha Hr Hr2 Hb Hb2)
    as (label & _ & Hl).
  exists r, s, label. exact (conj Hr Hl).
Defined.
