(* ===== verification/Token.v ===== *)
(** * Token: what the token profiles share

    internal/joseutil/parsing.go beyond [Compact] (JoseUtil.v): strict JSON
    objects with float64 numbers and [NumericDate]; the random token
    identifiers and the error constructor of oidc/oidc.go and jose/jose.go. *)

From Stdlib Require Import ZArith Lia Ascii String.
From S2P Require Import Prelude Codec Utf8 Numbers Jcs Json Keys KeyRing JoseUtil.

Open Scope Z_scope.

(** A number that float64 cannot hold makes the decoder fail; the others keep
    their literal here, with [Float64] as the value the code sees. *)
Fixpoint all_floats (v : value) : bool :=
  match v with
  | VNumber lit => bool_decide (is_Some (Float64 lit))
  | VArray l => forallb all_floats l
  | VObject m => forallb snd (map_to_list (all_floats <$> m))
  | _ => true
  end.

(** [joseutil.DecodeObject], that is [jsonutil.DecodeObject(data, false)]
    within the payload bound. *)
Definition jose_DecodeObject (data : string) : res (gmap string value) :=
  fail_if MaxPayloadBytes <? str_len data with PlainError "JSON exceeds size limit" ;;
  obj ← DecodeObject data;
  fail_if negb (all_floats (VObject obj)) with PlainError "json: cannot unmarshal number into Go value of type float64" ;;
  Ok obj.

(** The nanoseconds of a fraction [num / den] of a second: one float64
    multiplication, then truncation. *)
Definition nanoseconds (num den : Z) : Z :=
  if num =? 0 then 0
  else match round_float (num * 1000000000, den) with
       | Some (m, e) => let '(n, d) := float_ratio m e in n / d
       | None => 0
       end.

(** [NumericDate]. *)
Definition date_limit : Z := 2 ^ 62.
Definition float_date (f : float64) : option time :=
  match f with
  | FZero _ => Some (unix_time 0)
  | FFinite neg m e =>
      let '(n, d) := float_ratio m e in
      if date_limit * d <=? n then None
      else let ns := (n / d) * second + nanoseconds (n mod d) d in
           Some (unix_time 0 + (if neg then - ns else ns))
  | FInf _ | FNaN => None
  end.
Definition NumericDate (v : option value) : option time :=
  match v with
  | Some (VNumber lit) => f ← Float64 lit; float_date f
  | _ => None
  end.

(** [value.(string)], with the empty string for anything else. *)
Definition asString (v : option value) : string :=
  match v with Some (VString s) => s | _ => EmptyString end.

Definition verr (code msg : string) : error := VerificationError code false msg.

(** [randomJTI]: the 16 bytes read, if reading succeeds. *)
Definition randomJTI (rng : option string) : res string :=
  match rng with
  | Some b => Ok (Base64.encode b)
  | None => Err (PlainError "dnsid: generating JWT ID")
  end.

Definition dot (s t : string) : string := String.append s (String "." t).

(** ** Dates written as integers *)
Lemma NumericDate_int z :
  Z.abs z < 2 ^ 53 -> NumericDate (Some (VNumber (int_text z))) = Some (unix_time z) /\ all_floats (VNumber (int_text z)) = true.
Proof.
  intros Hz. destruct (decide (z = 0)) as [->|Hn]; [by vm_compute|].
  destruct (Float64_int_text z Hn Hz) as (m & e & Hf & Hm & Hr). unfold NumericDate, all_floats. rewrite Hf. cbn [mbind option_bind].
  split; [|by apply bool_decide_eq_true_2; eexists].
  unfold float_date. rewrite round_float_int in Hr by lia. injection Hr as <- <-.
  rewrite float_ratio_int by lia. assert (0 < 2 ^ (52 - Z.log2 (Z.abs z))) as Hp.
  { apply Z.pow_pos_nonneg; [lia|]. assert (Z.log2 (Z.abs z) < 53) by (apply Z.log2_lt_pow2; lia). lia. }
  rewrite Z.div_mul, Z.mod_mul by lia. destruct (Z.leb_spec (date_limit * 2 ^ (52 - Z.log2 (Z.abs z))) (Z.abs z * 2 ^ (52 - Z.log2 (Z.abs z)))) as [Hl|_].
  { exfalso. unfold date_limit in Hl. nia. }
  unfold nanoseconds. cbn [Z.eqb]. unfold unix_time. destruct (Z.ltb_spec z 0); f_equal; lia.
Qed.
