(* ===== verification/Jose.v ===== *)
(** * Jose: signed tokens of a domain

    jose/jose.go and jose/claims.go. [CreateJWT] and [CreateJWS] sign with the
    active key of the profile; [VerifyJWT] and [VerifyJWS] check the form of a
    token, its claims, and the signature by a key of the verified domain. A
    signature that fails makes [VerifyJWT] evict the domain and look once more,
    at most once per back-off interval. *)

From Stdlib Require Import ZArith Lia Ascii String.
From S2P Require Import Prelude Codec Utf8 Numbers Jcs JsonRead JcsSpec Marshal Json Keys Fqdn TxtRecord Evidence KeyRing Jwks Domain LogReader Manager Event JoseUtil Token.

Open Scope Z_scope.

(** ** Configuration *)
Definition jose_minute : Z := 60 * second.
Record Config := {
  MaxLifetime : Z;
  ClockSkew : Z;
  clockSkewSet : bool;
  maxLifetimeSet : bool
}.
Definition WithClockSkew (c : Config) (skew : Z) : Config :=
  {| MaxLifetime := MaxLifetime c; ClockSkew := skew; clockSkewSet := true; maxLifetimeSet := maxLifetimeSet c |}.
Definition WithMaxLifetime (c : Config) (lifetime : Z) : Config :=
  {| MaxLifetime := lifetime; ClockSkew := ClockSkew c; clockSkewSet := clockSkewSet c; maxLifetimeSet := true |}.
Definition validateConfig (c : Config) : res unit :=
  fail_if (ClockSkew c <? 0) || (MaxLifetime c <? 0) || (maxLifetimeSet c && (MaxLifetime c =? 0))
    with ArgumentError "dnsid: invalid JOSE lifetime or clock skew" ;;
  Ok tt.

Record JWTOptions := { jo_Audience : string; jo_Expiry : Z; expirySet : bool; AdditionalClaims : gmap string value }.
Definition WithExpiry (o : JWTOptions) (expiry : Z) : JWTOptions :=
  {| jo_Audience := jo_Audience o; jo_Expiry := expiry; expirySet := true; AdditionalClaims := AdditionalClaims o |}.

Record VerifyJWTOptions := {
  ExpectedAudience : string;
  ExpectedIssuer : string;
  Peer : list (option (string -> bool))
}.
Definition with_audience (a : string) (o : VerifyJWTOptions) : VerifyJWTOptions :=
  {| ExpectedAudience := a; ExpectedIssuer := ExpectedIssuer o; Peer := Peer o |}.

Record Claims := {
  Issuer : string;
  Subject : string;
  Audiences : list string;
  JWTID : string;
  IssuedAt : time;
  c_Expiry : time;
  Extra : gmap string value
}.

Record jwtConfig := {
  jc_Domain : string;
  DefaultTokenLifetime : Z;
  MaxTokenLifetime : Z;
  jc_ClockSkew : Z
}.
Definition signatureFailureRefreshBackoff : Z := 30 * second.
Definition profile_jwtConfig (c : Config) (localDomain : string) : jwtConfig :=
  {| jc_Domain := localDomain;
     DefaultTokenLifetime := 15 * jose_minute;
     MaxTokenLifetime := if MaxLifetime c <=? 0 then 15 * jose_minute else MaxLifetime c;
     jc_ClockSkew := if (ClockSkew c =? 0) && negb (clockSkewSet c) then 60 * second else ClockSkew c |}.

(** [standardClaims], which are also the names [createJWT] reserves. *)
Definition standardClaims : list string := ["iss"; "sub"; "aud"; "exp"; "iat"; "jti"; "nbf"].
Definition standard (name : string) : bool := bool_decide (name ∈ standardClaims).

(** ** The protected header *)
Record jwsProtectedHeader := { h_alg : JoseAlg; h_kid : string }.
Record compactJWSParts := { payload : string; signingInput : string; signatureRaw : string }.

Definition malformedJWS (msg : string) : error := PlainError (String.append "malformed JWS: " msg).
Definition or_malformed {A} (r : res A) : res A := match r with Ok a => Ok a | Err _ => Err (malformedJWS "") end.

Definition check_typ (raw : gmap string value) (want : string) : res unit :=
  match raw !! "typ"%string with
  | None => Ok tt
  | Some (VString typ) => fail_if negb (str_eqb typ want) with malformedJWS "typ header" ;; Ok tt
  | Some _ => Err (malformedJWS "typ header must be a string")
  end.

Definition parseProtectedHeader (tokenStr : string) (jwtTyp : bool) : res (jwsProtectedHeader * compactJWSParts) :=
  '(segments, headerJSON, payload) ← or_malformed (Compact tokenStr);
  raw ← or_malformed (jose_DecodeObject headerJSON);
  match segments with
  | [s0; s1; s2] =>
      match Base64.decode false s2 with
      | None => Err (malformedJWS "signature is not base64url")
      | Some sig =>
          fail_if negb (forallb (fun name => bool_decide (name ∈ ["alg"; "typ"; "kid"; "b64"])) (map_to_list raw).*1)
            with malformedJWS "disallowed JOSE header" ;;
          fail_if negb (bool_decide (raw !! "b64" = None) || bool_decide (raw !! "b64" = Some (VBool true)))
            with malformedJWS "b64 must be true" ;;
          match raw !! "alg" with
          | Some (VString alg) =>
              fail_if negb (alg_Valid alg) with malformedJWS "alg not allowed" ;;
              let kid := asString (raw !! "kid") in
              fail_if is_empty kid with malformedJWS "JWS header missing kid" ;;
              check_typ raw (if jwtTyp then "JWT" else "jose") ;;
              Ok ({| h_alg := alg; h_kid := kid |},
                  {| payload := payload; signingInput := dot s0 s1; signatureRaw := sig |})
          | _ => Err (malformedJWS "token header has no alg")
          end
      end
  | _ => Err (malformedJWS "")
  end%string.
Definition parseJWSProtectedHeader (tokenStr : string) := parseProtectedHeader tokenStr true.
Definition parseCompactJWSProtectedHeader (tokenStr : string) := parseProtectedHeader tokenStr false.

(** ** Claims *)
Definition invalid_claims (msg : string) : error := verr "invalid_claims" msg.
Definition claim_type_error : error := invalid_claims "dnsid: invalid JWT claim type or missing claim".
Definition nonempty_string (v : value) : bool := match v with VString s => negb (is_empty s) | _ => false end.

Definition validateClaimTypes (raw : gmap string value) : res unit :=
  fail_if negb (forallb (fun name => match raw !! name with Some v => nonempty_string v | None => false end) ["iss"; "sub"])
    with claim_type_error ;;
  fail_if match raw !! "jti" with Some (VString _) | None => false | Some _ => true end with claim_type_error ;;
  fail_if negb (forallb (fun name => bool_decide (is_Some (NumericDate (raw !! name)))
                                     || (str_eqb name "nbf" && bool_decide (raw !! name = None))) ["iat"; "exp"; "nbf"])
    with claim_type_error ;;
  match raw !! "aud" with
  | Some (VString a) => fail_if is_empty a with claim_type_error ;; Ok tt
  | Some (VArray l) => fail_if bool_decide (l = []) || negb (forallb nonempty_string l) with claim_type_error ;; Ok tt
  | _ => Err claim_type_error
  end%string.

Section claims.
Context {I : Idna}.

Definition normalized (code msg domain : string) : res string :=
  match NormalizeFQDN domain with Ok d => Ok d | Err _ => Err (verr code msg) end.

Fixpoint normalizeAudiences (auds : list value) : res (list string) :=
  match auds with
  | [] => Ok []
  | v :: auds =>
      aud ← normalized "invalid_claims" "dnsid: invalid claims: audience is not a valid FQDN" (asString (Some v));
      rest ← normalizeAudiences auds;
      Ok (aud :: rest)
  end.

(** The time checks of [validateJWTClaims]. *)
Definition check_times (cfg : jwtConfig) (now exp iat : time) (nbf : option time) : res unit :=
  fail_if negb (before now exp) with verr "token_expired" "dnsid: token expired" ;;
  fail_if after iat (now + jc_ClockSkew cfg) with verr "token_not_yet_valid" "dnsid: token not yet valid" ;;
  fail_if match nbf with Some nbf => after nbf (now + jc_ClockSkew cfg) | None => false end
    with verr "token_not_yet_valid" "dnsid: token not yet valid" ;;
  Ok tt.
Definition check_lifetime (cfg : jwtConfig) (exp iat : time) : res unit :=
  fail_if negb (after exp iat) with invalid_claims "dnsid: exp must be after iat" ;;
  fail_if MaxTokenLifetime cfg <? time_sub exp iat
    with verr "lifetime_too_long" "dnsid: invalid claims: token lifetime exceeds maximum" ;;
  Ok tt.
Definition check_issuer (expected issuer : string) : res unit :=
  if is_empty expected then Ok tt
  else
    expected ← normalized "issuer_mismatch" "dnsid: invalid expected issuer" expected;
    fail_if negb (str_eqb issuer expected)
      with verr "issuer_mismatch" "dnsid: invalid claims: issuer does not match expected" ;;
    Ok tt.
Definition check_audience (expected : string) (auds : list string) : res unit :=
  if is_empty expected then Ok tt
  else
    expected ← normalized "audience_mismatch" "dnsid: invalid expected audience" expected;
    fail_if negb (existsb (fun aud => str_eqb aud expected) auds)
      with verr "audience_mismatch" "dnsid: invalid claims: audience does not contain" ;;
    Ok tt.

Definition validateJWTClaims (now : time) (data : string) (cfg : jwtConfig) (opts : VerifyJWTOptions) : res Claims :=
  raw ← match jose_DecodeObject data with
        | Ok raw => Ok raw
        | Err _ => Err (verr "malformed_token" "dnsid: invalid JWT claims JSON")
        end;
  validateClaimTypes raw ;;
  let exp := default 0 (NumericDate (raw !! "exp")) in
  let iat := default 0 (NumericDate (raw !! "iat")) in
  let auds := match raw !! "aud" with Some (VArray l) => l | v => [default VNull v] end in
  check_times cfg now exp iat (NumericDate (raw !! "nbf")) ;;
  issuer ← normalized "invalid_claims" "dnsid: invalid claims: issuer is not a valid FQDN" (asString (raw !! "iss"));
  subject ← normalized "invalid_claims" "dnsid: invalid claims: subject is not a valid FQDN" (asString (raw !! "sub"));
  fail_if negb (str_eqb subject issuer) with invalid_claims "dnsid: invalid claims: subject must equal issuer" ;;
  check_lifetime cfg exp iat ;;
  check_issuer (ExpectedIssuer opts) issuer ;;
  audiences ← normalizeAudiences auds;
  check_audience (ExpectedAudience opts) audiences ;;
  Ok {| Issuer := issuer; Subject := subject; Audiences := audiences; JWTID := asString (raw !! "jti");
        IssuedAt := iat; c_Expiry := exp; Extra := base.filter (fun kv => negb (standard kv.1)) raw |}%string.
End claims.

(** ** Refreshing after a failed signature

    [signatureRetryAfter] of a profile; calls take its mutex one by one. *)
Definition maximumRetryDomains : nat := 1024.
Definition allowSignatureFailureRefresh (now : time) (domain : string) (retryAfter : gmap string time) : bool * gmap string time :=
  if before now (default 0 (retryAfter !! domain)) then (false, retryAfter)
  else
    let kept := base.filter (fun kv => before now kv.2 = true) retryAfter in
    if (maximumRetryDomains <=? size kept)%nat then (false, kept)
    else (true, <[domain := now + signatureFailureRefreshBackoff]> kept).

(** ** Tokens of lestrrat-go/jwx/jwt

    [tok_Build] is the builder with issuer, subject, audience, issued-at,
    not-before, expiration and identifier. *)
Class JwtLib := {
  Tok : Type;
  tok_Build : string -> string -> list string -> time -> time -> time -> string -> res Tok;
  tok_Set : Tok -> string -> value -> res Tok;
  tok_Issuer : Tok -> option string;
  tok_Subject : Tok -> option string;
  tok_Audience : Tok -> option (list string);
  tok_Expiration : Tok -> option time;
  tok_IssuedAt : Tok -> option time;
  tok_NotBefore : Tok -> option time;
  tok_JwtID : Tok -> option string;
  tok_Keys : Tok -> list string;
  tok_Get : Tok -> string -> option value
}.

Section tokens.
Context {J : JwtLib}.

Definition put_text (name : string) (v : option string) (p : gmap string value) : gmap string value :=
  match v with Some s => if is_empty s then p else <[name := VString s]> p | None => p end.
Definition put_date (name : string) (v : option time) (p : gmap string value) : gmap string value :=
  match v with Some t => if time_is_zero t then p else <[name := VInt (Unix t)]> p | None => p end.
Definition put_audience (v : option (list string)) (p : gmap string value) : gmap string value :=
  match v with Some (a :: l) => <["aud"%string := VArray (VString <$> a :: l)]> p | _ => p end.

(** The remaining claims of the token. *)
Fixpoint put_others (tok : Tok) (keys : list string) (p : gmap string value) : gmap string value :=
  match keys with
  | [] => p
  | k :: keys =>
      put_others tok keys
        (if bool_decide (is_Some (p !! k)) then p
         else match tok_Get tok k with Some v => <[k := v]> p | None => p end)
  end.
Definition jwt_payload (tok : Tok) : gmap string value :=
  put_others tok (tok_Keys tok)
    (put_text "jti" (tok_JwtID tok) (put_date "nbf" (tok_NotBefore tok) (put_date "iat" (tok_IssuedAt tok)
      (put_date "exp" (tok_Expiration tok) (put_audience (tok_Audience tok)
        (put_text "sub" (tok_Subject tok) (put_text "iss" (tok_Issuer tok) ∅))))))).
Definition marshalJWTClaims (tok : Tok) : res string := json_Marshal (VObject (jwt_payload tok)).

Fixpoint set_claims (claims : list (string * value)) (tok : Tok) : res Tok :=
  match claims with
  | [] => Ok tok
  | (k, v) :: claims =>
      fail_if standard k with ArgumentError "dnsid: claim is reserved and cannot be overridden" ;;
      tok ← tok_Set tok k v;
      set_claims claims tok
  end.
End tokens.

(** ** The profile *)
Section profile.
Context {key : Type} `{!KeyOps key} `{!JwkSetLib key} `{!CloneLib key} {I : Idna}.
Abbreviation VerifiedDomain := (VerifiedDomain key (LogReader (key:=key))).
Abbreviation IdentityResolver := (IdentityResolver (key:=key)).
Abbreviation KeyProvider := (KeyProvider (key:=key)).

Record Profile := {
  resolver : option IdentityResolver;
  localDomain : string;
  keys : option KeyProvider;
  cfg : Config;
  signatureRetryAfter : gmap string time
}.
Definition New (r : option IdentityResolver) (local : string) (kp : option KeyProvider) (c : Config) : Profile :=
  {| resolver := r;
     localDomain := if is_empty local then local else match NormalizeFQDN local with Ok d => d | Err _ => local end;
     keys := kp; cfg := c; signatureRetryAfter := ∅ |}.
Definition with_retries (m : gmap string time) (p : Profile) : Profile :=
  {| resolver := resolver p; localDomain := localDomain p; keys := keys p; cfg := cfg p; signatureRetryAfter := m |}.

Definition requireLocalIdentity (p : Profile) : res KeyProvider :=
  match keys p with
  | Some kp => fail_if is_empty (localDomain p) with ArgumentError "dnsid: local identity and KeyProvider are required" ;; Ok kp
  | None => Err (ArgumentError "dnsid: local identity and KeyProvider are required")
  end.
Definition config_of (p : Profile) : jwtConfig := profile_jwtConfig (cfg p) (localDomain p).

(** *** Signing *)
Definition header_json (alg typ kid : string) : string :=
  String "{" (String.append (members_text true
    [(json_string "alg", json_string alg); (json_string "typ", json_string typ); (json_string "kid", json_string kid)]) "}").

(** The compact serialization of a header and a payload, signed by the active key. *)
Definition sign_compact (mismatch : string) (kp : KeyProvider) (kid : string) (alg : JoseAlg) (header payload : string) : res string :=
  let signingInput := dot (Base64.encode header) (Base64.encode payload) in
  sig ← signature_of (kp_Sign kp signingInput);
  fail_if negb (str_eqb (KeyRing.Kid sig) kid) || negb (str_eqb (KeyRing.Alg sig) alg)
    with PlainError mismatch ;;
  Ok (dot signingInput (Base64.encode (KeyRing.Signature sig))).

Definition signJWTCompact {J : JwtLib} (tok : Tok) (kp : KeyProvider) (kid : string) (alg : JoseAlg) : res string :=
  payload ← match marshalJWTClaims tok with Ok b => Ok b | Err _ => Err (PlainError "marshaling claims") end;
  sign_compact "active signing key did not match JWT header metadata" kp kid alg (header_json alg "JWT" kid) payload.

Definition token_lifetime (cfg : jwtConfig) (opts : JWTOptions) : Z :=
  if negb (jo_Expiry opts =? 0) || expirySet opts then jo_Expiry opts else DefaultTokenLifetime cfg.

Definition createJWT {J : JwtLib} (now : time) (rng : option string) (cfg : jwtConfig) (kp : KeyProvider) (opts : JWTOptions) : res string :=
  fail_if is_empty (jo_Audience opts) with ArgumentError "dnsid: audience is required" ;;
  audience ← match NormalizeFQDN (jo_Audience opts) with Ok d => Ok d | Err _ => Err (ArgumentError "dnsid: invalid audience") end;
  let lifetime := token_lifetime cfg opts in
  fail_if (lifetime <=? 0) || (MaxTokenLifetime cfg <? lifetime)
    with ArgumentError "dnsid: requested lifetime must be positive and within maximum" ;;
  jti ← randomJTI rng;
  fail_if Unix (now + lifetime) <=? Unix now with ArgumentError "dnsid: expiry is below timestamp resolution" ;;
  tok ← tok_Build (jc_Domain cfg) (jc_Domain cfg) [audience] now now (now + lifetime) jti;
  tok ← set_claims (map_to_list (AdditionalClaims opts)) tok;
  '(kid, alg) ← ActiveSigningMetadata (Some kp);
  signJWTCompact tok kp kid alg.

Definition CreateJWT {J : JwtLib} (p : Profile) (now : time) (rng : option string) (opts : JWTOptions) : res string :=
  kp ← requireLocalIdentity p;
  validateConfig (cfg p) ;;
  createJWT now rng (config_of p) kp opts.

Definition CreateJWS (p : Profile) (payload : string) : res string :=
  kp ← requireLocalIdentity p;
  '(kid, alg) ← ActiveSigningMetadata (Some kp);
  fail_if has_byte "#" kid with ArgumentError "dnsid: active key id must not contain # for JWS" ;;
  sign_compact "active signing key did not match JWS header metadata" kp kid alg (header_json alg "jose" (String.append (localDomain p) (String "#" kid))) payload.

(** *** Verifying *)
Definition verifySignature (header : jwsProtectedHeader) (parts : compactJWSParts) (ks : list key) : bool :=
  VerifySignature (h_alg header) (signingInput parts) (signatureRaw parts) ks.

Definition check_signature (missing invalid : error) (header : jwsProtectedHeader) (parts : compactJWSParts)
    (kid : string) (set : option (list key)) : res unit :=
  match LookupJWKByKid set kid with
  | Some k =>
      fail_if negb (SigningKeyEligible k) with missing ;;
      fail_if negb (JWKMatchesAlg k (h_alg header)) || negb (verifySignature header parts [k]) with invalid ;;
      Ok tt
  | None => Err missing
  end.

Definition verifyJWTSignature (header : jwsProtectedHeader) (parts : compactJWSParts) (set : option (list key)) : res unit :=
  check_signature (verr "key_not_found" "dnsid: JWT kid not found in issuer JWKS")
    (verr "signature_invalid" "dnsid: invalid signature: signature verification failed") header parts (h_kid header) set.

(** What one verification reads from outside: the clock when the claims are
    checked, when a retry is considered and at the end; the resolver again
    after an eviction, if it can evict; the context at the end. *)
Record jwt_env := {
  now_claims : time;
  now_retry : time;
  now_end : time;
  evicter : option (option IdentityResolver);
  done_end : bool
}.

Definition effective_options (p : Profile) (opts : list VerifyJWTOptions) : VerifyJWTOptions :=
  match opts with
  | [] => {| ExpectedAudience := localDomain p; ExpectedIssuer := EmptyString; Peer := [] |}
  | o :: _ => if is_empty (ExpectedAudience o) then with_audience (localDomain p) o else o
  end.

(** The second look: the domain verified again without its cached state, the
    domain evicted, and the profile with its new back-off. *)
Definition retry_signature (p : Profile) (env : jwt_env) (issuer : string) (peer : list (option (string -> bool)))
    (header : jwsProtectedHeader) (parts : compactJWSParts) (vd : VerifiedDomain) (err : error)
    : res VerifiedDomain * option string * Profile :=
  let '(allowed, retries) := allowSignatureFailureRefresh (now_retry env) issuer (signatureRetryAfter p) in
  let p := with_retries retries p in
  if allowed then
    match evicter env with
    | Some resolver =>
        (match VerifyIdentity resolver issuer peer with
         | Ok vd' =>
             match KeySet (Some vd') with
             | Some set => verifyJWTSignature header parts (Some set) ;; Ok vd'
             | None => Err err
             end
         | Err _ => Err err
         end, Some issuer, p)
    | None => (Err err, None, p)
    end
  else (Err err, None, p).

(** The claims and the first verified domain. *)
Definition open_jwt (p : Profile) (env : jwt_env) (opts : VerifyJWTOptions) (tokenStr : string)
    : res (jwsProtectedHeader * compactJWSParts * Claims) :=
  match resolver p with None => Err (ArgumentError "dnsid: IdentityResolver is required") | Some _ => Ok tt end ;;
  validateConfig (cfg p) ;;
  fail_if is_empty (ExpectedAudience opts)
    with ArgumentError "dnsid: VerifyJWT requires ExpectedAudience when the profile has no local domain" ;;
  '(header, parts) ← match parseJWSProtectedHeader tokenStr with
                     | Ok x => Ok x
                     | Err _ => Err (verr "malformed_token" "dnsid: malformed protected header")
                     end;
  claims ← validateJWTClaims (now_claims env) (payload parts) (config_of p) opts;
  Ok (header, parts, claims).

(** The last checks of [VerifyJWT]. *)
Definition conclude (env : jwt_env) (claims : Claims) (r : res VerifiedDomain) : res (VerifiedDomain * Claims) :=
  vd ← r;
  fail_if done_end env with ContextError ;;
  fail_if negb (before (now_end env) (c_Expiry claims)) with verr "token_expired" "dnsid: token expired during verification" ;;
  Ok (vd, claims).

(** [VerifyJWT]: the answer, the domain evicted on the way, and the profile. *)
Definition VerifyJWT (p : Profile) (env : jwt_env) (tokenStr : string) (opts : list VerifyJWTOptions)
    : res (VerifiedDomain * Claims) * option string * Profile :=
  let o := effective_options p opts in
  match open_jwt p env o tokenStr with
  | Err e => (Err e, None, p)
  | Ok (header, parts, claims) =>
      match VerifyIdentity (resolver p) (Issuer claims) (Peer o) with
      | Err e => (Err e, None, p)
      | Ok vd =>
          match KeySet (Some vd) with
          | None => (Err (VerificationError "jwks_unavailable" true "dnsid: no verified JWKS"), None, p)
          | Some set =>
              match verifyJWTSignature header parts (Some set) with
              | Ok _ => (conclude env claims (Ok vd), None, p)
              | Err e =>
                  let '(r, evicted, p) := retry_signature p env (Issuer claims) (Peer o) header parts vd e in
                  (conclude env claims r, evicted, p)
              end
          end
      end
  end.

Definition malformed_jws : error := verr "malformed_token" "dnsid: malformed JWS".
Definition VerifyJWS (p : Profile) (done : bool) (compact : string) (opts : list (list (option (string -> bool))))
    : res (string * VerifiedDomain) :=
  match resolver p with None => Err (ArgumentError "dnsid: IdentityResolver is required") | Some _ => Ok tt end ;;
  '(header, parts) ← match parseCompactJWSProtectedHeader compact with Ok x => Ok x | Err _ => Err malformed_jws end;
  '(domain, kid) ← match SplitDNSIDKid (h_kid header) with Ok x => Ok x | Err _ => Err malformed_jws end;
  vd ← VerifyIdentity (resolver p) domain (default [] (head opts));
  check_signature (verr "key_not_found" "dnsid: JWS kid not found") (verr "signature_invalid" "dnsid: invalid JWS signature")
    header parts kid (KeySet (Some vd)) ;;
  fail_if done with ContextError ;;
  Ok (payload parts, vd).
End profile.
