(* ===== verification/JoseSpec.v ===== *)
(** * JoseSpec: what a verified token is evidence of

    Tokens of Jose.v. A verified token is current, addressed to the verifier
    and signed by a key of its issuer's verified key set; a failed signature
    makes the profile look again at most once per back-off; what the profile
    creates is accepted, unless truncation to seconds stretches its lifetime. *)

From Stdlib Require Import ZArith Lia Ascii String.
From S2P Require Import Prelude Codec Utf8 Numbers Jcs JsonRead JcsSpec Marshal Json Keys Fqdn TxtRecord Evidence KeyRing Jwks Domain LogReader Manager Event JoseUtil Token Jose.

Open Scope Z_scope.

(** ** Compact serializations *)
Lemma encoded_clean c s :
  (forall n, 0 <= n < 64 -> negb (Ascii.eqb (Base64.enc6 n) c) = true) -> has_byte c (Base64.encode s) = false.
Proof. intros H. apply has_byte_false. by apply (encode_bytes (fun a => negb (Ascii.eqb a c))). Qed.

Lemma encoded_no_dot s : has_byte "." (Base64.encode s) = false.
Proof. apply encoded_clean. intros n Hn. by apply (forall_below 64 (fun n => negb (Ascii.eqb (Base64.enc6 n) "."))). Qed.

Lemma decode_segment s : jose_DecodeBase64URL (Base64.encode s) = Ok s.
Proof.
  unfold jose_DecodeBase64URL. rewrite !encoded_clean, decode_encode; [done|..];
    intros n Hn; by apply (forall_below 64 (fun n => negb (Ascii.eqb (Base64.enc6 n) _))).
Qed.

Lemma length_encode s : 3 * str_len (Base64.encode s) <= 4 * str_len s + 2 /\ str_len s <= str_len (Base64.encode s).
Proof.
  unfold str_len. induction s as [|a|a b|a b c s IH] using string_ind3; cbn [Base64.encode String.length] in *; lia.
Qed.

Lemma encode_empty s : is_empty (Base64.encode s) = is_empty s.
Proof. destruct s as [|a [|b [|c s]]]; done. Qed.

Definition compact (header payload signature : string) : string :=
  dot (dot (Base64.encode header) (Base64.encode payload)) (Base64.encode signature).

(** The sizes [Compact] allows. *)
Definition within_limits (header payload signature : string) : Prop :=
  str_len (compact header payload signature) <= MaxTokenBytes /\
  0 < str_len header <= MaxHeaderBytes /\ str_len payload <= MaxPayloadBytes /\ 0 < str_len signature.

Lemma split_compact h p s : split "." (compact h p s) = [Base64.encode h; Base64.encode p; Base64.encode s].
Proof.
  unfold compact, dot. rewrite <- append_assoc, append_cons.
  by rewrite !split_append, split_no_sep by apply encoded_no_dot.
Qed.

Lemma nonempty_length s : 0 < str_len s -> is_empty s = false.
Proof. by destruct s. Qed.

Lemma compact_accepted h p s :
  within_limits h p s -> Compact (compact h p s) = Ok ([Base64.encode h; Base64.encode p; Base64.encode s], h, p).
Proof.
  intros (Ht & Hh & Hp & Hs). unfold Compact. rewrite (proj2 (Z.ltb_ge _ _) Ht), split_compact.
  destruct (length_encode h) as [Hl _]. change ((MaxHeaderBytes + 2) / 3 * 4) with 21848. change MaxHeaderBytes with 16384 in *.
  rewrite (proj2 (Z.ltb_ge 21848 _)) by lia. rewrite !encode_empty, !nonempty_length by lia. cbn [orb].
  rewrite !decode_segment. cbn [mbind res_bind]. rewrite (proj2 (Z.ltb_ge 16384 _)), (proj2 (Z.ltb_ge MaxPayloadBytes _)) by lia.
  done.
Qed.

(** A short token is within all limits. *)
Lemma short_within h p s :
  str_len (compact h p s) <= MaxHeaderBytes -> 0 < str_len h -> 0 < str_len s -> within_limits h p s.
Proof.
  intros Hl Hh Hs. pose proof (length_encode h) as [_ Lh]. pose proof (length_encode p) as [_ Lp].
  assert (str_len (Base64.encode h) + str_len (Base64.encode p) <= str_len (compact h p s)).
  { unfold compact, dot, str_len. rewrite !append_length. cbn [String.length]. lia. }
  assert (0 <= str_len (Base64.encode p)) by (unfold str_len; lia).
  change MaxHeaderBytes with 16384 in *. unfold within_limits.
  change MaxTokenBytes with 1048576. change MaxPayloadBytes with 786432. change MaxHeaderBytes with 16384. lia.
Qed.

(** ** Headers *)
Definition header_map (alg typ kid : string) : gmap string value :=
  list_to_map [("alg", VString alg); ("typ", VString typ); ("kid", VString kid)]%string.

Lemma decode_header alg typ kid :
  ValidString alg = true -> ValidString typ = true -> ValidString kid = true ->
  DecodeObject (header_json alg typ kid) = Ok (header_map alg typ kid).
Proof.
  intros Ha Ht Hk. eapply (DecodeObject_reads 1); [|lia|].
  - apply reads_object; [|apply (bool_decide_unpack _); by vm_compute].
    repeat constructor; cbn [fst snd];
      first [by apply json_string_key | exists 0%nat; split; [done|by apply reads_string, json_string_key]].
  - apply wrapped_valid; [done|done|]. apply members_text_valid. repeat constructor; by apply json_string_valid.
Qed.

Lemma parse_created alg typ kid p s jwtTyp :
  within_limits (header_json alg typ kid) p s -> alg_Valid alg = true -> kid <> EmptyString -> ValidString kid = true ->
  typ = "JWT"%string \/ typ = "jose"%string ->
  parseProtectedHeader (compact (header_json alg typ kid) p s) jwtTyp
  = if str_eqb typ (if jwtTyp then "JWT" else "jose")%string then
      Ok ({| h_alg := alg; h_kid := kid |},
          {| payload := p; signingInput := dot (Base64.encode (header_json alg typ kid)) (Base64.encode p); signatureRaw := s |})
    else Err (malformedJWS "typ header").
Proof.
  intros Hl Ha Hk Hv Ht. unfold parseProtectedHeader. rewrite compact_accepted by done. cbn [or_malformed mbind res_bind].
  assert (ValidString alg = true) as Hav.
  { unfold alg_Valid in Ha. apply orb_true_iff in Ha as [->%str_eqb_eq| ->%str_eqb_eq]; done. }
  unfold jose_DecodeObject. destruct Hl as (_ & Hh & _ & _).
  rewrite (proj2 (Z.ltb_ge MaxPayloadBytes _)) by (change MaxPayloadBytes with 786432; change MaxHeaderBytes with 16384 in Hh; lia).
  rewrite decode_header by (done || by destruct Ht as [-> | ->]). cbn [mbind res_bind].
  change (all_floats (VObject (header_map alg typ kid))) with true. cbn [negb or_malformed mbind res_bind].
  rewrite decode_encode.
  assert (forallb (fun name => bool_decide (name ∈ ["alg"; "typ"; "kid"; "b64"]%string)) (map_to_list (header_map alg typ kid)).*1 = true) as -> by by vm_compute.
  assert (header_map alg typ kid !! "b64"%string = None) as -> by done.
  assert (header_map alg typ kid !! "alg"%string = Some (VString alg)) as -> by done.
  assert (header_map alg typ kid !! "kid"%string = Some (VString kid)) as -> by done.
  unfold check_typ. assert (header_map alg typ kid !! "typ"%string = Some (VString typ)) as -> by done.
  cbn [negb bool_decide orb asString]. rewrite Ha. cbn [negb]. rewrite (proj2 (is_empty_false kid) Hk).
  by destruct jwtTyp, Ht as [-> | ->].
Qed.

(** ** Claims *)
Section claims.
Context {I : Idna}.

(** The claims that [raw] carries, normalized. *)
Definition claims_of (raw : gmap string value) (c : Claims) : Prop :=
  NormalizeFQDN (asString (raw !! "iss"%string)) = Ok (Issuer c) /\
  NormalizeFQDN (asString (raw !! "sub"%string)) = Ok (Subject c) /\
  NumericDate (raw !! "exp"%string) = Some (c_Expiry c) /\ NumericDate (raw !! "iat"%string) = Some (IssuedAt c) /\
  Forall2 (fun v a => NormalizeFQDN (asString (Some v)) = Ok a)
    match raw !! "aud"%string with Some (VArray l) => l | v => [default VNull v] end (Audiences c) /\
  JWTID c = asString (raw !! "jti"%string) /\
  forall k, Extra c !! k = if standard k then None else raw !! k.

(** The policy of a verification at [now]. *)
Definition claims_valid (now : time) (cfg : jwtConfig) (opts : VerifyJWTOptions) (c : Claims) : Prop :=
  Subject c = Issuer c /\
  now < c_Expiry c /\ IssuedAt c <= now + jc_ClockSkew cfg /\
  IssuedAt c < c_Expiry c /\ time_sub (c_Expiry c) (IssuedAt c) <= MaxTokenLifetime cfg /\
  (ExpectedIssuer opts <> EmptyString -> NormalizeFQDN (ExpectedIssuer opts) = Ok (Issuer c)) /\
  (ExpectedAudience opts <> EmptyString -> exists a, NormalizeFQDN (ExpectedAudience opts) = Ok a /\ a ∈ Audiences c).

(** A start that the token names, if it names one, has come. *)
Definition nbf_passed (now : time) (cfg : jwtConfig) (raw : gmap string value) : Prop :=
  forall v, raw !! "nbf"%string = Some v -> exists nbf, NumericDate (Some v) = Some nbf /\ nbf <= now + jc_ClockSkew cfg.

Lemma normalized_ok code msg s d : normalized code msg s = Ok d <-> NormalizeFQDN s = Ok d.
Proof. unfold normalized. destruct (NormalizeFQDN s); naive_solver. Qed.

Lemma audiences_normalized l auds :
  normalizeAudiences l = Ok auds -> Forall2 (fun v a => NormalizeFQDN (asString (Some v)) = Ok a) l auds.
Proof.
  revert auds. induction l as [|v l IH]; intros auds; cbn [normalizeAudiences]; [by intros [= <-]|].
  destruct (normalized _ _ _) as [aud|] eqn:E; [|done]. cbn [mbind res_bind].
  destruct (normalizeAudiences l) as [rest|]; [|done]. intros [= <-]. apply normalized_ok in E. constructor; [done|by apply IH].
Qed.

Lemma check_times_ok cfg now exp iat nbf :
  check_times cfg now exp iat nbf = Ok tt ->
  now < exp /\ iat <= now + jc_ClockSkew cfg /\ forall t, nbf = Some t -> t <= now + jc_ClockSkew cfg.
Proof.
  unfold check_times, before, after. destruct (Z.ltb_spec now exp); [|done]. cbn [negb].
  destruct (Z.ltb_spec (now + jc_ClockSkew cfg) iat); [done|].
  destruct nbf as [nbf|]; [destruct (Z.ltb_spec (now + jc_ClockSkew cfg) nbf); [done|]|]; intros _; split_and!; try done.
  by intros t [= <-].
Qed.

Lemma check_lifetime_ok cfg exp iat :
  check_lifetime cfg exp iat = Ok tt -> iat < exp /\ time_sub exp iat <= MaxTokenLifetime cfg.
Proof.
  unfold check_lifetime, after. destruct (Z.ltb_spec iat exp); [|done]. cbn [negb].
  destruct (Z.ltb_spec (MaxTokenLifetime cfg) (time_sub exp iat)); [done|]. done.
Qed.

Lemma check_issuer_ok expected issuer :
  check_issuer expected issuer = Ok tt -> expected <> EmptyString -> NormalizeFQDN expected = Ok issuer.
Proof.
  unfold check_issuer. intros H Hne. rewrite (proj2 (is_empty_false expected) Hne) in H.
  destruct (normalized _ _ _) as [d|] eqn:E; [|done]. cbn [mbind res_bind] in H.
  destruct (str_eqb issuer d) eqn:Ed; [|done]. apply str_eqb_eq in Ed as ->. by apply normalized_ok in E.
Qed.

Lemma check_audience_ok expected auds :
  check_audience expected auds = Ok tt -> expected <> EmptyString -> exists a, NormalizeFQDN expected = Ok a /\ a ∈ auds.
Proof.
  unfold check_audience. intros H Hne. rewrite (proj2 (is_empty_false expected) Hne) in H.
  destruct (normalized _ _ _) as [d|] eqn:E; [|done]. cbn [mbind res_bind] in H.
  destruct (existsb _ auds) eqn:Ed; [|done]. apply existsb_exists in Ed as (a & Ha & ->%str_eqb_eq).
  exists d. split; [by apply normalized_ok in E|by apply list_elem_of_In].
Qed.

Lemma claim_types_dates raw :
  validateClaimTypes raw = Ok tt -> is_Some (NumericDate (raw !! "exp"%string)) /\ is_Some (NumericDate (raw !! "iat"%string)) /\
  forall v, raw !! "nbf"%string = Some v -> is_Some (NumericDate (Some v)).
Proof.
  unfold validateClaimTypes. cbn [forallb]. destruct (negb _); [done|].
  destruct (match raw !! "jti"%string with Some (VString _) | None => false | Some _ => true end); [done|].
  destruct (negb _) eqn:E; [done|]. intros _. apply negb_false_iff in E. rewrite !andb_true_iff, !orb_true_iff in E.
  change (str_eqb "exp" "nbf") with false in E. change (str_eqb "iat" "nbf") with false in E.
  change (str_eqb "nbf" "nbf") with true in E. cbn [andb] in E.
  destruct E as ([H1|] & [H2|] & H3 & _); try discriminate. apply bool_decide_eq_true in H1, H2. split_and!; [done..|].
  intros v Hv. rewrite Hv in H3. by destruct H3 as [?%bool_decide_eq_true|?%bool_decide_eq_true].
Qed.

Lemma extra_claims (raw : gmap string value) k :
  base.filter (fun kv : string * value => negb (standard kv.1)) raw !! k = if standard k then None else raw !! k.
Proof.
  destruct (standard k) eqn:E.
  - apply map_lookup_filter_None. right. intros v _. cbn [fst]. rewrite E. by intros [].
  - destruct (raw !! k) as [v|] eqn:Ek.
    + apply map_lookup_filter_Some. split; [done|]. cbn [fst]. by rewrite E.
    + apply map_lookup_filter_None. by left.
Qed.

Lemma validated_claims now data cfg opts c :
  validateJWTClaims now data cfg opts = Ok c ->
  claims_valid now cfg opts c /\ exists raw, jose_DecodeObject data = Ok raw /\ claims_of raw c /\ nbf_passed now cfg raw.
Proof.
  unfold validateJWTClaims. destruct (jose_DecodeObject data) as [raw|]; [|done]. cbn [mbind res_bind].
  destruct (validateClaimTypes raw) as [[]|] eqn:Et; [|done]. apply claim_types_dates in Et as ([exp Hexp] & [iat Hiat] & Hnbf).
  rewrite Hexp, Hiat. change (default 0 (Some exp)) with exp. change (default 0 (Some iat)) with iat. destruct (check_times _ _ _ _ _) as [[]|] eqn:Ec; [|done].
  apply check_times_ok in Ec. cbn [mbind res_bind]. destruct (normalized _ _ (asString (raw !! "iss"%string))) as [issuer|] eqn:Ei; [|done]. cbn [mbind res_bind].
  destruct (normalized _ _ (asString (raw !! "sub"%string))) as [subject|] eqn:Es; [|done]. cbn [mbind res_bind].
  destruct (str_eqb subject issuer) eqn:Ess; [|done]. apply str_eqb_eq in Ess as ->. cbn [negb].
  destruct (check_lifetime _ _ _) as [[]|] eqn:El; [|done]. apply check_lifetime_ok in El. cbn [mbind res_bind].
  destruct (check_issuer _ _) as [[]|] eqn:Eei; [|done]. cbn [mbind res_bind].
  destruct (normalizeAudiences _) as [auds|] eqn:Ea; [|done]. cbn [mbind res_bind].
  destruct (check_audience _ _) as [[]|] eqn:Eea; [|done]. intros [= <-]. split.
  - destruct Ec as (? & ? & _), El. split_and!; cbn; try done; [by apply check_issuer_ok|by apply check_audience_ok].
  - exists raw. apply normalized_ok in Ei, Es. apply audiences_normalized in Ea.
    unfold claims_of. split_and!; [done..| |]; [intros k; apply extra_claims|].
    intros v Hv. destruct (Hnbf v Hv) as [t Ht]. exists t. split; [done|]. apply (proj2 (proj2 Ec)). by rewrite Hv.
Qed.
End claims.

(** ** The back-off of refreshes *)
Lemma refresh_cases now d m :
  (exists m', allowSignatureFailureRefresh now d m = (false, m') /\ (m' = m \/ m' = base.filter (fun kv => before now kv.2 = true) m)) \/
  (default 0 (m !! d) <= now /\ (size (base.filter (fun kv : string * time => before now kv.2 = true) m) < maximumRetryDomains)%nat /\
   allowSignatureFailureRefresh now d m
   = (true, <[d := now + signatureFailureRefreshBackoff]> (base.filter (fun kv => before now kv.2 = true) m))).
Proof.
  unfold allowSignatureFailureRefresh.
  destruct (before now (default 0 (m !! d))) eqn:E; [left; eauto|]. unfold before in E. apply Z.ltb_ge in E.
  destruct (Nat.leb_spec maximumRetryDomains (size (base.filter (fun kv : string * time => before now kv.2 = true) m))); [left; eauto|].
  right. split_and!; [lia|lia|done].
Qed.

Lemma kept_lookup now (m : gmap string time) d e :
  m !! d = Some e -> now < e -> base.filter (fun kv : string * time => before now kv.2 = true) m !! d = Some e.
Proof. intros Hm He. apply map_lookup_filter_Some. split; [done|]. unfold before. cbn. lia. Qed.

Lemma refresh_size now d m :
  (size m <= maximumRetryDomains)%nat -> (size (allowSignatureFailureRefresh now d m).2 <= maximumRetryDomains)%nat.
Proof.
  intros Hm. assert (size (base.filter (fun kv : string * time => before now kv.2 = true) m) <= size m)%nat as Hf.
  { apply map_subseteq_size, map_filter_subseteq. }
  destruct (refresh_cases now d m) as [(m' & -> & [-> | ->])|(_ & Hs & ->)]; cbn [snd]; [lia..|].
  rewrite map_size_insert. destruct (_ !! d); cbn; lia.
Qed.

(** An entry of the map forbids a refresh until it has passed, whatever is
    asked for other domains, as long as time does not run backwards. *)
Lemma refresh_keeps now d m d' e :
  m !! d' = Some e ->
  let '(allowed, m') := allowSignatureFailureRefresh now d m in
  (allowed = true -> d = d' -> e <= now) /\ (m' !! d' = Some e \/ e <= now).
Proof.
  intros He. destruct (Z.le_gt_cases e now) as [|Hgt]; [by destruct (allowSignatureFailureRefresh now d m); auto|].
  destruct (refresh_cases now d m) as [(m' & -> & [-> | ->])|(Hd & _ & ->)].
  - by split; [|left].
  - split; [done|]. left. apply kept_lookup; [done|lia].
  - assert (d <> d') as Hne by (intros ->; rewrite He in Hd; cbn in Hd; unfold id in Hd; lia).
    split; [by intros _ ->|]. left. rewrite lookup_insert_ne by done. apply kept_lookup; [done|lia].
Qed.

Section verification.
Context {key : Type} `{!KeyOps key} `{!JwkSetLib key} `{!CloneLib key} {I : Idna}.
Abbreviation VerifiedDomain := (VerifiedDomain key (LogReader (key:=key))).
Abbreviation IdentityResolver := (IdentityResolver (key:=key)).
Abbreviation Profile := (Profile (key:=key)).
Abbreviation jwt_env := (jwt_env (key:=key)).

Lemma check_signature_ok missing invalid header parts kid set :
  check_signature missing invalid header parts kid set = Ok tt ->
  exists k, LookupJWKByKid set kid = Some k /\ SigningKeyEligible k = true /\ JWKMatchesAlg k (h_alg header) = true /\
    VerifySignature (h_alg header) (signingInput parts) (signatureRaw parts) [k] = true.
Proof.
  unfold check_signature. destruct (LookupJWKByKid set kid) as [k|]; [|done].
  destruct (SigningKeyEligible k) eqn:E1; [|done]. destruct (JWKMatchesAlg k (h_alg header)) eqn:E2; [|done].
  destruct (verifySignature header parts [k]) eqn:E3; [|done]. intros _. by exists k.
Qed.

Lemma parsed_token tok typ header parts :
  parseProtectedHeader tok typ = Ok (header, parts) ->
  exists s0 s1 s2, tok = dot (dot s0 s1) s2 /\ signingInput parts = dot s0 s1 /\
    jose_DecodeBase64URL s1 = Ok (payload parts) /\ Base64.decode false s2 = Some (signatureRaw parts).
Proof.
  unfold parseProtectedHeader. destruct (Compact tok) as [[[segments hj] p]|] eqn:Ec; [|done]. cbn [or_malformed mbind res_bind].
  destruct (or_malformed (jose_DecodeObject hj)) as [raw|]; [|done]. cbn [mbind res_bind].
  unfold Compact in Ec. destruct (MaxTokenBytes <? str_len tok); [done|].
  destruct (split "." tok) as [|p0 [|p1 [|p2 [|? ?]]]] eqn:Es; try done.
  assert (tok = dot (dot p0 p1) p2) as Htok.
  { rewrite <- (join_split "." tok), Es. unfold dot. cbn [join]. by rewrite <- append_assoc, append_cons. }
  destruct (_ || _ || _); [done|]. destruct (jose_DecodeBase64URL p0) as [h|]; [|done]. cbn [mbind res_bind] in Ec.
  destruct (jose_DecodeBase64URL p1) as [q|] eqn:Eq; [|done]. cbn [mbind res_bind] in Ec.
  destruct (_ || _); [done|]. destruct (jose_DecodeBase64URL p2); [|done]. injection Ec as <- <- <-.
  destruct (Base64.decode false p2) as [sig|] eqn:E2; [|done]. intros H. exists p0, p1, p2.
  assert (signingInput parts = dot p0 p1 /\ payload parts = q /\ signatureRaw parts = sig) as (-> & -> & ->); [|done].
  repeat match goal with
  | H : (if ?b then _ else _) = Ok _ |- _ => destruct b; [done|]
  | H : match ?x with _ => _ end = Ok _ |- _ => destruct x; try done
  | H : (?x ≫= _) = Ok _ |- _ => destruct x; [cbn [mbind res_bind] in H|done]
  end. injection H as <- <-. done.
Qed.
(** The token is signed by an eligible key of the set, under the kid and the
    algorithm of its header. *)
Definition signed_token (tok : string) (header : jwsProtectedHeader) (parts : compactJWSParts) (kid : string) (set : option (list key)) : Prop :=
  exists s0 s1 s2 k, tok = dot (dot s0 s1) s2 /\ jose_DecodeBase64URL s1 = Ok (payload parts) /\
    Base64.decode false s2 = Some (signatureRaw parts) /\
    LookupJWKByKid set kid = Some k /\ SigningKeyEligible k = true /\ JWKMatchesAlg k (h_alg header) = true /\
    VerifySignature (h_alg header) (dot s0 s1) (signatureRaw parts) [k] = true.

Lemma checked_token missing invalid tok typ header parts kid set :
  parseProtectedHeader tok typ = Ok (header, parts) -> check_signature missing invalid header parts kid set = Ok tt ->
  signed_token tok header parts kid set.
Proof.
  intros (s0 & s1 & s2 & Ht & Hi & Hp & Hs)%parsed_token (k & Hk & He & Hm & Hv)%check_signature_ok.
  rewrite Hi in Hv. by exists s0, s1, s2, k.
Qed.

Lemma opened_jwt (p : Profile) env o tok header parts claims :
  open_jwt p env o tok = Ok (header, parts, claims) ->
  parseProtectedHeader tok true = Ok (header, parts) /\ ExpectedAudience o <> EmptyString /\
  validateJWTClaims (now_claims env) (payload parts) (config_of p) o = Ok claims.
Proof.
  unfold open_jwt, parseJWSProtectedHeader. destruct (resolver p); [|done]. cbn [mbind res_bind].
  destruct (validateConfig (cfg p)) as [[]|]; [|done]. cbn [mbind res_bind].
  destruct (is_empty (ExpectedAudience o)) eqn:Ea; [done|]. apply is_empty_false in Ea.
  destruct (parseProtectedHeader tok true) as [[h ps]|]; [|done]. cbn [mbind res_bind].
  destruct (validateJWTClaims _ _ _ _) as [c|] eqn:Ec; [|done]. intros [= <- <- <-]. done.
Qed.

Lemma concluded (env : jwt_env) claims r vd c :
  conclude env claims r = Ok (vd, c) -> r = Ok vd /\ c = claims /\ done_end env = false /\ now_end env < c_Expiry claims.
Proof.
  unfold conclude. destruct r as [v|]; [|done]. cbn [mbind res_bind]. destruct (done_end env); [done|].
  unfold before. destruct (Z.ltb_spec (now_end env) (c_Expiry claims)); [|done]. by intros [= <- <-].
Qed.

Lemma triple_eq {A B C} (a a' : A) (b b' : B) (c c' : C) : (a, b, c) = (a', b', c') -> a = a' /\ b = b' /\ c = c'.
Proof. by intros [= -> -> ->]. Qed.

Lemma retried_signature (p : Profile) env issuer peer header parts vd0 err vd ev p' :
  retry_signature p env issuer peer header parts vd0 err = (Ok vd, ev, p') ->
  exists r set, evicter env = Some r /\ VerifyIdentity r issuer peer = Ok vd /\ KeySet (Some vd) = Some set /\
    verifyJWTSignature header parts (Some set) = Ok tt.
Proof.
  unfold retry_signature. destruct (allowSignatureFailureRefresh _ _ _) as [[] retries]; [|done].
  destruct (evicter env) as [r|]; [|done]. intros [= H _ _]. destruct (VerifyIdentity r issuer peer) as [v|] eqn:Ev; [|done].
  change (cloneJWKS (keySet v)) with (KeySet (Some v)) in H.
  destruct (KeySet (Some v)) as [set|] eqn:Ek; [|done]. destruct (verifyJWTSignature header parts (Some set)) as [[]|] eqn:Es; [|done].
  injection H as ->. by exists r, set.
Qed.

(** C12: what a verified token is evidence of. The token is a compact
    serialization whose payload holds the claims returned, normalized; issuer
    and subject are one domain, the expected one if there is one, and the
    expected audience is among the audiences; at the clock's
    first reading the token was not expired, and neither its issuing nor the
    start that it may name lay ahead by more than the skew; it is not expired
    at the last reading, and lives no longer than the maximum. The domain was verified by the resolver, before or after the
    eviction, and a signing key of its current set, named by the header, signed
    the very bytes before the last dot. *)
Theorem verified_jwt_is_current_and_signed (p : Profile) env tok opts vd c ev p' :
  VerifyJWT p env tok opts = (Ok (vd, c), ev, p') ->
  let o := effective_options p opts in
  ExpectedAudience o <> EmptyString /\ claims_valid (now_claims env) (config_of p) o c /\
  now_end env < c_Expiry c /\ done_end env = false /\
  exists header parts raw r,
    parseJWSProtectedHeader tok = Ok (header, parts) /\
    jose_DecodeObject (payload parts) = Ok raw /\ claims_of raw c /\ nbf_passed (now_claims env) (config_of p) raw /\
    (r = resolver p \/ evicter env = Some r) /\ VerifyIdentity r (Issuer c) (Peer o) = Ok vd /\
    signed_token tok header parts (h_kid header) (KeySet (Some vd)).
Proof.
  cbv zeta. unfold VerifyJWT. set (o := effective_options p opts).
  destruct (open_jwt p env o tok) as [[[header parts] claims]|] eqn:Eo; [|done].
  apply opened_jwt in Eo as (Hp & Ha & (Hval & raw & Hraw & Hof & Hnbf)%validated_claims).
  destruct (VerifyIdentity (resolver p) (Issuer claims) (Peer o)) as [v|] eqn:Ev; [|done].
  destruct (KeySet (Some v)) as [set|] eqn:Ek; [|done].
  destruct (verifyJWTSignature header parts (Some set)) as [[]|e] eqn:Es.
  - intros (Hc & _ & _)%triple_eq. apply concluded in Hc as (Hv & -> & Hd & Hn). injection Hv as <-. split_and!; try done.
    exists header, parts, raw, (resolver p). split_and!; try done; [by left|]. rewrite Ek. by eapply checked_token.
  - destruct (retry_signature _ _ _ _ _ _ _ _) as [[r ev'] p2] eqn:Er. intros (Hc & _ & _)%triple_eq.
    apply concluded in Hc as (-> & -> & Hd & Hn).
    apply retried_signature in Er as (r & set' & Hr & Hv & Hk & Hs). split_and!; try done.
    exists header, parts, raw, r. split_and!; try done; [by right|]. rewrite Hk. by eapply checked_token.
Qed.

(** *** A sequence of verifications of one profile *)
Record attempt := { at_env : jwt_env; at_token : string; at_opts : list VerifyJWTOptions }.

(** The evictions they cause, with the time each was decided at. *)
Fixpoint verify_all (p : Profile) (l : list attempt) : list (time * string) * Profile :=
  match l with
  | [] => ([], p)
  | a :: l =>
      let '(_, ev, p) := VerifyJWT p (at_env a) (at_token a) (at_opts a) in
      let '(evs, p) := verify_all p l in
      (match ev with Some d => (now_retry (at_env a), d) :: evs | None => evs end, p)
  end.

(** One verification leaves the back-offs alone or asks them once. *)
Lemma verify_retries (p : Profile) env tok opts :
  let '(_, ev, p') := VerifyJWT p env tok opts in
  (ev = None /\ signatureRetryAfter p' = signatureRetryAfter p) \/
  exists d, let '(allowed, m) := allowSignatureFailureRefresh (now_retry env) d (signatureRetryAfter p) in
    signatureRetryAfter p' = m /\ (ev = None \/ (ev = Some d /\ allowed = true)).
Proof.
  unfold VerifyJWT. destruct (open_jwt _ _ _ _) as [[[header parts] claims]|]; [|by left].
  destruct (VerifyIdentity _ _ _) as [v|]; [|by left]. destruct (KeySet _) as [set|]; [|by left].
  destruct (verifyJWTSignature _ _ _) as [|e]; [by left|]. unfold retry_signature.
  destruct (allowSignatureFailureRefresh (now_retry env) (Issuer claims) (signatureRetryAfter p)) as [allowed m] eqn:E.
  destruct allowed, (evicter env); right; exists (Issuer claims); rewrite E; by eauto.
Qed.

Definition decided (a : attempt) : time := now_retry (at_env a).

Lemma evictions_decided l p evs p' : verify_all p l = (evs, p') -> Forall (fun ev => ev.1 ∈ decided <$> l) evs.
Proof.
  revert p evs p'. induction l as [|a l IH]; intros p evs p'; cbn [verify_all]; [by intros [= <- _]|].
  destruct (VerifyJWT _ _ _ _) as [[r ev] p1]. destruct (verify_all p1 l) as [evs' p2] eqn:El. intros [= <- _].
  apply IH in El. assert (Forall (fun ev : time * string => ev.1 ∈ decided <$> a :: l) evs') as H.
  { eapply Forall_impl; [exact El|]. intros x Hx. cbn [fmap list_fmap]. by right. }
  destruct ev as [d|]; [|done]. constructor; [|done]. cbn. by left.
Qed.

(** Times are taken in order. *)
Definition in_order (l : list attempt) : Prop := StronglySorted Z.le (decided <$> l).

Lemma passed_until l p d e evs p' t :
  Forall (Z.le t) (decided <$> l) -> e <= t -> verify_all p l = (evs, p') -> Forall (fun ev => ev.2 = d -> e <= ev.1) evs.
Proof.
  intros Hl He Hv%evictions_decided. rewrite Forall_forall in Hl. eapply Forall_impl; [exact Hv|].
  intros x Hx _. specialize (Hl _ Hx). by etrans; [exact He|].
Qed.

Lemma refused_until l p d e evs p' :
  in_order l -> signatureRetryAfter p !! d = Some e -> verify_all p l = (evs, p') -> Forall (fun ev => ev.2 = d -> e <= ev.1) evs.
Proof.
  unfold in_order. revert p evs p'. induction l as [|a l IH]; intros p evs p' Hs He; cbn [verify_all]; [by intros [= <- _]|].
  apply StronglySorted_cons in Hs as [Hlater Hs].
  pose proof (verify_retries p (at_env a) (at_token a) (at_opts a)) as Hv.
  destruct (VerifyJWT _ _ _ _) as [[r ev] p1]. destruct (verify_all p1 l) as [evs' p2] eqn:El. intros [= <- _].
  destruct Hv as [[-> Hm]|(d' & Hv)]; [apply (IH p1 _ p2); [done|by rewrite Hm|done]|].
  pose proof (refresh_keeps (now_retry (at_env a)) d' (signatureRetryAfter p) d e He) as Hk.
  destruct (allowSignatureFailureRefresh _ _ _) as [allowed m]. destruct Hv as (Hm & Hev). destruct Hk as [Hk1 Hk2].
  assert (Forall (fun ev => ev.2 = d -> e <= ev.1) evs') as H.
  { destruct Hk2 as [Hk2|Hk2]; [apply (IH p1 _ p2); [done|by rewrite Hm|done]|by eapply (passed_until l p1)]. }
  destruct ev as [d1|]; [|done]. constructor; [|done]. cbn. intros ->. destruct Hev as [|[[= <-] Ha]]; [done|]. by apply Hk1.
Qed.

Lemma spaced_evictions l p evs p' :
  in_order l -> verify_all p l = (evs, p') ->
  ForallOrdPairs (fun a b => a.2 = b.2 -> a.1 + signatureFailureRefreshBackoff <= b.1) evs.
Proof.
  unfold in_order. revert p evs p'. induction l as [|a l IH]; intros p evs p' Hs; cbn [verify_all]; [intros [= <- _]; constructor|].
  apply StronglySorted_cons in Hs as [Hlater Hs].
  pose proof (verify_retries p (at_env a) (at_token a) (at_opts a)) as Hv.
  destruct (VerifyJWT _ _ _ _) as [[r ev] p1]. destruct (verify_all p1 l) as [evs' p2] eqn:El. intros [= <- _].
  specialize (IH _ _ _ Hs El). destruct ev as [d|]; [|done]. constructor; [|done]. cbn [fst snd].
  destruct Hv as [[? _]|(d' & Hv)]; [done|].
  destruct (refresh_cases (now_retry (at_env a)) d' (signatureRetryAfter p)) as [(m' & E & _)|(_ & _ & E)];
    rewrite E in Hv; destruct Hv as [Hm [|[[= <-] Ha]]]; try done.
  eapply Forall_impl; [eapply (refused_until l p1 d); [done| |exact El]|].
  - rewrite Hm. apply lookup_insert_eq.
  - cbn beta. intros x Hx Hd. by apply Hx.
Qed.

Lemma retries_bounded l p evs p' :
  (size (signatureRetryAfter p) <= maximumRetryDomains)%nat -> verify_all p l = (evs, p') ->
  (size (signatureRetryAfter p') <= maximumRetryDomains)%nat.
Proof.
  revert p evs. induction l as [|a l IH]; intros p evs Hp; cbn [verify_all]; [by intros [= _ <-]|].
  pose proof (verify_retries p (at_env a) (at_token a) (at_opts a)) as Hv.
  destruct (VerifyJWT _ _ _ _) as [[r ev] p1]. destruct (verify_all p1 l) as [evs' p2] eqn:El. intros [= _ <-].
  eapply (IH p1); [|done]. destruct Hv as [[_ ->]|(d & Hv)]; [done|].
  pose proof (refresh_size (now_retry (at_env a)) d _ Hp) as Hr.
  destruct (allowSignatureFailureRefresh _ _ _) as [allowed m]. by destruct Hv as [-> _].
Qed.

(** C24: tokens with bad signatures cannot make a profile fetch without bound.
    Whatever tokens a fresh profile verifies, while time does not run
    backwards it evicts one domain at most once in 30 seconds, and remembers
    at most 1024 domains. *)
Theorem refreshes_are_bounded r local kp c l evs p' :
  in_order l -> verify_all (New r local kp c) l = (evs, p') ->
  ForallOrdPairs (fun a b => a.2 = b.2 -> a.1 + signatureFailureRefreshBackoff <= b.1) evs /\
  Forall (fun ev => ev.1 ∈ decided <$> l) evs /\
  (size (signatureRetryAfter p') <= maximumRetryDomains)%nat.
Proof.
  intros Hl H. split; [by eapply spaced_evictions|]. split; [by eapply evictions_decided|].
  eapply retries_bounded; [|done]. cbn [New signatureRetryAfter]. rewrite map_size_empty. unfold maximumRetryDomains. lia.
Qed.
End verification.
