(* ===== verification/JoseRound.v ===== *)
(** * JoseRound: created tokens are accepted

    What [CreateJWS] and [CreateJWT] return, handed to a verifier that finds
    the signer's key in the set of the verified domain. A JWS is always
    accepted; a JWT is, unless truncating its times to seconds stretches its
    lifetime beyond the verifier's maximum. Neither passes for the other. *)

From Stdlib Require Import ZArith Lia Ascii String.
From S2P Require Import Prelude Codec Utf8 Numbers Jcs JsonRead JcsSpec Marshal Json Keys Fqdn TxtRecord Evidence KeyRing Jwks Domain LogReader Manager Event JoseUtil Token Jose JoseSpec.

Open Scope Z_scope.

(** What the model relies on of jwx/jwt: a built token has the claims it was
    built from, times up to the second; setting a private claim adds it. *)
Definition same_second (o : option time) (t : time) : Prop := exists u, o = Some u /\ Unix u = Unix t.
Definition registered `{JwtLib} (t : Tok) (i s : string) (a : list string) (iat nbf exp : time) (jti : string) : Prop :=
  tok_Issuer t = Some i /\ tok_Subject t = Some s /\ tok_Audience t = Some a /\ tok_JwtID t = Some jti /\
  same_second (tok_IssuedAt t) iat /\ same_second (tok_NotBefore t) nbf /\ same_second (tok_Expiration t) exp.
Class JwtSpec (J : JwtLib) := {
  jwt_built i s a iat nbf exp jti t :
    tok_Build i s a iat nbf exp jti = Ok t ->
    registered t i s a iat nbf exp jti /\ forall k, k ∈ tok_Keys t -> standard k = true;
  jwt_set t k v t' :
    standard k = false -> tok_Set t k v = Ok t' ->
    (forall i s a iat nbf exp jti, registered t i s a iat nbf exp jti -> registered t' i s a iat nbf exp jti) /\
    (forall k', k' ∈ tok_Keys t' <-> k' = k \/ k' ∈ tok_Keys t) /\
    tok_Get t' k = Some v /\ forall k', k' <> k -> tok_Get t' k' = tok_Get t k'
}.

Section created.
Context {key : Type} `{!KeyOps key} `{!JwkSetLib key} `{!CloneLib key} {I : Idna}.
Abbreviation VerifiedDomain := (VerifiedDomain key (LogReader (key:=key))).
Abbreviation Profile := (Profile (key:=key)).
Abbreviation jwt_env := (jwt_env (key:=key)).
Abbreviation KeyProvider := (KeyProvider (key:=key)).

(** A provider whose signatures verify under the public key [k]. *)
Definition signs_for (kp : KeyProvider) (kid : string) (alg : JoseAlg) (k : key) : Prop :=
  ActiveSigningMetadata (Some kp) = Ok (kid, alg) /\
  forall m sig, kp_Sign kp m = Ok (Some sig) -> KeyRing.Kid sig = kid -> KeyRing.Alg sig = alg ->
    VerifySignature alg m (KeyRing.Signature sig) [k] = true.
(** A domain whose current set offers [k] under [kid] for [alg]. *)
Definition offers (vd : VerifiedDomain) (kid : string) (alg : JoseAlg) (k : key) : Prop :=
  LookupJWKByKid (KeySet (Some vd)) kid = Some k /\ SigningKeyEligible k = true /\ JWKMatchesAlg k alg = true.

Lemma metadata_valid (kp : KeyProvider) kid alg :
  ActiveSigningMetadata (Some kp) = Ok (kid, alg) -> alg_Valid alg = true.
Proof.
  unfold ActiveSigningMetadata. destruct (kp_ListKeyIds kp) as [|k0 ?]; [done|]. destruct (kp_JWK kp k0) as [k|]; [|done].
  set (found := match JWKAlg k with Some a => Some a | None => AlgForJWK k end).
  destruct found as [a|]; [|done]. destruct (alg_Valid a) eqn:Ea; [|done]. cbn [negb]. destruct (negb (JWKMatchesAlg _ _)); [done|]. by intros [= _ <-].
Qed.

Lemma verified_nonempty alg m s (k : key) : VerifySignature alg m s [k] = true -> 0 < str_len s.
Proof.
  destruct s as [|c s]; [|unfold str_len; cbn; lia]. cbn [VerifySignature String.length].
  destruct (str_eqb alg JoseAlgEdDSA); [done|]. destruct (str_eqb alg JoseAlgES256); [|done].
  destruct (export_p256 k) as [pub|]; [|done]. unfold Cryptoutil.VerifyES256. by destruct (negb _).
Qed.

Lemma signed_compact mismatch (kp : KeyProvider) kid alg k header payload tok :
  signs_for kp kid alg k -> sign_compact mismatch kp kid alg header payload = Ok tok ->
  exists sig, tok = compact header payload sig /\ 0 < str_len sig /\
    VerifySignature alg (dot (Base64.encode header) (Base64.encode payload)) sig [k] = true.
Proof.
  intros [_ Hk]. unfold sign_compact, signature_of. destruct (kp_Sign kp _) as [[sig|]|] eqn:E; [|done..].
  cbn [mbind res_bind]. destruct (str_eqb (KeyRing.Kid sig) kid) eqn:E1; [|done].
  destruct (str_eqb (KeyRing.Alg sig) alg) eqn:E2; [|done]. intros [= <-].
  apply str_eqb_eq in E1, E2. exists (KeyRing.Signature sig). pose proof (Hk _ _ E E1 E2) as Hv.
  split; [done|]. split; [by eapply verified_nonempty|done].
Qed.

Lemma check_signature_true missing invalid header parts kid (k : key) set :
  LookupJWKByKid set kid = Some k -> SigningKeyEligible k = true -> JWKMatchesAlg k (h_alg header) = true ->
  VerifySignature (h_alg header) (signingInput parts) (signatureRaw parts) [k] = true ->
  check_signature missing invalid header parts kid set = Ok tt.
Proof. intros Hk He Hm Hv. unfold check_signature, verifySignature. by rewrite Hk, He, Hm, Hv. Qed.

Lemma header_nonempty alg typ kid : 0 < str_len (header_json alg typ kid).
Proof. unfold str_len, header_json. cbn [String.length]. lia. Qed.

(** What [CreateJWS] returns, [VerifyJWS] gives back: the payload byte for
    byte, with the domain the resolver verifies, whenever that domain's set
    offers the signer's key. And it never passes for a JWT, whoever
    verifies it and whatever its payload says. *)
Theorem created_jws_is_verified (p pv : Profile) (kp : KeyProvider) kid alg k data tok (vd : VerifiedDomain) peer :
  keys p = Some kp -> signs_for kp kid alg k -> offers vd kid alg k ->
  NormalizeFQDN (localDomain p) = Ok (localDomain p) -> has_byte "#" (localDomain p) = false ->
  ValidString (String.append (localDomain p) (String "#" kid)) = true -> kid <> EmptyString ->
  CreateJWS p data = Ok tok ->
  str_len tok <= MaxTokenBytes -> str_len data <= MaxPayloadBytes ->
  str_len (header_json alg "jose" (String.append (localDomain p) (String "#" kid))) <= MaxHeaderBytes ->
  VerifyIdentity (resolver pv) (localDomain p) peer = Ok vd -> resolver pv <> None ->
  VerifyJWS pv false tok [peer] = Ok (data, vd) /\
  forall pv' env opts, exists e, (VerifyJWT pv' env tok opts).1.1 = Err e.
Proof.
  intros Hkp Hs (Hk & He & Hm) Hn Hh Hv Hne. unfold CreateJWS, requireLocalIdentity. rewrite Hkp.
  destruct (is_empty (localDomain p)) eqn:El; [done|]. cbn [mbind res_bind].
  destruct Hs as [Ha Hsig]. rewrite Ha. cbn [mbind res_bind]. destruct (has_byte "#" kid) eqn:Ek; [done|].
  intros (sig & -> & Hpos & Hver)%(signed_compact _ kp kid alg k); [|done]. intros Ht Hd Hj Hr Hres.
  assert (within_limits (header_json alg "jose" (String.append (localDomain p) (String "#" kid))) data sig) as Hl.
  { split; [done|]. split; [|done]. split; [apply header_nonempty|done]. }
  assert (String.append (localDomain p) (String "#" kid) <> EmptyString) as Hkid by by destruct (localDomain p).
  pose proof (metadata_valid kp kid alg Ha) as Halg.
  pose proof (fun b => parse_created alg "jose" _ data sig b Hl Halg Hkid Hv (or_intror eq_refl)) as Hparse. split.
  - unfold VerifyJWS, parseCompactJWSProtectedHeader. destruct (resolver pv) eqn:Er; [|done]. cbn [mbind res_bind].
    rewrite Hparse. change (str_eqb "jose" "jose") with true. cbn [mbind res_bind h_kid].
    unfold SplitDNSIDKid. rewrite cut_append by done. rewrite El, Ek. apply is_empty_false in Hne. rewrite Hne. cbn [orb].
    rewrite Hn. cbn [mbind res_bind head]. change (default [] (Some peer)) with peer. rewrite Hr. cbn [mbind res_bind].
    by rewrite (check_signature_true _ _ _ _ kid k).
  - intros pv' env opts. unfold VerifyJWT, open_jwt, parseJWSProtectedHeader.
    rewrite Hparse. change (str_eqb "jose" "JWT") with false.
    destruct (resolver pv'); [|by eexists]. cbn [mbind res_bind].
    destruct (validateConfig (cfg pv')) as [[]|]; [|by eexists]. cbn [mbind res_bind].
    destruct (is_empty (ExpectedAudience (effective_options pv' opts))); by eexists.
Qed.
End created.

(** ** JWT *)
Section payloads.
Context {J : JwtLib} `{!JwtSpec J}.

Lemma put_others_lookup tok ks p k :
  put_others tok ks p !! k = match p !! k with Some v => Some v | None => if decide (k ∈ ks) then tok_Get tok k else None end.
Proof.
  revert p. induction ks as [|k' ks IH]; intros p; cbn [put_others].
  - destruct (p !! k); [done|]. by rewrite decide_False by apply not_elem_of_nil.
  - rewrite IH. destruct (decide (k = k')) as [->|Hne].
    + rewrite (decide_True (P := k' ∈ k' :: ks)) by by left. destruct (p !! k') as [v|] eqn:E; cbn.
      * by rewrite E.
      * destruct (tok_Get tok k') as [v|] eqn:Eg; [by rewrite lookup_insert_eq|]. rewrite E. by case_decide.
    + assert ((if bool_decide (is_Some (p !! k')) then p else match tok_Get tok k' with Some v => <[k' := v]> p | None => p end) !! k
        = p !! k) as ->.
      { destruct (bool_decide _); [done|]. destruct (tok_Get tok k'); [by rewrite lookup_insert_ne|done]. }
      destruct (p !! k); [done|]. destruct (decide (k ∈ ks)) as [H|H].
      * by rewrite decide_True by by right.
      * rewrite decide_False; [done|]. by intros [->|?]%elem_of_cons.
Qed.

(** The private claims set, one after the other. *)
Lemma claims_set l t t' :
  NoDup l.*1 -> set_claims l t = Ok t' ->
  Forall (fun kv => standard kv.1 = false) l /\
  (forall i s a iat nbf exp jti, registered t i s a iat nbf exp jti -> registered t' i s a iat nbf exp jti) /\
  (forall k, k ∈ tok_Keys t' <-> k ∈ l.*1 \/ k ∈ tok_Keys t) /\
  (forall k v, (k, v) ∈ l -> tok_Get t' k = Some v) /\ (forall k, k ∉ l.*1 -> tok_Get t' k = tok_Get t k).
Proof.
  revert t. induction l as [|[k v] l IH]; intros t Hnd; cbn [set_claims].
  - intros [= <-]. split_and!; [constructor|done|..]; intros; [set_solver|set_solver|done].
  - cbn in Hnd. apply NoDup_cons in Hnd as [Hk Hnd]. destruct (standard k) eqn:Est; [done|].
    destruct (tok_Set t k v) as [t1|] eqn:Et; [|done]. cbn [mbind res_bind]. intros (H1 & H2 & H3 & H4 & H5)%IH; [|done].
    destruct (jwt_set _ _ _ _ Est Et) as (S1 & S2 & S3 & S4). split_and!.
    + by constructor.
    + intros. by apply H2, S1.
    + intros k'. rewrite H3, S2. cbn. set_solver.
    + intros k' v' [[= -> ->]|Hin]%elem_of_cons; [|by apply H4]. by rewrite H5.
    + intros k' Hn. cbn in Hn. apply not_elem_of_cons in Hn as [Hne Hn]. rewrite H5 by done. by apply S4.
Qed.

(** The claims of a created token, as [DecodeObject] reads them: [iat] and
    [exp] in whole seconds. *)
Record created_claims (raw : gmap string value) (domain audience jti : string) (iat exp : Z) (extra : gmap string value) : Prop := {
  cc_iss : raw !! "iss"%string = Some (VString domain);
  cc_sub : raw !! "sub"%string = Some (VString domain);
  cc_aud : raw !! "aud"%string = Some (VArray [VString audience]);
  cc_exp : raw !! "exp"%string = Some (VNumber (int_text exp));
  cc_iat : raw !! "iat"%string = Some (VNumber (int_text iat));
  cc_nbf : raw !! "nbf"%string = Some (VNumber (int_text iat));
  cc_jti : raw !! "jti"%string = Some (VString jti);
  cc_extra : forall k, standard k = false -> raw !! k = as_read <$> extra !! k
}.

Lemma standard_cases k : standard k = true -> k ∈ standardClaims.
Proof. apply bool_decide_eq_true. Qed.

Lemma second_not_zero u t : Unix u = Unix t -> 0 <= Unix t -> time_is_zero u = false.
Proof.
  intros H Ht. unfold time_is_zero. apply Z.eqb_neq. intros ->. unfold Unix in H at 1. change (0 / second) with 0 in H. lia.
Qed.

(** The payload of a token built and set as [createJWT] does. *)
Lemma payload_created t t' domain audience now exp jti extra :
  tok_Build domain domain [audience] now now exp jti = Ok t -> set_claims (map_to_list extra) t = Ok t' ->
  domain <> EmptyString -> jti <> EmptyString -> 0 <= Unix now -> 0 <= Unix exp ->
  jwt_payload t' !! "iss"%string = Some (VString domain) /\ jwt_payload t' !! "sub"%string = Some (VString domain) /\
  jwt_payload t' !! "aud"%string = Some (VArray [VString audience]) /\
  jwt_payload t' !! "exp"%string = Some (VInt (Unix exp)) /\ jwt_payload t' !! "iat"%string = Some (VInt (Unix now)) /\
  jwt_payload t' !! "nbf"%string = Some (VInt (Unix now)) /\ jwt_payload t' !! "jti"%string = Some (VString jti) /\
  forall k, standard k = false -> jwt_payload t' !! k = extra !! k.
Proof.
  intros [Hreg Hstd]%jwt_built (_ & H2 & H3 & H4 & H5)%claims_set; [|apply NoDup_fst_map_to_list]. intros Hd Hj Hn He.
  apply H2 in Hreg as (Ri & Rs & Ra & Rj & (ti & Hi & Ui) & (tn & Hnb & Un) & (te & Hex & Ue)).
  apply is_empty_false in Hd, Hj. unfold jwt_payload.
  rewrite Ri, Rs, Ra, Rj, Hi, Hnb, Hex. unfold put_text, put_date, put_audience.
  rewrite Hd, Hj, (second_not_zero ti now Ui Hn), (second_not_zero tn now Un Hn), (second_not_zero te exp Ue He).
  rewrite Ui, Un, Ue. split_and!; try (rewrite put_others_lookup; reflexivity).
  intros k Hk. rewrite put_others_lookup.
  pose proof Hk as Hns. unfold standard in Hns. apply bool_decide_eq_false in Hns.
  rewrite !lookup_insert_ne, lookup_empty by (intros <-; apply Hns; unfold standardClaims; set_solver).
  destruct (extra !! k) as [v|] eqn:Ex.
  - assert ((k, v) ∈ map_to_list extra) as Hin by by apply elem_of_map_to_list.
    rewrite decide_True by (apply H3; left; apply list_elem_of_fmap; by exists (k, v)). by apply H4.
  - rewrite decide_False; [done|]. rewrite H3. intros [Hin|Hin]; [|by rewrite Hstd in Hk].
    apply list_elem_of_fmap in Hin as ([k' v] & -> & Hin%elem_of_map_to_list). cbn in Ex. by rewrite Ex in Hin.
Qed.

(** *** The payload as text and back *)
Lemma height_le (m : gmap string value) n :
  (forall k v, m !! k = Some v -> (S (height v) <= n)%nat) -> (height (VObject m) <= n)%nat.
Proof.
  cbn. apply (map_fold_weak_ind (fun r (m : gmap string value) => (forall k v, m !! k = Some v -> (S (height v) <= n)%nat) -> (r <= n)%nat)).
  - lia.
  - intros i x m' r Hm IH H. pose proof (H i x ltac:(by rewrite lookup_insert_eq)) as Hi.
    assert (r <= n)%nat; [|lia]. apply IH. intros k v Hk. apply (H k). rewrite lookup_insert_ne; [done|]. by intros ->; rewrite Hm in Hk.
Qed.

Lemma utf8_members (m : gmap string value) :
  (forall k v, m !! k = Some v -> ValidString k = true /\ utf8_only v = true) -> utf8_only (VObject m) = true.
Proof.
  intros H. cbn [utf8_only]. apply forallb_forall. intros [k b] Hin%list_elem_of_In%elem_of_map_to_list.
  rewrite lookup_fmap in Hin. destruct (m !! k) as [v|] eqn:E; [|done]. injection Hin as <-.
  apply andb_true_iff. by apply H.
Qed.

Lemma floats_members (m : gmap string value) :
  (forall k v, m !! k = Some v -> all_floats v = true) <-> all_floats (VObject m) = true.
Proof.
  cbn [all_floats]. rewrite forallb_forall. split.
  - intros H [k b] Hin%list_elem_of_In%elem_of_map_to_list. rewrite lookup_fmap in Hin.
    destruct (m !! k) as [v|] eqn:E; [|done]. injection Hin as <-. by apply (H k).
  - intros H k v Hk. apply (H (k, all_floats v)). apply list_elem_of_In, elem_of_map_to_list. by rewrite lookup_fmap, Hk.
Qed.

(** Additional claims that survive the way through JSON. *)
Definition portable (extra : gmap string value) : Prop :=
  utf8_only (VObject extra) = true /\ (height (VObject extra) <= 64)%nat /\ all_floats (VObject (as_read <$> extra)) = true.

Lemma created_payload_reads t t' domain audience now exp jti extra data :
  tok_Build domain domain [audience] now now exp jti = Ok t -> set_claims (map_to_list extra) t = Ok t' ->
  domain <> EmptyString -> jti <> EmptyString -> 0 <= Unix now < 2 ^ 53 -> 0 <= Unix exp < 2 ^ 53 ->
  ValidString domain = true -> ValidString audience = true -> ValidString jti = true -> portable extra ->
  marshalJWTClaims t' = Ok data -> str_len data <= MaxPayloadBytes ->
  exists raw, jose_DecodeObject data = Ok raw /\ created_claims raw domain audience jti (Unix now) (Unix exp) extra.
Proof.
  intros Hb Hset Hd Hj Hn He Vd Va Vj (Hu & Hh & Hf) Hm Hl.
  destruct (payload_created _ _ _ _ _ _ _ _ Hb Hset Hd Hj ltac:(lia) ltac:(lia)) as (P1 & P2 & P3 & P4 & P5 & P6 & P7 & P8).
  assert (forall (P : string -> value -> Prop),
    P "iss" (VString domain) -> P "sub" (VString domain) -> P "aud" (VArray [VString audience]) ->
    P "exp" (VInt (Unix exp)) -> P "iat" (VInt (Unix now)) -> P "nbf" (VInt (Unix now)) -> P "jti" (VString jti) ->
    (forall k v, extra !! k = Some v -> P k v) -> forall k v, jwt_payload t' !! k = Some v -> P k v)%string as Hall.
  { intros P Q1 Q2 Q3 Q4 Q5 Q6 Q7 Q8 k v Hk. destruct (standard k) eqn:Es; [|by apply Q8; rewrite <- P8].
    apply standard_cases in Es. unfold standardClaims in Es. rewrite !elem_of_cons in Es.
    destruct Es as [->|[->|[->|[->|[->|[->|[->|[]%elem_of_nil]]]]]]]; congruence. }
  assert (utf8_only (VObject (jwt_payload t')) = true) as Hpu.
  { apply utf8_members. apply (Hall (fun k v => ValidString k = true /\ utf8_only v = true)); try by (split; [done|cbn; rewrite ?Vd, ?Va, ?Vj]).
    intros k v. by apply utf8_object. }
  assert (height (VObject (jwt_payload t')) <= 64)%nat as Hph.
  { apply height_le. apply (Hall (fun _ v => (S (height v) <= 64)%nat)); try (cbn; lia). intros k v Hk. apply height_object in Hk. lia. }
  exists (as_read <$> jwt_payload t'). split.
  - unfold jose_DecodeObject. rewrite (proj2 (Z.ltb_ge _ _) Hl), (decode_marshalled _ _ Hm Hpu Hph). cbn [mbind res_bind].
    assert (all_floats (VObject (as_read <$> jwt_payload t')) = true) as ->; [|done].
    apply floats_members. intros k v'. rewrite lookup_fmap. destruct (jwt_payload t' !! k) as [v|] eqn:Ek; [|done].
    intros [= <-]. revert k v Ek. apply (Hall (fun _ v => all_floats (as_read v) = true)); try done; try (apply NumericDate_int; lia).
    intros k v Hk. apply (proj2 (floats_members (as_read <$> extra)) Hf k). by rewrite lookup_fmap, Hk.
  - split; try (rewrite lookup_fmap, ?P1, ?P2, ?P3, ?P4, ?P5, ?P6, ?P7; done). intros k Hk. by rewrite lookup_fmap, P8.
Qed.
End payloads.

Section created_jwt.
Context {key : Type} `{!KeyOps key} `{!JwkSetLib key} `{!CloneLib key} {I : Idna} {J : JwtLib} `{!JwtSpec J}.
Abbreviation VerifiedDomain := (VerifiedDomain key (LogReader (key:=key))).
Abbreviation Profile := (Profile (key:=key)).
Abbreviation jwt_env := (jwt_env (key:=key)).
Abbreviation KeyProvider := (KeyProvider (key:=key)).

Definition expects (expected got : string) : Prop := expected = EmptyString \/ NormalizeFQDN expected = Ok got.

Lemma created_types raw domain audience jti iat exp extra :
  created_claims raw domain audience jti iat exp extra -> domain <> EmptyString -> audience <> EmptyString ->
  Z.abs iat < 2 ^ 53 -> Z.abs exp < 2 ^ 53 -> validateClaimTypes raw = Ok tt.
Proof.
  intros [C1 C2 C3 C4 C5 C6 C7 _] Hd Ha Hi He. apply is_empty_false in Hd, Ha. unfold validateClaimTypes. cbn [forallb].
  rewrite C1, C2, C3, C4, C5, C6, C7. cbn [nonempty_string]. rewrite Hd.
  rewrite (proj1 (NumericDate_int iat Hi)), (proj1 (NumericDate_int exp He)).
  rewrite !(bool_decide_eq_true_2 (is_Some (Some (unix_time iat)))), !(bool_decide_eq_true_2 (is_Some (Some (unix_time exp)))) by by eexists.
  cbn [negb andb orb forallb nonempty_string]. rewrite Ha.
  by rewrite bool_decide_eq_false_2.
Qed.

Lemma validate_created raw domain audience jti iat exp extra now data cfg opts :
  jose_DecodeObject data = Ok raw -> created_claims raw domain audience jti iat exp extra ->
  (forall k, is_Some (extra !! k) -> standard k = false) ->
  domain <> EmptyString -> audience <> EmptyString -> NormalizeFQDN domain = Ok domain -> NormalizeFQDN audience = Ok audience ->
  0 <= iat < exp -> exp < 2 ^ 53 -> now < unix_time exp -> unix_time iat <= now + jc_ClockSkew cfg ->
  expects (ExpectedIssuer opts) domain -> expects (ExpectedAudience opts) audience ->
  validateJWTClaims now data cfg opts
  = if MaxTokenLifetime cfg <? time_sub (unix_time exp) (unix_time iat)
    then Err (verr "lifetime_too_long" "dnsid: invalid claims: token lifetime exceeds maximum")
    else Ok {| Issuer := domain; Subject := domain; Audiences := [audience]; JWTID := jti;
               IssuedAt := unix_time iat; c_Expiry := unix_time exp; Extra := as_read <$> extra |}.
Proof.
  intros Hdec HC Hstd Hd Ha Nd Na Hi He Hnow Hskew Eis Eau. unfold validateJWTClaims. rewrite Hdec. cbn [mbind res_bind].
  rewrite (created_types _ _ _ _ _ _ _ HC Hd Ha) by lia. destruct HC as [C1 C2 C3 C4 C5 C6 C7 C8]. cbn [mbind res_bind].
  rewrite C1, C2, C3, C4, C5, C6, C7, (proj1 (NumericDate_int iat ltac:(lia))), (proj1 (NumericDate_int exp ltac:(lia))).
  change (default 0 (Some (unix_time exp))) with (unix_time exp). change (default 0 (Some (unix_time iat))) with (unix_time iat).
  unfold check_times, before, after. rewrite (proj2 (Z.ltb_lt _ _) Hnow), (proj2 (Z.ltb_ge _ _) Hskew). cbn [negb mbind res_bind asString].
  unfold normalized at 1 2. rewrite Nd. cbn [mbind res_bind]. rewrite str_eqb_refl. cbn [negb].
  unfold check_lifetime, after. assert (unix_time iat < unix_time exp) as Hlt by (unfold unix_time, second; lia).
  rewrite (proj2 (Z.ltb_lt _ _) Hlt). cbn [negb].
  destruct (MaxTokenLifetime cfg <? _); [done|]. cbn [mbind res_bind].
  assert (check_issuer (ExpectedIssuer opts) domain = Ok tt) as ->.
  { unfold check_issuer. destruct Eis as [->|E]; [done|]. destruct (is_empty _); [done|]. unfold normalized. rewrite E. cbn [mbind res_bind].
    by rewrite str_eqb_refl. }
  cbn [mbind res_bind normalizeAudiences asString]. unfold normalized at 1. rewrite Na. cbn [mbind res_bind].
  assert (check_audience (ExpectedAudience opts) [audience] = Ok tt) as ->.
  { unfold check_audience. destruct Eau as [->|E]; [done|]. destruct (is_empty _); [done|]. unfold normalized. rewrite E. cbn [mbind res_bind existsb].
    by rewrite str_eqb_refl. }
  cbn [mbind res_bind]. do 2 f_equal. apply map_eq. intros k. rewrite extra_claims, lookup_fmap.
  destruct (standard k) eqn:Es; [|by apply C8]. destruct (extra !! k) as [v|] eqn:Ek; [|done].
  rewrite Hstd in Es; [done|]. by rewrite Ek.
Qed.

Lemma created_parts (p : Profile) (kp : KeyProvider) kid alg k now rng opts tok :
  keys p = Some kp -> signs_for kp kid alg k -> CreateJWT p now (Some rng) opts = Ok tok ->
  exists audience t t' data sig,
    localDomain p <> EmptyString /\ NormalizeFQDN (jo_Audience opts) = Ok audience /\
    Unix now < Unix (now + token_lifetime (config_of p) opts) /\
    tok_Build (localDomain p) (localDomain p) [audience] now now (now + token_lifetime (config_of p) opts) (Base64.encode rng) = Ok t /\
    set_claims (map_to_list (AdditionalClaims opts)) t = Ok t' /\ marshalJWTClaims t' = Ok data /\
    tok = compact (header_json alg "JWT" kid) data sig /\ 0 < str_len sig /\
    VerifySignature alg (dot (Base64.encode (header_json alg "JWT" kid)) (Base64.encode data)) sig [k] = true.
Proof.
  intros Hkp Hs. unfold CreateJWT, requireLocalIdentity. rewrite Hkp.
  destruct (is_empty (localDomain p)) eqn:El; [done|]. apply is_empty_false in El. cbn [mbind res_bind].
  destruct (validateConfig (cfg p)) as [[]|]; [|done]. cbn [mbind res_bind]. unfold createJWT.
  destruct (is_empty (jo_Audience opts)); [done|]. destruct (NormalizeFQDN (jo_Audience opts)) as [audience|]; [|done]. cbn [mbind res_bind].
  destruct (_ || _); [done|]. cbn [randomJTI mbind res_bind].
  destruct (Z.leb_spec (Unix (now + token_lifetime (config_of p) opts)) (Unix now)); [done|].
  destruct (tok_Build _ _ _ _ _ _ _) as [t|] eqn:Et; [|done]. cbn [mbind res_bind].
  destruct (set_claims _ t) as [t'|] eqn:Es; [|done]. cbn [mbind res_bind]. rewrite (proj1 Hs). cbn [mbind res_bind].
  unfold signJWTCompact. destruct (marshalJWTClaims t') as [data|] eqn:Em; [|done]. cbn [mbind res_bind].
  intros (sig & -> & Hpos & Hver)%(signed_compact _ kp kid alg k); [|done]. exists audience, t, t', data, sig. done.
Qed.

Lemma normalized_facts `{!IdnaSpec I} s d :
  NormalizeFQDN s = Ok d -> NormalizeFQDN d = Ok d /\ ValidString d = true /\ d <> EmptyString.
Proof.
  intros H. destruct (normalize_fqdn_idempotent s d H) as (Hd & _ & Hascii). split; [done|]. split; [by apply ascii_valid|].
  by intros ->.
Qed.

Lemma encoded_valid s : ValidString (Base64.encode s) = true.
Proof.
  apply ascii_valid, encode_bytes. intros n Hn. by apply (forall_below 64 (fun n => byte_val (Base64.enc6 n) <? 128)).
Qed.

Lemma skew_nonneg (p : Profile) : validateConfig (cfg p) = Ok tt -> 0 <= jc_ClockSkew (config_of p).
Proof.
  unfold validateConfig, config_of. cbn [profile_jwtConfig jc_ClockSkew]. destruct (Z.ltb_spec (ClockSkew (cfg p)) 0); [done|].
  intros _. destruct (_ && _); [done|lia].
Qed.

Lemma unix_time_floor t : unix_time (Unix t) <= t.
Proof. unfold unix_time, Unix. pose proof (Z.mul_div_le t second ltac:(done)). unfold second in *. lia. Qed.

(** C20: a created JWT and its verifier. The profile's domain is normalized,
    its signer has a nonempty UTF-8 kid, the private claims are portable (text
    in UTF-8, numbers that JSON keeps, at most 64 levels), the token is at most
    16 KiB and its seconds fit 53 bits; the verifier's configuration is valid,
    it names the token's audience, expects its issuer or none, reads its clock
    from the creation on and before the end, and its resolver finds the
    signer's key in the domain's set. Then all of these decide: if the life of
    the token in whole seconds is within the verifier's own maximum, the token
    is accepted, with all its claims, private ones included; if it is not
    (because that maximum is shorter, or because truncation to seconds
    stretched the life), it is refused as too long. *)
Theorem created_jwt_is_verified `{!IdnaSpec I} (p pv : Profile) (kp : KeyProvider) kid alg k now rng opts tok (vd : VerifiedDomain) env o :
  keys p = Some kp -> signs_for kp kid alg k -> offers vd kid alg k -> ValidString kid = true -> kid <> EmptyString ->
  CreateJWT p now (Some rng) opts = Ok tok -> rng <> EmptyString ->
  NormalizeFQDN (localDomain p) = Ok (localDomain p) -> portable (AdditionalClaims opts) -> str_len tok <= MaxHeaderBytes ->
  let iat := Unix now in
  let exp := Unix (now + token_lifetime (config_of p) opts) in
  0 <= iat -> exp < 2 ^ 53 ->
  resolver pv <> None -> validateConfig (cfg pv) = Ok tt -> VerifyIdentity (resolver pv) (localDomain p) (Peer o) = Ok vd ->
  ExpectedAudience o <> EmptyString -> NormalizeFQDN (ExpectedAudience o) = NormalizeFQDN (jo_Audience opts) ->
  expects (ExpectedIssuer o) (localDomain p) ->
  now <= now_claims env -> now_claims env < unix_time exp -> now_end env < unix_time exp -> done_end env = false ->
  exists audience, NormalizeFQDN (jo_Audience opts) = Ok audience /\
  (VerifyJWT pv env tok [o]).1.1
  = if MaxTokenLifetime (config_of pv) <? time_sub (unix_time exp) (unix_time iat)
    then Err (verr "lifetime_too_long" "dnsid: invalid claims: token lifetime exceeds maximum")
    else Ok (vd, {| Issuer := localDomain p; Subject := localDomain p; Audiences := [audience]; JWTID := Base64.encode rng;
                    IssuedAt := unix_time iat; c_Expiry := unix_time exp; Extra := as_read <$> AdditionalClaims opts |}).
Proof.
  intros Hkp Hs (Hk & He & Hm) Hv Hne Hc Hrng Hdom (Hu & Hh & Hf) Hlen. cbv zeta. intros Hiat Hexp Hres Hcfg Hid Ha1 Ha2 Hi T1 T2 T3 T4.
  destruct (created_parts p kp kid alg k now rng opts tok Hkp Hs Hc)
    as (audience & t & t' & data & sig & Hd & Ha & Hlt & Hb & Hset & Hmar & -> & Hpos & Hver).
  exists audience. split; [done|]. destruct (normalized_facts _ _ Ha) as (Na & Va & Ea). destruct (normalized_facts _ _ Hdom) as (_ & Vd & _).
  destruct Hs as [Hmeta Hsig]. pose proof (metadata_valid kp kid alg Hmeta) as Halg.
  pose proof (short_within _ _ _ Hlen (header_nonempty _ _ _) Hpos) as Hl.
  assert (Base64.encode rng <> EmptyString) as Hj by (apply is_empty_false; rewrite encode_empty; by apply is_empty_false).
  destruct (created_payload_reads _ _ _ _ _ _ _ _ _ Hb Hset Hd Hj ltac:(lia) ltac:(lia) Vd Va (encoded_valid rng)
    (conj Hu (conj Hh Hf)) Hmar ltac:(apply Hl)) as (raw & Hdec & HC).
  unfold VerifyJWT, open_jwt, parseJWSProtectedHeader.
  assert (effective_options pv [o] = o) as ->.
  { unfold effective_options. by rewrite (proj2 (is_empty_false _) Ha1). }
  rewrite (parse_created alg "JWT" kid data sig true Hl Halg Hne Hv (or_introl eq_refl)).
  change (str_eqb "JWT" "JWT") with true. destruct (resolver pv) as [rv|]; [|done]. rewrite Hcfg, (proj2 (is_empty_false _) Ha1).
  cbn [mbind res_bind payload]. rewrite (validate_created raw (localDomain p) audience (Base64.encode rng)
    (Unix now) (Unix (now + token_lifetime (config_of p) opts)) (AdditionalClaims opts)); try done.
  2:{ intros k' [v Hk']. apply claims_set in Hset as (Hst & _); [|apply NoDup_fst_map_to_list]. rewrite Forall_forall in Hst.
      apply (Hst (k', v)). by apply elem_of_map_to_list. }
  2:{ pose proof (unix_time_floor now). pose proof (skew_nonneg pv Hcfg). unfold time in *. lia. }
  2:{ right. by rewrite Ha2. }
  destruct (MaxTokenLifetime _ <? _); [done|]. cbn [mbind res_bind Issuer h_kid].
  rewrite Hid. destruct (KeySet (Some vd)) as [set|]; [|by unfold LookupJWKByKid in Hk; destruct (is_empty kid)].
  unfold verifyJWTSignature. rewrite (check_signature_true _ _ _ _ _ k) by done.
  unfold conclude, before. cbn [mbind res_bind c_Expiry]. by rewrite T4, (proj2 (Z.ltb_lt _ _) T3).
Qed.
End created_jwt.
