(* ===== verification/Oidc.v ===== *)
(** * Oidc: tokens of an OpenID provider

    oidc/oidc.go. A profile exchanges an assertion signed by the local domain
    for a token of an issuer, and verifies tokens of the issuers it allows
    with the keys the issuer publishes. Requests go through a client that
    follows no redirects: the guarded one, or for an issuer on this machine the
    one that dials loopback addresses only (Netguard.v). *)

From Stdlib Require Import ZArith Lia Ascii String.
From S2P Require Import Prelude Codec Utf8 Numbers Jcs Marshal Json JsonDoc Keys Fqdn TxtRecord Reference Evidence KeyRing Jwks Domain LogReader Manager Event NetHttp NetIP JoseUtil Token.

Open Scope Z_scope.

Definition oidc_minute : Z := 60 * second.
Definition grantJWTBearer : string := "urn:ietf:params:oauth:grant-type:jwt-bearer".
Definition maxOIDCResponseBytes : Z := Z.shiftl 1 20.

(** ** Configuration *)
Record Config := {
  DefaultScope : string;
  AssertionLifetime : Z;
  MaxAssertionLifetime : Z;
  ClockSkew : Z;
  clockSkewSet : bool;
  assertionLifetimeSet : bool;
  maxAssertionLifetimeSet : bool;
  AllowedIssuers : list string;
  AllowedTokenAlgorithms : list string;
  AllowHTTPLoopbackIssuer : bool
}.
Definition WithClockSkew (c : Config) (skew : Z) : Config :=
  {| DefaultScope := DefaultScope c; AssertionLifetime := AssertionLifetime c; MaxAssertionLifetime := MaxAssertionLifetime c;
     ClockSkew := skew; clockSkewSet := true; assertionLifetimeSet := assertionLifetimeSet c;
     maxAssertionLifetimeSet := maxAssertionLifetimeSet c; AllowedIssuers := AllowedIssuers c;
     AllowedTokenAlgorithms := AllowedTokenAlgorithms c; AllowHTTPLoopbackIssuer := AllowHTTPLoopbackIssuer c |}.
Definition WithAssertionLifetime (c : Config) (d : Z) : Config :=
  {| DefaultScope := DefaultScope c; AssertionLifetime := d; MaxAssertionLifetime := MaxAssertionLifetime c;
     ClockSkew := ClockSkew c; clockSkewSet := clockSkewSet c; assertionLifetimeSet := true;
     maxAssertionLifetimeSet := maxAssertionLifetimeSet c; AllowedIssuers := AllowedIssuers c;
     AllowedTokenAlgorithms := AllowedTokenAlgorithms c; AllowHTTPLoopbackIssuer := AllowHTTPLoopbackIssuer c |}.
Definition WithMaxAssertionLifetime (c : Config) (d : Z) : Config :=
  {| DefaultScope := DefaultScope c; AssertionLifetime := AssertionLifetime c; MaxAssertionLifetime := d;
     ClockSkew := ClockSkew c; clockSkewSet := clockSkewSet c; assertionLifetimeSet := assertionLifetimeSet c;
     maxAssertionLifetimeSet := true; AllowedIssuers := AllowedIssuers c;
     AllowedTokenAlgorithms := AllowedTokenAlgorithms c; AllowHTTPLoopbackIssuer := AllowHTTPLoopbackIssuer c |}.
Definition validateConfig (c : Config) : res unit :=
  fail_if (ClockSkew c <? 0) || (AssertionLifetime c <? 0) || (MaxAssertionLifetime c <? 0)
          || (assertionLifetimeSet c && (AssertionLifetime c =? 0)) || (maxAssertionLifetimeSet c && (MaxAssertionLifetime c =? 0))
    with ArgumentError "dnsid: invalid OIDC lifetime or skew" ;;
  Ok tt.
Definition clockSkew (c : Config) : Z :=
  if negb (ClockSkew c =? 0) || clockSkewSet c then ClockSkew c else 30 * second.

Record OIDCAssertionOptions := { a_Issuer : string; a_Expiry : Z; expirySet : bool; AdditionalClaims : gmap string value }.
Definition WithExpiry (o : OIDCAssertionOptions) (d : Z) : OIDCAssertionOptions :=
  {| a_Issuer := a_Issuer o; a_Expiry := d; expirySet := true; AdditionalClaims := AdditionalClaims o |}.
Record OIDCTokenExchangeOptions := { x_Issuer : string; x_Audience : string; x_Scope : string; Assertion : string }.
Record OIDCTokenResponse := {
  AccessToken : string; IDToken : string; TokenType : string; ExpiresIn : Z; r_Scope : string; Raw : list (string * json)
}.
Record VerifyOIDCTokenOptions := {
  v_Issuer : string;
  v_Audience : string;
  VerifyDnsidSubject : option bool;
  v_Peer : list (option (string -> bool))
}.
Record DiscoveryDocument := { d_Issuer : string; TokenEndpoint : string; JWKSURI : string }.

(** [TokenExchangeError] and the other failures of an exchange. *)
Inductive exchange_failure := TokenExchangeError (StatusCode : Z) (Code Description : string) | ExchangeFailed (e : error).
Definition status_text (n : Z) : string := if n <? 0 then String "-" (format_uint (Z.to_N (- n))) else format_uint (Z.to_N n).
Definition TokenExchangeError_Error (status : Z) (code description : string) : string :=
  String.append "dnsid: OIDC token exchange failed: " (String.append code
    (String.append (if is_empty description then "" else String " " description)
       (if is_empty code && is_empty description then String.append "HTTP " (status_text status) else "")))%string.

(** ** URLs *)
Definition isLocalhost (host : string) : bool :=
  str_eqb host "localhost" || match ParseIP host with Some ip => ip_IsLoopback ip | None => false end.
(** [RawQuery] of the URL that [url.Parse] makes of a text it accepts. *)
Definition url_RawQuery (raw : string) : string :=
  let rest := match cut "#" raw with Some (before, _) => before | None => raw end in
  match cut "?" rest with Some (_, query) => query | None => EmptyString end.
Definition ends_with_slash (s : string) : bool := match cut_last "/" s with Some (_, EmptyString) => true | _ => false end.

Section urls.
Context {U : NetURL}.

Definition validateIssuerRoot (raw : string) (allowHTTPLoopback : bool) : res string :=
  match url_Parse raw with
  | None => Err (ArgumentError "dnsid: invalid OIDC issuer")
  | Some u =>
      fail_if is_empty (Scheme u) || is_empty (Host u) || User u || negb (is_empty (url_RawQuery raw)) || negb (is_empty (Fragment u))
              || ends_with_slash raw
        with ArgumentError "dnsid: invalid OIDC issuer" ;;
      fail_if negb (str_eqb (Scheme u) "https")
              && (negb allowHTTPLoopback || negb (str_eqb (Scheme u) "http") || negb (isLocalhost (Hostname u)))
        with ArgumentError "dnsid: OIDC issuer must use https" ;;
      Ok raw
  end.

(** A path is empty when its escaped form is. *)
Definition validateSameOriginEndpoint (raw issuer name : string) : res unit :=
  let invalid := verr "invalid_claims" (String.append "dnsid: invalid OIDC " name) in
  match url_Parse raw, url_Parse issuer with
  | Some u, Some base =>
      fail_if is_empty (Scheme u) || is_empty (Host u) || User u || is_empty (EscapedPath u) || negb (is_empty (url_RawQuery raw))
              || negb (is_empty (Fragment u)) || negb (str_eqb (Scheme u) (Scheme base)) || negb (str_eqb (Host u) (Host base))
        with invalid ;;
      Ok tt
  | _, _ => Err invalid
  end.
End urls.

(** [url.Values.Encode] of the form of an exchange: keys in order. *)
Definition query_byte (c : ascii) : string :=
  if is_alnum c || in_set "-_.~" c then String c EmptyString
  else if Ascii.eqb c " " then "+"%string else percent c.
Fixpoint QueryEscape (s : string) : string :=
  match s with String c s => String.append (query_byte c) (QueryEscape s) | EmptyString => EmptyString end.
Definition form_field (name value : string) : string := String.append name (String "=" (QueryEscape value)).
Definition exchange_form (assertion audience scope : string) : string :=
  join "&" [form_field "assertion" assertion; form_field "audience" audience; form_field "grant_type" grantJWTBearer; form_field "scope" scope].

(** ** Requests

    A computation over the network is given what was sent before it; [Do] is
    the transport's answer to a request, which may depend on all of that. *)
Inductive client := GuardedClient | LoopbackOnlyClient.
#[export] Instance client_eq_dec : EqDecision client.
Proof. solve_decision. Defined.
Record sent := { via : client; q_Method : string; q_URL : string; q_ContentType : string; q_Body : string }.
Record answer := { StatusCode : Z; Body : string; BodyError : option error }.

Definition net (A : Type) : Type := list sent -> res A * list sent.
#[export] Instance net_ret : MRet net := fun A a tr => (Ok a, tr).
#[export] Instance net_bind : MBind net := fun A B f m tr =>
  match m tr with (Ok a, tr) => f a tr | (Err e, tr) => (Err e, tr) end.
Definition lift {A} (r : res A) : net A := fun tr => (r, tr).

Definition isRedirect (code : Z) : bool := (code =? 301) || (code =? 302) || (code =? 303) || (code =? 307) || (code =? 308).
(** [readLimited]: an error of the body is seen unless the limit is passed before it. *)
Definition readLimited (a : answer) : res string :=
  fail_if maxOIDCResponseBytes <? str_len (Body a) with PlainError "dnsid: OIDC response exceeds bytes" ;;
  match BodyError a with Some e => Err e | None => Ok (Body a) end.

Section network.
Context {U : NetURL}.
Variable Do : list sent -> sent -> res answer.

Definition httpClientFor (allowHTTPLoopback : bool) (u : URL) : client :=
  if allowHTTPLoopback && str_eqb (Scheme u) "http" && isLocalhost (Hostname u) then LoopbackOnlyClient else GuardedClient.

Definition send (allowHTTPLoopback : bool) (method rawURL contentType body : string) : net answer := fun tr =>
  match url_Parse rawURL with
  | None => (Err (PlainError "parse"), tr)
  | Some u =>
      let q := {| via := httpClientFor allowHTTPLoopback u; q_Method := method; q_URL := rawURL; q_ContentType := contentType; q_Body := body |} in
      (Do tr q, tr ++ [q])
  end.

Definition getBody (allowHTTPLoopback : bool) (rawURL : string) : net string :=
  resp ← send allowHTTPLoopback "GET" rawURL EmptyString EmptyString;
  lift (
    fail_if isRedirect (StatusCode resp) with PlainError "dnsid: OIDC redirects are not allowed" ;;
    body ← readLimited resp;
    fail_if negb (StatusCode resp =? 200) with PlainError "dnsid: OIDC fetch failed: status" ;;
    Ok body).

(** [json.Unmarshal] into a [DiscoveryDocument]. *)
Definition Unmarshal_discovery (data : string) : res DiscoveryDocument :=
  j ← json_document data;
  match object_fields j with
  | None => Err type_error
  | Some fields =>
      match string_field "issuer" fields, string_field "token_endpoint" fields, string_field "jwks_uri" fields with
      | Some i, Some t, Some k => Ok {| d_Issuer := i; TokenEndpoint := t; JWKSURI := k |}
      | _, _, _ => Err type_error
      end
  end%string.

Definition DiscoverOIDCIssuer (c : Config) (issuer : string) : net DiscoveryDocument :=
  issuer ← lift (validateIssuerRoot issuer (AllowHTTPLoopbackIssuer c));
  body ← getBody (AllowHTTPLoopbackIssuer c) (String.append issuer "/.well-known/openid-configuration");
  lift (
    doc ← Unmarshal_discovery body;
    fail_if negb (str_eqb (d_Issuer doc) issuer) with verr "issuer_mismatch" "dnsid: OIDC discovery issuer mismatch" ;;
    validateSameOriginEndpoint (TokenEndpoint doc) issuer "token_endpoint" ;;
    validateSameOriginEndpoint (JWKSURI doc) issuer "jwks_uri" ;;
    Ok doc).
End network.

(** ** Claims and headers *)
Definition parseUnverifiedJWT (token : string) : res (gmap string value * gmap string value) :=
  let malformed {A} (r : res A) : res A := match r with Ok a => Ok a | Err _ => Err (verr "malformed_token" "dnsid: malformed token") end in
  '(_, header, payload) ← malformed (Compact token);
  h ← malformed (jose_DecodeObject header);
  c ← malformed (jose_DecodeObject payload);
  Ok (h, c).

Fixpoint audience_elements (l : list value) : option (list string) :=
  match l with
  | [] => Some []
  | VString s :: l => if is_empty s then None else rest ← audience_elements l; Some (s :: rest)
  | _ => None
  end.
(** [audienceList]; the strings of a refused list are never looked at. *)
Definition audienceList (v : option value) : option (list string) :=
  match v with
  | Some (VString x) => if is_empty x then None else Some [x]
  | Some (VArray []) => None
  | Some (VArray l) => audience_elements l
  | _ => None
  end.
Definition sole_audience (claims : gmap string value) (audience : string) : bool :=
  match audienceList (claims !! "aud"%string) with Some [a] => str_eqb a audience | _ => false end.

Definition validateProtectedHeader (header : gmap string value) : res unit :=
  fail_if is_empty (asString (header !! "alg")) || is_empty (asString (header !! "kid"))
    with verr "malformed_token" "dnsid: alg and kid strings are required" ;;
  fail_if match header !! "typ" with Some (VString _) | None => false | Some _ => true end
    with verr "malformed_token" "dnsid: typ must be a string" ;;
  fail_if negb (forallb (fun name => bool_decide (name ∈ ["alg"; "kid"; "typ"])) (map_to_list header).*1)
    with verr "malformed_token" "dnsid: unsupported OIDC token header" ;;
  Ok tt.

Definition validateTimes (now : time) (claims : gmap string value) (skew : Z) : res unit :=
  match NumericDate (claims !! "exp"%string) with
  | None => Err (verr "invalid_claims" "dnsid: OIDC token missing or invalid exp")
  | Some exp =>
      fail_if negb (before now exp) with verr "token_expired" "dnsid: token expired" ;;
      match claims !! "nbf"%string with
      | None => Ok tt
      | Some v =>
          match NumericDate (Some v) with
          | None => Err (verr "invalid_claims" "dnsid: OIDC token invalid nbf")
          | Some nbf => fail_if before (now + skew) nbf with verr "token_not_yet_valid" "dnsid: token not yet valid" ;; Ok tt
          end
      end ;;
      match NumericDate (claims !! "iat"%string) with
      | None => Err (verr "invalid_claims" "dnsid: OIDC token missing or invalid iat")
      | Some iat =>
          fail_if negb (after exp iat) with verr "invalid_claims" "dnsid: OIDC token exp must be after iat" ;;
          fail_if before (now + skew) iat with verr "token_not_yet_valid" "dnsid: token not yet valid" ;;
          Ok tt
      end
  end.

(** ** RSA keys: jwk.Parse, jwk.Export to [rsa.PublicKey], crypto/rsa *)
Class RsaLib (key : Type) := {
  jwk_Parse_text : string -> option (list key);
  RSAPublicKey : Type;
  export_rsa : key -> option RSAPublicKey;
  rsa_BitLen : RSAPublicKey -> Z;
  VerifyPKCS1v15 : RSAPublicKey -> string -> string -> bool     (* of a SHA-256 sum *)
}.

Section profile.
Context {key : Type} `{!KeyOps key} `{!JwkSetLib key} `{!RsaLib key} {I : Idna} {U : NetURL}.
Abbreviation VerifiedDomain := (VerifiedDomain key (LogReader (key:=key))).
Abbreviation IdentityResolver := (IdentityResolver (key:=key)).
Abbreviation KeyProvider := (KeyProvider (key:=key)).

Definition verifyRS256 (token : string) (k : key) : bool :=
  match split "." token with
  | [p0; p1; p2] =>
      match export_rsa k with
      | None => false
      | Some pub =>
          match Base64.decode false p2 with
          | None => false
          | Some sig => VerifyPKCS1v15 pub (sha256 (dot p0 p1)) sig
          end
      end
  | _ => false
  end.

Definition onlyKeyOp (ops : list string) (want : string) : bool :=
  negb (bool_decide (ops = [])) && forallb (fun op => str_eqb op want) ops.
Definition rs256SigningKeyEligible (k : key) : bool :=
  match key_algorithm k with Some v => str_eqb v "RS256" | None => true end
  && match key_usage k with Some use => str_eqb use "sig" | None => true end
  && match key_operations k with Some ops => onlyKeyOp ops "verify" | None => true end
  && match export_rsa k with Some pub => 2048 <=? rsa_BitLen pub | None => false end.

(** The loop of [lookupRS256SigningKey]. *)
Fixpoint lookup_keys (kid : string) (match_ : option key) (set : list key) : option key :=
  match set with
  | [] => match_
  | k :: set =>
      if negb (str_eqb (default EmptyString (key_id k)) kid) then lookup_keys kid match_ set
      else if bool_decide (is_Some match_) || negb (rs256SigningKeyEligible k) then None
      else lookup_keys kid (Some k) set
  end.
Definition lookupRS256SigningKey (set : list key) (kid alg : string) : option key :=
  if is_empty kid || negb (str_eqb alg "RS256") then None else lookup_keys kid None set.

(** ** The profile *)
Record Profile := {
  resolver : option IdentityResolver;
  localDomain : string;
  keys : option KeyProvider;
  cfg : Config
}.
Definition New (r : option IdentityResolver) (local : string) (kp : option KeyProvider) (c : Config) : Profile :=
  {| resolver := r;
     localDomain := if is_empty local then local else match NormalizeFQDN local with Ok d => d | Err _ => local end;
     keys := kp; cfg := c |}.

(** *** Assertions *)
Definition signJWT (kp : KeyProvider) (claims : gmap string value) : res string :=
  match kp_Active kp with
  | None => Err (ArgumentError "dnsid: KeyProvider has no active key")
  | Some k =>
      let kid := default EmptyString (key_id k) in
      let alg := default EmptyString (key_algorithm k) in
      fail_if is_empty kid || is_empty alg with ArgumentError "dnsid: active signing key missing kid or alg" ;;
      h ← json_Marshal (VObject {["alg" := VString alg; "kid" := VString kid; "typ" := VString "JWT"]}%string);
      p ← match json_Marshal (VObject claims) with
          | Ok p => Ok p
          | Err _ => Err (ArgumentError "dnsid: OIDC assertion claims are not JSON serializable")
          end;
      let input := dot (Base64.encode h) (Base64.encode p) in
      sig ← signature_of (kp_Sign kp input);
      Ok (dot input (Base64.encode (KeyRing.Signature sig)))
  end.

Definition reserved (name : string) : bool :=
  bool_decide (name ∈ ["iss"; "sub"; "aud"; "iat"; "exp"; "jti"; "fqdn"]%string).
Fixpoint add_claims (l : list (string * value)) (claims : gmap string value) : res (gmap string value) :=
  match l with
  | [] => Ok claims
  | (k, v) :: l =>
      fail_if reserved k with ArgumentError "dnsid: additionalClaims must not override reserved claim" ;;
      add_claims l (<[k := v]> claims)
  end.
Definition assertion_lifetime (c : Config) (opts : OIDCAssertionOptions) : Z :=
  if negb (a_Expiry opts =? 0) || expirySet opts then a_Expiry opts
  else if AssertionLifetime c <=? 0 then 5 * oidc_minute else AssertionLifetime c.
Definition maximum_lifetime (c : Config) : Z :=
  if MaxAssertionLifetime c <=? 0 then 15 * oidc_minute else MaxAssertionLifetime c.
Definition assertion_claims (domain issuer jti : string) (now exp : time) : gmap string value :=
  list_to_map [("iss", VString domain); ("sub", VString domain); ("aud", VArray [VString issuer]); ("iat", VInt (Unix now));
    ("exp", VInt (Unix exp)); ("jti", VString jti); ("fqdn", VString domain)]%string.

Definition CreateOIDCAssertion (p : Profile) (now : time) (rng : option string) (opts : OIDCAssertionOptions) : res string :=
  match keys p with
  | None => Err (ArgumentError "dnsid: local identity and KeyProvider are required")
  | Some kp =>
      fail_if is_empty (localDomain p) with ArgumentError "dnsid: local identity and KeyProvider are required" ;;
      validateConfig (cfg p) ;;
      issuer ← validateIssuerRoot (a_Issuer opts) (AllowHTTPLoopbackIssuer (cfg p));
      let lifetime := assertion_lifetime (cfg p) opts in
      fail_if (lifetime <=? 0) || (maximum_lifetime (cfg p) <? lifetime)
        with ArgumentError "dnsid: OIDC assertion expiry exceeds maximum lifetime" ;;
      fail_if Unix (now + lifetime) <=? Unix now with ArgumentError "dnsid: expiry is below timestamp resolution" ;;
      jti ← randomJTI rng;
      claims ← add_claims (map_to_list (AdditionalClaims opts)) (assertion_claims (localDomain p) issuer jti now (now + lifetime));
      signJWT kp claims
  end.

(** *** Exchanging *)
Variable Do : list sent -> sent -> res answer.

(** [int64] of a float64, and what the implementation makes of one that does not fit. *)
Variable int64_overflow : float64 -> Z.
Definition float_int64 (f : float64) : Z :=
  match f with
  | FZero _ => 0
  | FFinite neg m e =>
      let '(n, d) := float_ratio m e in
      let z := if neg then - (n / d) else n / d in
      if (min_int64 <=? z) && (z <=? max_int64) then z else int64_overflow f
  | _ => int64_overflow f
  end.

(** The assertion of an exchange: minted, or checked. *)
Definition exchange_assertion (p : Profile) (now : time) (rng : option string) (issuer given : string) : res string :=
  if is_empty given then
    CreateOIDCAssertion p now rng {| a_Issuer := issuer; a_Expiry := 0; expirySet := false; AdditionalClaims := ∅ |}
  else
    '(_, claims) ← match parseUnverifiedJWT given with
                   | Ok x => Ok x
                   | Err _ => Err (ArgumentError "dnsid: OIDC assertion must be a valid JWT")
                   end;
    fail_if negb (sole_audience claims issuer) with ArgumentError "dnsid: OIDC assertion audience must exactly match issuer" ;;
    Ok given.
Definition exchange_scope (c : Config) (scope : string) : string :=
  let scope := if is_empty scope then DefaultScope c else scope in
  if is_empty scope then "openid"%string else scope.

(** The answer of the token endpoint. *)
Definition read_token_response (resp : answer) : OIDCTokenResponse + exchange_failure :=
  if isRedirect (StatusCode resp) then inr (ExchangeFailed (PlainError "dnsid: OIDC token endpoint redirects are not allowed"))
  else match readLimited resp with
  | Err e => inr (ExchangeFailed e)
  | Ok body =>
      if negb (StatusCode resp =? 200) then
        let fields := match json_document body with Ok j => default [] (object_fields j) | Err _ => [] end in
        inr (TokenExchangeError (StatusCode resp) (lenient_field "error" fields) (lenient_field "error_description" fields))
      else match Unmarshal_map body with
      | Err e => inr (ExchangeFailed e)
      | Ok raw =>
          let text name := json_text_of (json_lookup name raw) in
          let tr := {| AccessToken := text "access_token"; IDToken := text "id_token"; TokenType := text "token_type";
                       ExpiresIn := match json_lookup "expires_in" raw with
                                    | Some (JNumber lit) => match Float64 lit with Some f => float_int64 f | None => 0 end
                                    | _ => 0
                                    end;
                       r_Scope := text "scope"; Raw := raw |}%string in
          if is_empty (AccessToken tr) then inr (ExchangeFailed (verr "invalid_claims" "dnsid: OIDC token response missing access_token"))
          else if negb (equal_fold (TokenType tr) "bearer") then inr (ExchangeFailed (verr "invalid_claims" "dnsid: OIDC token response token_type must be Bearer"))
          else inl tr
      end
  end.

Definition ExchangeOIDCToken (p : Profile) (now : time) (rng : option string) (opts : OIDCTokenExchangeOptions) (tr : list sent)
    : (OIDCTokenResponse + exchange_failure) * list sent :=
  let '(r, tr) :=
    (_ ← lift (fail_if is_empty (x_Audience opts) with ArgumentError "dnsid: audience is required" ;; Ok tt);
     doc ← DiscoverOIDCIssuer Do (cfg p) (x_Issuer opts);
     assertion ← lift (exchange_assertion p now rng (d_Issuer doc) (Assertion opts));
     send Do (AllowHTTPLoopbackIssuer (cfg p)) "POST" (TokenEndpoint doc) "application/x-www-form-urlencoded"
       (exchange_form assertion (x_Audience opts) (exchange_scope (cfg p) (x_Scope opts)))) tr in
  (match r with Ok resp => read_token_response resp | Err e => inr (ExchangeFailed e) end, tr).

Definition GetOIDCToken (p : Profile) (now : time) (rng : option string) (opts : OIDCTokenExchangeOptions) (tr : list sent) :=
  ExchangeOIDCToken p now rng {| x_Issuer := x_Issuer opts; x_Audience := x_Audience opts; x_Scope := x_Scope opts; Assertion := EmptyString |} tr.

(** *** Verifying *)
Record VerifiedOIDCSubject := {
  s_Issuer : string;
  s_Subject : string;
  s_Audience : string;
  s_VerifiedDomain : option VerifiedDomain;
  s_Claims : gmap string value
}.
(** The clock at the three checks of the times, and the context at the end. *)
Record verify_env := { now_first : time; now_signed : time; now_last : time; done_end : bool }.

(** The checks before anything is fetched. *)
Definition open_token (c : Config) (now : time) (token : string) (opts : VerifyOIDCTokenOptions)
    : res (string * gmap string value * gmap string value) :=
  validateConfig c ;;
  issuer ← validateIssuerRoot (v_Issuer opts) (AllowHTTPLoopbackIssuer c);
  fail_if negb (bool_decide (issuer ∈ AllowedIssuers c)) with verr "issuer_mismatch" "dnsid: OIDC issuer is not allowed" ;;
  fail_if is_empty (v_Audience opts) with ArgumentError "dnsid: audience is required" ;;
  '(header, claims) ← parseUnverifiedJWT token;
  fail_if negb (str_eqb (asString (claims !! "iss"%string)) issuer) with verr "issuer_mismatch" "dnsid: OIDC issuer mismatch" ;;
  fail_if negb (sole_audience claims (v_Audience opts)) with verr "audience_mismatch" "dnsid: OIDC audience mismatch" ;;
  validateProtectedHeader header ;;
  validateTimes now claims (clockSkew c) ;;
  let alg := asString (header !! "alg"%string) in
  let allowed := if bool_decide (AllowedTokenAlgorithms c = []) then ["RS256"%string] else AllowedTokenAlgorithms c in
  fail_if negb (bool_decide (alg ∈ allowed)) || negb (str_eqb alg "RS256")
    with verr "signature_invalid" "dnsid: OIDC algorithm not allowed or implemented" ;;
  Ok (issuer, header, claims).

(** The keys that the issuer publishes. *)
Definition issuer_keys (c : Config) (issuer : string) : net (list key) :=
  doc ← DiscoverOIDCIssuer Do c issuer;
  body ← getBody Do (AllowHTTPLoopbackIssuer c) (JWKSURI doc);
  lift (match jwk_Parse_text body with Some set => Ok set | None => Err (PlainError "jwk.Parse") end).

Definition check_signature (token : string) (header : gmap string value) (set : list key) : res unit :=
  match lookupRS256SigningKey set (asString (header !! "kid"%string)) (asString (header !! "alg"%string)) with
  | Some k => fail_if negb (verifyRS256 token k) with verr "signature_invalid" "dnsid: OIDC token signature invalid" ;; Ok tt
  | None => Err (verr "signature_invalid" "dnsid: OIDC token signature invalid")
  end.
Definition verify_subject (p : Profile) (opts : VerifyOIDCTokenOptions) (sub : string) : res (option VerifiedDomain) :=
  if default true (VerifyDnsidSubject opts) then
    match resolver p with
    | None => Err (ArgumentError "dnsid: IdentityResolver is required")
    | Some r => vd ← VerifyIdentity (Some r) sub (v_Peer opts); Ok (Some vd)
    end
  else Ok None.

Definition VerifyOIDCToken (p : Profile) (env : verify_env) (token : string) (opts : VerifyOIDCTokenOptions) : net VerifiedOIDCSubject :=
  '(issuer, header, claims) ← lift (open_token (cfg p) (now_first env) token opts);
  set ← issuer_keys (cfg p) issuer;
  lift (
    check_signature token header set ;;
    validateTimes (now_signed env) claims (clockSkew (cfg p)) ;;
    let sub := asString (claims !! "sub"%string) in
    fail_if is_empty sub with verr "invalid_claims" "dnsid: OIDC token missing sub" ;;
    vd ← verify_subject p opts sub;
    fail_if done_end env with ContextError ;;
    validateTimes (now_last env) claims (clockSkew (cfg p)) ;;
    Ok {| s_Issuer := issuer; s_Subject := sub; s_Audience := v_Audience opts; s_VerifiedDomain := vd; s_Claims := claims |}).
End profile.
