(* ===== verification/OidcSpec.v ===== *)
(** * OidcSpec: what a verified OIDC token is evidence of

    A token that [VerifyOIDCToken] accepts is current at every check, says what
    the caller asked for, and carries the signature of the one key of its
    identifier in the set that the allowed issuer itself published. What is
    exchanged goes to the origin of the issuer only, and an assertion is
    addressed to that issuer alone. *)

From Stdlib Require Import ZArith Lia Ascii String.
From S2P Require Import Prelude Codec Utf8 Numbers Jcs JsonRead JcsSpec Marshal Json JsonDoc Keys Fqdn TxtRecord Reference Evidence KeyRing Jwks Domain LogReader Manager Event NetHttp NetIP JoseUtil Token Jose JoseSpec JoseRound Oidc.

Open Scope Z_scope.

(** ** Computations over the network *)
Lemma net_bind_ok {A B} (m : net A) (f : A -> net B) tr b tr' :
  (m ≫= f) tr = (Ok b, tr') -> exists a tr1, m tr = (Ok a, tr1) /\ f a tr1 = (Ok b, tr').
Proof. unfold mbind, net_bind. destruct (m tr) as [[a|] tr1]; [|done]. intros H. by exists a, tr1. Qed.

Lemma net_bind_sent {A B} (m : net A) (f : A -> net B) tr r tr' :
  (m ≫= f) tr = (r, tr') ->
  exists rm tr1, m tr = (rm, tr1) /\ ((exists e, rm = Err e /\ r = Err e /\ tr' = tr1) \/ exists a, rm = Ok a /\ f a tr1 = (r, tr')).
Proof.
  unfold mbind, net_bind. destruct (m tr) as [[a|e] tr1]; intros H; [|injection H as <- <-].
  - exists (Ok a), tr1. split; [done|right]. by exists a.
  - exists (Err e), tr1. split; [done|left]. by exists e.
Qed.

Lemma lift_ok {A} (r : res A) tr a tr' : lift r tr = (Ok a, tr') -> r = Ok a /\ tr' = tr.
Proof. unfold lift. by intros [= -> ->]. Qed.

Section network.
Context {U : NetURL}.
Variable Do : list sent -> sent -> res answer.

(** The client a URL is fetched with. *)
Definition client_of (c : Config) (q : sent) : Prop :=
  exists u, url_Parse (q_URL q) = Some u /\
  (via q = LoopbackOnlyClient -> AllowHTTPLoopbackIssuer c = true /\ Scheme u = "http"%string /\ isLocalhost (Hostname u) = true).

(** What a step sent. *)
Definition sends {A} (m : net A) (P : sent -> Prop) : Prop :=
  forall tr r tr', m tr = (r, tr') -> exists new, tr' = tr ++ new /\ Forall P new.

Lemma sends_bind {A B} (m : net A) (f : A -> net B) P :
  sends m P -> (forall a, (exists tr tr', m tr = (Ok a, tr')) -> sends (f a) P) -> sends (m ≫= f) P.
Proof.
  intros Hm Hf tr r tr' (rm & tr1 & E & H)%net_bind_sent. destruct (Hm _ _ _ E) as (new & -> & Hn).
  destruct H as [(e & _ & _ & ->)|(a & -> & H)]; [by exists new|].
  edestruct (Hf a (ex_intro _ tr (ex_intro _ _ E)) _ _ _ H) as (new' & -> & Hn').
  exists (new ++ new'). rewrite app_assoc. split; [done|]. by apply Forall_app.
Qed.

Lemma sends_lift {A} (r : res A) P : sends (lift r) P.
Proof. intros tr r' tr' [= _ <-]. exists []. by rewrite app_nil_r. Qed.

Lemma sends_send c method url ctype body (P : sent -> Prop) :
  (forall q, q_URL q = url -> q_Method q = method -> q_ContentType q = ctype -> q_Body q = body -> client_of c q -> P q) ->
  sends (send Do (AllowHTTPLoopbackIssuer c) method url ctype body) P.
Proof.
  intros HP tr r tr'. unfold send. destruct (url_Parse url) as [u|] eqn:Eu; intros [= _ <-]; [|exists []; by rewrite app_nil_r].
  eexists. split; [done|]. constructor; [|constructor]. apply HP; try done. exists u. split; [done|]. cbn [via]. unfold httpClientFor.
  destruct (_ && _) eqn:E; [|done]. intros _. rewrite !andb_true_iff, str_eqb_eq in E. tauto.
Qed.

Lemma sends_getBody c url (P : sent -> Prop) :
  (forall q, q_URL q = url -> q_Method q = "GET"%string -> q_Body q = EmptyString -> client_of c q -> P q) ->
  sends (getBody Do (AllowHTTPLoopbackIssuer c) url) P.
Proof. intros HP. apply sends_bind; [apply sends_send; auto|]. intros a _. apply sends_lift. Qed.

(** *** Issuers and their documents *)
Lemma issuer_root raw allow r :
  validateIssuerRoot raw allow = Ok r ->
  r = raw /\ exists u, url_Parse raw = Some u /\ Host u <> EmptyString /\
  (Scheme u = "https"%string \/ allow = true /\ Scheme u = "http"%string /\ isLocalhost (Hostname u) = true).
Proof.
  unfold validateIssuerRoot. destruct (url_Parse raw) as [u|]; [|done]. destruct (_ || _) eqn:E1; [done|].
  destruct (_ && _) eqn:E2; [done|]. intros [= <-]. split; [done|]. exists u. split; [done|].
  rewrite !orb_false_iff in E1. split; [apply is_empty_false; tauto|].
  apply andb_false_iff in E2 as [E2|E2]; [left; by apply negb_false_iff, str_eqb_eq in E2|right].
  rewrite !orb_false_iff, !negb_false_iff, str_eqb_eq in E2. tauto.
Qed.

(** A URL of the issuer's origin. *)
Definition same_origin (raw issuer : string) : Prop :=
  exists u base, url_Parse raw = Some u /\ url_Parse issuer = Some base /\ Scheme u = Scheme base /\ Host u = Host base /\ User u = false.

Lemma endpoint_origin raw issuer name : validateSameOriginEndpoint raw issuer name = Ok tt -> same_origin raw issuer.
Proof.
  unfold validateSameOriginEndpoint. destruct (url_Parse raw) as [u|] eqn:Eu; [|done]. destruct (url_Parse issuer) as [base|] eqn:Eb; [|done].
  destruct (_ || _) eqn:E; [done|]. intros _. rewrite !orb_false_iff, !negb_false_iff, !str_eqb_eq in E. exists u, base. tauto.
Qed.

Definition well_known (issuer : string) : string := String.append issuer "/.well-known/openid-configuration".

Lemma discovered c issuer tr doc tr' :
  DiscoverOIDCIssuer Do c issuer tr = (Ok doc, tr') ->
  d_Issuer doc = issuer /\ same_origin (TokenEndpoint doc) issuer /\ same_origin (JWKSURI doc) issuer /\
  exists body, getBody Do (AllowHTTPLoopbackIssuer c) (well_known issuer) tr = (Ok body, tr') /\ Unmarshal_discovery body = Ok doc.
Proof.
  unfold DiscoverOIDCIssuer. intros (i & tr1 & [(-> & _)%issuer_root ->]%lift_ok & H)%net_bind_ok.
  apply net_bind_ok in H as (body & tr2 & Hb & [Hd ->]%lift_ok).
  destruct (Unmarshal_discovery body) as [d|] eqn:Ed; [|done]. cbn [mbind res_bind] in Hd.
  destruct (str_eqb (d_Issuer d) issuer) eqn:Ei; [|done]. apply str_eqb_eq in Ei. cbn [negb] in Hd.
  destruct (validateSameOriginEndpoint (TokenEndpoint d) _ _) as [[]|] eqn:E1; [|done].
  destruct (validateSameOriginEndpoint (JWKSURI d) _ _) as [[]|] eqn:E2; [|done]. injection Hd as <-.
  apply endpoint_origin in E1, E2. split_and!; try done. by exists body.
Qed.

Lemma sends_discovery c issuer :
  sends (DiscoverOIDCIssuer Do c issuer) (fun q => q_URL q = well_known issuer /\ q_Method q = "GET"%string /\ q_Body q = EmptyString /\ client_of c q).
Proof.
  unfold DiscoverOIDCIssuer. apply sends_bind; [apply sends_lift|]. intros i (tr & tr' & [(-> & _)%issuer_root _]%lift_ok).
  apply sends_bind; [by apply sends_getBody|]. intros. apply sends_lift.
Qed.
End network.

(** ** Claims *)
Definition sole (claims : gmap string value) (audience : string) : Prop :=
  audience <> EmptyString /\
  (claims !! "aud"%string = Some (VString audience) \/ claims !! "aud"%string = Some (VArray [VString audience])).

Lemma audience_elements_spec l auds : audience_elements l = Some auds -> l = VString <$> auds /\ Forall (fun a => a <> EmptyString) auds.
Proof.
  revert auds. induction l as [|v l IH]; intros auds; cbn [audience_elements]; [by intros [= <-]|].
  destruct v; try done. destruct (is_empty s) eqn:Es; [done|]. destruct (audience_elements l) as [rest|]; [|done].
  intros [= <-]. destruct (IH rest eq_refl) as [-> H]. apply is_empty_false in Es. by split; [|constructor].
Qed.

Lemma sole_audience_spec claims audience : sole_audience claims audience = true <-> sole claims audience.
Proof.
  unfold sole_audience, sole, audienceList. destruct (claims !! "aud"%string) as [v|]; [|split; [done|intros [_ [|]]; done]].
  destruct v; try (split; [done|intros [_ [[= ?]|[= ?]]]; done]).
  - destruct (is_empty s) eqn:Es.
    + apply is_empty_true in Es as ->. split; [done|]. intros [Hne [[= <-]|?]]; done.
    + rewrite str_eqb_eq. apply is_empty_false in Es. split; [intros ->; auto|]. by intros [_ [[= ->]|?]].
  - split.
    + destruct l as [|v l]; [done|]. destruct (audience_elements (v :: l)) as [auds|] eqn:E; [|done].
      destruct auds as [|a [|]]; try done. intros ->%str_eqb_eq. apply audience_elements_spec in E as [-> Ha].
      apply Forall_cons in Ha as [Ha _]. auto.
    + intros [Hne [?|[= ->]]]; [done|]. cbn [audience_elements]. rewrite (proj2 (is_empty_false _) Hne). cbn. apply str_eqb_refl.
Qed.

(** The times of a token are right at [now]. *)
Definition current (now skew : Z) (claims : gmap string value) : Prop :=
  exists exp iat, NumericDate (claims !! "exp"%string) = Some exp /\ NumericDate (claims !! "iat"%string) = Some iat /\
    now < exp /\ iat < exp /\ iat <= now + skew /\
    forall v, claims !! "nbf"%string = Some v -> exists nbf, NumericDate (Some v) = Some nbf /\ nbf <= now + skew.

Lemma validateTimes_spec now claims skew : validateTimes now claims skew = Ok tt <-> current now skew claims.
Proof.
  unfold validateTimes, current, before, after. destruct (NumericDate (claims !! "exp"%string)) as [exp|]; [|split; [done|intros (? & ? & ? & _); done]].
  destruct (Z.ltb_spec now exp); cbn [negb]; [|split; [done|intros (? & ? & [= <-] & _ & ? & _); lia]].
  destruct (claims !! "nbf"%string) as [v|] eqn:Ev.
  - destruct (NumericDate (Some v)) as [nbf|] eqn:En;
      [|split; [done|intros (? & ? & _ & _ & _ & _ & _ & Hn); destruct (Hn v eq_refl) as (nbf & E & _); congruence]].
    destruct (Z.ltb_spec (now + skew) nbf) as [Hlt|Hge]; cbn [mbind res_bind].
    { split; [done|]. intros (? & ? & _ & _ & _ & _ & _ & Hn). destruct (Hn v eq_refl) as (nbf' & E & ?). assert (nbf' = nbf) by congruence. lia. }
    destruct (NumericDate (claims !! "iat"%string)) as [iat|]; [|split; [done|intros (? & ? & _ & ? & _); done]].
    destruct (Z.ltb_spec iat exp); cbn [negb]; [|split; [done|intros (? & ? & [= <-] & [= <-] & _ & ? & _); lia]].
    destruct (Z.ltb_spec (now + skew) iat); [split; [done|intros (? & ? & _ & [= <-] & _ & _ & ? & _); lia]|].
    split; [intros _|done]. exists exp, iat. split_and!; try done. intros w [= <-]. by exists nbf.
  - cbn [mbind res_bind]. destruct (NumericDate (claims !! "iat"%string)) as [iat|]; [|split; [done|intros (? & ? & _ & ? & _); done]].
    destruct (Z.ltb_spec iat exp); cbn [negb]; [|split; [done|intros (? & ? & [= <-] & [= <-] & _ & ? & _); lia]].
    destruct (Z.ltb_spec (now + skew) iat); [split; [done|intros (? & ? & _ & [= <-] & _ & _ & ? & _); lia]|].
    split; [intros _|done]. exists exp, iat. split_and!; done.
Qed.

(** ** Verification *)
Section verification.
Context {key : Type} `{!KeyOps key} `{!JwkSetLib key} `{!RsaLib key} {I : Idna} {U : NetURL}.
Variable Do : list sent -> sent -> res answer.
Abbreviation Profile := (Profile (key:=key)).
Abbreviation VerifiedOIDCSubject := (VerifiedOIDCSubject (key:=key)).

(** The key of [set] that a token may be verified with: the only one with
    its identifier, for RS256 signatures and of at least 2048 bits. *)
Definition sole_signing_key (set : list key) (kid : string) (k : key) : Prop :=
  k ∈ set /\ key_id k = Some kid /\ (forall k', k' ∈ set -> key_id k' = Some kid -> k' = k) /\
  (exists pub, export_rsa k = Some pub /\ 2048 <= rsa_BitLen pub) /\
  (forall alg, key_algorithm k = Some alg -> alg = "RS256"%string) /\ (forall use, key_usage k = Some use -> use = "sig"%string) /\
  (forall ops, key_operations k = Some ops -> ops <> [] /\ Forall (fun op => op = "verify"%string) ops).

Lemma eligible_spec (k : key) :
  rs256SigningKeyEligible k = true ->
  (exists pub, export_rsa k = Some pub /\ 2048 <= rsa_BitLen pub) /\
  (forall alg, key_algorithm k = Some alg -> alg = "RS256"%string) /\ (forall use, key_usage k = Some use -> use = "sig"%string) /\
  (forall ops, key_operations k = Some ops -> ops <> [] /\ Forall (fun op => op = "verify"%string) ops).
Proof.
  unfold rs256SigningKeyEligible. rewrite !andb_true_iff. intros [[[Ha Hu] Ho] He]. split_and!.
  - destruct (export_rsa k) as [pub|]; [|done]. exists pub. split; [done|]. lia.
  - intros alg E. rewrite E in Ha. by apply str_eqb_eq.
  - intros use E. rewrite E in Hu. by apply str_eqb_eq.
  - intros ops E. rewrite E in Ho. unfold onlyKeyOp in Ho. apply andb_true_iff in Ho as [Hn Hf].
    apply negb_true_iff, bool_decide_eq_false in Hn. split; [done|]. rewrite forallb_forall in Hf.
    apply Forall_forall. intros op Hop%list_elem_of_In. by apply str_eqb_eq, Hf.
Qed.

Lemma lookup_keys_spec kid (set : list key) found k :
  lookup_keys kid found set = Some k ->
  (found = Some k /\ forall k', k' ∈ set -> default EmptyString (key_id k') <> kid) \/
  (found = None /\ exists before after, set = before ++ k :: after /\ default EmptyString (key_id k) = kid /\ rs256SigningKeyEligible k = true /\
    forall k', k' ∈ before ++ after -> default EmptyString (key_id k') <> kid).
Proof.
  revert found. induction set as [|k0 set IH]; intros found; cbn [lookup_keys].
  - intros ->. left. split; [done|]. by intros k' ?%not_elem_of_nil.
  - destruct (str_eqb (default EmptyString (key_id k0)) kid) eqn:Ek; cbn [negb].
    + apply str_eqb_eq in Ek. destruct found as [f|]; [done|]. cbn [bool_decide orb].
      destruct (rs256SigningKeyEligible k0) eqn:Ee; [|done]. cbn [negb].
      intros [[[= ->] Hn]|[? _]]%IH; [|done]. right. split; [done|]. exists [], set. by split_and!.
    + apply str_eqb_neq in Ek. intros [[-> Hn]|(-> & before & after & -> & H1 & H2 & H3)]%IH.
      * left. split; [done|]. intros k' [->|Hk]%elem_of_cons; [done|by apply Hn].
      * right. split; [done|]. exists (k0 :: before), after. split_and!; try done.
        intros k' [->|Hk]%elem_of_cons; [done|by apply H3].
Qed.

Lemma looked_up (set : list key) kid alg k :
  lookupRS256SigningKey set kid alg = Some k -> alg = "RS256"%string /\ sole_signing_key set kid k.
Proof.
  unfold lookupRS256SigningKey. destruct (is_empty kid) eqn:Ek; [done|]. destruct (str_eqb alg "RS256") eqn:Ea; [|done].
  apply is_empty_false in Ek. apply str_eqb_eq in Ea. cbn [orb negb].
  intros [[? _]|(_ & before & after & -> & H1 & H2 & H3)]%lookup_keys_spec; [done|]. split; [done|].
  assert (key_id k = Some kid) as Hid by (destruct (key_id k); unfold default, id in H1; by subst).
  split; [apply elem_of_app; right; by left|]. split; [done|]. split; [|by apply eligible_spec].
  intros k' [Hk|[->|Hk]%elem_of_cons]%elem_of_app Hid'; [exfalso|done|exfalso]; (apply (H3 k'); [set_solver|by rewrite Hid']).
Qed.

(** The signature of a token as verified by [verifyRS256]. *)
Definition rs256_signed (token : string) (k : key) : Prop :=
  exists p0 p1 p2 pub sig, token = dot (dot p0 p1) p2 /\ export_rsa k = Some pub /\ Base64.decode false p2 = Some sig /\
    VerifyPKCS1v15 pub (sha256 (dot p0 p1)) sig = true.

Lemma verified_signature token (k : key) : verifyRS256 token k = true -> rs256_signed token k.
Proof.
  unfold verifyRS256. pose proof (join_split "." token) as Hj. destruct (split "." token) as [|p0 [|p1 [|p2 [|]]]]; try done.
  destruct (export_rsa k) as [pub|] eqn:Ep; [|done]. destruct (Base64.decode false p2) as [sig|] eqn:Es; [|done]. intros Hv.
  exists p0, p1, p2, pub, sig. split_and!; try done. rewrite <- Hj. unfold dot. cbn [join]. by rewrite <- append_assoc, append_cons.
Qed.

(** The text of a token and what it says. *)
Definition says (token : string) (header claims : gmap string value) : Prop :=
  exists segments h p, Compact token = Ok (segments, h, p) /\ jose_DecodeObject h = Ok header /\ jose_DecodeObject p = Ok claims.

Lemma parsed_oidc_token token header claims : parseUnverifiedJWT token = Ok (header, claims) -> says token header claims.
Proof.
  unfold parseUnverifiedJWT. destruct (Compact token) as [[[segments h] p]|] eqn:Ec; [|done]. cbn [mbind res_bind].
  destruct (jose_DecodeObject h) as [hd|] eqn:Eh; [|done]. cbn [mbind res_bind]. destruct (jose_DecodeObject p) as [cl|] eqn:Ep; [|done].
  intros [= <- <-]. by exists segments, h, p.
Qed.

Lemma opened_token c now token (opts : VerifyOIDCTokenOptions) issuer header claims :
  open_token c now token opts = Ok (issuer, header, claims) ->
  issuer = v_Issuer opts /\ issuer ∈ AllowedIssuers c /\
  (exists u, url_Parse issuer = Some u /\
    (Scheme u = "https"%string \/ AllowHTTPLoopbackIssuer c = true /\ Scheme u = "http"%string /\ isLocalhost (Hostname u) = true)) /\
  says token header claims /\ asString (claims !! "iss"%string) = issuer /\ sole claims (v_Audience opts) /\
  current now (clockSkew c) claims /\ asString (header !! "alg"%string) = "RS256"%string /\
  (forall name, is_Some (header !! name) -> name ∈ ["alg"; "kid"; "typ"]%string) /\ (AllowedTokenAlgorithms c = [] \/ "RS256"%string ∈ AllowedTokenAlgorithms c).
Proof.
  unfold open_token. destruct (validateConfig c) as [[]|]; [|done]. cbn [mbind res_bind].
  destruct (validateIssuerRoot _ _) as [i|] eqn:Ei; [|done]. apply issuer_root in Ei as (-> & u & Hu & _ & Hs). cbn [mbind res_bind].
  destruct (bool_decide (v_Issuer opts ∈ _)) eqn:Ea; [|done]. apply bool_decide_eq_true in Ea. cbn [negb].
  destruct (is_empty (v_Audience opts)); [done|]. destruct (parseUnverifiedJWT token) as [[hd cl]|] eqn:Ep; [|done]. cbn [mbind res_bind].
  destruct (str_eqb (asString (cl !! "iss"%string)) _) eqn:Eiss; [|done]. apply str_eqb_eq in Eiss. cbn [negb].
  destruct (sole_audience cl _) eqn:Eaud; [|done]. apply sole_audience_spec in Eaud. cbn [negb].
  destruct (validateProtectedHeader hd) as [[]|] eqn:Eh; [|done]. cbn [mbind res_bind].
  destruct (validateTimes now cl _) as [[]|] eqn:Et; [|done]. apply validateTimes_spec in Et. cbn [mbind res_bind].
  destruct (_ || _) eqn:Ealg; [done|]. intros [= <- <- <-]. apply orb_false_iff in Ealg as [Eal Ers]. apply negb_false_iff, str_eqb_eq in Ers.
  rewrite Ers in Eal. split_and!; try done; [by exists u|by apply parsed_oidc_token| |].
  - intros name [v Hv]. unfold validateProtectedHeader in Eh. destruct (is_empty _ || _); [done|]. destruct (match hd !! "typ"%string with Some (VString _) | None => false | Some _ => true end); [done|].
       destruct (negb _) eqn:E; [done|]. apply negb_false_iff in E. rewrite forallb_forall in E. specialize (E name).
    rewrite bool_decide_eq_true in E. apply E, list_elem_of_In, list_elem_of_fmap. exists (name, v). by rewrite elem_of_map_to_list.
  - apply negb_false_iff, bool_decide_eq_true in Eal. destruct (bool_decide (AllowedTokenAlgorithms c = [])) eqn:En; [left; by apply bool_decide_eq_true in En|by right].
Qed.

(** C13: an accepted token is evidence of its issuer. It says that it is from
    the issuer asked for, which the configuration allows and which is reached
    over HTTPS or on this machine, and for the caller alone; its times hold at
    the first check, after its keys were fetched and at the end. It is signed
    with RS256 by the only key of its identifier in the set fetched from the
    issuer's origin, of at least 2048 bits and not meant for anything else.
    And its subject is a domain that the resolver verified, unless the caller
    did not want that. *)
Theorem verified_token_is_from_its_issuer (p : Profile) env token opts tr (s : VerifiedOIDCSubject) tr' :
  VerifyOIDCToken Do p env token opts tr = (Ok s, tr') ->
  s_Issuer s = v_Issuer opts /\ s_Audience s = v_Audience opts /\ v_Issuer opts ∈ AllowedIssuers (cfg p) /\
  (exists u, url_Parse (v_Issuer opts) = Some u /\
    (Scheme u = "https"%string \/ AllowHTTPLoopbackIssuer (cfg p) = true /\ Scheme u = "http"%string /\ isLocalhost (Hostname u) = true)) /\
  (forall now, now ∈ [now_first env; now_signed env; now_last env] -> current now (clockSkew (cfg p)) (s_Claims s)) /\
  asString (s_Claims s !! "iss"%string) = v_Issuer opts /\ sole (s_Claims s) (v_Audience opts) /\ done_end env = false /\
  (exists header doc body set k tr1, says token header (s_Claims s) /\ asString (header !! "alg"%string) = "RS256"%string /\
    DiscoverOIDCIssuer Do (cfg p) (v_Issuer opts) tr = (Ok doc, tr1) /\ same_origin (JWKSURI doc) (v_Issuer opts) /\
    getBody Do (AllowHTTPLoopbackIssuer (cfg p)) (JWKSURI doc) tr1 = (Ok body, tr') /\ jwk_Parse_text body = Some set /\
    sole_signing_key set (asString (header !! "kid"%string)) k /\ rs256_signed token k) /\
  s_Subject s = asString (s_Claims s !! "sub"%string) /\ s_Subject s <> EmptyString /\
  (VerifyDnsidSubject opts <> Some false -> exists vd, s_VerifiedDomain s = Some vd /\ VerifyIdentity (resolver p) (s_Subject s) (v_Peer opts) = Ok vd).
Proof.
  unfold VerifyOIDCToken. intros ([[issuer header] claims] & tr1 & [Ho ->]%lift_ok & H)%net_bind_ok.
  apply opened_token in Ho as (-> & Hallow & Hroot & Hsays & Hiss & Hsole & Hnow & Halg & _ & _).
  apply net_bind_ok in H as (set & tr2 & Hset & [H ->]%lift_ok).
  unfold issuer_keys in Hset. apply net_bind_ok in Hset as (doc & tr3 & Hdoc & Hset).
  apply net_bind_ok in Hset as (body & tr4 & Hbody & [Hparse ->]%lift_ok). destruct (jwk_Parse_text body) as [set'|] eqn:Eset; [|done]. injection Hparse as ->.
  unfold check_signature in H. destruct (lookupRS256SigningKey _ _ _) as [k|] eqn:Ek; [|done]. apply looked_up in Ek as [_ Hk].
  destruct (verifyRS256 token k) eqn:Ev; [|done]. apply verified_signature in Ev. cbn [negb mbind res_bind] in H.
  destruct (validateTimes (now_signed env) claims _) as [[]|] eqn:Et2; [|done]. apply validateTimes_spec in Et2. cbn [mbind res_bind] in H.
  destruct (is_empty (asString (claims !! "sub"%string))) eqn:Esub; [done|]. apply is_empty_false in Esub.
  destruct (verify_subject p opts _) as [vd|] eqn:Evd; [|done]. cbn [mbind res_bind] in H. destruct (done_end env) eqn:Edone; [done|].
  destruct (validateTimes (now_last env) claims _) as [[]|] eqn:Et3; [|done]. apply validateTimes_spec in Et3. cbn [mbind res_bind] in H. injection H as <-.
  cbn [s_Issuer s_Subject s_Audience s_VerifiedDomain s_Claims]. split_and!; try done.
  - intros now Hin. rewrite !elem_of_cons in Hin. by destruct Hin as [->|[->|[->|?%not_elem_of_nil]]].
  - pose proof (discovered _ _ _ _ _ _ Hdoc) as (_ & _ & Hjwks & _). exists header, doc, body, set, k, tr3. by split_and!.
  - intros Hv. unfold verify_subject in Evd. destruct (VerifyDnsidSubject opts) as [[]|]; [|done|]; cbn [default id] in Evd;
      (destruct (resolver p) as [r|]; [|done]); (destruct (VerifyIdentity (Some r) _ _) as [d|] eqn:Ed; [|done]); injection Evd as <-; by exists d.
Qed.
End verification.

(** ** Exchanges *)
Lemma unescape_query c s : unescape true (String.append (query_byte c) s) = (r ← unescape true s; Some (String c r)).
Proof. destruct c as [[] [] [] [] [] [] [] []]; reflexivity. Qed.
Lemma query_byte_clean c : has_byte "&" (query_byte c) = false /\ has_byte "=" (query_byte c) = false.
Proof. destruct c as [[] [] [] [] [] [] [] []]; by vm_compute. Qed.

Lemma QueryUnescape_escape s : QueryUnescape (QueryEscape s) = Some s.
Proof. unfold QueryUnescape. induction s as [|c s IH]; [done|]. cbn [QueryEscape]. by rewrite unescape_query, IH. Qed.
Lemma QueryEscape_clean s : has_byte "&" (QueryEscape s) = false /\ has_byte "=" (QueryEscape s) = false.
Proof.
  induction s as [|c s [IH1 IH2]]; [done|]. cbn [QueryEscape]. destruct (query_byte_clean c) as [H1 H2].
  by rewrite !has_byte_append, H1, H2, IH1, IH2.
Qed.

(** The value of a field of a form, as a server reads it. *)
Fixpoint field_value (name : string) (fields : list string) : option string :=
  match fields with
  | [] => None
  | f :: fields =>
      match cut "=" f with
      | Some (n, v) => if str_eqb n name then QueryUnescape v else field_value name fields
      | None => field_value name fields
      end
  end.
Definition form_value (name body : string) : option string := field_value name (split "&" body).

Lemma field_cut name value : has_byte "=" name = false -> cut "=" (form_field name value) = Some (name, QueryEscape value).
Proof. intros H. by apply cut_append. Qed.

Lemma exchange_form_reads assertion audience scope :
  form_value "assertion" (exchange_form assertion audience scope) = Some assertion /\
  form_value "audience" (exchange_form assertion audience scope) = Some audience /\
  form_value "grant_type" (exchange_form assertion audience scope) = Some grantJWTBearer /\
  form_value "scope" (exchange_form assertion audience scope) = Some scope.
Proof.
  unfold form_value, exchange_form. rewrite split_join; [|done|].
  - cbn [field_value]. rewrite !field_cut by done. cbn [str_eqb bool_decide decide_rel]. rewrite !QueryUnescape_escape. done.
  - assert (forall name value, has_byte "&" name = false -> has_byte "&" (form_field name value) = false) as H.
    { intros name value Hn. unfold form_field. rewrite has_byte_append, has_byte_cons, Hn. apply QueryEscape_clean. }
    repeat (constructor; [by apply H|]). constructor.
Qed.

Section exchange.
Context {key : Type} `{!KeyOps key} `{!JwkSetLib key} `{!RsaLib key} {I : Idna} {U : NetURL}.
Variable Do : list sent -> sent -> res answer.
Variable int64_overflow : float64 -> Z.
Abbreviation Profile := (Profile (key:=key)).
Abbreviation KeyProvider := (KeyProvider (key:=key)).

Definition minting (issuer : string) : OIDCAssertionOptions :=
  {| a_Issuer := issuer; a_Expiry := 0; expirySet := false; AdditionalClaims := ∅ |}.

(** The assertion that may be sent to an issuer. *)
Definition assertion_for (p : Profile) (now : time) (rng : option string) (issuer given assertion : string) : Prop :=
  given = EmptyString /\ CreateOIDCAssertion p now rng (minting issuer) = Ok assertion \/
  assertion = given /\ exists header claims, says given header claims /\ sole claims issuer.

Lemma exchanged_assertion (p : Profile) now rng issuer given assertion :
  exchange_assertion p now rng issuer given = Ok assertion -> assertion_for p now rng issuer given assertion.
Proof.
  unfold exchange_assertion. destruct (is_empty given) eqn:Eg; [apply is_empty_true in Eg; by left|].
  destruct (parseUnverifiedJWT given) as [[h c]|] eqn:Ep; [|done]. cbn [mbind res_bind]. destruct (sole_audience c issuer) eqn:Es; [|done].
  intros [= <-]. right. split; [done|]. exists h, c. split; [by apply parsed_oidc_token|by apply sole_audience_spec].
Qed.

Definition lookup_of (p : Profile) (issuer : string) (q : sent) : Prop :=
  q_URL q = well_known issuer /\ q_Method q = "GET"%string /\ q_Body q = EmptyString /\ client_of (cfg p) q.
Definition grant_of (p : Profile) (now : time) (rng : option string) (opts : OIDCTokenExchangeOptions) (q : sent) : Prop :=
  same_origin (q_URL q) (x_Issuer opts) /\ q_Method q = "POST"%string /\ client_of (cfg p) q /\
  form_value "audience" (q_Body q) = Some (x_Audience opts) /\ form_value "grant_type" (q_Body q) = Some grantJWTBearer /\
  exists assertion, form_value "assertion" (q_Body q) = Some assertion /\ assertion_for p now rng (x_Issuer opts) (Assertion opts) assertion.

Lemma usable_response resp t :
  read_token_response int64_overflow resp = inl t -> AccessToken t <> EmptyString /\ equal_fold (TokenType t) "bearer" = true /\ StatusCode resp = 200.
Proof.
  unfold read_token_response. destruct (isRedirect _); [done|]. destruct (readLimited resp) as [body|]; [|done].
  destruct (StatusCode resp =? 200) eqn:Es; [|done]. apply Z.eqb_eq in Es. cbn [negb]. destruct (Unmarshal_map body) as [raw|]; [|done].
  cbn [AccessToken TokenType]. destruct (is_empty (json_text_of _)) eqn:Ea; [done|]. destruct (negb (equal_fold _ _)) eqn:Et; [done|].
  intros [= <-]. cbn [AccessToken TokenType]. apply is_empty_false in Ea. apply negb_false_iff in Et. done.
Qed.

(** C21: an exchange talks to the issuer only. It asks for the issuer's document
    and then, at most once, posts to a URL of the issuer's origin; what it
    posts is an assertion made for this issuer, or the one given when its sole
    audience is the issuer, and reads back unchanged on the other side. The
    client that dials this machine is used for local issuers only, where the
    configuration allows it; a response is a bearer token. *)
Theorem exchanges_stay_with_the_issuer (p : Profile) now rng opts tr r tr' :
  ExchangeOIDCToken Do int64_overflow p now rng opts tr = (r, tr') ->
  exists lookups grants, tr' = tr ++ lookups ++ grants /\ Forall (lookup_of p (x_Issuer opts)) lookups /\
    (List.length grants <= 1)%nat /\ Forall (grant_of p now rng opts) grants /\
    forall t, r = inl t -> (List.length grants = 1)%nat /\ AccessToken t <> EmptyString /\ equal_fold (TokenType t) "bearer" = true.
Proof.
  unfold ExchangeOIDCToken. match goal with |- (let '(_, _) := ?m in _) = _ -> _ => destruct m as [r0 tr0] eqn:E end. intros [= <- <-].
  assert (forall e, r0 = Err e -> forall t, match r0 with Ok resp => read_token_response int64_overflow resp | Err e => inr (ExchangeFailed e) end = inl t -> False) as Herr.
  { by intros e ->. }
  apply net_bind_sent in E as (r1 & tr1 & [= <- <-] & E).
  destruct E as [(e & _ & -> & ->)|([] & _ & E)]; [exists [], []; rewrite app_nil_r; split_and!; try done; cbn; lia|].
  apply net_bind_sent in E as (r2 & tr2 & Ed & E). pose proof (sends_discovery Do (cfg p) (x_Issuer opts) _ _ _ Ed) as (lookups & -> & Hl).
  destruct E as [(e & _ & -> & ->)|(doc & -> & E)]; [exists lookups, []; rewrite app_nil_r; split_and!; try done; cbn; lia|].
  apply discovered in Ed as (Hi & Ht & _ & _). apply net_bind_sent in E as (r3 & tr3 & [= <- <-] & E).
  destruct E as [(e & _ & -> & ->)|(assertion & Ha & E)]; [exists lookups, []; rewrite app_nil_r; split_and!; try done; cbn; lia|].
  rewrite Hi in Ha. apply exchanged_assertion in Ha.
  pose proof (exchange_form_reads assertion (x_Audience opts) (exchange_scope (cfg p) (x_Scope opts))) as (F1 & F2 & F3 & _).
  pose proof (sends_send Do (cfg p) "POST" (TokenEndpoint doc) "application/x-www-form-urlencoded"
    (exchange_form assertion (x_Audience opts) (exchange_scope (cfg p) (x_Scope opts))) (grant_of p now rng opts)) as Hs.
  destruct (Hs) with (2 := E) as (grants & -> & Hg).
  { intros q Hu Hm _ Hb Hc. unfold grant_of. rewrite Hu, Hb. split_and!; try done. by exists assertion. }
  exists lookups, grants. rewrite <- app_assoc. split; [done|]. split; [done|].
  unfold send in E. destruct (url_Parse (TokenEndpoint doc)) as [u|].
  - injection E as <- E. apply app_inv_head in E as <-. split; [done|]. split; [done|].
    intros t. destruct (Do _ _) as [resp|]; [|done]. intros (H1 & H2 & _)%usable_response. done.
  - injection E as <- E. rewrite <- (app_nil_r (tr ++ lookups)) in E at 1. apply app_inv_head in E as <-. split_and!; [cbn; lia|done|done].
Qed.
End exchange.

(** ** Assertions read back *)
Lemma add_claims_spec l m m' :
  NoDup l.*1 -> add_claims l m = Ok m' ->
  m' = list_to_map l ∪ m /\ Forall (fun kv => reserved kv.1 = false) l.
Proof.
  revert m. induction l as [|[k v] l IH]; intros m Hnd; cbn [add_claims].
  - intros [= <-]. split; [|constructor]. cbn. by rewrite (left_id_L ∅ (∪)).
  - cbn in Hnd. apply NoDup_cons in Hnd as [Hk Hnd]. destruct (reserved k) eqn:Er; [done|]. intros [-> Hl]%IH; [|done].
    split; [|by constructor]. cbn. rewrite <- insert_union_r; [by rewrite insert_union_l|].
    by apply not_elem_of_list_to_map_1.
Qed.

Section created.
Context {key : Type} `{!KeyOps key} `{!JwkSetLib key} `{!RsaLib key} {I : Idna} {U : NetURL}.
Abbreviation Profile := (Profile (key:=key)).
Abbreviation KeyProvider := (KeyProvider (key:=key)).

Definition jws_header (alg kid : string) : gmap string value :=
  {["alg" := VString alg; "kid" := VString kid; "typ" := VString "JWT"]}%string.

Lemma signed_assertion (kp : KeyProvider) claims tok :
  signJWT kp claims = Ok tok ->
  exists k kid alg h p sig, kp_Active kp = Some k /\ key_id k = Some kid /\ key_algorithm k = Some alg /\ kid <> EmptyString /\ alg <> EmptyString /\
    json_Marshal (VObject (jws_header alg kid)) = Ok h /\ json_Marshal (VObject claims) = Ok p /\
    kp_Sign kp (dot (Base64.encode h) (Base64.encode p)) = Ok (Some sig) /\ tok = compact h p (KeyRing.Signature sig).
Proof.
  unfold signJWT. destruct (kp_Active kp) as [k|]; [|done]. destruct (is_empty _ || is_empty _) eqn:Ee; [done|].
  apply orb_false_iff in Ee as [Ek%is_empty_false Ea%is_empty_false].
  assert (exists kid alg, key_id k = Some kid /\ key_algorithm k = Some alg) as (kid & alg & Eid & Ealg).
  { destruct (key_id k) as [kid|]; [|by destruct Ek]. destruct (key_algorithm k) as [alg|]; [|by destruct Ea]. by exists kid, alg. }
  rewrite Eid, Ealg in *. change (default EmptyString (Some ?x)) with x in *. change {["alg"%string := VString alg; "kid"%string := VString kid; "typ"%string := VString "JWT"]} with (jws_header alg kid).
  destruct (json_Marshal (VObject (jws_header alg kid))) as [h|] eqn:Eh; [|discriminate]. cbn [mbind res_bind].
  destruct (json_Marshal (VObject claims)) as [p|] eqn:Ep; [|discriminate]. cbn [mbind res_bind].
  destruct (kp_Sign kp _) as [[sig|]|] eqn:Es; [|discriminate..]. cbn [signature_of mbind res_bind]. intros [= <-].
  exists k, kid, alg, h, p, sig. split_and!; try assumption; reflexivity.
Qed.

Lemma decode_small m t raw :
  json_Marshal (VObject m) = Ok t -> utf8_only (VObject m) = true -> (height (VObject m) <= 64)%nat -> str_len t <= MaxPayloadBytes ->
  raw = as_read <$> m -> all_floats (VObject raw) = true -> jose_DecodeObject t = Ok raw.
Proof.
  intros Ht Hu Hh Hl -> Hf. unfold jose_DecodeObject. rewrite (proj2 (Z.ltb_ge _ _) Hl), (decode_marshalled _ _ Ht Hu Hh).
  cbn [mbind res_bind]. by rewrite Hf.
Qed.

Lemma marshal_nonempty m t : json_Marshal (VObject m) = Ok t -> 0 < str_len t.
Proof. cbn [json_Marshal]. destruct (json_members _ _ _) as [x|]; [|done]. intros [= <-]. unfold str_len. cbn [String.length]. lia. Qed.

Lemma length_pos s : s <> EmptyString -> 0 < str_len s.
Proof. destruct s as [|c s]; [done|]. unfold str_len. cbn [String.length]. lia. Qed.

(** The claims of an assertion satisfy what each of their sources does. *)
Lemma assertion_claims_all (P : string -> value -> Prop) domain issuer jti iat exp (extra : gmap string value) :
  P "iss"%string (VString domain) -> P "sub"%string (VString domain) -> P "aud"%string (VArray [VString issuer]) ->
  P "iat"%string (VInt (Unix iat)) -> P "exp"%string (VInt (Unix exp)) -> P "jti"%string (VString jti) -> P "fqdn"%string (VString domain) ->
  (forall k v, extra !! k = Some v -> P k v) ->
  forall k v, (extra ∪ assertion_claims domain issuer jti iat exp) !! k = Some v -> P k v.
Proof.
  intros P1 P2 P3 P4 P5 P6 P7 Hx k v [H|[_ H]]%lookup_union_Some_raw; [by apply Hx|].
  unfold assertion_claims in H. apply elem_of_list_to_map_2 in H. rewrite !elem_of_cons in H.
  destruct H as [[= -> ->]|[[= -> ->]|[[= -> ->]|[[= -> ->]|[[= -> ->]|[[= -> ->]|[[= -> ->]|[]%not_elem_of_nil]]]]]]]; done.
Qed.

Lemma header_decodes alg kid h :
  ValidString kid = true -> ValidString alg = true -> json_Marshal (VObject (jws_header alg kid)) = Ok h -> str_len h <= MaxPayloadBytes ->
  jose_DecodeObject h = Ok (jws_header alg kid).
Proof.
  intros Vk Va Hh Hl. apply (decode_small (jws_header alg kid)); [exact Hh| |vm_compute; lia|exact Hl|reflexivity|reflexivity].
  apply utf8_members. intros n v Hn. unfold jws_header in Hn. rewrite !lookup_insert_Some, lookup_singleton_Some in Hn.
  clear Hh. by destruct Hn as [[<- <-]|[_ [[<- <-]|[_ [<- <-]]]]].
Qed.

Lemma claims_decode domain issuer jti now later extra data :
  ValidString domain = true -> ValidString issuer = true -> ValidString jti = true -> portable extra ->
  0 <= Unix now < 2 ^ 53 -> 0 <= Unix later < 2 ^ 53 ->
  json_Marshal (VObject (extra ∪ assertion_claims domain issuer jti now later)) = Ok data -> str_len data <= MaxPayloadBytes ->
  jose_DecodeObject data = Ok (as_read <$> (extra ∪ assertion_claims domain issuer jti now later)).
Proof.
  intros Vd Vi Vj (Hu & Hh & Hf) Hn He Hm Hl. eapply decode_small; [exact Hm| | |exact Hl|reflexivity|].
  - apply utf8_members, assertion_claims_all; try (split; [reflexivity|]; cbn [utf8_only forallb]; rewrite ?Vd, ?Vi, ?Vj; reflexivity).
    intros n v. by apply utf8_object.
  - apply height_le, (assertion_claims_all (fun _ v => (S (height v) <= 64)%nat)); try (cbn; lia).
    intros n v Hx. apply height_object in Hx. lia.
  - apply floats_members. intros n v'. rewrite lookup_fmap. destruct (_ !! n) as [v|] eqn:En; [|discriminate]. intros [= <-]. revert n v En.
    apply (assertion_claims_all (fun _ v => all_floats (as_read v) = true)); try reflexivity; try (apply NumericDate_int; lia).
    intros n v Hx. apply (proj2 (floats_members (as_read <$> extra)) Hf n). by rewrite lookup_fmap, Hx.
Qed.

(** A claim of the profile, where the additional ones do not reserve it. *)
Lemma own_claim extra domain issuer jti now later name v :
  (forall n, is_Some (extra !! n) -> reserved n = false) -> reserved name = true ->
  assertion_claims domain issuer jti now later !! name = Some v ->
  (as_read <$> (extra ∪ assertion_claims domain issuer jti now later)) !! name = Some (as_read v).
Proof.
  intros Hres Hr Hv. rewrite lookup_fmap. destruct (extra !! name) as [x|] eqn:E.
  - rewrite Hres in Hr; [discriminate|by exists x].
  - by rewrite lookup_union_r, Hv.
Qed.

Lemma claims_current extra domain issuer jti now later t skew :
  (forall n, is_Some (extra !! n) -> reserved n = false) -> extra !! "nbf"%string = None ->
  0 <= Unix now -> Unix now < Unix later < 2 ^ 53 -> unix_time (Unix now) <= t + skew -> t < unix_time (Unix later) ->
  current t skew (as_read <$> (extra ∪ assertion_claims domain issuer jti now later)).
Proof.
  intros Hres Hnbf Hn Hl Hs Ht. exists (unix_time (Unix later)), (unix_time (Unix now)).
  rewrite (own_claim _ _ _ _ _ _ "exp" (VInt (Unix later)) Hres eq_refl eq_refl), (own_claim _ _ _ _ _ _ "iat" (VInt (Unix now)) Hres eq_refl eq_refl).
  cbn [as_read]. split; [apply NumericDate_int; lia|]. split; [apply NumericDate_int; lia|].
  split; [exact Ht|]. split; [unfold unix_time, second; lia|]. split; [exact Hs|]. intros v. rewrite lookup_fmap, lookup_union_r by exact Hnbf.
  intros Hv. vm_compute in Hv. discriminate.
Qed.

(** C22: an assertion reads back as what it was made of, provided that domain,
    issuer, kid and algorithm are UTF-8 text, the signature is not empty, the
    additional claims are portable, the times fit 53 bits and the token is at
    most 16 KiB: the header names the active key and nothing else, the claims
    are those of the profile and the additional ones, none of them replaced. It
    is addressed to the issuer alone, and another exchange with the same issuer
    takes it as it is. It is current from its second on until it expires if no
    [nbf] was added to its claims, which the creator allows. *)
Theorem created_assertion_reads_back (p : Profile) (kp : KeyProvider) now rng opts tok :
  keys p = Some kp -> CreateOIDCAssertion p now (Some rng) opts = Ok tok ->
  (forall m sig, kp_Sign kp m = Ok (Some sig) -> KeyRing.Signature sig <> EmptyString) ->
  (forall k, kp_Active kp = Some k -> forall s, key_id k = Some s \/ key_algorithm k = Some s -> ValidString s = true) ->
  ValidString (localDomain p) = true -> ValidString (a_Issuer opts) = true -> a_Issuer opts <> EmptyString -> portable (AdditionalClaims opts) ->
  0 <= Unix now -> Unix (now + assertion_lifetime (cfg p) opts) < 2 ^ 53 -> str_len tok <= MaxHeaderBytes ->
  exists header claims, says tok header claims /\
    (exists k kid alg, kp_Active kp = Some k /\ key_id k = Some kid /\ key_algorithm k = Some alg /\ header = jws_header alg kid) /\
    claims = as_read <$> (AdditionalClaims opts ∪ assertion_claims (localDomain p) (a_Issuer opts) (Base64.encode rng) now (now + assertion_lifetime (cfg p) opts)) /\
    (forall name, is_Some (AdditionalClaims opts !! name) -> reserved name = false) /\
    sole claims (a_Issuer opts) /\
    (AdditionalClaims opts !! "nbf"%string = None -> forall t skew,
       unix_time (Unix now) <= t + skew -> t < unix_time (Unix (now + assertion_lifetime (cfg p) opts)) -> current t skew claims) /\
    forall now' rng', exchange_assertion p now' rng' (a_Issuer opts) tok = Ok tok.
Proof.
  intros Hkp Hc Hsig Hkey Vd Vi Hine (Hxu & Hxh & Hxf) Hnow Hexp Hlen. unfold CreateOIDCAssertion in Hc. rewrite Hkp in Hc.
  destruct (is_empty (localDomain p)); [done|]. destruct (validateConfig (cfg p)) as [[]|]; [|done]. cbn [mbind res_bind] in Hc.
  destruct (validateIssuerRoot _ _) as [i|] eqn:Ei; [|discriminate]. apply issuer_root in Ei as (-> & _). cbn [mbind res_bind] in Hc.
  destruct ((_ <=? 0) || _); [done|]. set (later := now + assertion_lifetime (cfg p) opts) in *.
  destruct (Z.leb_spec (Unix later) (Unix now)) as [|Hlt]; [done|]. cbn [randomJTI mbind res_bind] in Hc.
  destruct (add_claims _ _) as [claims|] eqn:Ec; [|done]. apply add_claims_spec in Ec as [Hcl Hres]; [|apply NoDup_fst_map_to_list].
  rewrite list_to_map_to_list in Hcl. cbn [mbind res_bind] in Hc.
  apply signed_assertion in Hc as (k & kid & alg & h & data & sig & Hk & Hid & Halg & Hkne & Hane & Hh & Hp & Hs & ->).
  pose proof (Hsig _ _ Hs) as Hspos%length_pos.
  pose proof (marshal_nonempty _ _ Hh) as Hhpos. pose proof (short_within _ _ _ Hlen Hhpos Hspos) as Hw. pose proof (compact_accepted _ _ _ Hw) as Hcompact.
  destruct Hw as (_ & [_ Hhl] & Hdl & _). change MaxHeaderBytes with 16384 in Hhl.
  assert (jose_DecodeObject h = Ok (jws_header alg kid)) as Hdh.
  { apply (header_decodes _ _ h); [by apply (Hkey k Hk); left|by apply (Hkey k Hk); right|exact Hh|change MaxPayloadBytes with 786432; lia]. }
  assert (forall name, is_Some (AdditionalClaims opts !! name) -> reserved name = false) as Hres'.
  { intros name [v Hv]. rewrite Forall_forall in Hres. apply (Hres (name, v)). by apply elem_of_map_to_list. }
  rewrite Hcl in Hp. assert (0 <= Unix now < 2 ^ 53 /\ 0 <= Unix later < 2 ^ 53) as [Hn53 Hl53] by lia.
  pose proof (claims_decode _ _ _ _ _ _ _ Vd Vi (encoded_valid rng) (conj Hxu (conj Hxh Hxf)) Hn53 Hl53 Hp Hdl) as Hdd.
  set (claims' := as_read <$> (AdditionalClaims opts ∪ assertion_claims (localDomain p) (a_Issuer opts) (Base64.encode rng) now later)) in *.
  assert (sole claims' (a_Issuer opts)) as Hsole.
  { split; [exact Hine|]. right.
    exact (own_claim (AdditionalClaims opts) (localDomain p) (a_Issuer opts) (Base64.encode rng) now later "aud" (VArray [VString (a_Issuer opts)]) Hres' eq_refl eq_refl). }
  exists (jws_header alg kid), claims'. split; [exact (ex_intro _ _ (ex_intro _ h (ex_intro _ data (conj Hcompact (conj Hdh Hdd)))))|].
  split; [exists k, kid, alg; split_and!; assumption || reflexivity|]. split; [reflexivity|]. split; [exact Hres'|].
  split; [exact Hsole|]. split.
  - intros Hnbf t skew. apply claims_current; [exact Hres'|exact Hnbf|lia|lia].
  - intros now' rng'. unfold exchange_assertion, parseUnverifiedJWT. rewrite Hcompact. cbn [mbind res_bind]. rewrite Hdh. cbn [mbind res_bind]. rewrite Hdd. cbn [mbind res_bind].
    apply sole_audience_spec in Hsole. rewrite Hsole. cbn [negb].
    destruct (is_empty (compact h data (KeyRing.Signature sig))) eqn:E; [|reflexivity]. exfalso. apply is_empty_true in E. unfold compact, dot in E. by destruct (Base64.encode h).
Qed.
End created.
