(* ===== verification/JoseDemo.v ===== *)
(** * JoseDemo: tokens between two domains

    A JWT, a JWS and a run of forged tokens between the two domains of
    HttpDemo.v, for the theorems of JoseSpec.v and JoseRound.v, and a token
    library whose tokens keep their claims in a record. *)

From Stdlib Require Import ZArith Lia Ascii String.
From S2P Require Import Prelude Codec Utf8 Numbers Jcs JsonRead JcsSpec Marshal Json Keys Fqdn TxtRecord Evidence KeyRing Jwks Domain LogReader Manager Event Demo ClientDemo ManagerDemo HttpDemo JoseUtil Token Jose JoseSpec JoseRound.

Open Scope Z_scope.

(** ** A token library *)
Record token := Token {
  k_iss : string; k_sub : string; k_aud : list string;
  k_iat : time; k_nbf : time; k_exp : time; k_jti : string;
  k_private : gmap string value
}.
#[local] Instance demo_jwt : JwtLib := {
  Tok := token;
  tok_Build i s a iat nbf exp jti :=
    Ok (Token i s a (unix_time (Unix iat)) (unix_time (Unix nbf)) (unix_time (Unix exp)) jti ∅);
  tok_Set t k v :=
    Ok (Token (k_iss t) (k_sub t) (k_aud t) (k_iat t) (k_nbf t) (k_exp t) (k_jti t) (<[k := v]> (k_private t)));
  tok_Issuer t := Some (k_iss t);
  tok_Subject t := Some (k_sub t);
  tok_Audience t := Some (k_aud t);
  tok_Expiration t := Some (k_exp t);
  tok_IssuedAt t := Some (k_iat t);
  tok_NotBefore t := Some (k_nbf t);
  tok_JwtID t := Some (k_jti t);
  tok_Keys t := standardClaims ++ (map_to_list (k_private t)).*1;
  tok_Get t k := k_private t !! k
}.

Lemma Unix_of_unix z : Unix (unix_time z) = z.
Proof. unfold Unix, unix_time. rewrite Z.div_mul by done. lia. Qed.

#[local] Instance demo_jwt_spec : JwtSpec demo_jwt.
Proof.
  split.
  - intros i s a iat nbf exp jti t [= <-]. split.
    + unfold registered, same_second. cbn. split_and!; try done; eexists; (split; [done|apply Unix_of_unix]).
    + intros k Hk. change (k ∈ standardClaims) in Hk. unfold standard. by apply bool_decide_eq_true.
  - intros t k v t' _ [= <-]. split; [by intros|]. split_and!.
    + intros k'. cbn [tok_Keys demo_jwt k_private]. rewrite !elem_of_app, !list_elem_of_fmap. split.
      * intros [H|([k1 v1] & -> & Hin%elem_of_map_to_list)]; [by right; left|]. cbn [fst].
        apply lookup_insert_Some in Hin as [[<- _]|[_ Hin]]; [by left|right; right]. exists (k1, v1). by rewrite elem_of_map_to_list.
      * intros [->|[H|([k1 v1] & -> & Hin%elem_of_map_to_list)]]; [right|by left|right].
        -- exists (k, v). rewrite elem_of_map_to_list. split; [done|apply lookup_insert_eq].
        -- cbn [fst]. destruct (decide (k = k1)) as [->|Hne].
           ++ exists (k1, v). rewrite elem_of_map_to_list. split; [done|apply lookup_insert_eq].
           ++ exists (k1, v1). rewrite elem_of_map_to_list. split; [done|by rewrite lookup_insert_ne].
    + cbn. apply lookup_insert_eq.
    + intros k' Hne. cbn. by apply lookup_insert_ne.
Qed.

(** ** The two ends *)
Definition token_config : Config := {| MaxLifetime := 0; ClockSkew := 0; clockSkewSet := false; maxLifetimeSet := false |}.
Definition issuer_profile : Profile (key:=demo_key) := New None "client.example" (Some (provider demo_ku1)) token_config.
Definition verifier_profile : Profile (key:=demo_key) := New directory "agent.example.com" None token_config.
Definition issuer_domain := identity_of "client.example" demo_ku1.
Definition random16 : string := "0123456789abcdef".
Definition task_claims : gmap string value := {[ "task"%string := VString "7"; "n"%string := VInt 3 ]}.
Definition token_options : JWTOptions :=
  {| jo_Audience := "agent.example.com."; jo_Expiry := 60 * second; expirySet := true; AdditionalClaims := task_claims |}.
Definition open_options : VerifyJWTOptions := {| ExpectedAudience := "agent.example.com"; ExpectedIssuer := "client.example"; Peer := [] |}.
Definition env_at (t : time) : jwt_env (key:=demo_key) :=
  {| now_claims := t; now_retry := t; now_end := t; evicter := Some directory; done_end := false |}.
Definition or_empty (r : res string) : string := match r with Ok s => s | Err _ => EmptyString end.

Lemma provider_signs : signs_for (provider demo_ku1) "op1" "EdDSA" demo_ku1.
Proof.
  split; [by vm_compute|]. intros m sig [= <-] _ _. set (s := demo_sign (demo_pub demo_ku1) m).
  assert (String.length s = 64%nat) as Hl by (unfold s, demo_sign; by rewrite append_length, !length_sha256).
  assert (Cryptoutil.VerifyEd25519 (demo_pub demo_ku1) m s = true) as Hv.
  { unfold Cryptoutil.VerifyEd25519. rewrite Hl.
    assert (Cryptoutil.ValidEd25519PublicKey (demo_pub demo_ku1) = true) as -> by by vm_compute. apply str_eqb_refl. }
  change (VerifySignature "EdDSA" m s [demo_ku1] = true). unfold VerifySignature. change (str_eqb "EdDSA" JoseAlgEdDSA) with true. cbv iota.
  rewrite Hl. change (export_ed25519 demo_ku1) with (Some (demo_pub demo_ku1)). cbv iota beta. by rewrite Hv.
Qed.
Lemma domain_offers : offers issuer_domain "op1" "EdDSA" demo_ku1.
Proof. split; [|split]; by vm_compute. Qed.

Definition note_jws : string := Eval vm_compute in or_empty (CreateJWS issuer_profile "a note").
Lemma created_jws_is_verified_witness :
  CreateJWS issuer_profile "a note" = Ok note_jws /\
  VerifyJWS verifier_profile false note_jws [[]] = Ok ("a note"%string, issuer_domain) /\
  forall pv' env opts, exists e, (VerifyJWT (key:=demo_key) pv' env note_jws opts).1.1 = Err e.
Proof.
  assert (Hc : CreateJWS issuer_profile "a note" = Ok note_jws) by (vm_compute; reflexivity). split; [exact Hc|].
  apply (created_jws_is_verified issuer_profile verifier_profile (provider demo_ku1) "op1" "EdDSA" demo_ku1 "a note" note_jws issuer_domain []).
  - reflexivity.
  - exact provider_signs.
  - exact domain_offers.
  - vm_compute; reflexivity.
  - vm_compute; reflexivity.
  - vm_compute; reflexivity.
  - discriminate.
  - exact Hc.
  - vm_compute; discriminate.
  - vm_compute; discriminate.
  - vm_compute; discriminate.
  - vm_compute; reflexivity.
  - discriminate.
Defined.

(** ** A JWT, and the whole exchange *)
Definition task_jwt : string := Eval vm_compute in or_empty (CreateJWT issuer_profile log_at (Some random16) token_options).
Lemma task_created : CreateJWT issuer_profile log_at (Some random16) token_options = Ok task_jwt.
Proof. vm_compute; reflexivity. Qed.
Lemma claims_portable : portable task_claims.
Proof. split; [|split]; vm_compute; try reflexivity. lia. Qed.

Lemma created_jwt_is_verified_witness :
  exists audience, NormalizeFQDN (jo_Audience token_options) = Ok audience /\
  (VerifyJWT verifier_profile (env_at log_at) task_jwt [open_options]).1.1
  = Ok (issuer_domain, {| Issuer := "client.example"; Subject := "client.example"; Audiences := [audience];
      JWTID := Base64.encode random16; IssuedAt := unix_time (Unix log_at); c_Expiry := unix_time (Unix (log_at + 60 * second));
      Extra := as_read <$> task_claims |}).
Proof.
  apply (created_jwt_is_verified issuer_profile verifier_profile (provider demo_ku1) "op1" "EdDSA" demo_ku1 log_at random16
    token_options task_jwt issuer_domain (env_at log_at) open_options).
  - reflexivity.
  - exact provider_signs.
  - exact domain_offers.
  - vm_compute; reflexivity.
  - discriminate.
  - exact task_created.
  - discriminate.
  - vm_compute; reflexivity.
  - exact claims_portable.
  - vm_compute; discriminate.
  - vm_compute; discriminate.
  - vm_compute; reflexivity.
  - discriminate.
  - vm_compute; reflexivity.
  - vm_compute; reflexivity.
  - discriminate.
  - vm_compute; reflexivity.
  - right; vm_compute; reflexivity.
  - vm_compute; discriminate.
  - vm_compute; reflexivity.
  - vm_compute; reflexivity.
  - reflexivity.
Defined.

Lemma task_verified : exists vd c ev p', VerifyJWT verifier_profile (env_at log_at) task_jwt [open_options] = (Ok (vd, c), ev, p').
Proof.
  assert (match (VerifyJWT verifier_profile (env_at log_at) task_jwt [open_options]).1.1 with Ok _ => true | Err _ => false end = true) as H
    by (vm_compute; reflexivity).
  destruct (VerifyJWT _ _ _ _) as [[[[vd c]|] ev] p']; [|done]. by exists vd, c, ev, p'.
Qed.
Lemma verified_jwt_is_current_and_signed_witness :
  exists vd c ev p', VerifyJWT verifier_profile (env_at log_at) task_jwt [open_options] = (Ok (vd, c), ev, p') /\ log_at < c_Expiry c.
Proof.
  destruct task_verified as (vd & c & ev & p' & H). exists vd, c, ev, p'. split; [exact H|].
  exact (proj1 (proj2 (proj2 (verified_jwt_is_current_and_signed verifier_profile (env_at log_at) task_jwt [open_options] vd c ev p' H)))).
Defined.

(** ** Forged tokens: signed by another domain's key *)
Definition forger_profile : Profile (key:=demo_key) := New None "client.example" (Some (provider demo_ku2)) token_config.
Definition forged_jwt : string := Eval vm_compute in or_empty (CreateJWT forger_profile log_at (Some random16) token_options).
Definition forgery (after : Z) : attempt (key:=demo_key) :=
  {| at_env := env_at (log_at + after * second); at_token := forged_jwt; at_opts := [] |}.
Definition forgeries : list (attempt (key:=demo_key)) := [forgery 0; forgery 10; forgery 30].
Lemma forgeries_refused :
  (verify_all verifier_profile forgeries).1 = [(log_at, "client.example"%string); (log_at + 30 * second, "client.example"%string)].
Proof. vm_compute; reflexivity. Qed.
Lemma forgeries_in_order : in_order forgeries.
Proof. unfold in_order, decided, forgeries. cbn -[second log_at Z.le]. repeat constructor; unfold second; lia. Qed.
Lemma refreshes_are_bounded_witness :
  exists p', verify_all verifier_profile forgeries
    = ([(log_at, "client.example"%string); (log_at + 30 * second, "client.example"%string)], p') /\
  (size (signatureRetryAfter p') <= maximumRetryDomains)%nat.
Proof.
  pose proof forgeries_refused as Hf. destruct (verify_all verifier_profile forgeries) as [evs p'] eqn:E.
  cbn [fst] in Hf. exists p'. split; [by rewrite Hf|].
  exact (proj2 (proj2 (refreshes_are_bounded directory "agent.example.com" None token_config forgeries evs p' forgeries_in_order E))).
Defined.

(** ** A lifetime stretched by truncation

    Both ends allow a second and a half; issued 0.7 s into a second, the token
    says two seconds, and its own profile refuses it. *)
Definition short_config : Config := WithMaxLifetime token_config 1500000000.
Definition short_profile : Profile (key:=demo_key) := New directory "client.example" (Some (provider demo_ku1)) short_config.
Definition short_options : JWTOptions := {| jo_Audience := "client.example"; jo_Expiry := 0; expirySet := false; AdditionalClaims := ∅ |}.
Definition short_lived (now : time) : res string :=
  CreateJWT short_profile now (Some random16) (WithExpiry short_options 1500000000).
Lemma stretched_lifetime_refused :
  (fun after => tok ← short_lived (log_at + after);
     '(_, c) ← (VerifyJWT short_profile (env_at (log_at + after)) tok []).1.1; Ok (c_Expiry c - IssuedAt c)) <$> [100000000; 700000000]
  = [Ok second; Err (verr "lifetime_too_long" "dnsid: invalid claims: token lifetime exceeds maximum")].
Proof. vm_compute; reflexivity. Qed.
