(* ===== verification/OidcDemo.v ===== *)
(** * OidcDemo: an issuer and two domains

    An issuer that publishes two keys, a client that exchanges an assertion
    with it and a party that verifies the token it gets, for the theorems of
    OidcSpec.v. Keys are RSA keys for the issuer and provider keys for the
    client; a signature is a hash of the key and what is signed. *)

From Stdlib Require Import ZArith Lia Ascii String.
From S2P Require Import Prelude Codec Utf8 Numbers Jcs JsonRead JcsSpec Marshal Json JsonDoc Keys Fqdn TxtRecord Reference Evidence KeyRing Jwks Domain LogReader Manager Event NetHttp NetIP Demo JoseUtil Token Jose JoseSpec JoseRound Oidc OidcSpec.

Open Scope Z_scope.

(** ** Keys and URLs *)
Record web_key := { w_kid : string; w_pub : string; w_alg : string }.
#[local] Instance web_key_eq_dec : EqDecision web_key.
Proof. solve_decision. Defined.
#[local] Instance web_ops : KeyOps web_key := {
  thumbprint_sum k := Some (w_pub k); key_id k := Some (w_kid k); key_type _ := OtherKeyType; key_crv _ := None;
  key_algorithm k := Some (w_alg k); key_usage _ := Some "sig"%string; key_is_private _ := Some false;
  export_ed25519 _ := None; export_p256 _ := None; p256_valid _ := false;
  ed25519_verify _ _ _ := false; ecdsa_verify _ _ _ _ := false
}.
#[local] Instance web_set_lib : JwkSetLib web_key := { key_operations _ := Some ["verify"%string]; jwk_Parse _ := None }.
(** A set is written as its identifiers, each also its key, with commas between. *)
#[local] Instance web_rsa : RsaLib web_key := {
  jwk_Parse_text s := Some ((fun kid => {| w_kid := kid; w_pub := kid; w_alg := "RS256" |}) <$> split "," s);
  RSAPublicKey := string;
  export_rsa k := Some (w_pub k);
  rsa_BitLen _ := 2048;
  VerifyPKCS1v15 pub sum sig := str_eqb sig (demo_sign pub sum)
}.
#[local] Instance web_url : NetURL := {
  url_Parse s :=
    match cut ":" s with
    | Some (scheme, rest) =>
        rest ← strip_prefix "//" rest;
        let '(host, path) := match cut "/" rest with Some (h, p) => (h, String "/" p) | None => (rest, EmptyString) end in
        Some {| Scheme := scheme; User := has_byte "@" host; Host := host; EscapedPath := path; Fragment := ""; RawFragment := "" |}
    | None => None
    end
}.

(** ** The issuer *)
Definition issuer : string := "https://issuer.example".
Definition sub_claims (exp : Z) : gmap string value :=
  {[ "iss" := VString issuer; "sub" := VString "client.example"; "aud" := VString "https://api.example";
     "iat" := VInt 1000; "exp" := VInt exp ]}%string.
Definition or_empty (r : res string) : string := match r with Ok s => s | Err _ => EmptyString end.
Definition issue (kid pub : string) (claims : gmap string value) : string :=
  let h := or_empty (json_Marshal (VObject (jws_header "RS256" kid))) in
  let p := or_empty (json_Marshal (VObject claims)) in
  compact h p (demo_sign pub (sha256 (dot (Base64.encode h) (Base64.encode p)))).
Definition id_token : string := Eval vm_compute in issue "k2" "k2" (sub_claims 5000).

Definition respond (body : string) : res answer := Ok {| StatusCode := 200; Body := body; BodyError := None |}.
Definition serve (tr : list sent) (q : sent) : res answer :=
  if str_eqb (q_URL q) (well_known issuer) then respond (with_quotes
    "{'issuer':'https://issuer.example','token_endpoint':'https://issuer.example/token','jwks_uri':'https://issuer.example/keys','x':[1]}")
  else if str_eqb (q_URL q) "https://issuer.example/keys" then respond "k1,k2"
  else if str_eqb (q_URL q) "https://issuer.example/token" then
    match form_value "assertion" (q_Body q) with
    | Some (String _ _) => respond (with_quotes "{'access_token':'t','token_type':'BEARER','expires_in':299.5}")
    | _ => Ok {| StatusCode := 400; Body := with_quotes "{'error':'invalid_grant','error_description':7}"; BodyError := None |}
    end
  else Ok {| StatusCode := 404; Body := EmptyString; BodyError := None |}.

(** ** The profiles *)
Definition oidc_config : Config :=
  {| DefaultScope := ""; AssertionLifetime := 0; MaxAssertionLifetime := 0; ClockSkew := 0; clockSkewSet := false;
     assertionLifetimeSet := false; maxAssertionLifetimeSet := false; AllowedIssuers := [issuer]; AllowedTokenAlgorithms := [];
     AllowHTTPLoopbackIssuer := false |}.
Definition client_key : web_key := {| w_kid := "op1"; w_pub := "client"; w_alg := "EdDSA" |}.
Definition rotated_key : web_key := {| w_kid := "op2"; w_pub := "rotated"; w_alg := "EdDSA" |}.
(** A provider whose active key is [shown] when it is asked for and [signer] when it signs. *)
Definition oidc_provider (shown signer : web_key) : KeyProvider (key:=web_key) :=
  let sign payload := Ok (Some (Sig (w_kid signer) (w_alg signer) (demo_sign (w_pub signer) payload))) in
  {| kp_ListKeyIds := [w_kid shown]; kp_Active := Some shown; kp_JWK _ := Some shown; kp_Sign := sign; kp_SignKey _ := sign |}.
Definition subject_domain (name : string) : VerifiedDomain web_key (LogReader (key:=web_key)) :=
  {| domain := name; record := None; keySet := Some [client_key]; recordSigningKeySet := None; kuKey := Some client_key; signingKey := None;
     signingKeyThumbprint := ""; Domain.status := None; dnssecState := "SECURE"; verifiedAt := 0; acquiredAt := 0;
     lastStatusCheckAt := 0; dnsTTL := 300 * second; dnsExpiresAt := 300 * second; jwksTLSCertificate := None;
     ekTLSCertificate := None; statusTLSCertificate := None; keyBoundAt := 0; operationalKeyThumbprint := ""; logReader := None;
     Domain.expiry := 300 * second; cachedState := "fresh"; cacheInvalidated := None |}.
Definition subject_resolver : option (IdentityResolver (key:=web_key)) := Some (WithOptions (fun name _ => Ok (subject_domain name))).
Definition agent : Profile (key:=web_key) := New subject_resolver "client.example" (Some (oidc_provider client_key client_key)) oidc_config.
Definition relying_party : Profile (key:=web_key) := New subject_resolver "api.example" None oidc_config.

(** ** Verifying *)
Definition verify_at (t : time) : verify_env := {| now_first := t; now_signed := t + second; now_last := t + 2 * second; done_end := false |}.
Definition expect_api : VerifyOIDCTokenOptions :=
  {| v_Issuer := issuer; v_Audience := "https://api.example"; VerifyDnsidSubject := None; v_Peer := [] |}.
Abbreviation verify_token t token := (VerifyOIDCToken serve relying_party (verify_at t) token expect_api []).

Lemma token_verified : exists s tr', verify_token (unix_time 2000) id_token = (Ok s, tr').
Proof.
  assert (is_ok (verify_token (unix_time 2000) id_token).1 = true) as H by (vm_compute; reflexivity).
  destruct (verify_token _ _) as [[s|] tr']; [|done]. by exists s, tr'.
Qed.
Lemma verified_token_is_from_its_issuer_witness :
  exists s tr', verify_token (unix_time 2000) id_token = (Ok s, tr') /\ s_Issuer s = issuer /\ sole (s_Claims s) "https://api.example".
Proof.
  destruct token_verified as (s & tr' & H). exists s, tr'. split; [exact H|].
  destruct (verified_token_is_from_its_issuer serve relying_party (verify_at (unix_time 2000)) id_token expect_api [] s tr' H)
    as (Hi & _ & _ & _ & _ & _ & Hs & _). exact (conj Hi Hs).
Defined.

(** Expired at the last check only, signed by an unpublished key, or by a key
    other than the header names. *)
Example tokens_refused :
  (fun r => match r with Ok _ => EmptyString | Err (VerificationError code _ _) => code | Err _ => "other"%string end) <$>
    [(verify_token (unix_time 4998) id_token).1; (verify_token (unix_time 2000) (issue "k3" "k3" (sub_claims 5000))).1;
     (verify_token (unix_time 2000) (issue "k1" "k2" (sub_claims 5000))).1; (verify_token (unix_time 900) id_token).1]
  = ["token_expired"; "signature_invalid"; "signature_invalid"; "token_not_yet_valid"]%string.
Proof. vm_compute. reflexivity. Qed.

(** ** Exchanging *)
Definition issue_time : time := unix_time 2000 + 300000000.
Definition no_overflow (f : float64) : Z := 0.
Definition exchange_options : OIDCTokenExchangeOptions := {| x_Issuer := issuer; x_Audience := "https://api.example"; x_Scope := ""; Assertion := "" |}.
Abbreviation exchanged := (ExchangeOIDCToken serve no_overflow agent issue_time (Some "0123456789abcdef"%string) exchange_options []).

Lemma exchanged_token : exists t tr', exchanged = (inl t, tr') /\ ExpiresIn t = 299 /\ List.length tr' = 2%nat.
Proof.
  assert (match exchanged with (inl t, tr') => (ExpiresIn t =? 299) && (List.length tr' =? 2)%nat | _ => false end = true) as H by (vm_compute; reflexivity).
  destruct exchanged as [[t|] tr']; [|done]. apply andb_true_iff in H as [H1 H2]. exists t, tr'. split; [done|].
  split; [lia|]. by apply Nat.eqb_eq.
Qed.
Lemma exchanges_stay_with_the_issuer_witness :
  exists t tr' lookups grants, exchanged = (inl t, tr') /\ tr' = [] ++ lookups ++ grants /\ List.length grants = 1%nat /\
    Forall (grant_of agent issue_time (Some "0123456789abcdef"%string) exchange_options) grants.
Proof.
  destruct exchanged_token as (t & tr' & H & _).
  destruct (exchanges_stay_with_the_issuer serve no_overflow agent issue_time (Some "0123456789abcdef"%string) exchange_options [] (inl t) tr' H)
    as (lookups & grants & Htr & _ & _ & Hg & Ht). exists t, tr', lookups, grants.
  exact (conj H (conj Htr (conj (proj1 (Ht t eq_refl)) Hg))).
Defined.

(** ** Assertions *)
Definition assertion_options : OIDCAssertionOptions :=
  {| a_Issuer := issuer; a_Expiry := 60 * second; expirySet := true; AdditionalClaims := {[ "task"%string := VInt 7 ]} |}.
Definition assertion : string := Eval vm_compute in or_empty (CreateOIDCAssertion agent issue_time (Some "0123456789abcdef"%string) assertion_options).
Lemma assertion_made : CreateOIDCAssertion agent issue_time (Some "0123456789abcdef"%string) assertion_options = Ok assertion.
Proof. vm_compute. reflexivity. Qed.

Lemma created_assertion_reads_back_witness :
  exists header claims, says assertion header claims /\ sole claims issuer /\
    forall now' rng', exchange_assertion agent now' rng' issuer assertion = Ok assertion.
Proof.
  assert (Hport : portable (AdditionalClaims assertion_options)) by (split; [|split]; vm_compute; try reflexivity; lia).
  destruct (created_assertion_reads_back agent (oidc_provider client_key client_key) issue_time "0123456789abcdef" assertion_options assertion)
    as (header & claims & H1 & _ & _ & _ & H2 & _ & H3).
  - reflexivity.
  - exact assertion_made.
  - intros m sig [= <-]. cbn [KeyRing.Signature]. intros E. apply (f_equal String.length) in E. unfold demo_sign in E.
    rewrite append_length, !length_sha256 in E. discriminate E.
  - intros k [= <-] s [[= <-]|[= <-]]; reflexivity.
  - vm_compute; reflexivity.
  - vm_compute; reflexivity.
  - discriminate.
  - exact Hport.
  - vm_compute; discriminate.
  - vm_compute; reflexivity.
  - vm_compute; discriminate.
  - exists header, claims. exact (conj H1 (conj H2 H3)).
Defined.

(** ** A key rotated between two calls

    The header is made of the key the provider shows, the signature by the key
    it signs with a moment later, and the two are not compared: the assertion
    names a key that did not sign it. *)
Definition rotating : Profile (key:=web_key) := New None "client.example" (Some (oidc_provider client_key rotated_key)) oidc_config.
Lemma rotated_assertion_is_mislabelled :
  exists tok h p sig header, CreateOIDCAssertion rotating issue_time (Some "0123456789abcdef"%string) assertion_options = Ok tok /\
    tok = compact h p sig /\ jose_DecodeObject h = Ok header /\ asString (header !! "kid"%string) = w_kid client_key /\
    sig = demo_sign (w_pub rotated_key) (dot (Base64.encode h) (Base64.encode p)).
Proof.
  set (h := or_empty (json_Marshal (VObject (jws_header "EdDSA" "op1")))).
  set (p := or_empty (json_Marshal (VObject ({["task"%string := VInt 7]} ∪ assertion_claims "client.example" issuer (Base64.encode "0123456789abcdef") issue_time (issue_time + 60 * second))))).
  exists (compact h p (demo_sign (w_pub rotated_key) (dot (Base64.encode h) (Base64.encode p)))), h, p, (demo_sign (w_pub rotated_key) (dot (Base64.encode h) (Base64.encode p))), (jws_header "EdDSA" "op1").
  split_and!; [vm_compute; reflexivity|reflexivity|vm_compute; reflexivity|reflexivity|reflexivity].
Qed.
