(* ===== verification/Prepared.v ===== *)
(** * Prepared: writing to the log

    log/c2sptlog/prepared.go and the writing operations of client.go: an event
    becomes an envelope, collects the signatures its type requires from signers
    that need not trust each other, and is appended as it stands. Pointers are
    taken to be set; a nil client or event is an error of every operation. *)

From Stdlib Require Import ZArith Lia Ascii String.
From S2P Require Import Prelude Codec Utf8 Numbers Jcs JcsSpec Keys Fqdn Lifecycle Merkle Evidence Reference Policy Checkpoint Scan Event EventSpec Replay ReplaySpec Client Json KeyRing JoseUtil.

Open Scope Z_scope.

#[export] Instance Reference_eq_dec : EqDecision Reference.
Proof. solve_decision. Defined.

(** [cloneJSONObject]. *)
Definition cloneJSONObject (v : payload) : res payload :=
  encoded ← canonicalJSON (VObject v); DecodeObject encoded.

Record PreparedEvent := {
  pr_reference : Reference;
  envelope : payload;
  signedBytes : string;
  requiredSignatures : list SignerRole
}.
Definition pr_EventID (p : PreparedEvent) : string := EventID (signedBytes p).
Definition pr_Bytes (p : PreparedEvent) : res string := canonicalJSON (VObject (envelope p)).

Section prepared.
Context {key : Type} `{!KeyOps key} `{!JwkText key} {N : NoteLib} {U : NetURL} {T : TLog} {I : Idna} {C : ConsistencyLib}.
Abbreviation LogEvent := (LogEvent key).
Abbreviation verifiedEvent := (verifiedEvent (key:=key)).
Abbreviation Client := (Client (key:=key)).
Abbreviation KeyProvider := (KeyProvider (key:=key)).

Definition pr_Event (p : PreparedEvent) : res LogEvent := parsed ← eventFromPayload (envelope p); Ok (p_event parsed).

Definition validatePreparedChain (ref : Reference) (parsed : parsedEvent key) : res unit :=
  let event := p_event parsed in
  let chain := p_chain parsed in
  fail_if type_eqb (Type_ event) LogEventMigration && negb (isInboundMigration ref event)
    with invalidMigration "dnsid: c2sp-tlog MIGRATION must be destination genesis" None ;;
  fail_if chain_invalid chain with PlainError "dnsid: prohibited or invalid logical chain fields" ;;
  if type_eqb (Type_ event) LogEventIssuance || isInboundMigration ref event then
    fail_if negb (bool_decide (sequence chain = Some 0)) with PlainError "dnsid: c2sp-tlog genesis requires seq 0" ;;
    fail_if negb (validGenesisChain chain) with PlainError "dnsid: c2sp-tlog genesis must not contain previous chain fields" ;;
    Ok tt
  else
    fail_if bool_decide (sequence chain = None) || negb (validHash (previousEventID chain)) || negb (validHash (previousStateHash chain))
      with PlainError "dnsid: c2sp-tlog entry requires lifecycle chain fields" ;;
    Ok tt.

Definition entry_size_error : error := PlainError "dnsid: c2sp-tlog entry must be between 1 and 65535 bytes".
Definition entry_too_big (entry : string) : bool := is_empty entry || (maxEntrySize <? Z.of_nat (String.length entry)).

Definition preparedFromEnvelope (ref : Reference) (e : payload) : res PreparedEvent :=
  copy ← cloneJSONObject e;
  parsed ← eventFromPayload (key:=key) copy;
  match p_validationError parsed with
  | Some err => Err err
  | None =>
      validateWritableStream ref (p_event parsed) ;;
      encoded ← canonicalJSON (VObject copy);
      fail_if entry_too_big encoded with entry_size_error ;;
      validateEntryMetadata ref encoded ;;
      validatePreparedChain ref parsed ;;
      required ← requiredSignerRoles (Type_ (p_event parsed));
      validateSignatureShape copy required false ;;
      unsigned ← cloneJSONObject copy;
      signed ← canonicalJSON (VObject (delete "sigs"%string unsigned));
      Ok {| pr_reference := ref; envelope := copy; signedBytes := signed; requiredSignatures := required |}
  end.

(** ** Preparing *)
Definition prepareEvent (ref : Reference) (event : LogEvent) (chain : chainFields) : res PreparedEvent :=
  validateWritableStream ref event ;;
  e ← payloadFromEventWithChain event false (Some ref) (Some chain);
  let sigs := signaturesFromEvent event in
  preparedFromEnvelope ref (if bool_decide (sigs = ∅) then e else <["sigs"%string := VObject sigs]> e).
Definition PrepareEvent (ref : Reference) (event : LogEvent) : res PreparedEvent :=
  chain ← chainForWrite ref event; prepareEvent ref event chain.
Definition PrepareEventWithChain (ref : Reference) (event : LogEvent) (chain : Chain) : res PreparedEvent :=
  validateChain ref event chain ;; prepareEvent ref event (chainFieldsFromChain event chain).

Definition ParsePreparedEvent (ref : Reference) (entry : string) : res PreparedEvent :=
  e ← in_parse "dnsid: parsing c2sp-tlog prepared event" (payloadObjectFromEntry entry);
  in_validation "dnsid: validating c2sp-tlog prepared event" (preparedFromEnvelope ref e).

(** ** The keys of the signers *)
Definition currentLifecycleState (c : Client) (w : call) (s : option checkpoints) (domain : string)
    : res (option key * option key * payload) * option checkpoints :=
  let '(r, s') := rebuildVerifiedHistory c w s domain in
  ('(verified, _) ← r; lifecycleStateFromVerified verified domain, s').

(** The map of keys by role; its order only decides which error is returned. *)
Abbreviation signer_keys := (list (SignerRole * option key)).
Definition key_for (role : SignerRole) (keys : signer_keys) : option key :=
  kv ← List.find (fun kv => bool_decide (kv.1 = role)) keys; kv.2.

Definition rotation_keys (event : LogEvent) (now : option key * option key * payload) : res signer_keys :=
  let '(entity, operational, state) := now in
  fail_if bool_decide (state !! "entity_thumb"%string = Some (VString (NewOperationalThumbprint event)))
    with PlainError "dnsid: operational key must remain distinct from entity key" ;;
  validateResolvedKeyIDs [entity; operational; NewOperationalPublicKey event] ;;
  Ok [(SignerPreviousOperational, operational); (SignerNewOperational, NewOperationalPublicKey event)].

Definition migration_keys (c : Client) (w : call) (event : LogEvent) : res signer_keys :=
  match migration_verifier c w with
  | Some verify =>
      fail_if negb (isInboundMigration (client_ref c) event)
        with invalidMigration "dnsid: migration signing requires verified source history" None ;;
      migration ← verify event;
      validateMigrationResult event migration ;;
      Ok [(SignerEntity, EntityKey migration)]
  | None => Err (invalidMigration "dnsid: migration signing requires verified source history" None)
  end.

Definition preparedSignerKeys (c : Client) (w : call) (s : option checkpoints) (p : PreparedEvent)
    : res signer_keys * option checkpoints :=
  match pr_Event p with
  | Err e => (Err e, s)
  | Ok event =>
      let '(keys, s') := match Type_ event with
        | LogEventIssuance =>
            (Ok [(SignerEntity, InitialEntityPublicKey event); (SignerOperationalCountersignature, InitialOperationalPublicKey event)], s)
        | LogEventKeyRotation =>
            let '(r, s') := currentLifecycleState c w s (Lifecycle.Domain event) in (now ← r; rotation_keys event now, s')
        | LogEventMigration => (migration_keys c w event, s)
        | _ =>
            let '(r, s') := currentLifecycleState c w s (Lifecycle.Domain event) in
            ('(entity, _, _) ← r; Ok [(SignerEntity, entity)], s')
        end in
      (keys ← keys; validateResolvedKeyIDs (keys.*2) ;; Ok keys, s')
  end.

Definition envelope_sigs (e : payload) : payload := match e !! "sigs"%string with Some (VObject sigs) => sigs | _ => ∅ end.

(** One role of [verifyPresentSignatures]. *)
Definition verify_present (p : PreparedEvent) (keys : signer_keys) (role : SignerRole) : res unit :=
  match envelope_sigs (envelope p) !! signatureName role with
  | None => Ok tt
  | Some raw =>
      match parseSig (Some raw) with
      | None => Err (PlainError "dnsid: malformed c2sp-tlog signature")
      | Some v =>
          fail_if is_empty (sig_Kid v) || is_empty (sig_Sig v) with PlainError "dnsid: malformed c2sp-tlog signature" ;;
          match key_for role keys with
          | None => Err (PlainError "dnsid: no verified key is available for signer role")
          | Some k =>
              fail_if is_empty (kid_or_empty k) || negb (str_eqb (kid_or_empty k) (sig_Kid v))
                with PlainError "dnsid: c2sp-tlog signature kid does not match signer role key" ;;
              match verifyEventSignature (Some k) (signedBytes p) (sig_Sig v) with
              | Err e => Err (WithCause (PlainError "dnsid: invalid c2sp-tlog signature for role") e)
              | Ok _ => Ok tt
              end
          end
      end
  end.
Definition verifyPresentSignatures (p : PreparedEvent) (keys : signer_keys) : res unit :=
  all_ok (verify_present p keys <$> requiredSignatures p).

(** [ParsePreparedIssuance]; [w] is never looked at for an ISSUANCE. *)
Definition ParsePreparedIssuance (opts : Reference -> Client) (w : call) (entry : string) : res (Client * PreparedEvent) :=
  e ← in_parse "dnsid: parsing prepared ISSUANCE" (payloadObjectFromEntry entry);
  fail_if negb (bool_decide (e !! "type"%string = Some (VString "ISSUANCE")))
    with ValidationError "dnsid: prepared event must be ISSUANCE" ;;
  client ← New (optionalString e "lr") opts;
  prepared ← ParsePreparedEvent (client_ref client) entry;
  keys ← in_validation "dnsid: invalid prepared ISSUANCE keys" (preparedSignerKeys client w None prepared).1;
  in_validation "dnsid: invalid prepared ISSUANCE signatures" (verifyPresentSignatures prepared keys) ;;
  Ok (client, prepared).

(** ** Signing *)
Definition validatePrepared (ref : Reference) (p : PreparedEvent) : res unit :=
  fail_if negb (bool_decide (pr_reference p = ref)) with PlainError "dnsid: prepared c2sp-tlog event belongs to a different reference" ;;
  unsigned ← cloneJSONObject (envelope p);
  canonical ← canonicalJSON (VObject (delete "sigs"%string unsigned));
  fail_if negb (str_eqb canonical (signedBytes p))
    with PlainError "dnsid: prepared c2sp-tlog signed bytes do not match envelope" ;;
  Ok tt.

Definition bad_signer (msg : string) : error := ArgumentError msg.
Definition argument_of {A} (msg : string) (r : res A) : res A :=
  match r with Ok a => Ok a | Err e => Err (WithCause (ArgumentError msg) e) end.

(** The key that signs and its algorithm: it is the one the stream expects. *)
Definition signing_key (expected : key) (kp : KeyProvider) (namedKid : string) : res (key * string * JoseAlg) :=
  match (if is_empty namedKid then kp_Active kp else kp_JWK kp namedKid) with
  | None => Err (bad_signer "dnsid: signer key provider has no matching key")
  | Some k =>
      signingThumb ← argument_of "dnsid: signing key thumbprint" (keyThumbprint (Some k));
      expectedThumb ← argument_of "dnsid: expected key thumbprint" (keyThumbprint (Some expected));
      fail_if negb (str_eqb signingThumb expectedThumb) with bad_signer "dnsid: signer key does not match event key" ;;
      fail_if is_empty (kid_or_empty k) with bad_signer "dnsid: signer key is missing kid" ;;
      fail_if negb (str_eqb (kid_or_empty k) (kid_or_empty expected)) with bad_signer "dnsid: signer kid does not match event key kid" ;;
      match key_algorithm k, key_algorithm expected with
      | Some active, Some alg =>
          fail_if negb (str_eqb active alg) with bad_signer "dnsid: signer algorithm does not match event key" ;;
          Ok (k, kid_or_empty k, alg)
      | _, _ => Err (bad_signer "dnsid: signer algorithm does not match event key")
      end
  end.

Definition add_signature (ref : Reference) (p : PreparedEvent) (role : SignerRole) (kid : string) (sig : string) : res PreparedEvent :=
  copy ← in_validation "dnsid: cloning prepared event" (cloneJSONObject (envelope p));
  preparedFromEnvelope ref
    (<["sigs"%string := VObject (<[signatureName role := sig_object kid (Base64.encode sig)]> (envelope_sigs copy))]> copy).

(** The signature of [role], once the keys are known. *)
Definition sign_role (ref : Reference) (p : PreparedEvent) (role : SignerRole) (kp : KeyProvider) (namedKid : string)
    (keys : signer_keys) : res PreparedEvent :=
  in_validation "dnsid: invalid prepared event signatures" (verifyPresentSignatures p keys) ;;
  match key_for role keys with
  | None => Err (bad_signer "dnsid: no verified key is available for signer role")
  | Some expected =>
      '(_, kid, alg) ← signing_key expected kp namedKid;
      match envelope_sigs (envelope p) !! signatureName role with
      | Some existing =>
          match parseSig (Some existing) with
          | Some v => fail_if negb (str_eqb (sig_Kid v) kid) with bad_signer "dnsid: signer role already has a different signature" ;; Ok p
          | None => Err (bad_signer "dnsid: signer role already has a different signature")
          end
      | None =>
          signed ← argument_of "dnsid: signing failed"
            (if is_empty namedKid then kp_Sign kp (signedBytes p) else kp_SignKey kp namedKid (signedBytes p));
          match signed with
          | None => Err (bad_signer "dnsid: signer key provider returned no signature")
          | Some sig =>
              fail_if negb (str_eqb (KeyRing.Kid sig) kid) with bad_signer "dnsid: signer signed with another kid" ;;
              fail_if negb (str_eqb (KeyRing.Alg sig) alg) with bad_signer "dnsid: signer signed with another algorithm" ;;
              add_signature ref p role kid (KeyRing.Signature sig)
          end
      end
  end.

Definition signPreparedEvent (c : Client) (w : call) (s : option checkpoints) (p : PreparedEvent) (role : SignerRole)
    (kp : option KeyProvider) (namedKid : string) : res PreparedEvent * option checkpoints :=
  match (in_validation "dnsid: invalid prepared event" (validatePrepared (client_ref c) p) ;;
         fail_if negb (containsRole (requiredSignatures p) role) with bad_signer "dnsid: signer role is not valid for this c2sp-tlog event" ;;
         match kp with Some kp => Ok kp | None => Err (bad_signer "dnsid: signer role key provider is required") end) with
  | Err e => (Err e, s)
  | Ok kp =>
      let '(keys, s') := preparedSignerKeys c w s p in
      (unless_cancelled w (keys ← keys; sign_role (client_ref c) p role kp namedKid keys), s')
  end.
Definition SignPreparedEvent (c : Client) (w : call) (s : option checkpoints) (p : PreparedEvent) (role : SignerRole)
    (kp : option KeyProvider) : res PreparedEvent * option checkpoints :=
  signPreparedEvent c w s p role kp EmptyString.
Definition SignPreparedEventWithKey (c : Client) (w : call) (s : option checkpoints) (p : PreparedEvent) (role : SignerRole)
    (kp : option KeyProvider) (kid : string) : res PreparedEvent * option checkpoints :=
  if is_empty kid then (Err (bad_signer "dnsid: c2sp-tlog signer kid is required"), s)
  else signPreparedEvent c w s p role kp kid.

(** ** Writing *)
Definition PreparedEntryBytes (c : Client) (w : call) (s : option checkpoints) (p : PreparedEvent) : res string * option checkpoints :=
  match (in_validation "dnsid: invalid prepared event" (validatePrepared (client_ref c) p) ;;
         in_validation "dnsid: invalid prepared event signatures" (validateSignatureShape (envelope p) (requiredSignatures p) true)) with
  | Err e => (Err e, s)
  | Ok _ =>
      let '(keys, s') := preparedSignerKeys c w s p in
      (unless_cancelled w (
         keys ← keys;
         in_validation "dnsid: invalid prepared event signatures" (verifyPresentSignatures p keys) ;;
         entry ← canonicalJSON (VObject (envelope p));
         fail_if entry_too_big entry with ValidationError "dnsid: c2sp-tlog entry must be between 1 and 65535 bytes" ;;
         Ok entry), s')
  end.

(** [ChainForWrite]. *)
Definition next_chain (verified : list verifiedEvent) (domain : string) : res Chain :=
  '(_, _, state) ← lifecycleStateFromVerified verified domain;
  match last verified with
  | Some l =>
      match sequence (v_chain l) with
      | Some n => Ok {| Sequence := u64 (n + 1); PreviousEventID := EventID (v_signed l); PreviousStateHash := lifecycleStateHash state |}
      | None => Err (PlainError "dnsid: verified c2sp-tlog history is missing sequence metadata")
      end
  | None => Err (PlainError "dnsid: c2sp-tlog lifecycle history is empty")
  end.
Definition ChainForWrite (c : Client) (w : call) (s : option checkpoints) (event : LogEvent) : res Chain * option checkpoints :=
  if type_eqb (Type_ event) LogEventIssuance || isInboundMigration (client_ref c) event
  then (Ok {| Sequence := 0; PreviousEventID := ""; PreviousStateHash := "" |}, s)
  else
    let '(r, s') := rebuildVerifiedHistory c w s (Lifecycle.Domain event) in
    ('(verified, _) ← r; next_chain verified (Lifecycle.Domain event), s').

(** The history is read twice: for the last event and for the state. *)
Definition validatePreparedChainAgainstHistory (c : Client) (w w' : call) (s : option checkpoints) (parsed : parsedEvent key)
    : res unit * option checkpoints :=
  let event := p_event parsed in
  if type_eqb (Type_ event) LogEventIssuance || isInboundMigration (client_ref c) event
  then (validatePreparedChain (client_ref c) parsed, s)
  else
    match rebuildVerifiedHistory c w s (Lifecycle.Domain event) with
    | (Err e, s') => (Err e, s')
    | (Ok (verified, _), s') =>
        match last verified with
        | None => (Err (PlainError "dnsid: c2sp-tlog event requires prior verified state"), s')
        | Some l =>
            let '(r, s'') := currentLifecycleState c w' s' (Lifecycle.Domain event) in
            ('(_, _, state) ← r;
             let seq := match sequence (v_chain l) with Some n => u64 (n + 1) | None => 0 end in
             fail_if negb (validChainFields (p_chain parsed) seq (EventID (v_signed l)) state)
               with PlainError "dnsid: invalid c2sp-tlog logical lifecycle chain" ;;
             Ok tt, s'')
        end
    end.

(** The appender is told an entry at most once, and answers with its index. *)
Record write_result := { wr_ref : res string; wr_appended : option string; wr_store : option checkpoints }.
Definition WritePreparedEvent (c : Client) (appender : option (string -> res Z)) (w1 w2 w3 : call) (s : option checkpoints)
    (p : PreparedEvent) : write_result :=
  match appender with
  | None => {| wr_ref := Err (ArgumentError "dnsid: c2sp-tlog appender is required"); wr_appended := None; wr_store := s |}
  | Some append =>
      match PreparedEntryBytes c w1 s p with
      | (Err e, s') => {| wr_ref := Err e; wr_appended := None; wr_store := s' |}
      | (Ok entry, s') =>
          match in_validation "dnsid: invalid prepared event" (parseEventFromEntry (key:=key) entry) with
          | Err e => {| wr_ref := Err e; wr_appended := None; wr_store := s' |}
          | Ok parsed =>
              match validatePreparedChainAgainstHistory c w2 w3 s' parsed with
              | (Err e, s'') => {| wr_ref := Err e; wr_appended := None; wr_store := s'' |}
              | (Ok _, s'') =>
                  {| wr_ref := index ← append entry; Ok (FinalEventRef (client_ref c) index);
                     wr_appended := Some entry; wr_store := s'' |}
              end
          end
      end
  end.

Definition refused (e : error) (s : option checkpoints) : write_result := {| wr_ref := Err e; wr_appended := None; wr_store := s |}.
Definition AppendPreparedEntry (c : Client) (appender : option (string -> res Z)) (w1 w2 w3 : call) (s : option checkpoints)
    (entry : string) : write_result :=
  match ParsePreparedEvent (client_ref c) entry with
  | Err e => refused e s
  | Ok p => WritePreparedEvent c appender w1 w2 w3 s p
  end.
Definition writeEvent (c : Client) (appender : option (string -> res Z)) (w1 w2 w3 : call) (s : option checkpoints)
    (event : LogEvent) (chain : chainFields) : write_result :=
  match prepareEvent (client_ref c) event chain with
  | Err e => refused e s
  | Ok p => WritePreparedEvent c appender w1 w2 w3 s p
  end.
Definition WriteEvent (c : Client) (appender : option (string -> res Z)) (w1 w2 w3 : call) (s : option checkpoints) (event : LogEvent) : write_result :=
  match chainForWrite (client_ref c) event with
  | Err e => refused e s
  | Ok chain => writeEvent c appender w1 w2 w3 s event chain
  end.
Definition WriteEventWithChain (c : Client) (appender : option (string -> res Z)) (w1 w2 w3 : call) (s : option checkpoints)
    (event : LogEvent) (chain : Chain) : write_result :=
  match validateChain (client_ref c) event chain with
  | Err e => refused e s
  | Ok _ => writeEvent c appender w1 w2 w3 s event (chainFieldsFromChain event chain)
  end.
End prepared.
