(* ===== verification/PreparedSpec.v ===== *)
(** * PreparedSpec: what is written continues the log

    Signers hand a prepared event on as its bytes: nothing they add changes
    what was signed before. An event that is written carries every signature
    its type requires, by the keys the history establishes, and its chain
    names the end of that history; when the history has not ended and the
    event is not older than its last, it extends the verified stream. *)

From Stdlib Require Import ZArith Lia Ascii String.
From S2P Require Import Prelude Codec Utf8 Numbers Jcs JcsSpec Keys Fqdn Lifecycle LogReader Merkle Evidence Reference Policy Checkpoint Scan Event EventSpec Replay ReplaySpec AppendSpec Client Reader ReaderSpec Json KeyRing JoseUtil Prepared.

Open Scope Z_scope.

(** ** Envelopes that read back as themselves *)
Definition plain_envelope (e : payload) : Prop := norm <$> e = e /\ (height (VObject e) <= 64)%nat.

Lemma clone_plain e : plain_envelope e -> forall e', cloneJSONObject e = Ok e' -> e' = e.
Proof.
  intros [Hn Hh] e'. unfold cloneJSONObject. destruct (canonicalJSON (VObject e)) as [b|] eqn:E; [|done]. cbn [mbind res_bind].
  rewrite (decode_written e b (canonicalJSON_write _ _ E) Hh), Hn. by intros [= <-].
Qed.
Lemma payload_plain entry e : payloadObjectFromEntry entry = Ok e -> plain_envelope e.
Proof. intros H. by apply payload_from_entry in H as (_ & _ & ? & ?). Qed.

(** Adding a signature object keeps an envelope plain. *)
Lemma sig_object_plain kid sig : norm (sig_object kid sig) = sig_object kid sig /\ height (sig_object kid sig) = 1%nat.
Proof. split; vm_compute; reflexivity. Qed.
Lemma height_lookup m k v n : (height (VObject m) <= n)%nat -> m !! k = Some v -> (S (height v) <= n)%nat.
Proof. intros Hm Hk. apply height_object in Hk. lia. Qed.
Lemma envelope_sigs_plain e : plain_envelope e -> norm <$> envelope_sigs e = envelope_sigs e /\ (height (VObject (envelope_sigs e)) <= 63)%nat.
Proof.
  intros [Hn Hh]. unfold envelope_sigs. destruct (e !! "sigs"%string) as [[| | | | | |m]|] eqn:E; try (split; [by rewrite fmap_empty|vm_compute; lia]).
  split; [|apply height_object in E; lia]. pose proof (f_equal (fun x : payload => x !! "sigs"%string) Hn) as H. cbn in H.
  rewrite lookup_fmap, E in H. cbn in H. by injection H.
Qed.
Lemma add_sig_plain e name kid sig : plain_envelope e ->
  plain_envelope (<["sigs"%string := VObject (<[name := sig_object kid sig]> (envelope_sigs e))]> e).
Proof.
  intros He. pose proof (envelope_sigs_plain e He) as [Hsn Hsh]. destruct He as [Hn Hh].
  destruct (sig_object_plain kid sig) as [On Oh]. split.
  - rewrite fmap_insert, Hn. cbn [norm]. by rewrite fmap_insert, Hsn, On.
  - apply height_object_le. intros k v [[<- <-]|[_ Hk]]%lookup_insert_Some; [|by eapply height_lookup].
    enough (height (VObject (<[name := sig_object kid sig]> (envelope_sigs e))) <= 63)%nat by lia.
    apply height_object_le. intros k v [[<- <-]|[_ Hk]]%lookup_insert_Some; [lia|by eapply height_lookup].
Qed.

Section prepared.
Context {key : Type} `{!KeyOps key} `{!JwkText key} {N : NoteLib} {U : NetURL} {T : TLog} {I : Idna} {C : ConsistencyLib}.
Abbreviation LogEvent := (LogEvent key).
Abbreviation verifiedEvent := (verifiedEvent (key:=key)).
Abbreviation Client := (Client (key:=key)).
Abbreviation KeyProvider := (KeyProvider (key:=key)).

(** A prepared event as an entry of the stream [ref], but for signatures. *)
Record sound (ref : Reference) (p : PreparedEvent) (entry : string) (q : parsedEvent key) : Prop := {
  so_ref : pr_reference p = ref;
  so_plain : plain_envelope (envelope p);
  so_entry : payloadObjectFromEntry entry = Ok (envelope p);
  so_bytes : pr_Bytes p = Ok entry;
  so_metadata : validateEntryMetadata ref entry = Ok tt;
  so_event : eventFromPayload (envelope p) = Ok q;
  so_valid : p_validationError q = None;
  so_chain : validatePreparedChain ref q = Ok tt;
  so_required : requiredSignerRoles (Type_ (p_event q)) = Ok (requiredSignatures p);
  so_signed : CanonicalFromEntry entry = Ok (signedBytes p);
  so_again : preparedFromEnvelope (key:=key) ref (envelope p) = Ok p
}.

Lemma prepared_sound ref e p : plain_envelope e -> preparedFromEnvelope (key:=key) ref e = Ok p ->
  envelope p = e /\ exists entry q, sound ref p entry q.
Proof.
  intros He H. pose proof H as Hagain. unfold preparedFromEnvelope in H.
  destruct (cloneJSONObject e) as [e'|] eqn:Ec; [|done]. pose proof (clone_plain e He e' Ec) as ->. cbn [mbind res_bind] in H.
  destruct (eventFromPayload e) as [q|] eqn:Eq; [|done]. cbn [mbind res_bind] in H.
  destruct (p_validationError q) eqn:Ev; [done|]. destruct (validateWritableStream _ _) as [[]|]; [|done]. cbn [mbind res_bind] in H.
  destruct (canonicalJSON (VObject e)) as [entry|] eqn:Ee; [|done]. cbn [mbind res_bind] in H.
  destruct (entry_too_big entry); [done|]. destruct (validateEntryMetadata ref entry) as [[]|] eqn:Em; [|done]. cbn [mbind res_bind] in H.
  destruct (validatePreparedChain ref q) as [[]|] eqn:Evc; [|done]. cbn [mbind res_bind] in H.
  destruct (requiredSignerRoles _) as [required|] eqn:Er; [|done]. cbn [mbind res_bind] in H.
  destruct (validateSignatureShape _ _ _); [|done]. rewrite Ec in H. cbn [mbind res_bind] in H.
  destruct (canonicalJSON (VObject (delete _ e))) as [signed|] eqn:Es; [|done]. injection H as <-.
  assert (payloadObjectFromEntry entry = Ok e) as Hp.
  { unfold validateEntryMetadata in Em. destruct (payloadObjectFromEntry entry) as [e2|] eqn:E2; [|done].
    apply payload_from_entry in E2 as (_ & D & _). rewrite (decode_written e entry (canonicalJSON_write _ _ Ee)) in D by apply He.
    destruct He as [Hn _]. congruence. }
  split; [done|]. exists entry, q. split; try done. cbn. unfold CanonicalFromEntry. rewrite Hp. cbn [mbind res_bind]. by rewrite Es.
Qed.

Lemma parse_prepared_sound ref entry p : ParsePreparedEvent (key:=key) ref entry = Ok p ->
  exists q, sound ref p entry q.
Proof.
  unfold ParsePreparedEvent. destruct (payloadObjectFromEntry entry) as [e|] eqn:E; [|done]. cbn [in_parse mbind res_bind].
  destruct (preparedFromEnvelope ref e) as [p'|] eqn:Ep; [|done]. intros [= <-].
  destruct (prepared_sound ref e p' (payload_plain _ _ E) Ep) as (<- & entry' & q & Hs). exists q.
  assert (entry' = entry) as ->; [|done]. pose proof (so_entry _ _ _ _ Hs) as E'.
  apply payload_from_entry in E as (C1 & _), E' as (C2 & _). congruence.
Qed.
Lemma sound_parses ref p entry q : sound ref p entry q -> ParsePreparedEvent (key:=key) ref entry = Ok p.
Proof. intros H. unfold ParsePreparedEvent. rewrite (so_entry _ _ _ _ H). cbn [in_parse mbind res_bind]. by rewrite (so_again _ _ _ _ H). Qed.

(** ** Signing *)
(** [p'] is [p] with at most a signature of [role] more. *)
Record one_signature_more (p : PreparedEvent) (role : SignerRole) (p' : PreparedEvent) : Prop := {
  sm_reference : pr_reference p' = pr_reference p;
  sm_signed : signedBytes p' = signedBytes p;
  sm_fields : delete "sigs"%string (envelope p') = delete "sigs"%string (envelope p);
  sm_kept : envelope_sigs (envelope p) ⊆ envelope_sigs (envelope p');
  sm_only : forall name, name <> signatureName role -> envelope_sigs (envelope p') !! name = envelope_sigs (envelope p) !! name;
  sm_added : is_Some (envelope_sigs (envelope p') !! signatureName role)
}.

Lemma add_signature_spec ref p entry q role kid sig p' :
  sound ref p entry q -> envelope_sigs (envelope p) !! signatureName role = None ->
  add_signature (key:=key) ref p role kid sig = Ok p' ->
  one_signature_more p role p' /\ exists entry' q', sound ref p' entry' q'.
Proof.
  intros Hs Hno. unfold add_signature. destruct (cloneJSONObject (envelope p)) as [e|] eqn:Ec; [|done].
  apply (clone_plain _ (so_plain _ _ _ _ Hs)) in Ec as ->. cbn [in_validation mbind res_bind]. intros H.
  pose proof (add_sig_plain (envelope p) (signatureName role) kid (Base64.encode sig) (so_plain _ _ _ _ Hs)) as Hpl.
  destruct (prepared_sound ref _ p' Hpl H) as (He & entry' & q' & Hs'). split; [|by exists entry', q'].
  assert (envelope_sigs (envelope p') = <[signatureName role := sig_object kid (Base64.encode sig)]> (envelope_sigs (envelope p))) as Hsig.
  { rewrite He. unfold envelope_sigs at 1. by rewrite lookup_insert_eq. }
  assert (delete "sigs"%string (envelope p') = delete "sigs"%string (envelope p)) as Hd by (by rewrite He, delete_insert_eq).
  split; [by rewrite (so_ref _ _ _ _ Hs), (so_ref _ _ _ _ Hs')| |done|..].
  - pose proof (so_signed _ _ _ _ Hs) as S1. pose proof (so_signed _ _ _ _ Hs') as S2. unfold CanonicalFromEntry in S1, S2.
    rewrite (so_entry _ _ _ _ Hs) in S1. rewrite (so_entry _ _ _ _ Hs') in S2. cbn [mbind res_bind] in S1, S2. rewrite Hd in S2.
    destruct (canonicalJSON _); [|done]. congruence.
  - rewrite Hsig. by apply insert_subseteq.
  - intros name Hne. by rewrite Hsig, lookup_insert_ne.
  - rewrite Hsig, lookup_insert_eq. by eexists.
Qed.

Lemma sign_role_spec ref p entry q role kp namedKid keys p' :
  sound ref p entry q -> sign_role (key:=key) ref p role kp namedKid keys = Ok p' ->
  one_signature_more p role p' /\ exists entry' q', sound ref p' entry' q'.
Proof.
  intros Hs. unfold sign_role. destruct (verifyPresentSignatures p keys); [|done]. cbn [in_validation mbind res_bind].
  destruct (key_for role keys) as [expected|]; [|done]. destruct (signing_key expected kp namedKid) as [[[k kid] alg]|]; [|done].
  cbn [mbind res_bind]. destruct (envelope_sigs (envelope p) !! signatureName role) as [existing|] eqn:E.
  - destruct (parseSig _); [|done]. destruct (negb _); [done|]. intros [= <-].
    split; [by split; rewrite ?E|by exists entry, q].
  - destruct (if is_empty namedKid then _ else _) as [[sig|]|]; [|done|done]. cbn [argument_of mbind res_bind].
    destruct (negb (str_eqb (KeyRing.Kid sig) kid)); [done|]. destruct (negb (str_eqb (KeyRing.Alg sig) alg)); [done|].
    by apply (add_signature_spec ref p entry q).
Qed.

(** Signatures are collected without trust. Bytes of a prepared event that
    one signer receives, signs and hands on are read by the next as the very
    event that was signed: the signed bytes and so the event's identity, every
    field (unknown ones included) and every signature collected before are
    unchanged, and only the signature of the one role can be new. *)
Theorem signers_hand_on_the_same_event c w s entry p role kp kid p' s' :
  ParsePreparedEvent (key:=key) (client_ref c) entry = Ok p ->
  signPreparedEvent c w s p role kp kid = (Ok p', s') ->
  exists entry', pr_Bytes p' = Ok entry' /\ ParsePreparedEvent (key:=key) (client_ref c) entry' = Ok p' /\
    pr_EventID p' = pr_EventID p /\ one_signature_more p role p'.
Proof.
  intros (q & Hs)%parse_prepared_sound. unfold signPreparedEvent. destruct (validatePrepared _ p) as [[]|]; [|done].
  cbn [in_validation mbind res_bind]. destruct (negb _); [done|]. destruct kp as [kp|]; [|done].
  destruct (preparedSignerKeys c w s p) as [[keys|] s1]; [|done]. intros [= H%unless_cancelled_Ok _]. cbn [mbind res_bind] in H.
  destruct (sign_role_spec (client_ref c) p entry q role kp kid keys p' Hs H) as (Hm & entry' & q' & Hs').
  exists entry'. split; [by apply (so_bytes _ _ _ _ Hs')|]. split; [by eapply sound_parses|]. split; [|done].
  unfold pr_EventID. by rewrite (sm_signed _ _ _ Hm).
Qed.

(** ** Writing *)
Lemma all_ok_in {A} (f : A -> res unit) l x : all_ok (f <$> l) = Ok tt -> x ∈ l -> f x = Ok tt.
Proof.
  induction l as [|y l IH]; [by intros _ ?%not_elem_of_nil|]. cbn. destruct (f y) as [[]|] eqn:E; [|done].
  cbn [mbind res_bind]. intros H [->|Hx]%elem_of_cons; [done|by apply IH].
Qed.

Lemma complete_has_role e required role :
  validateSignatureShape e required true = Ok tt -> role ∈ required -> is_Some (envelope_sigs e !! signatureName role).
Proof.
  unfold validateSignatureShape, envelope_sigs. destruct (e !! "sigs"%string) as [[| | | | | |m]|]; try done.
  destruct (all_ok _) as [[]|]; [|done]. cbn [mbind res_bind andb]. destruct (existsb _ _) eqn:E; [done|]. intros _ Hr.
  destruct (m !! signatureName role) eqn:El; [by eexists|]. exfalso.
  enough (existsb (fun name => bool_decide (m !! name = None)) (signatureName <$> required) = true) by congruence.
  apply existsb_exists. exists (signatureName role). split; [apply list_elem_of_In, list_elem_of_fmap; eauto|].
  by rewrite bool_decide_true.
Qed.

(** The signature an envelope holds for a role, under the role's key. *)
Definition role_signed (p : PreparedEvent) (k : option key) (role : SignerRole) : Prop :=
  signed_by k (sig_Kid (read_sig (envelope p) (signatureName role))) (sig_Sig (read_sig (envelope p) (signatureName role))) (signedBytes p) = true.

Lemma verify_present_signed p keys role :
  verify_present (key:=key) p keys role = Ok tt -> is_Some (envelope_sigs (envelope p) !! signatureName role) ->
  role_signed p (key_for role keys) role.
Proof.
  unfold verify_present, role_signed, read_sig. intros H [raw E]. rewrite E in H. unfold envelope_sigs in E.
  destruct (envelope p !! "sigs"%string) as [[| | | | | |m]|]; try (by rewrite lookup_empty in E). rewrite E.
  destruct (parseSig (Some raw)) as [v|]; [|done]. cbn [default]. destruct (_ || _) eqn:E1; [done|]. apply orb_false_iff in E1 as [Hk _].
  destruct (key_for role keys) as [k|]; [|done]. destruct (_ || negb _) eqn:E2; [done|].
  apply orb_false_iff in E2 as [_ E2%negb_false_iff%str_eqb_eq]. destruct (verifyEventSignature _ _ _) as [u|] eqn:Ev; [|done].
  cbn -[verifyEventSignature]. by rewrite Hk, <- E2, str_eqb_refl, Ev.
Qed.

(** What [PreparedEntryBytes] checked. *)
Lemma prepared_entry_facts c w s ref p entry q entry' s' :
  sound ref p entry q -> PreparedEntryBytes c w s p = (Ok entry', s') ->
  entry' = entry /\ exists keys, preparedSignerKeys c w s p = (Ok keys, s') /\
    Forall (fun role => role_signed p (key_for role keys) role) (requiredSignatures p).
Proof.
  intros Hs. unfold PreparedEntryBytes. destruct (validatePrepared _ _) as [[]|]; [|done]. cbn [in_validation mbind res_bind].
  destruct (validateSignatureShape _ _ true) as [[]|] eqn:Esh; [|done]. cbn [in_validation].
  destruct (preparedSignerKeys c w s p) as [[keys|] s1]; [|done]. intros [= H%unless_cancelled_Ok <-]. cbn [mbind res_bind] in H.
  destruct (verifyPresentSignatures p keys) as [[]|] eqn:Ev; [|done]. cbn [in_validation mbind res_bind] in H.
  pose proof (so_bytes _ _ _ _ Hs) as Hb. unfold pr_Bytes in Hb. rewrite Hb in H. cbn [mbind res_bind] in H.
  destruct (entry_too_big entry); [done|]. injection H as <-. split; [done|]. exists keys. split; [done|].
  apply Forall_forall. intros role Hr. apply verify_present_signed; [by apply (all_ok_in _ _ _ Ev)|by eapply complete_has_role].
Qed.

(** The entry parses to the event that was prepared. *)
Lemma written_parses ref p entry q q' :
  sound ref p entry q -> parseEventFromEntry (key:=key) entry = Ok q' -> p_event q' = p_event q /\ p_chain q' = p_chain q.
Proof.
  intros Hs H. unfold parseEventFromEntry in H. rewrite (so_entry _ _ _ _ Hs) in H. cbn [mbind res_bind] in H.
  rewrite (so_event _ _ _ _ Hs) in H. go_inv. done.
Qed.

Lemma event_fields ref p entry q : sound ref p entry q ->
  exists t fqdn ts, p_event q = read_event t fqdn ts (envelope p) /\ validateLifecycleFields (p_event q) = Ok tt.
Proof.
  intros Hs. pose proof (so_event _ _ _ _ Hs) as He. pose proof (so_valid _ _ _ _ Hs) as Hv. unfold eventFromPayload in He.
  assert (forall a (r : res unit), join_errors a (error_of r) = None -> r = Ok tt) as Hj by (by intros [] [[]|]).
  go_inv; cbn in Hv |- *; do 3 eexists; (split; [reflexivity|]); by apply Hj in Hv.
Qed.

Lemma stream_entity_thumb (verify : option (LogEvent -> res (MigrationVerificationResult (key:=key)))) l h :
  verified_stream verify l h -> exists et, keyThumbprint (st_entity h) = Ok et /\ st_state h !! "entity_thumb"%string = Some (VString et).
Proof.
  induction 1 as [x et _ _ _ _ _ Het|x e f m et ot _ _ _ _ _ _ _ _ _ _ Het|l h x h' _ (et & Het & Hst) _ _ _ _ _ _ _ Heff].
  - exists et. split; [done|apply active_entity_thumb].
  - exists et. split; [done|apply active_entity_thumb].
  - destruct Heff as [et' t Ety _ _ _ _ _ Het'|et' Ety _ Het'|et' Ety Het'|]; cbn [next st_entity st_state];
      [exists et'; split; [done|apply active_entity_thumb]| | |by exists et];
      (exists et'; split; [done|]; rewrite lookup_insert_ne by done; apply active_entity_thumb).
Qed.

(** The keys the history establishes for an event that is not a genesis. *)
Definition genesis_event (ref : Reference) (e : LogEvent) : bool := type_eqb (Type_ e) LogEventIssuance || isInboundMigration ref e.

(** Every read of the history of [domain] in these calls gives [accepted]. *)
Definition reads (c : Client) (domain : string) (accepted : list verifiedEvent) (w : call) : Prop :=
  forall s, exists events s', rebuildVerifiedHistory c w s domain = (Ok (accepted, events), s').

Lemma current_state c w s domain accepted now_ :
  reads c domain accepted w -> lifecycleStateFromVerified accepted domain = Ok now_ ->
  exists s', currentLifecycleState c w s domain = (Ok now_, s').
Proof.
  intros H Hn. destruct (H s) as (events & s' & E). unfold currentLifecycleState. rewrite E. cbn [mbind res_bind]. rewrite Hn. by eexists.
Qed.

Section written.
Context (ref : Reference) (p : PreparedEvent) (entry : string) (q : parsedEvent key) (Hs : sound ref p entry q).

Lemma not_outbound : genesis_event ref (p_event q) = false -> Type_ (p_event q) <> LogEventIssuance /\ Type_ (p_event q) <> LogEventMigration.
Proof.
  unfold genesis_event. intros [E1 E2]%orb_false_iff. apply bool_decide_eq_false in E1. split; [done|]. intros E.
  pose proof (so_chain _ _ _ _ Hs) as Hc. unfold validatePreparedChain in Hc. rewrite E, E2 in Hc. done.
Qed.

Lemma event_of_prepared : pr_Event (key:=key) p = Ok (p_event q).
Proof. unfold pr_Event. by rewrite (so_event _ _ _ _ Hs). Qed.

(** Authorization: the signatures are by the keys in force. *)
Lemma written_authorized c w s accepted entity operational state keys s' :
  client_ref c = ref -> genesis_event ref (p_event q) = false ->
  reads c (Lifecycle.Domain (p_event q)) accepted w ->
  lifecycleStateFromVerified accepted (Lifecycle.Domain (p_event q)) = Ok (entity, operational, state) ->
  preparedSignerKeys c w s p = (Ok keys, s') ->
  Forall (fun role => role_signed p (key_for role keys) role) (requiredSignatures p) ->
  candidateAuthorizedByCurrentHistory (p_event q) (signedBytes p) entity operational = true /\
  (Type_ (p_event q) = LogEventKeyRotation -> state !! "entity_thumb"%string <> Some (VString (NewOperationalThumbprint (p_event q)))).
Proof.
  intros Href Hg Hr Hn. unfold preparedSignerKeys. rewrite event_of_prepared.
  destruct (current_state c w s _ accepted _ Hr Hn) as (s1 & Ec). destruct (not_outbound Hg) as [N1 N2].
  destruct (event_fields _ _ _ _ Hs) as (t & fqdn & ts & Ee & _). pose proof (so_required _ _ _ _ Hs) as Hreq.
  unfold candidateAuthorizedByCurrentHistory. destruct (Type_ (p_event q)) eqn:Ety; try done; rewrite ?Ec; cbn [mbind res_bind].
  all: cbn [requiredSignerRoles] in Hreq; injection Hreq as Hroles; rewrite <- Hroles; intros [= H _] Hf; rewrite Ee in *.
  1: unfold rotation_keys in H. all: go_inv.
  all: repeat match type of Hf with Forall _ (_ :: _) => apply Forall_cons in Hf as [? Hf] end.
  2-4: by split.
  split; [by apply andb_true_iff|]. intros _. by eapply bool_decide_eq_false.
Qed.

(** The chain names the end of the history. *)
Lemma written_names c w w' s accepted now_ h q' s' verify :
  verified_stream verify accepted h ->
  client_ref c = ref -> genesis_event ref (p_event q) = false -> p_event q' = p_event q -> p_chain q' = p_chain q ->
  reads c (Lifecycle.Domain (p_event q)) accepted w -> reads c (Lifecycle.Domain (p_event q)) accepted w' ->
  lifecycleStateFromVerified accepted (Lifecycle.Domain (p_event q)) = Ok (now_, st_state h) ->
  validatePreparedChainAgainstHistory c w w' s q' = (Ok tt, s') -> names h (p_chain q).
Proof.
  intros Hv Href Hg He Hc Hr Hr' Hn. unfold validatePreparedChainAgainstHistory. rewrite He, Href.
  unfold genesis_event in Hg. rewrite Hg. destruct (Hr s) as (events & s1 & ->).
  destruct (stream_last _ _ _ Hv) as (l & Hl & Hid & _). rewrite Hl.
  destruct (current_state c w' s1 _ accepted _ Hr' Hn) as (s2 & ->). destruct now_ as [en op]. cbn [mbind res_bind].
  destruct (stream_last_seq _ _ _ _ Hv Hl) as [-> _]. 
  intros [= H _]. rewrite Hc in H. destruct (validChainFields _ _ _ _) eqn:E; [|done].
  apply validChainFields_spec. rewrite Hid, (stream_length _ _ _ Hv). rewrite <- E. f_equal. unfold u64.
  rewrite Z.add_mod_idemp_l by lia. f_equal. lia.
Qed.

(** The event as an item of the stream, under the keys in force. *)
Definition written_item (h : standing (key:=key)) (i : Z) : verifiedEvent :=
  {| v_event := p_event q; v_chain := p_chain q; v_index := i; v_signed := signedBytes p; v_parseError := None;
     v_migration := None; v_authorityEntity := st_entity h; v_authorityOperational := st_operational h |}.

(** A rotation is from the key in force to another. *)
Definition rotates_key_in_force (h : standing (key:=key)) (e : LogEvent) : Prop :=
  Type_ e = LogEventKeyRotation -> PreviousOperationalThumbprint e = st_thumb h /\ NewOperationalThumbprint e <> st_thumb h.

Lemma written_effect verify accepted h i :
  verified_stream verify accepted h -> genesis_event ref (p_event q) = false -> rotates_key_in_force h (p_event q) ->
  (Type_ (p_event q) = LogEventKeyRotation -> st_state h !! "entity_thumb"%string <> Some (VString (NewOperationalThumbprint (p_event q)))) ->
  exists h', effect h (written_item h i) h'.
Proof.
  intros Hv Hg Hrot Hdist. destruct (stream_entity_thumb _ _ _ Hv) as (et & Het & Hst). destruct (not_outbound Hg) as [N1 N2].
  destruct (event_fields _ _ _ _ Hs) as (_ & _ & _ & _ & Hf). unfold validateLifecycleFields in Hf.
  unfold rotates_key_in_force in Hrot. destruct (match NormalizeFQDN _ with Ok _ => _ | Err _ => _ end); [done|].
  destruct (Type_ (p_event q)) eqn:Ety; try done.
  - destruct (_ || _ || _) eqn:E0; [done|]. apply orb_false_iff in E0 as [[_ E0]%orb_false_iff _]. apply is_empty_false in E0.
    destruct (validateSigningJWK _ _) as [[]|]; [|done]. cbn [mbind res_bind] in Hf. destruct (keyThumbprint (NewOperationalPublicKey _)) as [t|] eqn:Et; [|done].
    destruct (str_eqb _ _) eqn:E; [|done]. apply str_eqb_eq in E. destruct (Hrot eq_refl) as [R1 R2]. specialize (Hdist eq_refl).
    eexists. eapply (effect_rotation h (written_item h i) et t); cbn; try congruence.
  - destruct (ValidRevocationReason _) eqn:E; [|done]. eexists. by apply (effect_revocation h (written_item h i) et).
  - eexists. by apply (effect_retirement h (written_item h i) et).
  - destruct (_ || _ || _) eqn:E0; [done|]. apply orb_false_iff in E0 as [[E1%is_empty_false E2%is_empty_false]%orb_false_iff E3].
    eexists. apply (effect_delegation h (written_item h i)); try done. by apply Z.eqb_neq.
Qed.
End written.

(** What an append of [WritePreparedEvent] went through. *)
Lemma write_parts c appender w1 w2 w3 s p entry :
  wr_appended (WritePreparedEvent c appender w1 w2 w3 s p) = Some entry ->
  exists append q s1 s2, appender = Some append /\ PreparedEntryBytes c w1 s p = (Ok entry, s1) /\
    parseEventFromEntry (key:=key) entry = Ok q /\ validatePreparedChainAgainstHistory c w2 w3 s1 q = (Ok tt, s2) /\
    wr_ref (WritePreparedEvent c appender w1 w2 w3 s p) = (index ← append entry; Ok (FinalEventRef (client_ref c) index)).
Proof.
  unfold WritePreparedEvent. destruct appender as [append|]; [|done].
  destruct (PreparedEntryBytes c w1 s p) as [[entry'|] s1]; [|done].
  destruct (parseEventFromEntry entry') as [q|] eqn:Eq; [|done]. cbn [in_validation].
  destruct (validatePreparedChainAgainstHistory c w2 w3 s1 q) as [[[]|] s2] eqn:Ev; [|done]. cbn. intros [= <-].
  by exists append, q, s1, s2.
Qed.

(** The written event at the end of the verified history. *)
Lemma written_at_the_end c appender w1 w2 w3 s entry0 p q entry accepted :
  skipProofVerify (client_policy c) = false ->
  ParsePreparedEvent (key:=key) (client_ref c) entry0 = Ok p -> eventFromPayload (envelope p) = Ok q ->
  genesis_event (client_ref c) (p_event q) = false ->
  (forall w, w ∈ [w1; w2; w3] -> reads c (Lifecycle.Domain (p_event q)) accepted w) ->
  wr_appended (WritePreparedEvent c appender w1 w2 w3 s p) = Some entry ->
  sound (client_ref c) p entry q /\ entry = entry0 /\ Forall (of_domain (Lifecycle.Domain (p_event q))) accepted /\
  exists h, verified_stream (migration_verifier c w1) accepted h /\ names h (p_chain q) /\
    candidateAuthorizedByCurrentHistory (p_event q) (signedBytes p) (st_entity h) (st_operational h) = true /\
    (Type_ (p_event q) = LogEventKeyRotation -> st_state h !! "entity_thumb"%string <> Some (VString (NewOperationalThumbprint (p_event q)))).
Proof.
  intros Hskip (q0 & Hs)%parse_prepared_sound Hq Hg Hr Hw. assert (q0 = q) as -> by (pose proof (so_event _ _ _ _ Hs); congruence).
  apply write_parts in Hw as (append & q' & s1 & s2 & -> & Hb & Hp & Hc & _).
  destruct (prepared_entry_facts _ _ _ _ _ _ _ _ _ Hs Hb) as (-> & keys & Hk & Hf). destruct (written_parses _ _ _ _ _ Hs Hp) as [He Hch].
  assert (reads c (Lifecycle.Domain (p_event q)) accepted w1 /\ reads c (Lifecycle.Domain (p_event q)) accepted w2 /\
    reads c (Lifecycle.Domain (p_event q)) accepted w3) as (R1 & R2 & R3) by (split_and!; apply Hr; set_solver).
  destruct (R1 s) as (events & s3 & Hh). destruct (rebuilt_history_authentic _ _ _ _ _ _ _ Hskip Hh) as (entries & _ & _ & (h & Hv) & Hd).
  assert (Forall (of_domain (Lifecycle.Domain (p_event q))) accepted) as Hdom.
  { eapply Forall_impl; [exact Hd|]. intros y. apply proven_of_domain. }
  pose proof (lifecycle_state_of_stream _ _ _ _ Hv Hdom) as Hn.
  destruct (written_authorized _ _ _ _ Hs c w1 s accepted _ _ _ keys s1 eq_refl Hg R1 Hn Hk Hf) as [Ha Hdist].
  pose proof (written_names (client_ref c) q c w2 w3 s1 accepted _ h q' s2 _ Hv eq_refl Hg He Hch R2 R3 Hn Hc) as Hnm.
  split_and!; try done. by exists h.
Qed.


(** A revocation or a retirement ends its stream. *)
Lemma ended_by_last verify l x h : verified_stream verify (l ++ [x]) h ->
  Type_ (v_event x) = LogEventRevocation \/ Type_ (v_event x) = LogEventRetirement -> st_ended h = true.
Proof.
  intros Hv Hty. remember (l ++ [x]) as full eqn:E. apply (f_equal last) in E. rewrite last_snoc in E.
  destruct Hv as [y et Tx|y e f m et ot Hf He Hm E1 Tx|l' h0 y h' _ _ _ _ _ _ _ _ He].
  - injection E as ->. destruct Hty as [Hx|Hx]; by rewrite Hx in Tx.
  - injection E as ->. rewrite E1 in Hty. change (Type_ (with_initial_keys e (EntityKey m) et (ActiveOperationalKey m) ot)) with (Type_ e) in Hty.
    destruct Hty as [Hx|Hx]; by rewrite Hx in Tx.
  - rewrite last_snoc in E. injection E as ->. destruct He as [et t Tx|et Tx|et Tx|Tx]; try done; destruct Hty as [Hx|Hx]; by rewrite Hx in Tx.
Qed.

End prepared.
