(* ===== verification/PreparedDemo.v ===== *)
(** * PreparedDemo: a write to the concrete log

    The entries of Demo.v prepared, signed and written with the client of
    ClientDemo.v: the inputs of the theorems about writing. *)

From Stdlib Require Import ZArith Lia Ascii String.
From S2P Require Import Prelude Codec Utf8 Numbers Jcs JcsSpec Keys Fqdn Lifecycle LogReader Merkle Evidence Reference Policy Checkpoint Scan Event EventSpec Replay ReplaySpec AppendSpec Client Reader ReaderSpec Demo ClientDemo Json KeyRing JoseUtil Prepared PreparedSpec.

Open Scope Z_scope.
#[local] Existing Instance log_notes.
#[local] Existing Instance rfc6962_tlog.
#[local] Existing Instance demo_lib.

Definition write_call : call := log_call log_at.
(** An appender that adds the entry at index 2. *)
Definition demo_append (entry : string) : res Z := Ok 2.

Definition history_read (n : nat) : list (verifiedEvent (key:=demo_key)) :=
  match rebuildVerifiedHistory (log_client n) write_call None log_domain with (Ok (accepted, _), _) => accepted | _ => [] end.
Definition history2 := Eval vm_compute in history_read 2.
Definition history3 := Eval vm_compute in history_read 3.
Lemma log_reads_2 : reads (log_client 2) log_domain history2 write_call.
Proof. intros s. do 2 eexists. vm_compute. reflexivity. Qed.
Lemma log_reads_3 : reads (log_client 3) log_domain history3 write_call.
Proof. intros s. do 2 eexists. vm_compute. reflexivity. Qed.

(** ** The retirement, prepared by one party and signed by another *)
Definition signer (k : demo_key) : KeyProvider (key:=demo_key) :=
  let sign payload := Ok (Some (KeyRing.Sig (demo_kid k) "EdDSA" (demo_sign (demo_pub k) payload))) in
  {| kp_ListKeyIds := [demo_kid k]; kp_Active := Some k; kp_JWK kid := if str_eqb kid (demo_kid k) then Some k else None;
     kp_Sign := sign; kp_SignKey _ := sign |}.
Definition bytes_of (r : res PreparedEvent) : string := value_of "" (p ← r; pr_Bytes p).
Definition unsigned_retirement : string := Eval vm_compute in
  bytes_of (prepareEvent demo_ref demo_retirement0 demo_c2).
Definition no_event : PreparedEvent := {| pr_reference := demo_ref; envelope := ∅; signedBytes := ""; requiredSignatures := [] |}.
Definition parsed_of (entry : string) : PreparedEvent := value_of no_event (ParsePreparedEvent (key:=demo_key) demo_ref entry).
Definition received : PreparedEvent := Eval vm_compute in parsed_of unsigned_retirement.
Definition signed_by_entity := Eval vm_compute in
  value_of no_event (signPreparedEvent (log_client 2) write_call None received SignerEntity (Some (signer demo_entity)) "").1.

Lemma received_parses : ParsePreparedEvent (key:=demo_key) demo_ref unsigned_retirement = Ok received.
Proof. vm_compute. reflexivity. Qed.
Lemma retirement_signed :
  signPreparedEvent (log_client 2) write_call None received SignerEntity (Some (signer demo_entity)) EmptyString = (Ok signed_by_entity, None).
Proof. vm_compute. reflexivity. Qed.

Lemma signers_hand_on_the_same_event_witness :
  exists entry', ParsePreparedEvent (key:=demo_key) demo_ref entry' = Ok signed_by_entity /\
    one_signature_more received SignerEntity signed_by_entity /\ entry' = demo_e2.
Proof.
  destruct (signers_hand_on_the_same_event (log_client 2) write_call None unsigned_retirement received SignerEntity
    (Some (signer demo_entity)) EmptyString signed_by_entity None received_parses retirement_signed) as (entry' & Hb & Hp & _ & Hm).
  exists entry'. split; [exact Hp|]. split; [exact Hm|].
  assert (pr_Bytes signed_by_entity = Ok demo_e2) as E by (vm_compute; reflexivity). rewrite E in Hb. congruence.
Defined.

(** ** The retirement, written *)
Definition retirement_prepared : PreparedEvent := Eval vm_compute in parsed_of demo_e2.
Definition retirement_parsed : parsedEvent demo_key := Eval vm_compute in
  value_of {| p_event := bare_event LogEventRetirement 0; p_chain := demo_chain 0 "" ""; p_validationError := None |}
    (eventFromPayload (envelope retirement_prepared)).
Lemma retirement_parses :
  ParsePreparedEvent (key:=demo_key) demo_ref demo_e2 = Ok retirement_prepared /\
  eventFromPayload (envelope retirement_prepared) = Ok retirement_parsed /\
  genesis_event demo_ref (p_event retirement_parsed) = false /\
  wr_appended (WritePreparedEvent (log_client 2) (Some demo_append) write_call write_call write_call None retirement_prepared) = Some demo_e2.
Proof. vm_compute. auto. Qed.
Lemma retirement_domain : Lifecycle.Domain (p_event retirement_parsed) = log_domain.
Proof. vm_compute. reflexivity. Qed.


(** ** A second retirement, written after the first *)
Definition second_c := Eval vm_compute in demo_chain 3 (EventID demo_b2)
  (lifecycleStateHash (<["status"%string := VString "RETIRED"]> demo_state1)).
Definition second_retirement := bare_event LogEventRetirement 3500.
Definition second_b : string := Eval vm_compute in demo_signed second_retirement second_c.
Definition second_e : string := Eval vm_compute in
  entry_of (with_sigs second_retirement ("ek1", demo_sig demo_entity second_b) no_sig no_sig no_sig) second_c.
Definition second_prepared : PreparedEvent := Eval vm_compute in parsed_of second_e.
Definition second_parsed : parsedEvent demo_key := Eval vm_compute in
  value_of {| p_event := bare_event LogEventRetirement 0; p_chain := demo_chain 0 "" ""; p_validationError := None |}
    (eventFromPayload (envelope second_prepared)).
Lemma second_parses :
  ParsePreparedEvent (key:=demo_key) demo_ref second_e = Ok second_prepared /\
  eventFromPayload (envelope second_prepared) = Ok second_parsed /\
  genesis_event demo_ref (p_event second_parsed) = false /\
  wr_appended (WritePreparedEvent (log_client 3) (Some demo_append) write_call write_call write_call None second_prepared) = Some second_e.
Proof. vm_compute. auto. Qed.
Lemma second_is_new : bool_decide (NoDup (ids history3)) && negb (bool_decide (EventID (signedBytes second_prepared) ∈ ids history3)) = true.
Proof. vm_compute. reflexivity. Qed.
Lemma second_domain : Lifecycle.Domain (p_event second_parsed) = log_domain.
Proof. vm_compute. reflexivity. Qed.

