(* ===== verification/LogSigning.v ===== *)
(** * LogSigning: signing and writing lifecycle events

    log.go: the manager's side of the lifecycle log. An event collects the
    signatures its type requires, one role at a time and possibly on different
    machines, and is handed to the log bound to the manager's reference. What
    the log then does with it is Prepared.v for c2sp-tlog. *)

From Stdlib Require Import ZArith Lia Ascii String.
From S2P Require Import Prelude Codec Keys Fqdn Lifecycle Json KeyRing Jwks JoseUtil Replay Manager.

Open Scope Z_scope.

Inductive LogSignerRole :=
| LogSignerEntity
| LogSignerOperationalCountersignature
| LogSignerPreviousOperational
| LogSignerNewOperational
| LogSignerUnknown (role : string).
#[export] Instance LogSignerRole_eq_dec : EqDecision LogSignerRole.
Proof. solve_decision. Defined.

Definition truncate_second (t : time) : time := t - t mod second.

Inductive RegistryRevocationReason := RegistryRevocationReasonOwnerRequest | RegistryRevocationReasonKeyCompromise | RegistryRevocationReasonOther (reason : string).
Definition validRegistryRevocationReason (reason : RegistryRevocationReason) : bool :=
  match reason with RegistryRevocationReasonOther _ => false | _ => true end.

Section signing.
Context {key : Type} `{!KeyOps key}.
Abbreviation LogEvent := (LogEvent key).
Abbreviation KeyProvider := (KeyProvider (key:=key)).

(** ** Events and their signatures *)
Definition role_signature (event : LogEvent) (role : LogSignerRole) : string * string :=
  match role with
  | LogSignerEntity => (InitialEntityKid event, InitialEntitySignature event)
  | LogSignerOperationalCountersignature => (InitialOperationalKid event, InitialOperationalSignature event)
  | LogSignerPreviousOperational => (PreviousOperationalKid event, PreviousOperationalSignature event)
  | LogSignerNewOperational => (NewOperationalKid event, NewOperationalSignature event)
  | LogSignerUnknown _ => (EmptyString, EmptyString)
  end.

(** The event with another time and other signatures. *)
Definition signed_event (e : LogEvent) (t : time) (s : LogSignerRole -> string * string) : LogEvent :=
  {| Type_ := Type_ e;
     InitialEntityKid := (s LogSignerEntity).1;
     InitialEntityPublicKey := InitialEntityPublicKey e;
     InitialEntityThumbprint := InitialEntityThumbprint e;
     InitialEntitySignature := (s LogSignerEntity).2;
     InitialOperationalKid := (s LogSignerOperationalCountersignature).1;
     InitialOperationalPublicKey := InitialOperationalPublicKey e;
     InitialOperationalThumbprint := InitialOperationalThumbprint e;
     InitialOperationalSignature := (s LogSignerOperationalCountersignature).2;
     PreviousOperationalKid := (s LogSignerPreviousOperational).1;
     PreviousOperationalThumbprint := PreviousOperationalThumbprint e;
     PreviousOperationalSignature := (s LogSignerPreviousOperational).2;
     NewOperationalKid := (s LogSignerNewOperational).1;
     NewOperationalPublicKey := NewOperationalPublicKey e;
     NewOperationalThumbprint := NewOperationalThumbprint e;
     NewOperationalSignature := (s LogSignerNewOperational).2;
     Lifecycle.Domain := Lifecycle.Domain e;
     Timestamp := t;
     GovernanceID := GovernanceID e;
     Reason := Reason e;
     PreviousLog := PreviousLog e;
     NewLog := NewLog e;
     FinalEntryRef := FinalEntryRef e;
     Delegatee := Delegatee e;
     Lifecycle.Scope := Lifecycle.Scope e;
     Lifecycle.Expiry := Lifecycle.Expiry e |}.
Definition set_signature (e : LogEvent) (role : LogSignerRole) (kid sig : string) : LogEvent :=
  signed_event e (Timestamp e) (fun r => if decide (r = role) then (kid, sig) else role_signature e r).
Definition with_timestamp (e : LogEvent) (t : time) : LogEvent := signed_event e t (role_signature e).

(** ** The log of a reference *)
Record binding := { b_Canonical : LogEvent -> res string; b_WriteEvent : option (LogEvent -> res string) }.
Record Log := { lg_Canonical : LogEvent -> res string; lg_WriteEvent : LogEvent -> res string }.

Definition reader_Canonical (r : Lifecycle.LogReader (reader:=binding)) : LogEvent -> res string :=
  match r with Lifecycle.NoopLogReader _ => fun _ => Err noop_err | BoundReader b => b_Canonical b end.

(** A manager, as far as the log concerns it. *)
Record LocalManager := {
  lm_Domain : string;
  lm_GovernanceID : string;
  lm_LogRef : string;
  lm_keys : option KeyProvider;
  lm_entityKeys : option KeyProvider;
  logRegistry : option (gmap string (string -> option binding));
  localLog : option Log
}.
Definition manager_logReaderFor (m : LocalManager) (lr : string) : res (Lifecycle.LogReader (reader:=binding)) :=
  NewReader (logRegistry m) lr.

(** [localWriteLog]: the log is bound once, under the manager's mutex. *)
Definition with_localLog (m : LocalManager) (l : Log) : LocalManager :=
  {| lm_Domain := lm_Domain m; lm_GovernanceID := lm_GovernanceID m; lm_LogRef := lm_LogRef m; lm_keys := lm_keys m;
     lm_entityKeys := lm_entityKeys m; logRegistry := logRegistry m; localLog := Some l |}.
Definition localWriteLog (m : LocalManager) : res Log * LocalManager :=
  match localLog m with
  | Some l => (Ok l, m)
  | None =>
      match manager_logReaderFor m (lm_LogRef m) with
      | Err e => (Err e, m)
      | Ok (BoundReader {| b_Canonical := canonical; b_WriteEvent := Some write |}) =>
          let l := {| lg_Canonical := canonical; lg_WriteEvent := write |} in (Ok l, with_localLog m l)
      | Ok _ => (Err (ArgumentError "dnsid: local log is not write-capable"), m)
      end
  end.

Definition CanonicalizeLogEvent (m : LocalManager) (event : LogEvent) : res string :=
  fail_if is_empty (lm_LogRef m) with ArgumentError "dnsid: local log reference is required" ;;
  reader ← manager_logReaderFor m (lm_LogRef m);
  reader_Canonical reader event.

(** ** One signature *)
Definition active_signing_kid (kp : option KeyProvider) : res string :=
  match kp with
  | None => Err (ArgumentError "dnsid: nil KeyProvider")
  | Some kp =>
      match kp_Active kp with
      | None => Err (ArgumentError "dnsid: KeyProvider has no active key")
      | Some k =>
          match key_id k with
          | Some kid => fail_if is_empty kid with ArgumentError "dnsid: active signing key missing kid" ;; Ok kid
          | None => Err (ArgumentError "dnsid: active signing key missing kid")
          end
      end
  end.

Definition signer_error (msg : string) : error := ArgumentError (String.append "dnsid: log signer role " msg).
Definition as_argument {A} (msg : string) (r : res A) : res A :=
  match r with Ok a => Ok a | Err e => Err (WithCause (signer_error msg) e) end.

(** The key a role must sign with, as the event names it: the public key, the
    kid and whether the kid selects the key. *)
Definition event_key (event : LogEvent) (role : LogSignerRole) : res (option key * string * bool) :=
  match role with
  | LogSignerEntity => Ok (InitialEntityPublicKey event, EmptyString, false)
  | LogSignerOperationalCountersignature => Ok (InitialOperationalPublicKey event, EmptyString, false)
  | LogSignerPreviousOperational => Ok (None, PreviousOperationalKid event, true)
  | LogSignerNewOperational => Ok (NewOperationalPublicKey event, NewOperationalKid event, true)
  | LogSignerUnknown _ => Err (ArgumentError "dnsid: unsupported log signer role")
  end.

(** The kid to sign with, once the provider's key is the event's. *)
Definition signer_kid (event : LogEvent) (role : LogSignerRole) (kp : KeyProvider) : res (string * bool) :=
  '(expected, named, useNamedKey) ← event_key event role;
  kid ← (if useNamedKey then fail_if is_empty named with signer_error "has no event kid" ;; Ok named
         else as_argument "invalid key provider" (active_signing_kid (Some kp)));
  let expected :=
    if negb useNamedKey && bool_decide (expected = None) && bool_decide (role = LogSignerEntity)
       && negb (type_eqb (Type_ event) LogEventIssuance)
    then kp_JWK kp kid else expected in
  fail_if bool_decide (expected = None) && negb (bool_decide (role = LogSignerPreviousOperational))
    with signer_error "has no event public key" ;;
  k ← match kp_JWK kp kid with Some k => Ok k | None => Err (signer_error "key not found") end;
  keyThumb ← as_argument "computing key thumbprint" (jwk_Thumbprint (Some k));
  expectedThumb ← match expected with
                  | Some e => as_argument "computing event key thumbprint" (jwk_Thumbprint (Some e))
                  | None => Ok (PreviousOperationalThumbprint event)
                  end;
  fail_if is_empty expectedThumb with signer_error "has no event key thumbprint" ;;
  fail_if negb (str_eqb keyThumb expectedThumb) with signer_error "key does not match event key" ;;
  Ok (kid, useNamedKey).

(** The signature itself, over the canonical bytes of [event]. *)
Definition signature_over (event : LogEvent) (kp : KeyProvider) (canonical : LogEvent -> res string) (kid : string) (useNamedKey : bool) : res string :=
  bytes ← match canonical event with
          | Ok b => Ok b
          | Err e => Err (WithCause (ValidationError "dnsid: canonicalizing lifecycle event") e)
          end;
  sig ← as_argument "signing failed" (if useNamedKey then kp_SignKey kp kid bytes else kp_Sign kp bytes);
  match sig with
  | None => Err (signer_error "KeyProvider returned no signature")
  | Some sig =>
      fail_if negb (str_eqb (KeyRing.Kid sig) kid) with signer_error "signed with another kid" ;;
      Ok (Base64.encode (KeyRing.Signature sig))
  end.

(** [SignLogEventWithKey]: the event as it is left, also after an error. *)
Definition SignLogEventWithKey (event : LogEvent) (role : LogSignerRole) (kp : option KeyProvider)
    (canonicalizer : option (LogEvent -> res string)) : LogEvent * res unit :=
  match kp, canonicalizer with
  | None, _ => (event, Err (signer_error "is not configured"))
  | Some _, None => (event, Err (ArgumentError "dnsid: log canonicalizer is required"))
  | Some kp, Some canonical =>
      match signer_kid event role kp with
      | Err e => (event, Err e)
      | Ok (kid, useNamedKey) =>
          let event := set_signature event role kid EmptyString in
          match signature_over event kp canonical kid useNamedKey with
          | Err e => (event, Err e)
          | Ok encoded => (set_signature event role kid encoded, Ok tt)
          end
      end
  end.

Definition role_provider (m : LocalManager) (role : LogSignerRole) : option KeyProvider :=
  match role with LogSignerEntity => lm_entityKeys m | _ => lm_keys m end.

Definition SignLogEvent (m : LocalManager) (event : LogEvent) (role : LogSignerRole) : LogEvent * res unit :=
  if is_empty (lm_LogRef m) then (event, Err (ArgumentError "dnsid: local log reference is required"))
  else
    match role with
    | LogSignerUnknown _ => (event, Err (ArgumentError "dnsid: unsupported log signer role"))
    | _ =>
        match manager_logReaderFor m (lm_LogRef m) with
        | Err e => (event, Err e)
        | Ok reader => SignLogEventWithKey event role (role_provider m role) (Some (reader_Canonical reader))
        end
    end.

(** ** Writing *)
Definition validateLifecycleEvent (event : LogEvent) : res unit :=
  fail_if type_eqb (Type_ event) LogEventRevocation && negb (ValidRevocationReason (Reason event))
    with ArgumentError "dnsid: invalid REVOCATION reason" ;;
  Ok tt.

Definition RequiredLogSignatures (event : LogEvent) : res (list LogSignerRole) :=
  match Type_ event with
  | LogEventIssuance => Ok [LogSignerEntity; LogSignerOperationalCountersignature]
  | LogEventKeyRotation => Ok [LogSignerPreviousOperational]
  | LogEventRevocation | LogEventRetirement | LogEventMigration | LogEventDelegation => Ok [LogSignerEntity]
  | LogEventOther _ => Err (ArgumentError "dnsid: unsupported lifecycle event type")
  end.

Definition logSignaturePresent (event : LogEvent) (role : LogSignerRole) : bool :=
  let '(kid, sig) := role_signature event role in negb (is_empty kid) && negb (is_empty sig).

(** The checks of [WriteSignedEvent]. *)
Definition check_signed (event : LogEvent) : res unit :=
  validateLifecycleEvent event ;;
  match Type_ event with
  | LogEventIssuance =>
      fail_if bool_decide (InitialOperationalPublicKey event = None) || bool_decide (InitialEntityPublicKey event = None)
        with ArgumentError "dnsid: ISSUANCE requires operational and accountable-entity public keys" ;;
      fail_if negb (logSignaturePresent event LogSignerEntity)
        with ArgumentError "dnsid: ISSUANCE requires an accountable-entity signature" ;;
      fail_if negb (logSignaturePresent event LogSignerOperationalCountersignature)
        with ArgumentError "dnsid: ISSUANCE requires an operational countersignature" ;;
      Ok tt
  | LogEventKeyRotation =>
      fail_if negb (logSignaturePresent event LogSignerPreviousOperational)
        with ArgumentError "dnsid: KEY_ROTATION requires a previous-operational signature" ;;
      Ok tt
  | LogEventRevocation | LogEventRetirement | LogEventMigration | LogEventDelegation =>
      fail_if negb (logSignaturePresent event LogSignerEntity)
        with ArgumentError "dnsid: event requires an accountable-entity signature" ;;
      Ok tt
  | LogEventOther _ => Err (ArgumentError "dnsid: unsupported lifecycle event type")
  end.

(** An operation that ends by handing an event to the log: the answer, the
    event it handed over and the manager afterwards. *)
Record handed := { hd_ref : res string; hd_event : option LogEvent; hd_manager : LocalManager }.
Definition unwritten (e : error) (m : LocalManager) : handed := {| hd_ref := Err e; hd_event := None; hd_manager := m |}.
Definition written_back (log : Log) (event : LogEvent) (m : LocalManager) : handed :=
  {| hd_ref := lg_WriteEvent log event; hd_event := Some event; hd_manager := m |}.

Definition WriteSignedEvent (m : LocalManager) (event : LogEvent) : handed :=
  match check_signed event with
  | Err e => unwritten e m
  | Ok _ =>
      match localWriteLog m with
      | (Err e, m) => unwritten e m
      | (Ok log, m) => written_back log event m
      end
  end.

(** The loop of [SignAndWriteEvent]; a role without a provider is skipped. *)
Fixpoint sign_roles (m : LocalManager) (log : Log) (roles : list LogSignerRole) (event : LogEvent) : res LogEvent :=
  match roles with
  | [] => Ok event
  | role :: roles =>
      if logSignaturePresent event role then sign_roles m log roles event
      else
        match role_provider m role with
        | None => sign_roles m log roles event
        | Some kp =>
            match SignLogEventWithKey event role (Some kp) (Some (lg_Canonical log)) with
            | (event, Ok _) => sign_roles m log roles event
            | (_, Err e) => Err e
            end
        end
  end.

Definition SignAndWriteEvent (m : LocalManager) (now : time) (event : LogEvent) : handed :=
  match validateLifecycleEvent event with
  | Err e => unwritten e m
  | Ok _ =>
      match localWriteLog m with
      | (Err e, m) => unwritten e m
      | (Ok log, m) =>
          let event := if time_is_zero (Timestamp event) then with_timestamp event (truncate_second now) else event in
          match (roles ← RequiredLogSignatures event; sign_roles m log roles event) with
          | Err e => unwritten e m
          | Ok event => WriteSignedEvent m event
          end
      end
  end.

(** ** Issuance *)
Definition local_identity (m : LocalManager) : res KeyProvider :=
  match lm_keys m with
  | Some kp => fail_if is_empty (lm_Domain m) with ArgumentError "dnsid: local identity and KeyProvider are required" ;; Ok kp
  | None => Err (ArgumentError "dnsid: local identity and KeyProvider are required")
  end.

(** The active key of a provider, with its kid and thumbprint. *)
Definition active_key (kp : option KeyProvider) : res (string * key * string) :=
  kid ← active_signing_kid kp;
  k ← match kp with
      | Some kp => match kp_JWK kp kid with Some k => Ok k | None => Err (ArgumentError "dnsid: key not found") end
      | None => Err (ArgumentError "dnsid: nil KeyProvider")
      end;
  match jwk_Thumbprint (Some k) with
  | Ok thumb => Ok (kid, k, thumb)
  | Err e => Err (WithCause (ArgumentError "dnsid: computing key thumbprint") e)
  end.

Definition issuance_event (m : LocalManager) (now : time) (op ek : string * key * string) : LogEvent :=
  {| Type_ := LogEventIssuance;
     InitialEntityKid := ek.1.1; InitialEntityPublicKey := Some ek.1.2; InitialEntityThumbprint := ek.2; InitialEntitySignature := EmptyString;
     InitialOperationalKid := op.1.1; InitialOperationalPublicKey := Some op.1.2; InitialOperationalThumbprint := op.2;
     InitialOperationalSignature := EmptyString;
     PreviousOperationalKid := EmptyString; PreviousOperationalThumbprint := EmptyString; PreviousOperationalSignature := EmptyString;
     NewOperationalKid := EmptyString; NewOperationalPublicKey := None; NewOperationalThumbprint := EmptyString; NewOperationalSignature := EmptyString;
     Lifecycle.Domain := lm_Domain m; Timestamp := truncate_second now; GovernanceID := lm_GovernanceID m; Reason := EmptyString;
     PreviousLog := EmptyString; NewLog := EmptyString; FinalEntryRef := EmptyString; Delegatee := EmptyString;
     Lifecycle.Scope := EmptyString; Lifecycle.Expiry := 0 |}.

(** One of the two signatures of an issuance. *)
Definition issuance_signature (log : Log) (kp : KeyProvider) (kid : string) (event : LogEvent) : res string :=
  canonical ← match lg_Canonical log event with
              | Ok b => Ok b
              | Err e => Err (WithCause (ValidationError "dnsid: canonicalizing ISSUANCE event") e)
              end;
  match kp_Sign kp canonical with
  | Err e => Err (WithCause (ArgumentError "dnsid: key signing failed") e)
  | Ok None => Err (ArgumentError "dnsid: KeyProvider returned no signature")
  | Ok (Some sig) =>
      fail_if negb (str_eqb (KeyRing.Kid sig) kid) with ArgumentError "dnsid: key provider signed with another kid" ;;
      Ok (Base64.encode (KeyRing.Signature sig))
  end.

Definition countersigned (log : Log) (ops eks : KeyProvider) (opKid ekKid : string) (event : LogEvent) : res LogEvent :=
  ekSig ← issuance_signature log eks ekKid event;
  let event := set_signature event LogSignerEntity ekKid ekSig in
  let event := set_signature event LogSignerOperationalCountersignature opKid EmptyString in
  opSig ← issuance_signature log ops opKid event;
  Ok (set_signature event LogSignerOperationalCountersignature opKid opSig).

Definition GenerateIssuanceEvent (m : LocalManager) (now : time) : handed :=
  match (ops ← local_identity m;
         op ← active_key (Some ops);
         eks ← match lm_entityKeys m with Some kp => Ok kp | None => Err (ArgumentError "dnsid: DNSid1 issuance requires an entity KeyProvider") end;
         ek ← active_key (Some eks);
         fail_if str_eqb ek.2 op.2 with ArgumentError "dnsid: entity key and operational key must be distinct" ;;
         Ok (ops, op, eks, ek)) with
  | Err e => unwritten e m
  | Ok (ops, op, eks, ek) =>
      match localWriteLog m with
      | (Err e, m) => unwritten e m
      | (Ok log, m) =>
          match countersigned log ops eks op.1.1 ek.1.1 (issuance_event m now op ek) with
          | Err e => unwritten e m
          | Ok event => written_back log event m
          end
      end
  end.

(** ** Registry revocation: the domain whose cache entry is dropped *)
Definition RevokeViaRegistry {R} (m : LocalManager) (client : option (string -> string -> RegistryRevocationReason -> res R))
    (agentID : string) (reason : RegistryRevocationReason) : res R * option string :=
  match (_ ← local_identity m;
         client ← match client with Some c => Ok c | None => Err (ArgumentError "dnsid: nil RegistryRevoker") end;
         fail_if is_empty agentID with ArgumentError "dnsid: agent ID is required" ;;
         fail_if negb (validRegistryRevocationReason reason) with ArgumentError "dnsid: invalid registry revocation reason" ;;
         client (lm_Domain m) agentID reason) with
  | Ok resp => (Ok resp, Some (lm_Domain m))
  | Err e => (Err e, None)
  end.

(** ** Reading through a verified domain

    [nonRevocation] and [rebuild] are operations of its log reader, if it has
    one; [done] is the context at the end. *)
Definition VerifyLogEvidence (nonRevocation : option (string -> time -> res LoggedStateEvidence)) (done : bool) (now : time)
    (domain : string) (at_ : time) : res LoggedStateEvidence :=
  evidence ← match nonRevocation with
             | None => Err (VerificationError "log_error" false "dnsid: verified domain has no log reader")
             | Some verify =>
                 match verify domain (if time_is_zero at_ then now else at_) with
                 | Ok evidence => Ok evidence
                 | Err e => Err (dnsid_logVerificationError e)
                 end
             end;
  fail_if done with ContextError ;;
  Ok evidence.
Definition LoadDomainLog (rebuild : option (string -> res (list LogEvent))) (domain : string) : res (DomainLog key) :=
  match rebuild with
  | None => Err (VerificationError "log_error" false "dnsid: verified domain has no log reader")
  | Some rebuild =>
      match rebuild domain with
      | Ok events => Ok (NewDomainLog domain events)
      | Err e => Err (dnsid_logVerificationError e)
      end
  end.
End signing.
