(* ===== verification/LogSigningSpec.v ===== *)
(** * LogSigningSpec: what a signed event carries

    Lifecycle events of LogSigning.v. Every signature added on the way to the
    log is over the canonical bytes of the very event that is written, by the
    key the event names for the role; the signers need not agree on an order;
    and an issuance that the manager generates opens the stream of a
    c2sp-tlog, with the keys of its two providers. *)

From Stdlib Require Import ZArith Lia Ascii String.
From S2P Require Import Prelude Codec Utf8 Numbers Jcs JcsSpec Keys Fqdn Lifecycle Merkle Evidence Reference Policy Checkpoint Scan Event EventSpec Replay ReplaySpec AppendSpec Client Reader ReaderSpec Json KeyRing Jwks JoseUtil Prepared PreparedSpec LogSigning.

Open Scope Z_scope.

(** What the signers rely on of a log: its canonical bytes leave out the
    signatures, key identifiers included. *)
Class UnsignedBytes {key} (canonical : LogEvent key -> res string) := {
  canonical_unsigned e s : canonical (signed_event e (Timestamp e) s) = canonical e
}.

Section signing.
Context {key : Type} `{!KeyOps key}.
Abbreviation LogEvent := (LogEvent key).
Abbreviation KeyProvider := (KeyProvider (key:=key)).
Abbreviation LocalManager := (LocalManager (key:=key)).
Abbreviation Log := (Log (key:=key)).

(** ** Signature fields *)
Definition known (role : LogSignerRole) : Prop := forall s, role <> LogSignerUnknown s.

Lemma role_signature_signed (e : LogEvent) t s role : known role -> role_signature (signed_event e t s) role = s role.
Proof. intros H. destruct role; cbn; [by destruct (s _)..|by edestruct H]. Qed.

Lemma signed_event_signed (e : LogEvent) t s t' s' : signed_event (signed_event e t s) t' s' = signed_event e t' s'.
Proof. done. Qed.

Lemma signed_event_same (e : LogEvent) s : (forall role, known role -> s role = role_signature e role) -> signed_event e (Timestamp e) s = e.
Proof.
  intros H. unfold signed_event. rewrite !H by done. by destruct e.
Qed.

Lemma signed_event_ext (e : LogEvent) t s s' : (forall role, known role -> s role = s' role) -> signed_event e t s = signed_event e t s'.
Proof. intros H. unfold signed_event. by rewrite !H by done. Qed.

Lemma set_same (e : LogEvent) role kid a b : set_signature (set_signature e role kid a) role kid b = set_signature e role kid b.
Proof.
  unfold set_signature. rewrite signed_event_signed. apply signed_event_ext. intros r Hr.
  destruct (decide (r = role)); [done|]. rewrite role_signature_signed by done. by rewrite decide_False.
Qed.

Lemma set_commutes (e : LogEvent) r1 r2 k1 k2 a b : r1 <> r2 ->
  set_signature (set_signature e r1 k1 a) r2 k2 b = set_signature (set_signature e r2 k2 b) r1 k1 a.
Proof.
  intros Hne. unfold set_signature. rewrite !signed_event_signed. apply signed_event_ext. intros r Hr.
  rewrite !role_signature_signed by done. by repeat case_decide; subst.
Qed.

Lemma role_set (e : LogEvent) role kid sig r : known r -> role_signature (set_signature e role kid sig) r = if decide (r = role) then (kid, sig) else role_signature e r.
Proof. intros Hr. unfold set_signature. by rewrite role_signature_signed. Qed.

Lemma set_is_signed (e : LogEvent) role kid sig : exists s, set_signature e role kid sig = signed_event e (Timestamp e) s.
Proof. by eexists. Qed.

Section log.
Context (canonical : LogEvent -> res string) `{!UnsignedBytes canonical}.

Lemma canonical_set e role kid sig : canonical (set_signature e role kid sig) = canonical e.
Proof. apply canonical_unsigned. Qed.

(** The provider's signature for a role over the bytes of [e], by the key that
    [e] names for it. *)
Definition signed_for (e : LogEvent) (role : LogSignerRole) (kp : KeyProvider) : Prop :=
  exists kid bytes sig, role_signature e role = (kid, Base64.encode (KeyRing.Signature sig)) /\
    KeyRing.Kid sig = kid /\ canonical e = Ok bytes /\
    (kp_Sign kp bytes = Ok (Some sig) \/ kp_SignKey kp kid bytes = Ok (Some sig)) /\
    exists k t, kp_JWK kp kid = Some k /\ jwk_Thumbprint (Some k) = Ok t /\ t <> EmptyString /\
      match role with
      | LogSignerEntity => match InitialEntityPublicKey e with Some ek => jwk_Thumbprint (Some ek) = Ok t | None => Type_ e <> LogEventIssuance end
      | LogSignerOperationalCountersignature => jwk_Thumbprint (InitialOperationalPublicKey e) = Ok t
      | LogSignerPreviousOperational => PreviousOperationalThumbprint e = t
      | LogSignerNewOperational => jwk_Thumbprint (NewOperationalPublicKey e) = Ok t
      | LogSignerUnknown _ => False
      end.

Lemma signer_kid_ok (e : LogEvent) role kp kid named :
  signer_kid e role kp = Ok (kid, named) -> known role /\
  exists k t, kp_JWK kp kid = Some k /\ jwk_Thumbprint (Some k) = Ok t /\ t <> EmptyString /\
    match role with
    | LogSignerEntity => match InitialEntityPublicKey e with Some ek => jwk_Thumbprint (Some ek) = Ok t | None => Type_ e <> LogEventIssuance end
    | LogSignerOperationalCountersignature => jwk_Thumbprint (InitialOperationalPublicKey e) = Ok t
    | LogSignerPreviousOperational => PreviousOperationalThumbprint e = t
    | LogSignerNewOperational => jwk_Thumbprint (NewOperationalPublicKey e) = Ok t
    | LogSignerUnknown _ => False
    end.
Proof.
  unfold signer_kid. destruct (event_key e role) as [[[expected named0] use]|] eqn:Ek; [|done]. cbn [mbind res_bind].
  assert (known role) as Hknown by (by intros s ->).
  destruct (if use then _ else _) as [kid'|] eqn:Ekid; [|done]. cbn [mbind res_bind].
  set (ex := if _ && _ && _ && _ then _ else _). destruct (bool_decide (ex = None) && negb _) eqn:E1; [done|].
  destruct (kp_JWK kp kid') as [k|] eqn:Ejwk; [|done]. cbn [mbind res_bind].
  destruct (jwk_Thumbprint (Some k)) as [t|] eqn:Et; [|done]. cbn [as_argument mbind res_bind].
  destruct (match ex with Some _ => _ | None => _ end) as [t'|] eqn:Et'; [|done]. cbn [mbind res_bind].
  destruct (is_empty t') eqn:Eem; [done|]. apply is_empty_false in Eem.
  destruct (str_eqb t t') eqn:Eq; [|done]. apply str_eqb_eq in Eq as <-. intros [= <- <-]. split; [done|].
  exists k, t. split_and!; try done.
  assert (forall a, as_argument (A:=string) "computing event key thumbprint" a = Ok t -> a = Ok t) as Ha by (by intros []).
  destruct role; cbn [event_key] in Ek; [injection Ek as <- <- <-..|done]; subst ex; cbn in *.
  - destruct (InitialEntityPublicKey e) as [ek|]; cbn in *; [by apply Ha|]. by destruct (Type_ e).
  - destruct (InitialOperationalPublicKey e) as [ok|]; cbn in *; [by apply Ha|done].
  - by injection Et'.
  - destruct (NewOperationalPublicKey e) as [nk|]; cbn in *; [by apply Ha|done].
Qed.

Lemma signed_with_key (e : LogEvent) role kp e' :
  SignLogEventWithKey e role (Some kp) (Some canonical) = (e', Ok tt) ->
  known role /\ (exists kid sig, e' = set_signature e role kid sig) /\ signed_for e' role kp.
Proof.
  unfold SignLogEventWithKey. destruct (signer_kid e role kp) as [[kid named]|] eqn:Ek; [|done].
  destruct (signature_over _ _ _ _ _) as [sig|] eqn:Es; [|done]. intros [= <-]. rewrite set_same.
  apply signer_kid_ok in Ek as (Hr & k & t & Hk & Ht & Hne & Hrole). split; [done|]. split; [by eexists _, _|].
  unfold signature_over in Es. rewrite canonical_set in Es. destruct (canonical e) as [bytes|] eqn:Ec; [|done]. cbn [mbind res_bind] in Es.
  destruct (if named then kp_SignKey kp kid bytes else kp_Sign kp bytes) as [[s|]|] eqn:Esig; [|done..]. cbn [as_argument mbind res_bind] in Es.
  destruct (str_eqb (KeyRing.Kid s) kid) eqn:Ekid; [|done]. apply str_eqb_eq in Ekid. injection Es as <-.
  exists kid, bytes, s. rewrite role_set, decide_True, canonical_set by done. split_and!; try done.
  - destruct named; auto.
  - exists k, t. by destruct role.
Qed.

(** ** All roles of an event *)
(** What each role of the written event [e'] holds: the signature that was
    there, nothing where nobody could sign, or a fresh one. *)
Definition role_outcome (m : LocalManager) (e e' : LogEvent) (role : LogSignerRole) : Prop :=
  (role_signature e' role = role_signature e role /\ (logSignaturePresent e role = true \/ role_provider m role = None)) \/
  exists kp, role_provider m role = Some kp /\ signed_for e' role kp.

Lemma signed_for_other e role r kp kid sig : r <> role -> known r -> signed_for e r kp -> signed_for (set_signature e role kid sig) r kp.
Proof.
  intros Hne Hr (kid' & bytes & s & H1 & H2 & H3 & H4 & k & t & H5 & H6 & H7 & H8). exists kid', bytes, s.
  rewrite role_set, decide_False, canonical_set by done. split_and!; try done. exists k, t. by destruct r.
Qed.

Lemma signed_roles m write roles e e' :
  NoDup roles -> Forall known roles -> sign_roles m {| lg_Canonical := canonical; lg_WriteEvent := write |} roles e = Ok e' ->
  (exists s, e' = signed_event e (Timestamp e) s) /\ Forall (role_outcome m e e') roles /\
  forall r, known r -> r ∉ roles -> role_signature e' r = role_signature e r.
Proof.
  revert e. induction roles as [|role roles IH]; intros e Hnd Hkn; cbn [sign_roles].
  - intros [= <-]. split; [|by split; [constructor|]]. exists (role_signature e). by rewrite signed_event_same.
  - apply NoDup_cons in Hnd as [Hnotin Hnd]. apply Forall_cons in Hkn as [Hk Hkn].
    destruct (logSignaturePresent e role) eqn:Ep.
    { intros (Hs & Hall & Hrest)%IH; [|done..]. split; [done|]. split.
      - constructor; [|done]. left. split; [by apply Hrest|by left].
      - intros r Hr Hn. apply Hrest; [done|set_solver]. }
    destruct (role_provider m role) as [kp|] eqn:Ekp.
    2:{ intros (Hs & Hall & Hrest)%IH; [|done..]. split; [done|]. split.
        - constructor; [|done]. left. split; [by apply Hrest|by right].
        - intros r Hr Hn. apply Hrest; [done|set_solver]. }
    cbn [lg_Canonical]. destruct (SignLogEventWithKey e role (Some kp) (Some canonical)) as [e1 [[]|]] eqn:Esig; [|done].
    apply signed_with_key in Esig as (_ & (kid & sig & ->) & Hfor). intros ((s & ->) & Hall & Hrest)%IH; [|done..]. split; [by eexists|].
    assert (forall r, known r -> r <> role -> role_signature (set_signature e role kid sig) r = role_signature e r) as Hother.
    { intros r Hr Hne. by rewrite role_set, decide_False. }
    split.
    + constructor.
      * right. exists kp. split; [done|]. destruct Hfor as (kid' & bytes & sg & H1 & H2 & H3 & H4 & k & t & H5 & H6 & H7 & H8).
        exists kid', bytes, sg. rewrite Hrest by done. split_and!; try done.
        -- rewrite canonical_set in H3. unfold set_signature. cbn [Timestamp signed_event]. rewrite signed_event_signed. by rewrite canonical_unsigned.
        -- exists k, t. by destruct role.
      * apply Forall_forall. intros r Hr. rewrite Forall_forall in Hall, Hkn. specialize (Hall r Hr). specialize (Hkn r Hr).
        assert (r <> role) as Hne by (by intros ->). destruct Hall as [[H1 H2]|H]; [left|right; done].
        rewrite Hother in H1 by done. split; [done|]. unfold logSignaturePresent in *. by rewrite Hother in H2.
    + intros r Hr Hn. rewrite Hrest by set_solver. apply Hother; set_solver.
Qed.
(** ** The signers agree on no order *)
Lemma signer_kid_set (e : LogEvent) r1 r2 k1 s1 kp : r1 <> r2 -> signer_kid (set_signature e r1 k1 s1) r2 kp = signer_kid e r2 kp.
Proof. intros Hne. by destruct r1, r2. Qed.

Lemma signature_over_set e r k s kp kid named :
  signature_over (set_signature e r k s) kp canonical kid named = signature_over e kp canonical kid named.
Proof. unfold signature_over. by rewrite canonical_set. Qed.

Lemma sign_unfold e role kp e' :
  (SignLogEventWithKey e role (Some kp) (Some canonical) = (e', Ok tt)) <->
  exists kid named sig, signer_kid e role kp = Ok (kid, named) /\ signature_over e kp canonical kid named = Ok sig /\
    e' = set_signature e role kid sig.
Proof.
  unfold SignLogEventWithKey. destruct (signer_kid e role kp) as [[kid named]|]; [|split; [done|by intros (? & ? & ? & ? & _)]].
  rewrite signature_over_set. destruct (signature_over e kp canonical kid named) as [sig|] eqn:E.
  - rewrite set_same. split; [by intros [= <-]; exists kid, named, sig|].
    intros (k & n & s & [= <- <-] & Hs & ->). rewrite E in Hs. by injection Hs as <-.
  - split; [done|]. intros (k & n & s & [= <- <-] & Hs & _). by rewrite E in Hs.
Qed.

(** The signers of an event need not agree on an order: two roles sign it
    on different machines, each over what it received, and the result is the
    same whoever was first. *)
Theorem signing_order_is_irrelevant e r1 kp1 r2 kp2 e1 e12 :
  r1 <> r2 ->
  SignLogEventWithKey e r1 (Some kp1) (Some canonical) = (e1, Ok tt) ->
  SignLogEventWithKey e1 r2 (Some kp2) (Some canonical) = (e12, Ok tt) ->
  exists e2, SignLogEventWithKey e r2 (Some kp2) (Some canonical) = (e2, Ok tt) /\
    SignLogEventWithKey e2 r1 (Some kp1) (Some canonical) = (e12, Ok tt).
Proof.
  intros Hne (k1 & n1 & s1 & K1 & S1 & ->)%sign_unfold (k2 & n2 & s2 & K2 & S2 & ->)%sign_unfold.
  rewrite signer_kid_set in K2 by done. rewrite signature_over_set in S2.
  exists (set_signature e r2 k2 s2). split; apply sign_unfold; [by exists k2, n2, s2|].
  exists k1, n1, s1. rewrite signer_kid_set, signature_over_set by done. split_and!; try done. by apply set_commutes.
Qed.
End log.

(** ** What is handed to the log *)
Lemma write_log_again (m : LocalManager) log m1 : localWriteLog m = (Ok log, m1) -> localWriteLog m1 = (Ok log, m1).
Proof.
  unfold localWriteLog. destruct (localLog m) as [l|] eqn:E; [intros [= <- <-]; by rewrite E|].
  destruct (manager_logReaderFor _ _) as [[?|[c [w|]]]|]; try done. by intros [= <- <-].
Qed.

Lemma write_log_providers (m : LocalManager) r m1 role : localWriteLog m = (r, m1) -> role_provider m1 role = role_provider m role.
Proof.
  unfold localWriteLog. destruct (localLog m) as [l|]; [by intros [= _ <-]|].
  destruct (manager_logReaderFor _ _) as [[?|[c [w|]]]|]; intros [= _ <-]; by destruct role.
Qed.

Lemma required_roles_known (e : LogEvent) roles : RequiredLogSignatures e = Ok roles -> NoDup roles /\ Forall known roles.
Proof.
  unfold RequiredLogSignatures. destruct (Type_ e); intros [= <-]; (split; [apply (bool_decide_unpack _); by vm_compute|by repeat constructor]).
Qed.

Lemma checked_roles (e : LogEvent) roles :
  check_signed e = Ok tt -> RequiredLogSignatures e = Ok roles -> Forall (fun role => logSignaturePresent e role = true) roles.
Proof.
  unfold check_signed, RequiredLogSignatures. destruct (validateLifecycleEvent e) as [[]|]; [|done]. cbn [mbind res_bind].
  destruct (Type_ e); intros H [= <-]; revert H.
  all: repeat match goal with |- context [negb (logSignaturePresent ?e ?r)] => destruct (logSignaturePresent e r) eqn:? end; cbn [negb].
  all: try done; try (intros _; by repeat constructor). all: by destruct (_ || _).
Qed.

(** C29: an event that [SignAndWriteEvent] hands to the log is the one it was
    given, at its time or at the current second, and complete: each role its
    type requires has the signature that was there, or a new one, over the
    canonical bytes of the very event handed over, by the key the event names
    for the role. *)
Theorem written_event_is_signed (m : LocalManager) now event log e :
  (localWriteLog m).1 = Ok log -> UnsignedBytes (lg_Canonical log) ->
  hd_event (SignAndWriteEvent m now event) = Some e ->
  (exists s, e = signed_event event (if time_is_zero (Timestamp event) then truncate_second now else Timestamp event) s) /\
  hd_ref (SignAndWriteEvent m now event) = lg_WriteEvent log e /\
  exists roles, RequiredLogSignatures event = Ok roles /\
    Forall (fun role => logSignaturePresent e role = true /\
      (role_signature e role = role_signature event role /\ logSignaturePresent event role = true \/
       exists kp, role_provider m role = Some kp /\ signed_for (lg_Canonical log) e role kp)) roles.
Proof.
  intros Hlog Hun. unfold SignAndWriteEvent. destruct (validateLifecycleEvent event) as [[]|]; [|done].
  destruct (localWriteLog m) as [r m1] eqn:El. cbn [fst] in Hlog. subst r. cbv zeta.
  set (ev := if time_is_zero (Timestamp event) then _ else event).
  assert (exists s, ev = signed_event event (if time_is_zero (Timestamp event) then truncate_second now else Timestamp event) s) as (s0 & Hev).
  { subst ev. destruct (time_is_zero _); [by eexists|]. exists (role_signature event). by rewrite signed_event_same. }
  assert (forall role, known role -> role_signature ev role = role_signature event role) as Hsame.
  { intros role Hr. subst ev. destruct (time_is_zero _); [|done]. by apply role_signature_signed. }
  assert (RequiredLogSignatures ev = RequiredLogSignatures event) as Hreq by (rewrite Hev; done).
  rewrite Hreq. destruct (RequiredLogSignatures event) as [roles|] eqn:Er; [|done]. cbn [mbind res_bind].
  destruct (sign_roles m1 log roles ev) as [e'|] eqn:Es; [|done]. unfold WriteSignedEvent.
  destruct (check_signed e') as [[]|] eqn:Ec; [|done]. rewrite (write_log_again _ _ _ El). cbn [written_back hd_event hd_ref]. intros [= <-].
  destruct (required_roles_known _ _ Hreq) as [Hnd Hkn]. destruct log as [canonical write]. cbn [lg_Canonical] in *.
  destruct (signed_roles canonical m1 write roles ev e' Hnd Hkn Es) as ((s & Hs) & Hall & _).
  split; [exists s; rewrite Hs, Hev; done|]. split; [done|]. exists roles. split; [done|].
  assert (RequiredLogSignatures e' = Ok roles) as Hreq' by (rewrite Hs; done).
  pose proof (checked_roles _ _ Ec Hreq') as Hp. rewrite Forall_forall in *. intros role Hin.
  specialize (Hp role Hin). specialize (Hall role Hin). specialize (Hkn role Hin). split; [done|].
  destruct Hall as [[H1 _]|(kp & Hkp & H)].
  - left. rewrite Hsame in H1 by done. split; [done|]. unfold logSignaturePresent in *. by rewrite <- H1.
  - right. exists kp. split; [|done]. by rewrite <- (write_log_providers _ _ _ role El).
Qed.
End signing.

(** ** c2sp-tlog leaves the signatures out *)
#[export] Instance client_bytes_unsigned {key} `{!KeyOps key} `{!JwkText key} {U : NetURL} {I : Idna} ref :
  UnsignedBytes (client_Canonical (key:=key) ref).
Proof. by split. Qed.

(** ** A generated issuance opens the stream of its log *)

(** What jwx keeps of a key in JSON: its text is a shallow object with its
    numbers, if any, in canonical spelling; written canonically it is read back
    as a key with the same thumbprint. *)
Class JwkTextSpec (key : Type) `{!KeyOps key} `{!JwkText key} := {
  jwk_text_plain k data obj : jwk_marshal k = Some data -> DecodeObject data = Ok obj ->
    norm <$> obj = obj /\ (height (VObject obj) <= 63)%nat;
  jwk_text_thumbprint k data obj b k' :
    jwk_marshal k = Some data -> DecodeObject data = Ok obj -> canonicalJSON (VObject obj) = Ok b ->
    jwk_parse b = Some k' -> thumbprint_sum k' = thumbprint_sum k
}.

(** Values that a canonical round trip leaves alone after the first. *)
Definition stable (v : value) : Prop := norm (norm v) = norm v /\ (height v <= 63)%nat.
Definition stable_payload (p : payload) : Prop := map_Forall (fun _ => stable) p.

Lemma stable_int z : Z.abs z <= maxJSONInteger -> stable (VInt z).
Proof.
  intros Hz. split; [|cbn; lia]. cbn [norm]. f_equal. unfold norm_number.
  destruct (decide (z = 0)) as [->|Hn]; [by vm_compute|]. unfold maxJSONInteger in Hz.
  destruct (Float64_int_text z Hn ltac:(lia)) as (m & e & -> & Hm & Hr). cbn [write_float format_float].
  rewrite (format_pos_int (Z.abs z) m e) by (done || lia). unfold int_text.
  destruct (Z.ltb_spec z 0) as [Hneg|Hpos]; [by rewrite Z.abs_neq by lia|by rewrite Z.abs_eq by lia].
Qed.
Lemma stable_string s : stable (VString s).
Proof. split; [done|cbn; lia]. Qed.
Lemma stable_insert k v p : stable v -> stable_payload p -> stable_payload (<[k := v]> p).
Proof. intros Hv Hp. by apply (map_Forall_insert_2 (fun _ => stable)). Qed.
Lemma stable_put k s p : stable_payload p -> stable_payload (put_string k s p).
Proof. unfold put_string. destruct (is_empty s); [done|]. by apply stable_insert, stable_string. Qed.

Section issuance.
Context {key : Type} `{!KeyOps key} `{!JwkText key} `{!JwkTextSpec key} {N : NoteLib} {U : NetURL} {T : TLog} {I : Idna} {C : ConsistencyLib}.
Abbreviation LogEvent := (LogEvent key).
Abbreviation Client := (Client (key:=key)).
Abbreviation LocalManager := (LocalManager (key:=key)).

Lemma stable_height p : stable_payload p -> (height (VObject p) <= 64)%nat.
Proof. intros H. apply height_object_le. intros k v Hk. apply H in Hk as [_ Hk]. lia. Qed.

Lemma stable_norm p : stable_payload p -> norm <$> (norm <$> p) = norm <$> p.
Proof.
  intros H. apply map_eq. intros k. rewrite !lookup_fmap. destruct (p !! k) as [v|] eqn:E; [|done]. cbn. f_equal. by apply (H k v).
Qed.

(** A fresh envelope becomes a sound one, its numbers spelled canonically. *)
Lemma prepared_stable ref e p :
  stable_payload e -> preparedFromEnvelope (key:=key) ref e = Ok p ->
  envelope p = norm <$> e /\ exists entry q, sound ref p entry q.
Proof.
  intros He H. unfold preparedFromEnvelope in H. destruct (cloneJSONObject e) as [e'|] eqn:Ec; [|done].
  assert (e' = norm <$> e /\ plain_envelope e') as [-> Hpl].
  { unfold cloneJSONObject in Ec. destruct (canonicalJSON (VObject e)) as [b|] eqn:Eb; [|done]. cbn [mbind res_bind] in Ec.
    pose proof (decode_written e b (canonicalJSON_write _ _ Eb) (stable_height _ He)) as Hd. pose proof (DecodeObject_shallow _ _ Ec) as Hh.
    assert (e' = norm <$> e) as -> by congruence. split; [done|]. split; [by apply stable_norm|done]. }
  assert (preparedFromEnvelope (key:=key) ref (norm <$> e) = Ok p) as Hagain.
  { unfold preparedFromEnvelope. enough (cloneJSONObject (norm <$> e) = Ok (norm <$> e)) as -> by exact H.
    destruct (cloneJSONObject (norm <$> e)) as [c|] eqn:Ecc; [by rewrite (clone_plain _ Hpl c Ecc)|]. exfalso.
    cbn [mbind res_bind] in H. go_inv; rewrite ?Ecc in *; done. }
  by destruct (prepared_sound ref _ p Hpl Hagain).
Qed.

(** *** The payload of an issuance *)
Lemma key_text_stable (k : key) v : keyAsJSON k = Ok v -> exists data obj,
  jwk_marshal k = Some data /\ DecodeObject data = Ok obj /\ v = VObject obj /\ norm v = v /\ stable v.
Proof.
  unfold keyAsJSON. destruct (jwk_marshal k) as [data|] eqn:E; [|done]. destruct (DecodeObject data) as [obj|] eqn:Ed; [|done].
  cbn [mbind res_bind]. intros [= <-]. destruct (jwk_text_plain k data obj E Ed) as [Hn Hh]. exists data, obj. split_and!; try done.
  - cbn [norm]. by rewrite Hn.
  - split; [cbn [norm]; by rewrite !Hn|done].
Qed.

Record issuance_payload (e : LogEvent) (ek ku : key) (p : payload) : Prop := {
  ip_type : p !! "type"%string = Some (VString "ISSUANCE");
  ip_fqdn : p !! "fqdn"%string = Some (VString (Lifecycle.Domain e));
  ip_gi : p !! "gi"%string = Some (VString (GovernanceID e));
  ip_ek : exists v, keyAsJSON ek = Ok v /\ p !! "ek"%string = Some v;
  ip_ku : exists v, keyAsJSON ku = Ok v /\ p !! "ku"%string = Some v;
  ip_stable : stable_payload p
}.

Definition genesis_fields : chainFields := {| sequence := Some 0; previousEventID := ""; chain_invalid := false; previousStateHash := "" |}.

Lemma payload_of_issuance (e : LogEvent) ref ek ku p :
  Type_ e = LogEventIssuance -> InitialEntityPublicKey e = Some ek -> InitialOperationalPublicKey e = Some ku ->
  payloadFromEventWithChain e false (Some ref) (Some genesis_fields) = Ok p -> issuance_payload e ek ku p.
Proof.
  intros Ht He Hk. unfold payloadFromEventWithChain, put_fields, put_context. rewrite Ht, He, Hk. cbn [type_string is_empty].
  destruct (is_empty (Lifecycle.Domain e)); [done|]. destruct (time_is_zero _); [done|].
  destruct (validateLifecycleFields e) as [[]|] eqn:Ev; [|done]. cbn [mbind res_bind].
  assert (is_empty (GovernanceID e) = false) as Hgi.
  { unfold validateLifecycleFields in Ev. rewrite Ht in Ev. go_inv. by destruct (is_empty (GovernanceID e)). }
  destruct ((Unix (Timestamp e) <? 0) || (maxJSONInteger <? Unix (Timestamp e))) eqn:Ets; [done|].
  destruct (ref_Origin ref) as [origin|]; [|done]. cbn [mbind res_bind put_key].
  destruct (keyAsJSON ku) as [vku|] eqn:Eku; [|done]. cbn [mbind res_bind].
  destruct (keyAsJSON ek) as [vek|] eqn:Eek; [|done]. cbn [mbind res_bind negb]. intros [= <-].
  destruct (key_text_stable ku vku Eku) as (_ & _ & _ & _ & _ & _ & Sku). destruct (key_text_stable ek vek Eek) as (_ & _ & _ & _ & _ & _ & Sek).
  unfold put_chain. cbn [genesis_fields sequence previousEventID previousStateHash put_string is_empty]. unfold put_string. rewrite Hgi.
  split; try done; try (by eexists). repeat (apply stable_insert; [first [done|apply stable_string|apply stable_int; unfold maxJSONInteger in *; lia]|]).
  apply map_Forall_empty.
Qed.
Lemma reread_key env name (k k' : key) v :
  env !! name = Some v -> keyAsJSON k = Ok v -> value_of None (optionalJWK env name) = Some k' ->
  keyThumbprint (Some k') = keyThumbprint (Some k).
Proof.
  intros He (data & obj & Hm & Hd & -> & _ & _)%key_text_stable. unfold optionalJWK. rewrite He.
  destruct (canonicalJSON (VObject obj)) as [b|] eqn:Eb; [|done]. cbn [mbind res_bind].
  destruct (jwk_parse b) as [k1|] eqn:Ep; [|done]. cbn [value_of]. intros [= <-]. unfold keyThumbprint.
  by rewrite (jwk_text_thumbprint k data obj b k1 Hm Hd Eb Ep).
Qed.

(** The event that the written entry holds. *)
Lemma reread_issuance (e : LogEvent) ref ek ku p entry q p0 e1 :
  issuance_payload e ek ku p0 -> (e1 = p0 \/ exists sigs, e1 = <["sigs"%string := sigs]> p0) ->
  sound (key:=key) ref p entry q -> envelope p = norm <$> e1 ->
  Type_ (p_event q) = LogEventIssuance /\ Lifecycle.Domain (p_event q) = Lifecycle.Domain e /\
  GovernanceID (p_event q) = GovernanceID e /\
  keyThumbprint (InitialEntityPublicKey (p_event q)) = keyThumbprint (Some ek) /\
  keyThumbprint (InitialOperationalPublicKey (p_event q)) = keyThumbprint (Some ku) /\
  InitialEntityThumbprint (p_event q) = thumb_or_empty (InitialEntityPublicKey (p_event q)) /\
  InitialOperationalThumbprint (p_event q) = thumb_or_empty (InitialOperationalPublicKey (p_event q)).
Proof.
  intros [P1 P2 P3 (vek & Kek & P4) (vku & Kku & P5) _] He1 Hs Henv.
  assert (forall k v, k <> "sigs"%string -> p0 !! k = Some v -> envelope p !! k = Some (norm v)) as Hl.
  { intros k v Hne Hk. rewrite Henv, lookup_fmap. destruct He1 as [->|(sigs & ->)]; [by rewrite Hk|]. rewrite lookup_insert_ne by done. by rewrite Hk. }
  apply Hl in P1, P2, P3, P4, P5; [|done..]. cbn [norm] in P1, P2, P3.
  pose proof (key_text_stable ek vek Kek) as (_ & _ & _ & _ & _ & Nek & _). pose proof (key_text_stable ku vku Kku) as (_ & _ & _ & _ & _ & Nku & _).
  rewrite Nek in P4. rewrite Nku in P5.
  destruct (event_fields _ _ _ _ Hs) as (t & fqdn & ts & Ee & Hv).
  assert (t = LogEventIssuance /\ fqdn = Lifecycle.Domain e) as [-> ->].
  { pose proof (so_event _ _ _ _ Hs) as Hq. unfold eventFromPayload, stringField in Hq. rewrite P1, P2 in Hq.
    assert (Type_ (p_event q) = t /\ Lifecycle.Domain (p_event q) = fqdn) as [Ht Hf] by (by rewrite Ee). rewrite <- Ht, <- Hf.
    cbn [is_empty mbind res_bind] in Hq. clear -Hq. go_inv; done. }
  rewrite Ee in *. unfold validateLifecycleFields in Hv. cbn [Type_ read_event Lifecycle.Domain] in Hv.
  set (kek := InitialEntityPublicKey _) in *. set (kku := InitialOperationalPublicKey _) in *.
  assert (exists k1 k2, kek = Some k1 /\ kku = Some k2) as (k1 & k2 & E1 & E2).
  { go_inv. destruct kek, kku; cbn in *; try done; by eexists _, _. }
  rewrite E1, E2. split_and!; try done.
  - subst kek kku. cbn [GovernanceID read_event type_eqb]. unfold optionalString. by rewrite P3.
  - by apply (reread_key _ "ek"%string ek k1 vek P4 Kek).
  - by apply (reread_key _ "ku"%string ku k2 vku P5 Kku).
  - by rewrite <- E1.
  - by rewrite <- E2.
Qed.
(** *** One issuance as a whole stream *)
Definition issued_item (p : PreparedEvent) (q : parsedEvent key) : verifiedEvent (key:=key) :=
  {| v_event := p_event q; v_chain := p_chain q; v_index := 0; v_signed := signedBytes p; v_parseError := None;
     v_migration := None; v_authorityEntity := None; v_authorityOperational := None |}.

Lemma issued_authority cur (x : verifiedEvent (key:=key)) ek ok :
  Type_ (v_event x) = LogEventIssuance ->
  ek = InitialEntityPublicKey (v_event x) -> ok = InitialOperationalPublicKey (v_event x) ->
  replay_item cur None replay_start x = replay_item cur None replay_start (with_authority x ek ok).
Proof. intros Ht -> ->. unfold replay_item. cbn [v_event with_authority v_signed]. rewrite Ht. by destruct x. Qed.

(** The checks an authorized issuance of a sound entry passes. *)
Record genuine (p : PreparedEvent) (q : parsedEvent key) : Prop := {
  gn_type : Type_ (p_event q) = LogEventIssuance;
  gn_authorized : candidateAuthorizedByCurrentHistory (p_event q) (signedBytes p)
    (InitialEntityPublicKey (p_event q)) (InitialOperationalPublicKey (p_event q)) = true;
  gn_chain : genesis_chain (p_chain q);
  gn_thumb : InitialEntityThumbprint (p_event q) = thumb_or_empty (InitialEntityPublicKey (p_event q));
  gn_op_thumb : InitialOperationalThumbprint (p_event q) = thumb_or_empty (InitialOperationalPublicKey (p_event q))
}.

Lemma written_genuine c w s ref p entry q entry' s' :
  sound ref p entry q -> Type_ (p_event q) = LogEventIssuance ->
  InitialEntityThumbprint (p_event q) = thumb_or_empty (InitialEntityPublicKey (p_event q)) ->
  InitialOperationalThumbprint (p_event q) = thumb_or_empty (InitialOperationalPublicKey (p_event q)) ->
  PreparedEntryBytes c w s p = (Ok entry', s') -> entry' = entry /\ genuine p q.
Proof.
  intros Hs Ht H1 H2 Hb. destruct (prepared_entry_facts _ _ _ _ _ _ _ _ _ Hs Hb) as (-> & keys & Hk & Hf). split; [done|]. split; try done.
  - unfold preparedSignerKeys in Hk. rewrite (event_of_prepared _ _ _ _ Hs), Ht in Hk. injection Hk as Hk _. go_inv.
    pose proof (so_required _ _ _ _ Hs) as Hreq. rewrite Ht in Hreq. injection Hreq as Hreq. rewrite <- Hreq in Hf.
    apply Forall_cons in Hf as [Hae Hf]. apply Forall_cons in Hf as [Hop _]. unfold role_signed in Hae, Hop.
    destruct (event_fields _ _ _ _ Hs) as (t & fqdn & ts & Ee & _). unfold candidateAuthorizedByCurrentHistory. rewrite Ht.
    apply andb_true_iff. rewrite Ee in *. by split.
  - pose proof (so_chain _ _ _ _ Hs) as Hc. unfold validatePreparedChain in Hc. rewrite Ht in Hc.
    apply validGenesisChain_spec. go_inv; [by apply negb_false_iff|done].
Qed.

Lemma genuine_kids p q : genuine p q -> validateEmbeddedSignatureKids (p_event q) = Ok tt.
Proof.
  intros [Ht Ha _ _ _]. unfold candidateAuthorizedByCurrentHistory in Ha. rewrite Ht in Ha. apply andb_true_iff in Ha as [H1 H2].
  unfold validateEmbeddedSignatureKids, signed_by in *. rewrite Ht.
  destruct (InitialEntityPublicKey (p_event q)), (InitialOperationalPublicKey (p_event q)); try done.
  apply andb_true_iff in H1 as [H1 _], H2 as [H2 _]. apply andb_true_iff in H1 as [_ ->], H2 as [_ ->]. done.
Qed.

Lemma genuine_stream (ref : Reference) p entry q et ot :
  thumbprints_nonempty (key:=key) -> sound ref p entry q -> genuine p q ->
  keyThumbprint (InitialEntityPublicKey (p_event q)) = Ok et -> keyThumbprint (InitialOperationalPublicKey (p_event q)) = Ok ot -> et <> ot ->
  let x := with_authority (issued_item p q) (InitialEntityPublicKey (p_event q)) (InitialOperationalPublicKey (p_event q)) in
  exists h, verified_stream None [x] h /\ of_domain (Lifecycle.Domain (p_event q)) x /\
    st_state h = activeLifecycleState (Lifecycle.Domain (p_event q)) et ot /\
    forall cur, verifyLifecycleVerifiedWithMigration (fun _ => false) [issued_item p q] None cur = Ok ([x], []).
Proof.
  intros Hne Hs [Ht Ha Hc Hth Hoth] Het Hot Hd x.
  assert (InitialEntityThumbprint (p_event q) = et) as Ee by (by rewrite Hth; unfold thumb_or_empty; rewrite Het).
  assert (InitialOperationalThumbprint (p_event q) = ot) as Eo by (by rewrite Hoth; unfold thumb_or_empty; rewrite Hot).
  pose proof (keyThumbprint_nonempty _ _ Hne Het) as Net. pose proof (keyThumbprint_nonempty _ _ Hne Hot) as Not.
  assert (signedBytes p <> EmptyString) as Hsb by (eapply canonical_nonempty, (so_signed _ _ _ _ Hs)).
  assert (exists h, verified_stream None [x] h /\ st_state h = activeLifecycleState (Lifecycle.Domain (p_event q)) et ot) as (h & Hv & Hst).
  { eexists. split; [apply (stream_issuance None x et); try done; cbn; rewrite Eo; congruence|]. cbn. by rewrite Eo. }
  exists h. split; [exact Hv|]. split; [split; [done|cbn; intros _; by rewrite Eo]|]. split; [done|]. intros cur.
  assert (NoDup (ids [x])) as Hnd by apply NoDup_singleton.
  pose proof (verified_streams_are_replayed cur [x] _ Hv Hnd) as Hr. rewrite <- Hr.
  - unfold verifyLifecycleVerifiedWithMigration. cbn [replay_loop andb]. by rewrite (issued_authority cur (issued_item p q) _ _ Ht eq_refl eq_refl).
  - constructor; [|done]. left. cbn. by rewrite Eo.
Qed.

Lemma genuine_checked ref p entry q :
  sound ref p entry q -> genuine p q -> is_Some (match parseEventFromEntry (key:=key) entry with Ok q' => Some q' | Err _ => None end) ->
  check_entry (key:=key) ref None 0 entry = Ok (issued_item p q).
Proof.
  intros Hs Hg [q' Hq']. unfold check_entry. rewrite (so_metadata _ _ _ _ Hs). cbn [in_validation mbind res_bind].
  destruct (parseEventFromEntry entry) as [q2|] eqn:E; [|done]. injection Hq' as ->. pose proof E as E'. unfold parseEventFromEntry in E.
  rewrite (so_entry _ _ _ _ Hs) in E. cbn [mbind res_bind] in E. rewrite (so_event _ _ _ _ Hs) in E. cbn [mbind res_bind] in E.
  destruct (requiredSignerRoles _) as [req|]; [|done]. cbn [mbind res_bind] in E. destruct (validateSignatureShape _ _ _) as [[]|]; [|done].
  cbn [mbind res_bind] in E. rewrite (so_valid _ _ _ _ Hs), (genuine_kids p q Hg) in E. injection E as <-.
  cbn [in_parse mbind res_bind p_validationError p_event p_chain join_errors error_of]. by rewrite (so_signed _ _ _ _ Hs).
Qed.
(** *** The whole way *)
Lemma stable_sigs a b c d : stable (VObject (put_sig "op" a b (put_sig "ae" c d ∅))).
Proof.
  unfold put_sig. destruct (is_empty a || is_empty b), (is_empty c || is_empty d); (split; vm_compute; [reflexivity|lia]).
Qed.

Lemma genesis_size ref p entry q : sound (key:=key) ref p entry q -> validateHistorySize [(entry, EmptyString)] = Ok tt.
Proof.
  intros Hs. pose proof (so_entry _ _ _ _ Hs) as He. unfold payloadObjectFromEntry in He. destruct (is_empty entry); [done|].
  destruct (Z.ltb_spec maxEntrySize (Z.of_nat (String.length entry))) as [|Hl]; [done|]. unfold validateHistorySize, history_bytes.
  change (defaultScanMaxTreeSize <? _) with false. cbn [String.length]. unfold maxEntrySize in Hl.
  by rewrite (proj2 (Z.ltb_ge defaultScanMaxTotalEntryBytes _)) by (change defaultScanMaxTotalEntryBytes with 268435456; lia).
Qed.

(** The entry that a write of an issuance hands to the appender. *)
Lemma written_issuance c appender w1 w2 w3 s (e : LogEvent) ek ku entry :
  Type_ e = LogEventIssuance -> InitialEntityPublicKey e = Some ek -> InitialOperationalPublicKey e = Some ku ->
  wr_appended (WriteEvent c appender w1 w2 w3 s e) = Some entry ->
  exists p q q', sound (client_ref c) p entry q /\ genuine p q /\ parseEventFromEntry (key:=key) entry = Ok q' /\
    Lifecycle.Domain (p_event q) = Lifecycle.Domain e /\ GovernanceID (p_event q) = GovernanceID e /\
    keyThumbprint (InitialEntityPublicKey (p_event q)) = keyThumbprint (Some ek) /\
    keyThumbprint (InitialOperationalPublicKey (p_event q)) = keyThumbprint (Some ku).
Proof.
  intros Ht He Hk. unfold WriteEvent. assert (chainForWrite (client_ref c) e = Ok genesis_fields) as ->.
  { unfold chainForWrite. by rewrite Ht. }
  unfold writeEvent. destruct (prepareEvent _ _ _) as [p|] eqn:Ep; [|done].
  intros (append & q' & s1 & s2 & -> & Hb & Hp & _ & _)%write_parts. unfold prepareEvent in Ep.
  destruct (validateWritableStream _ _) as [[]|]; [|done]. cbn [mbind res_bind] in Ep.
  destruct (payloadFromEventWithChain _ _ _ _) as [p0|] eqn:E0; [|done]. cbn [mbind res_bind] in Ep.
  pose proof (payload_of_issuance e (client_ref c) ek ku p0 Ht He Hk E0) as Hip.
  set (e1 := if bool_decide _ then p0 else _) in Ep.
  assert (stable_payload e1 /\ (e1 = p0 \/ exists sigs, e1 = <["sigs"%string := sigs]> p0)) as [Hst He1].
  { subst e1. pose proof (ip_stable _ _ _ _ Hip) as Hs0. destruct (bool_decide _); [by split; [|left]|]. split; [|right; by eexists].
    apply stable_insert; [|done]. unfold signaturesFromEvent. rewrite Ht. apply stable_sigs. }
  destruct (prepared_stable _ _ _ Hst Ep) as (Henv & entry0 & q & Hs).
  destruct (reread_issuance e _ ek ku p entry0 q p0 e1 Hip He1 Hs Henv) as (Q1 & Q2 & Q3 & Q4 & Q5 & Q6 & Q7).
  destruct (written_genuine _ _ _ _ _ _ _ _ _ Hs Q1 Q6 Q7 Hb) as [-> Hg]. exists p, q, q'. by split_and!.
Qed.

Lemma write_log_identity (m : LocalManager) r m1 now op ek :
  localWriteLog m = (r, m1) -> issuance_event m1 now op ek = issuance_event m now op ek.
Proof.
  unfold localWriteLog. destruct (localLog m) as [l|]; [by intros [= _ <-]|].
  destruct (manager_logReaderFor _ _) as [[?|[? [w|]]]|]; by intros [= _ <-].
Qed.

Lemma set_signed_again (x e0 : LogEvent) t role kid sig :
  (exists s, x = signed_event e0 t s) -> exists s, set_signature x role kid sig = signed_event e0 t s.
Proof. intros (s & ->). unfold set_signature. rewrite signed_event_signed. by eexists. Qed.

Lemma generated_event (m : LocalManager) now (e : LogEvent) :
  hd_event (GenerateIssuanceEvent m now) = Some e ->
  exists op ek, active_key (lm_keys m) = Ok op /\ active_key (lm_entityKeys m) = Ok ek /\ ek.2 <> op.2 /\
    exists s, e = signed_event (issuance_event m now op ek) (truncate_second now) s.
Proof.
  unfold GenerateIssuanceEvent, local_identity. destruct (lm_keys m) as [ops|]; [|done]. destruct (is_empty (lm_Domain m)); [done|].
  cbn [mbind res_bind]. destruct (active_key (Some ops)) as [op|]; [|done]. cbn [mbind res_bind].
  destruct (lm_entityKeys m) as [eks|]; [|done]. cbn [mbind res_bind]. destruct (active_key (Some eks)) as [ek|]; [|done]. cbn [mbind res_bind].
  destruct (str_eqb ek.2 op.2) eqn:Ed; [done|]. apply str_eqb_neq in Ed. destruct (localWriteLog m) as [[log|] m1] eqn:El; [|done].
  destruct (countersigned _ _ _ _ _ _) as [e'|] eqn:Ec; [|done]. cbn [written_back hd_event]. intros [= <-]. exists op, ek. split_and!; try done.
  unfold countersigned in Ec. destruct (issuance_signature log eks ek.1.1 _) as [s1|]; [|done]. cbn [mbind res_bind] in Ec.
  destruct (issuance_signature log ops op.1.1 _) as [s2|]; [|done]. cbn [mbind res_bind] in Ec. injection Ec as <-.
  repeat apply set_signed_again. exists (role_signature (issuance_event m now op ek)).
  rewrite (write_log_identity _ _ _ now op ek El). symmetry. exact (signed_event_same (issuance_event m now op ek) _ (fun _ _ => eq_refl)).
Qed.

Lemma active_key_thumb kp kid k t : active_key (key:=key) kp = Ok (kid, k, t) -> keyThumbprint (Some k) = Ok t.
Proof.
  unfold active_key. destruct (active_signing_kid kp) as [kid'|]; [|done]. cbn [mbind res_bind].
  destruct kp as [kp|]; [|done]. destruct (kp_JWK kp kid') as [k'|]; [|done]. cbn [mbind res_bind].
  destruct (jwk_Thumbprint (Some k')) as [t'|] eqn:E; [|done]. intros [= _ <- <-]. revert E. unfold jwk_Thumbprint, keyThumbprint.
  by destruct (thumbprint_sum k').
Qed.

(** C7: the issuance a manager generates is the genesis it means: when a
    c2sp-tlog client hands it to its appender, CheckAppend, the check a log
    makes and every reader repeats, accepts the entry as the first of its
    stream, and the identity is ACTIVE for the manager's domain and governance
    with exactly the active keys of its two key providers. *)
Theorem generated_issuance_opens_the_stream (m : LocalManager) now e (c : Client) appender w1 w2 w3 s entry :
  thumbprints_nonempty (key:=key) ->
  hd_event (GenerateIssuanceEvent m now) = Some e ->
  wr_appended (WriteEvent c appender w1 w2 w3 s e) = Some entry ->
  exists op ek head, active_key (lm_keys m) = Ok op /\ active_key (lm_entityKeys m) = Ok ek /\
    CheckAppend (key:=key) (fun _ => false) (client_ref c) [] entry = Ok head /\
    head_Type head = LogEventIssuance /\ Seq head = 0 /\ head_GovernanceID head = lm_GovernanceID m /\
    State head = {| FQDN := lm_Domain m; Status := "ACTIVE"; EntityThumb := ek.2; OperationalThumb := op.2 |}.
Proof.
  intros Hne (op & ek & Hop & Hek & Hd & sg & ->)%generated_event Hw. destruct op as [[okid ok] ot], ek as [[ekid ekk] et].
  cbn [snd] in Hd. apply active_key_thumb in Hop as Hot. apply active_key_thumb in Hek as Het.
  destruct (written_issuance c appender w1 w2 w3 s (signed_event (issuance_event m now (okid, ok, ot) (ekid, ekk, et)) (truncate_second now) sg)
      ekk ok entry eq_refl eq_refl eq_refl Hw)
    as (p & q & q' & Hs & Hg & Hp & Edom & Egov & Eek & Eok). cbn [Lifecycle.Domain GovernanceID signed_event issuance_event] in Edom, Egov.
  rewrite Het in Eek. rewrite Hot in Eok.
  destruct (genuine_stream _ p entry q et ot Hne Hs Hg Eek Eok Hd) as (h & Hv & Hdom & Hst & Hr).
  exists (okid, ok, ot), (ekid, ekk, et). eexists. split; [done|]. split; [done|]. split.
  - unfold CheckAppend. cbn [app fmap list_fmap check_entries].
    rewrite (genesis_size _ _ _ _ Hs). cbn [in_validation mbind res_bind].
    rewrite (genuine_checked _ _ _ _ Hs Hg) by (rewrite Hp; by eexists). cbn [mbind res_bind]. rewrite Hr.
    cbn [List.length Nat.ltb Nat.leb last Nat.eqb]. cbn [v_event issued_item].
    rewrite (lifecycle_state_of_stream _ (Lifecycle.Domain (p_event q)) _ _ Hv) by by constructor.
    cbn [mbind res_bind]. rewrite Hst. reflexivity.
  - cbn -[EventID]. rewrite Edom, Egov. split_and!; try done; [apply Hg|].
    destruct (gn_chain _ _ Hg) as (_ & Hseq & _). by rewrite Hseq.
Qed.
End issuance.
