(* ===== verification/LogSigningDemo.v ===== *)
(** * LogSigningDemo: a manager that issues an identity

    A manager with an entity key and an operational key over the log of
    ClientDemo.v, for the theorems of LogSigningSpec.v. *)

From Stdlib Require Import ZArith Lia Ascii String.
From S2P Require Import Prelude Codec Utf8 Numbers Jcs JcsSpec Keys Fqdn Lifecycle Merkle Evidence Reference Policy Checkpoint Scan Event EventSpec Replay ReplaySpec AppendSpec Client Demo ClientDemo Json KeyRing Jwks JoseUtil Prepared PreparedSpec PreparedDemo LogSigning LogSigningSpec.

Open Scope Z_scope.
#[local] Existing Instance log_notes.
#[local] Existing Instance rfc6962_tlog.
#[local] Existing Instance demo_lib.

(** ** The text of a key *)
Definition key_object (k : demo_key) : payload := <["kid"%string := VString (demo_kid k)]> (<["x"%string := VString (demo_pub k)]> ∅).
Lemma key_object_plain k : norm <$> key_object k = key_object k /\ height (VObject (key_object k)) = 1%nat.
Proof. split; vm_compute; reflexivity. Qed.
Lemma key_object_read k data : jwk_marshal k = Some data -> canonicalJSON (VObject (key_object k)) = Ok data /\ DecodeObject data = Ok (key_object k).
Proof.
  cbn [jwk_marshal demo_jwk_text]. fold (key_object k). destruct (canonicalJSON _) as [b|] eqn:E; [|done]. intros [= <-]. split; [done|].
  destruct (key_object_plain k) as [Hn Hh]. rewrite (decode_written _ _ (canonicalJSON_write _ _ E)), Hn; [done|]. rewrite Hh. lia.
Qed.
#[local] Instance demo_text_spec : JwkTextSpec demo_key.
Proof.
  split.
  - intros k data obj [_ Hd]%key_object_read Hobj. rewrite Hd in Hobj. injection Hobj as <-. destruct (key_object_plain k) as [Hn Hh].
    split; [done|]. rewrite Hh. lia.
  - intros k data obj b k' [Hc Hd]%key_object_read Hobj Hb. rewrite Hd in Hobj. injection Hobj as <-. rewrite Hc in Hb. injection Hb as <-.
    cbn [jwk_parse demo_jwk_text]. rewrite Hd. intros [= <-]. reflexivity.
Qed.

(** ** The manager *)
Definition demo_log : Log (key:=demo_key) :=
  {| lg_Canonical := client_Canonical demo_ref;
     lg_WriteEvent e := wr_ref (WriteEvent (log_client 0) (Some demo_append) write_call write_call write_call None e) |}.
Definition demo_manager : LocalManager (key:=demo_key) :=
  {| lm_Domain := log_domain; lm_GovernanceID := "did:web:example.com"; lm_LogRef := ref_String demo_ref; lm_keys := Some (signer demo_ku1);
     lm_entityKeys := Some (signer demo_entity); logRegistry := None; localLog := Some demo_log |}.
Definition issued : handed (key:=demo_key) := GenerateIssuanceEvent demo_manager log_at.
Definition unissued : LogEvent demo_key := bare_event LogEventRetirement 0.
Definition issued_event : LogEvent demo_key := Eval vm_compute in default unissued (hd_event issued).
Definition issued_entry : string := Eval vm_compute in
  default EmptyString (wr_appended (WriteEvent (log_client 0) (Some demo_append) write_call write_call write_call None issued_event)).
Lemma issuance_generated : hd_event issued = Some issued_event.
Proof. vm_compute; reflexivity. Qed.
Lemma issuance_written :
  wr_appended (WriteEvent (log_client 0) (Some demo_append) write_call write_call write_call None issued_event) = Some issued_entry.
Proof. vm_compute; reflexivity. Qed.

Lemma generated_issuance_opens_the_stream_witness :
  exists head, CheckAppend (key:=demo_key) (fun _ => false) demo_ref [] issued_entry = Ok head /\
    FQDN (State head) = log_domain /\ OperationalThumb (State head) = thumb_of demo_ku1.
Proof.
  destruct (generated_issuance_opens_the_stream demo_manager log_at issued_event (log_client 0) (Some demo_append) write_call write_call write_call
    None issued_entry demo_thumbprints issuance_generated issuance_written) as (op & ek & head & Hop & _ & Hc & _ & _ & _ & Hst).
  exists head. split; [exact Hc|]. rewrite Hst. split; [reflexivity|]. cbn [OperationalThumb].
  assert (active_key (lm_keys demo_manager) = Ok ("op1"%string, demo_ku1, thumb_of demo_ku1)) as E by (vm_compute; reflexivity).
  rewrite E in Hop. injection Hop as <-. reflexivity.
Defined.

(** ** The same issuance, signed by the two parties *)
Definition unsigned_issuance : LogEvent demo_key := signed_event demo_issuance0 0 (fun _ => (EmptyString, EmptyString)).
Definition zero_time_written : handed (key:=demo_key) := SignAndWriteEvent demo_manager log_at unsigned_issuance.
Definition written_issuance_event : LogEvent demo_key := Eval vm_compute in default unissued (hd_event zero_time_written).
Lemma issuance_handed_over : hd_event zero_time_written = Some written_issuance_event.
Proof. vm_compute; reflexivity. Qed.
Lemma written_event_is_signed_witness :
  exists roles, RequiredLogSignatures unsigned_issuance = Ok roles /\
    Forall (fun role => logSignaturePresent written_issuance_event role = true) roles.
Proof.
  destruct (written_event_is_signed demo_manager log_at unsigned_issuance demo_log written_issuance_event eq_refl
    (client_bytes_unsigned demo_ref) issuance_handed_over) as (_ & _ & roles & Hr & Hall).
  exists roles. split; [exact Hr|]. eapply Forall_impl; [exact Hall|]. intros role H. exact (proj1 H).
Defined.

Definition timed_issuance : LogEvent demo_key := with_timestamp unsigned_issuance log_at.
Definition sign_by (k : demo_key) (role : LogSignerRole) (e : LogEvent demo_key) : LogEvent demo_key * res unit :=
  SignLogEventWithKey e role (Some (signer k)) (Some (client_Canonical demo_ref)).
Definition entity_first : LogEvent demo_key := Eval vm_compute in (sign_by demo_entity LogSignerEntity timed_issuance).1.
Definition both_signed : LogEvent demo_key := Eval vm_compute in (sign_by demo_ku1 LogSignerOperationalCountersignature entity_first).1.
Lemma entity_signs : sign_by demo_entity LogSignerEntity timed_issuance = (entity_first, Ok tt).
Proof. vm_compute; reflexivity. Qed.
Lemma operational_signs : sign_by demo_ku1 LogSignerOperationalCountersignature entity_first = (both_signed, Ok tt).
Proof. vm_compute; reflexivity. Qed.
Lemma signing_order_is_irrelevant_witness :
  exists e2, sign_by demo_ku1 LogSignerOperationalCountersignature timed_issuance = (e2, Ok tt) /\
    sign_by demo_entity LogSignerEntity e2 = (both_signed, Ok tt).
Proof.
  apply (signing_order_is_irrelevant (client_Canonical demo_ref) timed_issuance LogSignerEntity (signer demo_entity)
    LogSignerOperationalCountersignature (signer demo_ku1) entity_first both_signed); [discriminate|exact entity_signs|exact operational_signs].
Defined.
