(* ===== verification/Managed.v ===== *)
(** * Managed: rotations and issuances through a registry

    log/c2sptlog/managed_rotation.go, managed_issuance.go and
    managed_submission.go, with the classification of registry failures of
    registry.go. The coordinators work on a durable state against services
    that may fail at any call: the store, the registry, the key provider, the
    switch for application signing, the check of the publication. A service
    answers by the number of effects before the call, so nothing is assumed of
    one answer from another; every effect is recorded in the trace of the
    world. A crash is a prefix of a trace. The collaborators are taken to be
    set: a nil one is an argument error before any effect. *)

From Stdlib Require Import ZArith Lia Ascii String.
From S2P Require Import Prelude Codec Utf8 Numbers Jcs JcsSpec Keys Fqdn TxtRecord Jwks Domain Lifecycle Merkle Evidence Reference Policy Checkpoint Scan Event EventSpec Replay ReplaySpec Client Json KeyRing JoseUtil Prepared.

Open Scope Z_scope.

(** ** Submissions (registry.go) *)
Definition SubmissionState := string.
Definition SubmissionStatePending : SubmissionState := "pending".
Definition SubmissionStatePrepared : SubmissionState := "prepared".
Definition SubmissionStateSubmitting : SubmissionState := "submitting".
Definition SubmissionStateAccepted : SubmissionState := "accepted".
Definition SubmissionStateRejected : SubmissionState := "rejected".
Definition SubmissionStateIndeterminate : SubmissionState := "indeterminate".

Record SubmissionResult := {
  sub_State : SubmissionState; sub_EntryHash : string; sub_Index : option Z; sub_KeyID : string; sub_LogRef : string; sub_ErrorCode : string
}.

(** [RegistryAPIError]: its status, code and whether a transport failure is
    its cause. *)
Definition as_registry_error (e : error) : option (Z * string * bool) :=
  match e with RegistryAPIError status code _ cause => Some (status, code, cause) | _ => None end.
Definition terminal_code (code : string) : bool :=
  existsb (str_eqb code) ["IDEMPOTENCY_MISMATCH"; "TLOG_IDEMPOTENCY_MISMATCH"; "TLOG_PREPARATION_MISMATCH"; "TLOG_INVALID_ENTRY"].
Definition RetrySameEntry (e : Z * string * bool) : bool :=
  let '(status, code, cause) := e in
  if cause then true
  else if str_eqb code "TLOG_SUBMISSION_BUSY" || str_eqb code "TLOG_SUBMISSION_INDETERMINATE" then true
  else if terminal_code code then false
  else (status =? 408) || (status =? 425) || (status =? 429) || ((500 <=? status) && (status <? 600)).
Definition err_SubmissionState (e : Z * string * bool) : SubmissionState :=
  let '(_, code, cause) := e in
  if cause then SubmissionStateIndeterminate
  else if str_eqb code "TLOG_SUBMISSION_INDETERMINATE" then SubmissionStateIndeterminate
  else if str_eqb code "TLOG_SUBMISSION_BUSY" then SubmissionStatePending
  else if terminal_code code then SubmissionStateRejected
  else if RetrySameEntry e then SubmissionStateIndeterminate
  else SubmissionStateRejected.
Definition err_Transient (e : Z * string * bool) : bool := RetrySameEntry e.

(** ** managed_submission.go *)
(** The state to record, whether a retry may succeed, and whether it must
    send the same bytes. *)
Definition managedSubmissionFailure (e : error) : SubmissionState * bool * bool :=
  match errors_as as_registry_error e with
  | Some api => (err_SubmissionState api, err_Transient api, RetrySameEntry api)
  | None => (SubmissionStateIndeterminate, true, true)
  end.
Definition error_code (e : error) (otherwise : string) : string :=
  match errors_as as_registry_error e with
  | Some (_, code, _) => if is_empty code then otherwise else code
  | None => otherwise
  end.
Definition managedSubmissionErrorCode (e : error) : string := error_code e "TLOG_SUBMISSION_INDETERMINATE".
Definition managedPreparationErrorCode (e : error) : string := error_code e "TLOG_PREPARATION_UNAVAILABLE".

(** [hex.EncodeToString]. *)
Fixpoint hex_encode (s : string) : string :=
  match s with
  | EmptyString => EmptyString
  | String c s => String (hex_digit (byte_val c / 16)) (String (hex_digit (byte_val c mod 16)) (hex_encode s))
  end.
Definition entry_hash (entry : string) : string := hex_encode (sha256 entry).

Definition validateManagedIdempotencyKey (key : string) : res unit :=
  fail_if is_empty key || (200 <? Z.of_nat (String.length key)) || negb (str_eqb (TrimSpace key) key)
    with ArgumentError "dnsid: managed key rotation idempotency key must be 1 to 200 bytes without surrounding whitespace" ;;
  Ok tt.

Definition open_state (state : SubmissionState) : bool :=
  existsb (str_eqb state) [SubmissionStatePrepared; SubmissionStateSubmitting; SubmissionStatePending; SubmissionStateIndeterminate; SubmissionStateRejected].
Definition invalid (msg : string) : error := ValidationError msg.
Definition validation_of {A} (msg : string) (r : res A) : res A :=
  match r with Ok a => Ok a | Err e => Err (WithCause (ValidationError msg) e) end.

(** ** Effects *)
Section effects.
Context {state answer : Type}.
Inductive effect :=
| Persisted (st : state) (ok : bool)
| Switched (block : bool) (ok : bool)
| Generated (ok : bool)
| RegistryPrepared (domain key : string)
| Submitted (domain entry key : string)
| Checked (a : answer)
| KeyActivated (kid : string) (ok : bool)
| KeySuperseded (kid : string) (ok : bool).

(** What happened, oldest first, and the client's checkpoint store. *)
Record world := { trace : list effect; checkpoints_of : option checkpoints }.
Definition clock (w : world) : nat := List.length (trace w).
Definition tick (e : effect) (w : world) : world := {| trace := trace w ++ [e]; checkpoints_of := checkpoints_of w |}.
Definition with_checkpoints (s : option checkpoints) (w : world) : world := {| trace := trace w; checkpoints_of := s |}.

(** ** Reading a trace *)
(** The state the store holds for certain, [saved] being what it held before. *)
Definition durable (saved : option state) (tr : list effect) : option state :=
  fold_left (fun d e => match e with Persisted st true => Some st | _ => d end) tr saved.
Lemma durable_snoc saved tr e :
  durable saved (tr ++ [e]) = match e with Persisted st true => Some st | _ => durable saved tr end.
Proof. unfold durable. by rewrite fold_left_app. Qed.

Definition saves (tr : list effect) (r : state) : Prop := exists ok, Persisted r ok ∈ tr.
Lemma durable_from saved tr r : durable saved tr = Some r -> saved = Some r \/ saves tr r.
Proof.
  induction tr as [|e tr IH] using rev_ind; [by left|]. rewrite durable_snoc. intros H.
  assert (saved = Some r \/ saves tr r -> saved = Some r \/ saves (tr ++ [e]) r) as Hw.
  { intros [|[ok Hin]]; [by left|right; exists ok; set_solver]. }
  destruct e as [st [] | | | | | | |]; try (by apply Hw, IH). injection H as ->. right. exists true. set_solver.
Qed.
End effects.
Arguments effect : clear implicits.
Arguments world : clear implicits.

(** Every element is allowed by those before it. *)
Definition disciplined {E} (allowed : list E -> E -> Prop) (tr : list E) : Prop :=
  forall pre e post, tr = pre ++ e :: post -> allowed pre e.
Lemma disciplined_nil {E} (allowed : list E -> E -> Prop) : disciplined allowed [].
Proof. by intros [|] ? ? ?. Qed.
Lemma disciplined_snoc {E} (allowed : list E -> E -> Prop) tr e : disciplined allowed tr -> allowed tr e -> disciplined allowed (tr ++ [e]).
Proof.
  intros Ht He pre e' post E'. destruct (decide (post = [])) as [->|Hne].
  - apply app_inj_tail in E' as [<- <-]. done.
  - destruct (exists_last Hne) as (post' & z & ->). rewrite app_comm_cons, app_assoc in E'. apply app_inj_tail in E' as [E' _].
    by apply (Ht _ _ _ E').
Qed.
Lemma disciplined_prefix {E} (allowed : list E -> E -> Prop) tr post : disciplined allowed (tr ++ post) -> disciplined allowed tr.
Proof. intros H pre e rest ->. apply (H pre e (rest ++ post)). by rewrite <- app_assoc. Qed.

Section managed.
Context {key : Type} `{!KeyOps key} `{!JwkText key} {N : NoteLib} {U : NetURL} {T : TLog} {I : Idna} {C : ConsistencyLib}.
Abbreviation LogEvent := (LogEvent key).
Abbreviation Client := (Client (key:=key)).
Abbreviation KeyProvider := (KeyProvider (key:=key)).

(** A reader of single events by their final reference. *)
Record EventReader := { ReadEvent : string -> res LogEvent }.
Abbreviation VerifiedDomain := (VerifiedDomain key EventReader).

Definition managedRotationKey (k : option key) : res (string * string * JoseAlg) :=
  match k with
  | None => Err (ArgumentError "dnsid: managed key rotation key is required")
  | Some k' =>
      fail_if is_empty (kid_or_empty k') with invalid "dnsid: managed key rotation key is missing kid" ;;
      match key_algorithm k' with
      | None => Err (invalid "dnsid: managed key rotation key is missing alg")
      | Some alg =>
          fail_if negb (alg_Valid alg) with invalid "dnsid: managed key rotation key uses unsupported alg" ;;
          thumb ← keyThumbprint k;
          Ok (kid_or_empty k', thumb, alg)
      end
  end.

(** [validateManagedSubmission] and its counterpart for an ISSUANCE differ in
    what an accepted result must name. *)
Definition validate_submission (prior : option SubmissionResult) (log_reference : string) (accepted_ok : SubmissionResult -> res unit)
    (result : option SubmissionResult) : res unit :=
  match result with
  | None => Err (invalid "dnsid: registry returned no managed submission result")
  | Some result =>
      fail_if match prior with
              | Some prior => negb (is_empty (sub_EntryHash prior)) && negb (is_empty (sub_EntryHash result))
                              && negb (str_eqb (sub_EntryHash prior) (sub_EntryHash result))
              | None => false
              end with invalid "dnsid: registry reconciled a different entry hash" ;;
      if open_state (sub_State result) then Ok tt
      else if negb (str_eqb (sub_State result) SubmissionStateAccepted) then Err (invalid "dnsid: unknown managed submission state")
      else
        accepted_ok result ;;
        match sub_Index result with
        | Some index =>
            fail_if is_empty (sub_LogRef result) with invalid "dnsid: accepted submission is missing its final c2sp-tlog reference" ;;
            match ParseFinalEventRef (sub_LogRef result) with
            | Err e => Err (WithCause (invalid "dnsid: accepted submission final reference does not match the stream and index") e)
            | Ok (ref, index') =>
                fail_if negb (str_eqb (ref_String ref) log_reference) || negb (index' =? index)
                  with invalid "dnsid: accepted submission final reference does not match the stream and index" ;;
                Ok tt
            end
        | None => Err (invalid "dnsid: accepted submission is missing its final c2sp-tlog reference")
        end
  end.
End managed.
