(* ===== verification/ManagedRotation.v ===== *)
(** * ManagedRotation: the rotation of an operational key

    log/c2sptlog/managed_rotation.go: [RotateManagedOperationalKey] prepares
    and submits a KEY_ROTATION through the registry and activates the new key
    once the registry's acceptance is saved and the new publication verified;
    [ResumeManagedOperationalKeyRotation] takes a saved state up again. *)

From Stdlib Require Import ZArith Lia Ascii String.
From S2P Require Import Prelude Codec Utf8 Numbers Jcs JcsSpec Keys Fqdn TxtRecord Jwks Domain Lifecycle Merkle Evidence Reference Policy Checkpoint Scan Event EventSpec Replay ReplaySpec Client Json KeyRing JoseUtil Prepared Managed.

Open Scope Z_scope.

Section rotation.
Context {key : Type} `{!KeyOps key} `{!JwkText key} `{!JwkSetLib key} {N : NoteLib} {U : NetURL} {T : TLog} {I : Idna} {C : ConsistencyLib}.
Abbreviation LogEvent := (LogEvent key).
Abbreviation Client := (Client (key:=key)).
Abbreviation KeyProvider := (KeyProvider (key:=key)).
Abbreviation VerifiedDomain := (VerifiedDomain key (EventReader (key:=key))).

(** The durable recovery record. *)
Record ManagedKeyRotationState := {
  Domain : string;
  LogReference : string;
  PreviousKid : string;
  PreviousThumbprint : string;
  NewKid : string;
  NewThumbprint : string;
  EntryBytes : string;
  EntryHash : string;
  IdempotencyKey : string;
  Submission : option SubmissionResult;
  Activated : bool;
  ApplicationSigningPaused : bool
}.
Abbreviation state := ManagedKeyRotationState.
Abbreviation world := (world state (option VerifiedDomain)).

Definition with_submission (r : state) (sub : SubmissionResult) : state :=
  {| Domain := Domain r; LogReference := LogReference r; PreviousKid := PreviousKid r; PreviousThumbprint := PreviousThumbprint r;
     NewKid := NewKid r; NewThumbprint := NewThumbprint r; EntryBytes := EntryBytes r; EntryHash := EntryHash r;
     IdempotencyKey := IdempotencyKey r; Submission := Some sub; Activated := Activated r;
     ApplicationSigningPaused := ApplicationSigningPaused r |}.
Definition with_progress (r : state) (activated paused : bool) : state :=
  {| Domain := Domain r; LogReference := LogReference r; PreviousKid := PreviousKid r; PreviousThumbprint := PreviousThumbprint r;
     NewKid := NewKid r; NewThumbprint := NewThumbprint r; EntryBytes := EntryBytes r; EntryHash := EntryHash r;
     IdempotencyKey := IdempotencyKey r; Submission := Submission r; Activated := activated; ApplicationSigningPaused := paused |}.

(** The services, by the number of effects before the call. *)
Record services := {
  sv_client : Client;
  sv_call : nat -> call;
  sv_keys : nat -> KeyProvider;
  sv_GenerateKey : nat -> JoseAlg -> res string;
  sv_Activate : nat -> string -> res unit;
  sv_Supersede : nat -> string -> res unit;
  sv_PrepareKeyRotation : nat -> string -> string -> option key -> string -> res (option string);
  sv_SubmitPreparedEvent : nat -> string -> string -> string -> res (option SubmissionResult);
  sv_Persist : nat -> state -> res unit;
  sv_SetPaused : nat -> bool -> res unit;
  sv_VerifyLocalPublication : nat -> res (option VerifiedDomain)
}.

(** The two errors of the package, or another one. *)
Inductive failure :=
| Plain (e : error)
| SubmissionError (rotation : state) (st : SubmissionState) (transient retry : bool) (e : error)
| ActivationError (rotation : state) (e : error).
Definition outcome : Type := option state * option failure.

Section with_services.
Variable s : services.

(** ** The services as effects *)
Definition persistManagedRotation (r : state) (w : world) : res unit * world :=
  let a := sv_Persist s (clock w) r in
  (match a with Ok _ => Ok tt | Err e => Err (WithCause (PlainError "dnsid: persisting managed key rotation") e) end,
   tick (Persisted r (is_ok a)) w).
Definition SetApplicationSigningPaused (b : bool) (w : world) : res unit * world :=
  let a := sv_SetPaused s (clock w) b in (a, tick (Switched b (is_ok a)) w).
Definition Activate (kid : string) (w : world) : res unit * world :=
  let a := sv_Activate s (clock w) kid in (a, tick (KeyActivated kid (is_ok a)) w).
Definition Supersede (kid : string) (w : world) : res unit * world :=
  let a := sv_Supersede s (clock w) kid in (a, tick (KeySuperseded kid (is_ok a)) w).
Definition provider (w : world) : KeyProvider := sv_keys s (clock w).
Definition provider_active (w : world) : option key := kp_Active (provider w).
Definition provider_key (w : world) (kid : string) : option key := kp_JWK (provider w) kid.
Definition lists (w : world) (kid : string) : bool := existsb (fun listed => str_eqb listed kid) (kp_ListKeyIds (provider w)).

(** ** Validation *)
Definition accepted_rotation (r : state) (result : SubmissionResult) : res unit :=
  fail_if negb (str_eqb (EntryHash r) (entry_hash (EntryBytes r))) || negb (str_eqb (sub_EntryHash result) (entry_hash (EntryBytes r)))
    with invalid "dnsid: accepted submission entry hash does not match the exact managed key rotation bytes" ;;
  fail_if negb (str_eqb (sub_KeyID result) (NewKid r)) with invalid "dnsid: accepted submission key_id does not match the pending key" ;;
  Ok tt.
Definition validateManagedSubmission (r : state) (result : option SubmissionResult) : res unit :=
  validate_submission (Submission r) (LogReference r) (accepted_rotation r) result.

Definition is_accepted (r : state) : bool :=
  match Submission r with Some sub => str_eqb (sub_State sub) SubmissionStateAccepted | None => false end.
Definition is_rejected (r : state) : bool :=
  match Submission r with Some sub => str_eqb (sub_State sub) SubmissionStateRejected | None => false end.

Definition validatePersistedManagedRotation (r : state) : res unit :=
  match NormalizeFQDN (Domain r) with
  | Err e => Err (WithCause (PlainError "invalid persisted domain") e)
  | Ok domain =>
      fail_if negb (str_eqb domain (Domain r)) with PlainError "persisted domain is not normalized" ;;
      match ParseReference (LogReference r) with
      | Err e => Err (WithCause (PlainError "invalid persisted log reference") e)
      | Ok ref =>
          fail_if str_eqb (StreamID ref) domain with PlainError "persisted stream ID equals the identity domain" ;;
          fail_if negb (str_eqb (EntryHash r) (entry_hash (EntryBytes r))) with PlainError "persisted entry hash does not match entry bytes" ;;
          payload ← payloadObjectFromEntry (EntryBytes r);
          let bound := optionalString payload "lr" in
          fail_if negb (is_empty bound) && negb (str_eqb bound (LogReference r))
            with PlainError "persisted entry belongs to a different log reference" ;;
          event ← LogEventFromEntry (key:=key) (EntryBytes r);
          fail_if negb (type_eqb (Type_ event) LogEventKeyRotation) || negb (str_eqb (Lifecycle.Domain event) domain)
               || negb (str_eqb (PreviousOperationalThumbprint event) (PreviousThumbprint r))
               || negb (str_eqb (NewOperationalThumbprint event) (NewThumbprint r))
            with PlainError "persisted rotation metadata does not match entry bytes" ;;
          '(newKid, newThumb, _) ← managedRotationKey (NewOperationalPublicKey event);
          fail_if negb (str_eqb newKid (NewKid r)) || negb (str_eqb newThumb (NewThumbprint r))
            with PlainError "persisted new key does not match entry bytes" ;;
          Ok tt
      end
  end.
Definition complete_state (r : state) : bool :=
  negb (is_empty (Domain r) || is_empty (LogReference r) || is_empty (EntryBytes r) || negb (is_ok (validateManagedIdempotencyKey (IdempotencyKey r)))
        || is_empty (PreviousKid r) || is_empty (PreviousThumbprint r) || is_empty (NewKid r) || is_empty (NewThumbprint r)).

Definition validateManagedPreparedRotation (p : PreparedEvent) (domain previousThumb newKid newThumb : string) (newKey : option key) : res unit :=
  event ← pr_Event (key:=key) p;
  fail_if negb (type_eqb (Type_ event) LogEventKeyRotation) || negb (str_eqb (Lifecycle.Domain event) domain)
    with invalid "dnsid: registry preparation is not the expected KEY_ROTATION" ;;
  fail_if negb (str_eqb (PreviousOperationalThumbprint event) previousThumb)
    with invalid "dnsid: registry KEY_ROTATION previous thumbprint does not match the active key" ;;
  '(actualKid, actualThumb, _) ← managedRotationKey (NewOperationalPublicKey event);
  '(expectedKid, expectedThumb, _) ← managedRotationKey newKey;
  fail_if negb (str_eqb actualKid newKid) || negb (str_eqb expectedKid newKid) || negb (str_eqb actualThumb newThumb)
       || negb (str_eqb expectedThumb newThumb) || negb (str_eqb (NewOperationalThumbprint event) newThumb)
    with invalid "dnsid: registry KEY_ROTATION new key does not match the generated pending key" ;;
  Ok tt.

(** The provider still is in a state of this rotation. *)
Definition validateManagedProvider (r : state) (w : world) : res unit :=
  let accepted := is_accepted r in
  match Submission r with Some _ => validateManagedSubmission r (Submission r) | None => Ok tt end ;;
  fail_if Activated r && negb accepted with invalid "dnsid: activated rotation has no saved acceptance" ;;
  '(kid, thumb, _) ← managedRotationKey (provider_active w);
  let newActive := str_eqb kid (NewKid r) && str_eqb thumb (NewThumbprint r) in
  let previousActive := str_eqb kid (PreviousKid r) && str_eqb thumb (PreviousThumbprint r) in
  fail_if (negb previousActive && (negb accepted || negb newActive)) || (Activated r && negb newActive)
    with invalid "dnsid: active provider does not match saved rotation" ;;
  '(newKid, newThumb, _) ← validation_of "dnsid: target provider does not match saved rotation" (managedRotationKey (provider_key w (NewKid r)));
  fail_if negb (str_eqb newKid (NewKid r)) || negb (str_eqb newThumb (NewThumbprint r))
    with invalid "dnsid: target provider does not match saved rotation" ;;
  if lists w (PreviousKid r) then
    '(previousKid, previousThumb, _) ← validation_of "dnsid: saved previous key is unavailable or changed" (managedRotationKey (provider_key w (PreviousKid r)));
    fail_if negb (str_eqb previousKid (PreviousKid r)) || negb (str_eqb previousThumb (PreviousThumbprint r))
      with invalid "dnsid: saved previous key is unavailable or changed" ;;
    Ok tt
  else
    fail_if negb accepted || negb newActive with invalid "dnsid: previous key is absent before accepted activation" ;;
    Ok tt.

(** What the verified publication and the log's own copy of the event must
    say: the part of [verifyManagedPublication] after the fetch. *)
Definition publication_mismatch : error := invalid "dnsid: current signed publication does not match managed rotation".
Definition check_publication (r : state) (sub : SubmissionResult) (observed : option VerifiedDomain) : res unit :=
  match observed with
  | None => Err publication_mismatch
  | Some vd =>
      match record vd, keySet vd, logReader vd with
      | Some rec, Some keys, Some reader =>
          fail_if negb (str_eqb (cachedState vd) "fresh") || negb (str_eqb (domain vd) (Domain r)) || negb (str_eqb (LogRef rec) (LogReference r))
            with publication_mismatch ;;
          k ← CurrentOperationalSigningKey (Some keys) (Version rec);
          thumb ← validation_of "dnsid: published operational key does not match managed rotation" (jwk_Thumbprint (Some k));
          fail_if negb (str_eqb (jwk_Kid (Some k)) (NewKid r)) || negb (str_eqb thumb (NewThumbprint r))
            with invalid "dnsid: published operational key does not match managed rotation" ;;
          expected ← LogEventFromEntry (key:=key) (EntryBytes r);
          event ← ReadEvent reader (sub_LogRef sub);
          fail_if negb (type_eqb (Type_ event) (Type_ expected)) || negb (str_eqb (Lifecycle.Domain event) (Lifecycle.Domain expected))
               || negb (Timestamp event =? Timestamp expected)
               || negb (str_eqb (PreviousOperationalThumbprint event) (PreviousOperationalThumbprint expected))
               || negb (str_eqb (NewOperationalThumbprint event) (NewOperationalThumbprint expected))
               || negb (str_eqb (NewOperationalKid event) (NewOperationalKid expected))
               || negb (str_eqb (PreviousOperationalSignature event) (PreviousOperationalSignature expected))
               || negb (str_eqb (NewOperationalSignature event) (NewOperationalSignature expected))
            with invalid "dnsid: accepted managed rotation continuity mismatch" ;;
          Ok tt
      | _, _, _ => Err publication_mismatch
      end
  end.
Definition verifyManagedPublication (r : state) (w : world) : res unit * world :=
  match Submission r with
  | Some sub =>
      if negb (str_eqb (sub_State sub) SubmissionStateAccepted) then (Err (invalid "dnsid: activation requires saved acceptance"), w)
      else match validateManagedSubmission r (Some sub) with
      | Err e => (Err e, w)
      | Ok _ =>
          match sv_VerifyLocalPublication s (clock w) with
          | Err e => (Err e, tick (Checked None) w)
          | Ok observed => (check_publication r sub observed, tick (Checked observed) w)
          end
      end
  | None => (Err (invalid "dnsid: activation requires saved acceptance"), w)
  end.

(** ** Activation *)
Definition reconcileManagedRotation (r : state) (w : world) : res unit * world :=
  match validateManagedProvider r w with
  | Err e => (Err e, w)
  | Ok _ =>
      let activeKid := match provider_active w with Some k => kid_or_empty k | None => EmptyString end in
      let '(activation, w) := if str_eqb activeKid (NewKid r) then (Ok tt, w) else Activate (NewKid r) w in
      match activation with
      | Err e => (Err e, w)
      | Ok _ =>
          match validation_of "dnsid: activated key does not match saved rotation" (managedRotationKey (provider_active w)) with
          | Err e => (Err e, w)
          | Ok (kid, thumb, _) =>
              if negb (str_eqb kid (NewKid r)) || negb (str_eqb thumb (NewThumbprint r))
              then (Err (invalid "dnsid: activated key does not match saved rotation"), w)
              else if lists w (PreviousKid r) then Supersede (PreviousKid r) w
              else (Ok tt, w)
          end
      end
  end.

Definition releaseManagedSigning (activated : state) (w : world) : outcome * world :=
  match SetApplicationSigningPaused false w with
  | (Err e, w) => ((Some activated, Some (ActivationError activated e)), w)
  | (Ok _, w) =>
      let completed := with_progress activated (Activated activated) false in
      match persistManagedRotation completed w with
      | (Err e, w) => ((Some activated, Some (ActivationError activated e)), w)
      | (Ok _, w) => ((Some completed, None), w)
      end
  end.
Definition finishManagedRotation (next : state) (w : world) : outcome * world :=
  match verifyManagedPublication next w with
  | (Err e, w) => ((Some next, Some (ActivationError next e)), w)
  | (Ok _, w) =>
      match reconcileManagedRotation next w with
      | (Err e, w) => ((Some next, Some (ActivationError next e)), w)
      | (Ok _, w) =>
          let activated := with_progress next true true in
          match persistManagedRotation activated w with
          | (Err e, w) => ((Some next, Some (ActivationError next e)), w)
          | (Ok _, w) => releaseManagedSigning activated w
          end
      end
  end.

(** ** Submission *)
Definition submitManagedRotation (r : state) (w : world) : outcome * world :=
  let answer := sv_SubmitPreparedEvent s (clock w) (Domain r) (EntryBytes r) (IdempotencyKey r) in
  let w := tick (Submitted (Domain r) (EntryBytes r) (IdempotencyKey r)) w in
  match answer with
  | Err e =>
      let '(st, transient, retry) := managedSubmissionFailure e in
      let next := with_submission r {| sub_State := st; sub_EntryHash := EntryHash r; sub_Index := None; sub_KeyID := "";
                                       sub_LogRef := ""; sub_ErrorCode := managedSubmissionErrorCode e |} in
      match persistManagedRotation next w with
      | (Err e', w) => ((Some r, Some (SubmissionError r st transient retry (WithCause e e'))), w)
      | (Ok _, w) => ((Some next, Some (SubmissionError next st transient retry e)), w)
      end
  | Ok result =>
      match validateManagedSubmission r result, result with
      | Ok _, Some result =>
          let next := with_submission r result in
          match persistManagedRotation next w with
          | (Err e, w) => ((Some next, Some (SubmissionError next (sub_State result) true true e)), w)
          | (Ok _, w) =>
              if str_eqb (sub_State result) SubmissionStateRejected
              then ((Some next, Some (SubmissionError next (sub_State result) false false (PlainError "registry rejected the prepared KEY_ROTATION"))), w)
              else if negb (str_eqb (sub_State result) SubmissionStateAccepted) then ((Some next, None), w)
              else finishManagedRotation next w
          end
      | Err e, _ => ((Some r, Some (SubmissionError r SubmissionStateRejected false false e)), w)
      | Ok _, None => ((Some r, Some (Plain (invalid "dnsid: registry returned no managed submission result"))), w)
      end
  end.

(** ** The two operations *)
(** What is fixed before the first effect that matters: the signed entry. *)
Definition signed_rotation (domain previousThumb newKid newThumb : string) (newKey : option key) (entry : string) (w : world)
    : res string * world :=
  let c := sv_client s in
  let kp := provider w in
  let call := sv_call s (clock w) in
  match (p ← ParsePreparedEvent (key:=key) (client_ref c) entry;
         validateManagedPreparedRotation p domain previousThumb newKid newThumb newKey ;; Ok p) with
  | Err e => (Err e, w)
  | Ok p =>
      match SignPreparedEvent c call (checkpoints_of w) p SignerPreviousOperational (Some kp) with
      | (Err e, st) => (Err e, with_checkpoints st w)
      | (Ok p, st) =>
          match SignPreparedEventWithKey c call st p SignerNewOperational (Some kp) newKid with
          | (Err e, st) => (Err e, with_checkpoints st w)
          | (Ok p, st) => let '(entry, st) := PreparedEntryBytes c call st p in (entry, with_checkpoints st w)
          end
      end
  end.

Definition plain {A} (e : error) (w : world) : (option A * option failure) * world := ((None, Some (Plain e)), w).

(** The new pending key. *)
Definition pending_key (previousThumb : string) (algorithm : JoseAlg) (w : world) : res (string * string * option key) * world :=
  let a := sv_GenerateKey s (clock w) algorithm in
  let w := tick (Generated (is_ok a)) w in
  (newKid ← a;
   '(providerNewKid, newThumb, _) ← managedRotationKey (provider_key w newKid);
   fail_if negb (str_eqb providerNewKid newKid) with invalid "dnsid: generated pending key kid does not match the KeyProvider result" ;;
   fail_if str_eqb newThumb previousThumb with invalid "dnsid: managed KEY_ROTATION requires a distinct pending operational key" ;;
   Ok (newKid, newThumb, provider_key w newKid), w).

Definition RotateManagedOperationalKey (opt_domain idempotency : string) (w : world) : outcome * world :=
  match (domain ← NormalizeFQDN opt_domain;
         validateManagedIdempotencyKey idempotency ;;
         '(previousKid, previousThumb, algorithm) ← managedRotationKey (provider_active w);
         Ok (domain, previousKid, previousThumb, algorithm)) with
  | Err e => plain e w
  | Ok (domain, previousKid, previousThumb, algorithm) =>
      match pending_key previousThumb algorithm w with
      | (Err e, w) => plain e w
      | (Ok (newKid, newThumb, newKey), w) =>
          let raw := sv_PrepareKeyRotation s (clock w) domain previousThumb newKey idempotency in
          let w := tick (RegistryPrepared domain idempotency) w in
          match raw with
          | Err e => plain e w
          | Ok None => plain (invalid "dnsid: registry preparation returned no entry") w
          | Ok (Some raw) =>
              match signed_rotation domain previousThumb newKid newThumb newKey raw w with
              | (Err e, w) => plain e w
              | (Ok entry, w) =>
                  let r := {| Domain := domain; LogReference := ref_String (client_ref (sv_client s)); PreviousKid := previousKid;
                              PreviousThumbprint := previousThumb; NewKid := newKid; NewThumbprint := newThumb; EntryBytes := entry;
                              EntryHash := entry_hash entry; IdempotencyKey := idempotency; Submission := None; Activated := false;
                              ApplicationSigningPaused := true |} in
                  match persistManagedRotation r w with
                  | (Err e, w) => ((Some r, Some (SubmissionError r SubmissionStatePrepared true true e)), w)
                  | (Ok _, w) =>
                      match SetApplicationSigningPaused true w with
                      | (Err e, w) => ((Some r, Some (SubmissionError r SubmissionStatePrepared true true e)), w)
                      | (Ok _, w) => submitManagedRotation r w
                      end
                  end
              end
          end
      end
  end.

Definition ResumeManagedOperationalKeyRotation (saved : state) (w : world) : outcome * world :=
  if negb (complete_state saved) then plain (ArgumentError "dnsid: complete persisted managed key rotation state is required") w
  else match validatePersistedManagedRotation saved with
  | Err e => plain (WithCause (invalid "dnsid: persisted managed key rotation state failed integrity validation") e) w
  | Ok _ =>
      match validateManagedProvider saved w with
      | Err e => ((Some saved, Some (ActivationError saved e)), w)
      | Ok _ =>
          if Activated saved then
            if negb (ApplicationSigningPaused saved) then ((Some saved, None), w) else releaseManagedSigning saved w
          else if is_rejected saved then
            ((Some saved, Some (SubmissionError saved SubmissionStateRejected false false (PlainError "registry rejected the prepared KEY_ROTATION"))), w)
          else
            let r := with_progress saved (Activated saved) true in
            let st := match Submission r with Some sub => sub_State sub | None => SubmissionStatePrepared end in
            match persistManagedRotation r w with
            | (Err e, w) => ((Some r, Some (SubmissionError r st true true e)), w)
            | (Ok _, w) =>
                match SetApplicationSigningPaused true w with
                | (Err e, w) => ((Some r, Some (SubmissionError r st true true e)), w)
                | (Ok _, w) => if is_accepted r then finishManagedRotation r w else submitManagedRotation r w
                end
            end
      end
  end.
End with_services.
End rotation.
