(* ===== verification/ManagedIssuance.v ===== *)
(** * ManagedIssuance: the issuance of an identity through a registry

    log/c2sptlog/managed_issuance.go: [BeginManagedIssuance] creates the one
    durable operation of a domain, has the registry prepare the event,
    countersigns and submits it; [ResumeManagedIssuance] takes the durable
    state up; [CompleteManagedIssuance] releases the block on activation. *)

From Stdlib Require Import ZArith Lia Ascii String.
From S2P Require Import Prelude Codec Utf8 Numbers Jcs JcsSpec Keys Fqdn TxtRecord Jwks Domain Lifecycle Merkle Evidence Reference Policy Checkpoint Scan Event EventSpec Replay ReplaySpec Client Json KeyRing JoseUtil Prepared Managed.

Open Scope Z_scope.

Section issuance.
Context {key : Type} `{!KeyOps key} `{!JwkText key} {N : NoteLib} {U : NetURL} {T : TLog} {I : Idna} {C : ConsistencyLib}.
Abbreviation LogEvent := (LogEvent key).
Abbreviation Client := (Client (key:=key)).
Abbreviation KeyProvider := (KeyProvider (key:=key)).

(** The durable recovery record. *)
Record ManagedIssuanceState := {
  Domain : string;
  iss_GovernanceID : string;
  LogReference : string;
  EntityThumbprint : string;
  OperationalKid : string;
  OperationalThumbprint : string;
  EntryBytes : string;
  EntryHash : string;
  IdempotencyKey : string;
  Submission : option SubmissionResult;
  LastErrorCode : string;
  TerminalFailure : bool;
  Complete : bool;
  ActivationBlocked : bool
}.
Abbreviation state := ManagedIssuanceState.
Abbreviation world := (world state unit).

(** The fields a run changes: the entry once, the outcome, the progress. *)
Definition with_outcome (r : state) (sub : option SubmissionResult) (code : string) (terminal : bool) : state :=
  {| Domain := Domain r; iss_GovernanceID := iss_GovernanceID r; LogReference := LogReference r; EntityThumbprint := EntityThumbprint r;
     OperationalKid := OperationalKid r; OperationalThumbprint := OperationalThumbprint r; EntryBytes := EntryBytes r;
     EntryHash := EntryHash r; IdempotencyKey := IdempotencyKey r; Submission := sub; LastErrorCode := code;
     TerminalFailure := terminal; Complete := Complete r; ActivationBlocked := ActivationBlocked r |}.
Definition with_entry (r : state) (entry : string) : state :=
  {| Domain := Domain r; iss_GovernanceID := iss_GovernanceID r; LogReference := LogReference r; EntityThumbprint := EntityThumbprint r;
     OperationalKid := OperationalKid r; OperationalThumbprint := OperationalThumbprint r; EntryBytes := entry;
     EntryHash := entry_hash entry; IdempotencyKey := IdempotencyKey r; Submission := Submission r; LastErrorCode := "";
     TerminalFailure := false; Complete := Complete r; ActivationBlocked := ActivationBlocked r |}.
Definition with_completion (r : state) (blocked : bool) : state :=
  {| Domain := Domain r; iss_GovernanceID := iss_GovernanceID r; LogReference := LogReference r; EntityThumbprint := EntityThumbprint r;
     OperationalKid := OperationalKid r; OperationalThumbprint := OperationalThumbprint r; EntryBytes := EntryBytes r;
     EntryHash := EntryHash r; IdempotencyKey := IdempotencyKey r; Submission := Submission r; LastErrorCode := LastErrorCode r;
     TerminalFailure := TerminalFailure r; Complete := true; ActivationBlocked := blocked |}.

(** The services, by the number of effects before the call. [sv_Create]
    answers with the operation that exists already, if any. *)
Record services := {
  sv_client : Client;
  sv_default : Reference -> Client;
  sv_call : nat -> call;
  sv_entity : option key;
  sv_keys : nat -> KeyProvider;
  sv_PrepareIssuance : nat -> string -> string -> res (option string);
  sv_SubmitPreparedEvent : nat -> string -> string -> string -> res (option SubmissionResult);
  sv_Create : nat -> state -> res (option state);
  sv_Load : nat -> string -> res (option state);
  sv_Persist : nat -> state -> res unit;
  sv_SetBlocked : nat -> bool -> res unit
}.

Inductive failure :=
| Plain (e : error)
| InProgressError (issuance : state)
| OperationError (issuance : state) (st : SubmissionState) (transient retry : bool) (e : error).
Definition outcome : Type := option state * option failure.

Section with_services.
Variable s : services.

Definition persistManagedIssuance (r : state) (w : world) : res unit * world :=
  let a := sv_Persist s (clock w) r in
  (match a with Ok _ => Ok tt | Err e => Err (WithCause (PlainError "dnsid: persisting managed issuance") e) end,
   tick (Persisted r (is_ok a)) w).
Definition SetManagedIssuanceActivationBlocked (b : bool) (w : world) : res unit * world :=
  let a := sv_SetBlocked s (clock w) b in (a, tick (Switched b (is_ok a)) w).
Definition provider (w : world) : KeyProvider := sv_keys s (clock w).

(** ** Validation *)
Definition accepted_issuance (r : state) (result : SubmissionResult) : res unit :=
  fail_if negb (str_eqb (sub_EntryHash result) (EntryHash r))
    with invalid "dnsid: accepted submission entry hash does not match exact managed issuance bytes" ;;
  fail_if negb (is_empty (sub_KeyID result)) && negb (str_eqb (sub_KeyID result) (OperationalKid r))
    with invalid "dnsid: accepted submission key_id does not match operational key" ;;
  Ok tt.
Definition validateManagedIssuanceSubmission (r : state) (result : option SubmissionResult) : res unit :=
  validate_submission (Submission r) (LogReference r) (accepted_issuance r) result.

Definition in_state (r : state) (st : SubmissionState) : bool :=
  match Submission r with Some sub => str_eqb (sub_State sub) st | None => false end.

Definition thumb_is (k : option key) (want : string) : bool :=
  match keyThumbprint k with Ok t => str_eqb t want | Err _ => false end.
Definition key_error (k : option key) (msg : string) : error :=
  match keyThumbprint k with Ok _ => invalid msg | Err e => WithCause (invalid msg) e end.

Definition validateManagedPreparedIssuance (p : PreparedEvent) (r : state) (entityKey operationalKey : option key) : res unit :=
  event ← pr_Event (key:=key) p;
  fail_if negb (type_eqb (Type_ event) LogEventIssuance) || negb (str_eqb (Lifecycle.Domain event) (Domain r))
       || negb (str_eqb (GovernanceID event) (iss_GovernanceID r))
    with invalid "dnsid: registry preparation is not the expected ISSUANCE" ;;
  fail_if negb (thumb_is (InitialEntityPublicKey event) (EntityThumbprint r))
    with key_error (InitialEntityPublicKey event) "dnsid: registry ISSUANCE entity key does not match expected key" ;;
  fail_if negb (thumb_is entityKey (EntityThumbprint r)) with key_error entityKey "dnsid: managed ISSUANCE expected entity key mismatch" ;;
  fail_if negb (thumb_is (InitialOperationalPublicKey event) (OperationalThumbprint r))
    with key_error (InitialOperationalPublicKey event) "dnsid: registry ISSUANCE operational key does not match active key" ;;
  fail_if negb (thumb_is operationalKey (OperationalThumbprint r))
    with key_error operationalKey "dnsid: managed ISSUANCE active operational key mismatch" ;;
  Ok tt.

Definition incomplete (r : state) : bool :=
  is_empty (Domain r) || is_empty (iss_GovernanceID r) || is_empty (LogReference r) || is_empty (IdempotencyKey r)
  || is_empty (EntityThumbprint r) || is_empty (OperationalKid r) || is_empty (OperationalThumbprint r).

(** The part of [validatePersistedManagedIssuance] before the entry. *)
Definition validate_record (r : state) : res unit :=
  fail_if incomplete r with PlainError "complete persisted managed issuance state is required" ;;
  fail_if negb (is_ok (validateManagedIdempotencyKey (IdempotencyKey r))) with PlainError "invalid persisted idempotency key" ;;
  fail_if match NormalizeFQDN (Domain r) with Ok d => negb (str_eqb d (Domain r)) | Err _ => true end
    with PlainError "persisted domain is not normalized" ;;
  fail_if match ParseReference (LogReference r) with
          | Ok ref => negb (str_eqb (ref_String ref) (ref_String (client_ref (sv_client s)))) | Err _ => true end
    with PlainError "persisted log reference does not match client" ;;
  fail_if Complete r && negb (in_state r SubmissionStateAccepted) with PlainError "completed issuance does not have accepted submission" ;;
  fail_if negb (ActivationBlocked r) && negb (Complete r) with PlainError "incomplete issuance must remain activation-blocked" ;;
  fail_if negb (thumb_is (sv_entity s) (EntityThumbprint r)) with PlainError "persisted entity key does not match expected key" ;;
  Ok tt.
Definition validate_unsigned (r : state) (w : world) : res unit :=
  fail_if negb (is_empty (EntryHash r)) || negb (bool_decide (Submission r = None))
    with PlainError "persisted issuance has submission state without completed bytes" ;;
  let operational := match kp_JWK (provider w) (OperationalKid r) with Some k => Some k | None => kp_Active (provider w) end in
  fail_if negb (thumb_is operational (OperationalThumbprint r)) with PlainError "persisted operational key does not match provider" ;;
  Ok tt.
Definition validate_event (r : state) (event : LogEvent) : res unit :=
  fail_if negb (type_eqb (Type_ event) LogEventIssuance) || negb (str_eqb (Lifecycle.Domain event) (Domain r))
       || negb (str_eqb (GovernanceID event) (iss_GovernanceID r))
    with PlainError "persisted issuance metadata does not match entry bytes" ;;
  fail_if negb (thumb_is (InitialEntityPublicKey event) (EntityThumbprint r)) with PlainError "persisted issuance entity key does not match metadata" ;;
  fail_if negb (thumb_is (InitialOperationalPublicKey event) (OperationalThumbprint r))
    with PlainError "persisted issuance operational key does not match metadata" ;;
  Ok tt.

Definition validatePersistedManagedIssuance (r : state) (w : world) : res unit * world :=
  match validate_record r with
  | Err e => (Err e, w)
  | Ok _ =>
      if is_empty (EntryBytes r) then (validate_unsigned r w, w)
      else if negb (str_eqb (EntryHash r) (entry_hash (EntryBytes r)))
      then (Err (PlainError "persisted entry hash does not match entry bytes"), w)
      else match ParsePreparedEvent (key:=key) (client_ref (sv_client s)) (EntryBytes r) with
      | Err e => (Err e, w)
      | Ok p =>
          let '(verified, st) := PreparedEntryBytes (sv_client s) (sv_call s (clock w)) (checkpoints_of w) p in
          let w := with_checkpoints st w in
          (match verified with
           | Err e => Err (WithCause (PlainError "persisted issuance signatures or bytes are invalid") e)
           | Ok bytes =>
               fail_if negb (str_eqb bytes (EntryBytes r)) with PlainError "persisted issuance signatures or bytes are invalid" ;;
               event ← pr_Event p;
               validate_event r event
           end, w)
      end
  end.

Definition validateManagedIssuanceCompletionState (r : state) (sub : SubmissionResult) : res unit :=
  fail_if is_empty (EntryBytes r) || is_empty (EntryHash r) with PlainError "accepted issuance is missing exact entry bytes or hash" ;;
  fail_if negb (str_eqb (EntryHash r) (entry_hash (EntryBytes r))) || negb (str_eqb (sub_EntryHash sub) (EntryHash r))
    with PlainError "accepted issuance hash does not match exact entry bytes" ;;
  match sub_Index sub with
  | None => Err (PlainError "accepted issuance is missing final reference")
  | Some index =>
      fail_if is_empty (sub_LogRef sub) with PlainError "accepted issuance is missing final reference" ;;
      match ParseFinalEventRef (sub_LogRef sub) with
      | Err e => Err (WithCause (PlainError "accepted issuance final reference does not match durable state") e)
      | Ok (ref, index') =>
          fail_if negb (str_eqb (ref_String ref) (LogReference r)) || negb (index' =? index)
            with PlainError "accepted issuance final reference does not match durable state" ;;
          Ok tt
      end
  end.

(** ** Submission *)
Definition submitManagedIssuance (r : state) (w : world) : outcome * world :=
  let answer := sv_SubmitPreparedEvent s (clock w) (Domain r) (EntryBytes r) (IdempotencyKey r) in
  let w := tick (Submitted (Domain r) (EntryBytes r) (IdempotencyKey r)) w in
  match answer with
  | Err e =>
      let '(st, transient, retry) := managedSubmissionFailure e in
      let code := managedSubmissionErrorCode e in
      let sub := {| sub_State := st; sub_EntryHash := EntryHash r; sub_Index := None; sub_KeyID := ""; sub_LogRef := ""; sub_ErrorCode := code |} in
      let next := with_outcome r (Some sub) code (str_eqb st SubmissionStateRejected) in
      match persistManagedIssuance next w with
      | (Err e', w) => ((Some r, Some (OperationError r st transient retry (WithCause e e'))), w)
      | (Ok _, w) => ((Some next, Some (OperationError next st transient retry e)), w)
      end
  | Ok result =>
      match validateManagedIssuanceSubmission r result, result with
      | Ok _, Some result =>
          let next := with_outcome r (Some result) (sub_ErrorCode result) (str_eqb (sub_State result) SubmissionStateRejected) in
          match persistManagedIssuance next w with
          | (Err e, w) => ((Some r, Some (OperationError r (sub_State result) true true e)), w)
          | (Ok _, w) =>
              if str_eqb (sub_State result) SubmissionStateRejected
              then ((Some next, Some (OperationError next (sub_State result) false false (PlainError "registry rejected the prepared ISSUANCE"))), w)
              else ((Some next, None), w)
          end
      | Err e, _ => ((Some r, Some (OperationError r SubmissionStateRejected false false e)), w)
      | Ok _, None => ((Some r, Some (Plain (invalid "dnsid: registry returned no managed submission result"))), w)
      end
  end.

(** ** Preparation *)
Definition normalizeManagedPreparationError (e : error) : SubmissionState * bool * error :=
  match errors_as as_registry_error e with
  | Some api => (if err_Transient api then SubmissionStatePrepared else SubmissionStateRejected, err_Transient api, e)
  | None => (SubmissionStatePrepared, true, WithCause (PlainError "dnsid: managed issuance preparation failed") e)
  end.

(** The completed entry: the registry's, checked and countersigned. *)
Definition signed_issuance (r : state) (raw : string) (w : world) : res string * world :=
  let c := sv_client s in
  let kp := provider w in
  let call := sv_call s (clock w) in
  match ('(_, p) ← ParsePreparedIssuance (sv_default s) call raw;
         fail_if negb (str_eqb (ref_String (pr_reference p)) (LogReference r))
           with invalid "dnsid: registry preparation returned an unexpected c2sp-tlog reference" ;;
         validateManagedPreparedIssuance p r (sv_entity s) (kp_Active kp) ;; Ok p) with
  | Err e => (Err e, w)
  | Ok p =>
      match SignPreparedEvent c call (checkpoints_of w) p SignerOperationalCountersignature (Some kp) with
      | (Err e, st) => (Err e, with_checkpoints st w)
      | (Ok p, st) => let '(entry, st) := PreparedEntryBytes c call st p in (entry, with_checkpoints st w)
      end
  end.

Definition prepareAndSubmitManagedIssuance (r : state) (w : world) : outcome * world :=
  let raw := sv_PrepareIssuance s (clock w) (Domain r) (IdempotencyKey r) in
  let w := tick (RegistryPrepared (Domain r) (IdempotencyKey r)) w in
  match raw with
  | Err e =>
      let '(st, transient, e') := normalizeManagedPreparationError e in
      let next := with_outcome r (Submission r) (managedPreparationErrorCode e) (negb transient) in
      match persistManagedIssuance next w with
      | (Err e'', w) => ((Some r, Some (OperationError r st transient false (WithCause e' e''))), w)
      | (Ok _, w) => ((Some next, Some (OperationError next st transient false e')), w)
      end
  | Ok None => ((Some r, Some (Plain (invalid "dnsid: registry preparation returned no entry"))), w)
  | Ok (Some raw) =>
      match signed_issuance r raw w with
      | (Err e, w) => ((Some r, Some (Plain e)), w)
      | (Ok entry, w) =>
          let next := with_entry r entry in
          match persistManagedIssuance next w with
          | (Err e, w) => ((Some r, Some (Plain e)), w)
          | (Ok _, w) => submitManagedIssuance next w
          end
      end
  end.

(** ** The three operations *)
Definition fails (st : option state) (e : error) (w : world) : outcome * world := ((st, Some (Plain e)), w).

Definition initial_issuance (opt_domain opt_governance idempotency : string) (w : world) : res state :=
  domain ← NormalizeFQDN opt_domain;
  match NormalizeFQDN opt_governance with
  | Err e => Err (WithCause (ArgumentError "dnsid: managed issuance governance ID is invalid") e)
  | Ok governance =>
      validateManagedIdempotencyKey idempotency ;;
      match keyThumbprint (sv_entity s) with
      | Err e => Err (WithCause (ArgumentError "dnsid: managed issuance entity key") e)
      | Ok entityThumb =>
          '(kid, thumb, _) ← managedRotationKey (kp_Active (provider w));
          fail_if str_eqb entityThumb thumb with invalid "dnsid: managed issuance requires distinct entity and operational keys" ;;
          Ok {| Domain := domain; iss_GovernanceID := governance; LogReference := ref_String (client_ref (sv_client s));
                EntityThumbprint := entityThumb; OperationalKid := kid; OperationalThumbprint := thumb; EntryBytes := ""; EntryHash := "";
                IdempotencyKey := idempotency; Submission := None; LastErrorCode := ""; TerminalFailure := false; Complete := false;
                ActivationBlocked := true |}
      end
  end.

Definition BeginManagedIssuance (opt_domain opt_governance idempotency : string) (w : world) : outcome * world :=
  match initial_issuance opt_domain opt_governance idempotency w with
  | Err e => fails None e w
  | Ok r =>
      let created := sv_Create s (clock w) r in
      let w := tick (Persisted r (match created with Ok None => true | _ => false end)) w in
      match created with
      | Err e => fails (Some r) (WithCause (PlainError "dnsid: creating managed issuance") e) w
      | Ok (Some existing) => ((Some existing, Some (InProgressError existing)), w)
      | Ok None =>
          match SetManagedIssuanceActivationBlocked true w with
          | (Err e, w) => fails (Some r) e w
          | (Ok _, w) => prepareAndSubmitManagedIssuance r w
          end
      end
  end.

Definition CompleteManagedIssuance (opt_domain : string) (w : world) : outcome * world :=
  match NormalizeFQDN opt_domain with
  | Err e => fails None e w
  | Ok normalized =>
      match sv_Load s (clock w) normalized with
      | Err e => fails None (WithCause (PlainError "dnsid: loading managed issuance") e) w
      | Ok None => fails None (invalid "dnsid: managed issuance cannot complete before accepted log submission") w
      | Ok (Some r) =>
          match (match Submission r with
                 | Some sub =>
                     fail_if negb (str_eqb (sub_State sub) SubmissionStateAccepted)
                       with invalid "dnsid: managed issuance cannot complete before accepted log submission" ;;
                     fail_if negb (str_eqb (Domain r) normalized) with invalid "dnsid: loaded managed issuance belongs to a different domain" ;;
                     validation_of "dnsid: accepted managed issuance state failed integrity validation" (validateManagedIssuanceCompletionState r sub)
                 | None => Err (invalid "dnsid: managed issuance cannot complete before accepted log submission")
                 end) with
          | Err e => fails (Some r) e w
          | Ok _ =>
              let next := with_completion r true in
              match persistManagedIssuance next w with
              | (Err e, w) => fails (Some next) e w
              | (Ok _, w) =>
                  match SetManagedIssuanceActivationBlocked false w with
                  | (Err e, w) => fails (Some next) e w
                  | (Ok _, w) =>
                      let next := with_completion next false in
                      match persistManagedIssuance next w with
                      | (Err e, w) => fails (Some next) e w
                      | (Ok _, w) => ((Some next, None), w)
                      end
                  end
              end
          end
      end
  end.

Definition ResumeManagedIssuance (opt_domain : string) (w : world) : outcome * world :=
  match NormalizeFQDN opt_domain with
  | Err e => fails None e w
  | Ok domain =>
      match sv_Load s (clock w) domain with
      | Err e => fails None (WithCause (PlainError "dnsid: loading managed issuance") e) w
      | Ok None => fails None (invalid "dnsid: no durable managed issuance exists for domain") w
      | Ok (Some r) =>
          match validatePersistedManagedIssuance r w with
          | (Err e, w) => fails (Some r) (WithCause (invalid "dnsid: persisted managed issuance state failed integrity validation") e) w
          | (Ok _, w) =>
              if Complete r then
                if ActivationBlocked r then CompleteManagedIssuance domain w else ((Some r, None), w)
              else
                match SetManagedIssuanceActivationBlocked true w with
                | (Err e, w) => fails (Some r) e w
                | (Ok _, w) =>
                    if in_state r SubmissionStateAccepted then ((Some r, None), w)
                    else if in_state r SubmissionStateRejected
                    then ((Some r, Some (OperationError r SubmissionStateRejected false false (PlainError "registry rejected the prepared ISSUANCE"))), w)
                    else if TerminalFailure r
                    then ((Some r, Some (OperationError r SubmissionStateRejected false false (PlainError "managed ISSUANCE preparation failed terminally"))), w)
                    else if is_empty (EntryBytes r) then prepareAndSubmitManagedIssuance r w
                    else submitManagedIssuance r w
                end
          end
      end
  end.
End with_services.
End issuance.
