(* ===== verification/ManagedSpec.v ===== *)
(** * ManagedSpec: what a managed rotation may do, and that it can be resumed

    Statements about traces: whatever the services answer and wherever a run
    stops, the new key is activated only after the registry's acceptance of
    the exact saved bytes is durable, with the publication of that key
    verified and application signing paused; signing is released only after
    the activation is durable; every run of one rotation submits the same
    entry under the same idempotency key; and every state a run saves is one
    that a later run accepts. *)

From Stdlib Require Import ZArith Lia Ascii String.
From S2P Require Import Prelude Codec Utf8 Numbers Jcs JcsSpec Keys Fqdn TxtRecord Jwks Domain Lifecycle Merkle Evidence Reference Policy Checkpoint Scan Event EventSpec Replay ReplaySpec AppendSpec Client Reader ReaderSpec Json KeyRing JoseUtil Prepared PreparedSpec Managed ManagedRotation.

Open Scope Z_scope.

Section rotation.
Context {key : Type} `{!KeyOps key} `{!JwkText key} `{!JwkSetLib key} {N : NoteLib} {U : NetURL} {T : TLog} {I : Idna} {C : ConsistencyLib}.
Abbreviation state := ManagedKeyRotationState.
Abbreviation VerifiedDomain := (VerifiedDomain key (EventReader (key:=key))).
Abbreviation effect := (effect state (option VerifiedDomain)).
Abbreviation world := (world state (option VerifiedDomain)).
Abbreviation services := (services (key:=key)).

(** ** Reading a trace *)
(** Whether signing is paused. *)
Definition paused (tr : list effect) : bool :=
  fold_left (fun b e => match e with Switched b' true => b' | _ => b end) tr false.

(** What no run may change. *)
Definition same_rotation (a b : state) : Prop :=
  Domain a = Domain b /\ LogReference a = LogReference b /\ PreviousKid a = PreviousKid b /\
  PreviousThumbprint a = PreviousThumbprint b /\ NewKid a = NewKid b /\ NewThumbprint a = NewThumbprint b /\
  EntryBytes a = EntryBytes b /\ EntryHash a = EntryHash b /\ IdempotencyKey a = IdempotencyKey b.

(** The registry accepted these very bytes into this very stream. *)
Definition acceptance (r : state) (sub : SubmissionResult) : Prop :=
  Submission r = Some sub /\ sub_State sub = SubmissionStateAccepted /\ sub_EntryHash sub = entry_hash (EntryBytes r) /\
  sub_KeyID sub = NewKid r /\
  exists ref index, ParseFinalEventRef (sub_LogRef sub) = Ok (ref, index) /\ ref_String ref = LogReference r /\ sub_Index sub = Some index.

(** The domain publishes the new key, and its log holds the entry's event
    where the registry said. *)
Record publishes (r : state) (sub : SubmissionResult) (vd : VerifiedDomain) : Prop := {
  pub_fresh : cachedState vd = "fresh"%string /\ domain vd = Domain r;
  pub_key : exists rec keys k, record vd = Some rec /\ LogRef rec = LogReference r /\ keySet vd = Some keys /\
    CurrentOperationalSigningKey (Some keys) (Version rec) = Ok k /\ jwk_Kid (Some k) = NewKid r /\
    jwk_Thumbprint (Some k) = Ok (NewThumbprint r);
  pub_event : exists reader event expected, logReader vd = Some reader /\ ReadEvent reader (sub_LogRef sub) = Ok event /\
    LogEventFromEntry (EntryBytes r) = Ok expected /\ Type_ event = Type_ expected /\
    Lifecycle.Domain event = Lifecycle.Domain expected /\ Timestamp event = Timestamp expected /\
    PreviousOperationalThumbprint event = PreviousOperationalThumbprint expected /\
    NewOperationalThumbprint event = NewOperationalThumbprint expected /\ NewOperationalKid event = NewOperationalKid expected /\
    PreviousOperationalSignature event = PreviousOperationalSignature expected /\
    NewOperationalSignature event = NewOperationalSignature expected
}.

(** The publication check is the last call before the activation. *)
Definition verified_before (r : state) (sub : SubmissionResult) (tr : list effect) : Prop :=
  exists pre vd post, tr = pre ++ Checked (Some vd) :: post /\ publishes r sub vd /\
    Forall (fun e => match e with KeyActivated _ _ => True | _ => False end) post.

(** An activation that a state says is either the one the run began with, or
    rests on the acceptance it holds and on a check, made in this run, that
    found the new key published and the event in the log. *)
Definition activation_known (saved : option state) (tr : list effect) (r : state) : Prop :=
  Activated r = true -> (exists r', saved = Some r' /\ Activated r' = true) \/
    exists sub vd, acceptance r sub /\ Checked (Some vd) ∈ tr /\ publishes r sub vd.

(** When an effect of the rotation [r0] may come, after the effects [tr]. *)
Definition allowed (r0 : state) (saved : option state) (tr : list effect) (e : effect) : Prop :=
  match e with
  | Persisted st _ => same_rotation r0 st /\ activation_known saved tr st
  | Switched false _ => exists r, durable saved tr = Some r /\ Activated r = true
  | Submitted d entry k =>
      paused tr = true /\ exists r, durable saved tr = Some r /\ Domain r = d /\ EntryBytes r = entry /\ IdempotencyKey r = k
  | KeyActivated kid _ =>
      paused tr = true /\ exists r sub, durable saved tr = Some r /\ kid = NewKid r /\ acceptance r sub /\ verified_before r sub tr
  | KeySuperseded kid _ =>
      paused tr = true /\ exists r sub, durable saved tr = Some r /\ kid = PreviousKid r /\ acceptance r sub /\ verified_before r sub tr
  | _ => True
  end.
Lemma paused_snoc (tr : list effect) e : paused (tr ++ [e]) = match e with Switched b true => b | _ => paused tr end.
Proof. unfold paused. by rewrite fold_left_app. Qed.

Lemma same_rotation_progress r0 r a p : same_rotation r0 r -> same_rotation r0 (with_progress r a p).
Proof. done. Qed.
Lemma same_rotation_submission r0 r sub : same_rotation r0 r -> same_rotation r0 (with_submission r sub).
Proof. done. Qed.

Lemma publishes_progress r a p sub vd : publishes r sub vd -> publishes (with_progress r a p) sub vd.
Proof. by destruct 1. Qed.
Lemma known_more saved tr tr' r : activation_known saved tr r -> activation_known saved (tr ++ tr') r.
Proof.
  intros H [Hr|(sub & vd & Ha & Hin & Hp)]%H; [by left|right]. exists sub, vd. split; [done|]. split; [|done]. apply elem_of_app. by left.
Qed.
Lemma known_paused saved tr r p : activation_known saved tr r -> activation_known saved tr (with_progress r (Activated r) p).
Proof.
  intros H [Hr|(sub & vd & Ha & Hin & Hp)]%H; [by left|right]. exists sub, vd. split; [done|]. split; [done|]. by apply publishes_progress.
Qed.
Lemma known_inactive saved tr r : Activated r = false -> activation_known saved tr r.
Proof. intros H Ha. by rewrite H in Ha. Qed.

(** ** The checks *)
Lemma accepted_submission r sub :
  validateManagedSubmission r (Some sub) = Ok tt -> sub_State sub = SubmissionStateAccepted ->
  sub_EntryHash sub = entry_hash (EntryBytes r) /\ sub_KeyID sub = NewKid r /\
  exists ref index, ParseFinalEventRef (sub_LogRef sub) = Ok (ref, index) /\ ref_String ref = LogReference r /\ sub_Index sub = Some index.
Proof.
  unfold validateManagedSubmission, validate_submission, accepted_rotation. intros H Hst. destruct (match Submission r with Some _ => _ | None => _ end); [done|].
  rewrite Hst in H. cbn [open_state existsb] in H. destruct (str_eqb _ SubmissionStateAccepted); [|done].
  cbn [negb] in H. destruct (negb _ || negb _) eqn:E1; [done|]. apply orb_false_iff in E1 as [_ E1%negb_false_iff%str_eqb_eq].
  destruct (negb (str_eqb (sub_KeyID sub) _)) eqn:E2; [done|]. apply negb_false_iff, str_eqb_eq in E2. cbn [mbind res_bind] in H.
  destruct (sub_Index sub) as [i|]; [|done]. destruct (is_empty _); [done|].
  destruct (ParseFinalEventRef _) as [[ref i']|]; [|done]. destruct (negb (str_eqb _ _) || _) eqn:E3; [done|].
  apply orb_false_iff in E3 as [E3%negb_false_iff%str_eqb_eq E4%negb_false_iff%Z.eqb_eq].
  split; [done|]. split; [done|]. exists ref, i'. split; [done|]. split; [done|]. by rewrite E4.
Qed.

Lemma check_publication_publishes r sub vd : check_publication r sub (Some vd) = Ok tt -> publishes r sub vd.
Proof.
  unfold check_publication. destruct (record vd) as [rec|] eqn:Er; [|done]. destruct (keySet vd) as [keys|] eqn:Ek; [|done].
  destruct (logReader vd) as [reader|] eqn:El; [|done]. intros H.
  match type of H with (if ?b then _ else _) = _ => destruct b eqn:E1; [done|] end. rewrite !orb_false_iff, !negb_false_iff, !str_eqb_eq in E1.
  destruct E1 as [[E1 E2] E3]. destruct (CurrentOperationalSigningKey _ _) as [k|] eqn:Ec; [|done]. cbn [mbind res_bind] in H.
  destruct (jwk_Thumbprint (Some k)) as [t|] eqn:Et; [|done]. cbn [validation_of mbind res_bind] in H.
  match type of H with (if ?b then _ else _) = _ => destruct b eqn:E4; [done|] end. rewrite !orb_false_iff, !negb_false_iff, !str_eqb_eq in E4.
  destruct E4 as [E4 E5]. destruct (LogEventFromEntry _) as [expected|] eqn:Ee; [|done]. cbn [mbind res_bind] in H.
  destruct (ReadEvent _ _) as [event|] eqn:Ev; [|done]. cbn [mbind res_bind] in H.
  match type of H with (if ?b then _ else _) = _ => destruct b eqn:E6; [done|] end.
  rewrite !orb_false_iff, !negb_false_iff, !str_eqb_eq, Z.eqb_eq in E6. unfold type_eqb in E6. rewrite bool_decide_eq_true in E6.
  split; [done|exists rec, keys, k; subst t; done|exists reader, event, expected; tauto].
Qed.

(** ** The runs *)
Section runs.
Context (s : services) (r0 : state) (saved : option state).
Abbreviation disc w := (disciplined (allowed r0 saved) (trace w)).
Abbreviation holds w := (durable saved (trace w)).

Lemma persist_step r w x w' :
  persistManagedRotation s r w = (x, w') -> disc w -> same_rotation r0 r -> activation_known saved (trace w) r ->
  disc w' /\ activation_known saved (trace w') r /\ paused (trace w') = paused (trace w) /\ (forall u, x = Ok u -> holds w' = Some r).
Proof.
  unfold persistManagedRotation. intros [= <- <-] Hd Ha Hk. cbn [trace tick]. split; [by apply disciplined_snoc|].
  split; [by apply known_more|]. split; [by rewrite paused_snoc|].
  intros u H. rewrite durable_snoc. by destruct (sv_Persist s (clock w) r).
Qed.

Lemma release_step r w o w' :
  releaseManagedSigning s r w = (o, w') -> disc w -> same_rotation r0 r -> holds w = Some r -> Activated r = true ->
  activation_known saved (trace w) r -> disc w'.
Proof.
  unfold releaseManagedSigning, SetApplicationSigningPaused. intros H Hd Hsame Hr Ha Hk.
  assert (disciplined (allowed r0 saved) (trace w ++ [Switched false (is_ok (sv_SetPaused s (clock w) false))])) as Hd1
    by (apply disciplined_snoc; [done|by exists r]).
  destruct (sv_SetPaused s (clock w) false); [|by injection H as _ <-].
  destruct (persistManagedRotation s _ _) as [x w1] eqn:E. apply persist_step in E as (Hd2 & _); [|done|done|by apply known_paused, known_more].
  by destruct x; injection H as _ <-.
Qed.

Lemma publication_step r w x w' :
  verifyManagedPublication s r w = (x, w') -> disc w ->
  disc w' /\ paused (trace w') = paused (trace w) /\ holds w' = holds w /\
  (forall u, x = Ok u -> exists sub, acceptance r sub /\ verified_before r sub (trace w')).
Proof.
  unfold verifyManagedPublication. intros H Hd. destruct (Submission r) as [sub|] eqn:Es; [|by injection H as <- <-].
  destruct (negb _) eqn:Est; [by injection H as <- <-|]. apply negb_false_iff, str_eqb_eq in Est.
  destruct (validateManagedSubmission r (Some sub)) as [[]|] eqn:Ev; [|by injection H as <- <-].
  destruct (sv_VerifyLocalPublication s (clock w)) as [vd|]; injection H as <- <-; cbn [trace tick];
    (split; [by apply disciplined_snoc|]; split; [by rewrite paused_snoc|]; split; [by rewrite durable_snoc|]); [|done].
  intros [] H. exists sub. split; [split; [done|split; [done|by apply accepted_submission]]|]. destruct vd as [vd|]; [|done].
  exists (trace w), vd, []. split; [done|]. split; [by apply check_publication_publishes|constructor].
Qed.

Lemma reconcile_step r sub w x w' :
  reconcileManagedRotation s r w = (x, w') -> disc w -> paused (trace w) = true -> holds w = Some r -> acceptance r sub ->
  verified_before r sub (trace w) -> disc w' /\ holds w' = Some r /\ paused (trace w') = true /\
  exists l, trace w' = trace w ++ l.
Proof.
  assert (forall w1 : world, exists l, trace w1 = trace w1 ++ l) as Hsame by (intros w1; exists []; by rewrite app_nil_r).
  unfold reconcileManagedRotation. intros H Hd Hp Hr Ha Hv. destruct (validateManagedProvider s r w); [|by injection H as _ <-].
  destruct (if str_eqb _ _ then _ else _) as [x1 w1] eqn:E.
  assert (disc w1 /\ holds w1 = Some r /\ paused (trace w1) = true /\ (exists l, trace w1 = trace w ++ l) /\ verified_before r sub (trace w1))
    as (Hd1 & Hr1 & Hp1 & [l1 El] & Hv1).
  { destruct (str_eqb _ _); [by injection E as _ <-|]. unfold Activate in E. injection E as _ <-. cbn [trace tick].
    split; [apply disciplined_snoc; [done|]; split; [done|]; by exists r, sub|]. rewrite durable_snoc, paused_snoc.
    split; [done|]. split; [done|]. split; [by eexists|]. destruct Hv as (pre & vd & post & -> & Hpub & Hf). exists pre, vd, (post ++ [KeyActivated (NewKid r) (is_ok (sv_Activate s (clock w) (NewKid r)))]).
    split; [by rewrite <- app_assoc|]. split; [done|]. apply Forall_app. split; [done|by repeat constructor]. }
  destruct x1; [|injection H as _ <-; eauto]. destruct (validation_of _ _) as [[[kid thumb] alg]|]; [|injection H as _ <-; eauto].
  destruct (_ || _); [injection H as _ <-; eauto|]. destruct (lists _ _ _); [|injection H as _ <-; eauto].
  unfold Supersede in H. injection H as _ <-. cbn [trace tick]. rewrite durable_snoc, paused_snoc. split_and!; try done.
  - apply disciplined_snoc; [done|]. split; [done|]. by exists r, sub.
  - rewrite El, <- app_assoc. by eexists.
Qed.

Lemma finish_step r w o w' :
  finishManagedRotation s r w = (o, w') -> disc w -> paused (trace w) = true -> same_rotation r0 r -> holds w = Some r -> disc w'.
Proof.
  unfold finishManagedRotation. intros H Hd Hp Hsame Hr. destruct (verifyManagedPublication s r w) as [x w1] eqn:E1.
  destruct (publication_step _ _ _ _ E1 Hd) as (Hd1 & Hp1 & Hr1 & Hx). destruct x as [u|]; [|by injection H as _ <-].
  destruct (Hx u eq_refl) as (sub & Ha & Hv). destruct (reconcileManagedRotation s r w1) as [x w2] eqn:E2.
  destruct (reconcile_step _ _ _ _ _ E2 Hd1 ltac:(congruence) ltac:(congruence) Ha Hv) as (Hd2 & Hr2 & _ & l & El). destruct x; [|by injection H as _ <-].
  assert (activation_known saved (trace w2) (with_progress r true true)) as Hk2.
  { intros _. right. destruct Hv as (pre & vd & post & Et & Hpub & _). exists sub, vd. split; [done|]. split; [|by apply publishes_progress].
    rewrite El, Et. set_solver. }
  destruct (persistManagedRotation s _ w2) as [x w3] eqn:E3. apply persist_step in E3 as (Hd3 & Hk3 & _ & Hr3); [|done|done|done].
  destruct x as [[]|]; [|by injection H as _ <-]. by eapply release_step; [exact H|done|done|by eapply Hr3| |].
Qed.

Lemma submit_step r w o w' :
  submitManagedRotation s r w = (o, w') -> disc w -> paused (trace w) = true -> same_rotation r0 r -> holds w = Some r ->
  Activated r = false -> disc w'.
Proof.
  unfold submitManagedRotation. intros H Hd Hp Hsame Hr Hina. set (w1 := tick _ w) in H.
  assert (disc w1 /\ holds w1 = Some r /\ paused (trace w1) = true) as (Hd1 & Hr1 & Hp1).
  { cbn [w1 trace tick]. rewrite durable_snoc, paused_snoc. split; [|done]. apply disciplined_snoc; [done|]. split; [done|]. by exists r. }
  destruct (sv_SubmitPreparedEvent _ _ _ _ _) as [result|e].
  - destruct (validateManagedSubmission r result); [|by injection H as _ <-]. destruct result as [result|]; [|by injection H as _ <-].
    destruct (persistManagedRotation s _ w1) as [x w2] eqn:E. apply persist_step in E as (Hd2 & _ & Hp2 & Hr2); [|done|done|by apply known_inactive].
    destruct x as [[]|]; [|by injection H as _ <-]. destruct (str_eqb _ _); [by injection H as _ <-|].
    destruct (negb _); [by injection H as _ <-|]. eapply finish_step; [exact H|done|congruence|done|by eapply Hr2].
  - destruct (managedSubmissionFailure e) as [[st tr] retry].
    destruct (persistManagedRotation s _ w1) as [x w2] eqn:E. apply persist_step in E as (Hd2 & _); [|done|done|by apply known_inactive].
    by destruct x; injection H as _ <-.
Qed.

(** From a state that is about to be saved and submitted, or finished. *)
Lemma pause_step r w x w' :
  SetApplicationSigningPaused s true w = (x, w') -> disc w -> holds w = Some r ->
  disc w' /\ holds w' = Some r /\ (forall u, x = Ok u -> paused (trace w') = true).
Proof.
  unfold SetApplicationSigningPaused. intros [= <- <-] Hd Hr. cbn [trace tick]. rewrite durable_snoc, paused_snoc.
  split; [by apply disciplined_snoc|]. split; [done|]. by intros u ->.
Qed.
End runs.

(** ** What a run saves can be taken up again *)
Definition resumable (r : state) : Prop := complete_state r = true /\ validatePersistedManagedRotation r = Ok tt.

Lemma same_rotation_resumable a b : same_rotation a b -> resumable a -> resumable b.
Proof.
  intros (E1 & E2 & E3 & E4 & E5 & E6 & E7 & E8 & E9). unfold resumable, complete_state, validatePersistedManagedRotation.
  by rewrite E1, E2, E3, E4, E5, E6, E7, E8, E9.
Qed.

Lemma managedRotationKey_facts (k : option key) kid thumb alg :
  managedRotationKey k = Ok (kid, thumb, alg) -> exists k', k = Some k' /\ kid_or_empty k' = kid /\ kid <> EmptyString /\ keyThumbprint k = Ok thumb.
Proof.
  unfold managedRotationKey. destruct k as [k|]; [|done]. destruct (is_empty (kid_or_empty k)) eqn:E; [done|].
  destruct (key_algorithm k); [|done]. destruct (negb _); [done|]. destruct (keyThumbprint _) as [t|] eqn:Et; [|done].
  intros [= <- <- <-]. exists k. by apply is_empty_false in E.
Qed.

Lemma prepared_rotation_facts p d t kid nt nk :
  validateManagedPreparedRotation (key:=key) p d t kid nt nk = Ok tt ->
  exists e alg, pr_Event p = Ok e /\ Type_ e = LogEventKeyRotation /\ Lifecycle.Domain e = d /\ PreviousOperationalThumbprint e = t /\
    managedRotationKey (NewOperationalPublicKey e) = Ok (kid, nt, alg) /\ NewOperationalThumbprint e = nt.
Proof.
  unfold validateManagedPreparedRotation. destruct (pr_Event p) as [e|]; [|done]. cbn [mbind res_bind].
  destruct (_ || _) eqn:E1; [done|]. apply orb_false_iff in E1 as [E1%negb_false_iff E2%negb_false_iff%str_eqb_eq]. apply bool_decide_eq_true in E1.
  destruct (negb _) eqn:E3; [done|]. apply negb_false_iff, str_eqb_eq in E3. destruct (managedRotationKey (NewOperationalPublicKey e)) as [[[ak at_] alg]|] eqn:Em; [|done].
  cbn [mbind res_bind]. destruct (managedRotationKey nk) as [[[ek et] alg']|]; [|done]. cbn [mbind res_bind].
  destruct (negb _ || _ || _ || _ || _) eqn:E4; [done|]. intros _. rewrite !orb_false_iff, !negb_false_iff, !str_eqb_eq in E4.
  destruct E4 as ((((E4 & _) & E6) & _) & E5). exists e, alg. subst. split_and!; try done.
Qed.

(** Signing keeps a sound event sound and its fields as they were. *)
Lemma sign_prepared_sound c w s p entry q role kp kid p' s' :
  sound (client_ref c) p entry q -> signPreparedEvent c w s p role kp kid = (Ok p', s') ->
  exists entry' q', sound (client_ref c) p' entry' q' /\ unsigned (p_event q') = unsigned (p_event q).
Proof.
  intros Hs. unfold signPreparedEvent. destruct (validatePrepared _ p) as [[]|]; [|done].
  cbn [in_validation mbind res_bind]. destruct (negb _); [done|]. destruct kp as [kp|]; [|done].
  destruct (preparedSignerKeys c w s p) as [[keys|] s1]; [|done]. intros [= H%unless_cancelled_Ok _]. cbn [mbind res_bind] in H.
  destruct (sign_role_spec (client_ref c) p entry q role kp kid keys p' Hs H) as (Hm & entry' & q' & Hs').
  exists entry', q'. split; [done|]. apply (agree_event (envelope p') (envelope p)); [|by apply (so_event _ _ _ _ Hs')|by apply (so_event _ _ _ _ Hs)].
  by apply agree_delete, (sm_fields _ _ _ Hm).
Qed.

(** The kid of a signature is the kid of the key it was checked with. *)
Lemma role_signed_kid p (k : option key) role : role_signed p k role ->
  exists k', k = Some k' /\ sig_Kid (read_sig (envelope p) (signatureName role)) = kid_or_empty k'.
Proof.
  unfold role_signed, signed_by. destruct k as [k|]; [|done]. rewrite !andb_true_iff, str_eqb_eq. intros [[_ H] _]. eauto.
Qed.

(** An entry that [PreparedEntryBytes] returns for a rotation reads back as
    its event. *)
Lemma rotation_entry_reads c w s p entry0 q entry s' :
  sound (client_ref c) p entry0 q -> Type_ (p_event q) = LogEventKeyRotation -> PreparedEntryBytes c w s p = (Ok entry, s') ->
  payloadObjectFromEntry entry = Ok (envelope p) /\ LogEventFromEntry entry = Ok (p_event q).
Proof.
  intros Hs Hty H. destruct (prepared_entry_facts _ _ _ _ _ _ _ _ _ Hs H) as (-> & keys & Hk & Hf). split; [apply (so_entry _ _ _ _ Hs)|].
  unfold LogEventFromEntry. rewrite (so_entry _ _ _ _ Hs), (so_event _ _ _ _ Hs), (so_valid _ _ _ _ Hs), (so_required _ _ _ _ Hs). cbn [mbind res_bind].
  unfold PreparedEntryBytes in H. destruct (validatePrepared _ _) as [[]|]; [|done]. cbn [in_validation mbind res_bind] in H.
  destruct (validateSignatureShape _ _ true) as [[]|] eqn:Esh; [|done].
  assert (validateEmbeddedSignatureKids (p_event q) = Ok tt) as ->; [|done].
  pose proof (so_required _ _ _ _ Hs) as Hreq. destruct (event_fields _ _ _ _ Hs) as (t & fqdn & ts & Ee & _).
  unfold preparedSignerKeys in Hk. rewrite (event_of_prepared _ _ _ _ Hs), Hty in Hk. rewrite Hty in Hreq. injection Hreq as Hreq.
  destruct (currentLifecycleState _ _ _ _) as [[[[en op] st]|] s2]; [|done]. cbn [mbind res_bind] in Hk. unfold rotation_keys in Hk.
  injection Hk as Hk _. go_inv. rewrite <- Hreq in Hf. apply Forall_cons in Hf as [_ Hf]. apply Forall_cons in Hf as [Hf _].
  destruct (role_signed_kid _ _ _ Hf) as (k' & Hk' & Hkid). unfold validateEmbeddedSignatureKids. rewrite Hty.
  change (NewOperationalPublicKey (p_event q) = Some k') in Hk'. rewrite Hk'.
  assert (NewOperationalKid (p_event q) = kid_or_empty k') as -> by (by rewrite Ee). by rewrite str_eqb_refl.
Qed.

Lemma sound_writable ref p entry q : sound ref p entry q -> validateWritableStream ref (p_event q) = Ok tt.
Proof.
  intros Hs. pose proof (so_again _ _ _ _ Hs) as H. unfold preparedFromEnvelope in H.
  destruct (cloneJSONObject _) as [e|] eqn:Ec; [|done]. apply (clone_plain _ (so_plain _ _ _ _ Hs)) in Ec as ->. cbn [mbind res_bind] in H.
  rewrite (so_event _ _ _ _ Hs) in H. cbn [mbind res_bind] in H. rewrite (so_valid _ _ _ _ Hs) in H.
  by destruct (validateWritableStream _ _) as [[]|].
Qed.
Lemma metadata_lr ref entry p : validateEntryMetadata ref entry = Ok tt -> payloadObjectFromEntry entry = Ok p ->
  optionalString p "lr" = ref_String ref.
Proof.
  unfold validateEntryMetadata. intros H Hp. rewrite Hp in H. cbn [mbind res_bind] in H. destruct (ref_Origin ref); [|done]. cbn [mbind res_bind] in H.
  destruct (str_eqb _ _); [done|]. destruct (metadata_check p "method" _) as [[]|]; [|done]. destruct (metadata_check p "log_origin" _) as [[]|]; [|done].
  destruct (metadata_check p "stream_id" _) as [[]|]; [|done]. cbn [mbind res_bind] in H. unfold metadata_check in H. unfold optionalString. destruct (p !! "lr"%string) as [[]|]; try done. destruct (is_empty _); [done|].
  destruct (str_eqb _ _) eqn:E; [|done]. by apply str_eqb_eq.
Qed.
Lemma normalized_nonempty `{!IdnaSpec I} d n : NormalizeFQDN d = Ok n -> NormalizeFQDN n = Ok n /\ n <> EmptyString.
Proof. intros H. apply normalize_fqdn_idempotent in H as (H & _). split; [done|]. intros ->. by unfold NormalizeFQDN in H. Qed.

(** What is signed for a rotation, and the event it reads back as. *)
Lemma signed_rotation_facts s d t kid nt nk raw w entry w' :
  signed_rotation s d t kid nt nk raw w = (Ok entry, w') ->
  exists p entry' q alg, sound (client_ref (sv_client s)) p entry' q /\ payloadObjectFromEntry entry = Ok (envelope p) /\ LogEventFromEntry entry = Ok (p_event q) /\
    entry = entry' /\ Type_ (p_event q) = LogEventKeyRotation /\ Lifecycle.Domain (p_event q) = d /\ PreviousOperationalThumbprint (p_event q) = t /\
    managedRotationKey (NewOperationalPublicKey (p_event q)) = Ok (kid, nt, alg) /\ NewOperationalThumbprint (p_event q) = nt.
Proof.
  unfold signed_rotation. destruct (ParsePreparedEvent _ raw) as [p0|] eqn:Ep; [|done]. cbn [mbind res_bind].
  destruct (validateManagedPreparedRotation p0 _ _ _ _ _) as [[]|] eqn:Ev; [|done]. cbn [mbind res_bind].
  apply parse_prepared_sound in Ep as (q0 & Hs0). apply prepared_rotation_facts in Ev as (e & alg & He & F1 & F2 & F3 & F4 & F5).
  rewrite (event_of_prepared _ _ _ _ Hs0) in He. injection He as <-.
  destruct (SignPreparedEvent _ _ _ _ _ _) as [[p1|] st1] eqn:E1; [|done]. destruct (sign_prepared_sound _ _ _ _ _ _ _ _ _ _ _ Hs0 E1) as (e1 & q1 & Hs1 & U1).
  destruct (SignPreparedEventWithKey _ _ _ _ _ _ _) as [[p2|] st2] eqn:E2; [|done]. unfold SignPreparedEventWithKey in E2. destruct (is_empty kid); [done|].
  destruct (sign_prepared_sound _ _ _ _ _ _ _ _ _ _ _ Hs1 E2) as (e2 & q2 & Hs2 & U2).
  destruct (PreparedEntryBytes _ _ _ _) as [[entry'|] st3] eqn:E3; [|done]. intros [= <- _].
  assert (unsigned (p_event q2) = unsigned (p_event q0)) as Hu by congruence.
  pose proof (f_equal Type_ Hu) as V1. pose proof (f_equal Lifecycle.Domain Hu) as V2. pose proof (f_equal PreviousOperationalThumbprint Hu) as V3.
  pose proof (f_equal NewOperationalPublicKey Hu) as V4. pose proof (f_equal NewOperationalThumbprint Hu) as V5. cbn in V1, V2, V3, V4, V5.
  destruct (rotation_entry_reads _ _ _ _ _ _ _ _ Hs2 ltac:(congruence) E3) as [R1 R2].
  exists p2, e2, q2, alg. split_and!; try done; try congruence. by destruct (prepared_entry_facts _ _ _ _ _ _ _ _ _ Hs2 E3) as [? _].
Qed.

Lemma rotation_resumable `{!IdnaSpec I} s d0 d pk t kid nt nk raw w entry w' k :
  ref_Validate (client_ref (sv_client s)) = Ok tt -> NormalizeFQDN d0 = Ok d -> validateManagedIdempotencyKey k = Ok tt -> pk <> EmptyString ->
  signed_rotation s d t kid nt nk raw w = (Ok entry, w') ->
  resumable {| Domain := d; LogReference := ref_String (client_ref (sv_client s)); PreviousKid := pk; PreviousThumbprint := t; NewKid := kid;
               NewThumbprint := nt; EntryBytes := entry; EntryHash := entry_hash entry; IdempotencyKey := k; Submission := None;
               Activated := false; ApplicationSigningPaused := true |}.
Proof.
  intros Href Hd Hk Hpk H. destruct (normalized_nonempty _ _ Hd) as [Hdd Hdne].
  destruct (signed_rotation_facts _ _ _ _ _ _ _ _ _ _ H) as (p & entry' & q & alg & Hs & Hp & He & -> & F1 & F2 & F3 & F4 & F5).
  destruct (managedRotationKey_facts _ _ _ _ F4) as (nk' & _ & _ & Hkid & _).
  destruct (event_fields _ _ _ _ Hs) as (_ & _ & _ & _ & Hf). unfold validateLifecycleFields in Hf. rewrite F1 in Hf.
  destruct (match NormalizeFQDN _ with Ok _ => _ | Err _ => _ end); [done|]. destruct (_ || _ || _) eqn:E0; [done|].
  apply orb_false_iff in E0 as [[E1 E2]%orb_false_iff _]. rewrite F3 in E1. rewrite F5 in E2.
  assert (is_empty entry' = false) as Hne. { unfold payloadObjectFromEntry in Hp. by destruct (is_empty entry'). }
  split.
  - unfold complete_state. cbn [Domain LogReference EntryBytes IdempotencyKey PreviousKid PreviousThumbprint NewKid NewThumbprint].
    rewrite Hk, E1, E2, Hne, !(proj2 (is_empty_false _)) by done. done.
  - unfold validatePersistedManagedRotation. cbn [Domain LogReference EntryBytes EntryHash PreviousThumbprint NewKid NewThumbprint].
    rewrite Hdd, str_eqb_refl, (ParseReference_String _ Href), Hp, He. cbn [negb mbind res_bind].
    pose proof (sound_writable _ _ _ _ Hs) as Hw. unfold validateWritableStream in Hw. rewrite F2, Hdd in Hw. cbn [mbind res_bind] in Hw.
    destruct (str_eqb (StreamID _) d); [done|]. rewrite str_eqb_refl, (metadata_lr _ _ _ (so_metadata _ _ _ _ Hs) Hp). cbn [negb]. rewrite str_eqb_refl, andb_false_r.
    rewrite F1, F2, F3, F4, F5, !str_eqb_refl. cbn [negb orb mbind res_bind]. by rewrite !str_eqb_refl.
Qed.

(** ** Whole runs *)
Definition start (w : world) : Prop := trace w = [].
(** What holds of a run of the rotation [r0]: it keeps the discipline, and if
    it saves anything, [r0] can be resumed. *)
Definition well_run (r0 : state) (saved : option state) (tr : list effect) : Prop :=
  disciplined (allowed r0 saved) tr /\ (forall r, saves tr r -> resumable r0).

Lemma signed_rotation_trace s d t kid nt k entry w x w' :
  signed_rotation s d t kid nt k entry w = (x, w') -> trace w' = trace w.
Proof.
  unfold signed_rotation. destruct (p ← _; _) as [p|]; [|by intros [= _ <-]].
  destruct (SignPreparedEvent _ _ _ _ _ _) as [[p1|] st1]; [|by intros [= _ <-]].
  destruct (SignPreparedEventWithKey _ _ _ _ _ _ _) as [[p2|] st2]; [|by intros [= _ <-]].
  destruct (PreparedEntryBytes _ _ _ _) as [x3 st3]. by intros [= _ <-].
Qed.

(** Before the entry is signed nothing is saved. *)
Definition unsaved (tr : list effect) : Prop :=
  Forall (fun e => match e with Generated _ | RegistryPrepared _ _ => True | _ => False end) tr.
Lemma unsaved_well_run r0 tr : unsaved tr -> well_run r0 None tr.
Proof.
  intros H. unfold unsaved in H. rewrite Forall_forall in H. split.
  - intros pre e post ->. specialize (H e ltac:(set_solver)). by destruct e.
  - intros r [ok Hr]. by specialize (H _ Hr).
Qed.
Lemma unsaved_durable tr : unsaved tr -> durable None tr = None.
Proof. induction tr as [|e tr IH] using rev_ind; [done|]. unfold unsaved. rewrite Forall_app, durable_snoc. intros [H1 [H2 _]%Forall_cons]. destruct e; try done; by apply IH. Qed.

Definition no_rotation : state :=
  {| Domain := ""; LogReference := ""; PreviousKid := ""; PreviousThumbprint := ""; NewKid := ""; NewThumbprint := ""; EntryBytes := "";
     EntryHash := ""; IdempotencyKey := ""; Submission := None; Activated := false; ApplicationSigningPaused := false |}.

Lemma rotate_well_run `{!IdnaSpec I} s d k w o w' :
  ref_Validate (client_ref (sv_client s)) = Ok tt ->
  RotateManagedOperationalKey s d k w = (o, w') -> start w -> exists r0, well_run r0 None (trace w').
Proof.
  unfold RotateManagedOperationalKey, start. intros Href H Hw. assert (unsaved (trace w)) as Hu by (by rewrite Hw; constructor).
  assert (forall w1, unsaved (trace w1) -> exists r0, well_run r0 None (trace w1)) as Hstop by (intros w1 H1; exists no_rotation; by apply unsaved_well_run).
  destruct (NormalizeFQDN d) as [domain|] eqn:Ed; [|injection H as _ <-; by apply Hstop]. cbn [mbind res_bind] in H.
  destruct (validateManagedIdempotencyKey k) as [[]|] eqn:Ek; [|injection H as _ <-; by apply Hstop]. cbn [mbind res_bind] in H.
  destruct (managedRotationKey (provider_active s w)) as [[[pk pt] alg]|] eqn:Em; [|injection H as _ <-; by apply Hstop]. cbn [mbind res_bind] in H.
  apply managedRotationKey_facts in Em as (_ & _ & _ & Hpk & _).
  destruct (pending_key s pt alg w) as [x w1] eqn:E1. assert (unsaved (trace w1)) as Hu1.
  { unfold pending_key in E1. injection E1 as _ <-. cbn [trace tick]. apply Forall_app. split; [done|]. by repeat constructor. }
  destruct x as [[[kid nt] nk]|]; [|injection H as _ <-; by apply Hstop]. set (w2 := tick _ w1) in H.
  assert (unsaved (trace w2)) as Hu2 by (apply Forall_app; split; [done|by repeat constructor]).
  destruct (sv_PrepareKeyRotation _ _ _ _ _ _) as [[raw|]|]; [|injection H as _ <-; by apply Hstop..].
  destruct (signed_rotation _ _ _ _ _ _ _ w2) as [x w3] eqn:E3. pose proof (signed_rotation_trace _ _ _ _ _ _ _ _ _ _ E3) as Ht.
  rewrite <- Ht in Hu2. destruct x as [entry|]; [|injection H as _ <-; by apply Hstop].
  pose proof (rotation_resumable _ _ _ _ _ _ _ _ _ _ _ _ _ Href Ed Ek Hpk E3) as Hres.
  match type of H with context [persistManagedRotation s ?st w3] => set (r := st) in * end.
  exists r. split; [|done]. destruct (persistManagedRotation s r w3) as [x w4] eqn:E4.
  destruct (persist_step s r None _ _ _ _ E4) as (Hd4 & _ & _ & Hr4); [by apply unsaved_well_run|done|by apply known_inactive|].
  destruct x as [[]|]; [|by injection H as _ <-]. destruct (SetApplicationSigningPaused s true w4) as [x w5] eqn:E5.
  destruct (pause_step s r None _ _ _ _ E5 Hd4 (Hr4 _ eq_refl)) as (Hd5 & Hr5 & Hp5). destruct x as [[]|]; [|by injection H as _ <-].
  by eapply (submit_step s r None); [exact H|done|by eapply Hp5|..].
Qed.

Lemma resume_well_run s saved w o w' :
  ResumeManagedOperationalKeyRotation s saved w = (o, w') -> start w -> well_run saved (Some saved) (trace w').
Proof.
  unfold ResumeManagedOperationalKeyRotation, start. intros H Hw.
  assert (disciplined (allowed saved (Some saved)) (trace w)) as Hd by (rewrite Hw; apply disciplined_nil).
  assert (durable (Some saved) (trace w) = Some saved) as Hr by (by rewrite Hw).
  assert (disciplined (allowed saved (Some saved)) (trace w) -> well_run saved (Some saved) (trace w)) as Hstop.
  { intros _. split; [done|]. rewrite Hw. intros r [ok Hin]. by apply elem_of_nil in Hin. }
  destruct (complete_state saved) eqn:Ec; [|injection H as _ <-; by apply Hstop]. cbn [negb] in H.
  destruct (validatePersistedManagedRotation saved) as [[]|] eqn:Ev; [|injection H as _ <-; by apply Hstop]. split; [|done].
  destruct (validateManagedProvider s saved w); [|by injection H as _ <-].
  destruct (Activated saved) eqn:Ea.
  - destruct (ApplicationSigningPaused saved); [|by injection H as _ <-]. eapply (release_step s saved (Some saved)); [exact H|done..|].
    intros _. left. by exists saved.
  - destruct (is_rejected saved); [by injection H as _ <-|].
    destruct (persistManagedRotation s _ w) as [x w1] eqn:E1. apply (persist_step s saved (Some saved)) in E1 as (Hd1 & _ & _ & Hr1); [|done|done|by apply known_inactive].
    destruct x as [[]|]; [|by injection H as _ <-]. destruct (SetApplicationSigningPaused s true w1) as [x w2] eqn:E2.
    destruct (pause_step s saved (Some saved) _ _ _ _ E2 Hd1 (Hr1 _ eq_refl)) as (Hd2 & Hr2 & Hp2). destruct x as [[]|]; [|by injection H as _ <-].
    destruct (is_accepted _); [by eapply (finish_step s saved (Some saved)); [exact H|done|by eapply Hp2|..]|].
    by eapply (submit_step s saved (Some saved)); [exact H|done|by eapply Hp2|..].
Qed.

(** A run of one of the two operations, or the part of it before a crash:
    what the store held, and the effects. *)
Inductive run : option state -> list effect -> Prop :=
| run_rotate s d k w o w' tr post :
    ref_Validate (client_ref (sv_client s)) = Ok tt -> start w ->
    RotateManagedOperationalKey s d k w = (o, w') -> trace w' = tr ++ post -> run None tr
| run_resume s saved w o w' tr post :
    start w -> ResumeManagedOperationalKeyRotation s saved w = (o, w') -> trace w' = tr ++ post -> run (Some saved) tr.

(** A run to its end. *)
Lemma rotate_runs s d k w :
  ref_Validate (client_ref (sv_client s)) = Ok tt -> start w -> run None (trace (RotateManagedOperationalKey s d k w).2).
Proof.
  intros Href Hw. destruct (RotateManagedOperationalKey s d k w) as [o w'] eqn:E. apply (run_rotate s d k w o w' _ [] Href Hw E).
  by rewrite app_nil_r.
Qed.

Lemma well_run_prefix r0 saved tr post : well_run r0 saved (tr ++ post) -> well_run r0 saved tr.
Proof.
  intros [Hd Hr]. split; [by eapply disciplined_prefix|].
  intros r [ok H]. apply (Hr r). exists ok. set_solver.
Qed.
Lemma run_well_run `{!IdnaSpec I} saved tr : run saved tr -> exists r0, well_run r0 saved tr /\ (forall r, saved = Some r -> r0 = r).
Proof.
  destruct 1 as [s d k w o w' tr post Href Hw H E|s saved w o w' tr post Hw H E].
  - destruct (rotate_well_run _ _ _ _ _ _ Href H Hw) as [r0 Hr]. rewrite E in Hr. exists r0. split; [by eapply well_run_prefix|done].
  - apply resume_well_run in H; [|done]. rewrite E in H. exists saved. split; [by eapply well_run_prefix|by intros r [= <-]].
Qed.

(** C8: the new key is used only when it is safe. In every run, whatever the
    services answer and wherever it stops: before the key is activated or the
    previous one superseded, the store holds the rotation with the registry's
    acceptance of its exact bytes, signing is paused, and the last call before
    found the new key published and the event in the log; signing is released
    only when the store says that the key was activated, and a run says so
    only if the state it took up said so already (it is then released without
    another call) or the state holds the acceptance and a check of this run
    found that publication; and what is submitted is the entry the store
    holds, with signing paused. *)
Theorem activation_follows_acceptance `{!IdnaSpec I} saved tr pre e post :
  run saved tr -> tr = pre ++ e :: post ->
  match e with
  | KeyActivated kid _ =>
      paused pre = true /\ exists r sub, durable saved pre = Some r /\ kid = NewKid r /\ acceptance r sub /\ verified_before r sub pre
  | KeySuperseded kid _ =>
      paused pre = true /\ exists r sub, durable saved pre = Some r /\ kid = PreviousKid r /\ acceptance r sub /\ verified_before r sub pre
  | Switched false _ => exists r, durable saved pre = Some r /\ Activated r = true /\ activation_known saved pre r
  | Persisted r _ => activation_known saved pre r
  | Submitted d entry k =>
      paused pre = true /\ exists r, durable saved pre = Some r /\ Domain r = d /\ EntryBytes r = entry /\ IdempotencyKey r = k
  | _ => True
  end.
Proof.
  intros (r0 & [H _] & _)%run_well_run ->. pose proof (H pre e post eq_refl) as He.
  destruct e as [st ok|[] ok|ok|d k|d entry k|a|kid ok|kid ok]; try exact He; [apply He|].
  destruct He as (r & Hr & Ha). exists r. split; [done|]. split; [done|]. apply durable_from in Hr as [Hr|[ok' Hin]]; [intros _; left; by exists r|].
  apply list_elem_of_split in Hin as (p1 & p2 & ->). rewrite <- app_assoc in H. destruct (H p1 _ _ eq_refl) as [_ Hk]. by apply known_more.
Qed.

(** The runs of one rotation: the first, and then each from a state that an
    earlier one saved, or may have saved. *)
Inductive lifetime : list (list effect) -> Prop :=
| lifetime_first tr : run None tr -> lifetime [tr]
| lifetime_next trs tr r : lifetime trs -> saves (concat trs) r -> run (Some r) tr -> lifetime (trs ++ [tr]).

Lemma same_rotation_trans a b c : same_rotation a b -> same_rotation b c -> same_rotation a c.
Proof. unfold same_rotation. intuition congruence. Qed.
(** What one effect says of the rotation [r0]. *)
Definition of_rotation (r0 : state) (e : effect) : Prop :=
  match e with
  | Persisted st _ => same_rotation r0 st /\ resumable st
  | Submitted d entry k => Domain r0 = d /\ EntryBytes r0 = entry /\ IdempotencyKey r0 = k
  | KeyActivated kid _ => kid = NewKid r0
  | KeySuperseded kid _ => kid = PreviousKid r0
  | _ => True
  end.

Lemma well_run_effects r0 saved tr : well_run r0 saved tr -> (forall r, saved = Some r -> r0 = r) -> Forall (of_rotation r0) tr.
Proof.
  intros [Hd Hr] Hs. apply Forall_forall. intros e (pre & post & E)%list_elem_of_split. pose proof (Hd _ _ _ E) as He.
  assert (forall r, durable saved pre = Some r -> same_rotation r0 r) as Hdur.
  { intros r [H|[ok H]]%durable_from; [rewrite (Hs r H); by repeat split|].
    apply list_elem_of_split in H as (p1 & p2 & ->). refine (proj1 (Hd p1 (Persisted r ok) (p2 ++ e :: post) _)). by rewrite E, <- app_assoc. }
  destruct e as [st ok|[] ok|ok|d k|d entry k|a|kid ok|kid ok]; try done.
  - destruct He as [He _]. split; [exact He|]. apply (same_rotation_resumable r0); [exact He|]. apply (Hr st). exists ok. rewrite E. set_solver.
  - destruct He as (_ & r & H & He1 & He2 & He3). apply Hdur in H. unfold of_rotation, same_rotation in *. intuition congruence.
  - destruct He as (_ & r & sub & H & -> & _). apply Hdur in H. unfold of_rotation, same_rotation in *. intuition congruence.
  - destruct He as (_ & r & sub & H & -> & _). apply Hdur in H. unfold of_rotation, same_rotation in *. intuition congruence.
Qed.

(** C28: one rotation, one entry. Across the first run and all resumptions,
    with crashes between, everything that is submitted is the same entry under
    the same idempotency key, only the one new key is ever activated, and
    every state that was or may have been saved is one that a later run
    accepts as the state of this rotation. *)
Theorem one_rotation_one_entry `{!IdnaSpec I} trs :
  lifetime trs -> exists r0, Forall (Forall (of_rotation r0)) trs.
Proof.
  induction 1 as [tr Hr|trs tr r Hl [r0 IH] Hs Hr].
  - apply run_well_run in Hr as (r0 & Hw & Hs). exists r0. constructor; [|constructor]. by eapply well_run_effects.
  - exists r0. apply Forall_app. split; [done|]. constructor; [|constructor].
    assert (same_rotation r0 r) as Hsame.
    { destruct Hs as [ok Hs]. apply list_elem_of_In, in_concat in Hs as (l & Hl1%list_elem_of_In & Hl2%list_elem_of_In).
      rewrite Forall_forall in IH. specialize (IH l Hl1). rewrite Forall_forall in IH. by destruct (IH _ Hl2). }
    apply run_well_run in Hr as (r1 & Hw & Hs1). pose proof (Hs1 r eq_refl) as ->. pose proof (well_run_effects _ _ _ Hw Hs1) as Hf.
    eapply Forall_impl; [exact Hf|]. intros e He. destruct e as [st ok|[] ok|ok|d k|d entry k|a|kid ok|kid ok]; cbn in *; try done.
    + destruct He as [He Hres]. split; [by eapply same_rotation_trans|done].
    + unfold same_rotation in Hsame. intuition congruence.
    + unfold same_rotation in Hsame. intuition congruence.
    + unfold same_rotation in Hsame. intuition congruence.
Qed.
End rotation.
