(* ===== verification/ManagedIssuanceSpec.v ===== *)
(** * ManagedIssuanceSpec: what a managed issuance may do

    Statements about traces, as in ManagedSpec.v: the block on activation is
    released only once the store holds the issuance as complete with the
    registry's acceptance of its exact entry, and an entry, once saved, is
    what every later run saves and submits. *)

From Stdlib Require Import ZArith Lia Ascii String.
From S2P Require Import Prelude Codec Utf8 Numbers Jcs JcsSpec Keys Fqdn TxtRecord Jwks Domain Lifecycle Merkle Evidence Reference Policy Checkpoint Scan Event EventSpec Replay ReplaySpec AppendSpec Client Reader ReaderSpec Json KeyRing JoseUtil Prepared PreparedSpec Managed ManagedIssuance.

Open Scope Z_scope.

Section issuance.
Context {key : Type} `{!KeyOps key} `{!JwkText key} {N : NoteLib} {U : NetURL} {T : TLog} {I : Idna} {C : ConsistencyLib}.
Abbreviation state := ManagedIssuanceState.
Abbreviation effect := (effect state unit).
Abbreviation world := (world state unit).
Abbreviation services := (services (key:=key)).

(** Whether this run blocked activation, and has not released it since. *)
Definition blocked (tr : list effect) : bool :=
  fold_left (fun b e => match e with Switched b' true => b' | Switched false false => false | _ => b end) tr false.

(** [b] may follow [a] in the store: the same operation, with the same entry
    if [a] has one. *)
Definition continues (a b : state) : Prop :=
  Domain a = Domain b /\ iss_GovernanceID a = iss_GovernanceID b /\ LogReference a = LogReference b /\
  EntityThumbprint a = EntityThumbprint b /\ OperationalKid a = OperationalKid b /\
  OperationalThumbprint a = OperationalThumbprint b /\ IdempotencyKey a = IdempotencyKey b /\
  (EntryBytes a <> EmptyString -> EntryBytes b = EntryBytes a /\ EntryHash b = EntryHash a) /\
  (Complete a = true -> Complete b = true /\ Submission b = Submission a).

Definition accepted_entry (r : state) : Prop :=
  exists sub ref index, Submission r = Some sub /\ sub_State sub = SubmissionStateAccepted /\ EntryBytes r <> EmptyString /\
    sub_EntryHash sub = entry_hash (EntryBytes r) /\ EntryHash r = entry_hash (EntryBytes r) /\
    ParseFinalEventRef (sub_LogRef sub) = Ok (ref, index) /\ ref_String ref = LogReference r /\ sub_Index sub = Some index.

Definition allowed (saved : option state) (tr : list effect) (e : effect) : Prop :=
  match e with
  | Persisted st _ => forall st0, durable saved tr = Some st0 -> continues st0 st
  | Switched false _ => exists r, durable saved tr = Some r /\ Complete r = true /\ accepted_entry r
  | Submitted d entry k =>
      blocked tr = true /\ exists r, durable saved tr = Some r /\ Domain r = d /\ EntryBytes r = entry /\ IdempotencyKey r = k /\
        entry <> EmptyString /\ EntryHash r = entry_hash entry /\ Complete r = false
  | _ => True
  end.
Lemma blocked_snoc (tr : list effect) e :
  blocked (tr ++ [e]) = match e with Switched b true => b | Switched false false => false | _ => blocked tr end.
Proof. unfold blocked. by rewrite fold_left_app. Qed.

Lemma continues_outcome r sub c t : Complete r = false -> continues r (with_outcome r sub c t).
Proof. intros Hc. repeat split; cbn; congruence. Qed.
Lemma continues_entry r entry : Complete r = false -> EntryBytes r = EmptyString -> continues r (with_entry r entry).
Proof. intros Hc He. repeat split; cbn; congruence. Qed.
Lemma continues_completion r b : continues r (with_completion r b).
Proof. by repeat split. Qed.

(** ** The runs *)
Section runs.
Context (s : services) (saved : option state).
Abbreviation disc w := (disciplined (allowed saved) (trace w)).
Abbreviation holds w := (durable saved (trace w)).

Lemma issuance_persist_step r r' w x w' :
  persistManagedIssuance s r' w = (x, w') -> disc w -> holds w = Some r -> continues r r' ->
  disc w' /\ blocked (trace w') = blocked (trace w) /\ (forall u, x = Ok u -> holds w' = Some r').
Proof.
  unfold persistManagedIssuance. intros [= <- <-] Hd Hr Hc. cbn [trace tick].
  split; [apply disciplined_snoc; [done|]; cbn -[durable]; rewrite Hr; by intros st0 [= <-]|]. split; [by rewrite blocked_snoc|].
  intros u H. rewrite durable_snoc. by destruct (sv_Persist s (clock w) r').
Qed.

Lemma issuance_submit_step r w o w' :
  submitManagedIssuance s r w = (o, w') -> disc w -> blocked (trace w) = true -> holds w = Some r ->
  EntryBytes r <> EmptyString -> EntryHash r = entry_hash (EntryBytes r) -> Complete r = false -> disc w'.
Proof.
  unfold submitManagedIssuance. intros H Hd Hb Hr Hne Hh Hc. set (w1 := tick _ w) in H.
  assert (disc w1 /\ holds w1 = Some r) as [Hd1 Hr1].
  { cbn [w1 trace tick]. rewrite durable_snoc. split; [|done]. apply disciplined_snoc; [done|]. split; [done|]. by exists r. }
  destruct (sv_SubmitPreparedEvent _ _ _ _ _) as [result|e].
  - destruct (validateManagedIssuanceSubmission r result); [|by injection H as _ <-]. destruct result as [result|]; [|by injection H as _ <-].
    destruct (persistManagedIssuance s _ w1) as [x w2] eqn:E.
    apply (issuance_persist_step r) in E as (Hd2 & _); [|done|done|by apply continues_outcome].
    destruct x as [[]|]; [|by injection H as _ <-]. by destruct (str_eqb _ _); injection H as _ <-.
  - destruct (managedSubmissionFailure e) as [[st tr] retry]. destruct (persistManagedIssuance s _ w1) as [x w2] eqn:E.
    apply (issuance_persist_step r) in E as (Hd2 & _); [|done|done|by apply continues_outcome]. by destruct x; injection H as _ <-.
Qed.

Lemma entry_bytes_nonempty c w st p entry st' : PreparedEntryBytes (key:=key) c w st p = (Ok entry, st') -> entry <> EmptyString.
Proof.
  unfold PreparedEntryBytes. destruct (in_validation _ (validatePrepared _ _)); [|done]. cbn [mbind res_bind].
  destruct (in_validation _ (validateSignatureShape _ _ _)); [|done].
  destruct (preparedSignerKeys _ _ _ _) as [keys s1]. intros [= H%unless_cancelled_Ok _]. go_inv.
  match goal with H : entry_too_big _ = false |- _ => apply orb_false_iff in H as [H _]; by apply is_empty_false end.
Qed.
Lemma signed_issuance_trace r raw w x w' : signed_issuance s r raw w = (x, w') -> trace w' = trace w /\ (forall entry, x = Ok entry -> entry <> EmptyString).
Proof.
  unfold signed_issuance. destruct ('(_, p) ← _; _) as [p|]; [|by intros [= <- <-]].
  destruct (SignPreparedEvent _ _ _ _ _ _) as [[p1|] st1]; [|by intros [= <- <-]].
  destruct (PreparedEntryBytes _ _ _ _) as [x3 st3] eqn:E. intros [= <- <-]. split; [done|]. intros entry ->. by eapply entry_bytes_nonempty.
Qed.

Lemma prepare_step r w o w' :
  prepareAndSubmitManagedIssuance s r w = (o, w') -> disc w -> blocked (trace w) = true -> holds w = Some r ->
  EntryBytes r = EmptyString -> Complete r = false -> disc w'.
Proof.
  unfold prepareAndSubmitManagedIssuance. intros H Hd Hb Hr He Hc. set (w1 := tick _ w) in H.
  assert (disc w1 /\ holds w1 = Some r /\ blocked (trace w1) = true) as (Hd1 & Hr1 & Hb1).
  { cbn [w1 trace tick]. rewrite durable_snoc, blocked_snoc. split; [|done]. by apply disciplined_snoc. }
  destruct (sv_PrepareIssuance _ _ _ _) as [[raw|]|e]; [|by injection H as _ <-|].
  - destruct (signed_issuance s r raw w1) as [x w2] eqn:E1. apply signed_issuance_trace in E1 as [E1 Hne]. rewrite <- E1 in Hd1, Hr1, Hb1.
    destruct x as [entry|]; [|by injection H as _ <-]. destruct (persistManagedIssuance s _ w2) as [x w3] eqn:E2.
    apply (issuance_persist_step r) in E2 as (Hd3 & Hb3 & Hr3); [|done|done|by apply continues_entry]. destruct x as [u|]; [|by injection H as _ <-].
    by eapply issuance_submit_step; [exact H|done|congruence|by eapply Hr3|by apply Hne|..].
  - destruct (normalizeManagedPreparationError e) as [[st tr] e']. destruct (persistManagedIssuance s _ w1) as [x w2] eqn:E.
    apply (issuance_persist_step r) in E as (Hd2 & _); [|done|done|by apply continues_outcome]. by destruct x; injection H as _ <-.
Qed.

Lemma block_step w x w' :
  SetManagedIssuanceActivationBlocked s true w = (x, w') -> disc w ->
  disc w' /\ holds w' = holds w /\ (forall u, x = Ok u -> blocked (trace w') = true).
Proof.
  unfold SetManagedIssuanceActivationBlocked. intros [= <- <-] Hd. cbn [trace tick]. rewrite durable_snoc, blocked_snoc.
  split; [by apply disciplined_snoc|]. split; [done|]. by intros u ->.
Qed.

Lemma completion_accepted r sub :
  Submission r = Some sub -> sub_State sub = SubmissionStateAccepted -> validateManagedIssuanceCompletionState r sub = Ok tt -> accepted_entry r.
Proof.
  unfold validateManagedIssuanceCompletionState. intros Hs Hst H. destruct (_ || _) eqn:E1; [done|].
  apply orb_false_iff in E1 as [E1%is_empty_false _]. destruct (negb _ || _) eqn:E2; [done|].
  apply orb_false_iff in E2 as [E2%negb_false_iff%str_eqb_eq E3%negb_false_iff%str_eqb_eq].
  destruct (sub_Index sub) as [i|] eqn:Ei; [|done]. destruct (is_empty _); [done|]. destruct (ParseFinalEventRef _) as [[ref i']|] eqn:Ep; [|done].
  destruct (negb _ || _) eqn:E4; [done|]. apply orb_false_iff in E4 as [E4%negb_false_iff%str_eqb_eq E5%negb_false_iff%Z.eqb_eq].
  exists sub, ref, i'. split_and!; try done; congruence.
Qed.

Lemma complete_step d w o w' :
  CompleteManagedIssuance s d w = (o, w') -> disc w ->
  (forall n r, NormalizeFQDN d = Ok n -> sv_Load s (clock w) n = Ok (Some r) -> holds w = Some r) -> disc w'.
Proof.
  unfold CompleteManagedIssuance. intros H Hd Hl. destruct (NormalizeFQDN d) as [n|]; [|by injection H as _ <-].
  destruct (sv_Load s (clock w) n) as [[r|]|] eqn:El; [|by injection H as _ <-..]. pose proof (Hl n r eq_refl El) as Hr.
  destruct (Submission r) as [sub|] eqn:Es; [|by injection H as _ <-].
  destruct (negb (str_eqb _ _)) eqn:Est; [by injection H as _ <-|]. apply negb_false_iff, str_eqb_eq in Est.
  destruct (negb _); [by injection H as _ <-|].
  destruct (validateManagedIssuanceCompletionState r sub) as [[]|] eqn:Ev; [|by injection H as _ <-]. cbn [validation_of] in H.
  pose proof (completion_accepted r sub Es Est Ev) as Ha. destruct (persistManagedIssuance s _ w) as [x w1] eqn:E1.
  apply (issuance_persist_step r) in E1 as (Hd1 & _ & Hr1); [|done|done|apply continues_completion]. destruct x as [u|]; [|by injection H as _ <-].
  specialize (Hr1 u eq_refl). destruct (SetManagedIssuanceActivationBlocked s false w1) as [x w2] eqn:E2.
  assert (disc w2 /\ holds w2 = Some (with_completion r true)) as [Hd2 Hr2].
  { unfold SetManagedIssuanceActivationBlocked in E2. injection E2 as _ <-. cbn [trace tick]. rewrite durable_snoc. split; [|done].
    apply disciplined_snoc; [done|]. by exists (with_completion r true). }
  destruct x; [|by injection H as _ <-]. destruct (persistManagedIssuance s _ w2) as [x w3] eqn:E3.
  apply (issuance_persist_step (with_completion r true)) in E3 as (Hd3 & _); [|done|done|apply continues_completion]. by destruct x; injection H as _ <-.
Qed.
End runs.

(** ** Whole runs *)
Definition start (w : world) : Prop := trace w = [].

Lemma begin_disciplined s d g k w o w' :
  BeginManagedIssuance s d g k w = (o, w') -> start w -> disciplined (allowed None) (trace w').
Proof.
  unfold BeginManagedIssuance, start. intros H Hw. destruct (initial_issuance s d g k w) as [r|] eqn:Ei; [|injection H as _ <-; rewrite Hw; apply disciplined_nil].
  assert (Complete r = false /\ EntryBytes r = EmptyString) as [Hc He] by (unfold initial_issuance in Ei; go_inv; done).
  set (w1 := tick _ w) in H. assert (disciplined (allowed None) (trace w1)) as Hd1.
  { cbn [w1 trace tick]. rewrite Hw. apply (disciplined_snoc _ []); [apply disciplined_nil|done]. }
  destruct (sv_Create s (clock w) r) as [[existing|]|]; [by injection H as _ <-| |by injection H as _ <-].
  assert (durable None (trace w1) = Some r) as Hr1 by (cbn [w1 trace tick]; by rewrite durable_snoc).
  destruct (SetManagedIssuanceActivationBlocked s true w1) as [x w2] eqn:E2.
  destruct (block_step s None _ _ _ E2 Hd1) as (Hd2 & Hr2 & Hb2). destruct x as [u|]; [|by injection H as _ <-].
  eapply (prepare_step s None r); [exact H|done|by eapply Hb2|congruence|done|done].
Qed.

(** What the store answers at the beginning of a run. *)
Definition loaded (s : services) (d : string) : option state :=
  match NormalizeFQDN d with Ok n => match sv_Load s 0 n with Ok r => r | Err _ => None end | Err _ => None end.

Lemma complete_disciplined s d w o w' :
  CompleteManagedIssuance s d w = (o, w') -> start w -> disciplined (allowed (loaded s d)) (trace w').
Proof.
  intros H Hw. eapply complete_step; [exact H|rewrite Hw; apply disciplined_nil|]. intros n r Hn Hl.
  unfold clock in Hl. rewrite Hw in Hl. rewrite Hw. cbn -[NormalizeFQDN]. unfold loaded. rewrite Hn. change (sv_Load s 0 n = Ok (Some r)) in Hl. by rewrite Hl.
Qed.

Lemma validated_entry s r w u w' :
  validatePersistedManagedIssuance s r w = (Ok u, w') ->
  trace w' = trace w /\ (EntryBytes r <> EmptyString -> EntryHash r = entry_hash (EntryBytes r)).
Proof.
  unfold validatePersistedManagedIssuance. destruct (validate_record s r); [|done]. destruct (is_empty (EntryBytes r)) eqn:E.
  - intros [= _ <-]. apply is_empty_true in E. by rewrite E.
  - destruct (negb _) eqn:Eh; [done|]. apply negb_false_iff, str_eqb_eq in Eh. destruct (ParsePreparedEvent _ _); [|done].
    destruct (PreparedEntryBytes _ _ _ _) as [v st]. by intros [= _ <-].
Qed.
Lemma validated_trace s r w x w' : validatePersistedManagedIssuance s r w = (x, w') -> trace w' = trace w.
Proof.
  unfold validatePersistedManagedIssuance. destruct (validate_record s r); [|by intros [= _ <-]]. destruct (is_empty (EntryBytes r)); [by intros [= _ <-]|].
  destruct (negb _); [by intros [= _ <-]|]. destruct (ParsePreparedEvent _ _); [|by intros [= _ <-]].
  destruct (PreparedEntryBytes _ _ _ _) as [v st]. by intros [= _ <-].
Qed.

Lemma resume_disciplined `{!IdnaSpec I} s d w o w' :
  ResumeManagedIssuance s d w = (o, w') -> start w -> disciplined (allowed (loaded s d)) (trace w').
Proof.
  unfold ResumeManagedIssuance, start. intros H Hw. assert (disciplined (allowed (loaded s d)) (trace w)) as Hd by (rewrite Hw; apply disciplined_nil).
  destruct (NormalizeFQDN d) as [n|] eqn:En; [|by injection H as _ <-].
  assert (clock w = 0%nat) as Hck by (unfold clock; by rewrite Hw). rewrite Hck in H.
  destruct (sv_Load s 0 n) as [[r|]|] eqn:El; [|by injection H as _ <-..].
  assert (loaded s d = Some r) as Hl by (unfold loaded; by rewrite En, El). rewrite Hl in Hd |- *.
  destruct (validatePersistedManagedIssuance s r w) as [x w1] eqn:E1. pose proof (validated_trace _ _ _ _ _ E1) as Ht.
  destruct x as [u|]; [|injection H as _ <-; by rewrite Ht]. destruct (validated_entry _ _ _ _ _ E1) as [_ Hh].
  rewrite <- Ht in Hd. assert (durable (Some r) (trace w1) = Some r) as Hr by (by rewrite Ht, Hw).
  destruct (Complete r) eqn:Ec.
  - destruct (ActivationBlocked r); [|by injection H as _ <-]. eapply complete_step; [exact H|done|].
    intros n' r' Hn' Hl'. unfold clock in Hl'. rewrite Ht, Hw in Hl'. cbn in Hl'.
    apply normalize_fqdn_idempotent in En as (En & _). rewrite En in Hn'. injection Hn' as <-. rewrite El in Hl'. injection Hl' as <-. done.
  - destruct (SetManagedIssuanceActivationBlocked s true w1) as [x w2] eqn:E2.
    destruct (block_step s (Some r) _ _ _ E2 Hd) as (Hd2 & Hr2 & Hb2). destruct x as [v|]; [|by injection H as _ <-].
    destruct (in_state r _); [by injection H as _ <-|]. destruct (in_state r _); [by injection H as _ <-|]. destruct (TerminalFailure r); [by injection H as _ <-|].
    destruct (is_empty (EntryBytes r)) eqn:Ee.
    + apply is_empty_true in Ee. eapply (prepare_step s (Some r) r); [exact H|done|by eapply Hb2|congruence|done|done].
    + apply is_empty_false in Ee. eapply (issuance_submit_step s (Some r) r); [exact H|done|by eapply Hb2|congruence|done|by apply Hh|done].
Qed.

(** A run of one of the three operations, or the part of it before a crash:
    what the store held, and the effects. *)
Inductive run : option state -> list effect -> Prop :=
| run_begin s d g k w o w' tr post :
    start w -> BeginManagedIssuance s d g k w = (o, w') -> trace w' = tr ++ post -> run None tr
| run_resume s d w o w' tr post :
    start w -> ResumeManagedIssuance s d w = (o, w') -> trace w' = tr ++ post -> run (loaded s d) tr
| run_complete s d w o w' tr post :
    start w -> CompleteManagedIssuance s d w = (o, w') -> trace w' = tr ++ post -> run (loaded s d) tr.

Lemma run_disciplined `{!IdnaSpec I} saved tr : run saved tr -> disciplined (allowed saved) tr.
Proof.
  destruct 1 as [s d g k w o w' tr post Hw H E|s d w o w' tr post Hw H E|s d w o w' tr post Hw H E].
  - apply begin_disciplined in H; [|done]. rewrite E in H. by eapply disciplined_prefix.
  - apply resume_disciplined in H; [|done]. rewrite E in H. by eapply disciplined_prefix.
  - apply complete_disciplined in H; [|done]. rewrite E in H. by eapply disciplined_prefix.
Qed.
Lemma begin_runs s d g k w : start w -> run None (trace (BeginManagedIssuance s d g k w).2).
Proof. intros Hw. destruct (BeginManagedIssuance s d g k w) as [o w'] eqn:E. apply (run_begin s d g k w o w' _ [] Hw E). by rewrite app_nil_r. Qed.
Lemma complete_runs s d w : start w -> run (loaded s d) (trace (CompleteManagedIssuance s d w).2).
Proof. intros Hw. destruct (CompleteManagedIssuance s d w) as [o w'] eqn:E. apply (run_complete s d w o w' _ [] Hw E). by rewrite app_nil_r. Qed.

(** C9: activation waits for the log. In every run, whatever the services
    answer and wherever it stops, the block on activation is released only
    when the store holds the issuance as complete, with the registry's
    acceptance of its exact entry at a place in its own log; and an entry is
    submitted only while activation is blocked by this run. *)
Theorem activation_waits_for_the_log `{!IdnaSpec I} saved tr pre e post :
  run saved tr -> tr = pre ++ e :: post ->
  match e with
  | Switched false _ => exists r, durable saved pre = Some r /\ Complete r = true /\ accepted_entry r
  | Submitted d entry k =>
      blocked pre = true /\ exists r, durable saved pre = Some r /\ Domain r = d /\ EntryBytes r = entry /\ IdempotencyKey r = k /\
        entry <> EmptyString /\ EntryHash r = entry_hash entry /\ Complete r = false
  | _ => True
  end.
Proof.
  intros H%run_disciplined ->. specialize (H pre e post eq_refl).
  destruct e as [st ok|[] ok|ok|d k|d entry k|a|kid ok|kid ok]; first [exact H|done].
Qed.

(** ** The store over several runs *)
(** What the store may hold after [tr]: the last state it took, or one of
    those it may have taken since. *)
Definition may_hold (saved : option state) (tr : list effect) : state -> Prop :=
  fold_left (fun P e => match e with Persisted st true => eq st | Persisted st false => fun r => P r \/ r = st | _ => P end) tr
    (fun r => saved = Some r).
Lemma may_hold_snoc saved tr e :
  may_hold saved (tr ++ [e]) =
  match e with Persisted st true => eq st | Persisted st false => fun r => may_hold saved tr r \/ r = st | _ => may_hold saved tr end.
Proof. unfold may_hold. by rewrite fold_left_app. Qed.

Lemma continues_refl r : continues r r.
Proof. by repeat split. Qed.
Lemma continues_trans a b c : continues a b -> continues b c -> continues a c.
Proof.
  intros (A1 & A2 & A3 & A4 & A5 & A6 & A7 & A8 & A9) (B1 & B2 & B3 & B4 & B5 & B6 & B7 & B8 & B9).
  split_and!; try congruence.
  - intros H. destruct (A8 H) as [E1 E2]. rewrite <- E1 in H. destruct (B8 H) as [F1 F2]. split; congruence.
  - intros H. destruct (A9 H) as [E1 E2]. destruct (B9 E1) as [F1 F2]. split; congruence.
Qed.

Lemma may_hold_continues saved tr r st :
  disciplined (allowed saved) tr -> durable saved tr = Some r -> may_hold saved tr st -> continues r st.
Proof.
  revert r st. induction tr as [|e tr IH] using rev_ind; intros r st Hd Hr Hm.
  - cbn in Hr, Hm. rewrite Hr in Hm. injection Hm as <-. apply continues_refl.
  - pose proof (Hd tr e [] eq_refl) as Ha. apply disciplined_prefix in Hd. rewrite durable_snoc in Hr. rewrite may_hold_snoc in Hm.
    destruct e as [st' []| | | | | | |]; try (by apply IH).
    + injection Hr as <-. rewrite Hm. apply continues_refl.
    + destruct Hm as [Hm| ->]; [by apply IH|]. by apply Ha.
Qed.

(** What is in the store once continues at every later point of the run. *)
Lemma later_continues saved pre post r st :
  disciplined (allowed saved) (pre ++ post) -> durable saved pre = Some r -> may_hold saved (pre ++ post) st -> continues r st.
Proof.
  revert st. induction post as [|e post IH] using rev_ind; intros st Hd Hr Hm.
  - rewrite app_nil_r in Hd, Hm. by eapply may_hold_continues.
  - rewrite app_assoc in Hd, Hm. pose proof (Hd _ e [] eq_refl) as Ha. apply disciplined_prefix in Hd. rewrite may_hold_snoc in Hm.
    assert (exists st0, durable saved (pre ++ post) = Some st0 /\ continues r st0) as (st0 & H0 & Hc0).
    { assert (is_Some (durable saved (pre ++ post))) as [st0 H0].
      { clear - Hr. induction post as [|e post IH] using rev_ind; [by rewrite app_nil_r, Hr|]. rewrite app_assoc, durable_snoc.
        destruct e as [st' []| | | | | | |]; try done; by eexists. }
      exists st0. split; [done|]. apply IH; [done|done|]. clear - H0. revert st0 H0. induction (pre ++ post) as [|e l IH] using rev_ind; intros st0 H0; [done|].
      rewrite durable_snoc in H0. rewrite may_hold_snoc. destruct e as [st' []| | | | | | |]; try (by apply IH); [by injection H0|left; by apply IH]. }
    destruct e as [st' []| | | | | | |]; try (by apply IH).
    + rewrite <- Hm. eapply continues_trans; [exact Hc0|by apply Ha].
    + destruct Hm as [Hm| ->]; [by apply IH|]. eapply continues_trans; [exact Hc0|by apply Ha].
Qed.

Lemma may_hold_from_saved saved tr r st : disciplined (allowed saved) tr -> saved = Some r -> may_hold saved tr st -> continues r st.
Proof. intros Hd Hs Hm. by apply (later_continues saved [] tr). Qed.

(** The life of an issuance: the run that begins it, and then runs on what
    the store may hold after the ones before. *)
Inductive lifetime : list effect -> state -> Prop :=
| life_begin tr st : run None tr -> may_hold None tr st -> lifetime tr st
| life_next tr st tr' st' : lifetime tr st -> run (Some st) tr' -> may_hold (Some st) tr' st' -> lifetime (tr ++ tr') st'.

Lemma submitted_is_held saved tr st d entry k :
  disciplined (allowed saved) tr -> Submitted d entry k ∈ tr -> may_hold saved tr st ->
  Domain st = d /\ EntryBytes st = entry /\ IdempotencyKey st = k /\ entry <> EmptyString.
Proof.
  intros Hd (pre & post & ->)%list_elem_of_split Hm. destruct (Hd _ _ _ eq_refl) as (_ & r & Hr & <- & <- & <- & Hne & _).
  pose proof (later_continues saved pre _ r st Hd Hr Hm) as (A1 & _ & _ & _ & _ & _ & A7 & A8 & _). destruct (A8 Hne) as [E _]. done.
Qed.

(** One issuance, one entry. Over the run that begins an issuance and all
    later ones, with crashes between, everything that was submitted is one
    entry under one idempotency key, the entry that the store still holds. *)
Theorem one_issuance_one_entry `{!IdnaSpec I} tr st d entry k :
  lifetime tr st -> Submitted d entry k ∈ tr -> Domain st = d /\ EntryBytes st = entry /\ IdempotencyKey st = k.
Proof.
  intros Hl. enough (forall d entry k, Submitted d entry k ∈ tr -> Domain st = d /\ EntryBytes st = entry /\ IdempotencyKey st = k /\ entry <> EmptyString) as H.
  { intros Hin. by destruct (H d entry k Hin) as (? & ? & ? & _). }
  clear d entry k. induction Hl as [tr st Hr Hm|tr st tr' st' Hl IH Hr Hm]; intros d entry k Hin.
  - apply run_disciplined in Hr. by eapply submitted_is_held.
  - apply run_disciplined in Hr. apply elem_of_app in Hin as [Hin|Hin]; [|by eapply submitted_is_held].
    destruct (IH _ _ _ Hin) as (<- & <- & <- & Hne).
    destruct (may_hold_from_saved _ _ _ _ Hr eq_refl Hm) as (A1 & _ & _ & _ & _ & _ & A7 & A8 & _). by destruct (A8 Hne) as [-> _].
Qed.
End issuance.
