(* ===== verification/ManagedDemo.v ===== *)
(** * ManagedDemo: a managed rotation and a managed issuance of the concrete log

    Services that answer as they should, on the log of ClientDemo.v: the runs
    on which the theorems about managed rotations and, in the Module Issuance,
    about managed issuances are instantiated. *)

From Stdlib Require Import ZArith Lia Ascii String.
From S2P Require Import Prelude Codec Utf8 Numbers Jcs JcsSpec Keys Fqdn TxtRecord Jwks Domain Lifecycle LogReader Merkle Evidence Reference Policy Checkpoint Scan Event EventSpec Replay ReplaySpec AppendSpec Client Reader ReaderSpec Demo ClientDemo ManagerDemo Json KeyRing JoseUtil Prepared PreparedSpec PreparedDemo Managed ManagedIssuance ManagedIssuanceSpec ManagedRotation ManagedSpec.

Open Scope Z_scope.
#[local] Existing Instance log_notes.
#[local] Existing Instance rfc6962_tlog.
#[local] Existing Instance demo_lib.

Definition demo_ku3 : demo_key := {| demo_kid := "op3"; demo_pub := "third-operational-key-bytes-1234" |}.
Definition next_rotation := with_rotation (bare_event LogEventKeyRotation 2400) (thumb_of demo_ku2) demo_ku3.
Definition next_unsigned : string := Eval vm_compute in bytes_of (prepareEvent demo_ref next_rotation demo_c2).

(** The provider: the new key is active from the eighth effect on. *)
Definition ring (n : nat) : KeyProvider (key:=demo_key) :=
  let by_kid kid := if str_eqb kid "op2" then Some demo_ku2 else if str_eqb kid "op3" then Some demo_ku3 else None in
  let sign k payload := Ok (Some (KeyRing.Sig (demo_kid k) "EdDSA" (demo_sign (demo_pub k) payload))) in
  let active := if (n <=? 7)%nat then demo_ku2 else demo_ku3 in
  {| kp_ListKeyIds := ["op3"; "op2"]%string; kp_Active := Some active; kp_JWK := by_kid; kp_Sign := sign active;
     kp_SignKey kid payload := match by_kid kid with Some k => sign k payload | None => Err (PlainError "no such key") end |}.

Definition accepted_at (entry : string) : SubmissionResult :=
  {| sub_State := SubmissionStateAccepted; sub_EntryHash := entry_hash entry; sub_Index := Some 2; sub_KeyID := "op3";
     sub_LogRef := FinalEventRef demo_ref 2; sub_ErrorCode := "" |}.
Definition published_record : TXTRecord :=
  {| Version := DefaultPublishProfile; TxtRecord.GovernanceID := "operator.example"; EntityKeyURI := ""; KeyURI := ""; LogRef := ref_String demo_ref;
     StatusURI := ""; TxtRecord.Signature := ""; Flags := []; KeyAge := ""; Capabilities := ""; UnknownTags := ∅; parsedTags := ∅ |}.
Definition published (entry : string) : VerifiedDomain demo_key (EventReader (key:=demo_key)) :=
  {| domain := log_domain; record := Some published_record; keySet := Some [demo_ku3]; recordSigningKeySet := None; kuKey := None; signingKey := None;
     signingKeyThumbprint := ""; Domain.status := None; dnssecState := "SECURE"; verifiedAt := log_at; acquiredAt := log_at;
     lastStatusCheckAt := log_at; dnsTTL := 300 * second; dnsExpiresAt := log_at + 300 * second; jwksTLSCertificate := None;
     ekTLSCertificate := None; statusTLSCertificate := None; keyBoundAt := 0; operationalKeyThumbprint := "";
     logReader := Some {| ReadEvent _ := LogEventFromEntry entry |};
     expiry := log_at + 300 * second; cachedState := "fresh"; cacheInvalidated := None |}.

(** Services that work; the publication is of the entry [entry]. *)
Definition working (entry : string) : services (key:=demo_key) :=
  {| sv_client := log_client 2; sv_call _ := log_call log_at; sv_keys := ring; sv_GenerateKey _ _ := Ok "op3"%string;
     sv_Activate _ _ := Ok tt; sv_Supersede _ _ := Ok tt;
     sv_PrepareKeyRotation _ _ _ _ _ := Ok (Some next_unsigned);
     sv_SubmitPreparedEvent _ _ entry _ := Ok (Some (accepted_at entry));
     sv_Persist _ _ := Ok tt; sv_SetPaused _ _ := Ok tt;
     sv_VerifyLocalPublication _ := Ok (Some (published entry)) |}.
Definition next_entry : string := Eval vm_compute in
  value_of "" (signed_rotation (working "") log_domain (thumb_of demo_ku2) "op3" (thumb_of demo_ku3) (Some demo_ku3) next_unsigned
    {| trace := []; checkpoints_of := None |}).1.

Definition nothing_yet : world (ManagedKeyRotationState) (option (VerifiedDomain demo_key (EventReader (key:=demo_key)))) :=
  {| trace := []; checkpoints_of := None |}.
Definition demo_rotation_run := RotateManagedOperationalKey (working next_entry) log_domain "op-1" nothing_yet.

(** The run ends with the new key active and signing released. *)
Example rotation_ends :
  match demo_rotation_run.1 with
  | (Some r, None) => Activated r && negb (ApplicationSigningPaused r) && str_eqb (EntryBytes r) next_entry
  | _ => false
  end = true.
Proof. vm_compute. reflexivity. Qed.
Lemma rotation_run : run None (trace demo_rotation_run.2).
Proof. apply rotate_runs; [vm_compute; reflexivity|reflexivity]. Qed.
Lemma eighth_effect : trace demo_rotation_run.2 !! 7%nat = Some (KeyActivated "op3" true).
Proof. vm_compute. reflexivity. Qed.

Lemma activation_follows_acceptance_witness :
  exists r sub, durable None (take 7 (trace demo_rotation_run.2)) = Some r /\ "op3"%string = NewKid r /\ acceptance r sub.
Proof.
  destruct (activation_follows_acceptance None (trace demo_rotation_run.2) (take 7 (trace demo_rotation_run.2)) (KeyActivated "op3" true)
    (drop 8 (trace demo_rotation_run.2)) rotation_run (eq_sym (take_drop_middle _ _ _ eighth_effect))) as (_ & r & sub & H1 & H2 & H3 & _).
  exists r, sub. exact (conj H1 (conj H2 H3)).
Defined.
Lemma one_rotation_one_entry_witness : exists r0, Forall (of_rotation r0) (trace demo_rotation_run.2).
Proof.
  destruct (one_rotation_one_entry [trace demo_rotation_run.2] (lifetime_first _ rotation_run)) as [r0 H].
  exists r0. exact (Forall_inv H).
Defined.

(** ** A managed issuance of the concrete identity *)
Module Issuance.
Import ManagedIssuance ManagedIssuanceSpec.

(** The registry's event, with the entity's signature. *)
Definition offered_issuance : string := Eval vm_compute in
  bytes_of (prepareEvent demo_ref (with_sigs demo_issuance0 ("ek1", demo_sig demo_entity demo_b0) no_sig no_sig no_sig) demo_c0).
Definition accepted_first (entry : string) : SubmissionResult :=
  {| sub_State := SubmissionStateAccepted; sub_EntryHash := entry_hash entry; sub_Index := Some 0; sub_KeyID := "op1";
     sub_LogRef := FinalEventRef demo_ref 0; sub_ErrorCode := "" |}.

(** Services that work over a store that holds [held]. *)
Definition registry (held : option ManagedIssuanceState) : services (key:=demo_key) :=
  {| sv_client := log_client 0; sv_default _ := log_client 0; sv_call _ := log_call log_at; sv_entity := Some demo_entity;
     sv_keys _ := signer demo_ku1; sv_PrepareIssuance _ _ _ := Ok (Some offered_issuance);
     sv_SubmitPreparedEvent _ _ entry _ := Ok (Some (accepted_first entry)); sv_Create _ _ := Ok held; sv_Load _ _ := Ok held;
     sv_Persist _ _ := Ok tt; sv_SetBlocked _ _ := Ok tt |}.
Definition at_start : world ManagedIssuanceState unit := {| trace := []; checkpoints_of := None |}.

Definition begun := Eval vm_compute in BeginManagedIssuance (registry None) log_domain "operator.example" "iss-1" at_start.
Definition begun_trace : list (effect ManagedIssuanceState unit) := trace begun.2.
Lemma begun_run : BeginManagedIssuance (registry None) log_domain "operator.example" "iss-1" at_start = begun.
Proof. vm_compute. reflexivity. Qed.
Definition issued : ManagedIssuanceState := Eval vm_compute in
  match begun.1.1 with Some r => r | None =>
    {| ManagedIssuance.Domain := ""; iss_GovernanceID := ""; LogReference := ""; EntityThumbprint := ""; OperationalKid := "";
       OperationalThumbprint := ""; ManagedIssuance.EntryBytes := ""; EntryHash := ""; IdempotencyKey := ""; Submission := None; LastErrorCode := "";
       TerminalFailure := false; Complete := false; ActivationBlocked := true |} end.
(** The countersigned entry is the first entry of the log. *)
Example issued_entry : ManagedIssuance.EntryBytes issued = demo_e0 /\ begun.1.2 = None.
Proof. vm_compute. auto. Qed.

Definition finished_issuance := Eval vm_compute in CompleteManagedIssuance (registry (Some issued)) log_domain at_start.
Lemma completed_run : CompleteManagedIssuance (registry (Some issued)) log_domain at_start = finished_issuance.
Proof. vm_compute. reflexivity. Qed.
Lemma loaded_issued : loaded (registry (Some issued)) log_domain = Some issued.
Proof. vm_compute. reflexivity. Qed.

Lemma begin_is_run : run None begun_trace.
Proof. unfold begun_trace. rewrite <- begun_run. apply (begin_runs (key:=demo_key)). reflexivity. Qed.
Lemma complete_is_run : run (Some issued) (trace finished_issuance.2).
Proof. rewrite <- completed_run, <- loaded_issued. apply (complete_runs (key:=demo_key)). reflexivity. Qed.

Lemma released_second : trace finished_issuance.2 !! 1%nat = Some (Switched false true).
Proof. reflexivity. Qed.
Lemma activation_waits_for_the_log_witness :
  exists r, durable (Some issued) (take 1 (trace finished_issuance.2)) = Some r /\ Complete r = true /\ accepted_entry r.
Proof.
  exact (activation_waits_for_the_log (Some issued) (trace finished_issuance.2) _ (Switched false true) _ complete_is_run
    (eq_sym (take_drop_middle _ _ _ released_second))).
Defined.

Lemma submitted_fifth : begun_trace !! 4%nat = Some (Submitted log_domain demo_e0 "iss-1").
Proof. reflexivity. Qed.
Lemma one_issuance_one_entry_witness : ManagedIssuance.EntryBytes issued = demo_e0.
Proof.
  apply (one_issuance_one_entry (key:=demo_key) begun_trace issued log_domain demo_e0 "iss-1").
  - apply life_begin; [exact begin_is_run|reflexivity].
  - exact (list_elem_of_lookup_2 _ _ _ submitted_fifth).
Defined.

End Issuance.
