(* ===== verification/Migration.v ===== *)
(** * Migration: the history handed over at a signed cutoff

    log/c2sptlog/migration.go: [RebuildHistoryThrough] verifies the history of
    a stream up to the exact entry that a MIGRATION names and returns what the
    destination's replay imports. [migrates_from] is the migration verifier
    that calls it on the client of the log left behind. *)

From Stdlib Require Import ZArith Lia Ascii String.
From S2P Require Import Prelude Codec Utf8 Numbers Jcs JcsSpec Keys Fqdn Lifecycle Merkle Evidence Reference Policy Checkpoint Scan Event EventSpec Replay ReplaySpec Client Reader.

Open Scope Z_scope.

Section migration.
Context {key : Type} `{!KeyOps key} `{!JwkText key} {N : NoteLib} {U : NetURL} {T : TLog} {I : Idna} {C : ConsistencyLib}.
Abbreviation LogEvent := (LogEvent key).
Abbreviation verifiedEvent := (verifiedEvent (key:=key)).
Abbreviation MigrationVerificationResult := (MigrationVerificationResult (key:=key)).
Abbreviation Client := (Client (key:=key)).

(** The entries up to the cutoff and the one at it: the last that the history
    has there, or else what the source returns for the reference. *)
Definition cutoff_entries (c : Client) (index : Z) (finalRef : string) (entries : list ProvenEntry)
    : res (list ProvenEntry * ProvenEntry) :=
  let prefix := List.filter (fun entry => pe_Index entry <=? index) entries in
  match last (List.filter (fun entry => pe_Index entry =? index) entries) with
  | Some occurrence => Ok (prefix, occurrence)
  | None =>
      entry ← source_ReadEvent c finalRef;
      fail_if negb (pe_Index entry =? index) with invalidMigration "dnsid: wrong migration cutoff occurrence" None ;;
      Ok (prefix ++ [entry], entry)
  end.

(** The occurrence carries the signed bytes of the last accepted event, and
    its own signatures verify under the keys that event was accepted under. *)
Definition check_occurrence (c : Client) (occurrence : ProvenEntry) (lastEvent : verifiedEvent) : res unit :=
  parsed ← parseCandidateEntry (key:=key) (client_ref c) (Entry occurrence);
  signed ← CanonicalFromEntry (Entry occurrence);
  fail_if negb (str_eqb signed (v_signed lastEvent))
       || negb (candidateAuthorizedByCurrentHistory (p_event parsed) signed (v_authorityEntity lastEvent) (v_authorityOperational lastEvent))
    with invalidMigration "dnsid: cutoff is not a fully signed occurrence of the final logical event" None ;;
  Ok tt.

(** [references[len(references)-1] = finalRef]. *)
Definition replace_last (l : list string) (r : string) : list string := removelast l ++ [r].

Definition migration_evidence (c : Client) (complete : CompleteHistoryResult) (checkpoint : VerifiedProof)
    (first : verifiedEvent) (finalRef : string) (priorEvidence : list LoggedStateEvidence) : LoggedStateEvidence :=
  {| LogReference := ref_String (client_ref c); LoggedState := Some AgentStateActive;
     HistoryStart := FinalEventRef (client_ref c) (v_index first); HistoryEnd := finalRef;
     CompleteThrough := format_uint (Z.to_N (ch_CompleteThrough complete)); CompletenessMode := ch_CompletenessMode complete;
     ev_Checkpoint := ch_Checkpoint complete; FreshnessTime := CheckpointFreshnessTime checkpoint; PriorEvidence := priorEvidence |}.

(** What follows the verification of the prefix. *)
Definition hand_over (c : Client) (w : call) (domain finalRef : string) (complete : CompleteHistoryResult)
    (checkpoint : VerifiedProof) (index : Z) (occurrence : ProvenEntry) (verified : list verifiedEvent) (events : list LogEvent)
    : res MigrationVerificationResult :=
  match verified, last verified with
  | first :: _, Some lastEvent =>
      check_occurrence c occurrence lastEvent ;;
      '(entity, operational, state) ← lifecycleStateFromVerified verified domain;
      fail_if negb (bool_decide (state !! "status"%string = Some (VString "ACTIVE")))
        with invalidMigration "dnsid: cannot migrate terminal history" None ;;
      '(priorEvidence, references) ←
        match v_migration first with
        | Some migration => validatedPriorEvidence (v_event first) (Some migration)
        | None => Ok ([], [])
        end;
      let references := replace_last (references ++ ((fun item => FinalEventRef (client_ref c) (v_index item)) <$> verified)) finalRef in
      let result := {| EntityKey := entity; ActiveOperationalKey := operational; PriorHistory := events;
                       mig_PriorEvidence := Some (migration_evidence c complete checkpoint first finalRef priorEvidence);
                       PriorHistoryReferences := references;
                       FinalOccurrence := Some {| pe_Index := index; Entry := Entry occurrence; Proof_ := Proof_ occurrence |} |} in
      let limits := migrationLimitsForContext (path w) (migrationLimits c) in
      fail_if MaxHistoryEvents limits <? Z.of_nat (List.length events)
        with invalidMigration "dnsid: migration history exceeds event limit" None ;;
      size ← migration_json_size c result;
      fail_if MaxResponseBytes limits <? size with invalidMigration "dnsid: migration history exceeds byte limit" None ;;
      Ok result
  | _, _ => Err (PlainError "panic: index out of range")
  end.

(** Up to the verification of the prefix. *)
Definition open_cutoff (c : Client) (w : call) (domain finalRef : string)
    : res (Z * CompleteHistoryResult * VerifiedProof * list ProvenEntry * ProvenEntry) :=
  '(ref, index) ← ParseFinalEventRef finalRef;
  fail_if negb (str_eqb (ref_String ref) (ref_String (client_ref c)))
    with ArgumentError "dnsid: migration cutoff does not match client" ;;
  match source_RebuildCompleteHistory c with
  | None => Err (invalidMigration "dnsid: migration requires complete source history" None)
  | Some read =>
      match read domain with
      | Err e => Err (invalidMigration "dnsid: migration source unavailable" (Some e))
      | Ok history =>
          validateHistorySize ((fun e => (Entry e, Proof_ e)) <$> Entries history) ;;
          checkpoint ← verifyCompleteCheckpoint c w history;
          fail_if ch_CompleteThrough history <=? index
            with invalidMigration "dnsid: migration cutoff exceeds complete history" None ;;
          '(prefix, occurrence) ← cutoff_entries c index finalRef (Entries history);
          Ok (index, history, checkpoint, prefix, occurrence)
      end
  end.

Definition RebuildHistoryThrough (c : Client) (w : call) (s : option checkpoints) (domain finalRef : string)
    : res MigrationVerificationResult * option checkpoints :=
  let '(r, s') :=
    match open_cutoff c w domain finalRef with
    | Err e => (Err e, s)
    | Ok (index, history, checkpoint, prefix, occurrence) =>
        let '(r, s') := verifyHistoryEntries c w s domain prefix (Some checkpoint) in
        ('(verified, events) ← r; hand_over c w domain finalRef history checkpoint index occurrence verified events, s')
    end in
  (log_error (unless_cancelled w r), s').

(** The verifier of a destination whose identities come from the log of [c]. *)
Definition migrates_from (c : Client) (w : migrationPath -> call) (s : option checkpoints) (p : migrationPath) (event : LogEvent)
    : res MigrationVerificationResult :=
  (RebuildHistoryThrough c (w p) s (Lifecycle.Domain event) (FinalEntryRef event)).1.
End migration.
