(* ===== verification/MigrationSpec.v ===== *)
(** * MigrationSpec: a migration carries one identity to another log

    What [RebuildHistoryThrough] hands over is the standing of a verified,
    living stream at exactly the signed cutoff; a destination that imports it
    continues that standing; and the checks of the destination accept what the
    source's client hands over. *)

From Stdlib Require Import ZArith Lia Ascii String.
From S2P Require Import Prelude Codec Utf8 Numbers Jcs JcsSpec Keys Fqdn Lifecycle Merkle Evidence Reference Policy Checkpoint Scan Event EventSpec Replay ReplaySpec AppendSpec Client Reader ReaderSpec Migration.

Open Scope Z_scope.

Section migration.
Context {key : Type} `{!KeyOps key} `{!JwkText key} {N : NoteLib} {U : NetURL} {T : TLog} {I : Idna} {C : ConsistencyLib}.
Abbreviation LogEvent := (LogEvent key).
Abbreviation verifiedEvent := (verifiedEvent (key:=key)).
Abbreviation standing := (standing (key:=key)).
Abbreviation MigrationVerificationResult := (MigrationVerificationResult (key:=key)).
Abbreviation Client := (Client (key:=key)).
Abbreviation verifier := (option (LogEvent -> res MigrationVerificationResult)).

(** ** Streams *)
Lemma stream_active (verify : verifier) l h :
  verified_stream verify l h -> st_state h !! "status"%string = Some (VString "ACTIVE") -> st_ended h = false.
Proof.
  induction 1 as [| |l h x h' Hs IH Hend _ _ _ _ _ _ Heff]; [done..|]. destruct Heff; try done.
Qed.

Lemma stream_from_migration f (l : list verifiedEvent) h g :
  verified_stream (Some f) l h -> head l = Some g -> Type_ (v_event g) = LogEventMigration ->
  exists e m et ot, f e = Ok m /\ v_migration g = Some m /\ v_event g = with_initial_keys e (EntityKey m) et (ActiveOperationalKey m) ot /\
    validateMigrationResult e m = Ok tt /\ signed_by (EntityKey m) (InitialEntityKid e) (InitialEntitySignature e) (v_signed g) = true /\
    authority g = (EntityKey m, ActiveOperationalKey m).
Proof.
  intros Hs. revert g. induction Hs as [x et Ety|x e f' m et ot Ev|l h x h' Hs IH]; intros g Hg Hty.
  - injection Hg as <-. congruence.
  - injection Hg as <-. injection Ev as <-. by exists e, m, et, ot.
  - apply IH; [|done]. destruct l as [|y l]; [|done]. by inversion Hs; destruct l.
Qed.

(** Every accepted event stands at the index of an entry. *)
Lemma accepted_index c w domain required entries proofs verified accepted prior (y : verifiedEvent) :
  skipProofVerify (client_policy c) = false -> verify_entries c w domain required 0 entries = Ok (proofs, verified) ->
  verifyLifecycleVerifiedWithMigration (done_replay w) (sort_by v_index verified) (migration_verifier c w)
    (ref_String (client_ref c)) = Ok (accepted, prior) ->
  y ∈ accepted -> exists entry, entry ∈ entries /\ v_index y = pe_Index entry.
Proof.
  intros Hskip He Hl Hy. destruct (replay_outputs _ _ _ _ _ _ Hl) as [_ (kept & Hk & Hc)].
  apply list_elem_of_lookup in Hy as (i & Hi). destruct (Forall2_lookup_r _ _ _ _ _ Hc Hi) as (x & Hx & Hxy).
  assert (x ∈ verified) as Hv.
  { rewrite <- (sort_by_perm v_index). eapply elem_of_sublist; [|exact Hk]. by eapply list_elem_of_lookup_2. }
  destruct (proj1 (verify_entries_items _ _ _ _ _ _ _ _ He) x Hv) as (j & entry & p & Hj & Ee).
  destruct (verify_entry_authentic _ _ _ _ _ _ _ _ Hskip Ee) as (v & q & _ & _ & _ & _ & _ & _ & _ & _ & Hi2 & _).
  destruct Hxy as (_ & _ & _ & _ & C5). exists entry. split; [by eapply list_elem_of_lookup_2|congruence].
Qed.

(** An imported history is not newer than the MIGRATION. *)
Lemma latest_time_from (l : list LogEvent) acc :
  acc <= fold_left (fun latest prior => if after (Timestamp prior) latest then Timestamp prior else latest) l acc.
Proof.
  revert acc. induction l as [|x l IH]; intros acc; [done|]. cbn [fold_left]. etrans; [|apply IH]. unfold after. destruct (_ <? _) eqn:E; lia.
Qed.
Lemma latest_time_upper (l : list LogEvent) acc e :
  e ∈ l -> Timestamp e <= fold_left (fun latest prior => if after (Timestamp prior) latest then Timestamp prior else latest) l acc.
Proof.
  revert acc. induction l as [|x l IH]; intros acc; [by intros ?%elem_of_nil|]. cbn [fold_left]. intros [->|H]%elem_of_cons; [|by apply IH].
  etrans; [|apply latest_time_from]. unfold after. destruct (_ <? _) eqn:E; lia.
Qed.
Lemma latest_time_in (l : list LogEvent) e : e ∈ l -> Timestamp e <= latest_time l.
Proof.
  unfold latest_time. destruct l as [|z rest]; [by intros ?%elem_of_nil|].
  intros [->|Hy]%elem_of_cons; [apply latest_time_from|by apply latest_time_upper].
Qed.
Lemma migration_after_history (e : LogEvent) m y :
  validateMigrationResult e m = Ok tt -> y ∈ PriorHistory m -> Timestamp y <= Timestamp e.
Proof.
  unfold validateMigrationResult. destruct (_ || _ || _); [done|]. destruct (keyThumbprint (EntityKey m)); [|done].
  destruct (keyThumbprint (ActiveOperationalKey m)); [|done]. cbn [mbind res_bind].
  destruct (str_eqb _ _); [done|]. destruct (existsb _ _); [done|]. destruct (before _ _) eqn:Eb; [done|]. intros _ Hy.
  unfold before in Eb. apply Z.ltb_ge in Eb. etrans; [|exact Eb]. by apply latest_time_in.
Qed.

Lemma stream_last_event (verify : verifier) l h : verified_stream verify l h -> exists x, x ∈ l /\ st_last h = v_event x.
Proof.
  destruct 1 as [x|x|l h x h' _ _ _ _ _ _ _ _ Heff]; [exists x; split; [left|done]..|].
  exists x. split; [apply elem_of_app; right; left|]. by destruct Heff.
Qed.

(** ** The cutoff *)
(** The entry at the cutoff is among those verified, none of which is later. *)
Lemma cutoff_entries_facts (c : Client) index final entries prefix occ :
  cutoff_entries c index final entries = Ok (prefix, occ) ->
  occ ∈ prefix /\ pe_Index occ = index /\ Forall (fun entry => pe_Index entry <= index) prefix.
Proof.
  unfold cutoff_entries. destruct (last (List.filter _ entries)) as [o|] eqn:El.
  - intros [= <- <-]. apply last_Some_elem_of in El. apply list_elem_of_In, filter_In in El as [Hin Hi%Z.eqb_eq].
    split; [|split; [done|]].
    + apply list_elem_of_In, filter_In. split; [done|]. apply Z.leb_le. lia.
    + apply Forall_forall. intros x Hx. apply list_elem_of_In, filter_In in Hx as [_ Hx%Z.leb_le]. done.
  - destruct (source_ReadEvent c final) as [o|]; [|done]. cbn [mbind res_bind].
    destruct (pe_Index o =? index) eqn:Ei; [|done]. cbn [negb]. intros [= <- <-]. apply Z.eqb_eq in Ei.
    split; [set_solver|]. split; [done|]. apply Forall_app. split; [|by repeat constructor; lia].
    apply Forall_forall. intros x Hx. apply list_elem_of_In, filter_In in Hx as [_ Hx%Z.leb_le]. done.
Qed.

(** The proof of an entry that was not skipped. *)
Lemma strict_entry_verified c w domain required entries proofs events entry :
  skipProofVerify (client_policy c) = false -> GlobalCandidates c = false ->
  verify_entries c w domain required 0 entries = Ok (proofs, events) -> entry ∈ entries ->
  exists i v, VerifyProof (with_clock (client_policy c) (proof_clock w i)) (client_ref c) (Entry entry) (Proof_ entry) = Ok v /\
    Index v = pe_Index entry /\ forall r, required = Some r -> sameCheckpoint (VCheckpoint v) (VCheckpoint r) = true.
Proof.
  intros Hskip Hg He (j & Hj)%list_elem_of_lookup. destruct (proj2 (verify_entries_items _ _ _ _ _ _ _ _ He) j entry Hj) as (o & Ho & _).
  unfold verify_entry in Ho. rewrite Hg in Ho. cbn [negb orb] in Ho. destruct (VerifyProof _ _ _ _) as [v|] eqn:Ev; [|done].
  rewrite proof_of_entry_real in Ho by done. destruct (match required with Some _ => _ | None => _ end) eqn:Er; [done|].
  destruct (Index v =? pe_Index entry) eqn:Ei; cbn [negb] in Ho; [|done]. apply Z.eqb_eq in Ei.
  exists (0 + j)%nat, v. split_and!; try done. intros r ->. by apply negb_false_iff in Er.
Qed.

(** What [RebuildHistoryThrough] went through when it succeeds. *)
Lemma rebuild_parts c w s domain final m s' :
  RebuildHistoryThrough c w s domain final = (Ok m, s') ->
  exists index history checkpoint prefix occ verified events s1,
    open_cutoff c w domain final = Ok (index, history, checkpoint, prefix, occ) /\
    verifyHistoryEntries c w s domain prefix (Some checkpoint) = (Ok (verified, events), s1) /\
    hand_over c w domain final history checkpoint index occ verified events = Ok m.
Proof.
  unfold RebuildHistoryThrough. destruct (open_cutoff c w domain final) as [[[[[index history] checkpoint] prefix] occ]|] eqn:Eo.
  2:{ by intros [=]. }
  destruct (verifyHistoryEntries c w s domain prefix (Some checkpoint)) as [[[verified events]|] s1] eqn:Ev; [|by intros [=]].
  cbn [mbind res_bind]. intros H. injection H as H _. apply log_error_Ok, unless_cancelled_Ok in H.
  by exists index, history, checkpoint, prefix, occ, verified, events, s1.
Qed.

Lemma open_cutoff_facts (c : Client) w domain final index history checkpoint prefix occ :
  skipProofVerify (client_policy c) = false -> open_cutoff c w domain final = Ok (index, history, checkpoint, prefix, occ) ->
  exists ref, ParseFinalEventRef final = Ok (ref, index) /\ ref_String ref = ref_String (client_ref c) /\
    verifyCheckpoint (with_clock (client_policy c) (checkpoint_clock w)) (client_ref c) (ch_Checkpoint history) = Ok checkpoint /\
    checkpoint_size checkpoint = ch_CompleteThrough history /\ index < checkpoint_size checkpoint /\
    CheckpointFreshnessTime checkpoint <> 0 /\ ch_Checkpoint history <> EmptyString /\ ch_CompletenessMode history <> EmptyString /\
    cutoff_entries c index final (Entries history) = Ok (prefix, occ).
Proof.
  intros Hskip. unfold open_cutoff. destruct (ParseFinalEventRef final) as [[ref i]|] eqn:Ep; [|done]. cbn [mbind res_bind].
  destruct (str_eqb (ref_String ref) _) eqn:Er; cbn [negb]; [|done]. apply str_eqb_eq in Er.
  destruct (source_RebuildCompleteHistory c) as [read|]; [|done]. destruct (read domain) as [hist|]; [|done].
  destruct (validateHistorySize _); [|done]. cbn [mbind res_bind].
  destruct (verifyCompleteCheckpoint c w hist) as [v|] eqn:Ec; [|done]. cbn [mbind res_bind].
  destruct (ch_CompleteThrough hist <=? i) eqn:Eb; [done|]. apply Z.leb_gt in Eb.
  destruct (cutoff_entries _ _ _ _) as [[p o]|] eqn:Eu; [|done]. intros [= -> -> -> -> ->]. exists ref.
  unfold verifyCompleteCheckpoint in Ec. rewrite Hskip in Ec.
  destruct (is_empty (ch_CompletenessMode history)) eqn:E1; [done|]. destruct (is_empty (ch_Checkpoint history)) eqn:E2; [done|].
  destruct (verifyCheckpoint _ _ _) as [v'|] eqn:Ev; [|done]. cbn [mbind res_bind] in Ec.
  destruct (checkpoint_size v' =? _) eqn:Esz; cbn [negb] in Ec; [|done]. apply Z.eqb_eq in Esz.
  destruct (time_is_zero _) eqn:Et; [done|]. injection Ec as ->. apply is_empty_false in E1, E2.
  split_and!; try done; [lia|]. intros E. unfold time_is_zero in Et. by rewrite E in Et.
Qed.

Lemma check_occurrence_facts (c : Client) occ (x : verifiedEvent) :
  check_occurrence c occ x = Ok tt ->
  exists q, parseCandidateEntry (client_ref c) (Entry occ) = Ok q /\ CanonicalFromEntry (Entry occ) = Ok (v_signed x) /\
    candidateAuthorizedByCurrentHistory (p_event q) (v_signed x) (v_authorityEntity x) (v_authorityOperational x) = true.
Proof.
  unfold check_occurrence. destruct (parseCandidateEntry _ _) as [q|]; [|done]. cbn [mbind res_bind].
  destruct (CanonicalFromEntry _) as [b|]; [|done]. cbn [mbind res_bind]. destruct (_ || _) eqn:E; [done|].
  intros _. apply orb_false_iff in E as [E1%negb_false_iff%str_eqb_eq E2%negb_false_iff]. rewrite E1 in E2 |- *. by exists q.
Qed.

(** ** What is handed over *)
(** [m] is the standing [h] of the stream [l] that the client verified, with
    its history and its place in the log. *)
Record hands_over (c : Client) (w : call) (final : string) (m : MigrationVerificationResult) (l : list verifiedEvent) (h : standing) : Prop := {
  ho_stream : verified_stream (migration_verifier c w) l h;
  ho_alive : st_ended h = false;
  ho_entity : EntityKey m = st_entity h;
  ho_operational : ActiveOperationalKey m = st_operational h;
  ho_history : PriorHistory m = imports_of l ++ (v_event <$> l);
  ho_references : last (PriorHistoryReferences m) = Some final;
  ho_evidence : exists ev, mig_PriorEvidence m = Some ev /\ LogReference ev = ref_String (client_ref c) /\
    HistoryEnd ev = final /\ LoggedState ev = Some AgentStateActive
}.

Lemma hand_over_steps (c : Client) w domain final history checkpoint index occ (verified : list verifiedEvent) events m :
  hand_over c w domain final history checkpoint index occ verified events = Ok m ->
  exists first x entity operational state priorEvidence references,
    head verified = Some first /\ last verified = Some x /\ check_occurrence c occ x = Ok tt /\
    lifecycleStateFromVerified verified domain = Ok (entity, operational, state) /\
    state !! "status"%string = Some (VString "ACTIVE") /\
    match v_migration first with Some mig => validatedPriorEvidence (v_event first) (Some mig) | None => Ok ([], []) end
      = Ok (priorEvidence, references) /\
    m = {| EntityKey := entity; ActiveOperationalKey := operational; PriorHistory := events;
           mig_PriorEvidence := Some (migration_evidence c history checkpoint first final priorEvidence);
           PriorHistoryReferences := replace_last (references ++ ((fun item => FinalEventRef (client_ref c) (v_index item)) <$> verified)) final;
           FinalOccurrence := Some {| pe_Index := index; Entry := Entry occ; Proof_ := Proof_ occ |} |}.
Proof.
  unfold hand_over. destruct verified as [|first rest]; [done|]. destruct (last (first :: rest)) as [x|] eqn:El; [|done].
  destruct (check_occurrence c occ x) as [[]|] eqn:Eo; [|done]. cbn [mbind res_bind].
  destruct (lifecycleStateFromVerified _ _) as [[[entity operational] state]|] eqn:Es; [|done]. cbn [mbind res_bind].
  destruct (bool_decide (state !! _ = _)) eqn:Ea; cbn [negb]; [|done]. apply bool_decide_eq_true in Ea.
  destruct (match v_migration first with Some _ => _ | None => _ end) as [[pe refs]|] eqn:Ep; [|done]. cbn [mbind res_bind].
  destruct (_ <? _); [done|]. destruct (migration_json_size c _) as [size|]; [|done]. cbn [mbind res_bind].
  destruct (_ <? _); [done|]. intros [= <-]. by exists first, x, entity, operational, state, pe, refs.
Qed.

Lemma hand_over_carries c w s domain final history checkpoint index occ prefix (verified : list verifiedEvent) events m s1 :
  skipProofVerify (client_policy c) = false ->
  verifyHistoryEntries c w s domain prefix (Some checkpoint) = (Ok (verified, events), s1) ->
  hand_over c w domain final history checkpoint index occ verified events = Ok m ->
  exists h x, hands_over c w final m verified h /\ last verified = Some x /\ check_occurrence c occ x = Ok tt /\
    FinalOccurrence m = Some {| pe_Index := index; Entry := Entry occ; Proof_ := Proof_ occ |} /\
    Forall (proven_event c w domain (Some checkpoint) prefix) verified.
Proof.
  intros Hskip Hv (first & x & entity & operational & state & pe & refs & Hf & Hx & Ho & Hst & Ha & _ & ->)%hand_over_steps.
  apply verified_history_facts in Hv as ((h & Hs) & _ & -> & Hp); [|done].
  assert (Forall (of_domain domain) verified) as Hd.
  { eapply Forall_impl; [exact Hp|]. intros y. apply proven_of_domain. }
  rewrite (lifecycle_state_of_stream _ _ _ _ Hs Hd) in Hst. injection Hst as <- <- <-.
  exists h, x. split; [|done]. split; try done; [by eapply stream_active| |].
  - cbn. unfold replace_last. by rewrite last_snoc.
  - cbn. eexists. done.
Qed.

(** C16: a migration takes over exactly what the source log established. When
    [RebuildHistoryThrough] succeeds, the keys it returns are the entity key
    and the operational key in force at the end of a verified stream that has
    not ended; every event of it was proven under one verified checkpoint at
    an index not after the signed cutoff; and the entry at the cutoff carries
    the signed bytes of the last event, authorized by the keys of that event,
    with a proof of its own from a source of selected evidence. *)
Theorem cutoff_hands_over_the_standing c w s domain final m s' :
  skipProofVerify (client_policy c) = false -> RebuildHistoryThrough c w s domain final = (Ok m, s') ->
  exists ref index checkpoint note prefix l h x occ q,
    ParseFinalEventRef final = Ok (ref, index) /\ ref_String ref = ref_String (client_ref c) /\
    verifyCheckpoint (with_clock (client_policy c) (checkpoint_clock w)) (client_ref c) note = Ok checkpoint /\
    index < checkpoint_size checkpoint /\ hands_over c w final m l h /\
    Forall (fun y => v_index y <= index /\ proven_event c w domain (Some checkpoint) prefix y) l /\
    last l = Some x /\ FinalOccurrence m = Some occ /\ pe_Index occ = index /\
    parseCandidateEntry (client_ref c) (Entry occ) = Ok q /\ CanonicalFromEntry (Entry occ) = Ok (v_signed x) /\
    candidateAuthorizedByCurrentHistory (p_event q) (v_signed x) (v_authorityEntity x) (v_authorityOperational x) = true /\
    (GlobalCandidates c = false -> exists i v,
       VerifyProof (with_clock (client_policy c) (proof_clock w i)) (client_ref c) (Entry occ) (Proof_ occ) = Ok v /\
       Index v = index /\ sameCheckpoint (VCheckpoint v) (VCheckpoint checkpoint) = true).
Proof.
  intros Hskip (index & history & checkpoint & prefix & occ & l & events & s1 & Ho & Hv & Hh)%rebuild_parts.
  destruct (open_cutoff_facts _ _ _ _ _ _ _ _ _ Hskip Ho) as (ref & Hp & Hr & Hc & _ & Hi & _ & _ & _ & Hu).
  destruct (hand_over_carries _ _ _ _ _ _ _ _ _ _ _ _ _ _ Hskip Hv Hh) as (h & x & Hho & Hx & Hocc & Hfo & Hpr).
  destruct (cutoff_entries_facts _ _ _ _ _ _ Hu) as (Hin & Hidx & Hle).
  apply check_occurrence_facts in Hocc as (q & Hq & Hb & Ha).
  apply verified_history_parts in Hv as (proofs & items & prior & He & Hl & _).
  assert (FinalOccurrence m = Some occ) as Hocc by (rewrite Hfo, <- Hidx; by destruct occ).
  exists ref, index, checkpoint, (ch_Checkpoint history), prefix, l, h, x, occ, q. split_and!; try done.
  - rewrite Forall_forall in Hpr. rewrite Forall_forall in Hle. apply Forall_forall. intros y Hy. split; [|by apply Hpr].
    destruct (accepted_index _ _ _ _ _ _ _ _ _ _ Hskip He Hl Hy) as (entry & Hy1 & ->). by apply Hle.
  - intros Hg. destruct (strict_entry_verified _ _ _ _ _ _ _ _ Hskip Hg He Hin) as (i & v & Hv1 & Hv2 & Hv3).
    exists i, v. split; [done|]. split; [congruence|]. by apply Hv3.
Qed.

(** What [RebuildHistoryThrough] verified when it hands over [m]: the complete
    history that the source has of the domain, under its checkpoint; the
    entries of it up to the cutoff, the occurrence there among them; and the
    stream of these entries, every event of which is proven to that checkpoint,
    with the signed bytes of the occurrence at its end. *)
Record through_cutoff (c : Client) (w : call) (s : option checkpoints) (domain final : string) (m : MigrationVerificationResult)
    (history : CompleteHistoryResult) (checkpoint : VerifiedProof) (index : Z) (prefix : list ProvenEntry) (occ : ProvenEntry)
    (l : list verifiedEvent) (h : standing) : Prop := {
  tc_final : exists ref, ParseFinalEventRef final = Ok (ref, index) /\ ref_String ref = ref_String (client_ref c);
  tc_source : exists read, source_RebuildCompleteHistory c = Some read /\ read domain = Ok history;
  tc_checkpoint : verifyCheckpoint (with_clock (client_policy c) (checkpoint_clock w)) (client_ref c) (ch_Checkpoint history) = Ok checkpoint;
  tc_size : checkpoint_size checkpoint = ch_CompleteThrough history /\ index < checkpoint_size checkpoint;
  tc_prefix : forall entry, entry ∈ prefix <-> entry ∈ Entries history /\ pe_Index entry <= index \/ entry = occ;
  tc_occurrence : pe_Index occ = index;
  tc_verified : exists s1, verifyHistoryEntries c w s domain prefix (Some checkpoint) = (Ok (l, PriorHistory m), s1);
  tc_hands_over : hands_over c w final m l h;
  tc_proven : Forall (fun y => v_index y <= index /\ proven_event c w domain (Some checkpoint) prefix y) l;
  tc_last : exists x q, last l = Some x /\ FinalOccurrence m = Some occ /\ parseCandidateEntry (client_ref c) (Entry occ) = Ok q /\
    CanonicalFromEntry (Entry occ) = Ok (v_signed x) /\
    candidateAuthorizedByCurrentHistory (p_event q) (v_signed x) (v_authorityEntity x) (v_authorityOperational x) = true
}.

Lemma cutoff_prefix (c : Client) index final entries prefix occ entry :
  cutoff_entries c index final entries = Ok (prefix, occ) ->
  entry ∈ prefix <-> entry ∈ entries /\ pe_Index entry <= index \/ entry = occ.
Proof.
  assert (forall e, e ∈ List.filter (fun entry => pe_Index entry <=? index) entries <-> e ∈ entries /\ pe_Index e <= index) as Hf.
  { intros e. by rewrite list_elem_of_In, filter_In, <- list_elem_of_In, Z.leb_le. }
  unfold cutoff_entries. destruct (last (List.filter _ entries)) as [o|] eqn:El.
  - intros [= <- <-]. rewrite Hf. split; [by left|]. intros [H | ->]; [done|].
    apply last_Some_elem_of, list_elem_of_In, filter_In in El as [Hin%list_elem_of_In Hi%Z.eqb_eq]. split; [done|lia].
  - destruct (source_ReadEvent c final) as [o|]; [|done]. cbn [mbind res_bind]. destruct (negb _); [done|].
    intros [= <- <-]. by rewrite elem_of_app, Hf, list_elem_of_singleton.
Qed.

Lemma rebuild_through c w s domain final m s' :
  skipProofVerify (client_policy c) = false -> RebuildHistoryThrough c w s domain final = (Ok m, s') ->
  exists history checkpoint index prefix occ l h, through_cutoff c w s domain final m history checkpoint index prefix occ l h.
Proof.
  intros Hskip (index & history & checkpoint & prefix & occ & l & events & s1 & Ho & Hv & Hh)%rebuild_parts.
  destruct (open_cutoff_facts _ _ _ _ _ _ _ _ _ Hskip Ho) as (ref & Hp & Hr & Hc & Hsz & Hi & _ & _ & _ & Hu).
  destruct (hand_over_carries _ _ _ _ _ _ _ _ _ _ _ _ _ _ Hskip Hv Hh) as (h & x & Hho & Hx & Hocc & Hfo & Hpr).
  destruct (cutoff_entries_facts _ _ _ _ _ _ Hu) as (_ & Hidx & Hle). apply check_occurrence_facts in Hocc as (q & Hq & Hb & Ha).
  assert (events = PriorHistory m) as ->.
  { by apply hand_over_steps in Hh as (? & ? & ? & ? & ? & ? & ? & _ & _ & _ & _ & _ & _ & ->). }
  pose proof Hv as Hv'. apply verified_history_parts in Hv as (proofs & items & prior & He & Hl & _).
  exists history, checkpoint, index, prefix, occ, l, h. split; try done; [by exists ref| |..].
  - unfold open_cutoff in Ho. destruct (ParseFinalEventRef final) as [[? ?]|]; [|done]. cbn [mbind res_bind] in Ho.
    destruct (negb _); [done|]. destruct (source_RebuildCompleteHistory c) as [read|]; [|done]. exists read.
    destruct (read domain) as [hist|] eqn:Erd; [|done]. destruct (validateHistorySize _); [|done]. cbn [mbind res_bind] in Ho.
    destruct (verifyCompleteCheckpoint c w hist); [|done]. cbn [mbind res_bind] in Ho. destruct (_ <=? _); [done|].
    destruct (cutoff_entries _ _ _ _) as [[? ?]|]; [|done]. by injection Ho as _ -> _ _ _.
  - intros entry. by apply (cutoff_prefix c index final).
  - by exists s1.
  - rewrite Forall_forall in Hpr. rewrite Forall_forall in Hle. apply Forall_forall. intros y Hy. split; [|by apply Hpr].
    destruct (accepted_index _ _ _ _ _ _ _ _ _ _ Hskip He Hl Hy) as (entry & Hy1 & ->). by apply Hle.
  - exists x, q. split_and!; try done. rewrite Hfo, <- Hidx. by destruct occ.
Qed.

(** ** The destination *)
(** C15: the destination continues the source. When a client whose migration
    verifier asks the client [c] of the log left behind accepts a stream that
    begins with a MIGRATION, then [c] has rebuilt, at that very reference, what
    its genesis carries and the destination imports: a living stream of the
    same domain, of the entries of the complete history of its source up to the
    index the MIGRATION names, each proven to one verified checkpoint, with the
    signed bytes of the entry at that index at its end. The MIGRATION is signed
    by the entity key of that stream and not older than any of its events, and
    the destination goes on with the same entity key and the operational key
    last in force. *)
Theorem destination_continues_its_source c wc sc d w ctx items cur l prior g :
  skipProofVerify (client_policy c) = false -> verifyMigration d = Some (migrates_from c wc sc) ->
  verifyLifecycleVerifiedWithMigration ctx items (migration_verifier d w) cur = Ok (l, prior) ->
  head l = Some g -> Type_ (v_event g) = LogEventMigration ->
  let domain := Lifecycle.Domain (v_event g) in
  let final := FinalEntryRef (v_event g) in
  exists p limits m s' history checkpoint index prefix occ ls hs,
    enterMigration (path w) (v_event g) (ref_String (client_ref d)) (migrationLimits d) = Ok (p, limits) /\
    RebuildHistoryThrough c (wc p) sc domain final = (Ok m, s') /\ v_migration g = Some m /\ prior = PriorHistory m /\
    through_cutoff c (wc p) sc domain final m history checkpoint index prefix occ ls hs /\
    Forall (fun y => Lifecycle.Domain (v_event y) = domain /\ Timestamp (v_event y) <= Timestamp (v_event g)) ls /\
    signed_by (st_entity hs) (InitialEntityKid (v_event g)) (InitialEntitySignature (v_event g)) (v_signed g) = true /\
    authority g = (st_entity hs, st_operational hs).
Proof.
  cbv zeta. intros Hskip Hd Hr Hg Hty. pose proof (replay_prior _ _ _ _ _ _ Hr) as Hprior.
  apply replay_outputs in Hr as [(h & Hs) _]. unfold migration_verifier in Hs. rewrite Hd in Hs.
  destruct (stream_from_migration _ _ _ _ Hs Hg Hty) as (e & m & et & ot & Hf & Hm & Hev & Hval & Hsig & Hau).
  unfold verifyBoundedMigration in Hf. destruct (enterMigration _ _ _ _) as [[p lim]|] eqn:Een; [|done]. cbn [mbind res_bind] in Hf.
  destruct (migrates_from c wc sc p e) as [m'|] eqn:Em; [|done]. cbn [mbind res_bind] in Hf.
  destruct (validateMigrationResources _ _ _ _); [|done]. injection Hf as ->. unfold migrates_from in Em.
  destruct (RebuildHistoryThrough c (wc p) sc (Lifecycle.Domain e) (FinalEntryRef e)) as [r s'] eqn:Er. cbn [fst] in Em. subst r.
  destruct (rebuild_through _ _ _ _ _ _ _ Hskip Er) as (history & checkpoint & index & prefix & occ & ls & hs & Htc).
  pose proof (tc_hands_over _ _ _ _ _ _ _ _ _ _ _ _ _ Htc) as Hho. pose proof (tc_proven _ _ _ _ _ _ _ _ _ _ _ _ _ Htc) as Hpr.
  pose proof (ho_entity _ _ _ _ _ _ Hho) as E1. pose proof (ho_operational _ _ _ _ _ _ Hho) as E2.
  exists p, lim, m, s', history, checkpoint, index, prefix, occ, ls, hs. rewrite <- E1, <- E2. split_and!; try done; try by rewrite Hev.
  - destruct l as [|g' l]; [done|]. injection Hg as ->. rewrite Hprior. cbn. unfold type_eqb. by rewrite Hty, Hm, bool_decide_true.
  - rewrite Forall_forall in Hpr. apply Forall_forall. intros y Hy. destruct (Hpr y Hy) as [_ [Hdo _]%proven_of_domain].
    rewrite Hev. cbn in Hdo |- *. split; [exact Hdo|]. apply (migration_after_history e m); [done|].
    rewrite (ho_history _ _ _ _ _ _ Hho). apply elem_of_app. right. by apply list_elem_of_fmap_2.
Qed.

(** ** What the destination asks of the result *)
Definition issued (l : list verifiedEvent) : Prop := exists g rest, l = g :: rest /\ Type_ (v_event g) = LogEventIssuance.

Lemma issued_stream (verify : verifier) l h : verified_stream verify l h -> issued l -> verified_stream None l h.
Proof.
  induction 1 as [x et|x e f m et ot Ev Hf Hm Hx Hty|l h x h' Hs IH]; intros (g & rest & E & Hg).
  - by eapply stream_issuance.
  - injection E as -> _. rewrite Hx in Hg. cbn in Hg. congruence.
  - destruct l as [|y l]; [by inversion Hs; destruct l|]. injection E as -> _. eapply stream_next; try done. apply IH. by exists g, l.
Qed.
Lemma issued_types l h : verified_stream (None : verifier) l h ->
  exists g rest, l = g :: rest /\ Type_ (v_event g) = LogEventIssuance /\
    Forall (fun x => Type_ (v_event x) <> LogEventIssuance /\ Type_ (v_event x) <> LogEventMigration) rest.
Proof.
  induction 1 as [x et Hty|x e f m et ot E|l h x h' Hs IH _ _ _ _ _ _ _ Heff].
  - by exists x, [].
  - congruence.
  - destruct IH as (g & rest & -> & Hg & Hr). exists g, (rest ++ [x]). split_and!; try done. apply Forall_app. split; [done|].
    constructor; [|done]. destruct Heff as [? ? Ety|? Ety|? Ety|Ety]; rewrite Ety; done.
Qed.
Lemma issued_keys d l h : verified_stream (None : verifier) l h -> Forall (of_domain d) l ->
  exists et, keyThumbprint (st_entity h) = Ok et /\ keyThumbprint (st_operational h) = Ok (st_thumb h) /\ st_thumb h <> et.
Proof.
  induction 1 as [x et Hty _ _ _ _ Het _ Hth Hne|x e f m et ot E|l h x h' Hs IH _ _ _ _ _ _ _ Heff]; [|congruence|]; intros Hd.
  - apply Forall_cons in Hd as [[_ Hk] _]. exists et. cbn. split_and!; auto.
  - apply Forall_app in Hd as [Hd _]. destruct (IH Hd) as (et & He & Ho & Hne).
    destruct Heff as [et' t _ _ Hk _ _ _ Het Hte| | |]; cbn; [exists et'|exists et..]; done.
Qed.

Lemma latest_time_le (l : list LogEvent) t : l <> [] -> (forall e, e ∈ l -> Timestamp e <= t) -> latest_time l <= t.
Proof.
  destruct l as [|z rest]; [done|]. intros _ H. cbn. assert (Timestamp z <= t) as Hz by (apply H; left).
  assert (forall e, e ∈ rest -> Timestamp e <= t) as Hr by (intros e He; apply H; by right). revert Hz Hr. generalize (Timestamp z). clear.
  induction rest as [|x rest IH]; intros a Ha Hr; [done|]. cbn [fold_left]. apply IH; [|intros e He; apply Hr; by right].
  destruct (after _ _); [apply Hr; left|done].
Qed.

Section taken.
Context (domain : string) (l : list verifiedEvent) (h : standing) (m : MigrationVerificationResult) (e : LogEvent).
Context (Hne : thumbprints_nonempty) (Hs : verified_stream (None : verifier) l h) (Hd : Forall (of_domain domain) l) (Hend : st_ended h = false).
Context (Hek : EntityKey m = st_entity h) (Hop : ActiveOperationalKey m = st_operational h) (Hph : PriorHistory m = v_event <$> l).
Context (Hdom : Lifecycle.Domain e = domain) (Htime : forall y, y ∈ PriorHistory m -> Timestamp y <= Timestamp e).

Lemma migration_result_taken : validateMigrationResult e m = Ok tt.
Proof.
  destruct (issued_keys _ _ _ Hs Hd) as (et & Het & Hot & Hdiff). destruct (issued_types _ _ Hs) as (g & rest & El & Hg & Hrest).
  assert (PriorHistory m <> []) as Hn by (rewrite Hph, El; done).
  unfold validateMigrationResult. rewrite Hek, Hop, Het, Hot.
  destruct (st_entity h) as [ek|] eqn:E1; [|done]. destruct (st_operational h) as [ok|] eqn:E2; [|done]. cbn [is_nil orb].
  rewrite bool_decide_eq_false_2 by done. rewrite (proj2 (str_eqb_neq _ _)) by congruence.
  assert (existsb (fun prior => type_eqb (Type_ prior) LogEventMigration && str_eqb (PreviousLog prior) (PreviousLog e) &&
     str_eqb (NewLog prior) (NewLog e) && str_eqb (FinalEntryRef prior) (FinalEntryRef e)) (PriorHistory m) = false) as ->.
  { apply not_true_iff_false. intros (y & Hy & Ht)%existsb_exists. rewrite !andb_true_iff in Ht. destruct Ht as [[[Ht _] _] _].
    unfold type_eqb in Ht. apply bool_decide_eq_true in Ht. rewrite Hph, El in Hy. apply list_elem_of_In, list_elem_of_fmap in Hy as (x & -> & Hx).
    apply elem_of_cons in Hx as [->|Hx]; [congruence|]. rewrite Forall_forall in Hrest. by destruct (Hrest x Hx). }
  assert (before (Timestamp e) (latest_time (PriorHistory m)) = false) as ->.
  { unfold before. apply Z.ltb_ge. by apply latest_time_le. }
  destruct (snapshot_of_stream domain l h (latest_time (PriorHistory m)) Hne Hs Hd) as (s & st & Hsn & -> & Hst).
  { destruct (stream_last_event _ _ _ Hs) as (x & Hx & ->). apply latest_time_in. rewrite Hph. by apply list_elem_of_fmap_2. }
  rewrite Hdom, Hph in *. rewrite Hsn. destruct st as [|k t since gi|how k t since gi]; [done| |destruct Hst; congruence].
  destruct Hst as (_ & _ & Ht & _). cbn. rewrite Ht, str_eqb_refl. cbn [negb].
  assert (List.find (fun prior => type_eqb (Type_ prior) LogEventIssuance) (v_event <$> l) = Some (v_event g)) as ->.
  { rewrite El. cbn. unfold type_eqb. by rewrite bool_decide_eq_true_2. }
  destruct (stream_state _ _ _ _ Hs Hd) as (first & rest' & et' & okt & El' & Hent & _).
  rewrite El in El'. injection El' as <- <-. rewrite <- Hent, E1, Het, str_eqb_refl. done.
Qed.
End taken.

(** ** The evidence *)
Lemma format_uint_nonempty n : format_uint n <> EmptyString.
Proof.
  intros E. pose proof (parse_format_uint (N.size n) n (N.size_gt n)) as H. rewrite E in H. discriminate H.
Qed.
Lemma final_ref_nonempty r i : FinalEventRef r i <> EmptyString.
Proof. unfold FinalEventRef. destruct (ref_String r); done. Qed.

Lemma stitched_plain all n prev (history : list LogEvent) references :
  Forall (fun e => Type_ e <> LogEventMigration) history -> List.length references = List.length history ->
  Forall (fun r => r <> EmptyString) references -> stitched all n prev history references = Ok tt.
Proof.
  intros Hh. revert prev references. induction Hh as [|e history He Hh IH]; intros prev references Hl Hr; [done|].
  destruct references as [|r references]; [done|]. apply Forall_cons in Hr as [Hr1 Hr]. cbn [stitched].
  rewrite (proj2 (is_empty_false r) Hr1). unfold type_eqb. rewrite bool_decide_eq_false_2 by done. cbn [negb mbind res_bind].
  apply IH; [by injection Hl|done].
Qed.
Lemma filter_none {A} (f : A -> bool) l : Forall (fun x => f x = false) l -> List.filter f l = [].
Proof. induction 1 as [|x l Hx Hl IH]; [done|]. cbn. by rewrite Hx. Qed.

Lemma replace_last_cons x (l : list string) r : l <> [] -> replace_last (x :: l) r = x :: replace_last l r.
Proof. unfold replace_last. by destruct l. Qed.
Lemma replace_last_length (l : list string) r : l <> [] -> List.length (replace_last l r) = List.length l.
Proof.
  induction l as [|x [|y l] IH]; [done|done|]. intros _. rewrite replace_last_cons by done. cbn [List.length]. f_equal. by apply IH.
Qed.
Lemma replace_last_Forall (P : string -> Prop) l r : Forall P l -> P r -> Forall P (replace_last l r).
Proof.
  intros Hl Hr. unfold replace_last. apply Forall_app. split; [|by constructor].
  clear Hr. induction Hl as [|x [|y l] Hx Hl IH]; [done|done|]. cbn [removelast]. by constructor.
Qed.

(** The evidence of one log is accepted exactly when its two ends agree with
    the references of the events. *)
Lemma evidence_taken (c : Client) history checkpoint (first : verifiedEvent) rest final (m : MigrationVerificationResult) e :
  let refs := replace_last ((fun item => FinalEventRef (client_ref c) (v_index item)) <$> first :: rest) final in
  let ev := migration_evidence c history checkpoint first final [] in
  mig_PriorEvidence m = Some ev -> PriorHistoryReferences m = refs -> PriorHistory m = v_event <$> first :: rest ->
  Forall (fun x : verifiedEvent => Type_ (v_event x) <> LogEventMigration) (first :: rest) ->
  PreviousLog e = ref_String (client_ref c) -> FinalEntryRef e = final -> final <> EmptyString -> ref_String (client_ref c) <> EmptyString ->
  ch_CompletenessMode history <> EmptyString -> ch_Checkpoint history <> EmptyString -> CheckpointFreshnessTime checkpoint <> 0 ->
  if negb (bool_decide (rest = [])) || str_eqb (FinalEventRef (client_ref c) (v_index first)) final
  then validatedPriorEvidence e (Some m) = Ok ([ev], refs)
  else validatedPriorEvidence e (Some m) = Err (missing_evidence "dnsid: c2sp-tlog prior evidence does not start at the verified history genesis").
Proof.
  intros refs ev Hev Hrefs Hph Hty Hpl Hfe Hfin Hlr Hmode Hcp Hfr.
  assert (List.length refs = List.length (v_event <$> first :: rest)) as Hlen by (subst refs; rewrite replace_last_length by done; by rewrite !length_fmap).
  assert (last refs = Some final) as Hlast by (subst refs; unfold replace_last; by rewrite last_snoc).
  assert (refs <> []) as Hnil by (intros E; by rewrite E in Hlen).
  assert (Forall (fun r => r <> EmptyString) refs) as Hne.
  { apply replace_last_Forall; [|done]. apply Forall_fmap, Forall_true. intros x. apply final_ref_nonempty. }
  assert (Forall (fun x => Type_ x <> LogEventMigration) (v_event <$> first :: rest)) as Hty' by by apply Forall_fmap.
  assert (bool_decide (Some (FinalEventRef (client_ref c) (v_index first)) = head refs)
    = negb (bool_decide (rest = [])) || str_eqb (FinalEventRef (client_ref c) (v_index first)) final) as Hhead.
  { subst refs. destruct rest as [|y rest]; cbn [fmap list_fmap].
    - rewrite (bool_decide_eq_true_2 ([] = [])) by done. cbn. destruct (str_eqb _ final) eqn:E.
      + apply str_eqb_eq in E as ->. by apply bool_decide_eq_true_2.
      + apply bool_decide_eq_false_2. intros [= E']. by rewrite E', str_eqb_refl in E.
    - rewrite replace_last_cons by done. by rewrite bool_decide_eq_true_2. }
  unfold validatedPriorEvidence. rewrite Hev, Hrefs, Hph, (bool_decide_eq_false_2 (refs = [])), Hlen, Nat.eqb_refl, Hfe by done.
  rewrite (bool_decide_eq_true_2 (last refs = _)) by done. cbn [negb orb mbind res_bind]. subst ev. cbn [LogReference migration_evidence HistoryEnd PriorEvidence app HistoryStart head fmap option_fmap option_map].
  rewrite Hpl, !str_eqb_refl. cbn [negb orb mbind res_bind]. rewrite Hhead.
  destruct (negb (bool_decide (rest = [])) || _); [|done]. cbn [negb mbind res_bind].
  rewrite filter_none. 2:{ eapply Forall_impl; [exact Hty'|]. intros x Hx. unfold type_eqb. by apply bool_decide_eq_false_2. }
  cbn [List.length Nat.eqb negb mbind res_bind]. rewrite stitched_plain by done. cbn [mbind res_bind check_prior].
  cbn [LogReference HistoryStart HistoryEnd CompleteThrough CompletenessMode ev_Checkpoint FreshnessTime LoggedState].
  rewrite !(proj2 (is_empty_false _)) by (try done; apply format_uint_nonempty || apply final_ref_nonempty).
  unfold time_is_zero. rewrite (proj2 (Z.eqb_neq _ _)) by done. rewrite (bool_decide_eq_true_2 (_ = _)) by done.
  rewrite bool_decide_eq_false_2 by set_solver. done.
Qed.

(** ** Only a MIGRATION carries an imported history *)
Definition imports_only (x : verifiedEvent) : Prop := v_migration x = None \/ Type_ (v_event x) = LogEventMigration.

Lemma replay_item_imports cur (verify : verifier) s item s' :
  Forall imports_only (out s) -> v_migration item = None -> replay_item cur verify s item = Ok s' -> Forall imports_only (out s').
Proof.
  intros Hs Hi. assert (forall x, v_migration x = None -> Forall imports_only (out s ++ [x])) as Hsnoc.
  { intros x Hx. apply Forall_app. split; [done|]. constructor; [by left|done]. }
  unfold replay_item. destruct (is_empty (v_signed item)); [by intros [= <-]|].
  destruct (seen (note_authority s) !! _); [destruct (negb _); [done|by intros [= <-]]|].
  destruct (started (note_authority s)).
  - destruct (authority_for (note_authority s) item) as [ek ok]. destruct (negb _); [by intros [= <-]|].
    destruct (check_candidate _ _); [|done]. cbn [mbind res_bind]. intros [H|H]%transition_out; rewrite H; [done|by apply Hsnoc].
  - destruct (Type_ (v_event item)) eqn:Ety; try (by intros [= <-]).
    + unfold issuance_genesis. intros H. go_inv; try done; by apply Hsnoc.
    + unfold migration_genesis. destruct verify as [f|]; [|by intros [= <-]].
      destruct (_ || _); [by intros [= <-]|]. destruct (negb (migration_reference_ok _)); [by intros [= <-]|].
      destruct (f (v_event item)) as [m|]; [|done]. destruct (EntityKey m) as [ek|]; [|done].
      destruct (is_empty _ || _ || _); [by intros [= <-]|].
      destruct (validateMigrationResult _ _); [|done]. unfold mbind, res_bind. destruct (v_parseError item); [done|].
      destruct (validGenesisChain _); cbn [negb]; [|done]. intros [= <-]. apply Forall_app. split; [done|]. constructor; [by right|done].
Qed.
Lemma replay_loop_imports ctx n cur (verify : verifier) s items s' :
  Forall imports_only (out s) -> Forall (fun x => v_migration x = None) items -> replay_loop ctx n cur verify s items = Ok s' ->
  Forall imports_only (out s').
Proof.
  intros Hs Hi. revert n s Hs. induction Hi as [|x items Hx Hi IH]; intros n s Hs; cbn [replay_loop].
  - destruct (_ && _); [done|]. by intros [= <-].
  - destruct (ctx n); [done|]. destruct (replay_item cur verify s x) as [s1|] eqn:E; [|done]. cbn [mbind res_bind]. apply IH.
    by eapply replay_item_imports.
Qed.

Lemma verified_imports c w s domain entries required accepted events s' :
  verifyHistoryEntries c w s domain entries required = (Ok (accepted, events), s') -> Forall imports_only accepted.
Proof.
  intros (proofs & verified & prior & He & Hl & _)%verified_history_parts. unfold verifyLifecycleVerifiedWithMigration in Hl.
  destruct (replay_loop _ _ _ _ _ _) as [st|] eqn:E; [|done]. cbn [mbind res_bind] in Hl.
  destruct (bool_decide _); [by destruct (sawMigration st)|]. injection Hl as <- _.
  eapply (replay_loop_imports _ _ _ _ replay_start); [done| |exact E]. apply Forall_forall. intros x Hx. rewrite sort_by_perm in Hx.
  destruct (proj1 (verify_entries_items _ _ _ _ _ _ _ _ He) x Hx) as (j & entry & p & _ & Ee). unfold verify_entry in Ee.
  destruct (VerifyProof _ _ _ _) as [v|]; [|by destruct (_ || _)]. destruct (match required with Some _ => _ | None => _ end); [done|].
  destruct (negb _); [done|]. destruct (verify_payload _ _ _ _) as [o|] eqn:Ep; [|done]. cbn [mbind res_bind] in Ee. injection Ee as _ ->.
  unfold verify_payload in Ep. go_inv; done.
Qed.
(** Without a MIGRATION nothing is imported. *)
Definition imported (s : replay (key:=key)) : Prop :=
  priorHistory s = [] \/ exists x, x ∈ out s /\ Type_ (v_event x) = LogEventMigration.

Lemma transition_prior (s : replay (key:=key)) item id canonical s' : transition s item id canonical = Ok s' -> priorHistory s' = priorHistory s.
Proof. unfold transition. destruct (Type_ (v_event item)); intros H; go_inv; done. Qed.
Lemma replay_item_imported cur (verify : verifier) s item s' : imported s -> replay_item cur verify s item = Ok s' -> imported s'.
Proof.
  intros Hs H. pose proof (replay_item_out _ _ _ _ _ H) as Hout.
  assert (priorHistory s' = priorHistory s -> imported s') as Hkeep.
  { intros E. destruct Hs as [Hs|(x & Hx & Ht)]; [left; congruence|right]. exists x. split; [|done].
    destruct Hout as [-> |(y & -> & _)]; [done|]. apply elem_of_app. by left. }
  unfold replay_item in H. destruct (is_empty (v_signed item)); [injection H as <-; by apply Hkeep|].
  destruct (seen (note_authority s) !! _); [destruct (negb _); [done|injection H as <-; by apply Hkeep]|].
  destruct (started (note_authority s)).
  - destruct (authority_for (note_authority s) item) as [ek ok]. destruct (negb _); [injection H as <-; by apply Hkeep|].
    destruct (check_candidate _ _); [|done]. cbn [mbind res_bind] in H. apply transition_prior in H. by apply Hkeep.
  - destruct (Type_ (v_event item)) eqn:Ety; try (injection H as <-; by apply Hkeep).
    + unfold issuance_genesis in H. apply Hkeep. go_inv; done.
    + unfold migration_genesis in H. destruct verify as [f|]; [|injection H as <-; by apply Hkeep].
      destruct (_ || _) in H; [injection H as <-; by apply Hkeep|].
      destruct (negb (migration_reference_ok _)) in H; [injection H as <-; by apply Hkeep|].
      destruct (f (v_event item)) as [m|]; [|done]. destruct (EntityKey m) as [ek|]; [|done].
      destruct (is_empty _ || _ || _) in H; [injection H as <-; by apply Hkeep|].
      destruct (validateMigrationResult _ _); [|done]. unfold mbind, res_bind in H. destruct (v_parseError item); [done|].
      destruct (validGenesisChain _); cbn [negb] in H; [|done]. injection H as <-. right. eexists. split; [apply elem_of_app; right; left|exact Ety].
Qed.
Lemma replay_loop_imported ctx n cur (verify : verifier) s items s' :
  imported s -> replay_loop ctx n cur verify s items = Ok s' -> imported s'.
Proof.
  revert n s. induction items as [|x items IH]; intros n s Hs; cbn [replay_loop].
  - destruct (_ && _); [done|]. by intros [= <-].
  - destruct (ctx n); [done|]. destruct (replay_item cur verify s x) as [s1|] eqn:E; [|done]. cbn [mbind res_bind]. apply IH.
    by eapply replay_item_imported.
Qed.

(** A history without a MIGRATION is a stream from its ISSUANCE. *)
Lemma history_issued c w s domain entries required (accepted : list verifiedEvent) events s' :
  verifyHistoryEntries c w s domain entries required = (Ok (accepted, events), s') ->
  Forall (fun e => Type_ e <> LogEventMigration) events ->
  events = v_event <$> accepted /\ exists h, verified_stream (None : verifier) accepted h /\ verified_stream (migration_verifier c w) accepted h.
Proof.
  intros (proofs & items & prior & He & Hl & ->)%verified_history_parts [_ Hty]%Forall_app. rewrite Forall_fmap, Forall_forall in Hty.
  destruct (replay_outputs _ _ _ _ _ _ Hl) as [(h & Hs) _]. assert (prior = []) as ->.
  { unfold verifyLifecycleVerifiedWithMigration in Hl. destruct (replay_loop _ _ _ _ _ _) as [st|] eqn:E; [|done].
    cbn [mbind res_bind] in Hl. destruct (bool_decide _); [by destruct (sawMigration st)|]. injection Hl as <- <-.
    destruct (replay_loop_imported _ _ _ _ replay_start _ _ (or_introl eq_refl) E) as [|(x & Hx & Ht)]; [done|]. by apply Hty in Hx. }
  split; [done|]. exists h. split; [|done]. apply (issued_stream _ _ _ Hs). clear Hl He.
  induction Hs as [x et Ht|x e f m et ot _ _ _ Hx Ht|l h x h' Hs IH].
  - by exists x, [].
  - exfalso. apply (Hty x); [left|]. cbn. by rewrite Hx.
  - destruct IH as (g & rest & -> & Hg); [intros y Hy; apply Hty, elem_of_app; by left|]. by exists g, (rest ++ [x]).
Qed.

(** C40: what a source's client hands over, the destination takes. For a first
    migration, the imported history passes every check of the replay of a
    MIGRATION that names this log and this cutoff and is not older; and its
    evidence passes the checks of a non-revocation answer, unless the history
    is the ISSUANCE alone and the cutoff a later copy of it: then its two ends
    name two places for one event, and every such answer fails. *)
Theorem handed_over_is_taken c w s domain final m s' e :
  thumbprints_nonempty -> skipProofVerify (client_policy c) = false -> ref_Validate (client_ref c) = Ok tt ->
  RebuildHistoryThrough c w s domain final = (Ok m, s') ->
  Forall (fun y => Type_ y <> LogEventMigration) (PriorHistory m) ->
  Lifecycle.Domain e = domain -> PreviousLog e = ref_String (client_ref c) -> FinalEntryRef e = final ->
  (forall y, y ∈ PriorHistory m -> Timestamp y <= Timestamp e) ->
  validateMigrationResult e m = Ok tt /\
  exists ev, mig_PriorEvidence m = Some ev /\
    if (1 <? Z.of_nat (List.length (PriorHistory m))) || str_eqb (HistoryStart ev) final
    then validatedPriorEvidence e (Some m) = Ok ([ev], PriorHistoryReferences m)
    else validatedPriorEvidence e (Some m) = Err (missing_evidence "dnsid: c2sp-tlog prior evidence does not start at the verified history genesis").
Proof.
  intros Hne Hskip Href (index & history & checkpoint & prefix & occ & l & events & s1 & Ho & Hv & Hh)%rebuild_parts Hty Hd Hpl Hfe Ht.
  destruct (open_cutoff_facts _ _ _ _ _ _ _ _ _ Hskip Ho) as (ref & Hp & Hr & _ & _ & _ & Hfr & Hcp & Hmode & _).
  destruct (hand_over_carries _ _ _ _ _ _ _ _ _ _ _ _ _ _ Hskip Hv Hh) as (h' & _ & _ & _ & _ & _ & Hpr).
  apply hand_over_steps in Hh as (first & x & entity & operational & state & pe & refs & Hf & _ & _ & Hst & Ha & Hpe & ->). cbn in Hty, Ht.
  cbn [mig_PriorEvidence PriorHistory PriorHistoryReferences].
  destruct (history_issued _ _ _ _ _ _ _ _ _ Hv Hty) as (-> & h & Hs & Hs').
  assert (Forall (of_domain domain) l) as Hdom.
  { eapply Forall_impl; [exact Hpr|]. intros y. apply proven_of_domain. }
  rewrite (lifecycle_state_of_stream _ _ _ _ Hs Hdom) in Hst. injection Hst as <- <- <-.
  split; [apply (migration_result_taken domain l h); try done; by eapply stream_active|].
  destruct l as [|g rest]; [done|]. injection Hf as ->. apply verified_imports, Forall_cons in Hv as [[Hg|Hg] _].
  2:{ exfalso. apply Forall_cons in Hty as [Hty _]. done. }
  rewrite Hg in Hpe. injection Hpe as <- <-. eexists. split; [reflexivity|].
  assert (final <> EmptyString) as Hfin. { intros E. rewrite E in Hp. by vm_compute in Hp. }
  assert (ref_String (client_ref c) <> EmptyString) as Hlr by done. rewrite Forall_fmap in Hty.
  match goal with |- context [validatedPriorEvidence e (Some ?r)] =>
    pose proof (evidence_taken c history checkpoint first rest final r e eq_refl eq_refl eq_refl Hty Hpl Hfe Hfin Hlr Hmode Hcp Hfr) as H end.
  cbn [HistoryStart migration_evidence]. replace (1 <? _) with (negb (bool_decide (rest = []))); [exact H|].
  cbn. rewrite length_fmap. destruct rest; [done|]. rewrite bool_decide_eq_false_2 by done. symmetry. apply Z.ltb_lt. cbn. lia.
Qed.
End migration.
