(* ===== verification/MigrationDemo.v ===== *)
(** * MigrationDemo: one migration between two logs

    The log of ClientDemo.v is left behind after its second entry: a MIGRATION
    in another log names that entry. The log itself goes on with a retirement,
    which the cutoff leaves out. *)

From Stdlib Require Import ZArith Lia Ascii String.
From S2P Require Import Prelude Codec Utf8 Numbers Jcs JcsSpec Keys Fqdn Lifecycle LogReader Merkle Evidence Reference Policy Checkpoint Scan Event EventSpec Replay ReplaySpec AppendSpec Client Reader ReaderSpec Demo ClientDemo Migration MigrationSpec.

Open Scope Z_scope.
#[local] Existing Instance log_notes.
#[local] Existing Instance rfc6962_tlog.
#[local] Existing Instance demo_lib.

Definition new_log : Reference := {| Scope := "public"; LogPrefix := "https://new.example"; StreamID := "t" |}.
Definition cutoff : string := Eval vm_compute in FinalEventRef demo_ref 1.

(** The source's client, as one over selected evidence. *)
Definition old_client : Client (key:=demo_key) :=
  let c := log_client 3 in
  {| client_ref := demo_ref; client_policy := log_policy; store_configured := false; verifyMigration := None;
     migrationLimits := migrationLimits c; trustedScope := ""; trustedLogPrefix := ""; preloaded := None; source_configured := true;
     source_ReadEvent := source_ReadEvent c; source_RebuildHistory := source_RebuildHistory c;
     source_RebuildCompleteHistory := source_RebuildCompleteHistory c; GlobalCandidates := false; migration_json_size _ := Ok 0 |}.
Definition old_call : call := log_call log_at.
(** Its client at the destination. *)
Definition new_client : Client (key:=demo_key) :=
  {| client_ref := new_log; client_policy := log_policy; store_configured := false;
     verifyMigration := Some (migrates_from old_client (fun _ => old_call) None);
     migrationLimits := defaultMigrationVerificationLimits; trustedScope := ""; trustedLogPrefix := ""; preloaded := None;
     source_configured := true; source_ReadEvent _ := Err (PlainError "unused"); source_RebuildHistory _ := Ok [];
     source_RebuildCompleteHistory := None; GlobalCandidates := false; migration_json_size _ := Ok 0 |}.

(** The MIGRATION and its entry. *)
Definition moving0 : LogEvent demo_key :=
  let e := bare_event LogEventMigration 2600 in
  {| Type_ := Type_ e; InitialEntityKid := ""; InitialEntityPublicKey := None; InitialEntityThumbprint := "";
     InitialEntitySignature := ""; InitialOperationalKid := ""; InitialOperationalPublicKey := None;
     InitialOperationalThumbprint := ""; InitialOperationalSignature := ""; PreviousOperationalKid := "";
     PreviousOperationalThumbprint := ""; PreviousOperationalSignature := ""; NewOperationalKid := "";
     NewOperationalPublicKey := None; NewOperationalThumbprint := ""; NewOperationalSignature := "";
     Lifecycle.Domain := log_domain; Timestamp := Timestamp e; GovernanceID := ""; Reason := "";
     PreviousLog := ref_String demo_ref; NewLog := ref_String new_log; FinalEntryRef := cutoff; Delegatee := "";
     Lifecycle.Scope := ""; Lifecycle.Expiry := 0 |}.
Definition moving_signed : string := Eval vm_compute in value_of "" (canonicalWithChain new_log moving0 demo_c0).
Definition moving : LogEvent demo_key := with_sigs moving0 ("ek1", demo_sig demo_entity moving_signed) no_sig no_sig no_sig.
Definition moving_entry : string := Eval vm_compute in value_of "" (entryBytesWithChain moving (Some new_log) (Some demo_c0)).
Definition moving_items : list (verifiedEvent (key:=demo_key)) := Eval vm_compute in value_of [] (check_entries new_log None 0 [moving_entry]).

(** What the source hands over, and what the destination makes of it. *)
Definition handed := Eval vm_compute in RebuildHistoryThrough old_client old_call None log_domain cutoff.
Lemma rebuilt_through : exists m, RebuildHistoryThrough old_client old_call None log_domain cutoff = (Ok m, None) /\
  Ok (A:=MigrationVerificationResult (key:=demo_key)) m = handed.1.
Proof. eexists. split; vm_compute; reflexivity. Qed.

Lemma moved : exists l prior g,
  verifyLifecycleVerifiedWithMigration never moving_items (migration_verifier new_client old_call) (ref_String new_log) = Ok (l, prior) /\
  head l = Some g /\ Type_ (v_event g) = LogEventMigration /\ FinalEntryRef (v_event g) = cutoff /\ List.length prior = 2%nat.
Proof. do 3 eexists. split; [vm_compute; reflexivity|]. split; [reflexivity|]. split; [reflexivity|]. split; reflexivity. Qed.

(** ** Witnesses *)
Lemma cutoff_hands_over_the_standing_witness : exists m l h,
  RebuildHistoryThrough old_client old_call None log_domain cutoff = (Ok m, None) /\ hands_over old_client old_call cutoff m l h.
Proof.
  destruct rebuilt_through as (m & Hm & _).
  destruct (cutoff_hands_over_the_standing old_client old_call None log_domain cutoff m None eq_refl Hm)
    as (_ & _ & _ & _ & _ & l & h & _ & _ & _ & _ & _ & _ & _ & Hho & _).
  exists m, l, h. exact (conj Hm Hho).
Defined.

Lemma destination_continues_its_source_witness : exists l prior g hs,
  verifyLifecycleVerifiedWithMigration never moving_items (migration_verifier new_client old_call) (ref_String new_log) = Ok (l, prior) /\
  head l = Some g /\ authority g = (st_entity hs, st_operational hs) /\ List.length prior = 2%nat.
Proof.
  destruct moved as (l & prior & g & Hl & Hg & Hty & Hf & Hlen).
  destruct (destination_continues_its_source old_client (fun _ => old_call) None new_client old_call never moving_items
    (ref_String new_log) l prior g eq_refl eq_refl Hl Hg Hty)
    as (_ & _ & _ & _ & _ & _ & _ & _ & _ & _ & hs & _ & _ & _ & _ & _ & _ & _ & Ha).
  exists l, prior, g, hs. exact (conj Hl (conj Hg (conj Ha Hlen))).
Defined.

Lemma handed_over_is_taken_witness : exists m ev,
  RebuildHistoryThrough old_client old_call None log_domain cutoff = (Ok m, None) /\
  validateMigrationResult moving m = Ok tt /\ validatedPriorEvidence moving (Some m) = Ok ([ev], PriorHistoryReferences m).
Proof.
  destruct rebuilt_through as (m & Hm & E).
  assert (H1 : forallb (fun y => negb (bool_decide (Type_ y = LogEventMigration)) && (Timestamp y <=? Timestamp moving)) (PriorHistory m) = true
    /\ (1 <? Z.of_nat (List.length (PriorHistory m))) = true).
  { unfold handed in E. cbn [fst] in E. injection E as ->. split; vm_compute; reflexivity. }
  destruct H1 as [H1 H2]. rewrite forallb_forall in H1.
  assert (Hty : Forall (fun y => Type_ y <> LogEventMigration) (PriorHistory m)).
  { apply Forall_forall. intros y Hy%list_elem_of_In. apply H1, andb_true_iff, proj1, negb_true_iff in Hy. by apply bool_decide_eq_false in Hy. }
  assert (Ht : forall y, y ∈ PriorHistory m -> Timestamp y <= Timestamp moving).
  { intros y Hy%list_elem_of_In. apply H1, andb_true_iff, proj2, Z.leb_le in Hy. done. }
  assert (Href : ref_Validate (client_ref old_client) = Ok tt) by (vm_compute; reflexivity).
  destruct (handed_over_is_taken old_client old_call None log_domain cutoff m None moving demo_thumbprints eq_refl Href Hm Hty eq_refl
    eq_refl eq_refl Ht) as (Hv & ev & _ & Hev).
  rewrite H2 in Hev. exists m, ev. exact (conj Hm (conj Hv Hev)).
Defined.
