(* ===== verification/Bundle.v ===== *)
(** * Bundle: verifying a stream bundle offline

    log/c2sptlog/bundle.go: [VerifyStreamBundle] takes the signed JSON bundle
    of one stream, checks its form, its signer and its policy, replays its
    entries through the client of Client.v and compares the state it claims.
    [StreamBundleSource] serves the entries to a client again, and [fs_load] with
    the methods below it is the source that fetches bundles over the network
    and may fall back to a raw scan. *)

From Stdlib Require Import ZArith Lia Ascii String.
From S2P Require Import Prelude Codec Utf8 Numbers Jcs JcsSpec Keys Fqdn Lifecycle Merkle Evidence Reference Policy Checkpoint Scan Event EventSpec Replay ReplaySpec Client Reader.

Open Scope Z_scope.

Definition StreamBundleType : string := "dnsid-c2sp-stream-bundle".
Definition StreamBundleVersion : Z := 1.
Definition StreamBundleTrustedIndex : string := "trusted-index".
Definition defaultMaxStreamBundleBytes : Z := Z.shiftl 8 20.
Definition defaultMaxStreamBundleEvents : Z := 10000.
Definition defaultMaxStreamBundleEventBytes : Z := 65535.
Definition defaultMaxStreamBundleProofHashes : Z := 64.
Definition sha256_Size : Z := 32.

(** [note.Verifier.Verify] and [formatproof.TLogProof.Marshal]. *)
Class BundleLib := {
  note_Verify : Verifier -> string -> string -> bool;
  MarshalProof : TLogProof -> string
}.

(** ** Fields *)
Definition bundle_error (msg : string) : error := PlainError (String.append "dnsid: c2sp stream bundle " msg).

Definition requireExactFields (object : payload) (fields : list string) : res unit :=
  fail_if negb (Nat.eqb (size object) (List.length fields)) with bundle_error "contains unknown or missing fields" ;;
  fail_if negb (forallb (fun field => bool_decide (is_Some (object !! field))) fields) with bundle_error "missing field" ;;
  Ok tt.
Definition bundleString (object : payload) (field : string) : res string :=
  match object !! field with Some (VString s) => Ok s | _ => Err (bundle_error "field must be a string") end.
Definition bundleObject (object : payload) (field : string) : res payload :=
  match object !! field with Some (VObject o) => Ok o | _ => Err (bundle_error "field must be an object") end.
Definition bundleUint (object : payload) (field : string) : res Z :=
  match object !! field with
  | Some (VNumber lit) =>
      match parse_int64 lit with
      | Some value =>
          fail_if (value <? 0) || (maxJSONInteger <? value) with bundle_error "field must be a non-negative integer" ;; Ok value
      | None => Err (bundle_error "field must be a non-negative integer")
      end
  | _ => Err (bundle_error "field must be an integer")
  end.
Definition decodeBundleBase64 (value : string) (minBytes maxBytes : Z) : res string :=
  match Base64.decode false value with
  | None => Err (bundle_error "must use canonical unpadded base64url")
  | Some decoded =>
      fail_if negb (str_eqb (Base64.encode decoded) value) with bundle_error "must use canonical unpadded base64url" ;;
      let n := Z.of_nat (String.length decoded) in
      fail_if (n <? minBytes) || (maxBytes <? n) with bundle_error "length is outside bounds" ;;
      Ok decoded
  end.
Definition field_base64 (object : payload) (field : string) (minBytes maxBytes : Z) : res string :=
  text ← bundleString object field; decodeBundleBase64 text minBytes maxBytes.

(** ** The accepted signer *)
(** [fmt.Sprintf("%08x", n)] of a 32-bit number. *)
Definition hex8 (n : Z) : string :=
  foldr (fun i s => String (Jcs.hex_digit (Z.land (Z.shiftr n (4 * i)) 15)) s) EmptyString [7; 6; 5; 4; 3; 2; 1; 0].
Definition verifier_id (v : Verifier) : string := String.append (VName v) (String "+" (hex8 (VKeyHash v))).

(** The loop of [acceptedBundleVerifier]: a second match is no match. *)
Fixpoint accepted_in (kid : string) (accepted : option Verifier) (verifiers : list (option Verifier)) : option Verifier :=
  match verifiers with
  | [] => accepted
  | v :: verifiers =>
      match v with
      | Some v' =>
          if str_eqb kid (verifier_id v') then
            match accepted with Some _ => None | None => accepted_in kid (Some v') verifiers end
          else accepted_in kid accepted verifiers
      | None => accepted_in kid accepted verifiers
      end
  end.

Section bundle.
Context {key : Type} `{!KeyOps key} `{!JwkText key} {N : NoteLib} {U : NetURL} {T : TLog} {I : Idna} {C : ConsistencyLib} {B : BundleLib}.
Abbreviation LogEvent := (LogEvent key).
Abbreviation MigrationVerificationResult := (MigrationVerificationResult (key:=key)).
Abbreviation Client := (Client (key:=key)).

Record StreamBundleTrust := {
  PolicyDocument : string;
  BundleVerifier : option Verifier;
  BundleVerifiers : list (option Verifier);
  MaxBundleLifetime : Z;
  trust_MaxCheckpointAge : Z;
  trust_ClockSkew : Z;
  MaxBundleBytes : Z;
  MaxEvents : Z;
  MaxTreeSize : Z;
  TrustedCheckpointStore : bool;            (* configured *)
  MigrationVerifier : option (migrationPath -> LogEvent -> res MigrationVerificationResult);
  MigrationLimits : MigrationVerificationLimits;
  trust_json_size : MigrationVerificationResult -> res Z
}.

Record StreamBundleSource := {
  bs_reference : Reference;
  bs_domain : string;
  bs_entries : list ProvenEntry;
  bs_checkpoint : string;
  bs_completeThrough : Z;
  bs_completenessMode : string;
  bs_checkpointFreshness : time;
  bs_expires : time
}.

Record VerifiedStreamBundle := {
  vb_Reference : Reference;
  vb_FQDN : string;
  vb_Events : list LogEvent;
  vb_Snapshot : DomainSnapshot key;
  vb_LoggedState : string;
  vb_Expires : time;
  vb_CompleteThroughSize : Z;
  vb_SignerKeyID : string;
  vb_Source : StreamBundleSource
}.

Definition acceptedBundleVerifier (trust : StreamBundleTrust) (kid : string) : option Verifier :=
  accepted_in kid None (match BundleVerifier trust with Some v => Some v :: BundleVerifiers trust | None => BundleVerifiers trust end).

(** ** The source over a bundle *)
Definition bundle_mismatch : error := PlainError "dnsid: stream bundle reference mismatch".
Definition bs_ReadEvent (s : StreamBundleSource) (ref : string) : res ProvenEntry :=
  '(wantRef, index) ← ParseFinalEventRef ref;
  fail_if negb (str_eqb (ref_String wantRef) (ref_String (bs_reference s))) with bundle_mismatch ;;
  match List.find (fun entry => pe_Index entry =? index) (bs_entries s) with
  | Some entry => Ok entry
  | None => Err (PlainError "dnsid: stream bundle does not contain index")
  end.
Definition bs_serves (s : StreamBundleSource) (reference : Reference) (domain : string) : bool :=
  str_eqb (ref_String reference) (ref_String (bs_reference s)) && equal_fold domain (bs_domain s).
Definition bs_RebuildHistory (s : StreamBundleSource) (reference : Reference) (domain : string) : res (list ProvenEntry) :=
  fail_if negb (bs_serves s reference domain) with bundle_mismatch ;; Ok (bs_entries s).
Definition bs_RebuildCompleteHistory (s : StreamBundleSource) (reference : Reference) (domain : string) : res CompleteHistoryResult :=
  fail_if negb (bs_serves s reference domain) with bundle_mismatch ;;
  Ok {| Entries := bs_entries s; ch_Checkpoint := bs_checkpoint s; ch_CompleteThrough := bs_completeThrough s;
        ch_CompletenessMode := bs_completenessMode s; ch_FreshnessTime := bs_checkpointFreshness s |}.

(** ** Reading a bundle *)
Definition max_bytes (trust : StreamBundleTrust) : Z :=
  if MaxBundleBytes trust =? 0 then defaultMaxStreamBundleBytes else MaxBundleBytes trust.

Definition bundle_fields : list string :=
  ["checkpoint"; "complete_through_size"; "completeness_mode"; "events"; "expires"; "fqdn"; "lr"; "policy_hash"; "sig"; "state"; "type"; "v"].

(** The bundle as an object in canonical form. *)
Definition parse_stream_bundle (trust : StreamBundleTrust) (data : string) : res payload :=
  fail_if (max_bytes trust <? 1) || (max_bytes trust <? Z.of_nat (String.length data)) with bundle_error "exceeds size limit" ;;
  fail_if is_nil (BundleVerifier trust) && bool_decide (BundleVerifiers trust = []) with bundle_error "verifier is required" ;;
  match DecodeObject data with
  | Err e => Err (WithCause (PlainError "dnsid: parsing c2sp stream bundle") e)
  | Ok object =>
      requireExactFields object bundle_fields ;;
      fail_if match canonicalJSON (VObject object) with Ok canonical => negb (str_eqb canonical data) | Err _ => true end
        with bundle_error "is not canonical JCS" ;;
      Ok object
  end.

(** The text that is signed: the object without its signature. *)
Definition unsigned_bundle (object : payload) : res string := canonicalJSON (VObject (delete "sig"%string object)).

(** The kid of the accepted signer. *)
Definition check_signature (trust : StreamBundleTrust) (object : payload) : res string :=
  sigObject ← bundleObject object "sig";
  requireExactFields sigObject ["alg"; "kid"; "value"] ;;
  fail_if match bundleString sigObject "alg" with Ok alg => negb (str_eqb alg "EdDSA") | Err _ => true end
    with bundle_error "signature algorithm must be EdDSA" ;;
  kid ← bundleString sigObject "kid";
  match acceptedBundleVerifier trust kid with
  | None => Err (bundle_error "signer is not accepted")
  | Some verifier =>
      signature ← field_base64 sigObject "value" 64 64;
      unsigned ← unsigned_bundle object;
      fail_if negb (note_Verify verifier unsigned signature) with bundle_error "signature verification failed" ;;
      Ok kid
  end.

(** [value] of a field that must be exactly that. *)
Definition must_be (r : res string) (value : string) (msg : string) : res unit :=
  fail_if match r with Ok s => negb (str_eqb s value) | Err _ => true end with bundle_error msg ;; Ok tt.

Definition check_format (object : payload) : res unit :=
  fail_if match bundleUint object "v" with Ok v => negb (v =? StreamBundleVersion) | Err _ => true end
    with PlainError "dnsid: unsupported c2sp stream bundle version" ;;
  must_be (bundleString object "type") StreamBundleType "type is unsupported" ;;
  must_be (bundleString object "completeness_mode") StreamBundleTrustedIndex "completeness mode is unsupported".

(** The hashes of a proof, of 32 bytes each. *)
Fixpoint chunks32 (n : nat) (s : string) : list string :=
  match n with
  | O => []
  | S n => String.substring 0 32 s :: chunks32 n (String.substring 32 (String.length s - 32) s)
  end.
Definition stream_bundle_entry (item : payload) (index : Z) (checkpoint : string) : res ProvenEntry :=
  entry ← field_base64 item "entry" 1 defaultMaxStreamBundleEventBytes;
  proofBytes ← field_base64 item "proof" 0 (defaultMaxStreamBundleProofHashes * sha256_Size);
  fail_if negb (Z.of_nat (String.length proofBytes) mod sha256_Size =? 0) with bundle_error "proof length must be a multiple of 32" ;;
  Ok {| pe_Index := index; Entry := entry;
        Proof_ := MarshalProof {| PfIndex := index; PfHashes := chunks32 (String.length proofBytes / 32) proofBytes; PfCheckpoint := checkpoint |} |}.

(** The loop of [parseBundleEntries]; [previous] is [None] before the first. *)
Fixpoint bundle_entries (previous : option Z) (checkpoint : string) (items : list value) : res (list ProvenEntry) :=
  match items with
  | [] => Ok []
  | VObject item :: items =>
      requireExactFields item ["entry"; "index"; "proof"] ;;
      index ← bundleUint item "index";
      fail_if match previous with Some p => index <=? p | None => false end with bundle_error "indexes must be strictly increasing" ;;
      entry ← stream_bundle_entry item index checkpoint;
      entries ← bundle_entries (Some index) checkpoint items;
      Ok (entry :: entries)
  | _ :: _ => Err (bundle_error "event must be an object")
  end.
Definition parseBundleEntries (v : option value) (checkpoint : string) (configuredMax : Z) : res (list ProvenEntry) :=
  match v with
  | Some (VArray items) =>
      let maxEvents := if configuredMax =? 0 then defaultMaxStreamBundleEvents else configuredMax in
      fail_if (maxEvents <? 1) || (maxEvents <? Z.of_nat (List.length items)) with bundle_error "event count exceeds limit" ;;
      bundle_entries None checkpoint items
  | _ => Err (bundle_error "events must be an array")
  end.

(** ** Verification *)
(** What surrounds a call: the reading of the clock for the expiry, the call
    of the client, the clock of the extra proof, whether the context is done
    at the end, the last reading, and the advance of the checkpoint. *)
Record bundle_call := {
  bc_now : time;
  bc_client : call;
  bc_proof : nat -> time;
  bc_done : bool;
  bc_check : time;
  bc_adv : adv_env
}.

(** What the signed fields say, before any of it is checked against the log. *)
Record contents := {
  bo_fqdn : string;
  bo_lr : string;
  bo_reference : Reference;
  bo_expires : time;
  bo_policy : Policy;
  bo_checkpoint : string;
  bo_complete : Z;
  bo_entries : list ProvenEntry
}.

Definition bundle_policy (trust : StreamBundleTrust) (p : Policy) : Policy :=
  {| LogVerifier := LogVerifier p; WitnessVerifiers := WitnessVerifiers p; WitnessQuorum := WitnessQuorum p; CheckpointTime := CheckpointTime p;
     Now := Now p; MaxCheckpointAge := trust_MaxCheckpointAge trust; ClockSkew := trust_ClockSkew trust; quorumRule := quorumRule p;
     trustedPublicKeys := trustedPublicKeys p; skipProofVerify := skipProofVerify p |}.

(** The policy is the verifier's own document; the bundle names its hash. *)
Definition read_policy (trust : StreamBundleTrust) (w : bundle_call) (object : payload) : res Policy :=
  policyHash ← field_base64 object "policy_hash" sha256_Size sha256_Size;
  fail_if negb (str_eqb policyHash (sha256 (PolicyDocument trust))) with bundle_error "policy hash mismatch" ;;
  policy ← ParsePolicy (bc_proof w) (PolicyDocument trust);
  Ok (bundle_policy trust policy).

Definition read_contents (trust : StreamBundleTrust) (w : bundle_call) (object : payload) : res contents :=
  check_format object ;;
  fqdn ← bundleString object "fqdn";
  lr ← bundleString object "lr";
  reference ← ParseReference lr;
  expiresUnix ← bundleUint object "expires";
  let expires := time_Unix expiresUnix in
  fail_if negb (after expires (bc_now w)) with bundle_error "expired" ;;
  fail_if MaxBundleLifetime trust <=? 0 with bundle_error "maximum lifetime is required" ;;
  policy ← read_policy trust w object;
  checkpoint ← field_base64 object "checkpoint" 1 (max_bytes trust);
  completeThrough ← bundleUint object "complete_through_size";
  fail_if (if MaxTreeSize trust =? 0 then defaultScanMaxTreeSize else MaxTreeSize trust) <? completeThrough
    with bundle_error "checkpoint exceeds configured tree-size maximum" ;;
  entries ← parseBundleEntries (object !! "events"%string) checkpoint (MaxEvents trust);
  fail_if bool_decide (entries = []) with bundle_error "requires events" ;;
  Ok {| bo_fqdn := fqdn; bo_lr := lr; bo_reference := reference; bo_expires := expires; bo_policy := policy; bo_checkpoint := checkpoint;
        bo_complete := completeThrough; bo_entries := entries |}.

(** The client over the entries of the bundle. *)
Definition bundle_source (b : contents) (complete : Z) (freshness : time) : StreamBundleSource :=
  {| bs_reference := bo_reference b; bs_domain := bo_fqdn b; bs_entries := bo_entries b; bs_checkpoint := bo_checkpoint b;
     bs_completeThrough := complete; bs_completenessMode := StreamBundleTrustedIndex; bs_checkpointFreshness := freshness;
     bs_expires := bo_expires b |}.
Definition bundle_client (trust : StreamBundleTrust) (b : contents) (ref : Reference) : Client :=
  let source := bundle_source b 0 0 in
  {| client_ref := ref; client_policy := bo_policy b; store_configured := false; verifyMigration := MigrationVerifier trust;
     migrationLimits := MigrationLimits trust; trustedScope := ""; trustedLogPrefix := ""; preloaded := None; source_configured := true;
     source_ReadEvent := bs_ReadEvent source; source_RebuildHistory := bs_RebuildHistory source ref;
     source_RebuildCompleteHistory := Some (bs_RebuildCompleteHistory source ref); GlobalCandidates := false;
     migration_json_size := trust_json_size trust |}.

Definition historical_string (s : DomainSnapshot key) : string :=
  match HistoricalState s with Some state => state_string state | None => EmptyString end.

Definition verifyBundleState (v : option value) (snapshot : DomainSnapshot key) (events : list LogEvent) : res unit :=
  match v with
  | Some (VObject state) =>
      requireExactFields state ["event_count"; "last_event_type"; "logged_state"] ;;
      count ← bundleUint state "event_count";
      lastType ← bundleString state "last_event_type";
      loggedState ← bundleString state "logged_state";
      match last events with
      | Some lastEvent =>
          fail_if negb (count =? Z.of_nat (List.length events)) || negb (str_eqb lastType (type_string (Type_ lastEvent)))
               || negb (str_eqb loggedState (historical_string snapshot))
            with bundle_error "state does not match replay" ;;
          Ok tt
      | None => Err (bundle_error "state does not match replay")
      end
  | _ => Err (bundle_error "state must be an object")
  end.

(** The checks of the replayed events against the bundle's own words. *)
Definition check_replay (trust : StreamBundleTrust) (w : bundle_call) (object : payload) (b : contents) (events : list LogEvent)
    : res (VerifiedProof * Checkpoint * DomainSnapshot key) :=
  match bo_entries b with
  | [] => Err (PlainError "panic: index out of range")
  | entry :: _ =>
      proof ← VerifyProof (with_clock (bo_policy b) (bc_proof w)) (bo_reference b) (Entry entry) (Proof_ entry);
      fail_if after (bo_expires b) (CheckpointFreshnessTime proof + MaxBundleLifetime trust)
        with bundle_error "lifetime exceeds checkpoint-relative policy" ;;
      match VCheckpoint proof with
      | None => Err (PlainError "panic: nil pointer dereference")
      | Some cp =>
          fail_if negb (bo_complete b =? CpSize cp) with bundle_error "complete_through_size does not match checkpoint" ;;
          snapshot ← SnapshotAt (Some (NewDomainLog (bo_fqdn b) events)) (bc_now w);
          verifyBundleState (object !! "state"%string) snapshot events ;;
          Ok (proof, cp, snapshot)
      end
  end.

(** The trusted store, when one is configured, moves to the checkpoint. *)
Definition advance_bundle (trust : StreamBundleTrust) (w : bundle_call) (s : option checkpoints) (proof : VerifiedProof) (cp : Checkpoint)
    : res unit * option checkpoints :=
  if negb (TrustedCheckpointStore trust) then (Ok tt, s)
  else
    match advanceTrustedCheckpoint (bc_adv w) s
            {| Origin := CpOrigin cp; TreeSize := CpSize cp; RootHash := CpHash cp; WitnessTime := CheckpointWitnessTime proof |} with
    | (Returned (Ok _), s') => (Ok tt, s')
    | (Returned (Err e), s') => (Err (logVerificationError e false), s')
    | (_, s') => (Err (PlainError "not finished"), s')
    end.

Definition VerifyStreamBundle (trust : StreamBundleTrust) (w : bundle_call) (s : option checkpoints) (data : string)
    : res VerifiedStreamBundle * option checkpoints :=
  match (object ← parse_stream_bundle trust data; kid ← check_signature trust object; b ← read_contents trust w object;
         c ← New (bo_lr b) (bundle_client trust b);
         events ← (RebuildHistory c (bc_client w) None (bo_fqdn b)).1;
         '(proof, cp, snapshot) ← check_replay trust w object b events;
         Ok (kid, b, events, proof, cp, snapshot)) with
  | Err e => (Err e, s)
  | Ok (kid, b, events, proof, cp, snapshot) =>
      let '(advanced, s') := advance_bundle trust w s proof cp in
      (advanced ;;
       fail_if bc_done w with ContextError ;;
       fail_if negb (before (bc_check w) (bo_expires b)) with PlainError "dnsid: stream bundle expired during verification" ;;
       Ok {| vb_Reference := bo_reference b; vb_FQDN := bo_fqdn b; vb_Events := events; vb_Snapshot := snapshot;
             vb_LoggedState := historical_string snapshot; vb_Expires := bo_expires b; vb_CompleteThroughSize := bo_complete b;
             vb_SignerKeyID := kid; vb_Source := bundle_source b (bo_complete b) (CheckpointFreshnessTime proof) |}, s')
  end.

(** ** The source that fetches bundles *)
(** A [Source], with the two optional methods it may have. *)
Record Source := {
  src_ReadEvent : string -> res ProvenEntry;
  src_discoverEntry : option (Reference -> Z -> res string);
  src_RebuildHistory : Reference -> string -> res (list ProvenEntry);
  src_RebuildCompleteHistory : option (Reference -> string -> res CompleteHistoryResult)
}.
Record fetchedStreamBundleSource := {
  fs_fallback : option Source;
  fs_trust : StreamBundleTrust;
  fs_requireBundle : bool
}.

(** [url.PathEscape]. *)
Definition path_byte_kept (c : ascii) : bool := is_alnum c || existsb (Ascii.eqb c) ["-"; "_"; "."; "~"; "$"; "&"; "+"; "="; ":"; "@"]%char.
Fixpoint PathEscape (s : string) : string :=
  match s with
  | EmptyString => EmptyString
  | String c s =>
      if path_byte_kept c then String c (PathEscape s)
      else let up n := byte_of (if n <? 10 then 48 + n else 55 + n) in
           String "%" (String (up (byte_val c / 16)) (String (up (byte_val c mod 16)) (PathEscape s)))
  end.

Definition as_fetch_error (e : error) : option (string * Z * bool) :=
  match e with ResourceFetchError kind status transient => Some (kind, status, transient) | _ => None end.
Definition streamBundleFallbackAllowed (e : error) : bool :=
  match errors_as as_fetch_error e with
  | Some (kind, status, transient) =>
      if str_eqb kind ResourceFetchUnavailable then transient
      else if str_eqb kind ResourceFetchHTTPStatus
      then (status =? 404) || (status =? 408) || (status =? 429) || ((500 <=? status) && (status <=? 599))
      else false
  | None => match errors_as as_transient e with Some transient => transient | None => false end
  end.

Definition without_store (trust : StreamBundleTrust) : StreamBundleTrust :=
  {| PolicyDocument := PolicyDocument trust; BundleVerifier := BundleVerifier trust; BundleVerifiers := BundleVerifiers trust;
     MaxBundleLifetime := MaxBundleLifetime trust; trust_MaxCheckpointAge := trust_MaxCheckpointAge trust;
     trust_ClockSkew := trust_ClockSkew trust; MaxBundleBytes := MaxBundleBytes trust; MaxEvents := MaxEvents trust;
     MaxTreeSize := MaxTreeSize trust; TrustedCheckpointStore := false; MigrationVerifier := MigrationVerifier trust;
     MigrationLimits := MigrationLimits trust; trust_json_size := trust_json_size trust |}.

Section fetched.
Context {W : World}.
Variable f : fetchedStreamBundleSource.

Definition bundle_endpoint (reference : Reference) (domain : string) : string :=
  String.append (LogPrefix reference) (String.append "/streams/" (String.append (PathEscape domain) "?format=bundle")).

(** [None] is the fallback. [k] is the place of the fetch among those of the
    world. *)
Definition fs_load (k : nat) (w : bundle_call) (reference : Reference) (domain : string) : res (option VerifiedStreamBundle) :=
  normalized ← NormalizeFQDN domain;
  match fetchBounded k (bundle_endpoint reference normalized) (max_bytes (fs_trust f)) with
  | Err e =>
      if negb (fs_requireBundle f) && negb (is_nil (fs_fallback f)) && streamBundleFallbackAllowed e then Ok None else Err e
  | Ok data =>
      verified ← (VerifyStreamBundle (without_store (fs_trust f)) w None data).1;
      fail_if match NormalizeFQDN (vb_FQDN verified) with
              | Ok bundleFQDN => negb (str_eqb (vb_FQDN verified) bundleFQDN) || negb (str_eqb bundleFQDN normalized)
              | Err _ => true
              end with bundle_error "fqdn does not match request" ;;
      fail_if negb (str_eqb (ref_String (vb_Reference verified)) (ref_String reference)) with bundle_error "lr does not match authenticated record" ;;
      Ok (Some verified)
  end.

Definition no_fallback : error := PlainError "panic: nil pointer dereference".
Definition fs_RebuildHistory (k : nat) (w : bundle_call) (reference : Reference) (domain : string) : res (list ProvenEntry) :=
  bundle ← fs_load k w reference domain;
  match bundle with
  | Some verified => bs_RebuildHistory (vb_Source verified) reference domain
  | None => match fs_fallback f with Some src => src_RebuildHistory src reference domain | None => Err no_fallback end
  end.
Definition fs_RebuildCompleteHistory (k : nat) (w : bundle_call) (reference : Reference) (domain : string) : res CompleteHistoryResult :=
  bundle ← fs_load k w reference domain;
  match bundle with
  | Some verified => bs_RebuildCompleteHistory (vb_Source verified) reference domain
  | None =>
      match fs_fallback f with
      | Some src =>
          match src_RebuildCompleteHistory src with
          | Some read => read reference domain
          | None => Err (PlainError "dnsid: c2sp-tlog complete fallback source is required")
          end
      | None => Err no_fallback
      end
  end.

(** The raw entry names the domain; the bundle proves the entry. *)
Definition fs_ReadEvent (k : nat) (w : bundle_call) (ref : string) : res ProvenEntry :=
  match fs_fallback f with
  | None => Err (PlainError "dnsid: reading one c2sp-tlog event requires the raw discovery source")
  | Some src =>
      '(reference, index) ← ParseFinalEventRef ref;
      '(discovered, raw) ← match src_discoverEntry src with
                           | Some discover => raw ← discover reference index; Ok (None, raw)
                           | None => entry ← src_ReadEvent src ref; Ok (Some entry, Entry entry)
                           end;
      event ← LogEventFromEntry (key:=key) raw;
      bundle ← fs_load k w reference (Lifecycle.Domain event);
      match bundle with
      | None => match discovered with Some entry => Ok entry | None => src_ReadEvent src ref end
      | Some verified =>
          proven ← bs_ReadEvent (vb_Source verified) ref;
          fail_if negb (str_eqb (Entry proven) raw) with bundle_error "entry does not match the log entry" ;;
          Ok proven
      end
  end.
End fetched.
End bundle.
