(* ===== verification/BundleSpec.v ===== *)
(** * BundleSpec: what a verified bundle is

    A bundle that [VerifyStreamBundle] accepts is canonical JSON signed by the
    one accepted key it names, and its events are a verified stream under the
    verifier's own policy and one checkpoint; the signed text fixes all the
    rest; and an answer about completeness that rests on a served bundle rests
    on such a signature. *)

From Stdlib Require Import ZArith Lia Ascii String.
From S2P Require Import Prelude Codec Utf8 Numbers Jcs JcsSpec Keys Fqdn Lifecycle Merkle Evidence Reference Policy Checkpoint Scan Event EventSpec Replay ReplaySpec AppendSpec Client Reader ReaderSpec Bundle.

Open Scope Z_scope.

(** ** The signer *)
Definition names_signer (kid : string) (v : option Verifier) : Prop := exists v', v = Some v' /\ verifier_id v' = kid.
(** [v] is the only one of [l] that the kid names. *)
Definition sole_signer (l : list (option Verifier)) (kid : string) (v : Verifier) : Prop :=
  exists pre post, l = pre ++ Some v :: post /\ verifier_id v = kid /\ Forall (fun v' => ~ names_signer kid v') (pre ++ post).

Lemma accepted_in_none kid v l v' : accepted_in kid (Some v) l = Some v' -> v' = v /\ Forall (fun v' => ~ names_signer kid v') l.
Proof.
  induction l as [|[x|] l IH]; cbn [accepted_in].
  - intros [= <-]. done.
  - destruct (str_eqb kid (verifier_id x)) eqn:E; [done|]. apply str_eqb_neq in E. intros [-> H]%IH. split; [done|].
    constructor; [|done]. intros (? & [= <-] & Hx). congruence.
  - intros [-> H]%IH. split; [done|]. constructor; [|done]. by intros (? & ? & _).
Qed.
Lemma accepted_in_sole kid l v : accepted_in kid None l = Some v -> sole_signer l kid v.
Proof.
  induction l as [|[x|] l IH]; cbn [accepted_in]; [done| |].
  - destruct (str_eqb kid (verifier_id x)) eqn:E.
    + apply str_eqb_eq in E as ->. intros [-> H]%accepted_in_none. by exists [], l.
    + apply str_eqb_neq in E. intros (pre & post & -> & Hv & H)%IH. exists (Some x :: pre), post. split; [done|]. split; [done|].
      constructor; [|done]. intros (? & [= <-] & Hx). congruence.
  - intros (pre & post & -> & Hv & H)%IH. exists (None :: pre), post. split; [done|]. split; [done|].
    constructor; [|done]. by intros (? & ? & _).
Qed.

Section bundle.
Context {key : Type} `{!KeyOps key} `{!JwkText key} {N : NoteLib} {U : NetURL} {T : TLog} {I : Idna} {C : ConsistencyLib} {B : BundleLib}.
Abbreviation LogEvent := (LogEvent key).
Abbreviation verifiedEvent := (verifiedEvent (key:=key)).
Abbreviation standing := (standing (key:=key)).
Abbreviation Client := (Client (key:=key)).
Abbreviation StreamBundleTrust := (StreamBundleTrust (key:=key)).
Abbreviation VerifiedStreamBundle := (VerifiedStreamBundle (key:=key)).

Definition trusted_signers (trust : StreamBundleTrust) : list (option Verifier) :=
  match BundleVerifier trust with Some v => Some v :: BundleVerifiers trust | None => BundleVerifiers trust end.

(** [data] is canonical JSON whose text without the signature was signed by
    the sole accepted verifier of the kid it names, with the signature it
    carries. *)
Definition signed_bundle (trust : StreamBundleTrust) (data : string) (object : payload) (kid : string) : Prop :=
  DecodeObject data = Ok object /\ canonicalJSON (VObject object) = Ok data /\
  exists v unsigned signature sig, sole_signer (trusted_signers trust) kid v /\ unsigned_bundle object = Ok unsigned /\
    object !! "sig"%string = Some (VObject sig) /\ bundleString sig "alg" = Ok "EdDSA"%string /\ bundleString sig "kid" = Ok kid /\
    sig !! "value"%string = Some (VString (Base64.encode signature)) /\
    String.length signature = 64%nat /\ note_Verify v unsigned signature = true.

Lemma parse_bundle_facts (trust : StreamBundleTrust) data object : parse_stream_bundle trust data = Ok object ->
  DecodeObject data = Ok object /\ canonicalJSON (VObject object) = Ok data /\ Z.of_nat (String.length data) <= max_bytes trust.
Proof.
  unfold parse_stream_bundle. destruct (_ || _) eqn:Eb; [done|]. apply orb_false_iff in Eb as [_ Eb%Z.ltb_ge].
  destruct (_ && _); [done|]. destruct (DecodeObject data) as [o|]; [|done].
  destruct (requireExactFields _ _); [|done]. cbn [mbind res_bind]. destruct (canonicalJSON (VObject o)) as [c|] eqn:Ec; [|done].
  destruct (str_eqb c data) eqn:E; [|done]. apply str_eqb_eq in E as ->. cbn [negb]. by intros [= <-].
Qed.
Lemma decoded_base64 text lo hi d : decodeBundleBase64 text lo hi = Ok d ->
  text = Base64.encode d /\ lo <= Z.of_nat (String.length d) <= hi.
Proof.
  unfold decodeBundleBase64. destruct (Base64.decode false text) as [x|]; [|done].
  destruct (str_eqb _ _) eqn:E; [|done]. apply str_eqb_eq in E. cbn [negb].
  destruct (_ || _) eqn:Eb; [done|]. apply orb_false_iff in Eb as [E1%Z.ltb_ge E2%Z.ltb_ge]. by intros [= ->].
Qed.
Lemma field_base64_facts object field lo hi d : field_base64 object field lo hi = Ok d ->
  object !! field = Some (VString (Base64.encode d)) /\ lo <= Z.of_nat (String.length d) <= hi.
Proof.
  unfold field_base64, bundleString. destruct (object !! field) as [[]|]; try done. cbn [mbind res_bind].
  by intros [-> ?]%decoded_base64.
Qed.
Lemma check_signature_signed (trust : StreamBundleTrust) data object kid :
  parse_stream_bundle trust data = Ok object -> check_signature trust object = Ok kid -> signed_bundle trust data object kid.
Proof.
  intros (Hd & Hc & _)%parse_bundle_facts. unfold check_signature, bundleObject. destruct (object !! "sig"%string) as [[| | | | | |sig]|] eqn:Eo; try done. cbn [mbind res_bind].
  destruct (requireExactFields _ _); [|done]. cbn [mbind res_bind].
  destruct (bundleString sig "alg") as [alg|] eqn:Ealg; [|done]. destruct (str_eqb alg _) eqn:Ea; [|done]. apply str_eqb_eq in Ea as ->. cbn [negb].
  destruct (bundleString sig "kid") as [k|] eqn:Ekid; [|done]. cbn [mbind res_bind]. destruct (acceptedBundleVerifier trust k) as [v|] eqn:Ev; [|done].
  destruct (field_base64 sig "value" 64 64) as [signature|] eqn:Es; [|done]. cbn [mbind res_bind].
  destruct (unsigned_bundle object) as [unsigned|] eqn:Eu; [|done]. cbn [mbind res_bind].
  destruct (note_Verify v unsigned signature) eqn:En; [|done]. cbn [negb]. intros [= <-].
  apply accepted_in_sole in Ev. apply field_base64_facts in Es as [Hsv Hl]. split; [done|]. split; [done|].
  exists v, unsigned, signature, sig. split_and!; try done. lia.
Qed.

(** ** The entries *)
(** Entries in strictly increasing order, each with a proof to the one
    checkpoint. *)
Definition under_checkpoint (checkpoint : string) (entry : ProvenEntry) : Prop :=
  exists hashes, Proof_ entry = MarshalProof {| PfIndex := pe_Index entry; PfHashes := hashes; PfCheckpoint := checkpoint |}.
(** An item of the events and the entry it says. *)
Definition says_entry (checkpoint : string) (v : value) (entry : ProvenEntry) : Prop :=
  exists item proof, v = VObject item /\ bundleUint item "index" = Ok (pe_Index entry) /\
    item !! "entry"%string = Some (VString (Base64.encode (Entry entry))) /\ item !! "proof"%string = Some (VString (Base64.encode proof)) /\
    Proof_ entry = MarshalProof {| PfIndex := pe_Index entry; PfHashes := chunks32 (String.length proof / 32) proof; PfCheckpoint := checkpoint |}.
Lemma bundle_entries_said previous checkpoint items entries :
  bundle_entries previous checkpoint items = Ok entries -> Forall2 (says_entry checkpoint) items entries.
Proof.
  revert previous entries. induction items as [|item items IH]; intros previous entries; cbn [bundle_entries]; [by intros [= <-]|].
  destruct item as [| | | | | |item]; try done. destruct (requireExactFields _ _); [|done]. cbn [mbind res_bind].
  destruct (bundleUint item "index") as [index|] eqn:Ei; [|done]. cbn [mbind res_bind].
  destruct (match previous with Some p => _ | None => _ end); [done|].
  destruct (stream_bundle_entry item index checkpoint) as [entry|] eqn:Ee; [|done]. cbn [mbind res_bind].
  destruct (bundle_entries (Some index) checkpoint items) as [rest|] eqn:Er; [|done]. cbn [mbind res_bind]. intros [= <-].
  constructor; [|by eapply IH]. unfold stream_bundle_entry in Ee.
  destruct (field_base64 item "entry" _ _) as [e|] eqn:E1; [|done]. cbn [mbind res_bind] in Ee.
  destruct (field_base64 item "proof" _ _) as [p|] eqn:E2; [|done]. cbn [mbind res_bind] in Ee. destruct (negb _); [done|]. injection Ee as <-.
  apply field_base64_facts in E1 as [E1 _], E2 as [E2 _]. by exists item, p.
Qed.
Lemma bundle_entries_facts previous checkpoint items entries : bundle_entries previous checkpoint items = Ok entries ->
  Forall (under_checkpoint checkpoint) entries /\ StronglySorted Z.lt (pe_Index <$> entries) /\
  Forall (fun entry => match previous with Some p => p < pe_Index entry | None => True end) entries.
Proof.
  revert previous entries. induction items as [|item items IH]; intros previous entries; cbn [bundle_entries].
  { intros [= <-]. split_and!; constructor. }
  destruct item as [| | | | | |item]; try done. destruct (requireExactFields _ _); [|done]. cbn [mbind res_bind].
  destruct (bundleUint item "index") as [index|]; [|done]. cbn [mbind res_bind].
  destruct (match previous with Some p => _ | None => _ end) eqn:Ep; [done|].
  destruct (stream_bundle_entry item index checkpoint) as [entry|] eqn:Ee; [|done]. cbn [mbind res_bind].
  destruct (bundle_entries (Some index) checkpoint items) as [rest|] eqn:Er; [|done]. cbn [mbind res_bind]. intros [= <-].
  destruct (IH _ _ Er) as (H1 & H2 & H3). unfold stream_bundle_entry in Ee.
  destruct (field_base64 item "entry" _ _) as [e|]; [|done]. cbn [mbind res_bind] in Ee.
  destruct (field_base64 item "proof" _ _) as [p|]; [|done]. cbn [mbind res_bind] in Ee. destruct (negb _); [done|]. injection Ee as <-.
  split_and!.
  - constructor; [|done]. by eexists.
  - cbn. constructor; [done|]. by apply Forall_fmap.
  - constructor; [cbn; destruct previous; [by apply Z.leb_gt in Ep|done]|]. destruct previous as [q|]; [|by apply Forall_true].
    apply Z.leb_gt in Ep. eapply Forall_impl; [exact H3|]. cbn. lia.
Qed.

(** ** The contents *)
Lemma read_contents_facts (trust : StreamBundleTrust) w object b : read_contents trust w object = Ok b ->
  bundleString object "fqdn" = Ok (bo_fqdn b) /\ bundleString object "lr" = Ok (bo_lr b) /\ ParseReference (bo_lr b) = Ok (bo_reference b) /\
  (exists sec, bundleUint object "expires" = Ok sec /\ bo_expires b = time_Unix sec) /\ bc_now w < bo_expires b /\ 0 < MaxBundleLifetime trust /\
  read_policy trust w object = Ok (bo_policy b) /\ object !! "checkpoint"%string = Some (VString (Base64.encode (bo_checkpoint b))) /\
  bundleUint object "complete_through_size" = Ok (bo_complete b) /\
  parseBundleEntries (object !! "events"%string) (bo_checkpoint b) (MaxEvents trust) = Ok (bo_entries b) /\ bo_entries b <> [] /\
  check_format object = Ok tt.
Proof.
  unfold read_contents. destruct (check_format object) as [[]|]; [|done]. cbn [mbind res_bind].
  destruct (bundleString object "fqdn") as [fqdn|]; [|done]. cbn [mbind res_bind].
  destruct (bundleString object "lr") as [lr|]; [|done]. cbn [mbind res_bind].
  destruct (ParseReference lr) as [ref|] eqn:Er; [|done]. cbn [mbind res_bind].
  destruct (bundleUint object "expires") as [sec|]; [|done]. cbn [mbind res_bind].
  destruct (after _ _) eqn:Ea; [|done]. cbn [negb]. apply Z.ltb_lt in Ea. destruct (_ <=? 0) eqn:El; [done|]. apply Z.leb_gt in El.
  destruct (read_policy trust w object) as [policy|]; [|done]. cbn [mbind res_bind].
  destruct (field_base64 object "checkpoint" _ _) as [cp|] eqn:Ec; [|done]. cbn [mbind res_bind].
  destruct (bundleUint object "complete_through_size") as [n|]; [|done]. cbn [mbind res_bind]. destruct (_ <? n); [done|].
  destruct (parseBundleEntries _ _ _) as [entries|] eqn:Ee; [|done]. cbn [mbind res_bind].
  destruct (bool_decide _) eqn:En; [done|]. apply bool_decide_eq_false in En. intros [= <-]. cbn.
  apply field_base64_facts in Ec as [Ec _]. split_and!; try done. by exists sec.
Qed.
Lemma read_policy_facts (trust : StreamBundleTrust) w object p : read_policy trust w object = Ok p ->
  exists q, ParsePolicy (bc_proof w) (PolicyDocument trust) = Ok q /\ p = bundle_policy trust q /\ skipProofVerify p = false /\
    object !! "policy_hash"%string = Some (VString (Base64.encode (sha256 (PolicyDocument trust)))).
Proof.
  unfold read_policy. destruct (field_base64 object "policy_hash" _ _) as [h|] eqn:Eh; [|done]. cbn [mbind res_bind].
  destruct (str_eqb h _) eqn:E; [|done]. apply str_eqb_eq in E as ->. cbn [negb]. apply field_base64_facts in Eh as [Eh _].
  destruct (ParsePolicy _ _) as [q|] eqn:Eq; [|done]. cbn [mbind res_bind]. intros [= <-]. exists q. split_and!; try done.
  unfold ParsePolicy in Eq. cbn. unfold as_parse_error in Eq. destruct (parse_lines _ _) as [pr|]; [|done]. cbn [mbind res_bind] in Eq.
  destruct (p_log pr), (p_quorum pr); try done. by injection Eq as <-.
Qed.

Lemma format_facts object : check_format object = Ok tt ->
  bundleUint object "v" = Ok StreamBundleVersion /\ bundleString object "type" = Ok StreamBundleType /\
  bundleString object "completeness_mode" = Ok StreamBundleTrustedIndex.
Proof.
  unfold check_format, must_be. destruct (bundleUint object "v") as [v|]; [|done]. destruct (v =? _) eqn:E1; [|done]. apply Z.eqb_eq in E1 as ->.
  cbn [negb]. destruct (bundleString object "type") as [t|]; [|done]. destruct (str_eqb t _) eqn:E2; [|done]. apply str_eqb_eq in E2 as ->.
  cbn [negb]. destruct (bundleString object "completeness_mode") as [m|]; [|done]. destruct (str_eqb m _) eqn:E3; [|done].
  by apply str_eqb_eq in E3 as ->.
Qed.

(** ** The verified bundle *)
Lemma verify_bundle_parts (trust : StreamBundleTrust) w s data vb s' : VerifyStreamBundle trust w s data = (Ok vb, s') ->
  exists object kid b c events proof cp snapshot,
    parse_stream_bundle trust data = Ok object /\ check_signature trust object = Ok kid /\ read_contents trust w object = Ok b /\
    New (bo_lr b) (bundle_client trust b) = Ok c /\ (RebuildHistory c (bc_client w) None (bo_fqdn b)).1 = Ok events /\
    check_replay trust w object b events = Ok (proof, cp, snapshot) /\ bc_check w < bo_expires b /\
    vb = {| vb_Reference := bo_reference b; vb_FQDN := bo_fqdn b; vb_Events := events; vb_Snapshot := snapshot;
            vb_LoggedState := historical_string snapshot; vb_Expires := bo_expires b; vb_CompleteThroughSize := bo_complete b;
            vb_SignerKeyID := kid; vb_Source := bundle_source b (bo_complete b) (CheckpointFreshnessTime proof) |}.
Proof.
  unfold VerifyStreamBundle. destruct (parse_stream_bundle trust data) as [object|] eqn:E1; [|done]. cbn [mbind res_bind].
  destruct (check_signature trust object) as [kid|] eqn:E2; [|done]. cbn [mbind res_bind].
  destruct (read_contents trust w object) as [b|] eqn:E3; [|done]. cbn [mbind res_bind].
  destruct (New (bo_lr b) (bundle_client trust b)) as [c|] eqn:E4; [|done]. cbn [mbind res_bind].
  destruct (RebuildHistory c (bc_client w) None (bo_fqdn b)).1 as [events|] eqn:E5; [|done]. cbn [mbind res_bind].
  destruct (check_replay trust w object b events) as [[[proof cp] snapshot]|] eqn:E6; [|done]. cbn [mbind res_bind].
  destruct (advance_bundle trust w s proof cp) as [[[]|] s1]; [|done]. cbn [mbind res_bind].
  destruct (bc_done w); [done|]. destruct (before _ _) eqn:Eb; [|done]. cbn [negb]. apply Z.ltb_lt in Eb. intros [= <- _].
  by exists object, kid, b, c, events, proof, cp, snapshot.
Qed.

Lemma bundle_client_facts (trust : StreamBundleTrust) b c :
  New (bo_lr b) (bundle_client trust b) = Ok c -> ParseReference (bo_lr b) = Ok (bo_reference b) ->
  client_ref c = bo_reference b /\ client_policy c = bo_policy b /\ GlobalCandidates c = false /\
  verifyMigration c = MigrationVerifier trust /\ migrationLimits c = withDefaults (MigrationLimits trust) /\
  forall w fqdn events, (RebuildHistory c w None fqdn).1 = Ok events ->
    exists accepted s', verifyHistoryEntries c w None fqdn (bo_entries b) None = (Ok (accepted, events), s').
Proof.
  unfold New. intros H Hr. rewrite Hr in H. cbn [mbind res_bind] in H. destruct (_ || _) in H; [done|]. destruct (_ && _) in H; [done|]. injection H as <-.
  split_and!; try done. intros w fqdn events. unfold RebuildHistory, rebuildVerifiedHistory, usable_preload, bundle_client.
  cbn [source_configured negb preloaded source_RebuildHistory]. unfold bs_RebuildHistory.
  destruct (negb (bs_serves _ _ _)); [done|]. cbn [bs_entries bundle_source].
  match goal with |- context [verifyHistoryEntries ?c w None fqdn _ None] => destruct (verifyHistoryEntries c w None fqdn (bo_entries b) None) as [[[accepted evs]|] s1] eqn:E end.
  2:{ cbn. done. }
  cbn. intros [= <-]. by exists accepted, s1.
Qed.

Lemma bundle_state_facts v (snapshot : DomainSnapshot key) events : verifyBundleState v snapshot events = Ok tt ->
  exists state, v = Some (VObject state) /\ bundleString state "logged_state" = Ok (historical_string snapshot) /\
    bundleUint state "event_count" = Ok (Z.of_nat (List.length events)) /\
    exists e, last events = Some e /\ bundleString state "last_event_type" = Ok (type_string (Type_ e)).
Proof.
  unfold verifyBundleState. destruct v as [[| | | | | |state]|]; try done. destruct (requireExactFields _ _); [|done]. cbn [mbind res_bind].
  destruct (bundleUint state "event_count") as [n|] eqn:En; [|done]. cbn [mbind res_bind].
  destruct (bundleString state "last_event_type") as [t|] eqn:Et; [|done]. cbn [mbind res_bind].
  destruct (bundleString state "logged_state") as [l|] eqn:El; [|done]. cbn [mbind res_bind]. destruct (last events) as [e|]; [|done].
  destruct (_ || _) eqn:Eb; [done|]. intros _. rewrite !orb_false_iff, !negb_false_iff in Eb.
  destruct Eb as [[->%Z.eqb_eq ->%str_eqb_eq] ->%str_eqb_eq]. exists state. split_and!; try done. by exists e.
Qed.

Lemma check_replay_facts (trust : StreamBundleTrust) w object b events proof cp snapshot :
  check_replay trust w object b events = Ok (proof, cp, snapshot) ->
  (exists entry, head (bo_entries b) = Some entry /\
     VerifyProof (with_clock (bo_policy b) (bc_proof w)) (bo_reference b) (Entry entry) (Proof_ entry) = Ok proof) /\
  VCheckpoint proof = Some cp /\ CpSize cp = bo_complete b /\ bo_expires b <= CheckpointFreshnessTime proof + MaxBundleLifetime trust /\
  SnapshotAt (Some (NewDomainLog (bo_fqdn b) events)) (bc_now w) = Ok snapshot /\
  verifyBundleState (object !! "state"%string) snapshot events = Ok tt.
Proof.
  unfold check_replay. destruct (bo_entries b) as [|entry rest]; [done|].
  destruct (VerifyProof _ _ _ _) as [p|] eqn:Ep; [|done]. cbn [mbind res_bind]. destruct (after _ _) eqn:Ea; [done|]. apply Z.ltb_ge in Ea.
  destruct (VCheckpoint p) as [c|] eqn:Ec; [|done]. destruct (bo_complete b =? CpSize c) eqn:Es; [|done]. apply Z.eqb_eq in Es. cbn [negb].
  destruct (SnapshotAt _ _) as [sn|] eqn:En; [|done]. cbn [mbind res_bind]. destruct (verifyBundleState _ _ _) as [[]|] eqn:Ev; [|done].
  cbn [mbind res_bind]. intros [= <- <- <-]. split_and!; try done. by exists entry.
Qed.

(** The signed object says what the verified bundle holds. *)
Record signed_fields (trust : StreamBundleTrust) (object : payload) (vb : VerifiedStreamBundle) : Prop := {
  sf_format : bundleUint object "v" = Ok StreamBundleVersion /\ bundleString object "type" = Ok StreamBundleType /\
    bundleString object "completeness_mode" = Ok (bs_completenessMode (vb_Source vb));
  sf_fqdn : bundleString object "fqdn" = Ok (vb_FQDN vb) /\ bs_domain (vb_Source vb) = vb_FQDN vb;
  sf_log : exists lr, bundleString object "lr" = Ok lr /\ ParseReference lr = Ok (vb_Reference vb) /\ bs_reference (vb_Source vb) = vb_Reference vb;
  sf_expires : exists sec, bundleUint object "expires" = Ok sec /\ vb_Expires vb = time_Unix sec /\ bs_expires (vb_Source vb) = vb_Expires vb;
  sf_policy : object !! "policy_hash"%string = Some (VString (Base64.encode (sha256 (PolicyDocument trust))));
  sf_size : bundleUint object "complete_through_size" = Ok (vb_CompleteThroughSize vb) /\ bs_completeThrough (vb_Source vb) = vb_CompleteThroughSize vb;
  sf_checkpoint : object !! "checkpoint"%string = Some (VString (Base64.encode (bs_checkpoint (vb_Source vb))));
  sf_events : exists items, object !! "events"%string = Some (VArray items) /\
    Forall2 (says_entry (bs_checkpoint (vb_Source vb))) items (bs_entries (vb_Source vb));
  sf_state : exists state, object !! "state"%string = Some (VObject state) /\ bundleString state "logged_state" = Ok (vb_LoggedState vb) /\
    bundleUint state "event_count" = Ok (Z.of_nat (List.length (vb_Events vb))) /\
    exists e, last (vb_Events vb) = Some e /\ bundleString state "last_event_type" = Ok (type_string (Type_ e))
}.

(** The replay behind a verified bundle. *)
Record replayed_bundle (trust : StreamBundleTrust) (w : bundle_call) (vb : VerifiedStreamBundle) (c : Client) (l : list verifiedEvent) (h : standing) : Prop := {
  rb_reference : client_ref c = vb_Reference vb;
  rb_policy : exists q, ParsePolicy (bc_proof w) (PolicyDocument trust) = Ok q /\ client_policy c = bundle_policy trust q;
  rb_stream : verified_stream (migration_verifier c (bc_client w)) l h;
  rb_migrations : verifyMigration c = MigrationVerifier trust /\ migrationLimits c = withDefaults (MigrationLimits trust);
  rb_events : vb_Events vb = imports_of l ++ (v_event <$> l);
  rb_proven : Forall (proven_event c (bc_client w) (vb_FQDN vb) None (bs_entries (vb_Source vb))) l;
  rb_checkpoint : Forall (under_checkpoint (bs_checkpoint (vb_Source vb))) (bs_entries (vb_Source vb));
  rb_ordered : StronglySorted Z.lt (pe_Index <$> bs_entries (vb_Source vb));
  rb_complete : exists entry proof cp, head (bs_entries (vb_Source vb)) = Some entry /\
    VerifyProof (with_clock (client_policy c) (bc_proof w)) (client_ref c) (Entry entry) (Proof_ entry) = Ok proof /\
    VCheckpoint proof = Some cp /\ CpSize cp = vb_CompleteThroughSize vb /\
    vb_Expires vb <= CheckpointFreshnessTime proof + MaxBundleLifetime trust;
  rb_alive : bc_now w < vb_Expires vb /\ bc_check w < vb_Expires vb;
  rb_snapshot : SnapshotAt (Some (NewDomainLog (vb_FQDN vb) (vb_Events vb))) (bc_now w) = Ok (vb_Snapshot vb) /\
    vb_LoggedState vb = historical_string (vb_Snapshot vb)
}.

Lemma bundle_replayed (trust : StreamBundleTrust) w s data vb s' : VerifyStreamBundle trust w s data = (Ok vb, s') ->
  exists object c l h, signed_bundle trust data object (vb_SignerKeyID vb) /\ signed_fields trust object vb /\ replayed_bundle trust w vb c l h.
Proof.
  intros (object & kid & b & c & events & proof & cp & snapshot & H1 & H2 & H3 & H4 & H5 & H6 & H7 & ->)%verify_bundle_parts.
  pose proof (check_signature_signed _ _ _ _ H1 H2) as Hs.
  apply read_contents_facts in H3 as (Hfq & Hlr & Hr & (sec & Hsec & Hex) & Hnow & _ & Hp & Hcpt & Hsize & He & _ & Hfmt).
  apply read_policy_facts in Hp as (q & Hq & Hpol & Hskip & Hhash).
  destruct (bundle_client_facts _ _ _ H4 Hr) as (Cr & Cp & _ & Cv & Cl & Hh). destruct (Hh _ _ _ H5) as (l & s1 & Hv).
  apply check_replay_facts in H6 as (He1 & Hcp & Hsz & Hexp & Hsn & Hst).
  apply verified_history_facts in Hv as ((h & Hstr) & _ & Hev & Hpr); [|congruence].
  exists object, c, l, h. split; [done|]. unfold parseBundleEntries in He. destruct (object !! "events"%string) as [[]|] eqn:Eev; try done.
  destruct (_ || _) in He; [done|]. pose proof (bundle_entries_said _ _ _ _ He) as Hsaid. apply bundle_entries_facts in He as (B1 & B2 & _).
  apply format_facts in Hfmt as (F1 & F2 & F3). apply bundle_state_facts in Hst as (state & Hst).
  split; [split; cbn; try done; eauto|].
  split; cbn; try done; [exists q; split; congruence|].
  destruct He1 as (entry & He1 & He2). exists entry, proof, cp. rewrite Cr, Cp. done.
Qed.

(** C11: a bundle is worth its signature and its proofs. When
    [VerifyStreamBundle] accepts [data], it is the canonical form of an object
    whose text was signed by the one verifier among those configured that its
    kid names; the events are a verified stream of the domain, every one
    proven under the policy of the verifier's own document to one checkpoint
    of the stated size, in strictly increasing order of their indices; the
    bundle is alive at both readings of the clock and does not outlive its
    checkpoint by more than the configured time. Everything it is verified to
    be is what the signed object says, field by field: domain, log, expiry,
    policy, size, checkpoint, each entry with its index and proof, and the
    state, which is the state of the replay. *)
Theorem verified_bundle_is_signed_and_replayed (trust : StreamBundleTrust) w s data vb s' :
  VerifyStreamBundle trust w s data = (Ok vb, s') ->
  exists object c l h, signed_bundle trust data object (vb_SignerKeyID vb) /\ signed_fields trust object vb /\ replayed_bundle trust w vb c l h.
Proof. apply bundle_replayed. Qed.

(** ** The signed text fixes the rest *)
Lemma bundle_object_plain (trust : StreamBundleTrust) data object : parse_stream_bundle trust data = Ok object ->
  norm <$> object = object /\ (height (VObject object) <= 64)%nat.
Proof.
  intros (Hd & Hc & _)%parse_bundle_facts. pose proof (DecodeObject_shallow _ _ Hd) as Hh. split; [|done].
  pose proof (decode_written object data (canonicalJSON_write _ _ Hc) Hh). congruence.
Qed.
Lemma unsigned_bundle_binds (t1 t2 : StreamBundleTrust) d1 d2 o1 o2 u :
  parse_stream_bundle t1 d1 = Ok o1 -> parse_stream_bundle t2 d2 = Ok o2 -> unsigned_bundle o1 = Ok u -> unsigned_bundle o2 = Ok u ->
  forall k, k <> "sig"%string -> o1 !! k = o2 !! k.
Proof.
  intros H1 H2 U1 U2 k Hk. apply bundle_object_plain in H1 as [N1 S1], H2 as [N2 S2].
  pose proof (height_delete o1 "sig"). pose proof (height_delete o2 "sig").
  pose proof (decode_written _ _ (canonicalJSON_write _ _ U1) ltac:(lia)) as D1.
  pose proof (decode_written _ _ (canonicalJSON_write _ _ U2) ltac:(lia)) as D2.
  rewrite D1 in D2. injection D2 as D2. rewrite !fmap_delete, N1, N2 in D2.
  rewrite <- (lookup_delete_ne o1 "sig"%string k), D2 by done. by apply lookup_delete_ne.
Qed.

(** One signed text, one bundle. Two bundles that are accepted, by
    whatever trust and at whatever times, and whose texts without the
    signature agree, say the same: the same log and domain, the same entries
    with the same proofs, the same checkpoint and completeness bound, and the
    same expiry. *)
Theorem signed_text_fixes_the_bundle (t1 t2 : StreamBundleTrust) w1 w2 s1 s2 d1 d2 v1 v2 s1' s2' o1 o2 u :
  VerifyStreamBundle t1 w1 s1 d1 = (Ok v1, s1') -> VerifyStreamBundle t2 w2 s2 d2 = (Ok v2, s2') ->
  DecodeObject d1 = Ok o1 -> DecodeObject d2 = Ok o2 -> unsigned_bundle o1 = Ok u -> unsigned_bundle o2 = Ok u ->
  vb_Reference v1 = vb_Reference v2 /\ vb_FQDN v1 = vb_FQDN v2 /\ vb_Expires v1 = vb_Expires v2 /\
  vb_CompleteThroughSize v1 = vb_CompleteThroughSize v2 /\
  bs_entries (vb_Source v1) = bs_entries (vb_Source v2) /\ bs_checkpoint (vb_Source v1) = bs_checkpoint (vb_Source v2).
Proof.
  intros (p1 & k1 & b1 & c1 & e1 & f1 & g1 & n1 & P1 & _ & R1 & _ & _ & _ & _ & ->)%verify_bundle_parts
    (p2 & k2 & b2 & c2 & e2 & f2 & g2 & n2 & P2 & _ & R2 & _ & _ & _ & _ & ->)%verify_bundle_parts D1 D2 U1 U2.
  pose proof (parse_bundle_facts _ _ _ P1) as (D1' & _). pose proof (parse_bundle_facts _ _ _ P2) as (D2' & _).
  rewrite D1 in D1'. rewrite D2 in D2'. injection D1' as <-. injection D2' as <-.
  pose proof (unsigned_bundle_binds _ _ _ _ _ _ _ P1 P2 U1 U2) as Hf.
  apply read_contents_facts in R1 as (A1 & A2 & A3 & (x1 & A4 & A5) & _ & _ & _ & A6 & A7 & A8 & _ & _).
  apply read_contents_facts in R2 as (B1 & B2 & B3 & (x2 & B4 & B5) & _ & _ & _ & B6 & B7 & B8 & _).
  unfold bundleString, bundleUint, parseBundleEntries in *. rewrite Hf in A1, A2, A4, A6, A7, A8 by done.
  rewrite A6 in B6. injection B6 as B6%encode_inj. rewrite <- B6 in B8.
  assert (bo_lr b1 = bo_lr b2) as Elr by congruence. rewrite Elr in A3. cbn. split_and!; try congruence.
  destruct (o2 !! "events"%string) as [[]|]; try done. destruct (_ || _) in A8; [done|]. destruct (_ || _) in B8; [done|]. congruence.
Qed.

(** ** Answers that rest on a served bundle *)
Section served.
Context {W : World}.

Lemma loaded_bundle (f : fetchedStreamBundleSource) k w reference domain data vb :
  (forall normalized, NormalizeFQDN domain = Ok normalized ->
     fetchBounded k (bundle_endpoint reference normalized) (max_bytes (fs_trust f)) = Ok data) ->
  fs_load f k w reference domain = Ok vb ->
  exists b s', vb = Some b /\ VerifyStreamBundle (without_store (fs_trust f)) w None data = (Ok b, s') /\
    NormalizeFQDN domain = Ok (vb_FQDN b) /\ ref_String (vb_Reference b) = ref_String reference.
Proof.
  intros Hf. unfold fs_load. destruct (NormalizeFQDN domain) as [n|] eqn:En; [|done]. cbn [mbind res_bind]. rewrite (Hf n eq_refl).
  destruct (VerifyStreamBundle (without_store (fs_trust f)) w None data) as [[b|] s'] eqn:Ev; [|done]. cbn [fst mbind res_bind].
  destruct (match NormalizeFQDN (vb_FQDN b) with Ok _ => _ | Err _ => _ end) eqn:Ed; [done|].
  destruct (str_eqb (ref_String (vb_Reference b)) _) eqn:Er; [|done]. apply str_eqb_eq in Er. cbn [negb]. intros [= <-].
  exists b, s'. split_and!; try done. destruct (NormalizeFQDN (vb_FQDN b)) as [d|]; [|done].
  apply orb_false_iff in Ed as [E1%negb_false_iff%str_eqb_eq E2%negb_false_iff%str_eqb_eq]. congruence.
Qed.

(** C18: a completeness answer has a signer. When the log server serves a
    bundle at all, a successful non-revocation answer of a client over the
    fetching source rests on that bundle: the one accepted signer signed it,
    for this log and domain, its stream replays, and the bound and the
    checkpoint of the answer are those of the signed object. So a bundle that was served
    and is not acceptable is never replaced by the raw scan. *)
Theorem served_answers_are_signed (f : fetchedStreamBundleSource) k bw (c : Client) w s domain at_ ev s' data :
  skipProofVerify (client_policy c) = false ->
  source_RebuildCompleteHistory c = Some (fs_RebuildCompleteHistory f k bw (client_ref c)) ->
  (forall normalized, NormalizeFQDN domain = Ok normalized ->
     fetchBounded k (bundle_endpoint (client_ref c) normalized) (max_bytes (fs_trust f)) = Ok data) ->
  VerifyNonRevocation c w s domain at_ = (Ok ev, s') ->
  exists vb object cb l h, signed_bundle (fs_trust f) data object (vb_SignerKeyID vb) /\
    signed_fields (fs_trust f) object vb /\ replayed_bundle (without_store (fs_trust f)) bw vb cb l h /\
    ref_String (vb_Reference vb) = ref_String (client_ref c) /\ NormalizeFQDN domain = Ok (vb_FQDN vb) /\
    LoggedState ev = Some AgentStateActive /\ CompleteThrough ev = format_uint (Z.to_N (vb_CompleteThroughSize vb)) /\
    ev_Checkpoint ev = bs_checkpoint (vb_Source vb) /\
    exists v, verifyCheckpoint (with_clock (client_policy c) (checkpoint_clock w)) (client_ref c) (bs_checkpoint (vb_Source vb)) = Ok v /\
      checkpoint_size v = vb_CompleteThroughSize vb.
Proof.
  intros Hskip Hsrc Hserved H. destruct (non_revocation_parts _ _ _ _ _ _ _ Hskip H)
    as (read & complete & v & accepted & events & s1 & g & rest & snapshot & H1 & H2 & H3 & H4 & _ & _ & Hs & N1 & N2 & L1 & L2 & L3).
  pose proof (snapshot_state_active _ _ _ _ Hs N1 N2) as Hact. rewrite Hsrc in H1. injection H1 as <-.
  unfold fs_RebuildCompleteHistory in H2. destruct (fs_load f k bw (client_ref c) domain) as [o|] eqn:El; [|done]. cbn [mbind res_bind] in H2.
  destruct (loaded_bundle _ _ _ _ _ _ _ Hserved El) as (vb & sx & -> & Hv & Hn & Hr).
  destruct (bundle_replayed _ _ _ _ _ _ Hv) as (object & cb & l & h & Hsig & Hfi & Hrep).
  unfold bs_RebuildCompleteHistory in H2. destruct (negb _); [done|]. injection H2 as <-. cbn in *.
  destruct (sf_size _ _ _ Hfi) as [_ Hct].
  exists vb, object, cb, l, h. rewrite <- Hct. split_and!; try done; [by split; try apply Hfi|congruence|]. by exists v.
Qed.
End served.
End bundle.
