(* ===== verification/BundleDemo.v ===== *)
(** * BundleDemo: a concrete bundle

    The three entries of ClientDemo.v in one signed bundle, verified offline,
    and fetched by a client that answers a non-revocation query with it. *)

From Stdlib Require Import ZArith Lia Ascii String.
From S2P Require Import Prelude Codec Utf8 Numbers Jcs JcsSpec Keys Fqdn Lifecycle LogReader Merkle Evidence Reference Policy Checkpoint Scan Event EventSpec Replay ReplaySpec AppendSpec Client Reader ReaderSpec Demo ClientDemo Bundle BundleSpec.

Open Scope Z_scope.
#[local] Existing Instance log_notes.
#[local] Existing Instance rfc6962_tlog.
#[local] Existing Instance demo_lib.

Definition bundle_sign (v : Verifier) (text : string) : string :=
  String.append (sha256 (String.append (VKey v) text)) (sha256 (String.append text (VKey v))).
#[local] Instance bundle_lib : BundleLib := {
  note_Verify v text sig := str_eqb sig (bundle_sign v text);
  MarshalProof p := format_uint (Z.to_N (PfIndex p))
}.

Definition bundle_signer : Verifier := {| VName := "index.example"; VKeyHash := 2864434397; VKey := "k" |}.
Definition old_signer : Verifier := {| VName := "index.example"; VKeyHash := 1; VKey := "old" |}.
Definition bundle_policy_text : string :=
  String.concat (String newline "") ["log log.example+0+AQID"; "witness w1 w1+0+BAQE"; "quorum w1"; ""].

Definition bundle_item (i : Z) (entry : string) : value :=
  VObject (<["entry"%string := VString (Base64.encode entry)]> (<["index"%string := VNumber (format_uint (Z.to_N i))]>
    (<["proof"%string := VString (Base64.encode (String.concat "" (PfHashes (log_proof i))))]> ∅))).
Definition bundle_state : value :=
  VObject (<["event_count"%string := VNumber "3"]> (<["last_event_type"%string := VString (type_string LogEventRetirement)]>
    (<["logged_state"%string := VString (state_string AgentStateRetired)]> ∅))).
Definition unsigned_object : payload :=
  <["checkpoint" := VString (Base64.encode "cp")]> (<["complete_through_size" := VNumber "3"]>
  (<["completeness_mode" := VString StreamBundleTrustedIndex]>
  (<["events" := VArray [bundle_item 0 demo_e0; bundle_item 1 demo_e1; bundle_item 2 demo_e2]]> (<["expires" := VNumber "4100"]>
  (<["fqdn" := VString log_domain]> (<["lr" := VString (ref_String demo_ref)]>
  (<["policy_hash" := VString (Base64.encode (sha256 bundle_policy_text))]> (<["state" := bundle_state]>
  (<["type" := VString StreamBundleType]> (<["v" := VNumber "1"]> ∅)))))))))).
Definition bundle_text : string := Eval vm_compute in value_of "" (canonicalJSON (VObject unsigned_object)).
Definition bundle_object : payload :=
  <["sig"%string := VObject (<["alg"%string := VString "EdDSA"]> (<["kid"%string := VString (verifier_id bundle_signer)]>
     (<["value"%string := VString (Base64.encode (bundle_sign bundle_signer bundle_text))]> ∅)))]> unsigned_object.
Definition bundle_data : string := Eval vm_compute in value_of "" (canonicalJSON (VObject bundle_object)).

Definition demo_trust : StreamBundleTrust (key:=demo_key) :=
  {| PolicyDocument := bundle_policy_text; BundleVerifier := Some bundle_signer; BundleVerifiers := [None; Some old_signer];
     MaxBundleLifetime := 3600 * second; trust_MaxCheckpointAge := 3600 * second; trust_ClockSkew := 0; MaxBundleBytes := 0; MaxEvents := 0;
     MaxTreeSize := 0; TrustedCheckpointStore := false; MigrationVerifier := None; MigrationLimits := defaultMigrationVerificationLimits;
     trust_json_size _ := Ok 0 |}.
Definition demo_bundle_call : bundle_call :=
  {| bc_now := unix_time 4001; bc_client := log_call (unix_time 4001); bc_proof _ := unix_time 4001; bc_done := false;
     bc_check := unix_time 4002; bc_adv := demo_env |}.

Lemma bundle_verified : exists vb, VerifyStreamBundle demo_trust demo_bundle_call None bundle_data = (Ok vb, None) /\
  vb_LoggedState vb = "RETIRED"%string /\ vb_CompleteThroughSize vb = 3.
Proof. eexists. split; [vm_compute; reflexivity|]. split; reflexivity. Qed.
Lemma bundle_parses : exists o u, DecodeObject bundle_data = Ok o /\ unsigned_bundle o = Ok u.
Proof. exists (value_of ∅ (DecodeObject bundle_data)), bundle_text. split; vm_compute; reflexivity. Qed.

(** The client that fetches it. *)
#[local] Instance bundle_world : World := { ctx_err _ := None; FetchBounded _ _ _ := Ok bundle_data }.
Definition demo_fetched : fetchedStreamBundleSource (key:=demo_key) := {| fs_fallback := None; fs_trust := demo_trust; fs_requireBundle := true |}.
Definition fetching_client : Client (key:=demo_key) :=
  {| client_ref := demo_ref; client_policy := log_policy; store_configured := false; verifyMigration := None;
     migrationLimits := defaultMigrationVerificationLimits; trustedScope := ""; trustedLogPrefix := ""; preloaded := None;
     source_configured := true; source_ReadEvent := fs_ReadEvent demo_fetched 0 demo_bundle_call;
     source_RebuildHistory := fs_RebuildHistory demo_fetched 0 demo_bundle_call demo_ref;
     source_RebuildCompleteHistory := Some (fs_RebuildCompleteHistory demo_fetched 0 demo_bundle_call demo_ref);
     GlobalCandidates := true; migration_json_size _ := Ok 0 |}.
Lemma fetched_answer : exists ev, VerifyNonRevocation fetching_client (log_call log_at) None log_domain log_at = (Ok ev, None).
Proof. eexists. vm_compute. reflexivity. Qed.

(** ** Witnesses *)
Lemma verified_bundle_is_signed_and_replayed_witness : exists vb object c l h,
  VerifyStreamBundle demo_trust demo_bundle_call None bundle_data = (Ok vb, None) /\ vb_LoggedState vb = "RETIRED"%string /\
  signed_bundle demo_trust bundle_data object (vb_SignerKeyID vb) /\ replayed_bundle demo_trust demo_bundle_call vb c l h.
Proof.
  destruct bundle_verified as (vb & H & Hs & _).
  destruct (verified_bundle_is_signed_and_replayed demo_trust demo_bundle_call None bundle_data vb None H) as (o & c & l & h & H1 & _ & H2).
  exists vb, o, c, l, h. exact (conj H (conj Hs (conj H1 H2))).
Defined.

Lemma signed_text_fixes_the_bundle_witness : exists vb,
  VerifyStreamBundle demo_trust demo_bundle_call None bundle_data = (Ok vb, None) /\ vb_FQDN vb = vb_FQDN vb.
Proof.
  destruct bundle_verified as (vb & H & _). destruct bundle_parses as (o & u & Ho & Hu).
  destruct (signed_text_fixes_the_bundle demo_trust demo_trust demo_bundle_call demo_bundle_call None None bundle_data bundle_data vb vb None None
    o o u H H Ho Ho Hu Hu) as (_ & Hf & _).
  exists vb. exact (conj H Hf).
Defined.

Lemma served_answers_are_signed_witness : exists ev (vb : VerifiedStreamBundle (key:=demo_key)),
  VerifyNonRevocation fetching_client (log_call log_at) None log_domain log_at = (Ok ev, None) /\
  LoggedState ev = Some AgentStateActive /\ ev_Checkpoint ev = bs_checkpoint (vb_Source vb).
Proof.
  destruct fetched_answer as (ev & H).
  destruct (served_answers_are_signed demo_fetched 0 demo_bundle_call fetching_client (log_call log_at) None log_domain log_at ev None bundle_data
    eq_refl eq_refl (fun _ _ => eq_refl) H) as (vb & _ & _ & _ & _ & _ & _ & _ & _ & _ & Hs & _ & Hc & _).
  exists ev, vb. exact (conj H (conj Hs Hc)).
Defined.
